(* ===== verification/_CoqProject ===== *)
-Q . S2P
Prelude.v
Wait.v
Command.v
Galois.v
GF256.v
Jerasure.v
Gauss.v
Vandermonde.v
ReedSol.v
Encode.v
RSUtil.v
Text.v
Config.v
UpdPlan.v
UPCoordinator.v
UPDriver.v
Trace.v
Disk.v
UPNode.v
UPCrd.v
CrdStripe.v
RaidDelta.v
PathSelection.v
Coordinator.v
Packet.v
Metadata.v
DrCmd.v
Request.v
Hdfs3.v
Hdfs3Laws.v
BlockReporter.v
Hdfs.v
HdfsLaws.v
HdfsChoice.v
Qfs.v
QfsLaws.v
ConfigFile.v
CoordInit.v
PipeRepair.v
PipeWait.v
MulRepair.v
MulProgress.v
MulWait.v
PPRTree.v
PPRRepair.v
PPRWait.v
PipeCoord.v
MulCoord.v
PPRCoord.v
PipeSystem.v
MulSystem.v
CyclSched.v
CyclRepair.v
CyclProgress.v
CyclLive.v
CyclResult.v
CyclWait.v
CyclSystem.v
CyclFaults.v
ConvRepair.v
ConvWait.v
ConvProgress.v
ConvCoord.v
ConvSystem.v
HdfsSystem.v
PPRSystem.v
Cluster.v
