(* ===== verification/Prelude.v ===== *)
(** * CoRD: verification development

    CoRD (src/CoRD) keeps blocks of files in stripes of [k] data blocks and
    [m] parity blocks of a Reed-Solomon code over GF(2^8).  It has two halves,
    which meet only in the code.

    - The update half.  A coordinator (UPCoordinator.cc) replays a trace of
      writes, merges them into a log, plans the updates of every stripe under
      one of three policies (raid, delta, crd) and pushes one command per node
      through Redis; the nodes (UPNode.cc) read and write block files, exchange
      data and parity deltas, and the parity nodes acknowledge.
    - The repair half.  A client (ECPipeInputStream.cc) asks for lost blocks; a
      coordinator (Coordinator.cc and one subclass per scheme) finds the stripe
      in the metadata of the file system (MetadataBase.hh), computes decoding
      coefficients (RSUtil.cc) and commands helpers (DRWorker.cc and one
      subclass per scheme), which multiply their blocks by the coefficients and
      add them up on their way to the client.

    Both stand on Util/galois.c, Util/jerasure.c and Util/reed_sol.c.

    ** Files

    Foundations.
    - Prelude.v: faults, the error monad [res], loops, lists, exclusive ors.
    - Wait.v: threads that wait on condition variables: what a [scheme] of threads
      is, its steps with mutexes, sleeps, notifications and spurious wake-ups, and
      what follows from laws on its iterations alone ([delivers]).
    - Command.v: memory regions, [memcpy] with its bounds, the little-endian
      image of an [int], the writer and the reader of a command buffer.
    - Text.v: decimal numbers, [splite_string], [ip2Str].
    - Config.v: the members of [Config] the other files read; replies of Redis.
    - ConfigFile.v (Config.cc): the constructor of [Config] on the attributes of
      the configuration file, with all its members.
    - CoordInit.v (Coordinator.cc, ECCoordinator.cc, ECHelper.cc): the matrix file,
      and which coordinator and worker a configuration starts.

    The code.
    - Galois.v (galois.c): the width-8 operations, over GF-Complete as a class
      with its laws; GF256.v is a concrete field that has them.
    - Jerasure.v (jerasure.c): inversion, product, dot product, encoding;
      Gauss.v and Encode.v prove them.
    - ReedSol.v (reed_sol.c): the Vandermonde generator; Vandermonde.v has the
      linear algebra.
    - RSUtil.v (RSUtil.cc): the decoding coefficients.

    The update half.
    - UpdPlan.v, UPCoordinator.v, UPDriver.v, Trace.v (UPCoordinator.cc,
      UpdBlock.hh): grouping, commands, the request queue, the trace.
    - Disk.v, UPNode.v (UPNode.cc): block files and the eight handlers.
    - UPCrd.v, CrdStripe.v: the crd policy on the nodes of a stripe;
      RaidDelta.v: the other two policies.
    - Cluster.v: the nodes as processes, [CrdUpdate] to the disks.

    The repair half.
    - PathSelection.v (PathSelection.cc): the choice of a path of helpers.
    - Coordinator.v (Coordinator.cc): queues, binary searches, cyclic reply.
    - Packet.v (DRWorker.cc, Computation.cc): what the workers share.
    - Metadata.v (MetadataBase.hh): the interface [MetadataBase] and its laws,
      [StripeLaws] and the stronger [MetadataLaws].  Hdfs3.v and Hdfs3Laws.v
      (HDFS3_MetadataBase.cc) are an implementation and its laws; Hdfs.v and
      HdfsLaws.v (HDFS_MetadataBase.cc) another on the same maps, and
      HdfsChoice.v its choices of helpers by racks and by use; Qfs.v and QfsLaws.v
      (QFS_MetadataBase.cc) a third, filled by one message per lost chunk.  The
      schemes are proved against the interface only.
    - BlockReporter.v (BlockReporter.cc): what the nodes report, and the
      metadata of HDFS 3 from the directories of the nodes on.
    - Request.v (ECPipeInputStream.cc, Coordinator.cc): requests.
    - DrCmd.v: the commands of the pipelines.
    - PipeCoord.v, PipeRepair.v, PipeSystem.v (PipeCoordinator.cc,
      PipeDRWorker.cc, [pipeCollector]): the basic pipeline: handler, threads,
      and both put together with the client and the metadata.
    - PipeWait.v, PPRWait.v, MulWait.v, ConvWait.v, CyclWait.v: the threads of the
      five schemes with the mutexes and condition variables they wait on, each as
      a [scheme] of Wait.v; the theorems of the ...System.v files are about these.
    - MulRepair.v, MulProgress.v, MulCoord.v, MulSystem.v (PipeMulDRWorker.cc,
      PipeMulCoordinator.cc, [pipeForwardWorker]): the pipelines of several lost
      blocks.  Seen by one block the system is a basic pipeline, and MulProgress.v
      proves it against PipeRepair.v.
    - CyclSched.v, CyclRepair.v, CyclProgress.v, CyclLive.v, CyclResult.v,
      CyclSystem.v (CyclMulFRWorker.cc, [cyclCollector], [cyclReceiver]): the
      cyclic repair, where the helpers are a ring and each reads the slices in
      an order of its own; CyclFaults.v: where it goes wrong.
    - PPRTree.v, PPRRepair.v, PPRCoord.v, PPRSystem.v (PPRPullDRWorker.cc,
      PPRCoordinator.cc): the partial parallel repair, in the same parts.
    - ConvRepair.v, ConvProgress.v, ConvCoord.v, ConvSystem.v (ConvDRWorker.cc,
      [passiveReceiver] of DRWorker.cc, ConvCoordinator.cc, the end of
      [sendRequest]): the conventional repair, in the same parts: the client's
      node rebuilds every lost block, and the other nodes fetch theirs from it;
      HdfsSystem.v puts it together with the metadata of HDFS.

    ** What the theorems show

    - The code corrects erasures: the Vandermonde generator gives a matrix any
      [k] rows of which are independent, inversion finds the inverse or refuses
      a singular matrix, the optimised encoding is the linear combination, and
      the coefficients of [RSUtil] rebuild every block.
    - The planning is right: splitting a request covers it exactly, the log
      stays consistent, the subsets of an update partition it, the queue of
      requests refines the direct replay, and the commands of each policy are
      exactly its plan, iff they fit their array.
    - The crd policy keeps the stripe: every handler has its contract, and a
      whole update, in any order of the nodes, ends with all acknowledgements, the
      new data, and the new parity wherever it was announced: the whole of it if
      no subset is announced short ([Cluster.crd_cluster_converges]).  The raid
      and delta policies do not keep the stripe; the findings say where.
    - The repair schemes return the lost block ([PipeSystem.hdfs3_pipe_repair],
      [PPRSystem.hdfs3_ppr_repair]), or all of them
      ([MulSystem.hdfs3_mul_repair], in the first repair of its helpers; the next
      may send stale packets: [MulProgress.stale_packet]): with the waits of the
      code and in every interleaving of the threads, no thread fails, every run
      ends unless sleepers wake up by themselves, and a complete one has given the
      client the right bytes; it can be completed if sleepers wake up by
      themselves, or as long as no thread is caught between its test and its sleep.
      When one is, a pipeline can stand still before the first packet
      ([PipeWait.lost_wakeup]).  So does the cyclic repair of one block
      ([CyclSystem.hdfs3_cycl_repair]), unless a thread of a helper runs before
      the helper is set up ([CyclFaults.cycl_race]); with several blocks it mixes
      up the jobs and the client may wait for ever.  The conventional repair puts
      every lost block back on its own node ([ConvSystem.conv_repair], and from the
      stripe store on [HdfsSystem.hdfs_conv_repair]), in HDFS; with other file
      systems the client of several blocks is never told
      ([ConvSystem.conv_never_told]).
    - The start: the order of the attributes of the configuration does not matter
      ([ConfigFile.Config_order]), and the matrix that [Coordinator::init] reads
      from a file, such as those of conf/, is the one that was generated
      ([CoordInit.init_rebuilds]).
    - The metadata bases keep their promises ([Hdfs3Laws.hdfs3_metadata];
      [HdfsLaws.hdfs_metadata] without rack.aware and msscheduling; and from the
      directories of the nodes on [BlockReporter.reported_metadata]); that of QFS
      keeps them for the chunk of its last message only ([QfsLaws.qfs_metadata],
      [QfsLaws.qfs_forgets]) and answers every message ([QfsLaws.qfs_answers]) but
      those it scans for ever ([QfsLaws.qfs_never_answers]).  With rack.aware the
      choice uses as few racks as can be ([HdfsChoice.rack_helpers]) if the
      requestor's rack holds a block of the stripe; if not it has undefined
      behaviour ([HdfsChoice.rack_alone]), and it may give helpers without a
      coefficient ([HdfsChoice.rack_coefs]).
    - Bounds and errors: what is read out of range, what never terminates, and
      which tests are unreachable.

    ** Modelling

    A function that can fail returns in [res]: [Exit] for [exit], [Undef] for
    undefined behaviour (an access outside a buffer or a vector, a division by
    zero, a signed overflow where it matters), [Blocked] for a wait that never
    ends.  A byte is a [Z] in [0, 256), a buffer a [list Z], a map a [gmap] or,
    when its order is walked, a sorted list.  Memory from [malloc] has arbitrary
    contents until written.  Objects the program does not own are parameters:
    GF-Complete, the number of bytes a [pread] moves, the replies of Redis and
    of the namenode, the order of the steps of the threads.

    Threads are step relations, in two layers.  The iterations (the ...Repair.v
    files): a step is the body of a loop of one thread, once its wait is over;
    every shared word of such a body is written under a mutex or by one thread
    only, and where that is not so the body is several steps ([cyclReceiver]).  An
    iteration whose condition does not hold yet, or whose pop finds nothing, is
    [Blocked].  The waits (the ...Wait.v files, on Wait.v): before its iteration a
    thread tests the condition, with or without the mutex as in the code; if it
    fails it takes the mutex, goes to sleep, is notified or wakes up by itself, and
    takes the mutex again; behind the iteration it notifies, with the mutexes the
    code locks for it.

    ** Fuel

    Loops of the code are folds over their ranges; the others take fuel.
    - [read_loop] and [write_loop]: the bytes left, as a call that returns moves
      at least one byte or is the end of the file.
    - [grow] and [split_sets]: the number of blocks, one of which leaves the
      rest in each round.
    - [searchCtx], [findCtx]: the length of the array, which halves.
    - [holder_loop]: the length of the stripe.
    - [scan_files]: the length of the request; [scan_stripes]: one more than the
      length of the listing; every round takes a character.
    - [scan_entries]: the length of the text and three more; a message needs one
      round per chunk and one more, or it is scanned for ever
      ([QfsLaws.qfs_answers], [QfsLaws.qfs_never_answers]).
    - [ISHelper]: the depth, which is at most [k].
    - [to_string]: 20 digits, more than an [int] or a [long long] has.
    - [getChildrenIndices], [getID]: the 32 bits of an [int].
    - [sched_plan], [pick_scheduled]: [_ecK], as every round plans or picks one
      more helper.
    - The liveness theorems of the schemes count work: [(3k+1)] iterations per
      packet in a pipeline of [k] helpers; [k (1 + 2j) + 2j] for [j] lost blocks;
      in a tree, two per packet and node and one per child; in a conventional
      repair [4k + 2j + 2], and one more for each of the other [j - 1] nodes,
      which tell the client in one iteration and are heard in one.  For the
      cyclic repair, whose threads also wait for their setup, [all_ywork] is a
      bound: four per packet and helper, three per packet and connection of the
      client and one to write it, and the setup.
    A theorem that needs the fuel says that the result is reached with it.

    ** Not modelled

    Connections, printing and timing; tinyxml2 (vendored), whose elements are the
    input of ConfigFile.v; the link weights [init] reads; ECPipeClient.cc, which
    passes its arguments on; [getRandomBlks], which nobody calls; the patches of
    Hadoop and QFS; the bit-matrix, schedule and Cauchy coding of jerasure, which
    nothing calls.  The memory model is outside the step relations: memory is
    sequentially consistent.  The timeout of 100 seconds of the repair workers'
    pops is not modelled.

    The workers are those of the options the code is built with (DROpt.hh):
    [CONV_OPT] is 1, and the commands of pops of the cyclic scheme do not name
    slices.  CyclCoordinator.cc is left out, as its constructor ends the program,
    and CyclDRWorker.cc, as no client pops the keys it pushes its last packets
    to: the cyclic scheme that works is that of PipeMulCoordinator.cc and
    CyclMulFRWorker.cc. *)
From Stdlib Require Export ZArith Lia.
From stdpp Require Export base tactics numbers option list gmap.
From stdpp Require Import strings.

#[global] Open Scope Z_scope.

(** ** Faults

    The C++ code fails in three ways that matter to a caller: it calls [exit],
    it has undefined behaviour (a [memcpy] outside a buffer, a read of an index
    a vector does not have) or it waits for a message that never comes. *)
Inductive fault :=
  | Exit (code : Z)
  | Undef
  | Blocked.

Inductive res (A : Type) :=
  | Ok (a : A)
  | Fault (f : fault).
Arguments Ok {A} a.
Arguments Fault {A} f.

#[export] Instance fault_eq_dec : EqDecision fault.
Proof. solve_decision. Defined.

#[export] Instance res_ret : MRet res := fun A a => Ok a.
#[export] Instance res_bind : MBind res := fun A B f m =>
  match m with Ok a => f a | Fault e => Fault e end.

Lemma bind_ok {A B} (f : A -> res B) (a : A) : (Ok a ≫= f) = f a.
Proof. reflexivity. Qed.

Lemma bind_fault {A B} (f : A -> res B) (e : fault) : (Fault e ≫= f) = Fault e.
Proof. reflexivity. Qed.

(** Statements in sequence: [f ;> g] runs [f], then [g] on the state it leaves. *)
Declare Scope cord_scope.
Definition seqr {A B C} (f : A -> res B) (g : B -> res C) : A -> res C := fun a => f a ≫= g.
Notation "f ;> g" := (seqr f g) (at level 63, right associativity) : cord_scope.
#[global] Open Scope cord_scope.

Lemma bind_assoc {A B C} (m : res A) (f : A -> res B) (g : B -> res C) :
  (m ≫= f) ≫= g = m ≫= (fun a => f a ≫= g).
Proof. by destruct m. Qed.

Lemma bind_ok_inv {A B} (m : res A) (f : A -> res B) (b : B) :
  m ≫= f = Ok b -> exists a, m = Ok a /\ f a = Ok b.
Proof. destruct m; [eauto | discriminate]. Qed.

(** [res_of_option f o] gives the value of [o], or the fault [f]. *)
Definition res_of_option {A} (f : fault) (o : option A) : res A :=
  match o with Some a => Ok a | None => Fault f end.

(** [guard_or f b] continues when [b] holds and faults otherwise. *)
Definition guard_or (f : fault) (b : bool) : res unit :=
  if b then Ok tt else Fault f.

Lemma res_of_option_ok {A} (f : fault) (o : option A) (a : A) :
  res_of_option f o = Ok a <-> o = Some a.
Proof. destruct o; simpl; split; congruence. Qed.

Lemma guard_or_ok (f : fault) (b : bool) : guard_or f b = Ok tt <-> b = true.
Proof. destruct b; simpl; split; congruence. Qed.

(** Inverts every [Ok] outcome of a monadic program in the context. *)
Ltac res_inv :=
  repeat match goal with
    | H : _ ≫= _ = Ok _ |- _ =>
        let a := fresh "v" in let H1 := fresh "Hm" in let H2 := fresh "Hk" in
        apply bind_ok_inv in H; destruct H as (a & H1 & H2)
    | H : res_of_option _ _ = Ok _ |- _ => apply res_of_option_ok in H
    | H : guard_or _ _ = Ok ?u |- _ => destruct u; apply guard_or_ok in H
    | H : Ok _ = Ok _ |- _ => injection H as H; subst
    | H : Fault _ = Ok _ |- _ => discriminate H
    end.

(** Closes a decidable fact about concrete data by evaluating its decision. *)
Ltac decided := apply (bool_decide_unpack _); vm_compute; exact I.

(** ** Monadic iteration *)

(** [for_each l f s]: the loop [for (x : l) s = f(x, s)]. *)
Fixpoint for_each {A S} (l : list A) (f : A -> S -> res S) (s : S) : res S :=
  match l with
  | [] => Ok s
  | x :: l' => s' ← f x s; for_each l' f s'
  end.

Lemma for_each_app {A S} (l1 l2 : list A) (f : A -> S -> res S) (s : S) :
  for_each (l1 ++ l2) f s = (s' ← for_each l1 f s; for_each l2 f s').
Proof.
  revert s; induction l1 as [|x l1 IH]; intros s; simpl; [done|].
  destruct (f x s) as [s'|e]; [apply IH | done].
Qed.

(** A loop invariant over the elements already consumed. *)
Lemma for_each_ind {A S} (P : list A -> S -> Prop) (f : A -> S -> res S) :
  forall (l done_ : list A) (s s' : S),
    P done_ s ->
    (forall d x s1 s2, P d s1 -> f x s1 = Ok s2 -> x ∈ l -> P (d ++ [x]) s2) ->
    for_each l f s = Ok s' -> P (done_ ++ l) s'.
Proof.
  induction l as [|x l IH]; intros d s s' HP Hstep Hrun; simpl in Hrun.
  - res_inv. by rewrite app_nil_r.
  - res_inv. rewrite (app_assoc d [x] l : d ++ x :: l = _).
    eapply IH; [| |exact Hk].
    + eapply Hstep; [exact HP | exact Hm | left].
    + intros d' y s1 s2 H1 H2 H3. eapply Hstep; [exact H1 | exact H2 | by right].
Qed.

(** A loop that collects one value per element. *)
Lemma for_each_gather {A B} (l : list A) (body : A -> list B -> res (list B)) (g : A -> B) acc :
  (forall x acc, x ∈ l -> body x acc = Ok (acc ++ [g x])) -> for_each l body acc = Ok (acc ++ (g <$> l)).
Proof.
  revert acc. induction l as [|x l IH]; intros acc Hf; cbn [for_each]; [by rewrite app_nil_r|].
  rewrite (Hf x) by left. rewrite bind_ok, IH by (intros y a Hy; apply Hf; by right). by rewrite <- app_assoc.
Qed.

Lemma for_each_collect {A B} (l : list A) (f : A -> res B) (g : A -> B) acc :
  (forall x, x ∈ l -> f x = Ok (g x)) ->
  for_each l (fun x acc => c ← f x; Ok (acc ++ [c])) acc = Ok (acc ++ (g <$> l)).
Proof. intros Hf. apply for_each_gather. intros x a Hx. by rewrite (Hf x Hx), bind_ok. Qed.

Lemma for_each_results {A B} (l : list A) (f : A -> res B) (ys acc : list B) :
  f <$> l = Ok <$> ys -> for_each l (fun x acc => c ← f x; Ok (acc ++ [c])) acc = Ok (acc ++ ys).
Proof.
  revert ys acc. induction l as [|x l IH]; intros [|y ys] acc E; [by rewrite app_nil_r|done|done|].
  rewrite !fmap_cons in E. injection E as Ex E. cbn [for_each]. rewrite Ex, !bind_ok, (IH ys) by done. by rewrite <- app_assoc.
Qed.

(** A loop that cannot fail. *)
Lemma for_each_total {A S} (P : nat -> S -> Prop) (l : list A) (f : A -> S -> res S) (s : S) :
  P 0%nat s -> (forall i x s, l !! i = Some x -> P i s -> exists s', f x s = Ok s' /\ P (1 + i)%nat s') ->
  exists s', for_each l f s = Ok s' /\ P (length l) s'.
Proof.
  revert P s. induction l as [|x l IH]; intros P s H0 Hs; [by exists s|].
  destruct (Hs 0%nat x s eq_refl H0) as (s1 & E & H1). cbn [for_each length]. rewrite E.
  apply (IH (fun i => P (1 + i)%nat)); [done|]. intros i y s2 Hy. exact (Hs (1 + i)%nat y s2 Hy).
Qed.

(** A list with its positions. *)
Lemma lookup_indexed {A} (l : list A) i x : zip (seq 0 (length l)) l !! i = Some x -> x.1 = i /\ l !! i = Some x.2.
Proof.
  destruct x as [j x]. intros H. apply lookup_zip_Some in H as (H1 & H2). apply lookup_seq in H1 as [-> _]. done.
Qed.
Lemma length_indexed {A} (l : list A) : length (zip (seq 0 (length l)) l) = length l.
Proof. rewrite length_zip_with, length_seq. lia. Qed.

(** ** Fixed-width integers *)

Definition is_byte (b : Z) : Prop := 0 <= b < 256.
Definition is_s32 (z : Z) : Prop := -2^31 <= z < 2^31.
Definition is_u32 (z : Z) : Prop := 0 <= z < 2^32.

#[export] Instance is_byte_dec b : Decision (is_byte b).
Proof. unfold is_byte. apply _. Defined.
#[export] Instance is_s32_dec z : Decision (is_s32 z).
Proof. unfold is_s32. apply _. Defined.
#[export] Instance is_u32_dec z : Decision (is_u32 z).
Proof. unfold is_u32. apply _. Defined.

(** The value of a 64-bit integer stored into an [unsigned int] or an [int]. *)
Definition wrap_u32 (z : Z) : Z := z mod 2^32.
Definition wrap_s32 (z : Z) : Z := (z + 2^31) mod 2^32 - 2^31.

Lemma wrap_s32_id z : is_s32 z -> wrap_s32 z = z.
Proof. unfold is_s32, wrap_s32; intros. rewrite Z.mod_small; lia. Qed.

Lemma wrap_u32_id z : is_u32 z -> wrap_u32 z = z.
Proof. unfold is_u32, wrap_u32; intros. by rewrite Z.mod_small. Qed.

Lemma wrap_s32_range z : is_s32 (wrap_s32 z).
Proof.
  unfold is_s32, wrap_s32.
  pose proof (Z.mod_pos_bound (z + 2^31) (2^32) ltac:(lia)). lia.
Qed.

(** ** Exclusive or on bytes *)

Create HintDb cord discriminated.

Lemma is_byte_0 : is_byte 0.
Proof. unfold is_byte; lia. Qed.
Lemma is_byte_1 : is_byte 1.
Proof. unfold is_byte; lia. Qed.

Lemma is_byte_land a : is_byte a <-> Z.land a 255 = a.
Proof.
  unfold is_byte. change 255 with (Z.ones 8).
  rewrite Z.land_ones by lia. split.
  - intros; apply Z.mod_small; lia.
  - intros <-. apply Z.mod_pos_bound; lia.
Qed.

Lemma Z_land_lxor_distr_l a b c :
  Z.land (Z.lxor a b) c = Z.lxor (Z.land a c) (Z.land b c).
Proof.
  apply Z.bits_inj'; intros n Hn.
  rewrite !Z.land_spec, !Z.lxor_spec, !Z.land_spec.
  destruct (Z.testbit a n), (Z.testbit b n), (Z.testbit c n); reflexivity.
Qed.

Lemma is_byte_lxor a b : is_byte a -> is_byte b -> is_byte (Z.lxor a b).
Proof. rewrite !is_byte_land, Z_land_lxor_distr_l. by intros -> ->. Qed.

#[export] Hint Resolve is_byte_0 is_byte_1 is_byte_lxor : cord.

Lemma lxor_cancel_l a b : Z.lxor a (Z.lxor a b) = b.
Proof. by rewrite <- Z.lxor_assoc, Z.lxor_nilpotent, Z.lxor_0_l. Qed.

Lemma lxor_swap a b c : Z.lxor a (Z.lxor b c) = Z.lxor b (Z.lxor a c).
Proof. by rewrite <- !Z.lxor_assoc, (Z.lxor_comm a b). Qed.

Lemma lxor_4_swap a b c d :
  Z.lxor (Z.lxor a b) (Z.lxor c d) = Z.lxor (Z.lxor a c) (Z.lxor b d).
Proof. by rewrite !Z.lxor_assoc, (lxor_swap b c d). Qed.

(** ** Exclusive-or sums: [xsum n f] is [f 0 ^ f 1 ^ ... ^ f (n-1)]. *)
Fixpoint xsum (n : nat) (f : nat -> Z) : Z :=
  match n with
  | O => 0
  | S m => Z.lxor (xsum m f) (f m)
  end.

Lemma xsum_ext n f g :
  (forall i, (i < n)%nat -> f i = g i) -> xsum n f = xsum n g.
Proof.
  induction n as [|n IH]; intros H; simpl; [done|].
  rewrite IH by (intros; apply H; lia). by rewrite H by lia.
Qed.

Lemma xsum_lxor n f g :
  xsum n (fun i => Z.lxor (f i) (g i)) = Z.lxor (xsum n f) (xsum n g).
Proof.
  induction n as [|n IH]; simpl; [done|].
  by rewrite IH, lxor_4_swap.
Qed.

Lemma xsum_zero n f : (forall i, (i < n)%nat -> f i = 0) -> xsum n f = 0.
Proof.
  induction n as [|n IH]; intros H; simpl; [done|].
  rewrite IH by (intros; apply H; lia). by rewrite H by lia.
Qed.

Lemma xsum_byte n f : (forall i, (i < n)%nat -> is_byte (f i)) -> is_byte (xsum n f).
Proof.
  induction n as [|n IH]; intros H; simpl; [auto with cord|].
  apply is_byte_lxor; [apply IH; intros; apply H; lia | apply H; lia].
Qed.

Lemma xsum_single n f k :
  (k < n)%nat -> (forall i, (i < n)%nat -> i <> k -> f i = 0) -> xsum n f = f k.
Proof.
  induction n as [|n IH]; intros Hk H; [lia|]. simpl.
  destruct (decide (k = n)) as [->|Hne].
  - rewrite xsum_zero by (intros; apply H; lia). by rewrite Z.lxor_0_l.
  - rewrite IH by (lia || (intros; apply H; lia)). by rewrite (H n), Z.lxor_0_r by lia.
Qed.

Lemma xsum_swap n m (f : nat -> nat -> Z) :
  xsum n (fun i => xsum m (fun j => f i j)) = xsum m (fun j => xsum n (fun i => f i j)).
Proof.
  induction n as [|n IH]; simpl.
  - by rewrite xsum_zero.
  - by rewrite IH, xsum_lxor.
Qed.

(** Splitting a sum at an index. *)
Lemma xsum_plus n m f : xsum (n + m) f = Z.lxor (xsum n f) (xsum m (fun i => f (n + i)%nat)).
Proof.
  induction m as [|m IH].
  - by rewrite Nat.add_0_r, Z.lxor_0_r.
  - rewrite Nat.add_succ_r; simpl. by rewrite IH, Z.lxor_assoc.
Qed.

Lemma xsum_cons n f : xsum (S n) f = Z.lxor (f 0%nat) (xsum n (fun i => f (S i))).
Proof.
  rewrite (xsum_plus 1 n f : xsum (S n) f = _). simpl. by rewrite Z.lxor_0_l.
Qed.

(** A sum over the elements of a list does not depend on their order. *)
Lemma xsum_perm `{Inhabited A} (g : A -> Z) (l1 l2 : list A) :
  l1 ≡ₚ l2 -> xsum (length l1) (fun j => g (l1 !!! j)) = xsum (length l2) (fun j => g (l2 !!! j)).
Proof.
  assert (Hf : forall l, xsum (length l) (fun j => g (l !!! j)) = foldr (fun x s => Z.lxor (g x) s) 0 l).
  { induction l as [|x l IH]; [done|]. cbn [length foldr]. rewrite xsum_cons, <- IH. done. }
  rewrite !Hf. induction 1 as [|x l l' _ IH|x y l|l l' l'' _ IH1 _ IH2]; cbn; [done|by rewrite IH| |congruence].
  rewrite <- !Z.lxor_assoc. f_equal. apply Z.lxor_comm.
Qed.

Lemma xsum_app `{Inhabited A} (g : A -> Z) (l1 l2 : list A) :
  xsum (length (l1 ++ l2)) (fun j => g ((l1 ++ l2) !!! j)) = Z.lxor (xsum (length l1) (fun j => g (l1 !!! j))) (xsum (length l2) (fun j => g (l2 !!! j))).
Proof.
  rewrite length_app, xsum_plus. f_equal; apply xsum_ext; intros j Hj; f_equal; rewrite !list_lookup_total_alt; f_equal.
  - by rewrite lookup_app_l.
  - by rewrite lookup_app_r, Nat.add_comm, Nat.add_sub by lia.
Qed.

(** A sum of sums over lists. *)
Lemma xsum_bind `{Inhabited A} (g : A -> Z) (f : nat -> list A) n :
  xsum n (fun x => xsum (length (f x)) (fun j => g (f x !!! j))) = xsum (length (seq 0 n ≫= f)) (fun j => g ((seq 0 n ≫= f) !!! j)).
Proof.
  induction n as [|n IH]; [done|]. rewrite seq_S, bind_app, xsum_app. cbn [xsum]. rewrite IH. f_equal.
  cbn. by rewrite app_nil_r.
Qed.
