(* ===== verification/Wait.v ===== *)
(** * Threads that wait (std::mutex, std::condition_variable)

    The workers of the repair schemes are threads that share counters and flags.
    The files of the schemes say what an iteration of a thread does from its test
    on, as a function that is [Blocked] as long as the test fails, so that a
    thread polls.  The code does not poll:

    - a thread that waits tests the counter without the mutex, locks the mutex
      and sleeps ([while (i >= _waitingToSend) { unique_lock<mutex> lck(m);
      cv.wait(lck); }]); it is [Woken] by a notification, takes the mutex again
      and goes back to the test;
    - a thread that has changed a counter locks the mutex of the waiter to notify
      it; some change the counter with the mutex held, and one does not lock at
      all.

    This file has the threads with these waits, over any polling threads and a
    description of where they wait and whom they notify ([scheme]), and proves
    once what the schemes need: the waits only put other steps between the
    iterations; no thread is blocked by a mutex for ever; without spurious
    wake-ups every run ends; and it ends with all the work done unless a thread
    was caught between a test that failed and its sleep. *)
From stdpp Require Import relations functions.
From S2P Require Import Prelude.

(** ** Threads and their waits *)

(** A notification: the mutex it is sent under, if any, the condition variable,
    and whether it is [notify_all]. *)
Record signal (M C : Type) := mkSignal { sg_lock : option M; sg_cv : C; sg_all : bool }.
Arguments mkSignal {M C}.
Arguments sg_lock {M C}.
Arguments sg_cv {M C}.
Arguments sg_all {M C}.

(** The threads of a system with states [A]: an iteration of a thread; the mutex
    and the condition variable of the wait in its present iteration and the test
    of that wait; whether the test is made with the mutex held
    ([cv.wait(lck, pred)]); the mutex the iteration changes the counter under,
    whether it is unlocked before the notifications, and the notifications that
    follow. *)
Record scheme (A T M C : Type) := mkScheme {
  threads : list T;
  iterate : T -> A -> res A;
  wait_on : T -> A -> option (M * C);
  test : T -> A -> bool;
  locked_test : T -> bool;
  enters : T -> A -> option M;
  unlocks : T -> bool;
  signals : T -> A -> list (signal M C)
}.
Arguments mkScheme {A T M C}.
Arguments threads {A T M C}.
Arguments iterate {A T M C}.
Arguments wait_on {A T M C}.
Arguments test {A T M C}.
Arguments locked_test {A T M C}.
Arguments enters {A T M C}.
Arguments unlocks {A T M C}.
Arguments signals {A T M C}.

(** Where a thread is: at its test or the iteration after it; before the lock,
    with the mutex before it sleeps, asleep, notified, with the mutex again; or
    behind an iteration, with mutexes and notifications to send. *)
Inductive pc (M C : Type) :=
  | Test
  | Lock (m : M) (c : C)
  | Hold (m : M) (c : C)
  | Sleep (m : M) (c : C)
  | Woken (m : M) (c : C)
  | Back (m : M) (c : C)
  | Signal (held : list M) (l : list (signal M C)).
Arguments Test {M C}.
Arguments Lock {M C}.
Arguments Hold {M C}.
Arguments Sleep {M C}.
Arguments Woken {M C}.
Arguments Back {M C}.
Arguments Signal {M C}.

(** The state of the polling threads, and where each of them is. *)
Record wstate (A T M C : Type) := mkWState { polled : A; at_pc : T -> pc M C }.
Arguments mkWState {A T M C}.
Arguments polled {A T M C}.
Arguments at_pc {A T M C}.

Definition option_list {B : Type} (o : option B) : list B := match o with Some b => [b] | None => [] end.

Section machine.
Context {A T M C : Type} `{EqDecision T, EqDecision M, EqDecision C} (W : scheme A T M C).
Abbreviation state := (wstate A T M C).

(** All threads have been started. *)
Definition wstart (s : A) : state := mkWState s (fun _ => Test).

(** The test of a wait fails. *)
Definition waits (t : T) (s : A) : bool := match wait_on W t s with Some _ => negb (test W t s) | None => false end.

Definition holds (p : pc M C) (m : M) : Prop :=
  match p with Hold m' _ | Back m' _ => m' = m | Signal held _ => m ∈ held | _ => False end.
#[export] Instance holds_dec p m : Decision (holds p m).
Proof. destruct p; cbn; apply _. Defined.

Definition free (ps : T -> pc M C) (m : M) : Prop := Forall (fun t => ~ holds (ps t) m) (threads W).
Definition free_opt (ps : T -> pc M C) (o : option M) : Prop := forall m, o = Some m -> free ps m.

Definition asleep_on (p : pc M C) (c : C) : Prop := match p with Sleep _ c' => c' = c | _ => False end.
#[export] Instance asleep_on_dec p c : Decision (asleep_on p c).
Proof. destruct p; cbn; apply _. Defined.
Definition wake (p : pc M C) : pc M C := match p with Sleep m c => Woken m c | _ => p end.

(** A notification: [notify_all] wakes every sleeper of the variable,
    [notify_one] one of them, if there is one. *)
Inductive notify (sg : signal M C) (ps : T -> pc M C) : (T -> pc M C) -> Prop :=
  | notify_all : sg_all sg = true ->
      notify sg ps (fun t => if decide (asleep_on (ps t) (sg_cv sg)) then wake (ps t) else ps t)
  | notify_one t : sg_all sg = false -> t ∈ threads W -> asleep_on (ps t) (sg_cv sg) -> notify sg ps (<[t := wake (ps t)]> ps)
  | notify_none : sg_all sg = false -> Forall (fun t => ~ asleep_on (ps t) (sg_cv sg)) (threads W) -> notify sg ps ps.

(** The mutex an iteration leaves locked. *)
Definition keeps (t : T) (s : A) : list M := if unlocks W t then [] else option_list (enters W t s).

(** A step of the thread [t]; the label marks the iterations.  [sp]: whether a
    sleeper may wake up by itself, as the C++ standard allows. *)
Inductive wstep (sp : bool) : bool -> state -> state -> Prop :=
  | w_iterate t s s' ps : t ∈ threads W -> ps t = Test -> waits t s = false -> free_opt ps (enters W t s) -> iterate W t s = Ok s' ->
      wstep sp true (mkWState s ps) (mkWState s' (<[t := Signal (keeps t s) (signals W t s)]> ps))
  | w_fails t s ps m c : t ∈ threads W -> ps t = Test -> waits t s = true -> wait_on W t s = Some (m, c) ->
      locked_test W t = false -> wstep sp false (mkWState s ps) (mkWState s (<[t := Lock m c]> ps))
  | w_fails_locked t s ps m c : t ∈ threads W -> ps t = Test -> waits t s = true -> wait_on W t s = Some (m, c) ->
      locked_test W t = true -> free ps m -> wstep sp false (mkWState s ps) (mkWState s (<[t := Hold m c]> ps))
  | w_lock t s ps m c : t ∈ threads W -> ps t = Lock m c -> free ps m -> wstep sp false (mkWState s ps) (mkWState s (<[t := Hold m c]> ps))
  | w_sleep t s ps m c : t ∈ threads W -> ps t = Hold m c -> wstep sp false (mkWState s ps) (mkWState s (<[t := Sleep m c]> ps))
  | w_woken t s ps m c : t ∈ threads W -> ps t = Woken m c -> free ps m -> wstep sp false (mkWState s ps) (mkWState s (<[t := Back m c]> ps))
  | w_back t s ps m c : t ∈ threads W -> ps t = Back m c ->
      wstep sp false (mkWState s ps) (mkWState s (<[t := if locked_test W t && waits t s then Hold m c else Test]> ps))
  | w_signal t s ps ps' held sg l : t ∈ threads W -> ps t = Signal held (sg :: l) -> free_opt ps (sg_lock sg) ->
      notify sg (<[t := Signal (option_list (sg_lock sg) ++ held) l]> ps) ps' -> wstep sp false (mkWState s ps) (mkWState s ps')
  | w_release t s ps held : t ∈ threads W -> ps t = Signal held [] -> wstep sp false (mkWState s ps) (mkWState s (<[t := Test]> ps))
  | w_spurious t s ps m c : sp = true -> t ∈ threads W -> ps t = Sleep m c ->
      wstep sp false (mkWState s ps) (mkWState s (<[t := Woken m c]> ps)).

(** Runs of a step with labels: [n] iterations. *)
Inductive runs (R : bool -> state -> state -> Prop) : nat -> state -> state -> Prop :=
  | runs_refl ws : runs R 0 ws ws
  | runs_step (b : bool) n ws ws1 ws2 : R b ws ws1 -> runs R n ws1 ws2 -> runs R (if b then S n else n) ws ws2.

(** A thread that would do something other than go on or wait. *)
Definition wcrash (ws : state) : Prop :=
  exists t e, t ∈ threads W /\ at_pc ws t = Test /\ iterate W t (polled ws) = Fault e /\ e <> Blocked.

(** A thread is caught: its test has failed, it does not sleep yet, and what it
    waits for has come. *)
Definition caught (ws : state) : Prop :=
  exists t m c, t ∈ threads W /\ (at_pc ws t = Lock m c \/ at_pc ws t = Hold m c) /\ waits t (polled ws) = false.
(** A thread sleeps although what it waits for has come. *)
Definition missed (ws : state) : Prop :=
  exists t m c, t ∈ threads W /\ at_pc ws t = Sleep m c /\ waits t (polled ws) = false.

Definition in_time (sp : bool) (b : bool) (ws ws' : state) : Prop := wstep sp b ws ws' /\ ~ caught ws'.

(** There is no infinite run without spurious wake-ups. *)
Definition ends (ws : state) : Prop := sn (fun ws ws' => exists b, wstep false b ws ws') ws.

(** What is promised of the threads from the state [s]: no thread fails; every run
    has at most [n] iterations and [good] holds after them; every run ends without
    spurious wake-ups; and from every state of a run there is a run to the end,
    if sleepers may wake up by themselves or if no thread was caught on the way. *)
Definition delivers (s : A) (n : nat) (good : A -> Prop) : Prop :=
  forall sp i ws, runs (wstep sp) i (wstart s) ws ->
    ~ wcrash ws /\ (i <= n)%nat /\ (i = n -> good (polled ws)) /\ ends ws /\
    (sp = true \/ runs (in_time sp) i (wstart s) ws -> exists ws', runs (wstep sp) (n - i) ws ws').
End machine.
Arguments wstart {A T M C}.

(** ** What a scheme has to keep *)

Section laws.
Context {A T M C : Type} `{EqDecision T, EqDecision M, EqDecision C} (W : scheme A T M C).
Context (rank : M -> nat) (top : nat).

(** Mutexes are taken in the order of their ranks. *)
Fixpoint ordered (held : list M) (l : list (signal M C)) : Prop :=
  match l with
  | [] => True
  | sg :: l => (forall m, sg_lock sg = Some m -> Forall (fun h => rank h < rank m)%nat held) /\ ordered (option_list (sg_lock sg) ++ held) l
  end.

(** Only one thread ever waits on the variable. *)
Definition alone (I : A -> Prop) (c : C) : Prop :=
  forall s t1 t2 m1 m2, I s -> t1 ∈ threads W -> t2 ∈ threads W -> wait_on W t1 s = Some (m1, c) -> wait_on W t2 s = Some (m2, c) -> t1 = t2.

(** The laws, for the states that satisfy [I]: [work] grows with every iteration,
    up to [n]; while the work is not [done] some thread can go on; and what another
    thread waits for stays the same, or it is notified. *)
Record wait_laws (I : A -> Prop) (work : A -> nat) (n : nat) (finished : A -> Prop) : Prop := {
  wl_nodup : NoDup (threads W);
  wl_top m : (rank m <= top)%nat;
  wl_keep t s s' : I s -> t ∈ threads W -> iterate W t s = Ok s' -> I s' /\ (work s < work s')%nat;
  wl_bound s : I s -> (work s <= n)%nat;
  wl_more s : I s -> ~ finished s -> exists t s', t ∈ threads W /\ iterate W t s = Ok s';
  wl_test t s s' : I s -> t ∈ threads W -> iterate W t s = Ok s' -> waits W t s = false;
  wl_place t s s' t' m c : I s -> t ∈ threads W -> iterate W t s = Ok s' -> t' ∈ threads W -> t' <> t ->
    wait_on W t' s = Some (m, c) -> wait_on W t' s' = Some (m, c);
  wl_signal t s s' t' m c : I s -> t ∈ threads W -> iterate W t s = Ok s' -> t' ∈ threads W -> t' <> t ->
    wait_on W t' s = Some (m, c) -> test W t' s = false -> test W t' s' = true -> c ∈ (sg_cv <$> signals W t s);
  wl_alone t s s' sg : I s -> t ∈ threads W -> iterate W t s = Ok s' -> sg ∈ signals W t s -> sg_all sg = false -> alone I (sg_cv sg);
  wl_order t s s' : I s -> t ∈ threads W -> iterate W t s = Ok s' -> ordered (keeps W t s) (signals W t s)
}.

(** The laws of threads of which every iteration is one unit of the work, and that
    do not fail. *)
Record scheme_laws (I : A -> Prop) (work : A -> nat) (n : nat) : Prop := {
  sl_waits :> wait_laws I work n (fun s => work s = n);
  sl_work t s s' : I s -> t ∈ threads W -> iterate W t s = Ok s' -> work s' = S (work s);
  sl_crash t s e : I s -> t ∈ threads W -> iterate W t s = Fault e -> e = Blocked
}.

Context (I : A -> Prop) (work : A -> nat) (n : nat) (finished : A -> Prop) (L : wait_laws I work n finished).
Abbreviation state := (wstate A T M C).

(** ** The invariant *)

(** Who is on the way to a sleep, or back, waits there; and what is still to be
    sent is in order. *)
Definition at_ok (s : A) (t : T) (p : pc M C) : Prop :=
  match p with
  | Test => True
  | Lock m c | Hold m c | Sleep m c | Woken m c | Back m c => wait_on W t s = Some (m, c)
  | Signal held l => ordered held l /\ Forall (fun sg => sg_all sg = false -> alone I (sg_cv sg)) l
  end.
Definition winv (ws : state) : Prop := I (polled ws) /\ forall t, t ∈ threads W -> at_ok (polled ws) t (at_pc ws t).

Lemma at_ok_insert s (ps : T -> pc M C) t p : at_ok s t p -> (forall u, u ∈ threads W -> at_ok s u (ps u)) ->
  forall u, u ∈ threads W -> at_ok s u ((<[t := p]> ps) u).
Proof.
  intros Hp Hps u Hu. destruct (decide (t = u)) as [->|Hne]; [by rewrite fn_lookup_insert|].
  rewrite fn_lookup_insert_ne by done. by apply Hps.
Qed.

Lemma at_ok_wake s t p : at_ok s t p -> at_ok s t (wake p).
Proof. by destruct p. Qed.

Lemma notify_keeps (P : T -> pc M C -> Prop) sg ps ps' : notify W sg ps ps' -> (forall t, t ∈ threads W -> P t (ps t) -> P t (wake (ps t))) ->
  (forall t, t ∈ threads W -> P t (ps t)) -> forall t, t ∈ threads W -> P t (ps' t).
Proof.
  intros Hn Hw Hps u Hu. destruct Hn as [_|t _ Ht _|_ _].
  - case_decide; auto.
  - destruct (decide (t = u)) as [->|Hne]; [rewrite fn_lookup_insert; auto|rewrite fn_lookup_insert_ne by done; auto].
  - auto.
Qed.

Lemma winv_step sp b ws ws' : winv ws -> wstep W sp b ws ws' -> winv ws'.
Proof.
  intros [HI Hps] Hs. destruct Hs as [t s s' ps Ht Ep Ew Hf Ei| | | | | | |t s ps ps' held sg l Ht Ep Hf Hn| | ]; cbn [polled at_pc] in *.
  1: { destruct (wl_keep _ _ _ _ L _ _ _ HI Ht Ei) as [HI' _]. split; [done|]. cbn. intros u Hu.
    destruct (decide (t = u)) as [->|Hne].
    - rewrite fn_lookup_insert. split; [by eapply (wl_order _ _ _ _ L)|]. apply Forall_forall. intros sg Hsg Ha. exact (wl_alone _ _ _ _ L _ _ _ _ HI Ht Ei Hsg Ha).
    - rewrite fn_lookup_insert_ne by done. specialize (Hps u Hu).
      destruct (ps u); cbn [at_ok] in *; try done; by eapply (wl_place _ _ _ _ L t s). }
  7: { split; [done|]. cbn. pose proof (Hps t Ht) as Hpt. rewrite Ep in Hpt. destruct Hpt as [[_ Ho] Ha%Forall_cons].
    apply (notify_keeps (fun u p => at_ok s u p) _ _ _ Hn); [intros; by apply at_ok_wake|]. apply at_ok_insert; [split; [done|apply Ha]|done]. }
  all: split; [done|]; cbn; apply at_ok_insert; [|done].
  all: repeat match goal with H : ?t ∈ threads W |- _ => let Hp := fresh in pose proof (Hps t H) as Hp; clear H;
      match goal with E : ?ps t = _ |- _ => rewrite E in Hp end end; try done.
  by destruct (_ && _).
Qed.

(** ** Nobody waits for a mutex for ever *)

Lemma free_or_held (ps : T -> pc M C) m : free W ps m \/ exists t, t ∈ threads W /\ holds (ps t) m.
Proof.
  destruct (decide (Forall (fun t => ~ holds (ps t) m) (threads W))) as [|Hn]; [by left|right].
  apply not_Forall_Exists in Hn; [|apply _]. apply Exists_exists in Hn as (t & Ht & Hh). exists t. split; [done|]. by apply dec_stable.
Qed.

Lemma notify_can sg (ps : T -> pc M C) : exists ps', notify W sg ps ps'.
Proof.
  destruct (sg_all sg) eqn:Ea; [by eexists; apply notify_all|].
  destruct (decide (Forall (fun t => ~ asleep_on (ps t) (sg_cv sg)) (threads W))) as [|Hn]; [by eexists; apply notify_none|].
  apply not_Forall_Exists in Hn; [|apply _]. apply Exists_exists in Hn as (t & Ht & Hh). eexists. apply (notify_one _ _ _ t); [done..|]. by apply dec_stable.
Qed.

(** Whoever holds a mutex goes on, or waits for one of a higher rank. *)
Lemma holder_goes_on d : forall ws t m, (top - rank m < d)%nat -> winv ws -> t ∈ threads W -> holds (at_pc ws t) m -> exists ws', wstep W false false ws ws'.
Proof.
  induction d as [|d IH]; intros [s ps] t m Hd Hi Ht Hh; [lia|]. cbn [at_pc] in Hh.
  destruct (ps t) as [|? ?|m' c|? ?|? ?|m' c|held [|sg l]] eqn:Ep; try done.
  - eexists. by eapply w_sleep.
  - eexists. by eapply w_back.
  - eexists. by eapply w_release.
  - assert (Hgo : free_opt W ps (sg_lock sg) -> exists ws', wstep W false false (mkWState s ps) ws').
    { intros Hf. destruct (notify_can sg (<[t := Signal (option_list (sg_lock sg) ++ held) l]> ps)) as [ps' Hn]. eexists. by eapply w_signal. }
    destruct (sg_lock sg) as [m'|] eqn:El; [|by apply Hgo].
    destruct (free_or_held ps m') as [Hf|(t' & Ht' & Hh')]; [by apply Hgo; intros ? [= <-]|].
    apply (IH (mkWState s ps) t' m'); [|done..]. pose proof (proj2 Hi t Ht) as Hok. cbn in Hok. rewrite Ep in Hok. destruct Hok as [[Ho _] _].
    cbn in Hh. pose proof (proj1 (Forall_forall _ _) (Ho m' El) m Hh). pose proof (wl_top _ _ _ _ L m'). cbv beta in *. lia.
Qed.

Definition quiet_at (p : pc M C) : Prop := p = Test \/ exists m c, p = Sleep m c.

(** Whoever is neither at its test nor asleep goes on, or another thread does. *)
Lemma busy_goes_on ws t : winv ws -> t ∈ threads W -> ~ quiet_at (at_pc ws t) -> exists ws', wstep W false false ws ws'.
Proof.
  intros Hi Ht Hq. assert (Hh : forall m, holds (at_pc ws t) m -> exists ws', wstep W false false ws ws').
  { intros m Hm. by apply (holder_goes_on (S (top - rank m)) ws t m); [lia|..]. }
  assert (Hfree : forall m, (free W (at_pc ws) m -> exists ws', wstep W false false ws ws') -> exists ws', wstep W false false ws ws').
  { intros m Hm. destruct (free_or_held (at_pc ws) m) as [Hf|(t' & Ht' & Hh')]; [auto|].
    by apply (holder_goes_on (S (top - rank m)) ws t' m); [lia|..]. }
  destruct ws as [s ps]. cbn [at_pc] in *. destruct (ps t) as [|m c|m c|m c|m c|m c|held l] eqn:Ep.
  - destruct Hq. by left.
  - apply (Hfree m). intros Hf. eexists. by eapply w_lock.
  - apply (Hh m). done.
  - destruct Hq. right. by exists m, c.
  - apply (Hfree m). intros Hf. eexists. by eapply w_woken.
  - apply (Hh m). done.
  - destruct l as [|sg l]; [eexists; by eapply w_release|].
    assert (Hgo : free_opt W ps (sg_lock sg) -> exists ws', wstep W false false (mkWState s ps) ws').
    { intros Hf. destruct (notify_can sg (<[t := Signal (option_list (sg_lock sg) ++ held) l]> ps)) as [ps' Hn]. eexists. by eapply w_signal. }
    destruct (sg_lock sg) as [m'|] eqn:El; [|by apply Hgo]. apply (Hfree m'). intros Hf. apply Hgo. by intros ? [= <-].
Qed.

(** ** Between two iterations there are only so many steps *)

Definition count : nat := length (threads W).
Definition rk (p : pc M C) : nat :=
  match p with
  | Sleep _ _ => 0
  | Hold _ _ => 1
  | Lock _ _ => 2
  | Test => 3
  | Back _ _ => 4
  | Woken _ _ => 5
  | Signal _ l => 4 + length l * (1 + 5 * count)
  end%nat.
Definition measure (ps : T -> pc M C) : nat := sum_list_with (fun t => rk (ps t)) (threads W).

Lemma rk_insert (l : list T) (ps : T -> pc M C) t p : NoDup l -> t ∈ l ->
  (sum_list_with (fun u => rk ((<[t := p]> ps) u)) l + rk (ps t) = sum_list_with (fun u => rk (ps u)) l + rk p)%nat.
Proof.
  induction l as [|u l IH]; intros Hnd Ht; [by apply not_elem_of_nil in Ht|]. apply NoDup_cons in Hnd as [Hu Hnd]. cbn [sum_list_with].
  destruct (decide (t = u)) as [->|Hne].
  - rewrite fn_lookup_insert. assert (E : forall l', u ∉ l' -> sum_list_with (fun v => rk ((<[u := p]> ps) v)) l' = sum_list_with (fun v => rk (ps v)) l').
    { clear -EqDecision0. induction l' as [|v l' IH]; intros Hv; [done|]. apply not_elem_of_cons in Hv as [Hv1 Hv2]. cbn [sum_list_with].
      by rewrite IH, fn_lookup_insert_ne by done. }
    rewrite E by done. lia.
  - rewrite fn_lookup_insert_ne by done. apply elem_of_cons in Ht as [?|Ht]; [done|]. specialize (IH Hnd Ht). lia.
Qed.

Lemma measure_insert ps t p : t ∈ threads W -> (measure (<[t := p]> ps) + rk (ps t) = measure ps + rk p)%nat.
Proof. intros Ht. apply rk_insert; [apply (wl_nodup _ _ _ _ L)|done]. Qed.

Lemma rk_wake p : (rk (wake p) <= rk p + 5)%nat.
Proof. destruct p; cbn [wake rk]; lia. Qed.

Lemma notify_measure sg ps ps' : notify W sg ps ps' -> (measure ps' <= measure ps + 5 * count)%nat.
Proof.
  intros [_|t _ Ht _|_ _].
  - unfold measure, count. induction (threads W) as [|u l IH]; [done|]. cbn [sum_list_with length].
    case_decide; pose proof (rk_wake (ps u)); lia.
  - pose proof (measure_insert ps t (wake (ps t)) Ht) as E. pose proof (rk_wake (ps t)).
    assert (1 <= count)%nat by (unfold count; destruct (threads W); [by apply not_elem_of_nil in Ht|cbn; lia]). lia.
  - lia.
Qed.

Lemma measure_decreases ws ws' : wstep W false false ws ws' -> polled ws' = polled ws /\ (measure (at_pc ws') < measure (at_pc ws))%nat.
Proof.
  assert (Hi : forall ps t p, t ∈ threads W -> (rk p < rk (ps t))%nat -> (measure (<[t := p]> ps) < measure ps)%nat).
  { intros ps t p Ht Hr. pose proof (measure_insert ps t p Ht). lia. }
  intros Hs. inversion Hs; subst; cbn [polled at_pc]; try discriminate; (split; [done|]).
  all: try (apply Hi; [done|]; match goal with E : ?ps _ = _ |- context [rk (?ps _)] => rewrite E end; try (case_match; cbn [rk]; lia); cbn [rk length]; lia).
  match goal with Hn : notify _ ?sg (<[?t := ?p]> ?ps) _ |- _ => pose proof (notify_measure _ _ _ Hn); pose proof (measure_insert ps t p ltac:(done)) as E end.
  match goal with Ep : ?ps _ = Signal _ _ |- _ => rewrite Ep in E end. cbn [rk length] in E. lia.
Qed.

(** ** Nobody sleeps through what it waits for *)

(** A sleeper for whom what it waits for has come is about to be notified. *)
Definition notified (ws : state) : Prop :=
  forall t m c, t ∈ threads W -> at_pc ws t = Sleep m c -> waits W t (polled ws) = false ->
    exists t' held l, t' ∈ threads W /\ at_pc ws t' = Signal held l /\ c ∈ (sg_cv <$> l).

(** Who is asleep behind a step of [t] that puts it elsewhere was asleep before. *)
Lemma notified_insert s (ps : T -> pc M C) t p : notified (mkWState s ps) -> (forall held l, ps t = Signal held l -> l = []) ->
  (forall m c, p = Sleep m c -> waits W t s = true) -> notified (mkWState s (<[t := p]> ps)).
Proof.
  intros Hn Ho Hp u m c Hu Hs Hw. cbn in *. destruct (decide (t = u)) as [->|Hne].
  - rewrite fn_lookup_insert in Hs. by rewrite (Hp m c Hs) in Hw.
  - rewrite fn_lookup_insert_ne in Hs by done. destruct (Hn u m c Hu Hs Hw) as (t' & held & l & Ht' & Hsg & Hc). cbn in Hsg.
    exists t', held, l. split; [done|]. split; [|done]. rewrite fn_lookup_insert_ne; [done|]. intros <-.
    rewrite (Ho _ _ Hsg) in Hc. by apply not_elem_of_nil in Hc.
Qed.

(** A notification only wakes. *)
Lemma notify_at sg (ps ps' : T -> pc M C) u : notify W sg ps ps' -> ps' u = ps u \/ exists m, ps u = Sleep m (sg_cv sg) /\ ps' u = Woken m (sg_cv sg).
Proof.
  assert (Hw : asleep_on (ps u) (sg_cv sg) -> exists m, ps u = Sleep m (sg_cv sg) /\ wake (ps u) = Woken m (sg_cv sg)).
  { destruct (ps u); try done. intros <-. by eexists. }
  intros [_|t _ _ Ha|_ _]; [|destruct (decide (t = u)) as [->|Hne]; [rewrite fn_lookup_insert; auto|left; by rewrite fn_lookup_insert_ne]|by left].
  case_decide; [right; auto|by left].
Qed.

Lemma notify_asleep sg (ps ps' : T -> pc M C) u m c : notify W sg ps ps' -> ps' u = Sleep m c -> ps u = Sleep m c.
Proof. intros Hn Hs. destruct (notify_at sg ps ps' u Hn) as [E|(? & _ & E)]; congruence. Qed.

Lemma notify_signals sg (ps ps' : T -> pc M C) u held l : notify W sg ps ps' -> ps u = Signal held l -> ps' u = Signal held l.
Proof. intros Hn Hs. destruct (notify_at sg ps ps' u Hn) as [E|(? & E & _)]; congruence. Qed.

(** A notification reaches the one who waits on the variable. *)
Lemma notify_reaches s sg (ps ps' : T -> pc M C) u m : I s -> (sg_all sg = false -> alone I (sg_cv sg)) -> notify W sg ps ps' ->
  (forall t, t ∈ threads W -> at_ok s t (ps t)) -> u ∈ threads W -> ps' u <> Sleep m (sg_cv sg).
Proof.
  intros HI Ha Hn Hok Hu Hs. pose proof (notify_asleep _ _ _ _ _ _ Hn Hs) as Hs0. destruct Hn as [_|t Ea Ht Has|_ Hnone].
  - rewrite Hs0 in Hs. cbn in Hs. by rewrite decide_True in Hs.
  - assert (t = u) as ->.
    { pose proof (Hok t Ht) as H1. pose proof (Hok u Hu) as H2. rewrite Hs0 in H2. cbn in H2. destruct (ps t) as [| | |m' c'| | |]; try done. cbn in H1, Has.
      subst c'. exact (Ha Ea s t u m' m HI Ht Hu H1 H2). }
    rewrite fn_lookup_insert, Hs0 in Hs. done.
  - rewrite Forall_forall in Hnone. apply (Hnone u Hu). by rewrite Hs0.
Qed.

Lemma notified_step b ws ws' : winv ws -> ~ caught W ws -> notified ws -> wstep W false b ws ws' -> notified ws'.
Proof.
  intros [HI Hps] Hc Hn Hs. destruct Hs as [t s s' ps Ht Ep Ew Hf Ei| | | |t s ps m c Ht Ep| | |t s ps ps' held sg l Ht Ep Hf Hno|t s ps held Ht Ep|]; cbn [polled at_pc] in *.
  - intros u m c Hu Hs Hw. cbn in *. destruct (decide (t = u)) as [->|Hne]; [by rewrite fn_lookup_insert in Hs|]. rewrite fn_lookup_insert_ne in Hs by done.
    destruct (waits W u s) eqn:Ewu.
    + exists t, (keeps W t s), (signals W t s). split; [done|]. rewrite fn_lookup_insert. split; [done|].
      pose proof (Hps u Hu) as Hpl. rewrite Hs in Hpl. cbn in Hpl.
      assert (Hpl' : wait_on W u s' = Some (m, c)) by by eapply (wl_place _ _ _ _ L t s).
      unfold waits in Ewu, Hw. rewrite Hpl in Ewu. rewrite Hpl' in Hw. apply negb_true_iff in Ewu. apply negb_false_iff in Hw.
      by apply (wl_signal _ _ _ _ L t s s' u m).
    + destruct (Hn u m c Hu Hs Ewu) as (t' & held & l & Ht' & Hsg & Hin). exists t', held, l. split; [done|]. split; [|done].
      cbn in *. rewrite fn_lookup_insert_ne; [done|]. intros ->. congruence.
  - apply notified_insert; [done| |done]. congruence.
  - apply notified_insert; [done| |done]. congruence.
  - apply notified_insert; [done| |done]. congruence.
  - apply notified_insert; [done|congruence|]. intros _ _ _. destruct (waits W t s) eqn:E; [done|]. destruct Hc. exists t, m, c. split_and!; [done|by right|done].
  - apply notified_insert; [done| |done]. congruence.
  - apply notified_insert; [done|congruence|]. intros m' c'. by destruct (_ && _).
  - intros u m c' Hu Hs Hw. cbn in *. pose proof (Hps t Ht) as Hpt. rewrite Ep in Hpt. destruct Hpt as [[_ Ho] [Hal Hal']%Forall_cons].
    pose proof (notify_asleep _ _ _ _ _ _ Hno Hs) as Hs1.
    assert (Hs0 : ps u = Sleep m c').
    { destruct (decide (t = u)) as [->|Hne]; [by rewrite fn_lookup_insert in Hs1|by rewrite fn_lookup_insert_ne in Hs1]. }
    destruct (Hn u m c' Hu Hs0 Hw) as (t' & held' & l' & Ht' & Hsg & Hin). cbn in Hsg.
    assert (Hne : c' <> sg_cv sg).
    { intros ->. refine (notify_reaches s sg _ ps' u m HI Hal Hno _ Hu Hs). by apply at_ok_insert. }
    destruct (decide (t' = t)) as [->|Hnt].
    + rewrite Ep in Hsg. injection Hsg as <- <-. rewrite fmap_cons in Hin. apply elem_of_cons in Hin as [?|Hin]; [done|].
      exists t, (option_list (sg_lock sg) ++ held), l. split; [done|]. split; [|done]. apply (notify_signals _ _ _ _ _ _ Hno). apply fn_lookup_insert.
    + exists t', held', l'. split; [done|]. split; [|done]. apply (notify_signals _ _ _ _ _ _ Hno). by rewrite fn_lookup_insert_ne.
  - apply notified_insert; [done| |done]. intros held' l'. rewrite Ep. by intros [= <- <-].
  - done.
Qed.

(** ** To the next iteration *)

Lemma uncaught_step sp ws ws' : ~ caught W ws -> wstep W sp false ws ws' -> ~ caught W ws'.
Proof.
  assert (Hi : forall s ps t p, ~ caught W (mkWState s ps) -> (forall m c, p = Lock m c \/ p = Hold m c -> waits W t s = true) ->
    ~ caught W (mkWState s (<[t := p]> ps))).
  { intros s ps t p Hc Hp (u & m & c & Hu & Hs & Hw). cbn in *. destruct (decide (t = u)) as [->|Hne].
    - rewrite fn_lookup_insert in Hs. by rewrite (Hp m c Hs) in Hw.
    - rewrite fn_lookup_insert_ne in Hs by done. apply Hc. by exists u, m, c. }
  intros Hc Hs. inversion Hs as [|t s ps m c Ht Ep Hw|t s ps m c Ht Ep Hw|t s ps m c Ht Ep Hf|t s ps m c Ht Ep|t s ps m c Ht Ep|t s ps m c Ht Ep|t s ps ps' held sg l Ht Ep Hf Hn|t s ps held Ht Ep|t s ps m c Hsp Ht Ep];
    subst; try (apply Hi; [done|]; intros m' c' [?|?]; done).
  - apply Hi; [done|]. intros m' c' _. destruct (waits W t s) eqn:E; [done|]. destruct Hc. exists t, m, c. split_and!; [done|by left|done].
  - apply Hi; [done|]. intros m' c' Hor. destruct (waits W t s); [done|]. rewrite andb_false_r in Hor. by destruct Hor.
  - intros (u & m & c & Hu & Hs' & Hw). cbn in *. apply Hc. exists u, m, c. split; [done|]. split; [|done]. cbn.
    assert (Hs2 : (<[t := Signal (option_list (sg_lock sg) ++ held) l]> ps) u = Lock m c \/ (<[t := Signal (option_list (sg_lock sg) ++ held) l]> ps) u = Hold m c).
    { destruct (notify_at _ _ _ u Hn) as [E|(? & _ & E)]; rewrite E in Hs'; [done|by destruct Hs']. }
    destruct (decide (t = u)) as [->|Hne]; [rewrite fn_lookup_insert in Hs2; by destruct Hs2|by rewrite fn_lookup_insert_ne in Hs2].
Qed.

#[export] Instance quiet_at_dec (p : pc M C) : Decision (quiet_at p).
Proof.
  refine (match p with Test => left _ | Sleep m c => left _ | _ => right _ end); unfold quiet_at;
    try (by left); try (by right; eexists _, _); intros [?|(? & ? & ?)]; done.
Defined.

Lemma wstep_mono sp b ws ws' : wstep W false b ws ws' -> wstep W sp b ws ws'.
Proof. intros []; try discriminate; [by apply w_iterate|by eapply w_fails|by eapply w_fails_locked|by eapply w_lock|by eapply w_sleep|by eapply w_woken|by eapply w_back|by eapply w_signal|by eapply w_release]. Qed.

(** The threads can finish what they are doing. *)
Lemma quiesce sp ws : winv ws -> exists ws', runs (wstep W sp) 0 ws ws' /\ polled ws' = polled ws /\ winv ws' /\
  (forall t, t ∈ threads W -> quiet_at (at_pc ws' t)) /\ (~ caught W ws -> notified ws -> ~ caught W ws' /\ notified ws').
Proof.
  remember (measure (at_pc ws)) as a eqn:Ea. revert ws Ea. induction a as [a IH] using lt_wf_ind. intros ws -> Hi.
  destruct (decide (Forall (fun t => quiet_at (at_pc ws t)) (threads W))) as [Hq|Hq].
  - exists ws. rewrite Forall_forall in Hq. split_and!; [apply runs_refl|done..].
  - apply not_Forall_Exists in Hq; [|apply _]. apply Exists_exists in Hq as (t & Ht & Hq).
    destruct (busy_goes_on ws t Hi Ht Hq) as [ws1 Hs]. destruct (measure_decreases _ _ Hs) as [Ep Hm].
    pose proof (winv_step _ _ _ _ Hi Hs) as Hi1. destruct (IH _ Hm ws1 eq_refl Hi1) as (ws' & Hr & E & Hi' & Hq' & Hc').
    exists ws'. split; [apply (runs_step _ false 0 ws ws1 ws'); [by apply wstep_mono|done]|]. split; [congruence|]. split_and!; [done..|].
    intros Hc Hn. apply Hc'; [exact (uncaught_step _ _ _ Hc Hs)|exact (notified_step _ _ _ Hi Hc Hn Hs)].
Qed.

Lemma runs_trans (R : bool -> state -> state -> Prop) i j ws ws1 ws2 : runs R i ws ws1 -> runs R j ws1 ws2 -> runs R (i + j) ws ws2.
Proof.
  intros Hr. revert ws2. induction Hr as [|b i ws ws0 ws1 Hs _ IH]; intros ws2 Hr2; [done|]. specialize (IH ws2 Hr2).
  replace ((if b then S i else i) + j)%nat with (if b then S (i + j) else (i + j))%nat by by destruct b. by eapply runs_step.
Qed.

Lemma runs_once (R : bool -> state -> state -> Prop) (b : bool) ws ws' : R b ws ws' -> runs R (if b then 1 else 0) ws ws'.
Proof. intros Hs. eapply (runs_step R b 0); [done|apply runs_refl]. Qed.

Lemma next_iteration sp ws : winv ws -> ~ finished (polled ws) -> sp = true \/ (~ caught W ws /\ notified ws) ->
  exists ws', runs (wstep W sp) 1 ws ws' /\ winv ws' /\ (work (polled ws) < work (polled ws'))%nat /\ (sp = true \/ (~ caught W ws' /\ notified ws')).
Proof.
  intros Hi Hlt Hor. destruct (quiesce sp ws Hi) as (ws1 & Hr1 & E1 & Hi1 & Hq1 & Hc1).
  assert (Hor1 : sp = true \/ (~ caught W ws1 /\ notified ws1)) by (destruct Hor as [->|[H1 H2]]; [by left|right; auto]). clear Hor Hc1.
  rewrite <- E1 in Hlt |- *. destruct (wl_more _ _ _ _ L _ (proj1 Hi1) Hlt) as (t & s' & Ht & Ei).
  pose proof (wl_test _ _ _ _ L _ _ _ (proj1 Hi1) Ht Ei) as Hw. destruct (wl_keep _ _ _ _ L _ _ _ (proj1 Hi1) Ht Ei) as [_ Ew].
  assert (Hgo : forall ps, (forall u, u ∈ threads W -> quiet_at (ps u)) -> ps t = Test ->
    wstep W sp true (mkWState (polled ws1) ps) (mkWState s' (<[t := Signal (keeps W t (polled ws1)) (signals W t (polled ws1))]> ps))).
  { intros ps Hq Ep. apply w_iterate; [done..| |done]. intros m _. apply Forall_forall. intros u Hu.
    destruct (Hq u Hu) as [->|(? & ? & ->)]; by intros []. }
  destruct (Hq1 t Ht) as [Ep|(m & c & Ep)].
  - specialize (Hgo (at_pc ws1) Hq1 Ep). destruct ws1 as [s1 ps1]. cbn in *. eexists. split; [exact (runs_trans _ 0 1 _ _ _ Hr1 (runs_once _ true _ _ Hgo))|].
    split; [exact (winv_step _ _ _ _ Hi1 Hgo)|]. split; [done|]. destruct Hor1 as [->|[Hc Hn]]; [by left|]. destruct sp; [by left|right]. split.
    + intros (u & m & c & Hu & Hs & _). cbn in Hs. destruct (decide (t = u)) as [->|Hne]; [rewrite fn_lookup_insert in Hs; by destruct Hs|].
      rewrite fn_lookup_insert_ne in Hs by done. destruct (Hq1 u Hu) as [E|(? & ? & E)]; rewrite E in Hs; by destruct Hs.
    + exact (notified_step _ _ _ Hi1 Hc Hn Hgo).
  - destruct Hor1 as [->|[_ Hn]].
    2: { destruct (Hn t m c Ht Ep Hw) as (t' & held & l & Ht' & Hsg & _). destruct (Hq1 t' Ht') as [E|(? & ? & E)]; congruence. }
    destruct ws1 as [s1 ps1]. cbn in *.
    set (ps2 := <[t := Woken m c]> ps1). set (ps3 := <[t := Back m c]> ps2).
    set (ps4 := <[t := if locked_test W t && waits W t s1 then Hold m c else Test]> ps3).
    assert (Ef : free W ps2 m).
    { apply Forall_forall. intros u Hu. destruct (decide (t = u)) as [<-|Hne]; [unfold ps2; rewrite fn_lookup_insert; by intros []|].
      unfold ps2. rewrite fn_lookup_insert_ne by done. destruct (Hq1 u Hu) as [->|(? & ? & ->)]; by intros []. }
    assert (Hs2 : wstep W true false (mkWState s1 ps1) (mkWState s1 ps2)) by by apply w_spurious.
    assert (Hs3 : wstep W true false (mkWState s1 ps2) (mkWState s1 ps3)) by (apply w_woken; [done|apply fn_lookup_insert|done]).
    assert (Hs4 : wstep W true false (mkWState s1 ps3) (mkWState s1 ps4)) by (apply w_back; [done|apply fn_lookup_insert]).
    assert (Hq4 : forall u, u ∈ threads W -> quiet_at (ps4 u)).
    { intros u Hu. destruct (decide (t = u)) as [<-|Hne]; [left; unfold ps4; by rewrite fn_lookup_insert, Hw, andb_false_r|].
      unfold ps4, ps3, ps2. rewrite !fn_lookup_insert_ne by done. by apply Hq1. }
    assert (Ep4 : ps4 t = Test) by (unfold ps4; by rewrite fn_lookup_insert, Hw, andb_false_r).
    specialize (Hgo ps4 Hq4 Ep4). eexists. split.
    + eapply (runs_trans _ 0 1); [exact Hr1|]. eapply (runs_step _ false), (runs_step _ false), (runs_step _ false), (runs_once _ true); done.
    + split; [|split; [done|by left]]. eapply winv_step, Hgo. eapply winv_step, Hs4. eapply winv_step, Hs3. by eapply winv_step.
Qed.

(** ** The runs *)

Lemma winv_start s : I s -> winv (wstart s) /\ ~ caught W (wstart s) /\ notified (wstart s).
Proof. intros HI. split_and!; [by split|intros (? & ? & ? & _ & [?|?] & _); done|done]. Qed.

Lemma step_work sp b ws ws' : winv ws -> wstep W sp b ws ws' ->
  if b then (work (polled ws) < work (polled ws'))%nat else polled ws' = polled ws.
Proof. intros [HI _] Hs. destruct Hs as [t s s' ps Ht _ _ _ Ei| | | | | | | | | ]; cbn in *; [|done..]. by destruct (wl_keep _ _ _ _ L _ _ _ HI Ht Ei). Qed.

Lemma runs_grow sp i ws ws' : winv ws -> runs (wstep W sp) i ws ws' -> winv ws' /\ (i + work (polled ws) <= work (polled ws'))%nat.
Proof.
  intros Hi Hr. induction Hr as [|b i ws ws1 ws' Hs _ IH]; [done|]. destruct (IH (winv_step _ _ _ _ Hi Hs)) as [Hi' Hle]. split; [done|].
  pose proof (step_work _ _ _ _ Hi Hs) as Hw. destruct b; [|rewrite <- Hw]; lia.
Qed.

Lemma runs_end `{!forall s, Decision (finished s)} sp ws : winv ws -> sp = true \/ (~ caught W ws /\ notified ws) ->
  exists j ws', runs (wstep W sp) j ws ws' /\ finished (polled ws').
Proof.
  remember (n - work (polled ws))%nat as a eqn:Ea. revert ws Ea. induction a as [a IH] using lt_wf_ind. intros ws Ea Hi Hor.
  destruct (decide (finished (polled ws))) as [|Hno]; [exists 0%nat, ws; split; [apply runs_refl|done]|].
  destruct (next_iteration sp ws Hi Hno Hor) as (ws1 & Hr1 & Hi1 & Ew & Hor1). pose proof (wl_bound _ _ _ _ L _ (proj1 Hi1)).
  destruct (IH (n - work (polled ws1))%nat ltac:(lia) ws1 eq_refl Hi1 Hor1) as (j & ws' & Hr & Hf). exists (1 + j)%nat, ws'. split; [|done].
  exact (runs_trans _ 1 j _ _ _ Hr1 Hr).
Qed.

Lemma winv_ends ws : winv ws -> ends W ws.
Proof.
  remember (n - work (polled ws))%nat as a eqn:Ea. revert ws Ea. induction a as [a IHa] using lt_wf_ind. intros ws Ea.
  remember (measure (at_pc ws)) as d eqn:Ed. revert ws Ea Ed. induction d as [d IHd] using lt_wf_ind. intros ws Ea Ed Hi.
  constructor. intros ws' [b Hs]. pose proof (winv_step _ _ _ _ Hi Hs) as Hi'. destruct b.
  - pose proof (step_work _ _ _ _ Hi Hs) as Ew. cbn in Ew. pose proof (wl_bound _ _ _ _ L _ (proj1 Hi')).
    apply (IHa (n - work (polled ws')))%nat; [lia|done..].
  - destruct (measure_decreases _ _ Hs) as [Ep Hm]. apply (IHd (measure (at_pc ws'))); [lia|by rewrite Ep|done..].
Qed.

Lemma in_time_notified sp i ws ws' : winv ws -> ~ caught W ws -> notified ws -> runs (in_time W sp) i ws ws' -> sp = true \/ (~ caught W ws' /\ notified ws').
Proof.
  intros Hi Hc Hn Hr. destruct sp; [by left|right]. induction Hr as [|b i ws ws1 ws' [Hs Hc1] _ IH]; [done|].
  apply IH; [exact (winv_step _ _ _ _ Hi Hs)|done|exact (notified_step _ _ _ Hi Hc Hn Hs)].
Qed.

(** What the runs from a state have. *)
Lemma wait_runs `{!forall s, Decision (finished s)} s sp i ws : I s -> runs (wstep W sp) i (wstart s) ws ->
  I (polled ws) /\ (i <= n)%nat /\ ends W ws /\
  (sp = true \/ runs (in_time W sp) i (wstart s) ws -> exists j ws', runs (wstep W sp) j ws ws' /\ finished (polled ws')).
Proof.
  intros HI Hr. destruct (winv_start s HI) as (Hi0 & Hc0 & Hn0). destruct (runs_grow _ _ _ _ Hi0 Hr) as [Hi Ew].
  pose proof (wl_bound _ _ _ _ L _ (proj1 Hi)). split_and!; [apply Hi|lia|by apply winv_ends|].
  intros Hor. apply runs_end; [done|]. destruct Hor as [->|Ht]; [by left|]. by eapply (in_time_notified sp i (wstart s)).
Qed.

(** A run is one of the polling threads, with other steps in between. *)
Lemma runs_polls (R : relation A) sp i ws ws' : (forall t s s', t ∈ threads W -> iterate W t s = Ok s' -> R s s') ->
  runs (wstep W sp) i ws ws' -> nsteps R i (polled ws) (polled ws').
Proof.
  intros HR Hr. induction Hr as [|b i ws ws1 ws' Hs _ IH]; [apply nsteps_O|].
  destruct Hs as [t s s' ps Ht _ _ _ Ei| | | | | | | | | ]; cbn in *; [|done..]. eapply nsteps_l; [by eapply HR|done].
Qed.
End laws.

(** ** Threads that do not fail *)

Section delivery.
Context {A T M C : Type} `{EqDecision T, EqDecision M, EqDecision C} (W : scheme A T M C) (rank : M -> nat) (top : nat).
Context (I : A -> Prop) (work : A -> nat) (n : nat) (L : scheme_laws W rank top I work n).

Lemma runs_work sp i ws ws' : winv W rank I ws -> runs (wstep W sp) i ws ws' -> winv W rank I ws' /\ work (polled ws') = (i + work (polled ws))%nat.
Proof.
  intros Hi Hr. induction Hr as [|b i ws ws1 ws' Hs _ IH]; [done|]. destruct (IH (winv_step W rank top I work n _ L _ _ _ _ Hi Hs)) as [Hi' ->]. split; [done|].
  destruct Hs as [t s s' ps Ht _ _ _ Ei| | | | | | | | | ]; cbn [polled] in *; [|done..]. pose proof (sl_work _ _ _ _ _ _ L _ _ _ (proj1 Hi) Ht Ei) as Ew. cbn [polled] in Ew. lia.
Qed.

(** What is good when all the work is done is delivered. *)
Lemma scheme_delivers s (good : A -> Prop) : I s -> work s = 0%nat -> (forall s', I s' -> work s' = n -> good s') -> delivers W s n good.
Proof.
  intros HI H0 Hg sp i ws Hr. destruct (winv_start W rank I s HI) as (Hi0 & _).
  destruct (runs_work sp i _ ws Hi0 Hr) as [Hi Ew]. cbn in Ew. rewrite H0, Nat.add_0_r in Ew.
  destruct (wait_runs W rank top I work n _ L s sp i ws HI Hr) as (Hp & Hle & He & Hgo). split_and!; [|done| |done|].
  - intros (t & e & Ht & _ & E & Hne). by apply Hne, (sl_crash _ _ _ _ _ _ L _ _ _ Hp Ht).
  - intros Ei. apply Hg; [done|lia].
  - intros Hor. destruct (Hgo Hor) as (j & ws' & Hr' & Hf). exists ws'. destruct (runs_work sp j ws ws' Hi Hr') as [_ Ej].
    by replace (n - i)%nat with j by lia.
Qed.

(** The laws from those of the iterations, where the places of the others do not
    change at all. *)
Lemma exact_laws (J : A -> Prop) :
  NoDup (threads W) -> (forall m, (rank m <= top)%nat) ->
  (forall t s s', J s -> t ∈ threads W -> iterate W t s = Ok s' -> J s' /\ work s' = S (work s)) ->
  (forall s, J s -> (work s <= n)%nat) ->
  (forall s, J s -> (work s < n)%nat -> exists t s', t ∈ threads W /\ iterate W t s = Ok s') ->
  (forall t s e, J s -> t ∈ threads W -> iterate W t s = Fault e -> e = Blocked) ->
  (forall t s s', J s -> t ∈ threads W -> iterate W t s = Ok s' -> waits W t s = false) ->
  (forall t s s' t', J s -> t ∈ threads W -> iterate W t s = Ok s' -> t' ∈ threads W -> t' <> t -> wait_on W t' s' = wait_on W t' s) ->
  (forall t s s' t' m c, J s -> t ∈ threads W -> iterate W t s = Ok s' -> t' ∈ threads W -> t' <> t ->
    wait_on W t' s = Some (m, c) -> test W t' s = false -> test W t' s' = true -> c ∈ (sg_cv <$> signals W t s)) ->
  (forall t s s' sg, J s -> t ∈ threads W -> iterate W t s = Ok s' -> sg ∈ signals W t s -> sg_all sg = false -> alone W J (sg_cv sg)) ->
  (forall t s s', J s -> t ∈ threads W -> iterate W t s = Ok s' -> ordered rank (keeps W t s) (signals W t s)) ->
  scheme_laws W rank top J work n.
Proof.
  intros H1 H2 H3 H4 H5 H6 H7 H8 H9 H10 H11. split; [split; try done|..].
  - intros t s s' HJ Ht E. destruct (H3 t s s' HJ Ht E) as [? ->]. split; [done|lia].
  - intros s HJ Hno. apply H5; [done|]. specialize (H4 s HJ). lia.
  - intros t s s' t' m c HJ Ht E Ht' Hne <-. by apply (H8 t s).
  - intros t s s' HJ Ht E. by apply (H3 t s s').
  - done.
Qed.
End delivery.

Arguments winv_start {A T M C W rank I} s _.
Arguments winv_step {A T M C _ _ W rank top I work n finished} L sp b ws ws' _ _.
Arguments wait_runs {A T M C _ _ _ W rank top I work n finished} L {_} s sp i ws _ _.
Arguments runs_work {A T M C _ _ W rank top I work n} L sp i ws ws' _ _.
Arguments exact_laws {A T M C W rank top work n} J _ _ _ _ _ _ _ _ _ _ _.
Arguments scheme_delivers {A T M C _ _ _ W rank top I work n} L s good _ _ _.

(** ** The threads of helpers and of a client *)

(** The thread [t] of the helper [x], or one of the client's. *)
Inductive actor (U K : Type) := Helper (x : nat) (t : U) | Client (c : K).
Arguments Helper {U K}.
Arguments Client {U K}.
#[export] Instance actor_eq {U K : Type} `{EqDecision U, EqDecision K} : EqDecision (actor U K).
Proof. solve_decision. Defined.

Section actors.
Context {U K : Type}.

(** [k] helpers with the threads [ts x], and the client's. *)
Definition actors (k : nat) (ts : nat -> list U) (cs : list K) : list (actor U K) :=
  (seq 0 k ≫= fun x => Helper x <$> ts x) ++ (Client <$> cs).

Lemma actor_helper_in k ts cs x t : Helper x t ∈ actors k ts cs <-> (x < k)%nat /\ t ∈ ts x.
Proof.
  unfold actors. rewrite elem_of_app, list_elem_of_bind, list_elem_of_fmap. split.
  - intros [(y & (t' & [= -> ->] & Ht)%list_elem_of_fmap & Hy%elem_of_seq)|(c & [=] & _)]. split; [lia|done].
  - intros [Hx Ht]. left. exists x. split; [by apply list_elem_of_fmap_2|]. apply elem_of_seq. lia.
Qed.

Lemma client_in k ts cs c : Client c ∈ actors k ts cs <-> c ∈ cs.
Proof.
  unfold actors. rewrite elem_of_app, list_elem_of_bind, list_elem_of_fmap. split.
  - by intros [(y & (t' & [=] & _)%list_elem_of_fmap & _)|(c' & [= ->] & Hc)].
  - intros Hc. right. by exists c.
Qed.

Lemma actors_nodup k ts cs : (forall x, (x < k)%nat -> NoDup (ts x)) -> NoDup cs -> NoDup (actors k ts cs).
Proof.
  intros Hts Hcs. apply NoDup_app. split_and!.
  - assert (H : forall n b, (b + n <= k)%nat -> NoDup (seq b n ≫= fun x => (Helper x : U -> actor U K) <$> ts x)); [|by apply H].
    induction n as [|n IH]; intros b Hb; cbn; [constructor|]. apply NoDup_app. split_and!.
    + apply NoDup_fmap; [by intros ?? [=]|]. apply Hts. lia.
    + intros a (t & -> & _)%list_elem_of_fmap (y & (t' & [= -> _] & _)%list_elem_of_fmap & Hy%elem_of_seq)%list_elem_of_bind. lia.
    + apply IH. lia.
  - intros a (x & (t & -> & _)%list_elem_of_fmap & _)%list_elem_of_bind (c & [=] & _)%list_elem_of_fmap.
  - apply NoDup_fmap; [by intros ?? [=]|done].
Qed.
End actors.
