(* ===== verification/Command.v ===== *)
(** * Memory regions and command buffers

    [memcpy] with its bounds, the little-endian image of an [int] in memory,
    and the two ways the code handles a command: the writer that fills
    [char upd_cmd[COMMAND_MAX_LENGTH]] with a moving [cur] (UPCoordinator.cc)
    and the reader that walks it (UPNode.cc).  A byte is a [Z] in [0, 256). *)
From S2P Require Import Prelude.

(** ** [memcpy] *)

(** [memcpy (dst + off, src, length src)]; [None] when it leaves [dst]. *)
Definition memcpy {A} (dst : list A) (off : nat) (src : list A) : option (list A) :=
  if decide (off + length src <= length dst)%nat
  then Some (take off dst ++ src ++ drop (off + length src) dst)
  else None.

(** [memcpy (_, src + off, n)]: the [n] elements read; [None] out of range. *)
Definition slice {A} (src : list A) (off n : nat) : option (list A) :=
  if decide (off + n <= length src)%nat
  then Some (take n (drop off src))
  else None.

(** [memcpy (dst + off, src, ...)] where the sizes are known to fit. *)
Definition blit {A} (dst : list A) (off : nat) (src : list A) : list A :=
  take off dst ++ src ++ drop (off + length src) dst.

Lemma memcpy_blit {A} (dst src : list A) off :
  (off + length src <= length dst)%nat -> memcpy dst off src = Some (blit dst off src).
Proof. intros. unfold memcpy. by rewrite decide_True. Qed.

Lemma length_blit {A} (dst src : list A) off :
  (off + length src <= length dst)%nat -> length (blit dst off src) = length dst.
Proof. intros. unfold blit. rewrite !length_app, length_take, length_drop. lia. Qed.

(** [memset (_, 0, n)] on a fresh region of [n] bytes. *)
Definition zeros (n : nat) : list Z := replicate n 0.

Lemma memcpy_length {A} (dst src d' : list A) off :
  memcpy dst off src = Some d' -> length d' = length dst.
Proof.
  unfold memcpy. case_decide; [|done]. intros [= <-].
  rewrite !length_app, length_take, length_drop. lia.
Qed.

Lemma memcpy_lookup {A} (dst src d' : list A) off i :
  memcpy dst off src = Some d' ->
  d' !! i = if decide (off <= i < off + length src)%nat then src !! (i - off)%nat else dst !! i.
Proof.
  unfold memcpy. case_decide; [|done]. intros [= <-]. case_decide.
  - rewrite lookup_app_r, length_take by (rewrite length_take; lia).
    rewrite Nat.min_l by lia. by rewrite lookup_app_l by lia.
  - destruct (decide (i < off)%nat).
    + rewrite lookup_app_l by (rewrite length_take; lia). by rewrite lookup_take_lt by lia.
    + rewrite !lookup_app_r; rewrite ?length_take, ?Nat.min_l by lia; try lia.
      rewrite lookup_drop. f_equal. lia.
Qed.

Lemma memcpy_Some {A} (dst src : list A) off :
  (off + length src <= length dst)%nat ->
  memcpy dst off src = Some (take off dst ++ src ++ drop (off + length src) dst).
Proof. intros. unfold memcpy. by rewrite decide_True. Qed.

Lemma slice_Some {A} (src l : list A) off n :
  slice src off n = Some l <-> (off + n <= length src)%nat /\ l = take n (drop off src).
Proof. unfold slice. case_decide; naive_solver. Qed.

Lemma slice_length {A} (src l : list A) off n : slice src off n = Some l -> length l = n.
Proof. rewrite slice_Some. intros [? ->]. rewrite length_take, length_drop. lia. Qed.

Lemma slice_lookup {A} (src l : list A) off n i :
  slice src off n = Some l -> (i < n)%nat -> l !! i = src !! (off + i)%nat.
Proof. rewrite slice_Some. intros [? ->] ?. by rewrite lookup_take_lt, lookup_drop by lia. Qed.

Lemma slice_full {A} (l : list A) : slice l 0 (length l) = Some l.
Proof. apply slice_Some. simpl. by rewrite drop_0, take_ge. Qed.

(** ** Little-endian integers *)

(** The four bytes of an [int] (two's complement, little endian). *)
Definition le32 (z : Z) : list Z :=
  [z mod 256; (z / 2^8) mod 256; (z / 2^16) mod 256; (z / 2^24) mod 256].

(** The [unsigned int] held by four bytes, and the [int] they hold. *)
Definition de32u (l : list Z) : option Z :=
  match l with
  | [a; b; c; d] => Some (a + 2^8 * b + 2^16 * c + 2^24 * d)
  | _ => None
  end.
Definition de32 (l : list Z) : option Z := wrap_s32 <$> de32u l.

Lemma length_le32 z : length (le32 z) = 4%nat.
Proof. reflexivity. Qed.

Lemma le32_bytes z : Forall is_byte (le32 z).
Proof. repeat constructor; unfold is_byte; apply Z.mod_pos_bound; lia. Qed.

Lemma de32u_le32 z : de32u (le32 z) = Some (wrap_u32 z).
Proof.
  unfold de32u, le32, wrap_u32. f_equal.
  change (2^32) with (256 * (256 * (256 * 256))).
  rewrite !Z.rem_mul_r by lia.
  change (2^8) with 256. change (2^16) with (256 * 256). change (2^24) with (256 * (256 * 256)).
  rewrite <- !Z.div_div by lia. lia.
Qed.

Lemma de32_le32 z : is_s32 z -> de32 (le32 z) = Some z.
Proof.
  intros Hz. unfold de32. rewrite de32u_le32. simpl. f_equal.
  unfold wrap_s32, wrap_u32. rewrite Zplus_mod_idemp_l. by apply wrap_s32_id.
Qed.

Lemma de32u_le32_id z : is_u32 z -> de32u (le32 z) = Some z.
Proof. intros. by rewrite de32u_le32, wrap_u32_id. Qed.

(** [ints vs] is the memory image of consecutive integers. *)
Fixpoint ints (vs : list Z) : list Z :=
  match vs with [] => [] | v :: vs' => le32 v ++ ints vs' end.

Lemma length_ints vs : length (ints vs) = (4 * length vs)%nat.
Proof. induction vs as [|v vs IH]; [done|]. cbn [ints]. rewrite length_app, IH. simpl. lia. Qed.

Lemma ints_app v1 v2 : ints (v1 ++ v2) = ints v1 ++ ints v2.
Proof. induction v1 as [|v v1 IH]; [done|]. cbn [ints app]. by rewrite IH. Qed.

(** ** The writer *)

(** [char upd_cmd[...]] and the moving index [cur]. *)
Record wbuf := Wbuf { wb_mem : list Z; wb_cur : nat }.

(** [memcpy(upd_cmd + cur, &v, 4); cur += 4;] *)
Definition put (v : Z) (w : wbuf) : res wbuf :=
  m ← res_of_option Undef (memcpy (wb_mem w) (wb_cur w) (le32 v));
  Ok (Wbuf m (wb_cur w + 4)%nat).

(** [// skip init cmd len] followed by [cur += 4;] *)
Definition skip (w : wbuf) : res wbuf := Ok (Wbuf (wb_mem w) (wb_cur w + 4)%nat).

(** [memcpy(upd_cmd + 4, &cur, 4);] *)
Definition patch_len (w : wbuf) : res wbuf :=
  m ← res_of_option Undef (memcpy (wb_mem w) 4 (le32 (Z.of_nat (wb_cur w))));
  Ok (Wbuf m (wb_cur w)).

(** A loop of [put]s. *)
Definition puts (vs : list Z) (w : wbuf) : res wbuf := for_each vs put w.

(** [cur = 0;] *)
Definition rewind (mem : list Z) : wbuf := Wbuf mem 0.

(** What [redisCommand(..., "RPUSH ... %b", upd_cmd, cur)] sends. *)
Definition sent (w : wbuf) : list Z := take (wb_cur w) (wb_mem w).

Lemma puts_app v1 v2 w : puts (v1 ++ v2) w = (puts v1 w ≫= puts v2).
Proof. apply for_each_app. Qed.

Lemma puts_one v w : puts [v] w = put v w.
Proof. unfold puts; simpl. by destruct (put v w). Qed.

Lemma puts_cons v vs w : puts (v :: vs) w = (put v w ≫= puts vs).
Proof. reflexivity. Qed.

Lemma put_ok v w :
  (wb_cur w + 4 <= length (wb_mem w))%nat ->
  exists w', put v w = Ok w' /\ sent w' = sent w ++ le32 v /\
    wb_cur w' = (wb_cur w + 4)%nat /\ length (wb_mem w') = length (wb_mem w).
Proof.
  intros Hb. unfold put. rewrite memcpy_Some by (rewrite length_le32; lia).
  rewrite length_le32. cbn [res_of_option]. rewrite bind_ok.
  eexists; split; [reflexivity|]. unfold sent; cbn [wb_mem wb_cur].
  rewrite !length_app, length_take, length_drop, length_le32. split_and!; try lia.
  rewrite take_app_ge by (rewrite length_take; lia). f_equal.
  rewrite length_take, Nat.min_l by lia.
  by replace (wb_cur w + 4 - wb_cur w)%nat with 4%nat by lia.
Qed.

Lemma put_overflow v w :
  (length (wb_mem w) < wb_cur w + 4)%nat -> put v w = Fault Undef.
Proof.
  intros. unfold put, memcpy. rewrite decide_False; [done|]. rewrite length_le32. lia.
Qed.

Lemma puts_ok vs w :
  (wb_cur w + 4 * length vs <= length (wb_mem w))%nat ->
  exists w', puts vs w = Ok w' /\ sent w' = sent w ++ ints vs /\
    wb_cur w' = (wb_cur w + 4 * length vs)%nat /\ length (wb_mem w') = length (wb_mem w).
Proof.
  revert w; induction vs as [|v vs IH]; intros w Hb.
  - exists w. unfold puts; simpl. rewrite app_nil_r. split_and!; [done|done|lia|done].
  - cbn [length] in Hb. rewrite puts_cons.
    destruct (put_ok v w) as (w1 & -> & Hs & Hc & Hl); [lia|]. rewrite bind_ok.
    destruct (IH w1) as (w2 & -> & Hs2 & Hc2 & Hl2); [lia|].
    exists w2. cbn [ints length]. rewrite Hs2, Hs, app_assoc. split_and!; [done|done|lia|lia].
Qed.

Lemma puts_overflow vs w :
  (wb_cur w <= length (wb_mem w) < wb_cur w + 4 * length vs)%nat -> puts vs w = Fault Undef.
Proof.
  revert w; induction vs as [|v vs IH]; intros w [Hb1 Hb2]; cbn [length] in Hb2; [lia|].
  rewrite puts_cons. destruct (decide (wb_cur w + 4 <= length (wb_mem w))%nat).
  - destruct (put_ok v w) as (w1 & -> & Hs & Hc & Hl); [lia|]. rewrite bind_ok.
    apply IH. lia.
  - by rewrite put_overflow by lia.
Qed.

(** A whole command: the task type, the patched length, the operands. *)
Definition command (task : Z) (vs : list Z) : list Z :=
  ints (task :: Z.of_nat (8 + 4 * length vs) :: vs).

Definition write_command (task : Z) (vs : list Z) : wbuf -> res wbuf :=
  put task ;> skip ;> puts vs ;> patch_len.

Lemma length_command task vs : length (command task vs) = (8 + 4 * length vs)%nat.
Proof. unfold command. rewrite length_ints. cbn [length]. lia. Qed.

Lemma patch_len_ok w :
  (8 <= wb_cur w <= length (wb_mem w))%nat ->
  exists w', patch_len w = Ok w' /\ wb_cur w' = wb_cur w /\
    sent w' = take 4 (sent w) ++ le32 (Z.of_nat (wb_cur w)) ++ drop 8 (sent w) /\
    length (wb_mem w') = length (wb_mem w).
Proof.
  intros Hb. unfold patch_len. rewrite memcpy_Some by (rewrite length_le32; lia).
  rewrite length_le32. change (4 + 4)%nat with 8%nat. cbn [res_of_option]. rewrite bind_ok.
  eexists; split; [reflexivity|]. unfold sent; cbn [wb_mem wb_cur].
  rewrite !length_app, length_take, length_drop, length_le32. split_and!; try lia.
  rewrite take_take, Nat.min_l by lia. rewrite skipn_firstn_comm.
  rewrite take_app_ge by (rewrite length_take; lia). f_equal.
  rewrite length_take, Nat.min_l by lia.
  rewrite take_app_ge by (rewrite length_le32; lia). f_equal.
  rewrite length_le32. by replace (wb_cur w - 4 - 4)%nat with (wb_cur w - 8)%nat by lia.
Qed.

(** The whole writer: it produces [command task vs] when the buffer is large
    enough, and runs past the end of the buffer when it is not. *)
Lemma write_command_ok task vs mem :
  (8 + 4 * length vs <= length mem)%nat ->
  exists w, write_command task vs (rewind mem) = Ok w /\ sent w = command task vs /\
    length (wb_mem w) = length mem.
Proof.
  intros Hb. unfold write_command, seqr, rewind.
  destruct (put_ok task (Wbuf mem 0)) as (w1 & -> & Hs1 & Hc1 & Hl1); [simpl; lia|].
  rewrite bind_ok. unfold skip at 1. rewrite bind_ok.
  cbn [wb_mem wb_cur] in *.
  destruct (puts_ok vs (Wbuf (wb_mem w1) (wb_cur w1 + 4))) as (w2 & -> & Hs2 & Hc2 & Hl2);
    [cbn [wb_mem wb_cur]; lia|].
  rewrite bind_ok. cbn [wb_mem wb_cur] in *.
  destruct (patch_len_ok w2) as (w3 & -> & Hc3 & Hs3 & Hl3); [lia|].
  exists w3. split_and!; [done| |lia].
  rewrite Hs3, Hs2. unfold command. cbn [ints].
  assert (Hg : exists g, length g = 4%nat /\ sent (Wbuf (wb_mem w1) (wb_cur w1 + 4)) = le32 task ++ g).
  { unfold sent in *. cbn [wb_mem wb_cur] in *. rewrite Hc1 in *. change (0 + 4)%nat with 4%nat in *.
    exists (take 4 (drop 4 (wb_mem w1))). split; [rewrite length_take, length_drop; lia|].
    rewrite <- (take_drop 4 (wb_mem w1)) at 1. rewrite take_app_ge by (rewrite length_take; lia).
    rewrite length_take, Nat.min_l by lia. by rewrite Hs1. }
  destruct Hg as (g & Hg & ->). rewrite <- !app_assoc.
  rewrite take_app_le by (rewrite length_le32; lia).
  rewrite take_ge by (rewrite length_le32; lia).
  f_equal. replace (wb_cur w2) with (8 + 4 * length vs)%nat by lia. f_equal.
  rewrite drop_app_ge by (rewrite length_le32; lia). rewrite length_le32.
  rewrite drop_app_ge by lia. by rewrite Hg, drop_0.
Qed.

Lemma write_command_overflow task vs mem :
  (8 <= length mem < 8 + 4 * length vs)%nat ->
  write_command task vs (rewind mem) = Fault Undef.
Proof.
  intros Hb. unfold write_command, seqr, rewind.
  destruct (put_ok task (Wbuf mem 0)) as (w1 & -> & Hs1 & Hc1 & Hl1); [simpl; lia|].
  rewrite bind_ok. unfold skip at 1. rewrite bind_ok. cbn [wb_mem wb_cur] in *.
  rewrite puts_overflow; [done|]. cbn [wb_mem wb_cur]. lia.
Qed.

(** ** The reader *)

(** [memcpy(&x, upd_cmd + cur, 4); cur += 4;] *)
Definition get (buf : list Z) (cur : nat) : res (Z * nat) :=
  l ← res_of_option Undef (slice buf cur 4);
  v ← res_of_option Undef (de32 l);
  Ok (v, (cur + 4)%nat).

(** [n] consecutive [get]s into a vector. *)
Fixpoint gets (n : nat) (buf : list Z) (cur : nat) : res (list Z * nat) :=
  match n with
  | O => Ok ([], cur)
  | S m =>
      '(v, cur) ← get buf cur;
      '(vs, cur) ← gets m buf cur;
      Ok (v :: vs, cur)
  end.

(** [at_cur buf cur vs]: the integers [vs] lie in [buf] from [cur] on. *)
Definition at_cur (buf : list Z) (cur : nat) (vs : list Z) : Prop :=
  (cur <= length buf)%nat /\ exists tl, drop cur buf = ints vs ++ tl.

Lemma get_at_cur buf cur v vs :
  at_cur buf cur (v :: vs) -> is_s32 v ->
  get buf cur = Ok (v, (cur + 4)%nat) /\ at_cur buf (cur + 4) vs.
Proof.
  intros (Hc & tl & Htl) Hv. cbn [ints] in Htl. rewrite <- app_assoc in Htl.
  assert (Hl : length (drop cur buf) = (4 + length (ints vs ++ tl))%nat)
    by (rewrite Htl, length_app, length_le32; lia).
  rewrite length_drop in Hl.
  assert (Hs : slice buf cur 4 = Some (le32 v)).
  { apply slice_Some. split; [lia|]. rewrite Htl.
    rewrite take_app_le by (rewrite length_le32; lia).
    by rewrite take_ge by (rewrite length_le32; lia). }
  split.
  - unfold get. rewrite Hs. cbn [res_of_option]. rewrite bind_ok.
    by rewrite de32_le32.
  - split; [lia|]. exists tl. rewrite <- drop_drop, Htl.
    rewrite drop_app_ge by (rewrite length_le32; lia). by rewrite length_le32, drop_0.
Qed.

Lemma gets_at_cur buf cur vs ws :
  at_cur buf cur (vs ++ ws) -> Forall is_s32 vs ->
  gets (length vs) buf cur = Ok (vs, (cur + 4 * length vs)%nat) /\
  at_cur buf (cur + 4 * length vs) ws.
Proof.
  revert cur; induction vs as [|v vs IH]; intros cur Hat Hall.
  - cbn [length gets app] in *. by replace (cur + 4 * 0)%nat with cur by lia.
  - apply Forall_cons in Hall as [Hv Hall]. cbn [app] in Hat.
    destruct (get_at_cur _ _ _ _ Hat Hv) as [Hg Hat'].
    destruct (IH _ Hat' Hall) as [Hgs Hat2].
    cbn [length gets]. rewrite Hg, bind_ok. cbn. rewrite Hgs, bind_ok.
    replace (cur + 4 + 4 * length vs)%nat with (cur + 4 * S (length vs))%nat in * by lia.
    done.
Qed.

Lemma at_cur_command task vs junk :
  at_cur (command task vs ++ junk) 8 vs.
Proof.
  split.
  - rewrite length_app, length_command. lia.
  - exists junk. unfold command. cbn [ints]. by rewrite <- !app_assoc.
Qed.

(** A block of integers copied out of a buffer. *)
Lemma slice_at_cur buf cur vs ws :
  at_cur buf cur (vs ++ ws) ->
  slice buf cur (4 * length vs) = Some (ints vs) /\ at_cur buf (cur + 4 * length vs) ws.
Proof.
  intros (Hc & tl & Htl). rewrite ints_app, <- app_assoc in Htl.
  assert (Hl : length (drop cur buf) = (4 * length vs + length (ints ws ++ tl))%nat)
    by (rewrite Htl, length_app, length_ints; lia).
  rewrite length_drop in Hl. split.
  - apply slice_Some. split; [lia|]. rewrite Htl. rewrite take_app_le by (rewrite length_ints; lia).
    by rewrite take_ge by (rewrite length_ints; lia).
  - split; [lia|]. exists tl. rewrite <- drop_drop, Htl.
    rewrite drop_app_ge by (rewrite length_ints; lia). by rewrite length_ints, Nat.sub_diag, drop_0.
Qed.

Lemma at_cur_ints vs tl : at_cur (ints vs ++ tl) 0 vs.
Proof. split; [lia|]. by exists tl. Qed.

(** Writers from the start of a buffer. *)
Lemma puts_rewind vs mem :
  (4 * length vs <= length mem)%nat ->
  exists w, puts vs (rewind mem) = Ok w /\ sent w = ints vs.
Proof.
  intros H. destruct (puts_ok vs (rewind mem)) as (w & Hw & Hs & _); [simpl; lia|].
  exists w. split; [done|]. by rewrite Hs.
Qed.
