(* ===== verification/Galois.v ===== *)
(** * Galois field arithmetic (Util/galois.c)

    galois.c is a thin layer over GF-Complete, which is not in the repository:
    the operations of its field objects are the class [GFComplete], and what
    the program relies on is the class [GF8Laws] (GF(2^8) is a field whose
    addition is exclusive or; the region operations act byte by byte).
    [GF256.v] shows the laws can hold.  The lazy [galois_init] of
    [gfp_array[w]] is left out: an initialised field only depends on [w]. *)
From S2P Require Import Prelude.

(** The methods of [gfp_array[w]] (gf_complete.h), by the width [w]. *)
Class GFComplete := {
  (** [gfp_array[w]->multiply.w32(gf, a, b)] *)
  gf_multiply : Z -> Z -> Z -> Z;
  (** [gfp_array[w]->divide.w32(gf, a, b)] *)
  gf_divide : Z -> Z -> Z -> Z;
  (** [gfp_array[w]->multiply_region.w32(gf, src, dest, val, nbytes, add)]:
      the new contents of [dest]; both regions have [nbytes] bytes. *)
  gf_multiply_region : Z -> list Z -> list Z -> Z -> bool -> list Z
}.

(** The documented behaviour of the fields of width 8 and of the region
    operation of width 32 with the constant 1, which are all the program uses. *)
Class GF8Laws `{GF : GFComplete} : Prop := {
  gf8_byte a b : is_byte a -> is_byte b -> is_byte (gf_multiply 8 a b);
  gf8_comm a b : is_byte a -> is_byte b -> gf_multiply 8 a b = gf_multiply 8 b a;
  gf8_assoc a b c : is_byte a -> is_byte b -> is_byte c ->
    gf_multiply 8 (gf_multiply 8 a b) c = gf_multiply 8 a (gf_multiply 8 b c);
  gf8_distr a b c : is_byte a -> is_byte b -> is_byte c ->
    gf_multiply 8 a (Z.lxor b c) = Z.lxor (gf_multiply 8 a b) (gf_multiply 8 a c);
  gf8_one a : is_byte a -> gf_multiply 8 1 a = a;
  gf8_div_byte a b : is_byte a -> is_byte b -> b <> 0 -> is_byte (gf_divide 8 a b);
  gf8_div a b : is_byte a -> is_byte b -> b <> 0 -> gf_multiply 8 (gf_divide 8 a b) b = a;
  gf8_region src dst v add : length src = length dst -> Forall is_byte src -> is_byte v ->
    gf_multiply_region 8 src dst v add =
      zip_with (fun s d => if add : bool then Z.lxor d (gf_multiply 8 v s) else gf_multiply 8 v s) src dst;
  gf32_region_one src dst : length src = length dst ->
    gf_multiply_region 32 src dst 1 true = zip_with (fun s d => Z.lxor d s) src dst
}.

Section galois.
Context `{GF : GFComplete}.

Definition galois_single_multiply (x y w : Z) : Z :=
  if (x =? 0) || (y =? 0) then 0
  else if w <=? 32 then gf_multiply w x y else 0.

Definition galois_single_divide (x y w : Z) : Z :=
  if x =? 0 then 0
  else if y =? 0 then -1
  else if w <=? 32 then gf_divide w x y else 0.

Definition galois_w08_region_multiply (region : list Z) (multby : Z) (r2 : list Z) (add : bool) : list Z :=
  gf_multiply_region 8 region r2 multby add.

Definition galois_w32_region_xor (src dest : list Z) : list Z :=
  gf_multiply_region 32 src dest 1 true.

(** [nbytes] is the length of the two regions. *)
Definition galois_region_xor (src dest : list Z) : list Z :=
  if decide (16 <= length src)%nat then galois_w32_region_xor src dest
  else zip_with (fun s d => Z.lxor d s) src dest.

Definition galois_inverse (y w : Z) : Z :=
  if y =? 0 then -1 else galois_single_divide 1 y w.
End galois.

Notation "a ⊗ b" := (galois_single_multiply a b 8) (at level 40, left associativity) : cord_scope.

Section laws.
Context `{GF : GFComplete} {GL : GF8Laws}.

Lemma gmul_0_l a : 0 ⊗ a = 0.
Proof. reflexivity. Qed.
Lemma gmul_0_r a : a ⊗ 0 = 0.
Proof. unfold galois_single_multiply. by rewrite orb_true_r. Qed.

Lemma gf8_zero_r a : is_byte a -> gf_multiply 8 a 0 = 0.
Proof.
  intros Ha. pose proof (gf8_distr a 0 0 Ha is_byte_0 is_byte_0) as H.
  by rewrite !Z.lxor_nilpotent in H.
Qed.

(** On bytes the guarded multiplication is the field multiplication. *)
Lemma gmul_gf a b : is_byte a -> is_byte b -> a ⊗ b = gf_multiply 8 a b.
Proof.
  intros Ha Hb. unfold galois_single_multiply. simpl.
  destruct (Z.eqb_spec a 0) as [->|]; simpl.
  - by rewrite gf8_comm, gf8_zero_r by auto with cord.
  - destruct (Z.eqb_spec b 0) as [->|]; simpl; [by rewrite gf8_zero_r|done].
Qed.

Lemma gmul_byte a b : is_byte a -> is_byte b -> is_byte (a ⊗ b).
Proof. intros. rewrite gmul_gf by done. by apply gf8_byte. Qed.

Lemma gmul_comm a b : is_byte a -> is_byte b -> a ⊗ b = b ⊗ a.
Proof. intros. rewrite !gmul_gf by done. by apply gf8_comm. Qed.

Lemma gmul_assoc a b c :
  is_byte a -> is_byte b -> is_byte c -> (a ⊗ b) ⊗ c = a ⊗ (b ⊗ c).
Proof.
  intros. rewrite !gmul_gf by (try done; rewrite ?gmul_gf by done; by apply gf8_byte).
  by apply gf8_assoc.
Qed.

Lemma gmul_lxor_r a b c :
  is_byte a -> is_byte b -> is_byte c -> a ⊗ Z.lxor b c = Z.lxor (a ⊗ b) (a ⊗ c).
Proof. intros. rewrite !gmul_gf by auto with cord. by apply gf8_distr. Qed.

Lemma gmul_lxor_l a b c :
  is_byte a -> is_byte b -> is_byte c -> Z.lxor a b ⊗ c = Z.lxor (a ⊗ c) (b ⊗ c).
Proof.
  intros. rewrite (gmul_comm _ c), gmul_lxor_r by auto with cord.
  by rewrite (gmul_comm c a), (gmul_comm c b).
Qed.

Lemma gmul_1_l a : is_byte a -> 1 ⊗ a = a.
Proof. intros. rewrite gmul_gf by auto with cord. by apply gf8_one. Qed.

Lemma gmul_1_r a : is_byte a -> a ⊗ 1 = a.
Proof. intros. rewrite gmul_comm by auto with cord. by apply gmul_1_l. Qed.

Lemma gdiv_byte a b : is_byte a -> is_byte b -> b <> 0 -> is_byte (galois_single_divide a b 8).
Proof.
  intros Ha Hb Hne. unfold galois_single_divide.
  destruct (Z.eqb_spec a 0); [auto with cord|].
  destruct (Z.eqb_spec b 0); [done|]. simpl. by apply gf8_div_byte.
Qed.

Lemma gdiv_mul a b : is_byte a -> is_byte b -> b <> 0 -> galois_single_divide a b 8 ⊗ b = a.
Proof.
  intros Ha Hb Hne. unfold galois_single_divide.
  destruct (Z.eqb_spec a 0) as [->|]; [done|].
  destruct (Z.eqb_spec b 0); [done|]. simpl.
  rewrite gmul_gf by (try done; by apply gf8_div_byte). by apply gf8_div.
Qed.

Lemma gmul_xsum_l a n f :
  is_byte a -> (forall i, (i < n)%nat -> is_byte (f i)) ->
  a ⊗ xsum n f = xsum n (fun i => a ⊗ f i).
Proof.
  intros Ha. induction n as [|n IH]; intros Hf; simpl; [apply gmul_0_r|].
  rewrite gmul_lxor_r; [|done|apply xsum_byte; intros; apply Hf; lia|apply Hf; lia].
  rewrite IH by (intros; apply Hf; lia). done.
Qed.

Lemma gmul_xsum_r a n f :
  is_byte a -> (forall i, (i < n)%nat -> is_byte (f i)) ->
  xsum n f ⊗ a = xsum n (fun i => f i ⊗ a).
Proof.
  intros Ha Hf. rewrite gmul_comm by (try done; by apply xsum_byte).
  rewrite gmul_xsum_l by done. apply xsum_ext. intros. apply gmul_comm; auto.
Qed.

Lemma galois_region_xor_spec src dst :
  length src = length dst -> galois_region_xor src dst = zip_with (fun s d => Z.lxor d s) src dst.
Proof.
  intros. unfold galois_region_xor, galois_w32_region_xor.
  case_decide; [by apply gf32_region_one|done].
Qed.
End laws.

#[export] Hint Resolve gmul_byte gdiv_byte : cord.
