(* ===== verification/GF256.v ===== *)
(** * A concrete field for the witnesses

    GF(2^8) with the polynomial 0x11d (the default of GF-Complete for [w = 8]),
    multiplied bit by bit, as an instance of [GFComplete] that satisfies
    [GF8Laws].  Nothing of the program is modelled here: the instance only
    shows that the hypotheses on the field can hold, and lets the witnesses
    compute. *)
From S2P Require Import Prelude Galois.

Definition xtime (a : Z) : Z :=
  let t := 2 * a in if Z.testbit t 8 then Z.lxor t 285 else t.

Fixpoint mul_steps (n : nat) (a b : Z) : Z :=
  match n with
  | O => 0
  | S m => Z.lxor (if Z.odd b then a else 0) (mul_steps m (xtime a) (Z.div2 b))
  end.

Definition mul256 (a b : Z) : Z := mul_steps 8 a b.

(** The inverse of [b] is [b ^ 254]. *)
Fixpoint pow256 (n : nat) (b : Z) : Z :=
  match n with O => 1 | S m => mul256 b (pow256 m b) end.
Definition div256 (a b : Z) : Z := mul256 a (pow256 254 b).

#[export] Instance gf256 : GFComplete := {
  gf_multiply _ a b := mul256 a b;
  gf_divide _ a b := div256 a b;
  gf_multiply_region _ src dst v add :=
    zip_with (fun s d => if add : bool then Z.lxor d (if v =? 1 then s else mul256 v s)
                         else mul256 v s) src dst
}.

(** ** Reduction to finite checks *)

Definition all_bytes : list Z := Z.of_nat <$> seq 0 256.
Definition basis : list Z := (fun i => 2 ^ Z.of_nat i) <$> seq 0 8.

Lemma byte_in b : is_byte b -> b ∈ all_bytes.
Proof.
  intros Hb. unfold all_bytes. apply list_elem_of_fmap. exists (Z.to_nat b).
  unfold is_byte in Hb. split; [lia|]. apply elem_of_seq. lia.
Qed.

Lemma forall_bytes (P : Z -> Prop) {Pdec : forall b, Decision (P b)} :
  forallb (fun b => bool_decide (P b)) all_bytes = true -> forall b, is_byte b -> P b.
Proof.
  intros Hall b Hb. rewrite forallb_forall in Hall.
  apply (bool_decide_unpack (P b)), Is_true_eq_left, Hall, list_elem_of_In, byte_in, Hb.
Qed.

Ltac byte_check := refine (forall_bytes _ _); vm_compute; reflexivity.

Definition bits_sum (b : Z) : Z :=
  xsum 8 (fun i => if Z.testbit b (Z.of_nat i) then 2 ^ Z.of_nat i else 0).

Lemma bits_sum_id b : is_byte b -> bits_sum b = b.
Proof. revert b. byte_check. Qed.

(** A property of bytes closed under exclusive or holds once it holds on the basis. *)
Lemma byte_xor_ind (P : Z -> Prop) :
  P 0 -> (forall i, (i < 8)%nat -> P (2 ^ Z.of_nat i)) ->
  (forall a b, is_byte a -> is_byte b -> P a -> P b -> P (Z.lxor a b)) ->
  forall b, is_byte b -> P b.
Proof.
  intros H0 Hb Hx b Hbb. rewrite <- bits_sum_id by done. unfold bits_sum.
  set (f := fun i => if Z.testbit b (Z.of_nat i) then 2 ^ Z.of_nat i else 0).
  assert (Hf : forall i, (i < 8)%nat -> is_byte (f i) /\ P (f i)).
  { intros i Hi. unfold f. destruct (Z.testbit b _); split; auto with cord.
    unfold is_byte. split; [lia|]. change 256 with (2^8). apply Z.pow_lt_mono_r; lia. }
  assert (forall n, (n <= 8)%nat -> is_byte (xsum n f) /\ P (xsum n f)) as Hn; [|by apply Hn].
  induction n as [|n IH]; intros Hle; simpl; [auto with cord|].
  destruct IH as [IH1 IH2]; [lia|]. destruct (Hf n) as [H1 H2]; [lia|]. auto with cord.
Qed.

Lemma xtime_lxor a b : is_byte a -> is_byte b -> xtime (Z.lxor a b) = Z.lxor (xtime a) (xtime b).
Proof.
  intros Ha Hb. unfold xtime.
  replace (2 * Z.lxor a b) with (Z.lxor (2 * a) (2 * b))
    by (rewrite !(Z.mul_comm 2), <- !Z.shiftl_mul_pow2 with (n := 1) by lia; symmetry; apply Z.shiftl_lxor).
  rewrite Z.lxor_spec. destruct (Z.testbit (2 * a) 8), (Z.testbit (2 * b) 8); simpl; try done.
  - by rewrite lxor_4_swap, Z.lxor_nilpotent, Z.lxor_0_r.
  - by rewrite !Z.lxor_assoc, (Z.lxor_comm (2 * b)).
  - by rewrite Z.lxor_assoc.
Qed.

Lemma xtime_byte a : is_byte a -> is_byte (xtime a).
Proof. revert a. byte_check. Qed.

Lemma mul_steps_lxor_l n a b c :
  is_byte a -> is_byte b -> mul_steps n (Z.lxor a b) c = Z.lxor (mul_steps n a c) (mul_steps n b c).
Proof.
  revert a b c; induction n as [|n IH]; intros a b c Ha Hb; simpl; [done|].
  rewrite xtime_lxor, IH by auto using xtime_byte. rewrite lxor_4_swap. by destruct (Z.odd c).
Qed.

Lemma mul_steps_lxor_r n a b c :
  mul_steps n a (Z.lxor b c) = Z.lxor (mul_steps n a b) (mul_steps n a c).
Proof.
  revert a b c; induction n as [|n IH]; intros a b c; simpl; [done|].
  rewrite Z.div2_spec, Z.shiftr_lxor, <- !Z.div2_spec, IH, lxor_4_swap. f_equal.
  rewrite <- !Z.bit0_odd, Z.lxor_spec.
  destruct (Z.testbit b 0), (Z.testbit c 0); simpl;
    by rewrite ?Z.lxor_nilpotent, ?Z.lxor_0_l, ?Z.lxor_0_r.
Qed.

Lemma mul256_lxor_l a b c :
  is_byte a -> is_byte b -> mul256 (Z.lxor a b) c = Z.lxor (mul256 a c) (mul256 b c).
Proof. apply mul_steps_lxor_l. Qed.

Lemma mul256_lxor_r a b c : mul256 a (Z.lxor b c) = Z.lxor (mul256 a b) (mul256 a c).
Proof. apply mul_steps_lxor_r. Qed.

Lemma mul_steps_byte n a b : is_byte a -> is_byte (mul_steps n a b).
Proof.
  revert a b; induction n as [|n IH]; intros a b Ha; simpl; [auto with cord|].
  apply is_byte_lxor; [destruct (Z.odd b); auto with cord|auto using xtime_byte].
Qed.

Lemma mul256_byte a b : is_byte a -> is_byte (mul256 a b).
Proof. apply mul_steps_byte. Qed.

#[local] Hint Resolve mul256_byte : cord.

Lemma mul256_comm a b : is_byte a -> is_byte b -> mul256 a b = mul256 b a.
Proof.
  intros Ha Hb. revert a Ha. apply (byte_xor_ind (fun a => mul256 a b = mul256 b a)).
  - revert b Hb. byte_check.
  - intros i Hi. revert b Hb. destruct i as [|[|[|[|[|[|[|[|]]]]]]]]; try lia;
      byte_check.
  - intros a1 a2 H1 H2 E1 E2. by rewrite mul256_lxor_l, mul256_lxor_r, E1, E2.
Qed.

Definition basis_assoc : bool :=
  forallb (fun a => forallb (fun b => forallb (fun c =>
    mul256 (mul256 a b) c =? mul256 a (mul256 b c)) (0 :: basis)) (0 :: basis)) (0 :: basis).

Lemma in_basis i : (i < 8)%nat -> In (2 ^ Z.of_nat i) (0 :: basis).
Proof.
  intros. right. unfold basis. apply list_elem_of_In, list_elem_of_fmap. exists i.
  split; [done|]. apply elem_of_seq. lia.
Qed.

Lemma basis_assoc_spec a b c :
  In a (0 :: basis) -> In b (0 :: basis) -> In c (0 :: basis) ->
  mul256 (mul256 a b) c = mul256 a (mul256 b c).
Proof.
  intros Ha Hb Hc. assert (H : basis_assoc = true) by (vm_compute; reflexivity).
  unfold basis_assoc in H. rewrite forallb_forall in H. specialize (H a Ha).
  rewrite forallb_forall in H. specialize (H b Hb). rewrite forallb_forall in H.
  apply Z.eqb_eq, H, Hc.
Qed.

Lemma basis_byte i : (i < 8)%nat -> is_byte (2 ^ Z.of_nat i).
Proof.
  intros Hi. unfold is_byte. split; [lia|]. change 256 with (2^8). apply Z.pow_lt_mono_r; lia.
Qed.

Lemma mul256_assoc a b c :
  is_byte a -> is_byte b -> is_byte c -> mul256 (mul256 a b) c = mul256 a (mul256 b c).
Proof.
  assert (Z0 : In 0 (0 :: basis)) by (left; reflexivity).
  pose (Q := fun x => In x (0 :: basis) /\ is_byte x).
  assert (Hc : forall a b, Q a -> Q b -> forall c, is_byte c ->
             mul256 (mul256 a b) c = mul256 a (mul256 b c)).
  { intros a' b' [Ia Ba] [Ib Bb]. apply byte_xor_ind.
    - by apply basis_assoc_spec.
    - intros i Hi. apply basis_assoc_spec; auto using in_basis.
    - intros x y Hx Hy E1 E2. by rewrite !mul256_lxor_r, E1, E2. }
  assert (Hb : forall a, Q a -> forall b, is_byte b -> forall c, is_byte c ->
             mul256 (mul256 a b) c = mul256 a (mul256 b c)).
  { intros a' HQ. apply (byte_xor_ind (fun b => forall c, is_byte c ->
             mul256 (mul256 a' b) c = mul256 a' (mul256 b c))).
    - apply Hc; [done|]. split; auto with cord.
    - intros i Hi. apply Hc; [done|]. split; auto using in_basis, basis_byte.
    - destruct HQ as [_ Ba]. intros x y Hx Hy E1 E2 z Hz.
      rewrite mul256_lxor_r, !mul256_lxor_l, mul256_lxor_r, E1, E2; auto with cord. }
  intros Ha. revert b c. revert a Ha.
  apply (byte_xor_ind (fun a => forall b c, is_byte b -> is_byte c ->
             mul256 (mul256 a b) c = mul256 a (mul256 b c))).
  - intros b c Hbb Hcc. apply Hb; auto. split; auto with cord.
  - intros i Hi b c Hbb Hcc. apply Hb; auto. split; auto using in_basis, basis_byte.
  - intros x y Hx Hy E1 E2 b c Hbb Hcc. rewrite !mul256_lxor_l, E1, E2; auto with cord.
Qed.

Lemma mul256_inv b : is_byte b -> b <> 0 -> mul256 (pow256 254 b) b = 1.
Proof.
  intros Hb Hne.
  assert (H : b = 0 \/ mul256 (pow256 254 b) b = 1); [|tauto].
  revert b Hb Hne. refine (fun b Hb _ => forall_bytes (fun b => b = 0 \/ mul256 (pow256 254 b) b = 1) _ b Hb).
  vm_compute. reflexivity.
Qed.

Lemma pow256_byte n b : is_byte b -> is_byte (pow256 n b).
Proof. intros Hb. induction n; simpl; auto with cord. Qed.

#[export] Instance gf256_laws : GF8Laws.
Proof.
  constructor; cbn [gf_multiply gf_divide gf_multiply_region gf256].
  - intros. by apply mul256_byte.
  - apply mul256_comm.
  - apply mul256_assoc.
  - intros. apply mul256_lxor_r.
  - byte_check.
  - intros. unfold div256. auto using pow256_byte with cord.
  - intros a b Ha Hb Hne. unfold div256.
    rewrite mul256_assoc, mul256_inv by auto using pow256_byte.
    rewrite mul256_comm by auto with cord. revert a Ha. byte_check.
  - intros src dst v add Hl Hsrc Hv. revert dst Hl.
    induction Hsrc as [|s src Hs Hsrc IH]; intros [|d dst]; simpl; intros Hl; try done.
    rewrite IH by lia. f_equal. destruct add; [|done].
    destruct (Z.eqb_spec v 1) as [->|]; [|done]. f_equal. revert s Hs. 
    byte_check.
  - intros src dst Hl. done.
Qed.
