(* ===== verification/Jerasure.v ===== *)
(** * Matrix operations over GF(2^8) (Util/jerasure.c)

    Matrices are flat row-major arrays of [int] as in the code: [int *mat]
    with [mat[i*cols+j]] is a [list Z] read at [i*cols+j].  The theorems carry
    the lengths, under which every access is in range. *)
From S2P Require Import Prelude Command Galois.

(** [mat[cols*i + j]] *)
Definition at_ (cols : nat) (m : list Z) (i j : nat) : Z := m !!! (cols * i + j)%nat.

(** Loops [for (x = 0; x < n; x++) a = f(a, x)]. *)
Definition loop {A} (n : nat) (f : A -> nat -> A) (a : A) : A := foldl f a (seq 0 n).

Lemma loop_S {A} n (f : A -> nat -> A) a : loop (S n) f a = f (loop n f a) n.
Proof. unfold loop. rewrite seq_S, foldl_app. done. Qed.

Lemma loop_ind {A} (P : nat -> A -> Prop) n f a :
  P O a -> (forall k b, (k < n)%nat -> P k b -> P (S k) (f b k)) -> P n (loop n f a).
Proof.
  intros H0 Hs. induction n as [|n IH]; [done|].
  rewrite loop_S. apply Hs; [lia|]. apply IH. intros. apply Hs; [lia|done].
Qed.

Section jerasure.
Context `{GF : GFComplete}.

(** ** [jerasure_matrix_multiply] *)

(** [product[i*c2+j] ^= galois_single_multiply(m1[i*c1+k], m2[k*c2+j], w)] *)
Definition jerasure_matrix_multiply (m1 m2 : list Z) (r1 c1 r2 c2 : nat) (w : Z) : list Z :=
  loop r1 (fun p i =>
    loop c2 (fun p j =>
      loop r2 (fun p k =>
        <[(i*c2+j)%nat := Z.lxor (p !!! (i*c2+j)%nat)
            (galois_single_multiply (m1 !!! (i*c1+k)%nat) (m2 !!! (k*c2+j)%nat) w)]> p) p) p)
    (zeros (r1 * c2)).

(** ** [jerasure_invert_matrix] *)

(** [inv] starts as the identity. *)
Definition identity_matrix (rows : nat) : list Z :=
  flat_map (fun i => (fun j => if decide (i = j) then 1 else 0) <$> seq 0 rows) (seq 0 rows).

(** [for (j = i+1; j < rows && mat[cols*j+i] == 0; j++) ;] : the [j] it stops at. *)
Fixpoint find_pivot (fuel : nat) (cols : nat) (mat : list Z) (i j : nat) : nat :=
  match fuel with
  | O => j
  | S f => if at_ cols mat j i =? 0 then find_pivot f cols mat i (S j) else j
  end.

(** [tmp = m[rs1+k]; m[rs1+k] = m[rs2+k]; m[rs2+k] = tmp;] for every [k]. *)
Definition swap_rows (cols : nat) (rs1 rs2 : nat) (m : list Z) : list Z :=
  loop cols (fun m k =>
    let tmp := m !!! (rs1 + k)%nat in
    <[(rs2 + k)%nat := tmp]> (<[(rs1 + k)%nat := m !!! (rs2 + k)%nat]> m)) m.

(** [m[row_start+j] = galois_single_multiply(m[row_start+j], inverse, w)] *)
Definition scale_row (cols rs : nat) (inverse w : Z) (m : list Z) : list Z :=
  loop cols (fun m j =>
    <[(rs + j)%nat := galois_single_multiply (m !!! (rs + j)%nat) inverse w]> m) m.

(** [m[rs2+x] ^= m[row_start+x]], or with the factor [tmp] when it is not 1. *)
Definition xor_row (cols rs2 rs : nat) (m : list Z) : list Z :=
  loop cols (fun m x =>
    <[(rs2 + x)%nat := Z.lxor (m !!! (rs2 + x)%nat) (m !!! (rs + x)%nat)]> m) m.
Definition xor_mul_row (cols rs2 rs : nat) (tmp w : Z) (m : list Z) : list Z :=
  loop cols (fun m x =>
    <[(rs2 + x)%nat := Z.lxor (m !!! (rs2 + x)%nat)
        (galois_single_multiply tmp (m !!! (rs + x)%nat) w)]> m) m.

(** The body of the loop over [j > i] that adds [A_ji * A_i] to [A_j]. *)
Definition eliminate_row (cols i : nat) (w : Z) (mi : list Z * list Z) (j : nat) : list Z * list Z :=
  let '(mat, inv) := mi in
  let tmp := at_ cols mat j i in
  if tmp =? 0 then (mat, inv)
  else if tmp =? 1
  then (xor_row cols (cols * j) (cols * i) mat, xor_row cols (cols * j) (cols * i) inv)
  else (xor_mul_row cols (cols * j) (cols * i) tmp w mat,
        xor_mul_row cols (cols * j) (cols * i) tmp w inv).

(** Column [i] of the first phase; [inl] is [return -1], with the arrays as
    they are at that point. *)
Definition upper_step (rows : nat) (w : Z) (i : nat) (mi : list Z * list Z) :
    (list Z * list Z) + (list Z * list Z) :=
  let cols := rows in
  let row_start := (cols * i)%nat in
  let '(mat, inv) := mi in
  match
    (if at_ cols mat i i =? 0 then
       let j := find_pivot (rows - (i + 1)) cols mat i (i + 1) in
       if decide (j = rows) then inl (mat, inv)
       else let rs2 := (j * cols)%nat in
            inr (swap_rows cols row_start rs2 mat, swap_rows cols row_start rs2 inv)
     else inr (mat, inv)) : (list Z * list Z) + (list Z * list Z)
  with
  | inl mi => inl mi
  | inr (mat, inv) =>
      let tmp := at_ cols mat i i in
      let '(mat, inv) :=
        (if negb (tmp =? 1) then
           let inverse := galois_single_divide 1 tmp w in
           (scale_row cols row_start inverse w mat, scale_row cols row_start inverse w inv)
         else (mat, inv)) in
      inr (foldl (eliminate_row cols i w) (mat, inv) (seq (i + 1) (rows - (i + 1))))
  end.

Fixpoint upper_phase (rows : nat) (w : Z) (n : nat) (mi : list Z * list Z) :
    (list Z * list Z) + (list Z * list Z) :=
  match n with
  | O => inr mi
  | S m =>
      match upper_phase rows w m mi with
      | inl mi => inl mi
      | inr mi => upper_step rows w m mi
      end
  end.

(** The second phase: [if (mat[rs2+i] != 0) { tmp = mat[rs2+i]; mat[rs2+i] = 0;
    inv[rs2+k] ^= galois_single_multiply(tmp, inv[row_start+k], w) }]. *)
Definition back_step (cols i : nat) (w : Z) (mi : list Z * list Z) (j : nat) : list Z * list Z :=
  let '(mat, inv) := mi in
  let rs2 := (j * cols)%nat in
  if at_ cols mat j i =? 0 then (mat, inv)
  else let tmp := at_ cols mat j i in
       (<[(rs2 + i)%nat := 0]> mat, xor_mul_row cols rs2 (i * cols) tmp w inv).

(** [for (i = rows-1; i >= 0; i--) for (j = 0; j < i; j++)] *)
Definition back_phase (rows : nat) (w : Z) (mi : list Z * list Z) : list Z * list Z :=
  loop rows (fun mi n => let i := (rows - 1 - n)%nat in loop i (back_step rows i w) mi) mi.

(** The whole function: its return value and the final contents of the
    arrays [mat] and [inv]. *)
Definition jerasure_invert_matrix (mat : list Z) (rows : nat) (w : Z) : Z * (list Z * list Z) :=
  match upper_phase rows w rows (mat, identity_matrix rows) with
  | inl mi => (-1, mi)
  | inr mi => (0, back_phase rows w mi)
  end.

(** ** [jerasure_matrix_dotprod] and [jerasure_matrix_encode] *)

(** [data_ptrs[i]], with [src_ids == NULL]. *)
Definition dotprod_ones (k : nat) (matrix_row : list Z) (data : list (list Z))
    (st : bool * list Z) : bool * list Z :=
  loop k (fun st i =>
    let '(init, dptr) := st in
    if matrix_row !!! i =? 1 then
      let sptr := data !!! i in
      if negb init then (true, sptr) else (init, galois_region_xor sptr dptr)
    else (init, dptr)) st.

Definition dotprod_factors (k : nat) (matrix_row : list Z) (data : list (list Z))
    (st : bool * list Z) : bool * list Z :=
  loop k (fun st i =>
    let '(init, dptr) := st in
    if negb (matrix_row !!! i =? 0) && negb (matrix_row !!! i =? 1) then
      (true, galois_w08_region_multiply (data !!! i) (matrix_row !!! i) dptr init)
    else (init, dptr)) st.

(** The new contents of the destination [dptr] of [w = 8]; every region has
    [size] bytes. *)
Definition jerasure_matrix_dotprod (k : nat) (matrix_row : list Z) (data : list (list Z))
    (dptr : list Z) : list Z :=
  snd (dotprod_factors k matrix_row data (dotprod_ones k matrix_row data (false, dptr))).

Definition jerasure_matrix_encode (k m : nat) (matrix : list Z) (data coding : list (list Z)) :
    list (list Z) :=
  loop m (fun coding i =>
    <[i := jerasure_matrix_dotprod k (drop (i * k) matrix) data (coding !!! i)]> coding) coding.
End jerasure.
