(* ===== verification/Gauss.v ===== *)
(** * Correctness of the matrix operations of Util/jerasure.c

    Row operations are first lifted from flat arrays to functions
    [nat -> nat -> Z]; the inversion is then proved against the linear algebra
    of GF(2^8): what it returns is an inverse, and it refuses exactly the
    singular matrices. *)
From S2P Require Import Prelude Command Galois GF256 Jerasure.

(** ** Matrices as functions *)

(** [(N A) i j], the product of two [n] by [n] matrices. *)
Definition mprod `{GFComplete} (n : nat) (N A : nat -> nat -> Z) (i j : nat) : Z :=
  xsum n (fun k => N i k ⊗ A k j).

Definition radd `{GFComplete} (r2 r1 : nat) (t : Z) (M : nat -> nat -> Z) (i j : nat) : Z :=
  if decide (i = r2) then Z.lxor (M r2 j) (t ⊗ M r1 j) else M i j.
Definition rscale `{GFComplete} (r : nat) (c : Z) (M : nat -> nat -> Z) (i j : nat) : Z :=
  if decide (i = r) then M r j ⊗ c else M i j.
Definition rswap (r1 r2 : nat) (M : nat -> nat -> Z) (i j : nat) : Z :=
  if decide (i = r1) then M r2 j else if decide (i = r2) then M r1 j else M i j.

(** Agreement of two matrices on the first [n] rows and columns. *)
Definition meq (n : nat) (M N : nat -> nat -> Z) : Prop :=
  forall i j, (i < n)%nat -> (j < n)%nat -> M i j = N i j.

Definition mbytes (n : nat) (M : nat -> nat -> Z) : Prop :=
  forall i j, (i < n)%nat -> (j < n)%nat -> is_byte (M i j).

(** [v] is in the kernel of [M]. *)
Definition kills `{GFComplete} (n : nat) (M : nat -> nat -> Z) (v : nat -> Z) : Prop :=
  forall i, (i < n)%nat -> xsum n (fun j => M i j ⊗ v j) = 0.

#[export] Instance meq_equiv n : Equivalence (meq n).
Proof.
  split; [by intros ???| |].
  - intros M N H i j Hi Hj. by rewrite H.
  - intros M N P H1 H2 i j Hi Hj. by rewrite H1, H2.
Qed.

Lemma lookup_total_byte (l : list Z) p : Forall is_byte l -> is_byte (l !!! p).
Proof.
  intros Hl. rewrite list_lookup_total_alt. destruct (l !! p) as [x|] eqn:E; simpl.
  - by eapply Forall_lookup in E.
  - apply is_byte_1.
Qed.
#[export] Hint Resolve lookup_total_byte : cord.

Lemma insert_bytes (l : list Z) p v : Forall is_byte l -> is_byte v -> Forall is_byte (<[p:=v]> l).
Proof. apply Forall_insert. Qed.
#[export] Hint Resolve insert_bytes : cord.

Lemma at_byte cols m i j : Forall is_byte m -> is_byte (at_ cols m i j).
Proof. unfold at_. auto with cord. Qed.
#[export] Hint Resolve at_byte : cord.

(** The index arithmetic of row-major arrays. *)
Lemma flat_index n i j : (i < n)%nat -> (j < n)%nat -> (n * i + j < n * n)%nat.
Proof. nia. Qed.

Lemma flat_row_in n r i j : (j < n)%nat -> (n * r <= n * i + j < n * r + n)%nat <-> i = r.
Proof. intros Hj. split; [|intros ->; lia]. intros [H1 H2]. nia. Qed.

Lemma flat_inj n i j r k :
  (j < n)%nat -> (k < n)%nat -> (n * i + j = n * r + k)%nat <-> i = r /\ j = k.
Proof.
  intros Hj Hk. split; [|by intros [-> ->]]. intros H.
  assert (i = r) as -> by (apply (flat_row_in n r i j Hj); lia). split; lia.
Qed.

(** ** The loops over a row *)

Lemma lookup_total_insert (l : list Z) p q v :
  (p < length l)%nat -> <[p := v]> l !!! q = if decide (q = p) then v else l !!! q.
Proof.
  intros. rewrite list_lookup_total_insert.
  destruct (decide (q = p)) as [->|]; [by rewrite decide_True|]. rewrite decide_False; naive_solver.
Qed.

(** A loop that updates the positions [rs .. rs+cols-1] in place, each from
    values the loop has not changed yet. *)
Lemma row_loop cols rs (f : list Z -> nat -> Z) m :
  (rs + cols <= length m)%nat ->
  (forall x b, (x < cols)%nat -> length b = length m ->
     (forall p, (p < rs \/ rs + x <= p)%nat -> b !!! p = m !!! p) -> f b x = f m x) ->
  let m' := loop cols (fun m x => <[(rs + x)%nat := f m x]> m) m in
  length m' = length m /\
  forall p, m' !!! p = if decide (rs <= p < rs + cols)%nat then f m (p - rs)%nat else m !!! p.
Proof.
  intros Hlen Hf. cbn zeta.
  pose (P := fun x b => length b = length m /\
    forall p, b !!! p = if decide (rs <= p < rs + x)%nat then f m (p - rs)%nat else m !!! p).
  apply (loop_ind P).
  - split; [done|]. intros p. rewrite decide_False by lia. done.
  - intros x b Hx [Hl Hb]. split; [by rewrite length_insert|].
    intros p. rewrite lookup_total_insert by lia.
    rewrite Hf; [|done|done|intros q Hq; rewrite Hb, decide_False by lia; done].
    case_decide as E1.
    + subst p. rewrite decide_True by lia. f_equal. lia.
    + rewrite Hb. destruct (decide (rs <= p < rs + x)%nat).
      * by rewrite decide_True by lia.
      * by rewrite decide_False by lia.
Qed.

Lemma loop_bytes n (f : list Z -> nat -> list Z) m :
  (forall b k, Forall is_byte b -> Forall is_byte (f b k)) ->
  Forall is_byte m -> Forall is_byte (loop n f m).
Proof. intros Hf Hm. apply (loop_ind (fun _ => Forall is_byte)); auto. Qed.

Section row_ops.
Context `{GF : GFComplete} {GL : GF8Laws}.

Lemma scale_row_spec n r c m :
  (r < n)%nat -> length m = (n * n)%nat ->
  let m' := scale_row n (n * r) c 8 m in
  length m' = (n * n)%nat /\ meq n (at_ n m') (rscale r c (at_ n m)).
Proof.
  intros Hr Hl. cbn zeta. unfold scale_row.
  destruct (row_loop n (n * r) (fun m j => (m !!! (n * r + j)%nat) ⊗ c) m) as [H1 H2].
  - nia.
  - intros x b Hx _ Hb. by rewrite Hb by lia.
  - split; [by rewrite H1|]. intros i j Hi Hj. unfold rscale, at_ at 1. rewrite H2.
    destruct (decide (i = r)) as [->|Hne].
    + rewrite decide_True by lia. unfold at_. repeat f_equal; lia.
    + rewrite decide_False; [done|]. rewrite flat_row_in by done. done.
Qed.

(** [xor_mul_row] and [xor_row] add a multiple of one row to another. *)
Lemma xor_mul_row_spec n r2 r1 t m :
  (r1 < n)%nat -> (r2 < n)%nat -> r1 <> r2 -> length m = (n * n)%nat ->
  let m' := xor_mul_row n (n * r2) (n * r1) t 8 m in
  length m' = (n * n)%nat /\ meq n (at_ n m') (radd r2 r1 t (at_ n m)).
Proof.
  intros Hr1 Hr2 Hne Hl. cbn zeta. unfold xor_mul_row.
  destruct (row_loop n (n * r2) (fun m x => Z.lxor (m !!! (n * r2 + x)%nat)
    (t ⊗ (m !!! (n * r1 + x)%nat))) m) as [H1 H2].
  - nia.
  - intros x b Hx _ Hb. rewrite !Hb; [done| |lia].
    pose proof (flat_row_in n r2 r1 x Hx). lia.
  - split; [by rewrite H1|]. intros i j Hi Hj. unfold radd, at_ at 1. rewrite H2.
    destruct (decide (i = r2)) as [->|Hne2].
    + rewrite decide_True by lia. unfold at_. repeat f_equal; lia.
    + rewrite decide_False; [done|]. rewrite flat_row_in by done. done.
Qed.

Lemma xor_row_mul n rs2 rs m :
  Forall is_byte m -> xor_row n rs2 rs m = xor_mul_row n rs2 rs 1 8 m.
Proof.
  intros Hm. unfold xor_row, xor_mul_row.
  apply (loop_ind (fun k b => Forall is_byte b /\ b = loop k _ m)); [done|].
  intros k b _ [Hb ->]. rewrite loop_S. rewrite gmul_1_l by auto with cord.
  split; [auto with cord|done].
Qed.

Lemma swap_rows_rect rows n r1 r2 m :
  (r1 < rows)%nat -> (r2 < rows)%nat -> r1 <> r2 -> length m = (n * rows)%nat ->
  let m' := swap_rows n (n * r1) (n * r2) m in
  length m' = length m /\
  forall i j, (i < rows)%nat -> (j < n)%nat -> at_ n m' i j = rswap r1 r2 (at_ n m) i j.
Proof.
  intros Hr1 Hr2 Hne Hl. cbn zeta. unfold swap_rows.
  pose (P := fun x b => length b = length m /\ forall i j, (i < rows)%nat -> (j < n)%nat ->
    at_ n b i j = if decide (j < x)%nat then rswap r1 r2 (at_ n m) i j else at_ n m i j).
  assert (HP : P n (loop n (fun m k => let tmp := m !!! (n * r1 + k)%nat in
    <[(n * r2 + k)%nat := tmp]> (<[(n * r1 + k)%nat := m !!! (n * r2 + k)%nat]> m)) m)).
  { apply (loop_ind P).
    - split; [done|]. intros. by rewrite decide_False by lia.
    - intros k b Hk [Hlb Hb]. split; [by rewrite !length_insert|].
      intros i j Hi Hj.
      assert (Hflat : forall r, (r < rows)%nat -> ((n * i + j)%nat = (n * r + k)%nat <-> i = r /\ j = k)) by (intros; by apply flat_inj).
      unfold at_ at 1.
      rewrite lookup_total_insert by (rewrite length_insert; nia).
      rewrite lookup_total_insert by nia.
      fold (at_ n b r1 k) (at_ n b r2 k) (at_ n b i j).
      rewrite !Hb by done. rewrite (decide_False (P := (k < k)%nat)) by lia.
      unfold rswap. destruct (decide (j = k)) as [->|Hjk].
      + rewrite (decide_False (P := (k < k)%nat)), (decide_True (P := (k < S k)%nat)) by lia.
        destruct (decide (i = r2)) as [->|]; [rewrite decide_True, decide_False by (lia || tauto); done|].
        rewrite decide_False by (rewrite Hflat; tauto).
        destruct (decide (i = r1)) as [->|]; [by rewrite decide_True by tauto|].
        rewrite decide_False by (rewrite Hflat; tauto). by case_decide.
      + rewrite !decide_False by (rewrite Hflat by done; tauto).
        repeat case_decide; (done || lia). }
  destruct HP as [H1 H2]. split; [exact H1|].
  intros i j Hi Hj. etransitivity; [exact (H2 i j Hi Hj)|]. by rewrite decide_True by done.
Qed.

Lemma swap_rows_spec n r1 r2 m :
  (r1 < n)%nat -> (r2 < n)%nat -> r1 <> r2 -> length m = (n * n)%nat ->
  let m' := swap_rows n (n * r1) (n * r2) m in
  length m' = (n * n)%nat /\ meq n (at_ n m') (rswap r1 r2 (at_ n m)).
Proof.
  intros Hr1 Hr2 Hne Hl. destruct (swap_rows_rect n n r1 r2 m Hr1 Hr2 Hne Hl) as [H1 H2].
  split; [by rewrite H1|exact H2].
Qed.

Lemma scale_row_bytes n rs c m : is_byte c -> Forall is_byte m -> Forall is_byte (scale_row n rs c 8 m).
Proof. intros Hc. apply loop_bytes. auto with cord. Qed.
Lemma xor_mul_row_bytes n rs2 rs t m :
  is_byte t -> Forall is_byte m -> Forall is_byte (xor_mul_row n rs2 rs t 8 m).
Proof. intros Ht. apply loop_bytes. auto with cord. Qed.
Lemma swap_rows_bytes n rs1 rs2 m : Forall is_byte m -> Forall is_byte (swap_rows n rs1 rs2 m).
Proof. apply loop_bytes. auto with cord. Qed.
End row_ops.
#[export] Hint Resolve scale_row_bytes xor_mul_row_bytes swap_rows_bytes : cord.

(** ** Row operations *)

(** What the inversion needs of an operation on the rows of a matrix: it is
    left multiplication by an invertible matrix. *)
Record row_op `{GFComplete} (n : nat) (F : (nat -> nat -> Z) -> nat -> nat -> Z) : Prop := {
  ro_proper M N : meq n M N -> meq n (F M) (F N);
  ro_prod N A : mbytes n N -> mbytes n A -> meq n (F (mprod n N A)) (mprod n (F N) A);
  ro_ker M v : mbytes n M -> (forall j, (j < n)%nat -> is_byte (v j)) ->
    kills n (F M) v -> kills n M v
}.

Section row_op_laws.
Context `{GF : GFComplete} {GL : GF8Laws}.
Implicit Types (n i j k r : nat) (M N A : nat -> nat -> Z).

Lemma mprod_byte n N A i j :
  mbytes n N -> mbytes n A -> (i < n)%nat -> (j < n)%nat -> is_byte (mprod n N A i j).
Proof. intros. apply xsum_byte. intros. apply gmul_byte; auto. Qed.

Lemma kills_meq n M N v : meq n M N -> kills n M v -> kills n N v.
Proof.
  intros Hm Hk i Hi. rewrite <- (Hk i Hi). apply xsum_ext. intros. by rewrite Hm.
Qed.

Lemma gmul_nonzero a b : is_byte a -> is_byte b -> a <> 0 -> b ⊗ a = 0 -> b = 0.
Proof.
  intros Ha Hb Hne H0. rewrite <- (gmul_1_r b) by done.
  assert (Hi : is_byte (galois_single_divide 1 a 8)) by auto with cord.
  rewrite <- (gdiv_mul 1 a), (gmul_comm _ a), <- gmul_assoc, H0 by auto with cord. done.
Qed.

Lemma radd_op n r2 r1 t :
  (r1 < n)%nat -> (r2 < n)%nat -> r1 <> r2 -> is_byte t -> row_op n (radd r2 r1 t).
Proof.
  intros Hr1 Hr2 Hne Ht. split.
  - intros M N Hm i j Hi Hj. unfold radd. case_decide; rewrite !Hm; done.
  - intros N A HN HA i j Hi Hj. unfold radd, mprod. case_decide; [|done]. subst.
    rewrite gmul_xsum_l by (auto with cord; intros; apply gmul_byte; auto).
    rewrite <- xsum_lxor. apply xsum_ext. intros k Hk.
    rewrite gmul_lxor_l, gmul_assoc; auto with cord.
  - intros M v HM Hv Hk i Hi. destruct (decide (i = r2)) as [->|Hi2].
    + assert (H1 : xsum n (fun j => M r1 j ⊗ v j) = 0).
      { rewrite <- (Hk r1 Hr1). apply xsum_ext. intros. unfold radd. by rewrite decide_False by done. }
      rewrite <- (Hk r2 Hr2). rewrite <- (Z.lxor_0_r (xsum n (fun j => M r2 j ⊗ v j))).
      rewrite <- (gmul_0_r t), <- H1, gmul_xsum_l, <- xsum_lxor; [|done|auto with cord].
      apply xsum_ext. intros. unfold radd. rewrite decide_True by done.
      rewrite gmul_lxor_l, gmul_assoc; auto with cord.
    + rewrite <- (Hk i Hi). apply xsum_ext. intros. unfold radd. by rewrite decide_False by done.
Qed.

Lemma rscale_op n r c : is_byte c -> c <> 0 -> row_op n (rscale r c).
Proof.
  intros Hc Hne. split.
  - intros M N Hm i j Hi Hj. unfold rscale. case_decide; rewrite !Hm; subst; done.
  - intros N A HN HA i j Hi Hj. unfold rscale, mprod. case_decide; [|done]. subst.
    rewrite gmul_xsum_r; [|done|intros; apply gmul_byte; auto].
    apply xsum_ext. intros k Hk.
    rewrite !gmul_assoc, (gmul_comm c); auto.
  - intros M v HM Hv Hk i Hi. destruct (decide (i = r)) as [->|Hi2].
    + apply (gmul_nonzero c); [done| |done|].
      { apply xsum_byte. auto with cord. }
      rewrite gmul_xsum_r by (auto with cord). rewrite <- (Hk r Hi).
      apply xsum_ext. intros. unfold rscale. rewrite decide_True by done.
      rewrite !gmul_assoc, (gmul_comm c); auto.
    + rewrite <- (Hk i Hi). apply xsum_ext. intros. unfold rscale. by rewrite decide_False by done.
Qed.

Lemma rswap_op n r1 r2 : (r1 < n)%nat -> (r2 < n)%nat -> r1 <> r2 -> row_op n (rswap r1 r2).
Proof.
  intros Hr1 Hr2 Hne. split.
  - intros M N Hm i j Hi Hj. unfold rswap. repeat case_decide; rewrite Hm; done.
  - intros N A HN HA i j Hi Hj. unfold rswap, mprod. by repeat case_decide.
  - intros M v HM Hv Hk i Hi. unfold rswap in Hk.
    destruct (decide (i = r1)) as [->|]; [|destruct (decide (i = r2)) as [->|]].
    + rewrite <- (Hk r2 Hr2). apply xsum_ext. intros. repeat case_decide; congruence.
    + rewrite <- (Hk r1 Hr1). apply xsum_ext. intros. repeat case_decide; congruence.
    + rewrite <- (Hk i Hi). apply xsum_ext. intros. repeat case_decide; congruence.
Qed.

Lemma id_op n : row_op n (fun M => M).
Proof. split; [done|intros ?????; done|done]. Qed.

(** ** The state of the inversion *)

(** [mat] is [inv] times the input, and no row operation so far has enlarged
    the kernel. *)
Record inv_ok n A (mi : list Z * list Z) : Prop := {
  io_len1 : length (fst mi) = (n * n)%nat;
  io_len2 : length (snd mi) = (n * n)%nat;
  io_byte1 : Forall is_byte (fst mi);
  io_byte2 : Forall is_byte (snd mi);
  io_prod : meq n (at_ n (fst mi)) (mprod n (at_ n (snd mi)) A);
  io_ker v : (forall j, (j < n)%nat -> is_byte (v j)) ->
    kills n (at_ n (fst mi)) v -> kills n A v
}.

Lemma inv_ok_op n A F mat inv mat' inv' :
  row_op n F -> mbytes n A -> inv_ok n A (mat, inv) ->
  length mat' = (n * n)%nat -> length inv' = (n * n)%nat ->
  Forall is_byte mat' -> Forall is_byte inv' ->
  meq n (at_ n mat') (F (at_ n mat)) -> meq n (at_ n inv') (F (at_ n inv)) ->
  inv_ok n A (mat', inv').
Proof.
  intros [Hp Hpr Hk] HA [Hl1 Hl2 Hb1 Hb2 Hprod Hker] ???? Hm Hi; cbn [fst snd] in *.
  split; cbn [fst snd]; try done.
  - rewrite Hm, (Hp _ _ Hprod).
    rewrite Hpr by (try done; intros ????; auto with cord).
    intros i j Hii Hjj. apply xsum_ext. intros k Hkk. by rewrite Hi.
  - intros v Hv Hkk. apply Hker; [done|]. apply Hk; [intros ????; auto with cord|done|].
    by eapply kills_meq.
Qed.

(** Columns below [i] are those of a unit upper triangular matrix. *)
Definition upper_to n i M : Prop :=
  forall c, (c < i)%nat -> (c < n)%nat -> M c c = 1 /\ forall r, (c < r < n)%nat -> M r c = 0.

Lemma find_pivot_spec fuel cols mat i j :
  let p := find_pivot fuel cols mat i j in
  (j <= p <= j + fuel)%nat /\
  (forall x, (j <= x < p)%nat -> at_ cols mat x i = 0) /\
  ((p < j + fuel)%nat -> at_ cols mat p i <> 0).
Proof.
  revert j; induction fuel as [|f IH]; intros j; simpl.
  - split_and!; [lia|lia|intros; lia|lia].
  - destruct (Z.eqb_spec (at_ cols mat j i) 0) as [E|E].
    + destruct (IH (S j)) as (H1 & H2 & H3). split_and!; [lia|lia| |].
      * intros x Hx. destruct (decide (x = j)) as [->|]; [done|]. apply H2. lia.
      * intros. apply H3. lia.
    + split_and!; [lia|lia|intros; lia|done].
Qed.

Lemma foldl_seq_ind {B} (P : nat -> B -> Prop) f s m b :
  P s b -> (forall k x, (s <= k < s + m)%nat -> P k x -> P (S k) (f x k)) ->
  P (s + m)%nat (foldl f b (seq s m)).
Proof.
  intros H0 Hs. induction m as [|m IH]; [by rewrite Nat.add_0_r|].
  rewrite seq_S, foldl_app, Nat.add_succ_r. simpl. apply Hs; [lia|].
  apply IH. intros. apply Hs; [lia|done].
Qed.
End row_op_laws.

(** ** The two phases of the inversion *)

Section inversion.
Context `{GF : GFComplete} {GL : GF8Laws}.
Context (n : nat) (A : nat -> nat -> Z) (HA : mbytes n A).

Lemma radd_0 r2 r1 M : meq n (radd r2 r1 0 M) M.
Proof. intros i j Hi Hj. unfold radd. case_decide; [|done]. subst. apply Z.lxor_0_r. Qed.

(** Every branch of [eliminate_row] is the same row operation. *)
Lemma eliminate_row_radd i j mat inv :
  (i < n)%nat -> (j < n)%nat -> i <> j -> inv_ok n A (mat, inv) ->
  let t := at_ n mat j i in
  let mi := eliminate_row n i 8 (mat, inv) j in
  inv_ok n A mi /\ meq n (at_ n (fst mi)) (radd j i t (at_ n mat)).
Proof.
  intros Hi Hj Hij Hok. cbn zeta. pose proof Hok as [Hl1 Hl2 Hb1 Hb2 _ _]; cbn [fst snd] in *.
  assert (Ht : is_byte (at_ n mat j i)) by auto with cord.
  unfold eliminate_row. set (t := at_ n mat j i) in *.
  destruct (Z.eqb_spec t 0) as [->|Hne]; cbn [fst snd].
  { split; [done|]. symmetry. apply radd_0. }
  assert (Hm := xor_mul_row_spec n j i t mat Hi Hj Hij Hl1).
  assert (Hv := xor_mul_row_spec n j i t inv Hi Hj Hij Hl2).
  assert (inv_ok n A (xor_mul_row n (n * j) (n * i) t 8 mat, xor_mul_row n (n * j) (n * i) t 8 inv)).
  { eapply inv_ok_op; [by apply (radd_op n j i t)|done|done|apply Hm|apply Hv| | |apply Hm|apply Hv];
      auto with cord. }
  destruct (Z.eqb_spec t 1) as [E|]; cbn [fst snd].
  - rewrite !xor_row_mul by done. rewrite E in *. split; [done|]. apply Hm.
  - split; [done|]. apply Hm.
Qed.

(** Before column [i] is processed, with its pivot in place. *)
Definition pivoted (i : nat) (mi : list Z * list Z) : Prop :=
  inv_ok n A mi /\ upper_to n i (at_ n (fst mi)) /\ at_ n (fst mi) i i <> 0.

Lemma swap_pivoted i j mat inv :
  (i < j < n)%nat -> inv_ok n A (mat, inv) -> upper_to n i (at_ n mat) -> at_ n mat j i <> 0 ->
  pivoted i (swap_rows n (n * i) (n * j) mat, swap_rows n (n * i) (n * j) inv).
Proof.
  intros Hij Hok Hup Hne. pose proof Hok as [Hl1 Hl2 Hb1 Hb2 _ _]; cbn [fst snd] in *.
  assert (Hm := swap_rows_spec n i j mat ltac:(lia) ltac:(lia) ltac:(lia) Hl1).
  assert (Hv := swap_rows_spec n i j inv ltac:(lia) ltac:(lia) ltac:(lia) Hl2).
  destruct Hm as [Hm1 Hm], Hv as [Hv1 Hv]. split; [|split]; cbn [fst snd].
  - eapply inv_ok_op; [apply (rswap_op n i j); lia|done|done|done|done| | |done|done]; auto with cord.
  - intros c Hc Hcn. destruct (Hup c Hc Hcn) as [H1 H2]. split.
    + rewrite Hm by lia. unfold rswap. by rewrite !decide_False by lia.
    + intros r Hr. rewrite Hm by lia. unfold rswap. repeat case_decide; apply H2; lia.
  - rewrite Hm by lia. unfold rswap. by rewrite decide_True by done.
Qed.

Lemma scale_pivoted i mat inv :
  (i < n)%nat -> pivoted i (mat, inv) ->
  let c := galois_single_divide 1 (at_ n mat i i) 8 in
  let mi := (scale_row n (n * i) c 8 mat, scale_row n (n * i) c 8 inv) in
  inv_ok n A mi /\ upper_to n i (at_ n (fst mi)) /\ at_ n (fst mi) i i = 1.
Proof.
  intros Hi (Hok & Hup & Hne). pose proof Hok as [Hl1 Hl2 Hb1 Hb2 _ _]; cbn [fst snd] in *.
  set (c := galois_single_divide 1 _ 8). cbn zeta. cbn [fst snd].
  assert (Hc : is_byte c) by (unfold c; auto with cord).
  assert (Hinv : c ⊗ at_ n mat i i = 1) by (apply gdiv_mul; auto with cord).
  assert (Hc0 : c <> 0) by (intros E; rewrite E in Hinv; done).
  destruct (scale_row_spec n i c mat Hi Hl1) as [Hm1 Hm].
  destruct (scale_row_spec n i c inv Hi Hl2) as [Hv1 Hv].
  split; [|split].
  - eapply inv_ok_op; [by apply (rscale_op n i c)|done|done|done|done| | |done|done]; auto with cord.
  - intros d Hd Hdn. destruct (Hup d Hd Hdn) as [H1 H2]. split.
    + rewrite Hm by lia. unfold rscale. by rewrite decide_False by lia.
    + intros r Hr. rewrite Hm by lia. unfold rscale. case_decide; rewrite H2 by lia; done.
  - rewrite Hm by lia. unfold rscale. rewrite decide_True by done.
    by rewrite gmul_comm by auto with cord.
Qed.

Lemma eliminate_below i mat inv :
  (i < n)%nat -> inv_ok n A (mat, inv) -> upper_to n i (at_ n mat) -> at_ n mat i i = 1 ->
  let mi := foldl (eliminate_row n i 8) (mat, inv) (seq (i + 1) (n - (i + 1))) in
  inv_ok n A mi /\ upper_to n (S i) (at_ n (fst mi)).
Proof.
  intros Hi Hok Hup Hone. cbn zeta.
  pose (P := fun k (mi : list Z * list Z) => inv_ok n A mi /\ upper_to n i (at_ n (fst mi)) /\
    at_ n (fst mi) i i = 1 /\ forall r, (i < r < k)%nat -> (r < n)%nat -> at_ n (fst mi) r i = 0).
  assert (HP : P (i + 1 + (n - (i + 1)))%nat
    (foldl (eliminate_row n i 8) (mat, inv) (seq (i + 1) (n - (i + 1))))).
  { apply foldl_seq_ind.
    - split_and!; [done|done|done|]. intros; lia.
    - intros j [m v] Hj (Hok' & Hup' & Hone' & Hz). cbn [fst] in *.
      destruct (eliminate_row_radd i j m v Hi ltac:(lia) ltac:(lia) Hok') as [H1 H2].
      split; [done|]. split_and!.
      + intros c Hc Hcn. destruct (Hup' c Hc Hcn) as [Hd Hzc]. split.
        * rewrite H2 by lia. unfold radd. by rewrite decide_False by lia.
        * intros r Hr. rewrite H2 by lia. unfold radd. rewrite !Hzc by lia.
          rewrite gmul_0_r. by case_decide.
      + rewrite H2 by lia. unfold radd. by rewrite decide_False by lia.
      + intros r Hr Hrn. rewrite H2 by lia. unfold radd. case_decide; [|apply Hz; lia].
        subst r. destruct Hok' as [_ _ Hb _ _ _]. cbn [fst] in Hb.
        rewrite Hone', gmul_1_r by auto with cord. apply Z.lxor_nilpotent. }
  destruct HP as (H1 & H2 & H3 & H4). split; [done|].
  intros c Hc Hcn. destruct (decide (c = i)) as [->|]; [|apply H2; lia].
  split; [done|]. intros r Hr. apply H4; lia.
Qed.

(** One column of the first phase: it fails only when the column has no
    non-zero entry from the diagonal down. *)
Lemma upper_step_spec i mi :
  (i < n)%nat -> inv_ok n A mi -> upper_to n i (at_ n (fst mi)) ->
  match upper_step n 8 i mi with
  | inr mi' => inv_ok n A mi' /\ upper_to n (S i) (at_ n (fst mi'))
  | inl _ => forall r, (i <= r < n)%nat -> at_ n (fst mi) r i = 0
  end.
Proof.
  intros Hi Hok Hup. destruct mi as [mat inv]. cbn [fst] in *. unfold upper_step.
  pose proof (find_pivot_spec (n - (i + 1)) n mat i (i + 1)) as Hfp.
  set (p := find_pivot _ _ _ _ _) in *. cbn zeta in Hfp. destruct Hfp as (Hp1 & Hp2 & Hp3).
  assert (Hgo : forall mi, pivoted i mi ->
    let '(mat, inv) := mi in
    let '(mat, inv) := (if negb (at_ n mat i i =? 1) then
       (scale_row n (n * i) (galois_single_divide 1 (at_ n mat i i) 8) 8 mat,
        scale_row n (n * i) (galois_single_divide 1 (at_ n mat i i) 8) 8 inv) else (mat, inv)) in
    let mi' := foldl (eliminate_row n i 8) (mat, inv) (seq (i + 1) (n - (i + 1))) in
    inv_ok n A mi' /\ upper_to n (S i) (at_ n (fst mi'))).
  { intros [m v] Hpiv. destruct (Z.eqb_spec (at_ n m i i) 1) as [E|E]; cbn [negb].
    - destruct Hpiv as (? & ? & ?). by apply eliminate_below.
    - destruct (scale_pivoted i m v Hi Hpiv) as (H1 & H2 & H3). by apply eliminate_below. }
  destruct (Z.eqb_spec (at_ n mat i i) 0) as [E|E].
  - case_decide as Ep.
    + intros r Hr. destruct (decide (r = i)) as [->|]; [done|]. apply Hp2. lia.
    + assert (Hpiv : pivoted i (swap_rows n (n * i) (p * n) mat, swap_rows n (n * i) (p * n) inv)).
      { rewrite (Nat.mul_comm p). apply swap_pivoted; [lia|done|done|apply Hp3; lia]. }
      specialize (Hgo _ Hpiv). revert Hgo. cbv beta iota zeta. by destruct (negb _).
  - specialize (Hgo (mat, inv) (conj Hok (conj Hup E))).
    revert Hgo. cbv beta iota zeta. by destruct (negb _).
Qed.
End inversion.

(** ** The inverse *)

Definition ident (i j : nat) : Z := if decide (i = j) then 1 else 0.

Section inverse.
Context `{GF : GFComplete} {GL : GF8Laws}.
Implicit Types (n : nat) (mat : list Z).

Lemma flat_map_rows (f : nat -> list Z) n m :
  (forall i, length (f i) = n) ->
  length (flat_map f (seq 0 m)) = (m * n)%nat /\
  forall i j, (i < m)%nat -> (j < n)%nat -> flat_map f (seq 0 m) !!! (n * i + j)%nat = f i !!! j.
Proof.
  intros Hf. induction m as [|m [IHl IH]]; [split; [done|lia]|].
  rewrite seq_S, flat_map_app. simpl. rewrite app_nil_r.
  split; [rewrite length_app, IHl, Hf; lia|].
  intros i j Hi Hj. destruct (decide (i < m)%nat).
  - rewrite lookup_total_app_l by (rewrite IHl; nia). by apply IH.
  - assert (i = m) as -> by lia. rewrite lookup_total_app_r by (rewrite IHl; nia).
    rewrite IHl. f_equal. lia.
Qed.

Lemma identity_spec n :
  length (identity_matrix n) = (n * n)%nat /\ Forall is_byte (identity_matrix n) /\
  meq n (at_ n (identity_matrix n)) ident.
Proof.
  unfold identity_matrix.
  destruct (flat_map_rows (fun i => (fun j => if decide (i = j) then 1 else 0) <$> seq 0 n) n n) as [H1 H2].
  { intros. by rewrite length_fmap, length_seq. }
  split; [done|]. split.
  - apply Forall_flat_map, Forall_forall. intros i _. apply Forall_fmap, Forall_forall.
    intros j _. simpl. case_decide; auto with cord.
  - intros i j Hi Hj. unfold at_. rewrite H2 by done.
    apply list_lookup_total_correct. rewrite list_lookup_fmap.
    by rewrite lookup_seq_lt by done.
Qed.

Lemma mprod_ident_l n A : mbytes n A -> meq n (mprod n ident A) A.
Proof.
  intros HA i j Hi Hj. unfold mprod, ident. rewrite (xsum_single n _ i Hi).
  - rewrite decide_True by done. apply gmul_1_l. auto.
  - intros k Hk Hne. by rewrite decide_False by done.
Qed.

(** A unit upper triangular matrix up to a zero pivot has a kernel. *)
Lemma upper_kernel n i M :
  (i < n)%nat -> mbytes n M -> upper_to n i M ->
  (forall r, (i <= r < n)%nat -> M r i = 0) ->
  exists v, (forall j, is_byte (v j)) /\ v i = 1 /\ kills n M v.
Proof.
  intros Hi HM Hup Hz.
  assert (H : forall d, (d <= i)%nat -> exists v, (forall j, is_byte (v j)) /\ v i = 1 /\
    (forall c, (i < c \/ c < i - d)%nat -> v c = 0) /\
    forall r, (i - d <= r < i)%nat -> xsum n (fun j => M r j ⊗ v j) = 0).
  { induction d as [|d IH]; intros Hd.
    - exists (fun j => if decide (j = i) then 1 else 0). split_and!.
      + intros j. case_decide; auto with cord.
      + by rewrite decide_True.
      + intros c Hc. by rewrite decide_False by lia.
      + intros; lia.
    - destruct IH as (v & Hv & Hv1 & Hv0 & Hk); [lia|]. set (r0 := (i - S d)%nat).
      pose (s := xsum n (fun j => M r0 j ⊗ v j)).
      assert (Hs : is_byte s) by (apply xsum_byte; intros; apply gmul_byte; [apply HM; lia|done]).
      exists (fun j => if decide (j = r0) then s else v j). split_and!.
      + intros j. case_decide; auto.
      + rewrite decide_False by lia. done.
      + intros c Hc. rewrite decide_False by lia. apply Hv0. lia.
      + intros r Hr. destruct (decide (r = r0)) as [->|Hne].
        * destruct (Hup r0) as [Hd1 _]; [lia|lia|].
          rewrite (xsum_ext n _ (fun j => Z.lxor (M r0 j ⊗ v j) (if decide (j = r0) then s else 0))).
          { rewrite xsum_lxor. fold s. rewrite (xsum_single n _ r0) by (try lia; intros; by rewrite decide_False).
            rewrite decide_True by done. apply Z.lxor_nilpotent. }
          intros j Hj. case_decide as E; [|by rewrite Z.lxor_0_r]. subst j.
          rewrite Hd1, Hv0 by lia. rewrite gmul_0_r, gmul_1_l by done. done.
        * rewrite <- (Hk r) by lia. apply xsum_ext. intros j Hj. case_decide as E; [|done]. subst j.
          destruct (Hup r0) as [_ Hz0]; [lia|lia|]. by rewrite Hz0 by lia. }
  destruct (H i ltac:(lia)) as (v & Hv & Hv1 & Hv0 & Hk). exists v. split_and!; [done|done|].
  intros r Hr. destruct (decide (r < i)%nat); [apply Hk; lia|].
  apply xsum_zero. intros j Hj. destruct (decide (j < i)%nat).
  - destruct (Hup j) as [_ Hz0]; [lia|lia|]. by rewrite Hz0 by lia.
  - destruct (decide (j = i)) as [->|]; [by rewrite Hz by lia|].
    rewrite Hv0 by lia. apply gmul_0_r.
Qed.

Lemma upper_phase_spec n A m mi :
  (m <= n)%nat -> mbytes n A -> inv_ok n A mi ->
  match upper_phase n 8 m mi with
  | inr mi' => inv_ok n A mi' /\ upper_to n m (at_ n (fst mi'))
  | inl _ => exists v, (forall j, is_byte (v j)) /\ (exists j, (j < n)%nat /\ v j <> 0) /\ kills n A v
  end.
Proof.
  intros Hm HA Hok. induction m as [|m IH]; [split; [done|]; intros c Hc; lia|].
  cbn [upper_phase]. specialize (IH ltac:(lia)).
  destruct (upper_phase n 8 m mi) as [|mi']; [done|].
  destruct IH as [Hok' Hup]. pose proof (upper_step_spec n A HA m mi' Hm Hok' Hup) as H.
  destruct (upper_step n 8 m mi') as [|mi2]; [|done].
  destruct (upper_kernel n m (at_ n (fst mi'))) as (v & Hv & Hv1 & Hk); [lia| |done|done|].
  { destruct Hok'. intros ????. auto with cord. }
  exists v. split_and!; [done| |].
  - exists m. split; [lia|]. by rewrite Hv1.
  - destruct Hok' as [_ _ _ _ _ Hker]. by apply Hker.
Qed.

(** Row [i] of the second phase. *)
Definition cleared n i M : Prop := forall c r, (i <= c < n)%nat -> (r < c)%nat -> M r c = 0.

Lemma back_step_spec n A i j mi :
  (i < n)%nat -> (j < i)%nat -> mbytes n A -> inv_ok n A mi ->
  upper_to n n (at_ n (fst mi)) -> cleared n (S i) (at_ n (fst mi)) ->
  let mi' := back_step n i 8 mi j in
  inv_ok n A mi' /\ upper_to n n (at_ n (fst mi')) /\ cleared n (S i) (at_ n (fst mi')) /\
  at_ n (fst mi') j i = 0 /\
  (forall r, (r < n)%nat -> r <> j -> at_ n (fst mi') r i = at_ n (fst mi) r i).
Proof.
  intros Hi Hj HA Hok Hup Hcl. destruct mi as [mat inv]. cbn [fst] in *. cbn zeta. unfold back_step.
  destruct (Z.eqb_spec (at_ n mat j i) 0) as [E|E]; [by split_and!|]. cbn [fst].
  pose proof Hok as [Hl1 Hl2 Hb1 Hb2 _ _]; cbn [fst snd] in *.
  assert (Hm : meq n (at_ n (<[(j * n + i)%nat := 0]> mat)) (radd j i (at_ n mat j i) (at_ n mat))).
  { intros r c Hr Hc. unfold at_ at 1. rewrite lookup_total_insert by nia.
    rewrite (Nat.mul_comm j n). rewrite (decide_ext _ _ _ _ (flat_inj n r c j i Hc Hi)).
    unfold radd. destruct (Hup i) as [Hd Hz]; [lia|lia|].
    destruct (decide (r = j)) as [->|]; [|by rewrite decide_False by tauto].
    destruct (decide (c = i)) as [->|].
    - rewrite decide_True by done. rewrite Hd, gmul_1_r by auto with cord. by rewrite Z.lxor_nilpotent.
    - rewrite decide_False by tauto. fold (at_ n mat j c).
      assert (at_ n mat i c = 0) as ->.
      { destruct (decide (c < i)%nat); [apply Hup; lia|apply Hcl; lia]. }
      by rewrite gmul_0_r, Z.lxor_0_r. }
  assert (Hv := xor_mul_row_spec n j i (at_ n mat j i) inv Hi ltac:(lia) ltac:(lia) Hl2).
  rewrite (Nat.mul_comm n j), (Nat.mul_comm n i) in Hv. destruct Hv as [Hv1 Hv].
  assert (Hrow : forall c, (c < n)%nat -> c <> i -> at_ n mat i c = 0).
  { intros c Hc Hne. destruct (decide (c < i)%nat); [apply Hup; lia|apply Hcl; lia]. }
  split; [|split_and!].
  - eapply inv_ok_op; [apply (radd_op n j i (at_ n mat j i)); auto with cord; lia|done|done| |done| | |done|done];
      rewrite ?length_insert; auto with cord.
  - intros c Hc _. destruct (Hup c Hc Hc) as [Hd Hz]. split.
    + rewrite Hm by lia. unfold radd. case_decide; [|done]. subst c.
      rewrite Hrow by lia. by rewrite Hd, gmul_0_r, Z.lxor_0_r.
    + intros r Hr. rewrite Hm by lia. unfold radd. case_decide; [|by apply Hz]. subst r.
      rewrite Hrow, Hz by lia. by rewrite gmul_0_r.
  - intros c r Hc Hr. rewrite Hm by lia. unfold radd. case_decide; [|by apply Hcl]. subst r.
    rewrite Hrow, Hcl by lia. by rewrite gmul_0_r.
  - rewrite Hm by lia. unfold radd. rewrite decide_True by done.
    destruct (Hup i) as [-> _]; [lia|lia|]. rewrite gmul_1_r by auto with cord. apply Z.lxor_nilpotent.
  - intros r Hr Hne. rewrite Hm by lia. unfold radd. by rewrite decide_False by done.
Qed.

Lemma back_phase_spec n A mi :
  mbytes n A -> inv_ok n A mi -> upper_to n n (at_ n (fst mi)) ->
  let mi' := back_phase n 8 mi in
  inv_ok n A mi' /\ meq n (at_ n (fst mi')) ident.
Proof.
  intros HA Hok Hup. cbn zeta.
  pose (P := fun k (mi : list Z * list Z) => inv_ok n A mi /\ upper_to n n (at_ n (fst mi)) /\
    cleared n (n - k) (at_ n (fst mi))).
  assert (HP : P n (back_phase n 8 mi)).
  { unfold back_phase. apply (loop_ind P).
    - split_and!; [done|done|]. intros c r Hc. lia.
    - intros k b Hk (H1 & H2 & H3). cbn zeta. set (i := (n - 1 - k)%nat).
      replace (n - k)%nat with (S i) in H3 by lia. unfold P. replace (n - S k)%nat with i by lia.
      pose (Q := fun j (mi : list Z * list Z) => inv_ok n A mi /\ upper_to n n (at_ n (fst mi)) /\
        cleared n (S i) (at_ n (fst mi)) /\ forall r, (r < j)%nat -> at_ n (fst mi) r i = 0).
      assert (HQ : Q i (loop i (back_step n i 8) b)).
      { apply (loop_ind Q); [split_and!; try done; intros; lia|].
        intros j m Hj (Q1 & Q2 & Q3 & Q4).
        destruct (back_step_spec n A i j m) as (R1 & R2 & R3 & R4 & R5); try done; [lia|].
        split_and!; try done. intros r Hr. destruct (decide (r = j)) as [->|]; [done|].
        rewrite R5 by lia. apply Q4. lia. }
      destruct HQ as (Q1 & Q2 & Q3 & Q4). split_and!; try done.
      intros c r Hc Hr. destruct (decide (c = i)) as [->|]; [by apply Q4|apply Q3; lia]. }
  destruct HP as (H1 & H2 & H3). split; [done|].
  intros r c Hr Hc. unfold ident. case_decide as E.
  - subst. apply (H2 c); lia.
  - destruct (decide (r < c)%nat); [apply H3; lia|]. apply (H2 c); lia.
Qed.

Lemma inv_ok_init n mat :
  length mat = (n * n)%nat -> Forall is_byte mat -> inv_ok n (at_ n mat) (mat, identity_matrix n).
Proof.
  intros Hl Hb. destruct (identity_spec n) as (H1 & H2 & H3). split; cbn [fst snd]; try done.
  intros i j Hi Hj. rewrite <- (mprod_ident_l n (at_ n mat)) by (try done; intros ????; auto with cord).
  apply xsum_ext. intros k Hk. by rewrite H3.
Qed.

(** What a caller of [jerasure_invert_matrix] gets when it returns 0. *)
Lemma invert_spec n mat mat' inv :
  length mat = (n * n)%nat -> Forall is_byte mat ->
  jerasure_invert_matrix mat n 8 = (0, (mat', inv)) ->
  length inv = (n * n)%nat /\ Forall is_byte inv /\
  meq n (mprod n (at_ n inv) (at_ n mat)) ident.
Proof.
  intros Hl Hb Hinv. unfold jerasure_invert_matrix in Hinv.
  assert (HA : mbytes n (at_ n mat)) by (intros ????; auto with cord).
  pose proof (upper_phase_spec n (at_ n mat) n _ (le_n n) HA (inv_ok_init n mat Hl Hb)) as Hup.
  destruct (upper_phase n 8 n (mat, identity_matrix n)) as [|mi]; [done|].
  injection Hinv as Hinv. destruct Hup as [Hok Hup].
  destruct (back_phase_spec n (at_ n mat) mi HA Hok Hup) as [[Hl1 Hl2 Hb1 Hb2 Hp _] Hid].
  rewrite Hinv in *. cbn [fst snd] in *. split_and!; [done|done|].
  by rewrite <- Hp.
Qed.

Lemma invert_fails n mat :
  length mat = (n * n)%nat -> Forall is_byte mat -> fst (jerasure_invert_matrix mat n 8) <> 0 ->
  exists v, (forall j, is_byte (v j)) /\ (exists j, (j < n)%nat /\ v j <> 0) /\ kills n (at_ n mat) v.
Proof.
  intros Hl Hb Hinv. unfold jerasure_invert_matrix in Hinv.
  assert (HA : mbytes n (at_ n mat)) by (intros ????; auto with cord).
  pose proof (upper_phase_spec n (at_ n mat) n _ (le_n n) HA (inv_ok_init n mat Hl Hb)) as Hup.
  by destruct (upper_phase n 8 n (mat, identity_matrix n)).
Qed.

(** A matrix with a left inverse kills no other vector than 0. *)
Lemma left_inverse_kernel n N A v :
  mbytes n N -> mbytes n A -> (forall j, is_byte (v j)) ->
  meq n (mprod n N A) ident -> kills n A v -> forall j, (j < n)%nat -> v j = 0.
Proof.
  intros HN HA Hv Hinv Hk j Hj.
  transitivity (xsum n (fun c => mprod n N A j c ⊗ v c)).
  - rewrite (xsum_ext n _ (fun c => ident j c ⊗ v c)) by (intros; by rewrite Hinv).
    rewrite (xsum_single n _ j Hj).
    + unfold ident. by rewrite decide_True, gmul_1_l.
    + intros i Hi Hne. unfold ident. by rewrite decide_False.
  - rewrite (xsum_ext n _ (fun c => xsum n (fun k => N j k ⊗ (A k c ⊗ v c)))).
    + rewrite xsum_swap. apply xsum_zero. intros k Hkk.
      rewrite <- gmul_xsum_l by auto with cord. rewrite (Hk k Hkk). apply gmul_0_r.
    + intros c Hc. unfold mprod. rewrite gmul_xsum_r by auto with cord.
      apply xsum_ext. intros. by rewrite gmul_assoc by auto.
Qed.
End inverse.

(** ** The loops only ever write into the arrays they were given *)
Section shape.
Context `{GF : GFComplete} {GL : GF8Laws}.

(** An array that keeps its size and its bytes. *)
Definition keeps (n : nat) (m : list Z) : Prop := length m = (n * n)%nat /\ Forall is_byte m.

Lemma upper_phase_bytes n A m mi :
  (m <= n)%nat -> mbytes n A -> inv_ok n A mi ->
  match upper_phase n 8 m mi with inl mi' => keeps n (fst mi') | inr mi' => inv_ok n A mi' end.
Proof.
  intros Hm HA Hok. induction m as [|m IH]; [done|].
  cbn [upper_phase]. specialize (IH ltac:(lia)).
  pose proof (upper_phase_spec n A m mi ltac:(lia) HA Hok) as Hspec.
  destruct (upper_phase n 8 m mi) as [|mi']; [done|]. destruct Hspec as [Hok' Hup].
  pose proof (upper_step_spec n A HA m mi' Hm Hok' Hup) as H.
  destruct (upper_step n 8 m mi') as [mi2|] eqn:E; [|apply H].
  destruct mi' as [mat inv]. unfold upper_step in E. destruct Hok' as [Hl1 Hl2 Hb1 Hb2 _ _].
  destruct (at_ n mat m m =? 0); [destruct (decide _)|]; try (injection E as <-; by split);
    destruct (negb _); done.
Qed.

Lemma invert_keeps n mat :
  keeps n mat -> keeps n (fst (snd (jerasure_invert_matrix mat n 8))).
Proof.
  intros [Hl Hb]. unfold jerasure_invert_matrix.
  assert (HA : mbytes n (at_ n mat)) by (intros ????; auto with cord).
  pose proof (upper_phase_bytes n _ n _ (le_n n) HA (inv_ok_init n mat Hl Hb)) as H1.
  pose proof (upper_phase_spec n _ n _ (le_n n) HA (inv_ok_init n mat Hl Hb)) as H2.
  destruct (upper_phase n 8 n (mat, identity_matrix n)) as [|mi]; [done|]. cbn [snd].
  destruct H2 as [Hok Hup]. destruct (back_phase_spec n _ mi HA Hok Hup) as [[? ? ? ? _ _] _]. done.
Qed.
End shape.

(** ** [jerasure_invert_matrix] *)

(** C19: [jerasure_invert_matrix] on a byte matrix returns 0 with a left inverse
    of the matrix in [inv], or it returns -1 and the matrix is singular: it
    sends a nonzero vector to zero.  The two cases exclude each other, so the
    return value decides invertibility. *)
Theorem jerasure_invert_matrix_correct `{GF : GFComplete} `{GL : !GF8Laws} n mat :
  length mat = (n * n)%nat -> Forall is_byte mat ->
  let '(ret, (_, inv)) := jerasure_invert_matrix mat n 8 in
  let singular := exists v, (forall j, is_byte (v j)) /\ (exists j, (j < n)%nat /\ v j <> 0) /\
    kills n (at_ n mat) v in
  (ret = 0 /\ length inv = (n * n)%nat /\ Forall is_byte inv /\
     meq n (mprod n (at_ n inv) (at_ n mat)) ident /\ ~ singular) \/
  (ret = -1 /\ singular).
Proof.
  intros Hl Hb. pose proof (invert_spec n mat) as Hs. pose proof (invert_fails n mat Hl Hb) as Hf.
  assert (Hret : fst (jerasure_invert_matrix mat n 8) = 0 \/ fst (jerasure_invert_matrix mat n 8) = -1)
    by (unfold jerasure_invert_matrix; destruct (upper_phase _ _ _ _); simpl; tauto).
  destruct (jerasure_invert_matrix mat n 8) as [ret [mat' inv]]. cbn [fst] in *.
  destruct Hret as [-> | ->]; [left | right; split; [done|]; by apply Hf].
  destruct (Hs mat' inv Hl Hb eq_refl) as (H1 & H2 & H3). split_and!; try done.
  intros (v & Hv & (j & Hj & Hne) & Hk). apply Hne.
  apply (left_inverse_kernel n (at_ n inv) (at_ n mat) v); auto; intros ????; auto with cord.
Qed.

Lemma jerasure_invert_matrix_correct_witness :
  fst (jerasure_invert_matrix [1; 1; 1; 217] 2 8) = 0 /\
  meq 2 (mprod 2 (at_ 2 (snd (snd (jerasure_invert_matrix [1; 1; 1; 217] 2 8)))) (at_ 2 [1; 1; 1; 217])) ident.
Proof.
  split; [by vm_compute|].
  pose proof (jerasure_invert_matrix_correct 2 [1; 1; 1; 217] eq_refl ltac:(decided)) as H.
  assert (Hr : fst (jerasure_invert_matrix [1; 1; 1; 217] 2 8) = 0) by (by vm_compute).
  destruct (jerasure_invert_matrix [1; 1; 1; 217] 2 8) as [ret [mat' inv]]. cbn [fst snd] in *.
  destruct H as [(_ & _ & _ & H & _)|[H _]]; [exact H | congruence].
Defined.
