(* ===== verification/Vandermonde.v ===== *)
(** * Matrices any [k] rows of which are independent

    The linear algebra behind Util/reed_sol.c: [any_rows n k M] says that a
    vector killed by [k] different rows of the [n] rows of [M] is null, so [k]
    of the [n] blocks of a stripe encoded with [M] determine its data.  The
    extended Vandermonde matrix has the property, because a polynomial over a
    field has no more roots than its degree, and the operations on columns and
    rows that reed_sol.c makes keep it. *)
From S2P Require Import Prelude Command Galois GF256 Jerasure Gauss.

Definition any_rows `{GFComplete} (n k : nat) (M : nat -> nat -> Z) : Prop :=
  forall rs v, NoDup rs -> length rs = k -> Forall (fun r => r < n)%nat rs ->
    (forall c, (c < k)%nat -> is_byte (v c)) ->
    (forall r, r ∈ rs -> xsum k (fun c => M r c ⊗ v c) = 0) ->
    forall c, (c < k)%nat -> v c = 0.

Section polynomials.
Context `{GF : GFComplete} {GL : GF8Laws}.

(** A polynomial is the list of its coefficients, the constant one first. *)
Definition peval (p : list Z) (x : Z) : Z := foldr (fun c acc => Z.lxor c (x ⊗ acc)) 0 p.

(** The quotient by [x - a]. *)
Fixpoint pdiv (p : list Z) (a : Z) : list Z :=
  match p with
  | [] => []
  | c :: p' => match p' with [] => [] | _ => peval p' a :: pdiv p' a end
  end.

Fixpoint gpow (a : Z) (j : nat) : Z :=
  match j with
  | O => 1
  | S j' => gpow a j' ⊗ a
  end.

Lemma peval_byte p x : Forall is_byte p -> is_byte x -> is_byte (peval p x).
Proof. intros Hp Hx. induction Hp as [|c p Hc Hp IH]; simpl; auto using gmul_byte with cord. Qed.

Lemma pdiv_bytes p a : Forall is_byte p -> is_byte a -> Forall is_byte (pdiv p a).
Proof.
  intros Hp Ha. induction Hp as [|c p Hc Hp IH]; [constructor|]. destruct p as [|d p]; [constructor|].
  constructor; [by apply peval_byte|exact IH].
Qed.

Lemma length_pdiv p a : length (pdiv p a) = (length p - 1)%nat.
Proof.
  induction p as [|c p IH]; [done|]. destruct p as [|d p]; [done|].
  change (length (pdiv (c :: d :: p) a)) with (S (length (pdiv (d :: p) a))). rewrite IH. simpl. lia.
Qed.

(** [p(x) = p(a) + (x - a) q(x)]. *)
Lemma peval_pdiv p a x :
  Forall is_byte p -> is_byte a -> is_byte x ->
  peval p x = Z.lxor (peval p a) (Z.lxor x a ⊗ peval (pdiv p a) x).
Proof.
  intros Hp Ha Hx. induction Hp as [|c p Hc Hp IH]; [by rewrite gmul_0_r|].
  destruct p as [|d p]; [simpl; by rewrite !gmul_0_r, !Z.lxor_0_r|]. set (p' := d :: p) in *.
  change (peval (c :: p') x) with (Z.lxor c (x ⊗ peval p' x)).
  change (peval (c :: p') a) with (Z.lxor c (a ⊗ peval p' a)).
  change (peval (pdiv (c :: p') a) x) with (Z.lxor (peval p' a) (x ⊗ peval (pdiv p' a) x)).
  rewrite IH. set (P := peval p' a). set (Q := peval (pdiv p' a) x).
  assert (HP : is_byte P) by by apply peval_byte.
  assert (HQ : is_byte Q) by (apply peval_byte; [by apply pdiv_bytes|done]).
  assert (Hxa : is_byte (Z.lxor x a)) by auto with cord.
  rewrite (gmul_lxor_r x P) by auto using gmul_byte with cord.
  rewrite (gmul_lxor_r (Z.lxor x a) P) by auto using gmul_byte with cord.
  rewrite (gmul_lxor_l x a P) by done.
  rewrite <- (gmul_assoc x), <- (gmul_assoc (Z.lxor x a) x), (gmul_comm x (Z.lxor x a)) by done.
  set (A := a ⊗ P). set (B := x ⊗ P). set (C := (Z.lxor x a ⊗ x) ⊗ Q).
  rewrite !Z.lxor_assoc. f_equal. rewrite (lxor_swap A B). f_equal. by rewrite lxor_cancel_l.
Qed.

(** A polynomial with [n] coefficients and [n] roots is null. *)
Lemma roots_null n p rs :
  length p = n -> Forall is_byte p -> NoDup rs -> length rs = n -> Forall is_byte rs ->
  Forall (fun r => peval p r = 0) rs -> Forall (fun c => c = 0) p.
Proof.
  revert p rs. induction n as [|n IH]; intros p rs Hl Hp Hnd Hlr Hb Hr; [by destruct p|].
  destruct rs as [|a rs]; [done|]. apply NoDup_cons in Hnd as [Ha Hnd]. apply Forall_cons in Hb as [Hba Hb].
  apply Forall_cons in Hr as [Hra Hr]. assert (Hq : Forall (fun c => c = 0) (pdiv p a)).
  { apply (IH _ rs); [rewrite length_pdiv; lia|by apply pdiv_bytes|done|by injection Hlr|done|].
    apply Forall_forall. intros r Hin. rewrite Forall_forall in Hb, Hr. specialize (Hb r Hin). specialize (Hr r Hin).
    rewrite (peval_pdiv p a r), Hra, Z.lxor_0_l in Hr by done.
    apply (gmul_nonzero (Z.lxor r a)); [auto with cord|apply peval_byte; [by apply pdiv_bytes|done]| |].
    - intros E. apply Z.lxor_eq in E. subst r. done.
    - rewrite gmul_comm; [done|apply peval_byte; [by apply pdiv_bytes|done]|auto with cord]. }
  clear IH Hl Hlr Hr Hnd Ha. revert Hra Hq. induction Hp as [|c p Hc Hp IHp]; intros Hra Hq; [constructor|].
  destruct p as [|d p].
  - constructor; [|constructor]. simpl in Hra. by rewrite gmul_0_r, Z.lxor_0_r in Hra.
  - change (pdiv (c :: d :: p) a) with (peval (d :: p) a :: pdiv (d :: p) a) in Hq.
    apply Forall_cons in Hq as [Hd Hq]. constructor; [|by apply IHp].
    change (peval (c :: d :: p) a) with (Z.lxor c (a ⊗ peval (d :: p) a)) in Hra.
    by rewrite Hd, gmul_0_r, Z.lxor_0_r in Hra.
Qed.

Lemma gpow_byte a j : is_byte a -> is_byte (gpow a j).
Proof. intros Ha. induction j; simpl; auto using gmul_byte with cord. Qed.

Lemma peval_sum k (v : nat -> Z) a :
  is_byte a -> (forall c, (c < k)%nat -> is_byte (v c)) ->
  peval (v <$> seq 0 k) a = xsum k (fun c => gpow a c ⊗ v c).
Proof.
  intros Ha. assert (H : forall k s, (forall c, (c < s + k)%nat -> is_byte (v c)) ->
    peval (v <$> seq s k) a = xsum k (fun c => gpow a c ⊗ v (s + c)%nat)).
  { clear k. induction k as [|k IH]; intros s Hv; [done|]. rewrite xsum_cons. cbn [seq]. rewrite fmap_cons.
    change (peval (v s :: (v <$> seq (S s) k)) a) with (Z.lxor (v s) (a ⊗ peval (v <$> seq (S s) k) a)).
    rewrite IH by (intros; apply Hv; lia). cbn [gpow]. rewrite gmul_1_l, Nat.add_0_r by (apply Hv; lia). f_equal.
    rewrite gmul_xsum_l; [|done|intros i Hi; apply gmul_byte; [by apply gpow_byte|apply Hv; lia]].
    apply xsum_ext. intros i Hi. assert (Hb : is_byte (v (S s + i)%nat)) by (apply Hv; lia).
    rewrite <- gmul_assoc, (gmul_comm a) by auto using gpow_byte. do 2 f_equal. lia. }
  intros Hv. by apply (H k 0%nat).
Qed.
End polynomials.

Section any_rows.
Context `{GF : GFComplete} {GL : GF8Laws}.
Context (n k : nat).

(** ** The extended Vandermonde matrix *)

(** Row [i] is [1, i, i^2, ...] (so row 0 is [1, 0, ..., 0]); the last row is
    [0, ..., 0, 1]. *)
Definition extended (r c : nat) : Z :=
  if decide (r = n - 1)%nat then (if decide (c = k - 1)%nat then 1 else 0) else gpow (Z.of_nat r) c.

Lemma extended_byte r c : (r < n)%nat -> (n <= 256)%nat -> is_byte (extended r c).
Proof.
  intros Hr Hn. unfold extended. repeat case_decide; auto with cord. apply gpow_byte. unfold is_byte. lia.
Qed.

(** Points below [n - 1] are different bytes, so fewer coefficients than roots
    are null. *)
Lemma points_null m (v : nat -> Z) rs :
  (n <= 256)%nat -> NoDup rs -> length rs = m -> Forall (fun r => r < n - 1)%nat rs ->
  (forall c, (c < m)%nat -> is_byte (v c)) ->
  (forall r, r ∈ rs -> xsum m (fun c => gpow (Z.of_nat r) c ⊗ v c) = 0) ->
  forall c, (c < m)%nat -> v c = 0.
Proof.
  intros Hn Hnd Hl Hrs Hv Hz c Hc.
  assert (Hpt : forall r, r ∈ rs -> is_byte (Z.of_nat r)).
  { intros r Hr. rewrite Forall_forall in Hrs. specialize (Hrs r Hr). unfold is_byte. simpl in Hrs. lia. }
  assert (Hnull : Forall (fun x => x = 0) (v <$> seq 0 m)).
  { apply (roots_null m _ (Z.of_nat <$> rs)).
    - by rewrite length_fmap, length_seq.
    - apply Forall_fmap, Forall_forall. intros i Hi%elem_of_seq. apply Hv. lia.
    - apply NoDup_fmap; [|done]. intros a b. lia.
    - by rewrite length_fmap.
    - apply Forall_fmap, Forall_forall. intros r Hr. by apply Hpt.
    - apply Forall_fmap, Forall_forall. intros r Hr. cbn. rewrite peval_sum by (done || by apply Hpt). by apply Hz. }
  rewrite Forall_forall in Hnull. apply Hnull. apply list_elem_of_fmap. exists c. split; [done|]. apply elem_of_seq. lia.
Qed.

Lemma extended_any_rows : (0 < k)%nat -> (n <= 256)%nat -> any_rows n k extended.
Proof.
  intros Hk Hn rs v Hnd Hl Hrs Hv Hz.
  assert (Hpoint : forall r m, r <> (n - 1)%nat -> xsum m (fun c => extended r c ⊗ v c) = xsum m (fun c => gpow (Z.of_nat r) c ⊗ v c)).
  { intros r m Hr. apply xsum_ext. intros c _. unfold extended. by rewrite decide_False. }
  destruct (decide (n - 1 ∈ rs)%nat) as [Hin|Hout].
  - assert (Hlast : v (k - 1)%nat = 0).
    { specialize (Hz _ Hin). rewrite (xsum_single k _ (k - 1)) in Hz; [|lia|].
      - unfold extended in Hz. rewrite !decide_True, gmul_1_l in Hz by (done || apply Hv; lia). done.
      - intros c Hc Hne. unfold extended. rewrite decide_True, decide_False by done. apply gmul_0_l. }
    apply elem_of_Permutation in Hin as (rs' & Hp). rewrite Hp in Hnd, Hrs. apply NoDup_cons in Hnd as [Hno Hnd].
    apply Forall_cons in Hrs as [_ Hrs].
    assert (Hne : forall r, r ∈ rs' -> r <> (n - 1)%nat) by (intros r Hr ->; done).
    assert (Hnull : forall c, (c < k - 1)%nat -> v c = 0).
    { apply (points_null (k - 1) v rs'); try done.
      - apply Permutation_length in Hp. simpl in Hp. lia.
      - apply Forall_forall. intros r Hr. rewrite Forall_forall in Hrs. specialize (Hrs r Hr). specialize (Hne r Hr). simpl in *. lia.
      - intros c Hc. apply Hv. lia.
      - intros r Hr. rewrite <- Hpoint by by apply Hne. specialize (Hz r). rewrite Hp in Hz. specialize (Hz ltac:(by right)).
        replace k with (S (k - 1)) in Hz by lia. cbn [xsum] in Hz. by rewrite Hlast, gmul_0_r, Z.lxor_0_r in Hz. }
    intros c Hc. destruct (decide (c = k - 1)%nat) as [->|]; [done|]. apply Hnull. lia.
  - assert (Hne : forall r, r ∈ rs -> r <> (n - 1)%nat) by (intros r Hr ->; done).
    apply (points_null k v rs); try done.
    + apply Forall_forall. intros r Hr. rewrite Forall_forall in Hrs. specialize (Hrs r Hr). specialize (Hne r Hr). simpl in *. lia.
    + intros r Hr. rewrite <- Hpoint by by apply Hne. by apply Hz.
Qed.

(** ** Operations that keep the property *)

Definition bytes_in (M : nat -> nat -> Z) : Prop := forall r c, (r < n)%nat -> (c < k)%nat -> is_byte (M r c).
Definition same_in (M M' : nat -> nat -> Z) : Prop := forall r c, (r < n)%nat -> (c < k)%nat -> M r c = M' r c.

Lemma any_rows_ext M M' : same_in M M' -> any_rows n k M -> any_rows n k M'.
Proof.
  intros He HM rs v Hnd Hl Hrs Hv Hz. apply (HM rs v); try done. intros r Hr. rewrite <- (Hz r Hr).
  apply xsum_ext. intros c Hc. rewrite He; [done| |done]. rewrite Forall_forall in Hrs. by apply Hrs.
Qed.

(** If the sum of a row with [v] is the old sum with a vector made from [v]
    without losing anything, the property is kept. *)
Lemma any_rows_map M M' (w : (nat -> Z) -> nat -> Z) :
  any_rows n k M ->
  (forall v, (forall c, (c < k)%nat -> is_byte (v c)) ->
     (forall c, (c < k)%nat -> is_byte (w v c)) /\
     (forall r, (r < n)%nat -> xsum k (fun c => M' r c ⊗ v c) = 0 -> xsum k (fun c => M r c ⊗ w v c) = 0) /\
     ((forall c, (c < k)%nat -> w v c = 0) -> forall c, (c < k)%nat -> v c = 0)) ->
  any_rows n k M'.
Proof.
  intros HM Hw rs v Hnd Hl Hrs Hv Hz. destruct (Hw v Hv) as (H1 & H2 & H3). apply H3.
  apply (HM rs (w v)); try done. intros r Hr. apply H2; [|by apply Hz]. rewrite Forall_forall in Hrs. by apply Hrs.
Qed.

(** A column times a non-zero factor. *)
Lemma any_rows_scale_col M i t :
  bytes_in M -> is_byte t -> t <> 0 -> any_rows n k M ->
  any_rows n k (fun r c => if decide (c = i) then t ⊗ M r c else M r c).
Proof.
  intros HM Ht Hne HA. apply (any_rows_map M _ (fun v c => if decide (c = i) then t ⊗ v c else v c) HA).
  intros v Hv. split_and!.
  - intros c Hc. case_decide; auto using gmul_byte.
  - intros r Hr <-. apply xsum_ext. intros c Hc. case_decide; [|done].
    rewrite <- gmul_assoc, (gmul_comm _ t) by auto. done.
  - intros Hz c Hc. specialize (Hz c Hc). case_decide; [|done].
    apply (gmul_nonzero t); auto. by rewrite gmul_comm by auto.
Qed.

(** A multiple of column [i] added to column [j]. *)
Lemma any_rows_add_col M i j t :
  bytes_in M -> is_byte t -> (i < k)%nat -> (j < k)%nat -> i <> j -> any_rows n k M ->
  any_rows n k (fun r c => if decide (c = j) then Z.lxor (M r j) (t ⊗ M r i) else M r c).
Proof.
  intros HM Ht Hi Hj Hij HA.
  apply (any_rows_map M _ (fun v c => if decide (c = i) then Z.lxor (v i) (t ⊗ v j) else v c) HA).
  intros v Hv. split_and!.
  - intros c Hc. case_decide; auto using gmul_byte with cord.
  - intros r Hr Hsum. rewrite <- Hsum.
    assert (Hl : xsum k (fun c => M r c ⊗ (if decide (c = i) then Z.lxor (v i) (t ⊗ v j) else v c)) =
      Z.lxor (xsum k (fun c => M r c ⊗ v c)) (M r i ⊗ (t ⊗ v j))).
    { rewrite (xsum_ext k _ (fun c => Z.lxor (M r c ⊗ v c) (if decide (c = i) then M r i ⊗ (t ⊗ v j) else 0))).
      - rewrite xsum_lxor. f_equal. rewrite (xsum_single k (fun c => if decide (c = i) then _ else _) i Hi); [by rewrite decide_True|].
        intros; by rewrite decide_False.
      - intros c Hc. case_decide as E; [subst c|by rewrite Z.lxor_0_r]. by rewrite gmul_lxor_r by auto using gmul_byte. }
    assert (Hr2 : xsum k (fun c => (if decide (c = j) then Z.lxor (M r j) (t ⊗ M r i) else M r c) ⊗ v c) =
      Z.lxor (xsum k (fun c => M r c ⊗ v c)) ((t ⊗ M r i) ⊗ v j)).
    { rewrite (xsum_ext k _ (fun c => Z.lxor (M r c ⊗ v c) (if decide (c = j) then (t ⊗ M r i) ⊗ v j else 0))).
      - rewrite xsum_lxor. f_equal. rewrite (xsum_single k (fun c => if decide (c = j) then _ else _) j Hj); [by rewrite decide_True|].
        intros; by rewrite decide_False.
      - intros c Hc. case_decide as E; [subst c|by rewrite Z.lxor_0_r]. by rewrite gmul_lxor_l by auto using gmul_byte. }
    rewrite Hl, Hr2. f_equal. by rewrite <- gmul_assoc, (gmul_comm _ t) by auto.
  - intros Hz c Hc. pose proof (Hz j Hj) as Hzj. rewrite decide_False in Hzj by done.
    specialize (Hz c Hc). case_decide as E; [|done]. subst c. by rewrite Hzj, gmul_0_r, Z.lxor_0_r in Hz.
Qed.

(** A row times a non-zero factor. *)
Lemma any_rows_scale_row M i t :
  bytes_in M -> is_byte t -> t <> 0 -> any_rows n k M ->
  any_rows n k (fun r c => if decide (r = i) then M r c ⊗ t else M r c).
Proof.
  intros HM Ht Hne HA. apply (any_rows_map M _ (fun v => v) HA). intros v Hv. split_and!; [done| |done].
  intros r Hr Hsum. case_decide; [|done].
  assert (Hs : is_byte (xsum k (fun c => M r c ⊗ v c))) by (apply xsum_byte; auto using gmul_byte).
  apply (gmul_nonzero t); [done|done|done|]. rewrite gmul_comm, gmul_xsum_l by auto using gmul_byte. rewrite <- Hsum.
  apply xsum_ext. intros c Hc. by rewrite <- gmul_assoc, (gmul_comm t) by auto.
Qed.

(** Two rows exchanged. *)
Lemma any_rows_swap M a b :
  (a < n)%nat -> (b < n)%nat -> any_rows n k M -> any_rows n k (rswap a b M).
Proof.
  intros Ha Hb HA rs v Hnd Hl Hrs Hv Hz.
  set (f := fun r => if decide (r = a) then b else if decide (r = b) then a else r).
  apply (HA (f <$> rs) v).
  - apply NoDup_fmap; [|done]. intros x y. unfold f. repeat case_decide; congruence.
  - by rewrite length_fmap.
  - apply Forall_fmap, Forall_forall. intros r Hr. rewrite Forall_forall in Hrs. specialize (Hrs r Hr). cbn.
    unfold f. by repeat case_decide.
  - done.
  - intros r' (r & -> & Hr)%list_elem_of_fmap. rewrite <- (Hz r Hr). apply xsum_ext. intros c Hc. f_equal.
    unfold rswap, f. repeat case_decide; congruence.
Qed.
End any_rows.
