(* ===== verification/ReedSol.v ===== *)
(** * The Reed-Solomon generator of Util/reed_sol.c

    [reed_sol_vandermonde_coding_matrix(k, m, 8)] is the matrix
    [UPCoordinator] encodes the updates with.  It starts from the extended
    Vandermonde matrix of [k+m] rows, turns the first [k] rows into the
    identity by operations on columns, normalises the first coding row and the
    first column to ones, and returns the last [m] rows.  The theorem is what
    makes it an erasure code: any [k] of the [k+m] blocks determine the data.

    [talloc] is [malloc]: [None] when there is no memory, and otherwise a
    region of the size asked for with any contents. *)
From S2P Require Import Prelude Command Galois GF256 Jerasure Gauss Vandermonde.

Section reed_sol.
Context `{GF : GFComplete} (talloc : nat -> option (list Z)).

(** [1, i, i^2, ...] written to row [i]; [k] is the running power. *)
Definition power_row (cols : nat) (w : Z) (vdm : list Z) (i : nat) : list Z :=
  fst (loop cols (fun '(vdm, k) j =>
    (<[(cols * i + j)%nat := k]> vdm, galois_single_multiply k (Z.of_nat i) w)) (vdm, 1)).

(** [reed_sol_extended_vandermonde_matrix]; [None] is [NULL]. *)
Definition reed_sol_extended_vandermonde_matrix (rows cols : nat) (w : Z) : option (list Z) :=
  if (w <? 30) && (Z.shiftl 1 w <? Z.of_nat rows) then None
  else if (w <? 30) && (Z.shiftl 1 w <? Z.of_nat cols) then None
  else
    vdm ← talloc (rows * cols);
    let vdm := <[0%nat := 1]> vdm in
    let vdm := foldl (fun vdm j => <[j := 0]> vdm) vdm (seq 1 (cols - 1)) in
    if decide (rows = 1)%nat then Some vdm
    else
      let i := (cols * (rows - 1))%nat in
      let vdm := loop (cols - 1) (fun vdm j => <[(i + j)%nat := 0]> vdm) vdm in
      let vdm := <[(i + (cols - 1))%nat := 1]> vdm in
      if decide (rows = 2)%nat then Some vdm
      else Some (foldl (power_row cols w) vdm (seq 1 (rows - 2))).

(** Column [j] of the rows [a .. a+n-1], each entry [x] of it replaced by
    [g x y] with [y] the entry of column [i] in that row. *)
Definition col_loop (cols i j : nat) (g : Z -> Z -> Z) (a n : nat) (dist : list Z) : list Z :=
  foldl (fun d r => <[(cols * r + j)%nat := g (at_ cols d r j) (at_ cols d r i)]> d) dist (seq a n).

(** The body of the loop on [j] that clears row [i]. *)
Definition clear_column (rows cols i : nat) (w : Z) (dist : list Z) (j : nat) : list Z :=
  let tmp := at_ cols dist i j in
  if negb (bool_decide (j = i)) && negb (tmp =? 0)
  then col_loop cols i j (fun x y => Z.lxor x (galois_single_multiply tmp y w)) 0 rows dist
  else dist.

(** The body of the loop on [i] that makes row [i] a row of the identity;
    [exit(1)] when no row has a non-zero entry in column [i]. *)
Definition unit_row (rows cols : nat) (w : Z) (i : nat) (dist : list Z) : res (list Z) :=
  let j := find_pivot (rows - i) cols dist i i in
  if decide (rows <= j)%nat then Fault (Exit 1)
  else
    let dist := if decide (j = i) then dist else swap_rows cols (cols * j) (cols * i) dist in
    let dist :=
      if at_ cols dist i i =? 1 then dist
      else let tmp := galois_single_divide 1 (at_ cols dist i i) w in
           col_loop cols i i (fun x _ => galois_single_multiply tmp x w) 0 rows dist in
    Ok (loop cols (clear_column rows cols i w) dist).

(** Row [cols] is made of ones. *)
Definition ones_row (rows cols : nat) (w : Z) (dist : list Z) (j : nat) : list Z :=
  let tmp := at_ cols dist cols j in
  if tmp =? 1 then dist
  else let tmp := galois_single_divide 1 tmp w in
       col_loop cols j j (fun x _ => galois_single_multiply tmp x w) cols (rows - cols) dist.

(** The first entry of row [i] is made a one. *)
Definition ones_column (cols : nat) (w : Z) (dist : list Z) (i : nat) : list Z :=
  let tmp := at_ cols dist i 0 in
  if tmp =? 1 then dist else scale_row cols (cols * i) (galois_single_divide 1 tmp w) w dist.

(** [reed_sol_big_vandermonde_distribution_matrix] *)
Definition reed_sol_big_vandermonde_distribution_matrix (rows cols : nat) (w : Z) : res (option (list Z)) :=
  if decide (rows <= cols)%nat then Ok None
  else match reed_sol_extended_vandermonde_matrix rows cols w with
  | None => Ok None
  | Some dist =>
      dist ← for_each (seq 1 (cols - 1)) (unit_row rows cols w) dist;
      let dist := loop cols (ones_row rows cols w) dist in
      Ok (Some (foldl (ones_column cols w) dist (seq (cols + 1) (rows - (cols + 1)))))
  end.

(** [reed_sol_vandermonde_coding_matrix] *)
Definition reed_sol_vandermonde_coding_matrix (k m : nat) (w : Z) : res (option (list Z)) :=
  vdm ← reed_sol_big_vandermonde_distribution_matrix (k + m) k w;
  match vdm with
  | None => Ok None
  | Some vdm =>
      match talloc (m * k) with
      | None => Ok None
      | Some dist => Ok (Some (loop (m * k) (fun dist j => <[j := vdm !!! (k * k + j)%nat]> dist) dist))
      end
  end.
End reed_sol.

(** ** Reading and writing entries *)

Lemma at_insert rows cols d r j v r' c :
  (r < rows)%nat -> (j < cols)%nat -> (c < cols)%nat -> length d = (cols * rows)%nat ->
  at_ cols (<[(cols * r + j)%nat := v]> d) r' c = if decide (r' = r /\ c = j) then v else at_ cols d r' c.
Proof.
  intros Hr Hj Hc Hl. unfold at_ at 1. rewrite lookup_total_insert by nia.
  pose proof (flat_inj cols r' c r j Hc Hj). repeat case_decide; done || tauto.
Qed.

Section entries.
Context `{GF : GFComplete} (rows k : nat).

Lemma col_loop_spec i j g a n d :
  (i < k)%nat -> (j < k)%nat -> (a + n <= rows)%nat -> length d = (k * rows)%nat ->
  length (col_loop k i j g a n d) = (k * rows)%nat /\
  forall r c, (r < rows)%nat -> (c < k)%nat ->
    at_ k (col_loop k i j g a n d) r c =
      if decide (c = j /\ a <= r < a + n)%nat then g (at_ k d r j) (at_ k d r i) else at_ k d r c.
Proof.
  intros Hi Hj Han Hl. unfold col_loop.
  pose (P := fun x b => length b = (k * rows)%nat /\ forall r c, (r < rows)%nat -> (c < k)%nat ->
    at_ k b r c = if decide (c = j /\ a <= r < x)%nat then g (at_ k d r j) (at_ k d r i) else at_ k d r c).
  apply (foldl_seq_ind P).
  - split; [done|]. intros r c Hr Hc. by rewrite decide_False by lia.
  - intros x b Hx [Hlb Hb]. split; [by rewrite length_insert|]. intros r c Hr Hc.
    rewrite (at_insert rows) by (done || lia). case_decide as E.
    + destruct E as [-> ->]. rewrite !Hb by lia. rewrite (decide_False (P := (j = j /\ a <= x < x)%nat)) by lia.
      rewrite (decide_False (P := (i = j /\ a <= x < x)%nat)) by lia. by rewrite decide_True by lia.
    + rewrite Hb by done. destruct (decide (c = j /\ a <= r < x)%nat).
      * by rewrite decide_True by lia.
      * by rewrite decide_False by lia.
Qed.

Lemma scale_row_rect r t d :
  (r < rows)%nat -> length d = (k * rows)%nat ->
  length (scale_row k (k * r) t 8 d) = (k * rows)%nat /\
  forall r' c, (c < k)%nat ->
    at_ k (scale_row k (k * r) t 8 d) r' c = if decide (r' = r) then at_ k d r' c ⊗ t else at_ k d r' c.
Proof.
  intros Hr Hl. unfold scale_row.
  destruct (row_loop k (k * r) (fun m j => (m !!! (k * r + j)%nat) ⊗ t) d) as [H1 H2].
  - nia.
  - intros x b Hx _ Hb. by rewrite Hb by lia.
  - split; [by rewrite H1|]. intros r' c Hc. unfold at_ at 1. rewrite H2.
    pose proof (flat_row_in k r r' c Hc). case_decide as E; case_decide as E'; try tauto.
    subst r'. unfold at_. repeat f_equal; lia.
Qed.
End entries.

(** ** The matrix while it is transformed *)

Section matrix.
Context `{GF : GFComplete} {GL : GF8Laws} (rows k : nat) (Hk : (0 < k < rows)%nat).

(** The first [i] rows are rows of the identity. *)
Definition unit_rows (i : nat) (M : nat -> nat -> Z) : Prop :=
  forall r c, (r < i)%nat -> (c < k)%nat -> M r c = ident r c.

(** What the code maintains: entries that are bytes, any [k] rows independent,
    the first [i] rows done. *)
Record good (i : nat) (d : list Z) : Prop := {
  good_length : length d = (k * rows)%nat;
  good_bytes : bytes_in rows k (at_ k d);
  good_any : any_rows rows k (at_ k d);
  good_unit : unit_rows i (at_ k d)
}.

(** If only column [c] of some rows is known to vanish, [k] of them cannot be
    independent. *)
Lemma column_not_null M rs c :
  bytes_in rows k M -> any_rows rows k M -> NoDup rs -> length rs = k -> Forall (fun r => r < rows)%nat rs ->
  (c < k)%nat -> ~ (forall r, r ∈ rs -> M r c = 0).
Proof.
  intros HM HA Hnd Hl Hrs Hc Hz. specialize (HA rs (fun x => ident x c) Hnd Hl Hrs).
  assert (H1 : ident c c = 0); [|unfold ident in H1; by rewrite decide_True in H1].
  apply HA; [|intros r Hr|done].
  - intros x _. unfold ident. case_decide; auto with cord.
  - rewrite (xsum_single k _ c Hc).
    + by rewrite Hz.
    + intros x Hx Hne. unfold ident. rewrite decide_False by done. apply gmul_0_r.
Qed.

Lemma pivot_exists M i :
  bytes_in rows k M -> any_rows rows k M -> unit_rows i M -> (i < k)%nat ->
  exists r, (i <= r < rows)%nat /\ M r i <> 0.
Proof.
  intros HM HA HU Hi. destruct (decide (Exists (fun r => M r i <> 0) (seq i (rows - i)))) as [He|He].
  - apply Exists_exists in He as (r & Hr%elem_of_seq & Hne). exists r. split; [lia|done].
  - exfalso. apply (column_not_null M (seq 0 k) i); try done.
    + apply NoDup_seq.
    + apply length_seq.
    + apply Forall_forall. intros r Hr%elem_of_seq. simpl. lia.
    + intros r Hr%elem_of_seq. destruct (decide (r < i)%nat).
      * rewrite HU by done. unfold ident. by rewrite decide_False by lia.
      * destruct (decide (M r i = 0)) as [|Hne]; [done|]. exfalso. apply He, Exists_exists.
        exists r. split; [apply elem_of_seq; lia|done].
Qed.

(** Under the identity no entry is zero. *)
Lemma coding_nonzero M r c :
  bytes_in rows k M -> any_rows rows k M -> unit_rows k M -> (k <= r < rows)%nat -> (c < k)%nat -> M r c <> 0.
Proof.
  intros HM HA HU Hr Hc Hz. pose (skip := fun x => if decide (x < c)%nat then x else S x).
  assert (Hskip : forall x, (x < k - 1)%nat -> (skip x < k)%nat /\ skip x <> c).
  { intros x Hx. unfold skip. case_decide; lia. }
  apply (column_not_null M (r :: (skip <$> seq 0 (k - 1))) c); try done.
  - apply NoDup_cons. split.
    + intros (x & -> & Hx%elem_of_seq)%list_elem_of_fmap. destruct (Hskip x); lia.
    + apply NoDup_fmap; [|apply NoDup_seq]. intros x y. unfold skip. repeat case_decide; lia.
  - simpl. rewrite length_fmap, length_seq. lia.
  - apply Forall_cons. split; [lia|]. apply Forall_fmap, Forall_forall. intros x Hx%elem_of_seq. cbn.
    destruct (Hskip x); lia.
  - intros q [->|(x & -> & Hx%elem_of_seq)%list_elem_of_fmap]%elem_of_cons; [done|].
    destruct (Hskip x) as [H1 H2]; [lia|]. rewrite HU by done. unfold ident. by rewrite decide_False.
Qed.

(** The three column operations. *)
Lemma good_scale_column i t d :
  good i d -> (i < k)%nat -> is_byte t -> t <> 0 ->
  let d' := col_loop k i i (fun x _ => t ⊗ x) 0 rows d in
  good i d' /\ at_ k d' i i = t ⊗ at_ k d i i.
Proof.
  intros [Hl Hb Ha Hu] Hi Ht Hne. cbn zeta.
  destruct (col_loop_spec rows k i i (fun x _ => t ⊗ x) 0 rows d) as [H1 H2]; [done..|].
  assert (He : same_in rows k (fun r c => if decide (c = i) then t ⊗ at_ k d r c else at_ k d r c)
    (at_ k (col_loop k i i (fun x _ => t ⊗ x) 0 rows d))).
  { intros r c Hr Hc. rewrite H2 by done. case_decide as E.
    - subst c. by rewrite decide_True by lia.
    - by rewrite decide_False by tauto. }
  split; [split|].
  - done.
  - intros r c Hr Hc. rewrite <- He by done. case_decide; auto using gmul_byte.
  - apply (any_rows_ext _ _ _ _ He). by apply any_rows_scale_col.
  - intros r c Hr Hc. rewrite <- He by lia. rewrite Hu by done. case_decide; [|done].
    subst c. unfold ident. rewrite decide_False by lia. apply gmul_0_r.
  - rewrite <- He by lia. by rewrite decide_True.
Qed.

Lemma good_add_column i j t d :
  good i d -> (i < k)%nat -> (j < k)%nat -> i <> j -> is_byte t ->
  let d' := col_loop k i j (fun x y => Z.lxor x (t ⊗ y)) 0 rows d in
  good i d' /\
  forall c, (c < k)%nat -> at_ k d' i c = if decide (c = j) then Z.lxor (at_ k d i j) (t ⊗ at_ k d i i) else at_ k d i c.
Proof.
  intros [Hl Hb Ha Hu] Hi Hj Hij Ht. cbn zeta.
  destruct (col_loop_spec rows k i j (fun x y => Z.lxor x (t ⊗ y)) 0 rows d) as [H1 H2]; [done..|].
  assert (He : same_in rows k (fun r c => if decide (c = j) then Z.lxor (at_ k d r j) (t ⊗ at_ k d r i) else at_ k d r c)
    (at_ k (col_loop k i j (fun x y => Z.lxor x (t ⊗ y)) 0 rows d))).
  { intros r c Hr Hc. rewrite H2 by done. case_decide as E.
    - subst c. by rewrite decide_True by lia.
    - by rewrite decide_False by tauto. }
  split; [split|].
  - done.
  - intros r c Hr Hc. rewrite <- He by done. case_decide; auto using gmul_byte with cord.
  - apply (any_rows_ext _ _ _ _ He). by apply any_rows_add_col.
  - intros r c Hr Hc. rewrite <- He by lia. case_decide; [|by apply Hu]. subst c.
    rewrite !Hu by done. unfold ident at 2. rewrite (decide_False (P := r = i)) by lia. by rewrite gmul_0_r, Z.lxor_0_r.
  - intros c Hc. by rewrite <- He by lia.
Qed.

Lemma clear_columns i d :
  good i d -> (i < k)%nat -> at_ k d i i = 1 -> good (S i) (loop k (clear_column rows k i 8) d).
Proof.
  intros Hg Hi H1.
  pose (P := fun j b => good i b /\ at_ k b i i = 1 /\ forall c, (c < j)%nat -> (c < k)%nat -> c <> i -> at_ k b i c = 0).
  assert (HP : P k (loop k (clear_column rows k i 8) d)).
  { apply (loop_ind P); [split_and!; [done..|intros; lia]|]. intros j b Hj (Hb & Hb1 & Hb0). unfold clear_column.
    case_bool_decide as Eji; cbn [negb andb].
    { split_and!; try done. intros c Hc Hck Hne. apply Hb0; [lia|done..]. }
    destruct (Z.eqb_spec (at_ k b i j) 0) as [Ez|Ez]; cbn [negb].
    { split_and!; try done. intros c Hc Hck Hne. destruct (decide (c = j)) as [->|]; [done|]. apply Hb0; [lia|done..]. }
    destruct (good_add_column i j (at_ k b i j) b) as [H2 H3]; [done..|by destruct Hb as [_ Hb _ _]; apply Hb; lia|].
    unfold P. split_and!; [done|by rewrite H3, decide_False by done|]. intros c Hc Hck Hne. rewrite H3 by done. case_decide as E.
    - rewrite Hb1, gmul_1_r by (destruct Hb as [_ Hb _ _]; apply Hb; lia). apply Z.lxor_nilpotent.
    - apply Hb0; [lia|done..]. }
  destruct HP as ([Hl Hb Ha Hu] & H2 & H3). split; try done. intros r c Hr Hc.
  destruct (decide (r = i)) as [->|]; [|apply Hu; [lia|done]]. unfold ident. case_decide as E; [by subst c|].
  by apply H3.
Qed.

Lemma good_swap i j d :
  good i d -> (i < k)%nat -> (i < j < rows)%nat ->
  let d' := swap_rows k (k * j) (k * i) d in
  good i d' /\ forall c, (c < k)%nat -> at_ k d' i c = at_ k d j c.
Proof.
  intros [Hl Hb Ha Hu] Hi Hj. cbn zeta.
  destruct (swap_rows_rect rows k j i d) as [H1 H2]; [lia..|].
  assert (He : same_in rows k (rswap j i (at_ k d)) (at_ k (swap_rows k (k * j) (k * i) d))).
  { intros r c Hr Hc. by rewrite H2. }
  split; [split|].
  - by rewrite H1.
  - intros r c Hr Hc. rewrite <- He by done. unfold rswap. repeat case_decide; apply Hb; lia.
  - apply (any_rows_ext _ _ _ _ He). apply any_rows_swap; (done || lia).
  - intros r c Hr Hc. rewrite <- He by lia. unfold rswap. rewrite !decide_False by lia. by apply Hu.
  - intros c Hc. rewrite <- He by lia. unfold rswap. rewrite decide_False by lia. by rewrite decide_True.
Qed.

Lemma inverse_facts x :
  is_byte x -> x <> 0 ->
  let t := galois_single_divide 1 x 8 in is_byte t /\ t <> 0 /\ t ⊗ x = 1 /\ x ⊗ t = 1.
Proof.
  intros Hx Hne t. assert (Ht : is_byte t) by (apply gdiv_byte; auto with cord).
  assert (H1 : t ⊗ x = 1) by (apply gdiv_mul; auto with cord).
  split_and!; [done| |done|by rewrite gmul_comm].
  intros E. by rewrite E in H1.
Qed.

(** One iteration of the loop on [i] always finds a pivot. *)
Lemma unit_row_good i d : good i d -> (i < k)%nat -> exists d', unit_row rows k 8 i d = Ok d' /\ good (S i) d'.
Proof.
  intros Hg Hi. unfold unit_row. pose proof (find_pivot_spec (rows - i) k d i i) as Hfp. cbn zeta in Hfp.
  set (j := find_pivot (rows - i) k d i i) in *. destruct Hfp as (Hj1 & Hj2 & Hj3).
  assert (Hj : (j < rows)%nat).
  { destruct Hg as [Hl Hb Ha Hu]. destruct (pivot_exists (at_ k d) i Hb Ha Hu Hi) as (r & Hr & Hne).
    destruct (decide (j < rows)%nat); [done|]. exfalso. apply Hne, Hj2. lia. }
  rewrite decide_False by lia. specialize (Hj3 ltac:(lia)).
  set (d1 := if decide (j = i) then d else _).
  assert (Hd1 : good i d1 /\ at_ k d1 i i <> 0).
  { unfold d1. case_decide as E; [by rewrite E in Hj3|]. destruct (good_swap i j d Hg Hi) as [H1 H2]; [lia|].
    by rewrite H2. }
  clearbody d1. clear Hg Hj1 Hj2 Hj3 Hj j. destruct Hd1 as [Hg Hne].
  eexists. split; [done|].
  destruct (Z.eqb_spec (at_ k d1 i i) 1) as [E|E]; [by apply clear_columns|].
  destruct (inverse_facts (at_ k d1 i i)) as (Ht & Htn & Hinv & _); [apply Hg; lia|done|].
  destruct (good_scale_column i (galois_single_divide 1 (at_ k d1 i i) 8) d1 Hg Hi Ht Htn) as [H1 H2].
  apply clear_columns; [done..|]. by rewrite H2.
Qed.

(** ** The normalisation *)

Lemma good_scale_coding j t d :
  good k d -> (j < k)%nat -> is_byte t -> (exists u, is_byte u /\ u <> 0 /\ t ⊗ u = 1) -> t <> 0 ->
  let d' := col_loop k j j (fun x _ => t ⊗ x) k (rows - k) d in
  good k d' /\ forall c, (c < k)%nat -> at_ k d' k c = if decide (c = j) then t ⊗ at_ k d k c else at_ k d k c.
Proof.
  intros [Hl Hb Ha Hu] Hj Ht (u & Hub & Hune & Hu1) Hne. cbn zeta.
  destruct (col_loop_spec rows k j j (fun x _ => t ⊗ x) k (rows - k) d) as [H1 H2]; [done|done|lia|done|].
  set (d' := col_loop _ _ _ _ _ _ _) in *.
  assert (Hrow : forall r c, (r < k)%nat -> (c < k)%nat -> at_ k d' r c = at_ k d r c).
  { intros r c Hr Hc. rewrite H2 by lia. by rewrite decide_False by lia. }
  assert (Hcod : forall r c, (k <= r < rows)%nat -> (c < k)%nat ->
    at_ k d' r c = if decide (c = j) then t ⊗ at_ k d r c else at_ k d r c).
  { intros r c Hr Hc. rewrite H2 by lia. case_decide as E.
    - destruct E as [-> _]. by rewrite decide_True.
    - by rewrite decide_False by lia. }
  split; [split|].
  - done.
  - intros r c Hr Hc. destruct (decide (r < k)%nat); [rewrite Hrow by done; by apply Hb|].
    rewrite Hcod by lia. case_decide; auto using gmul_byte.
  - pose proof (any_rows_scale_col rows k (at_ k d) j t Hb Ht Hne Ha) as HA.
    apply (any_rows_scale_row rows k _ j u) in HA; [|intros r c Hr Hc; case_decide; auto using gmul_byte|done..].
    revert HA. apply any_rows_ext. intros r c Hr Hc.
    destruct (decide (r < k)%nat) as [Hrk|Hrk].
    + rewrite Hrow, !Hu by done. unfold ident.
      destruct (decide (r = j)) as [->|]; destruct (decide (c = j)) as [->|]; try done.
      * by rewrite decide_True, gmul_1_r by done.
      * by rewrite decide_False by done.
      * rewrite decide_False by done. apply gmul_0_r.
    + rewrite Hcod by lia. rewrite decide_False by lia. done.
  - intros r c Hr Hc. rewrite Hrow by done. by apply Hu.
  - intros c Hc. apply Hcod; lia.
Qed.

Lemma ones_row_good d :
  good k d -> let d' := loop k (ones_row rows k 8) d in good k d' /\ forall c, (c < k)%nat -> at_ k d' k c = 1.
Proof.
  intros Hg. cbn zeta.
  pose (P := fun j d => good k d /\ forall c, (c < j)%nat -> (c < k)%nat -> at_ k d k c = 1).
  assert (HP : P k (loop k (ones_row rows k 8) d)).
  { apply (loop_ind P); [split; [done|intros; lia]|]. intros j b Hj [Hb H1]. unfold ones_row.
    destruct (Z.eqb_spec (at_ k b k j) 1) as [E|E].
    { split; [done|]. intros c Hc Hck. destruct (decide (c = j)) as [->|]; [done|]. apply H1; lia. }
    assert (Hx : is_byte (at_ k b k j)) by (apply Hb; lia).
    assert (Hne : at_ k b k j <> 0) by (destruct Hb; apply coding_nonzero; (done || lia)).
    destruct (inverse_facts _ Hx Hne) as (Ht & Htn & Hinv & _).
    destruct (good_scale_coding j (galois_single_divide 1 (at_ k b k j) 8) b) as [H2 H3]; [done..|by exists (at_ k b k j)|done|].
    split; [done|]. intros c Hc Hck. rewrite H3 by done. case_decide as Ec; [by subst c|apply H1; lia]. }
  destruct HP as [HP1 HP2]. split; [done|]. intros c Hc. by apply HP2.
Qed.

Lemma ones_column_good d :
  good k d -> (forall c, (c < k)%nat -> at_ k d k c = 1) ->
  let d' := foldl (ones_column k 8) d (seq (k + 1) (rows - (k + 1))) in
  good k d' /\ (forall c, (c < k)%nat -> at_ k d' k c = 1) /\
  forall r, (k <= r < rows)%nat -> at_ k d' r 0 = 1.
Proof.
  intros Hg H1. cbn zeta.
  pose (P := fun n d => good k d /\ (forall c, (c < k)%nat -> at_ k d k c = 1) /\ forall r, (k <= r < n)%nat -> at_ k d r 0 = 1).
  assert (HP : P (k + 1 + (rows - (k + 1)))%nat (foldl (ones_column k 8) d (seq (k + 1) (rows - (k + 1))))).
  { apply (foldl_seq_ind P).
    { split_and!; [done..|]. intros r Hr. replace r with k by lia. apply H1. lia. }
    intros i b Hi (Hb & Hb1 & Hb2). unfold ones_column.
    destruct (Z.eqb_spec (at_ k b i 0) 1) as [E|E].
    { split_and!; try done. intros r Hr. destruct (decide (r = i)) as [->|]; [done|]. apply Hb2. lia. }
    assert (Hx : is_byte (at_ k b i 0)) by (apply Hb; lia).
    assert (Hne : at_ k b i 0 <> 0) by (destruct Hb; apply coding_nonzero; (done || lia)).
    destruct (inverse_facts _ Hx Hne) as (Ht & Htn & _ & Hinv). set (t := galois_single_divide _ _ _) in *.
    destruct Hb as [Hl Hbb Ha Hu]. destruct (scale_row_rect rows k i t b) as [H2 H3]; [lia|done|].
    unfold P. split_and!; [split| |].
    - done.
    - intros r c Hr Hc. rewrite H3 by done. case_decide; auto using gmul_byte.
    - apply (any_rows_ext rows k (fun r c => if decide (r = i) then at_ k b r c ⊗ t else at_ k b r c)).
      + intros r c Hr Hc. by rewrite H3.
      + by apply any_rows_scale_row.
    - intros r c Hr Hc. rewrite H3, decide_False by lia. by apply Hu.
    - intros c Hc. rewrite H3, decide_False by lia. by apply Hb1.
    - intros r Hr. rewrite H3 by lia. case_decide as Ec; [by subst r|]. apply Hb2. lia. }
  destruct HP as (HP1 & HP2 & HP3). split_and!; try done. intros r Hr. apply HP3. lia.
Qed.

(** ** The matrix it starts from *)

(** Writing row [i] entry by entry; the other rows keep their entries. *)
Definition row_written (i x : nat) (f : nat -> Z) (d b : list Z) : Prop :=
  length b = (k * rows)%nat /\
  forall r c, (c < k)%nat -> at_ k b r c = if decide (r = i /\ c < x)%nat then f c else at_ k d r c.

Lemma row_written_0 i f d : length d = (k * rows)%nat -> row_written i 0 f d d.
Proof. split; [done|]. intros r c Hc. by rewrite decide_False by lia. Qed.

Lemma row_written_S i x f d b :
  (i < rows)%nat -> (x < k)%nat -> row_written i x f d b -> row_written i (S x) f d (<[(k * i + x)%nat := f x]> b).
Proof.
  intros Hi Hx [Hl Hb]. split; [by rewrite length_insert|]. intros r c Hc.
  rewrite (at_insert rows) by done. destruct (decide (r = i /\ c = x)) as [[-> ->]|E].
  - by rewrite decide_True by lia.
  - rewrite Hb by done. destruct (decide (r = i /\ c < x)%nat).
    + by rewrite decide_True by lia.
    + by rewrite decide_False by lia.
Qed.

Lemma power_row_spec i d :
  (i < rows)%nat -> length d = (k * rows)%nat -> row_written i k (gpow (Z.of_nat i)) d (power_row k 8 d i).
Proof.
  intros Hi Hl. unfold power_row.
  pose (P := fun x (bp : list Z * Z) => row_written i x (gpow (Z.of_nat i)) d (fst bp) /\ snd bp = gpow (Z.of_nat i) x).
  apply (loop_ind P k _ (d, 1)).
  - split; [by apply row_written_0|done].
  - intros x [b p] Hx [H1 H2]. cbn [fst snd] in *. subst p. split; [by apply row_written_S|done].
Qed.

Lemma extended_matrix_spec talloc vdm :
  (rows <= 256)%nat -> talloc (rows * k)%nat = Some vdm -> length vdm = (rows * k)%nat ->
  exists d, reed_sol_extended_vandermonde_matrix talloc rows k 8 = Some d /\
    length d = (k * rows)%nat /\ same_in rows k (extended rows k) (at_ k d).
Proof.
  intros Hr Ha Hl. unfold reed_sol_extended_vandermonde_matrix. change (Z.shiftl 1 8) with 256.
  replace (256 <? Z.of_nat rows) with false by lia. replace (256 <? Z.of_nat k) with false by lia.
  rewrite Ha. simpl.
  set (d1 := foldl _ _ _).
  assert (H1 : row_written 0 k (gpow 0) vdm d1).
  { unfold d1. pose proof (foldl_seq_ind (fun x b => row_written 0 x (gpow 0) vdm b) (fun vdm j => <[j := 0]> vdm) 1 (k - 1)) as H.
    cbv beta in H. replace (1 + (k - 1))%nat with k in H by lia. apply H.
    - pose proof (row_written_S 0 0 (gpow 0) vdm vdm) as Hs. rewrite Nat.mul_0_r in Hs. apply Hs; [lia..|].
      apply row_written_0. lia.
    - intros x b Hx Hb. pose proof (row_written_S 0 x (gpow 0) vdm b) as Hs.
      replace (k * 0 + x)%nat with x in Hs by lia. replace (gpow 0 x) with 0 in Hs; [apply Hs; (done || lia)|].
      destruct x as [|x]; [lia|]. simpl. by rewrite gmul_0_r. }
  clearbody d1. rewrite decide_False by lia.
  set (last := fun c => if decide (c = k - 1)%nat then 1 else 0).
  set (d2 := <[_ := 1]> _).
  assert (H2 : row_written (rows - 1) k last d1 d2).
  { assert (Hloop : row_written (rows - 1) (k - 1) last d1
      (loop (k - 1) (fun vdm j => <[(k * (rows - 1) + j)%nat := 0]> vdm) d1)).
    { apply (loop_ind (fun x b => row_written (rows - 1) x last d1 b)); [by apply row_written_0, H1|].
      intros x b Hx Hb. pose proof (row_written_S (rows - 1) x last d1 b) as Hs.
      replace (last x) with 0 in Hs by (unfold last; by rewrite decide_False by lia). apply Hs; (done || lia). }
    apply row_written_S in Hloop; [|lia..]. replace (S (k - 1)) with k in Hloop by lia.
    replace (last (k - 1)%nat) with 1 in Hloop by (unfold last; by rewrite decide_True). done. }
  clearbody d2. destruct H1 as [H1l H1], H2 as [H2l H2].
  pose (P := fun n b => length b = (k * rows)%nat /\ forall r c, (r < rows)%nat -> (c < k)%nat ->
    (r < n \/ r = rows - 1)%nat -> at_ k b r c = extended rows k r c).
  assert (HP : P 1%nat d2).
  { split; [done|]. intros r c Hrr Hc [Hr1| ->]; rewrite H2 by done; unfold extended.
    - rewrite !decide_False by lia. replace r with 0%nat by lia. rewrite H1 by done. by rewrite decide_True.
    - rewrite !decide_True by done. done. }
  case_decide as E2.
  - exists d2. split_and!; [done..|]. intros r c Hrr Hc. symmetry. apply HP; lia.
  - assert (Hf : P (1 + (rows - 2))%nat (foldl (power_row k 8) d2 (seq 1 (rows - 2)))).
    { apply (foldl_seq_ind P); [done|]. intros i b Hi [Hb1 Hb2].
      destruct (power_row_spec i b) as [Hw1 Hw2]; [lia|done|]. split; [done|].
      intros r c Hrr Hc Hor. rewrite Hw2 by done. destruct (decide (r = i /\ c < k)%nat) as [[-> _]|E].
      - unfold extended. by rewrite decide_False by lia.
      - apply Hb2; [done|done|]. lia. }
    destruct Hf as [Hf1 Hf2]. eexists. split_and!; [done..|]. intros r c Hrr Hc. symmetry. apply Hf2; [done|done|lia].
Qed.

Lemma unit_rows_good n d :
  good 1 d -> (n < k)%nat -> exists d', for_each (seq 1 n) (unit_row rows k 8) d = Ok d' /\ good (S n) d'.
Proof.
  intros Hg. induction n as [|n IH]; intros Hn; [by exists d|]. destruct IH as (d1 & H1 & Hg1); [lia|].
  destruct (unit_row_good (S n) d1) as (d2 & H2 & Hg2); [done|lia|]. exists d2. split; [|done].
  rewrite seq_S, for_each_app, H1. simpl. by rewrite H2.
Qed.

Lemma distribution_matrix talloc vdm :
  (rows <= 256)%nat -> talloc (rows * k)%nat = Some vdm -> length vdm = (rows * k)%nat ->
  exists d, reed_sol_big_vandermonde_distribution_matrix talloc rows k 8 = Ok (Some d) /\ good k d /\
    (forall c, (c < k)%nat -> at_ k d k c = 1) /\ forall r, (k <= r < rows)%nat -> at_ k d r 0 = 1.
Proof.
  intros Hr Ha Hl. unfold reed_sol_big_vandermonde_distribution_matrix. rewrite decide_False by lia.
  destruct (extended_matrix_spec talloc vdm Hr Ha Hl) as (d0 & -> & Hl0 & He).
  assert (Hg0 : good 1 d0).
  { split.
    - done.
    - intros r c Hrr Hc. rewrite <- He by done. by apply extended_byte.
    - apply (any_rows_ext _ _ _ _ He), extended_any_rows; lia.
    - intros r c Hrr Hc. rewrite <- He by lia. replace r with 0%nat by lia. unfold extended, ident.
      rewrite decide_False by lia. destruct c as [|c]; [done|]. simpl. by rewrite gmul_0_r. }
  destruct (unit_rows_good (k - 1) d0 Hg0) as (d1 & H1 & Hg1); [lia|]. rewrite H1. cbn [mbind res_bind].
  replace (S (k - 1)) with k in Hg1 by lia.
  destruct (ones_row_good d1 Hg1) as [Hg2 H2]. destruct (ones_column_good _ Hg2 H2) as (Hg3 & H3 & H4).
  eexists. split_and!; [done..].
Qed.
End matrix.

(** ** The coding matrix *)

(** The generator of the code: the data blocks, then the coding blocks. *)
Definition generator (k : nat) (C : list Z) (r c : nat) : Z :=
  if decide (r < k)%nat then ident r c else at_ k C (r - k) c.

Section coding.
Context `{GF : GFComplete} {GL : GF8Laws}.

Lemma copied_matrix k m (vdm dist : list Z) :
  length dist = (m * k)%nat ->
  let C := loop (m * k) (fun dist j => <[j := vdm !!! (k * k + j)%nat]> dist) dist in
  length C = (m * k)%nat /\ forall i j, (i < m)%nat -> (j < k)%nat -> at_ k C i j = at_ k vdm (k + i) j.
Proof.
  intros Hl. cbn zeta.
  destruct (row_loop (m * k) 0 (fun _ j => vdm !!! (k * k + j)%nat) dist) as [H1 H2]; [lia|done|].
  simpl in H1, H2. split; [by rewrite H1|]. intros i j Hi Hj. unfold at_. rewrite H2, decide_True by nia.
  f_equal. lia.
Qed.

Lemma coding_matrix_mds talloc k m :
  (0 < k)%nat -> (0 < m)%nat -> (k + m <= 256)%nat ->
  (forall n, exists l, talloc n = Some l /\ length l = n) ->
  exists C, reed_sol_vandermonde_coding_matrix talloc k m 8 = Ok (Some C) /\
    length C = (m * k)%nat /\ Forall is_byte C /\
    (forall j, (j < k)%nat -> at_ k C 0 j = 1) /\ (forall i, (i < m)%nat -> at_ k C i 0 = 1) /\
    any_rows (k + m) k (generator k C).
Proof.
  intros Hk Hm Hkm Hta. unfold reed_sol_vandermonde_coding_matrix.
  destruct (Hta ((k + m) * k)%nat) as (vdm & Hv & Hvl). destruct (Hta (m * k)%nat) as (dist & Hd & Hdl).
  destruct (distribution_matrix (k + m) k ltac:(lia) talloc vdm Hkm Hv Hvl) as (d & -> & [Hl Hb Ha Hu] & H1 & H2).
  cbn [mbind res_bind]. rewrite Hd. destruct (copied_matrix k m d dist Hdl) as [HCl HC].
  set (C := loop _ _ _) in *. exists C. split_and!; try done.
  - apply Forall_lookup. intros p x Hx. pose proof (lookup_lt_Some _ _ _ Hx) as Hp. rewrite HCl in Hp.
    apply list_lookup_total_correct in Hx. subst x.
    rewrite (Nat.div_mod p k) by lia. fold (at_ k C (p / k) (p mod k)).
    assert (Hpm : (p / k < m)%nat) by (apply Nat.Div0.div_lt_upper_bound; lia).
    pose proof (Nat.mod_upper_bound p k ltac:(lia)) as Hpk. rewrite HC by done. apply Hb; lia.
  - intros j Hj. rewrite HC, Nat.add_0_r by done. by apply H1.
  - intros i Hi. rewrite HC by done. apply H2. lia.
  - apply (any_rows_ext _ _ (at_ k d)); [|done]. intros r c Hr Hc. unfold generator.
    case_decide; [by apply Hu|]. rewrite HC by lia. f_equal. lia.
Qed.

(** C12: [reed_sol_vandermonde_coding_matrix(k, m, 8)] is a maximum distance
    separable code.  For all [k, m >= 1] with [k + m <= 256] (and memory) it
    neither exits for want of a pivot nor returns [NULL]; the matrix has [m]
    rows of [k] bytes, its first row and its first column are ones, and any
    [k] of the [k+m] blocks (the [k] data blocks and the [m] coding blocks)
    determine the data. *)
Theorem reed_sol_vandermonde_mds talloc k m :
  (0 < k)%nat -> (0 < m)%nat -> (k + m <= 256)%nat ->
  (forall n, exists l, talloc n = Some l /\ length l = n) ->
  exists C, reed_sol_vandermonde_coding_matrix talloc k m 8 = Ok (Some C) /\
    length C = (m * k)%nat /\ Forall is_byte C /\
    (forall j, (j < k)%nat -> at_ k C 0 j = 1) /\ (forall i, (i < m)%nat -> at_ k C i 0 = 1) /\
    any_rows (k + m) k (generator k C).
Proof. apply coding_matrix_mds. Qed.

(** With too few elements in the field, or no coding block to compute, the
    answer is [NULL] for every contents of memory. *)
Theorem reed_sol_vandermonde_null talloc k m :
  (m = 0 \/ 256 < k + m)%nat -> reed_sol_vandermonde_coding_matrix talloc k m 8 = Ok None.
Proof.
  intros H. unfold reed_sol_vandermonde_coding_matrix, reed_sol_big_vandermonde_distribution_matrix.
  case_decide; [done|]. unfold reed_sol_extended_vandermonde_matrix. change (Z.shiftl 1 8) with 256.
  assert (E : (256 <? Z.of_nat (k + m)) = true) by (apply Z.ltb_lt; lia). by rewrite E.
Qed.
End coding.

Example coding_matrix_4_2 :
  reed_sol_vandermonde_coding_matrix (GF := gf256) (fun n => Some (replicate n 77)) 4 2 8 =
    Ok (Some [1; 1; 1; 1; 1; 70; 143; 200]).
Proof. vm_compute. reflexivity. Qed.

Lemma reed_sol_vandermonde_mds_witness :
  exists C, reed_sol_vandermonde_coding_matrix (GF := gf256) (fun n => Some (replicate n 77)) 4 2 8 = Ok (Some C) /\
    any_rows (H := gf256) 6 4 (generator 4 C).
Proof.
  destruct (reed_sol_vandermonde_mds (GF := gf256) (fun n => Some (replicate n 77)) 4 2) as (C & H1 & _ & _ & _ & _ & H2); [lia..| |].
  - intros n. eexists. split; [reflexivity|apply length_replicate].
  - exists C. split; [exact H1|exact H2].
Defined.

Lemma reed_sol_vandermonde_null_witness :
  reed_sol_vandermonde_coding_matrix (GF := gf256) (fun n => Some (replicate n 77)) 250 10 8 = Ok None.
Proof. apply (reed_sol_vandermonde_null (GF := gf256)). right. lia. Defined.
