(* ===== verification/Encode.v ===== *)
(** * Correctness of the encoding routines of Util/jerasure.c

    [jerasure_matrix_dotprod] makes two passes over the coefficients, first the
    ones (copied or xored), then the others (region multiplications); it is
    shown equal to the plain linear combination [lincomb], and
    [jerasure_matrix_multiply] to the matrix product. *)
From S2P Require Import Prelude Command Galois GF256 Jerasure Gauss.

(** Regions of [size] bytes. *)
Definition region (size : nat) (r : list Z) : Prop := length r = size /\ Forall is_byte r.

(** The reference: byte [p] of the result is the sum of [c i * data[i][p]]. *)
Definition lincomb `{GFComplete} (k size : nat) (c : nat -> Z) (data : list (list Z)) : list Z :=
  (fun p => xsum k (fun i => c i ⊗ ((data !!! i) !!! p))) <$> seq 0 size.

Lemma list_eq_total (l1 l2 : list Z) :
  length l1 = length l2 -> (forall p, (p < length l1)%nat -> l1 !!! p = l2 !!! p) -> l1 = l2.
Proof.
  intros Hl Hp. apply list_eq_same_length with (length l1); [done|done|].
  intros i x y Hi H1 H2. specialize (Hp i Hi).
  by rewrite (list_lookup_total_correct _ _ _ H1), (list_lookup_total_correct _ _ _ H2) in Hp.
Qed.

Lemma zip_with_lookup_total (f : Z -> Z -> Z) (l1 l2 : list Z) p :
  (p < length l1)%nat -> (p < length l2)%nat -> zip_with f l1 l2 !!! p = f (l1 !!! p) (l2 !!! p).
Proof.
  intros H1 H2. apply list_lookup_total_correct. rewrite lookup_zip_with.
  rewrite (list_lookup_lookup_total_lt l1 p H1), (list_lookup_lookup_total_lt l2 p H2). done.
Qed.

Lemma fmap_seq_lookup_total (f : nat -> Z) n p : (p < n)%nat -> (f <$> seq 0 n) !!! p = f p.
Proof.
  intros. apply list_lookup_total_correct. rewrite list_lookup_fmap.
  by rewrite lookup_seq_lt by done.
Qed.

Section encode.
Context `{GF : GFComplete} {GL : GF8Laws}.

Lemma length_lincomb k size c data : length (lincomb k size c data) = size.
Proof. unfold lincomb. by rewrite length_fmap, length_seq. Qed.

Lemma lincomb_lookup k size c data p :
  (p < size)%nat -> lincomb k size c data !!! p = xsum k (fun i => c i ⊗ ((data !!! i) !!! p)).
Proof. intros. unfold lincomb. by rewrite fmap_seq_lookup_total. Qed.

Lemma lincomb_ext k size c c' data :
  (forall i, (i < k)%nat -> c i = c' i) -> lincomb k size c data = lincomb k size c' data.
Proof.
  intros H. apply list_eq_total; rewrite !length_lincomb; [done|]. intros p Hp.
  rewrite !lincomb_lookup by done. apply xsum_ext. intros. by rewrite H.
Qed.

Lemma lincomb_region k size c data :
  (forall i, (i < k)%nat -> is_byte (c i)) -> (forall i, (i < k)%nat -> region size (data !!! i)) ->
  region size (lincomb k size c data).
Proof.
  intros Hc Hd. split; [apply length_lincomb|]. apply Forall_fmap, Forall_forall.
  intros p _. simpl. apply xsum_byte. intros i Hi. destruct (Hd i Hi). auto with cord.
Qed.

Section dotprod.
Context (k size : nat) (row : list Z) (data : list (list Z)) (dptr : list Z).
Context (Hdata : forall i, (i < k)%nat -> region size (data !!! i)).
Context (Hdptr : length dptr = size).
Context (Hrow : Forall is_byte row).

(** The state [(init, dptr)] of the two passes once the coefficients [c]
    have been added. *)
Definition dot_state (c : nat -> Z) (st : bool * list Z) : Prop :=
  length (snd st) = size /\
  (fst st = true -> snd st = lincomb k size c data /\ exists i, (i < k)%nat /\ c i <> 0) /\
  (fst st = false -> snd st = dptr /\ forall i, (i < k)%nat -> c i = 0).

Definition add_coef (c : nat -> Z) (i : nat) (v : Z) (x : nat) : Z :=
  if decide (x = i) then v else c x.

Lemma dot_state_ext c c' st :
  (forall i, (i < k)%nat -> c i = c' i) -> dot_state c st -> dot_state c' st.
Proof.
  intros He (H1 & H2 & H3). split; [done|]. split.
  - intros Hi. destruct (H2 Hi) as [-> (i & Hik & Hne)]. split; [by apply lincomb_ext|].
    exists i. by rewrite <- He.
  - intros Hi. destruct (H3 Hi) as [Hd Hc]. split; [done|]. intros. by rewrite <- He, Hc.
Qed.

(** Adding one coefficient to the running combination. *)
Lemma dot_state_add c i v init d d' :
  (i < k)%nat -> c i = 0 -> is_byte v -> v <> 0 ->
  dot_state c (init, d) -> length d' = size ->
  (forall p, (p < size)%nat -> d' !!! p =
     if init : bool then Z.lxor (d !!! p) (v ⊗ ((data !!! i) !!! p)) else v ⊗ ((data !!! i) !!! p)) ->
  dot_state (add_coef c i v) (true, d').
Proof.
  intros Hi Hci Hv Hv0 (H1 & H2 & H3) Hl Hd'. cbn [fst snd] in *.
  split; [done|]. split; [|done]. intros _.
  split; [|exists i; split; [done|]; unfold add_coef; by rewrite decide_True].
  apply list_eq_total; rewrite ?length_lincomb; [done|]. cbn [snd]. intros p Hp. rewrite Hl in Hp.
  rewrite Hd', lincomb_lookup by done.
  rewrite (xsum_ext k (fun x => add_coef c i v x ⊗ ((data !!! x) !!! p))
    (fun x => Z.lxor (c x ⊗ ((data !!! x) !!! p)) (if decide (x = i) then v ⊗ ((data !!! i) !!! p) else 0))).
  - rewrite xsum_lxor. rewrite (xsum_single k (fun x => if decide (x = i) then _ else _) i Hi)
      by (intros; by rewrite decide_False). rewrite decide_True by done.
    destruct init.
    + destruct H2 as [-> _]; [done|]. by rewrite lincomb_lookup.
    + destruct H3 as [_ H3]; [done|]. rewrite xsum_zero; [by rewrite Z.lxor_0_l|].
      intros x Hx. by rewrite H3.
  - intros x Hx. unfold add_coef. case_decide as E; [subst x; by rewrite Hci|by rewrite Z.lxor_0_r].
Qed.

Definition ones_upto (n x : nat) : Z :=
  if decide ((x < n)%nat /\ row !!! x = 1) then 1 else 0.

Lemma ones_upto_S n x :
  ones_upto (S n) x = if row !!! n =? 1 then add_coef (ones_upto n) n 1 x else ones_upto n x.
Proof.
  unfold add_coef, ones_upto. destruct (decide (x = n)) as [->|Hne].
  - destruct (Z.eqb_spec (row !!! n) 1) as [E|E].
    + by rewrite decide_True by (split; [lia|done]).
    + by rewrite !decide_False by tauto.
  - assert (Hd : (x < S n)%nat /\ row !!! x = 1 <-> (x < n)%nat /\ row !!! x = 1)
      by (split; intros [? ?]; (split; [lia|done])).
    rewrite (decide_ext _ _ _ _ Hd). by destruct (row !!! n =? 1).
Qed.

Lemma ones_upto_byte n x : is_byte (ones_upto n x).
Proof. unfold ones_upto. case_decide; auto with cord. Qed.

Lemma dotprod_ones_spec : dot_state (ones_upto k) (dotprod_ones k row data (false, dptr)).
Proof.
  unfold dotprod_ones. apply (loop_ind (fun n => dot_state (ones_upto n))).
  - split_and!; cbn; [done|done|]. intros _. split; [done|]. intros i _.
    unfold ones_upto. by rewrite decide_False by lia.
  - intros n [init d] Hn Hst.
    eapply dot_state_ext; [intros; symmetry; apply ones_upto_S|].
    destruct (Z.eqb_spec (row !!! n) 1) as [E|E]; [|done].
    destruct (Hdata n Hn) as [Hl Hb].
    assert (H0 : ones_upto n n = 0) by (unfold ones_upto; by rewrite decide_False by lia).
    destruct init; cbn [negb].
    + eapply (dot_state_add (ones_upto n) n 1 true d); auto using ones_upto_byte with cord.
      * destruct Hst as [Hld _]. cbn [snd] in Hld. rewrite galois_region_xor_spec by congruence.
        rewrite length_zip_with. cbn in *. lia.
      * intros p Hp. destruct Hst as [Hld _]. cbn [snd] in Hld.
        rewrite galois_region_xor_spec by congruence.
        rewrite zip_with_lookup_total by (cbn in *; lia). by rewrite gmul_1_l by auto with cord.
    + eapply (dot_state_add (ones_upto n) n 1 false d); auto using ones_upto_byte with cord.
      intros p Hp. by rewrite gmul_1_l by auto with cord.
Qed.

(** After [n] steps of the second pass. *)
Definition coefs_upto (n x : nat) : Z := if decide (x < n)%nat then row !!! x else ones_upto k x.

Lemma coefs_upto_byte n x : is_byte (coefs_upto n x).
Proof. unfold coefs_upto. case_decide; auto using ones_upto_byte with cord. Qed.

Lemma coefs_upto_S n x :
  (n < k)%nat -> (x < k)%nat ->
  coefs_upto (S n) x =
    if negb (row !!! n =? 0) && negb (row !!! n =? 1) then add_coef (coefs_upto n) n (row !!! n) x
    else coefs_upto n x.
Proof.
  intros Hn Hx. unfold coefs_upto, add_coef, ones_upto.
  destruct (decide (x = n)) as [->|Hne].
  - rewrite decide_True by lia. rewrite decide_False by lia.
    destruct (Z.eqb_spec (row !!! n) 0) as [E|E], (Z.eqb_spec (row !!! n) 1) as [E1|E1]; simpl; try done.
    + lia.
    + by rewrite decide_False by (rewrite E; lia).
    + by rewrite decide_True by done.
  - assert (Hd : (x < S n <-> x < n)%nat) by lia.
    rewrite (decide_ext _ _ _ _ Hd). by destruct (negb _ && negb _).
Qed.

Lemma dotprod_spec :
  jerasure_matrix_dotprod k row data dptr =
    if forallb (fun i => row !!! i =? 0) (seq 0 k) then dptr
    else lincomb k size (fun i => row !!! i) data.
Proof.
  assert (H : dot_state (coefs_upto k) (dotprod_factors k row data (dotprod_ones k row data (false, dptr)))).
  { unfold dotprod_factors. apply (loop_ind (fun n => dot_state (coefs_upto n))).
    - eapply dot_state_ext; [|apply dotprod_ones_spec]. intros i _.
      unfold coefs_upto. by rewrite decide_False by lia.
    - intros n [init d] Hn Hst.
      eapply dot_state_ext; [intros i Hi; symmetry; by apply coefs_upto_S|].
      destruct (Z.eqb_spec (row !!! n) 0) as [E|E], (Z.eqb_spec (row !!! n) 1) as [E1|E1]; simpl; try done.
      destruct (Hdata n Hn) as [Hl Hb]. destruct Hst as [Hld Hst']. cbn [snd] in Hld.
      assert (Hreg : galois_w08_region_multiply (data !!! n) (row !!! n) d init =
        zip_with (fun s d => if init then Z.lxor d (row !!! n ⊗ s) else row !!! n ⊗ s) (data !!! n) d).
      { unfold galois_w08_region_multiply. rewrite gf8_region by (auto with cord; congruence).
        apply list_eq_total; rewrite !length_zip_with; [done|]. intros p Hp.
        rewrite !zip_with_lookup_total by lia. by rewrite !gmul_gf by auto with cord. }
      rewrite Hreg.
      eapply (dot_state_add (coefs_upto n) n (row !!! n) init d); auto using coefs_upto_byte with cord.
      + unfold coefs_upto, ones_upto. rewrite decide_False by lia. by rewrite decide_False by tauto.
      + by split.
      + rewrite length_zip_with. cbn in *. lia.
      + intros p Hp. by rewrite zip_with_lookup_total by (cbn in *; lia). }
  unfold jerasure_matrix_dotprod. destruct (dotprod_factors _ _ _ _) as [init d].
  destruct H as (H1 & H2 & H3). cbn [fst snd] in *.
  assert (Hc : forall i, (i < k)%nat -> coefs_upto k i = row !!! i)
    by (intros; unfold coefs_upto; by rewrite decide_True).
  destruct init.
  - destruct (H2 eq_refl) as [-> (i & Hi & Hne)].
    destruct (forallb _ _) eqn:Hall; [|by apply lincomb_ext].
    exfalso. apply Hne. rewrite Hc by done. rewrite forallb_forall in Hall.
    apply Z.eqb_eq, Hall, in_seq. lia.
  - destruct H3 as [-> H3]; [done|]. replace (forallb _ _) with true; [done|].
    symmetry. apply forallb_forall. intros i Hi%in_seq. apply Z.eqb_eq.
    rewrite <- Hc by lia. apply H3. lia.
Qed.
End dotprod.
End encode.

Section encode_matrix.
Context `{GF : GFComplete} {GL : GF8Laws}.

Lemma lookup_total_drop_Z (l : list Z) n i : drop n l !!! i = l !!! (n + i)%nat.
Proof. by rewrite !list_lookup_total_alt, lookup_drop. Qed.

(** Every row of [jerasure_matrix_encode] is computed on its own. *)
Lemma matrix_encode_row k m matrix data coding i :
  (i < m <= length coding)%nat ->
  jerasure_matrix_encode k m matrix data coding !!! i =
    jerasure_matrix_dotprod k (drop (i * k) matrix) data (coding !!! i) /\
  length (jerasure_matrix_encode k m matrix data coding) = length coding.
Proof.
  intros Hi. unfold jerasure_matrix_encode.
  pose (P := fun n c => length c = length coding /\ forall x, (x < length coding)%nat -> c !!! x =
    if decide (x < n)%nat then jerasure_matrix_dotprod k (drop (x * k) matrix) data (coding !!! x)
    else coding !!! x).
  assert (HP : P m (loop m (fun coding i =>
    <[i := jerasure_matrix_dotprod k (drop (i * k) matrix) data (coding !!! i)]> coding) coding)).
  { apply (loop_ind P).
    - split; [done|]. intros. by rewrite decide_False by lia.
    - intros n c Hn [Hl Hc]. split; [by rewrite length_insert|]. intros x Hx.
      rewrite list_lookup_total_insert. destruct (decide (x = n)) as [->|Hne].
      + rewrite decide_True by lia. rewrite Hc, decide_False, decide_True by lia. done.
      + rewrite decide_False by (intros [? _]; congruence). rewrite Hc by done.
        repeat case_decide; (done || lia). }
  destruct HP as [H1 H2]. split; [|done]. rewrite H2, decide_True by lia. done.
Qed.

(** With a non-zero row, coding region [i] becomes the linear combination
    whose coefficients are row [i] of the matrix. *)
Lemma matrix_encode_spec k m size matrix data coding i :
  (i < m <= length coding)%nat -> length matrix = (m * k)%nat -> Forall is_byte matrix ->
  (forall x, (x < k)%nat -> region size (data !!! x)) ->
  length (coding !!! i) = size ->
  (exists x, (x < k)%nat /\ matrix !!! (i * k + x)%nat <> 0) ->
  jerasure_matrix_encode k m matrix data coding !!! i =
    lincomb k size (fun x => matrix !!! (i * k + x)%nat) data.
Proof.
  intros Hi Hl Hb Hd Hc (x & Hx & Hne).
  destruct (matrix_encode_row k m matrix data coding i Hi) as [-> _].
  rewrite (dotprod_spec k size) by (try done; by apply Forall_drop).
  destruct (forallb _ _) eqn:Hall.
  - exfalso. apply Hne. rewrite forallb_forall in Hall.
    rewrite <- lookup_total_drop_Z. apply Z.eqb_eq, Hall, in_seq. lia.
  - apply lincomb_ext. intros. apply lookup_total_drop_Z.
Qed.

(** ** The matrix product *)

Lemma accumulate n (g : nat -> Z) (p : list Z) q :
  (q < length p)%nat ->
  loop n (fun p k => <[q := Z.lxor (p !!! q) (g k)]> p) p = <[q := Z.lxor (p !!! q) (xsum n g)]> p.
Proof.
  intros Hq. induction n as [|n IH].
  - unfold loop; simpl. rewrite Z.lxor_0_r.
    by rewrite list_insert_id by (by apply list_lookup_lookup_total_lt).
  - rewrite loop_S, IH. rewrite list_lookup_total_insert_eq, list_insert_insert_eq by done.
    simpl. by rewrite Z.lxor_assoc.
Qed.

(** Entry [(i, j)] of [m1 * m2]. *)
Definition product_entry (m1 m2 : list Z) (c1 r2 c2 i j : nat) : Z :=
  xsum r2 (fun k => (m1 !!! (i*c1+k)%nat) ⊗ (m2 !!! (k*c2+j)%nat)).

Lemma lookup_total_zeros n q : (q < n)%nat -> zeros n !!! q = 0.
Proof. intros. apply list_lookup_total_correct. by apply lookup_replicate_2. Qed.

Lemma matrix_multiply_spec m1 m2 r1 c1 r2 c2 :
  let p := jerasure_matrix_multiply m1 m2 r1 c1 r2 c2 8 in
  length p = (r1 * c2)%nat /\
  forall i j, (i < r1)%nat -> (j < c2)%nat ->
    p !!! (i*c2+j)%nat = product_entry m1 m2 c1 r2 c2 i j.
Proof.
  cbn zeta. unfold jerasure_matrix_multiply.
  pose (P := fun x p => length p = (r1 * c2)%nat /\ forall i j, (i < r1)%nat -> (j < c2)%nat ->
    p !!! (i*c2+j)%nat = if decide (i*c2+j < x)%nat then product_entry m1 m2 c1 r2 c2 i j else 0).
  match goal with |- length ?x = _ /\ _ => assert (HP : P (r1 * c2)%nat x) end.
  { apply (loop_ind (fun i => P (i * c2)%nat)).
    - split; [apply length_replicate|]. intros i j Hi Hj. rewrite decide_False by lia.
      apply lookup_total_zeros. nia.
    - intros i b Hi HPi. replace (S i * c2)%nat with (i * c2 + c2)%nat by lia.
      apply (loop_ind (fun j => P (i * c2 + j)%nat)); [by rewrite Nat.add_0_r|].
      intros j p Hj [Hl Hp].
      rewrite (accumulate r2 (fun k => (m1 !!! (i*c1+k)%nat) ⊗ (m2 !!! (k*c2+j)%nat)) p) by nia.
      split; [by rewrite length_insert|]. intros i' j' Hi' Hj'.
      rewrite lookup_total_insert by nia.
      rewrite !Hp by done. rewrite (decide_False (P := (i * c2 + j < i * c2 + j)%nat)) by lia.
      rewrite Z.lxor_0_l. fold (product_entry m1 m2 c1 r2 c2 i j).
      rewrite (Nat.mul_comm i'), (Nat.mul_comm i).
      rewrite (decide_ext _ _ _ _ (flat_inj c2 i' j' i j Hj' Hj)).
      destruct (decide (i' = i /\ j' = j)) as [[-> ->]|Hne]; [by rewrite decide_True by lia|].
      assert (c2 * i' + j' <> c2 * i + j)%nat by (rewrite flat_inj by done; tauto).
      repeat case_decide; (done || lia). }
  destruct HP as [H1 H2]. split; [done|]. intros i j Hi Hj.
  rewrite H2 by done. rewrite decide_True by nia. done.
Qed.

Lemma matrix_multiply_bytes m1 m2 r1 c1 r2 c2 :
  Forall is_byte m1 -> Forall is_byte m2 -> Forall is_byte (jerasure_matrix_multiply m1 m2 r1 c1 r2 c2 8).
Proof.
  intros H1 H2. unfold jerasure_matrix_multiply.
  apply (loop_ind (fun _ => Forall is_byte)).
  - apply Forall_replicate. auto with cord.
  - intros i b _ Hb. apply (loop_ind (fun _ => Forall is_byte)); [done|]. intros j b' _ Hb'.
    apply (loop_ind (fun _ => Forall is_byte)); [done|]. intros k p _ Hp. auto with cord.
Qed.
End encode_matrix.

(** ** [jerasure_matrix_encode] *)

(** C20: encoding with a matrix without null rows replaces every coding region
    by the linear combination of the data regions whose coefficients are its
    row of the matrix, whatever the regions held before: the two passes over
    the coefficients (ones, then the others), the copy of the first region and
    the xor and region multiplications of the rest compute exactly that. *)
Theorem jerasure_matrix_encode_correct `{GF : GFComplete} `{GL : !GF8Laws} k m size matrix data coding :
  length matrix = (m * k)%nat -> Forall is_byte matrix ->
  (forall x, (x < k)%nat -> region size (data !!! x)) ->
  length coding = m -> (forall i, (i < m)%nat -> length (coding !!! i) = size) ->
  (forall i, (i < m)%nat -> exists x, (x < k)%nat /\ matrix !!! (i * k + x)%nat <> 0) ->
  jerasure_matrix_encode k m matrix data coding =
    (fun i => lincomb k size (fun x => matrix !!! (i * k + x)%nat) data) <$> seq 0 m.
Proof.
  intros Hl Hb Hd Hm Hc Hnz. destruct (decide (m = 0)%nat) as [->|Hpos].
  - destruct coding; done.
  - assert (Hlen : length (jerasure_matrix_encode k m matrix data coding) = m).
    { destruct (matrix_encode_row k m matrix data coding 0) as [_ ->]; [lia|done]. }
    apply list_eq_same_length with m; [by rewrite length_fmap, length_seq|done|].
    intros i x y Hi H1 H2. rewrite list_lookup_fmap, lookup_seq_lt in H2 by lia.
    injection H2 as <-. apply list_lookup_total_correct in H1. subst x.
    apply (matrix_encode_spec k m size); auto. lia.
Qed.

Lemma jerasure_matrix_encode_correct_witness :
  jerasure_matrix_encode 2 2 [1; 1; 1; 217] [[5; 7; 255]; [9; 1; 0]] [[0; 0; 0]; [3; 3; 3]] =
    (fun i => lincomb 2 3 (fun x => [1; 1; 1; 217] !!! (i * 2 + x)%nat) [[5; 7; 255]; [9; 1; 0]]) <$> seq 0 2.
Proof.
  apply (jerasure_matrix_encode_correct 2 2 3 [1; 1; 1; 217] [[5; 7; 255]; [9; 1; 0]] [[0; 0; 0]; [3; 3; 3]]);
    try reflexivity; try decided.
  - intros [|[|x]] Hx; [split; [reflexivity|decided]..|lia].
  - intros [|[|x]] Hx; [reflexivity..|lia].
  - intros i Hi. exists 0%nat. split; [lia|]. by destruct i as [|[|i]]; [| |lia].
Defined.
