(* ===== verification/RSUtil.v ===== *)
(** * Decoding coefficients (RSUtil.cc)

    An [RSUtil] object holds the encoding matrix of a stripe and, for every
    block, the coefficients that rebuild it from [_ecK] others.  Blocks are
    numbered as in the repair path: the [_ecM] parity blocks first, then the
    [_ecK] data blocks. *)
From S2P Require Import Prelude Command Galois GF256 Jerasure Gauss Vandermonde ReedSol Encode.

Record RSUtil := mkRSUtil {
  _ecK : nat;
  _ecN : nat;
  _encMat : list Z;
  _coefficient : list (list Z)
}.

Section rsutil.
Context `{GF : GFComplete}.

(** [completeEncMat]: the encoding matrix followed by the identity. *)
Definition complete_enc_mat (ecK ecN : nat) (encMat : list Z) : list Z :=
  let ecM := (ecN - ecK)%nat in
  let completeEncMat := blit (zeros (ecN * ecK)) 0 (take (ecK * ecM) encMat) in
  loop ecK (fun m i => <[((ecM + i) * ecK + i)%nat := 1]> m) completeEncMat.

(** [memcpy(eMat + slot * _ecK, completeEncMat + r * _ecK, _ecK ints)] *)
Definition copy_row (ecK : nat) (completeEncMat : list Z) (eMat : list Z) (slot r : nat) : list Z :=
  blit eMat (slot * ecK) (take ecK (drop (r * ecK) completeEncMat)).

(** The body of the constructor's loop over the blocks; [eMat] keeps what the
    previous iteration left in it. *)
Definition coefficient_row (ecK : nat) (completeEncMat : list Z) (i : nat) (eMat : list Z) :
    list Z * list Z :=
  let eMat := loop (Nat.min i ecK) (fun e j => copy_row ecK completeEncMat e j j) eMat in
  let eMat := foldl (fun e j => copy_row ecK completeEncMat e (j - 1) j) eMat
                (seq (i + 1) (ecK - i)) in
  let '(eMat, dMat) := snd (jerasure_invert_matrix eMat ecK 8) in
  (eMat, jerasure_matrix_multiply (drop (i * ecK) completeEncMat) dMat 1 ecK ecK ecK 8).

(** [RSUtil::RSUtil] *)
Definition new_RSUtil (ecK ecN : nat) (encMat : list Z) : RSUtil :=
  let completeEncMat := complete_enc_mat ecK ecN encMat in
  let '(_, coefs) :=
    loop ecN (fun '(eMat, coefs) i =>
      let '(eMat, c) := coefficient_row ecK completeEncMat i eMat in
      (eMat, coefs ++ [c])) (zeros (ecK * ecK), []) in
  mkRSUtil ecK ecN encMat coefs.

(** [RSUtil::getCoefficient] *)
Definition getCoefficient (u : RSUtil) (idx : nat) : option (list Z) := _coefficient u !! idx.

(** The loop that counts the available blocks; [None] is its early return. *)
Fixpoint count_status (idx i : nat) (status : list Z) (cnt : nat) : option nat :=
  match status with
  | [] => Some cnt
  | s :: rest =>
      if negb (s =? 0) && bool_decide (idx = i) then None
      else count_status idx (S i) rest (if negb (s =? 0) then S cnt else cnt)
  end.

(** "select rows": the rows of the available blocks, in order. *)
Definition select_rows (u : RSUtil) (status : list Z) (completeEncMat : list Z) : nat * list Z :=
  loop (_ecN u) (fun '(cnt, eMat) j =>
    if negb (status !!! j =? 0) then (S cnt, copy_row (_ecK u) completeEncMat eMat cnt j)
    else (cnt, eMat)) (0%nat, zeros (_ecK u * _ecK u)).

(** [RSUtil::getCoefficient_multi]; [status] has [_ecN] entries and [None]
    is [nullptr]. *)
Definition getCoefficient_multi (u : RSUtil) (idx : nat) (status : list Z) : option (list Z) :=
  cnt ← count_status idx 0 (take (_ecN u) status) 0;
  if negb (bool_decide (cnt = _ecK u)) then None
  else
    let completeEncMat := complete_enc_mat (_ecK u) (_ecN u) (_encMat u) in
    let '(_, eMat) := select_rows u status completeEncMat in
    let '(_, dMat) := snd (jerasure_invert_matrix eMat (_ecK u) 8) in
    Some (jerasure_matrix_multiply (drop (idx * _ecK u) completeEncMat) dMat 1
            (_ecK u) (_ecK u) (_ecK u) 8).
End rsutil.

(** [RSUtil::multiply] on a block: every byte times [mulby]. *)
Definition multiply `{GFComplete} (blk : list Z) (mulby : Z) : list Z :=
  galois_w08_region_multiply blk mulby blk false.

(** ** What the coefficients rebuild *)

(** Block [r] of the stripe with the data blocks [data]: row [r] of the
    complete encoding matrix applied to them. *)
Definition stripe_block `{GFComplete} (ecK size : nat) (completeEncMat : list Z)
    (data : list (list Z)) (r : nat) : list Z :=
  lincomb ecK size (fun c => completeEncMat !!! (r * ecK + c)%nat) data.

Section rsutil_facts.
Context `{GF : GFComplete} {GL : GF8Laws}.

Lemma lookup_total_blit (dst src : list Z) off p :
  (off + length src <= length dst)%nat ->
  blit dst off src !!! p =
    if decide (off <= p < off + length src)%nat then src !!! (p - off)%nat else dst !!! p.
Proof.
  intros Hb. rewrite !list_lookup_total_alt.
  rewrite (memcpy_lookup dst src _ off p (memcpy_blit dst src off Hb)). by case_decide.
Qed.

Lemma blit_bytes dst src off : Forall is_byte dst -> Forall is_byte src -> Forall is_byte (blit dst off src).
Proof.
  intros. unfold blit. rewrite !Forall_app. auto using Forall_take, Forall_drop.
Qed.

Section matrix.
Context (ecK ecN : nat) (encMat : list Z).
Context (HKN : (ecK <= ecN)%nat).
Context (Hlen : length encMat = (ecK * (ecN - ecK))%nat) (Hbytes : Forall is_byte encMat).
Abbreviation C := (complete_enc_mat ecK ecN encMat).

Lemma length_complete : length C = (ecN * ecK)%nat /\ Forall is_byte C.
Proof.
  unfold complete_enc_mat. apply (loop_ind (fun _ m => length m = (ecN * ecK)%nat /\ Forall is_byte m)).
  - rewrite take_ge by lia. split.
    + unfold zeros. rewrite length_blit; rewrite length_replicate; [done|]. nia.
    + unfold zeros. apply blit_bytes; [apply Forall_replicate; auto with cord|done].
  - intros k b Hk [H1 H2]. rewrite length_insert. auto with cord.
Qed.

Lemma complete_row_byte r c : is_byte (C !!! (r * ecK + c)%nat).
Proof. apply lookup_total_byte. apply length_complete. Qed.

(** A loop of [copy_row]s that fills all the slots selects rows. *)
Definition rows_copied (e : list Z) (sel : nat -> nat) (k : nat) : Prop :=
  length e = (ecK * ecK)%nat /\ Forall is_byte e /\
  forall j l, (j < k)%nat -> (l < ecK)%nat -> e !!! (ecK * j + l)%nat = C !!! (sel j * ecK + l)%nat.

Lemma rows_copied_ext e sel sel' k :
  (forall j, (j < k)%nat -> sel j = sel' j) -> rows_copied e sel k -> rows_copied e sel' k.
Proof. intros He (H1 & H2 & H3). split_and!; try done. intros. rewrite H3, He; done. Qed.

Lemma copy_row_spec e sel k r :
  (k < ecK)%nat -> (r < ecN)%nat -> rows_copied e sel k ->
  rows_copied (copy_row ecK C e k r) (fun j => if decide (j = k) then r else sel j) (S k).
Proof.
  intros Hk Hr (H1 & H2 & H3). destruct length_complete as [HC HCb].
  assert (Hlr : length (take ecK (drop (r * ecK) C)) = ecK).
  { rewrite length_take, length_drop, HC. nia. }
  assert (Hfit : (k * ecK + length (take ecK (drop (r * ecK) C)) <= length e)%nat) by (rewrite Hlr, H1; nia).
  unfold copy_row. split_and!.
  - by rewrite length_blit.
  - apply blit_bytes; [done|]. by apply Forall_take, Forall_drop.
  - intros j l Hj Hl. rewrite lookup_total_blit, Hlr by done.
    rewrite (Nat.mul_comm k). destruct (decide (j = k)) as [->|Hne].
    + rewrite decide_True by lia. rewrite !list_lookup_total_alt.
      rewrite lookup_take_lt, lookup_drop by lia. do 2 f_equal. lia.
    + rewrite decide_False by (rewrite flat_row_in by done; done). apply H3; lia.
Qed.

(** The decoding identity: coefficients obtained by multiplying a row of
    the matrix with the inverse of the selected rows rebuild that row's
    block from the selected blocks. *)
Lemma decode_rows eMat sel idx mat' dMat data size :
  rows_copied eMat sel ecK -> (idx < ecN)%nat ->
  jerasure_invert_matrix eMat ecK 8 = (0, (mat', dMat)) ->
  (forall i, (i < ecK)%nat -> region size (data !!! i)) ->
  let coef := jerasure_matrix_multiply (drop (idx * ecK) C) dMat 1 ecK ecK ecK 8 in
  forall p, (p < size)%nat ->
    xsum ecK (fun j => coef !!! j ⊗ (stripe_block ecK size C data (sel j) !!! p)) =
    stripe_block ecK size C data idx !!! p.
Proof.
  intros (H1 & H2 & H3) Hidx Hinv Hd coef p Hp.
  destruct (invert_spec ecK eMat mat' dMat H1 H2 Hinv) as (Hl & Hb & Hid).
  assert (Hc : forall j, (j < ecK)%nat ->
    coef !!! j = xsum ecK (fun m => C !!! (idx * ecK + m)%nat ⊗ at_ ecK dMat m j)).
  { intros j Hj. destruct (matrix_multiply_spec (drop (idx * ecK) C) dMat 1 ecK ecK ecK) as [_ Hm].
    specialize (Hm 0%nat j ltac:(lia) Hj). change (0 * ecK + j)%nat with j in Hm. unfold coef. rewrite Hm.
    unfold product_entry, at_. apply xsum_ext. intros m _.
    by rewrite lookup_total_drop_Z, (Nat.mul_comm m). }
  assert (Hdb : forall l, (l < ecK)%nat -> is_byte ((data !!! l) !!! p)).
  { intros l Hll. destruct (Hd l Hll). auto with cord. }
  unfold stripe_block. rewrite lincomb_lookup by done.
  transitivity (xsum ecK (fun j => xsum ecK (fun m => xsum ecK (fun l =>
    C !!! (idx * ecK + m)%nat ⊗ ((at_ ecK dMat m j ⊗ at_ ecK eMat j l) ⊗ ((data !!! l) !!! p)))))).
  { apply xsum_ext. intros j Hj. rewrite lincomb_lookup, Hc by done.
    rewrite gmul_xsum_r; [| |intros; auto using complete_row_byte with cord].
    2:{ apply xsum_byte. auto using complete_row_byte with cord. }
    apply xsum_ext. intros m Hm.
    rewrite gmul_xsum_l by auto using complete_row_byte with cord.
    apply xsum_ext. intros l Hll. unfold at_ at 3. rewrite H3 by done.
    rewrite !gmul_assoc; auto using complete_row_byte with cord. }
  rewrite xsum_swap.
  transitivity (xsum ecK (fun m => xsum ecK (fun l =>
    C !!! (idx * ecK + m)%nat ⊗ (ident m l ⊗ ((data !!! l) !!! p))))).
  { apply xsum_ext. intros m Hm. rewrite xsum_swap. apply xsum_ext. intros l Hll.
    rewrite <- Hid by done. unfold mprod.
    rewrite gmul_xsum_r, gmul_xsum_l; auto using complete_row_byte with cord. }
  apply xsum_ext. intros m Hm. rewrite (xsum_single ecK _ m Hm).
  - unfold ident. by rewrite decide_True, gmul_1_l by auto.
  - intros l Hll Hne. unfold ident. rewrite decide_False by done. by rewrite gmul_0_r.
Qed.

Lemma length_coef idx dMat : length (jerasure_matrix_multiply (drop (idx * ecK) C) dMat 1 ecK ecK ecK 8) = ecK.
Proof. destruct (matrix_multiply_spec (drop (idx * ecK) C) dMat 1 ecK ecK ecK) as [-> _]. lia. Qed.

(** ** The constructor *)

(** The blocks the constructor uses for block [i]: the first [_ecK] others. *)
Definition others (i j : nat) : nat := if decide (j < i)%nat then j else S j.

Lemma eMat_constructor i e :
  (0 < ecK < ecN)%nat -> length e = (ecK * ecK)%nat -> Forall is_byte e ->
  rows_copied (foldl (fun e j => copy_row ecK C e (j - 1) j)
    (loop (Nat.min i ecK) (fun e j => copy_row ecK C e j j) e) (seq (i + 1) (ecK - i))) (others i) ecK.
Proof.
  intros HK Hl Hb.
  assert (H1 : rows_copied (loop (Nat.min i ecK) (fun e j => copy_row ecK C e j j) e) (fun j => j) (Nat.min i ecK)).
  { apply (loop_ind (fun k e => rows_copied e (fun j => j) k)).
    - split_and!; try done. intros; lia.
    - intros k b Hk Hc. eapply rows_copied_ext; [|apply copy_row_spec; [lia|lia|exact Hc]].
      intros j _. simpl. by case_decide. }
  destruct (decide (ecK <= i)%nat).
  - replace (ecK - i)%nat with 0%nat by lia. rewrite Nat.min_r in H1 |- * by lia. simpl.
    eapply rows_copied_ext; [|exact H1]. intros j Hj. unfold others. by rewrite decide_True by lia.
  - rewrite Nat.min_l in H1 |- * by lia.
    pose proof (foldl_seq_ind (fun k e => rows_copied e (others i) (k - 1))
      (fun e j => copy_row ecK C e (j - 1) j) (i + 1) (ecK - i)
      (loop i (fun e j => copy_row ecK C e j j) e)) as H.
    cbv beta in H. replace (i + 1 + (ecK - i) - 1)%nat with ecK in H by lia. apply H.
    + replace (i + 1 - 1)%nat with i by lia. eapply rows_copied_ext; [|exact H1].
      intros j Hj. unfold others. by rewrite decide_True by lia.
    + intros k x Hk Hc. replace (S k - 1)%nat with (S (k - 1)) by lia.
      eapply rows_copied_ext; [|apply copy_row_spec; [lia|lia|exact Hc]].
      intros j Hj. simpl. case_decide; [|done]. subst. unfold others. rewrite decide_False by lia. lia.
Qed.

Lemma coefficient_row_spec i e :
  (0 < ecK < ecN)%nat -> length e = (ecK * ecK)%nat -> Forall is_byte e ->
  exists eMat, rows_copied eMat (others i) ecK /\
    snd (coefficient_row ecK C i e) =
      jerasure_matrix_multiply (drop (i * ecK) C) (snd (snd (jerasure_invert_matrix eMat ecK 8))) 1 ecK ecK ecK 8 /\
    fst (coefficient_row ecK C i e) = fst (snd (jerasure_invert_matrix eMat ecK 8)).
Proof.
  intros HK Hl Hb. eexists. split; [by apply (eMat_constructor i e)|].
  unfold coefficient_row. by destruct (snd (jerasure_invert_matrix _ ecK 8)).
Qed.

(** ** The selection of [getCoefficient_multi] *)

Definition alive (status : list Z) (j : nat) : bool := negb (status !!! j =? 0).
Definition survivors (status : list Z) : list nat := List.filter (alive status) (seq 0 ecN).

Lemma filter_seq_S (f : nat -> bool) n :
  List.filter f (seq 0 (S n)) = List.filter f (seq 0 n) ++ (if f n then [n] else []).
Proof. rewrite seq_S, List.filter_app. simpl. by destruct (f n). Qed.

Lemma filter_seq_le (f : nat -> bool) n m : (n <= m)%nat ->
  (length (List.filter f (seq 0 n)) <= length (List.filter f (seq 0 m)))%nat.
Proof.
  induction 1 as [|m Hm IH]; [done|]. rewrite filter_seq_S, length_app. lia.
Qed.

Lemma select_rows_spec u status :
  _ecK u = ecK -> _ecN u = ecN -> length (survivors status) = ecK ->
  let '(cnt, eMat) := select_rows u status C in
  cnt = ecK /\ rows_copied eMat (fun j => survivors status !!! j) ecK.
Proof.
  intros Hk Hn Hs. unfold select_rows. rewrite Hk, Hn.
  pose (P := fun n (ce : nat * list Z) => fst ce = length (List.filter (alive status) (seq 0 n)) /\
    rows_copied (snd ce) (fun j => List.filter (alive status) (seq 0 n) !!! j) (fst ce)).
  assert (HP : P ecN (loop ecN (fun '(cnt, eMat) j =>
    if negb (status !!! j =? 0) then (S cnt, copy_row ecK C eMat cnt j) else (cnt, eMat))
    (0%nat, zeros (ecK * ecK)))).
  { apply (loop_ind P).
    - split; [done|]. unfold zeros. split_and!; [apply length_replicate| |intros; cbn in *; lia].
      apply Forall_replicate. auto with cord.
    - intros n [cnt e] Hlt [H1 H2]. cbn [fst snd] in *. unfold P.
      rewrite filter_seq_S. unfold alive at 2 4. destruct (negb _) eqn:E; cbn [fst snd].
      + assert (Hcnt : (cnt < ecK)%nat).
        { pose proof (filter_seq_le (alive status) (S n) ecN Hlt) as Hle. rewrite filter_seq_S in Hle.
          unfold alive at 2 in Hle. rewrite E, length_app in Hle. simpl in Hle.
          fold (survivors status) in Hle. lia. }
        split; [rewrite length_app; simpl; lia|].
        eapply rows_copied_ext; [|apply copy_row_spec; [done|lia|exact H2]].
        intros j Hj. simpl. case_decide as Ej.
        * subst j. rewrite lookup_total_app_r by lia. rewrite H1, Nat.sub_diag. done.
        * rewrite lookup_total_app_l by lia. done.
      + by rewrite app_nil_r. }
  destruct (loop _ _ _) as [cnt e]. destruct HP as [H1 H2]. cbn [fst snd] in *.
  unfold survivors in *. rewrite H1 in *. rewrite Hs in *. done.
Qed.

Lemma count_status_alive idx n status cnt c :
  count_status idx n status cnt = Some c ->
  c = (cnt + length (List.filter (fun s => negb (s =? 0)%Z) status))%nat /\
  forall j, (j < length status)%nat -> (n + j)%nat = idx -> status !!! j = 0.
Proof.
  clear HKN Hlen Hbytes. revert n cnt. induction status as [|s rest IH]; intros n cnt; simpl.
  - intros [= ->]. split; [lia|]. intros; lia.
  - destruct (Z.eqb_spec s 0) as [Es|Es]; simpl.
    + intros H. destruct (IH _ _ H) as [H1 H2]. split; [done|].
      intros [|j] Hj Hi; [done|]. simpl. apply H2; lia.
    + case_bool_decide as Ei; [done|]. intros H. destruct (IH _ _ H) as [H1 H2].
      split; [simpl; lia|]. intros [|j] Hj Hi; [lia|]. simpl. apply H2; lia.
Qed.

Lemma filter_take_seq (f : Z -> bool) (l : list Z) n : (n <= length l)%nat ->
  length (List.filter f (take n l)) = length (List.filter (fun j => f (l !!! j)) (seq 0 n)).
Proof.
  clear HKN Hlen Hbytes. induction n as [|n IH]; intros Hn; [done|].
  rewrite (take_S_r l n (l !!! n)) by (apply list_lookup_lookup_total_lt; lia).
  rewrite List.filter_app, filter_seq_S, !length_app, IH by lia. f_equal. simpl.
  by destruct (f (l !!! n)).
Qed.

(** What a non-null answer of [getCoefficient_multi] says. *)
Lemma multi_some u idx status coef :
  _ecK u = ecK -> _ecN u = ecN -> _encMat u = encMat -> length status = ecN -> (idx < ecN)%nat ->
  getCoefficient_multi u idx status = Some coef ->
  length (survivors status) = ecK /\ status !!! idx = 0 /\
  exists eMat, rows_copied eMat (fun j => survivors status !!! j) ecK /\
    snd (select_rows u status C) = eMat /\
    coef = jerasure_matrix_multiply (drop (idx * ecK) C) (snd (snd (jerasure_invert_matrix eMat ecK 8))) 1 ecK ecK ecK 8.
Proof.
  intros Hk Hn He Hst Hidx H. unfold getCoefficient_multi in H. rewrite Hk, Hn, He in H.
  rewrite take_ge in H by lia.
  destruct (count_status idx 0 status 0) as [cnt|] eqn:Hcnt; cbn [mbind option_bind] in H; [|done].
  destruct (count_status_alive _ _ _ _ _ Hcnt) as [Hc1 Hc2].
  case_bool_decide as Ec; cbn [negb] in H; [|done].
  assert (Hsv : length (survivors status) = ecK).
  { rewrite <- Ec, Hc1. rewrite <- (take_ge status ecN) at 2 by lia.
    rewrite filter_take_seq by lia. done. }
  split; [done|]. split; [apply Hc2; lia|].
  pose proof (select_rows_spec u status Hk Hn Hsv) as Hsel.
  destruct (select_rows u status C) as [cnt' eMat]. destruct Hsel as [_ Hsel].
  exists eMat. split_and!; [done|done|].
  destruct (snd (jerasure_invert_matrix eMat ecK 8)) as [m d]. simpl. congruence.
Qed.
(** ** Rows that determine the data *)

(** The selected rows of the matrix are linearly independent: only zero
    data makes all the selected blocks zero. *)
Definition independent (sel : nat -> nat) : Prop :=
  forall v, (forall j, is_byte (v j)) ->
    (forall j, (j < ecK)%nat -> xsum ecK (fun l => C !!! (sel j * ecK + l)%nat ⊗ v l) = 0) ->
    forall l, (l < ecK)%nat -> v l = 0.

Lemma independent_invert eMat sel :
  rows_copied eMat sel ecK -> independent sel ->
  exists mat' dMat, jerasure_invert_matrix eMat ecK 8 = (0, (mat', dMat)).
Proof.
  intros (H1 & H2 & H3) Hind. destruct (jerasure_invert_matrix eMat ecK 8) as [ret [mat' dMat]] eqn:E.
  destruct (decide (ret = 0)) as [->|Hne]; [eauto|].
  destruct (invert_fails ecK eMat H1 H2) as (v & Hv & (j & Hj & Hvj) & Hk); [by rewrite E|].
  exfalso. apply Hvj. apply (Hind v Hv); [|done]. intros i Hi.
  rewrite <- (Hk i Hi). apply xsum_ext. intros l Hll. unfold at_. by rewrite H3.
Qed.

(** Inverting the selected rows decides their independence. *)
Lemma invert_independent eMat sel :
  rows_copied eMat sel ecK -> fst (jerasure_invert_matrix eMat ecK 8) = 0 -> independent sel.
Proof.
  intros (H1 & H2 & H3) Hret v Hv Hk.
  destruct (jerasure_invert_matrix eMat ecK 8) as [ret [mat' dMat]] eqn:E. cbn [fst] in Hret. subst ret.
  destruct (invert_spec ecK eMat mat' dMat H1 H2 E) as (_ & Hb & Hid).
  apply (left_inverse_kernel ecK (at_ ecK dMat) (at_ ecK eMat) v); try done; [intros ????; auto with cord..|].
  intros i Hi. rewrite <- (Hk i Hi). apply xsum_ext. intros l Hll. unfold at_. by rewrite H3.
Qed.

(** The coefficients computed from independent rows rebuild the block. *)
Lemma coef_rebuilds eMat sel idx data size :
  rows_copied eMat sel ecK -> independent sel -> (idx < ecN)%nat ->
  (forall i, (i < ecK)%nat -> region size (data !!! i)) ->
  let coef := jerasure_matrix_multiply (drop (idx * ecK) C)
    (snd (snd (jerasure_invert_matrix eMat ecK 8))) 1 ecK ecK ecK 8 in
  length coef = ecK /\
  lincomb ecK size (fun j => coef !!! j) ((fun j => stripe_block ecK size C data (sel j)) <$> seq 0 ecK) =
    stripe_block ecK size C data idx.
Proof.
  intros Hr Hind Hidx Hd coef. destruct (independent_invert eMat sel Hr Hind) as (mat' & dMat & E).
  subst coef. rewrite E. cbn [snd]. split; [apply length_coef|].
  apply list_eq_total; [unfold stripe_block; by rewrite !length_lincomb|]. rewrite length_lincomb. intros p Hp.
  transitivity (stripe_block ecK size C data idx !!! p); [|done].
  rewrite <- (decode_rows eMat sel idx mat' dMat data size Hr Hidx E Hd p Hp).
  rewrite lincomb_lookup by done. apply xsum_ext. intros j Hj. do 2 f_equal.
  apply list_lookup_total_correct. by rewrite list_lookup_fmap, lookup_seq_lt.
Qed.

Lemma coef_bytes eMat sel idx :
  rows_copied eMat sel ecK -> independent sel ->
  Forall is_byte (jerasure_matrix_multiply (drop (idx * ecK) C) (snd (snd (jerasure_invert_matrix eMat ecK 8))) 1 ecK ecK ecK 8).
Proof.
  intros Hr Hind. destruct (independent_invert eMat sel Hr Hind) as (mat' & dMat & E). rewrite E. cbn [snd].
  destruct Hr as (H1 & H2 & _). destruct (invert_spec ecK eMat mat' dMat H1 H2 E) as (_ & Hd & _).
  apply matrix_multiply_bytes; [|done]. apply Forall_drop, length_complete.
Qed.

Lemma new_RSUtil_coefficient i :
  (0 < ecK < ecN)%nat -> (i < ecN)%nat ->
  exists eMat, rows_copied eMat (others i) ecK /\
   getCoefficient (new_RSUtil ecK ecN encMat) i =
      Some (jerasure_matrix_multiply (drop (i * ecK) C)
              (snd (snd (jerasure_invert_matrix eMat ecK 8))) 1 ecK ecK ecK 8).
Proof.
  intros HK Hi. unfold getCoefficient, new_RSUtil.
  pose (P := fun n (ec : list Z * list (list Z)) => keeps ecK (fst ec) /\ length (snd ec) = n /\
   forall i, (i < n)%nat -> exists eMat, rows_copied eMat (others i) ecK /\
     snd ec !! i = Some (jerasure_matrix_multiply (drop (i * ecK) C)
              (snd (snd (jerasure_invert_matrix eMat ecK 8))) 1 ecK ecK ecK 8)).
  assert (HP : P ecN (loop ecN (fun '(eMat, coefs) i =>
    let '(eMat, c) := coefficient_row ecK C i eMat in (eMat, coefs ++ [c])) (zeros (ecK * ecK), []))).
  { apply (loop_ind P).
    - split_and!; [|done|intros; lia]. split; [apply length_replicate|].
      apply Forall_replicate. auto with cord.
    - intros n [e cs] Hn ([He Hb] & Hl & Hc). cbn [fst snd] in *.
      destruct (coefficient_row_spec n e HK He Hb) as (eMat & Hr & Hs & Hf).
      destruct (coefficient_row ecK C n e) as [e' c]. cbn [fst snd] in *. subst c e'. unfold P. cbn [fst snd]. split_and!.
      + apply invert_keeps. by destruct Hr as (? & ? & _).
      + rewrite length_app. simpl. lia.
      + intros j Hj. destruct (decide (j = n)) as [->|].
        * exists eMat. split; [done|]. rewrite lookup_app_r by lia. by rewrite Hl, Nat.sub_diag.
        * destruct (Hc j) as (eMat' & Hr' & Hj'); [lia|]. exists eMat'. split; [done|].
          by rewrite lookup_app_l by lia. }
  destruct (loop _ _ _) as [e cs]. destruct HP as (_ & _ & HP). apply HP, Hi.
Qed.
End matrix.
End rsutil_facts.

Section rsutil_theorems.
Context `{GF : GFComplete} {GL : GF8Laws}.

Lemma multiply_spec (blk : list Z) c :
  Forall is_byte blk -> is_byte c -> multiply blk c = (fun b => c ⊗ b) <$> blk.
Proof.
  intros Hb Hc. unfold multiply, galois_w08_region_multiply. rewrite gf8_region by done.
  apply list_eq_total; rewrite length_zip_with, ?length_fmap; [lia|]. intros p Hp.
  rewrite zip_with_lookup_total by lia.
  rewrite !list_lookup_total_alt, list_lookup_fmap.
  destruct (lookup_lt_is_Some_2 blk p) as [b E]; [lia|]. rewrite E. simpl.
  rewrite gmul_gf; [done|done|]. by eapply Forall_lookup in E.
Qed.

Lemma count_status_None idx n status cnt :
  count_status idx n status cnt = None <->
  exists j, (j < length status)%nat /\ (n + j)%nat = idx /\ status !!! j <> 0.
Proof.
  revert n cnt. induction status as [|s rest IH]; intros n cnt; simpl.
  - split; [done|]. intros (j & ? & _). lia.
  - destruct (negb (s =? 0) && bool_decide (idx = n)) eqn:E.
    + split; [intros _|done]. exists 0%nat. apply andb_true_iff in E as [E1 E2].
      apply bool_decide_eq_true in E2. split_and!; [lia|lia|]. simpl. lia.
    + rewrite IH. split.
      * intros (j & ? & ? & ?). exists (S j). split_and!; [lia|lia|done].
      * intros ([|j] & Hj & Hi & Hs); simpl in Hs; [|exists j; split_and!; [lia|lia|done]].
        apply andb_false_iff in E as [E|E]; [lia|].
        apply bool_decide_eq_false in E. lia.
Qed.

(** C10: the constructor's coefficients.  Whenever the [_ecK] first blocks
    other than [i] determine the data, [getCoefficient(i)] of a fresh
    [RSUtil] answers [_ecK] coefficients whose linear combination of those
    blocks is block [i], for all data. *)
Theorem new_RSUtil_rebuilds ecK ecN encMat i size data :
  (0 < ecK < ecN)%nat -> (i < ecN)%nat ->
  length encMat = (ecK * (ecN - ecK))%nat -> Forall is_byte encMat ->
  independent ecK ecN encMat (others i) ->
  (forall l, (l < ecK)%nat -> region size (data !!! l)) ->
  let stripe := stripe_block ecK size (complete_enc_mat ecK ecN encMat) data in
  exists coef, getCoefficient (new_RSUtil ecK ecN encMat) i = Some coef /\ length coef = ecK /\
    lincomb ecK size (fun j => coef !!! j) ((fun j => stripe (others i j)) <$> seq 0 ecK) = stripe i.
Proof.
  intros HK Hi Hl Hb Hind Hd stripe.
  destruct (new_RSUtil_coefficient ecK ecN encMat ltac:(lia) Hl Hb i HK Hi) as (eMat & Hr & ->).
  eexists. split; [done|]. apply coef_rebuilds; (done || lia).
Qed.

Lemma multi_null u idx status :
  length status = _ecN u -> (idx < _ecN u)%nat ->
  (getCoefficient_multi u idx status = None <->
   status !!! idx <> 0 \/ length (survivors (_ecN u) status) <> _ecK u).
Proof.
  intros Hst Hidx. unfold getCoefficient_multi. rewrite take_ge by lia.
  destruct (count_status idx 0 status 0) as [cnt|] eqn:Hcnt; cbn [mbind option_bind].
  - destruct (count_status_alive _ _ _ _ _ Hcnt) as [Hc1 Hc2].
    assert (Hsv : length (survivors (_ecN u) status) = cnt).
    { rewrite Hc1. rewrite <- (take_ge status (_ecN u)) at 2 by lia. by rewrite filter_take_seq by lia. }
    rewrite Hsv. rewrite (Hc2 idx) by lia.
    case_bool_decide as Ec; cbn [negb]; [|tauto].
    destruct (select_rows _ _ _) as [? eMat].
    destruct (snd (jerasure_invert_matrix eMat (_ecK u) 8)) as [m d]. split; [done|tauto].
  - split; [intros _|done]. apply count_status_None in Hcnt as (j & _ & <- & H). by left.
Qed.

(** [getCoefficient_multi] is defined exactly on the repairable requests:
    it returns [nullptr] iff block [idx] is itself alive or the number of
    alive blocks is not [_ecK]. *)
Theorem getCoefficient_multi_null u idx status :
  length status = _ecN u -> (idx < _ecN u)%nat ->
  (getCoefficient_multi u idx status = None <->
   status !!! idx <> 0 \/ length (survivors (_ecN u) status) <> _ecK u).
Proof. apply multi_null. Qed.

Lemma multi_rebuilds u idx status coef size data :
  (_ecK u <= _ecN u)%nat -> length (_encMat u) = (_ecK u * (_ecN u - _ecK u))%nat ->
  Forall is_byte (_encMat u) -> length status = _ecN u -> (idx < _ecN u)%nat ->
  getCoefficient_multi u idx status = Some coef ->
  independent (_ecK u) (_ecN u) (_encMat u) (fun j => survivors (_ecN u) status !!! j) ->
  (forall l, (l < _ecK u)%nat -> region size (data !!! l)) ->
  let stripe := stripe_block (_ecK u) size (complete_enc_mat (_ecK u) (_ecN u) (_encMat u)) data in
  (length coef = _ecK u /\ Forall is_byte coef) /\
  lincomb (_ecK u) size (fun j => coef !!! j) (stripe <$> survivors (_ecN u) status) = stripe idx.
Proof.
  intros HKN Hl Hb Hst Hidx Hc Hind Hd stripe.
  destruct (multi_some _ _ _ HKN Hl Hb u idx status coef eq_refl eq_refl eq_refl Hst Hidx Hc)
    as (Hsv & _ & eMat & Hr & _ & ->).
  destruct (coef_rebuilds _ _ _ HKN Hl Hb eMat _ idx data size Hr Hind Hidx Hd) as [H1 H2].
  pose proof (coef_bytes _ _ _ HKN Hl Hb eMat _ idx Hr Hind) as H3.
  split; [done|]. unfold stripe. rewrite <- H2. f_equal.
  apply list_eq_same_length with (_ecK u); [by rewrite length_fmap, length_seq|by rewrite length_fmap|].
  intros i x y Hi. rewrite !list_lookup_fmap, lookup_seq_lt by done.
  rewrite (list_lookup_lookup_total_lt (survivors (_ecN u) status)) by lia. simpl. congruence.
Qed.

(** C18: when [getCoefficient_multi] answers, and the alive blocks determine
    the data, the linear combination of the alive blocks in increasing order
    with the returned coefficients is the lost block. *)
Theorem getCoefficient_multi_rebuilds u idx status coef size data :
  (_ecK u <= _ecN u)%nat -> length (_encMat u) = (_ecK u * (_ecN u - _ecK u))%nat ->
  Forall is_byte (_encMat u) -> length status = _ecN u -> (idx < _ecN u)%nat ->
  getCoefficient_multi u idx status = Some coef ->
  independent (_ecK u) (_ecN u) (_encMat u) (fun j => survivors (_ecN u) status !!! j) ->
  (forall l, (l < _ecK u)%nat -> region size (data !!! l)) ->
  let stripe := stripe_block (_ecK u) size (complete_enc_mat (_ecK u) (_ecN u) (_encMat u)) data in
  length coef = _ecK u /\
  lincomb (_ecK u) size (fun j => coef !!! j) (stripe <$> survivors (_ecN u) status) = stripe idx.
Proof.
  intros HKN Hl Hb Hst Hidx Hc Hind Hd stripe.
  destruct (multi_rebuilds u idx status coef size data) as [[H1 _] H2]; done.
Qed.

(** Row [r] of the complete matrix is row [order r] of the generator of
    ReedSol.v: the coding blocks come first here, the data blocks there. *)
Lemma complete_generator k m C r c :
  length C = (k * m)%nat -> (0 < k)%nat -> (r < m + k)%nat -> (c < k)%nat ->
  complete_enc_mat k (m + k) C !!! (r * k + c)%nat =
    generator k C (if decide (r < m)%nat then k + r else r - m)%nat c.
Proof.
  intros Hl Hk Hr Hc. unfold complete_enc_mat, generator. replace (m + k - k)%nat with m by lia.
  rewrite take_ge by lia.
  assert (Hz : length (blit (zeros ((m + k) * k)) 0 C) = ((m + k) * k)%nat).
  { unfold zeros. rewrite length_blit; rewrite length_replicate; [done|]. nia. }
  pose (P := fun n (M : list Z) => length M = ((m + k) * k)%nat /\ forall r c, (r < m + k)%nat -> (c < k)%nat ->
    M !!! (r * k + c)%nat = if decide (r < m)%nat then at_ k C r c else
      if decide (r < m + n)%nat then ident (r - m) c else 0).
  assert (HP : P k (loop k (fun M i => <[((m + i) * k + i)%nat := 1]> M) (blit (zeros ((m + k) * k)) 0 C))).
  { apply (loop_ind P).
    - split; [done|]. clear r c Hr Hc. intros r c Hr Hc.
      rewrite lookup_total_blit by (unfold zeros; rewrite length_replicate; nia).
      destruct (decide (r < m)%nat).
      + rewrite decide_True by nia. unfold at_. f_equal. lia.
      + rewrite !decide_False by nia. unfold zeros. apply list_lookup_total_correct. apply lookup_replicate. split; [done|nia].
    - intros n M Hn [H1 H2]. split; [by rewrite length_insert|]. clear r c Hr Hc. intros r c Hr Hc.
      rewrite lookup_total_insert by nia. rewrite H2 by done.
      pose proof (flat_inj k r c (m + n) n Hc Hn) as Hf. rewrite !(Nat.mul_comm k) in Hf.
      destruct (decide (r * k + c = (m + n) * k + n)%nat) as [E|E].
      + apply Hf in E as [-> ->]. rewrite !decide_False, decide_True by lia. unfold ident. by rewrite decide_True by lia.
      + destruct (decide (r < m)%nat); [done|]. destruct (decide (r < m + n)%nat); [by rewrite decide_True by lia|].
        case_decide; [|done]. unfold ident. rewrite decide_False; [done|]. intros Ec. apply E, Hf. lia. }
  destruct HP as [_ HP]. rewrite HP by done. destruct (decide (r < m)%nat) as [Hrm|Hrm].
  - rewrite decide_False by lia. unfold at_. f_equal. lia.
  - by rewrite !decide_True by lia.
Qed.

(** Any choice of different blocks is independent when the matrix is MDS. *)
Lemma mds_independent k m C sel :
  (0 < k)%nat -> length C = (k * m)%nat -> any_rows (k + m) k (generator k C) ->
  (forall i j, (i < k)%nat -> (j < k)%nat -> sel i = sel j -> i = j) -> (forall j, (j < k)%nat -> (sel j < m + k)%nat) ->
  independent k (m + k) C sel.
Proof.
  intros Hk Hl HA Hinj Hsel v Hv Hz.
  set (order := fun r => (if decide (r < m)%nat then k + r else r - m)%nat).
  apply (HA ((fun j => order (sel j)) <$> seq 0 k) v).
  - apply NoDup_fmap_2_strong; [|apply NoDup_seq]. intros i j Hi%elem_of_seq Hj%elem_of_seq E.
    apply Hinj; [lia..|]. pose proof (Hsel i ltac:(lia)). pose proof (Hsel j ltac:(lia)). revert E. unfold order.
    repeat case_decide; lia.
  - by rewrite length_fmap, length_seq.
  - apply Forall_fmap, Forall_forall. intros j Hj%elem_of_seq. cbn. specialize (Hsel j ltac:(lia)). unfold order.
    case_decide; lia.
  - intros c _. apply Hv.
  - intros r (j & -> & Hj%elem_of_seq)%list_elem_of_fmap. rewrite <- (Hz j) by lia. apply xsum_ext. intros c Hc.
    by rewrite complete_generator by (done || apply Hsel; lia).
Qed.

(** With an MDS matrix any [k] blocks that are alive rebuild every other. *)
Lemma multi_complete u idx status size data :
  let k := _ecK u in let m := (_ecN u - _ecK u)%nat in
  (0 < k <= _ecN u)%nat -> length (_encMat u) = (k * m)%nat -> Forall is_byte (_encMat u) -> any_rows (k + m) k (generator k (_encMat u)) ->
  length status = _ecN u -> (idx < _ecN u)%nat -> status !!! idx = 0 -> length (survivors (_ecN u) status) = k ->
  (forall l, (l < k)%nat -> region size (data !!! l)) ->
  exists coef, getCoefficient_multi u idx status = Some coef /\ length coef = k /\ Forall is_byte coef /\
    let stripe := stripe_block k size (complete_enc_mat k (_ecN u) (_encMat u)) data in
    lincomb k size (fun j => coef !!! j) (stripe <$> survivors (_ecN u) status) = stripe idx.
Proof.
  intros k m Hk Hl Hb HA Hst Hidx H0 Hsv Hd. destruct (getCoefficient_multi u idx status) as [coef|] eqn:E.
  2: { apply multi_null in E as []; done. }
  assert (Hind : independent k (_ecN u) (_encMat u) (fun j => survivors (_ecN u) status !!! j)).
  { replace (_ecN u) with (m + k)%nat by lia. apply mds_independent; [lia|done|done|..].
    - intros i j Hi Hj Eij. replace (m + k)%nat with (_ecN u) in Eij by lia.
      rewrite <- Hsv in Hi, Hj. apply list_lookup_lookup_total_lt in Hi, Hj. rewrite Eij in Hi.
      eapply NoDup_lookup; [|exact Hi|exact Hj]. apply NoDup_ListNoDup, List.NoDup_filter, List.seq_NoDup.
    - intros j Hj. replace (m + k)%nat with (_ecN u) by lia. rewrite <- Hsv in Hj. apply list_lookup_lookup_total_lt in Hj.
      apply list_elem_of_lookup_2, list_elem_of_In, filter_In in Hj as [Hj _]. apply in_seq in Hj. lia. }
  destruct (multi_rebuilds u idx status coef size data) as [[H1 H2] H3]; (done || lia || eauto).
Qed.

(** So do the coefficients of the constructor. *)
Lemma first_complete k m C i size data :
  (0 < k)%nat -> (0 < m)%nat -> (i < m + k)%nat -> length C = (k * m)%nat -> Forall is_byte C -> any_rows (k + m) k (generator k C) ->
  (forall l, (l < k)%nat -> region size (data !!! l)) ->
  exists coef, getCoefficient (new_RSUtil k (m + k) C) i = Some coef /\ length coef = k /\ Forall is_byte coef /\
    let stripe := stripe_block k size (complete_enc_mat k (m + k) C) data in
    lincomb k size (fun j => coef !!! j) ((fun j => stripe (others i j)) <$> seq 0 k) = stripe i.
Proof.
  intros Hk Hm Hi Hl Hb HA Hd. assert (Hl' : length C = (k * (m + k - k))%nat) by (rewrite Hl; lia).
  assert (Hind : independent k (m + k) C (others i)).
  { apply mds_independent; [done|done|done|..]; unfold others.
    - intros x y _ _. repeat case_decide; lia.
    - intros j Hj. case_decide; lia. }
  destruct (new_RSUtil_coefficient k (m + k) C ltac:(lia) Hl' Hb i ltac:(lia) Hi) as (eMat & Hr & ->).
  eexists. split; [done|]. assert (Hc : forall P Q R : Prop, R -> (P /\ Q) -> P /\ R /\ Q) by tauto.
  apply Hc; [eapply coef_bytes; (done || lia)|apply coef_rebuilds; (done || lia)].
Qed.

(** With the matrix of reed_sol.c no request needs a hypothesis.  For all
    [k, m >= 1] with [k + m <= 256], an [RSUtil] made from
    [reed_sol_vandermonde_coding_matrix(k, m, 8)] has coefficients for every
    block [i], and they rebuild it from [k] other blocks for all data. *)
Theorem reed_sol_rebuilds talloc k m i size data :
  (0 < k)%nat -> (0 < m)%nat -> (k + m <= 256)%nat -> (i < m + k)%nat ->
  (forall n, exists l, talloc n = Some l /\ length l = n) ->
  (forall l, (l < k)%nat -> region size (data !!! l)) ->
  exists encMat coef, reed_sol_vandermonde_coding_matrix talloc k m 8 = Ok (Some encMat) /\
    getCoefficient (new_RSUtil k (m + k) encMat) i = Some coef /\ length coef = k /\
    let stripe := stripe_block k size (complete_enc_mat k (m + k) encMat) data in
    lincomb k size (fun j => coef !!! j) ((fun j => stripe (others i j)) <$> seq 0 k) = stripe i.
Proof.
  intros Hk Hm Hkm Hi Hta Hd. destruct (coding_matrix_mds talloc k m Hk Hm Hkm Hta) as (C & HC & Hl & Hb & _ & _ & HA).
  exists C. rewrite HC. destruct (first_complete k m C i size data) as (coef & E & H1 & _ & H2); try done; [rewrite Hl; lia|].
  by exists coef.
Qed.
End rsutil_theorems.

(** A (4, 2) code: parities [d0 + d1] and [d0 + 217 d1]. *)
Section example.
Let encMat := [1; 1; 1; 217].

Lemma example_rows e sel :
  length e = 4%nat -> Forall is_byte e ->
  forallb (fun j => forallb (fun l => Z.eqb (e !!! (2 * j + l)%nat)
    (complete_enc_mat 2 4 encMat !!! (sel j * 2 + l)%nat)) (seq 0 2)) (seq 0 2) = true ->
  fst (jerasure_invert_matrix e 2 8) = 0 -> independent 2 4 encMat sel.
Proof.
  intros Hl Hb Hall Hinv. apply (invert_independent 2 4 encMat e); [|done].
  split_and!; [done|done|]. intros j l Hj Hll. rewrite forallb_forall in Hall.
  specialize (Hall j ltac:(apply in_seq; lia)). rewrite forallb_forall in Hall.
  apply Z.eqb_eq, Hall, in_seq. lia.
Qed.

Lemma new_RSUtil_rebuilds_witness :
  exists coef, getCoefficient (new_RSUtil 2 4 encMat) 1 = Some coef /\ length coef = 2%nat /\
    lincomb 2 3 (fun j => coef !!! j)
      ((fun j => stripe_block 2 3 (complete_enc_mat 2 4 encMat) [[5; 7; 255]; [9; 1; 0]] (others 1 j)) <$> seq 0 2) =
    stripe_block 2 3 (complete_enc_mat 2 4 encMat) [[5; 7; 255]; [9; 1; 0]] 1.
Proof.
  apply (new_RSUtil_rebuilds 2 4 encMat 1 3 [[5; 7; 255]; [9; 1; 0]]); try lia; try reflexivity; try decided.
  - apply (example_rows [1; 1; 1; 0]); [reflexivity|decided|vm_compute; reflexivity..].
  - intros [|[|l]] Hll; [split; [reflexivity|decided]..|lia].
Defined.

Lemma reed_sol_rebuilds_witness :
  exists em coef, reed_sol_vandermonde_coding_matrix (fun n => Some (replicate n 77)) 2 2 8 = Ok (Some em) /\
    getCoefficient (new_RSUtil 2 4 em) 3 = Some coef /\ length coef = 2%nat.
Proof.
  destruct (reed_sol_rebuilds (fun n => Some (replicate n 77)) 2 2 3 3 [[5; 7; 255]; [9; 1; 0]])
    as (em & coef & H1 & H2 & H3 & _); [lia..| | |].
  - intros n. eexists. split; [reflexivity|apply length_replicate].
  - intros [|[|l]] Hll; [split; [reflexivity|decided]..|lia].
  - exists em, coef. split; [exact H1|]. split; [exact H2|exact H3].
Defined.

Lemma getCoefficient_multi_null_witness :
  getCoefficient_multi (mkRSUtil 2 4 encMat []) 2 [1; 0; 1; 0] = None.
Proof.
  apply (getCoefficient_multi_null (mkRSUtil 2 4 encMat []) 2 [1; 0; 1; 0]); [reflexivity|vm_compute; lia|].
  left. decided.
Defined.

Lemma getCoefficient_multi_rebuilds_witness :
  exists coef, getCoefficient_multi (mkRSUtil 2 4 encMat []) 2 [0; 1; 0; 1] = Some coef /\
    length coef = 2%nat /\
    lincomb 2 3 (fun j => coef !!! j)
      (stripe_block 2 3 (complete_enc_mat 2 4 encMat) [[5; 7; 255]; [9; 1; 0]] <$> survivors 4 [0; 1; 0; 1]) =
    stripe_block 2 3 (complete_enc_mat 2 4 encMat) [[5; 7; 255]; [9; 1; 0]] 2.
Proof.
  destruct (getCoefficient_multi (mkRSUtil 2 4 encMat []) 2 [0; 1; 0; 1]) as [coef|] eqn:E;
    [|vm_compute in E; discriminate].
  exists coef. split; [reflexivity|].
  apply (getCoefficient_multi_rebuilds (mkRSUtil 2 4 encMat []) 2 [0; 1; 0; 1] coef 3 [[5; 7; 255]; [9; 1; 0]]).
  - simpl; lia.
  - reflexivity.
  - decided.
  - reflexivity.
  - simpl; lia.
  - exact E.
  - apply (example_rows [1; 217; 0; 1]); [reflexivity|decided|vm_compute; reflexivity..].
  - intros [|[|l]] Hll; [split; [reflexivity|decided]..|]. simpl in Hll. lia.
Defined.
End example.
