(* ===== verification/Text.v ===== *)
(** * Text: decimal numbers, [splite_string] and [ip2Str]

    The text the coordinator reads (trace lines, configuration values) and
    prints (addresses).  A string is the list of its characters. *)
From Stdlib Require Import Ascii String.
From S2P Require Import Prelude.

Abbreviation str := (list ascii).
Definition lit (s : string) : str := list_ascii_of_string s.
Arguments lit s%_string_scope.

(** ** Decimal numbers *)

Definition is_digit (a : ascii) : bool := (48 <=? N_of_ascii a)%N && (N_of_ascii a <=? 57)%N.
Definition digit_val (a : ascii) : Z := Z.of_N (N_of_ascii a) - 48.
Definition digit_char (d : Z) : ascii := ascii_of_N (Z.to_N (d + 48)).

(** The longest run of digits: its value after [v], and the rest. *)
Fixpoint digits (v : Z) (s : str) : Z * str :=
  match s with
  | a :: s' => if is_digit a then digits (10 * v + digit_val a) s' else (v, s)
  | [] => (v, [])
  end.

(** [isspace] *)
Definition is_space (a : ascii) : bool :=
  let n := N_of_ascii a in (n =? 32)%N || ((9 <=? n)%N && (n <=? 13)%N).
Fixpoint skip_space (s : str) : str :=
  match s with
  | a :: s' => if is_space a then skip_space s' else s
  | [] => []
  end.

(** The optional sign: whether it is [-], and the rest. *)
Definition sign (s : str) : bool * str :=
  match s with
  | a :: s' => if decide (a = "-"%char) then (true, s')
               else if decide (a = "+"%char) then (false, s') else (false, s)
  | [] => (false, [])
  end.

(** A signed decimal number: [None] when there is no digit. *)
Definition number (s : str) : option Z :=
  let '(neg, s1) := sign (skip_space s) in
  match s1 with
  | a :: _ => if is_digit a then Some (let v := fst (digits 0 s1) in if neg then - v else v) else None
  | [] => None
  end.

(** [std::stoi]; an exception ends the program. *)
Definition stoi (s : str) : res Z :=
  match number s with
  | Some v => if decide (is_s32 v) then Ok v else Fault (Exit 134)
  | None => Fault (Exit 134)
  end.

(** [stream >> x] into a [long long] that holds [old]: nothing is stored when
    the text is blank, 0 when it does not start with a number, and a number out
    of range is clamped. *)
Definition LLONG_MAX : Z := 2^63 - 1.
Definition LLONG_MIN : Z := - 2^63.
Definition stream_ll (s : str) (old : Z) : Z :=
  match skip_space s with
  | [] => old
  | _ => match number s with
         | Some v => Z.max LLONG_MIN (Z.min LLONG_MAX v)
         | None => 0
         end
  end.

(** [to_string] of an unsigned number, with enough fuel for 64 bits. *)
Fixpoint to_string_fuel (fuel : nat) (n : Z) (acc : str) : str :=
  match fuel with
  | O => acc
  | S f => if n <? 10 then digit_char n :: acc
           else to_string_fuel f (n / 10) (digit_char (n mod 10) :: acc)
  end.
Definition to_string (n : Z) : str := to_string_fuel 20 n [].

Lemma digit_char_facts d : 0 <= d < 10 -> is_digit (digit_char d) = true /\ digit_val (digit_char d) = d.
Proof.
  intros H. rewrite <- (Z2Nat.id d) by lia. assert (Hd : (Z.to_nat d < 10)%nat) by lia.
  revert Hd. generalize (Z.to_nat d). intros n Hn.
  do 10 (destruct n as [|n]; [split; reflexivity|]). lia.
Qed.

Lemma digits_digit v d s : 0 <= d < 10 -> digits v (digit_char d :: s) = digits (10 * v + d) s.
Proof. intros H. simpl. by destruct (digit_char_facts d H) as [-> ->]. Qed.

(** Reading a printed number adds its digits to the number read so far. *)
Lemma digits_to_string fuel n acc v :
  0 <= n < 10 ^ Z.of_nat fuel ->
  exists k, 0 <= k /\ digits v (to_string_fuel fuel n acc) = digits (10 ^ k * v + n) acc.
Proof.
  revert n acc v. induction fuel as [|f IH]; intros n acc v Hn.
  - exists 0. split; [lia|]. change (10 ^ Z.of_nat 0) with 1 in Hn. cbn [to_string_fuel]. f_equal. rewrite Z.pow_0_r. lia.
  - cbn [to_string_fuel]. destruct (Z.ltb_spec n 10) as [Hlt|Hge].
    + exists 1. split; [lia|]. by rewrite digits_digit by lia.
    + pose proof (Z.mod_pos_bound n 10 ltac:(lia)) as Hm.
      destruct (IH (n / 10) (digit_char (n mod 10) :: acc) v) as (k & Hk & ->).
      { split; [apply Z.div_pos; lia|]. apply Z.div_lt_upper_bound; [lia|].
        rewrite Nat2Z.inj_succ, Z.pow_succ_r in Hn by lia. lia. }
      exists (k + 1). split; [lia|]. rewrite digits_digit by done. f_equal.
      rewrite Z.pow_add_r by lia. pose proof (Z.div_mod n 10 ltac:(lia)). lia.
Qed.

(** Characters of a printed number are digits. *)
Lemma to_string_digits fuel n acc :
  0 <= n -> Forall (fun a => is_digit a = true) acc ->
  Forall (fun a => is_digit a = true) (to_string_fuel fuel n acc).
Proof.
  revert n acc. induction fuel as [|f IH]; intros n acc Hn Hacc; simpl; [done|].
  destruct (Z.ltb_spec n 10).
  - constructor; [|done]. apply digit_char_facts. lia.
  - pose proof (Z.mod_pos_bound n 10 ltac:(lia)).
    apply IH; [apply Z.div_pos; lia|]. constructor; [|done]. by apply digit_char_facts.
Qed.

Lemma digits_run v s t : Forall (fun a => is_digit a = true) s ->
  (match t with a :: _ => is_digit a = false | [] => True end) ->
  digits v (s ++ t) = (fst (digits v s), t).
Proof.
  intros Hs Ht. revert v. induction Hs as [|a s Ha Hs IH]; intros v; simpl.
  - destruct t as [|a t]; simpl; [done|]. by rewrite Ht.
  - by rewrite Ha.
Qed.

Lemma digits_number s : Forall (fun a => is_digit a = true) s -> s <> [] -> number s = Some (fst (digits 0 s)).
Proof.
  intros Hs Hne. unfold number. destruct Hs as [|a s Ha Hs]; [done|].
  assert (Hsp : is_space a = false /\ a <> "-"%char /\ a <> "+"%char).
  { unfold is_digit in Ha. unfold is_space. split_and!; [|by intros ->..].
    apply andb_true_iff in Ha as [H1%N.leb_le H2%N.leb_le].
    apply orb_false_iff. split; [apply N.eqb_neq; lia|]. apply andb_false_iff. right. apply N.leb_gt. lia. }
  destruct Hsp as (Hsp & H1 & H2). cbn [skip_space]. rewrite Hsp. unfold sign.
  rewrite !decide_False by done. by rewrite Ha.
Qed.

Lemma to_string_fuel_nonempty f n acc : acc <> [] -> to_string_fuel f n acc <> [].
Proof.
  revert n acc. induction f as [|f IH]; intros n acc Hacc; simpl; [done|].
  destruct (n <? 10); [done|]. by apply IH.
Qed.

Lemma to_string_nonempty n : to_string n <> [].
Proof.
  unfold to_string. change 20%nat with (S 19). generalize 19%nat. intros f. cbn [to_string_fuel].
  destruct (n <? 10); [done|]. by apply to_string_fuel_nonempty.
Qed.

Lemma number_to_string n : 0 <= n < 10 ^ 20 -> number (to_string n) = Some n.
Proof.
  intros Hn. rewrite digits_number; [|apply to_string_digits; [lia|constructor]|apply to_string_nonempty].
  destruct (digits_to_string 20 n [] 0 Hn) as (k & _ & H). unfold to_string. rewrite H. simpl. f_equal. lia.
Qed.

(** ** [splite_string] *)

(** [str.find(c)] *)
Fixpoint find_char (c : ascii) (s : str) : option nat :=
  match s with
  | [] => None
  | a :: s' => if decide (a = c) then Some 0%nat else S <$> find_char c s'
  end.

(** [while (str.find(c) != string::npos)]: every round shortens [str]. *)
Fixpoint splite_fuel (fuel : nat) (str : str) (c : ascii) (res : list (list ascii)) : list (list ascii) :=
  match fuel with
  | O => res ++ [str]
  | S f => match find_char c str with
           | Some loc => splite_fuel f (drop (loc + 1) str) c (res ++ [take loc str])
           | None => res ++ [str]
           end
  end.
Definition splite_string (str : str) (c : ascii) : list (list ascii) := splite_fuel (length str) str c [].

(** The text whose parts, separated by [c], are [l]. *)
Fixpoint join (c : ascii) (l : list str) : str :=
  match l with
  | [] => []
  | [s] => s
  | s :: l' => s ++ c :: join c l'
  end.

Lemma find_char_Some c s loc :
  find_char c s = Some loc ->
  (loc < length s)%nat /\ s = take loc s ++ c :: drop (loc + 1) s /\ c ∉ take loc s.
Proof.
  revert loc. induction s as [|a s IH]; intros loc H; simpl in H; [done|].
  destruct (decide (a = c)) as [->|Hne].
  - injection H as <-. simpl. rewrite drop_0. split_and!; [lia|done|apply not_elem_of_nil].
  - destruct (find_char c s) as [l|]; [|done]. injection H as <-.
    destruct (IH l eq_refl) as (H1 & H2 & H3). simpl. split_and!; [lia|by f_equal|].
    rewrite not_elem_of_cons. done.
Qed.

Lemma find_char_None c s : find_char c s = None -> c ∉ s.
Proof.
  induction s as [|a s IH]; simpl; [intros _; apply not_elem_of_nil|].
  destruct (decide (a = c)); [done|]. intros H. rewrite not_elem_of_cons. split; [done|].
  apply IH. by destruct (find_char c s).
Qed.

(** The parts still to come. *)
Lemma splite_fuel_spec fuel s c acc :
  (length s <= fuel)%nat ->
  exists l, splite_fuel fuel s c acc = acc ++ l /\ l <> [] /\ join c l = s /\ Forall (fun p => c ∉ p) l.
Proof.
  revert s acc. induction fuel as [|f IH]; intros s acc Hf.
  - destruct s; [|simpl in Hf; lia]. exists [[]]. split_and!; [done..|]. constructor; [apply not_elem_of_nil|constructor].
  - cbn [splite_fuel]. destruct (find_char c s) as [loc|] eqn:E.
    + destruct (find_char_Some _ _ _ E) as (H1 & H2 & H3).
      destruct (IH (drop (loc + 1) s) (acc ++ [take loc s])) as (l & -> & Hne & Hj & Hall);
        [rewrite length_drop; lia|].
      exists (take loc s :: l). split_and!; [by rewrite <- app_assoc|done| |by constructor].
      destruct l as [|p l]; [done|]. cbn [join]. cbn [join] in Hj. rewrite Hj. by symmetry.
    + exists [s]. split_and!; [done..|]. constructor; [|constructor]. by apply find_char_None.
Qed.

Lemma join_inj c l1 l2 :
  l1 <> [] -> l2 <> [] -> Forall (fun p => c ∉ p) l1 -> Forall (fun p => c ∉ p) l2 ->
  join c l1 = join c l2 -> l1 = l2.
Proof.
  intros Hne1 Hne2 H1. revert l2 Hne1 Hne2. induction H1 as [|p l1 Hp H1 IH]; intros l2 Hne1 Hne2 H2 Hj; [done|].
  destruct H2 as [|q l2 Hq H2]; [done|].
  assert (Hsplit : forall (p q r t : str), c ∉ p -> c ∉ q -> p ++ c :: r = q ++ c :: t -> p = q /\ r = t).
  { clear. induction p as [|a p IHp]; intros [|b q] r t Hp Hq H; [|injection H as H1 H2..].
    - by injection H as ->.
    - exfalso. apply Hq. rewrite <- H1. left.
    - exfalso. apply Hp. rewrite H1. left.
    - subst b. apply not_elem_of_cons in Hp as [_ Hp]. apply not_elem_of_cons in Hq as [_ Hq].
      destruct (IHp q r t Hp Hq H2) as [-> ->]. done. }
  destruct l1 as [|p' l1], l2 as [|q' l2].
  - simpl in Hj. by subst.
  - exfalso. cbn [join] in Hj. apply Hp. rewrite Hj, elem_of_app. right. left.
  - exfalso. cbn [join] in Hj. apply Hq. rewrite <- Hj, elem_of_app. right. left.
  - destruct (Hsplit p q (join c (p' :: l1)) (join c (q' :: l2))) as [-> Hj']; [done..|].
    f_equal. by apply IH.
Qed.

Lemma splite_string_iff (s : str) c l :
  l <> [] -> (splite_string s c = l <-> join c l = s /\ Forall (fun p => c ∉ p) l).
Proof.
  intros Hne. destruct (splite_fuel_spec (length s) s c [] (le_n _)) as (l' & Hl & Hne' & Hj & Hall).
  unfold splite_string. rewrite Hl. simpl. split.
  - intros <-. done.
  - intros [Hj2 Hall2]. apply (join_inj c); [done..|congruence].
Qed.

(** [splite_string] is the inverse of joining with the separator: its parts
    joined give the text back, none of them holds the separator, and they are
    the only such parts; so the number of rounds of its loop is enough. *)
Theorem splite_string_roundtrip (s : str) c :
  splite_string s c <> [] /\ join c (splite_string s c) = s /\ Forall (fun p => c ∉ p) (splite_string s c) /\
  forall l, l <> [] -> Forall (fun p => c ∉ p) l -> splite_string (join c l) c = l.
Proof.
  destruct (splite_fuel_spec (length s) s c [] (le_n _)) as (l' & Hl & Hne' & Hj & Hall).
  unfold splite_string at 1 2 3. rewrite Hl. split_and!; [done..|].
  intros l Hne Hf. by apply splite_string_iff.
Qed.

Lemma splite_string_roundtrip_witness :
  splite_string (join ","%char [lit "8"; lit "R"; lit "12"]) ","%char = [lit "8"; lit "R"; lit "12"].
Proof.
  destruct (splite_string_roundtrip [] ","%char) as (_ & _ & _ & H).
  apply (H [lit "8"; lit "R"; lit "12"]); [discriminate|decided].
Defined.

(** ** [ip2Str] *)

(** Coordinator.cc and UPCoordinator.cc have the same function. *)
Definition ip2Str (ip : Z) : str :=
  to_string (Z.land ip 255) ++ lit "." ++ to_string (Z.land (Z.shiftr ip 8) 255) ++ lit "." ++
  to_string (Z.land (Z.shiftr ip 16) 255) ++ lit "." ++ to_string (Z.land (Z.shiftr ip 24) 255).

Lemma to_string_no_dot n : 0 <= n -> "."%char ∉ to_string n.
Proof.
  intros Hn Hin. pose proof (to_string_digits 20 n [] Hn (Forall_nil_2 _)) as H.
  rewrite Forall_forall in H. by apply H in Hin.
Qed.

(** [ip2Str] prints an address without loss: the parts between the dots
    are its four bytes in network order, so reading them back gives the
    address, and different addresses have different texts. *)
Theorem ip2Str_roundtrip ip :
  is_u32 ip ->
  exists a b c d, number <$> splite_string (ip2Str ip) "."%char = [Some a; Some b; Some c; Some d] /\
    is_byte a /\ is_byte b /\ is_byte c /\ is_byte d /\
    ip = a + 2^8 * b + 2^16 * c + 2^24 * d.
Proof.
  intros Hip. unfold is_u32 in Hip. unfold ip2Str. rewrite !Z.shiftr_div_pow2 by lia.
  change 255 with (Z.ones 8). rewrite !Z.land_ones by lia.
  assert (Hb : forall x, is_byte (x mod 2^8)) by (intros; apply Z.mod_pos_bound; lia).
  assert (Hnum : forall x, number (to_string (x mod 2^8)) = Some (x mod 2^8))
    by (intros x; specialize (Hb x); unfold is_byte in Hb; apply number_to_string; lia).
  eexists _, _, _, _. split.
  - erewrite (proj2 (splite_string_iff _ _ [_; _; _; _] _)); [simpl; by rewrite !Hnum|].
    split; [reflexivity|].
    repeat constructor; apply to_string_no_dot, Hb.
  - split_and!; [apply Hb..|].
    assert (ip = ip mod 2^8 + 2^8 * (ip / 2^8 mod 2^8 + 2^8 * (ip / 2^16 mod 2^8 + 2^8 * (ip / 2^24 mod 2^8)))).
    { pose proof (Z.div_mod ip (2^8) ltac:(lia)). pose proof (Z.div_mod (ip/2^8) (2^8) ltac:(lia)).
      pose proof (Z.div_mod (ip/2^16) (2^8) ltac:(lia)).
      assert (ip / 2^8 / 2^8 = ip / 2^16) by (rewrite Z.div_div by lia; done).
      assert (ip / 2^16 / 2^8 = ip / 2^24) by (rewrite Z.div_div by lia; done).
      assert (ip / 2^24 mod 2^8 = ip / 2^24).
      { apply Z.mod_small. split; [apply Z.div_pos; lia|]. apply Z.div_lt_upper_bound; lia. }
      lia. }
    lia.
  Unshelve. discriminate.
Qed.

Lemma ip2Str_roundtrip_witness :
  ip2Str 110995648 = lit "192.168.157.6" /\
  exists a b c d, number <$> splite_string (ip2Str 110995648) "."%char = [Some a; Some b; Some c; Some d] /\
    is_byte a /\ is_byte b /\ is_byte c /\ is_byte d /\
    110995648 = a + 2^8 * b + 2^16 * c + 2^24 * d.
Proof. split; [reflexivity|]. apply (ip2Str_roundtrip 110995648). decided. Defined.
