(* ===== verification/Config.v ===== *)
(** * Configuration (Config.hh) and Redis replies

    The members of [Config] the code reads, with the values the XML file gives
    them; ConfigFile.v reads that file.  [reply] is what [redisCommand] returns for a [blpop]. *)
From S2P Require Import Prelude Text.

Record Config := mkConfig {
  _ecK : nat;
  _ecN : nat;
  _packetSize : nat;
  _packetSkipSize : nat;
  _packetCnt : nat;
  _helpersIPs : list Z;
  _coordinatorIP : Z;
  _localIP : Z;
  _shuffle : bool;
  _rackAware : bool;
  _UPPolicy : str;
  _log_size : Z;
  _UPWay : str;
  _blocksize : Z;
  _traceType : str
}.

Definition COMMAND_MAX_LENGTH : nat := 1024.

(** [_ecM] *)
Definition _ecM (conf : Config) : nat := (_ecN conf - _ecK conf)%nat.

(** [v[i]] on a vector whose index is an [int]. *)
Definition at_int {A} (v : list A) (i : Z) : res A :=
  if i <? 0 then Fault Undef else res_of_option Undef (v !! Z.to_nat i).

Lemma at_int_nat {A} (v : list A) (i : nat) a : v !! i = Some a -> at_int v (Z.of_nat i) = Ok a.
Proof.
  intros H. unfold at_int. destruct (Z.ltb_spec (Z.of_nat i) 0); [lia|].
  by rewrite Nat2Z.id, H.
Qed.

Lemma at_int_ok {A} (v : list A) (i : Z) a :
  at_int v i = Ok a <-> 0 <= i /\ v !! Z.to_nat i = Some a.
Proof.
  unfold at_int. destruct (Z.ltb_spec i 0); [split; [done|lia]|].
  rewrite res_of_option_ok. naive_solver.
Qed.

(** ** Replies *)

(** A nil reply (timeout), an error, or an array: [element[1]->str] of a
    [blpop] is the popped value, and [REmpty] has [elements == 0]. *)
Inductive reply :=
  | RNil
  | RError
  | REmpty
  | RData (str : list Z).

(** The loops of [init] and [recvAck]: pop until [count] messages came.  They
    wait for ever once the replies run out. *)
Fixpoint wait_replies (count : Z) (replies : list reply) : res (list reply) :=
  match replies with
  | [] => Fault Blocked
  | RData _ :: rest =>
      let count := count - 1 in
      if count =? 0 then Ok rest else wait_replies count rest
  | _ :: rest => wait_replies count rest
  end.

Definition is_data (r : reply) : bool := match r with RData _ => true | _ => false end.

(** [n] data replies among others. *)
Definition data_count (rs : list reply) : nat := length (filter (fun r => is_data r = true) rs).

Lemma wait_replies_ok (rs rest : list reply) (n : nat) :
  (0 < n)%nat -> data_count rs = n -> (exists init d, rs = init ++ [RData d]) ->
  wait_replies (Z.of_nat n) (rs ++ rest) = Ok rest.
Proof.
  intros Hn Hc (init & d & ->). revert n Hn Hc. induction init as [|r init IH]; intros n Hn Hc.
  - simpl in *. unfold data_count in Hc. simpl in Hc. subst n. done.
  - unfold data_count in *. cbn [app wait_replies]. rewrite <- app_comm_cons, filter_cons in Hc.
    destruct r; simpl in Hc; try (by apply IH).
    destruct n as [|n]; [lia|]. injection Hc as Hc.
    assert (0 < n)%nat.
    { rewrite filter_app, length_app in Hc. simpl in Hc. lia. }
    replace (Z.of_nat (S n) - 1) with (Z.of_nat n) by lia.
    destruct (Z.eqb_spec (Z.of_nat n) 0); [lia|]. by apply IH.
Qed.

Lemma wait_replies_blocked rs (n : Z) :
  n <= 0 \/ Z.of_nat (data_count rs) < n -> wait_replies n rs = Fault Blocked.
Proof.
  revert n. induction rs as [|r rs IH]; intros n Hn; [done|].
  unfold data_count in *. rewrite filter_cons in Hn.
  destruct r; simpl in *; try (by apply IH).
  destruct (Z.eqb_spec (n - 1) 0); [|apply IH]; lia.
Qed.
