(* ===== verification/UpdPlan.v ===== *)
(** * Grouping of the updates of a stripe (UpdBlock.hh, UPCoordinator.cc)

    [get_upd_solu_crd] groups the updated blocks of a stripe into subsets of
    overlapping ranges, which the parity collector merges before it forwards
    them.  Offsets and sizes are in KB and below the block size, so the sums
    stay inside an [int]; [blk_ok] states it. *)
From S2P Require Import Prelude.

(** ** Data *)

Record UpdBlock := mkUpdBlock { _id : Z; _ip : Z; _offset_add : Z; _upd_size : Z }.

#[export] Instance UpdBlock_eq_dec : EqDecision UpdBlock.
Proof. solve_decision. Defined.

Definition INT_MAX : Z := 2^31 - 1.

(** A [std::map<int, vector<UpdBlock>>] is the list of its entries in the
    order of the keys, the order in which the code walks it. *)
Definition solution := list (Z * list UpdBlock).

(** ** [is_intersected] *)

(** The loop over [N]: [s2 = min(s2, off)], [e2 = max(e2, off + size)]. *)
Definition hull (N : list UpdBlock) : Z * Z :=
  foldl (fun '(s2, e2) b => (Z.min s2 (_offset_add b), Z.max e2 (_offset_add b + _upd_size b)))
    (INT_MAX, 0) N.

Definition is_intersected (d : UpdBlock) (N : list UpdBlock) : bool :=
  let s1 := _offset_add d in
  let e1 := s1 + _upd_size d in
  let '(s2, e2) := hull N in
  negb ((e1 <? s2) || (e2 <? s1)).

(** ** [get_upd_solu_crd] *)

(** The scan of [D] for the first block that meets [N]: that block, and [D]
    without it. *)
Fixpoint erase_first (N D : list UpdBlock) : option (UpdBlock * list UpdBlock) :=
  match D with
  | [] => None
  | d :: D' =>
      if is_intersected d N then Some (d, D')
      else '(b, D'') ← erase_first N D'; Some (b, d :: D'')
  end.

(** [while (true)]: move blocks from [D] to [N] until none meets it.  Every
    round but the last shortens [D], which bounds the rounds. *)
Fixpoint grow (fuel : nat) (N D : list UpdBlock) : list UpdBlock * list UpdBlock :=
  match fuel with
  | O => (N, D)
  | S f => match erase_first N D with
           | Some (b, D') => grow f (N ++ [b]) D'
           | None => (N, D)
           end
  end.

(** [while (D.size() != 0)] *)
Fixpoint split_sets (fuel : nat) (sub_set_id : Z) (D : list UpdBlock) : solution :=
  match fuel, D with
  | S f, blk :: D' =>
      let '(N, D'') := grow (length D') [blk] D' in
      (sub_set_id, N) :: split_sets f (sub_set_id + 1) D''
  | _, _ => []
  end.

Definition get_upd_solu_crd (upd_blk_vec : list UpdBlock) : solution :=
  split_sets (length upd_blk_vec) 0 upd_blk_vec.

(** ** [get_sub_set_id] *)
Fixpoint get_sub_set_id (upd_solu : solution) (loc_blk_id : Z) : Z :=
  match upd_solu with
  | [] => -1
  | (id, N) :: rest =>
      if existsb (fun b => _id b =? loc_blk_id) N then id else get_sub_set_id rest loc_blk_id
  end.

(** ** Ranges *)

Definition blk_ok (b : UpdBlock) : Prop :=
  0 <= _offset_add b /\ 0 <= _upd_size b /\ _offset_add b + _upd_size b <= INT_MAX.

#[export] Instance blk_ok_dec b : Decision (blk_ok b).
Proof. unfold blk_ok. apply _. Defined.

Lemma hull_app N b :
  hull (N ++ [b]) =
    (Z.min (hull N).1 (_offset_add b), Z.max (hull N).2 (_offset_add b + _upd_size b)).
Proof. unfold hull. rewrite foldl_app. simpl. by destruct (foldl _ _ N). Qed.

(** The hull covers the ranges and no more. *)
Lemma hull_spec N :
  N <> [] -> Forall blk_ok N ->
  (forall b, b ∈ N -> (hull N).1 <= _offset_add b /\ _offset_add b + _upd_size b <= (hull N).2) /\
  (exists b, b ∈ N /\ (hull N).1 = _offset_add b) /\
  (exists b, b ∈ N /\ (hull N).2 = _offset_add b + _upd_size b).
Proof.
  induction N as [|c N IH] using rev_ind; [done|]. intros _ [HN (Hc & _)%Forall_cons]%Forall_app.
  rewrite hull_app. destruct Hc as (C1 & C2 & C3). unfold INT_MAX in C3.
  assert (Hin : c ∈ N ++ [c]) by (apply elem_of_app; right; left). destruct N as [|a N].
  - unfold hull, INT_MAX. cbn [foldl app fst snd]. split_and!; [|exists c; split; [left|lia]..].
    intros b ->%list_elem_of_singleton. lia.
  - destruct (IH ltac:(done) HN) as (H1 & (b1 & B1 & E1) & (b2 & B2 & E2)). destruct (hull (a :: N)) as [s e].
    cbn [fst snd] in *. split_and!.
    + intros b [Hb|Hb%list_elem_of_singleton]%elem_of_app; [specialize (H1 b Hb)|subst b]; lia.
    + destruct (Z.min_spec s (_offset_add c)) as [[_ ->]|[_ ->]]; [|by eauto].
      exists b1. split; [apply elem_of_app; by left|done].
    + destruct (Z.max_spec e (_offset_add c + _upd_size c)) as [[_ ->]|[_ ->]]; [by eauto|].
      exists b2. split; [apply elem_of_app; by left|done].
Qed.

Lemma hull_one b : blk_ok b -> hull [b] = (_offset_add b, _offset_add b + _upd_size b).
Proof. intros (H1 & H2 & H3). unfold hull. simpl. f_equal; lia. Qed.

(** Two ranges are apart when one ends before the other starts. *)
Definition apart (r1 r2 : Z * Z) : Prop := r1.2 < r2.1 \/ r2.2 < r1.1.
Definition range (b : UpdBlock) : Z * Z := (_offset_add b, _offset_add b + _upd_size b).

Lemma not_intersected d N : is_intersected d N = false <-> apart (range d) (hull N).
Proof.
  unfold is_intersected, apart, range. destruct (hull N) as [s2 e2]. simpl.
  rewrite negb_false_iff, orb_true_iff, !Z.ltb_lt. lia.
Qed.

(** ** The growth of a subset *)

Lemma erase_first_Some N D b D' :
  erase_first N D = Some (b, D') ->
  is_intersected b N = true /\ D ≡ₚ b :: D' /\ length D = S (length D').
Proof.
  revert b D'. induction D as [|d D IH]; intros b D' H; [done|]. simpl in H.
  destruct (is_intersected d N) eqn:E; [by injection H as <- <-|].
  destruct (erase_first N D) as [[b' D'']|]; [|done]. injection H as <- <-.
  destruct (IH b' D'' eq_refl) as (H1 & H2 & H3). split_and!; [done| |simpl; lia].
  rewrite H2. apply Permutation_swap.
Qed.

Lemma erase_first_None N D :
  erase_first N D = None -> forall d, d ∈ D -> is_intersected d N = false.
Proof.
  induction D as [|d D IH]; intros H x Hx; [by apply elem_of_nil in Hx|]. simpl in H.
  destruct (is_intersected d N) eqn:E; [done|].
  apply elem_of_cons in Hx as [->|Hx]; [done|]. apply IH; [|done].
  by destruct (erase_first N D) as [[]|].
Qed.

(** An invariant of the growth: it holds of the result when absorbing a block
    that meets the subset keeps it. *)
Lemma grow_ind (P : list UpdBlock -> list UpdBlock -> Prop) fuel N D :
  P N D ->
  (forall N D b D', P N D -> is_intersected b N = true -> D ≡ₚ b :: D' -> P (N ++ [b]) D') ->
  let '(N', D') := grow fuel N D in P N' D'.
Proof.
  intros H0 Hs. revert N D H0. induction fuel as [|f IH]; intros N D H0; simpl; [done|].
  destruct (erase_first N D) as [[b D']|] eqn:E; [|done].
  destruct (erase_first_Some _ _ _ _ E) as (H1 & H2 & _). apply IH. by eapply Hs.
Qed.

(** With [length D] rounds the growth has reached its end. *)
Lemma grow_complete fuel N D :
  (length D <= fuel)%nat ->
  let '(N', D') := grow fuel N D in forall d, d ∈ D' -> is_intersected d N' = false.
Proof.
  revert N D. induction fuel as [|f IH]; intros N D Hf; simpl.
  - destruct D; [|simpl in Hf; lia]. intros d Hd. by apply elem_of_nil in Hd.
  - destruct (erase_first N D) as [[b D']|] eqn:E.
    + destruct (erase_first_Some _ _ _ _ E) as (_ & _ & Hl). apply IH. lia.
    + by apply erase_first_None.
Qed.

Lemma grow_perm fuel N D : let '(N', D') := grow fuel N D in N' ++ D' ≡ₚ N ++ D.
Proof.
  apply (grow_ind (fun N' D' => N' ++ D' ≡ₚ N ++ D)); [done|].
  intros N' D' b D'' H _ Hp. rewrite <- H, Hp, <- app_assoc. done.
Qed.

(** A range that keeps away from every block at hand keeps away from the hull
    of whatever is grown from them, on one side. *)
Lemma grow_apart fuel r N D :
  r.1 <= r.2 ->
  Forall blk_ok D -> apart (hull N) r -> (hull N).1 <= (hull N).2 ->
  (forall d, d ∈ D -> apart (range d) r) ->
  let '(N', D') := grow fuel N D in
  apart (hull N') r /\ (hull N').1 <= (hull N').2 /\ Forall blk_ok D' /\
  forall d, d ∈ D' -> apart (range d) r.
Proof.
  intros Hr HD HN Hle Hd.
  apply (grow_ind (fun N D => apart (hull N) r /\ (hull N).1 <= (hull N).2 /\ Forall blk_ok D /\
    forall d, d ∈ D -> apart (range d) r)); [done|].
  clear N D HD HN Hle Hd. intros N D b D' (H1 & H2 & H3 & H4) Hb Hp. rewrite Hp in H3.
  apply Forall_cons in H3 as [Hok H3].
  assert (Hb' : apart (range b) r) by (apply H4; rewrite Hp; left).
  assert (Hnb : ~ apart (range b) (hull N)) by (rewrite <- not_intersected, Hb; done).
  rewrite hull_app. destruct Hok as (Ho1 & Ho2 & Ho3).
  unfold apart, range in *. simpl in *. split_and!; [lia|lia|done|].
  intros d Hin. apply H4. rewrite Hp. by right.
Qed.

(** Every block after the first meets the hull of the blocks before it. *)
Definition linked (N : list UpdBlock) : Prop :=
  N <> [] /\ forall N1 b N2, N = N1 ++ b :: N2 -> N1 <> [] -> is_intersected b N1 = true.

Lemma linked_one b : linked [b].
Proof.
  split; [done|]. intros [|x [|y N1]] c N2 H Hne; simplify_eq/=; done.
Qed.

Lemma linked_snoc N b : linked N -> is_intersected b N = true -> linked (N ++ [b]).
Proof.
  intros [Hne HN] Hb. split; [by destruct N|]. intros N1 c N2 Heq Hne1.
  destruct N2 as [|y N2 _] using rev_ind.
  - apply app_inj_tail in Heq as [<- <-]. done.
  - rewrite app_comm_cons, app_assoc in Heq. apply app_inj_tail in Heq as [-> _].
    by eapply HN.
Qed.

Lemma grow_linked fuel N D : linked N -> linked (grow fuel N D).1.
Proof.
  intros HN. pose proof (grow_ind (fun N _ => linked N) fuel N D HN) as H.
  destruct (grow fuel N D). apply H. intros. by apply linked_snoc.
Qed.

(** ** The whole partition *)

Lemma grow_one blk D :
  blk_ok blk -> Forall blk_ok D ->
  let '(N, D') := grow (length D) [blk] D in
  blk :: D ≡ₚ N ++ D' /\ Forall blk_ok D' /\ linked N /\ (hull N).1 <= (hull N).2 /\
  (length D' <= length D)%nat /\ forall d, d ∈ D' -> apart (range d) (hull N).
Proof.
  intros Hb HD.
  pose proof (grow_perm (length D) [blk] D) as Hp.
  pose proof (grow_complete (length D) [blk] D (le_n _)) as Hc.
  pose proof (grow_linked (length D) [blk] D (linked_one blk)) as Hl.
  pose proof (grow_ind (fun N D => Forall blk_ok D /\ (hull N).1 <= (hull N).2) (length D) [blk] D) as Hh.
  pose proof (grow_ind (fun N D' => (length D' <= length D)%nat) (length D) [blk] D) as Hlen.
  destruct (grow (length D) [blk] D) as [N D']. simpl in Hl.
  destruct Hh as [HD' Hh].
  { rewrite hull_one by done. destruct Hb as (? & ? & ?). simpl. split; [done|lia]. }
  { intros N1 D1 b D2 [Hok1 Hle1] _ Hp1. rewrite Hp1 in Hok1. apply Forall_cons in Hok1 as [(? & ? & ?) Hok1].
    rewrite hull_app. simpl. split; [done|lia]. }
  split_and!; try done.
  - apply Hlen; [done|]. intros N1 D1 b D2 H1 _ Hp1. rewrite Hp1 in H1. simpl in H1. lia.
  - intros d Hd. by apply not_intersected, Hc.
Qed.

Lemma split_sets_perm fuel id D :
  (length D <= fuel)%nat -> Forall blk_ok D -> concat (snd <$> split_sets fuel id D) ≡ₚ D.
Proof.
  revert id D. induction fuel as [|f IH]; intros id D Hf HD; (destruct D as [|blk D]; [done|]);
    cbn [length] in Hf; [lia|]. apply Forall_cons in HD as [Hb HD]. simpl.
  pose proof (grow_one blk D Hb HD) as H. destruct (grow _ _ _) as [N D'].
  destruct H as (Hp & HD' & _ & _ & Hl & _). simpl. rewrite IH by (done || lia). by symmetry.
Qed.

Lemma split_sets_ids fuel id D :
  fst <$> split_sets fuel id D = seqZ id (Z.of_nat (length (split_sets fuel id D))).
Proof.
  revert id D. induction fuel as [|f IH]; intros id D; [done|]. destruct D as [|blk D]; [done|]. simpl.
  destruct (grow _ _ _) as [N D']. simpl. rewrite IH, (seqZ_cons id) by lia. do 2 f_equal; lia.
Qed.

Lemma split_sets_linked fuel id D : Forall (fun s => linked s.2) (split_sets fuel id D).
Proof.
  revert id D. induction fuel as [|f IH]; intros id D; [constructor|].
  destruct D as [|blk D]; [constructor|]. simpl.
  pose proof (grow_linked (length D) [blk] D (linked_one blk)) as Hl.
  destruct (grow _ _ _) as [N D']. by constructor.
Qed.

Lemma split_sets_away fuel id D r :
  r.1 <= r.2 -> Forall blk_ok D -> (forall d, d ∈ D -> apart (range d) r) ->
  Forall (fun s => apart (hull s.2) r) (split_sets fuel id D).
Proof.
  intros Hr. revert id D. induction fuel as [|f IH]; intros id D HD Haway; [constructor|].
  destruct D as [|blk D]; [constructor|]. simpl. apply Forall_cons in HD as [Hb HD].
  pose proof (grow_apart (length D) r [blk] D Hr HD) as H.
  rewrite (hull_one blk Hb) in H. destruct (grow _ _ _) as [N D'].
  destruct H as (H1 & _ & H2 & H3).
  - apply Haway. left.
  - destruct Hb as (? & ? & ?). simpl. lia.
  - intros d Hd. apply Haway. by right.
  - constructor; [done|]. by apply IH.
Qed.

Lemma split_sets_apart fuel id D :
  Forall blk_ok D -> ForallOrdPairs (fun s t => apart (hull t.2) (hull s.2)) (split_sets fuel id D).
Proof.
  revert id D. induction fuel as [|f IH]; intros id D HD; [constructor|].
  destruct D as [|blk D]; [constructor|]. simpl. apply Forall_cons in HD as [Hb HD].
  pose proof (grow_one blk D Hb HD) as H. destruct (grow _ _ _) as [N D'].
  destruct H as (_ & HD' & _ & Hle & _ & Hap). constructor; [|by apply IH].
  by apply (split_sets_away f _ D' (hull N)).
Qed.

(** C15: [get_upd_solu_crd] partitions the updated blocks of a stripe: each
    block is in exactly one subset, the subsets are numbered from 0, each one
    is linked (built by blocks that meet the range of those before), and the
    ranges of two different subsets are apart, so no merge was missed. *)
Theorem get_upd_solu_crd_partition upd_blk_vec :
  Forall blk_ok upd_blk_vec ->
  let upd_solu := get_upd_solu_crd upd_blk_vec in
  concat (snd <$> upd_solu) ≡ₚ upd_blk_vec /\
  fst <$> upd_solu = seqZ 0 (Z.of_nat (length upd_solu)) /\
  Forall (fun s => linked s.2) upd_solu /\
  ForallOrdPairs (fun s t => apart (hull t.2) (hull s.2)) upd_solu.
Proof.
  intros Hok. unfold get_upd_solu_crd. cbn zeta. split_and!.
  - by apply split_sets_perm.
  - apply split_sets_ids.
  - apply split_sets_linked.
  - by apply split_sets_apart.
Qed.

Lemma get_upd_solu_crd_partition_witness :
  let blks := [mkUpdBlock 0 7 0 4; mkUpdBlock 1 8 10 2; mkUpdBlock 2 9 3 2] in
  get_upd_solu_crd blks = [(0, [mkUpdBlock 0 7 0 4; mkUpdBlock 2 9 3 2]); (1, [mkUpdBlock 1 8 10 2])] /\
  concat (snd <$> get_upd_solu_crd blks) ≡ₚ blks.
Proof.
  split; [reflexivity|].
  apply (get_upd_solu_crd_partition [mkUpdBlock 0 7 0 4; mkUpdBlock 1 8 10 2; mkUpdBlock 2 9 3 2]).
  decided.
Defined.

(** ** Looking up the subset of a block *)

Lemma get_sub_set_id_in sol id :
  get_sub_set_id sol id <> -1 -> exists N b, (get_sub_set_id sol id, N) ∈ sol /\ b ∈ N /\ _id b = id.
Proof.
  induction sol as [|[i N] sol IH]; simpl; [done|].
  destruct (existsb _ N) eqn:E.
  - intros _. apply existsb_exists in E as (b & Hb & Heq%Z.eqb_eq). exists N, b.
    split_and!; [left|by apply list_elem_of_In|done].
  - intros H. destruct (IH H) as (N' & b & H1 & H2 & H3). exists N', b. split_and!; [by right|done|done].
Qed.

Lemma get_sub_set_id_miss sol id :
  Forall (fun i => 0 <= i) sol.*1 ->
  get_sub_set_id sol id = -1 <-> forall b, b ∈ concat (snd <$> sol) -> _id b <> id.
Proof.
  induction sol as [|[i N] sol IH]; simpl; intros Hpos.
  - split; [|done]. intros _ b Hb. by apply elem_of_nil in Hb.
  - apply Forall_cons in Hpos as [Hi Hpos]. destruct (existsb _ N) eqn:E.
    + split; [lia|]. intros H. apply existsb_exists in E as (b & Hb & Heq%Z.eqb_eq).
      exfalso. apply (H b); [|done]. apply elem_of_app. left. by apply list_elem_of_In.
    + rewrite (IH Hpos). split; intros H b Hb; [|apply H, elem_of_app; by right].
      apply elem_of_app in Hb as [Hb|Hb]; [|by apply H].
      intros Heq. apply not_true_iff_false in E. apply E, existsb_exists.
      exists b. split; [by apply list_elem_of_In|lia].
Qed.

Lemma seqZ_nonneg n m : 0 <= n -> Forall (fun i => 0 <= i) (seqZ n m).
Proof. intros Hn. apply Forall_forall. intros i Hi%elem_of_seqZ. lia. Qed.

Lemma sub_set_id_found upd_blk_vec b :
  Forall blk_ok upd_blk_vec -> b ∈ upd_blk_vec -> get_sub_set_id (get_upd_solu_crd upd_blk_vec) (_id b) <> -1.
Proof.
  intros Hok Hb H. unfold get_upd_solu_crd in H.
  pose proof (split_sets_perm (length upd_blk_vec) 0 upd_blk_vec (le_n _) Hok) as Hp.
  rewrite get_sub_set_id_miss in H by (rewrite split_sets_ids; by apply seqZ_nonneg).
  apply (H b); [by rewrite Hp|done].
Qed.

(** With distinct ids, a block is in the subset [get_sub_set_id] names and in
    no other. *)
Lemma get_sub_set_id_member (sol : solution) j N b :
  NoDup (_id <$> concat (snd <$> sol)) -> (j, N) ∈ sol -> b ∈ N -> get_sub_set_id sol (_id b) = j.
Proof.
  induction sol as [|[i M] sol IH]; simpl; intros Hnd Hin Hb; [by apply elem_of_nil in Hin|].
  rewrite fmap_app in Hnd. apply NoDup_app in Hnd as (_ & Hdis & Hnd).
  apply elem_of_cons in Hin as [[= -> ->]|Hin].
  - replace (existsb _ M) with true; [done|]. symmetry. apply existsb_exists.
    exists b. split; [by apply list_elem_of_In|lia].
  - destruct (existsb _ M) eqn:E; [|by apply IH].
    apply existsb_exists in E as (c & Hc%list_elem_of_In & Heq%Z.eqb_eq). exfalso.
    apply (Hdis (_id c)); [by apply (list_elem_of_fmap_2 _id)|]. rewrite Heq. apply (list_elem_of_fmap_2 _id).
    apply list_elem_of_In, in_concat. exists N. split; [|by apply list_elem_of_In].
    apply list_elem_of_In. by apply (list_elem_of_fmap_2 snd _ _ Hin).
Qed.

Lemma subset_members upd_blk_vec j N b :
  Forall blk_ok upd_blk_vec -> NoDup (_id <$> upd_blk_vec) -> (j, N) ∈ get_upd_solu_crd upd_blk_vec ->
  b ∈ N <-> b ∈ upd_blk_vec /\ get_sub_set_id (get_upd_solu_crd upd_blk_vec) (_id b) = j.
Proof.
  intros Hok Hnd Hin. set (sol := get_upd_solu_crd upd_blk_vec) in *.
  assert (Hp : concat (snd <$> sol) ≡ₚ upd_blk_vec) by (by apply split_sets_perm).
  assert (Hnd' : NoDup (_id <$> concat (snd <$> sol))) by (by rewrite Hp).
  assert (Hkeys : NoDup (fst <$> sol)) by (unfold sol, get_upd_solu_crd; rewrite split_sets_ids; apply NoDup_seqZ).
  assert (Hsub : forall i M c, (i, M) ∈ sol -> c ∈ M -> c ∈ upd_blk_vec).
  { intros i M c HM Hc. rewrite <- Hp. apply list_elem_of_In, in_concat. exists M.
    split; [apply list_elem_of_In; by apply (list_elem_of_fmap_2 snd _ _ HM)|by apply list_elem_of_In]. }
  split.
  - intros Hb. split; [by eapply Hsub|by eapply get_sub_set_id_member].
  - intros [Hb Hj]. rewrite <- Hp in Hb. apply list_elem_of_In, in_concat in Hb as (M & HM & Hb).
    apply list_elem_of_In, list_elem_of_fmap in HM as ([i M'] & -> & HM). apply list_elem_of_In in Hb.
    rewrite (get_sub_set_id_member sol i M' b Hnd' HM Hb) in Hj. subst i.
    apply list_elem_of_lookup in HM as [x Hx]. apply list_elem_of_lookup in Hin as [y Hy].
    assert (x = y) as <-.
    { apply (NoDup_lookup _ _ _ j Hkeys); rewrite list_lookup_fmap; [by rewrite Hx|by rewrite Hy]. }
    rewrite Hx in Hy. by injection Hy as ->.
Qed.

Lemma split_sets_length fuel id D : (length (split_sets fuel id D) <= length D)%nat.
Proof.
  revert id D. induction fuel as [|f IH]; intros id D; simpl; [lia|]. destruct D as [|blk D]; [done|].
  pose proof (grow_ind (fun N D' => (length D' <= length D)%nat) (length D) [blk] D) as Hlen.
  destruct (grow _ _ _) as [N D']. simpl. specialize (IH (id + 1) D'). apply le_n_S. etrans; [exact IH|].
  apply Hlen; [done|]. intros N1 D1 b D2 H1 _ Hp1. rewrite Hp1 in H1. simpl in H1. lia.
Qed.

(** [get_sub_set_id] finds, for every block of the stripe, a subset of the
    solution that holds a block with its id, so the [exit] that guards its
    [-1] in [CrdUpdate] is never reached; it answers -1 on all other ids. *)
Theorem get_sub_set_id_total upd_blk_vec id :
  Forall blk_ok upd_blk_vec ->
  let upd_solu := get_upd_solu_crd upd_blk_vec in
  let s := get_sub_set_id upd_solu id in
  (id ∈ _id <$> upd_blk_vec ->
     0 <= s < Z.of_nat (length upd_solu) /\ exists N b, (s, N) ∈ upd_solu /\ b ∈ N /\ _id b = id) /\
  (id ∉ _id <$> upd_blk_vec -> s = -1).
Proof.
  intros Hok. cbn zeta. unfold get_upd_solu_crd. set (n := length upd_blk_vec).
  pose proof (split_sets_ids n 0 upd_blk_vec) as Hids.
  assert (Hpos : Forall (fun i => 0 <= i) (split_sets n 0 upd_blk_vec).*1)
    by (rewrite Hids; by apply seqZ_nonneg).
  pose proof (get_sub_set_id_miss _ id Hpos) as Hmiss.
  pose proof (split_sets_perm n 0 upd_blk_vec (le_n _) Hok) as Hp. split.
  - intros (b & -> & Hb)%list_elem_of_fmap.
    pose proof (sub_set_id_found upd_blk_vec b Hok Hb) as Hne. unfold get_upd_solu_crd in Hne. fold n in Hne.
    destruct (get_sub_set_id_in _ _ Hne) as (N & c & H1 & H2 & H3). split; [|by eauto].
    apply (list_elem_of_fmap_2 fst) in H1. simpl in H1. rewrite Hids in H1.
    apply elem_of_seqZ in H1. lia.
  - intros Hnot. apply Hmiss. intros b Hb Hid. apply Hnot, list_elem_of_fmap. exists b. split; [done|]. by rewrite <- Hp.
Qed.

Lemma get_sub_set_id_total_witness :
  get_sub_set_id (get_upd_solu_crd [mkUpdBlock 0 7 0 4; mkUpdBlock 1 8 10 2; mkUpdBlock 2 9 3 2]) 5 = -1.
Proof.
  apply (get_sub_set_id_total [mkUpdBlock 0 7 0 4; mkUpdBlock 1 8 10 2; mkUpdBlock 2 9 3 2] 5); decided.
Defined.
