(* ===== verification/UPCoordinator.v ===== *)
(** * The update coordinator (UPCoordinator.cc)

    The commands the coordinator sends for the updates of a stripe under the
    three policies, and the loops that send them stripe by stripe and wait for
    the acknowledgements of the parity nodes. *)
From stdpp Require Import strings.
From S2P Require Import Prelude Command Text Config UpdPlan.

(** What a run of the coordinator has done and what is left for it: how many
    times it called [rand], the replies still to come on its [ack] queue, and
    the commands pushed so far with the address of the node they went to. *)
Record coord := mkCoord { draws : nat; acks : list reply; pushed : list (Z * list Z) }.

(** ** Sending a command *)

Section coordinator.
Context (conf : Config) (_rsEncMat : list Z).

(** [rand()], and the array [char upd_cmd[COMMAND_MAX_LENGTH]] before it is
    written; no result depends on what it holds. *)
Context (rnd : nat -> Z) (upd_cmd : list Z).

Abbreviation ecK := (_ecK conf).
Abbreviation ecM := (_ecM conf).

(** [redisCommand(_ip2Ctx[ip], "RPUSH upd_cmds %b", upd_cmd, cur)]: [init]
    opened a context for every helper, and the map has no other. *)
Definition push_cmd (ip : Z) (w : wbuf) (st : coord) : res coord :=
  if bool_decide (ip ∈ _helpersIPs conf)
  then Ok (mkCoord (draws st) (acks st) (pushed st ++ [(ip, sent w)]))
  else Fault Undef.

(** Fill [upd_cmd] from [cur = 0] and push it; the array is reused. *)
Definition issue (ip : Z) (fill : wbuf -> res wbuf) (ms : list Z * coord) : res (list Z * coord) :=
  let '(mem, st) := ms in
  w ← fill (rewind mem);
  st ← push_cmd ip w st;
  Ok (wb_mem w, st).

(** [_rsEncMat[j * ecK + blk_id]] *)
Definition coff (j : nat) (blk_id : Z) : res Z := at_int _rsEncMat (Z.of_nat (j * ecK) + blk_id).

(** [for (int j=0; j<ecM; j++) { int coff = ...; memcpy(...); cur += len; }] *)
Definition put_coffs (blk_id : Z) : wbuf -> res wbuf :=
  for_each (seq 0 ecM) (fun j w => c ← coff j blk_id; put c w).

(** [rand() % n], which is undefined for [n = 0]. *)
Definition rand_mod (n : Z) (st : coord) : res (Z * coord) :=
  if n =? 0 then Fault Undef
  else Ok (Z.rem (rnd (draws st)) n, mkCoord (S (draws st)) (acks st) (pushed st)).

(** Send [task] with its operands to helper [i] ([_conf->_helpersIPs[i]]). *)
Definition to_helper (i : Z) (fill : wbuf -> res wbuf) (ms : list Z * coord) : res (list Z * coord) :=
  ip ← at_int (_helpersIPs conf) i;
  issue ip fill ms.

(** ** [RaidUpdate] *)

Definition RaidUpdate (upd_blk_vec : list UpdBlock) (st : coord) : res coord :=
  let upd_num := Z.of_nat (length upd_blk_vec) in
  '(rand_collector, st) ← rand_mod upd_num st;
  collector ← at_int upd_blk_vec rand_collector;
  let collector_id := _id collector in
  '(_, st) ←
    (for_each upd_blk_vec (fun b ms =>
       if _id b =? collector_id then Ok ms
       else issue (_ip b) (put 1 ;> skip ;> put (_id b) ;> put collector_id ;> patch_len) ms) ;>
     issue (_ip collector)
       (put 2 ;> skip ;> put upd_num ;>
        for_each upd_blk_vec (fun b => put (_id b) ;> put_coffs (_id b)) ;>
        for_each (seq 0 ecM) (fun i => put (Z.of_nat (ecK + i))) ;> patch_len) ;>
     for_each (seq 0 ecM) (fun i =>
       let blk_id := Z.of_nat (ecK + i) in
       to_helper blk_id (put 3 ;> skip ;> put blk_id ;> patch_len))) (upd_cmd, st);
  Ok st.

(** ** [DeltaUpdate] *)

Definition DeltaUpdate (upd_blk_vec : list UpdBlock) (st : coord) : res coord :=
  let upd_num := Z.of_nat (length upd_blk_vec) in
  '(_, st) ←
    (for_each (seq 0 ecM) (fun i =>
       let blk_id := Z.of_nat (ecK + i) in
       to_helper blk_id (put 5 ;> skip ;> put upd_num ;> put blk_id ;> patch_len)) ;>
     for_each upd_blk_vec (fun b =>
       issue (_ip b)
         (put 4 ;> skip ;> put (_id b) ;> put (_offset_add b) ;> put (_upd_size b) ;>
          put_coffs (_id b) ;>
          for_each (seq 0 ecM) (fun j => put (Z.of_nat (ecK + j))) ;> patch_len))) (upd_cmd, st);
  Ok st.

(** ** [CrdUpdate] *)

(** The merged range of a subset, as the loop over it computes it. *)
Definition sub_set_range (N : list UpdBlock) : Z * Z :=
  let '(start_add, end_add) :=
    foldl (fun '(start_add, end_add) b =>
      (Z.min start_add (_offset_add b), Z.max end_add (_offset_add b + _upd_size b) - 1)) (INT_MAX, 0) N in
  (start_add, end_add - start_add + 1).

(** The subset of a block, or the [exit] when it has none. *)
Definition put_sub_set_id (upd_solu : solution) (loc_blk_id : Z) (w : wbuf) : res wbuf :=
  let sub_set_id := get_sub_set_id upd_solu loc_blk_id in
  if sub_set_id =? -1 then Fault (Exit (-1)) else put sub_set_id w.

Definition CrdUpdate (upd_blk_vec : list UpdBlock) (st : coord) : res coord :=
  let upd_num := Z.of_nat (length upd_blk_vec) in
  '(r, st) ← rand_mod (Z.of_nat ecM) st;
  let parity_collector_id := r + Z.of_nat ecK in
  let upd_solu := get_upd_solu_crd upd_blk_vec in
  let sub_set_num := Z.of_nat (length upd_solu) in
  '(_, st) ←
    (for_each upd_blk_vec (fun b =>
       issue (_ip b)
         (put 6 ;> skip ;> put (_id b) ;> put (_offset_add b) ;> put (_upd_size b) ;>
          put parity_collector_id ;> patch_len)) ;>
     to_helper parity_collector_id
       (put 7 ;> skip ;> put parity_collector_id ;> put upd_num ;> put sub_set_num ;>
        for_each upd_blk_vec (fun b =>
          put (_id b) ;> put_sub_set_id upd_solu (_id b) ;>
          put (_offset_add b) ;> put (_upd_size b) ;> put_coffs (_id b)) ;>
        for_each (seq 0 ecM) (fun i w =>
          if parity_collector_id =? Z.of_nat (ecK + i) then Ok w else put (Z.of_nat (ecK + i)) w) ;>
        patch_len) ;>
     for_each (seq 0 ecM) (fun i ms =>
       let blk_id := Z.of_nat (ecK + i) in
       if blk_id =? parity_collector_id then Ok ms
       else to_helper blk_id
              (put 8 ;> skip ;> put blk_id ;> put sub_set_num ;>
               for_each upd_solu (fun '(sub_set_id, N) =>
                 let '(offset_add, upd_size) := sub_set_range N in
                 put sub_set_id ;> put offset_add ;> put upd_size) ;>
               patch_len) ms)) (upd_cmd, st);
  Ok st.

(** ** Acknowledgements *)

(** [init]: one [test] message from every helper. *)
Definition init (replies : list reply) : res (list reply) :=
  wait_replies (Z.of_nat (length (_helpersIPs conf))) replies.

(** [recvAck]: one [ack] from every parity node. *)
Definition recvAck (st : coord) : res (Z * coord) :=
  rest ← wait_replies (Z.of_nat ecM) (acks st);
  Ok (1, mkCoord (draws st) rest (pushed st)).

(** The dispatch on the policy, an error when it is none of the names. *)
Definition run_policy (policy : str) (upd_blk_vec : list UpdBlock) (st : coord) : res coord :=
  if decide (policy = lit "raid") then RaidUpdate upd_blk_vec st
  else if decide (policy = lit "delta") then DeltaUpdate upd_blk_vec st
  else if decide (policy = lit "crd") then CrdUpdate upd_blk_vec st
  else Fault (Exit (-1)).

(** ** The commands of a stripe

    The plans below list, for every policy, the node each command goes to, its
    task type and its operands, in the order of the pushes. *)

Definition plan := list (Z * (Z * list Z)).
Definition deliver (p : plan) : list (Z * list Z) := (fun '(ip, (task, vs)) => (ip, command task vs)) <$> p.

Definition helper (i : nat) : Z := _helpersIPs conf !!! i.
Definition parity_ids : list Z := (fun i => Z.of_nat (ecK + i)) <$> seq 0 ecM.
Definition coffs (blk_id : Z) : list Z := (fun j => _rsEncMat !!! (j * ecK + Z.to_nat blk_id)%nat) <$> seq 0 ecM.

Definition raid_plan (collector : UpdBlock) (blks : list UpdBlock) : plan :=
  flat_map (fun b => if _id b =? _id collector then [] else [(_ip b, (1, [_id b; _id collector]))]) blks ++
  (_ip collector, (2, Z.of_nat (length blks) :: flat_map (fun b => _id b :: coffs (_id b)) blks ++ parity_ids)) ::
  flat_map (fun i => [(helper (ecK + i), (3, [Z.of_nat (ecK + i)]))]) (seq 0 ecM).

Definition delta_plan (blks : list UpdBlock) : plan :=
  flat_map (fun i => [(helper (ecK + i), (5, [Z.of_nat (length blks); Z.of_nat (ecK + i)]))]) (seq 0 ecM) ++
  flat_map (fun b =>
    [(_ip b, (4, [_id b; _offset_add b; _upd_size b] ++ coffs (_id b) ++ parity_ids))]) blks.

Definition crd_plan (parity_collector_id : Z) (blks : list UpdBlock) : plan :=
  let upd_solu := get_upd_solu_crd blks in
  let sub_set_num := Z.of_nat (length upd_solu) in
  flat_map (fun b => [(_ip b, (6, [_id b; _offset_add b; _upd_size b; parity_collector_id]))]) blks ++
  (helper (Z.to_nat parity_collector_id),
    (7, [parity_collector_id; Z.of_nat (length blks); sub_set_num] ++
        flat_map (fun b => [_id b; get_sub_set_id upd_solu (_id b); _offset_add b; _upd_size b] ++ coffs (_id b)) blks ++
        flat_map (fun i => if parity_collector_id =? Z.of_nat (ecK + i) then [] else [Z.of_nat (ecK + i)]) (seq 0 ecM))) ::
  flat_map (fun i => if Z.of_nat (ecK + i) =? parity_collector_id then [] else
    [(helper (ecK + i),
       (8, [Z.of_nat (ecK + i); sub_set_num] ++
           flat_map (fun s => let '(offset_add, upd_size) := sub_set_range s.2 in [s.1; offset_add; upd_size]) upd_solu))])
    (seq 0 ecM).

(** The deployment the theorems assume: a helper for every block of the stripe
    and a complete encoding matrix; the updated blocks are data blocks. *)
Definition conf_ok : Prop :=
  (ecK <= _ecN conf)%nat /\ (_ecN conf <= length (_helpersIPs conf))%nat /\
  length _rsEncMat = (ecM * ecK)%nat /\ length upd_cmd = COMMAND_MAX_LENGTH /\ (forall n, 0 <= rnd n).
Definition blk_here (b : UpdBlock) : Prop := 0 <= _id b < Z.of_nat ecK /\ _ip b ∈ _helpersIPs conf.

(** ** Fillers: the writers that amount to a sequence of [put]s *)

Definition fills (f : wbuf -> res wbuf) (vs : list Z) : Prop := forall w, f w = puts vs w.
Definition tails (f : wbuf -> res wbuf) (vs : list Z) : Prop := forall w, f w = puts vs w ≫= patch_len.

Lemma fills_put v : fills (put v) [v].
Proof. intros w. by rewrite puts_one. Qed.
Lemma fills_skip : fills (fun w => Ok w) [].
Proof. done. Qed.
Lemma fills_seq f g v1 v2 : fills f v1 -> fills g v2 -> fills (f ;> g) (v1 ++ v2).
Proof.
  intros Hf Hg w. unfold seqr. rewrite puts_app, Hf. destruct (puts v1 w); [apply Hg|done].
Qed.
Lemma fills_loop {A} (l : list A) f g :
  (forall x, x ∈ l -> fills (f x) (g x)) -> fills (for_each l f) (flat_map g l).
Proof.
  induction l as [|x l IH]; intros H w; [done|]. cbn [for_each flat_map].
  rewrite puts_app, (H x (list_elem_of_here _ _)). destruct (puts (g x) w); [|done].
  apply IH. intros y Hy. apply H. by right.
Qed.
Lemma tails_patch : tails patch_len [].
Proof. done. Qed.
Lemma tails_seq f g v1 v2 : fills f v1 -> tails g v2 -> tails (f ;> g) (v1 ++ v2).
Proof.
  intros Hf Hg w. unfold seqr. rewrite puts_app, Hf. destruct (puts v1 w); [apply Hg|done].
Qed.

Lemma fills_ids : fills (for_each (seq 0 ecM) (fun i => put (Z.of_nat (ecK + i)))) parity_ids.
Proof.
  replace parity_ids with (flat_map (fun i => [Z.of_nat (ecK + i)]) (seq 0 ecM)).
  - apply fills_loop. intros. apply fills_put.
  - unfold parity_ids. induction (seq 0 ecM); [done|]. simpl. by f_equal.
Qed.

Lemma fills_coffs blk_id :
  conf_ok -> 0 <= blk_id < Z.of_nat ecK -> fills (put_coffs blk_id) (coffs blk_id).
Proof.
  intros (_ & _ & Hl & _) Hb.
  replace (coffs blk_id) with (flat_map (fun j => [_rsEncMat !!! (j * ecK + Z.to_nat blk_id)%nat]) (seq 0 ecM)).
  - apply fills_loop. intros j Hj%elem_of_seq w. unfold coff.
    replace (Z.of_nat (j * ecK) + blk_id) with (Z.of_nat (j * ecK + Z.to_nat blk_id)) by lia.
    erewrite at_int_nat by (apply list_lookup_lookup_total_lt; nia). rewrite bind_ok. apply fills_put.
  - unfold coffs. induction (seq 0 ecM); [done|]. simpl. by f_equal.
Qed.

(** ** Pushers: the steps that push the commands of a plan *)

Definition sends (p : plan) (st : coord) : coord := mkCoord (draws st) (acks st) (pushed st ++ deliver p).

Definition pushes (f : list Z * coord -> res (list Z * coord)) (p : plan) : Prop :=
  forall mem st, length mem = COMMAND_MAX_LENGTH ->
    exists mem', length mem' = COMMAND_MAX_LENGTH /\ f (mem, st) = Ok (mem', sends p st).

(** Words of operands a command has room for: [(1024 - 8) / 4]. *)
Definition max_operands : nat := 254.

Lemma sends_app p1 p2 st : sends (p1 ++ p2) st = sends p2 (sends p1 st).
Proof. unfold sends, deliver. simpl. by rewrite fmap_app, app_assoc. Qed.

Lemma tails_command task f vs w :
  tails f vs -> (put task ;> skip ;> f) w = write_command task vs w.
Proof.
  intros Hf. unfold write_command, seqr. destruct (put task w) as [w1|]; [|done].
  rewrite !bind_ok. destruct (skip w1) as [w2|]; [|done]. rewrite !bind_ok. apply Hf.
Qed.

Lemma issue_pushes ip task f vs :
  tails f vs -> (length vs <= max_operands)%nat -> ip ∈ _helpersIPs conf ->
  pushes (issue ip (put task ;> skip ;> f)) [(ip, (task, vs))].
Proof.
  intros Hf Hl Hip mem st Hm. unfold issue. rewrite (tails_command _ _ _ _ Hf).
  unfold max_operands, COMMAND_MAX_LENGTH in *.
  destruct (write_command_ok task vs mem) as (w & -> & Hs & Hw); [lia|].
  rewrite bind_ok. unfold push_cmd. rewrite bool_decide_true by done. rewrite bind_ok.
  exists (wb_mem w). split; [lia|]. unfold sends. simpl. by rewrite Hs.
Qed.

Lemma issue_overflow ip task f vs mem st :
  tails f vs -> (max_operands < length vs)%nat -> length mem = COMMAND_MAX_LENGTH ->
  issue ip (put task ;> skip ;> f) (mem, st) = Fault Undef.
Proof.
  intros Hf Hl Hm. unfold issue. rewrite (tails_command _ _ _ _ Hf).
  unfold max_operands, COMMAND_MAX_LENGTH in *.
  rewrite write_command_overflow by lia. done.
Qed.

Lemma to_helper_lookup i f ms :
  conf_ok -> (i < _ecN conf)%nat -> to_helper (Z.of_nat i) f ms = issue (helper i) f ms.
Proof.
  intros (_ & Hn & _) Hi. unfold to_helper, helper.
  erewrite at_int_nat by (apply list_lookup_lookup_total_lt; lia). done.
Qed.

Lemma helper_in i : conf_ok -> (i < _ecN conf)%nat -> helper i ∈ _helpersIPs conf.
Proof. intros (_ & Hn & _) Hi. apply list_elem_of_lookup_total_2. lia. Qed.

Lemma to_helper_pushes i task f vs :
  conf_ok -> (i < _ecN conf)%nat -> tails f vs -> (length vs <= max_operands)%nat ->
  pushes (to_helper (Z.of_nat i) (put task ;> skip ;> f)) [(helper i, (task, vs))].
Proof.
  intros Hc Hi Hf Hl mem st Hm. rewrite to_helper_lookup by done.
  apply issue_pushes; auto using helper_in.
Qed.

Lemma pushes_nop : pushes (fun ms => Ok ms) [].
Proof.
  intros mem [d a p] Hm. exists mem. split; [done|]. unfold sends. simpl. by rewrite app_nil_r.
Qed.

Lemma pushes_seq f g p1 p2 : pushes f p1 -> pushes g p2 -> pushes (f ;> g) (p1 ++ p2).
Proof.
  intros Hf Hg mem st Hm. destruct (Hf mem st Hm) as (m1 & H1 & E1).
  destruct (Hg m1 (sends p1 st) H1) as (m2 & H2 & E2). exists m2. split; [done|].
  unfold seqr. rewrite E1, bind_ok, E2. by rewrite sends_app.
Qed.

Lemma pushes_loop {A} (l : list A) f g :
  (forall x, x ∈ l -> pushes (f x) (g x)) -> pushes (for_each l f) (flat_map g l).
Proof.
  induction l as [|x l IH]; intros H; [apply pushes_nop|]. cbn [for_each flat_map].
  apply (pushes_seq (f x) (for_each l f)); [apply H; left|]. apply IH. intros. apply H. by right.
Qed.

(** A sequence whose next step runs out of the array. *)
Lemma seqr_overflow f (g : list Z * coord -> res (list Z * coord)) p mem st :
  pushes f p -> (forall mem st, length mem = COMMAND_MAX_LENGTH -> g (mem, st) = Fault Undef) ->
  length mem = COMMAND_MAX_LENGTH -> (f ;> g) (mem, st) = Fault Undef.
Proof.
  intros Hf Hg Hm. destruct (Hf mem st Hm) as (m1 & H1 & E1). unfold seqr. rewrite E1, bind_ok. by apply Hg.
Qed.

Lemma seqr_fault (f g : list Z * coord -> res (list Z * coord)) mem st :
  f (mem, st) = Fault Undef -> (f ;> g) (mem, st) = Fault Undef.
Proof. unfold seqr. by intros ->. Qed.

Lemma length_coffs blk_id : length (coffs blk_id) = ecM.
Proof. unfold coffs. by rewrite length_fmap, length_seq. Qed.
Lemma length_parity_ids : length parity_ids = ecM.
Proof. unfold parity_ids. by rewrite length_fmap, length_seq. Qed.

Lemma length_flat_map_const {A B} (f : A -> list B) l n :
  (forall x, length (f x) = n) -> length (flat_map f l) = (length l * n)%nat.
Proof. intros H. induction l as [|x l IH]; [done|]. simpl. rewrite length_app, H, IH. lia. Qed.

(** ** The three policies send their plans *)

Lemma tails_collector blks :
  conf_ok -> Forall blk_here blks ->
  tails (put (Z.of_nat (length blks)) ;>
         for_each blks (fun b => put (_id b) ;> put_coffs (_id b)) ;>
         for_each (seq 0 ecM) (fun i => put (Z.of_nat (ecK + i))) ;> patch_len)
    (Z.of_nat (length blks) :: flat_map (fun b => _id b :: coffs (_id b)) blks ++ parity_ids).
Proof.
  intros Hc Hb. rewrite <- (app_nil_r parity_ids).
  apply (tails_seq _ _ [_]); [apply fills_put|]. apply tails_seq.
  - apply fills_loop. intros b Hin. apply (fills_seq _ _ [_]); [apply fills_put|].
    apply fills_coffs; [done|]. rewrite Forall_forall in Hb. by apply Hb.
  - apply tails_seq; [apply fills_ids|apply tails_patch].
Qed.

(** The body of [RaidUpdate] once the collector is known. *)
Lemma raid_body collector blks (Hc : conf_ok) (Hb : Forall blk_here blks) (Hin : collector ∈ blks) :
  let notify := for_each blks (fun b ms =>
       if _id b =? _id collector then Ok ms
       else issue (_ip b) (put 1 ;> skip ;> put (_id b) ;> put (_id collector) ;> patch_len) ms) in
  let gather := issue (_ip collector)
       (put 2 ;> skip ;> put (Z.of_nat (length blks)) ;>
        for_each blks (fun b => put (_id b) ;> put_coffs (_id b)) ;>
        for_each (seq 0 ecM) (fun i => put (Z.of_nat (ecK + i))) ;> patch_len) in
  let save := for_each (seq 0 ecM) (fun i =>
       to_helper (Z.of_nat (ecK + i)) (put 3 ;> skip ;> put (Z.of_nat (ecK + i)) ;> patch_len)) in
  let size := (1 + length blks * (1 + ecM) + ecM)%nat in
  ((size <= max_operands)%nat -> pushes (notify ;> gather ;> save) (raid_plan collector blks)) /\
  ((max_operands < size)%nat -> forall st, (notify ;> gather ;> save) (upd_cmd, st) = Fault Undef).
Proof.
  intros notify gather save size. rewrite Forall_forall in Hb.
  assert (Hsize : length (Z.of_nat (length blks) :: flat_map (fun b => _id b :: coffs (_id b)) blks ++ parity_ids) = size).
  { cbn [length]. rewrite length_app, length_parity_ids. unfold size.
    rewrite (length_flat_map_const _ _ (1 + ecM)); [lia|]. intros x. simpl. by rewrite length_coffs. }
  assert (Hn : pushes notify (flat_map (fun b =>
    if _id b =? _id collector then [] else [(_ip b, (1, [_id b; _id collector]))]) blks)).
  { apply pushes_loop. intros b Hbin. destruct (_id b =? _id collector); [apply pushes_nop|].
    apply issue_pushes; [|unfold max_operands; simpl; lia|by apply Hb].
    apply (tails_seq _ _ [_]); [apply fills_put|]. apply (tails_seq _ _ [_]); [apply fills_put|apply tails_patch]. }
  assert (Ht := tails_collector blks Hc (proj2 (Forall_forall _ _) Hb)).
  split.
  - intros Hfit. apply pushes_seq; [done|]. apply (pushes_seq _ _ [_]).
    + apply issue_pushes; [done|by rewrite Hsize|by apply Hb].
    + apply pushes_loop. intros i Hi%elem_of_seq. destruct Hc as [Hkn Hc'].
      apply to_helper_pushes; [by split|unfold _ecM in *; lia| |unfold max_operands; simpl; lia].
      apply (tails_seq _ _ [_]); [apply fills_put|apply tails_patch].
  - intros Hbig st. eapply seqr_overflow; [done| |apply Hc]. intros mem st' Hm.
    apply seqr_fault. by apply issue_overflow with (vs := Z.of_nat (length blks) ::
      flat_map (fun b => _id b :: coffs (_id b)) blks ++ parity_ids); rewrite ?Hsize.
Qed.

Lemma rand_mod_ok n st :
  (forall n, 0 <= rnd n) -> 0 < n ->
  exists r, 0 <= r < n /\ r = rnd (draws st) mod n /\
    rand_mod n st = Ok (r, mkCoord (S (draws st)) (acks st) (pushed st)).
Proof.
  intros Hr Hn. exists (rnd (draws st) mod n). split_and!.
  1,2: apply Z.mod_pos_bound; lia. { done. }
  unfold rand_mod. destruct (Z.eqb_spec n 0); [lia|]. do 2 f_equal. by rewrite Z.rem_mod_nonneg by (auto || lia).
Qed.

(** The states that [RaidUpdate], [DeltaUpdate] and [CrdUpdate] leave: the plan
    was pushed, with [d] calls of [rand]. *)
Definition after (d : nat) (p : plan) (st : coord) : coord :=
  mkCoord (d + draws st) (acks st) (pushed st ++ deliver p).

Lemma RaidUpdate_run blks st :
  conf_ok -> Forall blk_here blks -> blks <> [] ->
  exists collector, blks !! Z.to_nat (rnd (draws st) mod Z.of_nat (length blks)) = Some collector /\
    RaidUpdate blks st =
      if bool_decide (1 + length blks * (1 + ecM) + ecM <= max_operands)%nat
      then Ok (after 1 (raid_plan collector blks) st) else Fault Undef.
Proof.
  intros Hc Hb Hne. assert (Hlen : 0 < Z.of_nat (length blks)) by (destruct blks; [done|simpl; lia]).
  pose proof Hc as (_ & _ & _ & Hmem & Hrnd).
  destruct (rand_mod_ok (Z.of_nat (length blks)) st Hrnd Hlen) as (r & Hr & Hrd & Hrand).
  rewrite <- Hrd.
  destruct (lookup_lt_is_Some_2 blks (Z.to_nat r)) as [collector Hlk]; [lia|]. exists collector.
  assert (Hin : collector ∈ blks) by (by eapply list_elem_of_lookup_2). split; [done|].
  unfold RaidUpdate. rewrite Hrand, bind_ok. rewrite (proj2 (at_int_ok blks r collector)) by (split; [lia|done]).
  rewrite bind_ok. destruct (raid_body collector blks Hc Hb Hin) as [Hok Hbad].
  case_bool_decide as Hs.
  - destruct (Hok Hs upd_cmd (mkCoord (S (draws st)) (acks st) (pushed st)) Hmem) as (m & _ & E).
    rewrite E, bind_ok. done.
  - rewrite Hbad by lia. done.
Qed.

(** [RaidUpdate] pushes exactly the commands of the raid plan: every block
    but the randomly chosen collector's is told to send its delta (task 1),
    the collector gets all the ids and coefficients (task 2), every parity node
    is told to wait (task 3).  It does so iff the collector's command fits the
    1024-byte array; otherwise it writes past its end. *)
Theorem RaidUpdate_plan blks st :
  conf_ok -> Forall blk_here blks -> blks <> [] ->
  exists collector, blks !! Z.to_nat (rnd (draws st) mod Z.of_nat (length blks)) = Some collector /\
    RaidUpdate blks st =
      if bool_decide (1 + length blks * (1 + ecM) + ecM <= max_operands)%nat
      then Ok (after 1 (raid_plan collector blks) st) else Fault Undef.
Proof. exact (RaidUpdate_run blks st). Qed.

Lemma DeltaUpdate_run blks st :
  conf_ok -> Forall blk_here blks ->
  DeltaUpdate blks st =
    if bool_decide (blks = [] \/ 3 + 2 * ecM <= max_operands)%nat
    then Ok (after 0 (delta_plan blks) st) else Fault Undef.
Proof.
  intros Hc Hb. pose proof Hc as (Hkn & _ & _ & Hmem & _). rewrite Forall_forall in Hb. unfold DeltaUpdate.
  set (announce := for_each (seq 0 ecM) _). set (work := for_each blks _).
  assert (Ha : pushes announce (flat_map (fun i =>
    [(helper (ecK + i), (5, [Z.of_nat (length blks); Z.of_nat (ecK + i)]))]) (seq 0 ecM))).
  { apply pushes_loop. intros i Hi%elem_of_seq.
    apply to_helper_pushes; [done|unfold _ecM in *; lia| |unfold max_operands; simpl; lia].
    apply (tails_seq _ _ [_]); [apply fills_put|]. apply (tails_seq _ _ [_]); [apply fills_put|apply tails_patch]. }
  assert (Ht : forall b, b ∈ blks -> tails (put (_id b) ;> put (_offset_add b) ;> put (_upd_size b) ;>
          put_coffs (_id b) ;> for_each (seq 0 ecM) (fun j => put (Z.of_nat (ecK + j))) ;> patch_len)
          ([_id b; _offset_add b; _upd_size b] ++ coffs (_id b) ++ parity_ids)).
  { intros b Hin. rewrite <- (app_nil_r parity_ids).
    apply (tails_seq _ _ [_]); [apply fills_put|]. apply (tails_seq _ _ [_]); [apply fills_put|].
    apply (tails_seq _ _ [_]); [apply fills_put|]. apply tails_seq; [apply fills_coffs; [done|by apply Hb]|].
    apply tails_seq; [apply fills_ids|apply tails_patch]. }
  assert (Hlen : forall b, length ([_id b; _offset_add b; _upd_size b] ++ coffs (_id b) ++ parity_ids) = (3 + 2 * ecM)%nat).
  { intros b. rewrite !length_app, length_coffs, length_parity_ids. simpl. lia. }
  case_bool_decide as Hs.
  - destruct (pushes_seq announce work _ (flat_map (fun b =>
      [(_ip b, (4, [_id b; _offset_add b; _upd_size b] ++ coffs (_id b) ++ parity_ids))]) blks) Ha)
      with (mem := upd_cmd) (st := st) as (m & _ & E); [|done|by rewrite E, bind_ok].
    apply pushes_loop. intros b Hin. apply issue_pushes; [by apply Ht| |by apply Hb].
    rewrite Hlen. destruct Hs as [->|Hs]; [by apply elem_of_nil in Hin|done].
  - destruct blks as [|b blks]; [tauto|]. erewrite seqr_overflow; [done|exact Ha| |done].
    intros mem st' Hm. unfold work. cbn [for_each].
    erewrite issue_overflow; [done|apply Ht; left| |done]. rewrite Hlen. lia.
Qed.

(** [DeltaUpdate] pushes exactly the commands of the delta plan: every
    parity node learns how many deltas to expect (task 5), every updated data
    node gets its range, the column of the encoding matrix of its block and the
    parity nodes (task 4); iff the latter command fits the array. *)
Theorem DeltaUpdate_plan blks st :
  conf_ok -> Forall blk_here blks ->
  DeltaUpdate blks st =
    if bool_decide (blks = [] \/ 3 + 2 * ecM <= max_operands)%nat
    then Ok (after 0 (delta_plan blks) st) else Fault Undef.
Proof. exact (DeltaUpdate_run blks st). Qed.

(** ** [CrdUpdate] *)

Lemma tails_crd_collector pc blks :
  conf_ok -> Forall blk_here blks -> Forall blk_ok blks ->
  let upd_solu := get_upd_solu_crd blks in
  tails (put pc ;> put (Z.of_nat (length blks)) ;> put (Z.of_nat (length upd_solu)) ;>
         for_each blks (fun b =>
           put (_id b) ;> put_sub_set_id upd_solu (_id b) ;>
           put (_offset_add b) ;> put (_upd_size b) ;> put_coffs (_id b)) ;>
         for_each (seq 0 ecM) (fun i w =>
           if pc =? Z.of_nat (ecK + i) then Ok w else put (Z.of_nat (ecK + i)) w) ;>
         patch_len)
    ([pc; Z.of_nat (length blks); Z.of_nat (length upd_solu)] ++
     flat_map (fun b => [_id b; get_sub_set_id upd_solu (_id b); _offset_add b; _upd_size b] ++ coffs (_id b)) blks ++
     flat_map (fun i => if pc =? Z.of_nat (ecK + i) then [] else [Z.of_nat (ecK + i)]) (seq 0 ecM)).
Proof.
  intros Hc Hb Hok upd_solu. rewrite Forall_forall in Hb.
  rewrite <- (app_nil_r (flat_map (fun i => if pc =? _ then _ else _) _)).
  do 3 (apply (tails_seq _ _ [_]); [apply fills_put|]).
  apply tails_seq; [|apply tails_seq; [|apply tails_patch]].
  - apply fills_loop. intros b Hin. cbn [app].
    apply (fills_seq _ _ [_]); [apply fills_put|]. apply (fills_seq _ _ [_]).
    + intros w. unfold put_sub_set_id. pose proof (sub_set_id_found blks b Hok Hin) as Hne. fold upd_solu in Hne.
      apply Z.eqb_neq in Hne. rewrite Hne. apply fills_put.
    + do 2 (apply (fills_seq _ _ [_]); [apply fills_put|]). apply fills_coffs; [done|by apply Hb].
  - apply fills_loop. intros i _ w. destruct (pc =? _); [done|apply fills_put].
Qed.

Lemma length_crd_collector pc blks :
  (ecK <= _ecN conf)%nat -> Z.of_nat ecK <= pc < Z.of_nat (_ecN conf) ->
  length ([pc; Z.of_nat (length blks); Z.of_nat (length (get_upd_solu_crd blks))] ++
     flat_map (fun b => [_id b; get_sub_set_id (get_upd_solu_crd blks) (_id b); _offset_add b; _upd_size b] ++ coffs (_id b)) blks ++
     flat_map (fun i => if pc =? Z.of_nat (ecK + i) then [] else [Z.of_nat (ecK + i)]) (seq 0 ecM)) =
  (3 + length blks * (4 + ecM) + (ecM - 1))%nat.
Proof.
  intros Hkn Hpc. rewrite !length_app.
  rewrite (length_flat_map_const _ blks (4 + ecM)) by (intros; rewrite length_app, length_coffs; simpl; lia).
  replace (length [pc; _; _]) with 3%nat by done. rewrite <- Nat.add_assoc. do 2 f_equal.
  assert (Hone : forall n, length (flat_map (fun i => if pc =? Z.of_nat (ecK + i) then [] else [Z.of_nat (ecK + i)]) (seq 0 n)) =
    if decide (Z.of_nat (ecK + n) <= pc) then n else (n - 1)%nat).
  { induction n as [|n IH]; [by case_decide|]. rewrite seq_S, flat_map_app, length_app, IH. simpl.
    repeat case_decide; destruct (Z.eqb_spec pc (Z.of_nat (ecK + n))); simpl; lia. }
  rewrite Hone. unfold _ecM in *. case_decide; lia.
Qed.

Lemma tails_crd_forward i (upd_solu : solution) :
  tails (put (Z.of_nat (ecK + i)) ;> put (Z.of_nat (length upd_solu)) ;>
         for_each upd_solu (fun '(sub_set_id, N) =>
           let '(offset_add, upd_size) := sub_set_range N in
           put sub_set_id ;> put offset_add ;> put upd_size) ;> patch_len)
    ([Z.of_nat (ecK + i); Z.of_nat (length upd_solu)] ++
     flat_map (fun s => let '(offset_add, upd_size) := sub_set_range s.2 in [s.1; offset_add; upd_size]) upd_solu).
Proof.
  rewrite <- (app_nil_r (flat_map _ _)). do 2 (apply (tails_seq _ _ [_]); [apply fills_put|]).
  apply tails_seq; [|apply tails_patch]. apply fills_loop. intros [id N] _. cbn [fst snd].
  destruct (sub_set_range N) as [o u]. apply (fills_seq _ _ [_]); [apply fills_put|].
  apply (fills_seq _ _ [_]); apply fills_put.
Qed.

Lemma CrdUpdate_run blks st :
  conf_ok -> Forall blk_here blks -> Forall blk_ok blks -> (0 < ecM)%nat ->
  let pc := rnd (draws st) mod Z.of_nat ecM + Z.of_nat ecK in
  CrdUpdate blks st =
    if bool_decide (3 + length blks * (4 + ecM) + (ecM - 1) <= max_operands)%nat
    then Ok (after 1 (crd_plan pc blks) st) else Fault Undef.
Proof.
  intros Hc Hb Hok HM pc. pose proof Hc as (Hkn & _ & _ & Hmem & Hrnd).
  destruct (rand_mod_ok (Z.of_nat ecM) st Hrnd ltac:(lia)) as (r & Hr & Hrd & Hrand).
  unfold CrdUpdate. rewrite Hrand, bind_ok. replace (r + Z.of_nat ecK) with pc by (unfold pc; lia).
  assert (Hpc : Z.of_nat ecK <= pc < Z.of_nat (_ecN conf)) by (unfold pc, _ecM in *; lia). clearbody pc.
  pose proof (tails_crd_collector pc blks Hc Hb Hok) as Ht.
  pose proof (length_crd_collector pc blks Hkn Hpc) as Hlen. rewrite Forall_forall in Hb. cbv zeta in Ht |- *.
  match goal with |- ((?f ;> ?g) _ ≫= _) = _ => set (work := f); set (rest := g) end.
  assert (Hw : pushes work
    (flat_map (fun b => [(_ip b, (6, [_id b; _offset_add b; _upd_size b; pc]))]) blks)).
  { apply pushes_loop. intros b Hin. apply issue_pushes; [|unfold max_operands; simpl; lia|by apply Hb].
    do 4 (apply (tails_seq _ _ [_]); [apply fills_put|]). apply tails_patch. }
  assert (Hpn : Z.of_nat (Z.to_nat pc) = pc) by lia.
  case_bool_decide as Hs.
  - destruct (pushes_seq work rest _ (skipn (length blks) (crd_plan pc blks)) Hw)
      with (mem := upd_cmd) (st := mkCoord (S (draws st)) (acks st) (pushed st)) as (m & _ & E); [|done|].
    + unfold crd_plan. rewrite drop_app_length' by (by rewrite (length_flat_map_const _ _ 1), Nat.mul_1_r).
      apply (pushes_seq _ _ [_]).
      * rewrite <- Hpn at 1. apply to_helper_pushes; [done|lia|exact Ht|by rewrite Hlen].
      * apply pushes_loop. intros i Hi%elem_of_seq. destruct (Z.eqb_spec (Z.of_nat (ecK + i)) pc); [apply pushes_nop|].
        apply to_helper_pushes; [done|unfold _ecM in *; lia|apply tails_crd_forward|].
        rewrite length_app, (length_flat_map_const _ _ 3) by (intros [? N]; simpl; by destruct (sub_set_range N)).
        pose proof (split_sets_length (length blks) 0 blks) as Hsl. fold (get_upd_solu_crd blks) in Hsl. simpl. nia.
    + rewrite E, bind_ok. unfold after, sends. simpl. do 3 f_equal. unfold crd_plan.
      by rewrite drop_app_length' by (by rewrite (length_flat_map_const _ _ 1), Nat.mul_1_r).
  - erewrite seqr_overflow; [done|exact Hw| |done]. intros mem st' Hm. unfold rest. apply seqr_fault.
    rewrite <- Hpn at 1. rewrite to_helper_lookup by (done || lia).
    eapply issue_overflow; [exact Ht|rewrite Hlen; lia|done].
Qed.

(** C11: [CrdUpdate] pushes exactly the commands of the crd plan: every updated
    data node is told its range and the randomly chosen parity collector
    (task 6), the collector gets for every block its subset, range and
    coefficients and the other parity nodes (task 7), and those nodes get the
    merged range of every subset (task 8).  It does so iff the collector's
    command fits the 1024-byte array, which bounds the number of updated
    blocks; otherwise it writes past its end. *)
Theorem CrdUpdate_plan blks st :
  conf_ok -> Forall blk_here blks -> Forall blk_ok blks -> (0 < ecM)%nat ->
  let pc := rnd (draws st) mod Z.of_nat ecM + Z.of_nat ecK in
  CrdUpdate blks st =
    if bool_decide (3 + length blks * (4 + ecM) + (ecM - 1) <= max_operands)%nat
    then Ok (after 1 (crd_plan pc blks) st) else Fault Undef.
Proof. exact (CrdUpdate_run blks st). Qed.
End coordinator.

(** ** The range announced to the other parity nodes *)

Lemma sub_set_range_snoc N b :
  sub_set_range (N ++ [b]) =
    let '(s, u) := sub_set_range N in
    (Z.min s (_offset_add b), Z.max (s + u - 1) (_offset_add b + _upd_size b) - Z.min s (_offset_add b)).
Proof.
  unfold sub_set_range. rewrite foldl_app. simpl. destruct (foldl _ _ N) as [s e].
  f_equal. replace (s + (e - s + 1) - 1) with e by lia. lia.
Qed.

Lemma sub_set_range_hull N :
  (sub_set_range N).1 = (hull N).1 /\
  (N <> [] -> Forall blk_ok N -> (sub_set_range N).1 + (sub_set_range N).2 <= (hull N).2).
Proof.
  induction N as [|b N IH] using rev_ind; [done|].
  rewrite sub_set_range_snoc, hull_app. destruct IH as [H1 H2].
  destruct (sub_set_range N) as [s u] eqn:E, (hull N) as [s2 e2] eqn:Eh. cbn [fst snd] in *. subst s2.
  split; [done|]. intros _ [Hok (Hb & _)%Forall_cons]%Forall_app.
  destruct N as [|b' N].
  - unfold sub_set_range, hull in E, Eh. simpl in E, Eh. injection E as <- <-. injection Eh as <-.
    destruct Hb as (? & ? & ?). unfold INT_MAX in *. lia.
  - specialize (H2 ltac:(done) Hok). lia.
Qed.

Lemma sub_set_range_size N :
  N <> [] -> Forall (fun b => 0 <= _upd_size b) N -> 0 <= (sub_set_range N).2.
Proof.
  destruct N as [|b N _] using rev_ind; [done|]. intros _ [_ (Hb & _)%Forall_cons]%Forall_app.
  rewrite sub_set_range_snoc. destruct (sub_set_range N). cbn [snd]. lia.
Qed.

(** The range of a subset that [CrdUpdate] announces to the parity nodes
    other than the collector starts where the subset starts and never exceeds
    the range of its blocks, but it is the whole range iff the last block the
    subset absorbed reaches its end: the loop takes one off the end for every
    block instead of once. *)
Theorem sub_set_range_short N b :
  Forall blk_ok (N ++ [b]) -> (hull (N ++ [b])).2 > 0 ->
  let '(offset_add, upd_size) := sub_set_range (N ++ [b]) in
  let '(start, stop) := hull (N ++ [b]) in
  offset_add = start /\ upd_size <= stop - start /\
  (upd_size = stop - start <-> _offset_add b + _upd_size b = stop).
Proof.
  intros Hok Hpos. pose proof (sub_set_range_hull N) as [H1 H2].
  apply Forall_app in Hok as [Hok (Hb & _)%Forall_cons]. destruct Hb as (Hb1 & Hb2 & Hb3).
  rewrite hull_app in Hpos. rewrite sub_set_range_snoc, hull_app.
  destruct (sub_set_range N) as [s u] eqn:E, (hull N) as [s2 e2] eqn:Eh. cbn [fst snd] in *. subst s2.
  destruct N as [|b' N].
  - unfold sub_set_range, hull in E, Eh. simpl in E, Eh. injection E as <- <-. injection Eh as <-.
    unfold INT_MAX in *. lia.
  - specialize (H2 ltac:(done) Hok). lia.
Qed.

(** ** Witnesses: a (4, 2) stripe whose two data blocks are updated *)

Definition ex_conf : Config :=
  mkConfig 2 4 1024 0 32 [11; 12; 13; 14] 10 11 true false (lit "crd") 4 (lit "trace") 64 (lit "Ali").
Definition ex_enc : list Z := [1; 1; 1; 217].
Definition ex_rnd (n : nat) : Z := 1.
Definition ex_blks : list UpdBlock := [mkUpdBlock 0 11 0 4; mkUpdBlock 1 12 3 9].
Definition ex_coord : coord := mkCoord 0 [] [].

Lemma ex_conf_ok : conf_ok ex_conf ex_enc ex_rnd (zeros 1024).
Proof. split_and!; [decided..|]. intros n. unfold ex_rnd. lia. Qed.

Lemma ex_blks_here : Forall (blk_here ex_conf) ex_blks.
Proof. repeat constructor; simpl; try lia; decided. Qed.

Lemma RaidUpdate_plan_witness :
  RaidUpdate ex_conf ex_enc ex_rnd (zeros 1024) ex_blks ex_coord =
    Ok (mkCoord 1 [] [(11, command 1 [0; 1]); (12, command 2 [2; 0; 1; 1; 1; 1; 217; 2; 3]);
                      (13, command 3 [2]); (14, command 3 [3])]).
Proof.
  destruct (RaidUpdate_plan ex_conf ex_enc ex_rnd (zeros 1024) ex_blks ex_coord ex_conf_ok ex_blks_here
    ltac:(discriminate)) as (collector & Hc & H).
  rewrite H. injection Hc as <-. reflexivity.
Defined.

Lemma DeltaUpdate_plan_witness :
  DeltaUpdate ex_conf ex_enc (zeros 1024) ex_blks ex_coord =
    Ok (mkCoord 0 [] [(13, command 5 [2; 2]); (14, command 5 [2; 3]);
                      (11, command 4 [0; 0; 4; 1; 1; 2; 3]); (12, command 4 [1; 3; 9; 1; 217; 2; 3])]).
Proof.
  rewrite (DeltaUpdate_plan ex_conf ex_enc ex_rnd (zeros 1024) ex_blks ex_coord ex_conf_ok ex_blks_here).
  reflexivity.
Defined.

Lemma CrdUpdate_plan_witness :
  CrdUpdate ex_conf ex_enc ex_rnd (zeros 1024) ex_blks ex_coord =
    Ok (mkCoord 1 [] [(11, command 6 [0; 0; 4; 3]); (12, command 6 [1; 3; 9; 3]);
                      (14, command 7 [3; 2; 1; 0; 0; 0; 4; 1; 1; 1; 0; 3; 9; 1; 217; 2]);
                      (13, command 8 [2; 1; 0; 0; 12])]).
Proof.
  rewrite (CrdUpdate_plan ex_conf ex_enc ex_rnd (zeros 1024) ex_blks ex_coord ex_conf_ok ex_blks_here
    ltac:(decided) ltac:(decided)).
  reflexivity.
Defined.

Lemma sub_set_range_short_witness :
  sub_set_range [mkUpdBlock 0 11 0 12; mkUpdBlock 1 12 3 4] = (0, 11) /\
  (11 = 12 - 0 <-> 3 + 4 = 12).
Proof.
  split; [reflexivity|].
  apply (sub_set_range_short [mkUpdBlock 0 11 0 12] (mkUpdBlock 1 12 3 4)); [decided|reflexivity].
Defined.
