(* ===== verification/UPDriver.v ===== *)
(** * Driving the updates stripe by stripe (UPCoordinator.cc)

    [trigger_update] and [trigger_update_by_multi_doProcess] replay the merged
    updates of a log; [UpdateReqHandler] and [CmdDistributor] do the same work
    through a Redis queue: one encodes the requests, the other decodes them.

    The maps of the code are [stripe_id2loc_blk_id], walked in the order of its
    keys, and [glo_blk_id2start_end], which is only looked up: a sorted list of
    entries and a [gmap]. *)
From stdpp Require Import strings.
From S2P Require Import Prelude Command Text Config UpdPlan UPCoordinator.

Definition stripe_map := list (Z * list Z).
Notation start_end_map := (gmap Z (Z * Z)).


Section driver.
Context (conf : Config) (_rsEncMat : list Z) (rnd : nat -> Z) (upd_cmd : list Z).

Abbreviation ecK := (Z.of_nat (_ecK conf)).
Abbreviation blocksize := (_blocksize conf).

(** [v[0]], [v[1]] of [glo_blk_id2start_end[glo_id]]: the operator inserts an
    empty vector for a missing key, and indexing that is undefined. *)
Definition start_end (m : start_end_map) (glo_id : Z) : res (Z * Z) := res_of_option Undef (m !! glo_id).

(** ** [trigger_update] *)

(** The body of the loop over the blocks of a stripe. *)
Definition push_block (stripe_id : Z) (m : start_end_map) (in_id : Z) (upd_blk_vec : list UpdBlock) :
    res (list UpdBlock) :=
  '(s, e) ← start_end m (stripe_id * ecK + in_id);
  ip ← at_int (_helpersIPs conf) in_id;
  Ok (upd_blk_vec ++ [mkUpdBlock in_id ip s (e - s)]).

Definition trigger_update (stripes : stripe_map) (m : start_end_map) (st : coord) : res coord :=
  '(_, st) ← for_each stripes (fun '(stripe_id, in_ids) '(upd_blk_vec, st) =>
    upd_blk_vec ← for_each in_ids (push_block stripe_id m) upd_blk_vec;
    st ← run_policy conf _rsEncMat rnd upd_cmd (_UPPolicy conf) upd_blk_vec st;
    '(ack, st) ← recvAck conf st;
    Ok (if ack =? 1 then [] else upd_blk_vec, st)) ([], st);
  Ok st.

(** ** [trigger_update_by_multi_doProcess] *)

(** The block as the [crd_flip] policy places it: mirrored for odd ids. *)
Definition push_block_multi (UPPolicy : str) (stripe_id : Z) (m : start_end_map) (in_id : Z)
    (upd_blk_vec : list UpdBlock) : res (list UpdBlock) :=
  let flip := bool_decide (UPPolicy = lit "crd_flip") && (Z.rem in_id 2 =? 1) in
  '(s, e) ← start_end m (stripe_id * ecK + in_id);
  ip ← at_int (_helpersIPs conf) in_id;
  Ok (upd_blk_vec ++
      [if flip then let new_start := blocksize - e in
                    let new_end := blocksize - s in
                    mkUpdBlock in_id ip new_start (new_end - new_start)
       else mkUpdBlock in_id ip s (e - s)]).

Definition run_policy_multi (UPPolicy : str) (upd_blk_vec : list UpdBlock) (st : coord) : res coord :=
  if decide (UPPolicy = lit "crd_flip") then CrdUpdate conf _rsEncMat rnd upd_cmd upd_blk_vec st
  else run_policy conf _rsEncMat rnd upd_cmd UPPolicy upd_blk_vec st.

Definition trigger_update_by_multi_doProcess (stripes : stripe_map) (m : start_end_map) (UPPolicy : str)
    (st : coord) : res coord :=
  '(_, st) ← for_each stripes (fun '(stripe_id, in_ids) '(upd_blk_vec, st) =>
    upd_blk_vec ← for_each in_ids (push_block_multi UPPolicy stripe_id m) upd_blk_vec;
    st ← run_policy_multi UPPolicy upd_blk_vec st;
    '(ack, st) ← recvAck conf st;
    Ok (if ack =? 1 then [] else upd_blk_vec, st)) ([], st);
  Ok st.

(** ** The request queue *)

(** [UpdateReqHandler]: the requests of the merged log, in an array of
    [COMMAND_MAX_LENGTH * COMMAND_MAX_LENGTH] bytes; [loc_blk_id] is a
    [long long] whose first four bytes are copied. *)
Definition encode_requests (stripes : stripe_map) (m : start_end_map) : wbuf -> res wbuf :=
  put (Z.of_nat (length stripes)) ;>
  for_each stripes (fun '(stripe_id, ids) =>
    put (Z.of_nat (length ids)) ;>
    for_each ids (fun loc_blk_id w =>
      w ← put loc_blk_id w;
      '(s, e) ← start_end m (stripe_id * ecK + loc_blk_id);
      (put s ;> put (e - s)) w)).

(** One block of a request: its id, offset and size. *)
Definition read_block (cmd : list Z) (cv : nat * list UpdBlock) : res (nat * list UpdBlock) :=
  let '(in_cur, upd_blk_vec) := cv in
  '(in_id, in_cur) ← get cmd in_cur;
  '(offset_add, in_cur) ← get cmd in_cur;
  '(upd_size, in_cur) ← get cmd in_cur;
  ip ← at_int (_helpersIPs conf) in_id;
  Ok (in_cur, upd_blk_vec ++ [mkUpdBlock in_id ip offset_add upd_size]).

(** One round of the loop over the stripes of a request: the blocks are copied
    to [upd_cmd] and parsed there. *)
Definition distribute_stripe (str : list Z) (cur : nat) (st : coord) : res (nat * coord) :=
  '(upd_num, cur) ← get str cur;
  let n := (Z.to_nat upd_num * 12)%nat in
  body ← (if upd_num <? 0 then Fault Undef else res_of_option Undef (slice str cur n));
  cmd ← res_of_option Undef (memcpy upd_cmd 0 body);
  '(_, upd_blk_vec) ← for_each (seq 0 (Z.to_nat upd_num)) (fun _ => read_block cmd) (0%nat, []);
  st ← run_policy conf _rsEncMat rnd upd_cmd (_UPPolicy conf) upd_blk_vec st;
  '(_, st) ← recvAck conf st;
  Ok ((cur + n)%nat, st).

(** [CmdDistributor] on one request of [upd_requests]: [while (upd_stripe_num > 0)],
    where [recvAck] returns 1 and the count goes down every round. *)
Definition CmdDistributor_request (str : list Z) (st : coord) : res coord :=
  '(upd_stripe_num, cur) ← get str 0;
  '(_, st) ← for_each (seq 0 (Z.to_nat upd_stripe_num)) (fun _ '(cur, st) => distribute_stripe str cur st) (cur, st);
  Ok st.

(** The endless loop of [CmdDistributor] over the replies of its queue: it ends
    only by a fault, or waiting when there are no more replies. *)
Definition CmdDistributor (requests : list reply) (st : coord) : res coord :=
  for_each requests (fun r st =>
    match r with RData str => CmdDistributor_request str st | _ => Ok st end) st.

(** ** A stripe at a time *)

(** What [trigger_update] does with one stripe. *)
Definition stripe_step (run : list UpdBlock -> coord -> res coord) (blks : list UpdBlock) (st : coord) : res coord :=
  st ← run blks st;
  '(_, st) ← recvAck conf st;
  Ok st.

Lemma recvAck_one st a st' : recvAck conf st = Ok (a, st') -> a = 1.
Proof. unfold recvAck. intros H. by res_inv. Qed.

Lemma stripe_step_eq run blks st :
  stripe_step run blks st = (st ← run blks st; '(_, st) ← recvAck conf st; Ok st).
Proof. done. Qed.

Lemma stripes_clear (push : Z -> Z -> list UpdBlock -> res (list UpdBlock)) run stripes st :
  for_each stripes (fun '(stripe_id, in_ids) '(upd_blk_vec, st) =>
    upd_blk_vec ← for_each in_ids (push stripe_id) upd_blk_vec;
    st ← run upd_blk_vec st;
    '(ack, st) ← recvAck conf st;
    Ok (if ack =? 1 then [] else upd_blk_vec, st)) ([], st) =
  (st ← for_each stripes (fun '(stripe_id, in_ids) st =>
    blks ← for_each in_ids (push stripe_id) [];
    stripe_step run blks st) st; Ok ([], st)).
Proof.
  revert st. induction stripes as [|[sid ids] stripes IH]; intros st; [done|]. cbn [for_each].
  destruct (for_each ids (push sid) []) as [blks|f]; [|done]. rewrite !bind_ok.
  rewrite (stripe_step_eq run blks st).
  destruct (run blks st) as [st1|f]; [|done]. rewrite !bind_ok.
  destruct (recvAck conf st1) as [[ack st2]|f] eqn:E; [|done]. rewrite (recvAck_one _ _ _ E), !bind_ok. apply IH.
Qed.

Lemma trigger_update_eq stripes m st :
  trigger_update stripes m st =
  for_each stripes (fun '(stripe_id, in_ids) st =>
    blks ← for_each in_ids (push_block stripe_id m) [];
    stripe_step (run_policy conf _rsEncMat rnd upd_cmd (_UPPolicy conf)) blks st) st.
Proof.
  unfold trigger_update. rewrite (stripes_clear (fun sid => push_block sid m)).
  by destruct (for_each stripes _ st).
Qed.

(** ** Completion of a replayed log *)

Abbreviation ecM := (_ecM conf).

(** The block of the plan for local id [in_id] of stripe [stripe_id]. *)
Definition block_of (m : start_end_map) (stripe_id in_id : Z) : UpdBlock :=
  let '(s, e) := default (0, 0) (m !! (stripe_id * ecK + in_id)) in
  mkUpdBlock in_id (helper conf (Z.to_nat in_id)) s (e - s).
Definition blocks_of (m : start_end_map) (s : Z * list Z) : list UpdBlock := block_of m s.1 <$> s.2.

(** A stripe whose blocks have ranges, and few enough of them for a command. *)
Definition stripe_ok (m : start_end_map) (s : Z * list Z) : Prop :=
  s.2 <> [] /\ (3 + length s.2 * (4 + ecM) + (ecM - 1) <= max_operands)%nat /\
  Forall (fun id => 0 <= id < ecK /\
    exists a b, m !! (s.1 * ecK + id) = Some (a, b) /\ 0 <= a <= b /\ b <= INT_MAX) s.2.

(** The replies to one stripe: [_ecM] acknowledgements, the last one closing
    the segment, and any number of timeouts and errors among them. *)
Definition ack_segment (seg : list reply) : Prop :=
  data_count seg = ecM /\ exists init d, seg = init ++ [RData d].

Definition named_policy (policy : str) : Prop :=
  policy = lit "raid" \/ policy = lit "delta" \/ policy = lit "crd".

(** What each policy leaves (the collectors depend on the draws so far). *)
Definition policy_after (policy : str) (blks : list UpdBlock) (st : coord) : coord :=
  if decide (policy = lit "raid") then
    match blks !! Z.to_nat (rnd (draws st) mod Z.of_nat (length blks)) with
    | Some collector => after 1 (raid_plan conf _rsEncMat collector blks) st
    | None => st
    end
  else if decide (policy = lit "delta") then after 0 (delta_plan conf _rsEncMat blks) st
  else after 1 (crd_plan conf _rsEncMat (rnd (draws st) mod Z.of_nat ecM + ecK) blks) st.

Lemma block_of_here m sid id :
  conf_ok conf _rsEncMat rnd upd_cmd -> 0 <= id < ecK -> blk_here conf (block_of m sid id).
Proof.
  intros Hc Hid. unfold block_of. destruct (default _ _) as [s e]. split; simpl; [lia|].
  eapply helper_in; [exact Hc|]. destruct Hc. lia.
Qed.

Lemma push_blocks (push : Z -> list UpdBlock -> res (list UpdBlock)) (f : Z -> UpdBlock) ids acc :
  (forall id v, id ∈ ids -> push id v = Ok (v ++ [f id])) ->
  for_each ids push acc = Ok (acc ++ (f <$> ids)).
Proof.
  revert acc. induction ids as [|id ids IH]; intros acc H; simpl; [by rewrite app_nil_r|].
  rewrite (H id acc (list_elem_of_here _ _)), bind_ok, IH by (intros; apply H; by right).
  by rewrite <- app_assoc.
Qed.

Lemma push_block_ok m sid id v :
  conf_ok conf _rsEncMat rnd upd_cmd -> 0 <= id < ecK -> is_Some (m !! (sid * ecK + id)) ->
  push_block sid m id v = Ok (v ++ [block_of m sid id]).
Proof.
  intros (Hkn & Hn & _) Hid [[s e] Hm]. unfold push_block, start_end, block_of. rewrite Hm. simpl.
  unfold helper. rewrite <- (Z2Nat.id id) at 1 by lia.
  erewrite at_int_nat by (apply list_lookup_lookup_total_lt; lia). done.
Qed.

Lemma run_policy_ok policy blks st :
  conf_ok conf _rsEncMat rnd upd_cmd -> (0 < ecM)%nat ->
  named_policy policy -> blks <> [] ->
  Forall (blk_here conf) blks -> Forall blk_ok blks ->
  (3 + length blks * (4 + ecM) + (ecM - 1) <= max_operands)%nat ->
  run_policy conf _rsEncMat rnd upd_cmd policy blks st = Ok (policy_after policy blks st).
Proof.
  intros Hc HM Hp Hne Hh Hok Hfit. unfold run_policy, policy_after.
  assert (0 < length blks)%nat by (destruct blks; [done|simpl; lia]).
  destruct (decide (policy = lit "raid")); [|destruct (decide (policy = lit "delta"))].
  - destruct (RaidUpdate_run conf _rsEncMat rnd upd_cmd blks st Hc Hh Hne) as (c & -> & ->).
    by rewrite bool_decide_true by nia.
  - rewrite (DeltaUpdate_run conf _rsEncMat rnd upd_cmd blks st Hc Hh). rewrite bool_decide_true by nia. done.
  - rewrite decide_True by (unfold named_policy in Hp; tauto).
    rewrite (CrdUpdate_run conf _rsEncMat rnd upd_cmd blks st Hc Hh Hok HM). by rewrite bool_decide_true.
Qed.

Lemma policy_after_acks policy blks st a :
  policy_after policy blks (mkCoord (draws st) a (pushed st)) =
    mkCoord (draws (policy_after policy blks st)) a (pushed (policy_after policy blks st)) /\
  acks (policy_after policy blks st) = acks st.
Proof.
  unfold policy_after. repeat case_decide; try done. destruct (blks !! _); by destruct st.
Qed.

(** C13: replaying a log completes.  When every stripe has ranges for its blocks
    and fits the commands, and the parity nodes acknowledge each stripe
    ([_ecM] messages, among timeouts and errors), [trigger_update] returns
    having pushed the plan of its policy for every stripe, one after the other
    in the order of the map, with no block of a stripe left over in the next
    one, and having consumed exactly the acknowledgements. *)
Theorem trigger_update_completes m stripes segs rest d0 pushed0 :
  conf_ok conf _rsEncMat rnd upd_cmd -> (0 < ecM)%nat ->
  named_policy (_UPPolicy conf) ->
  Forall (stripe_ok m) stripes -> length segs = length stripes -> Forall ack_segment segs ->
  let st := foldl (fun st s => policy_after (_UPPolicy conf) (blocks_of m s) st) (mkCoord d0 rest pushed0) stripes in
  trigger_update stripes m (mkCoord d0 (concat segs ++ rest) pushed0) = Ok st.
Proof.
  intros Hc HM Hp Hok Hlen Hsegs. rewrite trigger_update_eq. cbv zeta.
  revert segs d0 pushed0 Hlen Hsegs. induction Hok as [|[sid ids] stripes (Hne & Hfit & Hids) Hok IH];
    intros segs d0 pushed0 Hlen Hsegs; [by destruct segs|].
  destruct Hsegs as [|seg segs [Hseg1 Hseg2] Hsegs]; [done|]. cbn [for_each foldl concat fst snd] in *.
  rewrite Forall_forall in Hids. change (blocks_of m (sid, ids)) with (block_of m sid <$> ids).
  rewrite (push_blocks _ (block_of m sid)).
  2:{ intros id v Hid. destruct (Hids id Hid) as (H1 & a & b & H2 & _). apply push_block_ok; eauto. }
  rewrite bind_ok. cbn [app]. rewrite stripe_step_eq.
  rewrite run_policy_ok; try done; [|by intros ->%fmap_nil_inv| | |by rewrite length_fmap].
  2:{ apply Forall_fmap, Forall_forall. intros id Hid. apply block_of_here; [done|]. by apply Hids. }
  2:{ apply Forall_fmap, Forall_forall. intros id Hid. destruct (Hids id Hid) as (H1 & a & b & H2 & H3).
      unfold block_of. simpl. rewrite H2. unfold blk_ok. simpl. lia. }
  rewrite bind_ok. set (blks := block_of m sid <$> ids).
  destruct (policy_after_acks (_UPPolicy conf) blks (mkCoord d0 rest pushed0) (concat (seg :: segs) ++ rest)) as [E Eack].
  simpl in E, Eack. simpl. rewrite E. unfold recvAck. cbn [acks draws pushed].
  rewrite <- app_assoc, wait_replies_ok by (done || lia). rewrite !bind_ok.
  rewrite IH by (done || (simpl in Hlen; lia)). do 2 f_equal.
  clear -Eack. destruct (policy_after _ _ (mkCoord d0 rest pushed0)) as [? ? ?]. simpl in *. by subst.
Qed.

(** ** The mirror of [crd_flip] *)

(** Under [crd_flip] a block with an odd id and range [s, e) inside the
    block is placed at the mirrored range: same size, inside the block, and
    mirroring the placed range gives [s, e) back; even ids keep their range. *)
Theorem crd_flip_mirror stripe_id m in_id ip s e v :
  m !! (stripe_id * ecK + in_id) = Some (s, e) -> at_int (_helpersIPs conf) in_id = Ok ip ->
  0 <= s <= e -> e <= blocksize ->
  exists b, push_block_multi (lit "crd_flip") stripe_id m in_id v = Ok (v ++ [b]) /\
    _id b = in_id /\ _ip b = ip /\ _upd_size b = e - s /\
    0 <= _offset_add b /\ _offset_add b + _upd_size b <= blocksize /\
    (Z.odd in_id = true ->
       blocksize - (_offset_add b + _upd_size b) = s /\ blocksize - _offset_add b = e) /\
    (Z.odd in_id = false -> _offset_add b = s).
Proof.
  intros Hm Hip Hs He.
  assert (Hin : 0 <= in_id) by (unfold at_int in Hip; destruct (Z.ltb_spec in_id 0); [done|lia]).
  unfold push_block_multi, start_end. rewrite Hm, Hip. rewrite bool_decide_true by done. simpl.
  rewrite Z.rem_mod_nonneg by lia. pose proof (Zmod_odd in_id) as Hodd.
  eexists. split; [done|]. destruct (Z.odd in_id); rewrite Hodd; simpl; split_and!; (done || lia).
Qed.

(** ** The request queue gives the same updates *)

Definition block_words (b : UpdBlock) : list Z := [_id b; _offset_add b; _upd_size b].
Definition request_words (m : start_end_map) (stripes : stripe_map) : list Z :=
  Z.of_nat (length stripes) ::
  flat_map (fun s => Z.of_nat (length s.2) :: flat_map block_words (blocks_of m s)) stripes.

(** Words a stripe can have in a request: its blocks are copied to the array. *)
Definition request_ok (m : start_end_map) (s : Z * list Z) : Prop :=
  (12 * length s.2 <= COMMAND_MAX_LENGTH)%nat /\
  Forall (fun id => 0 <= id < ecK /\ is_s32 id /\
    exists a b, m !! (s.1 * ecK + id) = Some (a, b) /\ is_s32 a /\ is_s32 (b - a)) s.2.

Lemma block_of_eq m sid id a b :
  m !! (sid * ecK + id) = Some (a, b) -> block_of m sid id = mkUpdBlock id (helper conf (Z.to_nat id)) a (b - a).
Proof. intros H. unfold block_of. by rewrite H. Qed.

Lemma encode_requests_fills m stripes :
  Forall (request_ok m) stripes -> fills (encode_requests stripes m) (request_words m stripes).
Proof.
  intros Hok. rewrite Forall_forall in Hok. unfold encode_requests, request_words.
  apply (fills_seq _ _ [_]); [apply fills_put|]. apply fills_loop. intros [sid ids] Hin.
  apply (fills_seq _ _ [_]); [apply fills_put|]. unfold blocks_of. cbn [fst snd].
  destruct (Hok _ Hin) as [_ Hids]. rewrite Forall_forall in Hids. cbn [fst snd] in Hids.
  replace (flat_map block_words (block_of m sid <$> ids)) with (flat_map (fun id => block_words (block_of m sid id)) ids)
    by (clear; induction ids as [|id ids IH]; [done|]; simpl; by rewrite IH).
  apply fills_loop. intros id Hid w. destruct (Hids id Hid) as (_ & _ & a & b & Hm & _).
  rewrite (block_of_eq _ _ _ _ _ Hm). unfold start_end. rewrite Hm. cbn [res_of_option].
  unfold block_words. cbn [_id _offset_add _upd_size]. rewrite puts_cons. destruct (put id w) as [w1|]; [|done]. rewrite !bind_ok.
  apply (fills_seq _ _ [_] [_]); apply fills_put.
Qed.

Lemma read_block_eq cmd cur v :
  read_block cmd (cur, v) =
    ('(in_id, in_cur) ← get cmd cur;
     '(offset_add, in_cur) ← get cmd in_cur;
     '(upd_size, in_cur) ← get cmd in_cur;
     ip ← at_int (_helpersIPs conf) in_id;
     Ok (in_cur, v ++ [mkUpdBlock in_id ip offset_add upd_size])).
Proof. done. Qed.

(** The blocks of a stripe read back from the array. *)
Lemma read_blocks cmd cur blks ws v start :
  at_cur cmd cur (flat_map block_words blks ++ ws) ->
  Forall (fun b => is_s32 (_id b) /\ is_s32 (_offset_add b) /\ is_s32 (_upd_size b) /\
    at_int (_helpersIPs conf) (_id b) = Ok (_ip b)) blks ->
  exists cur', for_each (seq start (length blks)) (fun _ => read_block cmd) (cur, v) = Ok (cur', v ++ blks).
Proof.
  intros Hat Hall. revert cur v start Hat. induction Hall as [|b blks (H1 & H2 & H3 & H4) Hall IH]; intros cur v start Hat.
  - exists cur. simpl. by rewrite app_nil_r.
  - cbn [flat_map block_words app] in Hat. cbn [length seq for_each]. rewrite (read_block_eq cmd cur v).
    destruct (get_at_cur _ _ _ _ Hat H1) as [-> Hat1]. rewrite bind_ok.
    destruct (get_at_cur _ _ _ _ Hat1 H2) as [-> Hat2]. rewrite bind_ok.
    destruct (get_at_cur _ _ _ _ Hat2 H3) as [-> Hat3]. rewrite bind_ok.
    rewrite H4, !bind_ok. destruct (IH _ (v ++ [mkUpdBlock (_id b) (_ip b) (_offset_add b) (_upd_size b)]) (S start) Hat3)
      as [cur' ->]. exists cur'. rewrite <- app_assoc. by destruct b.
Qed.

Lemma distribute_stripe_ok m s ws str cur st :
  conf_ok conf _rsEncMat rnd upd_cmd -> request_ok m s ->
  at_cur str cur ((Z.of_nat (length s.2) :: flat_map block_words (blocks_of m s)) ++ ws) ->
  exists cur', at_cur str cur' ws /\
    distribute_stripe str cur st =
      (st ← stripe_step (run_policy conf _rsEncMat rnd upd_cmd (_UPPolicy conf)) (blocks_of m s) st; Ok (cur', st)).
Proof.
  intros Hc [Hfit Hids] Hat. destruct s as [sid ids]. cbn [fst snd] in *. set (blks := blocks_of m (sid, ids)) in *.
  assert (Hlen : length blks = length ids) by (unfold blks, blocks_of; by rewrite length_fmap).
  assert (Hw : length (flat_map block_words blks) = (length ids * 3)%nat)
    by (rewrite (length_flat_map_const _ _ 3); [by rewrite Hlen|done]).
  pose proof Hc as (Hkn & Hn & _ & Hmem & _). unfold COMMAND_MAX_LENGTH in *.
  destruct (get_at_cur _ _ _ _ Hat) as [Hg Hat1]; [unfold is_s32; lia|].
  unfold distribute_stripe. rewrite Hg, bind_ok, Nat2Z.id. destruct (Z.ltb_spec (Z.of_nat (length ids)) 0); [lia|].
  destruct (slice_at_cur _ _ _ _ Hat1) as [Hs Hat2]. rewrite Hw in Hs, Hat2.
  replace (4 * (length ids * 3))%nat with (length ids * 12)%nat in * by lia.
  rewrite Hs. cbn [res_of_option]. rewrite bind_ok, memcpy_Some by (rewrite length_ints, Hw; lia).
  cbn [res_of_option]. rewrite bind_ok, firstn_O. cbn [app]. eexists. split; [exact Hat2|].
  destruct (read_blocks (ints (flat_map block_words blks) ++ drop (0 + length (ints (flat_map block_words blks))) upd_cmd)
    0 blks [] [] 0) as [cur' Hr].
  { rewrite app_nil_r. apply at_cur_ints. }
  { unfold blks, blocks_of. cbn [fst snd]. apply Forall_fmap. eapply Forall_impl; [exact Hids|].
    intros id (H1 & H2 & a & b & Hm & H3 & H4). simpl. unfold block_of. rewrite Hm. simpl. split_and!; [done..|].
    unfold helper. rewrite <- (Z2Nat.id id) at 1 by lia.
    apply at_int_nat, list_lookup_lookup_total_lt. lia. }
  rewrite Hlen in Hr. rewrite Hr, bind_ok. cbn [app]. rewrite stripe_step_eq.
  destruct (run_policy _ _ _ _ _ _ _) as [st1|]; [|done]. rewrite !bind_ok.
  by destruct (recvAck conf st1) as [[]|].
Qed.

Lemma distribute_all m stripes str cur start st :
  conf_ok conf _rsEncMat rnd upd_cmd -> Forall (request_ok m) stripes ->
  at_cur str cur (flat_map (fun s => Z.of_nat (length s.2) :: flat_map block_words (blocks_of m s)) stripes) ->
  exists cur' : nat,
    for_each (seq start (length stripes)) (fun _ '(cur, st) => distribute_stripe str cur st) (cur, st) =
    (st ← for_each stripes (fun '(stripe_id, in_ids) st =>
       blks ← for_each in_ids (push_block stripe_id m) [];
       stripe_step (run_policy conf _rsEncMat rnd upd_cmd (_UPPolicy conf)) blks st) st; Ok (cur', st)).
Proof.
  intros Hc Hok. revert cur start st.
  induction Hok as [|s stripes Hs Hok IH]; intros cur start st Hat; [by exists cur|].
  cbn [flat_map] in Hat. destruct (distribute_stripe_ok m s _ _ _ st Hc Hs Hat) as (cur' & Hat' & E).
  cbn [length seq for_each]. rewrite E. destruct s as [sid ids].
  rewrite (push_blocks _ (block_of m sid)).
  2:{ intros id v Hid. destruct Hs as [_ Hs]. rewrite Forall_forall in Hs.
      destruct (Hs id Hid) as (H1 & _ & a & b & H2 & _). apply push_block_ok; eauto. }
  rewrite bind_ok. cbn [app]. change (blocks_of m (sid, ids)) with (block_of m sid <$> ids).
  destruct (stripe_step _ _ _) as [st'|f]; [|by exists 0%nat]. rewrite !bind_ok. apply IH, Hat'.
Qed.

(** C14: the request queue loses nothing.  The message [UpdateReqHandler] writes
    for a merged log fits its array, and [CmdDistributor], reading that
    message, behaves exactly as [trigger_update] on the log itself: same
    commands, same draws, same acknowledgements awaited, same fault. *)
Theorem request_queue_refines m stripes st buf :
  conf_ok conf _rsEncMat rnd upd_cmd -> Forall (request_ok m) stripes ->
  is_s32 (Z.of_nat (length stripes)) -> (4 * length (request_words m stripes) <= length buf)%nat ->
  exists w, encode_requests stripes m (rewind buf) = Ok w /\
    CmdDistributor [RNil; RData (sent w)] st = trigger_update stripes m st.
Proof.
  intros Hc Hok Hn Hbuf. rewrite (encode_requests_fills m stripes Hok).
  destruct (puts_rewind _ buf Hbuf) as (w & Hw & Hs). exists w. split; [done|].
  unfold CmdDistributor. cbn [for_each]. rewrite bind_ok, Hs. unfold CmdDistributor_request.
  assert (Hat : at_cur (ints (request_words m stripes)) 0 (request_words m stripes)).
  { pose proof (at_cur_ints (request_words m stripes) []) as H. by rewrite app_nil_r in H. }
  unfold request_words in Hat at 2. destruct (get_at_cur _ _ _ _ Hat Hn) as [Hg Hat1].
  rewrite Hg, bind_ok, Nat2Z.id. rewrite trigger_update_eq.
  destruct (distribute_all m stripes _ _ 0 st Hc Hok Hat1) as [cur ->].
  by destruct (for_each stripes _ st).
Qed.
End driver.

(** ** Witnesses *)

Definition ex_map : start_end_map := <[0 := (0, 4)]> (<[1 := (3, 12)]> (<[5 := (10, 64)]> ∅)).
Definition ex_stripes : stripe_map := [(0, [0; 1]); (2, [1])].
Definition ex_ack : list reply := [RNil; RData []; RError; RData []].

Lemma ex_stripes_ok : Forall (stripe_ok ex_conf ex_map) ex_stripes.
Proof.
  apply Forall_cons. split; [|apply Forall_cons; split; [|apply Forall_nil_2]];
    (split_and!; [discriminate|decided|]); cbn [fst snd].
  - apply Forall_cons. split; [|apply Forall_cons; split; [|apply Forall_nil_2]]; (split; [decided|]).
    + exists 0, 4. split; [reflexivity|decided].
    + exists 3, 12. split; [reflexivity|decided].
  - apply Forall_cons. split; [|apply Forall_nil_2]. split; [decided|].
    exists 10, 64. split; [reflexivity|decided].
Qed.

Lemma ex_request_ok : Forall (request_ok ex_conf ex_map) ex_stripes.
Proof.
  apply Forall_cons. split; [|apply Forall_cons; split; [|apply Forall_nil_2]];
    (split; [decided|]); cbn [fst snd].
  - apply Forall_cons. split; [|apply Forall_cons; split; [|apply Forall_nil_2]]; (split_and!; [decided..|]).
    + exists 0, 4. split; [reflexivity|decided].
    + exists 3, 12. split; [reflexivity|decided].
  - apply Forall_cons. split; [|apply Forall_nil_2]. split_and!; [decided..|].
    exists 10, 64. split; [reflexivity|decided].
Qed.

Lemma trigger_update_completes_witness :
  trigger_update ex_conf ex_enc ex_rnd (zeros 1024) ex_stripes ex_map
    (mkCoord 0 (concat [ex_ack; ex_ack] ++ [RNil]) []) =
  Ok (foldl (fun st s => policy_after ex_conf ex_enc ex_rnd (_UPPolicy ex_conf) (blocks_of ex_conf ex_map s) st)
        (mkCoord 0 [RNil] []) ex_stripes).
Proof.
  apply (trigger_update_completes ex_conf ex_enc ex_rnd (zeros 1024) ex_map ex_stripes
    [ex_ack; ex_ack] [RNil] 0 []).
  - exact ex_conf_ok.
  - decided.
  - right. right. reflexivity.
  - exact ex_stripes_ok.
  - reflexivity.
  - apply Forall_cons; split; [|apply Forall_cons; split; [|apply Forall_nil_2]];
      (split; [reflexivity|]); exists [RNil; RData []; RError], []; reflexivity.
Defined.

Lemma crd_flip_mirror_witness :
  exists b, push_block_multi ex_conf (lit "crd_flip") 2 ex_map 1 [] = Ok ([] ++ [b]) /\
    _id b = 1 /\ _ip b = 12 /\ _upd_size b = 64 - 10 /\
    0 <= _offset_add b /\ _offset_add b + _upd_size b <= 64 /\
    (Z.odd 1 = true -> 64 - (_offset_add b + _upd_size b) = 10 /\ 64 - _offset_add b = 64) /\
    (Z.odd 1 = false -> _offset_add b = 10).
Proof. apply (crd_flip_mirror ex_conf 2 ex_map 1 12 10 64 []); [reflexivity..|lia|simpl; lia]. Defined.

Lemma request_queue_refines_witness :
  exists w, encode_requests ex_conf ex_stripes ex_map (rewind (zeros 64)) = Ok w /\
    CmdDistributor ex_conf ex_enc ex_rnd (zeros 1024) [RNil; RData (sent w)] (mkCoord 0 (ex_ack ++ ex_ack) []) =
    trigger_update ex_conf ex_enc ex_rnd (zeros 1024) ex_stripes ex_map (mkCoord 0 (ex_ack ++ ex_ack) []).
Proof.
  apply (request_queue_refines ex_conf ex_enc ex_rnd (zeros 1024)).
  - exact ex_conf_ok.
  - exact ex_request_ok.
  - decided.
  - decided.
Defined.
