(* ===== verification/Trace.v ===== *)
(** * Trace replay (UPCoordinator.cc)

    The three places that replay a trace ([UpdateReqHandler],
    [single_doProcess], [multi_doProcess]) parse a line, split the request into
    blocks of [blocksize] KB and merge it into the log with the same code; they
    differ in what they count and in how a full log is flushed.

    [offset], [update_size] and the ids computed from them are [long long]; a
    result outside its range is undefined, as is an [int] loop counter that
    passes [INT_MAX].  The log size is compared as a [double], exact for the
    values at hand. *)
From Stdlib Require Import Ascii Sorting.Sorted.
From stdpp Require Import strings.
From S2P Require Import Prelude Command Text Config UpdPlan UPCoordinator UPDriver.

(** ** A line of the trace *)

Definition nth_part (parts : list str) (i : nat) : res str := res_of_option Undef (parts !! i).

(** Whether the line is a read, which is skipped. *)
Definition is_read (traceType : str) (parts : list str) : res bool :=
  if decide (traceType = lit "MSR") then r ← nth_part parts 3; Ok (bool_decide (r = lit "Read"))
  else if decide (traceType = lit "Ali") then r ← nth_part parts 1; Ok (bool_decide (r = lit "R"))
  else if decide (traceType = lit "Ten") then r ← nth_part parts 3; Ok (bool_decide (r = lit "0"))
  else Ok false.

(** [x * 512] on [long long]. *)
Definition sectors (x : Z) : res Z :=
  let y := x * 512 in
  guard_or Undef (bool_decide (LLONG_MIN <= y <= LLONG_MAX));; Ok y.

(** The offset and size in bytes; [os] holds the values of the line before. *)
Definition parse_request (traceType : str) (parts : list str) (os : Z * Z) : res (Z * Z) :=
  let '(offset, update_size) := os in
  if decide (traceType = lit "MSR") then
    a ← nth_part parts 4; b ← nth_part parts 5;
    Ok (stream_ll a offset, stream_ll b update_size)
  else if decide (traceType = lit "Ali") then
    a ← nth_part parts 2; b ← nth_part parts 3;
    Ok (stream_ll a offset, stream_ll b update_size)
  else if decide (traceType = lit "Ten") then
    a ← nth_part parts 1; offset ← sectors (stream_ll a offset);
    b ← nth_part parts 2; update_size ← sectors (stream_ll b update_size);
    Ok (offset, update_size)
  else Fault (Exit (-1)).

(** ** Splitting a request into blocks *)

(** [start_end] of global block [i]: the chain of [if]s. *)
Definition piece (blocksize offset update_size start_blk_id end_blk_id i : Z) : Z * Z :=
  if (i =? start_blk_id) && negb (i =? end_blk_id) then (Z.rem offset blocksize, blocksize)
  else if (i =? start_blk_id) && (i =? end_blk_id) then
    (Z.rem offset blocksize, Z.rem (offset + update_size) blocksize)
  else if negb (i =? start_blk_id) && negb (i =? end_blk_id) then (0, blocksize)
  else (0, Z.rem (offset + update_size) blocksize).

(** The pieces of a request, in the order of the loop over [int i]. *)
Definition split_request (blocksize offset update_size : Z) : res (list (Z * (Z * Z))) :=
  if blocksize =? 0 then Fault Undef
  else
    let start_blk_id := Z.quot offset blocksize in
    let end_blk_id := Z.quot (offset + update_size) blocksize in
    let i0 := wrap_s32 start_blk_id in
    guard_or Undef (bool_decide (end_blk_id < INT_MAX));;
    Ok ((fun i => (i, piece blocksize offset update_size start_blk_id end_blk_id i)) <$>
        seqZ i0 (end_blk_id - i0 + 1)).

(** ** The log *)

(** [stripe_id2loc_blk_id] and [glo_blk_id2start_end]. *)
Record log := mkLog { stripes : stripe_map; ranges : start_end_map }.
Definition empty_log : log := mkLog [] ∅.

(** [find] and [operator[]] on [stripe_id2loc_blk_id]: add [loc_blk_id] to the
    vector of [stripe_id], a new key going to its place in the order. *)
Fixpoint add_block (m : stripe_map) (stripe_id loc_blk_id : Z) : stripe_map :=
  match m with
  | [] => [(stripe_id, [loc_blk_id])]
  | (k, v) :: m' =>
      if stripe_id =? k then
        (k, if bool_decide (loc_blk_id ∈ v) then v else v ++ [loc_blk_id]) :: m'
      else if stripe_id <? k then (stripe_id, [loc_blk_id]) :: m
      else (k, v) :: add_block m' stripe_id loc_blk_id
  end.

(** A piece enters the log: a new block, or one whose range is updated. *)
Definition log_piece (ecK : Z) (l : log) (p : Z * (Z * Z)) : log :=
  let '(glo_blk_id, (s, e)) := p in
  let loc_blk_id := Z.rem glo_blk_id ecK in
  let stripe_id := Z.quot glo_blk_id ecK in
  match ranges l !! glo_blk_id with
  | None => mkLog (add_block (stripes l) stripe_id loc_blk_id) (<[glo_blk_id := (s, e)]> (ranges l))
  | Some (s0, e0) => mkLog (stripes l) (<[glo_blk_id := (Z.min s s0, Z.min e e0)]> (ranges l))
  end.

(** ** Replaying lines *)

Section replay.
Context (conf : Config).

(** The values of [offset] and [update_size], [count], and the log. *)
Record replay := mkReplay { r_os : Z * Z; r_count : Z; r_log : log }.

(** The part common to the three loops: [None] is [continue]. *)
Definition replay_line (line : str) (os : Z * Z) (l : log) : res ((Z * Z) * option log) :=
  let parts := splite_string line ","%char in
  rd ← is_read (_traceType conf) parts;
  if rd : bool then Ok (os, None)
  else
    '(offset, update_size) ← parse_request (_traceType conf) parts os;
    let offset := Z.quot offset 1024 in
    let update_size := Z.quot update_size 1024 in
    if update_size =? 0 then Ok ((offset, update_size), None)
    else
      pieces ← split_request (_blocksize conf) offset update_size;
      Ok ((offset, update_size), Some (foldl (log_piece (Z.of_nat (_ecK conf))) l pieces)).

(** [cur_log_size >= _conf->_log_size], in MB. *)
Definition log_full (l : log) : bool :=
  _log_size conf * 1024 <=? Z.of_nat (size (ranges l)) * _blocksize conf.

(** The loop of [single_doProcess] and [multi_doProcess]: [flush] is what they
    do with a full log, and [req_num] bounds the requests replayed. *)
Fixpoint replay_trace {S} (flush : log -> S -> res S) (req_num : Z) (lines : list str) (r : replay) (s : S) :
    res (replay * S) :=
  match lines with
  | [] => Ok (r, s)
  | line :: lines =>
      '(os, l) ← replay_line line (r_os r) (r_log r);
      match l with
      | None => replay_trace flush req_num lines (mkReplay os (r_count r) (r_log r)) s
      | Some l =>
          '(l, s) ← (if log_full l || (req_num <=? r_count r + 1) then
                       s ← flush l s; Ok (empty_log, s)
                     else Ok (l, s));
          let count := r_count r + 1 in
          if req_num <=? count + 1 then Ok (mkReplay os count l, s)
          else replay_trace flush req_num lines (mkReplay os count l) s
      end
  end.

(** The loop of [UpdateReqHandler]: [count] counts every line, a log without
    stripes ends the loop. *)
Fixpoint replay_requests {S} (flush : log -> S -> res S) (req_num : Z) (lines : list str) (r : replay) (s : S) :
    res (replay * S) :=
  match lines with
  | [] => Ok (r, s)
  | line :: lines =>
      let count := r_count r + 1 in
      '(os, l) ← replay_line line (r_os r) (r_log r);
      match l with
      | None => replay_requests flush req_num lines (mkReplay os count (r_log r)) s
      | Some l =>
          if log_full l || (req_num <=? count + 1) then
            match stripes l with
            | [] => Ok (mkReplay os count l, s)
            | _ =>
                s ← flush l s;
                if req_num <=? count + 1 then Ok (mkReplay os count empty_log, s)
                else replay_requests flush req_num lines (mkReplay os count empty_log) s
            end
          else if req_num <=? count + 1 then Ok (mkReplay os count l, s)
          else replay_requests flush req_num lines (mkReplay os count l) s
      end
  end.
End replay.

(** ** The processes *)

Section processes.
Context (conf : Config) (_rsEncMat : list Z) (rnd : nat -> Z) (upd_cmd : list Z).

Abbreviation trigger := (trigger_update conf _rsEncMat rnd upd_cmd).
Abbreviation trigger_multi := (trigger_update_by_multi_doProcess conf _rsEncMat rnd upd_cmd).

(** One random range per data block: [offset = rand() % blocksize] and
    [update_size = rand() % (blocksize - offset - 1) + 1]. *)
Definition random_range (st : coord) : res (Z * Z * coord) :=
  '(offset, st) ← rand_mod rnd (_blocksize conf) st;
  '(r, st) ← rand_mod rnd (_blocksize conf - offset - 1) st;
  Ok (offset, r + 1, st).

(** The [random] branch of [single_doProcess] and [multi_doProcess]: stripe 0
    with all its blocks. *)
Definition random_log (st : coord) : res (log * coord) :=
  '(m, st) ← for_each (seq 0 (_ecK conf)) (fun i '(m, st) =>
    '(offset, update_size, st) ← random_range st;
    Ok (<[Z.of_nat i := (offset, offset + update_size)]> m, st)) ((∅ : start_end_map), st);
  Ok (mkLog [(0, Z.of_nat <$> seq 0 (_ecK conf))] m, st).

(** A file that is read line by line; a missing one ends the program. *)
Definition open_trace (file : option (list str)) : res (list str) := res_of_option (Exit (-1)) file.

(** [single_doProcess]: the pushed commands and [total_upd_stripe_num]; the
    times and the printed throughput are left out. *)
Definition single_flush (l : log) (sn : coord * Z) : res (coord * Z) :=
  let '(st, n) := sn in
  st ← trigger (stripes l) (ranges l) st;
  Ok (st, n + Z.of_nat (length (stripes l))).

Definition single_doProcess (file : option (list str)) (st : coord) : res (coord * Z) :=
  if decide (_UPWay conf = lit "random") then
    '(l, st) ← random_log st;
    st ← trigger (stripes l) (ranges l) st;
    Ok (st, 1)
  else if decide (_UPWay conf = lit "trace") then
    lines ← open_trace file;
    '(_, sn) ← replay_trace conf single_flush 100000 lines (mkReplay (0, 0) 0 empty_log) (st, 0);
    Ok sn
  else Fault (Exit (-1)).

(** [multi_doProcess] replays every log under the four policies. *)
Definition multi_flush (l : log) (sn : coord * Z) : res (coord * Z) :=
  let '(st, n) := sn in
  st ← trigger_multi (stripes l) (ranges l) (lit "raid") st;
  st ← trigger_multi (stripes l) (ranges l) (lit "delta") st;
  st ← trigger_multi (stripes l) (ranges l) (lit "crd") st;
  st ← trigger_multi (stripes l) (ranges l) (lit "crd_flip") st;
  Ok (st, n + Z.of_nat (length (stripes l))).

(** [is_computed]: the first field of some line of the result file, up to a
    blank, is the name; a blank field leaves the name read before. *)
Definition first_word (s : str) (old : str) : str :=
  match skip_space s with
  | [] => old
  | t => (fix word t := match t with a :: t' => if is_space a then [] else a :: word t' | [] => [] end) t
  end.
Fixpoint is_computed (lines : list str) (current tracefile : str) : bool :=
  match lines with
  | [] => false
  | line :: lines =>
      let current := first_word (default [] (head (splite_string line ","%char))) current in
      if decide (current = tracefile) then true else is_computed lines current tracefile
  end.

(** The [trace] branch of [multi_doProcess]: the log and the last values read
    survive from one file to the next. *)
Definition multi_file (results : list str) (open : str -> option (list str)) (name : str)
    (rs : replay * coord) : res (replay * coord) :=
  let '(r, st) := rs in
  if is_computed results [] name then Ok (r, st)
  else
    lines ← open_trace (open name);
    '(r, (st, _)) ← replay_trace conf multi_flush 5000 lines (mkReplay (r_os r) 0 (r_log r)) (st, 0);
    Ok (r, st).

Definition multi_doProcess (names results : list str) (open : str -> option (list str)) (st : coord) : res coord :=
  if decide (_UPWay conf = lit "random") then
    '(l, st) ← random_log st;
    st ← trigger_multi (stripes l) (ranges l) (lit "raid") st;
    st ← trigger_multi (stripes l) (ranges l) (lit "delta") st;
    trigger_multi (stripes l) (ranges l) (lit "crd") st
  else if decide (_UPWay conf = lit "trace") then
    '(_, st) ← for_each names (multi_file results open) (mkReplay (0, 0) 0 empty_log, st);
    Ok st
  else Fault (Exit (-1)).

(** [doProcess] *)
Definition doProcess (file : option (list str)) (names results : list str) (open : str -> option (list str))
    (st : coord) : res coord :=
  if negb (bool_decide (_UPPolicy conf = lit "all")) then '(st, _) ← single_doProcess file st; Ok st
  else multi_doProcess names results open st.

(** [UpdateReqHandler]: the requests pushed to [upd_requests]. *)
Definition request_flush (buf : list Z) (l : log) (requests : list (list Z)) : res (list (list Z)) :=
  w ← encode_requests conf (stripes l) (ranges l) (rewind buf);
  Ok (requests ++ [sent w]).

Definition UpdateReqHandler (buf : list Z) (file : option (list str)) (st : coord) : res (list (list Z) * coord) :=
  if decide (_UPWay conf = lit "random") then
    w ← put 1 (rewind buf); w ← put (Z.of_nat (_ecK conf)) w;
    '(w, st) ← for_each (seq 0 (_ecK conf)) (fun i '(w, st) =>
      w ← put (Z.of_nat i) w;
      '(offset_add, upd_size, st) ← random_range st;
      w ← (put offset_add ;> put upd_size) w;
      Ok (w, st)) (w, st);
    Ok ([sent w], st)
  else if decide (_UPWay conf = lit "trace") then
    lines ← open_trace file;
    '(_, requests) ← replay_requests conf (request_flush buf) 400 lines (mkReplay (0, 0) 0 empty_log) [];
    Ok (requests, st)
  else Fault (Exit (-1)).
End processes.

(** ** The pieces of a request *)

Section split.
Context (blocksize offset update_size : Z).
Context (HB : 0 < blocksize) (HO : 0 <= offset) (HS : 0 <= update_size).
Abbreviation first_ := (offset / blocksize).
Abbreviation last_ := ((offset + update_size) / blocksize).

(** The part of [offset, offset + update_size) that lies in block [i]. *)
Lemma piece_bounds i :
  first_ <= i <= last_ ->
  let '(s, e) := piece blocksize offset update_size first_ last_ i in
  i * blocksize + s = Z.max offset (i * blocksize) /\
  i * blocksize + e = Z.min (offset + update_size) (i * blocksize + blocksize) /\
  0 <= s <= e /\ e <= blocksize.
Proof.
  intros Hi. unfold piece. rewrite !Z.rem_mod_nonneg by lia.
  pose proof (Z.div_mod offset blocksize ltac:(lia)). pose proof (Z.mod_pos_bound offset blocksize HB).
  pose proof (Z.div_mod (offset + update_size) blocksize ltac:(lia)).
  pose proof (Z.mod_pos_bound (offset + update_size) blocksize HB).
  assert (Hlt : forall x y, x < y -> x * blocksize + blocksize <= y * blocksize) by (intros; nia).
  destruct (Z.eqb_spec i first_) as [E1|E1], (Z.eqb_spec i last_) as [E2|E2]; simpl.
  - subst i. rewrite <- E2 in *. lia.
  - pose proof (Hlt i last_ ltac:(lia)). rewrite <- E1 in *. lia.
  - pose proof (Hlt first_ i ltac:(lia)). rewrite <- E2 in *. lia.
  - pose proof (Hlt i last_ ltac:(lia)). pose proof (Hlt first_ i ltac:(lia)). lia.
Qed.

Lemma split_request_eq :
  last_ < INT_MAX ->
  split_request blocksize offset update_size =
    Ok ((fun i => (i, piece blocksize offset update_size first_ last_ i)) <$> seqZ first_ (last_ - first_ + 1)).
Proof.
  intros HM. unfold split_request. destruct (Z.eqb_spec blocksize 0); [lia|].
  rewrite !Z.quot_div_nonneg by lia.
  assert (0 <= first_) by (apply Z.div_pos; lia).
  assert (first_ <= last_) by (apply Z.div_le_mono; lia).
  rewrite wrap_s32_id by (unfold is_s32, INT_MAX in *; lia).
  rewrite bool_decide_true by done. done.
Qed.
End split.

(** C16: splitting a request is exact.  The pieces of [offset, offset +
    update_size) (in KB) are ranges inside their blocks, there is one per block
    in increasing order, a KB is in the request iff it is in the piece of its
    block, and the sizes of the pieces sum to [update_size]. *)
Theorem split_request_exact blocksize offset update_size :
  0 < blocksize -> 0 <= offset -> 0 <= update_size -> (offset + update_size) / blocksize < INT_MAX ->
  exists pieces, split_request blocksize offset update_size = Ok pieces /\
    pieces.*1 = seqZ (offset / blocksize) ((offset + update_size) / blocksize - offset / blocksize + 1) /\
    Forall (fun p => 0 <= p.2.1 <= p.2.2 /\ p.2.2 <= blocksize) pieces /\
    (forall x, offset <= x < offset + update_size <->
       exists s e, (x / blocksize, (s, e)) ∈ pieces /\ s <= x mod blocksize < e) /\
    foldr (fun p n => p.2.2 - p.2.1 + n) 0 pieces = update_size.
Proof.
  intros HB HO HS HM. eexists. split; [by apply split_request_eq|].
  set (f := offset / blocksize). set (l := (offset + update_size) / blocksize).
  assert (Hfl : f <= l) by (apply Z.div_le_mono; lia).
  pose proof (piece_bounds blocksize offset update_size HB HO HS) as Hp. fold f l in Hp. split_and!.
  - rewrite <- list_fmap_compose. apply list_fmap_id.
  - apply Forall_fmap, Forall_forall. intros i Hi%elem_of_seqZ. simpl.
    specialize (Hp i ltac:(lia)). destruct (piece _ _ _ _ _ i). simpl. lia.
  - intros x. pose proof (Z.div_mod x blocksize ltac:(lia)). pose proof (Z.mod_pos_bound x blocksize HB). split.
    + intros Hx. assert (f <= x / blocksize <= l) by (split; apply Z.div_le_mono; lia).
      specialize (Hp (x / blocksize) ltac:(lia)).
      destruct (piece blocksize offset update_size f l (x / blocksize)) as [s e] eqn:E. exists s, e. split; [|lia].
      apply list_elem_of_fmap. exists (x / blocksize). rewrite E. split; [done|]. apply elem_of_seqZ. lia.
    + intros (s & e & Hin & Hx). apply list_elem_of_fmap in Hin as (i & Heq & Hi%elem_of_seqZ).
      injection Heq as Hi' E. specialize (Hp i ltac:(lia)). rewrite <- E in Hp. lia.
  - assert (Hsum : forall n : nat, f + Z.of_nat n <= l + 1 ->
      foldr (fun p n => p.2.2 - p.2.1 + n) 0
        ((fun i => (i, piece blocksize offset update_size f l i)) <$> seqZ f (Z.of_nat n)) =
      Z.max 0 (Z.min (offset + update_size) ((f + Z.of_nat n) * blocksize) - offset)).
    { intros n. induction n as [|n IH]; intros Hn.
      - simpl. pose proof (Z.div_mod offset blocksize ltac:(lia)) as Hd.
        pose proof (Z.mod_pos_bound offset blocksize HB). fold f in Hd. nia.
      - rewrite Nat2Z.inj_succ, <- Z.add_1_r, seqZ_app by lia. rewrite fmap_app, foldr_app. simpl.
        rewrite Z.add_0_r.
        assert (Hacc : forall L a, foldr (fun (p : Z * (Z * Z)) n => p.2.2 - p.2.1 + n) a L =
          foldr (fun p n => p.2.2 - p.2.1 + n) 0 L + a).
        { clear. induction L as [|p L IH]; intros a; simpl; [lia|]. rewrite IH. lia. }
        rewrite Hacc, IH by lia. specialize (Hp (f + Z.of_nat n) ltac:(lia)).
        replace (Z.of_nat 0 + (f + Z.of_nat n)) with (f + Z.of_nat n) by lia.
        destruct (piece _ _ _ _ _ (f + Z.of_nat n)) as [s e]. cbn [fst snd].
        pose proof (Z.div_mod offset blocksize ltac:(lia)) as Hd.
        pose proof (Z.mod_pos_bound offset blocksize HB). fold f in Hd.
        pose proof (Z.div_mod (offset + update_size) blocksize ltac:(lia)) as Hd2. fold l in Hd2.
        pose proof (Z.mod_pos_bound (offset + update_size) blocksize HB).
        assert ((f + Z.of_nat n) * blocksize <= l * blocksize) by nia.
        assert (n = 0%nat \/ f * blocksize + blocksize <= (f + Z.of_nat n) * blocksize) as [->|] by nia; lia. }
    replace (l - f + 1) with (Z.of_nat (Z.to_nat (l - f + 1))) by lia. rewrite Hsum by lia.
    pose proof (Z.div_mod (offset + update_size) blocksize ltac:(lia)) as Hd. fold l in Hd.
    pose proof (Z.mod_pos_bound (offset + update_size) blocksize HB). nia.
Qed.

Lemma split_request_exact_witness :
  split_request 64 100 60 = Ok [(1, (36, 64)); (2, (0, 32))] /\
  exists pieces, split_request 64 100 60 = Ok pieces /\
    pieces.*1 = seqZ (100 / 64) ((100 + 60) / 64 - 100 / 64 + 1) /\
    Forall (fun p => 0 <= p.2.1 <= p.2.2 /\ p.2.2 <= 64) pieces /\
    (forall x, 100 <= x < 100 + 60 <-> exists s e, (x / 64, (s, e)) ∈ pieces /\ s <= x mod 64 < e) /\
    foldr (fun p n => p.2.2 - p.2.1 + n) 0 pieces = 60.
Proof.
  split; [reflexivity|]. apply (split_request_exact 64 100 60); [lia..|decided].
Defined.


(** ** The log invariant *)

(** Keys strictly increasing: the order of [std::map]. *)
Definition keys_sorted (m : stripe_map) : Prop := StronglySorted Z.lt m.*1.

(** The two maps of the log agree: the stripes list, without repetition, the
    local ids of exactly the blocks that have a range. *)
Record log_inv (ecK : nat) (blocksize : Z) (l : log) : Prop := {
  li_sorted : keys_sorted (stripes l);
  li_ids : forall sid ids, (sid, ids) ∈ stripes l ->
    ids <> [] /\ NoDup ids /\ forall id, id ∈ ids -> 0 <= id < Z.of_nat ecK;
  li_dom : forall g, is_Some (ranges l !! g) <->
    exists sid ids id, (sid, ids) ∈ stripes l /\ id ∈ ids /\ g = sid * Z.of_nat ecK + id;
  li_range : forall g s e, ranges l !! g = Some (s, e) -> 0 <= s <= e /\ e <= blocksize
}.

Section log_facts.
Context (ecK : nat) (blocksize : Z) (HK : (0 < ecK)%nat).

Lemma add_block_in m sid id k v :
  (k, v) ∈ add_block m sid id ->
  (k, v) ∈ m \/ (k = sid /\ (v = [id] \/ exists v0, (sid, v0) ∈ m /\ v = v0 ++ [id] /\ id ∉ v0)).
Proof.
  induction m as [|[k0 v0] m IH]; simpl.
  - intros [[= -> ->]|H%elem_of_nil]%elem_of_cons; [|done]. right. auto.
  - destruct (Z.eqb_spec sid k0) as [->|Hne]; [|destruct (Z.ltb_spec sid k0)].
    + intros [[= -> ->]|H]%elem_of_cons; [|left; by right]. case_bool_decide; [left; left|].
      right. split; [done|]. right. exists v0. split; [left|done].
    + intros [[= -> ->]|H']%elem_of_cons; [right; auto|by left].
    + intros [[= -> ->]|H']%elem_of_cons; [left; left|].
      destruct (IH H') as [Hin|(-> & Hv)]; [left; by right|]. right. split; [done|].
      destruct Hv as [->|(v1 & Hin & -> & Hid)]; [auto|]. right. exists v1. split; [by right|done].
Qed.

(** The blocks listed after [add_block] are those before and the new one. *)
Lemma add_block_blocks m sid id k x :
  keys_sorted m ->
  (exists v, (k, v) ∈ add_block m sid id /\ x ∈ v) <-> (exists v, (k, v) ∈ m /\ x ∈ v) \/ (k = sid /\ x = id).
Proof.
  intros _. induction m as [|[k0 v0] m IH]; simpl.
  - split.
    + intros (v & [[= -> ->]|H%elem_of_nil]%elem_of_cons & Hx); [|done]. right.
      by apply list_elem_of_singleton in Hx.
    + intros [(v & H%elem_of_nil & _)|[-> ->]]; [done|]. exists [id]. split; left.
  - destruct (Z.eqb_spec sid k0) as [->|Hne]; [|destruct (Z.ltb_spec sid k0)].
    + case_bool_decide as Hid.
      * split; [by left|]. intros [H|[-> ->]]; [done|]. exists v0. split; [left|done].
      * split.
        -- intros (v & [[= -> ->]|H]%elem_of_cons & Hx).
           ++ apply elem_of_app in Hx as [Hx|Hx%list_elem_of_singleton]; [|by right].
              left. exists v0. split; [left|done].
           ++ left. exists v. split; [by right|done].
        -- intros [(v & [[= -> ->]|H]%elem_of_cons & Hx)|[-> ->]].
           ++ exists (v0 ++ [id]). split; [left|]. apply elem_of_app. by left.
           ++ exists v. split; [by right|done].
           ++ exists (v0 ++ [id]). split; [left|]. apply elem_of_app. right. left.
    + split.
      * intros (v & [[= -> ->]|H']%elem_of_cons & Hx); [|left; eauto].
        right. by apply list_elem_of_singleton in Hx.
      * intros [(v & H' & Hx)|[-> ->]]; [exists v; split; [by right|done]|].
        exists [id]. split; left.
    + split.
      * intros (v & [[= -> ->]|H']%elem_of_cons & Hx).
        -- left. exists v0. split; [left|done].
        -- destruct (proj1 IH ltac:(eauto)) as [(w & Hw & Hxw)|?]; [|by right].
           left. exists w. split; [by right|done].
      * intros [(v & [[= -> ->]|H']%elem_of_cons & Hx)|Hnew].
        -- exists v0. split; [left|done].
        -- destruct (proj2 IH ltac:(eauto)) as (w & Hw & Hxw). exists w. split; [by right|done].
        -- destruct (proj2 IH ltac:(by right)) as (w & Hw & Hxw). exists w. split; [by right|done].
Qed.

Lemma add_block_keys m sid id k : k ∈ (add_block m sid id).*1 -> k = sid \/ k ∈ m.*1.
Proof.
  intros ([k' v] & -> & Hin)%list_elem_of_fmap. simpl.
  destruct (add_block_in _ _ _ _ _ Hin) as [H|[-> _]]; [|by left].
  right. by apply (list_elem_of_fmap_2 fst) in H.
Qed.

Lemma add_block_sorted m sid id : keys_sorted m -> keys_sorted (add_block m sid id).
Proof.
  unfold keys_sorted. induction m as [|[k v] m IH]; intros Hs; cbn [add_block].
  - repeat constructor.
  - rewrite fmap_cons in Hs. cbn [fst] in Hs. apply StronglySorted_inv in Hs as [Hs Hall].
    destruct (Z.eqb_spec sid k); [|destruct (Z.ltb_spec sid k)]; rewrite !fmap_cons; cbn [fst].
    + by constructor.
    + constructor; [by constructor|]. constructor; [done|]. eapply Forall_impl; [exact Hall|]. simpl. lia.
    + constructor; [by apply IH|]. apply Forall_forall. intros x [->|Hx]%add_block_keys; [lia|].
      rewrite Forall_forall in Hall. by apply Hall.
Qed.

Lemma log_piece_inv l g s e :
  log_inv ecK blocksize l -> 0 <= g -> 0 <= s <= e -> e <= blocksize ->
  log_inv ecK blocksize (log_piece (Z.of_nat ecK) l (g, (s, e))).
Proof.
  intros [H1 H2 H3 H4] Hg Hse He. unfold log_piece.
  rewrite Z.rem_mod_nonneg, Z.quot_div_nonneg by lia.
  pose proof (Z.div_mod g (Z.of_nat ecK) ltac:(lia)) as Hdm.
  pose proof (Z.mod_pos_bound g (Z.of_nat ecK) ltac:(lia)) as Hm.
  destruct (ranges l !! g) as [[s0 e0]|] eqn:E; split; cbn [stripes ranges]; try done.
  - intros g'. rewrite <- H3. destruct (decide (g' = g)) as [->|]; [rewrite lookup_insert_eq, E; split; eauto|].
    by rewrite lookup_insert_ne.
  - intros g' s' e'. destruct (decide (g' = g)) as [->|]; [|rewrite lookup_insert_ne by done; apply H4].
    rewrite lookup_insert_eq. intros [= <- <-]. specialize (H4 _ _ _ E). lia.
  - by apply add_block_sorted.
  - intros sid ids Hin. destruct (add_block_in _ _ _ _ _ Hin) as [Hin'|(-> & [->|(v0 & Hv & -> & Hn)])]; [by apply (H2 sid)|..].
    + split_and!; [done|apply NoDup_singleton|]. intros id Hx%list_elem_of_singleton. by subst id.
    + destruct (H2 _ _ Hv) as (_ & Hnd & Hid). split_and!; [by destruct v0| |].
      * apply NoDup_app. split_and!; [done| |apply NoDup_singleton]. intros x Hx Hx2%list_elem_of_singleton. by subst x.
      * intros id [Hx|Hx%list_elem_of_singleton]%elem_of_app; [by apply Hid|by subst id].
  - intros g'.
    assert (Hadd : (exists sid ids id, (sid, ids) ∈ add_block (stripes l) (g / Z.of_nat ecK) (g mod Z.of_nat ecK) /\
        id ∈ ids /\ g' = sid * Z.of_nat ecK + id) <->
      (exists sid ids id, (sid, ids) ∈ stripes l /\ id ∈ ids /\ g' = sid * Z.of_nat ecK + id) \/ g' = g).
    { split.
      - intros (sid & ids & id & Hin & Hid & ->).
        destruct (proj1 (add_block_blocks (stripes l) (g / Z.of_nat ecK) (g mod Z.of_nat ecK) sid id H1)) as [(v & Hv & Hx)|[-> ->]];
          [by eauto|left; by eauto 6|right; lia].
      - intros [(sid & ids & id & Hin & Hid & ->)| ->].
        + destruct (proj2 (add_block_blocks (stripes l) (g / Z.of_nat ecK) (g mod Z.of_nat ecK) sid id H1)) as (v & Hv & Hx);
            [left; by eauto|by eauto 6].
        + destruct (proj2 (add_block_blocks (stripes l) (g / Z.of_nat ecK) (g mod Z.of_nat ecK)
            (g / Z.of_nat ecK) (g mod Z.of_nat ecK) H1)) as (v & Hv & Hx); [by right|].
          exists (g / Z.of_nat ecK), v, (g mod Z.of_nat ecK). split_and!; [done|done|lia]. }
    rewrite Hadd, <- H3. destruct (decide (g' = g)) as [->|Hne].
    + rewrite lookup_insert_eq. split; eauto.
    + rewrite lookup_insert_ne by done. split; [by left|]. intros [H|H]; done.
  - intros g' s' e'. destruct (decide (g' = g)) as [->|]; [|rewrite lookup_insert_ne by done; apply H4].
    rewrite lookup_insert_eq. intros [= <- <-]. lia.
Qed.

Lemma empty_log_inv : log_inv ecK blocksize empty_log.
Proof.
  split; simpl.
  - constructor.
  - intros sid ids H%elem_of_nil. done.
  - intros g. rewrite lookup_empty. split; [by intros [? ?]|]. intros (? & ? & ? & H%elem_of_nil & _). done.
  - intros g s e H. by rewrite lookup_empty in H.
Qed.
End log_facts.

(** Merging a new range into a block already in the log keeps the smaller
    start and the smaller end, so for two non-empty ranges the stored range
    covers both iff they end at the same place. *)
Theorem log_piece_merge ecK l g s e s0 e0 :
  ranges l !! g = Some (s0, e0) -> s < e -> s0 < e0 ->
  ranges (log_piece ecK l (g, (s, e))) !! g = Some (Z.min s s0, Z.min e e0) /\
  stripes (log_piece ecK l (g, (s, e))) = stripes l /\
  ((forall x, s <= x < e \/ s0 <= x < e0 -> Z.min s s0 <= x < Z.min e e0) <-> e = e0).
Proof.
  intros H Hs H0. unfold log_piece. rewrite H. cbn [ranges stripes]. rewrite lookup_insert_eq.
  split_and!; [done|done|]. split; [|lia]. intros Hall.
  pose proof (Hall (e - 1)). pose proof (Hall (e0 - 1)). lia.
Qed.

Lemma log_piece_merge_witness :
  ranges (log_piece 4 (mkLog [(0, [1])] (<[1 := (3, 12)]> ∅)) (1, (5, 20))) !! 1 = Some (3, 12) /\
  ((forall x, 5 <= x < 20 \/ 3 <= x < 12 -> Z.min 5 3 <= x < Z.min 20 12) <-> 20 = 12).
Proof.
  destruct (log_piece_merge 4 (mkLog [(0, [1])] (<[1 := (3, 12)]> ∅)) 1 5 20 3 12) as (H1 & _ & H3);
    [reflexivity|lia|lia|]. split; [exact H1|exact H3].
Defined.

(** ** From the log to the update *)

(** A log that satisfies the invariant can be replayed: when the code is
    small enough for a full stripe to fit the commands, every stripe of the log
    meets what [trigger_update] needs (its blocks have ranges inside the block
    and its commands fit), however many requests were merged. *)
Theorem log_stripes_ok conf l :
  (0 < _ecK conf)%nat -> _blocksize conf <= INT_MAX -> log_inv (_ecK conf) (_blocksize conf) l ->
  (3 + _ecK conf * (4 + _ecM conf) + (_ecM conf - 1) <= max_operands)%nat ->
  Forall (stripe_ok conf (ranges l)) (stripes l) /\
  Forall (fun s => (length s.2 <= _ecK conf)%nat) (stripes l).
Proof.
  intros HK HB [H1 H2 H3 H4] Hfit.
  assert (Hlen : forall sid ids, (sid, ids) ∈ stripes l -> (length ids <= _ecK conf)%nat).
  { intros sid ids Hin. destruct (H2 _ _ Hin) as (_ & Hnd & Hid).
    assert (Hs : ids ⊆+ seqZ 0 (Z.of_nat (_ecK conf))).
    { apply NoDup_submseteq; [done|]. intros id Hx. apply elem_of_seqZ. specialize (Hid id Hx). lia. }
    apply submseteq_length in Hs. rewrite length_seqZ in Hs. lia. }
  split; apply Forall_forall; intros [sid ids] Hin; cbn [fst snd]; [|by eapply Hlen].
  destruct (H2 _ _ Hin) as (Hne & Hnd & Hid). specialize (Hlen _ _ Hin). split_and!; [done|simpl; nia|].
  apply Forall_forall. intros id Hx. cbn [fst snd] in *. split; [by apply Hid|].
  destruct (proj2 (H3 (sid * Z.of_nat (_ecK conf) + id)) ltac:(by eauto 6)) as [[a b] Hab].
  exists a, b. specialize (H4 _ _ _ Hab). split; [done|lia].
Qed.

(** ** Lines without minus signs *)

Lemma digits_nonneg s v : 0 <= v -> 0 <= fst (digits v s).
Proof.
  revert v. induction s as [|a s IH]; intros v Hv; simpl; [done|].
  destruct (is_digit a) eqn:E; simpl; [|done]. apply IH. unfold digit_val.
  unfold is_digit in E. apply andb_true_iff in E as [E%N.leb_le _]. lia.
Qed.

Lemma skip_space_in s : forall a, a ∈ skip_space s -> a ∈ s.
Proof.
  induction s as [|b s IH]; intros a; simpl; [done|]. destruct (is_space b); [|done].
  intros H. right. by apply IH.
Qed.

Lemma stream_ll_nonneg s old : "-"%char ∉ s -> 0 <= old -> 0 <= stream_ll s old.
Proof.
  intros Hs Ho. unfold stream_ll, number. pose proof (skip_space_in s "-"%char) as Hin.
  destruct (skip_space s) as [|a t]; [done|].
  assert (Hne : a <> "-"%char) by (intros ->; apply Hs, Hin; left).
  unfold sign. rewrite decide_False by done.
  assert (Hv : forall t, 0 <= Z.max LLONG_MIN (Z.min LLONG_MAX (fst (digits 0 t)))).
  { intros t'. pose proof (digits_nonneg t' 0). unfold LLONG_MIN, LLONG_MAX. lia. }
  destruct (decide (a = "+"%char)).
  - destruct t as [|b t]; [lia|]. destruct (is_digit b); [apply Hv|lia].
  - destruct (is_digit a); [apply Hv|lia].
Qed.

Lemma join_in c l p a : p ∈ l -> a ∈ p -> a ∈ join c l.
Proof.
  intros Hp Ha. induction l as [|q l IH]; [by apply elem_of_nil in Hp|].
  apply elem_of_cons in Hp as [<-|Hp]; destruct l as [|q' l]; cbn [join].
  - done.
  - apply elem_of_app. by left.
  - by apply elem_of_nil in Hp.
  - apply elem_of_app. right. right. by apply IH.
Qed.

Lemma splite_part_in s c p a : p ∈ splite_string s c -> a ∈ p -> a ∈ s.
Proof.
  intros Hp Ha. destruct (splite_fuel_spec (length s) s c [] (le_n _)) as (l & Hl & _ & Hj & _).
  unfold splite_string in Hp. rewrite Hl in Hp. rewrite <- Hj. by eapply join_in.
Qed.

Lemma nth_part_clean line i p :
  "-"%char ∉ line -> nth_part (splite_string line ","%char) i = Ok p -> "-"%char ∉ p.
Proof.
  intros Hl Hp Hin. apply res_of_option_ok in Hp. apply list_elem_of_lookup_2 in Hp.
  apply Hl. by eapply splite_part_in.
Qed.

Lemma parse_request_nonneg ty line os os' :
  "-"%char ∉ line -> 0 <= os.1 /\ 0 <= os.2 -> parse_request ty (splite_string line ","%char) os = Ok os' ->
  0 <= os'.1 /\ 0 <= os'.2.
Proof.
  intros Hl [H1 H2] H. destruct os as [o u]. unfold parse_request, sectors in H. cbn [fst snd] in *.
  repeat case_decide; res_inv; simpl; repeat match goal with
    | Hp : nth_part _ _ = Ok ?p |- _ => apply (nth_part_clean _ _ _ Hl) in Hp
    end; auto using stream_ll_nonneg.
  assert (0 <= stream_ll v o) by auto using stream_ll_nonneg.
  assert (0 <= stream_ll v1 u) by auto using stream_ll_nonneg. lia.
Qed.

(** ** The invariant along a trace *)

Section trace_inv.
Context (conf : Config) (HK : (0 < _ecK conf)%nat) (HB : 0 < _blocksize conf).
Abbreviation inv := (log_inv (_ecK conf) (_blocksize conf)).

Definition clean (line : str) : Prop := "-"%char ∉ line.
Definition nonneg (os : Z * Z) : Prop := 0 <= os.1 /\ 0 <= os.2.

Lemma fold_pieces_inv l ps :
  inv l -> Forall (fun p => 0 <= p.1 /\ 0 <= p.2.1 <= p.2.2 /\ p.2.2 <= _blocksize conf) ps ->
  inv (foldl (log_piece (Z.of_nat (_ecK conf))) l ps).
Proof.
  intros Hl Hps. revert l Hl. induction Hps as [|[g [s e]] ps (H1 & H2 & H3) _ IH]; intros l Hl; [done|].
  simpl. apply IH. by apply log_piece_inv.
Qed.

Lemma replay_line_inv line os l os' o :
  clean line -> nonneg os -> inv l -> replay_line conf line os l = Ok (os', o) ->
  nonneg os' /\ match o with Some l' => inv l' | None => True end.
Proof.
  intros Hc Hos Hl H. unfold replay_line in H. res_inv.
  destruct v; [by res_inv|]. res_inv. destruct v as [o1 u1].
  destruct (parse_request_nonneg _ _ _ _ Hc Hos Hm0) as [Ho Hu]. cbn [fst snd] in *.
  rewrite !Z.quot_div_nonneg in Hk0 by lia.
  assert (Ho' : 0 <= o1 / 1024) by (apply Z.div_pos; lia).
  assert (Hu' : 0 <= u1 / 1024) by (apply Z.div_pos; lia).
  destruct (u1 / 1024 =? 0); res_inv; [done|]. split; [done|]. apply fold_pieces_inv; [done|].
  destruct (decide ((o1 / 1024 + u1 / 1024) / _blocksize conf < INT_MAX)) as [Hlt|Hge].
  - rewrite split_request_eq in Hm1 by done. res_inv. apply Forall_fmap, Forall_forall.
    intros i Hi%elem_of_seqZ. simpl.
    pose proof (piece_bounds (_blocksize conf) _ _ HB Ho' Hu' i ltac:(lia)) as Hp.
    destruct (piece _ _ _ _ _ i). simpl.
    assert (0 <= o1 / 1024 / _blocksize conf) by (apply Z.div_pos; lia). lia.
  - unfold split_request in Hm1. destruct (_blocksize conf =? 0); [done|].
    rewrite !Z.quot_div_nonneg in Hm1 by lia. by rewrite bool_decide_false in Hm1.
Qed.

(** The logs a replay flushes, in order. *)
Definition collect (l : log) (ls : list log) : res (list log) := Ok (ls ++ [l]).

(** C17: along a trace without negative numbers the log always satisfies its
    invariant: every log [single_doProcess] or [multi_doProcess] flushes, and
    the one left at the end, has consistent maps, whatever the sequence of
    requests, merges, flushes and skipped lines. *)
Theorem replay_trace_logs req_num lines r ls r' ls' :
  Forall clean lines -> nonneg (r_os r) -> inv (r_log r) -> Forall inv ls ->
  replay_trace conf collect req_num lines r ls = Ok (r', ls') ->
  inv (r_log r') /\ Forall inv ls'.
Proof.
  intros Hc. revert r ls. induction Hc as [|line lines Hline _ IH]; intros r ls Hos Hl Hls H; cbn [replay_trace] in H.
  - by res_inv.
  - res_inv. destruct v as [os o]. destruct (replay_line_inv _ _ _ _ _ Hline Hos Hl Hm) as [Hos' Ho].
    destruct o as [l|]; [|by eapply IH in Hk].
    assert (Htail : forall l2 ls2, inv l2 -> Forall inv ls2 ->
      (if req_num <=? r_count r + 1 + 1 then Ok (mkReplay os (r_count r + 1) l2, ls2)
       else replay_trace conf collect req_num lines (mkReplay os (r_count r + 1) l2) ls2) = Ok (r', ls') ->
      inv (r_log r') /\ Forall inv ls').
    { intros l2 ls2 H1 H2 H. destruct (req_num <=? _); [by res_inv|]. by eapply IH in H. }
    destruct (log_full conf l || _); [change (collect l ls) with (Ok (ls ++ [l])) in Hk|]; rewrite !bind_ok in Hk;
      eapply Htail in Hk; try done.
    + apply empty_log_inv.
    + apply Forall_app. split; [done|by apply Forall_singleton].
Qed.
End trace_inv.

(** A log is flushed only when it is full.  The test on [count] that
    should flush the rest of the log with the last request comes one request
    too late, as the loop has already been left: for more than one request
    allowed, [single_doProcess] and [multi_doProcess] flush full logs only, and
    what the last requests put in the log is not replayed. *)
Theorem replay_trace_only_full conf req_num lines r ls r' ls' :
  r_count r + 1 < req_num -> Forall (fun l => log_full conf l = true) ls ->
  replay_trace conf collect req_num lines r ls = Ok (r', ls') ->
  Forall (fun l => log_full conf l = true) ls'.
Proof.
  revert r ls. induction lines as [|line lines IH]; intros r ls Hc Hls H; cbn [replay_trace] in H.
  - by res_inv.
  - res_inv. destruct v as [os [l|]]; [|by eapply IH in Hk].
    rewrite (proj2 (Z.leb_gt req_num (r_count r + 1))), orb_false_r in Hk by lia.
    destruct (log_full conf l) eqn:E; [change (collect l ls) with (Ok (ls ++ [l])) in Hk|];
      rewrite !bind_ok in Hk; destruct (Z.leb_spec req_num (r_count r + 1 + 1)); try (by res_inv).
    + res_inv. apply Forall_app. split; [done|by apply Forall_singleton].
    + eapply IH in Hk; [done|simpl; lia|]. apply Forall_app. split; [done|by apply Forall_singleton].
    + eapply IH in Hk; [done|simpl; lia|done].
Qed.

(** ** Witnesses on a log of 1 MB with blocks of 512 KB *)

Definition ex_trace_conf : Config :=
  mkConfig 2 4 1024 0 32 [11; 12; 13; 14] 10 11 true false (lit "crd") 1 (lit "trace") 512 (lit "Ali").
Definition ex_lines : list str :=
  [lit "1,W,0,8192"; lit "1,R,5,5"; lit "2,W,520192,131072"; lit "3,W,10,10"; lit "4,W,4194304,262144"].

Lemma ex_lines_clean : Forall clean ex_lines.
Proof. unfold clean. decided. Qed.

Lemma replay_trace_logs_witness :
  exists r ls, replay_trace ex_trace_conf collect 4 ex_lines (mkReplay (0, 0) 0 empty_log) [] = Ok (r, ls) /\
    stripes <$> ls = [[(0, [0; 1])]] /\ stripes (r_log r) = [(4, [0])] /\
    log_inv 2 512 (r_log r) /\ Forall (log_inv 2 512) ls.
Proof.
  destruct (replay_trace ex_trace_conf collect 4 ex_lines (mkReplay (0, 0) 0 empty_log) []) as [[r ls]|] eqn:E;
    [|vm_compute in E; discriminate].
  exists r, ls. split; [reflexivity|].
  assert (Hr : (stripes <$> ls, stripes (r_log r)) = ([[(0, [0; 1])]], [(4, [0])])).
  { vm_compute in E. injection E as <- <-. reflexivity. }
  injection Hr as H1 H2. split; [exact H1|]. split; [exact H2|].
  apply (replay_trace_logs ex_trace_conf ltac:(simpl; lia) ltac:(simpl; lia) 4 ex_lines
    (mkReplay (0, 0) 0 empty_log) [] r ls); [exact ex_lines_clean|split; simpl; lia|apply empty_log_inv|constructor|exact E].
Defined.

Lemma replay_trace_only_full_witness :
  exists r ls, replay_trace ex_trace_conf collect 4 ex_lines (mkReplay (0, 0) 0 empty_log) [] = Ok (r, ls) /\
    length ls = 1%nat /\ Forall (fun l => log_full ex_trace_conf l = true) ls.
Proof.
  destruct (replay_trace ex_trace_conf collect 4 ex_lines (mkReplay (0, 0) 0 empty_log) []) as [[r ls]|] eqn:E;
    [|vm_compute in E; discriminate].
  exists r, ls. split; [reflexivity|]. split; [by vm_compute in E; injection E as _ <-|].
  apply (replay_trace_only_full ex_trace_conf 4 ex_lines (mkReplay (0, 0) 0 empty_log) [] r ls);
    [simpl; lia|constructor|exact E].
Defined.

Lemma log_stripes_ok_witness :
  let l := foldl (log_piece 2) empty_log [(0, (0, 8)); (1, (500, 512)); (0, (4, 20))] in
  Forall (stripe_ok ex_trace_conf (ranges l)) (stripes l) /\ Forall (fun s => (length s.2 <= 2)%nat) (stripes l).
Proof.
  apply (log_stripes_ok ex_trace_conf); [simpl; lia|decided| |vm_compute; lia].
  apply (fold_pieces_inv ex_trace_conf ltac:(simpl; lia)); [apply empty_log_inv|].
  decided.
Defined.

(** ** Random updates *)

(** [rand() % (blocksize - offset - 1)] divides by zero when the offset is
    the last KB of the block; for every other draw the range has at least one
    KB and ends before the last KB of the block. *)
Theorem random_range_cases conf rnd st :
  0 < _blocksize conf -> (forall n, 0 <= rnd n) ->
  let offset := rnd (draws st) mod _blocksize conf in
  random_range conf rnd st =
    (if offset =? _blocksize conf - 1 then Fault Undef
    else Ok (offset, rnd (S (draws st)) mod (_blocksize conf - offset - 1) + 1,
             mkCoord (S (S (draws st))) (acks st) (pushed st))) /\
  (offset <> _blocksize conf - 1 ->
     let size := rnd (S (draws st)) mod (_blocksize conf - offset - 1) + 1 in
     0 <= offset /\ 1 <= size /\ offset + size < _blocksize conf).
Proof.
  intros HB Hr offset. destruct (rand_mod_ok rnd (_blocksize conf) st Hr HB) as (o & Ho & Hod & E).
  fold offset in Hod. subst o.
  assert (Hsize : offset <> _blocksize conf - 1 ->
    0 <= rnd (S (draws st)) mod (_blocksize conf - offset - 1) < _blocksize conf - offset - 1)
    by (intros; apply Z.mod_pos_bound; lia).
  split; [|intros H; specialize (Hsize H); lia].
  unfold random_range. rewrite E, bind_ok. destruct (Z.eqb_spec offset (_blocksize conf - 1)) as [->|Hne].
  - unfold rand_mod. by rewrite (proj2 (Z.eqb_eq _ 0)) by lia.
  - destruct (rand_mod_ok rnd (_blocksize conf - offset - 1) (mkCoord (S (draws st)) (acks st) (pushed st)) Hr)
      as (r & _ & -> & ->); [lia|]. done.
Qed.

Lemma random_range_cases_witness :
  random_range ex_conf (fun _ => 63) ex_coord = Fault Undef.
Proof.
  destruct (random_range_cases ex_conf (fun _ => 63) ex_coord) as [H _]; [reflexivity|lia|].
  rewrite H. reflexivity.
Defined.
