(* ===== verification/Disk.v ===== *)
(** * Block files of an update node (UPNode.cc)

    [readDataFromDisk] and [writeDataToDisk] call [pread] and [pwrite] until
    all the bytes have moved; the system calls may move fewer bytes than asked.
    [gene_radm_buff] and [compute_delta] make the new data and its delta. *)
From Stdlib Require Import Ascii.
From stdpp Require Import strings.
From S2P Require Import Prelude Command Text Galois GF256 Jerasure Gauss Encode.

(** The system calls on an open file with the given contents.  The answer to
    [pread(fd, buf, count, off)] is the number of bytes read, [None] for an
    error; likewise for [pwrite]. *)
Class DiskIO := {
  pread : list Z -> nat -> nat -> option nat;
  pwrite : list Z -> nat -> nat -> option nat
}.

(** POSIX: a read returns some of the bytes there are, none only at the end of
    the file; a write of at least one byte writes at least one. *)
Class DiskLaws `{DiskIO} : Prop := {
  pread_some file off count : (0 < count)%nat -> (off < length file)%nat ->
    exists n, pread file off count = Some n /\ (0 < n <= count)%nat /\ (off + n <= length file)%nat;
  pread_eof file off count : (length file <= off)%nat -> pread file off count = Some 0%nat;
  pwrite_some file off count : (0 < count)%nat ->
    exists n, pwrite file off count = Some n /\ (0 < n <= count)%nat
}.

(** The contents after writing [bytes] at [off]: a gap is filled with zeros. *)
Definition write_at (file : list Z) (off : nat) (bytes : list Z) : list Z :=
  take off (file ++ zeros (off - length file)) ++ bytes ++ drop (off + length bytes) file.

Section disk.
Context `{DiskIO}.

(** [while (readLen < size)]: a read that returns nothing leaves everything as
    it was, so the loop never ends. *)
Fixpoint read_loop (fuel : nat) (file content : list Z) (size base readLen : nat) : res (list Z) :=
  if (readLen <? size)%nat then
    match fuel with
    | O => Fault Blocked
    | S f =>
        match pread file (base + readLen) (size - readLen) with
        | None => Fault (Exit 1)
        | Some O => Fault Blocked
        | Some readl =>
            read_loop f file (blit content readLen (take readl (drop (base + readLen) file))) size base (readLen + readl)
        end
    end
  else Ok content.

(** [readDataFromDisk]; a missing file ends the program. *)
Definition readDataFromDisk (file : option (list Z)) (content : list Z) (size base : nat) : res (list Z) :=
  file ← res_of_option (Exit 1) file;
  read_loop size file content size base 0.

Fixpoint write_loop (fuel : nat) (file content : list Z) (size base writeLen : nat) : res (list Z) :=
  if (writeLen <? size)%nat then
    match fuel with
    | O => Fault Blocked
    | S f =>
        match pwrite file (base + writeLen) (size - writeLen) with
        | None => Fault (Exit 1)
        | Some O => Fault Blocked
        | Some writel =>
            write_loop f (write_at file (base + writeLen) (take writel (drop writeLen content)))
              content size base (writeLen + writel)
        end
    end
  else Ok file.

(** [writeDataToDisk]: [O_CREAT] makes an empty file when there is none. *)
Definition writeDataToDisk (file : option (list Z)) (content : list Z) (size base : nat) : res (list Z) :=
  write_loop size (default [] file) content size base 0.
End disk.

(** [gene_radm_buff]: the characters of [alphanum] in turn. *)
Definition alphanum : list Z :=
  (fun a => Z.of_N (N_of_ascii a)) <$> lit "0123456789ABCDEFGHIJKLMNOPQRSTUVWXYZabcdefghijklmnopqrstuvwxyz".
Definition gene_radm_buff (len : nat) : list Z := (fun i => alphanum !!! (i mod 62)%nat) <$> seq 0 len.

(** [compute_delta]: the xor of whole 64-bit words, which is the xor of their
    bytes; the bytes after the last whole word are left as they are. *)
Definition compute_delta (result srcA srcB : list Z) (length : nat) : list Z :=
  let n := (8 * (length / 8))%nat in
  zip_with Z.lxor (take n srcA) (take n srcB) ++ drop n result.

(** ** The loops move all the bytes *)

Section disk_facts.
Context `{DL : DiskLaws}.

Lemma read_loop_ok fuel file content size base readLen :
  (size - readLen <= fuel)%nat -> (readLen <= size)%nat -> (base + size <= length file)%nat ->
  length content = size -> take readLen content = take readLen (drop base file) ->
  read_loop fuel file content size base readLen = Ok (take size (drop base file)).
Proof.
  revert content readLen. induction fuel as [|f IH]; intros content readLen Hf Hr Hb Hl Ht; cbn [read_loop].
  - destruct (Nat.ltb_spec readLen size); [lia|]. replace readLen with size in Ht by lia.
    rewrite take_ge in Ht by lia. by rewrite Ht.
  - destruct (Nat.ltb_spec readLen size).
    + destruct (pread_some file (base + readLen) (size - readLen)) as (n & E & Hn & Hle); [lia|lia|].
      rewrite E. destruct n as [|n]; [lia|].
      set (part := take (S n) (drop (base + readLen) file)).
      assert (Hp : length part = S n) by (unfold part; rewrite length_take, length_drop; lia).
      apply IH; [lia|lia|done|by rewrite length_blit by lia|].
      unfold blit. rewrite app_assoc, take_app_le by (rewrite length_app, length_take; lia).
      rewrite (take_ge (_ ++ part)) by (rewrite length_app, length_take; lia). rewrite Ht. unfold part.
      rewrite <- drop_drop. rewrite <- (take_drop readLen (drop base file)) at 3.
      rewrite take_app_ge by (rewrite length_take, length_drop; lia).
      f_equal. f_equal. rewrite length_take, length_drop. lia.
    + replace readLen with size in Ht by lia. rewrite take_ge in Ht by lia. by rewrite Ht.
Qed.

(** Reading past the end of the file never ends. *)
Lemma read_loop_eof fuel file content size base readLen :
  (size - readLen <= fuel)%nat -> (readLen < size)%nat -> (length file < base + size)%nat ->
  (base + readLen <= length file)%nat \/ readLen = 0%nat ->
  read_loop fuel file content size base readLen = Fault Blocked.
Proof.
  revert content readLen. induction fuel as [|f IH]; intros content readLen Hf Hr Hb Hp; cbn [read_loop].
  - destruct (Nat.ltb_spec readLen size); [done|lia].
  - destruct (Nat.ltb_spec readLen size); [|lia].
    destruct (decide (base + readLen < length file)%nat).
    + destruct (pread_some file (base + readLen) (size - readLen)) as (n & E & Hn & Hle); [lia|lia|].
      rewrite E. destruct n as [|n]; [lia|]. apply IH; [lia|lia|done|left; lia].
    + rewrite pread_eof by lia. done.
Qed.

Lemma length_write_at file off bytes :
  length (write_at file off bytes) = Nat.max (length file) (off + length bytes).
Proof.
  unfold write_at. unfold zeros.
  rewrite !length_app, length_take, length_app, length_drop, length_replicate. lia.
Qed.

Lemma write_at_split file off b1 b2 :
  write_at (write_at file off b1) (off + length b1) b2 = write_at file off (b1 ++ b2).
Proof.
  unfold write_at at 1. rewrite length_write_at.
  replace (off + length b1 - Nat.max (length file) (off + length b1))%nat with 0%nat by lia.
  unfold zeros at 1. simpl. rewrite app_nil_r.
  unfold write_at. set (P := take off (file ++ zeros (off - length file))).
  assert (Hpre : length (P ++ b1) = (off + length b1)%nat).
  { unfold P, zeros. rewrite length_app, length_take, length_app, length_replicate. lia. }
  rewrite (app_assoc P b1). rewrite (take_app_length' (P ++ b1)) by done.
  rewrite drop_app_ge by lia. rewrite drop_drop, Hpre, length_app, <- !app_assoc. do 4 f_equal. lia.
Qed.

Lemma write_at_nil file off : (off <= length file)%nat -> write_at file off [] = file.
Proof.
  intros Hl. unfold write_at. replace (off - length file)%nat with 0%nat by lia. simpl.
  rewrite app_nil_r, Nat.add_0_r. apply take_drop.
Qed.

Lemma write_loop_ok fuel file content size base writeLen :
  (size - writeLen <= fuel)%nat -> (writeLen <= size)%nat -> length content = size ->
  (0 < writeLen)%nat -> 
  write_loop fuel (write_at file base (take writeLen content)) content size base writeLen =
    Ok (write_at file base content).
Proof.
  revert writeLen. induction fuel as [|f IH]; intros writeLen Hf Hw Hl Hpos; cbn [write_loop].
  - destruct (Nat.ltb_spec writeLen size); [lia|]. rewrite take_ge by lia. done.
  - destruct (Nat.ltb_spec writeLen size); [|rewrite take_ge by lia; done].
    destruct (pwrite_some (write_at file base (take writeLen content)) (base + writeLen) (size - writeLen))
      as (n & E & Hn); [lia|].
    rewrite E. destruct n as [|n]; [lia|].
    replace (base + writeLen)%nat with (base + length (take writeLen content))%nat
      by (rewrite length_take; lia).
    rewrite write_at_split. rewrite take_take_drop. apply IH; lia.
Qed.

(** C21: [readDataFromDisk] reads exactly the asked bytes of the file however
    many [pread] moves at a time, ends the program when the file is missing,
    and never returns when the range passes the end of the file: [pread] keeps
    answering 0 and the loop only stops on errors. *)
Theorem readDataFromDisk_total file content size base :
  length content = size ->
  readDataFromDisk file content size base =
    match file with
    | None => Fault (Exit 1)
    | Some f => if decide (size = 0 \/ base + size <= length f)%nat
                then Ok (if decide (size = 0)%nat then [] else take size (drop base f)) else Fault Blocked
    end.
Proof.
  intros Hl. unfold readDataFromDisk. destruct file as [f|]; [|done]. cbn [res_of_option]. rewrite bind_ok.
  destruct (decide (size = 0)%nat) as [E|Hne].
  - rewrite decide_True by tauto. subst size. rewrite E. by destruct content.
  - destruct (decide (size = 0 \/ base + size <= length f)%nat).
    + apply read_loop_ok; (done || lia).
    + apply read_loop_eof; lia.
Qed.

Lemma read_disk f content size base :
  length content = size -> (base + size <= length f)%nat ->
  readDataFromDisk (Some f) content size base = Ok (take size (drop base f)).
Proof. intros Hl Hb. apply read_loop_ok; (done || lia). Qed.

Lemma write_disk file content size base :
  length content = size -> (0 < size)%nat ->
  writeDataToDisk file content size base = Ok (write_at (default [] file) base content).
Proof.
  intros Hl Hs. unfold writeDataToDisk. set (f := default [] file).
  destruct size as [|s]; [lia|]. cbn [write_loop]. simpl Nat.ltb. cbn iota.
  destruct (pwrite_some f (base + 0) (S s - 0)) as (n & E & Hn); [lia|].
  rewrite E. destruct n as [|n]; [lia|]. rewrite Nat.add_0_r, drop_0. apply write_loop_ok; lia.
Qed.

Lemma write_at_lookup file base content p :
  write_at file base content !! p =
    if decide (base <= p < base + length content)%nat then content !! (p - base)%nat
    else if decide (length file <= p < base)%nat then Some 0 else file !! p.
Proof.
  unfold write_at. set (P := take base (file ++ zeros (base - length file))).
  assert (HP : length P = base) by (unfold P, zeros; rewrite length_take, length_app, length_replicate; lia).
  destruct (decide (p < base)%nat) as [Hlt|Hge].
  - rewrite lookup_app_l by lia. rewrite (decide_False (P := (base <= p < _)%nat)) by lia. unfold P.
    rewrite lookup_take_lt by done. case_decide.
    + rewrite lookup_app_r by lia. apply lookup_replicate_2. lia.
    + by rewrite lookup_app_l by lia.
  - rewrite lookup_app_r, HP by lia. case_decide.
    + by rewrite lookup_app_l by lia.
    + rewrite decide_False by lia. rewrite lookup_app_r, lookup_drop by lia. f_equal. lia.
Qed.

(** [writeDataToDisk] returns, however few bytes [pwrite] moves at a time,
    and the file then holds exactly the given bytes from [base] on, zeros in a
    gap before them, and its old bytes everywhere else. *)
Theorem writeDataToDisk_total file content size base :
  length content = size -> (0 < size)%nat ->
  exists f', writeDataToDisk file content size base = Ok f' /\
    length f' = Nat.max (length (default [] file)) (base + size) /\
    forall p, f' !! p =
      if decide (base <= p < base + size)%nat then content !! (p - base)%nat
      else if decide (length (default [] file) <= p < base)%nat then Some 0 else default [] file !! p.
Proof.
  intros Hl Hs. eexists. split; [by apply write_disk|]. rewrite length_write_at, Hl. split; [done|].
  intros p. by rewrite write_at_lookup, Hl.
Qed.
End disk_facts.

(** ** A disk that moves at most three bytes at a time *)

#[export] Instance short_io : DiskIO := {
  pread file off count := Some (Nat.min 3 (Nat.min count (length file - off)));
  pwrite file off count := Some (Nat.min 3 count)
}.

#[export] Instance short_io_laws : DiskLaws.
Proof.
  split; cbn [pread pwrite short_io].
  - intros file off count Hc Ho. eexists. split; [done|]. lia.
  - intros file off count Ho. f_equal. lia.
  - intros file off count Hc. eexists. split; [done|]. lia.
Qed.

Lemma readDataFromDisk_total_witness :
  readDataFromDisk (Some [1; 2; 3; 4; 5; 6; 7; 8; 9]) (zeros 7) 7 1 = Ok [2; 3; 4; 5; 6; 7; 8] /\
  readDataFromDisk (Some [1; 2; 3; 4; 5; 6; 7; 8; 9]) (zeros 7) 7 3 = Fault Blocked.
Proof.
  split.
  - rewrite (readDataFromDisk_total (Some [1; 2; 3; 4; 5; 6; 7; 8; 9]) (zeros 7) 7 1 eq_refl). reflexivity.
  - rewrite (readDataFromDisk_total (Some [1; 2; 3; 4; 5; 6; 7; 8; 9]) (zeros 7) 7 3 eq_refl). reflexivity.
Defined.

Lemma writeDataToDisk_total_witness :
  exists f', writeDataToDisk (Some [1; 2; 3]) [20; 21; 22; 23] 4 5 = Ok f' /\ length f' = 9%nat /\
    f' !! 4%nat = Some 0 /\ f' !! 6%nat = Some 21.
Proof.
  destruct (writeDataToDisk_total (Some [1; 2; 3]) [20; 21; 22; 23] 4 5 eq_refl ltac:(lia)) as (f' & H1 & H2 & H3).
  exists f'. split; [exact H1|]. split; [exact H2|]. split; [exact (H3 4%nat)|exact (H3 6%nat)].
Defined.

(** ** The new data and its delta *)

Lemma length_gene_radm_buff n : length (gene_radm_buff n) = n.
Proof. unfold gene_radm_buff. by rewrite length_fmap, length_seq. Qed.

Lemma gene_radm_buff_bytes n : Forall is_byte (gene_radm_buff n).
Proof.
  apply Forall_fmap, Forall_forall. intros i _. simpl. apply lookup_total_byte. decided.
Qed.

(** With whole words the delta is the xor of the two regions. *)
Lemma compute_delta_xor result a b n :
  (n mod 8 = 0)%nat -> length a = n -> length b = n -> length result = n ->
  compute_delta result a b n = zip_with Z.lxor a b.
Proof.
  intros Hn Ha Hb Hr. unfold compute_delta.
  assert (E : (8 * (n / 8))%nat = n) by (pose proof (Nat.div_mod n 8 ltac:(lia)); lia).
  rewrite E, !take_ge, drop_ge by lia. by rewrite app_nil_r.
Qed.

Lemma zip_xor_bytes a b : Forall is_byte a -> Forall is_byte b -> Forall is_byte (zip_with Z.lxor a b).
Proof.
  intros Ha. revert b. induction Ha as [|x a Hx Ha IH]; intros b Hb; [constructor|].
  destruct Hb; simpl; [constructor|]. constructor; auto with cord.
Qed.
