(* ===== verification/UPNode.v ===== *)
(** * The update node (UPNode.cc)

    [doProcess] pops the coordinator's commands and runs one handler per task
    type.  A handler parses the command, reads and writes block files, pops
    the data other nodes push to it and pushes data and acknowledgements.

    A block file is named ["blk_" + to_string(id)], one name per id, so the
    disk is a map from ids to contents.  Memory from [malloc] holds arbitrary
    bytes ([junk]) until it is written. *)
From S2P Require Import Prelude Command Text Config Galois GF256 Jerasure Gauss Encode UpdPlan UPCoordinator Disk.

(** The Redis lists a handler pushes to. *)
Inductive queue := QRaid | QDelta | QCrd | QAck.

#[export] Instance queue_eq_dec : EqDecision queue.
Proof. solve_decision. Defined.

(** A node: its block files, the replies its pops will get on each data list,
    and what it has pushed: address, list, value. *)
Record node := mkNode {
  files : gmap Z (list Z);
  raidData : list reply;
  deltaData : list reply;
  crdData : list reply;
  outbox : list (Z * (queue * list Z))
}.

Section node.
Context `{GF : GFComplete} `{DiskIO} (conf : Config) (_locIP : Z).

(** What fresh memory of [n] bytes holds, the 1024 bytes of [upd_cmd] in
    [doProcess], and the eight bytes of a pointer. *)
Context (junk : nat -> list Z) (cmd_junk pointer : list Z).

Abbreviation ecK := (_ecK conf).
Abbreviation ecM := (_ecM conf).

(** [_conf->_blocksize * 1024] *)
Definition block_bytes : nat := Z.to_nat (_blocksize conf * 1024).

(** [n * 1024] for a size or an offset in KB, in [int] arithmetic; a negative
    size is no size of a copy. *)
Definition kb (n : Z) : res nat :=
  if (n <? 0) || (INT_MAX <? n * 1024) then Fault Undef else Ok (Z.to_nat (n * 1024)).

(** [memcpy(dst + off, src + from, n)] *)
Definition copy (dst : list Z) (off : nat) (src : list Z) (from n : nat) : res (list Z) :=
  part ← res_of_option Undef (slice src from n);
  res_of_option Undef (memcpy dst off part).

Definition read_blk (blk_id : Z) (size base : nat) (nd : node) : res (list Z) :=
  readDataFromDisk (files nd !! blk_id) (junk size) size base.

Definition write_blk (blk_id : Z) (content : list Z) (size base : nat) (nd : node) : res node :=
  f ← writeDataToDisk (files nd !! blk_id) content size base;
  Ok (mkNode (<[blk_id := f]> (files nd)) (raidData nd) (deltaData nd) (crdData nd) (outbox nd)).

Definition push (ip : Z) (q : queue) (value : list Z) (nd : node) : node :=
  mkNode (files nd) (raidData nd) (deltaData nd) (crdData nd) (outbox nd ++ [(ip, (q, value))]).

(** [RPUSH <list> %b] to the node of block [blk_id]. *)
Definition push_to (blk_id : Z) (q : queue) (value : list Z) (nd : node) : res node :=
  ip ← at_int (_helpersIPs conf) blk_id;
  Ok (push ip q value nd).

(** [RPUSH ack 1] *)
Definition send_ack (nd : node) : node := push (_coordinatorIP conf) QAck [49] nd.

(** The receive loops: pop until [count] has reached [n], each value going
    through [step]; timeouts and errors are skipped. *)
Fixpoint recv_until {S} (n count : Z) (step : list Z -> S -> res S) (replies : list reply) (s : S) :
    res (S * list reply) :=
  match replies with
  | [] => Fault Blocked
  | RData d :: rest =>
      s ← step d s;
      if count + 1 =? n then Ok (s, rest) else recv_until n (count + 1) step rest s
  | _ :: rest => recv_until n count step rest s
  end.

(** [cur != cmd_len]: "parse cmd failed!" *)
Definition parsed (cur : nat) (cmd_len : Z) : res unit :=
  guard_or (Exit (-1)) (Z.of_nat cur =? cmd_len).

(** ** Raid: data node, collector, parity node *)

Definition send_data_to_collector_for_raid (upd_cmd : list Z) (cmd_len : Z) (nd : node) : res node :=
  '(blk_id, cur) ← get upd_cmd 8;
  '(collector_id, cur) ← get upd_cmd cur;
  parsed cur cmd_len;;
  old_data_buff ← read_blk blk_id block_bytes 0 nd;
  let new_data_buff := gene_radm_buff block_bytes in
  let delta_buff := compute_delta (junk block_bytes) old_data_buff new_data_buff block_bytes in
  nd ← push_to collector_id QRaid (le32 blk_id ++ delta_buff) nd;
  write_blk blk_id new_data_buff block_bytes 0 nd.

(** [blkid2coffs[blk_id].push_back(coff)] on a map walked in key order. *)
Fixpoint push_coff (m : list (Z * list Z)) (blk_id coff : Z) : list (Z * list Z) :=
  match m with
  | [] => [(blk_id, [coff])]
  | (k, v) :: m' =>
      if blk_id =? k then (k, v ++ [coff]) :: m'
      else if blk_id <? k then (blk_id, [coff]) :: m
      else (k, v) :: push_coff m' blk_id coff
  end.

(** The first index of the map whose key is [blk_id]. *)
Fixpoint map_loc (m : list (Z * list Z)) (blk_id : Z) : option nat :=
  match m with
  | [] => None
  | (k, _) :: m' => if k =? blk_id then Some 0%nat else S <$> map_loc m' blk_id
  end.

(** The first helper with the local address. *)
Fixpoint loc_blk (ips : list Z) : option Z :=
  match ips with
  | [] => None
  | ip :: ips' => if _locIP =? ip then Some 0 else Z.succ <$> loc_blk ips'
  end.

(** The coefficients of a task 2 command. *)
Definition parse_coffs (upd_cmd : list Z) (upd_num : Z) (cur : nat) : res (list (Z * list Z) * nat) :=
  for_each (seq 0 (Z.to_nat upd_num)) (fun _ '(m, cur) =>
    '(blk_id, cur) ← get upd_cmd cur;
    '(coffs, cur) ← gets ecM upd_cmd cur;
    Ok (foldl (fun m c => push_coff m blk_id c) m coffs, cur)) ([], cur).

(** The coefficients of ids that were never assigned are indeterminate: the
    guard before the encoding is false exactly when the command repeats an id. *)
Definition recv_and_compute_and_send_for_raid (upd_cmd : list Z) (cmd_len : Z) (nd : node) : res node :=
  '(upd_num, cur) ← get upd_cmd 8;
  '(blkid2coffs, cur) ← parse_coffs upd_cmd upd_num cur;
  '(parity_id_vec, cur) ← gets ecM upd_cmd cur;
  parsed cur cmd_len;;
  let buffer := replicate (Z.to_nat upd_num) (junk block_bytes) in
  loc_blk_id ← res_of_option Undef (loc_blk (_helpersIPs conf));
  loc ← res_of_option (Exit 1) (map_loc blkid2coffs loc_blk_id);
  b ← res_of_option Undef (buffer !! loc);
  local ← read_blk loc_blk_id block_bytes 0 nd;
  let buffer := <[loc := local]> buffer in
  let recv d buffer :=
    idb ← res_of_option Undef (slice d 0 4);
    blk_id ← res_of_option Undef (de32 idb);
    loc ← res_of_option (Exit 1) (map_loc blkid2coffs blk_id);
    old ← res_of_option Undef (buffer !! loc);
    b ← copy old 0 d 4 block_bytes;
    Ok (<[loc := b]> buffer) in
  '(buffer, rest) ← (if upd_num - 1 =? 0 then Ok (buffer, raidData nd)
                     else recv_until (upd_num - 1) 0 recv (raidData nd) buffer);
  let nd := mkNode (files nd) rest (deltaData nd) (crdData nd) (outbox nd) in
  encode_coff ← for_each (seq 0 ecM) (fun i acc =>
    for_each blkid2coffs (fun '(_, v) acc => c ← res_of_option Undef (v !! i); Ok (acc ++ [c])) acc) [];
  guard_or Undef (Z.of_nat (length blkid2coffs) =? upd_num);;
  let delta_buffer := jerasure_matrix_encode (Z.to_nat upd_num) ecM encode_coff buffer
                        (replicate ecM (junk block_bytes)) in
  for_each parity_id_vec (fun blk_id nd =>
    d ← at_int delta_buffer (Z.of_nat (_ecN conf) - blk_id - 1);
    push_to blk_id QRaid d nd) nd.

Definition recv_and_save_for_raid (upd_cmd : list Z) (cmd_len : Z) (nd : node) : res node :=
  '(blk_id, cur) ← get upd_cmd 8;
  parsed cur cmd_len;;
  '(buffer, rest) ← recv_until 1 0 (fun d buffer => copy buffer 0 d 0 block_bytes) (raidData nd) (junk block_bytes);
  nd ← write_blk blk_id buffer block_bytes 0 (mkNode (files nd) rest (deltaData nd) (crdData nd) (outbox nd));
  Ok (send_ack nd).

(** ** Delta: data node, parity node *)

(** The copy to [send_buff + 8] takes the bytes of the pointer array, not those
    of the region it points to. *)
Definition send_parity_delta_to_each_parity_for_delta (upd_cmd : list Z) (cmd_len : Z) (nd : node) : res node :=
  '(loc_blk_id, cur) ← get upd_cmd 8;
  '(offset_add, cur) ← get upd_cmd cur;
  '(upd_size, cur) ← get upd_cmd cur;
  '(coff_vec, cur) ← gets ecM upd_cmd cur;
  '(parity_id_vec, cur) ← gets ecM upd_cmd cur;
  parsed cur cmd_len;;
  off ← kb offset_add; size ← kb upd_size;
  old_data_buff ← read_blk loc_blk_id size off nd;
  let new_data_buff := gene_radm_buff size in
  let data_delta_buff := compute_delta (junk size) old_data_buff new_data_buff size in
  '(_, nd) ← for_each (seq 0 ecM) (fun i '(parity_delta_buff, nd) =>
    coff ← res_of_option Undef (coff_vec !! i);
    let parity_delta_buff := jerasure_matrix_encode 1 1 [coff] [data_delta_buff] parity_delta_buff in
    part ← res_of_option Undef (slice pointer 0 size);
    blk_id ← res_of_option Undef (parity_id_vec !! i);
    nd ← push_to blk_id QDelta (le32 offset_add ++ le32 upd_size ++ part) nd;
    Ok (parity_delta_buff, nd)) ([junk size], nd);
  write_blk loc_blk_id new_data_buff size off nd.

(** The offset is not scaled to bytes, and [_blocksize] bytes are written. *)
Definition recv_parity_delta_and_aggre_for_delta (upd_cmd : list Z) (cmd_len : Z) (nd : node) : res node :=
  '(upd_num, cur) ← get upd_cmd 8;
  '(loc_blk_id, cur) ← get upd_cmd cur;
  parsed cur cmd_len;;
  if upd_num <? 0 then Fault Undef else
  let n := Z.to_nat upd_num in
  local ← read_blk loc_blk_id block_bytes 0 nd;
  let delta_buff := replicate n (zeros block_bytes) ++ [local] in
  let recv d '(count, delta_buff) :=
    offb ← res_of_option Undef (slice d 0 4); offset_add ← res_of_option Undef (de32 offb);
    szb ← res_of_option Undef (slice d 4 4); upd_size ← res_of_option Undef (de32 szb);
    size ← kb upd_size;
    old ← res_of_option Undef (delta_buff !! count);
    guard_or Undef (0 <=? offset_add);;
    b ← copy old (Z.to_nat offset_add) d 8 size;
    Ok (S count, <[count := b]> delta_buff) in
  '((_, delta_buff), rest) ← recv_until upd_num 0 recv (deltaData nd) (0%nat, delta_buff);
  let nd := mkNode (files nd) (raidData nd) rest (crdData nd) (outbox nd) in
  let new_parity := jerasure_matrix_encode (n + 1) 1 (replicate (n + 1) 1) delta_buff [junk block_bytes] in
  np ← res_of_option Undef (new_parity !! 0%nat);
  let size := Z.to_nat (_blocksize conf) in
  nd ← write_blk loc_blk_id (take size np) size 0 nd;
  Ok (send_ack nd).

(** ** Crd: data node *)

Definition send_data_delta_to_parity_collector_for_crd (upd_cmd : list Z) (cmd_len : Z) (nd : node) : res node :=
  '(loc_blk_id, cur) ← get upd_cmd 8;
  '(offset_add, cur) ← get upd_cmd cur;
  '(upd_size, cur) ← get upd_cmd cur;
  '(parity_collector_id, cur) ← get upd_cmd cur;
  parsed cur cmd_len;;
  off ← kb offset_add; size ← kb upd_size;
  old_data_buff ← read_blk loc_blk_id size off nd;
  let new_data_buff := gene_radm_buff size in
  let delta_buff := compute_delta (junk size) old_data_buff new_data_buff size in
  nd ← push_to parity_collector_id QCrd (le32 loc_blk_id ++ delta_buff) nd;
  write_blk loc_blk_id new_data_buff size off nd.

(** ** Crd: parity collector *)

(** An updated block as task 7 describes it. *)
Record crd_blk := mkCrdBlk { cb_id : Z; cb_set : Z; cb_off : Z; cb_size : Z; cb_coff : list Z }.

#[export] Instance crd_blk_inhabited : Inhabited crd_blk := populate (mkCrdBlk 0 0 0 0 []).

Definition parse_crd_blk (upd_cmd : list Z) (cur : nat) : res (crd_blk * nat) :=
  '(blk_id, cur) ← get upd_cmd cur;
  '(sub_set_id, cur) ← get upd_cmd cur;
  '(offset_add, cur) ← get upd_cmd cur;
  '(upd_size, cur) ← get upd_cmd cur;
  '(coff_t, cur) ← gets ecM upd_cmd cur;
  Ok (mkCrdBlk blk_id sub_set_id offset_add upd_size coff_t, cur).

Record crd_cmd := mkCrdCmd { cc_loc : Z; cc_sets : Z; cc_blks : list crd_blk; cc_rest : list Z }.

Definition parse_crd (upd_cmd : list Z) (cmd_len : Z) : res crd_cmd :=
  '(loc_blk_id, cur) ← get upd_cmd 8;
  '(upd_num, cur) ← get upd_cmd cur;
  '(sub_set_num, cur) ← get upd_cmd cur;
  '(blks, cur) ← for_each (seq 0 (Z.to_nat upd_num)) (fun _ '(blks, cur) =>
    '(b, cur) ← parse_crd_blk upd_cmd cur; Ok (blks ++ [b], cur)) ([], cur);
  '(remain_parity_id_vec, cur) ← gets (ecM - 1) upd_cmd cur;
  parsed cur cmd_len;;
  Ok (mkCrdCmd loc_blk_id sub_set_num blks remain_parity_id_vec).

(** The maps [blk_id2sub_set_id], [blk_id2off_size] and [blk_id2coff] as one:
    the last description of an id is the one they keep. *)
Definition blk_map (blks : list crd_blk) : gmap Z crd_blk :=
  foldl (fun m b => <[cb_id b := b]> m) ∅ blks.

Definition find_blk (m : gmap Z crd_blk) (blk_id : Z) : res crd_blk := res_of_option Undef (m !! blk_id).

(** A data delta arrives: it is copied at its offset in the buffer of its block. *)
Definition recv_data_delta (m : gmap Z crd_blk) (d : list Z) (bufs : gmap Z (list Z)) : res (gmap Z (list Z)) :=
  idb ← res_of_option Undef (slice d 0 4);
  blk_id ← res_of_option Undef (de32 idb);
  b ← find_blk m blk_id;
  off ← kb (cb_off b); size ← kb (cb_size b);
  old ← res_of_option Undef (bufs !! blk_id);
  new ← copy old off d 4 size;
  Ok (<[blk_id := new]> bufs).

(** The merged range of subset [i], in KB. *)
Definition crd_hull (m : gmap Z crd_blk) (upd_blk_id : list Z) (i : Z) : res (Z * Z) :=
  '(start_add, end_add) ← for_each upd_blk_id (fun blk_id '(s, e) =>
    b ← find_blk m blk_id;
    Ok (if cb_set b =? i then (Z.min s (cb_off b), Z.max e (cb_off b + cb_size b - 1)) else (s, e)))
    (INT_MAX, - 2^31);
  Ok (start_add, end_add - start_add + 1).

(** [matrix[i*upd_num+j] = blk_id2coff[blk_id][i]] *)
Definition crd_matrix (m : gmap Z crd_blk) (upd_blk_id : list Z) : res (list Z) :=
  for_each (seq 0 ecM) (fun i acc =>
    for_each upd_blk_id (fun blk_id acc =>
      b ← find_blk m blk_id; c ← res_of_option Undef (cb_coff b !! i); Ok (acc ++ [c])) acc) [].

(** The collector's own parity block: [parity ^= parity_delta]. *)
Definition update_parity (blk_id : Z) (parity_delta : list Z) (nd : node) : res node :=
  local ← read_blk blk_id block_bytes 0 nd;
  p ← res_of_option Undef (jerasure_matrix_encode 2 1 [1; 1] [local; parity_delta] [junk block_bytes] !! 0%nat);
  write_blk blk_id p block_bytes 0 nd.

(** The slices of a parity delta sent to another parity node. *)
Definition forward_subsets (blk_id : Z) (parity_delta : list Z) (ranges : list (Z * Z)) (nd : node) : res node :=
  '(_, nd) ← for_each ranges (fun '(offset_add, upd_size) '(j, nd) =>
    off ← kb offset_add; size ← kb upd_size;
    part ← res_of_option Undef (slice parity_delta off size);
    guard_or Undef (size <=? block_bytes)%nat;;
    nd ← push_to blk_id QCrd (le32 j ++ part) nd;
    Ok (j + 1, nd)) (0, nd);
  Ok nd.

Definition recv_and_compute_in_parity_collector_for_crd (upd_cmd : list Z) (cmd_len : Z) (nd : node) : res node :=
  c ← parse_crd upd_cmd cmd_len;
  let m := blk_map (cc_blks c) in
  let upd_blk_id := cb_id <$> cc_blks c in
  let bufs := foldl (fun bufs id => <[id := zeros block_bytes]> bufs) (∅ : gmap Z (list Z)) upd_blk_id in
  '(bufs, rest) ← recv_until (Z.of_nat (length upd_blk_id)) 0 (recv_data_delta m) (crdData nd) bufs;
  let nd := mkNode (files nd) (raidData nd) (deltaData nd) rest (outbox nd) in
  data_delta_buff ← for_each upd_blk_id (fun id acc =>
    b ← res_of_option Undef (bufs !! id); Ok (acc ++ [b])) [];
  ranges ← for_each (seqZ 0 (cc_sets c)) (fun i acc => r ← crd_hull m upd_blk_id i; Ok (acc ++ [r])) [];
  matrix ← crd_matrix m upd_blk_id;
  let parity_delta_buff := jerasure_matrix_encode (length upd_blk_id) ecM matrix data_delta_buff
                             (replicate ecM (zeros block_bytes)) in
  nd ← for_each (seq 0 ecM) (fun i nd =>
    pd ← res_of_option Undef (parity_delta_buff !! i);
    if Z.of_nat (ecK + i) =? cc_loc c then update_parity (cc_loc c) pd nd
    else forward_subsets (Z.of_nat (ecK + i)) pd ranges nd) nd;
  Ok (send_ack nd).

(** ** Crd: the other parity nodes *)

Definition parse_forward (upd_cmd : list Z) (cmd_len : Z) : res (Z * Z * gmap Z (Z * Z)) :=
  '(loc_blk_id, cur) ← get upd_cmd 8;
  '(sub_set_num, cur) ← get upd_cmd cur;
  '(m, cur) ← for_each (seq 0 (Z.to_nat sub_set_num)) (fun _ '(m, cur) =>
    '(sub_set_id, cur) ← get upd_cmd cur;
    '(offset_add, cur) ← get upd_cmd cur;
    '(upd_size, cur) ← get upd_cmd cur;
    Ok (<[sub_set_id := (offset_add, upd_size)]> m, cur)) ((∅ : gmap Z (Z * Z)), cur);
  parsed cur cmd_len;;
  Ok (loc_blk_id, sub_set_num, m).

(** A slice of the parity delta arrives. *)
Definition recv_subset (m : gmap Z (Z * Z)) (d : list Z) (parity_buff : list (list Z)) : res (list (list Z)) :=
  idb ← res_of_option Undef (slice d 0 4);
  sub_set_id ← res_of_option Undef (de32 idb);
  '(offset_add, upd_size) ← res_of_option Undef (m !! sub_set_id);
  off ← kb offset_add; size ← kb upd_size;
  old ← at_int parity_buff sub_set_id;
  new ← copy old off d 4 size;
  Ok (<[Z.to_nat sub_set_id := new]> parity_buff).

Definition recv_parity_delta_and_aggre_for_crd (upd_cmd : list Z) (cmd_len : Z) (nd : node) : res node :=
  '(loc_blk_id, sub_set_num, m) ← parse_forward upd_cmd cmd_len;
  if sub_set_num <? 0 then Fault Undef else
  let n := Z.to_nat sub_set_num in
  '(parity_buff, rest) ← recv_until sub_set_num 0 (recv_subset m) (crdData nd)
                           (replicate (n + 1) (zeros block_bytes));
  let nd := mkNode (files nd) (raidData nd) (deltaData nd) rest (outbox nd) in
  local ← read_blk loc_blk_id block_bytes 0 nd;
  let parity_buff := <[n := local]> parity_buff in
  p ← res_of_option Undef (jerasure_matrix_encode (n + 1) 1 (replicate (n + 1) 1) parity_buff [junk block_bytes] !! 0%nat);
  nd ← write_blk loc_blk_id p block_bytes 0 nd;
  Ok (send_ack nd).

(** ** [doProcess] *)

Definition dispatch (task_type : Z) (upd_cmd : list Z) (cmd_len : Z) (nd : node) : res node :=
  if task_type =? 1 then send_data_to_collector_for_raid upd_cmd cmd_len nd
  else if task_type =? 2 then recv_and_compute_and_send_for_raid upd_cmd cmd_len nd
  else if task_type =? 3 then recv_and_save_for_raid upd_cmd cmd_len nd
  else if task_type =? 4 then send_parity_delta_to_each_parity_for_delta upd_cmd cmd_len nd
  else if task_type =? 5 then recv_parity_delta_and_aggre_for_delta upd_cmd cmd_len nd
  else if task_type =? 6 then send_data_delta_to_parity_collector_for_crd upd_cmd cmd_len nd
  else if task_type =? 7 then recv_and_compute_in_parity_collector_for_crd upd_cmd cmd_len nd
  else if task_type =? 8 then recv_parity_delta_and_aggre_for_crd upd_cmd cmd_len nd
  else Fault (Exit (-1)).

(** One command popped from [upd_cmds]: its first two words are the task type
    and the length, and [cmd_len] bytes are copied to [upd_cmd]. *)
Definition run_command (str : list Z) (nd : node) : res node :=
  '(task_type, _) ← get str 0;
  '(cmd_len, _) ← get str 4;
  guard_or Undef (0 <=? cmd_len);;
  upd_cmd ← copy cmd_junk 0 str 0 (Z.to_nat cmd_len);
  dispatch task_type upd_cmd cmd_len nd.

Definition doProcess (cmds : list reply) (nd : node) : res node :=
  for_each cmds (fun r nd => match r with RData str => run_command str nd | _ => Ok nd end) nd.
End node.

(** ** Receiving *)

Definition datas (rs : list reply) : list (list Z) := omap (fun r => match r with RData d => Some d | _ => None end) rs.

Lemma length_datas rs : length (datas rs) = data_count rs.
Proof.
  unfold data_count. induction rs as [|r rs IH]; [done|]. rewrite filter_cons.
  destruct r; simpl; auto.
Qed.

(** With [n] values among the replies, the last reply being one, the loop runs
    its step on each of them in order. *)
Lemma recv_until_ok {S} (step : list Z -> S -> res S) (n count : Z) rs rest s :
  n = count + Z.of_nat (data_count rs) -> (exists init d, rs = init ++ [RData d]) ->
  recv_until n count step (rs ++ rest) s = (s ← for_each (datas rs) step s; Ok (s, rest)).
Proof.
  intros Hn (init & d & ->). revert count s Hn. induction init as [|r init IH]; intros count s Hn.
  - unfold data_count in Hn. simpl in *. destruct (step d s) as [s'|]; [|done]. rewrite !bind_ok.
    by rewrite (proj2 (Z.eqb_eq _ _)) by lia.
  - unfold data_count in *. cbn [app recv_until]. rewrite <- app_comm_cons, filter_cons in Hn.
    destruct r; simpl in Hn; try (by apply IH). cbn [datas omap list_omap]. cbn [for_each].
    destruct (step str s) as [s'|]; [|done]. rewrite !bind_ok.
    assert (0 < length (filter (fun r => is_data r = true) (init ++ [RData d])))%nat.
    { rewrite filter_app, length_app. simpl. lia. }
    destruct (Z.eqb_spec (count + 1) n); [lia|]. apply IH. lia.
Qed.

(** The loop never ends with fewer values. *)
Lemma recv_until_used {S} (step : list Z -> S -> res S) (n count : Z) rs s s' rest :
  count < n -> recv_until n count step rs s = Ok (s', rest) -> n - count <= Z.of_nat (length (datas rs)).
Proof.
  revert count s. induction rs as [|r rs IH]; intros count s Hlt Hrun; [done|].
  cbn [recv_until] in Hrun. destruct r as [| | |d]; [by apply (IH count s)..|].
  cbn [datas omap list_omap length]. change (omap _ rs) with (datas rs). destruct (step d s) as [s1|e]; [|done]. rewrite bind_ok in Hrun.
  destruct (Z.eqb_spec (count + 1) n); [lia|]. specialize (IH (count + 1) s1 ltac:(lia) Hrun). lia.
Qed.

(** ** Copies *)

Lemma copy_ok dst off src from n :
  (from + n <= length src)%nat -> (off + n <= length dst)%nat ->
  copy dst off src from n = Ok (blit dst off (take n (drop from src))).
Proof.
  intros Hs Hd. unfold copy. rewrite (proj2 (slice_Some src (take n (drop from src)) from n)) by done.
  cbn [res_of_option]. rewrite bind_ok. rewrite memcpy_blit; [done|].
  rewrite length_take, length_drop. lia.
Qed.

Lemma kb_ok n : 0 <= n -> n * 1024 <= INT_MAX -> kb n = Ok (Z.to_nat (n * 1024)).
Proof. intros. unfold kb. by rewrite (proj2 (Z.ltb_ge _ _)), (proj2 (Z.ltb_ge _ _)) by lia. Qed.

(** Reading the id a message starts with. *)
Lemma message_id id body :
  is_s32 id -> slice (le32 id ++ body) 0 4 = Some (le32 id) /\ de32 (le32 id) = Some id.
Proof.
  intros Hid. split; [|by apply de32_le32]. apply slice_Some. split; [rewrite length_app, length_le32; lia|].
  rewrite drop_0, take_app_le by (rewrite length_le32; lia). by rewrite take_ge by (rewrite length_le32; lia).
Qed.
