(* ===== verification/UPCrd.v ===== *)
(** * The crd policy on the nodes: from the commands to consistent parity

    The handlers of the three roles of a crd update, run on the commands of the
    coordinator and on the messages of the other roles, in any order and among
    timeouts: what they store, what they send, and that the parity blocks of
    the stripe stay the ones of its data. *)
From S2P Require Import Prelude Command Text Config Galois GF256 Jerasure Gauss Encode UpdPlan UPCoordinator Disk UPNode.

Section crd.
Context `{GF : GFComplete} `{GL : !GF8Laws} `{DIO : DiskIO} `{DL : !DiskLaws}.
Context (conf : Config) (_locIP : Z) (junk : nat -> list Z) (cmd_junk pointer : list Z).
Context (Hjunk : forall n, length (junk n) = n).

Abbreviation ecK := (_ecK conf).
Abbreviation ecM := (_ecM conf).
Abbreviation bb := (block_bytes conf).
Abbreviation run := (run_command conf _locIP junk cmd_junk pointer).

(** ** Commands *)

Lemma run_command_dispatch task vs nd :
  length cmd_junk = COMMAND_MAX_LENGTH -> is_s32 task -> (length vs <= max_operands)%nat ->
  exists tl, run (command task vs) nd =
    dispatch conf _locIP junk pointer task (command task vs ++ tl) (Z.of_nat (8 + 4 * length vs)) nd.
Proof.
  intros Hcmd Ht Hl. unfold run_command, max_operands in *.
  assert (Hat : at_cur (command task vs) 0 (task :: Z.of_nat (8 + 4 * length vs) :: vs)).
  { unfold command. rewrite <- (app_nil_r (ints _)). apply at_cur_ints. }
  destruct (get_at_cur _ _ _ _ Hat Ht) as [-> Hat1]. rewrite bind_ok.
  destruct (get_at_cur _ _ _ _ Hat1) as [Hg _]; [unfold is_s32; lia|].
  change (0 + 4)%nat with 4%nat in Hg. rewrite Hg, bind_ok.
  rewrite (proj2 (Z.leb_le _ _)) by lia. cbn [guard_or]. rewrite bind_ok, Nat2Z.id.
  rewrite copy_ok by (rewrite ?length_command, ?Hcmd; unfold COMMAND_MAX_LENGTH; lia). rewrite bind_ok.
  exists (drop (8 + 4 * length vs) cmd_junk). do 2 f_equal.
  rewrite drop_0, take_ge by (rewrite length_command; lia).
  unfold blit. by rewrite length_command.
Qed.

Lemma parsed_ok n z : Z.of_nat n = z -> parsed n z = Ok tt.
Proof. intros <-. unfold parsed. by rewrite Z.eqb_refl. Qed.

(** ** Files *)

Lemma read_blk_ok nd id f size base :
  files nd !! id = Some f -> (base + size <= length f)%nat ->
  read_blk junk id size base nd = Ok (take size (drop base f)).
Proof. intros Hf Hb. unfold read_blk. rewrite Hf. by apply read_disk. Qed.

Lemma write_blk_ok nd id f content size base :
  files nd !! id = Some f -> length content = size -> (0 < size)%nat ->
  write_blk id content size base nd =
    Ok (mkNode (<[id := write_at f base content]> (files nd)) (raidData nd) (deltaData nd) (crdData nd) (outbox nd)).
Proof. intros Hf Hl Hs. unfold write_blk. rewrite Hf, write_disk by done. done. Qed.

Lemma push_to_ok i q v nd :
  (i < length (_helpersIPs conf))%nat -> push_to conf (Z.of_nat i) q v nd = Ok (push (helper conf i) q v nd).
Proof. intros Hi. unfold push_to. by rewrite (at_int_nat _ i _ (list_lookup_lookup_total_lt _ _ Hi)), bind_ok. Qed.

(** The delta of a range of a block: its old bytes xor the new ones. *)
Definition delta_of (f : list Z) (off size : nat) : list Z :=
  zip_with Z.lxor (take size (drop off f)) (gene_radm_buff size).

Lemma length_delta_of f off size : (off + size <= length f)%nat -> length (delta_of f off size) = size.
Proof.
  intros. unfold delta_of. rewrite length_zip_with, length_take, length_drop, length_gene_radm_buff. lia.
Qed.

(** ** The data node (task 6) *)

Lemma data_node_ok nd id off size pc f :
  length cmd_junk = COMMAND_MAX_LENGTH -> is_s32 id -> 0 <= off -> 0 < size -> (off + size) * 1024 <= INT_MAX -> is_s32 pc ->
  (0 <= pc < Z.of_nat (length (_helpersIPs conf))) ->
  files nd !! id = Some f -> (off + size) * 1024 <= Z.of_nat (length f) ->
  let o := Z.to_nat (off * 1024) in let s := Z.to_nat (size * 1024) in
  run (command 6 [id; off; size; pc]) nd =
    Ok (mkNode (<[id := write_at f o (gene_radm_buff s)]> (files nd)) (raidData nd) (deltaData nd) (crdData nd)
          (outbox nd ++ [(helper conf (Z.to_nat pc), (QCrd, le32 id ++ delta_of f o s))])).
Proof.
  intros Hcmd Hid Hoff Hsize Hmax Hpc Hpcr Hf Hfit o s. unfold INT_MAX in *.
  destruct (run_command_dispatch 6 [id; off; size; pc] nd) as [tl ->];
    [done|unfold is_s32; lia|unfold max_operands; simpl; lia|].
  unfold dispatch. cbn [Z.eqb Pos.eqb]. unfold send_data_delta_to_parity_collector_for_crd.
  pose proof (at_cur_command 6 [id; off; size; pc] tl) as Hat.
  destruct (get_at_cur _ _ _ _ Hat Hid) as [-> Hat1]. rewrite bind_ok.
  destruct (get_at_cur _ _ _ _ Hat1) as [-> Hat2]; [unfold is_s32; lia|]. rewrite bind_ok.
  destruct (get_at_cur _ _ _ _ Hat2) as [-> Hat3]; [unfold is_s32; lia|]. rewrite bind_ok.
  destruct (get_at_cur _ _ _ _ Hat3 Hpc) as [-> Hat4]. rewrite bind_ok.
  rewrite parsed_ok by (simpl; lia). rewrite bind_ok, !kb_ok by (unfold INT_MAX; lia). rewrite !bind_ok. fold o s.
  rewrite (read_blk_ok nd id f) by (done || (unfold o, s; lia)). rewrite bind_ok.
  rewrite compute_delta_xor; try done.
  2:{ unfold s. replace (size * 1024) with ((size * 128) * 8) by lia. rewrite Z2Nat.inj_mul by lia.
      apply Nat.Div0.mod_mul. }
  2:{ rewrite length_take, length_drop. unfold o, s. lia. }
  2:{ apply length_gene_radm_buff. }
  fold (delta_of f o s). unfold push_to. rewrite <- (Z2Nat.id pc) at 1 by lia.
  erewrite at_int_nat by (apply list_lookup_lookup_total_lt; lia). rewrite !bind_ok. unfold push.
  erewrite write_blk_ok; [reflexivity|exact Hf|apply length_gene_radm_buff|unfold s; lia].
Qed.

(** ** The parity collector (task 7): parsing *)

Definition crd_words (loc : Z) (sets : Z) (blks : list crd_blk) (rest : list Z) : list Z :=
  [loc; Z.of_nat (length blks); sets] ++
  flat_map (fun b => [cb_id b; cb_set b; cb_off b; cb_size b] ++ cb_coff b) blks ++ rest.

Definition crd_blk_s32 (b : crd_blk) : Prop :=
  is_s32 (cb_id b) /\ is_s32 (cb_set b) /\ is_s32 (cb_off b) /\ is_s32 (cb_size b) /\
  length (cb_coff b) = ecM /\ Forall is_s32 (cb_coff b).

Lemma parse_crd_blk_ok cmd cur b ws :
  at_cur cmd cur (([cb_id b; cb_set b; cb_off b; cb_size b] ++ cb_coff b) ++ ws) -> crd_blk_s32 b ->
  exists cur', parse_crd_blk conf cmd cur = Ok (b, cur') /\ at_cur cmd cur' ws /\
    cur' = (cur + 4 * (4 + ecM))%nat.
Proof.
  intros Hat (H1 & H2 & H3 & H4 & H5 & H6). cbn [app] in Hat. unfold parse_crd_blk.
  destruct (get_at_cur _ _ _ _ Hat H1) as [-> Hat1]. rewrite bind_ok.
  destruct (get_at_cur _ _ _ _ Hat1 H2) as [-> Hat2]. rewrite bind_ok.
  destruct (get_at_cur _ _ _ _ Hat2 H3) as [-> Hat3]. rewrite bind_ok.
  destruct (get_at_cur _ _ _ _ Hat3 H4) as [-> Hat4]. rewrite bind_ok.
  destruct (gets_at_cur _ _ _ _ Hat4 H6) as [Hg Hat5]. rewrite H5 in Hg, Hat5. rewrite Hg, bind_ok.
  eexists. split; [by destruct b|]. split; [exact Hat5|lia].
Qed.

Lemma parse_crd_blks_ok cmd cur blks ws acc start :
  at_cur cmd cur (flat_map (fun b => [cb_id b; cb_set b; cb_off b; cb_size b] ++ cb_coff b) blks ++ ws) ->
  Forall crd_blk_s32 blks ->
  exists cur', for_each (seq start (length blks)) (fun _ '(bs, cur) =>
      '(b, cur) ← parse_crd_blk conf cmd cur; Ok (bs ++ [b], cur)) (acc, cur) = Ok (acc ++ blks, cur') /\
    at_cur cmd cur' ws /\ cur' = (cur + 4 * (length blks * (4 + ecM)))%nat.
Proof.
  intros Hat Hb. revert acc cur start Hat. induction Hb as [|b blks Hb _ IH]; intros acc cur start Hat.
  - exists cur. simpl in *. rewrite app_nil_r. split_and!; [done|done|lia].
  - cbn [flat_map] in Hat. rewrite <- app_assoc in Hat.
    destruct (parse_crd_blk_ok _ _ _ _ Hat Hb) as (cur1 & E & Hat1 & ->).
    cbn [length seq for_each]. rewrite E, !bind_ok.
    destruct (IH (acc ++ [b]) _ (S start) Hat1) as (cur2 & -> & Hat2 & ->). eexists.
    rewrite <- app_assoc. split_and!; [done|done|lia].
Qed.

Lemma length_flat_map_coff blks :
  Forall crd_blk_s32 blks ->
  length (flat_map (fun b => [cb_id b; cb_set b; cb_off b; cb_size b] ++ cb_coff b) blks) =
    (length blks * (4 + ecM))%nat.
Proof.
  induction 1 as [|b blks (_ & _ & _ & _ & Hl & _) _ IH]; [done|].
  cbn [flat_map]. rewrite !length_app, IH, Hl. cbn [length]. lia.
Qed.

Lemma parse_crd_ok loc sets blks rest tl :
  is_s32 loc -> is_s32 sets -> is_s32 (Z.of_nat (length blks)) -> Forall crd_blk_s32 blks ->
  Forall is_s32 rest -> length rest = (ecM - 1)%nat ->
  parse_crd conf (command 7 (crd_words loc sets blks rest) ++ tl)
    (Z.of_nat (8 + 4 * length (crd_words loc sets blks rest))) = Ok (mkCrdCmd loc sets blks rest).
Proof.
  intros Hloc Hsets Hn Hb Hr Hlr. pose proof (at_cur_command 7 (crd_words loc sets blks rest) tl) as Hat.
  set (cmd := command 7 _ ++ tl) in *. unfold crd_words in Hat at 1. cbn [app] in Hat. unfold parse_crd.
  destruct (get_at_cur _ _ _ _ Hat Hloc) as [-> Hat1]. rewrite bind_ok.
  destruct (get_at_cur _ _ _ _ Hat1 Hn) as [-> Hat2]. rewrite bind_ok.
  destruct (get_at_cur _ _ _ _ Hat2 Hsets) as [-> Hat3]. rewrite bind_ok, Nat2Z.id.
  destruct (parse_crd_blks_ok _ _ _ _ [] 0 Hat3 Hb) as (cur & -> & Hat4 & ->). rewrite bind_ok.
  rewrite <- (app_nil_r rest) in Hat4.
  destruct (gets_at_cur _ _ _ _ Hat4 Hr) as [Hg _]. rewrite Hlr in Hg. rewrite Hg, bind_ok.
  rewrite parsed_ok; [done|]. f_equal. unfold crd_words. rewrite !length_app, Hlr.
  rewrite (length_flat_map_coff blks Hb). cbn [length]. lia.
Qed.

(** ** The parity collector: gathering the deltas *)

(** Byte [x] of a region that holds [part] from [off] on and zeros elsewhere. *)
Definition placed (off : nat) (part : list Z) (x : nat) : Z :=
  if decide (off <= x < off + length part)%nat then part !!! (x - off)%nat else 0.

Lemma blit_zeros off part n :
  (off + length part <= n)%nat ->
  length (blit (zeros n) off part) = n /\
  forall x, (x < n)%nat -> blit (zeros n) off part !!! x = placed off part x.
Proof.
  intros Hl. assert (Hz : length (zeros n) = n) by apply length_replicate. split.
  - by rewrite length_blit by lia.
  - intros x Hx. unfold placed. rewrite list_lookup_total_alt.
    assert (Hfit : (off + length part <= length (zeros n))%nat) by lia.
    rewrite (memcpy_lookup (zeros n) part _ off x (memcpy_blit (zeros n) part off Hfit)). case_decide.
    + by rewrite list_lookup_total_alt.
    + unfold zeros. by rewrite lookup_replicate_2.
Qed.

Lemma blit_zeros_region off part n :
  (off + length part <= n)%nat -> Forall is_byte part -> region n (blit (zeros n) off part).
Proof.
  intros Hl Hp. split; [by apply blit_zeros|]. unfold blit, zeros. rewrite !Forall_app.
  split_and!; [apply Forall_take|done|apply Forall_drop]; apply Forall_replicate; auto with cord.
Qed.

(** ** Aggregation: an encoding with ones only *)

Definition aggregate (bufs : list (list Z)) : list Z :=
  (fun p => xsum (length bufs) (fun j => bufs !!! j !!! p)) <$> seq 0 bb.

Lemma length_aggregate bufs : length (aggregate bufs) = bb.
Proof. unfold aggregate. by rewrite length_fmap, length_seq. Qed.

Lemma aggregate_ok bufs :
  bufs <> [] -> (forall j, (j < length bufs)%nat -> region bb (bufs !!! j)) ->
  jerasure_matrix_encode (length bufs) 1 (replicate (length bufs) 1) bufs [junk bb] !! 0%nat = Some (aggregate bufs).
Proof.
  intros Hne Hr. assert (0 < length bufs)%nat by (destruct bufs; [done|simpl; lia]).
  set (n := length bufs) in *. set (r := replicate n 1).
  destruct (matrix_encode_row n 1 r bufs [junk bb] 0) as [Hrow Hlen]; [simpl; lia|].
  rewrite (list_lookup_lookup_total_lt _ 0) by (rewrite Hlen; simpl; lia). rewrite Hrow. f_equal.
  assert (Hone : forall j, (j < n)%nat -> drop (0 * n) r !!! j = 1).
  { intros j Hj. rewrite drop_0. by apply lookup_total_replicate_2. }
  rewrite (dotprod_spec n bb); [|done|apply Hjunk|].
  2:{ rewrite drop_0. apply Forall_replicate. auto with cord. }
  destruct (forallb _ _) eqn:Hall.
  - rewrite forallb_forall in Hall. assert (Hz0 : In 0%nat (seq 0 n)) by (apply in_seq; lia).
    specialize (Hall 0%nat Hz0). rewrite Hone in Hall by lia. done.
  - apply list_eq_total; [by rewrite length_lincomb, length_aggregate|]. rewrite length_lincomb. intros p Hp.
    rewrite lincomb_lookup by done. unfold aggregate. rewrite fmap_seq_lookup_total by done.
    apply xsum_ext. intros j Hj. rewrite Hone by done. apply gmul_1_l.
    destruct (Hr j Hj) as [_ Hb]. by apply lookup_total_byte.
Qed.

Lemma update_parity_ok nd loc f pd :
  files nd !! loc = Some f -> region bb f -> region bb pd -> (0 < bb)%nat ->
  update_parity conf junk loc pd nd =
    Ok (mkNode (<[loc := zip_with Z.lxor f pd]> (files nd)) (raidData nd) (deltaData nd) (crdData nd) (outbox nd)).
Proof.
  intros Hf Hrf Hrp Hb. pose proof Hrf as [Hlf _]. pose proof Hrp as [Hlp _]. unfold update_parity.
  rewrite (read_blk_ok nd loc f) by (done || lia). rewrite bind_ok, drop_0, take_ge by lia.
  assert (Hreg : forall j, (j < length [f; pd])%nat -> region bb ([f; pd] !!! j)).
  { intros [|[|j]] Hj; simpl in Hj; [done|done|lia]. }
  change (jerasure_matrix_encode 2 1 [1; 1]) with (jerasure_matrix_encode (length [f; pd]) 1 (replicate (length [f; pd]) 1)).
  rewrite aggregate_ok by done. cbn [res_of_option]. rewrite bind_ok.
  rewrite (write_blk_ok nd loc f) by (done || apply length_aggregate).
  do 3 f_equal. unfold write_at. rewrite take_0, length_aggregate, drop_ge, app_nil_r by lia. cbn [app].
  apply list_eq_total; [rewrite length_aggregate, length_zip_with; lia|]. rewrite length_aggregate. intros p Hp.
  unfold aggregate. rewrite fmap_seq_lookup_total by done. rewrite zip_with_lookup_total by lia.
  cbn. by rewrite Z.lxor_0_l.
Qed.

Section collector.
Context (blks : list crd_blk) (D : crd_blk -> list Z).
Context (Hnd : NoDup (cb_id <$> blks)).
Context (Hblock : _blocksize conf * 1024 <= INT_MAX).
Context (Hrange : forall b, b ∈ blks -> is_s32 (cb_id b) /\ 0 <= cb_off b /\ 0 <= cb_size b /\
  cb_off b + cb_size b <= _blocksize conf /\
  length (D b) = Z.to_nat (cb_size b * 1024) /\ Forall is_byte (D b)).

(** The buffer of a block once its delta arrived. *)
Definition buf (b : crd_blk) : list Z := blit (zeros bb) (Z.to_nat (cb_off b * 1024)) (D b).

Lemma buf_fits b : b ∈ blks -> (Z.to_nat (cb_off b * 1024) + length (D b) <= bb)%nat.
Proof. intros Hb. destruct (Hrange b Hb) as (_ & H1 & H2 & H3 & -> & _). unfold block_bytes. lia. Qed.

Lemma blk_map_lookup b : b ∈ blks -> blk_map blks !! cb_id b = Some b.
Proof.
  clear Hrange. unfold blk_map. induction blks as [|c l IH] using rev_ind; intros Hb; [by apply elem_of_nil in Hb|].
  rewrite foldl_app. cbn [foldl]. rewrite fmap_app in Hnd. apply NoDup_app in Hnd as (H1 & H2 & _).
  apply elem_of_app in Hb as [Hb|Hb%list_elem_of_singleton]; [|subst; by rewrite lookup_insert_eq].
  rewrite lookup_insert_ne; [by apply IH|]. intros Heq. apply (H2 (cb_id b)).
  - by apply (list_elem_of_fmap_2 cb_id).
  - rewrite <- Heq. left.
Qed.

Lemma find_blk_ok b : b ∈ blks -> find_blk (blk_map blks) (cb_id b) = Ok b.
Proof. intros Hb. unfold find_blk. by rewrite (blk_map_lookup b Hb). Qed.

Lemma init_bufs_lookup ids id :
  id ∈ ids -> foldl (fun bufs id => <[id := zeros bb]> bufs) (∅ : gmap Z (list Z)) ids !! id = Some (zeros bb).
Proof.
  induction ids as [|i ids IH] using rev_ind; intros Hid; [by apply elem_of_nil in Hid|].
  rewrite foldl_app. cbn [foldl]. destruct (decide (i = id)) as [->|Hne]; [by rewrite lookup_insert_eq|].
  rewrite lookup_insert_ne by done. apply IH.
  apply elem_of_app in Hid as [?|Hid%list_elem_of_singleton]; [done|congruence].
Qed.

(** One delta: the message of the data node of [b]. *)
Definition delta_msg (b : crd_blk) : list Z := le32 (cb_id b) ++ D b.

Lemma recv_data_delta_ok b (bufs : gmap Z (list Z)) :
  b ∈ blks -> bufs !! cb_id b = Some (zeros bb) ->
  recv_data_delta (blk_map blks) (delta_msg b) bufs = Ok (<[cb_id b := buf b]> bufs).
Proof.
  intros Hb Hbuf. destruct (Hrange b Hb) as (Hid & H1 & H2 & H3 & H4 & _). pose proof (buf_fits b Hb).
  unfold recv_data_delta, delta_msg.
  destruct (message_id (cb_id b) (D b) Hid) as [-> E]. cbn [res_of_option]. rewrite bind_ok, E.
  cbn [res_of_option]. rewrite bind_ok. rewrite (find_blk_ok b Hb).
  rewrite bind_ok, !kb_ok by lia. rewrite !bind_ok, Hbuf. cbn [res_of_option]. rewrite bind_ok.
  rewrite copy_ok; [|rewrite length_app, length_le32; lia|unfold zeros; rewrite length_replicate; lia].
  rewrite bind_ok. rewrite drop_app_length' by done. rewrite take_ge by lia. done.
Qed.

(** All the deltas, in any order. *)
Lemma recv_all_deltas ord (bufs : gmap Z (list Z)) :
  NoDup (cb_id <$> ord) -> (forall b, b ∈ ord -> b ∈ blks) ->
  (forall b, b ∈ ord -> bufs !! cb_id b = Some (zeros bb)) ->
  exists bufs', for_each (delta_msg <$> ord) (recv_data_delta (blk_map blks)) bufs = Ok bufs' /\
    (forall b, b ∈ ord -> bufs' !! cb_id b = Some (buf b)) /\
    (forall id, id ∉ cb_id <$> ord -> bufs' !! id = bufs !! id).
Proof.
  revert bufs. induction ord as [|b ord IH]; intros bufs Hn Hin Hz.
  - exists bufs. split_and!; [done| |done]. intros b Hb. by apply elem_of_nil in Hb.
  - rewrite fmap_cons in Hn. apply NoDup_cons in Hn as [Hnb Hn]. rewrite fmap_cons. cbn [for_each].
    rewrite recv_data_delta_ok; [|by apply Hin; left|by apply Hz; left]. rewrite bind_ok.
    destruct (IH (<[cb_id b := buf b]> bufs) Hn) as (bufs' & -> & H1 & H2).
    + intros c Hc. apply Hin. by right.
    + intros c Hc. rewrite lookup_insert_ne; [apply Hz; by right|].
      intros Heq. apply Hnb. rewrite Heq. by apply (list_elem_of_fmap_2 cb_id).
    + exists bufs'. split; [done|]. split.
      * intros c [->|Hc]%elem_of_cons; [|by apply H1]. rewrite H2 by done. by rewrite lookup_insert_eq.
      * intros id Hid. rewrite fmap_cons, not_elem_of_cons in Hid. destruct Hid as [Hne Hid].
        rewrite H2 by done. by rewrite lookup_insert_ne.
Qed.

Lemma collect_bufs (bufs : gmap Z (list Z)) l acc :
  (forall b, b ∈ l -> bufs !! cb_id b = Some (buf b)) ->
  for_each (cb_id <$> l) (fun id acc => b ← res_of_option Undef (bufs !! id); Ok (acc ++ [b])) acc =
    Ok (acc ++ (buf <$> l)).
Proof.
  revert acc. induction l as [|b l IH]; intros acc H; [by rewrite app_nil_r|]. rewrite !fmap_cons. cbn [for_each].
  rewrite (H b) by left. cbn [res_of_option]. rewrite !bind_ok. rewrite IH; [|intros; apply H; by right].
  by rewrite <- app_assoc.
Qed.

(** The merged ranges and the matrix. *)
Definition crd_range (i : Z) : Z * Z :=
  let '(s, e) := foldl (fun '(s, e) b =>
    if cb_set b =? i then (Z.min s (cb_off b), Z.max e (cb_off b + cb_size b - 1)) else (s, e))
    (INT_MAX, - 2^31) blks in
  (s, e - s + 1).

Lemma crd_hull_ok i : crd_hull (blk_map blks) (cb_id <$> blks) i = Ok (crd_range i).
Proof.
  unfold crd_hull, crd_range. generalize (INT_MAX, - 2^31).
  assert (Hsub : forall l st, (forall b, b ∈ l -> b ∈ blks) ->
    for_each (cb_id <$> l) (fun blk_id '(s, e) =>
      b ← find_blk (blk_map blks) blk_id;
      Ok (if cb_set b =? i then (Z.min s (cb_off b), Z.max e (cb_off b + cb_size b - 1)) else (s, e))) st =
    Ok (foldl (fun '(s, e) b =>
      if cb_set b =? i then (Z.min s (cb_off b), Z.max e (cb_off b + cb_size b - 1)) else (s, e)) st l)).
  { induction l as [|b l IH]; intros [s e] Hl; [done|]. rewrite fmap_cons. cbn [for_each foldl].
    rewrite find_blk_ok by (apply Hl; left). rewrite !bind_ok.
    apply IH. intros c Hc. apply Hl. by right. }
  intros st. rewrite Hsub by done. rewrite bind_ok. by destruct (foldl _ st blks).
Qed.

Lemma crd_matrix_ok :
  (forall b, b ∈ blks -> length (cb_coff b) = ecM) ->
  crd_matrix conf (blk_map blks) (cb_id <$> blks) =
    Ok (flat_map (fun i => (fun b => cb_coff b !!! i) <$> blks) (seq 0 ecM)).
Proof.
  intros Hc. unfold crd_matrix.
  assert (Hrow : forall i l acc, (i < ecM)%nat -> (forall b, b ∈ l -> b ∈ blks) ->
    for_each (cb_id <$> l) (fun blk_id acc =>
      b ← find_blk (blk_map blks) blk_id; c ← res_of_option Undef (cb_coff b !! i); Ok (acc ++ [c])) acc =
    Ok (acc ++ ((fun b => cb_coff b !!! i) <$> l))).
  { intros i l. induction l as [|b l IH]; intros acc Hi Hl; [by rewrite app_nil_r|]. rewrite !fmap_cons. cbn [for_each].
    assert (Hb : b ∈ blks) by (apply Hl; left).
    rewrite (find_blk_ok b Hb), bind_ok.
    rewrite (list_lookup_lookup_total_lt (cb_coff b) i) by (rewrite Hc; done). cbn [res_of_option]. rewrite !bind_ok.
    rewrite IH; [|done|intros; apply Hl; by right]. by rewrite <- app_assoc. }
  assert (Hall : forall n start acc, (start + n <= ecM)%nat ->
    for_each (seq start n) (fun i acc => for_each (cb_id <$> blks) (fun blk_id acc =>
      b ← find_blk (blk_map blks) blk_id; c ← res_of_option Undef (cb_coff b !! i); Ok (acc ++ [c])) acc) acc =
    Ok (acc ++ flat_map (fun i => (fun b => cb_coff b !!! i) <$> blks) (seq start n))).
  { induction n as [|n IH]; intros start acc Hn; [by rewrite app_nil_r|]. cbn [seq for_each flat_map].
    rewrite Hrow by (done || lia). rewrite bind_ok, IH by lia. by rewrite <- app_assoc. }
  rewrite Hall by lia. done.
Qed.

(** The merged range of a subset that has a block: it is in the block, covers
    the ranges of the subset and no more. *)
Lemma crd_range_covers i :
  (exists b, b ∈ blks /\ cb_set b = i) ->
  let '(s, n) := crd_range i in
  0 <= s /\ 0 <= n /\ s + n <= _blocksize conf /\
  (forall b, b ∈ blks -> cb_set b = i -> s <= cb_off b /\ cb_off b + cb_size b <= s + n) /\
  (exists b, b ∈ blks /\ cb_set b = i /\ s = cb_off b) /\
  (exists b, b ∈ blks /\ cb_set b = i /\ s + n = cb_off b + cb_size b).
Proof.
  intros (b0 & Hb0 & Hi0). unfold crd_range.
  assert (H : forall l, (forall b, b ∈ l -> b ∈ blks) ->
    let '(s, e) := foldl (fun '(s, e) b =>
      if cb_set b =? i then (Z.min s (cb_off b), Z.max e (cb_off b + cb_size b - 1)) else (s, e))
      (INT_MAX, - 2^31) l in
    (forall b, b ∈ l -> cb_set b = i -> s <= cb_off b /\ cb_off b + cb_size b - 1 <= e) /\
    (s = INT_MAX \/ exists b, b ∈ blks /\ cb_set b = i /\ s = cb_off b) /\
    (e = - 2^31 \/ exists b, b ∈ blks /\ cb_set b = i /\ e = cb_off b + cb_size b - 1)).
  { induction l as [|c l IH] using rev_ind; intros Hl.
    - split_and!; [intros b Hb; by apply elem_of_nil in Hb|by left|by left].
    - rewrite foldl_app. cbn [foldl]. specialize (IH (fun b Hb => Hl b (proj2 (elem_of_app _ _ _) (or_introl Hb)))).
      destruct (foldl _ _ l) as [s e]. destruct IH as (H1 & H2 & H3).
      assert (Hc : c ∈ blks) by (apply Hl, elem_of_app; right; left).
      destruct (Z.eqb_spec (cb_set c) i) as [E|E].
      + split_and!.
        * intros b [Hb|Hb%list_elem_of_singleton]%elem_of_app Hs;
            [specialize (H1 b Hb Hs)|subst b]; lia.
        * right. destruct (Z.min_spec s (cb_off c)) as [[Hm ->]|[Hm ->]]; [|by eauto].
          destruct H2 as [->|H2]; [|done]. destruct (Hrange c Hc) as (_ & R1 & R2 & R3 & _). unfold INT_MAX in *. lia.
        * destruct (Z.max_spec e (cb_off c + cb_size c - 1)) as [[Hm ->]|[Hm ->]]; [right; by eauto|done].
      + split_and!; [|done|done]. intros b [Hb|Hb%list_elem_of_singleton]%elem_of_app Hs; [by apply H1|congruence]. }
  specialize (H blks (fun b Hb => Hb)). destruct (foldl _ _ blks) as [s e]. destruct H as (H1 & H2 & H3).
  destruct (Hrange b0 Hb0) as (_ & R1 & R2 & R3 & _). destruct (H1 b0 Hb0 Hi0) as [H4 H5].
  destruct H2 as [->|(b1 & Hb1 & Hs1 & ->)]; [unfold INT_MAX in *; lia|].
  destruct H3 as [->|(b2 & Hb2 & Hs2 & ->)]; [lia|].
  destruct (Hrange b1 Hb1) as (_ & ? & _), (Hrange b2 Hb2) as (_ & _ & ? & ? & _).
  split_and!; [lia|lia|lia| |by eauto|exists b2; split_and!; [done|done|lia]].
  intros b Hb Hs. specialize (H1 b Hb Hs). lia.
Qed.

(** The delta of parity [i]: the combination of the data deltas, each at its
    place, with the coefficients of the command. *)
Definition parity_delta (i : nat) : list Z :=
  lincomb (length blks) bb (fun j => (cb_coff <$> blks) !!! j !!! i) (buf <$> blks).

Lemma bufs_lookup j : (j < length blks)%nat ->
  (blks !!! j) ∈ blks /\ (buf <$> blks) !!! j = buf (blks !!! j) /\ (cb_coff <$> blks) !!! j = cb_coff (blks !!! j).
Proof.
  intros Hj. split; [by apply list_elem_of_lookup_total_2|].
  split; apply (list_lookup_total_fmap (A := crd_blk)); done.
Qed.

Lemma bufs_region j : (j < length blks)%nat -> region bb ((buf <$> blks) !!! j).
Proof.
  intros Hj. destruct (bufs_lookup j Hj) as (Hin & -> & _).
  apply blit_zeros_region; [by apply buf_fits|by apply Hrange].
Qed.

(** A row without coefficients leaves the zeros the buffer starts with, which
    is its combination too. *)
Lemma encode_deltas i :
  (forall b, b ∈ blks -> length (cb_coff b) = ecM /\ Forall is_byte (cb_coff b)) -> (i < ecM)%nat ->
  jerasure_matrix_encode (length blks) ecM (flat_map (fun i => (fun b => cb_coff b !!! i) <$> blks) (seq 0 ecM))
    (buf <$> blks) (replicate ecM (zeros bb)) !! i = Some (parity_delta i).
Proof.
  intros Hc Hi. set (mat := flat_map _ _). set (z := replicate ecM (zeros bb)).
  assert (Hz : length z = ecM) by apply length_replicate.
  destruct (matrix_encode_row (length blks) ecM mat (buf <$> blks) z i) as [Hrow Hlen]; [lia|].
  rewrite (list_lookup_lookup_total_lt _ i) by lia. rewrite Hrow. f_equal. unfold z.
  rewrite lookup_total_replicate_2 by done.
  assert (Hm : forall j, (j < length blks)%nat -> drop (i * length blks) mat !!! j = (cb_coff <$> blks) !!! j !!! i).
  { intros j Hj. destruct (bufs_lookup j Hj) as (_ & _ & ->). rewrite lookup_total_drop_Z. unfold mat.
    rewrite (Nat.mul_comm i).
    destruct (flat_map_rows (fun i => (fun b => cb_coff b !!! i) <$> blks) (length blks) ecM
      (fun i => length_fmap _ _)) as [_ ->]; try done.
    by rewrite (list_lookup_total_fmap (fun b => cb_coff b !!! i) blks j). }
  unfold parity_delta. rewrite (dotprod_spec (length blks) bb).
  - destruct (forallb _ _) eqn:Hall.
    + apply list_eq_total; [by rewrite length_lincomb; apply length_replicate|].
      unfold zeros at 1. rewrite length_replicate. intros p Hp. rewrite lookup_total_zeros by done.
      rewrite lincomb_lookup by done. rewrite xsum_zero; [done|]. intros j Hj.
      rewrite <- Hm by done. rewrite forallb_forall in Hall.
      assert (Hz0 : In j (seq 0 (length blks))) by (apply in_seq; lia).
      rewrite (proj1 (Z.eqb_eq _ _) (Hall j Hz0)). apply gmul_0_l.
    + by apply lincomb_ext.
  - apply bufs_region.
  - apply length_replicate.
  - apply Forall_drop. unfold mat. apply Forall_forall. intros v Hv%list_elem_of_In.
    apply in_flat_map in Hv as (r & _ & Hv%list_elem_of_In). apply list_elem_of_fmap in Hv as (b & -> & Hb).
    apply lookup_total_byte. by apply Hc.
Qed.

(** ** The parity collector: what it stores and sends *)

Definition range_bytes (r : Z * Z) (l : list Z) : list Z :=
  take (Z.to_nat (r.2 * 1024)) (drop (Z.to_nat (r.1 * 1024)) l).

(** The slice of the delta of parity [i] for subset [j]. *)
Definition forward (i : nat) (j : Z) : Z * (queue * list Z) :=
  (helper conf (ecK + i), (QCrd, le32 j ++ range_bytes (crd_range j) (parity_delta i))).

Definition send_slice (i : nat) : Z * Z -> Z * node -> res (Z * node) := fun '(offset_add, upd_size) '(j, nd) =>
  off ← kb offset_add; size ← kb upd_size;
  part ← res_of_option Undef (slice (parity_delta i) off size);
  guard_or Undef (size <=? bb)%nat;;
  nd ← push_to conf (Z.of_nat (ecK + i)) QCrd (le32 j ++ part) nd;
  Ok (j + 1, nd).

Lemma send_slice_ok i j nd :
  (ecK + i < length (_helpersIPs conf))%nat -> (exists b, b ∈ blks /\ cb_set b = j) ->
  send_slice i (crd_range j) (j, nd) =
    Ok (j + 1, mkNode (files nd) (raidData nd) (deltaData nd) (crdData nd) (outbox nd ++ [forward i j])).
Proof.
  intros Hi Hj. pose proof (crd_range_covers j Hj) as Hc. unfold send_slice, forward, range_bytes.
  destruct (crd_range j) as [st sz]. destruct Hc as (H1 & H2 & H3 & _). cbn [fst snd].
  rewrite !kb_ok by lia. rewrite !bind_ok.
  rewrite (proj2 (slice_Some _ _ _ _)) by
    (split; [unfold parity_delta; rewrite length_lincomb; unfold block_bytes; lia|done]).
  cbn [res_of_option]. rewrite bind_ok. rewrite (proj2 (Nat.leb_le _ _)) by (unfold block_bytes; lia).
  cbn [guard_or]. by rewrite bind_ok, push_to_ok, bind_ok.
Qed.

Lemma send_slices_ok i n : forall (j0 : Z) nd,
  (ecK + i < length (_helpersIPs conf))%nat ->
  (forall j, j0 <= j < j0 + Z.of_nat n -> exists b, b ∈ blks /\ cb_set b = j) ->
  for_each (crd_range <$> seqZ j0 (Z.of_nat n)) (send_slice i) (j0, nd) =
    Ok (j0 + Z.of_nat n, mkNode (files nd) (raidData nd) (deltaData nd) (crdData nd)
      (outbox nd ++ (forward i <$> seqZ j0 (Z.of_nat n)))).
Proof.
  induction n as [|n IH]; intros j0 nd Hi Hs.
  - rewrite seqZ_nil by done. cbn. rewrite app_nil_r, Z.add_0_r. by destruct nd.
  - rewrite seqZ_cons by lia. rewrite !fmap_cons. cbn [for_each].
    rewrite send_slice_ok by (try apply Hs; lia). rewrite bind_ok.
    replace (Z.pred (Z.of_nat (S n))) with (Z.of_nat n) by lia. change (Z.succ j0) with (j0 + 1).
    rewrite IH by (try (intros; apply Hs); lia). cbn [files raidData deltaData crdData outbox].
    rewrite <- app_assoc. do 2 f_equal. lia.
Qed.

(** The slices of the delta of parity [i]. *)
Definition forwards (i : nat) (sets : Z) : list (Z * (queue * list Z)) := forward i <$> seqZ 0 sets.

Lemma forward_subsets_ok nd i sets :
  (ecK + i < length (_helpersIPs conf))%nat -> 0 <= sets ->
  (forall j, 0 <= j < sets -> exists b, b ∈ blks /\ cb_set b = j) ->
  forward_subsets conf (Z.of_nat (ecK + i)) (parity_delta i) (crd_range <$> seqZ 0 sets) nd =
    Ok (mkNode (files nd) (raidData nd) (deltaData nd) (crdData nd) (outbox nd ++ forwards i sets)).
Proof.
  intros Hi Hpos Hsets. unfold forward_subsets, forwards.
  match goal with |- context [for_each _ ?f _] => change f with (send_slice i) end.
  rewrite <- (Z2Nat.id sets) by done. rewrite send_slices_ok; [done|done|]. intros j Hj. apply Hsets. lia.
Qed.

Context (i0 : nat) (sets : Z) (rest : list Z) (p : list Z).
Context (Hi0 : (i0 < ecM)%nat) (Hhelp : (_ecN conf <= length (_helpersIPs conf))%nat).
Context (Hsets : 0 <= sets) (Hsub : forall j, 0 <= j < sets -> exists b, b ∈ blks /\ cb_set b = j).
Context (Hcoff : forall b, b ∈ blks -> is_s32 (cb_set b) /\ length (cb_coff b) = ecM /\ Forall is_byte (cb_coff b)).

Abbreviation loc := (Z.of_nat (ecK + i0)).

(** The node once the parities below [n] are done. *)
Definition parities_done (n : nat) (nd : node) : node :=
  mkNode (if decide (i0 < n)%nat then <[loc := zip_with Z.lxor p (parity_delta i0)]> (files nd) else files nd)
    (raidData nd) (deltaData nd) (crdData nd)
    (outbox nd ++ flat_map (fun i => if decide (i = i0) then [] else forward i <$> seqZ 0 sets) (seq 0 n)).

Lemma parity_delta_region i : (i < ecM)%nat -> region bb (parity_delta i).
Proof.
  intros Hi. apply lincomb_region; [|apply bufs_region]. intros j Hj.
  destruct (bufs_lookup j Hj) as (Hin & _ & ->). apply lookup_total_byte. by apply Hcoff.
Qed.

Lemma parities_ok nd n (pds : list (list Z)) :
  0 < _blocksize conf -> files nd !! loc = Some p -> region bb p -> (n <= ecM)%nat ->
  (forall i, (i < n)%nat -> pds !! i = Some (parity_delta i)) ->
  for_each (seq 0 n) (fun i nd =>
    pd ← res_of_option Undef (pds !! i);
    if Z.of_nat (ecK + i) =? loc then update_parity conf junk loc pd nd
    else forward_subsets conf (Z.of_nat (ecK + i)) pd (crd_range <$> seqZ 0 sets) nd) nd =
    Ok (parities_done n nd).
Proof.
  intros Hbs Hf Hp Hn Hpds. assert (HN : (ecK + ecM <= length (_helpersIPs conf))%nat) by (unfold _ecM in *; lia).
  induction n as [|n IH].
  - unfold parities_done. cbn. rewrite app_nil_r. by destruct nd.
  - rewrite seq_S, for_each_app, IH by (try (intros; apply Hpds); lia). rewrite bind_ok. cbn [for_each Nat.add].
    rewrite Hpds by lia. cbn [res_of_option]. rewrite bind_ok.
    destruct (Z.eqb_spec (Z.of_nat (ecK + n)) loc) as [E|E].
    + assert (n = i0) as -> by lia.
      rewrite (update_parity_ok _ _ p); [|cbn; by rewrite decide_False by lia|done|by apply parity_delta_region|unfold block_bytes; lia].
      rewrite bind_ok. unfold parities_done. cbn [files raidData deltaData crdData outbox].
      rewrite seq_S, flat_map_app. cbn [flat_map Nat.add].
      rewrite decide_False, decide_True, decide_True by lia. by rewrite !app_nil_r.
    + rewrite forward_subsets_ok by (done || lia). rewrite bind_ok. unfold parities_done.
      cbn [files raidData deltaData crdData outbox]. rewrite seq_S, flat_map_app. cbn [flat_map Nat.add].
      rewrite (decide_False (P := n = i0)) by lia. rewrite app_nil_r, app_assoc.
      assert (Hd : (i0 < S n <-> i0 < n)%nat) by lia. by rewrite (decide_ext _ _ _ _ Hd).
Qed.

(** The messages of the data nodes, in some order and among timeouts, the last
    reply being one of them. *)
Definition arrives (rs : list reply) (msgs : list (list Z)) : Prop :=
  datas rs ≡ₚ msgs /\ exists init d, rs = init ++ [RData d].

Lemma gather_deltas rs tl :
  arrives rs (delta_msg <$> blks) ->
  exists bufs : gmap Z (list Z),
    recv_until (Z.of_nat (length (cb_id <$> blks))) 0 (recv_data_delta (blk_map blks)) (rs ++ tl)
      (foldl (fun bufs id => <[id := zeros bb]> bufs) ∅ (cb_id <$> blks)) = Ok (bufs, tl) /\
    forall b, b ∈ blks -> bufs !! cb_id b = Some (buf b).
Proof.
  intros [Hperm Hlast]. apply Permutation_map_inv in Hperm as (ord & Heq & Hord).
  assert (Hin : forall b, b ∈ ord <-> b ∈ blks) by (intros b; by rewrite Hord).
  assert (Hids : NoDup (cb_id <$> ord)) by (by rewrite <- Hord).
  destruct (recv_all_deltas ord (foldl (fun bufs id => <[id := zeros bb]> bufs) ∅ (cb_id <$> blks)) Hids)
    as (bufs & Hrun & Hb & _).
  - intros b. apply Hin.
  - intros b Hb. apply init_bufs_lookup. apply (list_elem_of_fmap_2 cb_id). by apply Hin.
  - exists bufs. split; [|intros b Hb'; apply Hb; by apply Hin].
    rewrite recv_until_ok; [|rewrite <- length_datas, Heq, length_map, length_fmap, Hord; lia|done].
    rewrite Heq. change (map delta_msg ord) with (delta_msg <$> ord). by rewrite Hrun, bind_ok.
Qed.

Lemma collect_ranges l acc :
  for_each l (fun i acc => r ← crd_hull (blk_map blks) (cb_id <$> blks) i; Ok (acc ++ [r])) acc =
    Ok (acc ++ (crd_range <$> l)).
Proof.
  revert acc. induction l as [|i l IH]; intros acc; [by rewrite app_nil_r|]. rewrite fmap_cons. cbn [for_each].
  rewrite crd_hull_ok, !bind_ok, IH. by rewrite <- app_assoc.
Qed.

Lemma is_byte_s32 c : is_byte c -> is_s32 c.
Proof. unfold is_byte, is_s32. lia. Qed.

Lemma crd_words_s32 :
  (length (crd_words loc sets blks rest) <= max_operands)%nat ->
  Forall crd_blk_s32 blks /\ is_s32 (Z.of_nat (length blks)).
Proof.
  intros Hlen. assert (Hs : Forall crd_blk_s32 blks).
  { apply Forall_forall. intros b Hb. destruct (Hrange b Hb) as (H1 & H2 & H3 & H4 & _).
    destruct (Hcoff b Hb) as (H5 & H6 & H7). unfold INT_MAX in Hblock. unfold crd_blk_s32.
    split_and!; try done; [unfold is_s32; lia..|]. by apply (Forall_impl _ _ _ H7), is_byte_s32. }
  split; [done|]. unfold crd_words, max_operands in Hlen. rewrite length_app, length_app, length_flat_map_coff in Hlen by done.
  unfold is_s32. simpl in Hlen. nia.
Qed.

(** The collector does not end before every delta has come. *)
Lemma collector_needs nd nd' :
  length cmd_junk = COMMAND_MAX_LENGTH -> is_s32 sets -> is_s32 (Z.of_nat (ecK + i0)) ->
  Forall is_s32 rest -> length rest = (ecM - 1)%nat ->
  (length (crd_words loc sets blks rest) <= max_operands)%nat ->
  run (command 7 (crd_words loc sets blks rest)) nd = Ok nd' -> (length blks <= length (datas (crdData nd)))%nat.
Proof.
  intros Hcmd Hs32 Hloc Hrest Hlr Hlen. destruct (crd_words_s32 Hlen) as [Hs Hn].
  destruct (run_command_dispatch 7 (crd_words loc sets blks rest) nd) as [tail ->]; [done|unfold is_s32; lia|done|].
  unfold dispatch. cbn [Z.eqb Pos.eqb]. unfold recv_and_compute_in_parity_collector_for_crd.
  rewrite parse_crd_ok by done. rewrite bind_ok. cbn [cc_loc cc_sets cc_blks cc_rest].
  destruct (recv_until _ _ _ _ _) as [[bufs tl]|] eqn:E; [intros _|done].
  rewrite length_fmap in E. destruct blks as [|b l]; [simpl; lia|]. apply recv_until_used in E; [lia|simpl; lia].
Qed.

Lemma collector_run nd rs tl :
  length cmd_junk = COMMAND_MAX_LENGTH -> 0 < _blocksize conf -> is_s32 sets -> is_s32 (Z.of_nat (ecK + i0)) ->
  Forall is_s32 rest -> length rest = (ecM - 1)%nat ->
  (length (crd_words loc sets blks rest) <= max_operands)%nat ->
  arrives rs (delta_msg <$> blks) ->
  crdData nd = rs ++ tl -> files nd !! loc = Some p -> region bb p ->
  run (command 7 (crd_words loc sets blks rest)) nd =
    Ok (send_ack conf (parities_done ecM (mkNode (files nd) (raidData nd) (deltaData nd) tl (outbox nd)))).
Proof.
  intros Hcmd Hbs Hs32 Hloc Hrest Hlr Hlen Harr Hcrd Hf Hp.
  destruct (crd_words_s32 Hlen) as [Hs Hn].
  destruct (run_command_dispatch 7 (crd_words loc sets blks rest) nd) as [tail ->]; [done|unfold is_s32; lia|done|].
  unfold dispatch. cbn [Z.eqb Pos.eqb]. unfold recv_and_compute_in_parity_collector_for_crd.
  rewrite parse_crd_ok by done. rewrite bind_ok. cbn [cc_loc cc_sets cc_blks cc_rest].
  destruct (gather_deltas rs tl Harr) as (bufs & Hrun & Hbufs). rewrite Hcrd, Hrun, bind_ok.
  rewrite (collect_bufs bufs blks []) by done. rewrite bind_ok, (collect_ranges _ []), bind_ok.
  rewrite crd_matrix_ok by (intros b Hb; by apply Hcoff). rewrite bind_ok, length_fmap. cbn [app].
  rewrite parities_ok; try done. intros i Hi. apply encode_deltas; [|done].
  intros b Hb. by apply Hcoff.
Qed.
End collector.

(** ** The other parity nodes (task 8) *)

Definition forward_words (loc : Z) (rg : list (Z * Z)) : list Z :=
  loc :: Z.of_nat (length rg) :: flat_map (fun '(j, (o, s)) => [Z.of_nat j; o; s]) (zip (seq 0 (length rg)) rg).

Section parity_node.
Context (rg : list (Z * Z)) (P : nat -> list Z).
Context (Hblock : _blocksize conf * 1024 <= INT_MAX).
Context (Hrg : forall j o s, rg !! j = Some (o, s) ->
  0 <= o /\ 0 <= s /\ o + s <= _blocksize conf /\ (Z.to_nat (s * 1024) <= length (P j))%nat /\ Forall is_byte (P j)).

Lemma length_forward_triples (l : list (Z * Z)) start :
  length (flat_map (fun '(j, (o, s)) => [Z.of_nat j; o; s]) (zip (seq start (length l)) l)) = (3 * length l)%nat.
Proof. revert start. induction l as [|[o s] l IH]; intros start; [done|]. cbn. rewrite IH. lia. Qed.

Lemma parse_triples l start cmd cur m ws (q : nat) :
  at_cur cmd cur (flat_map (fun '(j, (o, s)) => [Z.of_nat j; o; s]) (zip (seq start (length l)) l) ++ ws) ->
  is_s32 (Z.of_nat (start + length l)) -> Forall (fun '(o, s) => is_s32 o /\ is_s32 s) l ->
  exists m', for_each (seq q (length l)) (fun _ '(m, cur) =>
      '(sub_set_id, cur) ← get cmd cur;
      '(offset_add, cur) ← get cmd cur;
      '(upd_size, cur) ← get cmd cur;
      Ok (<[sub_set_id := (offset_add, upd_size)]> m, cur)) (m, cur) = Ok (m', (cur + 12 * length l)%nat) /\
    forall j : nat, (m' : gmap Z (Z * Z)) !! Z.of_nat j = if decide (start <= j < start + length l)%nat then l !! (j - start)%nat else m !! Z.of_nat j.
Proof.
  intros Hat Hs Hl. revert start cur m q Hat Hs. induction Hl as [|[o s] l [Ho Hsz] Hl IH]; intros start cur m q Hat Hs.
  - exists m. simpl. split; [do 2 f_equal; lia|]. intros j. by rewrite decide_False by lia.
  - cbn [length seq zip zip_with flat_map app] in Hat. cbn [length seq for_each].
    destruct (get_at_cur _ _ _ _ Hat) as [-> Hat1]; [simpl in Hs; unfold is_s32 in *; lia|]. rewrite bind_ok.
    destruct (get_at_cur _ _ _ _ Hat1 Ho) as [-> Hat2]. rewrite bind_ok.
    destruct (get_at_cur _ _ _ _ Hat2 Hsz) as [-> Hat3]. rewrite !bind_ok.
    destruct (IH (S start) _ (<[Z.of_nat start := (o, s)]> m) (S q) Hat3) as (m' & -> & Hm').
    { simpl in Hs. by replace (S start + length l)%nat with (start + S (length l))%nat by lia. }
    exists m'. split; [do 2 f_equal; lia|]. intros j. rewrite Hm'. destruct (decide (j = start)) as [->|Hne].
    + rewrite decide_False, decide_True by lia. by rewrite lookup_insert_eq, Nat.sub_diag.
    + rewrite lookup_insert_ne by lia. repeat case_decide; try lia; [|done].
      by replace (j - start)%nat with (S (j - S start)) by lia.
Qed.

Lemma parse_forward_ok loc tl :
  is_s32 loc -> (length (forward_words loc rg) <= max_operands)%nat ->
  exists m, parse_forward (command 8 (forward_words loc rg) ++ tl) (Z.of_nat (8 + 4 * length (forward_words loc rg))) =
      Ok (loc, Z.of_nat (length rg), m) /\
    forall j, (j < length rg)%nat -> m !! Z.of_nat j = rg !! j.
Proof.
  intros Hloc Hmax. pose proof (at_cur_command 8 (forward_words loc rg) tl) as Hat.
  assert (Hl : length (forward_words loc rg) = (2 + 3 * length rg)%nat).
  { unfold forward_words. cbn [length]. rewrite length_forward_triples. lia. }
  unfold max_operands in Hmax. rewrite Hl in *. set (cmd := command 8 _ ++ tl) in *.
  unfold forward_words in Hat. unfold parse_forward.
  destruct (get_at_cur _ _ _ _ Hat Hloc) as [-> Hat1]. rewrite bind_ok.
  destruct (get_at_cur _ _ _ _ Hat1) as [-> Hat2]; [unfold is_s32; lia|]. rewrite bind_ok, Nat2Z.id.
  rewrite <- (app_nil_r (flat_map _ _)) in Hat2.
  destruct (parse_triples rg 0 cmd _ ∅ [] 0 Hat2) as (m & -> & Hm).
  - unfold is_s32. lia.
  - apply Forall_forall. intros [o s] [j Hj]%list_elem_of_lookup. destruct (Hrg j o s Hj) as (H1 & H2 & H3 & _).
    unfold INT_MAX, is_s32 in *. lia.
  - rewrite bind_ok, parsed_ok by lia. rewrite bind_ok. exists m. split; [done|]. intros j Hj.
    rewrite Hm, decide_True by lia. by rewrite Nat.sub_0_r.
Qed.

(** The buffer of subset [j] once its slice arrived. *)
Definition sub_buf (j : nat) : list Z :=
  blit (zeros bb) (Z.to_nat ((rg !!! j).1 * 1024)) (take (Z.to_nat ((rg !!! j).2 * 1024)) (P j)).

Definition slice_msg (j : nat) : list Z := le32 (Z.of_nat j) ++ P j.

Lemma recv_subset_ok m j bufs :
  (j < length rg)%nat -> is_s32 (Z.of_nat j) -> m !! Z.of_nat j = rg !! j -> bufs !! j = Some (zeros bb) ->
  recv_subset m (slice_msg j) bufs = Ok (<[j := sub_buf j]> bufs).
Proof.
  intros Hj Hid Hm Hb. unfold recv_subset, slice_msg.
  destruct (message_id (Z.of_nat j) (P j) Hid) as [-> E]. cbn [res_of_option]. rewrite bind_ok, E.
  cbn [res_of_option]. rewrite bind_ok, Hm. rewrite (list_lookup_lookup_total_lt rg j Hj). unfold sub_buf.
  destruct (rg !!! j) as [o s] eqn:Hos. cbn [res_of_option fst snd].
  destruct (Hrg j o s) as (H1 & H2 & H3 & H4 & _); [rewrite <- Hos; by apply list_lookup_lookup_total_lt|].
  rewrite bind_ok, !kb_ok by lia. rewrite !bind_ok.
  rewrite (at_int_nat _ j _ Hb), bind_ok, Nat2Z.id.
  rewrite copy_ok; [|rewrite length_app, length_le32; lia|unfold zeros, block_bytes; rewrite length_replicate; lia].
  rewrite bind_ok. by rewrite drop_app_length' by done.
Qed.

Lemma recv_all_subsets m ord (bufs : list (list Z)) :
  NoDup ord -> (forall j, j ∈ ord -> (j < length rg)%nat /\ bufs !! j = Some (zeros bb)) ->
  is_s32 (Z.of_nat (length rg)) -> (forall j, (j < length rg)%nat -> m !! Z.of_nat j = rg !! j) ->
  exists bufs', for_each (slice_msg <$> ord) (recv_subset m) bufs = Ok bufs' /\ length bufs' = length bufs /\
    forall j, bufs' !! j = if decide (j ∈ ord) then Some (sub_buf j) else bufs !! j.
Proof.
  intros Hnd Hin Hlen Hm. revert bufs Hin. induction Hnd as [|j ord Hj Hnd IH]; intros bufs Hin.
  - exists bufs. split_and!; [done|done|]. intros j. rewrite decide_False; [done|apply not_elem_of_nil].
  - rewrite fmap_cons. cbn [for_each]. destruct (Hin j) as [Hlt Hz]; [left|].
    rewrite recv_subset_ok; [|done|unfold is_s32 in *; lia|by apply Hm|done]. rewrite bind_ok.
    destruct (IH (<[j := sub_buf j]> bufs)) as (bufs' & -> & Hl & Hb).
    { intros i Hi. destruct (Hin i) as [? ?]; [by right|]. split; [done|].
      rewrite list_lookup_insert_ne; [done|]. by intros ->. }
    exists bufs'. split; [done|]. split; [by rewrite Hl, length_insert|]. intros i. rewrite Hb.
    destruct (decide (i = j)) as [->|Hne].
    + rewrite decide_False, decide_True by (done || left).
      apply list_lookup_insert_eq. by eapply lookup_lt_Some.
    + rewrite list_lookup_insert_ne by done.
      assert (Hmem : i ∈ ord <-> i ∈ j :: ord) by (rewrite elem_of_cons; naive_solver).
      by rewrite (decide_ext _ _ _ _ Hmem).
Qed.

Lemma sub_buf_region j : (j < length rg)%nat -> region bb (sub_buf j).
Proof.
  intros Hj. unfold sub_buf. pose proof (list_lookup_lookup_total_lt rg j Hj) as Hos.
  destruct (rg !!! j) as [o s]. destruct (Hrg j o s Hos) as (H1 & H2 & H3 & H4 & H5). cbn [fst snd].
  apply blit_zeros_region; [rewrite length_take; unfold block_bytes; lia|by apply Forall_take].
Qed.

(** What the node stores: its block xor every slice at its place. *)
Definition patched (f : list Z) : list Z := aggregate ((sub_buf <$> seq 0 (length rg)) ++ [f]).

Lemma patched_lookup f x :
  (x < bb)%nat ->
  patched f !!! x = Z.lxor (xsum (length rg) (fun j =>
    placed (Z.to_nat ((rg !!! j).1 * 1024)) (take (Z.to_nat ((rg !!! j).2 * 1024)) (P j)) x)) (f !!! x).
Proof.
  intros Hx. unfold patched, aggregate. rewrite fmap_seq_lookup_total by done.
  assert (Hl : length (sub_buf <$> seq 0 (length rg)) = length rg) by by rewrite length_fmap, length_seq.
  rewrite length_app, Hl. cbn [length]. rewrite Nat.add_1_r. cbn [xsum]. f_equal.
  - apply xsum_ext. intros j Hj. rewrite lookup_total_app_l by lia.
    rewrite (list_lookup_total_correct _ _ (sub_buf j)).
    2:{ rewrite list_lookup_fmap, lookup_seq_lt by done. done. }
    unfold sub_buf. pose proof (list_lookup_lookup_total_lt rg j Hj) as Hos.
    destruct (rg !!! j) as [o s]. destruct (Hrg j o s Hos) as (H1 & H2 & H3 & H4 & H5). cbn [fst snd].
    apply blit_zeros; [rewrite length_take; unfold block_bytes; lia|done].
  - rewrite lookup_total_app_r, Hl, Nat.sub_diag by lia. done.
Qed.

(** The buffers once the slices and the old parity [f] are in. *)
Lemma parity_buffs (ord : list nat) (bufs : list (list Z)) f :
  (forall j, j ∈ ord <-> (j < length rg)%nat) -> length bufs = (length rg + 1)%nat ->
  (forall j, bufs !! j = if decide (j ∈ ord) then Some (sub_buf j) else replicate (length rg + 1) (zeros bb) !! j) ->
  <[length rg := f]> bufs = (sub_buf <$> seq 0 (length rg)) ++ [f].
Proof.
  intros Hin Hl Hb. apply list_eq. intros j. destruct (decide (j < length rg)%nat) as [Hj|Hj].
  - rewrite list_lookup_insert_ne by lia. rewrite Hb, decide_True by (by apply Hin).
    rewrite lookup_app_l by (rewrite length_fmap, length_seq; done).
    by rewrite list_lookup_fmap, lookup_seq_lt by done.
  - rewrite lookup_app_r by (rewrite length_fmap, length_seq; lia). rewrite length_fmap, length_seq.
    destruct (decide (j = length rg)) as [->|Hj2].
    + rewrite Nat.sub_diag. apply list_lookup_insert_eq. lia.
    + rewrite lookup_ge_None_2 by (rewrite length_insert; lia). symmetry. apply lookup_ge_None_2. simpl. lia.
Qed.

Lemma parity_buffs_region f j :
  region bb f -> (j < length rg + 1)%nat -> region bb (((sub_buf <$> seq 0 (length rg)) ++ [f]) !!! j).
Proof.
  intros Hf Hj. destruct (decide (j < length rg)%nat) as [Hj2|Hj2].
  - rewrite lookup_total_app_l by (rewrite length_fmap, length_seq; done).
    rewrite (list_lookup_total_correct _ _ (sub_buf j)); [by apply sub_buf_region|].
    by rewrite list_lookup_fmap, lookup_seq_lt by done.
  - rewrite lookup_total_app_r by (rewrite length_fmap, length_seq; lia).
    rewrite length_fmap, length_seq. by replace (j - length rg)%nat with 0%nat by lia.
Qed.

(** The node does not end before every slice has come. *)
Lemma parity_node_needs nd loc nd' :
  length cmd_junk = COMMAND_MAX_LENGTH -> is_s32 loc -> (length (forward_words loc rg) <= max_operands)%nat ->
  run (command 8 (forward_words loc rg)) nd = Ok nd' -> (length rg <= length (datas (crdData nd)))%nat.
Proof.
  intros Hcmd Hloc Hmax.
  destruct (run_command_dispatch 8 (forward_words loc rg) nd) as [tail ->]; [done|unfold is_s32; lia|done|].
  unfold dispatch. cbn [Z.eqb Pos.eqb]. unfold recv_parity_delta_and_aggre_for_crd.
  destruct (parse_forward_ok loc tail Hloc Hmax) as (m & -> & _). rewrite bind_ok.
  rewrite (proj2 (Z.ltb_ge _ _)) by lia. destruct (recv_until _ _ _ _ _) as [[bufs tl]|] eqn:E; [intros _|done].
  destruct (decide (length rg = 0%nat)); [lia|]. apply recv_until_used in E; lia.
Qed.

Lemma parity_node_run nd loc rs tl f :
  length cmd_junk = COMMAND_MAX_LENGTH -> 0 < _blocksize conf -> is_s32 loc -> rg <> [] ->
  (length (forward_words loc rg) <= max_operands)%nat ->
  arrives rs (slice_msg <$> seq 0 (length rg)) ->
  crdData nd = rs ++ tl -> files nd !! loc = Some f -> region bb f ->
  run (command 8 (forward_words loc rg)) nd =
    Ok (send_ack conf (mkNode (<[loc := patched f]> (files nd)) (raidData nd) (deltaData nd) tl (outbox nd))).
Proof.
  intros Hcmd Hbs Hloc Hne Hmax [Hperm Hlast] Hcrd Hf Hrf.
  assert (Hn : is_s32 (Z.of_nat (length rg))).
  { unfold forward_words, max_operands in Hmax. cbn [length] in Hmax. rewrite length_forward_triples in Hmax.
    unfold is_s32. lia. }
  destruct (run_command_dispatch 8 (forward_words loc rg) nd) as [tail ->]; [done|unfold is_s32; lia|done|].
  unfold dispatch. cbn [Z.eqb Pos.eqb]. unfold recv_parity_delta_and_aggre_for_crd.
  destruct (parse_forward_ok loc tail Hloc Hmax) as (m & -> & Hm). rewrite bind_ok.
  rewrite (proj2 (Z.ltb_ge _ _)) by lia. rewrite Nat2Z.id, Hcrd.
  apply Permutation_map_inv in Hperm as (ord & Heq & Hord).
  assert (Hin : forall j, j ∈ ord <-> (j < length rg)%nat) by (intros j; rewrite <- Hord, elem_of_seq; lia).
  rewrite recv_until_ok; [|rewrite <- length_datas, Heq, length_map, <- Hord, length_seq; lia|done].
  rewrite Heq. change (map slice_msg ord) with (slice_msg <$> ord).
  destruct (recv_all_subsets m ord (replicate (length rg + 1) (zeros bb))) as (bufs & -> & Hl & Hb).
  { rewrite <- Hord. apply NoDup_seq. }
  { intros j Hj%Hin. split; [done|]. apply lookup_replicate_2. lia. }
  { done. } { done. }
  rewrite !bind_ok. pose proof Hrf as [Hlf Hbf].
  erewrite read_blk_ok by (cbn [files]; done || (rewrite Hlf; done)). rewrite bind_ok, drop_0, take_ge by lia.
  rewrite length_replicate in Hl.
  rewrite (parity_buffs ord bufs f Hin Hl Hb).
  set (all := _ ++ [f]).
  assert (Hall : length all = (length rg + 1)%nat) by (unfold all; rewrite length_app, length_fmap, length_seq; done).
  rewrite <- Hall. rewrite aggregate_ok.
  - cbn [res_of_option]. rewrite bind_ok. fold all (patched f).
    rewrite (write_blk_ok _ loc f) by (done || (unfold block_bytes; lia) || apply length_aggregate). rewrite bind_ok.
    do 4 f_equal. unfold patched, write_at. rewrite take_0, length_aggregate, drop_ge, app_nil_r by lia. done.
  - unfold all. by destruct (_ <$> _).
  - intros j Hj. rewrite Hall in Hj. by apply parity_buffs_region.
Qed.
End parity_node.
End crd.
