(* ===== verification/CrdStripe.v ===== *)
(** * A crd update of a whole stripe: the parity stays that of the data

    [CrdUpdate]'s commands, run by the handlers of UPNode.cc on the nodes of a
    stripe whose parity blocks are the ones of its data.  [update_data] is what
    the update means; the theorems relate the files of the parity nodes to
    [parity (update_data data)]. *)
From S2P Require Import Prelude Command Text Config Galois GF256 Jerasure Gauss Encode UpdPlan UPCoordinator Disk UPNode UPCrd.

#[export] Instance UpdBlock_inhabited : Inhabited UpdBlock := populate (mkUpdBlock 0 0 0 0).

Lemma flat_map_fmap {A B C} (f : B -> list C) (g : A -> B) l : flat_map f (g <$> l) = flat_map (fun x => f (g x)) l.
Proof. induction l as [|x l IH]; [done|]. rewrite fmap_cons. cbn [flat_map]. by rewrite IH. Qed.

(** The numbered subsets as task 8 lists them. *)
Lemma flat_map_numbered (l : solution) start :
  l.*1 = seqZ (Z.of_nat start) (Z.of_nat (length l)) ->
  flat_map (fun s => let '(offset_add, upd_size) := sub_set_range s.2 in [s.1; offset_add; upd_size]) l =
  flat_map (fun '(j, (o, s)) => [Z.of_nat j; o; s]) (zip (seq start (length l)) ((fun s => sub_set_range s.2) <$> l)).
Proof.
  revert start. induction l as [|[j N] l IH]; intros start H; [done|].
  change (((j, N) :: l).*1) with (j :: l.*1) in H. rewrite fmap_cons. cbn [length] in H |- *. rewrite seqZ_cons in H by lia. injection H as Hj H.
  cbn [seq zip zip_with flat_map fst snd]. rewrite (IH (S start)).
  - destruct (sub_set_range N). by subst j.
  - rewrite H. f_equal; lia.
Qed.

Lemma ForallOrdPairs_lookup {A} (R : A -> A -> Prop) l i j x y :
  ForallOrdPairs R l -> l !! i = Some x -> l !! j = Some y -> (i < j)%nat -> R x y.
Proof.
  intros H. revert i j. induction H as [|a l Ha _ IH]; intros i j Hi Hj Hlt; [done|].
  destruct j as [|j]; [lia|]. destruct i as [|i].
  - injection Hi as <-. rewrite Forall_forall in Ha. eapply Ha, list_elem_of_lookup_2, Hj.
  - apply (IH i j); (done || lia).
Qed.

Section stripe.
Context `{GF : GFComplete} `{GL : !GF8Laws} `{DIO : DiskIO} `{DL : !DiskLaws}.
Context (conf : Config) (_locIP : Z) (junk : nat -> list Z) (cmd_junk pointer : list Z).
Context (enc : list Z) (blks : list UpdBlock) (data : list (list Z)).

Abbreviation ecK := (_ecK conf).
Abbreviation ecM := (_ecM conf).
Abbreviation bb := (block_bytes conf).
Abbreviation run := (run_command conf _locIP junk cmd_junk pointer).
Abbreviation sol := (get_upd_solu_crd blks).

(** ** What an update means *)

(** Parity block [i] of the blocks [data]. *)
Definition parity (data : list (list Z)) (i : nat) : list Z :=
  lincomb ecK bb (fun c => enc !!! (i * ecK + c)%nat) data.

Definition blk_at (b : UpdBlock) : nat := Z.to_nat (_id b).
Definition off_bytes (b : UpdBlock) : nat := Z.to_nat (_offset_add b * 1024).
Definition size_bytes (b : UpdBlock) : nat := Z.to_nat (_upd_size b * 1024).

(** Every updated block gets the new bytes in its range. *)
Definition update_block (data : list (list Z)) (b : UpdBlock) : list (list Z) :=
  <[blk_at b := write_at (data !!! blk_at b) (off_bytes b) (gene_radm_buff (size_bytes b))]> data.
Definition update_data (data : list (list Z)) : list (list Z) := foldl update_block data blks.

(** The stripes considered: whole blocks, the updates of distinct data blocks,
    each in its block. *)
Definition in_block (b : UpdBlock) : Prop :=
  0 <= _id b < Z.of_nat ecK /\ 0 <= _offset_add b /\ 0 < _upd_size b /\
  _offset_add b + _upd_size b <= _blocksize conf.
#[export] Instance in_block_dec b : Decision (in_block b).
Proof. unfold in_block. apply _. Defined.

Record stripe_ok : Prop := {
  so_blocksize : 0 < _blocksize conf /\ _blocksize conf * 1024 <= INT_MAX;
  so_enc : length enc = (ecM * ecK)%nat /\ Forall is_byte enc;
  so_data : length data = ecK /\ Forall (region bb) data;
  so_ids : NoDup (_id <$> blks);
  so_blks : Forall in_block blks;
  so_helpers : (ecK <= _ecN conf <= length (_helpersIPs conf))%nat /\ is_s32 (Z.of_nat (_ecN conf))
}.
Context (Hok : stripe_ok).

Lemma blk_in b : b ∈ blks -> in_block b.
Proof. pose proof (so_blks Hok) as H. rewrite Forall_forall in H. apply H. Qed.

Lemma blks_ok : Forall blk_ok blks.
Proof.
  apply Forall_forall. intros b Hb. destruct (blk_in b Hb) as (_ & H1 & H2 & H3).
  destruct (so_blocksize Hok). unfold blk_ok, INT_MAX in *. lia.
Qed.

Lemma data_region c : (c < ecK)%nat -> region bb (data !!! c).
Proof.
  intros Hc. destruct (so_data Hok) as [Hl H]. rewrite Forall_forall in H.
  apply H, list_elem_of_lookup_total_2. lia.
Qed.

Lemma fits b : b ∈ blks ->
  (blk_at b < ecK)%nat /\ (off_bytes b + size_bytes b <= bb)%nat /\ length (data !!! blk_at b) = bb.
Proof.
  intros Hb. destruct (blk_in b Hb) as (H0 & H1 & H2 & H3). unfold blk_at, off_bytes, size_bytes, block_bytes.
  split_and!; [lia|lia|]. apply data_region. lia.
Qed.

Lemma ids_inj b c : b ∈ blks -> c ∈ blks -> _id b = _id c -> b = c.
Proof.
  intros [x Hx]%list_elem_of_lookup [y Hy]%list_elem_of_lookup He.
  assert (x = y) as <-.
  { apply (NoDup_lookup _ _ _ (_id b) (so_ids Hok)); rewrite list_lookup_fmap;
      [by rewrite Hx|by rewrite Hy; simpl; rewrite He]. }
  rewrite Hx in Hy. by injection Hy.
Qed.

(** The blocks after the update. *)
Lemma update_data_lookup c :
  (c < ecK)%nat -> length (update_data data) = ecK /\
  (forall b, b ∈ blks -> blk_at b = c ->
     update_data data !!! c = write_at (data !!! c) (off_bytes b) (gene_radm_buff (size_bytes b))) /\
  ((forall b, b ∈ blks -> blk_at b <> c) -> update_data data !!! c = data !!! c).
Proof.
  intros Hc. unfold update_data. destruct (so_data Hok) as [Hl _].
  assert (H : forall l, (forall b, b ∈ l -> b ∈ blks) -> NoDup (_id <$> l) ->
    length (foldl update_block data l) = ecK /\
    (forall b, b ∈ l -> blk_at b = c -> foldl update_block data l !!! c =
       write_at (data !!! c) (off_bytes b) (gene_radm_buff (size_bytes b))) /\
    ((forall b, b ∈ l -> blk_at b <> c) -> foldl update_block data l !!! c = data !!! c)).
  { induction l as [|d l IH] using rev_ind; intros Hin Hnd.
    - split_and!; [done| |done]. intros b Hb. by apply elem_of_nil in Hb.
    - rewrite foldl_app. cbn [foldl]. rewrite fmap_app in Hnd. apply NoDup_app in Hnd as (Hnd & Hdis & _).
      destruct IH as (H1 & H2 & H3); [intros b Hb; apply Hin, elem_of_app; by left|done|].
      assert (Hd : d ∈ blks) by (apply Hin, elem_of_app; right; left). destruct (blk_in d Hd) as (Hid & _).
      assert (Hnew : forall b, b ∈ l -> _id b <> _id d).
      { intros b Hb He. apply (Hdis (_id b)); [by apply (list_elem_of_fmap_2 _id)|]. rewrite He. left. }
      unfold update_block at 1 3 5. rewrite length_insert. split; [done|].
      assert (Hlt : forall x, x = blk_at d -> (x < ecK)%nat) by (intros x ->; by apply fits).
      split.
      + intros b [Hb|Hb%list_elem_of_singleton]%elem_of_app Hbc.
        * rewrite list_lookup_total_insert_ne; [by apply H2|]. destruct (blk_in b) as (? & _);
            [apply Hin, elem_of_app; by left|]. specialize (Hnew b Hb). unfold blk_at in *. lia.
        * subst b c. rewrite list_lookup_total_insert_eq by lia. rewrite H3; [done|].
          intros b Hb. destruct (blk_in b) as (? & _); [apply Hin, elem_of_app; by left|].
          specialize (Hnew b Hb). unfold blk_at. lia.
      + intros Hno. rewrite list_lookup_total_insert_ne; [apply H3; intros b Hb; apply Hno, elem_of_app; by left|].
        apply Hno, elem_of_app. right. left. }
  apply (H blks); [done|apply (so_ids Hok)].
Qed.

(** ** The delta of a parity block is the difference it must make *)

(** The data node's delta, at its place. *)
Lemma delta_placed f off size x :
  (off + size <= length f)%nat -> (x < length f)%nat ->
  placed off (delta_of f off size) x = Z.lxor (f !!! x) (write_at f off (gene_radm_buff size) !!! x).
Proof.
  intros Hfit Hx. unfold placed. rewrite length_delta_of by done.
  rewrite (list_lookup_total_alt (write_at _ _ _)), write_at_lookup, length_gene_radm_buff.
  case_decide as Hin.
  - unfold delta_of. rewrite zip_with_lookup_total by (rewrite ?length_take, ?length_drop, ?length_gene_radm_buff; lia).
    f_equal; [|by rewrite list_lookup_total_alt].
    rewrite !list_lookup_total_alt, lookup_take_lt, lookup_drop by lia. do 2 f_equal. lia.
  - rewrite decide_False by lia. rewrite <- list_lookup_total_alt. by rewrite Z.lxor_nilpotent.
Qed.

(** An updated block as the collector's command describes it, and its delta. *)
Definition crd_of (b : UpdBlock) : crd_blk :=
  mkCrdBlk (_id b) (get_sub_set_id sol (_id b)) (_offset_add b) (_upd_size b) (coffs conf enc (_id b)).
Definition data_delta (c : crd_blk) : list Z :=
  delta_of (data !!! Z.to_nat (cb_id c)) (Z.to_nat (cb_off c * 1024)) (Z.to_nat (cb_size c * 1024)).

Abbreviation cblks := (crd_of <$> blks).
Abbreviation pdelta := (parity_delta conf cblks data_delta).

Lemma coff_entry b i : (i < ecM)%nat -> coffs conf enc (_id b) !!! i = enc !!! (i * ecK + blk_at b)%nat.
Proof.
  intros Hi. unfold coffs. apply list_lookup_total_correct. rewrite list_lookup_fmap.
  by rewrite lookup_seq_lt by done.
Qed.

Lemma coff_byte b i : (i < ecM)%nat -> is_byte (coffs conf enc (_id b) !!! i).
Proof. intros Hi. rewrite coff_entry by done. apply lookup_total_byte, (so_enc Hok). Qed.

Lemma crd_of_range c : c ∈ cblks ->
  is_s32 (cb_id c) /\ 0 <= cb_off c /\ 0 <= cb_size c /\ cb_off c + cb_size c <= _blocksize conf /\
  length (data_delta c) = Z.to_nat (cb_size c * 1024) /\ Forall is_byte (data_delta c).
Proof.
  intros (b & -> & Hb)%list_elem_of_fmap. destruct (blk_in b Hb) as (H0 & H1 & H2 & H3).
  destruct (fits b Hb) as (F1 & F2 & F3). destruct (so_helpers Hok) as [[? ?] ?]. unfold data_delta. cbn.
  split_and!; [unfold is_s32 in *; lia|lia|lia|lia|by apply length_delta_of; unfold off_bytes, size_bytes, blk_at in *; lia|].
  unfold delta_of. apply zip_xor_bytes; [|apply gene_radm_buff_bytes]. apply Forall_take, Forall_drop.
  by apply (data_region (blk_at b)).
Qed.

Lemma parity_delta_entry i x :
  (i < ecM)%nat -> (x < bb)%nat ->
  pdelta i !!! x = xsum (length blks) (fun j => let b := blks !!! j in
    (enc !!! (i * ecK + blk_at b)%nat) ⊗
      Z.lxor ((data !!! blk_at b) !!! x) ((update_data data !!! blk_at b) !!! x)).
Proof.
  intros Hi Hx. unfold parity_delta. rewrite lincomb_lookup, length_fmap by done. apply xsum_ext. intros j Hj. cbv zeta.
  assert (Hl : length cblks = length blks) by apply length_fmap.
  destruct (bufs_lookup conf cblks data_delta j) as (_ & -> & ->); [by rewrite Hl|].
  rewrite (list_lookup_total_fmap crd_of blks j) by done. set (b := blks !!! j).
  assert (Hb : b ∈ blks) by (by apply list_elem_of_lookup_total_2). destruct (fits b Hb) as (F1 & F2 & F3).
  cbn [crd_of cb_coff]. rewrite coff_entry by done. f_equal. unfold buf. cbn [crd_of cb_off].
  assert (Hd : data_delta (crd_of b) = delta_of (data !!! blk_at b) (off_bytes b) (size_bytes b)) by done.
  rewrite Hd. fold (off_bytes b).
  destruct (blit_zeros (off_bytes b) (delta_of (data !!! blk_at b) (off_bytes b) (size_bytes b)) bb) as [_ Hz];
    [rewrite length_delta_of; lia|]. rewrite Hz, delta_placed by lia.
  destruct (update_data_lookup (blk_at b) F1) as (_ & Hu & _). by rewrite (Hu b Hb eq_refl).
Qed.

Lemma NoDup_blk_at : NoDup (blk_at <$> blks).
Proof.
  apply NoDup_fmap_2_strong; [|apply (NoDup_fmap_1 _id), (so_ids Hok)].
  intros b c Hb Hc He. apply ids_inj; [done|done|].
  destruct (blk_in b Hb) as (? & _), (blk_in c Hc) as (? & _). unfold blk_at in He. lia.
Qed.

(** A sum over the updated blocks is a sum over the data blocks. *)
Lemma sum_over_blocks (g : nat -> Z) :
  xsum (length blks) (fun j => g (blk_at (blks !!! j))) =
    xsum ecK (fun c => if decide (c ∈ blk_at <$> blks) then g c else 0).
Proof.
  assert (Hat : forall j, (j < length blks)%nat -> (blk_at <$> blks) !! j = Some (blk_at (blks !!! j))).
  { intros j Hj. by rewrite list_lookup_fmap, (list_lookup_lookup_total_lt blks j Hj). }
  transitivity (xsum ecK (fun c => xsum (length blks) (fun j => if decide (blk_at (blks !!! j) = c) then g c else 0))).
  - rewrite xsum_swap. apply xsum_ext. intros j Hj.
    destruct (fits (blks !!! j)) as (F1 & _); [by apply list_elem_of_lookup_total_2|].
    rewrite (xsum_single ecK (fun c => if decide (_ = c) then _ else _) (blk_at (blks !!! j)) F1);
      [by rewrite decide_True|]. intros c _ Hne. by rewrite decide_False by congruence.
  - apply xsum_ext. intros c Hc. case_decide as Hin.
    + apply list_elem_of_lookup in Hin as [j Hj]. pose proof (lookup_lt_Some _ _ _ Hj) as Hlt.
      rewrite length_fmap in Hlt. pose proof (Hat j Hlt) as Hj2. rewrite Hj in Hj2. injection Hj2 as Hc2.
      rewrite (xsum_single _ (fun j => if decide (_ = c) then _ else _) j Hlt); [by rewrite decide_True|].
      intros j' Hj' Hne. rewrite decide_False; [done|]. intros Heq. apply Hne.
      apply (NoDup_lookup _ _ _ c NoDup_blk_at); [by rewrite Hat, Heq|done].
    + apply xsum_zero. intros j Hj. rewrite decide_False; [done|]. intros Heq. apply Hin.
      apply list_elem_of_lookup. exists j. by rewrite Hat, Heq.
Qed.

Lemma update_data_region c : (c < ecK)%nat -> region bb (update_data data !!! c).
Proof.
  intros Hc. destruct (update_data_lookup c Hc) as (_ & Hup & Hno). destruct (data_region c Hc) as [Hl Hbytes].
  destruct (decide (c ∈ blk_at <$> blks)) as [Hin|Hin].
  - apply list_elem_of_fmap in Hin as (b & -> & Hin). rewrite (Hup b Hin eq_refl). destruct (fits b Hin) as (_ & F2 & _).
    split; [rewrite length_write_at, length_gene_radm_buff; lia|]. apply Forall_lookup. intros x v Hv.
    rewrite write_at_lookup in Hv. repeat case_decide.
    + pose proof (gene_radm_buff_bytes (size_bytes b)) as Hg. rewrite Forall_lookup in Hg. by eapply Hg.
    + injection Hv as <-. auto with cord.
    + rewrite Forall_lookup in Hbytes. by eapply Hbytes.
  - rewrite Hno; [done|]. intros b Hb Heq. apply Hin. rewrite <- Heq. by apply (list_elem_of_fmap_2 blk_at).
Qed.

Lemma length_update_data : length (update_data data) = ecK.
Proof.
  destruct (so_data Hok) as [<- _]. unfold update_data. generalize data.
  induction blks as [|b l IH]; intros d; [done|]. cbn [foldl]. rewrite IH. apply length_insert.
Qed.

Lemma update_data_regions : Forall (region bb) (update_data data).
Proof.
  apply Forall_lookup. intros c r Hr. pose proof (lookup_lt_Some _ _ _ Hr) as Hc. rewrite length_update_data in Hc.
  apply list_lookup_total_correct in Hr. rewrite <- Hr. by apply update_data_region.
Qed.

(** Parity xor delta is the parity of the updated data. *)
Lemma parity_moves i :
  (i < ecM)%nat -> zip_with Z.lxor (parity data i) (pdelta i) = parity (update_data data) i.
Proof.
  intros Hi. assert (Hp : forall d, length (parity d i) = bb) by (intros; apply length_lincomb).
  assert (Hd : length (pdelta i) = bb) by apply length_lincomb.
  apply list_eq_total; rewrite length_zip_with, !Hp, Hd; [lia|].
  intros x Hx. assert (Hxb : (x < bb)%nat) by lia. rewrite zip_with_lookup_total by (rewrite ?Hp, ?Hd; done).
  rewrite parity_delta_entry by done. unfold parity. rewrite !lincomb_lookup by done. cbv zeta.
  set (e := fun c => enc !!! (i * ecK + c)%nat).
  pose proof (sum_over_blocks (fun c => e c ⊗ Z.lxor ((data !!! c) !!! x) ((update_data data !!! c) !!! x))) as Hsum.
  cbv beta in Hsum. unfold e in Hsum at 1. rewrite Hsum, <- xsum_lxor. apply xsum_ext. intros c Hc.
  assert (He : is_byte (e c)) by apply lookup_total_byte, (so_enc Hok).
  assert (Hb1 : is_byte ((data !!! c) !!! x)) by (apply lookup_total_byte, data_region; done).
  assert (Hb2 : is_byte ((update_data data !!! c) !!! x)) by (apply lookup_total_byte, update_data_region; done).
  fold (e c). case_decide as Hin.
  - rewrite gmul_lxor_r by done. apply lxor_cancel_l.
  - rewrite Z.lxor_0_r. destruct (update_data_lookup c Hc) as (_ & _ & Hno). rewrite Hno; [done|].
    intros b Hb Heq. apply Hin. rewrite <- Heq. by apply (list_elem_of_fmap_2 blk_at).
Qed.

(** ** Subsets *)

Definition parity_diff (i : nat) : list Z := zip_with Z.lxor (parity data i) (parity (update_data data) i).

Lemma parity_diff_delta i : (i < ecM)%nat -> parity_diff i = pdelta i.
Proof.
  intros Hi. unfold parity_diff. rewrite <- (parity_moves i Hi).
  assert (Hp : length (parity data i) = bb) by apply length_lincomb.
  assert (Hd : length (pdelta i) = bb) by apply length_lincomb.
  apply list_eq_total; rewrite !length_zip_with, Hp, Hd; [lia|]. intros x Hx.
  rewrite !zip_with_lookup_total by (rewrite ?length_zip_with, ?Hp, ?Hd; lia). apply lxor_cancel_l.
Qed.

Lemma sol_ids : sol.*1 = seqZ 0 (Z.of_nat (length sol)).
Proof. apply split_sets_ids. Qed.

Lemma sol_lookup j : (j < length sol)%nat -> exists N, sol !! j = Some (Z.of_nat j, N) /\ (Z.of_nat j, N) ∈ sol.
Proof.
  intros Hj. destruct (lookup_lt_is_Some_2 sol j Hj) as [[i N] HN]. exists N.
  assert (Hi : (sol.*1) !! j = Some i) by by rewrite list_lookup_fmap, HN.
  rewrite sol_ids, lookup_seqZ in Hi. destruct Hi as [-> _]. change (0 + Z.of_nat j) with (Z.of_nat j) in HN.
  split; [done|]. by eapply list_elem_of_lookup_2.
Qed.

Lemma sol_member j N b : (j, N) ∈ sol -> b ∈ N <-> b ∈ blks /\ get_sub_set_id sol (_id b) = j.
Proof. apply subset_members; [apply blks_ok|apply (so_ids Hok)]. Qed.

Lemma sol_nonempty j N : (j, N) ∈ sol -> N <> [].
Proof.
  intros Hin. pose proof (split_sets_linked (length blks) 0 blks) as H. rewrite Forall_forall in H.
  specialize (H _ Hin). by destruct N as [|b N]; [destruct H|].
Qed.

Lemma sol_blk_ok j N : (j, N) ∈ sol -> Forall blk_ok N.
Proof.
  intros Hin. apply Forall_forall. intros b Hb. apply (sol_member j N b Hin) in Hb as [Hb _].
  pose proof blks_ok as H. rewrite Forall_forall in H. by apply H.
Qed.

(** The range the collector computes for a subset is its hull. *)
Lemma crd_range_hull j N :
  (j, N) ∈ sol -> crd_range cblks j = ((hull N).1, (hull N).2 - (hull N).1) /\
  0 <= (hull N).1 < (hull N).2 /\ (hull N).2 <= _blocksize conf.
Proof.
  intros Hin. destruct (hull_spec N (sol_nonempty j N Hin) (sol_blk_ok j N Hin)) as (H1 & (b1 & B1 & E1) & (b2 & B2 & E2)).
  assert (Hmem : forall c, c ∈ cblks /\ cb_set c = j <-> exists b, b ∈ N /\ c = crd_of b).
  { intros c. split.
    - intros [(b & -> & Hb)%list_elem_of_fmap Hj]. exists b. split; [|done]. by apply (sol_member j N b Hin).
    - intros (b & Hb & ->). apply (sol_member j N b Hin) in Hb as [Hb Hj].
      split; [by apply (list_elem_of_fmap_2 crd_of)|done]. }
  pose proof (crd_range_covers conf cblks data_delta (proj2 (so_blocksize Hok)) crd_of_range j) as Hc.
  destruct (crd_range cblks j) as [st n]. destruct Hc as (C1 & C2 & C3 & C4 & (c1 & D1 & D2 & D3) & (c2 & F1 & F2 & F3)).
  { exists (crd_of b1). apply Hmem. eauto. }
  destruct (proj1 (Hmem c1) (conj D1 D2)) as (d1 & Hd1 & ->), (proj1 (Hmem c2) (conj F1 F2)) as (d2 & Hd2 & ->).
  destruct (proj2 (Hmem (crd_of b1)) ltac:(eauto)) as [G1 G2]. destruct (proj2 (Hmem (crd_of b2)) ltac:(eauto)) as [G3 G4].
  specialize (C4 (crd_of b1) G1 G2) as X1. specialize (C4 (crd_of b2) G3 G4) as X2. clear C4.
  pose proof (H1 d1 Hd1). pose proof (H1 d2 Hd2). cbn [crd_of cb_off cb_size] in *.
  apply (sol_member j N b1 Hin) in B1 as [B1 _]. destruct (blk_in b1 B1) as (_ & _ & ? & _).
  pose proof (H1 b1) as Hb1. rewrite E1, E2 in *. split; [f_equal; lia|]. lia.
Qed.

(** ** The commands of the plan *)

Definition remaining (pc : Z) : list Z :=
  flat_map (fun i => if pc =? Z.of_nat (ecK + i) then [] else [Z.of_nat (ecK + i)]) (seq 0 ecM).
Definition announced : list (Z * Z) := (fun s => sub_set_range s.2) <$> sol.

Lemma plan_tasks pc ip task ops :
  (ip, (task, ops)) ∈ crd_plan conf enc pc blks ->
  (task = 6 /\ exists b, b ∈ blks /\ ip = _ip b /\ ops = [_id b; _offset_add b; _upd_size b; pc]) \/
  (task = 7 /\ ip = helper conf (Z.to_nat pc) /\
     ops = crd_words pc (Z.of_nat (length sol)) cblks (remaining pc)) \/
  (task = 8 /\ exists i, (i < ecM)%nat /\ Z.of_nat (ecK + i) <> pc /\ ip = helper conf (ecK + i) /\
     ops = forward_words (Z.of_nat (ecK + i)) announced).
Proof.
  unfold crd_plan. intros [Hin|[Hin|Hin]%elem_of_cons]%elem_of_app.
  - left. apply list_elem_of_In, in_flat_map in Hin as (b & Hb%list_elem_of_In & [[= <- <- <-]|[]]). eauto.
  - right. left. injection Hin as -> -> ->. split_and!; [done|done|]. unfold crd_words. rewrite length_fmap.
    by rewrite flat_map_fmap.
  - right. right. apply list_elem_of_In, in_flat_map in Hin as (i & Hi%in_seq & Hin).
    destruct (Z.eqb_spec (Z.of_nat (ecK + i)) pc); [by destruct Hin|]. destruct Hin as [[= <- <- <-]|[]].
    split; [done|]. exists i. split_and!; [lia|done|done|]. unfold forward_words, announced.
    rewrite length_fmap. cbn [app]. do 2 f_equal.
    apply (flat_map_numbered sol 0 sol_ids).
Qed.

(** ** The three roles *)

(** The command of the collector fits its array ([CrdUpdate_plan]). *)
Definition fits_array : Prop := (3 + length blks * (4 + ecM) + (ecM - 1) <= max_operands)%nat.

Definition data_msg (b : UpdBlock) : list Z :=
  le32 (_id b) ++ delta_of (data !!! blk_at b) (off_bytes b) (size_bytes b).
Definition slice_of (i : nat) (N : list UpdBlock) : list Z :=
  range_bytes ((hull N).1, (hull N).2 - (hull N).1) (parity_diff i).
Definition slice_of_set (i : nat) (s : Z * list UpdBlock) : list Z := le32 s.1 ++ slice_of i s.2.

(** What the collector at [i0] sends to the other parity nodes. *)
Definition collector_sends (i0 : nat) : list (Z * (queue * list Z)) :=
  flat_map (fun i => if decide (i = i0) then [] else
    (fun s => (helper conf (ecK + i), (QCrd, slice_of_set i s))) <$> sol) (seq 0 ecM).

Lemma max_size n o : 0 <= o -> 0 <= n -> o + n <= _blocksize conf -> (o + n) * 1024 <= INT_MAX.
Proof. intros. destruct (so_blocksize Hok). nia. Qed.

Lemma data_node_run i0 b nd :
  length cmd_junk = COMMAND_MAX_LENGTH -> (forall n, length (junk n) = n) -> (i0 < ecM)%nat -> b ∈ blks ->
  files nd !! _id b = Some (data !!! blk_at b) ->
  run (command 6 [_id b; _offset_add b; _upd_size b; Z.of_nat (ecK + i0)]) nd =
    Ok (mkNode (<[_id b := update_data data !!! blk_at b]> (files nd)) (raidData nd) (deltaData nd) (crdData nd)
          (outbox nd ++ [(helper conf (ecK + i0), (QCrd, data_msg b))])).
Proof.
  intros Hcmd Hjunk Hi Hb Hf. destruct (blk_in b Hb) as (H0 & H1 & H2 & H3). destruct (fits b Hb) as (F1 & F2 & F3).
  destruct (so_helpers Hok) as [[K1 K2] K3]. unfold is_s32, _ecM in *.
  rewrite (data_node_ok conf _locIP junk cmd_junk pointer Hjunk nd (_id b) (_offset_add b) (_upd_size b)
    (Z.of_nat (ecK + i0)) (data !!! blk_at b)); try done; unfold is_s32; try lia.
  - rewrite Nat2Z.id. destruct (update_data_lookup (blk_at b) F1) as (_ & Hu & _). by rewrite (Hu b Hb eq_refl).
  - apply max_size; lia.
  - rewrite F3. unfold block_bytes. lia.
Qed.

Lemma sets_used j : 0 <= j < Z.of_nat (length sol) -> exists c, c ∈ cblks /\ cb_set c = j.
Proof.
  intros Hj. destruct (sol_lookup (Z.to_nat j)) as (N & _ & Hin); [lia|]. rewrite Z2Nat.id in Hin by lia.
  destruct N as [|b M]; [by destruct (sol_nonempty j [] Hin)|]. exists (crd_of b).
  destruct (proj1 (sol_member j _ b Hin)) as [Hb Hs]; [left|]. split; [by apply (list_elem_of_fmap_2 crd_of)|done].
Qed.

Lemma forward_slices i :
  (i < ecM)%nat ->
  forward conf cblks data_delta i <$> seqZ 0 (Z.of_nat (length sol)) =
    (fun s => (helper conf (ecK + i), (QCrd, slice_of_set i s))) <$> sol.
Proof.
  intros Hi. rewrite <- sol_ids, <- list_fmap_compose. apply list_fmap_ext. intros x [j N] Hx. cbn [compose fst].
  unfold compose, forward, slice_of_set, slice_of. cbn [fst snd]. destruct (crd_range_hull j N) as [-> _];
    [by eapply list_elem_of_lookup_2|]. by rewrite parity_diff_delta.
Qed.

Lemma all_forwards i0 :
  flat_map (fun i => if decide (i = i0) then [] else
    forward conf cblks data_delta i <$> seqZ 0 (Z.of_nat (length sol))) (seq 0 ecM) = collector_sends i0.
Proof.
  unfold collector_sends. assert (H : Forall (fun i => i < ecM)%nat (seq 0 ecM)) by (apply Forall_seq; lia).
  induction H as [|i l Hi _ IH]; [done|]. cbn [flat_map]. rewrite IH. f_equal.
  case_decide; [done|]. by apply forward_slices.
Qed.

Lemma parity_region d i : length d = ecK -> Forall (region bb) d -> region bb (parity d i).
Proof.
  intros Hl Hd. apply lincomb_region; intros c Hc; [apply lookup_total_byte, (so_enc Hok)|].
  rewrite Forall_forall in Hd. apply Hd, list_elem_of_lookup_total_2. lia.
Qed.

Lemma remaining_ids i0 : (i0 < ecM)%nat ->
  Forall is_s32 (remaining (Z.of_nat (ecK + i0))) /\ length (remaining (Z.of_nat (ecK + i0))) = (ecM - 1)%nat.
Proof.
  intros Hi. destruct (so_helpers Hok) as [[K1 K2] K3]. unfold is_s32 in K3. unfold remaining. split.
  - apply Forall_forall. intros v Hv%list_elem_of_In. apply in_flat_map in Hv as (i & Hi2%in_seq & Hv).
    destruct (_ =? _); [by destruct Hv|]. destruct Hv as [<-|[]]. unfold is_s32, _ecM in *. lia.
  - assert (H : forall n, (n <= ecM)%nat -> length (flat_map (fun i => if Z.of_nat (ecK + i0) =? Z.of_nat (ecK + i) then []
        else [Z.of_nat (ecK + i)]) (seq 0 n)) = if decide (i0 < n)%nat then (n - 1)%nat else n).
    { induction n as [|n IH]; intros Hn; [by rewrite decide_False by lia|].
      rewrite seq_S, flat_map_app, length_app, IH by lia. cbn [flat_map Nat.add].
      destruct (Z.eqb_spec (Z.of_nat (ecK + i0)) (Z.of_nat (ecK + n))); cbn [app length]; repeat case_decide; lia. }
    rewrite H by done. by rewrite decide_True by done.
Qed.

Lemma crd_of_coff : fits_array ->
  forall c, c ∈ cblks -> is_s32 (cb_set c) /\ length (cb_coff c) = ecM /\ Forall is_byte (cb_coff c).
Proof.
  intros Hfit c (b & -> & Hb)%list_elem_of_fmap. cbn [crd_of cb_set cb_coff].
  pose proof (split_sets_length (length blks) 0 blks) as Hsl. fold sol in Hsl. unfold fits_array, max_operands in Hfit.
  split_and!; [|apply length_coffs|].
  - destruct (get_sub_set_id_in sol (_id b)) as (N & d & Hin & _); [by apply sub_set_id_found; [apply blks_ok|]|].
    apply (list_elem_of_fmap_2 fst) in Hin. cbn [fst] in Hin. rewrite sol_ids in Hin. apply elem_of_seqZ in Hin.
    unfold is_s32. lia.
  - apply Forall_lookup. intros i v Hv. pose proof (lookup_lt_Some _ _ _ Hv) as Hlt. rewrite length_coffs in Hlt.
    apply list_lookup_total_correct in Hv. rewrite <- Hv. by apply coff_byte.
Qed.

Lemma collector_words_fit i0 : (i0 < ecM)%nat -> fits_array ->
  (length (crd_words (Z.of_nat (ecK + i0)) (Z.of_nat (length sol)) cblks (remaining (Z.of_nat (ecK + i0)))) <= max_operands)%nat.
Proof.
  intros Hi Hfit. destruct (remaining_ids i0 Hi) as [_ Hlr]. unfold crd_words, fits_array, max_operands in *.
  rewrite !length_app, Hlr. cbn [length]. rewrite flat_map_fmap, (length_flat_map_const _ _ (4 + ecM)); [lia|].
  intros b. cbn [crd_of cb_coff length app]. by rewrite length_coffs.
Qed.

(** The numbers of the collector's command fit an [int]. *)
Lemma collector_words_s32 i0 : (i0 < ecM)%nat -> fits_array ->
  is_s32 (Z.of_nat (length sol)) /\ is_s32 (Z.of_nat (ecK + i0)).
Proof.
  intros Hi Hfit. pose proof (split_sets_length (length blks) 0 blks) as Hsl. fold sol in Hsl.
  destruct (so_helpers Hok) as [[K1 K2] K3]. unfold fits_array, max_operands, is_s32, _ecM in *. nia.
Qed.

Lemma collector_node_run i0 nd rs tl :
  length cmd_junk = COMMAND_MAX_LENGTH -> (forall n, length (junk n) = n) -> (i0 < ecM)%nat -> fits_array ->
  arrives rs (data_msg <$> blks) -> crdData nd = rs ++ tl ->
  files nd !! Z.of_nat (ecK + i0) = Some (parity data i0) ->
  run (command 7 (crd_words (Z.of_nat (ecK + i0)) (Z.of_nat (length sol)) cblks (remaining (Z.of_nat (ecK + i0))))) nd =
    Ok (mkNode (<[Z.of_nat (ecK + i0) := parity (update_data data) i0]> (files nd)) (raidData nd) (deltaData nd) tl
          ((outbox nd ++ collector_sends i0) ++ [(_coordinatorIP conf, (QAck, [49]))])).
Proof.
  intros Hcmd Hjunk Hi Hfit Harr Hcrd Hf. destruct (so_helpers Hok) as [[K1 K2] K3]. unfold is_s32 in K3.
  destruct (remaining_ids i0 Hi) as [Hr Hlr]. destruct (so_blocksize Hok) as [Hbs1 Hbs2].
  pose proof (split_sets_length (length blks) 0 blks) as Hsl. fold sol in Hsl. unfold fits_array, max_operands in Hfit.
  pose proof (crd_of_coff Hfit) as Hcoff. pose proof (collector_words_fit i0 Hi Hfit) as Hwords.
  assert (Hnd : NoDup (cb_id <$> cblks)) by (rewrite <- list_fmap_compose; apply (so_ids Hok)).
  assert (Hmsgs : delta_msg data_delta <$> cblks = data_msg <$> blks) by by rewrite <- list_fmap_compose.
  rewrite (collector_run conf _locIP junk cmd_junk pointer Hjunk cblks data_delta Hnd Hbs2 crd_of_range i0
    (Z.of_nat (length sol)) (remaining (Z.of_nat (ecK + i0))) (parity data i0) Hi ltac:(lia) ltac:(lia) sets_used Hcoff
    nd rs tl); try done.
  - unfold parities_done, send_ack, push. cbn [files raidData deltaData crdData outbox].
    by rewrite decide_True, all_forwards, parity_moves by done.
  - unfold is_s32. nia.
  - unfold is_s32, _ecM in *. lia.
  - by rewrite Hmsgs.
  - by apply parity_region; apply (so_data Hok).
Qed.

(** The collector's command does not end before all the deltas have come. *)
Lemma collector_node_needs i0 nd nd' :
  length cmd_junk = COMMAND_MAX_LENGTH -> (i0 < ecM)%nat -> fits_array ->
  run (command 7 (crd_words (Z.of_nat (ecK + i0)) (Z.of_nat (length sol)) cblks (remaining (Z.of_nat (ecK + i0))))) nd = Ok nd' ->
  (length blks <= length (datas (crdData nd)))%nat.
Proof.
  intros Hcmd Hi Hfit Hrun. destruct (remaining_ids i0 Hi) as [Hr Hlr]. destruct (collector_words_s32 i0 Hi Hfit) as [Hs1 Hs2].
  rewrite <- (length_fmap crd_of blks). destruct (so_blocksize Hok) as [_ Hbs].
  apply (collector_needs conf _locIP junk cmd_junk pointer cblks data_delta) in Hrun; try done.
  - rewrite <- list_fmap_compose. apply (so_ids Hok).
  - apply crd_of_range.
  - apply (so_helpers Hok).
  - apply sets_used.
  - by apply crd_of_coff.
  - by apply collector_words_fit.
Qed.

(** ** The other parity nodes *)

(** Byte [x] of the block is in a range announced for a subset. *)
Definition in_range (r : Z * Z) (x : nat) : bool := (r.1 * 1024 <=? Z.of_nat x) && (Z.of_nat x <? (r.1 + r.2) * 1024).
Definition is_announced (x : nat) : bool := existsb (fun r => in_range r x) announced.

Lemma announced_lookup j N :
  sol !! j = Some (Z.of_nat j, N) -> announced !!! j = ((hull N).1, (sub_set_range N).2) /\
  announced !! j = Some ((hull N).1, (sub_set_range N).2) /\
  0 <= (sub_set_range N).2 <= (hull N).2 - (hull N).1.
Proof.
  intros HN. assert (Hin : (Z.of_nat j, N) ∈ sol) by by eapply list_elem_of_lookup_2.
  pose proof (sub_set_range_hull N) as [H1 H2]. specialize (H2 (sol_nonempty _ N Hin) (sol_blk_ok _ N Hin)).
  assert (Ha : announced !! j = Some (sub_set_range N)) by (transitivity ((fun s => sub_set_range s.2) <$> (sol !! j));
    [apply list_lookup_fmap|by rewrite HN]).
  pose proof (sub_set_range_size N (sol_nonempty _ N Hin)) as H3. destruct (sub_set_range N) as [o u]. cbn [fst snd] in *.
  subst o. split_and!; [by apply list_lookup_total_correct|done| |lia]. apply H3.
  apply (Forall_impl _ _ _ (sol_blk_ok _ N Hin)). intros b (? & ? & ?). done.
Qed.

Lemma length_announced : length announced = length sol.
Proof. apply length_fmap. Qed.

Lemma length_parity_diff i : length (parity_diff i) = bb.
Proof. unfold parity_diff, parity. rewrite length_zip_with, !length_lincomb. lia. Qed.

Lemma slice_of_lookup i j N y :
  (j, N) ∈ sol -> (y < Z.to_nat (((hull N).2 - (hull N).1) * 1024))%nat ->
  length (slice_of i N) = Z.to_nat (((hull N).2 - (hull N).1) * 1024) /\
  slice_of i N !!! y = parity_diff i !!! (Z.to_nat ((hull N).1 * 1024) + y)%nat.
Proof.
  intros Hin Hy. destruct (crd_range_hull j N Hin) as (_ & H1 & H2). unfold slice_of, range_bytes. cbn [fst snd]. split.
  - rewrite length_take, length_drop, length_parity_diff. unfold block_bytes. lia.
  - by rewrite !list_lookup_total_alt, lookup_take_lt, lookup_drop by done.
Qed.

(** The slice of one subset, cut at its announced size, at its place. *)
Lemma slice_placed i j N x :
  sol !! j = Some (Z.of_nat j, N) -> (x < bb)%nat ->
  let r := announced !!! j in
  placed (Z.to_nat (r.1 * 1024)) (take (Z.to_nat (r.2 * 1024)) (slice_of i N)) x =
    if in_range r x then parity_diff i !!! x else 0.
Proof.
  intros HN Hx r. assert (Hin : (Z.of_nat j, N) ∈ sol) by by eapply list_elem_of_lookup_2.
  destruct (announced_lookup j N HN) as (Hr & _ & Hu). destruct (crd_range_hull _ N Hin) as (_ & H1 & H2).
  unfold r. rewrite Hr. cbn [fst snd]. unfold placed, in_range. cbn [fst snd].
  assert (Hl : length (slice_of i N) = Z.to_nat (((hull N).2 - (hull N).1) * 1024))
    by (apply (slice_of_lookup i _ N 0 Hin); lia).
  rewrite length_take, Hl, Nat.min_l by lia.
  destruct (Z.leb_spec ((hull N).1 * 1024) (Z.of_nat x)) as [Hlo|Hlo]; [|by rewrite decide_False by lia].
  destruct (Z.ltb_spec (Z.of_nat x) (((hull N).1 + (sub_set_range N).2) * 1024)) as [Hhi|Hhi];
    [|by rewrite decide_False by lia].
  cbn [andb]. rewrite decide_True by lia.
  rewrite list_lookup_total_alt, lookup_take_lt, <- list_lookup_total_alt by lia.
  destruct (slice_of_lookup i _ N (x - Z.to_nat ((hull N).1 * 1024)) Hin) as [_ ->]; [lia|]. f_equal. lia.
Qed.

(** Different subsets announce disjoint ranges. *)
Lemma announced_disjoint j k x :
  (j < length sol)%nat -> (k < length sol)%nat -> in_range (announced !!! j) x = true ->
  in_range (announced !!! k) x = true -> j = k.
Proof.
  intros Hj Hk Hjx Hkx. destruct (decide (j = k)) as [|Hne]; [done|]. exfalso.
  assert (H : forall a b, (a < b)%nat -> (b < length sol)%nat -> in_range (announced !!! a) x = true ->
    in_range (announced !!! b) x = true -> False).
  { intros a b Hab Hb Ha Hbx. destruct (sol_lookup a) as (N & HN & _); [lia|]. destruct (sol_lookup b Hb) as (M & HM & _).
    destruct (announced_lookup a N HN) as (Ea & _ & Ua), (announced_lookup b M HM) as (Eb & _ & Ub).
    rewrite Ea in Ha. rewrite Eb in Hbx. unfold in_range in Ha, Hbx. cbn [fst snd] in Ha, Hbx.
    pose proof (split_sets_apart (length blks) 0 blks blks_ok) as Hap. fold sol in Hap.
    pose proof (ForallOrdPairs_lookup _ _ a b _ _ Hap HN HM Hab) as [Hx|Hx]; cbn [fst snd] in Hx; lia. }
  destruct (decide (j < k)%nat); [by apply (H j k)|apply (H k j); (done || lia)].
Qed.

(** What the parity node [i] stores: the new parity on the announced ranges,
    the old one elsewhere. *)
Definition forwarded (i : nat) : list Z :=
  (fun x => if is_announced x then parity (update_data data) i !!! x else parity data i !!! x) <$> seq 0 bb.

Lemma slices_sum i x :
  (x < bb)%nat ->
  xsum (length announced) (fun j => placed (Z.to_nat ((announced !!! j).1 * 1024))
      (take (Z.to_nat ((announced !!! j).2 * 1024)) (slice_of i (sol !!! j).2)) x) =
    if is_announced x then parity_diff i !!! x else 0.
Proof.
  intros Hx. rewrite (xsum_ext _ _ (fun j => if in_range (announced !!! j) x then parity_diff i !!! x else 0)).
  2:{ intros j Hj. rewrite length_announced in Hj. destruct (sol_lookup j Hj) as (N & HN & _).
      rewrite (list_lookup_total_correct _ _ _ HN). by apply slice_placed. }
  unfold is_announced. destruct (existsb _ announced) eqn:E.
  - apply existsb_exists in E as (r & [j Hj]%list_elem_of_In%list_elem_of_lookup & Hr).
    pose proof (lookup_lt_Some _ _ _ Hj) as Hlt. apply list_lookup_total_correct in Hj.
    rewrite (xsum_single _ (fun j => if in_range (announced !!! j) x then _ else _) j Hlt); [by rewrite Hj, Hr|].
    intros k Hk Hne. destruct (in_range (announced !!! k) x) eqn:Hkx; [|done]. exfalso. apply Hne.
    rewrite length_announced in Hk, Hlt. eapply (announced_disjoint k j x); [done|done|done|by rewrite Hj].
  - apply xsum_zero. intros j Hj. destruct (in_range (announced !!! j) x) eqn:Hkx; [|done]. exfalso.
    apply not_true_iff_false in E. apply E, existsb_exists. exists (announced !!! j). split; [|done].
    apply list_elem_of_In. by apply list_elem_of_lookup_total_2.
Qed.

Abbreviation slices i := (fun j => slice_of i (sol !!! j).2).

Lemma patched_forwarded i :
  (i < ecM)%nat ->
  (forall j o s, announced !! j = Some (o, s) -> 0 <= o /\ 0 <= s /\ o + s <= _blocksize conf /\
     (Z.to_nat (s * 1024) <= length (slices i j))%nat /\ Forall is_byte (slices i j)) ->
  patched conf announced (slices i) (parity data i) = forwarded i.
Proof.
  intros Hi Hrg. assert (Hl : length (patched conf announced (slices i) (parity data i)) = bb) by apply length_aggregate.
  apply list_eq_total; [rewrite Hl; unfold forwarded; by rewrite length_fmap, length_seq|].
  rewrite Hl. intros x Hx.
  unfold forwarded. rewrite fmap_seq_lookup_total by done.
  rewrite (patched_lookup conf announced (slices i) Hrg) by done.
  rewrite slices_sum by done. destruct (is_announced x); [|apply Z.lxor_0_l].
  unfold parity_diff. rewrite zip_with_lookup_total by (unfold parity; by rewrite length_lincomb).
  by rewrite Z.lxor_comm, lxor_cancel_l.
Qed.

Lemma slices_ok i :
  (i < ecM)%nat -> forall j o s, announced !! j = Some (o, s) -> 0 <= o /\ 0 <= s /\ o + s <= _blocksize conf /\
    (Z.to_nat (s * 1024) <= length (slices i j))%nat /\ Forall is_byte (slices i j).
Proof.
  intros Hi j o s Hj. pose proof (lookup_lt_Some _ _ _ Hj) as Hlt. rewrite length_announced in Hlt.
  destruct (sol_lookup j Hlt) as (N & HN & Hin). destruct (announced_lookup j N HN) as (_ & Ha & Hu).
  rewrite Hj in Ha. injection Ha as -> ->. destruct (crd_range_hull _ N Hin) as (_ & H1 & H2).
  rewrite (list_lookup_total_correct _ _ _ HN). cbn [snd].
  destruct (slice_of_lookup i _ N 0 Hin) as [Hl _]; [lia|]. rewrite Hl. split_and!; [lia|lia|lia|lia|].
  unfold slice_of, range_bytes. apply Forall_take, Forall_drop. destruct (so_data Hok) as [Hd1 Hd2].
  apply zip_xor_bytes; apply parity_region; try done; [apply length_update_data|apply update_data_regions].
Qed.

Lemma forward_words_fit i :
  fits_array -> (length (forward_words (Z.of_nat (ecK + i)) announced) <= max_operands)%nat.
Proof.
  intros Hfit. pose proof (split_sets_length (length blks) 0 blks) as Hsl. fold sol in Hsl.
  unfold forward_words. cbn [length]. rewrite length_forward_triples, length_announced.
  unfold fits_array, max_operands in *. nia.
Qed.

(** Nor does the command of another parity node, before all the slices have come. *)
Lemma forwarded_needs i nd nd' :
  length cmd_junk = COMMAND_MAX_LENGTH -> (i < ecM)%nat -> fits_array ->
  run (command 8 (forward_words (Z.of_nat (ecK + i)) announced)) nd = Ok nd' ->
  (length sol <= length (datas (crdData nd)))%nat.
Proof.
  intros Hcmd Hi Hfit Hrun. rewrite <- length_announced. destruct (so_helpers Hok) as [[K1 K2] K3].
  destruct (so_blocksize Hok) as [_ Hbs]. pose proof (slices_ok i Hi) as Hrg.
  apply (parity_node_needs conf _locIP junk cmd_junk pointer announced (slices i) Hbs) in Hrun; try done.
  - unfold is_s32, _ecM in *. lia.
  - by apply forward_words_fit.
Qed.

Lemma forwarded_run i nd rs tl :
  length cmd_junk = COMMAND_MAX_LENGTH -> (forall n, length (junk n) = n) -> (i < ecM)%nat -> fits_array -> blks <> [] ->
  arrives rs (slice_of_set i <$> sol) -> crdData nd = rs ++ tl ->
  files nd !! Z.of_nat (ecK + i) = Some (parity data i) ->
  run (command 8 (forward_words (Z.of_nat (ecK + i)) announced)) nd =
    Ok (mkNode (<[Z.of_nat (ecK + i) := forwarded i]> (files nd)) (raidData nd) (deltaData nd) tl
          (outbox nd ++ [(_coordinatorIP conf, (QAck, [49]))])).
Proof.
  intros Hcmd Hjunk Hi Hfit Hne Harr Hcrd Hf. destruct (so_helpers Hok) as [[K1 K2] K3]. unfold is_s32 in K3.
  pose proof (slices_ok i Hi) as Hrg. destruct (so_blocksize Hok) as [Hbs1 Hbs2].
  pose proof (split_sets_length (length blks) 0 blks) as Hsl. fold sol in Hsl.
  pose proof (forward_words_fit i Hfit) as Hlen.
  assert (Hmsgs : slice_msg (slices i) <$> seq 0 (length announced) = slice_of_set i <$> sol).
  { rewrite length_announced. apply list_eq_same_length with (length sol);
      [by rewrite length_fmap|by rewrite length_fmap, length_seq|]. intros j m1 m2 Hj H1 H2.
    destruct (sol_lookup j Hj) as (N & HN & _). rewrite list_lookup_fmap, lookup_seq_lt in H1 by done.
    injection H1 as <-. apply (list_lookup_fmap_Some (slice_of_set i)) in H2 as (s & -> & Hs).
    injection (eq_trans (eq_sym Hs) HN) as ->.
    unfold slice_msg, slice_of_set. by rewrite (list_lookup_total_correct _ _ _ HN). }
  rewrite (parity_node_run conf _locIP junk cmd_junk pointer Hjunk announced (slices i) Hbs2 Hrg nd
    (Z.of_nat (ecK + i)) rs tl (parity data i)); try done.
  - by rewrite (patched_forwarded i Hi Hrg).
  - unfold is_s32, _ecM in *. lia.
  - intros E. apply (f_equal length) in E. rewrite length_announced in E. unfold sol in E. revert E. destruct blks; [done|].
    unfold get_upd_solu_crd. cbn. by destruct (grow _ _ _).
  - by rewrite Hmsgs.
  - apply parity_region; apply (so_data Hok).
Qed.

(** Where no updated range reaches, the parity keeps its value. *)
Lemma parity_unchanged i x :
  (i < ecM)%nat -> (x < bb)%nat -> (forall b, b ∈ blks -> ~ (off_bytes b <= x < off_bytes b + size_bytes b)%nat) ->
  parity (update_data data) i !!! x = parity data i !!! x.
Proof.
  intros Hi Hx Hout. unfold parity. rewrite !lincomb_lookup by done. apply xsum_ext. intros c Hc. f_equal.
  destruct (update_data_lookup c Hc) as (_ & Hup & Hno).
  destruct (decide (c ∈ blk_at <$> blks)) as [Hin|Hin].
  - apply list_elem_of_fmap in Hin as (b & -> & Hb). rewrite (Hup b Hb eq_refl). destruct (fits b Hb) as (_ & _ & F3).
    rewrite (list_lookup_total_alt (write_at _ _ _)), write_at_lookup, length_gene_radm_buff, F3.
    rewrite decide_False by (by apply Hout). rewrite decide_False by lia. by rewrite <- list_lookup_total_alt.
  - rewrite Hno; [done|]. intros b Hb Heq. apply Hin. rewrite <- Heq. by apply (list_elem_of_fmap_2 blk_at).
Qed.

(** With exact announcements the parity nodes store the new parity. *)
Lemma forwarded_exact i :
  (i < ecM)%nat -> (forall s, s ∈ sol -> (sub_set_range s.2).2 = (hull s.2).2 - (hull s.2).1) ->
  forwarded i = parity (update_data data) i.
Proof.
  intros Hi Hexact. assert (Hp : forall d, length (parity d i) = bb) by (intros; apply length_lincomb).
  apply list_eq_total; [rewrite Hp; unfold forwarded; by rewrite length_fmap, length_seq|].
  unfold forwarded at 1. rewrite length_fmap, length_seq. intros x Hx. unfold forwarded.
  rewrite fmap_seq_lookup_total by done. destruct (is_announced x) eqn:E; [done|]. symmetry.
  apply parity_unchanged; [done|done|]. intros b Hb Hbx. apply not_true_iff_false in E. apply E.
  destruct (get_sub_set_id_in sol (_id b)) as (N & d & Hin & _); [by apply sub_set_id_found; [apply blks_ok|]|].
  assert (HbN : b ∈ N) by (by apply (sol_member _ N b Hin)).
  destruct (hull_spec N (sol_nonempty _ N Hin) (sol_blk_ok _ N Hin)) as (Hcov & _). specialize (Hcov b HbN).
  apply existsb_exists. exists (sub_set_range N). split.
  - apply list_elem_of_In, list_elem_of_fmap. by exists (get_sub_set_id sol (_id b), N).
  - specialize (Hexact _ Hin). cbn [snd] in Hexact. destruct (sub_set_range_hull N) as [Hs _]. destruct (blk_in b Hb).
    unfold in_range, off_bytes, size_bytes in *. lia.
Qed.

(** A data node that gets its command of the crd plan (task 6) overwrites
    exactly its announced range with the new bytes, so its block becomes that
    block of the updated data, and pushes its id and the xor of the old and the
    new bytes to the parity collector, and nothing else. *)
Theorem crd_data_node_updates i0 ip ops :
  length cmd_junk = COMMAND_MAX_LENGTH -> (forall n, length (junk n) = n) -> (i0 < ecM)%nat ->
  (ip, (6, ops)) ∈ crd_plan conf enc (Z.of_nat (ecK + i0)) blks ->
  exists b, b ∈ blks /\ ip = _ip b /\ forall nd,
    files nd !! _id b = Some (data !!! blk_at b) ->
    run (command 6 ops) nd =
      Ok (mkNode (<[_id b := update_data data !!! blk_at b]> (files nd)) (raidData nd) (deltaData nd) (crdData nd)
            (outbox nd ++ [(helper conf (ecK + i0), (QCrd, data_msg b))])).
Proof.
  intros Hcmd Hjunk Hi [(_ & b & Hb & -> & ->)|[[? _]|[? _]]]%plan_tasks; [|done..].
  exists b. split_and!; [done|done|]. intros nd Hf. by apply data_node_run.
Qed.

(** A parity collector whose block is the parity of the old data runs its
    command of the crd plan (task 7) on the messages of the data nodes, in
    whatever order they come and among timeouts, to the end; its block is then
    the parity of the updated data, every other parity node was sent, for every
    subset, the slice over the subset's range of the change its parity must
    make, and the coordinator one acknowledgement. *)
Theorem crd_collector_keeps_parity i0 ip ops nd rs tl :
  length cmd_junk = COMMAND_MAX_LENGTH -> (forall n, length (junk n) = n) -> (i0 < ecM)%nat -> fits_array ->
  (ip, (7, ops)) ∈ crd_plan conf enc (Z.of_nat (ecK + i0)) blks ->
  arrives rs (data_msg <$> blks) -> crdData nd = rs ++ tl ->
  files nd !! Z.of_nat (ecK + i0) = Some (parity data i0) ->
  ip = helper conf (ecK + i0) /\
  run (command 7 ops) nd =
    Ok (mkNode (<[Z.of_nat (ecK + i0) := parity (update_data data) i0]> (files nd)) (raidData nd) (deltaData nd) tl
          ((outbox nd ++ collector_sends i0) ++ [(_coordinatorIP conf, (QAck, [49]))])).
Proof.
  intros Hcmd Hjunk Hi Hfit [[? _]|[(_ & -> & ->)|[? _]]]%plan_tasks Harr Hcrd Hf; [done| |done].
  split; [by rewrite Nat2Z.id|by apply (collector_node_run i0 nd rs tl)].
Qed.

(** Another parity node whose block is the parity of the old data, run on
    its command of the crd plan (task 8) and the collector's slices in any
    order, ends with the parity of the updated data on the announced ranges
    and the old parity elsewhere.  It is the parity of the updated data when
    every subset is announced with its whole range; a subset announced short
    (see [sub_set_range_short]) leaves stale bytes. *)
Theorem crd_parity_node_forwarded i0 ip ops :
  length cmd_junk = COMMAND_MAX_LENGTH -> (forall n, length (junk n) = n) -> fits_array -> blks <> [] ->
  (ip, (8, ops)) ∈ crd_plan conf enc (Z.of_nat (ecK + i0)) blks ->
  exists i, (i < ecM)%nat /\ i <> i0 /\ ip = helper conf (ecK + i) /\ (forall nd rs tl,
    arrives rs (slice_of_set i <$> sol) -> crdData nd = rs ++ tl ->
    files nd !! Z.of_nat (ecK + i) = Some (parity data i) ->
    run (command 8 ops) nd =
      Ok (mkNode (<[Z.of_nat (ecK + i) := forwarded i]> (files nd)) (raidData nd) (deltaData nd) tl
            (outbox nd ++ [(_coordinatorIP conf, (QAck, [49]))]))) /\
  ((forall s, s ∈ sol -> (sub_set_range s.2).2 = (hull s.2).2 - (hull s.2).1) ->
    forwarded i = parity (update_data data) i).
Proof.
  intros Hcmd Hjunk Hfit Hne [[? _]|[[? _]|(_ & i & Hi & Hpc & -> & ->)]]%plan_tasks; [done|done|].
  exists i. split_and!; [done|intros ->; done|done| |by apply forwarded_exact].
  intros nd rs tl Harr Hcrd Hf. by apply (forwarded_run i nd rs tl).
Qed.
End stripe.

(** ** Witnesses: a (4, 2) stripe of 2 KB blocks of zeros, both updated *)

Definition ex2_conf : Config :=
  mkConfig 2 4 1024 0 32 [11; 12; 13; 14] 10 11 true false [] 4 [] 2 [].
Definition ex2_blks : list UpdBlock := [mkUpdBlock 0 11 0 2; mkUpdBlock 1 12 0 1].
Definition ex2_data : list (list Z) := [zeros 2048; zeros 2048].

Lemma ex2_ok : stripe_ok ex2_conf ex_enc ex2_blks ex2_data.
Proof.
  split; decided.
Qed.

Lemma ex2_data_msgs :
  arrives (RNil :: (RData <$> (data_msg ex2_data <$> ex2_blks))) (data_msg ex2_data <$> ex2_blks).
Proof. split; [done|]. by exists [RNil; RData (data_msg ex2_data (mkUpdBlock 0 11 0 2))], (data_msg ex2_data (mkUpdBlock 1 12 0 1)). Qed.

Definition ex2_junk : list Z := zeros 1024.
Abbreviation ex2_run := (run_command ex2_conf 11 zeros ex2_junk []).

Lemma crd_data_node_updates_witness :
  exists nd', ex2_run (command 6 [0; 0; 2; 3]) (mkNode {[ 0 := zeros 2048 ]} [] [] [] []) = Ok nd' /\
    files nd' !! 0 = Some (update_data ex2_blks ex2_data !!! 0%nat).
Proof.
  destruct (crd_data_node_updates ex2_conf 11 zeros ex2_junk [] ex_enc ex2_blks ex2_data ex2_ok 1 11 [0; 0; 2; 3])
    as (b & Hb & Hip & Hrun); [reflexivity|intros n; apply length_replicate|decided|decided|].
  apply elem_of_cons in Hb as [->|Hb]; [|apply list_elem_of_singleton in Hb; subst b; discriminate].
  eexists. split; [apply Hrun; reflexivity|apply lookup_insert_eq].
Defined.

Lemma crd_collector_keeps_parity_witness :
  let rs := RNil :: (RData <$> (data_msg ex2_data <$> ex2_blks)) in
  exists nd', ex2_run (command 7 [3; 2; 1; 0; 0; 0; 2; 1; 1; 1; 0; 0; 1; 1; 217; 2])
      (mkNode {[ 3 := parity ex2_conf ex_enc ex2_data 1 ]} [] [] rs []) = Ok nd' /\
    files nd' !! 3 = Some (parity ex2_conf ex_enc (update_data ex2_blks ex2_data) 1).
Proof.
  intros rs. eexists. split.
  - apply (crd_collector_keeps_parity ex2_conf 11 zeros ex2_junk [] ex_enc ex2_blks ex2_data ex2_ok 1 14
      [3; 2; 1; 0; 0; 0; 2; 1; 1; 1; 0; 0; 1; 1; 217; 2] (mkNode {[ 3 := parity ex2_conf ex_enc ex2_data 1 ]} [] [] rs []) rs []);
      [reflexivity|intros n; apply length_replicate|decided|vm_compute; lia|decided|apply ex2_data_msgs| |reflexivity].
    cbn [crdData]. by rewrite app_nil_r.
  - apply lookup_insert_eq.
Defined.

(** The subset of the two blocks is announced with 1 KB instead of 2: the
    second KB of parity 2 keeps its old bytes. *)
Lemma crd_parity_node_forwarded_witness :
  let rs := RData <$> (slice_of_set ex2_conf ex_enc ex2_blks ex2_data 0 <$> get_upd_solu_crd ex2_blks) in
  exists nd', ex2_run (command 8 [2; 1; 0; 0; 1])
      (mkNode {[ 2 := parity ex2_conf ex_enc ex2_data 0 ]} [] [] rs []) = Ok nd' /\
    files nd' !! 2 = Some (forwarded ex2_conf ex_enc ex2_blks ex2_data 0) /\
    forwarded ex2_conf ex_enc ex2_blks ex2_data 0 !!! 1024%nat = 0 /\
    parity ex2_conf ex_enc (update_data ex2_blks ex2_data) 0 !!! 1024%nat <> 0.
Proof.
  intros rs.
  destruct (crd_parity_node_forwarded ex2_conf 11 zeros ex2_junk [] ex_enc ex2_blks ex2_data ex2_ok 1 13 [2; 1; 0; 0; 1])
    as (i & Hi & Hne & Hip & Hrun & _); [reflexivity|intros n; apply length_replicate|vm_compute; lia|discriminate|decided|].
  assert (i = 0%nat) as -> by (unfold _ecM in Hi; simpl in Hi; lia).
  eexists. split_and!.
  - apply (Hrun (mkNode {[ 2 := parity ex2_conf ex_enc ex2_data 0 ]} [] [] rs []) rs []).
    + split; [reflexivity|]. by exists [], (slice_of_set ex2_conf ex_enc ex2_blks ex2_data 0 (0, ex2_blks)).
    + cbn [crdData]. by rewrite app_nil_r.
    + reflexivity.
  - apply lookup_insert_eq.
  - unfold forwarded. rewrite fmap_seq_lookup_total by (vm_compute; lia).
    replace (is_announced ex2_blks 1024) with false by reflexivity. vm_compute. reflexivity.
  - vm_compute. discriminate.
Defined.
