(* ===== verification/RaidDelta.v ===== *)
(** * The raid and delta policies on the nodes

    The handlers of UPNode.cc for the tasks 1 and 3 (raid) and 4 (delta), run
    on the commands of the coordinator. *)
From S2P Require Import Prelude Command Text Config Galois GF256 Jerasure Gauss Encode UpdPlan UPCoordinator Disk UPNode UPCrd.

Section raid_delta.
Context `{GF : GFComplete} `{DIO : DiskIO} `{DL : !DiskLaws}.
Context (conf : Config) (_locIP : Z) (junk : nat -> list Z) (cmd_junk pointer : list Z).
Context (Hjunk : forall n, length (junk n) = n).

Abbreviation ecK := (_ecK conf).
Abbreviation ecM := (_ecM conf).
Abbreviation bb := (block_bytes conf).

(** A node runs one command of the coordinator. *)
Definition obey (task : Z) (vs : list Z) (nd : node) : res node :=
  run_command conf _locIP junk cmd_junk pointer (command task vs) nd.

Lemma block_words : 0 <= _blocksize conf -> (bb mod 8 = 0)%nat.
Proof.
  intros H. unfold block_bytes. replace (_blocksize conf * 1024) with ((_blocksize conf * 128) * 8) by lia.
  rewrite Z2Nat.inj_mul by lia. apply Nat.Div0.mod_mul.
Qed.

(** A raid data node (task 1) rewrites its whole block with the new bytes
    and pushes its id and the xor of the old and the new block to the
    collector the command names. *)
Theorem raid_data_node nd id collector f :
  length cmd_junk = COMMAND_MAX_LENGTH -> is_s32 id -> is_s32 (Z.of_nat collector) ->
  (collector < length (_helpersIPs conf))%nat -> 0 < _blocksize conf ->
  files nd !! id = Some f -> (bb <= length f)%nat ->
  obey 1 [id; Z.of_nat collector] nd =
    Ok (mkNode (<[id := write_at f 0 (gene_radm_buff bb)]> (files nd)) (raidData nd) (deltaData nd) (crdData nd)
          (outbox nd ++ [(helper conf collector, (QRaid, le32 id ++ delta_of f 0 bb))])).
Proof.
  intros Hcmd Hid Hc Hcl Hbs Hf Hl.
  unfold obey. destruct (run_command_dispatch conf _locIP junk cmd_junk pointer 1 [id; Z.of_nat collector] nd) as [tl ->];
    [done|unfold is_s32; lia|unfold max_operands; simpl; lia|].
  unfold dispatch. cbn [Z.eqb Pos.eqb]. unfold send_data_to_collector_for_raid.
  pose proof (at_cur_command 1 [id; Z.of_nat collector] tl) as Hat.
  destruct (get_at_cur _ _ _ _ Hat Hid) as [-> Hat1]. rewrite bind_ok.
  destruct (get_at_cur _ _ _ _ Hat1 Hc) as [-> _]. rewrite bind_ok.
  rewrite parsed_ok by (simpl; lia). rewrite bind_ok, (read_blk_ok junk Hjunk nd id f) by done. rewrite bind_ok.
  assert (Hd : compute_delta (junk bb) (take bb (drop 0 f)) (gene_radm_buff bb) bb = delta_of f 0 bb).
  { apply compute_delta_xor; [apply block_words; lia| |apply length_gene_radm_buff|apply Hjunk].
    rewrite length_take, length_drop. lia. }
  rewrite Hd, push_to_ok, bind_ok by done. unfold push. cbn [files raidData deltaData crdData outbox].
  erewrite write_blk_ok; [reflexivity|exact Hf|apply length_gene_radm_buff|unfold block_bytes; lia].
Qed.

(** A raid parity node (task 3) waits for one message and stores it as the
    first bytes of its block, whatever the block held: the result does not
    depend on the old parity. *)
Theorem raid_parity_overwrites nd id d rs tl f :
  length cmd_junk = COMMAND_MAX_LENGTH -> is_s32 id -> 0 < _blocksize conf ->
  arrives rs [d] -> (bb <= length d)%nat -> raidData nd = rs ++ tl ->
  files nd !! id = Some f -> length f = bb ->
  obey 3 [id] nd =
    Ok (mkNode (<[id := take bb d]> (files nd)) tl (deltaData nd) (crdData nd)
          (outbox nd ++ [(_coordinatorIP conf, (QAck, [49]))])).
Proof.
  intros Hcmd Hid Hbs [Hperm Hlast] Hd Hraid Hf Hlf.
  unfold obey. destruct (run_command_dispatch conf _locIP junk cmd_junk pointer 3 [id] nd) as [tail ->];
    [done|unfold is_s32; lia|unfold max_operands; simpl; lia|].
  unfold dispatch. cbn [Z.eqb Pos.eqb]. unfold recv_and_save_for_raid.
  pose proof (at_cur_command 3 [id] tail) as Hat. destruct (get_at_cur _ _ _ _ Hat Hid) as [-> _]. rewrite bind_ok.
  rewrite parsed_ok by (simpl; lia). apply Permutation_singleton_r in Hperm.
  rewrite bind_ok, Hraid, recv_until_ok by (done || (rewrite <- length_datas, Hperm; done)).
  rewrite Hperm. cbn [for_each]. rewrite copy_ok by (rewrite ?Hjunk; lia). rewrite !bind_ok.
  rewrite (write_blk_ok _ id f) by (done || (unfold block_bytes; lia) || (rewrite length_blit; [apply Hjunk|
    rewrite length_take, length_drop, Hjunk; lia])).
  rewrite bind_ok. unfold send_ack, push. cbn [files raidData deltaData crdData outbox]. do 4 f_equal.
  unfold write_at, blit. rewrite !take_0, drop_0, length_take. cbn [app].
  rewrite (drop_ge (junk bb)) by (rewrite Hjunk; lia). rewrite app_nil_r, length_take, drop_ge by lia.
  by rewrite app_nil_r.
Qed.

(** A delta data node (task 4) never gets to push a delta of a non-empty
    range: the copy into its message starts at the array that holds the
    pointer to the delta, eight bytes, and takes the size of the range. *)
Theorem delta_data_node_overreads nd id off size cs ps f :
  length cmd_junk = COMMAND_MAX_LENGTH -> length pointer = 8%nat ->
  is_s32 id -> 0 <= off -> 0 < size -> (off + size) * 1024 <= INT_MAX ->
  (0 < ecM)%nat -> length cs = ecM -> Forall is_s32 cs -> length ps = ecM -> Forall is_s32 ps ->
  (3 + (ecM + ecM) <= max_operands)%nat ->
  files nd !! id = Some f -> (off + size) * 1024 <= Z.of_nat (length f) ->
  obey 4 ([id; off; size] ++ cs ++ ps) nd = Fault Undef.
Proof.
  intros Hcmd Hptr Hid Hoff Hsize Hmax HM Hlc Hc Hlp Hp Hfit Hf Hin. unfold INT_MAX in Hmax.
  assert (Hl : length ([id; off; size] ++ cs ++ ps) = (3 + (ecM + ecM))%nat)
    by (rewrite !length_app, Hlc, Hlp; done).
  unfold obey. destruct (run_command_dispatch conf _locIP junk cmd_junk pointer 4 ([id; off; size] ++ cs ++ ps) nd) as [tl ->];
    [done|unfold is_s32; lia|by rewrite Hl|].
  unfold dispatch. cbn [Z.eqb Pos.eqb]. unfold send_parity_delta_to_each_parity_for_delta. rewrite Hl.
  pose proof (at_cur_command 4 ([id; off; size] ++ cs ++ ps) tl) as Hat. cbn [app] in Hat |- *.
  destruct (get_at_cur _ _ _ _ Hat Hid) as [-> Hat1]. rewrite bind_ok.
  destruct (get_at_cur _ _ _ _ Hat1) as [-> Hat2]; [unfold is_s32; lia|]. rewrite bind_ok.
  destruct (get_at_cur _ _ _ _ Hat2) as [-> Hat3]; [unfold is_s32; lia|]. rewrite bind_ok.
  destruct (gets_at_cur _ _ _ _ Hat3 Hc) as [Hg Hat4]. rewrite Hlc in Hg, Hat4. rewrite Hg, bind_ok.
  rewrite <- (app_nil_r ps) in Hat4. destruct (gets_at_cur _ _ _ _ Hat4 Hp) as [Hg2 _]. rewrite Hlp in Hg2.
  rewrite app_nil_r in Hg2. rewrite Hg2, bind_ok. rewrite parsed_ok by lia.
  rewrite bind_ok, !kb_ok by (unfold INT_MAX; lia). rewrite !bind_ok, (read_blk_ok junk Hjunk nd id f) by (done || lia).
  rewrite bind_ok. destruct ecM as [|M]; [lia|]. cbn [seq for_each].
  destruct cs as [|c cs]; [done|]. cbn [lookup list_lookup res_of_option]. rewrite bind_ok.
  assert (Hs : slice pointer 0 (Z.to_nat (size * 1024)) = None).
  { destruct (slice _ _ _) eqn:E; [|done]. apply slice_Some in E as [E _]. lia. }
  by rewrite Hs.
Qed.
End raid_delta.

(** ** Witnesses: blocks of 1 KB *)

Definition rd_conf : Config :=
  mkConfig 2 4 1024 0 32 [11; 12; 13; 14] 10 11 true false [] 4 [] 1 [].
Abbreviation rd_obey := (obey rd_conf 11 zeros (zeros 1024) (zeros 8)).

Lemma raid_data_node_witness :
  exists nd', rd_obey 1 [0; 1] (mkNode {[ 0 := zeros 1024 ]} [] [] [] []) = Ok nd' /\
    files nd' !! 0 = Some (write_at (zeros 1024) 0 (gene_radm_buff 1024)).
Proof.
  eexists. split.
  - apply (raid_data_node rd_conf 11 zeros (zeros 1024) (zeros 8) (fun n => length_replicate n 0)
      (mkNode {[ 0 := zeros 1024 ]} [] [] [] []) 0 1 (zeros 1024)); [reflexivity|decided..|reflexivity|vm_compute; lia].
  - apply lookup_insert_eq.
Defined.

(** Whatever the node held, it holds the message afterwards. *)
Lemma raid_parity_overwrites_witness :
  exists nd', rd_obey 3 [2] (mkNode {[ 2 := gene_radm_buff 1024 ]} [RNil; RData (zeros 1024)] [] [] []) = Ok nd' /\
    files nd' !! 2 = Some (zeros 1024).
Proof.
  eexists. split.
  - apply (raid_parity_overwrites rd_conf 11 zeros (zeros 1024) (zeros 8) (fun n => length_replicate n 0)
      (mkNode {[ 2 := gene_radm_buff 1024 ]} [RNil; RData (zeros 1024)] [] [] []) 2 (zeros 1024)
      [RNil; RData (zeros 1024)] [] (gene_radm_buff 1024));
      [reflexivity|decided|reflexivity| |vm_compute; lia|reflexivity|reflexivity|apply length_gene_radm_buff].
    split; [reflexivity|]. by exists [RNil], (zeros 1024).
  - cbn [files]. rewrite lookup_insert_eq. reflexivity.
Defined.

Lemma delta_data_node_overreads_witness :
  rd_obey 4 [0; 0; 1; 1; 1; 2; 3] (mkNode {[ 0 := zeros 1024 ]} [] [] [] []) = Fault Undef.
Proof.
  apply (delta_data_node_overreads rd_conf 11 zeros (zeros 1024) (zeros 8) (fun n => length_replicate n 0)
    (mkNode {[ 0 := zeros 1024 ]} [] [] [] []) 0 0 1 [1; 1] [2; 3] (zeros 1024));
    try reflexivity; try decided; vm_compute; lia.
Defined.
