(* ===== verification/PathSelection.v ===== *)
(** * Selection of the repair path (PathSelection.cc)

    [intelligentSearch] looks for the path of [k] links from node 0, the
    requestor, through [k] other nodes whose heaviest link is lightest: a greedy
    path gives a first bound ([initVal]), a depth-first search ([ISHelper])
    improves it.  Weights are only compared, so they are the elements of a
    total order with the two constants the code uses; a double is one as long
    as it is a number. *)
From S2P Require Import Prelude.

Class Weight := {
  W : Type;
  wlt : W -> W -> bool;
  w_zero : W;
  w_max : W   (* MAX_VALUE *)
}.

Class WeightLaws `{Weight} : Prop := {
  wlt_irrefl a : wlt a a = false;
  wlt_trans a b c : wlt a b = true -> wlt b c = true -> wlt a c = true;
  wlt_total a b : wlt a b = false -> wlt b a = false -> a = b
}.

#[export] Instance W_inhabited `{Weight} : Inhabited W := populate w_zero.

Section path_selection.
Context `{Weight}.

(** [std::max] and [std::min]. *)
Definition wmax (a b : W) : W := if wlt a b then b else a.
Definition wmin (a b : W) : W := if wlt b a then b else a.

Context (mat : list (list W)).

(** [mat[i][j]]; the matrix is square and the indices are below its size. *)
Definition link (i j : nat) : W := (mat !!! i) !!! j.

(** ** [initVal] *)

(** The nearest neighbour of node 0 among the nodes [1 .. ecN-2]. *)
Definition first_link : W * option nat :=
  foldl (fun '(minEdge, endPoint2) i =>
    if wlt (link 0 i) minEdge then (link 0 i, Some i) else (minEdge, endPoint2)) (w_max, None)
    (seq 1 (length mat - 2)).

(** [newNode], kept from the round before when no unused node is near enough. *)
Definition nearest (used : list bool) (endPoint2 : nat) (newNode : option nat) : W * option nat :=
  foldl (fun '(tempMin, newNode) i =>
    if negb (used !!! i) && wlt (link endPoint2 i) tempMin
    then (wmin tempMin (link endPoint2 i), Some i) else (tempMin, newNode)) (w_max, newNode)
    (seq 0 (length mat)).

(** The rounds of the [while] loop. *)
Fixpoint greedy (rounds : nat) (used : list bool) (endPoint2 : nat) (newNode : option nat) (retVal : W)
    (path : list nat) : res (W * list nat) :=
  match rounds with
  | O => Ok (retVal, path)
  | S r =>
      let '(tempMin, newNode) := nearest used endPoint2 newNode in
      node ← res_of_option Undef newNode;
      greedy r (<[node := true]> used) node (Some node) (wmax retVal tempMin) (path ++ [node])
  end.

(** [while (++pathLen <= k + 1)] from 2 runs [k - 1] rounds. *)
Definition initVal (k : nat) (path : list nat) : res (W * list nat) :=
  let '(minEdge, endPoint2) := first_link in
  e ← res_of_option Undef endPoint2;
  greedy (k - 1) (<[e := true]> (<[0%nat := true]> (replicate (length mat) false))) e None minEdge (path ++ [0%nat; e]).

(** ** [ISHelper] *)

(** [depth] is [k + 1 - selected.size()]; the state is [_globalMax] and [_path]. *)
Fixpoint ISHelper (depth : nat) (selected : list nat) (used : list bool) (currMax : W) (st : W * list nat) :
    W * list nat :=
  match depth with
  | O => (wmin st.1 currMax, selected)
  | S d =>
      foldl (fun st i =>
        let back := List.last selected 0%nat in
        if (used !!! i) || negb (wlt (link back i) st.1) then st
        else ISHelper d (selected ++ [i]) (<[i := true]> used) (wmax currMax (link back i)) st) st
        (seq 0 (length used))
  end.

(** ** [intelligentSearch] *)

(** Afterwards the first [k + 1] entries of [_path] are printed. *)
Definition intelligentSearch (k : nat) (path : list nat) : res (W * list nat) :=
  '(g, _) ← initVal k path;
  let '(g, path) := ISHelper k [0%nat] (<[0%nat := true]> (replicate (length mat) false)) w_zero (g, []) in
  guard_or Undef (k <? length path)%nat;;
  Ok (g, path).

(** ** [dumbSearch] *)

Definition dumbSearch (k : nat) : W :=
  foldl (fun retVal i => wmax retVal (link i (i + 1))) w_zero (seq 0 k).

(** ** Paths and their heaviest link *)

Fixpoint links (from : nat) (p : list nat) : list W :=
  match p with
  | [] => []
  | i :: p' => link from i :: links i p'
  end.

Definition heaviest (m : W) (ws : list W) : W := foldl wmax m ws.

(** A simple path of [k] links from node 0. *)
Definition path_ok (k : nat) (p : list nat) : Prop :=
  NoDup (0%nat :: p) /\ length p = k /\ Forall (fun i => i < length mat)%nat p.

(** What a path costs. *)
Definition cost (p : list nat) : W := heaviest w_zero (links 0 p).
End path_selection.

(** ** The order *)

Section order.
Context `{WL : WeightLaws}.

Definition wle (a b : W) : Prop := wlt b a = false.

Lemma wle_refl a : wle a a.
Proof. apply wlt_irrefl. Qed.

Lemma wlt_wle a b : wlt a b = true -> wle a b.
Proof.
  intros Hab. unfold wle. destruct (wlt b a) eqn:E; [|done].
  pose proof (wlt_trans _ _ _ Hab E) as Hc. by rewrite wlt_irrefl in Hc.
Qed.

Lemma wle_trans a b c : wle a b -> wle b c -> wle a c.
Proof.
  unfold wle. intros Hab Hbc. destruct (wlt c a) eqn:E; [|done]. destruct (wlt a b) eqn:E2.
  - pose proof (wlt_trans _ _ _ E E2). congruence.
  - assert (a = b) as -> by (by apply wlt_total). congruence.
Qed.

Lemma wle_lt_trans a b c : wle a b -> wlt b c = true -> wlt a c = true.
Proof.
  unfold wle. intros Hab Hbc. destruct (wlt a b) eqn:E; [by eapply wlt_trans|].
  assert (a = b) as -> by (by apply wlt_total). done.
Qed.

Lemma wlt_le_trans a b c : wlt a b = true -> wle b c -> wlt a c = true.
Proof.
  unfold wle. intros Hab Hbc. destruct (wlt b c) eqn:E; [by eapply wlt_trans|].
  assert (b = c) as -> by (by apply wlt_total). done.
Qed.

Lemma wle_antisym a b : wle a b -> wle b a -> a = b.
Proof. unfold wle. intros. by apply wlt_total. Qed.

Lemma wmax_l a b : wle a (wmax a b).
Proof. unfold wmax. destruct (wlt a b) eqn:E; [by apply wlt_wle|apply wle_refl]. Qed.
Lemma wmax_r a b : wle b (wmax a b).
Proof. unfold wmax. destruct (wlt a b) eqn:E; [apply wle_refl|done]. Qed.
Lemma wmax_lub a b c : wle a c -> wle b c -> wle (wmax a b) c.
Proof. unfold wmax. by destruct (wlt a b). Qed.
Lemma wmin_l a b : wle (wmin a b) a.
Proof. unfold wmin. destruct (wlt b a) eqn:E; [by apply wlt_wle|apply wle_refl]. Qed.
Lemma wmin_r a b : wle b a -> wmin a b = b.
Proof. intros Hba. unfold wmin. destruct (wlt b a) eqn:E; [done|]. by apply wle_antisym. Qed.
End order.

Create HintDb weight discriminated.
#[export] Hint Resolve wle_refl wlt_wle wmax_l wmax_r wmax_lub wmin_l : weight.

(** ** The search *)

Section search.
Context `{WL : WeightLaws} (mat : list (list W)).

Abbreviation n := (length mat).
Abbreviation back sel := (List.last sel 0%nat).

Lemma heaviest_base m ws : wle m (heaviest m ws).
Proof.
  revert m. induction ws as [|w ws IH]; intros m; [auto with weight|]. eapply wle_trans; [|apply (IH (wmax m w))]. auto with weight.
Qed.

Lemma heaviest_in m ws w : w ∈ ws -> wle w (heaviest m ws).
Proof.
  revert m. induction ws as [|v ws IH]; intros m Hw; [by apply elem_of_nil in Hw|].
  apply elem_of_cons in Hw as [->|Hw]; [|by apply IH].
  eapply wle_trans; [|apply (heaviest_base (wmax m v) ws)]. auto with weight.
Qed.

Lemma heaviest_lub m ws g : wle m g -> Forall (fun w => wle w g) ws -> wle (heaviest m ws) g.
Proof.
  intros Hm Hall. revert m Hm. induction Hall as [|w ws Hw _ IH]; intros m Hm; [done|]. apply IH. auto with weight.
Qed.

Lemma heaviest_lt m ws g : wlt m g = true -> Forall (fun w => wlt w g = true) ws -> wlt (heaviest m ws) g = true.
Proof.
  intros Hm Hall. revert m Hm. induction Hall as [|w ws Hw _ IH]; intros m Hm; [done|]. apply IH.
  unfold wmax. by destruct (wlt m w).
Qed.

(** The ways to complete a partial path. *)
Definition ext (d : nat) (sel q : list nat) : Prop :=
  NoDup (sel ++ q) /\ length q = d /\ Forall (fun i => i < n)%nat q.
Definition marks (used : list bool) (sel : list nat) : Prop :=
  length used = n /\ forall i, (i < n)%nat -> used !!! i = true <-> i ∈ sel.

Lemma marks_snoc used sel i : marks used sel -> (i < n)%nat -> marks (<[i := true]> used) (sel ++ [i]).
Proof.
  intros [Hl Hu] Hi. split; [by rewrite length_insert|]. intros j Hj. destruct (decide (i = j)) as [->|Hne].
  - rewrite list_lookup_total_insert_eq by lia. split; [intros _; apply elem_of_app; right; left|done].
  - rewrite list_lookup_total_insert_ne, Hu, elem_of_app, list_elem_of_singleton by done.
    split; [by left|by intros [?|?]; [|congruence]].
Qed.

Lemma ext_cons d sel i q : ext (S d) sel (i :: q) <-> (i < n)%nat /\ ext d (sel ++ [i]) q.
Proof.
  unfold ext. rewrite <- app_assoc, Forall_cons. cbn [length app]. split.
  - intros (? & ? & ? & ?). split_and!; (done || lia).
  - intros (? & ? & ? & ?). split_and!; (done || lia).
Qed.

(** What a search below [sel] guarantees: no completion of [sel] in [Q] beats
    the bound it returns, and the bound is the old one or that of the
    completion it stored. *)
Record improves (Q : list nat -> Prop) (sel : list nat) (m : W) (st st' : W * list nat) : Prop := {
  im_le : wle st'.1 st.1;
  im_base : wle m st'.1;
  im_best q : Q q -> wle st'.1 (heaviest m (links mat (back sel) q));
  im_found : st' = st \/ exists q, Q q /\ st' = (heaviest m (links mat (back sel) q), sel ++ q) /\
    Forall (fun w => wlt w st.1 = true) (links mat (back sel) q)
}.

Lemma improves_trans Q1 Q2 sel m st st1 st2 :
  improves Q1 sel m st st1 -> improves Q2 sel m st1 st2 -> improves (fun q => Q1 q \/ Q2 q) sel m st st2.
Proof.
  intros [A1 A2 A3 A4] [B1 B2 B3 B4]. split; [by eapply wle_trans|done| |].
  - intros q [Hq|Hq]; [eapply wle_trans; [exact B1|by apply A3]|by apply B3].
  - destruct B4 as [->|(q & Hq & -> & Hlt)].
    + destruct A4 as [?|(q & Hq & ? & ?)]; [by left|right; eauto].
    + right. exists q. split_and!; [by right|done|]. eapply Forall_impl; [exact Hlt|].
      intros w Hw. exact (wlt_le_trans _ _ _ Hw A1).
Qed.

Lemma improves_ext Q1 Q2 sel m st st' :
  (forall q, Q1 q <-> Q2 q) -> improves Q1 sel m st st' -> improves Q2 sel m st st'.
Proof.
  intros HQ [A1 A2 A3 A4]. split; [done|done|intros q Hq; apply A3; by apply HQ|].
  destruct A4 as [?|(q & Hq & ? & ?)]; [by left|right]. exists q. split; [by apply HQ|done].
Qed.

Lemma improves_none (Q : list nat -> Prop) sel m st :
  wle m st.1 -> (forall q, Q q -> wle st.1 (heaviest m (links mat (back sel) q))) -> improves Q sel m st st.
Proof. intros Hm Hq. split; [apply wle_refl|exact Hm|exact Hq|by left]. Qed.

(** One candidate for the next node. *)
Definition candidate (d : nat) (sel : list nat) (used : list bool) (m : W) (st : W * list nat) (i : nat) : W * list nat :=
  if (used !!! i) || negb (wlt (link mat (back sel) i) st.1) then st
  else ISHelper mat d (sel ++ [i]) (<[i := true]> used) (wmax m (link mat (back sel) i)) st.

Definition through (d i : nat) (sel q : list nat) : Prop := exists q', q = i :: q' /\ ext (S d) sel q.

Lemma candidate_spec d sel used m st i :
  (forall sel used m st, NoDup sel -> marks used sel -> wle m st.1 ->
     improves (ext d sel) sel m st (ISHelper mat d sel used m st)) ->
  NoDup sel -> marks used sel -> wle m st.1 -> (i < n)%nat ->
  improves (through d i sel) sel m st (candidate d sel used m st i).
Proof.
  intros IH Hnd Hu Hm Hi. unfold candidate. set (w := link mat (back sel) i).
  destruct (used !!! i) eqn:Eu; cbn [orb].
  - apply improves_none; [done|]. intros q (q' & -> & Hq%ext_cons). destruct Hq as [_ ([Hq _]%NoDup_app & _)].
    apply NoDup_app in Hq as (_ & Hq & _). exfalso. apply (Hq i); [by apply Hu|left].
  - destruct (wlt w st.1) eqn:Ew; cbn [negb].
    + destruct (IH (sel ++ [i]) (<[i := true]> used) (wmax m w) st) as [A1 A2 A3 A4].
      { apply NoDup_app. split_and!; [done| |apply NoDup_singleton].
        intros x Hx ->%list_elem_of_singleton. apply (proj2 Hu i Hi) in Hx. congruence. }
      { by apply marks_snoc. } { auto with weight. }
      rewrite last_last in A3, A4. split; [done|eapply wle_trans; [apply wmax_l|exact A2]| |].
      * intros q (q' & -> & Hq%ext_cons). apply A3. by apply Hq.
      * destruct A4 as [?|(q & Hq & -> & Hlt)]; [by left|right]. exists (i :: q). split_and!.
        -- exists q. split; [done|]. by apply ext_cons.
        -- by rewrite <- app_assoc.
        -- by constructor.
    + apply improves_none; [done|]. intros q (q' & -> & _). apply wle_trans with w; [done|].
      apply heaviest_in. left.
Qed.

Lemma candidates_spec d sel used m l st :
  (forall sel used m st, NoDup sel -> marks used sel -> wle m st.1 ->
     improves (ext d sel) sel m st (ISHelper mat d sel used m st)) ->
  NoDup sel -> marks used sel -> Forall (fun i => i < n)%nat l -> wle m st.1 ->
  improves (fun q => exists i, i ∈ l /\ through d i sel q) sel m st (foldl (candidate d sel used m) st l).
Proof.
  intros IH Hnd Hu Hl. revert st. induction Hl as [|i l Hi _ IHl]; intros st Hm.
  - apply improves_none; [done|]. intros q (i & Hi & _). by apply elem_of_nil in Hi.
  - cbn [foldl]. pose proof (candidate_spec d sel used m st i IH Hnd Hu Hm Hi) as H1.
    specialize (IHl (candidate d sel used m st i) (im_base _ _ _ _ _ H1)).
    eapply improves_ext; [|exact (improves_trans _ _ _ _ _ _ _ H1 IHl)]. intros q. split.
    + intros [Hq|(j & Hj & Hq)]; [exists i; split; [left|done]|exists j; split; [by right|done]].
    + intros (j & [->|Hj]%elem_of_cons & Hq); [by left|right; eauto].
Qed.

Lemma ISHelper_spec d sel used m st :
  NoDup sel -> marks used sel -> wle m st.1 ->
  improves (ext d sel) sel m st (ISHelper mat d sel used m st).
Proof.
  revert sel used m st. induction d as [|d IH]; intros sel used m st Hnd Hu Hm.
  - cbn [ISHelper]. rewrite wmin_r by done. split; [done|cbn; auto with weight| |].
    + intros q (_ & Hq & _). destruct q; [|done]. cbn. auto with weight.
    + right. exists []. cbn. rewrite app_nil_r. split_and!; [|done|constructor].
      unfold ext. rewrite app_nil_r. split_and!; [done|done|constructor].
  - eapply improves_ext; [|apply (candidates_spec d sel used m (seq 0 (length used)) st IH); [done|done| |done]].
    + intros q. split; [by intros (i & _ & q' & -> & ?)|]. intros Hq.
      destruct q as [|i q]; [by destruct Hq as (_ & ? & _)|]. exists i. split; [|by exists q].
      apply ext_cons in Hq as [? _]. destruct Hu as [Hl _]. apply elem_of_seq. lia.
    + destruct Hu as [Hl _]. apply Forall_seq. lia.
Qed.

(** ** The first bound *)

(** Weights are not negative and below [MAX_VALUE]. *)
Definition links_ok : Prop := forall i j, (i < n)%nat -> (j < n)%nat -> i <> j ->
  wle w_zero (link mat i j) /\ wlt (link mat i j) w_max = true.
Context (Hlinks : links_ok).

Lemma cost_snoc p i : cost mat (p ++ [i]) = wmax (cost mat p) (link mat (List.last (0%nat :: p) 0%nat) i).
Proof.
  unfold cost. assert (Hgen : forall p from m, heaviest m (links mat from (p ++ [i])) =
    wmax (heaviest m (links mat from p)) (link mat (List.last (from :: p) 0%nat) i)).
  { clear p. induction p as [|j p IH]; intros from m; [done|]. cbn [app links heaviest foldl].
    fold (heaviest (wmax m (link mat from j)) (links mat j (p ++ [i]))). rewrite IH. by destruct p. }
  apply Hgen.
Qed.

Lemma cost_one i : (0 < i < n)%nat -> cost mat [i] = link mat 0 i.
Proof.
  intros Hi. destruct (Hlinks 0%nat i) as [H0 _]; [lia|lia|lia|]. unfold cost. cbn. apply wle_antisym; [|apply wmax_r].
  apply wmax_lub; [done|apply wle_refl].
Qed.

Lemma first_link_spec : (2 < n)%nat -> exists i, (0 < i < n)%nat /\ first_link mat = (link mat 0 i, Some i).
Proof.
  intros Hn. unfold first_link. set (l := seq 1 (n - 2)).
  match goal with |- context [foldl ?g _ _] => set (f := g) end.
  assert (Hmem : forall i, i ∈ l -> (0 < i < n)%nat) by (intros i Hi%elem_of_seq; lia).
  assert (Hkeep : forall l st, (forall i, i ∈ l -> (0 < i < n)%nat) ->
    (exists i, (0 < i < n)%nat /\ st = (link mat 0 i, Some i)) ->
    exists i, (0 < i < n)%nat /\ foldl f st l = (link mat 0 i, Some i)).
  { induction l0 as [|j l0 IH]; intros st Hj Hst; [done|]. cbn [foldl]. apply IH; [intros; apply Hj; by right|].
    destruct Hst as (i & Hi & ->). cbn. destruct (wlt _ _); [exists j; split; [apply Hj; left|done]|by exists i]. }
  replace l with (1%nat :: seq 2 (n - 3)) by (unfold l; by replace (n - 2)%nat with (S (n - 3)) by lia).
  cbn [foldl]. apply Hkeep; [intros i Hi%elem_of_seq; lia|]. exists 1%nat. split; [lia|].
  unfold f. by rewrite (proj2 (Hlinks 0%nat 1%nat ltac:(lia) ltac:(lia) ltac:(lia))).
Qed.

Lemma nearest_spec used e prev x :
  (e < n)%nat -> (x < n)%nat -> used !!! x = false -> (forall i, (i < n)%nat -> used !!! i = false -> i <> e) ->
  exists i, (i < n)%nat /\ used !!! i = false /\ nearest mat used e prev = (link mat e i, Some i).
Proof.
  intros He Hx Hux Hne. unfold nearest. match goal with |- context [foldl ?g _ _] => set (f := g) end.
  pose (good := fun st : W * option nat => exists i, (i < n)%nat /\ used !!! i = false /\ st = (link mat e i, Some i)).
  assert (Hstep : forall st i, (i < n)%nat -> good st -> good (f st i)).
  { intros st i Hi (j & Hj & Huj & ->). unfold f. destruct (used !!! i) eqn:Ei; cbn [negb andb]; [by exists j|].
    destruct (wlt (link mat e i) (link mat e j)) eqn:E; [|by exists j]. exists i. split_and!; [done|done|].
    by rewrite wmin_r by auto with weight. }
  assert (Hkeep : forall l st, Forall (fun i => i < n)%nat l -> good st -> good (foldl f st l)).
  { intros l st Hl. revert st. induction Hl as [|i l Hi _ IH]; intros st Hst; [done|]. apply IH. by apply Hstep. }
  assert (Hgo : forall l, Forall (fun i => i < n)%nat l -> x ∈ l -> good (foldl f (w_max, prev) l)).
  { intros l Hl. induction Hl as [|i l Hi Hl IH]; intros Hxl; [by apply elem_of_nil in Hxl|]. cbn [foldl].
    destruct (used !!! i) eqn:Ei.
    - unfold f at 2. rewrite Ei. cbn [negb andb]. apply IH. apply elem_of_cons in Hxl as [->|?]; [congruence|done].
    - apply Hkeep; [done|]. exists i. split_and!; [done|done|]. unfold f. rewrite Ei. cbn [negb andb].
      destruct (Hlinks e i He Hi ltac:(intros <-; by apply (Hne e He Ei))) as [_ Hlt]. rewrite Hlt.
      by rewrite wmin_r by auto with weight. }
  apply Hgo; [apply Forall_seq; lia|apply elem_of_seq; lia].
Qed.

Lemma unused_node used p :
  marks used p -> NoDup p -> (length p < n)%nat -> exists x, (x < n)%nat /\ used !!! x = false.
Proof.
  intros [Hl Hu] Hnd Hlen. destruct (decide (Exists (fun x => x ∉ p) (seq 0 n))) as [Hex|Hno].
  - apply Exists_exists in Hex as (x & Hx%elem_of_seq & Hxp). exists x. split; [lia|].
    destruct (used !!! x) eqn:E; [|done]. apply Hu in E; [done|lia].
  - exfalso. apply not_Exists_Forall in Hno; [|intros x; apply _].
    assert (Hsub : submseteq (seq 0 n) p).
    { apply NoDup_submseteq; [apply NoDup_seq|]. intros x Hx. rewrite Forall_forall in Hno.
      specialize (Hno x Hx). cbn in Hno. by destruct (decide (x ∈ p)). }
    apply submseteq_length in Hsub. rewrite length_seq in Hsub. lia.
Qed.

Lemma last_cons_in (x : nat) p : List.last (x :: p) 0%nat ∈ x :: p.
Proof. revert x. induction p as [|y p IH]; intros x; [left|]. right. apply IH. Qed.

Lemma greedy_spec rounds used prev p k pre :
  marks used (0%nat :: p) -> path_ok mat (k - rounds) p -> (rounds <= k < n)%nat ->
  exists p', greedy mat rounds used (List.last (0%nat :: p) 0%nat) prev (cost mat p) (pre ++ 0%nat :: p) =
      Ok (cost mat p', pre ++ 0%nat :: p') /\ path_ok mat k p'.
Proof.
  revert used prev p. induction rounds as [|r IH]; intros used prev p Hu Hp Hk.
  - exists p. split; [done|]. by replace (k - 0)%nat with k in Hp by lia.
  - cbn [greedy]. destruct Hp as (Hnd & Hl & Hf). set (e := List.last (0%nat :: p) 0%nat).
    pose proof (last_cons_in 0%nat p) as Hein. fold e in Hein.
    assert (Hlt : forall i, i ∈ 0%nat :: p -> (i < n)%nat).
    { intros i [->|Hi]%elem_of_cons; [lia|]. rewrite Forall_forall in Hf. by apply Hf. }
    destruct (unused_node used (0%nat :: p) Hu Hnd) as (x & Hx & Hux); [simpl; lia|].
    destruct (nearest_spec used e prev x (Hlt e Hein) Hx Hux) as (i & Hi & Hui & ->).
    { intros j Hj Huj ->. apply (proj2 Hu e Hj) in Hein. congruence. }
    cbn [res_of_option]. rewrite bind_ok. unfold e at 1. rewrite <- cost_snoc.
    replace ((pre ++ 0%nat :: p) ++ [i]) with (pre ++ 0%nat :: (p ++ [i])) by by rewrite <- app_assoc.
    destruct (IH (<[i := true]> used) (Some i) (p ++ [i])) as (p' & E & Hp').
    + rewrite app_comm_cons. by apply marks_snoc.
    + assert (Hni : i ∉ 0%nat :: p) by (intros Hin; apply (proj2 Hu i Hi) in Hin; congruence). split_and!.
      * rewrite app_comm_cons. apply NoDup_app. split_and!; [done| |apply NoDup_singleton].
        by intros y Hy ->%list_elem_of_singleton.
      * rewrite length_app. simpl. lia.
      * apply Forall_app. split; [done|by apply Forall_singleton].
    + lia.
    + exists p'. rewrite app_comm_cons, last_last in E. by split.
Qed.

Lemma marks_start : (0 < n)%nat -> marks (<[0%nat := true]> (replicate n false)) [0%nat].
Proof.
  intros Hn. apply (marks_snoc _ []); [|done]. split; [apply length_replicate|]. intros i Hi.
  rewrite lookup_total_replicate_2 by done. split; [done|]. intros Hin. by apply elem_of_nil in Hin.
Qed.

Lemma initVal_spec k pre :
  (2 < n)%nat -> (1 <= k < n)%nat ->
  exists p, initVal mat k pre = Ok (cost mat p, pre ++ 0%nat :: p) /\ path_ok mat k p.
Proof.
  intros Hn Hk. unfold initVal. destruct (first_link_spec Hn) as (i & Hi & ->). cbn [res_of_option]. rewrite bind_ok.
  rewrite <- (cost_one i Hi). destruct (greedy_spec (k - 1) (<[i := true]> (<[0%nat := true]> (replicate n false))) None [i] k pre)
    as (p & E & Hp); [| |lia|by exists p].
  - apply (marks_snoc _ [0%nat]); [apply marks_start|]; lia.
  - replace (k - (k - 1))%nat with 1%nat by lia. split_and!; [|done|by apply Forall_singleton; lia].
    apply NoDup_cons. split; [rewrite list_elem_of_singleton; lia|apply NoDup_singleton].
Qed.

Lemma ext_path k p : ext k [0%nat] p <-> path_ok mat k p.
Proof. done. Qed.
End search.

(** C22: [intelligentSearch] on a matrix of at least three nodes either ends
    with the lightest heaviest link of all simple paths of [k] links from node
    0 and a path that attains it, which is then strictly better than the greedy
    path of [initVal]; or the greedy path was already a best one, no path was
    stored, and the first read of [_path] is out of range. *)
Theorem intelligentSearch_optimal `{WL : WeightLaws} (mat : list (list W)) k path :
  links_ok mat -> wlt w_zero w_max = true -> (2 < length mat)%nat -> (1 <= k < length mat)%nat ->
  exists p0, initVal mat k path = Ok (cost mat p0, path ++ 0%nat :: p0) /\ path_ok mat k p0 /\
    ((exists p, intelligentSearch mat k path = Ok (cost mat p, 0%nat :: p) /\ path_ok mat k p /\
        wlt (cost mat p) (cost mat p0) = true /\ forall q, path_ok mat k q -> wle (cost mat p) (cost mat q)) \/
     (intelligentSearch mat k path = Fault Undef /\ forall q, path_ok mat k q -> wle (cost mat p0) (cost mat q))).
Proof.
  intros Hlinks Hmax Hn Hk. destruct (initVal_spec mat Hlinks k path Hn Hk) as (p0 & E & Hp0).
  exists p0. split_and!; [done|done|]. unfold intelligentSearch. rewrite E, bind_ok.
  assert (H0 : wle w_zero (cost mat p0)) by apply heaviest_base.
  pose proof (ISHelper_spec mat k [0%nat] _ w_zero (cost mat p0, []) (NoDup_singleton 0%nat) (marks_start mat ltac:(lia)) H0)
    as Him. destruct (ISHelper _ _ _ _ _ _) as [g stored]. destruct Him as [A1 A2 A3 A4]. cbn [fst] in *.
  destruct A4 as [[= -> ->]|(p & Hp & [= -> ->] & Hlt)].
  - right. cbn. split; [done|]. intros q Hq. by apply A3.
  - left. exists p. rewrite (proj2 (Nat.ltb_lt _ _)) by (destruct Hp as (_ & Hl & _); simpl; lia).
    cbn [guard_or]. rewrite bind_ok. split_and!; [done|done| |intros q Hq; by apply A3].
    destruct p as [|i p]; [by destruct Hp as (_ & ? & _); simpl in *; lia|].
    destruct Hp as (Hnd & _ & [Hi _]%Forall_cons). apply NoDup_cons in Hnd as [Hni _].
    assert (Hi0 : i <> 0%nat) by (intros ->; apply Hni; left).
    destruct (Hlinks 0%nat i) as [Hpos _]; [lia|done|congruence|]. apply heaviest_lt; [|done].
    apply Forall_cons in Hlt as [Hlt _]. by eapply wle_lt_trans.
Qed.

(** [dumbSearch] is the cost of the path through the nodes in order. *)
Lemma dumbSearch_cost `{WL : WeightLaws} (mat : list (list W)) k : dumbSearch mat k = cost mat (seq 1 k).
Proof.
  unfold dumbSearch, cost. assert (Hgen : forall k i m, foldl (fun r i => wmax r (link mat i (i + 1))) m (seq i k) =
    heaviest m (links mat i (seq (S i) k))).
  { clear k. induction k as [|k IH]; intros i m; [done|]. cbn [seq foldl links heaviest]. rewrite IH.
    by rewrite Nat.add_1_r. }
  apply Hgen.
Qed.

(** ** Witness: integer weights *)

#[export] Instance Z_weight : Weight := { W := Z; wlt := Z.ltb; w_zero := 0; w_max := 1000000 }.
#[export] Instance Z_weight_laws : WeightLaws.
Proof.
  split; unfold wlt, Z_weight; intros *; rewrite ?Z.ltb_lt, ?Z.ltb_ge; lia.
Qed.

(** The node nearest to 0 is the last one, which [initVal] does not consider;
    and a matrix on which the greedy path is best. *)
Definition ex_links : list (list (@W Z_weight)) := [[0; 5; 6; 1]; [5; 0; 1; 1]; [6; 1; 0; 2]; [1; 1; 2; 0]].
Definition ex_flat : list (list (@W Z_weight)) := [[0; 1; 1]; [1; 0; 1]; [1; 1; 0]].

Lemma intelligentSearch_optimal_witness :
  intelligentSearch ex_links 3 [] = Ok (1, [0; 3; 1; 2]%nat) /\ intelligentSearch ex_flat 2 [] = Fault Undef /\
  (forall q, path_ok ex_links 3 q -> 1 <= cost ex_links q) /\ (forall q, path_ok ex_flat 2 q -> 1 <= cost ex_flat q).
Proof.
  assert (H1 : links_ok ex_links).
  { intros i j Hi Hj Hij. do 4 (destruct i as [|i]; [do 4 (destruct j as [|j]; [by try (split; reflexivity)|]); simpl in Hj; lia|]).
    simpl in Hi. lia. }
  assert (H2 : links_ok ex_flat).
  { intros i j Hi Hj Hij. do 3 (destruct i as [|i]; [do 3 (destruct j as [|j]; [by try (split; reflexivity)|]); simpl in Hj; lia|]).
    simpl in Hi. lia. }
  assert (C1 : intelligentSearch ex_links 3 [] = Ok (1, [0; 3; 1; 2]%nat)) by reflexivity.
  assert (C2 : initVal ex_flat 2 [] = Ok (1, [0; 1; 2]%nat)) by reflexivity.
  assert (C3 : intelligentSearch ex_flat 2 [] = Fault Undef) by reflexivity.
  destruct (intelligentSearch_optimal ex_links 3 [] H1 eq_refl ltac:(simpl; lia) ltac:(simpl; lia))
    as (p1 & _ & _ & [(p & E & _ & _ & Hbest)|[E _]]); [|rewrite C1 in E; discriminate].
  destruct (intelligentSearch_optimal ex_flat 2 [] H2 eq_refl ltac:(simpl; lia) ltac:(simpl; lia))
    as (p2 & E2 & _ & [(q & Eq & _)|[_ Hbest2]]); [rewrite C3 in Eq; discriminate|].
  split_and!; [exact C1|exact C3| |].
  - intros q Hq. rewrite C1 in E. injection E as Hc _. specialize (Hbest q Hq). rewrite <- Hc in Hbest. by apply Z.ltb_ge in Hbest.
  - intros q Hq. rewrite C2 in E2. injection E2 as Hc _. specialize (Hbest2 q Hq). rewrite <- Hc in Hbest2. by apply Z.ltb_ge in Hbest2.
Defined.
