(* ===== verification/Coordinator.v ===== *)
(** * The repair coordinator (Coordinator.cc)

    The parts the repair schemes share: the distribution of the helpers over
    the command queues ([init]), the two binary searches ([searchCtx],
    [isRequestorHolder]) and the reply that tells a requestor the order of the
    helpers ([setupCyclReply]). *)
From Stdlib Require Import Ascii.
From stdpp Require Import strings.
From S2P Require Import Prelude Command Text.

(** ** The queues of the helpers *)

(** [rightBounder]: how many helpers the queues [0 .. i] serve together. *)
Definition rightBounder (_slaveCnt _distributorThreadNum : nat) : res (list nat) :=
  guard_or Undef (0 <? _distributorThreadNum)%nat;;
  let quota := (_slaveCnt / _distributorThreadNum)%nat in
  let remaining := (_slaveCnt mod _distributorThreadNum)%nat in
  let first := if (remaining =? 0)%nat then quota else (quota + 1)%nat in
  Ok (foldl (fun b i =>
        if (remaining <=? i)%nat then b ++ [(List.last b 0 + quota)%nat] else b ++ [(List.last b 0 + quota + 1)%nat])
      [first] (seq 1 (_distributorThreadNum - 1))).

Definition disQ (i : nat) : str := lit "disQ:" ++ to_string (Z.of_nat i).

(** [_ip2Ctx] without the connections: every helper with its queue. *)
Definition ip2Ctx (_helpersIPs : list Z) (_distributorThreadNum : nat) : res (list (Z * str)) :=
  bounds ← rightBounder (length _helpersIPs) _distributorThreadNum;
  '(_, _, ctx) ← for_each _helpersIPs (fun it '(idx, rBounderId, ctx) =>
    let idx := S idx in
    b ← res_of_option Undef (bounds !! rBounderId);
    let rBounderId := if (b <? idx)%nat then S rBounderId else rBounderId in
    Ok (idx, rBounderId, ctx ++ [(it, disQ rBounderId)])) (0%nat, 0%nat, []);
  Ok ctx.

(** ** The searches *)

(** [v[i]] of a [vector]. *)
Definition vec {A} (v : list A) (i : Z) : res A :=
  if (0 <=? i) && (i <? Z.of_nat (length v)) then res_of_option Undef (v !! Z.to_nat i) else Fault Undef.

(** [searchCtx] on [size_t] indices: [mid - 1] wraps below zero. *)
Fixpoint searchCtx (fuel : nat) (arr : list Z) (target : Z) (sId eId : Z) : res Z :=
  if sId <? eId then
    match fuel with
    | O => Fault Blocked
    | S f =>
        let mid := (sId + eId) / 2 in
        x ← vec arr mid;
        if x <? target then searchCtx f arr target (mid + 1) eId
        else if target <? x then searchCtx f arr target sId ((mid - 1) mod 2^64)
        else Ok mid
    end
  else Ok sId.

(** [isRequestorHolder] on [int] indices. *)
Fixpoint holder_loop (fuel : nat) (stripe : list (Z * str)) (requestorIP sid eid : Z) : res Z :=
  if sid <? eid then
    match fuel with
    | O => Fault Blocked
    | S f =>
        let mid := (sid + eid) / 2 in
        x ← vec stripe mid;
        if x.1 =? requestorIP then Ok mid
        else if requestorIP <? x.1 then holder_loop f stripe requestorIP sid (mid - 1)
        else holder_loop f stripe requestorIP (mid + 1) eid
    end
  else
    x ← vec stripe sid;
    Ok (if x.1 =? requestorIP then sid else -1).

Definition isRequestorHolder (stripe : list (Z * str)) (requestorIP : Z) : res Z :=
  holder_loop (length stripe) stripe requestorIP 0 (Z.of_nat (length stripe) - 1).

(** ** [setupCyclReply] for one lost block

    [junk] is what the allocated reply holds before it is filled. *)

Definition setupCyclReply (junk : list Z) (ecK : Z) (reqIP : Z) (stripe : list (Z * str)) : res (list Z) :=
  guard_or Undef (0 <? ecK);;
  let drCmdLen := (4 * Z.to_nat (ecK + 1))%nat in
  let numOfFIP := ecK - 1 in
  guard_or (Exit 1) (numOfFIP =? (Z.of_nat (length stripe) - 1) mod 2^64);;
  ips ← for_each (seqZ 0 numOfFIP) (fun j acc =>
    x ← vec stripe j; Ok (acc ++ le32 x.1)) [];
  let cmd := le32 numOfFIP ++ ips ++ le32 reqIP in
  guard_or Undef (length cmd <=? drCmdLen)%nat;;
  Ok (cmd ++ drop (length cmd) (take drCmdLen junk)).

(** ** The distribution over the queues *)

Section queues.
Context (_slaveCnt d : nat).

Abbreviation quota := (_slaveCnt / d)%nat.
Abbreviation remaining := (_slaveCnt mod d)%nat.

(** The first helper of queue [j]. *)
Definition start (j : nat) : nat := (j * quota + Nat.min j remaining)%nat.

Lemma remaining_lt : (0 < d)%nat -> (remaining < d)%nat.
Proof. intros. apply Nat.mod_upper_bound. lia. Qed.

Lemma start_end : (0 < d)%nat -> start d = _slaveCnt.
Proof. intros Hd. unfold start. pose proof (remaining_lt Hd). rewrite Nat.min_r by lia. pose proof (Nat.div_mod_eq _slaveCnt d). lia. Qed.

Lemma start_S j : start (S j) = (start j + quota + (if (remaining <=? j)%nat then 0 else 1))%nat.
Proof. unfold start. destruct (Nat.leb_spec remaining j); lia. Qed.

Lemma rightBounder_ok : (0 < d)%nat -> rightBounder _slaveCnt d = Ok (start <$> seq 1 d).
Proof.
  intros Hd. unfold rightBounder. rewrite (proj2 (Nat.ltb_lt _ _)) by done. cbn [guard_or]. rewrite bind_ok. f_equal.
  assert (H1 : (if (remaining =? 0)%nat then quota else (quota + 1)%nat) = start 1).
  { unfold start. destruct (Nat.eqb_spec remaining 0); lia. }
  rewrite H1. replace (seq 1 d) with (seq 1 (S (d - 1))) by (f_equal; lia).
  assert (H : forall n, foldl (fun b i => if (remaining <=? i)%nat then b ++ [(List.last b 0 + quota)%nat]
      else b ++ [(List.last b 0 + quota + 1)%nat]) [start 1] (seq 1 n) = start <$> seq 1 (S n)).
  { induction n as [|n IH]; [done|]. rewrite seq_S, foldl_app, IH. cbn [foldl].
    rewrite (seq_S (S n)), fmap_app. cbn [fmap list_fmap].
    assert (Hlast : List.last (start <$> seq 1 (S n)) 0%nat = start (S n)) by (rewrite seq_S, fmap_app; apply last_last).
    rewrite Hlast. replace (1 + S n)%nat with (S (S n)) by lia. rewrite (start_S (S n)).
    change (1 + n)%nat with (S n). destruct (_ <=? _)%nat; do 2 f_equal; lia. }
  apply H.
Qed.

(** The queue of the helper at position [p]. *)
Definition serves (j p : nat) : Prop := (j < d)%nat /\ (start j <= p < start (S j))%nat.

Lemma start_mono j k : (j <= k)%nat -> (start j <= start k)%nat.
Proof. intros. unfold start. nia. Qed.

Lemma next_queue j p :
  (0 < d)%nat -> (p < _slaveCnt)%nat -> p = start (S j) -> (S j < d)%nat /\ (start (S j) < start (S (S j)))%nat.
Proof.
  intros Hd Hp ->. rewrite <- (start_end Hd) in Hp at 1. assert (Hj : (S j < d)%nat).
  { destruct (decide (S j < d)%nat); [done|]. pose proof (start_mono d (S j)). lia. }
  split; [done|]. pose proof (start_S (S j)) as E. destruct (Nat.leb_spec remaining (S j)); [|lia].
  unfold start in Hp. destruct (decide (quota = 0)%nat) as [E0|]; [|lia]. rewrite E0 in Hp. lia.
Qed.
End queues.

Lemma ip2Ctx_ok ips d :
  (0 < d)%nat -> exists js, ip2Ctx ips d = Ok (zip ips (disQ <$> js)) /\ length js = length ips /\
    forall p j, js !! p = Some j -> serves (length ips) d j p.
Proof.
  intros Hd. unfold ip2Ctx. rewrite rightBounder_ok by done. rewrite bind_ok. set (n := length ips).
  match goal with |- context [for_each ips ?f _] => set (step := f) end.
  assert (H : forall l i j ctx, (i + length l = n)%nat -> (j < d)%nat -> (i = 0 /\ j = 0 \/ (start n d j < i))%nat ->
    (i <= start n d (S j))%nat ->
    exists js k, for_each l step (i, j, ctx) = Ok (n, k, ctx ++ zip l (disQ <$> js)) /\ length js = length l /\
      forall p q, js !! p = Some q -> serves n d q (i + p)).
  { induction l as [|ip l IH]; intros i j ctx Hn Hj Hlo Hhi.
    - exists [], j. simpl in *. rewrite app_nil_r. split_and!; [do 3 f_equal; lia|done|done].
    - cbn [length] in Hn. cbn [for_each]. set (j' := if (start n d (S j) <? S i)%nat then S j else j).
      assert (Hb : (start n d <$> seq 1 d) !! j = Some (start n d (S j))) by (by rewrite list_lookup_fmap, lookup_seq_lt).
      assert (Hstep : step ip (i, j, ctx) = Ok (S i, j', ctx ++ [(ip, disQ j')])) by (unfold step; by rewrite Hb).
      rewrite Hstep, bind_ok.
      assert (Hj' : serves n d j' i).
      { unfold j', serves. destruct (Nat.ltb_spec (start n d (S j)) (S i)) as [Hlt|Hge].
        - destruct (next_queue n d j i Hd) as [H1 H2]; [lia|lia|]. lia.
        - split; [done|]. destruct Hlo as [[-> ->]|Hlo]; [|lia]. unfold start in *. lia. }
      pose proof Hj' as [Hjd [Hj1 Hj2]].
      destruct (IH (S i) j' (ctx ++ [(ip, disQ j')])) as (js & k & -> & Hl & Hs); [lia|done|right; clear - Hj1; lia|clear - Hj2; lia|].
      exists (j' :: js), k. rewrite <- app_assoc. split_and!; [done|simpl; lia|]. intros [|p] q Hq.
      + injection Hq as <-. rewrite Nat.add_0_r. done.
      + replace (i + S p)%nat with (S i + p)%nat by lia. by apply Hs. }
  destruct (H ips 0%nat 0%nat []) as (js & k & E & Hl & Hs); [done|done|by left|lia|].
  rewrite E, bind_ok. exists js. split_and!; [done|done|exact Hs].
Qed.

(** [init] gives every helper one of the [d] command queues, so the
    lookups in [rightBounder] are in range; helpers get the queues in order and
    queue [j] serves the helpers from [start j] to [start (j + 1)], that is the
    quota, and one more while [j] is below the remainder. *)
Theorem ip2Ctx_balanced ips d :
  (0 < d)%nat -> exists js, ip2Ctx ips d = Ok (zip ips (disQ <$> js)) /\ length js = length ips /\
    (forall p j, js !! p = Some j -> serves (length ips) d j p) /\
    start (length ips) d d = length ips /\
    forall j, (start (length ips) d (S j) - start (length ips) d j =
      length ips / d + if decide (j < length ips mod d) then 1 else 0)%nat.
Proof.
  intros Hd. destruct (ip2Ctx_ok ips d Hd) as (js & H1 & H2 & H3). exists js. split_and!; try done; [by apply start_end|].
  intros j. rewrite start_S. destruct (Nat.leb_spec (length ips mod d) j); case_decide; lia.
Qed.

Lemma ip2Ctx_balanced_witness :
  ip2Ctx [11; 12; 13; 14; 15] 3 = Ok (zip [11; 12; 13; 14; 15] (disQ <$> [0; 0; 1; 1; 2]%nat)) /\
  start 5 3 3 = 5%nat.
Proof.
  destruct (ip2Ctx_balanced [11; 12; 13; 14; 15] 3 ltac:(lia)) as (js & E & Hl & _ & Hend & _).
  split; [reflexivity|exact Hend].
Defined.

(** ** The searches on sorted arrays *)

Definition sorted_by (key : nat -> option Z) : Prop :=
  forall i j x y, (i <= j)%nat -> key i = Some x -> key j = Some y -> x <= y.

Lemma vec_ok {A} (v : list A) i x : v !! i = Some x -> vec v (Z.of_nat i) = Ok x.
Proof.
  intros Hx. pose proof (lookup_lt_Some _ _ _ Hx). unfold vec.
  rewrite (proj2 (Z.leb_le _ _)), (proj2 (Z.ltb_lt _ _)) by lia. cbn [andb]. by rewrite Nat2Z.id, Hx.
Qed.

Lemma vec_inside {A} (v : list A) i : 0 <= i < Z.of_nat (length v) -> exists x, vec v i = Ok x /\ v !! Z.to_nat i = Some x.
Proof.
  intros Hi. destruct (lookup_lt_is_Some_2 v (Z.to_nat i)) as [x Hx]; [lia|]. exists x. split; [|done].
  rewrite <- (Z2Nat.id i) by lia. by apply vec_ok.
Qed.

Lemma mid_between s e : s < e -> s <= (s + e) / 2 < e.
Proof. intros. split; [apply Z.div_le_lower_bound; lia|apply Z.div_lt_upper_bound; lia]. Qed.

Lemma searchCtx_run fuel arr target s e (p : nat) :
  sorted_by (fun i => arr !! i) -> 0 <= s <= Z.of_nat p -> Z.of_nat p <= e < Z.of_nat (length arr) ->
  Z.of_nat (length arr) < 2^64 -> e - s <= Z.of_nat fuel -> arr !! p = Some target ->
  exists i, searchCtx fuel arr target s e = Ok (Z.of_nat i) /\ arr !! i = Some target.
Proof.
  intros Hsort. revert s e. induction fuel as [|f IH]; intros s e Hs He Hlen Hf Hp.
  - cbn [searchCtx]. destruct (Z.ltb_spec s e); [lia|]. exists p. split; [f_equal; lia|done].
  - cbn [searchCtx]. destruct (Z.ltb_spec s e) as [Hlt|Hge]; [|exists p; split; [f_equal; lia|done]].
    pose proof (mid_between s e Hlt) as Hm. set (mid := (s + e) / 2) in *.
    destruct (vec_inside arr mid) as (x & -> & Hx); [lia|]. rewrite bind_ok.
    destruct (Z.ltb_spec x target) as [Hxt|Hxt].
    + apply IH; [|lia|done|lia|done]. split; [lia|]. destruct (decide (Z.to_nat mid < p)%nat); [lia|].
      pose proof (Hsort p (Z.to_nat mid) _ _ ltac:(lia) Hp Hx). lia.
    + destruct (Z.ltb_spec target x) as [Htx|Htx].
      * destruct (decide (p < Z.to_nat mid)%nat) as [Hpm|Hpm].
        -- rewrite Z.mod_small by lia. apply IH; (done || lia).
        -- pose proof (Hsort (Z.to_nat mid) p _ _ ltac:(lia) Hx Hp). lia.
      * exists (Z.to_nat mid). assert (x = target) as <- by lia. split; [f_equal; lia|done].
Qed.

(** On helpers sorted by address, [searchCtx] finds an address that is among
    them: it ends, with an index that holds the address, and its unsigned
    indices do not wrap. *)
Theorem searchCtx_finds arr target :
  sorted_by (fun i => arr !! i) -> target ∈ arr -> Z.of_nat (length arr) < 2^31 ->
  exists i, searchCtx (length arr) arr target 0 (Z.of_nat (length arr) - 1) = Ok (Z.of_nat i) /\ arr !! i = Some target.
Proof.
  intros Hsort [p Hp]%list_elem_of_lookup Hlen. pose proof (lookup_lt_Some _ _ _ Hp).
  apply (searchCtx_run _ arr target 0 _ p); (done || lia).
Qed.

Lemma searchCtx_finds_witness : exists i, searchCtx 4 [3; 5; 8; 9] 8 0 3 = Ok (Z.of_nat i) /\ [3; 5; 8; 9] !! i = Some 8.
Proof.
  apply (searchCtx_finds [3; 5; 8; 9] 8); [|decided|reflexivity]. intros i j x y Hij Hx Hy.
  do 4 (destruct i as [|i]; [do 4 (destruct j as [|j]; [simpl in *; first [lia|injection Hx as <-; injection Hy as <-; lia]|]); discriminate|]).
  discriminate.
Defined.

(** On addresses that are not sorted a helper is taken for another one, or the
    search wraps below zero and reads out of range. *)
Lemma searchCtx_unsorted :
  searchCtx 3 [8; 9; 5] 5 0 2 = Ok 0 /\ [8; 9; 5] !! 0%nat <> Some 5 /\ searchCtx 2 [8; 5] 5 0 1 = Fault Undef.
Proof. split_and!; [reflexivity|discriminate|reflexivity]. Qed.

Lemma holder_run fuel stripe ip s e :
  sorted_by (fun i => fst <$> stripe !! i) -> 0 <= s < Z.of_nat (length stripe) -> e < Z.of_nat (length stripe) ->
  e - s <= Z.of_nat fuel ->
  (forall p x, stripe !! p = Some x -> x.1 = ip -> s <= Z.of_nat p <= e) ->
  exists r, holder_loop fuel stripe ip s e = Ok r /\
    ((r = -1 /\ ip ∉ stripe.*1) \/ exists p x, r = Z.of_nat p /\ stripe !! p = Some x /\ x.1 = ip).
Proof.
  intros Hsort. assert (Hend : forall s e, 0 <= s < Z.of_nat (length stripe) -> e <= s ->
    (forall p x, stripe !! p = Some x -> x.1 = ip -> s <= Z.of_nat p <= e) ->
    exists r, (x ← vec stripe s; Ok (if x.1 =? ip then s else -1)) = Ok r /\
      ((r = -1 /\ ip ∉ stripe.*1) \/ exists p x, r = Z.of_nat p /\ stripe !! p = Some x /\ x.1 = ip)).
  { clear s e. intros s e Hs He Hin. destruct (vec_inside stripe s Hs) as (x & -> & Hx). rewrite bind_ok.
    destruct (Z.eqb_spec x.1 ip) as [E|E].
    - exists s. split; [done|]. right. exists (Z.to_nat s), x. split_and!; [lia|done|done].
    - exists (-1). split; [done|]. left. split; [done|]. intros (y & -> & [p Hp]%list_elem_of_lookup)%list_elem_of_fmap.
      specialize (Hin p y Hp eq_refl). replace p with (Z.to_nat s) in Hp by lia. congruence. }
  revert s e. induction fuel as [|f IH]; intros s e Hs He Hf Hin.
  - cbn [holder_loop]. destruct (Z.ltb_spec s e); [lia|]. by apply (Hend s e).
  - cbn [holder_loop]. destruct (Z.ltb_spec s e) as [Hlt|Hge]; [|by apply (Hend s e)].
    pose proof (mid_between s e Hlt) as Hm. set (mid := (s + e) / 2) in *.
    destruct (vec_inside stripe mid) as (x & -> & Hx); [lia|]. rewrite bind_ok.
    destruct (Z.eqb_spec x.1 ip) as [E|E].
    { exists mid. split; [done|]. right. exists (Z.to_nat mid), x. split_and!; [lia|done|done]. }
    assert (Hkey : forall p y, stripe !! p = Some y -> y.1 = ip ->
      ((p <= Z.to_nat mid)%nat -> ip <= x.1) /\ ((Z.to_nat mid <= p)%nat -> x.1 <= ip)).
    { intros p y Hp <-. split; intros Hle; eapply Hsort; try exact Hle; cbv beta; by rewrite ?Hp, ?Hx. }
    destruct (Z.ltb_spec ip x.1) as [Hix|Hix]; apply IH; try lia; intros p y Hp Hy;
      specialize (Hin p y Hp Hy); destruct (Hkey p y Hp Hy) as [H1 H2];
      destruct (decide (p <= Z.to_nat mid)%nat); try specialize (H1 ltac:(lia)); try specialize (H2 ltac:(lia)); lia.
Qed.

(** A requestor without a block is never found, in any order of the stripe. *)
Lemma holder_absent fuel stripe ip s e :
  ip ∉ stripe.*1 -> 0 <= s < Z.of_nat (length stripe) -> e < Z.of_nat (length stripe) -> e - s <= Z.of_nat fuel ->
  holder_loop fuel stripe ip s e = Ok (-1).
Proof.
  intros Hno. assert (Hne : forall i x, vec stripe i = Ok x -> (x.1 =? ip) = false).
  { intros i x Hx. apply Z.eqb_neq. intros <-. apply Hno. unfold vec in Hx. case_match; [|done]. res_inv.
    apply list_elem_of_lookup_2 in Hx. by apply (list_elem_of_fmap_2 fst) in Hx. }
  revert s e. induction fuel as [|f IH]; intros s e Hs He Hf; cbn [holder_loop].
  - destruct (Z.ltb_spec s e); [lia|]. destruct (vec_inside stripe s Hs) as (x & Hv & _).
    rewrite Hv, bind_ok. by rewrite (Hne _ _ Hv).
  - destruct (Z.ltb_spec s e) as [Hlt|]; destruct (vec_inside stripe s Hs) as (x & Hv & _).
    + pose proof (mid_between s e Hlt) as Hm. destruct (vec_inside stripe ((s + e) / 2)) as (y & Hy & _); [lia|].
      rewrite Hy, bind_ok, (Hne _ _ Hy). destruct (ip <? y.1); apply IH; lia.
    + rewrite Hv, bind_ok. by rewrite (Hne _ _ Hv).
Qed.

(** On a stripe sorted by address, [isRequestorHolder] always answers: the
    index of a block the requestor holds, or -1 exactly when it holds none. *)
Theorem isRequestorHolder_correct stripe requestorIP :
  sorted_by (fun i => fst <$> stripe !! i) -> stripe <> [] ->
  exists r, isRequestorHolder stripe requestorIP = Ok r /\
    ((r = -1 /\ requestorIP ∉ stripe.*1) \/
     exists p x, r = Z.of_nat p /\ stripe !! p = Some x /\ x.1 = requestorIP).
Proof.
  intros Hsort Hne. assert (0 < length stripe)%nat by (destruct stripe; [done|simpl; lia]).
  apply holder_run; try lia; [done|]. intros p x Hp _. apply lookup_lt_Some in Hp. lia.
Qed.

Lemma isRequestorHolder_correct_witness :
  isRequestorHolder [(3, []); (5, []); (8, [])] 6 = Ok (-1) /\ 6 ∉ [3; 5; 8].
Proof.
  destruct (isRequestorHolder_correct [(3, []); (5, []); (8, [])] 6) as (r & Hr & [[-> Hno]|(p & x & -> & Hp & Hx)]).
  - intros i j x y Hij Hx Hy.
    do 3 (destruct i as [|i]; [do 3 (destruct j as [|j]; [simpl in *; first [lia|injection Hx as <-; injection Hy as <-; lia]|]); discriminate|]).
    discriminate.
  - discriminate.
  - split; [exact Hr|exact Hno].
  - assert (C : isRequestorHolder [(3, []); (5, []); (8, [])] 6 = Ok (-1)) by reflexivity.
    rewrite C in Hr. injection Hr as Hr. lia.
Defined.

(** ** The cyclic reply *)

(** For the [ecK] surviving blocks of a stripe the reply has exactly the
    [4 * (ecK + 1)] bytes allocated for it: the number of helpers before the
    last, their addresses in order and the requestor's; with any other number
    of blocks the program exits. *)
Theorem setupCyclReply_layout junk ecK reqIP stripe :
  0 < ecK < 2^31 -> Z.of_nat (length stripe) < 2^31 ->
  setupCyclReply junk ecK reqIP stripe =
    if decide (Z.of_nat (length stripe) = ecK)
    then Ok (ints ([ecK - 1] ++ take (length stripe - 1) stripe.*1 ++ [reqIP])) else Fault (Exit 1).
Proof.
  intros Hk Hl. unfold setupCyclReply. rewrite (proj2 (Z.ltb_lt _ _)) by lia. cbn [guard_or]. rewrite bind_ok.
  case_decide as E.
  - rewrite Z.mod_small, (proj2 (Z.eqb_eq _ _)) by lia. cbn [guard_or]. rewrite bind_ok.
    assert (H : forall n acc, (n <= length stripe)%nat ->
      for_each (seqZ 0 (Z.of_nat n)) (fun j acc => x ← vec stripe j; Ok (acc ++ le32 x.1)) acc =
        Ok (acc ++ ints (take n stripe.*1))).
    { induction n as [|n IH]; intros acc Hn; [by rewrite app_nil_r|].
      replace (Z.of_nat (S n)) with (Z.of_nat n + 1) by lia. rewrite seqZ_app, for_each_app, IH by lia. rewrite bind_ok.
      destruct (vec_inside stripe (Z.of_nat n)) as (x & Hv & Hx); [lia|]. rewrite Nat2Z.id in Hx.
      rewrite Z.add_0_l, seqZ_cons, seqZ_nil by lia. cbn [for_each]. rewrite Hv, !bind_ok.
      rewrite (take_S_r _ _ x.1) by by rewrite list_lookup_fmap, Hx.
      rewrite ints_app, app_assoc. cbn [ints]. by rewrite app_nil_r. }
    replace (ecK - 1) with (Z.of_nat (length stripe - 1)) by lia. rewrite H by lia. rewrite bind_ok.
    assert (Hlen : length (le32 (Z.of_nat (length stripe - 1)) ++ ([] ++ ints (take (length stripe - 1) stripe.*1)) ++ le32 reqIP) =
      (4 * Z.to_nat (ecK + 1))%nat).
    { rewrite !length_app, !length_le32, length_ints, length_take, length_fmap. simpl. lia. }
    rewrite (proj2 (Nat.leb_le _ _)) by lia. cbn [guard_or]. rewrite bind_ok, Hlen, drop_ge by (rewrite length_take; lia).
    rewrite app_nil_r, !ints_app. cbn [ints app]. by rewrite !app_nil_r.
  - destruct (Z.eqb_spec (ecK - 1) ((Z.of_nat (length stripe) - 1) mod 2 ^ 64)) as [E2|E2]; [|done]. exfalso.
    destruct stripe as [|x stripe]; [|].
    { assert (E3 : (Z.of_nat 0 - 1) mod 2^64 = 2^64 - 1) by reflexivity. cbn [length] in E2. rewrite E3 in E2. lia. }
    cbn [length] in *. rewrite Z.mod_small in E2 by lia. lia.
Qed.

Lemma setupCyclReply_layout_witness :
  setupCyclReply (zeros 16) 3 7 [(4, []); (5, []); (6, [])] = Ok (ints [2; 4; 5; 7]) /\
  setupCyclReply (zeros 16) 3 7 [(4, [])] = Fault (Exit 1).
Proof.
  split; [rewrite (setupCyclReply_layout (zeros 16) 3 7 [(4, []); (5, []); (6, [])]) by (simpl; lia); reflexivity|].
  rewrite (setupCyclReply_layout (zeros 16) 3 7 [(4, [])]) by (simpl; lia). reflexivity.
Defined.
