(* ===== verification/Packet.v ===== *)
(** * Packets and connections of a repair worker (DRWorker.cc, Computation.cc)

    What the workers of all the repair schemes share: the exclusive or of two
    packets ([XORBuffers], eight bytes at a time), the read of one packet from
    a block file ([readPacketFromDisk]), the search for a block file in the
    subdirectories ([openLocalFile]) and the search for the connection to
    another node among the sorted ones ([init], [findCtx]); then the lists of
    Redis, the packets of a block, and the sums the liveness proofs of the
    schemes count with. *)
From Stdlib Require Import Ascii Sorted.
From stdpp Require Import strings sorting.
From S2P Require Import Prelude Command Text Config Galois GF256 Jerasure Gauss Encode Disk Coordinator.

(** ** [Computation::XORBuffers] *)

(** [sizeof(unsigned long long)] *)
Definition ULL : nat := 8.

(** The word [i] of a buffer, as its bytes. *)
Definition word (buf : list Z) (i : nat) : list Z := take ULL (drop (ULL * i) buf).

(** The loop over the words: the bytes after the last whole word stay. *)
Definition XORBuffers (buf1 buf2 : list Z) (len : nat) : res (list Z) :=
  let llen := (len / ULL)%nat in
  guard_or Undef (bool_decide (ULL * llen <= length buf1 /\ ULL * llen <= length buf2)%nat);;
  Ok (foldl (fun lbuf1 i => blit lbuf1 (ULL * i) (zip_with Z.lxor (word lbuf1 i) (word buf2 i))) buf1 (seq 0 llen)).

(** ** Reading a packet *)

(** The files of the block directory [_blkDir], by path. *)
Definition blkdir : Type := gmap str (list Z).

Definition subdir (subIndex : nat) (fileName : str) : str :=
  lit "subdir" ++ to_string (Z.of_nat subIndex) ++ lit "/" ++ fileName.

(** The search for a block: the block directory, then its subdirectories 0 to 10. *)
Definition find_block (dir : blkdir) (fileName : str) : option (list Z) :=
  match dir !! fileName with
  | Some f => Some f
  | None => x ← list_find (fun p => is_Some (dir !! p)) ((fun i => subdir i fileName) <$> seq 0 11); dir !! x.2
  end.

(** [openLocalFile]: a missing block ends the program. *)
Definition openLocalFile (dir : blkdir) (localBlkName : str) : res (list Z) :=
  res_of_option (Exit 1) (find_block dir localBlkName).

Section read.
Context `{DIO : DiskIO}.

(** [readPacketFromDisk]: a failed read ends the program. *)
Definition readPacketFromDisk (file content : list Z) (packetSize base : nat) : res (list Z) :=
  read_loop packetSize file content packetSize base 0.

(** The loop of [PipeDRWorker::readWorker], which tries again after an error
    ([pread] answers the same again); [base] is an [int], so an offset of 2 GB
    and more is negative and every read of it fails. *)
Definition retry_read (file content : list Z) (packetSize base : nat) : res (list Z) :=
  guard_or Blocked (bool_decide (is_s32 (Z.of_nat base)));;
  match read_loop packetSize file content packetSize base 0 with
  | Fault (Exit _) => Fault Blocked
  | r => r
  end.
End read.

(** [pktOutput] (Util/gettime.cpp), which decides whether a line of debug output
    is printed: with three packets it divides by zero for the one in between. *)
Definition pktOutput (pktId packetCnt : nat) : res bool :=
  if bool_decide (pktId = 0 \/ packetCnt - 1 <= pktId)%nat then Ok true else
  guard_or Undef (negb (packetCnt / 4 =? 0)%nat);;
  Ok (pktId mod (packetCnt / 4) =? 0)%nat.

(** ** Connections *)

(** [init]: a connection to every helper, sorted by address; the connection to
    a node is written as its address. *)
Definition slavesCtx (slaveIP : list Z) : list Z := merge_sort Z.le slaveIP.

(** [findCtx]; [None] is [NULL]. *)
Fixpoint findCtx_loop (fuel : nat) (arr : list Z) (ip sid eid : Z) : res (option Z) :=
  if sid <? eid then
    match fuel with
    | O => Fault Blocked
    | S f =>
        let mid := (sid + eid) / 2 in
        x ← vec arr mid;
        if x =? ip then Ok (Some x)
        else if x <? ip then findCtx_loop f arr ip (mid + 1) eid
        else findCtx_loop f arr ip sid (mid - 1)
    end
  else
    x ← vec arr sid;
    Ok (if x =? ip then Some x else None).

Definition findCtx (arr : list Z) (ip : Z) : res (option Z) :=
  findCtx_loop (length arr) arr ip 0 (Z.of_nat (length arr) - 1).

(** ** The exclusive or of packets *)

Lemma foldl_words buf1 buf2 n :
  (ULL * n <= length buf1)%nat -> (ULL * n <= length buf2)%nat ->
  foldl (fun lbuf1 i => blit lbuf1 (ULL * i) (zip_with Z.lxor (word lbuf1 i) (word buf2 i))) buf1 (seq 0 n) =
    zip_with Z.lxor (take (ULL * n) buf1) (take (ULL * n) buf2) ++ drop (ULL * n) buf1.
Proof.
  induction n as [|n IH]; intros H1 H2; [by rewrite Nat.mul_0_r, drop_0|].
  rewrite seq_S, foldl_app, IH by (unfold ULL in *; lia). cbn [foldl]. rewrite Nat.add_0_l.
  set (a := zip_with Z.lxor (take (ULL * n) buf1) (take (ULL * n) buf2)).
  assert (Ha : length a = (ULL * n)%nat) by (unfold a; rewrite length_zip_with, !length_take; lia).
  replace (ULL * S n)%nat with (ULL * n + ULL)%nat in * by lia.
  assert (Hw : word (a ++ drop (ULL * n) buf1) n = word buf1 n).
  { unfold word. rewrite drop_app_ge, Ha, Nat.sub_diag, drop_0 by lia. done. }
  rewrite Hw. unfold blit. rewrite take_app_length' by done.
  assert (Hz : length (zip_with Z.lxor (word buf1 n) (word buf2 n)) = ULL)
    by (unfold word; rewrite length_zip_with, !length_take, !length_drop; lia).
  rewrite Hz, drop_app_ge by lia. rewrite Ha, drop_drop, app_assoc. f_equal; [|f_equal; lia].
  rewrite <- !take_take_drop. unfold a, word.
  rewrite zip_with_app by (rewrite !length_take; lia). done.
Qed.

(** [XORBuffers] is the exclusive or of the two packets byte by byte when
    their size is a multiple of eight, as the comment in the source assumes;
    otherwise the [len mod 8] last bytes of the first packet do not change, and
    a packet shorter than the words of [len] is overrun. *)
Theorem XORBuffers_spec buf1 buf2 len :
  length buf1 = len -> length buf2 = len ->
  XORBuffers buf1 buf2 len =
    Ok (zip_with Z.lxor (take (len - len mod ULL) buf1) (take (len - len mod ULL) buf2) ++ drop (len - len mod ULL) buf1).
Proof.
  intros H1 H2. pose proof (Nat.div_mod_eq len ULL) as E. pose proof (Nat.mod_upper_bound len ULL ltac:(done)) as Hm.
  unfold XORBuffers. rewrite bool_decide_true by lia. cbn [guard_or]. rewrite bind_ok, foldl_words by lia.
  by replace (ULL * (len / ULL))%nat with (len - len mod ULL)%nat by lia.
Qed.

Lemma XORBuffers_spec_witness :
  XORBuffers [1;2;3;4;5;6;7;8;9] [1;1;1;1;1;1;1;1;1] 9 = Ok [0;3;2;5;4;7;6;9;9].
Proof. exact (XORBuffers_spec [1;2;3;4;5;6;7;8;9] [1;1;1;1;1;1;1;1;1] 9 eq_refl eq_refl). Defined.

Lemma XORBuffers_length buf1 buf2 len b : XORBuffers buf1 buf2 len = Ok b -> length b = length buf1.
Proof.
  unfold XORBuffers. generalize (len / ULL)%nat. intros n. case_bool_decide as H; [|done]. cbn [guard_or]. rewrite bind_ok. intros E.
  injection E as <-. destruct H as [H1 H2]. rewrite foldl_words by done.
  rewrite length_app, length_zip_with, !length_take, length_drop. lia.
Qed.

(** Packets of whole words. *)
Lemma xor_packets buf1 buf2 len :
  length buf1 = len -> length buf2 = len -> (len mod ULL = 0)%nat ->
  XORBuffers buf1 buf2 len = Ok (zip_with Z.lxor buf1 buf2).
Proof.
  intros H1 H2 E. pose proof (Nat.div_mod_eq len ULL).
  unfold XORBuffers. rewrite bool_decide_true by lia. cbn [guard_or]. rewrite bind_ok, foldl_words by lia.
  rewrite !take_ge, drop_ge by lia. by rewrite app_nil_r.
Qed.

Lemma read_packet `{DL : DiskLaws} file content size base :
  length content = size -> (base + size <= length file)%nat ->
  readPacketFromDisk file content size base = Ok (take size (drop base file)).
Proof. intros Hl Hb. apply read_loop_ok; (done || lia). Qed.

Lemma retry_packet `{DL : DiskLaws} file content size base :
  length content = size -> (base + size <= length file)%nat -> is_s32 (Z.of_nat base) ->
  retry_read file content size base = Ok (take size (drop base file)).
Proof.
  intros Hl Hb Hs. unfold retry_read. rewrite bool_decide_true by done. cbn [guard_or].
  rewrite bind_ok, read_loop_ok; (done || lia).
Qed.

(** ** The connections *)

Lemma sorted_lookup l : StronglySorted Z.le l -> sorted_by (fun i => l !! i).
Proof.
  intros H i j x y Hij Hx Hy. destruct (decide (i = j)) as [->|Hne]; [replace y with x by congruence; lia|].
  revert i j Hij Hne Hx Hy. induction H as [|z l Hs IH Hall]; intros i j Hij Hne Hx Hy; [done|].
  destruct i as [|i], j as [|j]; try lia.
  - injection Hx as ->. by eapply (proj1 (Forall_lookup _ _) Hall j).
  - apply (IH i j); (done || lia).
Qed.

Lemma slavesCtx_sorted ips : sorted_by (fun i => slavesCtx ips !! i).
Proof. apply sorted_lookup, Sorted_StronglySorted, Sorted_merge_sort; [exact Z.le_trans|exact Z.le_total]. Qed.

Lemma slavesCtx_in ips ip : ip ∈ slavesCtx ips <-> ip ∈ ips.
Proof. unfold slavesCtx. by rewrite merge_sort_Permutation. Qed.

(** [findCtx] is the search of [isRequestorHolder] on the addresses. *)
#[local] Abbreviation no_blk := (fun x : Z => (x, @nil ascii)).

Lemma findCtx_holder fuel arr ip s e :
  0 <= s -> findCtx_loop fuel arr ip s e = (r ← holder_loop fuel (no_blk <$> arr) ip s e; Ok (if r =? -1 then None else Some ip)).
Proof.
  assert (Hv : forall i, vec (no_blk <$> arr) i = (x ← vec arr i; Ok (x, []))).
  { intros i. unfold vec. rewrite length_fmap. case_match; [|done]. rewrite list_lookup_fmap. by destruct (arr !! _). }
  revert s e. induction fuel as [|f IH]; intros s e Hs; cbn [findCtx_loop holder_loop].
  - destruct (Z.ltb_spec s e); [done|]. rewrite Hv. destruct (vec arr s) as [x|]; [|done]. rewrite !bind_ok. cbn.
    destruct (Z.eqb_spec x ip) as [->|]; [|done]. cbn. destruct (Z.eqb_spec s (-1)); [lia|done].
  - destruct (Z.ltb_spec s e) as [Hlt|].
    + pose proof (mid_between s e Hlt). rewrite Hv. destruct (vec arr ((s + e) / 2)) as [x|]; [|done]. rewrite !bind_ok. cbn [fst].
      destruct (Z.eqb_spec x ip) as [->|Hne]. { cbn. destruct (Z.eqb_spec ((s + e) / 2) (-1)); [lia|done]. }
      destruct (Z.ltb_spec x ip), (Z.ltb_spec ip x); try lia; apply IH; lia.
    + rewrite Hv. destruct (vec arr s) as [x|]; [|done]. rewrite !bind_ok. cbn.
      destruct (Z.eqb_spec x ip) as [->|]; [|done]. cbn. destruct (Z.eqb_spec s (-1)); [lia|done].
Qed.

Lemma findCtx_sorted arr ip : sorted_by (fun i => arr !! i) -> ip ∈ arr -> findCtx arr ip = Ok (Some ip).
Proof.
  intros Hsort Hin. unfold findCtx. rewrite findCtx_holder by lia.
  assert (Hne : (0 < length arr)%nat) by (destruct arr; [by apply not_elem_of_nil in Hin|simpl; lia]).
  destruct (holder_run (length arr) (no_blk <$> arr) ip 0 (Z.of_nat (length arr) - 1)) as (r & -> & Hr);
    rewrite ?length_fmap; try lia.
  - intros i j x y Hij Hx Hy. rewrite list_lookup_fmap in Hx, Hy. apply (Hsort i j x y Hij).
    + by destruct (arr !! i).
    + by destruct (arr !! j).
  - intros p x Hp _. apply lookup_lt_Some in Hp. rewrite length_fmap in Hp. lia.
  - rewrite bind_ok. destruct Hr as [[-> Hno]|(p & x & -> & _)].
    + destruct Hno. apply list_elem_of_fmap. exists (ip, []). split; [done|]. by apply (list_elem_of_fmap_2 no_blk).
    + destruct (Z.eqb_spec (Z.of_nat p) (-1)); [lia|done].
Qed.

(** A worker finds its connection to every helper. *)
Lemma findCtx_helper ips ip : ip ∈ ips -> findCtx (slavesCtx ips) ip = Ok (Some ip).
Proof. intros Hin. apply findCtx_sorted; [apply slavesCtx_sorted|by apply slavesCtx_in]. Qed.

(** ** The lists of the Redis servers, by address and key *)

Abbreviation redis := (gmap (Z * str) (list (list Z))).

Definition waiting_in (r : redis) (ip : Z) (key : str) : list (list Z) := default [] (r !! (ip, key)).

Definition RPUSH (ip : Z) (key : str) (v : list Z) (r : redis) : redis :=
  <[(ip, key) := waiting_in r ip key ++ [v]]> r.

(** [None]: the list is empty and the pop waits. *)
Definition BLPOP (ip : Z) (key : str) (r : redis) : option (list Z * redis) :=
  match waiting_in r ip key with
  | v :: vs => Some (v, <[(ip, key) := vs]> r)
  | [] => None
  end.

Lemma waiting_push ip key v r ip' key' :
  waiting_in (RPUSH ip key v r) ip' key' =
    if decide ((ip, key) = (ip', key')) then waiting_in r ip key ++ [v] else waiting_in r ip' key'.
Proof.
  unfold RPUSH, waiting_in. case_decide as E; [injection E as -> ->; by rewrite lookup_insert_eq|by rewrite lookup_insert_ne].
Qed.

Lemma pop_waiting ip key r v vs :
  waiting_in r ip key = v :: vs -> exists r', BLPOP ip key r = Some (v, r') /\
    forall ip' key', waiting_in r' ip' key' = if decide ((ip, key) = (ip', key')) then vs else waiting_in r ip' key'.
Proof.
  intros E. unfold BLPOP. rewrite E. eexists. split; [done|]. intros ip' key'. unfold waiting_in.
  case_decide as H; [injection H as -> ->; by rewrite lookup_insert_eq|by rewrite lookup_insert_ne].
Qed.

Lemma pop_inv ip key r v r' :
  BLPOP ip key r = Some (v, r') -> exists vs, waiting_in r ip key = v :: vs /\
    forall ip' key', waiting_in r' ip' key' = if decide ((ip, key) = (ip', key')) then vs else waiting_in r ip' key'.
Proof.
  intros E. destruct (waiting_in r ip key) as [|v' vs] eqn:Ew; [unfold BLPOP in E; by rewrite Ew in E|].
  destruct (pop_waiting ip key r v' vs Ew) as (r2 & E2 & H). rewrite E in E2. injection E2 as -> ->. by exists vs.
Qed.

(** ** The packets of a block *)

(** The packet [i] of a block. *)
Definition packet (conf : Config) (blk : list Z) (i : nat) : list Z :=
  take (_packetSize conf) (drop (_packetSkipSize conf + i * _packetSize conf) blk).

(** The configurations the packet arithmetic is written for: whole words, a
    debug output that does not divide by zero, and a block below 2 GB. *)
Record packets_ok (conf : Config) : Prop := {
  po_words : (_packetSize conf mod ULL = 0)%nat;
  po_debug : (10 <= _packetCnt conf \/ _packetCnt conf <= 2)%nat;
  po_base : Z.of_nat (_packetSkipSize conf + _packetCnt conf * _packetSize conf) < 2^31
}.

Lemma pktOutput_ok conf i : packets_ok conf -> (i < _packetCnt conf)%nat -> exists b, pktOutput i (_packetCnt conf) = Ok b.
Proof.
  intros Hp Hi. unfold pktOutput. case_bool_decide as Hd; [by eexists|].
  destruct (po_debug _ Hp); [|lia]. destruct (Nat.eqb_spec (_packetCnt conf / 4) 0) as [E|]; [|by eexists].
  apply Nat.div_small_iff in E; lia.
Qed.

(** A block file with all its packets. *)
Definition blk_file (conf : Config) (blk : list Z) : Prop :=
  (_packetSkipSize conf + _packetCnt conf * _packetSize conf <= length blk)%nat /\ Forall is_byte blk.

Lemma seq_pop {A} (f : nat -> A) a n : (0 < n)%nat -> f <$> seq a n = f a :: (f <$> seq (S a) (n - 1)).
Proof. intros. destruct n as [|n]; [lia|]. cbn. by rewrite Nat.sub_0_r. Qed.

Lemma seq_push {A} (f : nat -> A) a n : (f <$> seq a n) ++ [f (a + n)%nat] = f <$> seq a (S n).
Proof. by rewrite seq_S, fmap_app. Qed.

(** Packets put together again. *)
Lemma length_packets (f : nat -> list Z) m s :
  (forall i, (i < m)%nat -> length (f i) = s) -> length (concat (f <$> seq 0 m)) = (m * s)%nat.
Proof.
  intros Hf. induction m as [|m IH]; [done|]. rewrite seq_S, fmap_app, concat_app, length_app, IH by auto with lia.
  cbn. rewrite app_nil_r, Hf; lia.
Qed.

Lemma concat_packets (f : nat -> list Z) m s F :
  (forall i, (i < m)%nat -> length (f i) = s) -> length F = (m * s)%nat ->
  (forall i q, (i < m)%nat -> (q < s)%nat -> f i !!! q = F !!! (i * s + q)%nat) ->
  concat (f <$> seq 0 m) = F.
Proof.
  revert F. induction m as [|m IH]; intros F Hf Hl Hq; [by destruct F|].
  rewrite seq_S, fmap_app, concat_app, (IH (take (m * s) F)).
  - cbn. rewrite app_nil_r. rewrite <- (take_drop (m * s) F) at 2. f_equal.
    apply list_eq_total; [rewrite length_drop, Hf; lia|]. intros q Hlt. rewrite Hf in Hlt by lia.
    rewrite Hq by lia. rewrite !list_lookup_total_alt, lookup_drop. done.
  - auto with lia.
  - rewrite length_take. lia.
  - intros i q Hi Hlt. rewrite Hq by lia. rewrite !list_lookup_total_alt, lookup_take_lt by nia. done.
Qed.

(** ** The progress of threads: sums of their counters *)

Lemma sum_insert {A} (f : A -> nat) l x w w' :
  l !! x = Some w -> f w' = S (f w) -> sum_list_with f (<[x := w']> l) = S (sum_list_with f l).
Proof.
  intros Hx E. revert x Hx. induction l as [|z l IH]; intros [|x] Hx; [done|done|injection Hx as ->; cbn; lia|].
  change (f z + sum_list_with f (<[x := w']> l) = S (f z + sum_list_with f l))%nat. rewrite (IH x Hx). lia.
Qed.

Lemma sum_bound {A} (f : A -> nat) l b :
  (forall x w, l !! x = Some w -> (f w <= b)%nat) ->
  (sum_list_with f l <= length l * b)%nat /\
  ((sum_list_with f l = length l * b)%nat -> forall x w, l !! x = Some w -> f w = b).
Proof.
  induction l as [|z l IH]; intros Hb; cbn; [by split|].
  pose proof (Hb 0%nat z eq_refl) as Hz. destruct IH as [H1 H2]; [intros x w; exact (Hb (S x) w)|].
  split; [lia|]. intros E [|x] w Hx; cbn in Hx; [injection Hx as <-; lia|]. apply (H2 ltac:(lia) x w Hx).
Qed.

Lemma sum_const {A} (f : A -> nat) l b : (forall x w, l !! x = Some w -> f w = b) -> sum_list_with f l = (length l * b)%nat.
Proof.
  induction l as [|z l IH]; intros Hb; [done|]. cbn. rewrite (Hb 0%nat z eq_refl), IH; [lia|]. intros x w. exact (Hb (S x) w).
Qed.

(** The sum of the counters of some threads under that of their bounds. *)
Lemma sum_capacity {A} (f : A -> nat) (g : nat -> nat) a l :
  (forall i w, l !! i = Some w -> (f w <= g (a + i))%nat) ->
  (sum_list_with f l <= sum_list_with g (seq a (length l)))%nat /\
  (sum_list_with f l = sum_list_with g (seq a (length l)) -> forall i w, l !! i = Some w -> f w = g (a + i)%nat).
Proof.
  revert a. induction l as [|z l IH]; intros a Hb; cbn; [by split|].
  pose proof (Hb 0%nat z eq_refl) as Hz. rewrite Nat.add_0_r in Hz. destruct (IH (S a)) as [H1 H2].
  { intros i w Hi. replace (S a + i)%nat with (a + S i)%nat by lia. exact (Hb (S i) w Hi). }
  split; [lia|]. intros E [|i] w Hi; cbn in Hi; [injection Hi as <-; rewrite Nat.add_0_r; lia|].
  replace (a + S i)%nat with (S a + i)%nat by lia. apply (H2 ltac:(lia) i w Hi).
Qed.

(** ** Two nested loops as one counter *)

(** A loop over packets around one over [nj] jobs, as the number [t] of its
    iterations so far: the iteration [t] is for the packet [t / nj] and the job
    [t mod nj].  The job [j] has had [share nj j t] of them. *)
Definition share (nj j t : nat) : nat := (t / nj + if j <? t mod nj then 1 else 0)%nat.

Section shares.
Context (nj : nat) (Hnj : (0 < nj)%nat).

Lemma div_mod_S t :
  ((S (t mod nj) < nj /\ (S t) / nj = t / nj /\ (S t) mod nj = S (t mod nj)) \/
   (S (t mod nj) = nj /\ (S t) / nj = S (t / nj) /\ (S t) mod nj = 0))%nat.
  pose proof (Nat.div_mod_eq t nj). pose proof (Nat.mod_upper_bound t nj ltac:(lia)).
  destruct (decide (S (t mod nj) < nj)%nat) as [Hlt|Hge]; [left|right].
  - assert (E : S t = (nj * (t / nj) + S (t mod nj))%nat) by lia.
    rewrite <- (Nat.div_unique (S t) nj (t / nj) (S (t mod nj)) Hlt E), <- (Nat.mod_unique (S t) nj (t / nj) (S (t mod nj)) Hlt E). done.
  - assert (E : S t = (nj * S (t / nj) + 0)%nat) by nia.
    rewrite <- (Nat.div_unique (S t) nj (S (t / nj)) 0 Hnj E), <- (Nat.mod_unique (S t) nj (S (t / nj)) 0 Hnj E). lia.
Qed.

Lemma share_S j t : (j < nj)%nat -> share nj j (S t) = (share nj j t + if decide (t mod nj = j)%nat then 1 else 0)%nat.
Proof.
  intros Hj. pose proof (Nat.mod_upper_bound t nj ltac:(lia)). unfold share. destruct (div_mod_S t) as [(? & -> & ->)|(? & -> & ->)];
    case_decide; repeat match goal with |- context [(?a <? ?b)%nat] => destruct (Nat.ltb_spec a b) end; lia.
Qed.

Lemma share_at t : share nj (t mod nj) t = (t / nj)%nat.
Proof. unfold share. rewrite Nat.ltb_irrefl. lia. Qed.

Lemma share_other j t : (j < nj)%nat -> (t mod nj)%nat <> j -> share nj j (S t) = share nj j t.
Proof. intros Hj Hne. rewrite share_S, decide_False by done. lia. Qed.

Lemma share_same t : share nj (t mod nj) (S t) = S (share nj (t mod nj) t).
Proof. rewrite share_S, decide_True by (done || apply Nat.mod_upper_bound; lia). lia. Qed.

Lemma share_0 j : share nj j 0 = 0%nat.
Proof. unfold share. by rewrite Nat.Div0.div_0_l, Nat.Div0.mod_0_l. Qed.

Lemma share_all j c : share nj j (nj * c) = c.
Proof. unfold share. rewrite (Nat.mul_comm nj c), Nat.div_mul, Nat.Div0.mod_mul by lia. cbn. lia. Qed.

Lemma share_mono j t t' : (t <= t')%nat -> (share nj j t <= share nj j t')%nat.
Proof.
  intros Hle. unfold share. pose proof (Nat.div_mod_eq t nj). pose proof (Nat.div_mod_eq t' nj).
  pose proof (Nat.mod_upper_bound t nj ltac:(lia)). pose proof (Nat.mod_upper_bound t' nj ltac:(lia)).
  destruct (Nat.ltb_spec j (t mod nj)), (Nat.ltb_spec j (t' mod nj)); try nia.
Qed.

(** The job whose turn it is decides between two counters. *)
Lemma share_lt t t' : (share nj (t mod nj) t < share nj (t mod nj) t')%nat -> (t < t')%nat.
Proof. intros H. destruct (decide (t < t')%nat); [done|]. pose proof (share_mono (t mod nj) t' t ltac:(lia)). lia. Qed.

Lemma lt_share t t' : (t < t')%nat -> (share nj (t mod nj) t < share nj (t mod nj) t')%nat.
Proof. intros H. pose proof (share_mono (t mod nj) (S t) t' ltac:(lia)) as Hm. rewrite share_same in Hm. lia. Qed.

Lemma turn t c : (t < nj * c)%nat <-> (t / nj < c)%nat.
Proof.
  pose proof (Nat.div_mod_eq t nj). pose proof (Nat.mod_upper_bound t nj ltac:(lia)). split; intros; nia.
Qed.
End shares.
