(* ===== verification/Metadata.v ===== *)
(** * The metadata of a file system (MetadataBase.hh)

    The coordinators ask for the stripe of a block, its helpers and their
    coefficients through the virtual methods of [MetadataBase]: here a class,
    with the laws the repair theorems are proved against.  Hdfs3.v and Hdfs.v
    have instances. *)
From Stdlib Require Import Ascii.
From stdpp Require Import strings.
From S2P Require Import Prelude Command Text Galois GF256 Jerasure Gauss Encode.

(** [m[it.first] = it.second] in a [map] by address, as the list of its entries
    in order. *)
Fixpoint ip_insert {A} (it : Z * A) (m : list (Z * A)) : list (Z * A) :=
  match m with
  | [] => [it]
  | y :: m' => if it.1 <? y.1 then it :: m else if y.1 <? it.1 then y :: ip_insert it m' else it :: m'
  end.

Lemma ip_insert_perm {A} (it : Z * A) m : it.1 ∉ m.*1 -> ip_insert it m ≡ₚ it :: m.
Proof.
  induction m as [|y m IH]; intros Hn; [done|]. rewrite fmap_cons in Hn. apply not_elem_of_cons in Hn as [Hne Hn]. cbn [ip_insert].
  destruct (Z.ltb_spec it.1 y.1); [done|]. destruct (Z.ltb_spec y.1 it.1); [|lia]. rewrite IH by done. by rewrite Permutation_swap.
Qed.

(** The statuses of some blocks set to [v]. *)
Lemma marks_lookup (v : Z) (l : list (Z * str)) (m : gmap str Z) b :
  foldl (fun st it => <[it.2 := v]> st) m l !! b = if decide (b ∈ l.*2) then Some v else m !! b.
Proof.
  revert m. induction l as [|it l IH]; intros m; [done|]. cbn [foldl]. rewrite IH, fmap_cons. destruct (decide (b ∈ l.*2)) as [Hb|Hb].
  - by rewrite decide_True by by right.
  - destruct (decide (it.2 = b)) as [<-|Hne]; [by rewrite lookup_insert_eq, decide_True by left|].
    rewrite lookup_insert_ne, decide_False; [done|intros [->|]%elem_of_cons; done|done].
Qed.

(** The lost blocks by the address of their node, each with its helpers. *)
Abbreviation stripes_mul := (list (Z * (str * list (Z * str)))).

(** The virtual methods; a [set] of pairs is the list of its elements in order.
    [getStripeBlksMul] may change the status it is given. *)
Class MetadataBase := {
  getStripeBlks : str -> Z -> res (list (Z * str));
  getStripeBlksMul : str -> Z -> option (gmap str Z) -> Z -> res (stripes_mul * gmap str Z);
  getCoefficient : str -> option (gmap str Z) -> res (gmap str Z);
  getIPfromBlk : str -> res Z;
  getAllBlks : str -> res (list (Z * str))
}.

(** The coefficients [coef] rebuild the block [filename] from the [helpers]. *)
Record rebuilds `{GF : GFComplete} (size : nat) (content : str -> list Z) (filename : str) (helpers : list str) (coef : gmap str Z) : Prop := {
  rb_bytes b : b ∈ helpers -> is_byte (default 0 (coef !! b));
  rb_sum : lincomb (length helpers) size (fun j => default 0 (coef !! (helpers !!! j))) (content <$> helpers) = content filename
}.

Lemma rebuilds_perm `{GF : GFComplete} size content filename (helpers helpers' : list str) coef :
  helpers ≡ₚ helpers' -> rebuilds size content filename helpers coef -> rebuilds size content filename helpers' coef.
Proof.
  intros Hp [Hb Hs]. split.
  - intros b Hin. apply Hb. by rewrite Hp.
  - rewrite <- Hs. apply list_eq_total; rewrite !length_lincomb; [done|]. intros p Hlt. rewrite !lincomb_lookup by done.
    set (g := fun b => default 0 (coef !! b) ⊗ (content b !!! p)).
    assert (Hg : forall l : list str, xsum (length l) (fun i => default 0 (coef !! (l !!! i)) ⊗ ((content <$> l) !!! i !!! p)) =
      xsum (length l) (fun j => g (l !!! j))).
    { intros l. apply xsum_ext. intros j Hj. unfold g. by rewrite (list_lookup_total_fmap content l j). }
    rewrite !Hg. symmetry. by apply xsum_perm.
Qed.

(** The answer for several lost blocks, those of status 0, to the client [ip]:
    the same [k] helpers for all of them. *)
Definition common_helpers `{MB : MetadataBase} (k : nat) (stripe : list str) (holder : str -> Z) (f : str) (ip : Z) (st : gmap str Z) : Prop :=
  exists helpers ret, getStripeBlksMul f ip (Some st) 0 = Ok (ret, st) /\
    length helpers = k /\ NoDup helpers.*2 /\
    (forall it, it ∈ helpers -> it.2 ∈ stripe /\ it.1 = holder it.2 /\ it.1 <> ip /\ exists v, st !! it.2 = Some v /\ v <> 0) /\
    NoDup ret.*1 /\ forall e, e ∈ ret <-> exists b, st !! b = Some 0 /\ e = (holder b, (b, helpers)).

(** What the metadata promises of one stripe: its blocks are [stripe], each on
    the node [holder], with the contents [content]; any [k] of them rebuild
    every other; and a client that has lost the block [f] itself gets [k] common
    helpers for all the lost blocks. *)
Class StripeLaws `{GF : GFComplete} `{MB : MetadataBase} (k size : nat) (stripe : list str) (holder : str -> Z) (content : str -> list Z) : Prop := {
  ml_helpers f ip : f ∈ stripe -> exists blks, getStripeBlks f ip = Ok blks /\ (k <= length blks)%nat /\ NoDup blks.*2 /\
    forall it, it ∈ blks -> it.2 ∈ stripe /\ it.2 <> f /\ it.1 = holder it.2;
  ml_all f : f ∈ stripe -> exists blks, getAllBlks f = Ok blks /\ forall b, b ∈ blks.*2 <-> b ∈ stripe;
  ml_where f blks it : f ∈ stripe -> getAllBlks f = Ok blks -> it ∈ blks -> it.1 = holder it.2;
  ml_ip f : f ∈ stripe -> getIPfromBlk f = Ok (holder f);
  ml_coef f helpers st : f ∈ stripe -> f ∉ helpers -> NoDup helpers -> length helpers = k -> (forall b, b ∈ helpers -> b ∈ stripe) ->
    (forall b, st !! b = Some 2 <-> b ∈ helpers) ->
    exists coef, getCoefficient f (Some st) = Ok coef /\ rebuilds size content f helpers coef;
  ml_own f st alive : f ∈ stripe -> (forall b, is_Some (st !! b) <-> b ∈ stripe) -> st !! f = Some 0 ->
    NoDup alive -> length alive = k -> (forall b, b ∈ alive -> holder b <> holder f /\ exists v, st !! b = Some v /\ v <> 0) ->
    common_helpers k stripe holder f (holder f) st;
  ml_first f ip : f ∈ stripe -> exists blks coef, getStripeBlks f ip = Ok blks /\ getCoefficient f None = Ok coef /\
    rebuilds size content f blks.*2 coef
}.

(** The metadata of HDFS 3 promises the helpers to any client, whichever of the
    blocks it asks for. *)
Class MetadataLaws `{GF : GFComplete} `{MB : MetadataBase} (k size : nat) (stripe : list str) (holder : str -> Z) (content : str -> list Z) : Prop := {
  ml_stripe :: StripeLaws k size stripe holder content;
  ml_mul f ip st alive : f ∈ stripe -> (forall b, is_Some (st !! b) <-> b ∈ stripe) ->
    NoDup alive -> length alive = k -> (forall b, b ∈ alive -> holder b <> ip /\ exists v, st !! b = Some v /\ v <> 0) ->
    common_helpers k stripe holder f ip st
}.
