(* ===== verification/DrCmd.v ===== *)
(** * Repair commands (PipeCoordinator.cc, PipeMulCoordinator.cc, PipeDRWorker.cc)

    The command a coordinator writes for a helper and the parser of the
    helper.  A command is written with [memcpy]s into a zeroed buffer of
    [COMMAND_MAX_LENGTH] bytes; its first four bytes, the index of the helper's
    queue, are for the coordinator's distributor, which sends the rest on. *)
From Stdlib Require Import Ascii.
From stdpp Require Import strings.
From S2P Require Import Prelude Command Text Config.

(** ** Strings in memory *)

Definition bytes_of (s : str) : list Z := (fun a => Z.of_N (N_of_ascii a)) <$> s.
Definition str_of (l : list Z) : str := (fun b => ascii_of_N (Z.to_N b)) <$> l.

Lemma length_bytes_of s : length (bytes_of s) = length s.
Proof. apply length_fmap. Qed.

Lemma str_of_bytes s : str_of (bytes_of s) = s.
Proof.
  unfold str_of, bytes_of. rewrite <- list_fmap_compose. rewrite <- (list_fmap_id s) at 2.
  apply list_fmap_ext. intros i a _. cbn. by rewrite N2Z.id, ascii_N_embedding.
Qed.

(** ** A sequence of [memcpy]s at explicit offsets *)

Definition memcpys (ws : list (nat * list Z)) (mem : list Z) : res (list Z) :=
  for_each ws (fun '(off, src) m => res_of_option Undef (memcpy m off src)) mem.

(** Consecutive chunks from [off] on. *)
Fixpoint chunks (off : nat) (bs : list (list Z)) : list (nat * list Z) :=
  match bs with
  | [] => []
  | b :: bs => (off, b) :: chunks (off + length b) bs
  end.

Lemma memcpys_cons off src ws mem :
  memcpys ((off, src) :: ws) mem = (m ← res_of_option Undef (memcpy mem off src); memcpys ws m).
Proof. reflexivity. Qed.

Lemma memcpys_chunks pre bs rest :
  (length (concat bs) <= length rest)%nat ->
  memcpys (chunks (length pre) bs) (pre ++ rest) = Ok (pre ++ concat bs ++ drop (length (concat bs)) rest).
Proof.
  revert pre rest. induction bs as [|b bs IH]; intros pre rest Hl; [by rewrite drop_0|].
  cbn [concat chunks] in *. rewrite length_app in Hl. rewrite memcpys_cons.
  rewrite memcpy_Some by (rewrite length_app; lia). cbn [res_of_option]. rewrite bind_ok.
  rewrite take_app_length, drop_app_ge by lia. replace (length pre + length b - length pre)%nat with (length b) by lia.
  rewrite (app_assoc pre), <- (length_app pre b).
  rewrite IH by (rewrite length_drop; lia). rewrite drop_drop, length_app, <- !app_assoc. done.
Qed.

Lemma memcpys_overflow pre bs rest :
  (length rest < length (concat bs))%nat -> memcpys (chunks (length pre) bs) (pre ++ rest) = Fault Undef.
Proof.
  revert pre rest. induction bs as [|b bs IH]; intros pre rest Hl; cbn [concat] in *; [simpl in Hl; lia|].
  rewrite length_app in Hl. cbn [chunks]. rewrite memcpys_cons.
  destruct (decide (length b <= length rest)%nat) as [Hb|Hb].
  - rewrite memcpy_Some by (rewrite length_app; lia). cbn [res_of_option]. rewrite bind_ok.
    rewrite take_app_length, drop_app_ge by lia. replace (length pre + length b - length pre)%nat with (length b) by lia.
    rewrite (app_assoc pre), <- (length_app pre b). apply IH. rewrite length_drop. lia.
  - unfold memcpy. rewrite decide_False by (rewrite length_app; lia). done.
Qed.

(** ** Counts of helpers: the low byte of [ecK], and bit 8 *)

Lemma low_byte k : (k < 256)%nat -> Z.land (Z.of_nat k) 0xff = Z.of_nat k.
Proof. intros. change 0xff with (Z.ones 8). rewrite Z.land_ones, Z.mod_small by lia. done. Qed.

Lemma bit8 k : (k < 256)%nat -> Z.land (Z.of_nat k) 0x100 = 0.
Proof.
  intros Hk. change 0x100 with (2^8). apply Z.bits_inj'. intros b Hb. rewrite Z.land_spec, Z.bits_0, Z.pow2_bits_eqb by lia.
  destruct (Z.eqb_spec 8 b) as [<-|]; [|by rewrite andb_false_r].
  destruct (decide (k = 0)%nat) as [->|]; [done|]. rewrite Z.bits_above_log2; [done|lia|]. apply Z.log2_lt_pow2; lia.
Qed.

(** ** Reading fields *)

(** [memcpy(&x, cmd + off, 4)] into an [int], into an [unsigned int]. *)
Definition read_int (cmd : list Z) (off : nat) : res Z := l ← res_of_option Undef (slice cmd off 4); res_of_option Undef (de32 l).
Definition read_uint (cmd : list Z) (off : nat) : res Z := l ← res_of_option Undef (slice cmd off 4); res_of_option Undef (de32u l).
(** [string(cmd + off, len)] *)
Definition read_str (cmd : list Z) (off len : nat) : res str := l ← res_of_option Undef (slice cmd off len); Ok (str_of l).

Lemma slice_skip {A} (x l : list A) off n :
  (length x <= off)%nat -> slice (x ++ l) off n = slice l (off - length x) n.
Proof.
  intros H. unfold slice. rewrite length_app, drop_app_ge by done. do 2 case_decide; try done; lia.
Qed.

Lemma slice_here {A} (x l : list A) : slice (x ++ l) 0 (length x) = Some x.
Proof. apply slice_Some. rewrite length_app, drop_0, take_app_length. split; [lia|done]. Qed.

Lemma read_int_at pre v post off :
  length pre = off -> is_s32 v -> read_int (pre ++ le32 v ++ post) off = Ok v.
Proof.
  intros <- Hv. unfold read_int. rewrite slice_skip, Nat.sub_diag by lia.
  change 4%nat with (length (le32 v)). rewrite slice_here. cbn [res_of_option]. by rewrite bind_ok, de32_le32.
Qed.

Lemma read_int_0 v post : is_s32 v -> read_int (le32 v ++ post) 0 = Ok v.
Proof. exact (read_int_at [] v post 0 eq_refl). Qed.

Lemma read_uint_at pre v post off :
  length pre = off -> is_u32 v -> read_uint (pre ++ le32 v ++ post) off = Ok v.
Proof.
  intros <- Hv. unfold read_uint. rewrite slice_skip, Nat.sub_diag by lia.
  change 4%nat with (length (le32 v)). rewrite slice_here. cbn [res_of_option]. by rewrite bind_ok, de32u_le32_id.
Qed.

Lemma read_uint_0 v post : is_u32 v -> read_uint (le32 v ++ post) 0 = Ok v.
Proof. exact (read_uint_at [] v post 0 eq_refl). Qed.

Lemma read_str_at pre s post off n :
  length pre = off -> length s = n -> read_str (pre ++ bytes_of s ++ post) off n = Ok s.
Proof.
  intros <- <-. unfold read_str. rewrite slice_skip, Nat.sub_diag by lia.
  rewrite <- (length_bytes_of s), slice_here. cbn [res_of_option]. by rewrite bind_ok, str_of_bytes.
Qed.

(** ** The command to a helper of a pipeline *)

Record dr_cmd := mkDrCmd {
  dr_ecK : Z;
  dr_requestorIP : Z;
  dr_prevIP : Z;
  dr_nextIP : Z;
  dr_id : Z;
  dr_coefficient : Z;
  dr_lostBlkName : str;
  dr_localBlkName : str
}.

(** [coefficient = ((coefficient << 16) | requestedFileNameLen);] *)
Definition coef_len (coefficient : Z) (requestedFileNameLen : nat) : Z :=
  wrap_u32 (Z.lor (wrap_u32 (Z.shiftl coefficient 16)) (Z.of_nat requestedFileNameLen)).

(** The command of PipeCoordinator.cc; [drCmd] points four bytes into the
    buffer while it is filled. *)
Definition pipe_helper_cmd (idx ecK requestorIP prevIP nextIP i coefficient : Z) (filename localFile : str) : res (list Z) :=
  let requestedFileNameLen := length filename in
  let localFileBase := (24 + requestedFileNameLen)%nat in
  let localFileNameLen := length localFile in
  mem ← memcpys [
    (0, le32 idx);
    (4 + 0, le32 ecK);
    (4 + 4, le32 requestorIP);
    (4 + 8, le32 prevIP);
    (4 + 12, le32 nextIP);
    (4 + 16, le32 i);
    (4 + 20, le32 (coef_len coefficient requestedFileNameLen));
    (4 + 24, bytes_of filename);
    (4 + localFileBase, le32 (Z.of_nat localFileNameLen));
    (4 + localFileBase + 4, bytes_of localFile)]%nat (zeros COMMAND_MAX_LENGTH);
  Ok (take (localFileBase + localFileNameLen + 8) mem).

(** The command of PipeMulCoordinator.cc: also the number of the job, counted
    down, and how many jobs the helper has. *)
Definition mul_helper_cmd (idx ecK requestorIP prevIP nextIP i coefficient : Z) (lostFilename localFile : str)
    (indOfJobs numOfJobs : Z) : res (list Z) :=
  let lostFilelength := length lostFilename in
  let localFileNameLen := length localFile in
  mem ← memcpys [
    (0, le32 idx);
    (4 + 0, le32 ecK);
    (4 + 4, le32 requestorIP);
    (4 + 8, le32 prevIP);
    (4 + 12, le32 nextIP);
    (4 + 16, le32 i);
    (4 + 20, le32 (coef_len coefficient lostFilelength));
    (4 + 24, bytes_of lostFilename);
    (4 + (24 + lostFilelength), le32 (Z.of_nat localFileNameLen));
    (4 + (24 + lostFilelength + 4), bytes_of localFile);
    (4 + (24 + lostFilelength + 4 + localFileNameLen), le32 indOfJobs);
    (4 + (24 + lostFilelength + 4 + localFileNameLen + 4), le32 numOfJobs)]%nat (zeros COMMAND_MAX_LENGTH);
  Ok (take (24 + lostFilelength + localFileNameLen + 16) mem).

(** The parser of PipeDRWorker.cc and of CyclDRWorker.cc. *)
Definition parse_dr_cmd (cmd : list Z) : res dr_cmd :=
  ecK ← read_int cmd 0;
  requestorIP ← read_uint cmd 4;
  prevIP ← read_uint cmd 8;
  nextIP ← read_uint cmd 12;
  id ← read_int cmd 16;
  lostBlkNameLen ← read_uint cmd 20;
  let coefficient := Z.shiftr lostBlkNameLen 16 in
  let lostBlkNameLen := Z.to_nat (Z.land lostBlkNameLen 0xffff) in
  lostBlkName ← read_str cmd 24 lostBlkNameLen;
  localBlkNameLen ← read_uint cmd (24 + lostBlkNameLen);
  localBlkName ← read_str cmd (28 + lostBlkNameLen) (Z.to_nat localBlkNameLen);
  Ok (mkDrCmd ecK requestorIP prevIP nextIP id coefficient lostBlkName localBlkName).

(** PipeMulDRWorker.cc and CyclMulFRWorker.cc also read the two job numbers. *)
Definition parse_mul_cmd (cmd : list Z) : res (dr_cmd * (Z * Z)) :=
  c ← parse_dr_cmd cmd;
  jobInd ← read_uint cmd (28 + length (dr_lostBlkName c) + length (dr_localBlkName c));
  jobNum ← read_uint cmd (32 + length (dr_lostBlkName c) + length (dr_localBlkName c));
  Ok (c, (jobInd, jobNum)).

(** The fields of a command the wire can carry. *)
Record cmd_ok (c : dr_cmd) : Prop := {
  ok_ecK : is_s32 (dr_ecK c);
  ok_id : is_s32 (dr_id c);
  ok_requestorIP : is_u32 (dr_requestorIP c);
  ok_prevIP : is_u32 (dr_prevIP c);
  ok_nextIP : is_u32 (dr_nextIP c);
  ok_coefficient : 0 <= dr_coefficient c < 2^16;
  ok_lost : Z.of_nat (length (dr_lostBlkName c)) < 2^16;
  ok_local : Z.of_nat (length (dr_localBlkName c)) < 2^16
}.

(** What the helper gets. *)
Definition cmd_bytes (c : dr_cmd) : list Z :=
  le32 (dr_ecK c) ++ le32 (dr_requestorIP c) ++ le32 (dr_prevIP c) ++ le32 (dr_nextIP c) ++ le32 (dr_id c) ++
  le32 (coef_len (dr_coefficient c) (length (dr_lostBlkName c))) ++ bytes_of (dr_lostBlkName c) ++
  le32 (Z.of_nat (length (dr_localBlkName c))) ++ bytes_of (dr_localBlkName c).

Lemma length_cmd_bytes c : length (cmd_bytes c) = (28 + length (dr_lostBlkName c) + length (dr_localBlkName c))%nat.
Proof. unfold cmd_bytes. rewrite !length_app, !length_le32, !length_bytes_of. lia. Qed.

Lemma coef_len_fields c n :
  0 <= c < 2^16 -> Z.of_nat n < 2^16 ->
  is_u32 (coef_len c n) /\ Z.shiftr (coef_len c n) 16 = c /\ Z.land (coef_len c n) 0xffff = Z.of_nat n.
Proof.
  intros Hc Hn. change 0xffff with (Z.ones 16). unfold coef_len.
  assert (H1 : Z.shiftl c 16 = c * 2^16) by (apply Z.shiftl_mul_pow2; lia).
  rewrite (wrap_u32_id (Z.shiftl c 16)) by (rewrite H1; unfold is_u32; lia).
  set (v := Z.lor (Z.shiftl c 16) (Z.of_nat n)).
  assert (Hhi : Z.shiftr v 16 = c).
  { unfold v. rewrite Z.shiftr_lor, Z.shiftr_shiftl_l by lia. rewrite (Z.shiftr_div_pow2 (Z.of_nat n)), Z.div_small by lia.
    by rewrite Z.lor_0_r, Z.shiftl_0_r. }
  assert (Hlo : Z.land v (Z.ones 16) = Z.of_nat n).
  { unfold v. rewrite Z.land_lor_distr_l, !Z.land_ones by lia. rewrite H1, Z.mod_mul, (Z.mod_small (Z.of_nat n)) by lia. done. }
  assert (Hv : is_u32 v).
  { rewrite Z.land_ones in Hlo by lia. rewrite Z.shiftr_div_pow2 in Hhi by lia. pose proof (Z.div_mod v (2^16) ltac:(lia)).
    unfold is_u32. lia. }
  rewrite wrap_u32_id by done. by split_and!.
Qed.

(** Lengths and ranges of the fields on the wire. *)
Ltac wire := rewrite ?length_app, ?length_le32, ?length_bytes_of; (done || lia || (unfold is_u32; lia)).

#[local] Opaque le32 bytes_of.

(** The parser on the command, followed by anything. *)
Lemma parse_cmd_bytes c tl : cmd_ok c -> parse_dr_cmd (cmd_bytes c ++ tl) = Ok c.
Proof.
  intros [HK Hid Hr Hp Hn Hc Hl Hlo]. destruct c as [ecK req prev next id coef lost local]. cbn in *.
  destruct (coef_len_fields coef (length lost) Hc Hl) as (Hcl & Hhi & Hlow).
  unfold parse_dr_cmd, cmd_bytes. cbn [dr_ecK dr_requestorIP dr_prevIP dr_nextIP dr_id dr_coefficient dr_lostBlkName dr_localBlkName].
  set (clen := coef_len coef (length lost)) in *. rewrite <- !app_assoc.
  rewrite read_int_0 by done. rewrite bind_ok.
  rewrite (read_uint_at (le32 ecK) req _ 4) by wire. rewrite bind_ok.
  rewrite (app_assoc (le32 ecK)), (read_uint_at _ prev _ 8) by wire. rewrite bind_ok.
  rewrite (app_assoc (_ ++ le32 req)), (read_uint_at _ next _ 12) by wire. rewrite bind_ok.
  rewrite (app_assoc (_ ++ le32 prev)), (read_int_at _ id _ 16) by wire. rewrite bind_ok.
  rewrite (app_assoc (_ ++ le32 next)), (read_uint_at _ clen _ 20) by wire. rewrite bind_ok.
  rewrite Hlow, Nat2Z.id, Hhi.
  rewrite (app_assoc (_ ++ le32 id)), (read_str_at _ lost) by wire. rewrite bind_ok.
  rewrite (app_assoc (_ ++ le32 clen)), (read_uint_at _ (Z.of_nat (length local))) by wire.
  rewrite bind_ok, Nat2Z.id, (app_assoc (_ ++ bytes_of lost)), (read_str_at _ local) by wire.
  by rewrite bind_ok.
Qed.

(** Two more fields at the end of a command. *)
Lemma parse_mul_bytes c ind num :
  cmd_ok c -> is_u32 ind -> is_u32 num ->
  parse_mul_cmd (cmd_bytes c ++ le32 ind ++ le32 num) = Ok (c, (ind, num)).
Proof.
  intros Hc Hi Hn. unfold parse_mul_cmd. rewrite parse_cmd_bytes, bind_ok by done.
  rewrite (read_uint_at (cmd_bytes c) ind _ (28 + _ + _)) by (rewrite ?length_cmd_bytes; wire). rewrite bind_ok.
  rewrite (app_assoc (cmd_bytes c)), <- (app_nil_r (le32 num)).
  rewrite (read_uint_at (_ ++ le32 ind) num) by (rewrite ?length_app, ?length_cmd_bytes; wire).
  done.
Qed.

(** A zeroed buffer filled from its start: the part sent, and the overflow. *)
Lemma filled bs :
  (length (concat bs) <= COMMAND_MAX_LENGTH)%nat ->
  (m ← memcpys (chunks 0 bs) (zeros COMMAND_MAX_LENGTH); Ok (take (length (concat bs)) m)) = Ok (concat bs).
Proof.
  intros H. pose proof (memcpys_chunks [] bs (zeros COMMAND_MAX_LENGTH)) as E. cbn [app length] in E.
  rewrite E by (unfold zeros; rewrite length_replicate; done). by rewrite bind_ok, take_app_length.
Qed.

Lemma overfilled bs n :
  (COMMAND_MAX_LENGTH < length (concat bs))%nat ->
  (m ← memcpys (chunks 0 bs) (zeros COMMAND_MAX_LENGTH); Ok (take n m)) = Fault Undef.
Proof.
  intros H. pose proof (memcpys_overflow [] bs (zeros COMMAND_MAX_LENGTH)) as E. cbn [app length] in E.
  by rewrite E by (unfold zeros; rewrite length_replicate; done).
Qed.

Section writers.
Context (idx ecK requestorIP prevIP nextIP i coefficient : Z) (filename localFile : str).

(** The fields the writer is given, as the helper reads them. *)
Definition fields : dr_cmd := mkDrCmd ecK requestorIP prevIP nextIP i coefficient filename localFile.

Let bs : list (list Z) :=
  [le32 idx; le32 ecK; le32 requestorIP; le32 prevIP; le32 nextIP; le32 i; le32 (coef_len coefficient (length filename));
   bytes_of filename; le32 (Z.of_nat (length localFile)); bytes_of localFile].

Lemma concat_fields extra : concat (bs ++ extra) = le32 idx ++ cmd_bytes fields ++ concat extra.
Proof. unfold cmd_bytes. cbn. by rewrite <- !app_assoc. Qed.

Lemma pipe_helper_cmd_bytes :
  pipe_helper_cmd idx ecK requestorIP prevIP nextIP i coefficient filename localFile =
    if bool_decide (32 + length filename + length localFile <= COMMAND_MAX_LENGTH)%nat
    then Ok (le32 idx ++ cmd_bytes fields) else Fault Undef.
Proof.
  assert (Hc : concat bs = le32 idx ++ cmd_bytes fields) by (rewrite <- (app_nil_r bs), concat_fields; cbn; by rewrite app_nil_r).
  assert (Hl : length (concat bs) = (32 + length filename + length localFile)%nat)
    by (rewrite Hc, length_app, length_le32, length_cmd_bytes; cbn [dr_lostBlkName dr_localBlkName fields]; lia).
  assert (E : pipe_helper_cmd idx ecK requestorIP prevIP nextIP i coefficient filename localFile =
    (m ← memcpys (chunks 0 bs) (zeros COMMAND_MAX_LENGTH); Ok (take (length (concat bs)) m))).
  { rewrite Hl. replace (32 + length filename + length localFile)%nat with (24 + length filename + length localFile + 8)%nat by lia.
    unfold pipe_helper_cmd, bs. cbn [chunks]. rewrite !length_le32, length_bytes_of. reflexivity. }
  rewrite E. case_bool_decide.
  - by rewrite filled, Hc by lia.
  - apply overfilled. lia.
Qed.

Lemma mul_helper_cmd_bytes ind num :
  mul_helper_cmd idx ecK requestorIP prevIP nextIP i coefficient filename localFile ind num =
    if bool_decide (40 + length filename + length localFile <= COMMAND_MAX_LENGTH)%nat
    then Ok (le32 idx ++ cmd_bytes fields ++ le32 ind ++ le32 num) else Fault Undef.
Proof.
  set (bs2 := bs ++ [le32 ind; le32 num]).
  assert (Hc : concat bs2 = le32 idx ++ cmd_bytes fields ++ le32 ind ++ le32 num)
    by (unfold bs2; rewrite concat_fields; cbn; by rewrite app_nil_r).
  assert (Hl : length (concat bs2) = (40 + length filename + length localFile)%nat)
    by (rewrite Hc, !length_app, !length_le32, length_cmd_bytes; cbn [dr_lostBlkName dr_localBlkName fields]; lia).
  assert (E : mul_helper_cmd idx ecK requestorIP prevIP nextIP i coefficient filename localFile ind num =
    (m ← memcpys (chunks 0 bs2) (zeros COMMAND_MAX_LENGTH); Ok (take (length (concat bs2)) m))).
  { rewrite Hl. replace (40 + length filename + length localFile)%nat with (24 + length filename + length localFile + 16)%nat by lia.
    unfold mul_helper_cmd, bs2, bs. cbn [app chunks]. rewrite !length_le32, !length_bytes_of. reflexivity. }
  rewrite E. case_bool_decide.
  - by rewrite filled, Hc by lia.
  - apply overfilled. lia.
Qed.
End writers.

(** C33: The command of a pipeline helper survives the wire: when it fits the
    buffer, what [PipeCoordinator] or [PipeMulCoordinator] writes is the index
    of the queue followed by bytes the helper parses back into the same fields;
    when the names are too long, the writer leaves its buffer. *)
Theorem dr_cmd_roundtrip idx c ind num :
  cmd_ok c -> is_u32 ind -> is_u32 num ->
  let single := pipe_helper_cmd idx (dr_ecK c) (dr_requestorIP c) (dr_prevIP c) (dr_nextIP c) (dr_id c)
    (dr_coefficient c) (dr_lostBlkName c) (dr_localBlkName c) in
  let multi := mul_helper_cmd idx (dr_ecK c) (dr_requestorIP c) (dr_prevIP c) (dr_nextIP c) (dr_id c)
    (dr_coefficient c) (dr_lostBlkName c) (dr_localBlkName c) ind num in
  let names := (length (dr_lostBlkName c) + length (dr_localBlkName c))%nat in
  (if bool_decide (32 + names <= COMMAND_MAX_LENGTH)%nat
   then exists m, single = Ok (le32 idx ++ m) /\ parse_dr_cmd m = Ok c else single = Fault Undef) /\
  (if bool_decide (40 + names <= COMMAND_MAX_LENGTH)%nat
   then exists m, multi = Ok (le32 idx ++ m) /\ parse_mul_cmd m = Ok (c, (ind, num)) else multi = Fault Undef).
Proof.
  intros Hc Hi Hn single multi names. unfold single, multi, names. rewrite pipe_helper_cmd_bytes, mul_helper_cmd_bytes.
  assert (Hf : fields (dr_ecK c) (dr_requestorIP c) (dr_prevIP c) (dr_nextIP c) (dr_id c) (dr_coefficient c)
    (dr_lostBlkName c) (dr_localBlkName c) = c) by by destruct c.
  rewrite Hf, !Nat.add_assoc. split; case_bool_decide; [|done| |done]; eexists; (split; [done|]).
  - rewrite <- (app_nil_r (cmd_bytes c)). by apply parse_cmd_bytes.
  - by apply parse_mul_bytes.
Qed.

Lemma dr_cmd_roundtrip_witness :
  let c := mkDrCmd 2 16777226 33554442 16777226 1 29 (lit "lost") (lit "blk_1") in
  exists m, pipe_helper_cmd 1 2 16777226 33554442 16777226 1 29 (lit "lost") (lit "blk_1") = Ok (le32 1 ++ m) /\ parse_dr_cmd m = Ok c.
Proof.
  intros c. destruct (dr_cmd_roundtrip 1 c 1 1) as [H _]; [split; unfold is_s32, is_u32; cbn; lia|unfold is_u32; lia..|].
  rewrite bool_decide_true in H by (cbn; unfold COMMAND_MAX_LENGTH; lia). exact H.
Defined.
