(* ===== verification/Request.v ===== *)
(** * Repair requests (ECPipeInputStream.cc, Coordinator.cc, MetadataBase.hh)

    The request a client pushes to [dr_requests] ([sendToCoordinator]) and its
    parser in the coordinator ([parseFRRequest]), which looks the lost blocks up
    in the metadata (Metadata.v). *)
From Stdlib Require Import Ascii.
From stdpp Require Import strings.
From S2P Require Import Prelude Command Text Config Metadata DrCmd.

(** The members of [Config] only the repair reads. *)
Record DRConfig := mkDRConfig {
  _conf : Config;
  _DRPolicy : str;
  _ECPipePolicy : str;
  _fileSysType : str;
  _pathSelectionEnabled : bool
}.

(** [s.find(t) != string::npos] *)
Fixpoint has_prefix (t s : str) : bool :=
  match t, s with
  | [], _ => true
  | a :: t', b :: s' => Ascii.eqb a b && has_prefix t' s'
  | _, [] => false
  end.
Fixpoint contains (t s : str) : bool :=
  has_prefix t s || match s with [] => false | _ :: s' => contains t s' end.

(** ** The client *)

(** The constructor: only the conventional scheme and the pipelines for several
    blocks take more than the first file; [filenames] is not empty. *)
Definition lost_files (conf : DRConfig) (filenames : list str) : res (list str) :=
  if bool_decide (_DRPolicy conf = lit "conv") ||
     (bool_decide (_DRPolicy conf = lit "ecpipe") &&
      (bool_decide (_ECPipePolicy conf = lit "basic") || bool_decide (_ECPipePolicy conf = lit "cyclic")))
  then Ok filenames else f ← res_of_option Undef (filenames !! 0%nat); Ok [f].

(** One file of the request. *)
Definition put_file (f : str) '((cmd, cmdbase) : list Z * nat) : res (list Z * nat) :=
  let fnlen := length f in
  cmd ← memcpys [(cmdbase, le32 (Z.of_nat fnlen)); (cmdbase + 4, bytes_of f)]%nat cmd;
  Ok (cmd, (cmdbase + 4 + fnlen)%nat).

(** [sendToCoordinator]: the request; [junk] is the uninitialised [cmd]. *)
Definition request (junk : list Z) (_locIP : Z) (_lostFiles : list str) : res (list Z) :=
  cmd ← memcpys [(0, le32 _locIP); (4, le32 0)]%nat junk;
  '(cmd, cmdbase) ← for_each _lostFiles put_file (cmd, 8%nat);
  Ok (take cmdbase cmd).

(** ** The coordinator *)

Record parsed_request := mkReq {
  rq_index : Z;
  rq_file : str;
  rq_lost : list (str * Z);
  rq_status : gmap str Z
}.

Section parse.
Context `{MB : MetadataBase}.

(** [_status[it.second] = 1] for all the blocks. *)
Definition mark_blks (allBlks : list (Z * str)) (_status : gmap str Z) : gmap str Z :=
  foldl (fun st it => <[it.2 := 1]> st) _status allBlks.

(** The state of the loop of version 1.1. *)
Record scan := mkScan {
  sc_files : list (str * Z);
  sc_req : str;
  sc_all : list (Z * str);
  sc_status : gmap str Z
}.

(** The debug output asks for the address of every block of the stripe. *)
Definition debug_status (_status : gmap str Z) : res unit :=
  for_each (map_to_list _status) (fun it _ => _ ← getIPfromBlk it.1; Ok tt) tt.

(** One lost file. *)
Definition scan_file (index : Z) (requestorIP : Z) (lostFile : str) (s : scan) : res scan :=
  ip ← getIPfromBlk lostFile;
  let ip := wrap_s32 ip in
  let i := Z.of_nat (length (sc_files s)) in
  let reqFile :=
    if negb (index =? 0) then (if i =? index then lostFile else sc_req s)
    else if wrap_u32 ip =? requestorIP then lostFile else sc_req s in
  '(allBlks, _status) ←
    (if bool_decide (sc_all s = []) then
       allBlks ← getAllBlks lostFile; Ok (allBlks, mark_blks allBlks (sc_status s))
     else Ok (sc_all s, sc_status s));
  let _status := <[lostFile := 0]> _status in
  debug_status _status;;
  Ok (mkScan (sc_files s ++ [(lostFile, ip)]) reqFile allBlks _status).

(** [while (cmdbase < reqLen)]; a negative length makes [string] throw. *)
Fixpoint scan_files (fuel : nat) (reqStr : list Z) (index requestorIP : Z) (cmdbase : nat) (s : scan) : res scan :=
  if (cmdbase <? length reqStr)%nat then
    match fuel with
    | O => Fault Blocked
    | S f =>
        len ← read_int reqStr cmdbase;
        guard_or Undef (0 <=? len);;
        lostFile ← read_str reqStr (cmdbase + 4) (Z.to_nat len);
        s ← scan_file index requestorIP lostFile s;
        scan_files f reqStr index requestorIP (cmdbase + 4 + Z.to_nat len) s
    end
  else Ok s.

(** The bytes up to the first zero; Redis puts one after the value. *)
Fixpoint c_string (l : list Z) : list Z :=
  match l with
  | [] => []
  | b :: l' => if b =? 0 then [] else b :: c_string l'
  end.

(** [parseFRRequest] *)
Definition parseFRRequest (ecK : nat) (reqStr : list Z) (requestorIP : Z) : res parsed_request :=
  guard_or (Exit 1) (8 <=? length reqStr)%nat;;
  index ← read_uint reqStr 4;
  if Z.of_nat ecK <? index then
    let lostFile := str_of (c_string (drop 4 reqStr)) in
    allBlks ← getAllBlks lostFile;
    ip ← getIPfromBlk lostFile;
    Ok (mkReq 0 lostFile [(lostFile, wrap_s32 ip)] (<[lostFile := 0]> (mark_blks allBlks ∅)))
  else
    s ← scan_files (length reqStr) reqStr index requestorIP 8 (mkScan [] [] [] ∅);
    reqFile ← (if bool_decide (sc_req s = []) then f ← res_of_option Undef (sc_files s !! 0%nat); Ok f.1 else Ok (sc_req s));
    Ok (mkReq index reqFile (sc_files s) (sc_status s)).
End parse.

(** ** The request survives the wire *)

(** The request on the wire. *)
Definition file_bytes (f : str) : list Z := le32 (Z.of_nat (length f)) ++ bytes_of f.
Definition request_bytes (_locIP : Z) (files : list str) : list Z := le32 _locIP ++ le32 0 ++ concat (file_bytes <$> files).

Lemma length_file_bytes f : length (file_bytes f) = (4 + length f)%nat.
Proof. unfold file_bytes. by rewrite length_app, length_le32, length_bytes_of. Qed.

Lemma length_request ip files : length (request_bytes ip files) = (8 + sum_list_with (fun f : str => 4 + length f) files)%nat.
Proof.
  unfold request_bytes. rewrite !length_app, !length_le32, Nat.add_assoc. f_equal.
  induction files as [|f files IH]; [done|]. rewrite fmap_cons. cbn [concat sum_list_with]. rewrite length_app, length_file_bytes, IH. lia.
Qed.

#[local] Opaque le32 bytes_of.

Lemma put_file_ok f pre rest :
  (4 + length f <= length rest)%nat ->
  put_file f (pre ++ rest, length pre) = Ok ((pre ++ file_bytes f) ++ drop (4 + length f) rest, length (pre ++ file_bytes f)).
Proof.
  intros Hl. unfold put_file. pose proof (memcpys_chunks pre [le32 (Z.of_nat (length f)); bytes_of f] rest) as E.
  cbn [chunks concat] in E. rewrite app_nil_r, length_app, !length_le32, !length_bytes_of in E. rewrite E by lia.
  rewrite bind_ok. fold (file_bytes f). rewrite app_assoc, (length_app pre), length_file_bytes. do 2 f_equal. lia.
Qed.

Lemma request_loop files pre rest :
  (sum_list_with (fun f : str => 4 + length f) files <= length rest)%nat ->
  exists rest', for_each files put_file (pre ++ rest, length pre) =
  Ok (pre ++ concat (file_bytes <$> files) ++ rest', length (pre ++ concat (file_bytes <$> files))).
Proof.
  revert pre rest. induction files as [|f files IH]; intros pre rest Hl; [exists rest; by rewrite app_nil_r|].
  cbn [sum_list_with for_each] in *. rewrite put_file_ok, bind_ok by lia.
  destruct (IH (pre ++ file_bytes f) (drop (4 + length f) rest)) as [rest' E2]; [rewrite length_drop; lia|].
  exists rest'. rewrite E2, fmap_cons. cbn [concat]. by rewrite <- !app_assoc.
Qed.

(** What the client sends. *)
Lemma request_sent junk ip files :
  (length (request_bytes ip files) <= length junk)%nat -> request junk ip files = Ok (request_bytes ip files).
Proof.
  intros Hl. rewrite length_request in Hl. unfold request.
  pose proof (memcpys_chunks [] [le32 ip; le32 0] junk) as E. cbn [chunks concat length app] in E.
  rewrite app_nil_r, !length_app, !length_le32 in E. change (0 + 4)%nat with 4%nat in E. rewrite E by lia. rewrite bind_ok.
  assert (E8 : 8%nat = length (le32 ip ++ le32 0)) by (rewrite length_app, !length_le32; done). rewrite E8.
  destruct (request_loop files (le32 ip ++ le32 0) (drop (4 + 4) junk)) as [rest' E2]; [rewrite length_drop; lia|].
  rewrite E2, bind_ok. f_equal. unfold request_bytes.
  rewrite !app_assoc, take_app_length. done.
Qed.

Section roundtrip.
Context `{MB : MetadataBase}.

Lemma read_len pre f post :
  Z.of_nat (length f) < 2^31 -> read_int (pre ++ file_bytes f ++ post) (length pre) = Ok (Z.of_nat (length f)).
Proof. intros. unfold file_bytes. rewrite <- app_assoc. apply read_int_at; [done|unfold is_s32; lia]. Qed.

Lemma read_name pre f post : read_str (pre ++ file_bytes f ++ post) (length pre + 4) (length f) = Ok f.
Proof.
  unfold file_bytes. rewrite <- app_assoc, app_assoc. apply read_str_at; [|done]. by rewrite length_app, length_le32.
Qed.

Lemma scan_files_bytes fuel index requestorIP files pre s :
  (length (concat (file_bytes <$> files)) <= fuel)%nat -> Forall (fun f : str => Z.of_nat (length f) < 2^31) files ->
  scan_files fuel (pre ++ concat (file_bytes <$> files)) index requestorIP (length pre) s =
    for_each files (scan_file index requestorIP) s.
Proof.
  revert fuel pre s. induction files as [|f files IH]; intros fuel pre s Hf Hall.
  - destruct fuel; cbn [scan_files]; rewrite length_app; cbn [fmap list_fmap concat length]; by rewrite Nat.add_0_r, Nat.ltb_irrefl.
  - apply Forall_cons in Hall as [Hlf Hall]. rewrite fmap_cons in Hf |- *. cbn [concat for_each] in *. rewrite length_app, length_file_bytes in Hf.
    destruct fuel as [|fuel]; [lia|]. cbn [scan_files]. rewrite !length_app, length_file_bytes, (proj2 (Nat.ltb_lt _ _)) by lia.
    rewrite read_len, bind_ok by done. rewrite (proj2 (Z.leb_le _ _)) by lia. cbn [guard_or].
    rewrite bind_ok, Nat2Z.id, read_name, bind_ok, app_assoc.
    replace (length pre + 4 + length f)%nat with (length (pre ++ file_bytes f)) by (rewrite length_app, length_file_bytes; lia).
    destruct (scan_file index requestorIP f s) as [s'|]; [|done]. rewrite !bind_ok. apply IH; [lia|done].
Qed.

(** ** What the coordinator finds in a request *)

Context (holder : str -> Z).

Definition lost_of (f : str) : str * Z := (f, wrap_s32 (holder f)).

(** The client holds the lost block itself. *)
Definition asks_own (requestorIP : Z) (f : str) : bool := wrap_u32 (holder f) =? requestorIP.

(** The last file of its own a client asks for. *)
Definition own_file (requestorIP : Z) (files : list str) : str :=
  foldl (fun r f => if asks_own requestorIP f then f else r) [] files.

Lemma wrap_u32_s32 z : wrap_u32 (wrap_s32 z) = wrap_u32 z.
Proof. unfold wrap_u32, wrap_s32. rewrite Zminus_mod_idemp_l. f_equal. lia. Qed.

Lemma mark_lookup all st b :
  mark_blks all st !! b = if decide (b ∈ all.*2) then Some 1 else st !! b.
Proof. apply marks_lookup. Qed.

Context (all : list (Z * str)) (f0 : str) (files : list str).
Context (Hall : getAllBlks f0 = Ok all) (Hne : all <> []).
Context (Hip : forall b, b ∈ f0 :: files \/ b ∈ all.*2 -> getIPfromBlk b = Ok (holder b)).

Lemma debug_status_ok st : (forall b, is_Some (st !! b) -> b ∈ f0 :: files \/ b ∈ all.*2) -> debug_status st = Ok tt.
Proof.
  intros Hst. unfold debug_status. assert (Hin : forall it, it ∈ map_to_list st -> is_Some (st !! it.1)).
  { intros [b v] H%elem_of_map_to_list. by exists v. }
  induction (map_to_list st) as [|it l IH]; [done|]. cbn [for_each]. rewrite Hip, !bind_ok by (apply Hst, Hin; left).
  apply IH. intros it' Hit'. apply Hin. by right.
Qed.

(** The status after some of the files. *)
Definition marked (fs : list str) (st : gmap str Z) : Prop :=
  forall b, st !! b = if decide (b ∈ fs) then Some 0 else if decide (b ∈ all.*2) then Some 1 else None.

Lemma marked_insert fs f st st' :
  (forall b, st !! b = if decide (b ∈ fs) then Some 0 else if decide (b ∈ all.*2) then Some 1 else None) ->
  st' = <[f := 0]> st -> marked (fs ++ [f]) st'.
Proof.
  intros H -> b. destruct (decide (f = b)) as [->|Hb].
  - rewrite lookup_insert_eq, decide_True; [done|]. apply elem_of_app. right. left.
  - rewrite lookup_insert_ne, H by done. apply decide_ext. rewrite elem_of_app, list_elem_of_singleton. naive_solver.
Qed.

Lemma marked_debug fs st : (forall f, f ∈ fs -> f ∈ f0 :: files) -> marked fs st -> debug_status st = Ok tt.
Proof.
  intros Hfs Hst. apply debug_status_ok. intros b [v Hv]. rewrite Hst in Hv. case_decide as H1; [left; auto|].
  case_decide; [by right|done].
Qed.

(** The state after the files, of which the first gives the stripe. *)
Lemma scan_result requestorIP :
  exists st, for_each (f0 :: files) (scan_file 0 requestorIP) (mkScan [] [] [] ∅) =
    Ok (mkScan (lost_of <$> (f0 :: files)) (own_file requestorIP (f0 :: files)) all st) /\ marked (f0 :: files) st.
Proof.
  assert (H : forall fs, fs `prefix_of` files -> exists st,
    for_each (f0 :: fs) (scan_file 0 requestorIP) (mkScan [] [] [] ∅) =
      Ok (mkScan (lost_of <$> (f0 :: fs)) (own_file requestorIP (f0 :: fs)) all st) /\ marked (f0 :: fs) st).
  2: { by apply H. }
  induction fs as [|f fs IH] using rev_ind; intros Hpre.
  - cbn [for_each]. unfold scan_file. rewrite Hip by (left; left). rewrite bind_ok. cbn [sc_all sc_status sc_files sc_req].
    rewrite bool_decide_true, Hall, !bind_ok by done. set (st := <[f0 := 0]> _).
    assert (Hm : marked [f0] st).
    { apply (marked_insert [] f0 (mark_blks all ∅)); [|done]. intros b. by rewrite mark_lookup, lookup_empty. }
    exists st. split; [|done]. rewrite (marked_debug [f0]); [|intros f ->%list_elem_of_singleton; left|done].
    rewrite !bind_ok. unfold own_file, asks_own. cbn. by rewrite wrap_u32_s32.
  - destruct IH as (st & E & Hm); [by apply prefix_app_l in Hpre|].
    rewrite app_comm_cons, for_each_app, E, bind_ok. cbn [for_each].
    assert (Hf : f ∈ f0 :: files). { right. destruct Hpre as [l ->]. apply elem_of_app. left. apply elem_of_app. right. left. }
    unfold scan_file. rewrite Hip, bind_ok by by left. cbn [sc_all sc_status sc_files sc_req].
    rewrite (bool_decide_false _ Hne), bind_ok. set (st' := <[f := 0]> st).
    assert (Hm' : marked (f0 :: fs ++ [f]) st') by by apply (marked_insert (f0 :: fs) f st).
    exists st'. split; [|done]. rewrite (marked_debug (f0 :: fs ++ [f])); [|intros g Hg|done].
    + rewrite !bind_ok. cbn [negb Z.eqb]. rewrite fmap_app. unfold own_file. rewrite (foldl_app _ (f0 :: fs) [f]).
      cbn [foldl]. unfold asks_own. by rewrite wrap_u32_s32.
    + apply elem_of_cons in Hg as [->|Hg]; [left|]. right. destruct Hpre as [l ->]. apply elem_of_app. by left.
Qed.

(** What [parseFRRequest] makes of the request. *)
Definition chosen (requestorIP : Z) : str :=
  if bool_decide (own_file requestorIP (f0 :: files) = []) then f0 else own_file requestorIP (f0 :: files).

Lemma request_parsed ecK junk ip :
  is_u32 ip -> Forall (fun f : str => Z.of_nat (length f) < 2^31) (f0 :: files) ->
  (length (request_bytes ip (f0 :: files)) <= length junk)%nat ->
  exists m st, request junk ip (f0 :: files) = Ok m /\ (4 <= length m)%nat /\ read_uint m 0 = Ok ip /\
    parseFRRequest ecK m ip = Ok (mkReq 0 (chosen ip) (lost_of <$> (f0 :: files)) st) /\ marked (f0 :: files) st.
Proof.
  intros Hu Hlen Hl. destruct (scan_result ip) as (st & Hs & Hm).
  exists (request_bytes ip (f0 :: files)), st.
  split_and!; [by apply request_sent|rewrite length_request; lia|by apply read_uint_0| |exact Hm].
  unfold parseFRRequest. rewrite (proj2 (Nat.leb_le _ _)) by (rewrite length_request; lia). cbn [guard_or]. rewrite bind_ok.
  assert (Hidx : read_uint (request_bytes ip (f0 :: files)) 4 = Ok 0).
  { unfold request_bytes. apply read_uint_at; [apply length_le32|unfold is_u32; lia]. }
  rewrite Hidx, bind_ok. destruct (Z.ltb_spec (Z.of_nat ecK) 0); [lia|].
  assert (Hsf : scan_files (length (request_bytes ip (f0 :: files))) (request_bytes ip (f0 :: files)) 0 ip 8 (mkScan [] [] [] ∅) =
    for_each (f0 :: files) (scan_file 0 ip) (mkScan [] [] [] ∅)).
  { assert (E8 : 8%nat = length (le32 ip ++ le32 0)) by (by rewrite length_app, !length_le32).
    rewrite E8. unfold request_bytes at 2. rewrite app_assoc. apply scan_files_bytes; [|done].
    unfold request_bytes. rewrite !length_app. lia. }
  rewrite Hsf, Hs, bind_ok. cbn [sc_req sc_files sc_status]. unfold chosen. case_bool_decide; [|done]. by rewrite fmap_cons.
Qed.

(** C32: The request of a client for the lost blocks of one stripe reaches the
    coordinator: [parseFRRequest] finds the same files with the addresses of
    their nodes, asks for the last one the client holds itself or, in a degraded
    read, the first, and marks the lost blocks 0 and the other blocks of the
    stripe 1. *)
Theorem request_roundtrip ecK junk ip :
  is_u32 ip -> Forall (fun f : str => Z.of_nat (length f) < 2^31) (f0 :: files) ->
  (length (request_bytes ip (f0 :: files)) <= length junk)%nat ->
  exists m st, request junk ip (f0 :: files) = Ok m /\ read_uint m 0 = Ok ip /\
    parseFRRequest ecK m ip =
      Ok (mkReq 0 (if bool_decide (own_file ip (f0 :: files) = []) then f0 else own_file ip (f0 :: files)) (lost_of <$> (f0 :: files)) st) /\
    forall b, st !! b = if decide (b ∈ f0 :: files) then Some 0 else if decide (b ∈ all.*2) then Some 1 else None.
Proof. intros Hu Hlen Hl. destruct (request_parsed ecK junk ip Hu Hlen Hl) as (m & st & H1 & _ & H2 & H3 & H4). by exists m, st. Qed.
End roundtrip.

(** Two lost blocks of a stripe of four; the client is on the node of one. *)
Definition example_blks : list (Z * str) := [(1, lit "a"); (2, lit "bb"); (3, lit "ccc"); (4, lit "dddd")].
#[local] Instance example_metadata : MetadataBase := {
  getStripeBlks _ _ := Ok [];
  getStripeBlksMul _ _ _ _ := Ok ([], ∅);
  getCoefficient _ _ := Ok ∅;
  getIPfromBlk b := Ok (Z.of_nat (length b));
  getAllBlks _ := Ok example_blks
}.

Lemma request_roundtrip_witness :
  exists m st, request (zeros 1024) 3 [lit "bb"; lit "ccc"] = Ok m /\
    parseFRRequest 2 m 3 = Ok (mkReq 0 (lit "ccc") [(lit "bb", 2); (lit "ccc", 3)] st) /\ st !! lit "dddd" = Some 1.
Proof.
  destruct (request_roundtrip (MB := example_metadata) (fun b => Z.of_nat (length b)) example_blks (lit "bb") [lit "ccc"] eq_refl ltac:(discriminate)
    ltac:(reflexivity) 2 (zeros 1024) 3) as (m & st & H1 & _ & H2 & H3);
    [unfold is_u32; lia|repeat constructor|rewrite length_request; unfold zeros; rewrite length_replicate; cbn; lia|].
  exists m, st. split; [exact H1|]. split; [exact H2|]. rewrite H3. reflexivity.
Defined.
