(* ===== verification/Hdfs3.v ===== *)
(** * The metadata of HDFS 3 (HDFS3_MetadataBase.cc)

    [GetMetadata] reads the stripes from the listing of [hdfs fsck], fixes the
    place of every block in its stripe (the parity blocks first, as RSUtil
    numbers them) and its [_ecK] helpers, and then learns from the [blk_init]
    messages of the nodes where the blocks are.  The queries [getStripeBlks],
    [getAllBlks], [getIPfromBlk] and [getCoefficient] read the maps it fills;
    reading a [map] at a key it has not inserts a default, which is what the
    model reads.  The instance of [MetadataBase] and its laws are in
    Hdfs3Laws.v.  The replies of the namenode and of Redis are arguments. *)
From Stdlib Require Import Ascii Sorted.
From stdpp Require Import strings.
From S2P Require Import Prelude Command Text Config Galois GF256 Jerasure Gauss Vandermonde ReedSol Encode RSUtil Metadata DrCmd Request.

(** ** [std::string], [std::set] and [std::map] *)

Definition npos : Z := 2^64 - 1.

(** [s.find(t, pos)] *)
Fixpoint find_in (t s : str) (i : Z) : Z :=
  if has_prefix t s then i else match s with [] => npos | _ :: s' => find_in t s' (i + 1) end.
Definition find (s t : str) (pos : Z) : Z :=
  if pos <=? Z.of_nat (length s) then find_in t (drop (Z.to_nat pos) s) pos else npos.

(** [s.substr(pos, len)] throws when [pos] is past the end. *)
Definition substr (s : str) (pos len : Z) : res str :=
  guard_or Undef (pos <=? Z.of_nat (length s));;
  Ok (take (Z.to_nat (Z.min len (Z.of_nat (length s) - pos))) (drop (Z.to_nat pos) s)).

Fixpoint str_lt (s t : str) : bool :=
  match s, t with
  | _, [] => false
  | [], _ :: _ => true
  | a :: s', b :: t' => (N_of_ascii a <? N_of_ascii b)%N || (Ascii.eqb a b && str_lt s' t')
  end.

Definition blk_lt (x y : Z * str) : bool := (x.1 <? y.1) || ((x.1 =? y.1) && str_lt x.2 y.2).

(** [set<pair<unsigned int, string>>::insert] *)
Fixpoint set_insert (x : Z * str) (l : list (Z * str)) : list (Z * str) :=
  match l with
  | [] => [x]
  | y :: l' => if blk_lt x y then x :: l else if blk_lt y x then y :: set_insert x l' else l
  end.

(** [map<string, A>::insert] keeps an entry there is. *)
Fixpoint map_insert {A} (k : str) (v : A) (l : list (str * A)) : list (str * A) :=
  match l with
  | [] => [(k, v)]
  | y :: l' => if str_lt k y.1 then (k, v) :: l else if str_lt y.1 k then y :: map_insert k v l' else l
  end.

(** ** The listing *)

(** [tempBlkSet] and [parityIndex] when the block [i] of a stripe is listed. *)
Definition add_blk (ecK : nat) (i : nat) (blkName : str) '((tempBlkSet, parityIndex) : list str * nat) : list str * nat :=
  if (i <? ecK)%nat then (tempBlkSet ++ [blkName], parityIndex)
  else (take parityIndex tempBlkSet ++ blkName :: drop parityIndex tempBlkSet, S parityIndex).

(** One block: its name, and where the next is searched. *)
Definition scan_blk (cmdResult : str) (startPos : Z) : res (str * Z) :=
  let currentPos := find cmdResult (lit "blk_") startPos in
  blkName ← substr cmdResult currentPos 24;
  let currentPos := find cmdResult (lit "[") currentPos in
  let endPos := find cmdResult (lit ":") currentPos in
  substr cmdResult ((currentPos + 1) mod 2^64) ((endPos - currentPos - 1) mod 2^64);;
  Ok (blkName, endPos).

(** [while (true)] over the stripes: [blks] and [stripe2Blk]. *)
Fixpoint scan_stripes (fuel : nat) (ecK ecN : nat) (cmdResult : str) (startPos : Z) (blks : gset str) (stripe2Blk : list (str * list str)) :
    res (gset str * list (str * list str)) :=
  if startPos =? npos then Ok (blks, stripe2Blk) else
  match fuel with
  | O => Fault Blocked
  | S f =>
      stripeId ← substr cmdResult ((startPos - 44) mod 2^64) 29;
      '(startPos, blks, (tempBlkSet, parityIndex)) ← for_each (seq 0 ecN) (fun i '(startPos, blks, temp) =>
        '(blkName, startPos) ← scan_blk cmdResult startPos;
        Ok (startPos, {[ blkName ]} ∪ blks, add_blk ecK i blkName temp)) (startPos, blks, ([], 0%nat));
      scan_stripes f ecK ecN cmdResult (find cmdResult (lit "Live_repl") ((startPos + 9) mod 2^64)) blks (map_insert stripeId tempBlkSet stripe2Blk)
  end.

(** ** The maps *)

Record Hdfs3 := mkHdfs3 {
  _blk2Stripe : gmap str (list (Z * str));
  _blkName2StripeId : gmap str nat;
  _blkIdInStripe : gmap str nat;
  _blkName2Ip : gmap str Z;
  _Ip2BlkNames : list (gmap Z str);
  _Id2BlkNames : list (gmap nat str);
  _coefs : gmap str (gmap str Z)   (* [_coefficient] *)
}.

Section metadata.
Context `{GF : GFComplete} (rsUtil : RSUtil) (ecK ecN : nat).

(** The helpers of a block: the first [ecK] others of its stripe. *)
Definition recovered (stripe : list str) (b : str) : list str := take ecK (List.filter (fun r => bool_decide (r <> b)) stripe).

(** [_coefficient[iterBlk].insert({recoveredBlks[i], coef[i]})] *)
Definition add_coefs (rec : list str) (coef : list Z) (m : gmap str Z) : res (gmap str Z) :=
  for_each (zip (seq 0 (length rec)) rec) (fun '(i, r) m =>
    c ← res_of_option Undef (coef !! i);
    Ok (if bool_decide (is_Some (m !! r)) then m else <[r := c]> m)) m.

(** [recoveree[recoverBlk].push_back(iterBlk)] *)
Definition recover_by (b : str) (rec : list str) (recoveree : gmap str (list str)) : gmap str (list str) :=
  foldl (fun m r => <[r := default [] (m !! r) ++ [b]]> m) recoveree rec.

(** One block of a stripe. *)
Definition place_blk (stripeIdInt : nat) (stripe : list str) (x : nat * str)
    (s : Hdfs3 * gmap str (list str) * gmap nat str) : res (Hdfs3 * gmap str (list str) * gmap nat str) :=
  let '(idxInStripe, b) := x in
  let '(h, recoveree, id2BlkName) := s in
  let rec := recovered stripe b in
  coef ← res_of_option Undef (RSUtil.getCoefficient rsUtil idxInStripe);
  m ← add_coefs rec coef (default ∅ (_coefs h !! b));
  Ok (mkHdfs3 (_blk2Stripe h) (<[b := stripeIdInt]> (_blkName2StripeId h)) (<[b := idxInStripe]> (_blkIdInStripe h))
        (_blkName2Ip h) (_Ip2BlkNames h) (_Id2BlkNames h) (<[b := m]> (_coefs h)),
      recover_by b rec recoveree, <[idxInStripe := b]> id2BlkName).

(** One stripe. *)
Definition place_stripe (x : nat * list str) (s : Hdfs3 * gmap str (list str)) : res (Hdfs3 * gmap str (list str)) :=
  let '(stripeIdInt, stripe) := x in
  let '(h, recoveree) := s in
  '(h, recoveree, id2BlkName) ← for_each (zip (seq 0 (length stripe)) stripe) (place_blk stripeIdInt stripe) (h, recoveree, ∅);
  Ok (mkHdfs3 (_blk2Stripe h) (_blkName2StripeId h) (_blkIdInStripe h) (_blkName2Ip h)
        (_Ip2BlkNames h ++ [∅]) (_Id2BlkNames h ++ [id2BlkName]) (_coefs h), recoveree).

Definition place_stripes (stripes : list (list str)) : res (Hdfs3 * gmap str (list str)) :=
  for_each (zip (seq 0 (length stripes)) stripes) place_stripe (mkHdfs3 ∅ ∅ ∅ ∅ [] [] ∅, ∅).

(** A node reports a block it holds. *)
Definition report (recoveree : gmap str (list str)) (holderIP : Z) (blkName : str) (h : Hdfs3) : res Hdfs3 :=
  let blk2Stripe := foldl (fun m it => <[it := set_insert (holderIP, blkName) (default [] (m !! it))]> m)
    (_blk2Stripe h) (default [] (recoveree !! blkName)) in
  '(ips, blkName2Ip) ←
    (match _blkName2StripeId h !! blkName with
     | None => Ok (_Ip2BlkNames h, _blkName2Ip h)
     | Some stripeIdInt =>
         m ← res_of_option Undef (_Ip2BlkNames h !! stripeIdInt);
         Ok (<[stripeIdInt := if bool_decide (is_Some (m !! holderIP)) then m else <[holderIP := blkName]> m]> (_Ip2BlkNames h),
             if bool_decide (is_Some (_blkName2Ip h !! blkName)) then _blkName2Ip h else <[blkName := holderIP]> (_blkName2Ip h))
     end);
  Ok (mkHdfs3 blk2Stripe (_blkName2StripeId h) (_blkIdInStripe h) blkName2Ip ips (_Id2BlkNames h) (_coefs h)).

(** [while (true)] over the replies of [BLPOP blk_init]. *)
Fixpoint wait_blks (recoveree : gmap str (list str)) (replies : list reply) (blks : gset str) (h : Hdfs3) : res Hdfs3 :=
  match replies with
  | [] => Fault Blocked
  | RData msg :: rest =>
      holderIP ← read_uint msg 0;
      let blkName := str_of (c_string (drop 4 msg)) in
      if negb (bool_decide (blkName ∈ blks)) then wait_blks recoveree rest blks h else
      h ← report recoveree holderIP blkName h;
      let blks := blks ∖ {[ blkName ]} in
      if bool_decide (blks = ∅) then Ok h else wait_blks recoveree rest blks h
  | REmpty :: _ => Fault Undef
  | _ :: rest => wait_blks recoveree rest blks h
  end.

(** [GetMetadata] *)
Definition GetMetadata (cmdResult : str) (replies : list reply) : res Hdfs3 :=
  '(blks, stripe2Blk) ← scan_stripes (S (length cmdResult)) ecK ecN cmdResult (find cmdResult (lit "Live_repl") 0) ∅ [];
  '(h, recoveree) ← place_stripes stripe2Blk.*2;
  wait_blks recoveree replies blks h.

(** ** The queries *)

Definition getIPfromBlk3 (h : Hdfs3) (blkName : str) : res Z := res_of_option (Exit 1) (_blkName2Ip h !! blkName).

Definition getAllBlks3 (h : Hdfs3) (blkName : str) : res (list (Z * str)) :=
  guard_or (Exit 1) (bool_decide (is_Some (_blk2Stripe h !! blkName)));;
  m ← res_of_option (Exit 1) (_Ip2BlkNames h !! default 0%nat (_blkName2StripeId h !! blkName));
  Ok (foldr set_insert [] (map_to_list m)).

(** [getCoefficient] *)
Definition getCoefficient3 (h : Hdfs3) (blkName : str) (status : option (gmap str Z)) : res (gmap str Z) :=
  match status with
  | None => Ok (default ∅ (_coefs h !! blkName))
  | Some status =>
      int_status ← for_each (map_to_list status) (fun '(b, v) st =>
        if v =? 2 then
          let i := default 0%nat (_blkIdInStripe h !! b) in
          guard_or Undef (i <? ecN)%nat;; Ok (<[i := 1]> st)
        else Ok st) (zeros ecN);
      let stripeId := default 0%nat (_blkName2StripeId h !! blkName) in
      let coefs := getCoefficient_multi rsUtil (default 0%nat (_blkIdInStripe h !! blkName)) int_status in
      match coefs with
      | None => Ok ∅
      | Some coefs =>
          '(_, coef) ← for_each (seq 0 ecN) (fun i '(cnt, coef) =>
            if int_status !!! i =? 0 then Ok (cnt, coef) else
            names ← res_of_option Undef (_Id2BlkNames h !! stripeId);
            c ← res_of_option Undef (coefs !! cnt);
            Ok (S cnt, <[default [] (names !! i) := c]> coef)) (0%nat, ∅);
          Ok coef
      end
  end.

(** The end of [getStripeBlks]: the helpers shuffled or, rack by rack, those of
    the requestor's rack last; [random_shuffle] is the library's, [rackInfos] is
    of [Config]. *)
Definition schedule (random_shuffle : nat -> list (Z * str) -> list (Z * str)) (_shuffle : bool) (rackInfos : gmap Z str)
    (ret : list (Z * str)) (requestorIP : Z) : list (Z * str) :=
  let rack := fun ip => default [] (rackInfos !! ip) in
  let stripe2Rack := foldl (fun m it => map_insert (rack it.1) tt m) [] ret in
  if _shuffle then random_shuffle (length stripe2Rack) ret else
  let groups := (fun '(idx, r) => (r, random_shuffle idx (List.filter (fun it => bool_decide (rack it.1 = r)) ret)))
    <$> zip (seq 0 (length stripe2Rack)) stripe2Rack.*1 in
  let mine := concat (List.filter (fun g => bool_decide (g.1 = rack requestorIP)) groups).*2 in
  let newret := concat (List.filter (fun g => bool_decide (g.1 <> rack requestorIP)) groups).*2 in
  newret ++ mine.

(** [getStripeBlks] *)
Definition getStripeBlks3 (random_shuffle : nat -> list (Z * str) -> list (Z * str)) (_shuffle : bool) (rackInfos : gmap Z str)
    (h : Hdfs3) (blkName : str) (requestorIP : Z) : res (list (Z * str)) :=
  Ok (schedule random_shuffle _shuffle rackInfos (default [] (_blk2Stripe h !! blkName)) requestorIP).

(** The entries of [status] in the order of the keys. *)
Definition in_order (status : gmap str Z) : list (str * Z) := foldr (fun it m => map_insert it.1 it.2 m) [] (map_to_list status).
Definition failed_blks (status : gmap str Z) : list str := (List.filter (fun it => it.2 =? 0) (in_order status)).*1.
Definition survived_blks (status : gmap str Z) : list str := (List.filter (fun it => negb (it.2 =? 0)) (in_order status)).*1.

(** [opt == 0]: the first [_ecK] alive blocks not on the requestor; reading
    the status of a block enters it when it is not there. *)
Definition select_helper (requestorIP : Z) (it : Z * str) '((setVal, status) : list (Z * str) * gmap str Z) : list (Z * str) * gmap str Z :=
  if (length setVal <? ecK)%nat && negb (it.1 =? requestorIP) then
    let v := default 0 (status !! it.2) in
    (if negb (v =? 0) then set_insert it setVal else setVal, if bool_decide (is_Some (status !! it.2)) then status else <[it.2 := 0]> status)
  else (setVal, status).

(** [opt == 1]: the survivors with how often they have been used, the helpers
    chosen and the status; a helper is chosen in one of two passes. *)
Record balance := mkBalance {
  bl_survived : list (str * Z);
  bl_set : list (Z * str);
  bl_status : gmap str Z;
  bl_cnt : nat
}.
Definition use_survivor (h : Hdfs3) (j : nat) (b : str) (s : balance) : balance :=
  mkBalance (alter (fun x => (x.1, x.2 + 1)) j (bl_survived s)) (set_insert (default 0 (_blkName2Ip h !! b), b) (bl_set s))
    (<[b := 2]> (bl_status s)) (S (bl_cnt s)).
Definition balance_pass (h : Hdfs3) (want : str * Z -> gmap str Z -> bool) (s : balance) : balance :=
  foldl (fun s j =>
    match bl_survived s !! j with
    | Some x => if (bl_cnt s <? ecK)%nat && want x (bl_status s) then use_survivor h j x.1 s else s
    | None => s
    end) s (seq 0 (length (bl_survived s))).
Definition balance_one (h : Hdfs3) (survived : list (str * Z)) (status : gmap str Z) : list (str * Z) * list (Z * str) * gmap str Z :=
  let min_value := foldl (fun m x => if x.2 <? m then x.2 else m) 999 survived in
  let s := balance_pass h (fun x _ => x.2 =? min_value) (mkBalance survived [] status 0) in
  let s := balance_pass h (fun x status => negb (default 0 (status !! x.1) =? 2)) s in
  (bl_survived s, bl_set s, foldl (fun st x => <[x.1 := 1]> st) (bl_status s) (bl_survived s)).

(** [getStripeBlksMul]; there is no [opt == 2] yet. *)
Definition getStripeBlksMul3 (h : Hdfs3) (blkName : str) (requestorIP : Z) (status : option (gmap str Z)) (opt : Z) : res (stripes_mul * gmap str Z) :=
  match status with
  | None =>
      match _blk2Stripe h !! blkName with
      | None => Ok ([], ∅)
      | Some setVal => Ok ([(requestorIP, (blkName, setVal))], ∅)
      end
  | Some status =>
      let failed := failed_blks status in
      allStripeBlks ← getAllBlks3 h blkName;
      let ip := fun b => default 0 (_blkName2Ip h !! b) in
      let checked := fun (ret : stripes_mul) (status : gmap str Z) => guard_or (Exit 1) (length failed =? length ret)%nat;; Ok (ret, status) in
      if Z.rem opt 10 =? 0 then
        let '(setVal, status) := foldl (fun s it => select_helper requestorIP it s) ([], status) allStripeBlks in
        if (length setVal <? ecK)%nat then Ok ([], status) else
        checked (foldl (fun ret b => ip_insert (ip b, (b, setVal)) ret) [] (failed_blks status)) status
      else if Z.rem opt 10 =? 1 then
        let '(_, ret, status) := foldl (fun '(survived, ret, status) b =>
          let '(survived, setVal, status) := balance_one h survived status in
          (survived, ip_insert (ip b, (b, setVal)) ret, status))
          ((fun b => (b, 0)) <$> survived_blks status, [], status) failed in
        checked ret status
      else checked [] status
  end.
End metadata.

(** ** The order of the listing *)

(** The parity blocks, listed last, come first. *)
Lemma parity_first ecK (names : list str) :
  (ecK <= length names)%nat ->
  foldl (fun s x => add_blk ecK x.1 x.2 s) ([], 0%nat) (zip (seq 0 (length names)) names) =
    (drop ecK names ++ take ecK names, (length names - ecK)%nat).
Proof.
  intros Hk. assert (H : forall n, (n <= length names)%nat ->
    foldl (fun s x => add_blk ecK x.1 x.2 s) ([], 0%nat) (zip (seq 0 n) (take n names)) =
      (drop ecK (take n names) ++ take ecK (take n names), (n - ecK)%nat)).
  2: { rewrite <- (take_ge names (length names)) at 2 by lia. rewrite H by lia. by rewrite take_ge by lia. }
  induction n as [|n IH]; intros Hn; [by rewrite take_0, drop_nil, take_nil|].
  destruct (lookup_lt_is_Some_2 names n) as [b Hb]; [lia|]. rewrite (take_S_r names n b Hb), seq_S.
  rewrite zip_with_app by (rewrite length_seq, length_take; lia). rewrite foldl_app, IH by lia. cbn [zip zip_with foldl fst snd].
  unfold add_blk. rewrite Nat.add_0_l. destruct (Nat.ltb_spec n ecK).
  - rewrite !drop_ge, !(take_ge _ ecK) by (rewrite ?length_app, !length_take; cbn; lia). f_equal. lia.
  - rewrite (drop_app_le _ [b]), (take_app_le _ [b]) by (rewrite length_take; lia).
    assert (Hd : length (drop ecK (take n names)) = (n - ecK)%nat) by (rewrite length_drop, length_take; lia).
    rewrite <- Hd, take_app_length, drop_app_length, Hd, <- app_assoc. f_equal. lia.
Qed.

(** ** The maps of the stripes *)

Section placed.
Context (rsUtil : RSUtil) (ecK ecN : nat) (stripes : list (list str)).
Context (Hdistinct : NoDup (concat stripes)) (Hlen : forall l, l ∈ stripes -> length l = ecN).
Context (Hcoefs : forall i, (i < ecN)%nat -> exists c, RSUtil.getCoefficient rsUtil i = Some c /\ length c = ecK).

Lemma recovered_in l b r : r ∈ recovered ecK l b -> r ∈ l /\ r <> b.
Proof.
  unfold recovered. intros (i & H%list_elem_of_lookup_2 & _)%elem_of_take. apply list_elem_of_In, filter_In in H as [H1 H2].
  split; [by apply list_elem_of_In|]. by apply bool_decide_eq_true in H2.
Qed.

Lemma NoDup_recovered l b : NoDup l -> NoDup (recovered ecK l b).
Proof.
  intros Hl. unfold recovered. apply (sublist_NoDup _ l); [done|]. etrans; [apply sublist_take|].
  induction l as [|x l IH]; [done|]. apply NoDup_cons in Hl as [_ Hl]. cbn. case_bool_decide; by constructor; apply IH.
Qed.

Lemma length_recovered l b : NoDup l -> b ∈ l -> length (recovered ecK l b) = Nat.min ecK (length l - 1).
Proof.
  intros Hl Hb. unfold recovered. rewrite length_take. f_equal.
  induction l as [|x l IH]; [by apply not_elem_of_nil in Hb|]. apply NoDup_cons in Hl as [Hx Hl]. cbn [List.filter length].
  case_bool_decide as E.
  - apply elem_of_cons in Hb as [<-|Hb]; [done|]. cbn [length]. rewrite IH by done.
    destruct l; [by apply not_elem_of_nil in Hb|]. cbn. lia.
  - destruct (decide (x = b)) as [->|]; [|done]. assert (Hall : forall l', b ∉ l' -> List.filter (fun r => bool_decide (r <> b)) l' = l').
    { induction l' as [|y l' IH']; [done|]. intros [Hy Hl']%not_elem_of_cons. cbn. rewrite bool_decide_true by done. by rewrite IH'. }
    rewrite Hall by done. lia.
Qed.

(** The coefficients of the constructor of RSUtil, by helper. *)
Definition first_coefs (rec : list str) (c : list Z) (m : gmap str Z) : Prop :=
  (forall j r, rec !! j = Some r -> m !! r = c !! j) /\ forall r, r ∉ rec -> m !! r = None.

Lemma add_coefs_ok rec c : NoDup rec -> (length rec <= length c)%nat -> exists m, add_coefs rec c ∅ = Ok m /\ first_coefs rec c m.
Proof.
  intros Hn Hl. unfold add_coefs, first_coefs.
  destruct (for_each_total (fun n m => first_coefs (take n rec) (take n c) m) (zip (seq 0 (length rec)) rec)
    (fun '(i, r) m => c ← res_of_option Undef (c !! i); Ok (if bool_decide (is_Some (m !! r)) then m else <[r := c]> m)) ∅)
    as (m & E & Hm).
  - split; [intros j r Hj; by rewrite take_0 in Hj|done].
  - intros i [i' r] m [Hi Hr]%lookup_indexed [H1 H2]. cbn [fst snd] in *. subst i'.
    destruct (lookup_lt_is_Some_2 c i) as [v Hv]; [apply lookup_lt_Some in Hr; lia|]. rewrite Hv. cbn [res_of_option]. rewrite bind_ok.
    assert (Hnew : r ∉ take i rec).
    { intros (j & Hj & Hlt)%elem_of_take. pose proof (NoDup_lookup _ _ _ _ Hn Hj Hr). lia. }
    rewrite bool_decide_false by (rewrite (H2 r Hnew); by intros [? ?]). eexists. split; [done|]. cbn [Nat.add].
    rewrite (take_S_r rec i r Hr), (take_S_r c i v Hv). apply lookup_lt_Some in Hr as Hi2. apply lookup_lt_Some in Hv as Hv2. split.
    + intros j q [Hj|[Hge Hj]]%lookup_app_Some.
      * rewrite lookup_insert_ne by (intros ->; apply Hnew; by eapply list_elem_of_lookup_2). rewrite (H1 j q Hj).
        apply lookup_lt_Some in Hj. rewrite length_take in Hj. by rewrite lookup_app_l by (rewrite length_take; lia).
      * rewrite length_take in Hge, Hj. apply list_lookup_singleton_Some in Hj as [Hj ->]. rewrite lookup_insert_eq.
        rewrite lookup_app_r by (rewrite length_take; lia). rewrite length_take. by replace (j - i `min` length c)%nat with 0%nat by lia.
    + intros q [Hq1 Hq2%not_elem_of_cons]%not_elem_of_app. rewrite lookup_insert_ne by naive_solver. by apply H2.
  - exists m. split; [done|]. rewrite length_indexed, take_ge in Hm by done. destruct Hm as [H1 H2]. split; [|done].
    intros j r Hj. rewrite (H1 j r Hj). apply lookup_take_lt. by apply lookup_lt_Some in Hj.
Qed.

(** [recoveree] after a block: it is rebuilt by the blocks [rec]. *)
Lemma recover_by_in b rec m x r :
  x ∈ default [] (recover_by b rec m !! r) <-> x ∈ default [] (m !! r) \/ (x = b /\ r ∈ rec).
Proof.
  unfold recover_by. revert m. induction rec as [|q rec IH]; intros m; cbn [foldl].
  - split; [auto|]. by intros [|[_ ?%not_elem_of_nil]].
  - rewrite IH, elem_of_cons. destruct (decide (q = r)) as [->|Hne].
    + rewrite lookup_insert_eq. cbn. rewrite elem_of_app, list_elem_of_singleton. naive_solver.
    + rewrite lookup_insert_ne by done. naive_solver.
Qed.

(** What the maps say of a block of a stripe. *)
Record blk_placed (h : Hdfs3) (sid : nat) (l : list str) (i : nat) (b : str) : Prop := {
  bp_stripe : _blkName2StripeId h !! b = Some sid;
  bp_id : _blkIdInStripe h !! b = Some i;
  bp_coefs : exists c m, RSUtil.getCoefficient rsUtil i = Some c /\ _coefs h !! b = Some m /\ first_coefs (recovered ecK l b) c m
}.

(** The maps after the blocks of the first stripes, and some of the next. *)
Record placed (done_ : list str) (h : Hdfs3) (rc : gmap str (list str)) : Prop := {
  pl_known sid l i b : stripes !! sid = Some l -> l !! i = Some b -> b ∈ done_ -> blk_placed h sid l i b;
  pl_unknown b : b ∉ done_ -> _blkName2StripeId h !! b = None /\ _coefs h !! b = None;
  pl_recover b r : b ∈ default [] (rc !! r) <-> exists l, l ∈ stripes /\ b ∈ l /\ b ∈ done_ /\ r ∈ recovered ecK l b;
  pl_empty : _blk2Stripe h = ∅ /\ _blkName2Ip h = ∅
}.

Lemma stripe_of sid sid' l l' b : stripes !! sid = Some l -> stripes !! sid' = Some l' -> b ∈ l -> b ∈ l' -> sid = sid' /\ l = l'.
Proof.
  intros H1 H2 Hb Hb'. destruct (decide (sid = sid')) as [->|Hne]; [split; congruence|]. exfalso.
  clear Hlen. revert sid sid' H1 H2 Hne. induction stripes as [|l0 ls IH]; intros s s' H1 H2 Hne; [done|].
  cbn [concat] in Hdistinct. apply NoDup_app in Hdistinct as (_ & Hd & Hn). destruct s as [|s], s' as [|s']; try done.
  - injection H1 as ->. apply (Hd b Hb). apply list_elem_of_In, in_concat. exists l'. split; apply list_elem_of_In; [by eapply list_elem_of_lookup_2|done].
  - injection H2 as ->. apply (Hd b Hb'). apply list_elem_of_In, in_concat. exists l. split; apply list_elem_of_In; [by eapply list_elem_of_lookup_2|done].
  - apply (IH Hn s s'); (done || lia).
Qed.

Lemma stripe_NoDup sid l : stripes !! sid = Some l -> NoDup l.
Proof.
  clear Hlen. revert sid. induction stripes as [|l0 ls IH]; intros [|s] H; [done|done|..]; cbn [concat] in Hdistinct;
    apply NoDup_app in Hdistinct as (H1 & _ & H2); [by injection H as ->|by apply (IH H2 s)].
Qed.

Lemma place_blk_ok sid l i b done_ h rc ids :
  stripes !! sid = Some l -> l !! i = Some b -> b ∉ done_ -> placed done_ h rc ->
  exists h' rc', place_blk rsUtil ecK sid l (i, b) (h, rc, ids) = Ok (h', rc', <[i := b]> ids) /\ placed (done_ ++ [b]) h' rc' /\
    _Ip2BlkNames h' = _Ip2BlkNames h /\ _Id2BlkNames h' = _Id2BlkNames h.
Proof.
  intros Hs Hi Hb [Hk Hu Hr He]. pose proof (stripe_NoDup _ _ Hs) as Hn. pose proof (list_elem_of_lookup_2 _ _ _ Hi) as Hbl.
  assert (Hil : (i < ecN)%nat) by (rewrite <- (Hlen l) by (by eapply list_elem_of_lookup_2); by eapply lookup_lt_Some).
  destruct (Hcoefs i Hil) as (c & Hc & Hcl). unfold place_blk. rewrite Hc. cbn [res_of_option]. rewrite bind_ok.
  destruct (Hu b Hb) as [_ ->]. cbn [default].
  destruct (add_coefs_ok (recovered ecK l b) c) as (m & -> & Hm); [by apply NoDup_recovered|rewrite length_recovered by done; lia|].
  rewrite bind_ok. eexists _, _. split; [done|]. split; [|done]. split; cbn.
  - intros sid' l' i' b' Hs' Hi' [Hin| ->%list_elem_of_singleton]%elem_of_app.
    + assert (b' <> b) by congruence. destruct (Hk sid' l' i' b' Hs' Hi' Hin) as [H1 H2 H3].
      split; cbn; rewrite lookup_insert_ne by done; done.
    + destruct (stripe_of sid sid' l l' b Hs Hs' Hbl ltac:(by eapply list_elem_of_lookup_2)) as [<- <-].
      replace i' with i by by eapply NoDup_lookup. split; cbn; rewrite lookup_insert_eq; [done|done|]. by exists c, m.
  - intros b' [H1 H2%not_elem_of_cons]%not_elem_of_app. rewrite !lookup_insert_ne by naive_solver. by apply Hu.
  - intros b' r. rewrite recover_by_in, Hr. split.
    + intros [(l' & H1 & H2 & H3 & H4)|[-> H]]; [exists l'|exists l]; rewrite elem_of_app.
      * tauto.
      * split; [by eapply list_elem_of_lookup_2|]. split; [done|]. split; [right; left|done].
    + intros (l' & H1 & H2 & H3 & H4). apply elem_of_app in H3 as [H3| ->%list_elem_of_singleton]; [left; by exists l'|]. right. split; [done|].
      apply list_elem_of_lookup in H1 as [sid' H1]. by destruct (stripe_of sid sid' l l' b Hs H1 Hbl H2) as [_ ->].
  - done.
Qed.

(** The blocks of the stripe [sid] by their place. *)
Definition ids_of (l : list str) (ids : gmap nat str) : Prop := forall i, ids !! i = l !! i.

Lemma place_stripe_ok sid l h rc :
  stripes !! sid = Some l -> placed (concat (take sid stripes)) h rc ->
  exists h' rc' ids, place_stripe rsUtil ecK (sid, l) (h, rc) = Ok (h', rc') /\ placed (concat (take (S sid) stripes)) h' rc' /\
    _Ip2BlkNames h' = _Ip2BlkNames h ++ [∅] /\ _Id2BlkNames h' = _Id2BlkNames h ++ [ids] /\ ids_of l ids.
Proof.
  intros Hs Hp. unfold place_stripe. set (done_ := concat (take sid stripes)) in *.
  destruct (for_each_total (fun n '(h', rc', ids) => placed (done_ ++ take n l) h' rc' /\ _Ip2BlkNames h' = _Ip2BlkNames h /\
    _Id2BlkNames h' = _Id2BlkNames h /\ ids_of (take n l) ids) (zip (seq 0 (length l)) l) (place_blk rsUtil ecK sid l) (h, rc, ∅))
    as ([[h' rc'] ids] & E & Hp' & H1 & H2 & H3).
  - rewrite take_0, app_nil_r. by split_and!.
  - intros i [i' b] [[h1 rc1] ids] [Hi Hb]%lookup_indexed (Hp1 & H1 & H2 & H3). cbn [fst snd] in *. subst i'.
    destruct (place_blk_ok sid l i b (done_ ++ take i l) h1 rc1 ids Hs Hb) as (h2 & rc2 & E & Hp2 & H4 & H5); [|done|].
    + intros [Hin|(j & Hj & Hlt)%elem_of_take]%elem_of_app.
      * assert (Hsp : stripes = take sid stripes ++ l :: drop (S sid) stripes).
        { by rewrite <- (drop_S _ _ _ Hs), take_drop. }
        rewrite Hsp, concat_app in Hdistinct. apply NoDup_app in Hdistinct as (_ & Hd & _). apply (Hd b Hin).
        cbn [concat]. apply elem_of_app. left. by eapply list_elem_of_lookup_2.
      * pose proof (NoDup_lookup _ _ _ _ (stripe_NoDup _ _ Hs) Hj Hb). lia.
    + eexists. split; [exact E|]. cbn [Nat.add]. rewrite (take_S_r l i b Hb), app_assoc. split_and!; [done|congruence|congruence|].
      intros j. pose proof (lookup_lt_Some _ _ _ Hb) as Hlt. destruct (decide (j = i)) as [->|Hne].
      * rewrite lookup_insert_eq, lookup_app_r, length_take by (rewrite length_take; lia). by replace (i - i `min` length l)%nat with 0%nat by lia.
      * rewrite lookup_insert_ne, H3 by done. destruct (decide (j < i)%nat).
        -- by rewrite lookup_app_l by (rewrite length_take; lia).
        -- rewrite !lookup_ge_None_2; rewrite ?length_app, ?length_take; cbn; (done || lia).
  - rewrite E, bind_ok. eexists _, _, ids. split; [done|]. rewrite length_indexed, take_ge in Hp', H3 by done.
    rewrite (take_S_r _ _ _ Hs), concat_app. cbn [concat]. rewrite app_nil_r. cbn. rewrite H1, H2. split_and!; [|done..].
    destruct Hp' as [P1 P2 P3 P4]. split; cbn; [|done..]. intros sid' l' i' b' Hs' Hi' Hb'. by destruct (P1 sid' l' i' b' Hs' Hi' Hb').
Qed.

(** The maps once all the stripes are placed, before any report. *)
Record all_placed (h : Hdfs3) (rc : gmap str (list str)) : Prop := {
  ap_blk sid l i b : stripes !! sid = Some l -> l !! i = Some b -> blk_placed h sid l i b;
  ap_recover b r : b ∈ default [] (rc !! r) <-> exists l, l ∈ stripes /\ b ∈ l /\ r ∈ recovered ecK l b;
  ap_ids sid l : stripes !! sid = Some l -> exists ids, _Id2BlkNames h !! sid = Some ids /\ ids_of l ids;
  ap_ips : _Ip2BlkNames h = replicate (length stripes) ∅;
  ap_empty : _blk2Stripe h = ∅ /\ _blkName2Ip h = ∅
}.

Lemma place_stripes_ok : exists h rc, place_stripes rsUtil ecK stripes = Ok (h, rc) /\ all_placed h rc.
Proof.
  unfold place_stripes. destruct (for_each_total (fun n '(h, rc) => placed (concat (take n stripes)) h rc /\
    _Ip2BlkNames h = replicate n ∅ /\ length (_Id2BlkNames h) = n /\
    forall sid l, (sid < n)%nat -> stripes !! sid = Some l -> exists ids, _Id2BlkNames h !! sid = Some ids /\ ids_of l ids)
    (zip (seq 0 (length stripes)) stripes) (place_stripe rsUtil ecK) (mkHdfs3 ∅ ∅ ∅ ∅ [] [] ∅, ∅)) as ([h rc] & E & Hp & H1 & H2 & H3).
  - split; [|split_and!; (done || lia)]. rewrite take_0. split; cbn.
    + intros ????? ? ?%not_elem_of_nil. done.
    + done.
    + intros b r. split; [intros ?%not_elem_of_nil; done|]. intros (l & _ & _ & ?%not_elem_of_nil & _). done.
    + done.
  - intros sid [sid' l] [h rc] [Hi Hl]%lookup_indexed (Hp & H1 & H2 & H3). cbn [fst snd] in *. subst sid'.
    destruct (place_stripe_ok sid l h rc Hl Hp) as (h' & rc' & ids & E & Hp' & E1 & E2 & Hids).
    eexists. split; [exact E|]. cbn [Nat.add]. rewrite E1, E2, H1, length_app, H2. cbn [length]. split_and!; [done|by rewrite replicate_S_end|lia|].
    intros s l' Hlt Hs. destruct (decide (s = sid)) as [->|].
    + exists ids. rewrite lookup_app_r by lia. rewrite H2, Nat.sub_diag. by replace l' with l by congruence.
    + destruct (H3 s l') as (ids' & Hid & ?); [lia|done|]. exists ids'. by rewrite lookup_app_l by lia.
  - exists h, rc. split; [exact E|]. rewrite length_indexed, take_ge in * by done. destruct Hp as [P1 P2 P3 P4].
    assert (Hall : forall l b, l ∈ stripes -> b ∈ l -> b ∈ concat stripes).
    { intros l b Hl Hb. apply list_elem_of_In, in_concat. exists l. by split; apply list_elem_of_In. }
    split.
    + intros sid l i b Hs Hi. apply P1; [done..|]. apply (Hall l); by eapply list_elem_of_lookup_2.
    + intros b r. rewrite P3. split; [|naive_solver]. intros (l & ? & ? & ? & ?). by exists l.
    + intros sid l Hs. apply H3; [by eapply lookup_lt_Some|done].
    + done.
    + done.
Qed.

(** ** The reports *)

Lemma str_lt_total s t : str_lt s t = false -> str_lt t s = false -> s = t.
Proof.
  revert t. induction s as [|a s IH]; intros [|b t] H1 H2; [done..|]. cbn in H1, H2.
  apply orb_false_iff in H1 as [H1 H3]. apply orb_false_iff in H2 as [H2 H4]. apply N.ltb_ge in H1, H2.
  assert (a = b) as ->. { rewrite <- (ascii_N_embedding a), <- (ascii_N_embedding b). f_equal. by apply N.le_antisymm. }
  rewrite Ascii.eqb_refl in H3, H4. f_equal. by apply IH.
Qed.

Lemma str_lt_irrefl s : str_lt s s = false.
Proof. induction s as [|a s IH]; [done|]. cbn. by rewrite N.ltb_irrefl, IH, andb_false_r. Qed.

Lemma str_lt_trans s t u : str_lt s t = true -> str_lt t u = true -> str_lt s u = true.
Proof.
  revert t u. induction s as [|a s IH]; intros [|b t] [|c u] H1 H2; cbn in *; try done.
  apply orb_true_iff in H1 as [H1%N.ltb_lt|[->%Ascii.eqb_eq H1]%andb_true_iff], H2 as [H2%N.ltb_lt|[->%Ascii.eqb_eq H2]%andb_true_iff];
    apply orb_true_iff.
  - left. apply N.ltb_lt. by etrans.
  - left. by apply N.ltb_lt.
  - left. by apply N.ltb_lt.
  - right. rewrite Ascii.eqb_refl. by rewrite (IH t u).
Qed.

Lemma blk_lt_total x y : blk_lt x y = false -> blk_lt y x = false -> x = y.
Proof.
  destruct x as [i s], y as [j t]. unfold blk_lt. cbn. intros [H1 H2]%orb_false_iff [H3 H4]%orb_false_iff.
  apply Z.ltb_ge in H1, H3. assert (i = j) as -> by lia. rewrite Z.eqb_refl in H2, H4. f_equal. by apply str_lt_total.
Qed.

Abbreviation blk_sorted := (StronglySorted (fun x y => blk_lt x y = true)).

Lemma blk_lt_trans x y z : blk_lt x y = true -> blk_lt y z = true -> blk_lt x z = true.
Proof.
  destruct x as [i s], y as [j t], z as [k u]. unfold blk_lt. cbn. rewrite !orb_true_iff, !andb_true_iff, !Z.ltb_lt, !Z.eqb_eq.
  intros [H1|[H1 H2]] [H3|[H3 H4]]; [left; lia..|]. right. split; [lia|]. by apply (str_lt_trans s t u).
Qed.

Lemma sorted_NoDup l : blk_sorted l -> NoDup l.
Proof.
  induction 1 as [|x l _ IH Hall]; constructor; [|done]. intros Hx. rewrite Forall_forall in Hall. specialize (Hall x Hx).
  unfold blk_lt in Hall. rewrite Z.ltb_irrefl, str_lt_irrefl, andb_false_r in Hall. done.
Qed.

Lemma set_insert_in x y l : y ∈ set_insert x l <-> y = x \/ y ∈ l.
Proof.
  induction l as [|z l IH]; cbn; [by rewrite list_elem_of_singleton, elem_of_nil; naive_solver|].
  destruct (blk_lt x z) eqn:E1; [by rewrite elem_of_cons|]. destruct (blk_lt z x) eqn:E2.
  - rewrite !elem_of_cons, IH. tauto.
  - rewrite (blk_lt_total x z), elem_of_cons by done. tauto.
Qed.

Lemma set_insert_sorted x l : blk_sorted l -> blk_sorted (set_insert x l).
Proof.
  induction 1 as [|z l Hl IH Hall]; cbn; [by repeat constructor|]. destruct (blk_lt x z) eqn:E1.
  - constructor; [by constructor|]. constructor; [done|]. eapply Forall_impl; [exact Hall|]. intros y. by apply blk_lt_trans.
  - destruct (blk_lt z x) eqn:E2; [|by constructor]. constructor; [done|]. apply Forall_forall. intros y [->|Hy]%set_insert_in; [done|].
    rewrite Forall_forall in Hall. by apply Hall.
Qed.

Context (holder : str -> Z) (Hholders : forall l, l ∈ stripes -> NoDup (holder <$> l)).
Context (h0 : Hdfs3) (rc : gmap str (list str)) (H0 : all_placed h0 rc).

(** The maps when the blocks of [known] have been reported. *)
Record learned (known : list str) (h : Hdfs3) : Prop := {
  le_stripe : _blkName2StripeId h = _blkName2StripeId h0;
  le_id : _blkIdInStripe h = _blkIdInStripe h0;
  le_ids : _Id2BlkNames h = _Id2BlkNames h0;
  le_coefs : _coefs h = _coefs h0;
  le_ip b : b ∈ concat stripes -> _blkName2Ip h !! b = if decide (b ∈ known) then Some (holder b) else None;
  le_ips sid l : stripes !! sid = Some l -> exists m, _Ip2BlkNames h !! sid = Some m /\
    forall ip b, m !! ip = Some b <-> b ∈ l /\ b ∈ known /\ holder b = ip;
  le_sorted b : blk_sorted (default [] (_blk2Stripe h !! b));
  le_helpers b x : x ∈ default [] (_blk2Stripe h !! b) <-> exists r, x = (holder r, r) /\ r ∈ known /\ b ∈ default [] (rc !! r);
  le_some b r : r ∈ known -> b ∈ default [] (rc !! r) -> is_Some (_blk2Stripe h !! b)
}.

(** The insertions of one report. *)
Lemma report_helpers (x : Z * str) (its : list str) (m : gmap str (list (Z * str))) b :
  let m' := foldl (fun m it => <[it := set_insert x (default [] (m !! it))]> m) m its in
  (forall y, y ∈ default [] (m' !! b) <-> y ∈ default [] (m !! b) \/ (y = x /\ b ∈ its)) /\
  (blk_sorted (default [] (m !! b)) -> blk_sorted (default [] (m' !! b))) /\
  (b ∈ its \/ is_Some (m !! b) -> is_Some (m' !! b)).
Proof.
  revert m. induction its as [|it its IH]; intros m; cbn [foldl].
  - split_and!; [|done|intros [?%not_elem_of_nil|]; done]. intros y. rewrite elem_of_nil. tauto.
  - destruct (IH (<[it := set_insert x (default [] (m !! it))]> m)) as (I1 & I2 & I3). cbv zeta in *.
    destruct (decide (it = b)) as [->|Hne].
    + rewrite lookup_insert_eq in I1, I2, I3. cbn [default from_option id] in I1, I2. split_and!.
      * intros y. rewrite I1, set_insert_in, elem_of_cons. tauto.
      * intros Hn. by apply I2, set_insert_sorted.
      * intros _. apply I3. by right.
    + rewrite lookup_insert_ne in I1, I2, I3 by done. split_and!; [|done|].
      * intros y. rewrite I1, elem_of_cons. naive_solver.
      * rewrite elem_of_cons. intros [[|]|]; [naive_solver|apply I3; by left|apply I3; by right].
Qed.

Lemma report_ok known h b :
  learned known h -> b ∈ concat stripes -> b ∉ known ->
  exists h', report rc (holder b) b h = Ok h' /\ learned (b :: known) h'.
Proof.
  intros [L1 L2 L3 L4 L5 L6 L7 L8 L9] Hb Hnew.
  assert (Hs : exists sid l i, stripes !! sid = Some l /\ l !! i = Some b).
  { apply list_elem_of_In, in_concat in Hb as (l & Hl & Hb). apply list_elem_of_In, list_elem_of_lookup in Hl as [sid Hl].
    apply list_elem_of_In, list_elem_of_lookup in Hb as [i Hb]. by exists sid, l, i. }
  destruct Hs as (sid & l & i & Hl & Hi). destruct (ap_blk _ _ H0 sid l i b Hl Hi) as [Hsid _ _].
  pose proof (list_elem_of_lookup_2 _ _ _ Hi) as Hbl.
  destruct (L6 sid l Hl) as (m & Hm & Hmi). unfold report. rewrite L1, Hsid, Hm. cbn [res_of_option]. rewrite !bind_ok.
  assert (Hfree : m !! holder b = None).
  { destruct (m !! holder b) as [b'|] eqn:E; [|done]. apply Hmi in E as (Hb' & Hk & E). destruct (decide (b' = b)) as [->|Hne]; [done|].
    exfalso. apply Hne. apply list_elem_of_lookup in Hb' as [i' Hi'].
    assert (Hn : NoDup (holder <$> l)) by (apply Hholders; by eapply list_elem_of_lookup_2).
    assert (i' = i) as ->; [|congruence]. eapply (NoDup_lookup _ _ _ _ Hn); rewrite list_lookup_fmap, ?Hi', ?Hi; cbn; [by rewrite E|done]. }
  rewrite Hfree, (bool_decide_false (is_Some None)) by by intros [? ?].
  rewrite (L5 b Hb), decide_False, bool_decide_false by (done || by intros [? ?]).
  eexists. split; [done|]. split; cbn; [done..| | | | |].
  - intros b' Hb'. destruct (decide (b = b')) as [->|Hne]; [by rewrite lookup_insert_eq, decide_True by left|].
    rewrite lookup_insert_ne, L5 by done. apply decide_ext. rewrite elem_of_cons. naive_solver.
  - intros sid' l' Hl'. destruct (decide (sid' = sid)) as [->|Hne].
    + replace l' with l in * by congruence. rewrite list_lookup_insert_eq by (apply lookup_lt_Some in Hm; done). eexists. split; [done|].
      intros ip b'. destruct (decide (holder b = ip)) as [<-|Hip].
      * rewrite lookup_insert_eq, elem_of_cons. split; [intros [= <-]; auto|]. intros (H1 & [->|H2] & H3); [done|].
        assert (Hx : m !! holder b = Some b') by (apply Hmi; auto). congruence.
      * rewrite lookup_insert_ne, Hmi, elem_of_cons by done. naive_solver.
    + rewrite list_lookup_insert_ne by done. destruct (L6 sid' l' Hl') as (m' & Hm' & Hmi'). exists m'. split; [done|].
      intros ip b'. rewrite Hmi', elem_of_cons. split; [naive_solver|]. intros (H1 & [->|H2] & H3); [|naive_solver].
      destruct (stripe_of sid sid' l l' b Hl Hl' Hbl H1). done.
  - intros b'. apply report_helpers, L7.
  - intros b' x. rewrite (proj1 (report_helpers _ _ _ _)), L8. setoid_rewrite elem_of_cons. split.
    + intros [(r & -> & Hr & Hx)|[-> Hx]]; [exists r; auto|exists b; auto].
    + intros (r & -> & [->|Hr] & Hx); [right; done|left; exists r; auto].
  - intros b' r [->|Hr]%elem_of_cons Hx; apply report_helpers; [by left|right; by eapply L9].
Qed.

(** The replies of [blk_init]: reports, and timeouts between them. *)
Definition reply_of (r : option (Z * str)) : reply :=
  match r with Some (ip, b) => RData (le32 ip ++ bytes_of b) | None => RNil end.

Definition report_fits (r : option (Z * str)) : Prop :=
  match r with Some (ip, b) => is_u32 ip /\ Ascii.zero ∉ b | None => True end.

(** The node that first reports a block. *)
Fixpoint first_report (rs : list (option (Z * str))) (b : str) : option Z :=
  match rs with
  | [] => None
  | Some (ip, b') :: rs => if decide (b' = b) then Some ip else first_report rs b
  | None :: rs => first_report rs b
  end.

Lemma c_string_name b : Ascii.zero ∉ b -> c_string (bytes_of b) = bytes_of b.
Proof.
  induction b as [|a b IH]; [done|]. intros [Ha Hb]%not_elem_of_cons. unfold bytes_of. rewrite fmap_cons. cbn [c_string].
  destruct (Z.eqb_spec (Z.of_N (N_of_ascii a)) 0) as [E|_].
  - exfalso. apply Ha. rewrite <- (ascii_N_embedding a). by replace (N_of_ascii a) with 0%N by lia.
  - f_equal. by apply IH.
Qed.

Lemma wait_blks_ok (rs : list (option (Z * str))) (known : list str) (blks : gset str) (h : Hdfs3) :
  learned known h -> (forall b, b ∈ blks <-> b ∈ concat stripes /\ b ∉ known) -> blks <> ∅ ->
  Forall report_fits rs -> (forall b, b ∈ blks -> first_report rs b = Some (holder b)) ->
  exists h' known', wait_blks rc (reply_of <$> rs) blks h = Ok h' /\ learned known' h' /\ forall b, b ∈ concat stripes -> b ∈ known'.
Proof.
  revert known blks h. induction rs as [|r rs IH]; intros known blks h Hh Hblks Hne Hfit Hfirst.
  - exfalso. apply Hne, set_eq. intros b. split; [intros Hb; by specialize (Hfirst b Hb)|by intros ?%not_elem_of_empty].
  - apply Forall_cons in Hfit as [Hr Hfit]. destruct r as [[ip b]|]; rewrite fmap_cons; cbn [reply_of wait_blks].
    2: { by apply (IH known). }
    destruct Hr as [Hip Hz]. rewrite read_uint_0, bind_ok by done. rewrite drop_app_length' by done.
    rewrite c_string_name, str_of_bytes by done. destruct (decide (b ∈ blks)) as [Hb|Hb].
    2: { rewrite bool_decide_false by done. cbn [negb]. apply (IH known); try done. intros b' Hb'. specialize (Hfirst b' Hb').
         cbn in Hfirst. rewrite decide_False in Hfirst by congruence. done. }
    rewrite bool_decide_true by done. cbn [negb]. pose proof (Hfirst b Hb) as E. cbn in E. rewrite decide_True in E by done.
    injection E as ->. destruct (proj1 (Hblks b) Hb) as [Hbc Hbk].
    destruct (report_ok known h b Hh Hbc Hbk) as (h' & -> & Hh'). rewrite bind_ok.
    assert (Hblks' : forall b', b' ∈ blks ∖ {[b]} <-> b' ∈ concat stripes /\ b' ∉ b :: known).
    { intros b'. rewrite elem_of_difference, Hblks, elem_of_singleton, not_elem_of_cons. tauto. }
    case_bool_decide as Hend.
    + exists h', (b :: known). split_and!; [done|done|]. intros b' Hb'. destruct (decide (b' ∈ b :: known)) as [|Hn]; [done|].
      exfalso. assert (Hx : b' ∈ blks ∖ {[b]}) by by apply Hblks'. rewrite Hend in Hx. by apply not_elem_of_empty in Hx.
    + apply (IH (b :: known)); try done. intros b' [Hb' Hne']%elem_of_difference. rewrite elem_of_singleton in Hne'.
      specialize (Hfirst b' Hb'). cbn in Hfirst. by rewrite decide_False in Hfirst by congruence.
Qed.

Lemma learned_none : learned [] h0.
Proof.
  destruct H0 as [_ _ _ Hips [Hb2s Hip]]. split; try done; rewrite ?Hb2s, ?Hip, ?Hips; intros *; rewrite ?lookup_empty.
  - done.
  - intros Hl. exists ∅. split; [apply lookup_replicate_2; by eapply lookup_lt_Some|]. intros ip b. rewrite lookup_empty.
    split; [done|]. by intros (_ & ?%not_elem_of_nil & _).
  - constructor.
  - split; [by intros ?%not_elem_of_nil|]. by intros (r & _ & ?%not_elem_of_nil & _).
  - by intros ?%not_elem_of_nil.
Qed.
End placed.

(** ** What the metadata knows in the end *)

(** The maps describe [stripes], with the block [b] on the node [holder b]. *)
Record knows (rsUtil : RSUtil) (ecK : nat) (stripes : list (list str)) (holder : str -> Z) (h : Hdfs3) : Prop := {
  kn_blk sid l i b : stripes !! sid = Some l -> l !! i = Some b -> blk_placed rsUtil ecK h sid l i b;
  kn_ids sid l : stripes !! sid = Some l -> exists ids, _Id2BlkNames h !! sid = Some ids /\ ids_of l ids;
  kn_ip l b : l ∈ stripes -> b ∈ l -> _blkName2Ip h !! b = Some (holder b);
  kn_ips sid l : stripes !! sid = Some l -> exists m, _Ip2BlkNames h !! sid = Some m /\
    forall ip b, m !! ip = Some b <-> b ∈ l /\ holder b = ip;
  kn_helpers l b : l ∈ stripes -> b ∈ l -> exists s, _blk2Stripe h !! b = Some s /\ NoDup s /\
    forall x, x ∈ s <-> exists r, x = (holder r, r) /\ r ∈ recovered ecK l b
}.

Lemma concat_in (stripes : list (list str)) l b : l ∈ stripes -> b ∈ l -> b ∈ concat stripes.
Proof. intros Hl Hb. apply list_elem_of_In, in_concat. exists l. by split; apply list_elem_of_In. Qed.

Lemma learned_knows rsUtil ecK ecN (stripes : list (list str)) (Hd : NoDup (concat stripes)) (Hlen : forall l, l ∈ stripes -> length l = ecN)
    (Hk : (1 <= ecK < ecN)%nat) holder h0 rc (Hap : all_placed rsUtil ecK stripes h0 rc) h known :
  learned stripes holder h0 rc known h -> (forall b, b ∈ concat stripes -> b ∈ known) -> knows rsUtil ecK stripes holder h.
Proof.
  intros Hl Hkn. pose proof (concat_in stripes) as Hall.
  destruct Hl as [L1 L2 L3 L4 L5 L6 L7 L8 L9]. split.
  - intros sid l i b Hs Hi. destruct (ap_blk _ _ _ _ _ Hap sid l i b Hs Hi) as [B1 B2 B3]. split; by rewrite ?L1, ?L2, ?L4.
  - intros sid l Hs. rewrite L3. by apply (ap_ids _ _ _ _ _ Hap).
  - intros l b Hl Hb. rewrite L5, decide_True by eauto. done.
  - intros sid l Hs. destruct (L6 sid l Hs) as (m & Hm & Hmi). exists m. split; [done|]. intros ip b. rewrite Hmi.
    split; [tauto|]. intros [Hb <-]. split_and!; [done| |done]. apply Hkn. apply (Hall l); [by eapply list_elem_of_lookup_2|done].
  - intros l b Hl Hb. assert (Hn : NoDup l) by (apply list_elem_of_lookup in Hl as [sid Hl]; by apply (stripe_NoDup stripes Hd sid)).
    assert (Hrec : forall r, b ∈ default [] (rc !! r) <-> r ∈ recovered ecK l b).
    { intros r. rewrite (ap_recover _ _ _ _ _ Hap). split; [|by exists l]. intros (l' & Hl' & Hb' & Hr).
      apply list_elem_of_lookup in Hl as [sid Hl], Hl' as [sid' Hl'].
      by destruct (stripe_of stripes Hd sid sid' l l' b Hl Hl' Hb Hb') as [_ ->]. }
    assert (Hrk : forall r, r ∈ recovered ecK l b -> r ∈ known).
    { intros r Hr. apply recovered_in in Hr as [Hr _]. by apply Hkn, (Hall l). }
    destruct (recovered ecK l b) as [|r0 rest] eqn:E.
    { pose proof (length_recovered ecK l b Hn Hb) as Hlr. rewrite E, (Hlen l Hl) in Hlr. cbn in Hlr. lia. }
    destruct (L9 b r0) as [s Hs]; [apply Hrk; left|apply Hrec; left|]. exists s. specialize (L7 b). specialize (L8 b).
    rewrite Hs in L7, L8. split_and!; [done|by apply sorted_NoDup|]. intros x. cbn [default from_option id] in L8. rewrite L8.
    split; intros (r & -> & Hr); exists r; [by destruct Hr as [_ Hr]; apply Hrec in Hr|].
    split; [done|]. split; [by apply Hrk|by apply Hrec].
Qed.

(** [GetMetadata] on a listing with the stripes [stripes], none empty of
    helpers, and reports that reach every block (with any timeouts and repeated
    or unknown blocks between them): every block has its place in its stripe,
    its coefficients, the node that first reported it and the first [ecK] other
    blocks of the stripe as helpers. *)
Lemma GetMetadata_knows rsUtil ecK ecN (stripes : list (list str)) cmdResult stripe2Blk blks rs holder :
  scan_stripes (S (length cmdResult)) ecK ecN cmdResult (find cmdResult (lit "Live_repl") 0) ∅ [] = Ok (blks, stripe2Blk) ->
  stripe2Blk.*2 = stripes -> blks = list_to_set (concat stripes) -> stripes <> [] ->
  NoDup (concat stripes) -> (forall l, l ∈ stripes -> length l = ecN) -> (1 <= ecK < ecN)%nat ->
  (forall i, (i < ecN)%nat -> exists c, RSUtil.getCoefficient rsUtil i = Some c /\ length c = ecK) ->
  (forall l, l ∈ stripes -> NoDup (holder <$> l)) ->
  Forall report_fits rs -> (forall b, b ∈ concat stripes -> first_report rs b = Some (holder b)) ->
  exists h, GetMetadata rsUtil ecK ecN cmdResult (reply_of <$> rs) = Ok h /\ knows rsUtil ecK stripes holder h.
Proof.
  intros Hscan <- -> Hne Hd Hlen Hk Hc Hh Hfit Hfirst. set (stripes := stripe2Blk.*2) in *.
  destruct (place_stripes_ok rsUtil ecK ecN stripes Hd Hlen Hc) as (h0 & rc & Hp & Hap).
  unfold GetMetadata. rewrite Hscan, bind_ok. fold stripes. rewrite Hp, bind_ok.
  destruct (wait_blks_ok rsUtil ecK stripes Hd holder Hh h0 rc Hap rs [] (list_to_set (concat stripes)) h0) as (h & known & -> & Hl & Hkn).
  - by eapply learned_none.
  - intros b. rewrite elem_of_list_to_set, elem_of_nil. tauto.
  - destruct stripes as [|l ls]; [done|]. assert (Hll : length l = ecN) by (apply Hlen; left). destruct l as [|b l]; [cbn in Hll; lia|].
    intros E. apply (not_elem_of_empty (C := gset str) b). rewrite <- E. apply elem_of_list_to_set. left.
  - done.
  - intros b Hb%elem_of_list_to_set. by apply Hfirst.
  - exists h. split; [done|]. by apply (learned_knows rsUtil ecK ecN stripes Hd Hlen Hk holder h0 rc Hap h known).
Qed.
