(* ===== verification/Hdfs3Laws.v ===== *)
(** * HDFS 3 keeps the promises of MetadataBase (HDFS3_MetadataBase.cc)

    The queries on the maps [GetMetadata] has filled: the laws of
    [MetadataLaws] for every stripe whose blocks are on different nodes, with
    the coefficients of [RSUtil::getCoefficient_multi]. *)
From Stdlib Require Import Ascii Sorted.
From stdpp Require Import strings.
From S2P Require Import Prelude Command Text Config Galois GF256 Jerasure Gauss Vandermonde ReedSol Encode RSUtil Metadata DrCmd Request Hdfs3.

(** ** Racks *)

Lemma map_insert_in {A} k (v : A) l q : q ∈ (map_insert k v l).*1 <-> q = k \/ q ∈ l.*1.
Proof.
  induction l as [|y l IH]; cbn [map_insert]; [by rewrite fmap_cons, elem_of_cons|]. rewrite fmap_cons.
  destruct (str_lt k y.1) eqn:E1; [by rewrite !fmap_cons, elem_of_cons|]. destruct (str_lt y.1 k) eqn:E2.
  - rewrite fmap_cons, !elem_of_cons, IH. tauto.
  - rewrite fmap_cons, (str_lt_total k y.1), elem_of_cons by done. tauto.
Qed.

Lemma map_insert_perm {A} k (v : A) l : k ∉ l.*1 -> map_insert k v l ≡ₚ (k, v) :: l.
Proof.
  induction l as [|y l IH]; intros Hk; [done|]. rewrite fmap_cons in Hk. apply not_elem_of_cons in Hk as [Hne Hk]. cbn [map_insert].
  destruct (str_lt k y.1) eqn:E1; [done|]. destruct (str_lt y.1 k) eqn:E2; [rewrite IH by done; by rewrite Permutation_swap|].
  by destruct (Hne (str_lt_total k y.1 E1 E2)).
Qed.

Abbreviation keys_sorted := (StronglySorted (fun x y => str_lt x y = true)).

Lemma map_insert_sorted {A} k (v : A) l : keys_sorted l.*1 -> keys_sorted (map_insert k v l).*1.
Proof.
  induction l as [|y l IH]; intros Hs; [by repeat constructor|]. cbn [map_insert]. rewrite fmap_cons in Hs.
  apply StronglySorted_inv in Hs as [Hs Hall]. destruct (str_lt k y.1) eqn:E1.
  - rewrite !fmap_cons. constructor; [by constructor|]. constructor; [done|]. eapply Forall_impl; [exact Hall|].
    intros q. by apply str_lt_trans.
  - destruct (str_lt y.1 k) eqn:E2; rewrite fmap_cons; [|by constructor]. constructor; [by apply IH|]. apply Forall_forall.
    intros q [->|Hq]%map_insert_in; [done|]. rewrite Forall_forall in Hall. by apply Hall.
Qed.

Lemma keys_NoDup l : keys_sorted l -> NoDup l.
Proof.
  induction 1 as [|x l _ IH Hall]; constructor; [|done]. intros Hx. rewrite Forall_forall in Hall. specialize (Hall x Hx).
  by rewrite str_lt_irrefl in Hall.
Qed.

Section racks.
Context (key : Z * str -> str) (random_shuffle : nat -> list (Z * str) -> list (Z * str)).
Context (Hshuffle : forall i l, random_shuffle i l ≡ₚ l).

Lemma racks_keys (ret : list (Z * str)) (m : list (str * unit)) :
  keys_sorted m.*1 ->
  let m' := foldl (fun m it => map_insert (key it) tt m) m ret in
  keys_sorted m'.*1 /\ forall r, r ∈ m'.*1 <-> r ∈ m.*1 \/ exists it, it ∈ ret /\ key it = r.
Proof.
  revert m. induction ret as [|x ret IH]; intros m Hm; cbn [foldl].
  - split; [done|]. intros r. split; [auto|]. by intros [|(? & ?%not_elem_of_nil & _)].
  - destruct (IH _ (map_insert_sorted (key x) tt m Hm)) as [H1 H2]. split; [done|]. intros r. rewrite H2, map_insert_in.
    setoid_rewrite elem_of_cons. split.
    + intros [[->|]|(it & ? & ?)]; [right; exists x; auto|auto|right; exists it; auto].
    + intros [|(it & [->|] & <-)]; [auto|auto|right; exists it; auto].
Qed.

Lemma split_filter (P : Z * str -> bool) l : l ≡ₚ List.filter P l ++ List.filter (fun x => negb (P x)) l.
Proof.
  induction l as [|x l IH]; [done|]. cbn. destruct (P x); cbn; [by rewrite <- IH|]. by rewrite <- Permutation_middle, <- IH.
Qed.

Lemma groups_perm a (keys : list str) (ret : list (Z * str)) :
  NoDup keys -> (forall it, it ∈ ret -> key it ∈ keys) ->
  concat ((fun '(idx, r) => random_shuffle idx (List.filter (fun it => bool_decide (key it = r)) ret)) <$> zip (seq a (length keys)) keys) ≡ₚ ret.
Proof.
  revert a ret. induction keys as [|r keys IH]; intros a ret Hn Hall.
  - destruct ret as [|x ret]; [done|]. by specialize (Hall x ltac:(left)) as ?%not_elem_of_nil.
  - apply NoDup_cons in Hn as [Hr Hn]. cbn [length seq zip zip_with]. rewrite fmap_cons. cbn [concat]. rewrite Hshuffle.
    etrans; [|symmetry; apply (split_filter (fun it => bool_decide (key it = r)))]. f_equiv.
    assert (Hrest : forall it, it ∈ List.filter (fun it => negb (bool_decide (key it = r))) ret -> key it ∈ keys).
    { intros it Hit. apply list_elem_of_In, filter_In in Hit as [Hit E]. apply list_elem_of_In in Hit.
      apply negb_true_iff, bool_decide_eq_false in E. specialize (Hall it Hit). apply elem_of_cons in Hall as [Hall|]; done. }
    etrans; [|apply (IH (S a) _ Hn Hrest)]. apply reflexive_eq. f_equal. apply list_fmap_ext. intros i [idx q] Hq. f_equal.
    assert (Hqr : q <> r). { intros ->. apply lookup_zip_Some in Hq as [_ Hq]. apply Hr. by eapply list_elem_of_lookup_2. }
    clear - Hqr. induction ret as [|x ret IH]; [done|]. cbn. destruct (decide (key x = q)) as [Eq|Nq], (decide (key x = r)) as [Er|Nr].
    + congruence.
    + rewrite (bool_decide_false (key x = r)), (bool_decide_true (key x = q)) by done. cbn. by rewrite bool_decide_true, IH by done.
    + by rewrite (bool_decide_true (key x = r)), (bool_decide_false (key x = q)), IH by done.
    + rewrite (bool_decide_false (key x = r)), (bool_decide_false (key x = q)) by done. cbn. by rewrite bool_decide_false, IH by done.
Qed.
End racks.

(** The helpers are only put in another order. *)
Lemma schedule_perm random_shuffle _shuffle rackInfos ret ip : (forall i l, random_shuffle i l ≡ₚ l) ->
  schedule random_shuffle _shuffle rackInfos ret ip ≡ₚ ret.
Proof.
  intros Hshuffle. unfold schedule. destruct _shuffle; [apply Hshuffle|]. set (rk := fun ip : Z => default [] (rackInfos !! ip)).
  destruct (racks_keys (fun it => rk it.1) ret [] ltac:(constructor)) as [Hk1 Hk2]. cbv zeta in *. set (racks := foldl _ [] ret) in *.
  set (groups := (fun '(idx, r) => (r, _)) <$> _).
  assert (Hg : concat groups.*2 ≡ₚ ret).
  { unfold groups. rewrite <- list_fmap_compose. rewrite <- (groups_perm (fun it => rk it.1) random_shuffle Hshuffle 0 racks.*1 ret) at 1.
    - rewrite length_fmap. apply reflexive_eq. f_equal. apply list_fmap_ext. by intros i [idx r] _.
    - by apply keys_NoDup.
    - intros it Hit. apply Hk2. right. by exists it. }
  rewrite <- Hg. change (default [] (rackInfos !! ip)) with (rk ip). clearbody groups rk. clear - groups rk ip. induction groups as [|[r g] groups IH]; [done|]. cbn [List.filter fst].
  destruct (decide (r = rk ip)) as [E|E].
  - rewrite (bool_decide_false (r <> rk ip)), (bool_decide_true (r = rk ip)) by (done || by intros H).
    rewrite !fmap_cons. cbn [concat snd]. rewrite <- IH. rewrite Permutation_app_swap_app. done.
  - rewrite (bool_decide_true (r <> rk ip)), (bool_decide_false (r = rk ip)) by done.
    rewrite !fmap_cons. cbn [concat snd]. by rewrite <- IH, app_assoc.
Qed.

(** ** The coefficients of the constructor *)

(** The first [k] others of the block [i], each with the coefficient at its place,
    rebuild it. *)
Lemma first_rebuilds `{GF : GFComplete} {GL : GF8Laws} (k m : nat) (C : list Z) (i size : nat) (data : list (list Z)) (content : str -> list Z) (f : str)
    (name : nat -> str) (helpers : list str) (c : list Z) (coef : gmap str Z) :
  (0 < k)%nat -> (0 < m)%nat -> (i < m + k)%nat -> length C = (k * m)%nat -> Forall is_byte C -> any_rows (k + m) k (generator k C) ->
  (forall l, (l < k)%nat -> region size (data !!! l)) ->
  RSUtil.getCoefficient (new_RSUtil k (m + k) C) i = Some c -> helpers = (fun j => name (others i j)) <$> seq 0 k -> first_coefs helpers c coef ->
  (forall j, (j < m + k)%nat -> j <> i -> content (name j) = stripe_block k size (complete_enc_mat k (m + k) C) data j) ->
  content f = stripe_block k size (complete_enc_mat k (m + k) C) data i -> rebuilds size content f helpers coef.
Proof.
  intros Hk Hm Hi HC Hb HA Hd Hc Hh [Hco _] Hcont Hf.
  destruct (first_complete k m C i size data) as (c' & Ec & Hcl & Hcb & Hsum); try done. rewrite Ec in Hc. injection Hc as <-.
  assert (Hlr : length helpers = k) by by rewrite Hh, length_fmap, length_seq.
  assert (Hat : forall j, (j < k)%nat -> helpers !! j = Some (name (others i j)) /\ default 0 (coef !! name (others i j)) = c' !!! j).
  { intros j Hj. assert (Hrj : helpers !! j = Some (name (others i j))) by by rewrite Hh, list_lookup_fmap, lookup_seq_lt.
    split; [done|]. rewrite (Hco j _ Hrj). destruct (lookup_lt_is_Some_2 c' j) as [x Hx]; [lia|].
    by rewrite Hx, (list_lookup_total_correct _ _ _ Hx). }
  split.
  - intros b [j Hj]%list_elem_of_lookup. pose proof (lookup_lt_Some _ _ _ Hj) as Hjk. rewrite Hlr in Hjk.
    destruct (Hat j Hjk) as [E1 E2]. replace b with (name (others i j)) by congruence. rewrite E2. by apply lookup_total_byte.
  - rewrite Hf, <- Hsum, Hlr. apply list_eq_total; rewrite !length_lincomb; [done|]. intros p Hp.
    rewrite !lincomb_lookup by done. apply xsum_ext. intros j Hj. destruct (Hat j Hj) as [E1 E2].
    rewrite (list_lookup_total_correct _ _ _ E1), E2. do 2 f_equal.
    rewrite (list_lookup_total_fmap content), (list_lookup_total_correct _ _ _ E1) by lia.
    rewrite (list_lookup_total_correct _ j (stripe_block k size (complete_enc_mat k (m + k) C) data (others i j))) by by rewrite list_lookup_fmap, lookup_seq_lt.
    apply Hcont; unfold others; case_decide; lia.
Qed.

(** ** The queries *)

Section queries.
Context (u : RSUtil) (stripes : list (list str)) (holder : str -> Z) (h : Hdfs3).
Abbreviation k := (RSUtil._ecK u).
Abbreviation n := (RSUtil._ecN u).
Context (Hkn : knows u k stripes holder h) (Hn0 : (1 <= k < n)%nat).
Context (sid : nat) (l : list str) (Hl : stripes !! sid = Some l) (Hn : NoDup l) (Hlen : length l = n) (Hh : NoDup (holder <$> l)).

Lemma l_in : l ∈ stripes.
Proof. by eapply list_elem_of_lookup_2. Qed.

Lemma placed_at i b : l !! i = Some b -> _blkName2StripeId h !! b = Some sid /\ _blkIdInStripe h !! b = Some i.
Proof. intros Hi. by destruct (kn_blk _ _ _ _ _ Hkn sid l i b Hl Hi). Qed.

Lemma all_blks f : f ∈ l -> exists blks, getAllBlks3 h f = Ok blks /\ forall b, b ∈ blks.*2 <-> b ∈ l.
Proof.
  intros Hf. destruct (kn_helpers _ _ _ _ _ Hkn l f l_in Hf) as (s & Hs & _).
  destruct (kn_ips _ _ _ _ _ Hkn sid l Hl) as (m & Hm & Hmi). apply list_elem_of_lookup in Hf as [i Hi].
  unfold getAllBlks3. rewrite Hs, bool_decide_true by by eexists. cbn [guard_or]. rewrite bind_ok, (proj1 (placed_at i f Hi)). cbn [default from_option id].
  rewrite Hm. cbn [res_of_option]. rewrite bind_ok. eexists. split; [done|]. intros b.
  assert (Hin : forall x ml, x ∈ foldr set_insert [] ml <-> x ∈ ml).
  { intros x. induction ml as [|y ml IH]; [done|]. cbn. by rewrite set_insert_in, elem_of_cons, IH. }
  rewrite list_elem_of_fmap. split.
  - intros ([ip b'] & -> & Hx%Hin%elem_of_map_to_list). by apply Hmi in Hx as [? _].
  - intros Hb. exists (holder b, b). split; [done|]. apply Hin, elem_of_map_to_list. by apply Hmi.
Qed.

Lemma blk_ip f : f ∈ l -> getIPfromBlk3 h f = Ok (holder f).
Proof. intros Hf. unfold getIPfromBlk3. by rewrite (kn_ip _ _ _ _ _ Hkn l f l_in Hf). Qed.

(** The helpers the reports have collected. *)
Lemma known_helpers f : f ∈ l -> default [] (_blk2Stripe h !! f) ≡ₚ (fun r => (holder r, r)) <$> recovered k l f.
Proof.
  intros Hf. destruct (kn_helpers _ _ _ _ _ Hkn l f l_in Hf) as (s & -> & Hsn & Hsi).
  apply NoDup_Permutation; [done|apply NoDup_fmap_2; [by intros ?? [= _ ->]|by apply NoDup_recovered]|]. intros x.
  cbn. rewrite Hsi, list_elem_of_fmap. naive_solver.
Qed.

Lemma stripe_helpers random_shuffle _shuffle rackInfos f ip :
  (forall i s, random_shuffle i s ≡ₚ s) -> f ∈ l ->
  exists blks, getStripeBlks3 random_shuffle _shuffle rackInfos h f ip = Ok blks /\ blks ≡ₚ (fun r => (holder r, r)) <$> recovered k l f.
Proof. intros Hsh Hf. eexists. split; [done|]. rewrite schedule_perm by done. by apply known_helpers. Qed.

(** ** The helpers of several lost blocks *)

Lemma set_insert_perm x (s : list (Z * str)) : x ∉ s -> set_insert x s ≡ₚ x :: s.
Proof.
  induction s as [|y s IH]; intros Hx; [done|]. apply not_elem_of_cons in Hx as [Hne Hx]. cbn.
  destruct (blk_lt x y) eqn:E1; [done|]. destruct (blk_lt y x) eqn:E2; [rewrite IH by done; by rewrite Permutation_swap|].
  by destruct (Hne (blk_lt_total x y E1 E2)).
Qed.

Lemma all_blks_listed f : f ∈ l -> exists blks, getAllBlks3 h f = Ok blks /\ NoDup blks /\ forall x, x ∈ blks <-> x.2 ∈ l /\ x.1 = holder x.2.
Proof.
  intros Hf. destruct (kn_helpers _ _ _ _ _ Hkn l f l_in Hf) as (s & Hs & _).
  destruct (kn_ips _ _ _ _ _ Hkn sid l Hl) as (m & Hm & Hmi). apply list_elem_of_lookup in Hf as [i Hi].
  unfold getAllBlks3. rewrite Hs, bool_decide_true by by eexists. cbn [guard_or]. rewrite bind_ok, (proj1 (placed_at i f Hi)). cbn [default from_option id].
  rewrite Hm. cbn [res_of_option]. rewrite bind_ok. eexists. split; [done|].
  assert (Hin : forall ml, StronglySorted (fun x y => blk_lt x y = true) (foldr set_insert [] ml) /\ forall x, x ∈ foldr set_insert [] ml <-> x ∈ ml).
  { induction ml as [|y ml [IH1 IH2]]; [split; [constructor|done]|]. cbn. split; [by apply set_insert_sorted|].
    intros x. by rewrite set_insert_in, elem_of_cons, IH2. }
  destruct (Hin (map_to_list m)) as [H1 H2]. split; [by apply sorted_NoDup|]. intros [ip b].
  rewrite H2, elem_of_map_to_list, Hmi. naive_solver.
Qed.

(** The helper that [opt == 0] takes: alive, and not on the requestor. *)
Definition can_help (ip : Z) (st : gmap str Z) (it : Z * str) : bool := negb (it.1 =? ip) && negb (default 0 (st !! it.2) =? 0).

Lemma selected_by {B} (P : Z * str -> bool) (g : list (Z * str) * B -> Z * str -> list (Z * str) * B) (st : B) (blks : list (Z * str)) : NoDup blks ->
  (forall x s, x ∈ blks -> g (s, st) x = (if (length s <? k)%nat && P x then set_insert x s else s, st)) ->
  exists s, foldl g ([], st) blks = (s, st) /\ s ≡ₚ take k (List.filter P blks).
Proof.
  intros Hnd Hg. assert (H : forall blks a s, NoDup (a ++ blks) ->
    (forall x s, x ∈ blks -> g (s, st) x = (if (length s <? k)%nat && P x then set_insert x s else s, st)) ->
    s ≡ₚ take k (List.filter P a) -> exists s', foldl g (s, st) blks = (s', st) /\ s' ≡ₚ take k (List.filter P (a ++ blks))).
  2: { apply (H blks [] []); [done|done|]. cbn. by rewrite firstn_nil. }
  clear blks Hnd Hg. induction blks as [|x blks IH]; intros a s Hnd Hg Hs; [rewrite app_nil_r; by exists s|]. cbn [foldl]. rewrite Hg by left.
  destruct (IH (a ++ [x]) (if (length s <? k)%nat && P x then set_insert x s else s)) as (s' & E & Hs').
  - by rewrite <- app_assoc.
  - intros y s' Hy. apply Hg. by right.
  - rewrite List.filter_app. cbn [List.filter]. set (F := List.filter P a) in *. assert (Hls : length s = (k `min` length F)%nat) by by rewrite Hs, length_take.
    assert (Hxs : x ∉ s). { rewrite Hs. intros (i & Hi%list_elem_of_lookup_2 & _)%elem_of_take. apply list_elem_of_In, filter_In in Hi as [Hi _].
      apply NoDup_app in Hnd as (_ & Hdis & _). apply (Hdis x); [by apply list_elem_of_In|left]. }
    rewrite Hls. destruct (Nat.ltb_spec (k `min` length F) k) as [Hlt|Hge]; cbn [andb]; [|by rewrite take_app_le by lia].
    rewrite (take_ge F) in Hs by lia. destruct (P x).
    + rewrite set_insert_perm, Hs, take_ge by (done || (rewrite length_app; cbn; lia)). by rewrite <- Permutation_cons_append.
    + by rewrite app_nil_r, take_ge by lia.
  - exists s'. split; [done|]. by rewrite Hs', <- app_assoc.
Qed.

Lemma selected ip st (blks : list (Z * str)) : NoDup blks -> (forall x, x ∈ blks -> is_Some (st !! x.2)) ->
  exists s, foldl (fun s it => select_helper k ip it s) ([], st) blks = (s, st) /\ s ≡ₚ take k (List.filter (can_help ip st) blks).
Proof.
  intros Hnd Hst. apply selected_by; [done|]. intros x s Hx. unfold select_helper, can_help. rewrite (bool_decide_true (is_Some _)) by by apply Hst.
  rewrite andb_assoc. by destruct (_ && negb (x.1 =? ip)), (negb _).
Qed.

(** The lost blocks in the order of their names. *)
Lemma in_order_ok (st : gmap str Z) : NoDup (in_order st).*1 /\ forall x, x ∈ in_order st <-> st !! x.1 = Some x.2.
Proof.
  unfold in_order.
  assert (Hin : forall ml : list (str * Z), NoDup ml.*1 -> keys_sorted (foldr (fun it m => map_insert it.1 it.2 m) [] ml).*1 /\
    forall x, x ∈ foldr (fun it m => map_insert it.1 it.2 m) [] ml <-> x ∈ ml).
  { induction ml as [|y ml IH]; intros Hnd; [split; [constructor|done]|]. rewrite fmap_cons in Hnd. apply NoDup_cons in Hnd as [Hy Hnd].
    destruct (IH Hnd) as [H1 H2]. cbn [foldr]. split; [by apply map_insert_sorted|].
    assert (Hy' : y.1 ∉ (foldr (fun it m => map_insert it.1 it.2 m) [] ml).*1).
    { intros (z & Ez & Hz%H2)%list_elem_of_fmap. apply Hy. apply list_elem_of_fmap. by exists z. }
    intros x. rewrite (map_insert_perm y.1 y.2) by done. rewrite !elem_of_cons, H2. by destruct y. }
  destruct (Hin (map_to_list st) (NoDup_fst_map_to_list st)) as [H1 H2]. split; [by apply keys_NoDup|].
  intros [b v]. by rewrite H2, elem_of_map_to_list.
Qed.

Lemma failed_in (st : gmap str Z) : NoDup (failed_blks st) /\ forall b, b ∈ failed_blks st <-> st !! b = Some 0.
Proof.
  destruct (in_order_ok st) as [H1 H2]. unfold failed_blks. split.
  - eapply sublist_NoDup; [exact H1|]. clear. induction (in_order st) as [|x s IH]; [done|]. cbn. destruct (x.2 =? 0); by constructor.
  - intros b. rewrite list_elem_of_fmap. split.
    + intros (x & -> & Hx). apply list_elem_of_In, filter_In in Hx as [Hx%list_elem_of_In%H2 E%Z.eqb_eq]. by rewrite Hx, E.
    + intros Hb. exists (b, 0). split; [done|]. apply list_elem_of_In, filter_In. split; [|done]. by apply list_elem_of_In, H2.
Qed.

Lemma by_address {A} (g : str -> A) (ip : str -> Z) (bs : list str) (ret : list (Z * A)) : NoDup (ret.*1 ++ (ip <$> bs)) ->
  foldl (fun ret b => ip_insert (ip b, g b) ret) ret bs ≡ₚ ret ++ ((fun b => (ip b, g b)) <$> bs).
Proof.
  revert ret. induction bs as [|b bs IH]; intros ret Hnd; [by rewrite app_nil_r|]. cbn [foldl]. rewrite fmap_cons. rewrite fmap_cons in Hnd.
  assert (Hb : ip_insert (ip b, g b) ret ≡ₚ (ip b, g b) :: ret).
  { apply ip_insert_perm. cbn. intros Hin. apply NoDup_app in Hnd as (_ & Hdis & _). apply (Hdis _ Hin). left. }
  rewrite IH; [rewrite Hb; by rewrite <- Permutation_middle|]. rewrite Hb, fmap_cons. cbn [fst app]. by rewrite Permutation_middle.
Qed.

Lemma holder_inj b b' : b ∈ l -> b' ∈ l -> holder b = holder b' -> b = b'.
Proof.
  intros [i Hi]%list_elem_of_lookup [j Hj]%list_elem_of_lookup E. assert (i = j) as ->; [|congruence].
  eapply (NoDup_lookup _ i j (holder b) Hh); rewrite list_lookup_fmap, ?Hi, ?Hj; cbn; [done|by rewrite E].
Qed.

(** [k] blocks chosen among those of the stripe. *)
Lemma chosen_blks (P : Z * str -> bool) (blks s : list (Z * str)) (alive : list str) :
  NoDup blks -> (forall x, x ∈ blks <-> x.2 ∈ l /\ x.1 = holder x.2) -> s ≡ₚ take k (List.filter P blks) ->
  NoDup alive -> length alive = k -> (forall b, b ∈ alive -> b ∈ l /\ P (holder b, b) = true) ->
  length s = k /\ NoDup s.*2 /\ forall it, it ∈ s -> it.2 ∈ l /\ it.1 = holder it.2 /\ P it = true.
Proof.
  intros Hnd Hin Hs Hal Hk Halive.
  assert (Hsi : forall it, it ∈ s -> it.2 ∈ l /\ it.1 = holder it.2 /\ P it = true).
  { intros it Hit. rewrite Hs in Hit. apply elem_of_take in Hit as (i & Hit%list_elem_of_lookup_2 & _). apply list_elem_of_In, filter_In in Hit as [Hit ?].
    apply list_elem_of_In, Hin in Hit as [? ?]. done. }
  split; [|split; [|done]].
  - rewrite Hs, length_take. cut (k <= length (List.filter P blks))%nat; [lia|]. rewrite <- Hk, <- (length_fmap (fun b => (holder b, b)) alive).
    apply submseteq_length, NoDup_submseteq; [apply NoDup_fmap_2; [by intros ?? [= _ ->]|done]|]. intros x (b & -> & Hb)%list_elem_of_fmap.
    destruct (Halive b Hb) as [Hbl HP]. apply list_elem_of_In, filter_In. split; [|done]. by apply list_elem_of_In, Hin.
  - apply NoDup_fmap_2_strong.
    + intros [a b] [a' b'] (_ & Hx & _)%Hsi (_ & Hy & _)%Hsi. cbn in *. intros ->. congruence.
    + rewrite Hs. eapply sublist_NoDup; [|apply sublist_take]. apply NoDup_ListNoDup, List.NoDup_filter. by apply NoDup_ListNoDup.
Qed.

Lemma addresses (bs : list str) : NoDup bs -> (forall b, b ∈ bs -> b ∈ l) -> NoDup (holder <$> bs).
Proof. intros Hnd Hbl. apply NoDup_fmap_2_strong; [|done]. intros x y Hx%Hbl Hy%Hbl. by apply holder_inj. Qed.

(** The answer lists the lost blocks at their nodes. *)
Lemma answered {A} (g : str -> A) (ret : list (Z * A)) st : (forall b, is_Some (st !! b) <-> b ∈ l) ->
  ret ≡ₚ (fun b => (holder b, g b)) <$> failed_blks st ->
  NoDup ret.*1 /\ forall e, e ∈ ret <-> exists b, st !! b = Some 0 /\ e = (holder b, g b).
Proof.
  intros Hst Hp. destruct (failed_in st) as [Hfn Hfi]. rewrite Hp. split.
  - rewrite <- list_fmap_compose. apply (addresses (failed_blks st) Hfn). intros b Hb%Hfi. apply Hst. by eexists.
  - intros e. rewrite Hp, list_elem_of_fmap. split; intros (b & H1 & H2); exists b; [by apply Hfi in H2|by apply Hfi in H1].
Qed.

Lemma stripe_blks_mul f ip st (alive : list str) :
  f ∈ l -> (forall b, is_Some (st !! b) <-> b ∈ l) ->
  NoDup alive -> length alive = k -> (forall b, b ∈ alive -> holder b <> ip /\ exists v, st !! b = Some v /\ v <> 0) ->
  exists helpers ret, getStripeBlksMul3 k h f ip (Some st) 0 = Ok (ret, st) /\
    length helpers = k /\ NoDup helpers.*2 /\
    (forall it, it ∈ helpers -> it.2 ∈ l /\ it.1 = holder it.2 /\ it.1 <> ip /\ exists v, st !! it.2 = Some v /\ v <> 0) /\
    NoDup ret.*1 /\ forall e, e ∈ ret <-> exists b, st !! b = Some 0 /\ e = (holder b, (b, helpers)).
Proof.
  intros Hf Hst Hal Hk Halive. destruct (all_blks_listed f Hf) as (blks & E & Hnd & Hin). unfold getStripeBlksMul3. rewrite E, bind_ok.
  cbn [Z.rem Z.eqb Z.quotrem]. change (Z.rem 0 10 =? 0) with true. cbv iota.
  destruct (selected ip st blks Hnd) as (s & -> & Hs); [intros x Hx; apply Hst; by apply Hin in Hx as [? _]|]. cbn [fst snd].
  assert (Hcan : forall it, can_help ip st it = true <-> it.1 <> ip /\ exists v, st !! it.2 = Some v /\ v <> 0).
  { intros it. unfold can_help. rewrite andb_true_iff, !negb_true_iff, !Z.eqb_neq. split.
    - intros [? Hv]. split; [done|]. destruct (st !! it.2) as [v|]; [by exists v|done].
    - intros [? (v & -> & ?)]. done. }
  destruct (chosen_blks (can_help ip st) blks s alive Hnd Hin Hs Hal Hk) as (Hsl & Hsn & Hsi).
  { intros b Hb. destruct (Halive b Hb) as [Hip (v & Hv & Hv0)]. split; [apply Hst; by eexists|]. apply Hcan. by eauto. }
  rewrite Hsl, (proj2 (Nat.ltb_ge k k)) by lia. destruct (failed_in st) as [Hfn Hfi].
  assert (Hfl : forall b, b ∈ failed_blks st -> b ∈ l) by (intros b Hb%Hfi; apply Hst; by eexists).
  set (addr := fun b => default 0 (_blkName2Ip h !! b)).
  assert (Haddr : forall b, b ∈ failed_blks st -> addr b = holder b) by (intros b Hb%Hfl; unfold addr; by rewrite (kn_ip _ _ _ _ _ Hkn l b l_in Hb)).
  assert (Hp : foldl (fun ret b => ip_insert (addr b, (b, s)) ret) [] (failed_blks st) ≡ₚ (fun b => (holder b, (b, s))) <$> failed_blks st).
  { rewrite (by_address (fun b => (b, s)) addr).
    - apply reflexive_eq. apply list_fmap_ext. intros i b Hb. rewrite Haddr; [done|by eapply list_elem_of_lookup_2].
    - cbn. rewrite (list_fmap_ext addr holder); [by apply addresses|]. intros i b Hb. apply Haddr. by eapply list_elem_of_lookup_2. }
  set (ret := foldl _ _ _) in *. exists s, ret. rewrite Hp at 1. rewrite length_fmap, Nat.eqb_refl. cbn [guard_or].
  destruct (answered (fun b => (b, s)) ret st Hst Hp) as [Hr1 Hr2]. split_and!; [done|done|done| |done|done].
  intros it Hit. destruct (Hsi it Hit) as (? & ? & Hc). apply Hcan in Hc. tauto.
Qed.

(** ** The coefficients *)

Context `{GF : GFComplete} {GL : GF8Laws}.
Context (Hl' : length (_encMat u) = (k * (n - k))%nat) (Hb : Forall is_byte (_encMat u)).
Context (HA : any_rows (k + (n - k)) k (generator k (_encMat u))).
Context (size : nat) (data : list (list Z)) (Hd : forall c, (c < k)%nat -> region size (data !!! c)).
Abbreviation blk := (stripe_block k size (complete_enc_mat k n (_encMat u)) data).

(** The helpers marked for [getCoefficient_multi]. *)
Lemma status_array (st : gmap str Z) (helpers : list str) :
  (forall b, b ∈ helpers -> b ∈ l) -> (forall b, st !! b = Some 2 <-> b ∈ helpers) ->
  exists int_status, for_each (map_to_list st) (fun '(b, v) st =>
      if v =? 2 then
        let i := default 0%nat (_blkIdInStripe h !! b) in
        guard_or Undef (i <? n)%nat;; Ok (<[i := 1]> st)
      else Ok st) (zeros n) = Ok int_status /\ length int_status = n /\
    forall i, (i < n)%nat -> int_status !!! i = if decide (l !!! i ∈ helpers) then 1 else 0.
Proof.
  intros Hin Hst. set (ml := map_to_list st).
  destruct (for_each_total (fun j (s : list Z) => length s = n /\ forall i, (i < n)%nat ->
      s !!! i = if decide ((l !!! i, 2) ∈ take j ml) then 1 else 0) ml
    (fun '(b, v) st => if v =? 2 then let i := default 0%nat (_blkIdInStripe h !! b) in
        guard_or Undef (i <? n)%nat;; Ok (<[i := 1]> st) else Ok st) (zeros n)) as (s & E & Hs1 & Hs2).
  - split; [apply length_replicate|]. intros i Hi. rewrite take_0, decide_False by apply not_elem_of_nil.
    apply list_lookup_total_correct, lookup_replicate. by split.
  - intros j [b v] s Hj [Hs1 Hs2]. cbn [Nat.add]. rewrite (take_S_r ml j (b, v) Hj). destruct (Z.eqb_spec v 2) as [->|Hv].
    + assert (Hb2 : b ∈ l). { apply Hin, Hst. apply elem_of_map_to_list. by eapply list_elem_of_lookup_2. }
      apply list_elem_of_lookup in Hb2 as [i Hi]. rewrite (proj2 (placed_at i b Hi)). cbn [default from_option id].
      assert (Hin2 : (i < n)%nat) by (rewrite <- Hlen; by eapply lookup_lt_Some). rewrite (proj2 (Nat.ltb_lt _ _)) by done.
      eexists. split; [done|]. split; [by rewrite length_insert|]. intros i' Hi'.
      destruct (decide (i' = i)) as [->|Hne].
      * rewrite list_lookup_total_insert_eq, decide_True by (lia || done || (rewrite (list_lookup_total_correct _ _ _ Hi); apply elem_of_app; right; left)). done.
      * rewrite list_lookup_total_insert_ne, Hs2 by done. apply decide_ext. rewrite elem_of_app, list_elem_of_singleton.
        split; [auto|]. intros [|[= E]]; [done|]. exfalso. apply Hne. eapply (NoDup_lookup l); [done| |exact Hi].
        rewrite <- E. apply list_lookup_lookup_total_lt. lia.
    + eexists. split; [done|]. split; [done|]. intros i' Hi'. rewrite Hs2 by done. apply decide_ext. rewrite elem_of_app, list_elem_of_singleton.
      split; [auto|]. intros [|[= _ E]]; [done|congruence].
  - exists s. split; [exact E|]. split; [done|]. intros i Hi. rewrite Hs2, take_ge by done. apply decide_ext.
    unfold ml. by rewrite elem_of_map_to_list.
Qed.

(** The coefficients by the names of the helpers. *)
Lemma coef_map s c :
  length (survivors n s) = length c ->
  exists coef, for_each (seq 0 n) (fun i '(cnt, coef) =>
      if s !!! i =? 0 then Ok (cnt, coef) else
      names ← res_of_option Undef (_Id2BlkNames h !! sid);
      x ← res_of_option Undef (c !! cnt);
      Ok (S cnt, <[default [] (names !! i) := x]> coef)) (0%nat, ∅ : gmap str Z) = Ok (length c, coef) /\
    forall j r, survivors n s !! j = Some r -> coef !! (l !!! r) = c !! j.
Proof.
  intros Hc. destruct (kn_ids _ _ _ _ _ Hkn sid l Hl) as (ids & Hids & Hi). rewrite Hids. cbn [res_of_option].
  set (sv := fun i => List.filter (alive s) (seq 0 i)).
  destruct (for_each_total (fun i '(cnt, coef) => cnt = length (sv i) /\ forall j r, sv i !! j = Some r -> coef !! (l !!! r) = c !! j)
    (seq 0 n) (fun i '(cnt, coef) =>
      if s !!! i =? 0 then Ok (cnt, coef) else
      names ← Ok ids; x ← res_of_option Undef (c !! cnt); Ok (S cnt, <[default [] (names !! i) := x]> coef)) (0%nat, ∅ : gmap str Z))
    as ([cnt coef] & E & Hcnt & Hco).
  - done.
  - intros i i' [cnt coef] [-> Hin]%lookup_seq [Hcnt Hco]. cbn [Nat.add]. assert (Hal : alive s i = negb (s !!! i =? 0)) by done.
    unfold sv. rewrite filter_seq_S, Hal.
    destruct (Z.eqb_spec (s !!! i) 0) as [E|E]; cbn [negb].
    + eexists. split; [done|]. by rewrite app_nil_r.
    + assert (Hlt : (cnt < length c)%nat).
      { rewrite <- Hc, Hcnt. unfold survivors. pose proof (filter_seq_le k n (_encMat u) ltac:(lia) Hl' (alive s) (S i) n ltac:(lia)) as Hle.
        rewrite filter_seq_S, Hal, length_app in Hle. fold (sv i) in Hle. cbn in Hle. lia. }
      destruct (lookup_lt_is_Some_2 c cnt Hlt) as [x Hx]. rewrite bind_ok, Hx. cbn [res_of_option]. rewrite bind_ok.
      eexists. split; [done|]. fold (sv i). split; [rewrite length_app; cbn; lia|].
      assert (Hli : default [] (ids !! i) = l !!! i) by (rewrite Hi, list_lookup_total_alt; done).
      rewrite Hli. intros j r [Hj|[Hj Hr]]%lookup_app_Some.
      * rewrite lookup_insert_ne; [by apply Hco|]. intros Er. pose proof (list_elem_of_lookup_2 _ _ _ Hj) as Hri.
        apply list_elem_of_In, filter_In in Hri as [Hri%in_seq _]. assert (i = r); [|lia].
        eapply (NoDup_lookup l); [done|apply list_lookup_lookup_total_lt; lia|]. rewrite Er. apply list_lookup_lookup_total_lt. lia.
      * apply list_lookup_singleton_Some in Hr as [Hj0 ->]. rewrite lookup_insert_eq, <- Hx. f_equal. lia.
  - exists coef. rewrite E, length_seq in *. subst cnt. split; [by rewrite <- Hc|exact Hco].
Qed.

Lemma survivors_helpers s (helpers : list str) :
  NoDup helpers -> (forall b, b ∈ helpers -> b ∈ l) -> (forall i, (i < n)%nat -> s !!! i = if decide (l !!! i ∈ helpers) then 1 else 0) ->
  (fun r => l !!! r) <$> survivors n s ≡ₚ helpers.
Proof.
  intros Hhn Hin Hs. assert (Hsv : forall r, r ∈ survivors n s <-> (r < n)%nat /\ l !!! r ∈ helpers).
  { intros r. unfold survivors, alive. rewrite list_elem_of_In, filter_In, in_seq, negb_true_iff, Z.eqb_neq. split.
    - intros [Hr Hx]. split; [lia|]. rewrite Hs in Hx by lia. by case_decide.
    - intros [Hr Hx]. split; [lia|]. by rewrite Hs, decide_True by done. }
  apply NoDup_Permutation; [|done|].
  - apply NoDup_fmap_2_strong.
    + intros x y [Hx _]%Hsv [Hy _]%Hsv E. rewrite <- Hlen in Hx, Hy. apply list_lookup_lookup_total_lt in Hx, Hy.
      cbn in E. rewrite E in Hx. exact (NoDup_lookup l x y _ Hn Hx Hy).
    + apply NoDup_ListNoDup, List.NoDup_filter, List.seq_NoDup.
  - intros b. rewrite list_elem_of_fmap. split; [by intros (r & -> & [_ Hr]%Hsv)|].
    intros Hbh. pose proof (Hin b Hbh) as [i Hi]%list_elem_of_lookup. pose proof (list_lookup_total_correct _ _ _ Hi) as E.
    exists i. split; [done|]. apply Hsv. rewrite E. split; [rewrite <- Hlen; by eapply lookup_lt_Some|done].
Qed.

Lemma coefficients (content : str -> list Z) f helpers st :
  (forall i b, l !! i = Some b -> content b = blk i) ->
  f ∈ l -> f ∉ helpers -> NoDup helpers -> length helpers = k -> (forall b, b ∈ helpers -> b ∈ l) ->
  (forall b, st !! b = Some 2 <-> b ∈ helpers) ->
  exists coef, getCoefficient3 u n h f (Some st) = Ok coef /\ rebuilds size content f helpers coef.
Proof.
  intros Hcont Hf Hnf Hhn Hhl Hin Hst. apply list_elem_of_lookup in Hf as [idx Hidx].
  destruct (placed_at idx f Hidx) as [Hsid Hid]. pose proof (lookup_lt_Some _ _ _ Hidx) as Hlt. rewrite Hlen in Hlt.
  destruct (status_array st helpers Hin Hst) as (s & Es & Hsl & Hs).
  pose proof (survivors_helpers s helpers Hhn Hin Hs) as Hperm.
  assert (Hsv : length (survivors n s) = k) by (rewrite <- Hhl, <- Hperm; by rewrite length_fmap).
  destruct (multi_complete u idx s size data) as (c & Ec & Hcl & Hcb & Hc); try done; [lia| |].
  { rewrite Hs, (list_lookup_total_correct _ _ _ Hidx), decide_False by done. done. }
  unfold getCoefficient3. cbv zeta in Es |- *. rewrite Es, bind_ok, Hsid, Hid. cbn [default from_option id]. rewrite Ec.
  destruct (coef_map s c) as (coef & E & Hco); [by rewrite Hcl|]. rewrite E, bind_ok. exists coef. split; [done|].
  assert (Hlook : forall j, (j < k)%nat -> exists r, survivors n s !! j = Some r /\ (r < n)%nat /\ default 0 (coef !! (l !!! r)) = c !!! j).
  { intros j Hj. rewrite <- Hsv in Hj. destruct (lookup_lt_is_Some_2 _ j Hj) as [r Hr]. exists r. split; [done|]. split.
    - apply list_elem_of_lookup_2, list_elem_of_In, filter_In in Hr as [Hr%in_seq _]. lia.
    - rewrite (Hco j r Hr). destruct (lookup_lt_is_Some_2 c j) as [x Hx]; [lia|]. by rewrite Hx, (list_lookup_total_correct _ _ _ Hx). }
  apply (rebuilds_perm _ _ _ _ _ _ Hperm). split.
  - intros b Hbh. apply list_elem_of_fmap in Hbh as (r & -> & [j Hj]%list_elem_of_lookup).
    rewrite (Hco j r Hj). apply lookup_lt_Some in Hj. destruct (lookup_lt_is_Some_2 c j) as [x Hx]; [lia|]. rewrite Hx.
    by eapply (proj1 (Forall_lookup _ _) Hcb).
  - rewrite (Hcont idx f Hidx), <- Hc, length_fmap, Hsv. apply list_eq_total; rewrite !length_lincomb; [done|]. intros p Hp.
    rewrite !lincomb_lookup by done. apply xsum_ext. intros j Hj. destruct (Hlook j Hj) as (r & Hr & Hrn & Hd2).
    rewrite (list_lookup_total_fmap content) by (rewrite length_fmap; lia).
    rewrite !(list_lookup_total_fmap _ (survivors n s) j) by lia. rewrite (list_lookup_total_correct _ _ _ Hr), Hd2.
    rewrite (Hcont r (l !!! r)); [done|]. apply list_lookup_lookup_total_lt. lia.
Qed.

(** The helpers the constructor of [RSUtil] computes coefficients for. *)
Lemma recovered_others i f : l !! i = Some f -> recovered k l f = (fun j => l !!! others i j) <$> seq 0 k.
Proof.
  intros Hi. pose proof (lookup_lt_Some _ _ _ Hi) as Hlt. unfold recovered. pose proof (take_drop_middle l i f Hi) as Em.
  assert (Hno : forall l' : list str, f ∉ l' -> List.filter (fun r => bool_decide (r <> f)) l' = l').
  { induction l' as [|x l' IH]; intros Hf; [done|]. apply not_elem_of_cons in Hf as [Hx Hf]. cbn. by rewrite bool_decide_true, IH by done. }
  pose proof Hn as Hn2. rewrite <- Em in Hn2. apply NoDup_app in Hn2 as (_ & Hd1 & Hn3). apply NoDup_cons in Hn3 as [Hd2 _].
  assert (E : List.filter (fun r => bool_decide (r <> f)) l = take i l ++ drop (S i) l).
  { rewrite <- Em at 1. rewrite List.filter_app. cbn. rewrite (bool_decide_false (f <> f)) by auto. rewrite !Hno; [done|done|].
    intros Hf. by apply (Hd1 f Hf); left. }
  rewrite E. apply list_eq_same_length with k.
  - by rewrite length_fmap, length_seq.
  - rewrite length_take, length_app, length_take, length_drop. lia.
  - intros j x y Hj Hx Hy. rewrite lookup_take_lt in Hx by done. rewrite list_lookup_fmap, lookup_seq_lt in Hy by done.
    injection Hy as <-. symmetry. apply list_lookup_total_correct. unfold others. case_decide.
    + rewrite lookup_app_l, lookup_take_lt in Hx by (rewrite ?length_take; lia). done.
    + rewrite lookup_app_r, lookup_drop, length_take in Hx by (rewrite length_take; lia). rewrite <- Hx. f_equal. lia.
Qed.

Lemma first_coefficients (content : str -> list Z) f :
  (forall i, RSUtil.getCoefficient u i = RSUtil.getCoefficient (new_RSUtil k n (_encMat u)) i) ->
  (forall i b, l !! i = Some b -> content b = blk i) -> f ∈ l ->
  exists coef, getCoefficient3 u n h f None = Ok coef /\ rebuilds size content f (recovered k l f) coef.
Proof.
  intros Hnew Hcont Hf. apply list_elem_of_lookup in Hf as [idx Hidx]. pose proof (lookup_lt_Some _ _ _ Hidx) as Hlt. rewrite Hlen in Hlt.
  destruct (bp_coefs _ _ _ _ _ _ _ (kn_blk _ _ _ _ _ Hkn sid l idx f Hl Hidx)) as (c & m & Hc & Hm & Hfirst).
  destruct (first_complete k (n - k) (_encMat u) idx size data) as (c' & Ec & _); try (done || lia).
  replace (n - k + k)%nat with n in Ec by lia. rewrite Hnew, Ec in Hc. injection Hc as <-.
  exists m. unfold getCoefficient3. rewrite Hm. split; [done|].
  apply (first_rebuilds k (n - k) (_encMat u) idx size data content f (fun j => l !!! j) _ c' m); try (done || lia).
  - by replace (n - k + k)%nat with n by lia.
  - by apply recovered_others.
  - intros j Hj _. replace (n - k + k)%nat with n in * by lia. apply Hcont, list_lookup_lookup_total_lt. lia.
  - replace (n - k + k)%nat with n in * by lia. by apply Hcont.
Qed.

(** Queries that read these maps keep the promises of a stripe. *)
Lemma maps_laws `{MB : MetadataBase} (content : str -> list Z) :
  (forall i, RSUtil.getCoefficient u i = RSUtil.getCoefficient (new_RSUtil k n (_encMat u)) i) ->
  (forall i b, l !! i = Some b -> content b = blk i) ->
  (forall f ip, f ∈ l -> exists blks, getStripeBlks f ip = Ok blks /\ blks ≡ₚ (fun r => (holder r, r)) <$> recovered k l f) ->
  (forall f, f ∈ l -> getAllBlks f = getAllBlks3 h f) -> (forall f, getIPfromBlk f = getIPfromBlk3 h f) ->
  (forall f st, Metadata.getCoefficient f st = getCoefficient3 u n h f st) ->
  (forall f st al, f ∈ l -> (forall b, is_Some (st !! b) <-> b ∈ l) -> st !! f = Some 0 ->
    NoDup al -> length al = k -> (forall b, b ∈ al -> holder b <> holder f /\ exists v, st !! b = Some v /\ v <> 0) ->
    common_helpers k l holder f (holder f) st) ->
  StripeLaws k size l holder content.
Proof.
  intros Hnew Hcont Hget Hall Hip Hco Hown. split.
  - intros f ip Hf. destruct (Hget f ip Hf) as (blks & E & Hp). exists blks. split; [exact E|].
    rewrite Hp, length_fmap, length_recovered, Hlen by done. split; [lia|].
    rewrite <- list_fmap_compose, list_fmap_id. split; [by apply NoDup_recovered|]. intros it Hit.
    rewrite Hp in Hit. apply list_elem_of_fmap in Hit as (r & -> & [Hr Hne]%recovered_in). done.
  - intros f Hf. rewrite Hall by done. by apply all_blks.
  - intros f blks it Hf E Hit. rewrite Hall in E by done. destruct (all_blks_listed f Hf) as (blks' & E' & _ & Hin).
    assert (blks = blks') as -> by congruence. by apply Hin.
  - intros f Hf. rewrite Hip. by apply blk_ip.
  - intros f helpers st Hf Hnf Hhn Hhl Hin Hst. rewrite Hco. by apply coefficients.
  - done.
  - intros f ip Hf. destruct (Hget f ip Hf) as (blks & E & Hp). destruct (first_coefficients content f Hnew Hcont Hf) as (coef & Ec & Hr).
    exists blks, coef. split; [exact E|]. split; [by rewrite Hco|]. eapply rebuilds_perm; [|exact Hr]. rewrite Hp, <- list_fmap_compose. by rewrite list_fmap_id.
Qed.
End queries.

(** ** The instance *)

(** An [HDFS3_MetadataBase] whose maps are [h]. *)
Definition hdfs3 `{GF : GFComplete} (random_shuffle : nat -> list (Z * str) -> list (Z * str)) (_shuffle : bool) (rackInfos : gmap Z str)
    (rsUtil : RSUtil) (h : Hdfs3) : MetadataBase := {|
  getStripeBlks := getStripeBlks3 random_shuffle _shuffle rackInfos h;
  getStripeBlksMul := getStripeBlksMul3 (RSUtil._ecK rsUtil) h;
  Metadata.getCoefficient := getCoefficient3 rsUtil (RSUtil._ecN rsUtil) h;
  getIPfromBlk := getIPfromBlk3 h;
  getAllBlks := getAllBlks3 h
|}.

Lemma hdfs3_laws `{GF : GFComplete} {GL : GF8Laws} random_shuffle _shuffle rackInfos u stripes holder h l size data content :
  (forall i s, random_shuffle i s ≡ₚ s) ->
  (forall i, RSUtil.getCoefficient u i = RSUtil.getCoefficient (new_RSUtil (RSUtil._ecK u) (RSUtil._ecN u) (_encMat u)) i) ->
  knows u (RSUtil._ecK u) stripes holder h -> (1 <= RSUtil._ecK u < RSUtil._ecN u)%nat ->
  l ∈ stripes -> NoDup l -> length l = RSUtil._ecN u -> NoDup (holder <$> l) ->
  length (_encMat u) = (RSUtil._ecK u * (RSUtil._ecN u - RSUtil._ecK u))%nat -> Forall is_byte (_encMat u) ->
  any_rows (RSUtil._ecK u + (RSUtil._ecN u - RSUtil._ecK u)) (RSUtil._ecK u) (generator (RSUtil._ecK u) (_encMat u)) ->
  (forall c, (c < RSUtil._ecK u)%nat -> region size (data !!! c)) ->
  (forall i b, l !! i = Some b ->
    content b = stripe_block (RSUtil._ecK u) size (complete_enc_mat (RSUtil._ecK u) (RSUtil._ecN u) (_encMat u)) data i) ->
  MetadataLaws (MB := hdfs3 random_shuffle _shuffle rackInfos u h) (RSUtil._ecK u) size l holder content.
Proof.
  intros Hsh Hnew Hkn Hk [sid Hl]%list_elem_of_lookup Hn Hlen Hh Hml Hmb HA Hd Hcont.
  pose proof (stripe_blks_mul u stripes holder h Hkn Hk sid l Hl Hlen Hh) as Hmul. split; [|done].
  apply (maps_laws u stripes holder h Hkn Hk sid l Hl Hn Hlen Hml Hmb HA size data Hd content Hnew Hcont); [|done..|].
  - intros f ip Hf. by apply (stripe_helpers u stripes holder h Hkn Hk sid l Hl Hn).
  - intros f st al Hf Hst _ Hal Hkl Hall. by eapply (Hmul f (holder f) st al).
Qed.

(** ** From the listing to the laws *)

(** What the constructor of [RSUtil] makes of the matrix of reed_sol.c. *)
Lemma rsutil_ready `{GF : GFComplete} {GL : GF8Laws} talloc (Hta : forall n, exists l, talloc n = Some l /\ length l = n) (k m : nat) :
  (0 < k)%nat -> (0 < m)%nat -> (k + m <= 256)%nat ->
  exists C coefs, reed_sol_vandermonde_coding_matrix talloc k m 8 = Ok (Some C) /\ new_RSUtil k (m + k) C = mkRSUtil k (m + k) C coefs /\
    length C = (k * (m + k - k))%nat /\ Forall is_byte C /\ any_rows (k + (m + k - k)) k (generator k C) /\
    forall i, (i < m + k)%nat -> exists c, RSUtil.getCoefficient (new_RSUtil k (m + k) C) i = Some c /\ length c = k.
Proof.
  intros Hk Hm Hkm. destruct (coding_matrix_mds talloc k m Hk Hm Hkm Hta) as (C & HC & Hl & Hb & _ & _ & HA).
  assert (Hl' : length C = (k * (m + k - k))%nat) by (rewrite Hl; lia).
  assert (Hu : exists coefs, new_RSUtil k (m + k) C = mkRSUtil k (m + k) C coefs).
  { unfold new_RSUtil. destruct (loop _ _ _) as [e c]. by exists c. }
  destruct Hu as [coefs Hu]. exists C, coefs. split_and!; [done..| |].
  - by replace (m + k - k)%nat with m by lia.
  - intros i Hi. destruct (new_RSUtil_coefficient k (m + k) C ltac:(lia) Hl' Hb i ltac:(lia) Hi) as (eMat & _ & ->).
    eexists. split; [done|]. eapply length_coef; (done || lia).
Qed.

Section ready.
Context `{GF : GFComplete} {GL : GF8Laws} (talloc : nat -> option (list Z)) (Hta : forall n, exists l, talloc n = Some l /\ length l = n).
Context (random_shuffle : nat -> list (Z * str) -> list (Z * str)) (Hsh : forall i s, random_shuffle i s ≡ₚ s).
Context (_shuffle : bool) (rackInfos : gmap Z str) (k m : nat) (Hk : (0 < k)%nat) (Hm : (0 < m)%nat) (Hkm : (k + m <= 256)%nat).
Context (cmdResult : str) (blks : gset str) (stripe2Blk : list (str * list str)) (rs : list (option (Z * str))) (holder : str -> Z).
Abbreviation stripes := (stripe2Blk.*2).

(** A listing of stripes of [m + k] different blocks, and reports that reach
    every block, those of a stripe from different nodes. *)
Record listing_ok : Prop := {
  li_scan : scan_stripes (S (length cmdResult)) k (m + k) cmdResult (find cmdResult (lit "Live_repl") 0) ∅ [] = Ok (blks, stripe2Blk);
  li_blks : blks = list_to_set (concat stripes);
  li_some : stripes <> [];
  li_distinct : NoDup (concat stripes);
  li_length l : l ∈ stripes -> length l = (m + k)%nat;
  li_nodes l : l ∈ stripes -> NoDup (holder <$> l);
  li_fits : Forall report_fits rs;
  li_first b : b ∈ concat stripes -> first_report rs b = Some (holder b)
}.

Lemma hdfs3_ready : listing_ok ->
  exists encMat h, reed_sol_vandermonde_coding_matrix talloc k m 8 = Ok (Some encMat) /\
    let u := new_RSUtil k (m + k) encMat in
    GetMetadata u k (m + k) cmdResult (reply_of <$> rs) = Ok h /\
    forall l size data content, l ∈ stripes -> (forall c, (c < k)%nat -> region size (data !!! c)) ->
      (forall i b, l !! i = Some b -> content b = stripe_block k size (complete_enc_mat k (m + k) encMat) data i) ->
      MetadataLaws (MB := hdfs3 random_shuffle _shuffle rackInfos u h) k size l holder content.
Proof.
  intros [Hscan Hblks Hne Hdist Hlen Hnodes Hfit Hfirst].
  destruct (rsutil_ready talloc Hta k m Hk Hm Hkm) as (C & coefs & HC & Hu & Hl' & Hb & HA & Hcoefs).
  destruct (GetMetadata_knows (new_RSUtil k (m + k) C) k (m + k) stripes cmdResult stripe2Blk blks rs holder) as (h & E & Hkn); try (done || lia).
  exists C, h. split; [done|]. split; [exact E|]. cbv zeta in *. rewrite Hu in *.
  intros l size data content Hin Hd Hcont.
  assert (Hn : NoDup l) by (apply list_elem_of_lookup in Hin as [sid Hs]; by apply (stripe_NoDup stripes Hdist sid)).
  apply (hdfs3_laws random_shuffle _shuffle rackInfos (mkRSUtil k (m + k) C coefs) stripes holder h l size data content); cbn; try done; try lia.
  - intros i. by rewrite Hu.
  - by apply Hlen.
  - by apply Hnodes.
Qed.

(** [HDFS3_MetadataBase] with the matrix of reed_sol.c, for all [k, m >= 1]
    with [k + m <= 256]: after [GetMetadata] on the listing of [hdfs fsck] and
    the reports of the nodes, it keeps the promises of [MetadataBase] for every
    stripe: the helpers of a block are blocks of its stripe on their nodes, at
    least [k] of them, several lost blocks share [k] alive helpers that are not
    on the requestor, and the coefficients it gives for any [k] helpers rebuild
    the block, for all data. *)
Theorem hdfs3_metadata : listing_ok ->
  exists encMat h, reed_sol_vandermonde_coding_matrix talloc k m 8 = Ok (Some encMat) /\
    let u := new_RSUtil k (m + k) encMat in
    GetMetadata u k (m + k) cmdResult (reply_of <$> rs) = Ok h /\
    forall l size data content, l ∈ stripes -> (forall c, (c < k)%nat -> region size (data !!! c)) ->
      (forall i b, l !! i = Some b -> content b = stripe_block k size (complete_enc_mat k (m + k) encMat) data i) ->
      MetadataLaws (MB := hdfs3 random_shuffle _shuffle rackInfos u h) k size l holder content.
Proof. exact hdfs3_ready. Qed.
End ready.

(** The blocks of a stripe by their names. *)
Definition contents `{GF : GFComplete} (stripe : list str) (k size : nat) (rows : list Z) (data : list (list Z)) (b : str) : list Z :=
  match list_find (fun b' => b' = b) stripe with Some (i, _) => stripe_block k size rows data i | None => [] end.

Lemma contents_at `{GF : GFComplete} stripe k size rows data i b : NoDup stripe -> stripe !! i = Some b ->
  contents stripe k size rows data b = stripe_block k size rows data i.
Proof.
  intros Hn Hi. unfold contents. assert (Hf : list_find (fun b' => b' = b) stripe = Some (i, b)).
  { apply list_find_Some. split_and!; [done|done|]. intros j y Hj Hlt ->. pose proof (NoDup_lookup _ _ _ _ Hn Hi Hj). lia. }
  by rewrite Hf.
Qed.

(** ** A listing of one (4, 2) stripe *)

Definition blk_no (n : Z) : str := lit "blk_-92233720368547757" ++ to_string n.
Definition example_listing : str :=
  lit "/f 4096 bytes, erasure-coded: policy=RS-2-2 BP-1-10.0.0.1-1:blk_-9223372036854775792 len=4096 Live_repl=4 [blk_-9223372036854775792:DatanodeInfo[10.0.0.1:9866], blk_-9223372036854775791:DatanodeInfo[10.0.0.2:9866], blk_-9223372036854775790:DatanodeInfo[10.0.0.3:9866], blk_-9223372036854775789:DatanodeInfo[10.0.0.4:9866]] Status: HEALTHY".
(** Its blocks, the parity first, are on the nodes 3, 4, 1 and 2. *)
Definition example_stripe : list str := [blk_no 90; blk_no 89; blk_no 92; blk_no 91].
Definition example_reports : list (option (Z * str)) :=
  [Some (1, blk_no 92); None; Some (3, blk_no 90); Some (9, blk_no 12); Some (2, blk_no 91); Some (7, blk_no 91); Some (4, blk_no 89)].
Definition example_holder (b : str) : Z := default 0 (first_report example_reports b).

Definition example_parsed : gset str * list (str * list str) :=
  match scan_stripes (S (length example_listing)) 2 (2 + 2) example_listing (find example_listing (lit "Live_repl") 0) ∅ [] with
  | Ok r => r | Fault _ => (∅, [])
  end.

Lemma example_listing_ok : listing_ok 2 2 example_listing example_parsed.1 example_parsed.2 example_reports example_holder.
Proof.
  assert (E : example_parsed.2.*2 = [example_stripe]) by (vm_compute; reflexivity).
  assert (Hl : forall l, l ∈ example_parsed.2.*2 -> l = example_stripe) by (rewrite E; by intros l ->%list_elem_of_singleton).
  split; rewrite ?E.
  - unfold example_parsed. destruct (scan_stripes _ _ _ _ _ _ _) as [[b s]|f] eqn:Es; [done|]. exfalso.
    assert (Hok : match scan_stripes (S (length example_listing)) 2 (2 + 2) example_listing (find example_listing (lit "Live_repl") 0) ∅ [] with Ok _ => true | Fault _ => false end = true) by (vm_compute; reflexivity).
    by rewrite Es in Hok.
  - apply set_eq. vm_compute. tauto.
  - done.
  - decided.
  - intros l ->%Hl. reflexivity.
  - intros l ->%Hl. vm_compute. decided.
  - repeat constructor; try (cbn; unfold is_u32; lia); cbn; decided.
  - assert (Hall : Forall (fun b => first_report example_reports b = Some (example_holder b)) example_stripe)
      by (repeat (apply Forall_cons; split; [vm_compute; reflexivity|]); apply Forall_nil_2).
    intros b Hb. cbn [concat] in Hb. rewrite app_nil_r in Hb. rewrite Forall_forall in Hall. by apply Hall.
Qed.

Lemma hdfs3_metadata_witness :
  exists encMat h, reed_sol_vandermonde_coding_matrix (fun n => Some (replicate n 77)) 2 2 8 = Ok (Some encMat) /\
    GetMetadata (new_RSUtil 2 4 encMat) 2 4 example_listing (reply_of <$> example_reports) = Ok h /\
    getIPfromBlk3 h (blk_no 92) = Ok 1.
Proof.
  destruct (hdfs3_metadata (fun n => Some (replicate n 77)) ltac:(intros n; eexists; split; [reflexivity|apply length_replicate])
    (fun _ l => l) ltac:(reflexivity) false ∅ 2 2 ltac:(lia) ltac:(lia) ltac:(lia) example_listing example_parsed.1 example_parsed.2 example_reports
    example_holder example_listing_ok) as (encMat & h & H1 & H2 & H3).
  exists encMat, h. split; [exact H1|]. split; [exact H2|].
  set (rows := complete_enc_mat 2 (2 + 2) encMat) in *. set (data := [[5; 7; 255]; [9; 1; 0]]).
  specialize (H3 example_stripe 3%nat data
    (contents example_stripe 2 3 rows data)).
  assert (E : example_parsed.2.*2 = [example_stripe]) by (vm_compute; reflexivity). rewrite E in H3.
  destruct H3 as [H3 _].
  - left.
  - intros [|[|c]] Hc; [split; [reflexivity|decided]..|lia].
  - intros i b Hi. apply contents_at; [decided|done].
  - apply (ml_ip (StripeLaws := H3)). decided.
Defined.
