(* ===== verification/BlockReporter.v ===== *)
(** * The reports of the nodes (BlockReporter.cc)

    A node lists its block directory, and its subdirectories one level deep, and
    pushes its address and the name of every block to [blk_init] of the
    coordinator.  With Hdfs3.v: after the nodes have reported, in any order, the
    metadata is complete. *)
From Stdlib Require Import Ascii.
From stdpp Require Import strings.
From S2P Require Import Prelude Command Text Config Galois GF256 Jerasure Gauss Vandermonde ReedSol Encode RSUtil Metadata DrCmd Request Hdfs3 Hdfs3Laws.

(** ** The directory *)

(** [d_type]: a subdirectory with its entries, if it can be opened, a file, or
    something else. *)
Inductive d_type :=
  | DT_DIR (entries : option (list str))
  | DT_REG
  | DT_OTHER.
Abbreviation dirent := (str * d_type)%type.

(** The entries left out. *)
Definition skipped (d_name : str) : bool :=
  bool_decide (d_name = lit ".") || bool_decide (d_name = lit "..") || (find d_name (lit "meta") 0 =? 30).

(** One block: the message is built in [char info[256]] and pushed. *)
Definition push_blk (localIP : Z) (d_name : str) (pushes : list (list Z)) : res (list (list Z)) :=
  guard_or Undef (4 + length d_name <=? 256)%nat;;
  Ok (pushes ++ [le32 localIP ++ bytes_of d_name]).

(** The inner [while] over a subdirectory, which does not look at types. *)
Definition report_subdir (localIP : Z) (entries : list str) (pushes : list (list Z)) : res (list (list Z)) :=
  for_each entries (fun d_name pushes => if skipped d_name then Ok pushes else push_blk localIP d_name pushes) pushes.

Definition report_entry (localIP : Z) (ent : dirent) (pushes : list (list Z)) : res (list (list Z)) :=
  if skipped ent.1 then Ok pushes else
  match ent.2 with
  | DT_DIR (Some entries) => report_subdir localIP entries pushes
  | DT_REG => push_blk localIP ent.1 pushes
  | _ => Ok pushes
  end.

(** [BlockReporter::report]: the server and what is pushed to its [blk_init];
    [connected] is whether Redis answers, [None] a directory that cannot be
    opened. *)
Definition BlockReporter_report (connected : bool) (coIP : Z) (blkDir : option (list dirent)) (localIP : Z) : res (str * list (list Z)) :=
  if negb connected then Ok (ip2Str coIP, []) else
  match blkDir with
  | None => Ok (ip2Str coIP, [])
  | Some entries => pushes ← for_each entries (report_entry localIP) []; Ok (ip2Str coIP, pushes)
  end.

(** ** What is pushed *)

(** The text [t] is in [s] with [p] characters before it. *)
Definition occurs_at (t s : str) (p : nat) : Prop := exists pre post, s = pre ++ t ++ post /\ length pre = p.

(** A name that is not reported: a directory's own entries, and a name whose
    first "meta" has 30 characters before it, as that of the checksum file of a
    block has whose number has 20 characters with its sign, and whose generation
    stamp has 4 digits.  Any other checksum file is reported as a block. *)
Definition left_out (name : str) : Prop :=
  name = lit "." \/ name = lit ".." \/ (occurs_at (lit "meta") name 30 /\ forall p, occurs_at (lit "meta") name p -> (30 <= p)%nat).

Lemma has_prefix_occurs t s : has_prefix t s = true <-> occurs_at t s 0.
Proof.
  unfold occurs_at. transitivity (exists post, s = t ++ post).
  - revert s. induction t as [|a t IH]; intros [|b s]; cbn; try (split; [by eauto|done]).
    + split; [done|]. by intros [post [=]].
    + rewrite andb_true_iff, Ascii.eqb_eq, IH. split; [intros [-> [post ->]]; by exists post|]. intros [post [= -> ->]]. split; [done|by exists post].
  - split; [intros [post ->]; by exists [], post|]. intros (pre & post & -> & ->%nil_length_inv). by exists post.
Qed.

Lemma occurs_cons t c s p : occurs_at t (c :: s) (S p) <-> occurs_at t s p.
Proof.
  split; [|intros (pre & post & -> & <-); by exists (c :: pre), post]. intros ([|d pre] & post & E & Hl); [done|]. injection E as _ ->. exists pre, post. split; [done|]. by injection Hl.
Qed.

Lemma find_in_ge t s i : find_in t s i = npos \/ i <= find_in t s i.
Proof. revert i. induction s as [|c s IH]; intros i; cbn [find_in]; (destruct (has_prefix t _); [lia|]); [by left|]. destruct (IH (i + 1)); lia. Qed.

(** [find] is the first occurrence. *)
Lemma find_in_first t s i p : i + Z.of_nat p < npos ->
  find_in t s i = i + Z.of_nat p <-> occurs_at t s p /\ forall q, occurs_at t s q -> (p <= q)%nat.
Proof.
  revert i p. induction s as [|c s IH]; intros i p Hp; cbn [find_in];
    (destruct (has_prefix t _) eqn:E0; [apply has_prefix_occurs in E0; split; [intros E; assert (p = 0%nat) as -> by lia; split; [done|lia]|intros [_ H]; apply H in E0; lia]|]).
  - split; [lia|]. intros [(pre & post & E & _) _]. destruct pre; [|done]. cbn in E. enough (has_prefix t [] = true) by congruence. apply has_prefix_occurs. by exists [], post.
  - assert (H0 : forall q, occurs_at t (c :: s) q -> exists q', q = S q') by (intros [|q'] Hq; [apply has_prefix_occurs in Hq; congruence|by eexists]).
    destruct p as [|p].
    + split; [|intros [H _]; by destruct (H0 _ H)]. intros E. exfalso. pose proof (find_in_ge t s (i + 1)). lia.
    + replace (i + Z.of_nat (S p)) with (i + 1 + Z.of_nat p) in * by lia. rewrite (IH (i + 1) p Hp), occurs_cons. split; intros [H1 H2]; (split; [done|]).
      * intros q Hq. destruct (H0 q Hq) as [q' ->]. apply occurs_cons, H2 in Hq. lia.
      * intros q Hq. apply occurs_cons with (c := c), H2 in Hq. lia.
Qed.

Lemma skipped_spec name : skipped name = true <-> left_out name.
Proof.
  unfold skipped, left_out, find. rewrite !orb_true_iff, !bool_decide_eq_true, Z.eqb_eq, (proj2 (Z.leb_le 0 _)) by lia. cbn [Z.to_nat]. rewrite drop_0.
  pose proof (find_in_first (lit "meta") name 0 30 eq_refl) as H. change (0 + Z.of_nat 30) with 30 in H. rewrite H. tauto.
Qed.
#[export] Instance left_out_dec name : Decision (left_out name).
Proof. destruct (skipped name) eqn:E; [left; by apply skipped_spec|right; rewrite <- skipped_spec; congruence]. Defined.
Lemma skipped_left_out name : skipped name = bool_decide (left_out name).
Proof. apply eq_bool_prop_intro. rewrite bool_decide_spec, <- skipped_spec. by destruct (skipped name). Qed.

(** The blocks of a directory: the names of its files and, one level deep, of
    whatever its subdirectories list, but for those left out. *)
Definition visible_sub (entries : list str) : list str := filter (fun n => ~ left_out n) entries.
Definition visible_entry (ent : dirent) : list str :=
  if decide (left_out ent.1) then [] else
  match ent.2 with
  | DT_DIR (Some entries) => visible_sub entries
  | DT_REG => [ent.1]
  | _ => []
  end.
Definition visible (entries : list dirent) : list str := concat (visible_entry <$> entries).

Definition blk_msg (localIP : Z) (b : str) : list Z := le32 localIP ++ bytes_of b.
Definition short (b : str) : Prop := (length b <= 252)%nat.
#[export] Instance short_dec b : Decision (short b) := le_dec _ _.

Lemma visible_sub_cons n entries : visible_sub (n :: entries) = if skipped n then visible_sub entries else n :: visible_sub entries.
Proof. unfold visible_sub. rewrite filter_cons, skipped_left_out. by repeat case_decide || case_bool_decide. Qed.
Lemma visible_entry_eq ent : visible_entry ent =
  if skipped ent.1 then [] else match ent.2 with DT_DIR (Some entries) => visible_sub entries | DT_REG => [ent.1] | _ => [] end.
Proof. unfold visible_entry. rewrite skipped_left_out. by repeat case_decide || case_bool_decide. Qed.

Lemma push_blk_ok localIP b pushes : short b -> push_blk localIP b pushes = Ok (pushes ++ [blk_msg localIP b]).
Proof. intros Hb. unfold push_blk. by rewrite (proj2 (Nat.leb_le _ _)) by (unfold short in Hb; lia). Qed.

Lemma report_subdir_ok localIP entries pushes : Forall short (visible_sub entries) ->
  report_subdir localIP entries pushes = Ok (pushes ++ (blk_msg localIP <$> visible_sub entries)).
Proof.
  revert pushes. unfold report_subdir. induction entries as [|n entries IH]; intros pushes Hs; [by rewrite app_nil_r|].
  rewrite visible_sub_cons in *. cbn [for_each]. destruct (skipped n); [by apply IH|]. apply Forall_cons in Hs as [Hn Hs].
  rewrite push_blk_ok, bind_ok, IH by done. by rewrite <- app_assoc.
Qed.

Lemma report_entries_ok localIP entries pushes : Forall short (visible entries) ->
  for_each entries (report_entry localIP) pushes = Ok (pushes ++ (blk_msg localIP <$> visible entries)).
Proof.
  revert pushes. unfold visible. induction entries as [|ent entries IH]; intros pushes Hs; [by rewrite app_nil_r|].
  rewrite fmap_cons in Hs |- *. cbn [concat for_each] in *. apply Forall_app in Hs as [He Hs].
  assert (E : report_entry localIP ent pushes = Ok (pushes ++ (blk_msg localIP <$> visible_entry ent))).
  { rewrite visible_entry_eq in *. unfold report_entry. destruct (skipped ent.1); [by rewrite app_nil_r|]. destruct ent.2 as [[es|]| |]; try by rewrite app_nil_r.
    - by apply report_subdir_ok.
    - apply push_blk_ok. by apply Forall_cons in He as [? _]. }
  rewrite E, bind_ok, IH by done. by rewrite fmap_app, <- app_assoc.
Qed.

(** A long name: the first of them is copied past the end of [info]. *)
Lemma push_blk_long localIP b pushes : ~ short b -> push_blk localIP b pushes = Fault Undef.
Proof. intros Hb. unfold push_blk. by rewrite (proj2 (Nat.leb_gt _ _)) by (unfold short in Hb; lia). Qed.

Lemma report_subdir_long localIP entries pushes : ~ Forall short (visible_sub entries) -> report_subdir localIP entries pushes = Fault Undef.
Proof.
  revert pushes. unfold report_subdir. induction entries as [|n entries IH]; intros pushes Hs; [by destruct Hs|].
  rewrite visible_sub_cons in *. cbn [for_each]. destruct (skipped n); [by apply IH|]. rewrite Forall_cons in Hs.
  destruct (decide (short n)) as [Hn|Hn]; [rewrite push_blk_ok, bind_ok by done; apply IH; tauto|by rewrite push_blk_long].
Qed.

Lemma report_entries_long localIP entries pushes : ~ Forall short (visible entries) -> for_each entries (report_entry localIP) pushes = Fault Undef.
Proof.
  revert pushes. unfold visible. induction entries as [|ent entries IH]; intros pushes Hs; [by destruct Hs|].
  rewrite fmap_cons in Hs. cbn [concat for_each] in *. rewrite Forall_app in Hs. destruct (decide (Forall short (visible_entry ent))) as [He|He].
  - assert (E : exists pushes', report_entry localIP ent pushes = Ok pushes').
    { pose proof (report_entries_ok localIP [ent] pushes) as E. unfold visible in E. cbn [fmap list_fmap concat for_each] in E. rewrite app_nil_r in E. specialize (E He).
      destruct (report_entry localIP ent pushes); [by eexists|done]. }
    destruct E as (pushes' & ->). rewrite bind_ok. apply IH. tauto.
  - assert (E : report_entry localIP ent pushes = Fault Undef); [|by rewrite E].
    rewrite visible_entry_eq in *. unfold report_entry. destruct (skipped ent.1); [by destruct He|]. destruct ent.2 as [[es|]| |]; try by destruct He.
    + by apply report_subdir_long.
    + apply push_blk_long. intros Hs'. apply He. by apply Forall_singleton.
Qed.

(** C39: the report of a node with names of at most 252 characters: it pushes
    one message, with the address of the node, for each file of its directory
    and each entry of its subdirectories, in order, but for ".", ".." and the
    names whose first "meta" has exactly 30 characters before it ([left_out]), so
    the checksum files whose "meta" is elsewhere are pushed too; a longer name
    overruns [info[256]]. *)
Theorem block_report coIP localIP entries : BlockReporter_report true coIP (Some entries) localIP =
  if decide (Forall short (visible entries)) then Ok (ip2Str coIP, blk_msg localIP <$> visible entries) else Fault Undef.
Proof. unfold BlockReporter_report. cbn [negb]. case_decide; [by rewrite report_entries_ok|by rewrite report_entries_long]. Qed.

(** ** From the directories to the metadata *)

(** What [BLPOP blk_init] has answered with data. *)
Definition popped (replies : list reply) : list (list Z) := omap (fun r => match r with RData m => Some m | _ => None end) replies.

(** The report a message carries. *)
Definition carried (r : reply) : option (Z * str) :=
  match r with
  | RData m => match read_uint m 0 with Ok ip => Some (ip, str_of (drop 4 m)) | Fault _ => None end
  | _ => None
  end.

Lemma carried_msg ip b : is_u32 ip -> carried (RData (blk_msg ip b)) = Some (ip, b).
Proof. intros Hip. unfold carried, blk_msg. by rewrite read_uint_0, drop_app_length', str_of_bytes. Qed.

Lemma first_report_unique rs b ip : Some (ip, b) ∈ rs -> (forall ip', Some (ip', b) ∈ rs -> ip' = ip) -> first_report rs b = Some ip.
Proof.
  induction rs as [|[[ip' b']|] rs IH]; intros Hin Hu; [by apply not_elem_of_nil in Hin|..]; cbn [first_report].
  - destruct (decide (b' = b)) as [->|Hne]; [f_equal; apply Hu; left|]. apply elem_of_cons in Hin as [[= _ ->]|Hin]; [done|].
    apply IH; [done|]. intros ip0 H0. apply Hu. by right.
  - apply elem_of_cons in Hin as [|Hin]; [done|]. apply IH; [done|]. intros ip0 H0. apply Hu. by right.
Qed.

Section nodes.
Context (coIP : Z) (nodes : list (Z * list dirent)) (bs : list str) (holder : str -> Z) (replies : list reply).

(** Every node reports its directory; the messages are popped in any order,
    with timeouts between them.  Each block of [bs] is in the directory of the
    node [holder] and of no other. *)
Record nodes_report : Prop := {
  nr_pushes : exists pushes, Forall2 (fun nd ps => BlockReporter_report true coIP (Some nd.2) nd.1 = Ok (ip2Str coIP, ps)) nodes pushes /\ popped replies ≡ₚ concat pushes;
  nr_replies : Forall (fun r => match r with RData _ | RNil => True | _ => False end) replies;
  nr_ips ip dir : (ip, dir) ∈ nodes -> is_u32 ip;
  nr_names ip dir b : (ip, dir) ∈ nodes -> b ∈ visible dir -> Ascii.zero ∉ b;
  nr_held b : b ∈ bs -> exists dir, (holder b, dir) ∈ nodes /\ b ∈ visible dir;
  nr_once b ip dir : b ∈ bs -> (ip, dir) ∈ nodes -> b ∈ visible dir -> ip = holder b
}.

Lemma pushed_msgs pushes : Forall2 (fun nd ps => BlockReporter_report true coIP (Some nd.2) nd.1 = Ok (ip2Str coIP, ps)) nodes pushes ->
  forall m, m ∈ concat pushes <-> exists ip dir b, (ip, dir) ∈ nodes /\ b ∈ visible dir /\ m = blk_msg ip b.
Proof.
  induction 1 as [|[ip dir] ps nodes pushes Hr _ IH]; intros m; cbn [concat].
  - split; [by intros ?%not_elem_of_nil|]. by intros (? & ? & ? & ?%not_elem_of_nil & _).
  - assert (E : ps = blk_msg ip <$> visible dir).
    { cbn in Hr. unfold BlockReporter_report in Hr. cbn [negb] in Hr. destruct (decide (Forall short (visible dir))) as [Hs|Hs].
      - rewrite report_entries_ok, bind_ok in Hr by done. by injection Hr as <-.
      - by rewrite report_entries_long in Hr. }
    rewrite elem_of_app, IH, E, list_elem_of_fmap. setoid_rewrite elem_of_cons. split.
    + intros [(b & -> & Hb)|(ip' & dir' & b & ? & ? & ?)]; [exists ip, dir, b; auto|exists ip', dir', b; auto].
    + intros (ip' & dir' & b & [[= -> ->]|?] & ? & ?); [left; by exists b|right; by exists ip', dir', b].
Qed.

Lemma reports_of_nodes : nodes_report -> exists rs, replies = reply_of <$> rs /\ Forall report_fits rs /\ forall b, b ∈ bs -> first_report rs b = Some (holder b).
Proof.
  intros [(pushes & Hp & Hpop) Hr Hips Hnames Hheld Honce]. pose proof (pushed_msgs pushes Hp) as Hm.
  assert (Hin : forall m, RData m ∈ replies <-> m ∈ concat pushes).
  { intros m. rewrite <- Hpop. unfold popped. rewrite list_elem_of_omap. split; [intros Hd; by exists (RData m)|]. by intros ([] & Hd & [= ->]). }
  assert (Hdata : forall m, RData m ∈ replies -> exists ip dir b, (ip, dir) ∈ nodes /\ b ∈ visible dir /\ m = blk_msg ip b) by (intros m Hd; by apply Hm, Hin).
  exists (carried <$> replies). split_and!.
  - rewrite <- list_fmap_compose. rewrite <- (list_fmap_id replies) at 1. apply list_fmap_ext. intros i r Hi. pose proof (list_elem_of_lookup_2 _ _ _ Hi) as Hd. cbn.
    rewrite Forall_forall in Hr. specialize (Hr r Hd). destruct r as [| | |m]; try done.
    destruct (Hdata m Hd) as (ip & dir & b & H1 & H2 & ->). by rewrite carried_msg by by eapply Hips.
  - apply Forall_fmap, Forall_forall. intros r Hd. cbn. rewrite Forall_forall in Hr. specialize (Hr r Hd). destruct r as [| | |m]; try done.
    destruct (Hdata m Hd) as (ip & dir & b & H1 & H2 & ->). rewrite carried_msg by by eapply Hips. split; [by eapply Hips|by eapply Hnames].
  - intros b Hb. apply first_report_unique.
    + destruct (Hheld b Hb) as (dir & H1 & H2). apply list_elem_of_fmap. exists (RData (blk_msg (holder b) b)). split; [by rewrite carried_msg by by eapply Hips|].
      apply Hin, Hm. by exists (holder b), dir, b.
    + intros ip (r & E & Hd)%list_elem_of_fmap. destruct r as [| | |m]; try done. destruct (Hdata m Hd) as (ip' & dir & b' & H1 & H2 & ->).
      rewrite carried_msg in E by by eapply Hips. injection E as -> ->. by eapply Honce.
Qed.
End nodes.

(** A listing of stripes of [m + k] different blocks, those of a stripe on
    different nodes. *)
Record listing_read (k m : nat) (cmdResult : str) (blks : gset str) (stripe2Blk : list (str * list str)) (holder : str -> Z) : Prop := {
  lr_scan : scan_stripes (S (length cmdResult)) k (m + k) cmdResult (find cmdResult (lit "Live_repl") 0) ∅ [] = Ok (blks, stripe2Blk);
  lr_blks : blks = list_to_set (concat stripe2Blk.*2);
  lr_some : stripe2Blk.*2 <> [];
  lr_distinct : NoDup (concat stripe2Blk.*2);
  lr_length l : l ∈ stripe2Blk.*2 -> length l = (m + k)%nat;
  lr_nodes l : l ∈ stripe2Blk.*2 -> NoDup (holder <$> l)
}.

(** C38: the block reporters and the metadata together: every node pushes the
    names in its block directory, the coordinator pops the messages in any
    order, with timeouts between them; when the directories hold the blocks of
    the listing, each on one node, [GetMetadata] returns and the metadata keeps
    its promises with every block on the node whose directory has it. *)
Theorem reported_metadata `{GF : GFComplete} {GL : GF8Laws} talloc random_shuffle _shuffle rackInfos k m coIP nodes cmdResult blks stripe2Blk holder replies :
  (forall n, exists l, talloc n = Some l /\ length l = n) -> (forall i s, random_shuffle i s ≡ₚ s) ->
  (0 < k)%nat -> (0 < m)%nat -> (k + m <= 256)%nat -> listing_read k m cmdResult blks stripe2Blk holder ->
  nodes_report coIP nodes (concat stripe2Blk.*2) holder replies ->
  exists encMat h, reed_sol_vandermonde_coding_matrix talloc k m 8 = Ok (Some encMat) /\
    let u := new_RSUtil k (m + k) encMat in
    GetMetadata u k (m + k) cmdResult replies = Ok h /\
    forall l size data content, l ∈ stripe2Blk.*2 -> (forall c, (c < k)%nat -> region size (data !!! c)) ->
      (forall i b, l !! i = Some b -> content b = stripe_block k size (complete_enc_mat k (m + k) encMat) data i) ->
      MetadataLaws (MB := hdfs3 random_shuffle _shuffle rackInfos u h) k size l holder content.
Proof.
  intros Hta Hsh Hk Hm Hkm [L1 L2 L3 L4 L5 L6] Hn. destruct (reports_of_nodes coIP nodes _ holder replies Hn) as (rs & -> & Hfit & Hfirst).
  apply (hdfs3_ready talloc Hta random_shuffle Hsh _shuffle rackInfos k m Hk Hm Hkm cmdResult blks stripe2Blk rs holder). by split.
Qed.

(** The directories of four nodes for the listing of Hdfs3Laws.v: the blocks are
    in a subdirectory, with the files of their checksums. *)
Definition blk_dir (b : str) : list dirent :=
  [(lit ".", DT_DIR (Some [])); (lit "in_use.lock", DT_OTHER); (lit "subdir0", DT_DIR (Some [lit "."; lit ".."; b; b ++ lit "_1001.meta"]))].
Definition blk_nodes : list (Z * list dirent) := (fun b => (example_holder b, blk_dir b)) <$> example_stripe.
Definition blk_replies : list reply :=
  [RData (blk_msg 3 (blk_no 90)); RNil; RData (blk_msg 1 (blk_no 92)); RData (blk_msg 4 (blk_no 89)); RData (blk_msg 2 (blk_no 91))].

Lemma blk_dir_visible b : b ∈ example_stripe -> visible (blk_dir b) = [b] /\ is_u32 (example_holder b) /\ Ascii.zero ∉ b /\ short b.
Proof.
  assert (H : Forall (fun b => visible (blk_dir b) = [b] /\ 0 <= example_holder b < 2^32 /\ Ascii.zero ∉ b /\ short b) example_stripe).
  { repeat (apply Forall_cons; split; [split; [vm_compute; reflexivity|split; [by vm_compute|split; decided]]|]). apply Forall_nil_2. }
  intros Hb. rewrite Forall_forall in H. by apply H.
Qed.

Lemma blk_nodes_report : nodes_report 9 blk_nodes example_stripe example_holder blk_replies.
Proof.
  assert (Hnd : forall ip dir b, (ip, dir) ∈ blk_nodes -> b ∈ visible dir -> b ∈ example_stripe /\ ip = example_holder b).
  { intros ip dir b (b' & [= -> ->] & Hb')%list_elem_of_fmap Hb. destruct (blk_dir_visible b' Hb') as [E _]. rewrite E in Hb. by apply list_elem_of_singleton in Hb as ->. }
  split.
  - exists ((fun b => [blk_msg (example_holder b) b]) <$> example_stripe). split.
    + unfold blk_nodes. apply Forall2_fmap, Forall_Forall2_diag, Forall_forall. intros b Hb. cbn [fst snd]. destruct (blk_dir_visible b Hb) as (E & _ & _ & Hs).
      unfold BlockReporter_report. cbn [negb]. rewrite report_entries_ok, bind_ok, E; [done|]. rewrite E. by apply Forall_singleton.
    + vm_compute. solve_Permutation.
  - repeat constructor.
  - intros ip dir (b & [= -> ->] & Hb)%list_elem_of_fmap. by apply blk_dir_visible.
  - intros ip dir b Hn Hb. destruct (Hnd ip dir b Hn Hb) as [Hin _]. by apply blk_dir_visible.
  - intros b Hb. exists (blk_dir b). split; [apply list_elem_of_fmap; by exists b|]. destruct (blk_dir_visible b Hb) as [-> _]. left.
  - intros b ip dir _ Hn Hb. by apply (Hnd ip dir b).
Qed.

Lemma reported_metadata_witness : exists encMat h,
  reed_sol_vandermonde_coding_matrix (fun n => Some (replicate n 77)) 2 2 8 = Ok (Some encMat) /\
  GetMetadata (new_RSUtil 2 4 encMat) 2 4 example_listing blk_replies = Ok h.
Proof.
  assert (E : concat example_parsed.2.*2 = example_stripe) by (vm_compute; reflexivity).
  destruct (reported_metadata (fun n => Some (replicate n 77)) (fun _ l => l) false ∅ 2 2 9 blk_nodes example_listing example_parsed.1 example_parsed.2 example_holder blk_replies)
    as (encMat & h & H1 & H2 & _).
  - intros n. eexists. split; [reflexivity|apply length_replicate].
  - reflexivity.
  - lia.
  - lia.
  - lia.
  - destruct example_listing_ok as [L1 L2 L3 L4 L5 L6 _ _]. split; [exact L1|exact L2|exact L3|exact L4|exact L5|exact L6].
  - rewrite E. exact blk_nodes_report.
  - exists encMat, h. split; [exact H1|exact H2].
Defined.
