(* ===== verification/Hdfs.v ===== *)
(** * The metadata of HDFS (HDFS_MetadataBase.cc)

    The constructor reads the stripe store, a directory with one file per block
    whose content is the stripe of the block, and then learns from the
    [blk_init] messages where the blocks are.  The maps it fills are those of
    Hdfs3.v, with [_blk2All] for the choice by racks and [_order] of
    [MetadataBase] for the scheduled choice.  [getIPfromBlk] and
    [getCoefficient] are the code of HDFS3_MetadataBase.cc.  The entries of the
    directory, the replies of Redis, [random_shuffle] and the order [sort] gives
    to racks of the same size are arguments.  The laws are in
    HdfsLaws.v, the choices of helpers in HdfsChoice.v. *)
From Stdlib Require Import Ascii.
From stdpp Require Import strings.
From S2P Require Import Prelude Command Text Config Galois GF256 Jerasure Gauss Vandermonde ReedSol Encode RSUtil Metadata DrCmd Request Hdfs3.

Definition MAX_ORDER : Z := 0x1000000.

(** [s.find_last_of(c)] *)
Fixpoint find_last_of (c : ascii) (s : str) : Z :=
  match s with
  | [] => npos
  | a :: s' => let p := find_last_of c s' in if negb (p =? npos) then p + 1 else if Ascii.eqb a c then 0 else npos
  end.

(** [s.substr(0, s.find_last_of('_'))] *)
Definition no_stamp (s : str) : res str := substr s 0 (find_last_of "_"%char s).

(** [m[k].push_back(v)] in a [map] by string. *)
Fixpoint map_push {A} (k : str) (v : A) (m : list (str * list A)) : list (str * list A) :=
  match m with
  | [] => [(k, [v])]
  | y :: m' => if str_lt k y.1 then (k, [v]) :: m else if str_lt y.1 k then y :: map_push k v m' else (y.1, y.2 ++ [v]) :: m'
  end.

(** The members; a [set] of names is the list of its elements in order, each
    with a [tt]. *)
Record Hdfs := mkHdfs {
  hd_maps : Hdfs3;
  _blk2All : gmap str (list (str * unit));
  _order : gmap Z Z
}.

(** ** The stripe store *)

Section constructor.
Context `{GF : GFComplete} (rsUtil : RSUtil) (ecK : nat).

(** What is changed while the names of a stripe are read. *)
Record parsing := mkParsing {
  pa_maps : Hdfs3;
  pa_all : gmap str (list (str * unit));
  recoveree : gmap str (list str);
  recoveredBlks : list str;
  idxInStripe : nat;
  id2BlkName : gmap nat str;
  bidInStripe : option nat
}.

Definition set_stripe_id (b : str) (sid : nat) (h : Hdfs3) : Hdfs3 :=
  mkHdfs3 (_blk2Stripe h) (<[b := sid]> (_blkName2StripeId h)) (_blkIdInStripe h) (_blkName2Ip h) (_Ip2BlkNames h) (_Id2BlkNames h) (_coefs h).
Definition set_id (b : str) (i : nat) (h : Hdfs3) : Hdfs3 :=
  mkHdfs3 (_blk2Stripe h) (_blkName2StripeId h) (<[b := i]> (_blkIdInStripe h)) (_blkName2Ip h) (_Ip2BlkNames h) (_Id2BlkNames h) (_coefs h).
Definition set_ids (ids : list (gmap nat str)) (h : Hdfs3) : Hdfs3 :=
  mkHdfs3 (_blk2Stripe h) (_blkName2StripeId h) (_blkIdInStripe h) (_blkName2Ip h) (_Ip2BlkNames h) ids (_coefs h).
Definition set_coef (b : str) (m : gmap str Z) (h : Hdfs3) : Hdfs3 :=
  mkHdfs3 (_blk2Stripe h) (_blkName2StripeId h) (_blkIdInStripe h) (_blkName2Ip h) (_Ip2BlkNames h) (_Id2BlkNames h) (<[b := m]> (_coefs h)).
Definition push_stripe (ids : gmap nat str) (h : Hdfs3) : Hdfs3 :=
  mkHdfs3 (_blk2Stripe h) (_blkName2StripeId h) (_blkIdInStripe h) (_blkName2Ip h) (_Ip2BlkNames h ++ [∅]) (_Id2BlkNames h ++ [ids]) (_coefs h).

(** One name of the stripe of [blkName]; [stripeId] is used when the stripe is
    new. *)
Definition read_name (blkName : str) (newStripe : bool) (stripeId : nat) (field : str) (s : parsing) : res parsing :=
  bName ← no_stamp field;
  let h := if newStripe then set_stripe_id bName stripeId (pa_maps s) else pa_maps s in
  let idx := idxInStripe s in
  if bool_decide (bName <> blkName) then
    let all := <[blkName := map_insert bName tt (default [] (pa_all s !! blkName))]> (pa_all s) in
    let more := (length (recoveredBlks s) <? ecK)%nat in
    Ok (mkParsing h all
          (if more then <[bName := default [] (recoveree s !! bName) ++ [blkName]]> (recoveree s) else recoveree s)
          (if more then recoveredBlks s ++ [bName] else recoveredBlks s) (S idx) (id2BlkName s) (bidInStripe s))
  else
    let h := set_id blkName idx h in
    if newStripe then Ok (mkParsing h (pa_all s) (recoveree s) (recoveredBlks s) (S idx) (<[idx := blkName]> (id2BlkName s)) (Some idx))
    else
      let sid := default 0%nat (_blkName2StripeId h !! blkName) in
      ids ← res_of_option Undef (_Id2BlkNames h !! sid);
      Ok (mkParsing (set_ids (<[sid := <[idx := blkName]> ids]> (_Id2BlkNames h)) h) (pa_all s) (recoveree s) (recoveredBlks s) (S idx) (id2BlkName s) (Some idx)).

(** What is kept between the files; [stripeId] is one less than the number. *)
Record store := mkStore {
  so_maps : Hdfs3;
  so_all : gmap str (list (str * unit));
  so_recoveree : gmap str (list str);
  so_blks : gset str;
  so_stripes : nat
}.

(** One entry of the directory: its name and what the file contains.  The place
    of a block its own stripe does not name is not set. *)
Definition read_entry (ent : str * str) (s : store) : res store :=
  let '(d_name, rawStripe) := ent in
  if bool_decide (d_name = lit ".") || bool_decide (d_name = lit "..") then Ok s else
  name ← substr d_name ((find d_name (lit ":") 0 + 1) mod 2^64) npos;
  blkName ← no_stamp name;
  let newStripe := bool_decide (_blkName2StripeId (so_maps s) !! blkName = None) in
  let stripes := if newStripe then S (so_stripes s) else so_stripes s in
  back ← res_of_option Undef (last rawStripe);
  let rawStripe := if Ascii.eqb back "010"%char then removelast rawStripe else rawStripe in
  p ← for_each (splite_string rawStripe ":"%char) (read_name blkName newStripe (stripes - 1))
    (mkParsing (so_maps s) (so_all s) (so_recoveree s) [] 0 ∅ None);
  bid ← res_of_option Undef (bidInStripe p);
  coef ← res_of_option Undef (RSUtil.getCoefficient rsUtil bid);
  m ← add_coefs (recoveredBlks p) coef (default ∅ (_coefs (pa_maps p) !! blkName));
  let h := set_coef blkName m (pa_maps p) in
  Ok (mkStore (if newStripe then push_stripe (id2BlkName p) h else h) (pa_all p) (recoveree p) ({[ blkName ]} ∪ so_blks s) stripes).

(** The directory; [None] is one that cannot be opened. *)
Definition read_store (stripeStore : option (list (str * str))) : res store :=
  s ← for_each (default [] stripeStore) read_entry (mkStore (mkHdfs3 ∅ ∅ ∅ ∅ [] [] ∅) ∅ ∅ ∅ 0);
  guard_or (Exit 1) ((length (_Id2BlkNames (so_maps s)) =? so_stripes s)%nat && (length (_Ip2BlkNames (so_maps s)) =? so_stripes s)%nat);;
  Ok s.

(** ** The reports *)

(** [_order] gets the nodes when helpers are scheduled. *)
Definition report_order (_msscheduling : bool) (holderIP : Z) (blkName : str) (h : Hdfs3) (order : gmap Z Z) : gmap Z Z :=
  if bool_decide (is_Some (_blkName2StripeId h !! blkName)) && bool_decide (_blkName2Ip h !! blkName = None) &&
     _msscheduling && bool_decide (order !! holderIP = None)
  then <[holderIP := 0]> order else order.

(** [while (true)] over the replies of [BLPOP blk_init]. *)
Fixpoint wait_reports (_msscheduling : bool) (recoveree : gmap str (list str)) (replies : list reply) (blks : gset str) (h : Hdfs3) (order : gmap Z Z) :
    res (Hdfs3 * gmap Z Z) :=
  match replies with
  | [] => Fault Blocked
  | RData msg :: rest =>
      holderIP ← read_uint msg 0;
      let blkName := str_of (c_string (drop 4 msg)) in
      if negb (bool_decide (blkName ∈ blks)) then wait_reports _msscheduling recoveree rest blks h order else
      let order := report_order _msscheduling holderIP blkName h order in
      h ← report recoveree holderIP blkName h;
      let blks := blks ∖ {[ blkName ]} in
      if bool_decide (blks = ∅) then Ok (h, order) else wait_reports _msscheduling recoveree rest blks h order
  | REmpty :: _ => Fault Undef
  | _ :: rest => wait_reports _msscheduling recoveree rest blks h order
  end.

(** The constructor. *)
Definition HDFS_MetadataBase (_msscheduling : bool) (stripeStore : option (list (str * str))) (replies : list reply) : res Hdfs :=
  s ← read_store stripeStore;
  '(h, order) ← wait_reports _msscheduling (so_recoveree s) replies (so_blks s) (so_maps s) ∅;
  Ok (mkHdfs h (so_all s) order).
End constructor.

(** ** The queries *)

Definition getAllBlksH (h : Hdfs) (blkName : str) : res (list (Z * str)) :=
  sid ← res_of_option (Exit 1) (_blkName2StripeId (hd_maps h) !! blkName);
  m ← res_of_option (Exit 1) (_Ip2BlkNames (hd_maps h) !! sid);
  Ok (foldr set_insert [] (map_to_list m)).

(** Reading the status of a block enters it when it is not there. *)
Definition touch (b : str) (status : gmap str Z) : gmap str Z :=
  if bool_decide (is_Some (status !! b)) then status else <[b := 0]> status.

Section queries.
Context (ecK : nat) (_localIP : Z) (_shuffle _rackAware _loadbalance _msscheduling : bool) (_rackInfos : gmap Z str).
Context (random_shuffle : nat -> list (Z * str) -> list (Z * str)) (sort : list (str * nat) -> list (str * nat)).

(** *** Helpers by racks *)

Section racks.
Context (h : Hdfs).
Abbreviation ip b := (default 0 (_blkName2Ip (hd_maps h) !! b)).
Abbreviation rack a := (default [] (_rackInfos !! a)).
Abbreviation with_ip := (fmap (fun b : str => (ip b, b))).

(** [stripeAll2Rack]: the other blocks of the stripe by their racks. *)
Definition stripeAll2Rack (blkName : str) : list (str * list str) :=
  foldl (fun m b => map_push (rack (ip b)) b m) [] (default [] (_blk2All h !! blkName)).*1.
Definition rack_blks (racks : list (str * list str)) (r : str) : list str :=
  default [] (snd <$> List.find (fun g => bool_decide (g.1 = r)) racks).

(** The racks chosen, by size, until no block is missing: [it] runs off
    [rackSize] when there are too few. *)
Fixpoint choose_racks (racks : list (str * list str)) (rackSize : list (str * nat)) (candidateRemain : Z)
    (candidateRacks : list (str * nat)) (candidateBlks : list (Z * str)) : res (list (str * nat) * list (Z * str)) :=
  if candidateRemain <=? 0 then Ok (candidateRacks, candidateBlks) else
  match rackSize with
  | [] => Fault Undef
  | it :: rackSize =>
      choose_racks racks rackSize (candidateRemain - Z.of_nat it.2) (candidateRacks ++ [it])
        (candidateBlks ++ with_ip (take it.2 (rack_blks racks it.1)))
  end.

(** [_loadbalance]: one pass over the racks, each gives one more block if it
    has one, until there are [_ecK]. *)
Definition sched_pass (candidateRacks : list (str * nat)) (plan : gmap str nat) (counter : nat) : gmap str nat * nat * bool :=
  foldl (fun '(plan, counter, stop) it =>
    if stop : bool then (plan, counter, stop) else
    let n := default 0%nat (plan !! it.1) in
    if (n <? it.2)%nat then (<[it.1 := S n]> plan, S counter, (S counter =? ecK)%nat) else (plan, counter, false))
    (plan, counter, false) candidateRacks.
Fixpoint sched_plan (fuel : nat) (candidateRacks : list (str * nat)) (plan : gmap str nat) (counter : nat) : res (gmap str nat) :=
  if (ecK <=? counter)%nat then Ok plan else
  match fuel with
  | O => Fault Blocked
  | S f => let '(plan, counter, _) := sched_pass candidateRacks plan counter in sched_plan f candidateRacks plan counter
  end.

(** The choice of [getStripeBlks] when it is aware of racks. *)
Definition rack_aware (blkName : str) (requestorIP : Z) : res (list (Z * str)) :=
  let reqrack := rack requestorIP in
  let racks := stripeAll2Rack blkName in
  let here := bool_decide (reqrack ∈ racks.*1) in
  let mine := if here then with_ip (rack_blks racks reqrack) else [] in
  let others := if here then List.filter (fun g => bool_decide (g.1 <> reqrack)) racks else [] in
  let rackSize := sort ((fun g => (g.1, length g.2)) <$> others) in
  '(candidateRacks, candidateBlks) ← choose_racks racks rackSize (Z.of_nat ecK - Z.of_nat (length mine)) [] mine;
  let candidateRacks := candidateRacks ++ [(reqrack, length mine)] in
  if _loadbalance then
    if (ecK <? length candidateBlks)%nat then
      plan ← sched_plan ecK candidateRacks ((fun _ => 0%nat) <$> list_to_map (M := gmap str nat) candidateRacks) 0;
      Ok (concat ((fun it => with_ip (take (default 0%nat (plan !! it.1)) (rack_blks racks it.1))) <$> candidateRacks))
    else if (length candidateBlks =? ecK)%nat then Ok candidateBlks else Ok []
  else Ok (if (ecK =? 0)%nat then candidateBlks else take ecK candidateBlks).

(** [getStripeBlks]; nobody passes a [status]. *)
Definition getStripeBlksH (blkName : str) (requestorIP : Z) (status : option (gmap str Z)) (opt : Z) : res (list (Z * str) * option (gmap str Z)) :=
  allStripeBlks ← getAllBlksH h blkName;
  let '(retVal, status, enough) :=
    match status with
    | None => (default [] (_blk2Stripe (hd_maps h) !! blkName), None, true)
    | Some status =>
        let '(retVal, status) := foldl (fun '((retVal, status) : list (Z * str) * gmap str Z) it =>
          if (opt =? 0) && (length retVal <? ecK)%nat && negb (it.1 =? requestorIP) then
            if default 0 (status !! it.2) =? 0 then (retVal, touch it.2 status) else (set_insert it retVal, <[it.2 := 2]> status)
          else (retVal, status)) ([], status) allStripeBlks in
        (retVal, Some status, (ecK <=? length retVal)%nat)
    end in
  if negb enough then Ok ([], status) else
  ret ← (if _rackAware then rack_aware blkName requestorIP else Ok retVal);
  Ok (schedule random_shuffle _shuffle _rackInfos ret requestorIP, status).
End racks.

(** *** Several lost blocks *)

(** The elements of a [map] by address, in order. *)
Definition by_ip {A} (m : gmap Z A) : list (Z * A) := foldr ip_insert [] (map_to_list m).

(** [getScheduledBlks]: the least used nodes that are alive, the requestor
    counted as used. *)
Definition least_used (statusInIP : gmap Z Z) (usedIP : gset Z) (order : gmap Z Z) : option Z * Z :=
  foldl (fun '((selectedIP, o) : option Z * Z) '(a, n) =>
    if (default 0 (statusInIP !! a) =? 0) || bool_decide (a ∈ usedIP) then (selectedIP, o)
    else if n <? o then (Some a, n) else (selectedIP, o)) (None, MAX_ORDER) (by_ip order).
Fixpoint pick_scheduled (fuel : nat) (names : gmap Z str) (statusInIP : gmap Z Z) (setVal : list (Z * str)) (usedIP : gset Z) (order : gmap Z Z) :
    res (list (Z * str) * gmap Z Z) :=
  if (ecK <=? length setVal)%nat then Ok (setVal, order) else
  match fuel with
  | O => Fault Blocked
  | S f =>
      let '(selectedIP, o) := least_used statusInIP usedIP order in
      guard_or (Exit 1) (negb (o =? MAX_ORDER));;
      a ← res_of_option Undef selectedIP;
      guard_or (Exit 1) (negb (a =? _localIP));;
      pick_scheduled f names statusInIP (set_insert (a, default [] (names !! a)) setVal) ({[ a ]} ∪ usedIP)
        (<[a := wrap_u32 (default 0 (order !! a) + 1)]> order)
  end.
(** The counts when the picking starts: reset when one is too large, and the
    requestor is counted. *)
Definition start_order (order : gmap Z Z) (requestorIP : Z) : gmap Z Z :=
  let order := if existsb (fun it => MAX_ORDER <=? it.2) (by_ip order) then (fun _ => 0) <$> order else order in
  <[requestorIP := wrap_u32 (default 0 (order !! requestorIP) + 1)]> order.
Definition getScheduledBlks (h : Hdfs) (order : gmap Z Z) (blkName : str) (requestorIP : Z) (status : gmap str Z) (allStripeBlks : list (Z * str)) :
    res (list (Z * str) * gmap str Z * gmap Z Z) :=
  let statusInIP := foldl (fun m it => <[it.1 := default 0 (status !! it.2)]> m) (∅ : gmap Z Z) allStripeBlks in
  let status := foldl (fun st it => touch it.2 st) status allStripeBlks in
  names ← res_of_option Undef (_Ip2BlkNames (hd_maps h) !! default 0%nat (_blkName2StripeId (hd_maps h) !! blkName));
  '(setVal, order) ← pick_scheduled ecK names statusInIP [] ∅ (start_order order requestorIP);
  Ok (setVal, status, order).

(** One lost block: the first alive blocks of its stripe by their names. *)
Definition select_single (it : Z * str) '((setVal, status) : list (Z * str) * gmap str Z) : list (Z * str) * gmap str Z :=
  if (length setVal <? ecK)%nat then
    (if default 0 (status !! it.2) =? 0 then setVal else set_insert it setVal, touch it.2 status)
  else (setVal, status).
(** [allStripeBlksReverse] in its order. *)
Definition by_name (allStripeBlks : list (Z * str)) : list (Z * str) :=
  concat ((fun b => List.filter (fun it => bool_decide (it.2 = b)) allStripeBlks) <$>
    (foldl (fun m it => map_insert it.2 tt m) [] allStripeBlks).*1).

(** [getStripeBlksMul] *)
Definition getStripeBlksMulH (h : Hdfs) (order : gmap Z Z) (blkName : str) (requestorIP : Z) (status : option (gmap str Z)) (opt : Z) :
    res (stripes_mul * gmap str Z * gmap Z Z) :=
  match status with
  | None =>
      '(vec, _) ← getStripeBlksH h blkName requestorIP None 0;
      Ok ([(requestorIP, (blkName, vec))], ∅, order)
  | Some status =>
      let failed := failed_blks status in
      allStripeBlks ← getAllBlksH h blkName;
      let ip := fun b => default 0 (_blkName2Ip (hd_maps h) !! b) in
      if Z.rem opt 10 =? 0 then
        '(setVal, status, order) ←
          (if _msscheduling then getScheduledBlks h order blkName requestorIP status allStripeBlks
           else
             let '(setVal, status) :=
               if (length failed =? 1)%nat then foldl (fun s it => select_single it s) ([], status) (by_name allStripeBlks)
               else foldl (fun s it => select_helper ecK requestorIP it s) ([], status) allStripeBlks in
             Ok (setVal, status, order));
        guard_or (Exit 1) (ecK <=? length setVal)%nat;;
        Ok (foldl (fun ret b => if bool_decide (b = blkName) then ret else ip_insert (ip b, (b, setVal)) ret)
              [(requestorIP, (blkName, setVal))] (failed_blks status), status, order)
      else if Z.rem opt 10 =? 1 then
        '(_, ret, status, order) ← for_each failed (fun b '(survived, ret, status, order) =>
          '(survived, setVal, status, order) ←
            (if _msscheduling then
               '(setVal, status, order) ← getScheduledBlks h order blkName requestorIP status allStripeBlks;
               Ok (survived, setVal, foldl (fun st x => <[x.1 := 1]> st) status survived, order)
             else
               let '(survived, setVal, status) := balance_one ecK (hd_maps h) survived status in
               Ok (survived, setVal, status, order));
          Ok (survived, ip_insert (ip b, (b, setVal)) ret, status, order))
          ((fun b => (b, 0)) <$> survived_blks status, [], status, order);
        Ok (ret, status, order)
      else Ok ([], status, order)
  end.
End queries.
