(* ===== verification/HdfsLaws.v ===== *)
(** * HDFS keeps the promises of MetadataBase (HDFS_MetadataBase.cc)

    A stripe store with a file for every block of its stripes fills the maps
    as the listing does for HDFS 3, whatever the order of the directory: the
    laws of [StripeLaws] follow from those of the maps (Hdfs3Laws.v).  A file
    that does not name its own block ends in undefined behaviour. *)
From Stdlib Require Import Ascii Sorted.
From stdpp Require Import strings.
From S2P Require Import Prelude Command Text Config Galois GF256 Jerasure Gauss Vandermonde ReedSol Encode RSUtil Metadata DrCmd Request Hdfs3 Hdfs3Laws Hdfs.

(** ** The names of the files *)

Lemma find_in_char c (p s : str) i : c ∉ p -> find_in [c] (p ++ c :: s) i = i + Z.of_nat (length p).
Proof.
  revert i. induction p as [|a p IH]; intros i Hp; cbn [app find_in has_prefix].
  - rewrite Ascii.eqb_refl. cbn. lia.
  - apply not_elem_of_cons in Hp as [Ha Hp]. rewrite (proj2 (Ascii.eqb_neq c a)) by done. cbn [andb]. rewrite IH by done. cbn [length]. lia.
Qed.

Lemma find_last_none c s : c ∉ s -> find_last_of c s = npos.
Proof.
  induction s as [|a s IH]; intros Hs; [done|]. apply not_elem_of_cons in Hs as [Ha Hs]. cbn [find_last_of]. rewrite IH by done.
  cbn [negb Z.eqb]. rewrite Z.eqb_refl. cbn. destruct (Ascii.eqb_spec a c) as [->|]; done.
Qed.

Lemma find_last_char c (s t : str) : Z.of_nat (length s) < npos -> c ∉ t -> find_last_of c (s ++ c :: t) = Z.of_nat (length s).
Proof.
  intros Hl Ht. induction s as [|a s IH]; cbn [app find_last_of length] in *.
  - by rewrite find_last_none, Z.eqb_refl, Ascii.eqb_refl by done.
  - rewrite IH by lia. rewrite (proj2 (Z.eqb_neq _ _)) by lia. cbn [negb]. lia.
Qed.

(** A name with the stamp of its generation. *)
Definition stamped (b stamp : str) : str := b ++ "_"%char :: stamp.
Definition stamp_ok (b stamp : str) : Prop :=
  Z.of_nat (length (stamped b stamp)) < npos /\ "_"%char ∉ stamp /\ ":"%char ∉ b /\ ":"%char ∉ stamp /\ "010"%char ∉ stamp.

Lemma no_stamp_ok b stamp : stamp_ok b stamp -> no_stamp (stamped b stamp) = Ok b.
Proof.
  intros (Hl & Hs & _). unfold no_stamp, stamped in *. rewrite length_app in Hl. cbn [length] in Hl. rewrite find_last_char by (done || lia). unfold substr.
  rewrite (proj2 (Z.leb_le _ _)) by lia. cbn [guard_or]. rewrite bind_ok. f_equal. rewrite length_app, drop_0, Z.min_l, Nat2Z.id by lia.
  by rewrite take_app_length.
Qed.

(** The file of the block [f.1] of the stripe [f.2]: its name may have a prefix
    that ends with a colon, its text a newline at the end. *)
Record file_of (ent : str * str) (f : str * list str) : Prop := {
  fo_name : exists prefix stamp, ent.1 = prefix ++ ":"%char :: stamped f.1 stamp /\ ":"%char ∉ prefix /\
    Z.of_nat (length prefix) < npos /\ stamp_ok f.1 stamp;
  fo_text : exists stamps nl, Forall2 stamp_ok f.2 stamps /\ (nl = [] \/ nl = ["010"%char]) /\
    ent.2 = join ":"%char (zip_with stamped f.2 stamps) ++ nl
}.

Lemma file_name ent f : file_of ent f ->
  ent.1 <> lit "." /\ ent.1 <> lit ".." /\ exists name, substr ent.1 ((find ent.1 (lit ":") 0 + 1) mod 2^64) npos = Ok name /\ no_stamp name = Ok f.1.
Proof.
  intros [(prefix & stamp & -> & Hp & Hl & Hs) _].
  assert (Hin : ":"%char ∈ prefix ++ ":"%char :: stamped f.1 stamp) by (apply elem_of_app; right; left).
  split; [intros E; rewrite E in Hin; by apply list_elem_of_singleton in Hin|].
  split; [intros E; rewrite E in Hin; repeat (apply elem_of_cons in Hin as [Hin|Hin]; [done|]); by apply not_elem_of_nil in Hin|].
  exists (stamped f.1 stamp). split; [|by apply no_stamp_ok]. unfold find. rewrite (proj2 (Z.leb_le 0 _)) by lia. rewrite drop_0, (find_in_char ":"%char) by done.
  unfold npos in *. rewrite Z.mod_small by lia. unfold substr. rewrite length_app. cbn [length]. rewrite (proj2 (Z.leb_le _ _)) by lia. cbn [guard_or]. rewrite bind_ok. f_equal.
  replace (Z.to_nat (0 + Z.of_nat (length prefix) + 1)) with (S (length prefix)) by lia.
  rewrite (drop_app_ge prefix) by lia. replace (S (length prefix) - length prefix)%nat with 1%nat by lia. cbn [drop].
  apply take_ge. destruct Hs as [Hs _]. unfold npos in Hs. lia.
Qed.

(** The text of a stripe never ends with a newline of its own. *)
Lemma stripe_text_last (l stamps : list str) : l <> [] -> Forall2 stamp_ok l stamps ->
  exists s a, join ":"%char (zip_with stamped l stamps) = s ++ [a] /\ a <> "010"%char.
Proof.
  intros Hne Hf. induction Hf as [|b stamp l stamps Hb Hf IH]; [done|]. cbn [zip_with].
  assert (Hone : exists s a, stamped b stamp = s ++ [a] /\ a <> "010"%char).
  { destruct Hb as (_ & _ & _ & _ & Hb). unfold stamped. destruct stamp as [|a stamp _] using rev_ind; [by exists b, "_"%char|].
    exists (b ++ "_"%char :: stamp), a. split; [by rewrite <- app_assoc|]. intros ->. apply Hb. apply elem_of_app. right. left. }
  destruct Hf as [|b' stamp' l stamps Hb' Hf]; [done|]. destruct IH as (s & a & E & Ha); [done|].
  cbn [zip_with] in *. exists (stamped b stamp ++ ":"%char :: s), a. split; [|done].
  change (join ":"%char (stamped b stamp :: ?l)) with (stamped b stamp ++ ":"%char :: join ":"%char l).
  rewrite E. by rewrite <- app_assoc.
Qed.

Lemma stripe_text l stamps nl : l <> [] -> Forall2 stamp_ok l stamps -> nl = [] \/ nl = ["010"%char] ->
  let raw := join ":"%char (zip_with stamped l stamps) ++ nl in
  exists back, last raw = Some back /\ splite_string (if Ascii.eqb back "010"%char then removelast raw else raw) ":"%char = zip_with stamped l stamps.
Proof.
  intros Hne Hf Hnl. destruct (stripe_text_last _ _ Hne Hf) as (s & a & E & Ha).
  assert (Hs : splite_string (join ":"%char (zip_with stamped l stamps)) ":"%char = zip_with stamped l stamps).
  { apply splite_string_iff; [by destruct Hf|]. split; [done|]. clear - Hf. induction Hf as [|b stamp l stamps (_ & _ & H1 & H2 & _) Hf IH]; [constructor|].
    cbn [zip_with]. constructor; [|done]. unfold stamped. intros [|[|]%elem_of_cons]%elem_of_app; done. }
  cbv zeta. destruct Hnl as [-> | ->].
  - rewrite app_nil_r. exists a. rewrite E, last_snoc, (proj2 (Ascii.eqb_neq _ _)) by done. by rewrite <- E.
  - exists "010"%char. rewrite last_snoc, Ascii.eqb_refl, removelast_last. done.
Qed.

Lemma file_text ent f : f.2 <> [] -> file_of ent f -> exists back stamps, last ent.2 = Some back /\ Forall2 stamp_ok f.2 stamps /\
  splite_string (if Ascii.eqb back "010"%char then removelast ent.2 else ent.2) ":"%char = zip_with stamped f.2 stamps.
Proof.
  intros Hne [_ (stamps & nl & Hf & Hnl & ->)]. destruct (stripe_text _ _ _ Hne Hf Hnl) as (back & H1 & H2). by exists back, stamps.
Qed.

(** ** The stripe of one file *)

Lemma recovered_snoc ecK l b x : recovered ecK (l ++ [x]) b =
  if decide (x <> b) then if (length (recovered ecK l b) <? ecK)%nat then recovered ecK l b ++ [x] else recovered ecK l b else recovered ecK l b.
Proof.
  unfold recovered. rewrite List.filter_app. cbn [List.filter]. set (F := List.filter _ l). case_decide as Hx.
  - rewrite bool_decide_true, length_take by done. destruct (Nat.ltb_spec (ecK `min` length F) ecK).
    + rewrite !take_ge; rewrite ?length_app; cbn; (done || lia).
    + by rewrite take_app_le by lia.
  - rewrite (bool_decide_false (x <> b)), app_nil_r by naive_solver. done.
Qed.

Lemma recover_by_snoc b rec x rc : recover_by b (rec ++ [x]) rc = <[x := default [] (recover_by b rec rc !! x) ++ [b]]> (recover_by b rec rc).
Proof. unfold recover_by. by rewrite foldl_snoc. Qed.

(** The other blocks of a stripe, in order. *)
Definition others_of (b : str) (l : list str) (m : list (str * unit)) : list (str * unit) :=
  foldl (fun m x => if decide (x = b) then m else map_insert x tt m) m l.

Lemma others_of_in b l m : keys_sorted m.*1 -> keys_sorted (others_of b l m).*1 /\ forall x, x ∈ (others_of b l m).*1 <-> x ∈ m.*1 \/ (x ∈ l /\ x <> b).
Proof.
  revert m. induction l as [|y l IH]; intros m Hm; [split; [done|]; intros x; rewrite elem_of_nil; tauto|]. unfold others_of. cbn [foldl].
  destruct (decide (y = b)) as [->|Hy].
  - destruct (IH m Hm) as [H1 H2]. split; [exact H1|]. intros x. fold (others_of b l m). rewrite H2, elem_of_cons. naive_solver.
  - destruct (IH _ (map_insert_sorted y tt m Hm)) as [H1 H2]. split; [exact H1|]. intros x. fold (others_of b l (map_insert y tt m)).
    rewrite H2, map_insert_in, elem_of_cons. naive_solver.
Qed.

Section one_file.
Context (ecK : nat) (h : Hdfs3) (rc : gmap str (list str)) (all : gmap str (list (str * unit))) (new : bool) (sid : nat) (b : str) (l : list str) (i : nat).
Context (Hn : NoDup l) (Hi : l !! i = Some b).
Context (Hold : new = false -> _blkName2StripeId h !! b = Some sid /\ is_Some (_Id2BlkNames h !! sid)).

(** What is known when [j] names of the stripe of [b] are read. *)
Record parsed (j : nat) (p : parsing) : Prop := {
  pd_stripe : _blkName2StripeId (pa_maps p) = if new then foldl (fun m x => <[x := sid]> m) (_blkName2StripeId h) (take j l) else _blkName2StripeId h;
  pd_place : _blkIdInStripe (pa_maps p) = if (i <? j)%nat then <[b := i]> (_blkIdInStripe h) else _blkIdInStripe h;
  pd_ids : _Id2BlkNames (pa_maps p) = if negb new && (i <? j)%nat then alter <[i := b]> sid (_Id2BlkNames h) else _Id2BlkNames h;
  pd_same : _blk2Stripe (pa_maps p) = _blk2Stripe h /\ _blkName2Ip (pa_maps p) = _blkName2Ip h /\
    _Ip2BlkNames (pa_maps p) = _Ip2BlkNames h /\ _coefs (pa_maps p) = _coefs h;
  pd_recoveree : recoveree p = recover_by b (recovered ecK (take j l) b) rc;
  pd_recovered : recoveredBlks p = recovered ecK (take j l) b;
  pd_all b' : default [] (pa_all p !! b') = if decide (b' = b) then others_of b (take j l) (default [] (all !! b)) else default [] (all !! b');
  pd_idx : idxInStripe p = j;
  pd_new : id2BlkName p = if new && (i <? j)%nat then {[ i := b ]} else ∅;
  pd_bid : bidInStripe p = if (i <? j)%nat then Some i else None
}.

Lemma read_name_ok j x stamp p : parsed j p -> l !! j = Some x -> stamp_ok x stamp ->
  exists p', read_name ecK b new sid (stamped x stamp) p = Ok p' /\ parsed (S j) p'.
Proof.
  intros [P1 P2 P3 P4 P5 P6 PA P7 P8 P9] Hj Hs. unfold read_name. rewrite no_stamp_ok, bind_ok by done. cbv zeta.
  pose proof (take_S_r l j x Hj) as Et.
  assert (Es : _blkName2StripeId (if new then set_stripe_id x sid (pa_maps p) else pa_maps p) =
    if new then foldl (fun m x => <[x := sid]> m) (_blkName2StripeId h) (take (S j) l) else _blkName2StripeId h).
  { rewrite Et, foldl_snoc. destruct new; [cbn; by rewrite P1|done]. }
  assert (Eo : forall m, others_of b (take (S j) l) m = if decide (x = b) then others_of b (take j l) m else map_insert x tt (others_of b (take j l) m))
    by (intros m; rewrite Et; unfold others_of; by rewrite foldl_snoc).
  destruct (decide (x = b)) as [->|Hx].
  - assert (j = i) as -> by by eapply NoDup_lookup. rewrite (bool_decide_false (b <> b)) by auto.
    assert (Er : recovered ecK (take (S i) l) b = recovered ecK (take i l) b) by by rewrite Et, recovered_snoc, decide_False by auto.
    assert (Hlt : (i <? S i)%nat = true) by (apply Nat.ltb_lt; lia). rewrite Nat.ltb_irrefl, ?andb_false_r in *. destruct new eqn:En.
    + eexists. split; [done|]. split; rewrite ?Er, ?Hlt, ?En; cbn; [exact Es|by rewrite P2, P7|done|done|done|done|intros b'; by rewrite Eo|by rewrite P7|by rewrite P7, P8|by rewrite P7].
    + destruct (Hold eq_refl) as (Hsid & ids & Hids). cbn [set_id _blkName2StripeId _Id2BlkNames]. rewrite P1, Hsid. cbn [default from_option id].
      rewrite P3, Hids. cbn [res_of_option]. rewrite bind_ok. eexists. split; [done|]. split; rewrite ?Er, ?Hlt, ?En; cbn; [exact Es|by rewrite P2, P7| |done|done|done|intros b'; by rewrite Eo|by rewrite P7|done|by rewrite P7]. rewrite P7.
      apply list_eq. intros s. destruct (decide (s = sid)) as [->|Hne].
      * rewrite list_lookup_insert_eq, list_lookup_alter_eq, Hids by by eapply lookup_lt_Some. done.
      * by rewrite list_lookup_insert_ne, list_lookup_alter_ne by done.
  - rewrite bool_decide_true by done. assert (Hij : j <> i) by congruence.
    assert (Hlt : (i <? S j)%nat = (i <? j)%nat) by (destruct (Nat.ltb_spec i (S j)), (Nat.ltb_spec i j); done || lia).
    eexists. split; [done|]. rewrite P6.
    assert (Er : recovered ecK (take (S j) l) b = if (length (recovered ecK (take j l) b) <? ecK)%nat then recovered ecK (take j l) b ++ [x] else recovered ecK (take j l) b)
      by by rewrite Et, recovered_snoc, decide_True.
    split; rewrite ?Hlt; cbn -[Nat.ltb]; try done.
    + destruct new; done.
    + by destruct new.
    + by destruct new.
    + rewrite Er, P5. destruct (length (recovered ecK (take j l) b) <? ecK)%nat; [by rewrite recover_by_snoc|done].
    + intros b'. rewrite Eo. destruct (decide (b' = b)) as [->|Hb']; [|by rewrite lookup_insert_ne, PA, decide_False by done].
      rewrite lookup_insert_eq. cbn [default from_option id]. by rewrite PA, decide_True.
    + by rewrite P7.
Qed.

Lemma read_names_ok stamps : Forall2 stamp_ok l stamps ->
  exists p, for_each (zip_with stamped l stamps) (read_name ecK b new sid) (mkParsing h all rc [] 0 ∅ None) = Ok p /\ parsed (length l) p.
Proof.
  intros Hs. destruct (for_each_total parsed (zip_with stamped l stamps) (read_name ecK b new sid) (mkParsing h all rc [] 0 ∅ None)) as (p & E & Hp).
  - assert (E : recovered ecK [] b = []) by (unfold recovered; by destruct ecK).
    split; rewrite ?take_0, ?E; cbn; rewrite ?andb_false_r; try done; try (by destruct new). intros b'. by case_decide as E2; [rewrite E2|].
  - intros j f p Hf Hp. apply lookup_zip_with_Some in Hf as (x & stamp & -> & Hx & Hst).
    eapply read_name_ok; [done..|]. by eapply Forall2_lookup_lr.
  - exists p. split; [done|]. by rewrite length_zip_with_l_eq in Hp by (apply Forall2_length in Hs; done).
Qed.
End one_file.

(** ** The stripe store *)

(** The stripes of some files, in the order in which the first file of each is
    read. *)
Definition stripes_of (files : list (str * list str)) : list (list str) := reverse (remove_dups (reverse files.*2)).

Lemma stripes_of_snoc fs f : stripes_of (fs ++ [f]) = if decide (f.2 ∈ fs.*2) then stripes_of fs else stripes_of fs ++ [f.2].
Proof.
  unfold stripes_of. rewrite fmap_app, reverse_app. cbn [fmap list_fmap reverse]. change (reverse [f.2]) with [f.2]. cbn [app remove_dups].
  destruct (decide_rel elem_of f.2 (reverse fs.*2)) as [Hin|Hin]; rewrite elem_of_reverse in Hin.
  - by rewrite decide_True.
  - rewrite decide_False by done. by rewrite reverse_cons.
Qed.

Lemma in_stripes_of fs l : l ∈ stripes_of fs <-> l ∈ fs.*2.
Proof. unfold stripes_of. by rewrite elem_of_reverse, elem_of_remove_dups, elem_of_reverse. Qed.

Lemma NoDup_stripes_of fs : NoDup (stripes_of fs).
Proof. unfold stripes_of. rewrite reverse_Permutation. apply NoDup_remove_dups. Qed.

(** The files of a store: one for every block of its stripes. *)
Record files_ok (n : nat) (files : list (str * list str)) : Prop := {
  fi_names : NoDup files.*1;
  fi_file b l : (b, l) ∈ files -> b ∈ l /\ NoDup l /\ length l = n /\ forall b', b' ∈ l -> (b', l) ∈ files
}.

Section store.
Context `{GF : GFComplete} (rsUtil : RSUtil) (ecK ecN : nat) (files : list (str * list str)) (Hfiles : files_ok ecN files).
Context (Hcoefs : forall i, (i < ecN)%nat -> exists c, RSUtil.getCoefficient rsUtil i = Some c /\ length c = ecK).

Lemma file_inj b l l' : (b, l) ∈ files -> (b, l') ∈ files -> l = l'.
Proof.
  intros [i Hi]%list_elem_of_lookup [j Hj]%list_elem_of_lookup. assert (i = j) as ->; [|congruence].
  eapply (NoDup_lookup files.*1); [apply (fi_names _ _ Hfiles)|..]; rewrite list_lookup_fmap, ?Hi, ?Hj; done.
Qed.

Lemma stripe_file l b : l ∈ files.*2 -> b ∈ l -> (b, l) ∈ files.
Proof. intros ([b' l'] & -> & Hf)%list_elem_of_fmap Hb. by apply (fi_file _ _ Hfiles b' l' Hf). Qed.

Lemma shared_stripe l l' b : l ∈ files.*2 -> l' ∈ files.*2 -> b ∈ l -> b ∈ l' -> l = l'.
Proof. intros Hl Hl' Hb Hb'. apply (file_inj b); by apply stripe_file. Qed.

(** What is kept after the files [ps]. *)
Record stored (ps : list (str * list str)) (s : store) : Prop := {
  st_id b sid : _blkName2StripeId (so_maps s) !! b = Some sid <-> exists l, stripes_of ps !! sid = Some l /\ b ∈ l;
  st_blk b l i : (b, l) ∈ ps -> l !! i = Some b -> _blkIdInStripe (so_maps s) !! b = Some i /\
    exists c m, RSUtil.getCoefficient rsUtil i = Some c /\ _coefs (so_maps s) !! b = Some m /\ first_coefs (recovered ecK l b) c m;
  st_new b : b ∉ ps.*1 -> _coefs (so_maps s) !! b = None /\ default [] (so_all s !! b) = [];
  st_all b l : (b, l) ∈ ps -> default [] (so_all s !! b) = others_of b l [];
  st_recover b r : b ∈ default [] (so_recoveree s !! r) <-> exists l, (b, l) ∈ ps /\ r ∈ recovered ecK l b;
  st_ids sid l : stripes_of ps !! sid = Some l -> exists ids, _Id2BlkNames (so_maps s) !! sid = Some ids /\
    forall i b, ids !! i = Some b <-> l !! i = Some b /\ b ∈ ps.*1;
  st_length : length (_Id2BlkNames (so_maps s)) = length (stripes_of ps) /\ so_stripes s = length (stripes_of ps);
  st_ips : _Ip2BlkNames (so_maps s) = replicate (length (stripes_of ps)) ∅;
  st_empty : _blk2Stripe (so_maps s) = ∅ /\ _blkName2Ip (so_maps s) = ∅;
  st_blks : so_blks s = list_to_set ps.*1
}.

Lemma stored_none : stored [] (mkStore (mkHdfs3 ∅ ∅ ∅ ∅ [] [] ∅) ∅ ∅ ∅ 0).
Proof.
  split; cbn; try done.
  - intros b sid. rewrite lookup_empty. split; [done|]. by intros (l & ? & _).
  - by intros b l i ?%not_elem_of_nil.
  - by intros b l ?%not_elem_of_nil.
  - intros b r. rewrite lookup_empty. cbn. split; [by intros ?%not_elem_of_nil|]. by intros (l & ?%not_elem_of_nil & _).
Qed.

Lemma ids_lookup (sid : nat) (l : list str) (m : gmap str nat) b :
  foldl (fun m x => <[x := sid]> m) m l !! b = if decide (b ∈ l) then Some sid else m !! b.
Proof.
  revert m. induction l as [|x l IH]; intros m; [done|]. cbn [foldl]. rewrite IH. destruct (decide (b ∈ l)).
  - by rewrite decide_True by by right.
  - destruct (decide (x = b)) as [->|]; [by rewrite lookup_insert_eq, decide_True by left|].
    rewrite lookup_insert_ne by done. rewrite decide_False; [done|]. by intros [->|]%elem_of_cons.
Qed.

(** The stripe of a file is new, or is known with all its blocks. *)
Lemma stripe_known ps s b l : stored ps s -> (forall f, f ∈ ps -> f ∈ files) -> (b, l) ∈ files ->
  _blkName2StripeId (so_maps s) !! b = None /\ l ∉ ps.*2 \/
  l ∈ ps.*2 /\ exists sid, _blkName2StripeId (so_maps s) !! b = Some sid /\ stripes_of ps !! sid = Some l.
Proof.
  intros Hs Hps Hf. assert (Hsub : forall l', l' ∈ ps.*2 -> l' ∈ files.*2).
  { intros l' (g & -> & Hg)%list_elem_of_fmap. apply list_elem_of_fmap. by exists g; auto. }
  destruct (fi_file _ _ Hfiles b l Hf) as (Hb & _). destruct (decide (l ∈ ps.*2)) as [Hl|Hl].
  - right. split; [done|]. apply in_stripes_of, list_elem_of_lookup in Hl as [sid Hl]. exists sid. split; [|done]. apply (st_id _ _ Hs). by exists l.
  - left. split; [|done]. destruct (_blkName2StripeId (so_maps s) !! b) as [sid|] eqn:E; [|done]. apply (st_id _ _ Hs) in E as (l' & Hl' & Hb').
    exfalso. apply Hl. assert (Hl2 : l' ∈ ps.*2) by (apply in_stripes_of; by eapply list_elem_of_lookup_2).
    assert (l = l') as ->; [|done]. apply (shared_stripe l l' b); [|by apply Hsub|done..]. apply list_elem_of_fmap. by exists (b, l).
Qed.

Lemma names_snoc (ps : list (str * list str)) b (l : list str) b' : b' ∈ (ps ++ [(b, l)]).*1 <-> b' ∈ ps.*1 \/ b' = b.
Proof. rewrite fmap_app, elem_of_app. cbn. by rewrite list_elem_of_singleton. Qed.

(** The maps after one more file, of a stripe that is [new] or not. *)
Section step.
Context (ps : list (str * list str)) (s : store) (b : str) (l : list str) (i : nat) (c : list Z) (m : gmap str Z) (new : bool) (sid : nat) (p : parsing).
Context (Hs : stored ps s) (Hps : forall f, f ∈ ps -> f ∈ files) (Hf : (b, l) ∈ files) (Hb : b ∉ ps.*1) (Hi : l !! i = Some b).
Context (Hc : RSUtil.getCoefficient rsUtil i = Some c) (Hm : first_coefs (recovered ecK l b) c m).
Context (Hp : parsed ecK (so_maps s) (so_recoveree s) (so_all s) new sid b l i (length l) p).
Context (Hnew : if new then l ∉ ps.*2 /\ sid = length (stripes_of ps) else stripes_of ps !! sid = Some l).
Abbreviation s' := (mkStore (if new then push_stripe (id2BlkName p) (set_coef b m (pa_maps p)) else set_coef b m (pa_maps p))
  (pa_all p) (recoveree p) ({[ b ]} ∪ so_blks s) (if new then S (so_stripes s) else so_stripes s)).

Lemma i_read : (i <? length l)%nat = true.
Proof. apply Nat.ltb_lt. by eapply lookup_lt_Some. Qed.

Lemma seen l' : l' ∈ ps.*2 -> l' ∈ files.*2.
Proof. intros (g & -> & Hg)%list_elem_of_fmap. apply list_elem_of_fmap. by exists g; auto. Qed.

Lemma other_stripe l' b' : l' ∈ ps.*2 -> l' <> l -> b' ∈ l' -> b' ∉ l.
Proof.
  intros Hl' Hne Hb' Hbl. apply Hne. apply (shared_stripe l' l b'); [by apply seen| |done..]. apply list_elem_of_fmap. by exists (b, l).
Qed.

Lemma stripes_step : stripes_of (ps ++ [(b, l)]) = if new then stripes_of ps ++ [l] else stripes_of ps.
Proof.
  rewrite stripes_of_snoc. cbn [snd]. destruct new; [by rewrite decide_False by tauto|]. rewrite decide_True; [done|].
  apply in_stripes_of. by eapply list_elem_of_lookup_2.
Qed.

Lemma step_id b' sid' : _blkName2StripeId (so_maps s') !! b' = Some sid' <-> exists l', stripes_of (ps ++ [(b, l)]) !! sid' = Some l' /\ b' ∈ l'.
Proof.
  rewrite stripes_step. pose proof (pd_stripe _ _ _ _ _ _ _ _ _ _ _ Hp) as E. rewrite take_ge in E by done. clear Hp. destruct new.
  - destruct Hnew as [Hl ->]. cbn. rewrite E, ids_lookup. split.
    + case_decide as Hin; [intros [= <-]; exists l; by rewrite list_lookup_middle|]. intros (l' & Hl' & Hb')%(st_id _ _ Hs). exists l'.
      by rewrite lookup_app_l by by eapply lookup_lt_Some.
    + intros (l' & [Hl'|[Hge Hl']]%lookup_app_Some & Hb').
      * rewrite decide_False; [apply (st_id _ _ Hs); by exists l'|]. assert (Hin : l' ∈ ps.*2) by (apply in_stripes_of; by eapply list_elem_of_lookup_2).
        apply (other_stripe l'); [done| |done]. by intros ->.
      * apply list_lookup_singleton_Some in Hl' as [? <-]. rewrite decide_True by done. f_equal. lia.
  - cbn. rewrite E. apply (st_id _ _ Hs).
Qed.

Lemma step_blk b' l' i' : (b', l') ∈ ps ++ [(b, l)] -> l' !! i' = Some b' -> _blkIdInStripe (so_maps s') !! b' = Some i' /\
  exists c m, RSUtil.getCoefficient rsUtil i' = Some c /\ _coefs (so_maps s') !! b' = Some m /\ first_coefs (recovered ecK l' b') c m.
Proof.
  pose proof (pd_place _ _ _ _ _ _ _ _ _ _ _ Hp) as E1. rewrite i_read in E1. pose proof (pd_same _ _ _ _ _ _ _ _ _ _ _ Hp) as (_ & _ & _ & E2).
  assert (E : _blkIdInStripe (so_maps s') = <[b := i]> (_blkIdInStripe (so_maps s)) /\ _coefs (so_maps s') = <[b := m]> (_coefs (so_maps s)))
    by (destruct new; cbn; by rewrite E1, E2).
  destruct E as [-> ->]. intros [Hin|[= -> ->]%list_elem_of_singleton]%elem_of_app Hi'.
  - assert (b <> b'). { intros ->. apply Hb. apply list_elem_of_fmap. by exists (b', l'). }
    rewrite !lookup_insert_ne by done. by apply (st_blk _ _ Hs).
  - destruct (fi_file _ _ Hfiles b l Hf) as (_ & Hn & _). assert (i' = i) as -> by by eapply NoDup_lookup. rewrite !lookup_insert_eq. split; [done|]. by exists c, m.
Qed.

Lemma step_ids sid' l' : stripes_of (ps ++ [(b, l)]) !! sid' = Some l' -> exists ids, _Id2BlkNames (so_maps s') !! sid' = Some ids /\
  forall i' b', ids !! i' = Some b' <-> l' !! i' = Some b' /\ b' ∈ (ps ++ [(b, l)]).*1.
Proof.
  destruct (st_length _ _ Hs) as [Hlen _]. destruct (fi_file _ _ Hfiles b l Hf) as (Hbl & Hn & _).
  pose proof (pd_ids _ _ _ _ _ _ _ _ _ _ _ Hp) as E1. pose proof (pd_new _ _ _ _ _ _ _ _ _ _ _ Hp) as E2. rewrite i_read, andb_true_r in E1, E2.
  assert (Hold : forall sid l', stripes_of ps !! sid = Some l' -> l' <> l -> exists ids, _Id2BlkNames (so_maps s) !! sid = Some ids /\
    forall i' b', ids !! i' = Some b' <-> l' !! i' = Some b' /\ b' ∈ (ps ++ [(b, l)]).*1).
  { intros sid0 l0 Hl0 Hne. destruct (st_ids _ _ Hs sid0 l0 Hl0) as (ids & Hids & Hin). exists ids. split; [done|].
    intros i' b'. rewrite Hin, names_snoc. split; [tauto|]. intros [Hi' [?| ->]]; [done|]. exfalso.
    apply (other_stripe l0 b); [|done|by eapply list_elem_of_lookup_2|done]. apply in_stripes_of. by eapply list_elem_of_lookup_2. }
  rewrite stripes_step. clear Hp. destruct new; cbn [negb] in *.
  - destruct Hnew as [Hl Hsid]. rewrite E2. cbn. rewrite E1. intros [Hl'|[Hge Hl']]%lookup_app_Some.
    + rewrite lookup_app_l by (rewrite Hlen; by eapply lookup_lt_Some). apply Hold; [done|]. intros ->. apply Hl, in_stripes_of. by eapply list_elem_of_lookup_2.
    + apply list_lookup_singleton_Some in Hl' as [? <-]. exists {[i := b]}. split.
      { rewrite lookup_app_r by lia. by replace (sid' - length (_Id2BlkNames (so_maps s)))%nat with 0%nat by lia. }
      intros i' b'. rewrite lookup_singleton_Some, names_snoc. split; [intros [<- <-]; auto|]. intros [Hi' [Hb'| ->]].
      * exfalso. apply Hl. apply list_elem_of_fmap in Hb' as ([b0 l0] & -> & Hin). cbn [fst] in *.
        assert (l = l0) as ->; [|apply list_elem_of_fmap; by exists (b0, l0)]. apply (file_inj b0); [|by apply Hps].
        apply stripe_file; [apply list_elem_of_fmap; by exists (b, l)|by eapply list_elem_of_lookup_2].
      * split; [by eapply NoDup_lookup|done].
  - cbn [so_maps set_coef _Id2BlkNames]. rewrite E1. intros Hl'. destruct (decide (sid' = sid)) as [->|Hne].
    + assert (l' = l) as -> by congruence. destruct (st_ids _ _ Hs sid l Hl') as (ids & Hids & Hin). exists (<[i := b]> ids). split.
      { by rewrite list_lookup_alter_eq, Hids. }
      intros i' b'. rewrite names_snoc. destruct (decide (i = i')) as [<-|Hii].
      * rewrite lookup_insert_eq. split; [by intros [= <-]; auto|]. intros [E _]. congruence.
      * rewrite lookup_insert_ne, Hin by done. split; [tauto|]. intros [E [?| ->]]; [done|]. destruct Hii. by eapply NoDup_lookup.
    + cbn. rewrite list_lookup_alter_ne by done. apply Hold; [done|]. intros ->. apply Hne. eapply NoDup_lookup; [apply NoDup_stripes_of|done..].
Qed.

Lemma stored_step : stored (ps ++ [(b, l)]) s'.
Proof.
  pose proof (pd_same _ _ _ _ _ _ _ _ _ _ _ Hp) as (E1 & E2 & E3 & E4). split.
  - apply step_id.
  - apply step_blk.
  - intros b' Hb'. rewrite names_snoc in Hb'. destruct (st_new _ _ Hs b') as [N1 N2]; [tauto|]. split.
    + transitivity (_coefs (pa_maps p) !! b'); [|by rewrite E4]. destruct new; cbn; by rewrite lookup_insert_ne by naive_solver.
    + cbn. rewrite (pd_all _ _ _ _ _ _ _ _ _ _ _ Hp), decide_False by naive_solver. done.
  - intros b' l' Hin. cbn [so_all]. rewrite (pd_all _ _ _ _ _ _ _ _ _ _ _ Hp), take_ge by done. rewrite (proj2 (st_new _ _ Hs b Hb)).
    apply elem_of_app in Hin as [Hin|[= -> ->]%list_elem_of_singleton]; [|by rewrite decide_True].
    rewrite decide_False; [by apply (st_all _ _ Hs)|]. intros ->. apply Hb. apply list_elem_of_fmap. by exists (b, l').
  - intros b' r. change (so_recoveree s') with (recoveree p). rewrite (pd_recoveree _ _ _ _ _ _ _ _ _ _ _ Hp), take_ge by done.
    rewrite recover_by_in, (st_recover _ _ Hs). setoid_rewrite elem_of_app. setoid_rewrite list_elem_of_singleton. split.
    + intros [(l' & ? & ?)|[-> ?]]; [exists l'; auto|exists l; auto].
    + intros (l' & [?|[= -> ->]] & ?); [left; by exists l'|by right].
  - apply step_ids.
  - rewrite stripes_step. destruct (st_length _ _ Hs) as [H1 H2]. pose proof (pd_ids _ _ _ _ _ _ _ _ _ _ _ Hp) as E. clear Hp.
    rewrite i_read, andb_true_r in E. destruct new; cbn; cbn [negb] in E; rewrite E, ?length_app, ?length_alter; cbn; lia.
  - rewrite stripes_step. clear Hp. destruct new; cbn; rewrite E3, (st_ips _ _ Hs); [|done]. rewrite length_app. cbn. by rewrite Nat.add_1_r, replicate_S_end.
  - destruct (st_empty _ _ Hs) as [H1 H2]. clear Hp. destruct new; cbn; by rewrite E1, E2.
  - cbn. rewrite (st_blks _ _ Hs), fmap_app, list_to_set_app_L. cbn. set_solver.
Qed.
End step.

(** The maps after the stripe of one more file is read. *)
Lemma read_entry_ok ps s ent b l : stored ps s -> (forall f, f ∈ ps -> f ∈ files) -> (b, l) ∈ files -> b ∉ ps.*1 -> file_of ent (b, l) ->
  exists s', read_entry rsUtil ecK ent s = Ok s' /\ stored (ps ++ [(b, l)]) s'.
Proof.
  intros Hs Hps Hf Hb Hent. destruct (fi_file _ _ Hfiles b l Hf) as (Hbl & Hn & Hlen & Hall).
  assert (Hne : l <> []) by (intros ->; by apply not_elem_of_nil in Hbl).
  destruct (file_name ent (b, l) Hent) as (Hd1 & Hd2 & name & Hname & Hblk). destruct (file_text ent (b, l) Hne Hent) as (back & stamps & Hback & Hst & Htext).
  cbn [fst snd] in *. apply list_elem_of_lookup in Hbl as [i Hi]. pose proof (lookup_lt_Some _ _ _ Hi) as Hil.
  destruct (Hcoefs i) as (c & Hc & Hcl); [by rewrite <- Hlen|].
  assert (Hco : exists m, add_coefs (recovered ecK l b) c ∅ = Ok m /\ first_coefs (recovered ecK l b) c m).
  { apply add_coefs_ok; [by apply NoDup_recovered|]. rewrite length_recovered; [lia|done|by eapply list_elem_of_lookup_2]. }
  destruct Hco as (m & Hm & Hfirst).
  unfold read_entry. destruct ent as [d_name raw]. cbn [fst snd] in *. rewrite (bool_decide_false (d_name = _)), (bool_decide_false (d_name = _)) by done.
  cbn [orb]. rewrite Hname, bind_ok, Hblk, bind_ok. cbv zeta. rewrite Hback. cbn [res_of_option]. rewrite bind_ok, Htext.
  assert (Hwhole : forall new sid, (new = false -> _blkName2StripeId (so_maps s) !! b = Some sid /\ stripes_of ps !! sid = Some l) -> exists p,
    for_each (zip_with stamped l stamps) (read_name ecK b new sid) (mkParsing (so_maps s) (so_all s) (so_recoveree s) [] 0 ∅ None) = Ok p /\
    parsed ecK (so_maps s) (so_recoveree s) (so_all s) new sid b l i (length l) p).
  { intros new sid Hold. eapply read_names_ok; [done..| |done]. intros En. destruct (Hold En) as [? Hsid]. split; [done|].
    destruct (st_ids _ _ Hs sid l Hsid) as (ids & Hids & _). by exists ids. }
  assert (Hend : forall new sid p, parsed ecK (so_maps s) (so_recoveree s) (so_all s) new sid b l i (length l) p ->
    bidInStripe p = Some i /\ recoveredBlks p = recovered ecK l b /\ default ∅ (_coefs (pa_maps p) !! b) = ∅).
  { intros new sid p Hp. pose proof (pd_same _ _ _ _ _ _ _ _ _ _ _ Hp) as (_ & _ & _ & ->). rewrite (proj1 (st_new _ _ Hs b Hb)).
    rewrite (pd_bid _ _ _ _ _ _ _ _ _ _ _ Hp), (pd_recovered _ _ _ _ _ _ _ _ _ _ _ Hp), take_ge by done. by rewrite (proj2 (Nat.ltb_lt _ _) Hil). }
  destruct (stripe_known ps s b l Hs Hps Hf) as [[Hid Hl]|(Hl & sid & Hid & Hsid)]; rewrite Hid.
  - rewrite bool_decide_true by done. cbn [Nat.sub]. rewrite Nat.sub_0_r. destruct (Hwhole true (so_stripes s) ltac:(done)) as (p & -> & Hp).
    destruct (Hend _ _ _ Hp) as (H1 & H2 & H3). rewrite bind_ok, H1. cbn [res_of_option]. rewrite bind_ok, Hc. cbn [res_of_option]. rewrite bind_ok, H2, H3, Hm, bind_ok.
    eexists. split; [done|]. eapply (stored_step ps s b l i c m true); try done. split; [done|]. apply (st_length _ _ Hs).
  - rewrite bool_decide_false by done. destruct (Hwhole false sid ltac:(done)) as (p & E & Hp).
    change (read_name ecK b false (so_stripes s - 1)) with (read_name ecK b false sid). rewrite E.
    destruct (Hend _ _ _ Hp) as (H1 & H2 & H3). rewrite bind_ok, H1. cbn [res_of_option]. rewrite bind_ok, Hc. cbn [res_of_option]. rewrite bind_ok, H2, H3, Hm, bind_ok.
    eexists. split; [done|]. by eapply (stored_step ps s b l i c m false).
Qed.

(** The directory: the files, in any order, and its own entries. *)
Inductive dir_of : list (str * str) -> list (str * list str) -> Prop :=
  | dir_nil : dir_of [] []
  | dir_dot ent ents fs : ent.1 = lit "." \/ ent.1 = lit ".." -> dir_of ents fs -> dir_of (ent :: ents) fs
  | dir_file ent ents f fs : file_of ent f -> dir_of ents fs -> dir_of (ent :: ents) (f :: fs).

Lemma read_dir ents rest : dir_of ents rest -> forall ps s, files = ps ++ rest -> stored ps s ->
  exists s', for_each ents (read_entry rsUtil ecK) s = Ok s' /\ stored files s'.
Proof.
  induction 1 as [|ent ents rest Hd Hdir IH|ent ents [b l] rest Hf Hdir IH]; intros ps s E Hs; cbn [for_each].
  - exists s. split; [done|]. by rewrite E, app_nil_r.
  - destruct ent as [d raw]. cbn [fst] in Hd.
    assert (Ed : bool_decide (d = lit ".") || bool_decide (d = lit "..") = true) by (apply orb_true_iff; destruct Hd; [left|right]; by apply bool_decide_eq_true).
    assert (read_entry rsUtil ecK (d, raw) s = Ok s) as -> by (unfold read_entry; by rewrite Ed). rewrite bind_ok. by apply (IH ps).
  - pose proof (fi_names _ _ Hfiles) as Hn. rewrite E, fmap_app in Hn. apply NoDup_app in Hn as (_ & Hdis & _).
    destruct (read_entry_ok ps s ent b l) as (s' & -> & Hs'); try done.
    + intros f Hin. rewrite E. apply elem_of_app. by left.
    + rewrite E. apply elem_of_app. right. left.
    + intros Hb. apply (Hdis b Hb). left.
    + rewrite bind_ok. apply (IH (ps ++ [(b, l)])); [by rewrite <- app_assoc|done].
Qed.

Lemma NoDup_concat (ls : list (list str)) : NoDup ls -> (forall l, l ∈ ls -> NoDup l) ->
  (forall l l' b, l ∈ ls -> l' ∈ ls -> b ∈ l -> b ∈ l' -> l = l') -> NoDup (concat ls).
Proof.
  induction ls as [|l ls IH]; intros Hn Hl Hd; [constructor|]. apply NoDup_cons in Hn as [Hnl Hn]. cbn [concat]. apply NoDup_app. split; [apply Hl; left|]. split.
  - intros b Hb Hin. apply list_elem_of_In, in_concat in Hin as (l' & Hl' & Hb'). apply Hnl. assert (l = l') as ->; [|by apply list_elem_of_In].
    apply (Hd l l' b); [left|right; by apply list_elem_of_In|done|by apply list_elem_of_In].
  - apply IH; [done|..]; [intros l' ?; apply Hl; by right|]. intros l1 l2 b H1 H2. apply Hd; by right.
Qed.

Abbreviation stripes := (stripes_of files).

Lemma stripes_facts : NoDup (concat stripes) /\ (forall l, l ∈ stripes -> length l = ecN) /\ forall b, b ∈ concat stripes <-> b ∈ files.*1.
Proof.
  assert (Hf : forall l, l ∈ stripes -> exists b, (b, l) ∈ files).
  { intros l Hl. apply in_stripes_of, list_elem_of_fmap in Hl as ([b l'] & -> & Hin). by exists b. }
  split; [|split].
  - apply NoDup_concat; [apply NoDup_stripes_of|..].
    + intros l (b & Hin)%Hf. by apply (fi_file _ _ Hfiles) in Hin as (_ & ? & _).
    + intros l l' b Hl Hl'. apply shared_stripe; by apply in_stripes_of.
  - intros l (b & Hin)%Hf. by apply (fi_file _ _ Hfiles) in Hin as (_ & _ & ? & _).
  - intros b. split.
    + intros Hb. apply list_elem_of_In, in_concat in Hb as (l & Hl & Hb). apply list_elem_of_In, in_stripes_of in Hl. apply list_elem_of_In in Hb.
      apply list_elem_of_fmap. exists (b, l). split; [done|]. by apply stripe_file.
    + intros ([b' l] & -> & Hin)%list_elem_of_fmap. apply (concat_in stripes l); [apply in_stripes_of, list_elem_of_fmap; by exists (b', l)|].
      by apply (fi_file _ _ Hfiles) in Hin as (? & _).
Qed.

Lemma stored_placed s : stored files s -> all_placed rsUtil ecK stripes (so_maps s) (so_recoveree s).
Proof.
  intros Hs. split.
  - intros sid l i b Hl Hi. assert (Hin : (b, l) ∈ files).
    { apply stripe_file; [apply in_stripes_of|]; by eapply list_elem_of_lookup_2. }
    destruct (st_blk _ _ Hs b l i Hin Hi) as [H1 H2]. split; [|done..]. apply (st_id _ _ Hs). exists l. split; [done|]. by eapply list_elem_of_lookup_2.
  - intros b r. rewrite (st_recover _ _ Hs). split; intros (l & Hl & H).
    + exists l. split; [apply in_stripes_of, list_elem_of_fmap; by exists (b, l)|]. split; [|done]. by apply (fi_file _ _ Hfiles) in Hl as (? & _).
    + exists l. destruct H. split; [|done]. apply stripe_file; [by apply in_stripes_of|done].
  - intros sid l Hl. destruct (st_ids _ _ Hs sid l Hl) as (ids & Hids & Hin). exists ids. split; [done|]. intros i. apply option_eq. intros b. rewrite Hin.
    split; [tauto|]. intros Hi. split; [done|]. apply stripes_facts. apply (concat_in stripes l); by eapply list_elem_of_lookup_2.
  - apply (st_ips _ _ Hs).
  - apply (st_empty _ _ Hs).
Qed.

Lemma read_store_ok ents : dir_of ents files -> exists s, read_store rsUtil ecK (Some ents) = Ok s /\ stored files s.
Proof.
  intros Hd. destruct (read_dir ents files Hd [] _ eq_refl stored_none) as (s & E & Hs). exists s. split; [|done].
  unfold read_store. cbn [default from_option id]. rewrite E, bind_ok. destruct (st_length _ _ Hs) as [H1 H2].
  by rewrite H1, H2, (st_ips _ _ Hs), length_replicate, Nat.eqb_refl.
Qed.

(** The reports fill the maps as those of HDFS 3. *)
Lemma wait_reports_maps ms rc replies blks h order h' : wait_blks rc replies blks h = Ok h' ->
  exists order', wait_reports ms rc replies blks h order = Ok (h', order').
Proof.
  revert blks h order. induction replies as [|r replies IH]; intros blks h order; [done|]. destruct r; cbn [wait_blks wait_reports]; try done.
  all: try by apply IH.
  destruct (read_uint _ _) as [ip|]; [|done]. rewrite !bind_ok. destruct (negb _); [by apply IH|].
  destruct (report _ _ _ _) as [h1|]; [|done]. rewrite !bind_ok. case_bool_decide; [|by apply IH]. intros [= ->]. by eexists.
Qed.

(** The other blocks of a stripe, for the choice by racks. *)
Definition knows_others (hd : Hdfs) (l : list str) : Prop := forall b, b ∈ l ->
  NoDup (default [] (_blk2All hd !! b)).*1 /\ forall x, x ∈ (default [] (_blk2All hd !! b)).*1 <-> x ∈ l /\ x <> b.

Lemma HDFS_MetadataBase_knows ms ents rs holder : dir_of ents files -> files <> [] -> (1 <= ecK < ecN)%nat ->
  (forall l, l ∈ stripes -> NoDup (holder <$> l)) -> Forall report_fits rs -> (forall b, b ∈ files.*1 -> first_report rs b = Some (holder b)) ->
  exists hd, HDFS_MetadataBase rsUtil ecK ms (Some ents) (reply_of <$> rs) = Ok hd /\ knows rsUtil ecK stripes holder (hd_maps hd) /\
    forall l, l ∈ files.*2 -> knows_others hd l.
Proof.
  intros Hd Hne Hk Hh Hfit Hfirst. destruct (read_store_ok ents Hd) as (s & E & Hs). destruct stripes_facts as (Hdist & Hlen & Hin).
  pose proof (stored_placed s Hs) as Hap. unfold HDFS_MetadataBase. rewrite E, bind_ok.
  destruct (wait_blks_ok rsUtil ecK stripes Hdist holder Hh (so_maps s) (so_recoveree s) Hap rs [] (so_blks s) (so_maps s)) as (h & known & Hw & Hl & Hkn).
  - by eapply learned_none.
  - intros b. rewrite (st_blks _ _ Hs), elem_of_list_to_set, Hin, elem_of_nil. tauto.
  - rewrite (st_blks _ _ Hs). destruct files as [|[b l] fs]; [done|]. intros Eb. apply (not_elem_of_empty (C := gset str) b). rewrite <- Eb.
    apply elem_of_list_to_set. left.
  - done.
  - intros b Hb. apply Hfirst. by rewrite (st_blks _ _ Hs), elem_of_list_to_set in Hb.
  - destruct (wait_reports_maps ms _ _ _ _ ∅ _ Hw) as (order & ->). rewrite bind_ok. eexists. split; [done|]. split.
    2: { intros l Hll b Hb. cbn. rewrite (st_all _ _ Hs b l) by by apply stripe_file. destruct (others_of_in b l []) as [H1 H2]; [constructor|].
         split; [by apply keys_NoDup|]. intros x. rewrite H2. cbn. rewrite elem_of_nil. tauto. }
    by apply (learned_knows rsUtil ecK ecN stripes Hdist Hlen Hk holder (so_maps s) (so_recoveree s) Hap h known).
Qed.
End store.

(** ** The instance *)

Section instance.
Context `{GF : GFComplete} (random_shuffle : nat -> list (Z * str) -> list (Z * str)) (sort : list (str * nat) -> list (str * nat)).
Context (_localIP : Z) (_shuffle _loadbalance : bool) (_rackInfos : gmap Z str) (rsUtil : RSUtil).
Abbreviation ecK := (RSUtil._ecK rsUtil).

(** An [HDFS_MetadataBase] whose maps are [h], for a configuration without
    scheduled helpers; [_rackAware] chooses by racks. *)
Definition hdfs (_rackAware : bool) (h : Hdfs) : MetadataBase := {|
  getStripeBlks b ip :=
    '(ret, _) ← getStripeBlksH ecK _shuffle _rackAware _loadbalance _rackInfos random_shuffle sort h b ip None 0; Ok ret;
  getStripeBlksMul b ip st opt :=
    '(ret, st, _) ← getStripeBlksMulH ecK _localIP _shuffle _rackAware _loadbalance false _rackInfos random_shuffle sort h (_order h) b ip st opt;
    Ok (ret, st);
  Metadata.getCoefficient := getCoefficient3 rsUtil (RSUtil._ecN rsUtil) (hd_maps h);
  getIPfromBlk := getIPfromBlk3 (hd_maps h);
  getAllBlks := getAllBlksH h
|}.
End instance.

Lemma by_name_perm (blks : list (Z * str)) : by_name blks ≡ₚ blks.
Proof.
  unfold by_name. destruct (racks_keys snd blks [] ltac:(constructor)) as [H1 H2]. cbv zeta in *. set (keys := foldl _ [] blks) in *.
  etrans; [|apply (groups_perm snd (fun _ s => s) ltac:(reflexivity) 0 keys.*1 blks)].
  - apply reflexive_eq. f_equal. apply list_eq. intros i. rewrite !list_lookup_fmap.
    destruct (keys.*1 !! i) as [r|] eqn:E.
    + rewrite list_lookup_fmap in E.
      assert (Ez : zip (seq 0 (length keys.*1)) keys.*1 !! i = Some (i, r)).
      { apply lookup_zip_Some. rewrite lookup_seq_lt by (rewrite length_fmap; apply fmap_Some in E as (x & E & _); by eapply lookup_lt_Some).
        by rewrite list_lookup_fmap. }
      rewrite Ez, E. done.
    + rewrite (lookup_ge_None_2 (zip _ _)) by (rewrite length_indexed; by apply lookup_ge_None). rewrite list_lookup_fmap in E. by rewrite E.
  - by apply keys_NoDup.
  - intros it Hit. apply H2. right. by exists it.
Qed.

Section laws.
Context (u : RSUtil) (stripes : list (list str)) (holder : str -> Z) (hd : Hdfs).
Abbreviation k := (RSUtil._ecK u).
Abbreviation n := (RSUtil._ecN u).
Context (Hkn : knows u k stripes holder (hd_maps hd)) (Hk : (1 <= k < n)%nat).
Context (sid : nat) (l : list str) (Hl : stripes !! sid = Some l) (Hn : NoDup l) (Hlen : length l = n) (Hh : NoDup (holder <$> l)).

Lemma all_blks_H f : f ∈ l -> getAllBlksH hd f = getAllBlks3 (hd_maps hd) f.
Proof.
  intros Hf. destruct (kn_helpers _ _ _ _ _ Hkn l f (l_in _ _ _ Hl) Hf) as (s & Hs & _). apply list_elem_of_lookup in Hf as [i Hi].
  unfold getAllBlksH, getAllBlks3. rewrite Hs, bool_decide_true by by eexists. rewrite (proj1 (placed_at u stripes holder _ Hkn sid l Hl i f Hi)). done.
Qed.

Lemma skip_foldl {A} (f : str) (G : A -> str -> A) (bs : list str) (r : A) :
  foldl (fun ret b => if bool_decide (b = f) then ret else G ret b) r bs = foldl G r (List.filter (fun b => bool_decide (b <> f)) bs).
Proof.
  revert r. induction bs as [|b bs IH]; intros r; [done|]. cbn [foldl List.filter]. rewrite IH. by destruct (decide (b = f)) as [->|];
    [rewrite bool_decide_true, (bool_decide_false (f <> f)) by naive_solver|rewrite bool_decide_false, (bool_decide_true (b <> f)) by done].
Qed.

(** The lost blocks at their nodes, that of the client first. *)
Lemma client_first f st (s : list (Z * str)) : (forall b, is_Some (st !! b) <-> b ∈ l) -> st !! f = Some 0 ->
  foldl (fun ret b => if bool_decide (b = f) then ret else ip_insert (default 0 (_blkName2Ip (hd_maps hd) !! b), (b, s)) ret)
    [(holder f, (f, s))] (failed_blks st) ≡ₚ (fun b => (holder b, (b, s))) <$> failed_blks st.
Proof.
  intros Hst Hf. destruct (failed_in st) as [Hfn Hfi]. set (rest := List.filter (fun b => bool_decide (b <> f)) (failed_blks st)).
  assert (Hp : failed_blks st ≡ₚ f :: rest).
  { apply NoDup_Permutation; [done| |].
    - constructor; [|by apply NoDup_ListNoDup, List.NoDup_filter, NoDup_ListNoDup].
      intros Hin. apply list_elem_of_In, filter_In in Hin as [_ Hin]. by apply bool_decide_eq_true in Hin.
    - intros b. assert (Hr : b ∈ rest <-> b ∈ failed_blks st /\ b <> f) by (unfold rest; by rewrite !list_elem_of_In, filter_In, bool_decide_eq_true).
      rewrite elem_of_cons, Hr.
      destruct (decide (b = f)) as [->|]; [|tauto]. apply Hfi in Hf. tauto. }
  assert (Hbl : forall b, b ∈ f :: rest -> b ∈ l) by (intros b Hb; rewrite <- Hp in Hb; apply Hfi in Hb; apply Hst; by eexists).
  assert (Hrn : NoDup (f :: rest)) by by rewrite <- Hp.
  assert (Haddr : forall i b, rest !! i = Some b -> default 0 (_blkName2Ip (hd_maps hd) !! b) = holder b).
  { intros i b Hb. rewrite (kn_ip _ _ _ _ _ Hkn l b (l_in _ _ _ Hl)); [done|]. apply Hbl. right. by eapply list_elem_of_lookup_2. }
  rewrite (skip_foldl f (fun ret b => ip_insert (default 0 (_blkName2Ip (hd_maps hd) !! b), (b, s)) ret)). fold rest.
  rewrite (by_address (fun b => (b, s)) (fun b => default 0 (_blkName2Ip (hd_maps hd) !! b))).
  - rewrite Hp, fmap_cons. cbn [app]. apply reflexive_eq. f_equal. apply list_fmap_ext. intros i b Hb. by rewrite (Haddr i b Hb).
  - rewrite (list_fmap_ext _ holder rest Haddr). cbn [fmap list_fmap app fst].
    exact (addresses holder l Hh (f :: rest) Hrn Hbl).
Qed.

(** The helpers of one lost block, when they are not chosen by racks. *)
Lemma hdfs_helpers random_shuffle sort ip_ _shuffle _loadbalance rackInfos f ip : (forall i s, random_shuffle i s ≡ₚ s) -> f ∈ l ->
  exists blks, Metadata.getStripeBlks (MetadataBase := hdfs random_shuffle sort ip_ _shuffle _loadbalance rackInfos u false hd) f ip = Ok blks /\
    blks ≡ₚ (fun r => (holder r, r)) <$> recovered k l f.
Proof.
  intros Hsh Hf. destruct (all_blks_listed u stripes holder _ Hkn Hk sid l Hl f Hf) as (blks & E & _).
  cbn [Metadata.getStripeBlks hdfs]. unfold getStripeBlksH. rewrite all_blks_H, E, bind_ok by done. cbn [negb]. rewrite bind_ok. cbn [res_of_option].
  eexists. split; [done|]. rewrite schedule_perm by done. by apply (known_helpers u stripes holder _ Hkn Hk sid l Hl Hn).
Qed.

(** The helpers for a client that has lost its own block. *)
Lemma hdfs_own random_shuffle sort ip_ _shuffle _loadbalance rackAware rackInfos f st (alive : list str) : f ∈ l -> (forall b, is_Some (st !! b) <-> b ∈ l) -> st !! f = Some 0 ->
  NoDup alive -> length alive = k -> (forall b, b ∈ alive -> holder b <> holder f /\ exists v, st !! b = Some v /\ v <> 0) ->
  common_helpers (MB := hdfs random_shuffle sort ip_ _shuffle _loadbalance rackInfos u rackAware hd) k l holder f (holder f) st.
Proof.
  intros Hf Hst Hf0 Hal Hkl Halive. destruct (all_blks_listed u stripes holder _ Hkn Hk sid l Hl f Hf) as (blks & E & Hnd & Hin).
  unfold common_helpers. cbn [Metadata.getStripeBlksMul hdfs]. unfold getStripeBlksMulH. rewrite all_blks_H, E, bind_ok by done. cbv zeta.
  change (Z.rem 0 10 =? 0) with true. cbv iota.
  assert (Hlist : forall x, x ∈ blks -> is_Some (st !! x.2)) by (intros x [Hx _]%Hin; by apply Hst).
  assert (Hsel : exists P s, (if (length (failed_blks st) =? 1)%nat then foldl (fun s it => select_single k it s) ([], st) (by_name blks)
      else foldl (fun s it => select_helper k (holder f) it s) ([], st) blks) = (s, st) /\
    length s = k /\ NoDup s.*2 /\ (forall it, it ∈ s -> it.2 ∈ l /\ it.1 = holder it.2 /\ P it = true) /\
    forall it, P it = true -> exists v, st !! it.2 = Some v /\ v <> 0).
  { assert (Hst0 : forall b, default 0 (st !! b) <> 0 <-> exists v, st !! b = Some v /\ v <> 0).
    { intros b. split; [|by intros (v & -> & ?)]. destruct (st !! b) as [v|]; [by exists v|done]. }
    destruct (Nat.eqb_spec (length (failed_blks st)) 1) as [_|_].
    - set (P := fun it : Z * str => negb (default 0 (st !! it.2) =? 0)).
      assert (HP : forall it, P it = true <-> exists v, st !! it.2 = Some v /\ v <> 0) by (intros it; unfold P; by rewrite negb_true_iff, Z.eqb_neq).
      destruct (selected_by u Hk l Hlen P (fun s it => select_single k it s) st (by_name blks)) as (s & Es & Hs); [by rewrite by_name_perm| |].
      { intros x s Hx. rewrite by_name_perm in Hx. destruct (Hlist x Hx) as [v Hv]. unfold select_single, touch, P. rewrite bool_decide_true by by eexists.
        destruct (_ <? _)%nat, (_ =? 0); done. }
      exists P, s. split; [done|]. destruct (chosen_blks u holder Hk l Hlen P (by_name blks) s alive) as (H1 & H2 & H3); try done.
      + by rewrite by_name_perm.
      + intros x. rewrite by_name_perm. apply Hin.
      + intros b Hb. destruct (Halive b Hb) as (_ & v & Hv & Hv0). split; [apply Hst; by eexists|]. apply HP. by exists v.
      + split_and!; [done..|]. intros it. apply HP.
    - set (P := can_help (holder f) st). assert (HP : forall it, P it = true <-> it.1 <> holder f /\ exists v, st !! it.2 = Some v /\ v <> 0).
      { intros it. unfold P, can_help. by rewrite andb_true_iff, !negb_true_iff, !Z.eqb_neq, Hst0. }
      destruct (selected u Hk l Hlen (holder f) st blks Hnd Hlist) as (s & Es & Hs). exists P, s. split; [done|].
      destruct (chosen_blks u holder Hk l Hlen P blks s alive) as (H1 & H2 & H3); try done.
      + intros b Hb. destruct (Halive b Hb) as (Hbf & v & Hv & Hv0). split; [apply Hst; by eexists|]. apply HP. split; [done|]. by exists v.
      + split_and!; [done..|]. intros it Hit%HP. tauto. }
  destruct Hsel as (P & s & -> & Hsl & Hsn & Hsi & HP). rewrite !bind_ok. rewrite (proj2 (Nat.leb_le k (length s))) by lia. cbn [guard_or]. rewrite !bind_ok.
  pose proof (client_first f st s Hst Hf0) as Hp. set (ret := foldl _ _ _) in *. exists s, ret.
  destruct (answered holder l Hh (fun b => (b, s)) ret st Hst Hp) as [Hr1 Hr2]. split_and!; [done|done|done| |done|done].
  intros it Hit. destruct (Hsi it Hit) as (H1 & H2 & H3). destruct (HP it H3) as (v & Hv & Hv0). split_and!; [done|done| |by exists v].
  rewrite H2. intros Eh. apply (holder_inj holder l Hh) in Eh; [|done|done]. rewrite Eh in Hv. congruence.
Qed.
End laws.

(** ** From the stripe store to the laws *)

Section ready.
Context `{GF : GFComplete} {GL : GF8Laws} (talloc : nat -> option (list Z)) (Hta : forall n, exists l, talloc n = Some l /\ length l = n).
Context (random_shuffle : nat -> list (Z * str) -> list (Z * str)) (Hsh : forall i s, random_shuffle i s ≡ₚ s) (sort : list (str * nat) -> list (str * nat)).
Context (_localIP : Z) (_shuffle _loadbalance : bool) (rackInfos : gmap Z str) (k m : nat) (Hk : (0 < k)%nat) (Hm : (0 < m)%nat) (Hkm : (k + m <= 256)%nat).
Context (ents : list (str * str)) (files : list (str * list str)) (rs : list (option (Z * str))) (holder : str -> Z).

(** A stripe store with a file for every block of stripes of [m + k] blocks,
    and reports that reach every block, those of a stripe from different nodes. *)
Record store_ok : Prop := {
  so_dir : dir_of ents files;
  so_files : files_ok (m + k) files;
  so_some : files <> [];
  so_nodes b l : (b, l) ∈ files -> NoDup (holder <$> l);
  so_fits : Forall report_fits rs;
  so_first b : b ∈ files.*1 -> first_report rs b = Some (holder b)
}.

(** The constructor returns, and its maps describe the stripes. *)
Lemma hdfs_known ms : store_ok ->
  exists encMat coefs hd, let u := mkRSUtil k (m + k) encMat coefs in
    reed_sol_vandermonde_coding_matrix talloc k m 8 = Ok (Some encMat) /\ new_RSUtil k (m + k) encMat = u /\
    HDFS_MetadataBase u k ms (Some ents) (reply_of <$> rs) = Ok hd /\
    (length encMat = (k * (m + k - k))%nat /\ Forall is_byte encMat /\ any_rows (k + (m + k - k)) k (generator k encMat)) /\
    knows u k (stripes_of files) holder (hd_maps hd) /\ forall l, l ∈ files.*2 -> knows_others hd l.
Proof.
  intros [Hdir Hfiles Hne Hnodes Hfit Hfirst]. destruct (rsutil_ready talloc Hta k m Hk Hm Hkm) as (C & coefs & HC & Hu & Hl & Hb & HA & Hcoefs).
  rewrite Hu in Hcoefs. destruct (HDFS_MetadataBase_knows (mkRSUtil k (m + k) C coefs) k (m + k) files Hfiles Hcoefs ms ents rs holder) as (hd & E & Hkn & Hoth); try (done || lia).
  { intros l Hin. apply in_stripes_of, list_elem_of_fmap in Hin as ([b l'] & -> & Hin). by eapply Hnodes. }
  exists C, coefs, hd. by split_and!.
Qed.

Lemma stripe_facts b l : store_ok -> (b, l) ∈ files ->
  b ∈ l /\ NoDup l /\ length l = (m + k)%nat /\ NoDup (holder <$> l) /\ exists sid, stripes_of files !! sid = Some l.
Proof.
  intros [Hdir Hfiles Hne Hnodes Hfit Hfirst] Hin. destruct (fi_file _ _ Hfiles b l Hin) as (? & Hn & Hlen & _). split_and!; [done..|by eapply Hnodes|].
  apply list_elem_of_lookup, in_stripes_of, list_elem_of_fmap. by exists (b, l).
Qed.

Lemma hdfs_ready : store_ok ->
  exists encMat hd, reed_sol_vandermonde_coding_matrix talloc k m 8 = Ok (Some encMat) /\
    let u := new_RSUtil k (m + k) encMat in
    HDFS_MetadataBase u k false (Some ents) (reply_of <$> rs) = Ok hd /\
    forall b l size data content, (b, l) ∈ files -> (forall c, (c < k)%nat -> region size (data !!! c)) ->
      (forall i b, l !! i = Some b -> content b = stripe_block k size (complete_enc_mat k (m + k) encMat) data i) ->
      StripeLaws (MB := hdfs random_shuffle sort _localIP _shuffle _loadbalance rackInfos u false hd) k size l holder content.
Proof.
  intros Hok. destruct (hdfs_known false Hok) as (C & coefs & hd & HC & Hu & E & (Hl & Hb & HA) & Hkn & _).
  exists C, hd. split; [done|]. cbv zeta. rewrite Hu. split; [exact E|].
  intros b l size data content Hin Hd Hcont. destruct (stripe_facts b l Hok Hin) as (_ & Hn & Hlen & Hh & sid & Hsid).
  set (u := mkRSUtil k (m + k) C coefs) in *. assert (Hkn' : (1 <= RSUtil._ecK u < RSUtil._ecN u)%nat) by (cbn; lia).
  eapply (maps_laws u (stripes_of files) holder (hd_maps hd) Hkn Hkn' sid l Hsid Hn Hlen) with (data := data); cbn; try done.
  - intros i. by rewrite Hu.
  - intros f ip Hf. by apply (hdfs_helpers u (stripes_of files) holder hd Hkn Hkn' sid l Hsid Hn random_shuffle sort _localIP _shuffle _loadbalance rackInfos).
  - intros f Hf. by apply (all_blks_H u (stripes_of files) holder hd Hkn sid l Hsid).
  - intros f st al Hf Hst Hf0 Hal Hkl Hall. by eapply (hdfs_own u (stripes_of files) holder hd Hkn Hkn' sid l Hsid Hlen Hh) with (alive := al).
Qed.

(** C8: [HDFS_MetadataBase] with the matrix of reed_sol.c, for all [k, m >= 1]
    with [k + m <= 256], only with rack.aware and msscheduling both false, that is
    when helpers are chosen neither by racks nor by use (by racks it does not keep
    the promises: [HdfsChoice.rack_alone], [HdfsChoice.rack_coefs]): with a stripe
    store that has a file for every block of every stripe, in any order of the
    directory, and reports that reach every block, the constructor returns and
    keeps the promises of [StripeLaws] for every stripe: the helpers of a block
    are blocks of its stripe on their nodes, a client that has lost its own block
    gets [k] alive helpers for all the lost blocks, and the coefficients rebuild
    the block from any [k] others, for all data. *)
Theorem hdfs_metadata : store_ok ->
  exists encMat hd, reed_sol_vandermonde_coding_matrix talloc k m 8 = Ok (Some encMat) /\
    let u := new_RSUtil k (m + k) encMat in
    HDFS_MetadataBase u k false (Some ents) (reply_of <$> rs) = Ok hd /\
    forall b l size data content, (b, l) ∈ files -> (forall c, (c < k)%nat -> region size (data !!! c)) ->
      (forall i b, l !! i = Some b -> content b = stripe_block k size (complete_enc_mat k (m + k) encMat) data i) ->
      StripeLaws (MB := hdfs random_shuffle sort _localIP _shuffle _loadbalance rackInfos u false hd) k size l holder content.
Proof. exact hdfs_ready. Qed.
End ready.

(** ** A store of the stripe of Hdfs3Laws.v *)

Definition store_text : str := lit "blk_-9223372036854775790_1:blk_-9223372036854775789_1:blk_-9223372036854775792_2:blk_-9223372036854775791_1".
(** One file has a newline at its end. *)
Definition example_store : list (str * str) :=
  [(lit ".", []); (lit "s:blk_-9223372036854775792_2", store_text); (lit "..", []); (lit "s:blk_-9223372036854775790_1", store_text ++ ["010"%char]);
   (lit ":blk_-9223372036854775791_1", store_text); (lit "s_1:blk_-9223372036854775789_1", store_text)].
Definition example_files : list (str * list str) := (fun b => (b, example_stripe)) <$> [blk_no 92; blk_no 90; blk_no 91; blk_no 89].

Lemma store_file prefix b stamp nl : b ∈ example_stripe -> stamp_ok b stamp -> ":"%char ∉ prefix -> Z.of_nat (length prefix) < npos ->
  nl = [] \/ nl = ["010"%char] -> file_of (prefix ++ ":"%char :: stamped b stamp, store_text ++ nl) (b, example_stripe).
Proof.
  intros Hb Hs Hp Hl Hnl. split; [by exists prefix, stamp|]. exists [lit "1"; lit "1"; lit "2"; lit "1"], nl. split; [|done].
  repeat constructor; try (by intros ?); decided.
Qed.

Lemma example_stamps b stamp : b ∈ example_stripe -> stamp ∈ [lit "1"; lit "2"] -> stamp_ok b stamp.
Proof.
  assert (H : Forall (fun b => Forall (stamp_ok b) [lit "1"; lit "2"]) example_stripe) by (repeat constructor; try (by intros ?); decided).
  intros Hb Hs. rewrite Forall_forall in H. specialize (H b Hb). rewrite Forall_forall in H. by apply H.
Qed.

Lemma example_store_ok : store_ok 2 2 example_store example_files example_reports example_holder.
Proof.
  assert (Hin : forall b l, (b, l) ∈ example_files -> b ∈ example_stripe /\ l = example_stripe).
  { intros b l (b' & [= -> ->] & Hb)%list_elem_of_fmap. split; [|done]. revert b' Hb. apply Forall_forall. decided. }
  assert (Hfile : forall prefix b stamp nl, bool_decide (b ∈ example_stripe /\ stamp ∈ [lit "1"; lit "2"] /\ ":"%char ∉ prefix /\
    Z.of_nat (length prefix) < npos /\ (nl = [] \/ nl = ["010"%char])) = true -> file_of (prefix ++ ":"%char :: stamped b stamp, store_text ++ nl) (b, example_stripe)).
  { intros prefix b stamp nl (? & ? & ? & ? & ?)%bool_decide_eq_true. apply store_file; try done. by apply example_stamps. }
  split.
  - unfold example_store, example_files. apply dir_dot; [by left|]. apply dir_file; [apply (Hfile (lit "s") (blk_no 92) (lit "2") []); by vm_compute|].
    apply dir_dot; [by right|]. apply dir_file; [apply (Hfile (lit "s") (blk_no 90) (lit "1") ["010"%char]); by vm_compute|].
    apply dir_file; [apply (Hfile [] (blk_no 91) (lit "1") []); by vm_compute|].
    apply dir_file; [apply (Hfile (lit "s_1") (blk_no 89) (lit "1") []); by vm_compute|]. apply dir_nil.
  - split; [decided|]. intros b l [Hb ->]%Hin. split_and!; [done|decided|done|]. intros b' Hb'. apply list_elem_of_fmap. exists b'. split; [done|].
    revert b' Hb'. apply Forall_forall. decided.
  - done.
  - intros b l [_ ->]%Hin. vm_compute. decided.
  - apply (li_fits _ _ _ _ _ _ _ example_listing_ok).
  - apply Forall_forall. repeat (apply Forall_cons; split; [vm_compute; reflexivity|]). apply Forall_nil_2.
Qed.

Lemma hdfs_metadata_witness :
  exists encMat hd, reed_sol_vandermonde_coding_matrix (fun n => Some (replicate n 77)) 2 2 8 = Ok (Some encMat) /\
    HDFS_MetadataBase (new_RSUtil 2 4 encMat) 2 false (Some example_store) (reply_of <$> example_reports) = Ok hd /\
    getIPfromBlk3 (hd_maps hd) (blk_no 92) = Ok 1.
Proof.
  destruct (hdfs_metadata (fun n => Some (replicate n 77)) ltac:(intros n; eexists; split; [reflexivity|apply length_replicate])
    (fun _ l => l) ltac:(reflexivity) (fun l => l) 0 false false ∅ 2 2 ltac:(lia) ltac:(lia) ltac:(lia) example_store example_files example_reports
    example_holder example_store_ok) as (encMat & hd & H1 & H2 & H3).
  exists encMat, hd. split; [exact H1|]. split; [exact H2|].
  set (rows := complete_enc_mat 2 (2 + 2) encMat) in *. set (data := [[5; 7; 255]; [9; 1; 0]]).
  specialize (H3 (blk_no 92) example_stripe 3%nat data
    (contents example_stripe 2 3 rows data)).
  destruct H3 as [_ _ _ H3 _ _ _].
  - left.
  - intros [|[|c]] Hc; [split; [reflexivity|decided]..|lia].
  - intros i b Hi. apply contents_at; [decided|done].
  - apply (H3 (blk_no 92)). decided.
Defined.

(** ** A store whose files do not name their blocks *)

Lemma others_parsed ecK b new sid l stamps p : Forall2 stamp_ok l stamps -> b ∉ l ->
  exists p', for_each (zip_with stamped l stamps) (read_name ecK b new sid) p = Ok p' /\ bidInStripe p' = bidInStripe p.
Proof.
  intros Hs. revert p. induction Hs as [|x stamp l stamps Hx Hs IH]; intros p Hb; [by exists p|]. apply not_elem_of_cons in Hb as [Hne Hb].
  assert (H1 : exists p1, read_name ecK b new sid (stamped x stamp) p = Ok p1 /\ bidInStripe p1 = bidInStripe p).
  { unfold read_name. rewrite no_stamp_ok, bind_ok by done. cbv zeta. rewrite bool_decide_true by done. by eexists. }
  destruct H1 as (p1 & E1 & <-). cbn [zip_with for_each]. rewrite E1, bind_ok. by apply IH.
Qed.

(** C40: a file of the stripe store whose text is a stripe without the block the
    file is named after: the place of the block is never set, and the
    constructor uses it, whatever was read before. *)
Theorem unlisted_block `{GF : GFComplete} rsUtil ecK ms before ent after s name b l stamps replies :
  for_each before (read_entry rsUtil ecK) (mkStore (mkHdfs3 ∅ ∅ ∅ ∅ [] [] ∅) ∅ ∅ ∅ 0) = Ok s ->
  ent.1 <> lit "." -> ent.1 <> lit ".." -> substr ent.1 ((find ent.1 (lit ":") 0 + 1) mod 2^64) npos = Ok name -> no_stamp name = Ok b ->
  l <> [] -> Forall2 stamp_ok l stamps -> ent.2 = join ":"%char (zip_with stamped l stamps) -> b ∉ l ->
  HDFS_MetadataBase rsUtil ecK ms (Some (before ++ ent :: after)) replies = Fault Undef.
Proof.
  intros Hbefore Hd1 Hd2 Hname Hblk Hne Hst Htext Hb. unfold HDFS_MetadataBase, read_store. cbn [default from_option id].
  rewrite for_each_app, Hbefore, bind_ok. cbn [for_each]. destruct ent as [d_name raw]. cbn [fst snd] in *.
  assert (E : read_entry rsUtil ecK (d_name, raw) s = Fault Undef); [|by rewrite E].
  unfold read_entry. rewrite !bool_decide_false by done. cbn [orb]. rewrite Hname, bind_ok, Hblk, bind_ok. cbv zeta.
  destruct (stripe_text l stamps [] Hne Hst ltac:(by left)) as (back & Hback & Hfields). cbv zeta in *. rewrite app_nil_r, <- Htext in Hback, Hfields.
  rewrite Hback. cbn [res_of_option]. rewrite bind_ok, Hfields.
  match goal with |- context [for_each _ (read_name _ _ ?new ?sid) ?p] => destruct (others_parsed ecK b new sid l stamps p Hst Hb) as (p' & -> & Hp') end.
  rewrite bind_ok, Hp'. done.
Qed.

(** The stripe store in the repository, whose format the default configuration
    shares with HDFS: the name of the first file is that of no block. *)
Definition shipped_text : str := lit "file_m1_1002:file_k1_1001:file_k2_1001:file_k3_1001".
Definition shipped_store : list (str * str) :=
  (fun n => (n, shipped_text)) <$> [lit "rs_file_k1_1001"; lit "rs_file_k2_1001"; lit "rs_file_k3_1001"; lit "rs_file_m1_1002"].

Lemma unlisted_block_witness : HDFS_MetadataBase (new_RSUtil 3 4 [1; 1; 1]) 3 false (Some shipped_store) [] = Fault Undef.
Proof.
  apply (unlisted_block (new_RSUtil 3 4 [1; 1; 1]) 3 false [] (lit "rs_file_k1_1001", shipped_text) ((fun n => (n, shipped_text)) <$> [lit "rs_file_k2_1001"; lit "rs_file_k3_1001"; lit "rs_file_m1_1002"])
    (mkStore (mkHdfs3 ∅ ∅ ∅ ∅ [] [] ∅) ∅ ∅ ∅ 0) (lit "rs_file_k1_1001") (lit "rs_file_k1") [lit "file_m1"; lit "file_k1"; lit "file_k2"; lit "file_k3"] [lit "1002"; lit "1001"; lit "1001"; lit "1001"] []).
  - reflexivity.
  - discriminate.
  - discriminate.
  - vm_compute. reflexivity.
  - vm_compute. reflexivity.
  - discriminate.
  - repeat constructor; try (by intros ?); decided.
  - vm_compute. reflexivity.
  - decided.
Defined.
