(* ===== verification/HdfsChoice.v ===== *)
(** * The choice of helpers of HDFS (HDFS_MetadataBase.cc)

    [getStripeBlks] by racks: the helpers of the requestor's rack, then racks
    from the largest until there are enough, which touches as few racks as can
    be.  [getScheduledBlks]: the nodes that have helped least. *)
From Stdlib Require Import Ascii Sorted.
From stdpp Require Import strings sorting.
From S2P Require Import Prelude Command Text Config Galois GF256 Jerasure Gauss Vandermonde ReedSol Encode RSUtil Metadata DrCmd Request Hdfs3 Hdfs3Laws Hdfs HdfsLaws.

(** ** Groups *)

Lemma rack_blks_cons g m r : rack_blks (g :: m) r = if decide (g.1 = r) then g.2 else rack_blks m r.
Proof. unfold rack_blks. cbn [List.find]. destruct (decide (g.1 = r)); [by rewrite bool_decide_true|by rewrite bool_decide_false]. Qed.

Lemma rack_blks_none m r : r ∉ m.*1 -> rack_blks m r = [].
Proof.
  induction m as [|g m IH]; intros Hr; [done|]. rewrite fmap_cons in Hr. apply not_elem_of_cons in Hr as [Hne Hr].
  rewrite rack_blks_cons, decide_False; [by apply IH|done].
Qed.

Lemma map_push_ok r0 (b : str) (m : list (str * list str)) : keys_sorted m.*1 -> Forall (fun g => g.2 <> []) m ->
  keys_sorted (map_push r0 b m).*1 /\ Forall (fun g => g.2 <> []) (map_push r0 b m) /\
  (forall r, r ∈ (map_push r0 b m).*1 <-> r = r0 \/ r ∈ m.*1) /\
  forall r, rack_blks (map_push r0 b m) r = if decide (r = r0) then rack_blks m r ++ [b] else rack_blks m r.
Proof.
  induction m as [|g m IH]; intros Hs Hall.
  - cbn [map_push]. split_and!; [repeat constructor|by repeat constructor|intros r; cbn; by rewrite list_elem_of_singleton, elem_of_nil; naive_solver|].
    intros r. rewrite rack_blks_cons. cbn [fst snd]. destruct (decide (r = r0)) as [->|Hne]; [by rewrite decide_True|by rewrite decide_False].
  - rewrite fmap_cons in Hs. pose proof Hs as Hs0. apply StronglySorted_inv in Hs as [Hs Hlt]. apply Forall_cons in Hall as [Hg Hall]. cbn [map_push].
    destruct (str_lt r0 g.1) eqn:E1; [|destruct (str_lt g.1 r0) eqn:E2].
    + split_and!; [|by repeat constructor|intros r; rewrite !fmap_cons, elem_of_cons; done|].
      * rewrite !fmap_cons. constructor; [done|]. constructor; [done|]. eapply Forall_impl; [exact Hlt|]. intros q. by apply str_lt_trans.
      * intros r. rewrite rack_blks_cons. cbn [fst snd]. destruct (decide (r = r0)) as [->|Hne]; [|by rewrite decide_False].
        rewrite decide_True, rack_blks_none; [done| |done]. rewrite fmap_cons. intros [->|Hin]%elem_of_cons; [by rewrite str_lt_irrefl in E1|].
        rewrite Forall_forall in Hlt. specialize (Hlt _ Hin). pose proof (str_lt_trans _ _ _ E1 Hlt) as Hx. by rewrite str_lt_irrefl in Hx.
    + destruct (IH Hs Hall) as (I1 & I2 & I3 & I4). split_and!; [|by constructor| |].
      * rewrite fmap_cons. constructor; [done|]. apply Forall_forall. intros q [->|Hq]%I3; [done|]. rewrite Forall_forall in Hlt. by apply Hlt.
      * intros r. rewrite !fmap_cons, !elem_of_cons, I3. tauto.
      * intros r. rewrite !rack_blks_cons, I4. destruct (decide (g.1 = r)) as [<-|]; [|done]. rewrite decide_False; [done|].
        intros Eg. rewrite Eg, str_lt_irrefl in E2. done.
    + assert (r0 = g.1) as -> by (by apply str_lt_total). split_and!; [by rewrite fmap_cons|constructor; [by destruct g.2|done]| |].
      * intros r. rewrite !fmap_cons, !elem_of_cons. cbn. tauto.
      * intros r. rewrite !rack_blks_cons. cbn [fst snd]. destruct (decide (g.1 = r)) as [->|Hne]; [by rewrite decide_True|by rewrite decide_False by done].
Qed.

Lemma map_pushes_ok (rk : str -> str) (bs : list str) (m : list (str * list str)) : keys_sorted m.*1 -> Forall (fun g => g.2 <> []) m ->
  let m' := foldl (fun m b => map_push (rk b) b m) m bs in
  keys_sorted m'.*1 /\ Forall (fun g => g.2 <> []) m' /\ (forall r, r ∈ m'.*1 <-> r ∈ m.*1 \/ exists b, b ∈ bs /\ rk b = r) /\
  forall r, rack_blks m' r = rack_blks m r ++ List.filter (fun b => bool_decide (rk b = r)) bs.
Proof.
  revert m. induction bs as [|b bs IH]; intros m Hs Hall; cbn [foldl].
  - split_and!; [done|done| |intros r; by rewrite app_nil_r]. intros r. split; [auto|]. by intros [|(? & ?%not_elem_of_nil & _)].
  - destruct (map_push_ok (rk b) b m Hs Hall) as (P1 & P2 & P3 & P4). destruct (IH _ P1 P2) as (I1 & I2 & I3 & I4). split_and!; [done|done| |].
    + intros r. rewrite I3, P3. setoid_rewrite elem_of_cons. split.
      * intros [[->|]|(b' & ? & ?)]; [right; exists b; auto|auto|right; exists b'; auto].
      * intros [|(b' & [->|] & <-)]; [auto|auto|right; exists b'; auto].
    + intros r. rewrite I4, P4. cbn [List.filter]. destruct (decide (r = rk b)) as [->|Hne].
      * rewrite bool_decide_true by done. by rewrite <- app_assoc.
      * by rewrite bool_decide_false by done.
Qed.

(** ** The largest racks first *)

Abbreviation total := (sum_list_with (A := str * nat) snd).

Lemma total_perm (s t : list (str * nat)) : s ≡ₚ t -> total s = total t.
Proof. induction 1; cbn; lia. Qed.

Lemma largest_first (rs t : list (str * nat)) : StronglySorted (fun a b => (b.2 <= a.2)%nat) rs -> t ⊆+ rs ->
  (total t <= total (take (length t) rs))%nat.
Proof.
  revert t. induction rs as [|x rs IH]; intros t Hs Ht.
  - by apply submseteq_nil_r in Ht as ->.
  - apply StronglySorted_inv in Hs as [Hs Hx]. apply submseteq_cons_r in Ht as [Ht|(t' & Ht' & Ht)].
    + destruct t as [|y t]; [cbn; lia|]. apply submseteq_cons_l in Ht as (k' & Hk & Ht). rewrite Forall_forall in Hx.
      assert (Hy : (y.2 <= x.2)%nat) by (apply Hx; rewrite Hk; left).
      assert (Ht2 : t ⊆+ rs) by (rewrite Hk; by apply submseteq_cons). specialize (IH t Hs Ht2). cbn. lia.
    + specialize (IH t' Hs Ht). rewrite (total_perm _ _ Ht'), (Permutation_length Ht'). cbn. lia.
Qed.

(** ** The balanced plan *)

Section plan.
Context (ecK : nat) (rl : list (str * nat)) (Hn : NoDup rl.*1).
Abbreviation taken plan := (fun it : str * nat => default 0%nat (plan !! it.1)).

(** [counter] blocks are planned, none beyond a rack. *)
Definition planned (plan : gmap str nat) (counter : nat) : Prop :=
  sum_list_with (taken plan) rl = counter /\ (counter <= ecK)%nat /\ forall it, it ∈ rl -> (taken plan it <= it.2)%nat.

Lemma plan_more it plan counter : it ∈ rl -> planned plan counter -> (counter < ecK)%nat -> (taken plan it < it.2)%nat ->
  planned (<[it.1 := S (taken plan it)]> plan) (S counter).
Proof.
  intros Hit (Hs & Hle & Hcap) Hlt Hmore. split; [|split; [lia|]].
  - rewrite <- Hs. clear Hs Hcap Hle. revert it Hit Hmore. induction rl as [|x l IH]; intros it Hit Hmore; [by apply not_elem_of_nil in Hit|].
    rewrite fmap_cons in Hn. apply NoDup_cons in Hn as [Hx Hn']. cbn. apply elem_of_cons in Hit as [->|Hit].
    + rewrite lookup_insert_eq. cbn. assert (E : forall l : list (str * nat), x.1 ∉ l.*1 -> sum_list_with (taken (<[x.1 := S (taken plan x)]> plan)) l = sum_list_with (taken plan) l).
      { clear. induction l as [|y l IH]; intros Hx; [done|]. rewrite fmap_cons in Hx. apply not_elem_of_cons in Hx as [Hne Hx]. cbn. by rewrite lookup_insert_ne, IH. }
      rewrite E by done. lia.
    + specialize (IH Hn' it Hit Hmore). cbn in IH. rewrite IH. rewrite lookup_insert_ne; [lia|]. intros E. apply Hx. rewrite <- E. apply list_elem_of_fmap. by exists it.
  - intros x Hx. destruct (decide (x.1 = it.1)) as [E|Hne].
    + assert (x = it) as ->; [|rewrite lookup_insert_eq; cbn; lia]. apply list_elem_of_lookup in Hx as [i Hx], Hit as [j Hit].
      assert (i = j) as ->; [|congruence]. eapply (NoDup_lookup rl.*1); [done|rewrite list_lookup_fmap, Hx; done|rewrite list_lookup_fmap, Hit; cbn; by rewrite E].
    + rewrite lookup_insert_ne by done. by apply Hcap.
Qed.

(** A pass that has not reached [ecK] plans more, if it can. *)
Lemma sched_pass_ok plan counter : planned plan counter -> (counter < ecK)%nat -> (ecK <= total rl)%nat ->
  exists plan' counter' stop, sched_pass ecK rl plan counter = (plan', counter', stop) /\ planned plan' counter' /\ (counter < counter')%nat.
Proof.
  intros Hp Hlt Htot.
  assert (H : forall l pre plan' counter' (stop : bool), rl = pre ++ l -> planned plan' counter' -> (if stop then counter' = ecK else counter' < ecK)%nat ->
    (counter < counter')%nat \/ (counter' = counter /\ plan' = plan /\ stop = false /\ Forall (fun it => taken plan it = it.2) pre) ->
    exists plan2 counter2 stop2, foldl (fun '(plan, counter, stop) it =>
      if stop : bool then (plan, counter, stop) else
      let n := default 0%nat (plan !! it.1) in
      if (n <? it.2)%nat then (<[it.1 := S n]> plan, S counter, (S counter =? ecK)%nat) else (plan, counter, false)) (plan', counter', stop) l =
      (plan2, counter2, stop2) /\ planned plan2 counter2 /\
      ((counter < counter2)%nat \/ (counter2 = counter /\ Forall (fun it => taken plan it = it.2) rl))).
  { induction l as [|it l IH]; intros pre plan' counter' stop E Hpl Hst Hor; cbn [foldl].
    - exists plan', counter', stop. split_and!; [done|done|]. rewrite app_nil_r in E. destruct Hor as [|(? & _ & _ & ?)]; [by left|right]. by rewrite E.
    - assert (E2 : rl = (pre ++ [it]) ++ l) by by rewrite <- app_assoc. destruct stop.
      { destruct Hor as [Hor|(_ & _ & ? & _)]; [|done]. apply (IH (pre ++ [it])); auto. }
      assert (Hin : it ∈ rl) by (rewrite E; apply elem_of_app; right; left). cbv zeta. destruct (Nat.ltb_spec (taken plan' it) it.2) as [Hm|Hm].
      + apply (IH (pre ++ [it])); [done|by apply plan_more| |left; destruct Hor as [|(-> & _)]; lia].
        destruct (Nat.eqb_spec (S counter') ecK); lia.
      + apply (IH (pre ++ [it])); [done..|]. destruct Hor as [|(-> & -> & _ & Hall)]; [by left|right]. split_and!; [done..|].
        apply Forall_app. split; [done|]. constructor; [|done]. destruct Hpl as (_ & _ & Hcap). specialize (Hcap it Hin). cbn in *. lia. }
  destruct (H rl [] plan counter false) as (p2 & c2 & s2 & E & Hp2 & Hor); [done..|by right|].
  exists p2, c2, s2. split_and!; [exact E|done|]. destruct Hor as [|[-> Hfull]]; [done|]. exfalso.
  destruct Hp as (Hs & _ & _). assert (Ht : sum_list_with (taken plan) rl = total rl); [|lia].
  clear - Hfull. induction Hfull as [|x l Hx _ IH]; [done|]. cbn in *. by rewrite Hx, IH.
Qed.

Lemma sched_plan_ok fuel plan counter : planned plan counter -> (ecK <= total rl)%nat -> (ecK - counter <= fuel)%nat ->
  exists plan', sched_plan ecK fuel rl plan counter = Ok plan' /\ planned plan' ecK.
Proof.
  revert plan counter. induction fuel as [|fuel IH]; intros plan counter Hp Htot Hf; cbn [sched_plan]; destruct (Nat.leb_spec ecK counter) as [Hle|Hlt].
  all: try (exists plan; split; [done|]; assert (counter = ecK) as <-; [destruct Hp as (_ & ? & _); lia|done]).
  - lia.
  - destruct (sched_pass_ok plan counter Hp Hlt Htot) as (p2 & c2 & s2 & -> & Hp2 & Hmore). apply IH; [done..|lia].
Qed.
End plan.

(** ** The choice *)

Section racks.
Context (ecK : nat) (_loadbalance : bool) (_rackInfos : gmap Z str) (sort : list (str * nat) -> list (str * nat)) (h : Hdfs) (f : str).
Context (Hsort : forall s, sort s ≡ₚ s /\ StronglySorted (fun a b => (b.2 <= a.2)%nat) (sort s)).
Abbreviation ip b := (default 0 (_blkName2Ip (hd_maps h) !! b)).
Abbreviation rk b := (default [] (_rackInfos !! ip b)).
Abbreviation others := ((default [] (_blk2All h !! f)).*1).
Abbreviation racks := (stripeAll2Rack _rackInfos h f).
Abbreviation with_ip := (fmap (fun b : str => (ip b, b))).
Context (Hothers : NoDup others).

Lemma racks_facts : NoDup racks.*1 /\ (forall r, r ∈ racks.*1 <-> exists b, b ∈ others /\ rk b = r) /\
  (forall r, rack_blks racks r = List.filter (fun b => bool_decide (rk b = r)) others) /\ forall g, g ∈ racks -> g.2 = rack_blks racks g.1.
Proof.
  destruct (map_pushes_ok (fun b => rk b) others [] ltac:(constructor) ltac:(constructor)) as (H1 & H2 & H3 & H4). cbv zeta in *.
  fold (stripeAll2Rack _rackInfos h f) in *. pose proof (keys_NoDup _ H1) as Hn. split_and!; [done| |intros r; apply H4|].
  - intros r. rewrite H3. cbn. rewrite elem_of_nil. tauto.
  - clear - Hn. generalize (stripeAll2Rack _rackInfos h f) Hn. clear Hn. intros m Hn g. induction m as [|g' m IH]; [by intros ?%not_elem_of_nil|].
    rewrite fmap_cons in Hn. apply NoDup_cons in Hn as [Hg Hn]. rewrite rack_blks_cons. intros [->|Hin]%elem_of_cons; [by rewrite decide_True|].
    rewrite decide_False; [by apply IH|]. intros E. apply Hg. rewrite E. apply list_elem_of_fmap. by exists g.
Qed.

Lemma in_rack r b : b ∈ rack_blks racks r <-> b ∈ others /\ rk b = r.
Proof. destruct racks_facts as (_ & _ & -> & _). by rewrite !list_elem_of_In, filter_In, bool_decide_eq_true. Qed.

Lemma NoDup_rack r : NoDup (rack_blks racks r).
Proof. destruct racks_facts as (_ & _ & -> & _). apply NoDup_ListNoDup, List.NoDup_filter. by apply NoDup_ListNoDup. Qed.

(** The racks are taken until no block is missing, and [it] stays inside when
    there are enough. *)
Lemma choose_racks_ok rs remain cr cb : Forall (fun it => it.2 = length (rack_blks racks it.1)) rs -> remain <= Z.of_nat (total rs) ->
  exists j, choose_racks h racks rs remain cr cb = Ok (cr ++ take j rs, cb ++ concat ((fun it => with_ip (rack_blks racks it.1)) <$> take j rs)) /\
    (j <= length rs)%nat /\ remain <= Z.of_nat (total (take j rs)) /\ forall i, (i < j)%nat -> Z.of_nat (total (take i rs)) < remain.
Proof.
  revert remain cr cb. induction rs as [|it rs IH]; intros remain cr cb Hall Hr; cbn [choose_racks].
  - exists 0%nat. cbn in Hr. rewrite (proj2 (Z.leb_le _ _)) by lia. cbn. rewrite !app_nil_r. split_and!; [done|lia|lia|lia].
  - apply Forall_cons in Hall as [Hit Hall]. cbn in Hr. destruct (Z.leb_spec remain 0) as [Hle|Hgt].
    { exists 0%nat. cbn. rewrite !app_nil_r. split_and!; [done|lia|lia|lia]. }
    destruct (IH (remain - Z.of_nat it.2) (cr ++ [it]) (cb ++ with_ip (take it.2 (rack_blks racks it.1))) Hall) as (j & E & H1 & H2 & H3); [lia|].
    exists (S j). rewrite E. cbn [take]. rewrite fmap_cons. cbn [concat]. rewrite (take_ge (rack_blks _ _)) by lia. rewrite <- !app_assoc. cbn.
    split_and!; [done|lia|lia|]. intros [|i] Hi; cbn; [lia|]. specialize (H3 i ltac:(lia)). lia.
Qed.

(** Some blocks of some racks. *)
Lemma rack_parts (c : str * nat -> nat) rl : NoDup rl.*1 -> let ret := concat ((fun it => with_ip (take (c it) (rack_blks racks it.1))) <$> rl) in
  NoDup ret.*2 /\ (forall x, x ∈ ret -> x.2 ∈ others /\ x.1 = ip x.2 /\ rk x.2 ∈ rl.*1) /\
  length ret = sum_list_with (fun it => Nat.min (c it) (length (rack_blks racks it.1))) rl.
Proof.
  induction rl as [|it rl IH]; intros Hn; [split_and!; [constructor|by intros x ?%not_elem_of_nil|done]|].
  rewrite fmap_cons in Hn. apply NoDup_cons in Hn as [Hit Hn]. destruct (IH Hn) as (I1 & I2 & I3). cbv zeta in *. rewrite fmap_cons. cbn [concat]. set (rest := concat _) in *.
  assert (Hin : forall x, x ∈ with_ip (take (c it) (rack_blks racks it.1)) -> x.2 ∈ others /\ x.1 = ip x.2 /\ rk x.2 = it.1).
  { intros x (b & -> & Hb)%list_elem_of_fmap. apply elem_of_take in Hb as (i & Hb%list_elem_of_lookup_2 & _). apply in_rack in Hb as [? ?]. done. }
  split_and!.
  - rewrite fmap_app. apply NoDup_app. split_and!; [| |done].
    + rewrite <- list_fmap_compose, (list_fmap_ext _ id), list_fmap_id by done. eapply sublist_NoDup; [apply NoDup_rack|apply sublist_take].
    + intros b (x & -> & Hx)%list_elem_of_fmap (y & Ey & Hy)%list_elem_of_fmap. apply Hin in Hx as (_ & _ & Hx). apply I2 in Hy as (_ & _ & Hy).
      rewrite <- Ey, Hx in Hy. done.
  - intros x [Hx|Hx]%elem_of_app; rewrite fmap_cons, elem_of_cons; [apply Hin in Hx as (? & ? & ?)|apply I2 in Hx as (? & ? & ?)]; tauto.
  - rewrite length_app, I3, length_fmap, length_take. done.
Qed.

Lemma count_blks bs (T : list str) : NoDup bs -> (forall b, b ∈ bs -> b ∈ others /\ rk b ∈ T) ->
  (length bs <= sum_list_with (fun r => length (rack_blks racks r)) T)%nat.
Proof.
  intros Hn Hin. assert (Hsub : bs ⊆+ concat ((fun r => rack_blks racks r) <$> T)).
  { apply NoDup_submseteq; [done|]. intros b Hb. destruct (Hin b Hb) as [Ho Hr]. apply list_elem_of_In, in_concat. exists (rack_blks racks (rk b)).
    split; apply list_elem_of_In; [|by apply in_rack]. apply list_elem_of_fmap. by exists (rk b). }
  apply submseteq_length in Hsub. assert (E : forall T, length (concat ((fun r => rack_blks racks r) <$> T)) = sum_list_with (fun r => length (rack_blks racks r)) T).
  { induction T0 as [|r T0 IH]; [done|]. rewrite fmap_cons. cbn. by rewrite length_app, IH. }
  by rewrite E in Hsub.
Qed.

Context (requestorIP : Z).
Abbreviation reqrack := (default [] (_rackInfos !! requestorIP)).
Abbreviation mine := (rack_blks racks reqrack).
Abbreviation sizes := (sort ((fun g => (g.1, length g.2)) <$> List.filter (fun g => bool_decide (g.1 <> reqrack)) racks)).

Lemma sizes_facts : NoDup sizes.*1 /\ StronglySorted (fun a b => (b.2 <= a.2)%nat) sizes /\
  forall x, x ∈ sizes <-> x.1 ∈ racks.*1 /\ x.1 <> reqrack /\ x.2 = length (rack_blks racks x.1).
Proof.
  destruct (Hsort ((fun g => (g.1, length g.2)) <$> List.filter (fun g => bool_decide (g.1 <> reqrack)) racks)) as [Hp Hs].
  destruct racks_facts as (Hn & _ & _ & Hg). split; [|split; [done|]].
  - rewrite Hp, <- list_fmap_compose. cbn. apply (sublist_NoDup _ racks.*1 Hn). generalize racks. induction l as [|g l IH]; [done|].
    cbn. case_bool_decide; by constructor.
  - intros x. rewrite Hp, list_elem_of_fmap. split.
    + intros (g & -> & Hin). apply list_elem_of_In, filter_In in Hin as [Hin%list_elem_of_In Hne%bool_decide_eq_true]. cbn. split_and!; [|done|by rewrite (Hg g Hin)].
      apply list_elem_of_fmap. by exists g.
    + intros (Hin & Hne & Hx). apply list_elem_of_fmap in Hin as (g & E & Hin). exists g. split.
      * destruct x as [r n]. cbn in *. subst r. rewrite Hx. by rewrite (Hg g Hin).
      * apply list_elem_of_In, filter_In. split; [by apply list_elem_of_In|]. apply bool_decide_eq_true. congruence.
Qed.

(** The racks of some blocks. *)
Definition racks_of (bs : list str) : gset str := list_to_set ((fun b => rk b) <$> bs).

(** Any other choice needs as many racks. *)
Lemma few_racks j bs : (forall i, (i < j)%nat -> Z.of_nat (total (take i sizes)) < Z.of_nat ecK - Z.of_nat (length mine)) ->
  NoDup bs -> (forall b, b ∈ bs -> b ∈ others) -> length bs = ecK -> (j <= size (racks_of bs ∖ {[ reqrack ]}))%nat.
Proof.
  intros Hj Hn Hin Hlen. destruct sizes_facts as (_ & Hs & Hx). destruct racks_facts as (_ & Hr & _ & _).
  set (T := elements (racks_of bs ∖ {[ reqrack ]})).
  assert (HT : forall r, r ∈ T <-> (exists b, b ∈ bs /\ rk b = r) /\ r <> reqrack).
  { intros r. unfold T, racks_of. rewrite elem_of_elements, elem_of_difference, elem_of_list_to_set, elem_of_singleton, list_elem_of_fmap. naive_solver. }
  change (size (racks_of bs ∖ {[reqrack]})) with (length T). destruct (decide (length T < j)%nat) as [Hlt|]; [|lia]. exfalso.
  set (items := (fun r => (r, length (rack_blks racks r))) <$> T).
  assert (Hit : items ⊆+ sizes).
  { apply NoDup_submseteq.
    - apply NoDup_fmap_2; [by intros ?? [= ->]|apply NoDup_elements].
    - intros x (r & -> & [(b & Hb & <-) Hne]%HT)%list_elem_of_fmap. apply Hx. cbn. split_and!; [|done|done]. apply Hr. exists b. auto. }
  pose proof (largest_first sizes items Hs Hit) as Hle. unfold items in Hle at 2. rewrite length_fmap in Hle. specialize (Hj (length T) Hlt).
  pose proof (count_blks bs (reqrack :: T) Hn) as Hc. cbn in Hc.
  assert (E : forall T, total ((fun r => (r, length (rack_blks racks r))) <$> T) = sum_list_with (fun r => length (rack_blks racks r)) T)
    by (induction T0 as [|r T0 IH]; [done|]; rewrite fmap_cons; cbn; by rewrite IH).
  unfold items in Hle. rewrite E in Hle. rewrite Hlen in Hc. apply (Nat.lt_irrefl ecK). eapply Nat.le_lt_trans; [apply Hc|lia].
  intros b Hb. split; [by apply Hin|]. destruct (decide (rk b = reqrack)) as [->|Hne]; [left|right]. apply HT. split; [by exists b|done].
Qed.

(** What the choice by racks gives. *)
Definition rack_choice (ret : list (Z * str)) : Prop :=
  length ret = ecK /\ NoDup ret.*2 /\ (forall x, x ∈ ret -> x.2 ∈ others /\ x.1 = ip x.2) /\
  forall bs, NoDup bs -> (forall b, b ∈ bs -> b ∈ others) -> length bs = ecK ->
    (size (racks_of ret.*2 ∖ {[ reqrack ]}) <= size (racks_of bs ∖ {[ reqrack ]}))%nat.

(** Helpers from the requestor's rack and the racks taken. *)
Lemma from_racks j ret : (forall i, (i < j)%nat -> Z.of_nat (total (take i sizes)) < Z.of_nat ecK - Z.of_nat (length mine)) ->
  length ret = ecK -> NoDup ret.*2 -> (forall x, x ∈ ret -> x.2 ∈ others /\ x.1 = ip x.2 /\ (rk x.2 = reqrack \/ rk x.2 ∈ (take j sizes).*1)) -> rack_choice ret.
Proof.
  intros Hj Hl Hn Hin. split_and!; [done|done|intros x Hx; apply Hin in Hx; tauto|]. intros bs Hbn Hbo Hbl.
  etrans; [|by apply (few_racks j bs)]. trans (size (list_to_set (take j sizes).*1 : gset str)).
  - apply subseteq_size. intros r [Hr Hne]%elem_of_difference. rewrite elem_of_singleton in Hne. unfold racks_of in Hr. rewrite elem_of_list_to_set in *.
    apply list_elem_of_fmap in Hr as (b & -> & (x & -> & Hx)%list_elem_of_fmap). destruct (Hin x Hx) as (_ & _ & [E|]); [congruence|done].
  - destruct sizes_facts as (Hsn & _). rewrite size_list_to_set by (rewrite fmap_take; eapply sublist_NoDup; [exact Hsn|apply sublist_take]).
    rewrite length_fmap, length_take. lia.
Qed.

(** The balanced choice among some racks. *)
Lemma balanced cr : NoDup cr.*1 -> Forall (fun it => it.2 = length (rack_blks racks it.1)) cr -> (ecK <= total cr)%nat ->
  exists plan, sched_plan ecK ecK cr ((fun _ => 0%nat) <$> list_to_map (M := gmap str nat) cr) 0 = Ok plan /\
    let ret := concat ((fun it => with_ip (take (default 0%nat (plan !! it.1)) (rack_blks racks it.1))) <$> cr) in
    length ret = ecK /\ NoDup ret.*2 /\ forall x, x ∈ ret -> x.2 ∈ others /\ x.1 = ip x.2 /\ rk x.2 ∈ cr.*1.
Proof.
  intros Hn Hall Htot. destruct (sched_plan_ok ecK cr Hn ecK ((fun _ => 0%nat) <$> list_to_map cr) 0) as (plan & E & Hs & _ & Hcap); [|done|lia|].
  - assert (Hz : forall it : str * nat, default 0%nat (((fun _ => 0%nat) <$> list_to_map (M := gmap str nat) cr) !! it.1) = 0%nat).
    { intros it. rewrite lookup_fmap. by destruct (_ !! it.1). }
    split_and!; [|lia|intros it _; rewrite Hz; lia]. clear - Hz. generalize cr at 2. intros l. induction l as [|x l IH]; [done|]. cbn in *. by rewrite Hz, IH.
  - exists plan. split; [done|]. destruct (rack_parts (fun it => default 0%nat (plan !! it.1)) cr Hn) as (P1 & P2 & P3). cbv zeta in *. split_and!; [|done|done].
    rewrite P3, <- Hs. clear - Hcap Hall. induction Hall as [|x l Hx _ IH]; [done|]. cbn in *. rewrite IH by (intros it Hit; apply Hcap; by right).
    specialize (Hcap x ltac:(left)). lia.
Qed.

(** The racks hold all the other blocks. *)
Lemma enough_blks : (length others <= length mine + total sizes)%nat.
Proof.
  destruct sizes_facts as (_ & _ & Hx). destruct racks_facts as (_ & Hr & _ & _).
  assert (Hall : Forall (fun it => it.2 = length (rack_blks racks it.1)) sizes) by (apply Forall_forall; intros x Hin%Hx; tauto).
  pose proof (count_blks others (reqrack :: sizes.*1) Hothers) as Hc. cbn in Hc.
  assert (E : forall l : list (str * nat), Forall (fun it => it.2 = length (rack_blks racks it.1)) l ->
    sum_list_with (fun r => length (rack_blks racks r)) l.*1 = total l) by (induction 1 as [|x l Hxl _ IH]; [done|]; rewrite fmap_cons; cbn; lia).
  rewrite <- (E sizes Hall). apply Hc. intros b Hb. split; [done|]. destruct (decide (rk b = reqrack)) as [->|Hne]; [left|right].
  apply list_elem_of_fmap. exists (rk b, length (rack_blks racks (rk b))). split; [done|]. apply Hx. cbn. split_and!; [|done|done]. apply Hr. by exists b.
Qed.

Lemma rack_aware_ok : reqrack ∈ racks.*1 -> (0 < ecK <= length others)%nat ->
  exists ret, rack_aware ecK _loadbalance _rackInfos sort h f requestorIP = Ok ret /\ rack_choice ret /\
    (_loadbalance = false -> (length mine <= ecK)%nat -> forall b, b ∈ mine -> b ∈ ret.*2).
Proof.
  intros Hhere Hk. destruct sizes_facts as (Hn & _ & Hx). destruct racks_facts as (_ & Hr & _ & _).
  assert (Hall : Forall (fun it => it.2 = length (rack_blks racks it.1)) sizes) by (apply Forall_forall; intros x Hin%Hx; tauto).
  pose proof enough_blks as Htot.
  unfold rack_aware. cbv zeta. rewrite (bool_decide_true (_ ∈ racks.*1)) by done. rewrite length_fmap.
  destruct (choose_racks_ok sizes (Z.of_nat ecK - Z.of_nat (length mine)) [] (with_ip mine) Hall) as (j & E & Hjl & Hge & Hj); [lia|].
  rewrite E, bind_ok. cbn [app].
  assert (Hrl : NoDup ((reqrack, length mine) :: take j sizes).*1).
  { rewrite fmap_cons. constructor; [|rewrite fmap_take; eapply sublist_NoDup; [exact Hn|apply sublist_take]].
    intros (x & Ex & Hin)%list_elem_of_fmap. apply elem_of_take in Hin as (i & Hin%list_elem_of_lookup_2 & _). apply Hx in Hin as (_ & Hne & _). cbn in Ex. congruence. }
  destruct (rack_parts (fun it => it.2) _ Hrl) as (P1 & P2 & P3). cbv zeta in *.
  assert (Ecand : concat ((fun it => with_ip (take it.2 (rack_blks racks it.1))) <$> (reqrack, length mine) :: take j sizes) =
    with_ip mine ++ concat ((fun it => with_ip (rack_blks racks it.1)) <$> take j sizes)).
  { rewrite fmap_cons. cbn [concat fst snd]. rewrite (take_ge mine) by lia. f_equal. f_equal. apply list_fmap_ext. intros i it Hit.
    apply lookup_take_Some in Hit as [Hit _]. rewrite Forall_lookup in Hall. rewrite take_ge; [done|]. by rewrite (Hall i it Hit). }
  rewrite Ecand in P1, P2, P3. set (cand := with_ip mine ++ _) in *.
  assert (Hfull : Forall (fun it => it.2 = length (rack_blks racks it.1)) ((reqrack, length mine) :: take j sizes)) by (constructor; [done|by apply Forall_take]).
  assert (Hcl : length cand = (length mine + total (take j sizes))%nat).
  { rewrite P3. assert (Em : forall l : list (str * nat), Forall (fun it => it.2 = length (rack_blks racks it.1)) l ->
      sum_list_with (fun it => Nat.min it.2 (length (rack_blks racks it.1))) l = total l) by (induction 1 as [|x l Hxl _ IH]; [done|]; cbn; rewrite IH; lia).
    by rewrite Em. }
  assert (Hfrom : forall x, x ∈ cand -> x.2 ∈ others /\ x.1 = ip x.2 /\ (rk x.2 = reqrack \/ rk x.2 ∈ (take j sizes).*1))
    by (intros x (H1 & H2 & H3)%P2; rewrite fmap_cons, elem_of_cons in H3; tauto).
  destruct _loadbalance.
  - destruct (Nat.ltb_spec ecK (length cand)) as [Hlt|Hle].
    + destruct (balanced (take j sizes ++ [(reqrack, length mine)])) as (plan & -> & B1 & B2 & B3).
      * rewrite fmap_app, Permutation_app_comm, <- fmap_app. done.
      * rewrite Permutation_app_comm. exact Hfull.
      * rewrite (total_perm _ _ (Permutation_app_comm _ _)). cbn. lia.
      * rewrite bind_ok. eexists. split; [done|]. split; [|done]. apply (from_racks j); [done..|]. intros x (H1 & H2 & H3)%B3. rewrite fmap_app, elem_of_app in H3. cbn in H3.
        rewrite list_elem_of_singleton in H3. tauto.
    + rewrite (proj2 (Nat.eqb_eq _ _)) by lia. exists cand. split; [done|]. split; [|done]. apply (from_racks j); [done|lia|done|done].
  - rewrite (proj2 (Nat.eqb_neq ecK 0)) by lia. exists (take ecK cand). split; [done|]. split.
    2: { intros _ Hmk b Hb. apply list_elem_of_fmap. exists (ip b, b). split; [done|]. unfold cand. rewrite take_app_ge by (by rewrite length_fmap).
         apply elem_of_app. left. apply list_elem_of_fmap. by exists b. }
    apply (from_racks j); [done| | |].
    + rewrite length_take. lia.
    + rewrite fmap_take. eapply sublist_NoDup; [exact P1|apply sublist_take].
    + intros x Hin. apply Hfrom. apply elem_of_take in Hin as (i & Hin%list_elem_of_lookup_2 & _). done.
Qed.
End racks.

(** ** Helpers by racks *)

Section by_racks.
Context `{GF : GFComplete} {GL : GF8Laws} (talloc : nat -> option (list Z)) (Hta : forall n, exists l, talloc n = Some l /\ length l = n).
Context (random_shuffle : nat -> list (Z * str) -> list (Z * str)) (Hsh : forall i s, random_shuffle i s ≡ₚ s).
Context (sort : list (str * nat) -> list (str * nat)) (Hsort : forall s, sort s ≡ₚ s /\ StronglySorted (fun a b => (b.2 <= a.2)%nat) (sort s)).
Context (_localIP : Z) (_shuffle _loadbalance : bool) (rackInfos : gmap Z str) (k m : nat) (Hk : (0 < k)%nat) (Hm : (0 < m)%nat) (Hkm : (k + m <= 256)%nat).
Context (ents : list (str * str)) (files : list (str * list str)) (rs : list (option (Z * str))) (holder : str -> Z) (Hok : store_ok k m ents files rs holder).
Abbreviation rack a := (default [] (rackInfos !! a)).

(** The racks other than [r] of some blocks. *)
Definition other_racks (r : str) (bs : list str) : gset str := list_to_set ((fun b => rack (holder b)) <$> bs) ∖ {[ r ]}.

(** The query on the maps of the constructor. *)
Lemma rack_query hd C coefs f l ip : knows (mkRSUtil k (m + k) C coefs) k (stripes_of files) holder (hd_maps hd) -> knows_others hd l -> (f, l) ∈ files ->
  getStripeBlksH k _shuffle true _loadbalance rackInfos random_shuffle sort hd f ip None 0 =
    (ret ← rack_aware k _loadbalance rackInfos sort hd f ip; Ok (schedule random_shuffle _shuffle rackInfos ret ip, None)) /\
  NoDup (default [] (_blk2All hd !! f)).*1 /\ (forall x, x ∈ (default [] (_blk2All hd !! f)).*1 <-> x ∈ l /\ x <> f) /\
  length (default [] (_blk2All hd !! f)).*1 = (m + k - 1)%nat /\
  forall b, b ∈ l -> default 0 (_blkName2Ip (hd_maps hd) !! b) = holder b.
Proof.
  intros Hkn Hoth Hin. destruct (stripe_facts k m ents files rs holder f l Hok Hin) as (Hf & Hn & Hlen & Hh & sid & Hsid).
  set (u := mkRSUtil k (m + k) C coefs) in *. assert (Hkn' : (1 <= RSUtil._ecK u < RSUtil._ecN u)%nat) by (cbn; lia).
  destruct (Hoth f Hf) as [O1 O2]. split_and!; [|done|done| |].
  - unfold getStripeBlksH. rewrite (all_blks_H u (stripes_of files) holder hd Hkn sid l Hsid f Hf).
    destruct (all_blks_listed u (stripes_of files) holder _ Hkn Hkn' sid l Hsid f Hf) as (blks & -> & _). by rewrite bind_ok.
  - rewrite <- Hlen. assert (Hp : l ≡ₚ f :: (default [] (_blk2All hd !! f)).*1); [|rewrite Hp; cbn; lia]. apply NoDup_Permutation; [done| |].
    + constructor; [by intros [_ ?]%O2|done].
    + intros x. rewrite elem_of_cons, O2. destruct (decide (x = f)) as [->|]; tauto.
  - intros b Hb. by rewrite (kn_ip _ _ _ _ _ Hkn l b (l_in _ _ _ Hsid) Hb).
Qed.

(** C9: [HDFS_MetadataBase::getStripeBlks] with [rack.aware], after the
    constructor, only for a requestor whose rack holds another block of the stripe
    (otherwise it has undefined behaviour: [rack_alone]): then the loops end and
    the answer is [k] other blocks of the stripe, on their nodes, from as few racks
    beside the requestor's as any [k] blocks; with or without balancing of the
    load, for every order [sort] gives to racks of the same size. *)
Theorem rack_helpers :
  exists encMat hd, reed_sol_vandermonde_coding_matrix talloc k m 8 = Ok (Some encMat) /\
    let u := new_RSUtil k (m + k) encMat in
    HDFS_MetadataBase u k false (Some ents) (reply_of <$> rs) = Ok hd /\
    forall f l ip, (f, l) ∈ files -> (exists b, b ∈ l /\ b <> f /\ rack (holder b) = rack ip) ->
      exists blks, Metadata.getStripeBlks (MetadataBase := hdfs random_shuffle sort _localIP _shuffle _loadbalance rackInfos u true hd) f ip = Ok blks /\
        length blks = k /\ NoDup blks.*2 /\ (forall it, it ∈ blks -> it.2 ∈ l /\ it.2 <> f /\ it.1 = holder it.2) /\
        forall bs, NoDup bs -> (forall b, b ∈ bs -> b ∈ l /\ b <> f) -> length bs = k ->
          (size (other_racks (rack ip) blks.*2) <= size (other_racks (rack ip) bs))%nat.
Proof.
  destruct (hdfs_known talloc Hta k m Hk Hm Hkm ents files rs holder false Hok) as (C & coefs & hd & HC & Hu & E & _ & Hkn & Hoth).
  exists C, hd. split; [done|]. cbv zeta. rewrite Hu. split; [exact E|]. intros f l ip Hin (b0 & Hb0 & Hne0 & Hr0).
  destruct (rack_query hd C coefs f l ip Hkn) as (Eq & On & Oi & Ol & Oh); [apply Hoth, list_elem_of_fmap; by exists (f, l)|done|].
  destruct (rack_aware_ok k _loadbalance rackInfos sort hd f Hsort On ip) as (ret & Er & Hc & _).
  - destruct (racks_facts rackInfos hd f) as (_ & Hr & _ & _). apply Hr. exists b0. split; [by apply Oi|]. by rewrite Oh.
  - rewrite Ol. lia.
  - cbn [Metadata.getStripeBlks hdfs RSUtil._ecK]. rewrite Eq, Er, !bind_ok. eexists. split; [done|].
    pose proof (schedule_perm random_shuffle _shuffle rackInfos ret ip Hsh) as Hp. destruct Hc as (C1 & C2 & C3 & C4).
    assert (Hracks : forall bs, (forall b, b ∈ bs -> b ∈ l) -> racks_of rackInfos hd bs ∖ {[ rack ip ]} = other_racks (rack ip) bs).
    { intros bs Hbs. unfold racks_of, other_racks. do 2 f_equal. apply list_fmap_ext. intros i b Hb. rewrite Oh; [done|]. apply Hbs. by eapply list_elem_of_lookup_2. }
    split; [by rewrite Hp|]. split; [by rewrite Hp|]. split.
    + intros it Hit. rewrite Hp in Hit. destruct (C3 it Hit) as [[? ?]%Oi Hip]. split_and!; [done|done|]. rewrite Hip. by apply Oh.
    + intros bs Hbn Hbs Hbl. assert (Hrn : other_racks (rack ip) (schedule random_shuffle _shuffle rackInfos ret ip).*2 = other_racks (rack ip) ret.*2).
      { unfold other_racks. f_equal. apply list_to_set_perm_L. by rewrite Hp. }
      rewrite Hrn, <- (Hracks ret.*2), <- (Hracks bs) by (intros b Hb; (apply list_elem_of_fmap in Hb as (x & -> & [[? _]%Oi _]%C3)) || apply Hbs in Hb as [? _]; done).
      apply C4; [done| |done]. intros b Hb. by apply Oi, Hbs.
Qed.

(** [HDFS_MetadataBase::getStripeBlks] with [rack.aware] for a requestor whose
    rack holds no other block of the stripe has undefined behaviour, for every
    stripe, configuration and order of the racks: the code forgets the other
    racks as well, and [it] runs off an empty [rackSize]. *)
Theorem rack_alone :
  exists encMat hd, reed_sol_vandermonde_coding_matrix talloc k m 8 = Ok (Some encMat) /\
    let u := new_RSUtil k (m + k) encMat in
    HDFS_MetadataBase u k false (Some ents) (reply_of <$> rs) = Ok hd /\
    forall f l ip, (f, l) ∈ files -> (forall b, b ∈ l -> b <> f -> rack (holder b) <> rack ip) ->
      Metadata.getStripeBlks (MetadataBase := hdfs random_shuffle sort _localIP _shuffle _loadbalance rackInfos u true hd) f ip = Fault Undef.
Proof.
  destruct (hdfs_known talloc Hta k m Hk Hm Hkm ents files rs holder false Hok) as (C & coefs & hd & HC & Hu & E & _ & Hkn & Hoth).
  exists C, hd. split; [done|]. cbv zeta. rewrite Hu. split; [exact E|]. intros f l ip Hin Hno.
  destruct (rack_query hd C coefs f l ip Hkn) as (Eq & On & Oi & Ol & Oh); [apply Hoth, list_elem_of_fmap; by exists (f, l)|done|].
  cbn [Metadata.getStripeBlks hdfs RSUtil._ecK]. rewrite Eq. unfold rack_aware. cbv zeta.
  rewrite (bool_decide_false (_ ∈ (stripeAll2Rack _ _ _).*1)).
  - assert (Es : sort [] = []) by (apply Permutation_nil_r, Hsort). cbn [fmap list_fmap length]. rewrite Es. cbn [choose_racks].
    by rewrite (proj2 (Z.leb_gt _ _)) by lia.
  - intros (b & Hb & Er)%(proj1 (proj2 (racks_facts rackInfos hd f))). apply Oi in Hb as [Hb Hne]. apply (Hno b Hb Hne). by rewrite <- Oh.
Qed.

(** Choosing helpers by racks breaks the repair that asks for the
    coefficients without a status (PPRCoordinator.cc): a block of the
    requestor's rack is chosen whichever it is, and when it is not among the
    first [k] others of the stripe it has no coefficient. *)
Theorem rack_coefs :
  exists encMat hd, reed_sol_vandermonde_coding_matrix talloc k m 8 = Ok (Some encMat) /\
    let u := new_RSUtil k (m + k) encMat in
    HDFS_MetadataBase u k false (Some ents) (reply_of <$> rs) = Ok hd /\
    let MB := hdfs random_shuffle sort _localIP _shuffle _loadbalance rackInfos u true hd in
    forall f l ip b, (f, l) ∈ files -> _loadbalance = false -> b ∈ l -> b <> f -> b ∉ recovered k l f -> rack (holder b) = rack ip ->
      (length (List.filter (fun b => bool_decide (rack (holder b) = rack ip)) l) <= k)%nat ->
      exists blks coef, Metadata.getStripeBlks f ip = Ok blks /\ b ∈ blks.*2 /\ Metadata.getCoefficient f None = Ok coef /\ coef !! b = None.
Proof.
  destruct (hdfs_known talloc Hta k m Hk Hm Hkm ents files rs holder false Hok) as (C & coefs & hd & HC & Hu & E & _ & Hkn & Hoth).
  exists C, hd. split; [done|]. cbv zeta. rewrite Hu. split; [exact E|]. intros f l ip b Hin Hlb Hb Hne Hnr Hr Hfew.
  destruct (rack_query hd C coefs f l ip Hkn) as (Eq & On & Oi & Ol & Oh); [apply Hoth, list_elem_of_fmap; by exists (f, l)|done|].
  pose proof (in_rack rackInfos hd f (rack ip)) as Hmine.
  destruct (rack_aware_ok k _loadbalance rackInfos sort hd f Hsort On ip) as (ret & Er & _ & Hall).
  - destruct (racks_facts rackInfos hd f) as (_ & Hr' & _ & _). apply Hr'. exists b. split; [by apply Oi|]. by rewrite Oh.
  - rewrite Ol. lia.
  - destruct (stripe_facts k m ents files rs holder f l Hok Hin) as (Hf & _ & _ & _ & sid & Hsid). apply list_elem_of_lookup in Hf as [i Hi].
    destruct (bp_coefs _ _ _ _ _ _ _ (kn_blk _ _ _ _ _ Hkn sid l i f Hsid Hi)) as (c & mm & _ & Hm' & _ & Hnone).
    cbn [Metadata.getStripeBlks Metadata.getCoefficient hdfs RSUtil._ecK RSUtil._ecN getCoefficient3]. rewrite Eq, Er, !bind_ok, Hm'.
    eexists _, mm. split; [done|]. split_and!; [|done|by apply Hnone]. rewrite schedule_perm by done. apply (Hall Hlb).
    + etrans; [|exact Hfew]. apply submseteq_length, NoDup_submseteq; [by apply NoDup_rack|]. intros x [[Hx _]%Oi Hrx]%Hmine.
      apply list_elem_of_In, filter_In. split; [by apply list_elem_of_In|]. apply bool_decide_eq_true. by rewrite <- Oh.
    + apply Hmine. split; [by apply Oi|]. by rewrite Oh.
Qed.
End by_racks.

(** ** A choice for the store of HdfsLaws.v *)

Definition larger (a b : str * nat) : Prop := (b.2 <= a.2)%nat.
#[export] Instance larger_dec a b : Decision (larger a b) := le_dec _ _.
#[export] Instance larger_trans : Transitive larger.
Proof. intros x y z. unfold larger. lia. Qed.
#[export] Instance larger_total : Total larger.
Proof. intros x y. unfold larger. lia. Qed.
Definition by_size (s : list (str * nat)) : list (str * nat) := merge_sort larger s.

Lemma by_size_ok s : by_size s ≡ₚ s /\ StronglySorted (fun a b => (b.2 <= a.2)%nat) (by_size s).
Proof. split; [apply merge_sort_Permutation|]. apply (StronglySorted_merge_sort larger). Qed.

(** The blocks 90 and 91 are in one rack, 89 and 92 in the other. *)
Definition store_racks : gmap Z str := list_to_map [(3, lit "B"); (2, lit "B"); (1, lit "A"); (4, lit "A")].

Lemma example_files_in b : b ∈ example_stripe -> (b, example_stripe) ∈ example_files.
Proof. intros Hb. apply list_elem_of_fmap. exists b. split; [done|]. revert b Hb. apply Forall_forall. decided. Qed.

Lemma rack_helpers_witness :
  exists encMat hd, reed_sol_vandermonde_coding_matrix (fun n => Some (replicate n 77)) 2 2 8 = Ok (Some encMat) /\
    HDFS_MetadataBase (new_RSUtil 2 4 encMat) 2 false (Some example_store) (reply_of <$> example_reports) = Ok hd /\
    exists blks, Metadata.getStripeBlks (MetadataBase := hdfs (fun _ l => l) by_size 0 false true store_racks (new_RSUtil 2 4 encMat) true hd) (blk_no 90) 3 = Ok blks /\
      length blks = 2%nat /\ forall it, it ∈ blks -> it.1 = example_holder it.2.
Proof.
  destruct (rack_helpers (fun n => Some (replicate n 77)) ltac:(intros n; eexists; split; [reflexivity|apply length_replicate])
    (fun _ l => l) ltac:(reflexivity) by_size by_size_ok 0 false true store_racks 2 2 ltac:(lia) ltac:(lia) ltac:(lia) example_store example_files example_reports
    example_holder example_store_ok) as (encMat & hd & H1 & H2 & H3).
  exists encMat, hd. split; [exact H1|]. split; [exact H2|].
  destruct (H3 (blk_no 90) example_stripe 3) as (blks & E & Hl & _ & Hin & _).
  - apply example_files_in. decided.
  - exists (blk_no 91). split_and!; [decided|decided|vm_compute; reflexivity].
  - exists blks. split; [exact E|]. split; [exact Hl|]. intros it Hit. apply (Hin it Hit).
Defined.

Lemma rack_alone_witness :
  exists encMat hd, HDFS_MetadataBase (new_RSUtil 2 4 encMat) 2 false (Some example_store) (reply_of <$> example_reports) = Ok hd /\
    Metadata.getStripeBlks (MetadataBase := hdfs (fun _ l => l) by_size 0 false true store_racks (new_RSUtil 2 4 encMat) true hd) (blk_no 90) 9 = Fault Undef.
Proof.
  destruct (rack_alone (fun n => Some (replicate n 77)) ltac:(intros n; eexists; split; [reflexivity|apply length_replicate])
    (fun _ l => l) by_size by_size_ok 0 false true store_racks 2 2 ltac:(lia) ltac:(lia) ltac:(lia) example_store example_files example_reports
    example_holder example_store_ok) as (encMat & hd & _ & H2 & H3).
  exists encMat, hd. split; [exact H2|]. apply (H3 (blk_no 90) example_stripe 9).
  - apply example_files_in. decided.
  - intros b Hb _. revert b Hb. apply Forall_forall. repeat (apply Forall_cons; split; [vm_compute; discriminate|]). apply Forall_nil_2.
Defined.

Lemma rack_coefs_witness :
  exists encMat hd blks coef, HDFS_MetadataBase (new_RSUtil 2 4 encMat) 2 false (Some example_store) (reply_of <$> example_reports) = Ok hd /\
    let MB := hdfs (fun _ l => l) by_size 0 false false store_racks (new_RSUtil 2 4 encMat) true hd in
    Metadata.getStripeBlks (blk_no 90) 3 = Ok blks /\ blk_no 91 ∈ blks.*2 /\ Metadata.getCoefficient (blk_no 90) None = Ok coef /\ coef !! blk_no 91 = None.
Proof.
  destruct (rack_coefs (fun n => Some (replicate n 77)) ltac:(intros n; eexists; split; [reflexivity|apply length_replicate])
    (fun _ l => l) ltac:(reflexivity) by_size by_size_ok 0 false false store_racks 2 2 ltac:(lia) ltac:(lia) ltac:(lia) example_store example_files example_reports
    example_holder example_store_ok) as (encMat & hd & _ & H2 & H3).
  destruct (H3 (blk_no 90) example_stripe 3 (blk_no 91)) as (blks & coef & E1 & E2 & E3 & E4).
  - apply example_files_in. decided.
  - reflexivity.
  - decided.
  - decided.
  - decided.
  - vm_compute. reflexivity.
  - vm_compute. lia.
  - exists encMat, hd, blks, coef. split; [exact H2|]. split_and!; [exact E1|exact E2|exact E3|exact E4].
Defined.

(** ** Helpers by use *)

Lemma by_ip_in {A} (m : gmap Z A) x : x ∈ by_ip m <-> m !! x.1 = Some x.2.
Proof.
  assert (Hp : forall l : list (Z * A), NoDup l.*1 -> foldr ip_insert [] l ≡ₚ l).
  { induction l as [|y l IH]; intros Hn; [done|]. rewrite fmap_cons in Hn. apply NoDup_cons in Hn as [Hy Hn]. cbn [foldr]. rewrite ip_insert_perm; [by rewrite IH|].
    by rewrite IH. }
  unfold by_ip. rewrite Hp by apply NoDup_fst_map_to_list. destruct x as [a v]. apply elem_of_map_to_list.
Qed.

Section scheduled.
Context (ecK : nat) (_localIP : Z) (names : gmap Z str) (statusInIP : gmap Z Z).

(** A node that can help: it is alive, and counted. *)
Definition alive_node (order : gmap Z Z) (a : Z) : Prop :=
  default 0 (statusInIP !! a) <> 0 /\ exists n, order !! a = Some n /\ n < MAX_ORDER.

Lemma least_used_ok usedIP order : let r := least_used statusInIP usedIP order in
  (r.2 = MAX_ORDER /\ forall a, alive_node order a -> a ∈ usedIP) \/
  exists a, r.1 = Some a /\ order !! a = Some r.2 /\ r.2 < MAX_ORDER /\ default 0 (statusInIP !! a) <> 0 /\ a ∉ usedIP /\
    forall a' n, default 0 (statusInIP !! a') <> 0 -> a' ∉ usedIP -> order !! a' = Some n -> r.2 <= n.
Proof.
  set (free := fun x : Z * Z => default 0 (statusInIP !! x.1) <> 0 /\ x.1 ∉ usedIP).
  assert (H : forall l pre r, by_ip order = pre ++ l ->
    (r.2 = MAX_ORDER /\ (forall x, x ∈ pre -> free x -> MAX_ORDER <= x.2) \/
     exists a, r.1 = Some a /\ (a, r.2) ∈ pre /\ r.2 < MAX_ORDER /\ free (a, r.2) /\ forall x, x ∈ pre -> free x -> r.2 <= x.2) ->
    let r' := foldl (fun '((selectedIP, o) : option Z * Z) '(a, n) =>
      if (default 0 (statusInIP !! a) =? 0) || bool_decide (a ∈ usedIP) then (selectedIP, o)
      else if n <? o then (Some a, n) else (selectedIP, o)) r l in
    r'.2 = MAX_ORDER /\ (forall x, x ∈ by_ip order -> free x -> MAX_ORDER <= x.2) \/
    exists a, r'.1 = Some a /\ (a, r'.2) ∈ by_ip order /\ r'.2 < MAX_ORDER /\ free (a, r'.2) /\ forall x, x ∈ by_ip order -> free x -> r'.2 <= x.2).
  { induction l as [|[a n] l IH]; intros pre r E Hr; cbn [foldl]; [rewrite app_nil_r in E; rewrite E; exact Hr|].
    apply (IH (pre ++ [(a, n)])); [by rewrite <- app_assoc|]. destruct r as [sel o]. cbn [fst snd] in *.
    assert (Hall : forall b : Z, (forall x, x ∈ pre -> free x -> b <= x.2) -> (free (a, n) -> b <= n) -> forall x, x ∈ pre ++ [(a, n)] -> free x -> b <= x.2)
      by (intros b H1 H2 x [Hx| ->%list_elem_of_singleton]%elem_of_app; auto).
    assert (Hin : forall x, x ∈ pre -> x ∈ pre ++ [(a, n)]) by (intros x Hx; apply elem_of_app; by left).
    destruct ((default 0 (statusInIP !! a) =? 0) || bool_decide (a ∈ usedIP)) eqn:Eu; cbn [fst snd].
    - assert (Hnf : ~ free (a, n)).
      { intros [H1 H2]. apply orb_true_iff in Eu as [Eu%Z.eqb_eq|Eu%bool_decide_eq_true]; done. }
      destruct Hr as [[-> Hr]|(b & -> & Hb & Hlt & Hfb & Hr)]; [left|right; exists b]; split_and!; auto; apply Hall; (done || by intros ?).
    - apply orb_false_iff in Eu as [Eu1%Z.eqb_neq Eu2%bool_decide_eq_false].
      destruct (Z.ltb_spec n o) as [Hno|Hno]; cbn [fst snd].
      + right. exists a. split_and!; [done|apply elem_of_app; right; left| |done|].
        * destruct Hr as [[-> Hr]|(b & -> & Hb & Hlt & Hfb & Hr)]; lia.
        * apply Hall; [|intros _; lia]. intros x Hx Hfx. destruct Hr as [[-> Hr]|(b & _ & _ & _ & _ & Hr)]; specialize (Hr x Hx Hfx); lia.
      + destruct Hr as [[-> Hr]|(b & -> & Hb & Hlt & Hfb & Hr)]; [left|right; exists b]; split_and!; auto; apply Hall; (done || by intros _). }
  specialize (H (by_ip order) [] (None, MAX_ORDER) eq_refl). cbv zeta in H |- *. unfold least_used. set (r := foldl _ _ _) in *.
  destruct H as [[H1 H2]|(a & H1 & H2 & H3 & H4 & H5)].
  - left. split; [done|]. by intros x ?%not_elem_of_nil.
  - left. split; [done|]. intros a (Ha & n & Hn & Hlt). destruct (decide (a ∈ usedIP)) as [|Hu]; [done|]. exfalso.
    specialize (H2 (a, n)). rewrite by_ip_in in H2. specialize (H2 Hn (conj Ha Hu)). cbn in H2. lia.
  - right. exists a. rewrite by_ip_in in H2. destruct H4 as [H4 H6]. split_and!; [done..|]. intros a' n Ha' Hu' Hn.
    apply (H5 (a', n)); [by apply by_ip_in|done].
Qed.

(** The nodes [L] have been picked, counted from [order0]. *)
Record picked (order0 : gmap Z Z) (L : list Z) (setVal : list (Z * str)) (usedIP : gset Z) (order : gmap Z Z) : Prop := {
  pk_NoDup : NoDup L;
  pk_alive a : a ∈ L -> alive_node order0 a;
  pk_used a : a ∈ usedIP <-> a ∈ L;
  pk_set : setVal ≡ₚ (fun a => (a, default [] (names !! a))) <$> L;
  pk_order a : order !! a = if decide (a ∈ L) then Z.succ <$> order0 !! a else order0 !! a;
  pk_least a a' n n' : a ∈ L -> a' ∉ L -> order0 !! a = Some n -> order0 !! a' = Some n' -> default 0 (statusInIP !! a') <> 0 -> n <= n'
}.

Lemma pick_ok order0 (cand : list Z) fuel L setVal usedIP order :
  (forall a n, order0 !! a = Some n -> 0 <= n) -> (forall a, alive_node order0 a -> a <> _localIP) ->
  NoDup cand -> length cand = ecK -> (forall a, a ∈ cand -> alive_node order0 a) ->
  picked order0 L setVal usedIP order -> (length L <= ecK)%nat -> (ecK - length L <= fuel)%nat ->
  exists L' setVal' usedIP' order', pick_scheduled ecK _localIP fuel names statusInIP setVal usedIP order = Ok (setVal', order') /\
    picked order0 L' setVal' usedIP' order' /\ length L' = ecK.
Proof.
  intros Hpos Hloc Hcn Hcl Hca. revert L setVal usedIP order. induction fuel as [|fuel IH]; intros L setVal usedIP order [P1 P2 P3 P4 P5 P6] Hle Hf;
    cbn [pick_scheduled]; rewrite (Permutation_length P4), length_fmap; destruct (Nat.leb_spec ecK (length L)) as [Hge|Hlt].
  all: try (exists L, setVal, usedIP, order; split_and!; [done|done|lia]).
  - lia.
  - assert (Hfree : exists c, c ∈ cand /\ c ∉ L).
    { destruct (decide (Forall (fun c => c ∈ L) cand)) as [Hall|Hno].
      - exfalso. rewrite Forall_forall in Hall. pose proof (submseteq_length _ _ (NoDup_submseteq cand L Hcn Hall)). lia.
      - apply not_Forall_Exists in Hno; [|intros ?; apply _]. apply Exists_exists in Hno as (c & ? & ?). by exists c. }
    destruct Hfree as (c & Hc & HcL). destruct (Hca c Hc) as (Hc0 & nc & Hnc & Hncm).
    destruct (least_used_ok usedIP order) as [[H1 H2]|(a & H1 & H2 & H3 & H4 & H5 & H6)].
    { exfalso. apply HcL, P3, H2. split; [done|]. exists nc. by rewrite P5, decide_False. }
    destruct (least_used statusInIP usedIP order) as [sel o]. cbn [fst snd] in *. subst sel.
    assert (HaL : a ∉ L) by by rewrite <- P3. rewrite P5, decide_False in H2 by done. assert (Hal : alive_node order0 a) by (split; [done|by exists o]).
    rewrite (proj2 (Z.eqb_neq o MAX_ORDER)) by lia. cbn [negb guard_or res_of_option]. rewrite !bind_ok.
    rewrite (proj2 (Z.eqb_neq a _localIP)) by by apply Hloc. cbn [negb guard_or]. rewrite bind_ok.
    apply (IH (a :: L)); [|cbn; lia|cbn; lia]. split.
    + by constructor.
    + by intros b [->|Hb]%elem_of_cons; auto.
    + intros b. rewrite elem_of_union, elem_of_singleton, P3, elem_of_cons. done.
    + rewrite set_insert_perm, P4; [done|]. rewrite P4. by intros (b & [= <- _] & Hb)%list_elem_of_fmap.
    + intros b. destruct (decide (b = a)) as [->|Hne].
      * rewrite lookup_insert_eq, P5, decide_False, decide_True, H2 by (done || left). cbn. f_equal. unfold wrap_u32, MAX_ORDER in *. specialize (Hpos a o H2).
        rewrite Z.mod_small by lia. lia.
      * rewrite lookup_insert_ne, P5 by done. apply decide_ext. rewrite elem_of_cons. naive_solver.
    + intros b b' n n' [->|Hb]%elem_of_cons [Hne Hb']%not_elem_of_cons Hn Hn' Hst'.
      * assert (n = o) as -> by congruence. apply (H6 b' n' Hst'); [by rewrite P3|by rewrite P5, decide_False].
      * by apply (P6 b b').
Qed.
End scheduled.

(** The statuses by node. *)
Lemma status_by_node (status : gmap str Z) (blks : list (Z * str)) : NoDup blks.*1 ->
  let m := foldl (fun m it => <[it.1 := default 0 (status !! it.2)]> m) (∅ : gmap Z Z) blks in
  forall a, (forall b, (a, b) ∈ blks -> m !! a = Some (default 0 (status !! b))) /\ (a ∉ blks.*1 -> m !! a = None).
Proof.
  intros Hn. cbv zeta. induction blks as [|[a' b'] blks IH] using rev_ind; intros a; [by split; [intros b ?%not_elem_of_nil|]|].
  rewrite fmap_app in Hn. apply NoDup_app in Hn as (Hn & Hd & _). specialize (IH Hn a). rewrite foldl_snoc, fmap_app. cbn [fst snd fmap list_fmap]. destruct (decide (a' = a)) as [->|Hne].
  - rewrite lookup_insert_eq. split; [|intros []%not_elem_of_app; set_solver]. intros b [Hb|[= ->]%list_elem_of_singleton]%elem_of_app; [|done].
    exfalso. apply (Hd a); [apply list_elem_of_fmap; by exists (a, b)|left].
  - rewrite lookup_insert_ne by done. destruct IH as [I1 I2]. split; [intros b [Hb|[= -> _]%list_elem_of_singleton]%elem_of_app; [by apply I1|done]|].
    intros [? _]%not_elem_of_app. by apply I2.
Qed.

Lemma touch_known (status : gmap str Z) (blks : list (Z * str)) : (forall it, it ∈ blks -> is_Some (status !! it.2)) ->
  foldl (fun st it => touch it.2 st) status blks = status.
Proof.
  induction blks as [|it blks IH]; intros Hst; [done|]. cbn [foldl]. unfold touch at 2. rewrite bool_decide_true by by apply Hst; left.
  apply IH. intros x Hx. apply Hst. by right.
Qed.

Lemma start_order_nonneg order ip a n : (forall a n, order !! a = Some n -> is_u32 n) -> start_order order ip !! a = Some n -> 0 <= n.
Proof.
  intros Hu. unfold start_order. intros [[<- <-]|[_ Hn]]%lookup_insert_Some; [by apply Z.mod_pos_bound|].
  destruct (existsb _ _); [rewrite lookup_fmap in Hn; by apply fmap_Some in Hn as (? & _ & ->)|]. apply Hu in Hn. unfold is_u32 in Hn. lia.
Qed.

(** C37: [HDFS_MetadataBase::getScheduledBlks], for a stripe on different nodes
    of which [k] that are counted below [MAX_ORDER] are alive, none of them the
    coordinator: it picks [k] different alive nodes with the block of each, no
    node that was used less is left out, and exactly the nodes picked are
    counted once more. *)
Theorem scheduled_helpers ecK _localIP h order blkName requestorIP status blks names (cand : list Z) :
  NoDup blks.*1 -> (forall it, it ∈ blks -> is_Some (status !! it.2)) ->
  _Ip2BlkNames (hd_maps h) !! default 0%nat (_blkName2StripeId (hd_maps h) !! blkName) = Some names ->
  (forall it, it ∈ blks -> names !! it.1 = Some it.2) ->
  (forall a n, order !! a = Some n -> is_u32 n) -> (forall it, it ∈ blks -> it.1 <> _localIP) ->
  NoDup cand -> length cand = ecK ->
  (forall a, a ∈ cand -> exists b n, (a, b) ∈ blks /\ status !! b <> Some 0 /\ start_order order requestorIP !! a = Some n /\ n < MAX_ORDER) ->
  let order0 := start_order order requestorIP in
  exists setVal order', getScheduledBlks ecK _localIP h order blkName requestorIP status blks = Ok (setVal, status, order') /\
    length setVal = ecK /\ NoDup setVal.*1 /\ (forall it, it ∈ setVal -> it ∈ blks /\ status !! it.2 <> Some 0) /\
    (forall it it', it ∈ setVal -> it' ∈ blks -> it' ∉ setVal -> status !! it'.2 <> Some 0 ->
      forall n', order0 !! it'.1 = Some n' -> exists n, order0 !! it.1 = Some n /\ n <= n') /\
    forall a, order' !! a = if decide (a ∈ setVal.*1) then Z.succ <$> order0 !! a else order0 !! a.
Proof.
  intros Hn Hst Hnames Hblk Hu Hloc Hcn Hcl Hcand order0. unfold getScheduledBlks. rewrite (touch_known _ _ Hst). fold order0.
  pose proof (status_by_node status blks Hn) as Hs. cbv zeta in Hs |- *. set (statusInIP := foldl _ ∅ blks) in *. rewrite Hnames. cbn [res_of_option]. rewrite bind_ok.
  assert (Halive : forall a, default 0 (statusInIP !! a) <> 0 <-> exists b, (a, b) ∈ blks /\ status !! b <> Some 0).
  { intros a. split.
    - intros Ha. destruct (decide (a ∈ blks.*1)) as [([a' b] & -> & Hin)%list_elem_of_fmap|Hno]; [|by rewrite (proj2 (Hs a) Hno) in Ha].
      exists b. split; [done|]. cbn [fst] in Ha. rewrite (proj1 (Hs a') b Hin) in Ha. cbn in Ha. intros E. by rewrite E in Ha.
    - intros (b & Hin & Hb). rewrite (proj1 (Hs a) b Hin). cbn. destruct (Hst _ Hin) as [v Hv]. cbn in Hv. rewrite Hv in *. cbn. congruence. }
  destruct (pick_ok ecK _localIP names statusInIP order0 cand ecK [] [] ∅ order0) as (L & setVal & used & order' & -> & [P1 P2 P3 P4 P5 P6] & HL); try done.
  - intros a n. by apply start_order_nonneg.
  - intros a [(b & Hin & _)%Halive _]. by apply (Hloc _ Hin).
  - intros a Ha. destruct (Hcand a Ha) as (b & n & Hin & Hb & Hon & Hlt). split; [apply Halive; by exists b|by exists n].
  - split; try done; [constructor|intros a ?%not_elem_of_nil; done|set_solver|intros a a' n n' ?%not_elem_of_nil; done].
  - cbn. lia.
  - cbn. lia.
  - rewrite bind_ok. exists setVal, order'. split; [done|].
    assert (Hkeys : setVal.*1 ≡ₚ L) by (rewrite P4, <- list_fmap_compose; by rewrite list_fmap_id).
    assert (Hin : forall it, it ∈ setVal -> it ∈ blks /\ status !! it.2 <> Some 0 /\ it.1 ∈ L).
    { intros it Hit. rewrite P4 in Hit. apply list_elem_of_fmap in Hit as (a & -> & Ha). destruct (P2 a Ha) as [(b & Hb & Hb0)%Halive _].
      pose proof (Hblk _ Hb) as En. cbn in *. by rewrite En. }
    split_and!.
    + by rewrite P4, length_fmap.
    + by rewrite Hkeys.
    + intros it Hit. apply Hin in Hit. tauto.
    + intros [a b] [a' b'] Hit Hit' Hno Hb' n' Hn'. destruct (Hin _ Hit) as (_ & _ & HaL). destruct (P2 a HaL) as (_ & n & Hna & _). exists n. split; [done|].
      apply (P6 a a'); [done| |done|done|apply Halive; by exists b']. intros HaL'. apply Hno. rewrite P4. apply list_elem_of_fmap. exists a'. split; [|done].
      pose proof (Hblk _ Hit') as En. cbn in En. by rewrite En.
    + intros a. rewrite P5. apply decide_ext. by rewrite Hkeys.
Qed.

(** The node 1 has helped most. *)
Definition busy_order : gmap Z Z := list_to_map [(1, 5); (2, 1); (4, 3)].
Definition busy_blks : list (Z * str) := [(1, blk_no 92); (2, blk_no 91); (3, blk_no 90); (4, blk_no 89)].
Definition busy_status : gmap str Z := list_to_map [(blk_no 90, 0); (blk_no 89, 1); (blk_no 92, 1); (blk_no 91, 1)].
Definition busy_hdfs : Hdfs := mkHdfs (mkHdfs3 ∅ {[ blk_no 90 := 0%nat ]} ∅ ∅ [list_to_map busy_blks] [] ∅) ∅ busy_order.

Lemma scheduled_helpers_witness : exists setVal order',
  getScheduledBlks 2 9 busy_hdfs busy_order (blk_no 90) 3 busy_status busy_blks = Ok (setVal, busy_status, order') /\ length setVal = 2%nat /\
  (forall it, it ∈ setVal -> it ∈ busy_blks).
Proof.
  destruct (scheduled_helpers 2 9 busy_hdfs busy_order (blk_no 90) 3 busy_status busy_blks (list_to_map busy_blks) [2; 4]) as (s & o & E & Hl & _ & Hin & _).
  - decided.
  - apply Forall_forall. repeat (apply Forall_cons; split; [eexists; vm_compute; reflexivity|]). apply Forall_nil_2.
  - vm_compute. reflexivity.
  - apply Forall_forall. repeat (apply Forall_cons; split; [vm_compute; reflexivity|]). apply Forall_nil_2.
  - assert (H : map_Forall (fun _ n => is_u32 n) busy_order) by (unfold is_u32; decided). exact H.
  - apply Forall_forall. decided.
  - decided.
  - reflexivity.
  - intros a Ha. apply elem_of_cons in Ha as [->|Ha]; [exists (blk_no 91), 1|apply list_elem_of_singleton in Ha as ->; exists (blk_no 89), 3].
    + split_and!; [decided|vm_compute; discriminate|vm_compute; reflexivity|reflexivity].
    + split_and!; [decided|vm_compute; discriminate|vm_compute; reflexivity|reflexivity].
  - exists s, o. split; [exact E|]. split; [exact Hl|]. intros it Hit. apply (Hin it Hit).
Defined.
