(* ===== verification/Qfs.v ===== *)
(** * The metadata of QFS (QFS_MetadataBase.cc)

    QFS sends the coordinator one message per lost chunk, with the chunks of its
    stripe and the addresses of those that are alive.  [ProcessMetadata] keeps
    the helpers and the coefficients of the chunk of the last message; the
    queries wait for their block. *)
From Stdlib Require Import Ascii.
From stdpp Require Import strings.
From S2P Require Import Prelude Command Text Galois GF256 Jerasure Gauss Vandermonde ReedSol Encode RSUtil Config Coordinator Packet Metadata DrCmd Request Hdfs3 Hdfs3Laws Hdfs HdfsLaws.

(** The maps of the object.  [_blkIdInStripe] is not used. *)
Record Qfs := mkQfs {
  _blk2Stripe : gmap str (list (Z * str));
  _coefficient : gmap str (gmap str Z);
  _blkName2Ip : gmap str Z;
  _blkName2StripeId : gmap str Z;
  _Ip2BlkNames : list (gmap Z str);
  _Id2BlkNames : list (gmap nat str)
}.
Definition new_Qfs : Qfs := mkQfs ∅ ∅ ∅ ∅ [] [].

(** The variables of a message. *)
Record qscan := mkScan {
  handleStr : str;
  qs_ip : Z;
  ipAssigned : gset Z;
  ip2BlkName : gmap Z str;
  id2BlkName : gmap nat str;
  bidInStripe : Z;
  idxInStripe : nat;
  recoveredBlks : list str;
  qs_maps : Qfs
}.

(** [s.substr(0, start = s.find(':'))] and [s.substr(start + 1)]: [start] is an
    [int]. *)
Definition next_field (s : str) : res (str * str) :=
  let start := wrap_s32 (find s (lit ":") 0) in
  field ← substr s 0 (start mod 2^64);
  rest ← substr s ((start + 1) mod 2^64) npos;
  Ok (field, rest).

(** The name of a chunk without its version. *)
Definition no_version (s : str) : res str := substr s 0 (find_last_of "."%char s).

Section qfs.
(** [inet_pton] leaves the address as it is when it does not know the text. *)
Context (inet_pton : str -> option Z).

(** One turn of the loop over the chunks of a stripe, and whether the loop goes
    on. *)
Definition scan_entry (ecK : nat) (blkName blkNameNoVers : str) (s : qscan) : res (qscan * bool) :=
  '(bName, h) ← next_field (handleStr s);
  '(ipStr, h) ← next_field h;
  bNameNoVers ← no_version bName;
  let alive := negb (bool_decide (ipStr = [])) in
  let lost := bool_decide (blkNameNoVers = bNameNoVers) in
  let idx := idxInStripe s in
  let q := qs_maps s in
  let ip := if alive then default (qs_ip s) (inet_pton ipStr) else qs_ip s in
  let s := if alive then
      mkScan h ip (ipAssigned s) (<[ip := bName]> (ip2BlkName s)) (<[idx := bName]> (id2BlkName s)) (bidInStripe s) idx (recoveredBlks s)
        (mkQfs (_blk2Stripe q) (_coefficient q) (<[bName := ip]> (_blkName2Ip q)) (<[blkName := 0]> (_blkName2StripeId q)) (_Ip2BlkNames q) (_Id2BlkNames q))
    else mkScan h ip (ipAssigned s) (ip2BlkName s) (<[idx := blkName]> (id2BlkName s)) (bidInStripe s) idx (recoveredBlks s) q in
  let q := qs_maps s in
  let chosen :=
    if alive && (length (recoveredBlks s) <? ecK)%nat then
      if bool_decide (ip ∈ ipAssigned s) then None else
      Some (mkScan h ip ({[ip]} ∪ ipAssigned s) (ip2BlkName s) (id2BlkName s) (bidInStripe s) idx (recoveredBlks s ++ [bName])
        (mkQfs (<[blkName := default [] (_blk2Stripe q !! blkName) ++ [(ip, bName)]]> (_blk2Stripe q)) (_coefficient q)
          (_blkName2Ip q) (_blkName2StripeId q) (_Ip2BlkNames q) (_Id2BlkNames q)))
    else if negb alive && negb lost then None else Some s in
  match chosen with
  | None => Ok (s, false)
  | Some s =>
    if lost && negb (bidInStripe s <? 0) then Ok (s, false) else
    Ok (mkScan h ip (ipAssigned s) (ip2BlkName s) (id2BlkName s) (if lost then Z.of_nat (idx mod 9) else bidInStripe s) (S idx)
      (recoveredBlks s) (qs_maps s), true)
  end.

(** The loop; [fuel] is the length of the text and three more: a turn takes a
    character, or the text is the last field, which stays there as it has no
    colon, and the loop ends with that turn or never ([QfsLaws.qfs_never_answers]). *)
Fixpoint scan_entries (fuel : nat) (ecK : nat) (blkName blkNameNoVers : str) (s : qscan) : res qscan :=
  if bool_decide (handleStr s = []) || ((ecK <=? length (recoveredBlks s))%nat && (0 <=? bidInStripe s)) then Ok s else
  match fuel with
  | O => Fault Blocked
  | S fuel =>
    '(s, more) ← scan_entry ecK blkName blkNameNoVers s;
    if more : bool then scan_entries fuel ecK blkName blkNameNoVers s else Ok s
  end.

(** What [ProcessMetadata] keeps from one message to the next: the object, and
    its variables [blkName] and [ip]. *)
Record qfs_state := mkQfsState { qf_maps : Qfs; qf_blkName : str; qf_ip : Z }.

(** One message up to the loop: the chunk with and without its version, and what
    the loop starts from. *)
Definition start_scan (msg : str) (st : qfs_state) : res (str * str * qscan) :=
  let q := qf_maps st in
  let q := mkQfs ∅ (<[qf_blkName st := ∅]> (_coefficient q)) ∅ ∅ [] [] in
  '(blkName, h) ← next_field msg;
  '(ipStr, h) ← next_field h;
  blkNameNoVers ← no_version blkName;
  let ip := default (qf_ip st) (inet_pton ipStr) in
  let q := mkQfs (_blk2Stripe q) (_coefficient q) (<[blkName := ip]> (_blkName2Ip q)) (<[blkName := 0]> (_blkName2StripeId q)) (_Ip2BlkNames q) (_Id2BlkNames q) in
  Ok (blkName, blkNameNoVers, mkScan h ip {[ip]} {[ip := blkName]} ∅ (-1) 0 [] q).

(** One message, and the answer: its key and value. *)
Definition ProcessMetadata (rsUtil : RSUtil) (ecK : nat) (msg : str) (st : qfs_state) : res (qfs_state * (str * Z)) :=
  '(blkName, blkNameNoVers, s) ← start_scan msg st;
  s ← scan_entries (length (handleStr s) + 3) ecK blkName blkNameNoVers s;
  let q := qs_maps s in
  let names := _Ip2BlkNames q ++ [ip2BlkName s] in
  let ids := _Id2BlkNames q ++ [id2BlkName s] in
  let canRecover := (length (recoveredBlks s) =? ecK)%nat && (0 <=? bidInStripe s) in
  let answer := (lit "dr_meta_ret:" ++ blkName, if canRecover then 1 else 0) in
  if canRecover then
    coef ← res_of_option Undef (RSUtil.getCoefficient rsUtil (Z.to_nat (bidInStripe s)));
    m ← add_coefs (recoveredBlks s) coef (default ∅ (_coefficient q !! blkName));
    Ok (mkQfsState (mkQfs (_blk2Stripe q) (<[blkName := m]> (_coefficient q)) (_blkName2Ip q) (_blkName2StripeId q) names ids) blkName (qs_ip s), answer)
  else
    Ok (mkQfsState (mkQfs (delete blkName (_blk2Stripe q)) (delete blkName (_coefficient q)) (_blkName2Ip q) (_blkName2StripeId q) names ids) blkName (qs_ip s), answer).
End qfs.

(** ** The queries *)

(** [getStripeBlks] and [getCoefficient] wait for their block. *)
Definition getStripeBlksQ (q : Qfs) (blkName : str) : res (list (Z * str)) := res_of_option Blocked (_blk2Stripe q !! blkName).
Definition getCoefficientQ (q : Qfs) (blkName : str) : res (gmap str Z) := res_of_option Blocked (_coefficient q !! blkName).
Definition getStripeBlksMulQ (q : Qfs) (blkName : str) (requestorIP : Z) : res stripes_mul :=
  blks ← getStripeBlksQ q blkName; Ok [(requestorIP, (blkName, blks))].

Definition qfs (q : Qfs) : MetadataBase := {|
  getStripeBlks blkName _ := getStripeBlksQ q blkName;
  getStripeBlksMul blkName requestorIP status _ := ret ← getStripeBlksMulQ q blkName requestorIP; Ok (ret, default ∅ status);
  getCoefficient blkName _ := getCoefficientQ q blkName;
  getIPfromBlk _ := Ok 0;
  getAllBlks _ := Ok []
|}.
