(* ===== verification/QfsLaws.v ===== *)
(** * What the metadata of QFS promises (QFS_MetadataBase.cc)

    A message for a lost chunk whose stripe has enough chunks alive leaves the
    helpers and the coefficients that rebuild it; the next message, for another
    chunk, takes both away.  Every message is answered but the [endless] ones. *)
From Stdlib Require Import Ascii.
From stdpp Require Import strings.
From S2P Require Import Prelude Command Text Galois GF256 Jerasure Gauss Vandermonde ReedSol Encode RSUtil Config Coordinator Packet Metadata DrCmd Request Hdfs3 Hdfs3Laws Hdfs HdfsLaws Qfs.

(** ** Fields *)

Definition field (s : str) : str := s ++ [":"%char].
Definition short_text (s : str) : Prop := ":"%char ∉ s /\ Z.of_nat (length s) < 2^31 - 1.

Lemma substr_ok s pos len : pos <= Z.of_nat (length s) ->
  substr s pos len = Ok (take (Z.to_nat (Z.min len (Z.of_nat (length s) - pos))) (drop (Z.to_nat pos) s)).
Proof. intros H. unfold substr. by rewrite (proj2 (Z.leb_le _ _)) by lia. Qed.

Lemma next_field_ok s rest : short_text s -> Z.of_nat (length rest) < 2^62 -> next_field (field s ++ rest) = Ok (s, rest).
Proof.
  intros [Hs Hl] Hr. unfold next_field, field, find. rewrite <- app_assoc. cbn [app]. rewrite (proj2 (Z.leb_le _ _)) by lia. cbn [drop Z.to_nat].
  rewrite drop_0. change (lit ":") with [":"%char]. rewrite find_in_char, wrap_s32_id by (done || (unfold is_s32; lia)). rewrite Z.add_0_l.
  assert (Hlen : Z.of_nat (length (s ++ ":"%char :: rest)) = Z.of_nat (length s) + 1 + Z.of_nat (length rest)) by (rewrite length_app; cbn [length]; lia).
  rewrite !Z.mod_small by lia. rewrite (substr_ok _ 0), bind_ok by lia. rewrite substr_ok, bind_ok by lia. do 2 f_equal.
  - rewrite Hlen, Z.min_l, Nat2Z.id by lia. cbn [Z.to_nat]. by rewrite drop_0, take_app_length.
  - rewrite Hlen. replace (Z.to_nat (Z.of_nat (length s) + 1)) with (length s + 1)%nat by lia. rewrite <- drop_drop, drop_app_length. cbn [drop].
    rewrite drop_0. apply take_ge. unfold npos. lia.
Qed.

Lemma find_in_none c (s : str) i : c ∉ s -> find_in [c] s i = npos.
Proof.
  revert i. induction s as [|d s IH]; intros i Hs; [done|]. apply not_elem_of_cons in Hs as [Hd Hs]. cbn [find_in has_prefix]. rewrite (proj2 (Ascii.eqb_neq c d)) by done. by apply IH.
Qed.

(** The last field has no colon behind it: it is taken and stays. *)
Lemma next_field_last s : ":"%char ∉ s -> Z.of_nat (length s) < npos -> next_field s = Ok (s, s).
Proof.
  intros Hs Hl. unfold next_field, find. rewrite (proj2 (Z.leb_le _ _)) by lia. cbn [drop Z.to_nat]. rewrite drop_0. change (lit ":") with [":"%char].
  rewrite find_in_none by done. change (wrap_s32 npos) with (-1). change (-1 mod 2^64) with npos. change ((-1 + 1) mod 2^64) with 0.
  rewrite !(substr_ok _ 0), !bind_ok by lia. cbn [Z.to_nat]. rewrite drop_0, Z.sub_0_r, Z.min_r, Nat2Z.id, take_ge by lia. done.
Qed.

(** ** A message *)

(** A chunk as QFS lists it: its name, and the text of its address, empty when it
    is lost. *)
Abbreviation chunk := (str * str)%type.

(** Fields with a colon between them ([meta] of the class RSReplicatorImpl in
    Replicator.cc of QFS). *)
Fixpoint join_text (t : str) (l : list str) : str := match l with [] => t | f :: l => field t ++ join_text f l end.
Definition entries (l : list chunk) : list str := concat ((fun c => [c.1; c.2]) <$> l).
Definition message (blkName ipStr : str) (l : list chunk) : str := join_text blkName (ipStr :: entries l).

(** The text left when the field [t] has been taken and the chunks [l] are to
    come. *)
Definition rest_text (t : str) (l : list chunk) : str := match l with [] => t | c :: l => join_text c.1 (c.2 :: entries l) end.

Lemma length_field s : length (field s) = S (length s).
Proof. unfold field. rewrite length_app. cbn. lia. Qed.

Definition text_size (l : list str) : nat := sum_list_with (fun f => S (length f)) l.

Lemma length_join t l : length (join_text t l) = (length t + text_size l)%nat.
Proof. revert t. induction l as [|f l IH]; intros t; cbn [join_text]; [cbn; lia|]. rewrite length_app, length_field, IH. unfold text_size. cbn. lia. Qed.

Lemma length_rest t l : (length (rest_text t l) <= length t + text_size (entries l))%nat.
Proof. destruct l as [|c l]; [cbn; lia|]. cbn [rest_text]. rewrite length_join. unfold text_size, entries. cbn. lia. Qed.

Lemma rest_turns t l : (length l <= length (rest_text t l))%nat.
Proof.
  destruct l as [|c l]; [cbn; lia|]. cbn [rest_text]. rewrite length_join. cbn [length]. enough (length l <= text_size (entries l))%nat by (unfold text_size in *; cbn; lia).
  unfold text_size, entries. induction l as [|d l IH]; [done|]. cbn in *. lia.
Qed.

Lemma entries_drop l j : (text_size (entries (drop j l)) <= text_size (entries l))%nat.
Proof.
  revert j. induction l as [|c l IH]; intros [|j]; cbn [drop]; try done. specialize (IH j). unfold text_size, entries in *. cbn. lia.
Qed.

Lemma no_version_ok s : exists v, no_version s = Ok v.
Proof. unfold no_version. rewrite substr_ok by lia. by eexists. Qed.

(** Two fields are taken for a chunk. *)
Lemma entry_fields t n a l : short_text n -> short_text a -> Z.of_nat (text_size (entries l)) < 2^61 ->
  next_field (rest_text t ((n, a) :: l)) = Ok (n, join_text a (entries l)) /\ next_field (join_text a (entries l)) = Ok (a, rest_text a l).
Proof.
  intros Hn Ha Hl. pose proof Ha as [Ha1 Ha2]. split.
  - cbn [rest_text join_text fst snd]. apply next_field_ok; [done|]. rewrite length_join. lia.
  - destruct l as [|c l].
    + change (next_field a = Ok (a, a)). apply next_field_last; [done|]. unfold npos. lia.
    + change (entries (c :: l)) with (c.1 :: c.2 :: entries l) in *. cbn [rest_text]. change (join_text a (c.1 :: c.2 :: entries l)) with (field a ++ join_text c.1 (c.2 :: entries l)).
      apply next_field_ok; [done|]. rewrite length_join. unfold text_size in *. cbn in *. lia.
Qed.

(** The field before the chunk [j]. *)
Definition field_before (ipStr : str) (l : list chunk) (j : nat) : str := match j with O => ipStr | S j => (l !!! j).2 end.

(** One chunk of a message. *)
Lemma chunk_fields ipStr l j n a : l !! j = Some (n, a) -> short_text n -> short_text a -> Z.of_nat (text_size (entries l)) < 2^61 ->
  exists h, next_field (rest_text (field_before ipStr l j) (drop j l)) = Ok (n, h) /\
    next_field h = Ok (a, rest_text (field_before ipStr l (S j)) (drop (S j) l)).
Proof.
  intros Hn Hnt Hat Hsz. pose proof (entries_drop l (S j)). rewrite (drop_S l (n, a) j Hn). eexists. cbn [field_before]. rewrite (list_lookup_total_correct _ _ _ Hn).
  apply entry_fields; (done || lia).
Qed.

Lemma rest_not_nil t l : l <> [] -> rest_text t l <> [].
Proof. intros Hl E. apply (f_equal length) in E. pose proof (rest_turns t l). destruct l; [done|]. cbn [length] in *. lia. Qed.

(** What a message sends. *)
Record sent_ok (b ipStr : str) (l : list chunk) : Prop := {
  se_texts : short_text b /\ short_text ipStr /\ forall c, c ∈ l -> short_text c.1 /\ short_text c.2;
  se_size : Z.of_nat (length (message b ipStr l)) < 2^61
}.

Lemma sent_size b ipStr l : sent_ok b ipStr l -> Z.of_nat (text_size (entries l)) < 2^61.
Proof. intros [_ H]. unfold message in H. rewrite length_join in H. unfold text_size in *. cbn in H. lia. Qed.

Lemma start_ok inet_pton b ipStr l st : sent_ok b ipStr l -> exists bv, no_version b = Ok bv /\
  let ip := default (qf_ip st) (inet_pton ipStr) in
  start_scan inet_pton (message b ipStr l) st = Ok (b, bv, mkScan (rest_text ipStr l) ip {[ip]} {[ip := b]} ∅ (-1) 0 []
    (mkQfs ∅ (<[qf_blkName st := ∅]> (_coefficient (qf_maps st))) {[b := ip]} {[b := 0]} [] [])).
Proof.
  intros Hse. pose proof (sent_size _ _ _ Hse) as Hsz. destruct Hse as [(Hbt & Hit & _) Hl]. destruct (no_version_ok b) as [bv Hbv]. exists bv. split; [done|].
  unfold message in Hl. rewrite length_join in Hl. unfold text_size in Hl. cbn [sum_list_with] in Hl. unfold start_scan, message. cbn [join_text].
  rewrite next_field_ok, bind_ok by (first [done|rewrite length_join; unfold text_size; lia]).
  destruct (entry_fields [] b ipStr l Hbt Hit Hsz) as [_ ->]. by rewrite bind_ok, Hbv.
Qed.

Section message.
Context (inet_pton : str -> option Z) (holder : str -> Z) (k : nat) (Hk : (0 < k)%nat).
Context (b ipStr : str) (l : list chunk) (i : nat) (ra : Z).
Abbreviation name j := ((l !!! j).1).
Abbreviation last_entry := (k `max` i)%nat.

(** The message of the lost chunk [b], the [i]th of its stripe: the others up to
    the [k]th are alive, on nodes of their own and not on that of the
    requestor. *)
Record message_ok : Prop := {
  mo_sent : sent_ok b ipStr l;
  mo_requestor : inet_pton ipStr = Some ra;
  mo_index : (i < 9)%nat;
  mo_lost : exists n, l !! i = Some (n, []) /\ no_version n = no_version b;
  mo_alive j : (j <= last_entry)%nat -> j <> i -> exists n a, l !! j = Some (n, a) /\ a <> [] /\ inet_pton a = Some (holder n) /\ no_version n <> no_version b;
  mo_nodes j : (j <= last_entry)%nat -> j <> i -> holder (name j) <> ra;
  mo_distinct j j' : (j <= last_entry)%nat -> (j' <= last_entry)%nat -> j <> i -> j' <> i -> holder (name j) = holder (name j') -> j = j'
}.
Context (Hmo : message_ok).

(** How many helpers there are behind [j] chunks. *)
Definition found (j : nat) : nat := (k `min` (if (i <? j)%nat then j - 1 else j))%nat.
Definition helper (t : nat) : Z * str := (holder (name (others i t)), name (others i t)).

Lemma found_S j : (j <= last_entry)%nat -> j <> i -> (found j < k)%nat -> found (S j) = S (found j) /\ others i (found j) = j.
Proof.
  intros Hj Hne Hf. unfold found, others in *. destruct (Nat.ltb_spec i j), (Nat.ltb_spec i (S j)); try lia; case_decide; lia.
Qed.
Lemma found_full j : j <> i -> (k <= found j)%nat -> found (S j) = found j.
Proof. intros Hne Hf. unfold found in *. destruct (Nat.ltb_spec i j), (Nat.ltb_spec i (S j)); lia. Qed.
Lemma found_lost : found (S i) = found i.
Proof. unfold found. destruct (Nat.ltb_spec i i), (Nat.ltb_spec i (S i)); lia. Qed.
Lemma found_last : found (S last_entry) = k.
Proof. unfold found. destruct (Nat.ltb_spec i (S last_entry)); lia. Qed.
Lemma found_short j : (j <= last_entry)%nat -> (i < j)%nat -> (found j < k)%nat.
Proof. intros Hj Hi. unfold found. destruct (Nat.ltb_spec i j); lia. Qed.
Lemma others_range t : (t < k)%nat -> (others i t <= last_entry)%nat /\ others i t <> i.
Proof. intros Ht. unfold others. case_decide; lia. Qed.
Lemma others_inj t t' : others i t = others i t' -> t = t'.
Proof. unfold others. repeat case_decide; lia. Qed.

Record at_entry (coefs : gmap str (gmap str Z)) (j : nat) (s : qscan) : Prop := {
  ae_text : handleStr s = rest_text (field_before ipStr l j) (drop j l);
  ae_idx : idxInStripe s = j;
  ae_bid : bidInStripe s = if (i <? j)%nat then Z.of_nat i else -1;
  ae_recovered : recoveredBlks s = (fun t => (helper t).2) <$> seq 0 (found j);
  ae_assigned a : a ∈ ipAssigned s <-> a = ra \/ exists t, (t < found j)%nat /\ a = (helper t).1;
  ae_stripe : default [] (_blk2Stripe (qs_maps s) !! b) = helper <$> seq 0 (found j);
  ae_coefs : _coefficient (qs_maps s) = coefs
}.

Lemma chunk_at j : (j <= last_entry)%nat -> exists n a, l !! j = Some (n, a) /\ short_text n /\ short_text a.
Proof.
  intros Hj. assert (Hc : exists n a, l !! j = Some (n, a)).
  { destruct (decide (j = i)) as [->|Hne].
    - destruct (mo_lost Hmo) as (n & Hn & _). by exists n, [].
    - destruct (mo_alive Hmo j Hj Hne) as (n & a & Hn & _). by exists n, a. }
  destruct Hc as (n & a & Hn). exists n, a. split; [done|]. apply (proj2 (proj2 (se_texts _ _ _ (mo_sent Hmo))) (n, a)). by eapply list_elem_of_lookup_2.
Qed.

Lemma entry_ok coefs bv j s : no_version b = Ok bv -> at_entry coefs j s -> (j <= last_entry)%nat ->
  exists s', scan_entry inet_pton k b bv s = Ok (s', true) /\ at_entry coefs (S j) s'.
Proof.
  intros Hbv [Ht Hi Hb Hr Ha Hst Hc] Hj. destruct (chunk_at j Hj) as (n & a & Hn & Hnt & Hat).
  destruct (chunk_fields ipStr l j n a Hn Hnt Hat (sent_size _ _ _ (mo_sent Hmo))) as (h & Hf1 & Hf2).
  unfold scan_entry. rewrite Ht, Hf1, bind_ok, Hf2, bind_ok.
  destruct (no_version_ok n) as [nv Hnv]. rewrite Hnv, bind_ok, Hi. assert (Hlen : length (recoveredBlks s) = found j) by (by rewrite Hr, length_fmap, length_seq).
  assert (Hname : name j = n) by by rewrite (list_lookup_total_correct _ _ _ Hn).
  destruct (decide (j = i)) as [->|Hne].
  - destruct (mo_lost Hmo) as (n' & Hn' & Ev). rewrite Hn in Hn'. injection Hn' as <- ->. assert (bv = nv) as -> by congruence.
    rewrite (bool_decide_true ([] = [])), (bool_decide_true (nv = nv)) by done. cbn [negb andb]. rewrite Nat.ltb_irrefl in Hb. cbn [bidInStripe]. rewrite Hb. cbn [Z.ltb Z.compare negb andb].
    eexists. split; [reflexivity|]. split; cbn [handleStr idxInStripe bidInStripe recoveredBlks ipAssigned qs_maps]; rewrite ?found_lost; try done.
    rewrite (proj2 (Nat.ltb_lt i (S i))) by lia. f_equal. apply Nat.mod_small, Hmo.
  - destruct (mo_alive Hmo j Hj Hne) as (n' & a' & Hn' & Hna & Hpt & Hnver). rewrite Hn in Hn'. injection Hn' as <- <-.
    rewrite (bool_decide_false (a = [])), (bool_decide_false (bv = nv)) by (done || congruence). cbn [negb andb orb]. rewrite Hpt. cbn [from_option id].
    cbn [ipAssigned recoveredBlks qs_maps _blk2Stripe _coefficient _blkName2Ip _blkName2StripeId _Ip2BlkNames _Id2BlkNames bidInStripe ip2BlkName id2BlkName].
    rewrite Hlen. assert (Hbid : (if (i <? j)%nat then Z.of_nat i else -1) = if (i <? S j)%nat then Z.of_nat i else -1).
    { destruct (Nat.ltb_spec i j), (Nat.ltb_spec i (S j)); (done || lia). }
    destruct (Nat.ltb_spec (found j) k) as [Hlt|Hge].
    + destruct (found_S j Hj Hne Hlt) as [Es Eo]. assert (Hh : helper (found j) = (holder n, n)) by (unfold helper; by rewrite Eo, Hname).
      rewrite bool_decide_false.
      2: { rewrite Ha. intros [E|(t & Htl & E)].
           - apply (mo_nodes Hmo j Hj Hne). by rewrite Hname.
           - destruct (others_range t ltac:(unfold found in Htl; lia)) as [H1 H2]. cbn [helper fst] in E. rewrite <- Hname in E.
             apply (mo_distinct Hmo) in E; [|done..]. rewrite <- Eo in E. apply others_inj in E. lia. }
      eexists. split; [reflexivity|]. split; cbn [handleStr idxInStripe bidInStripe recoveredBlks ipAssigned qs_maps _blk2Stripe _coefficient]; try done.
      * by rewrite Hb.
      * rewrite Hr, Es, seq_S, fmap_app. cbn [fmap list_fmap Nat.add]. by rewrite Hh.
      * intros a'. rewrite elem_of_union, elem_of_singleton, Ha, Es. split.
        -- intros [->|[->|(t & Htl & ->)]]; [right; exists (found j); split; [lia|by rewrite Hh]|by left|right; exists t; split; [lia|done]].
        -- intros [->|(t & Htl & ->)]; [right; by left|]. destruct (decide (t = found j)) as [->|]; [left; by rewrite Hh|]. right. right. exists t. split; [lia|done].
      * rewrite lookup_insert_eq. cbn [from_option id]. rewrite Hst, Es, seq_S, fmap_app. cbn [fmap list_fmap Nat.add]. by rewrite Hh.
    + eexists. split; [reflexivity|]. rewrite <- (found_full j Hne Hge) in Hr, Ha, Hst.
      split; cbn [handleStr idxInStripe bidInStripe recoveredBlks ipAssigned qs_maps _blk2Stripe _coefficient]; try done. by rewrite Hb.
Qed.

Lemma entries_ok coefs bv j s fuel : no_version b = Ok bv -> at_entry coefs j s -> (j <= S last_entry)%nat -> (S last_entry - j <= fuel)%nat ->
  exists s', scan_entries inet_pton fuel k b bv s = Ok s' /\ at_entry coefs (S last_entry) s'.
Proof.
  intros Hbv. revert j s. induction fuel as [|fuel IH]; intros j s Hs Hj Hf.
  - assert (j = S last_entry) as -> by lia. exists s. cbn [scan_entries]. split; [|done].
    rewrite (ae_recovered _ _ _ Hs), length_fmap, length_seq, found_last, Nat.leb_refl, (ae_bid _ _ _ Hs), (proj2 (Nat.ltb_lt i _)) by lia.
    rewrite (proj2 (Z.leb_le 0 _)) by lia. by rewrite orb_true_r.
  - cbn [scan_entries]. rewrite (ae_recovered _ _ _ Hs), length_fmap, length_seq, (ae_bid _ _ _ Hs). destruct (decide (j = S last_entry)) as [->|Hne].
    + exists s. rewrite found_last, Nat.leb_refl, (proj2 (Nat.ltb_lt i _)), (proj2 (Z.leb_le 0 _)), orb_true_r by lia. done.
    + destruct (chunk_at j ltac:(lia)) as (n & a & Hn & _). rewrite bool_decide_false.
      2: { rewrite (ae_text _ _ _ Hs), (drop_S l (n, a) j Hn). by apply rest_not_nil. }
      cbn [orb]. assert (Hgo : (k <=? found j)%nat && (0 <=? (if (i <? j)%nat then Z.of_nat i else -1)) = false).
      { destruct (Nat.ltb_spec i j) as [Hij|]; [|by rewrite andb_false_r]. pose proof (found_short j ltac:(lia) Hij). by rewrite (proj2 (Nat.leb_gt _ _)). }
      rewrite Hgo. destruct (entry_ok coefs bv j s Hbv Hs ltac:(lia)) as (s' & -> & Hs'). rewrite bind_ok. apply (IH (S j)); (done || lia).
Qed.

Lemma last_in : (last_entry < length l)%nat.
Proof. destruct (chunk_at last_entry ltac:(lia)) as (n & a & Hn & _). by apply lookup_lt_Some in Hn. Qed.

Lemma helper_names_NoDup : NoDup ((fun t => (helper t).2) <$> seq 0 k).
Proof.
  apply NoDup_fmap_2_strong; [|apply NoDup_seq]. intros t t' [_ Ht]%elem_of_seq [_ Ht']%elem_of_seq E.
  destruct (others_range t ltac:(lia)), (others_range t' ltac:(lia)). apply others_inj, (mo_distinct Hmo); [done..|]. cbn [helper snd] in E. by rewrite E.
Qed.

Lemma ProcessMetadata_ok rs c st : RSUtil.getCoefficient rs i = Some c -> (k <= length c)%nat ->
  default ∅ (<[qf_blkName st := ∅]> (_coefficient (qf_maps st)) !! b) = ∅ ->
  exists st' m, ProcessMetadata inet_pton rs k (message b ipStr l) st = Ok (st', (lit "dr_meta_ret:" ++ b, 1)) /\
    _blk2Stripe (qf_maps st') !! b = Some (helper <$> seq 0 k) /\
    _coefficient (qf_maps st') !! b = Some m /\ first_coefs ((fun t => (helper t).2) <$> seq 0 k) c m.
Proof.
  intros Hc Hkc Hclean. destruct (start_ok inet_pton b ipStr l st (mo_sent Hmo)) as (bv & Hbv & Est). cbv zeta in Est.
  rewrite (mo_requestor Hmo) in Est. cbn [from_option id] in Est. unfold ProcessMetadata. rewrite Est, bind_ok. cbn [handleStr].
  match goal with |- context [scan_entries _ _ _ _ _ ?s0] =>
    destruct (entries_ok (<[qf_blkName st:=∅]> (_coefficient (qf_maps st))) bv 0 s0 (length (rest_text ipStr l) + 3) Hbv) as (s & -> & Hs) end.
  - split; cbn [handleStr idxInStripe bidInStripe recoveredBlks ipAssigned qs_maps _blk2Stripe _coefficient]; try done.
    + unfold found. by rewrite Nat.min_0_r.
    + intros a. rewrite elem_of_singleton. split; [by left|]. intros [|(t & Ht & _)]; [done|]. unfold found in Ht. cbn in Ht. lia.
    + unfold found. by rewrite Nat.min_0_r.
  - lia.
  - pose proof last_in. pose proof (rest_turns ipStr l). lia.
  - rewrite bind_ok. destruct Hs as [_ _ Hb Hr _ Hst Hco]. rewrite found_last in *. rewrite (proj2 (Nat.ltb_lt i _)) in Hb by lia.
    rewrite Hr, Hb, length_fmap, length_seq, Nat.eqb_refl, (proj2 (Z.leb_le 0 _)) by lia. cbn [andb]. rewrite Nat2Z.id, Hc. cbn [res_of_option].
    rewrite bind_ok, Hco, Hclean. destruct (add_coefs_ok ((fun t => (helper t).2) <$> seq 0 k) c helper_names_NoDup ltac:(rewrite length_fmap, length_seq; lia)) as (m & -> & Hm).
    rewrite bind_ok. eexists _, m. split; [reflexivity|]. cbn [qf_maps _blk2Stripe _coefficient]. rewrite lookup_insert_eq. split_and!; [|done..].
    destruct (_blk2Stripe (qs_maps s) !! b); cbn [from_option id] in Hst; [by rewrite Hst|]. destruct k; [lia|done].
Qed.
End message.

(** ** Any message *)

Section messages.
Context (inet_pton : str -> option Z) (rsUtil : RSUtil) (k : nat).

(** What the loop leaves alone: the coefficients, and the helpers of the other
    chunks. *)
Definition only_for (b : str) (q q' : Qfs) : Prop :=
  _coefficient q' = _coefficient q /\ forall c, c <> b -> _blk2Stripe q' !! c = _blk2Stripe q !! c.

Lemma scan_entry_only b bv s s' more : scan_entry inet_pton k b bv s = Ok (s', more) -> only_for b (qs_maps s) (qs_maps s').
Proof.
  unfold scan_entry. intros H. res_inv. destruct v as [bName h]. res_inv. destruct v as [ipStr h']. res_inv.
  destruct (bool_decide (ipStr = [])), (bool_decide (bv = v)); cbn [negb andb] in Hk; repeat (case_match; simplify_eq/=); simplify_eq/=; try (by split);
  (split; [done|]; intros c Hc; cbn; by rewrite lookup_insert_ne).
Qed.

Lemma scan_entries_only b bv fuel s s' : scan_entries inet_pton fuel k b bv s = Ok s' -> only_for b (qs_maps s) (qs_maps s').
Proof.
  revert s. induction fuel as [|fuel IH]; intros s; cbn [scan_entries]; (case_match; [intros [= <-]; by split|]); [done|].
  intros Hs. res_inv. destruct v as [s1 [|]]; apply scan_entry_only in Hm as [H1 H2]; [|by injection Hk as <-].
  apply IH in Hk as [H3 H4]. split; [congruence|]. intros c Hc. by rewrite H4, H2.
Qed.

Lemma start_scan_maps msg st b bv s : start_scan inet_pton msg st = Ok (b, bv, s) ->
  _blk2Stripe (qs_maps s) = ∅ /\ _coefficient (qs_maps s) = <[qf_blkName st := ∅]> (_coefficient (qf_maps st)).
Proof.
  unfold start_scan. intros H. apply bind_ok_inv in H as ([b' h] & _ & H). apply bind_ok_inv in H as ([ipStr h'] & _ & H).
  apply bind_ok_inv in H as (nv & _ & H). by injection H as <- <- <-.
Qed.

Lemma ProcessMetadata_only msg st st' ans : ProcessMetadata inet_pton rsUtil k msg st = Ok (st', ans) ->
  forall c, c <> qf_blkName st' -> _blk2Stripe (qf_maps st') !! c = None /\
    _coefficient (qf_maps st') !! c = <[qf_blkName st := ∅]> (_coefficient (qf_maps st)) !! c.
Proof.
  unfold ProcessMetadata. intros H. apply bind_ok_inv in H as ([[b bv] s0] & [Hs1 Hs2]%start_scan_maps & H).
  apply bind_ok_inv in H as (s1 & [H1 H2]%scan_entries_only & H). rewrite Hs2 in H1. rewrite Hs1 in H2.
  case_match; res_inv; simplify_eq/=; intros c Hc; rewrite ?lookup_insert_ne, ?lookup_delete_ne, H1, H2 by done; done.
Qed.

(** The object from its construction on; nothing sets its [ip] before the first
    message. *)
Inductive reachable : qfs_state -> Prop :=
  | qfs_start ip : reachable (mkQfsState new_Qfs [] ip)
  | qfs_message st msg st' ans : reachable st -> ProcessMetadata inet_pton rsUtil k msg st = Ok (st', ans) -> reachable st'.

(** Only the chunk of the last message has coefficients. *)
Lemma reachable_clean st : reachable st -> forall c, c <> qf_blkName st -> default ∅ (_coefficient (qf_maps st) !! c) = ∅.
Proof.
  induction 1 as [ip|st msg st' ans _ IH H]; intros c Hc; [done|]. destruct (ProcessMetadata_only _ _ _ _ H c Hc) as [_ ->].
  destruct (decide (c = qf_blkName st)) as [->|]; [by rewrite lookup_insert_eq|]. rewrite lookup_insert_ne by done. by apply IH.
Qed.

Lemma reachable_cleared st b : reachable st -> default ∅ (<[qf_blkName st := ∅]> (_coefficient (qf_maps st)) !! b) = ∅.
Proof.
  intros H. destruct (decide (b = qf_blkName st)) as [->|]; [by rewrite lookup_insert_eq|]. rewrite lookup_insert_ne by done. by apply reachable_clean.
Qed.
End messages.

(** ** Which messages are answered *)

Lemma add_coefs_total rec c m : (length rec <= length c)%nat -> exists m', add_coefs rec c m = Ok m'.
Proof.
  intros Hl. unfold add_coefs. match goal with |- exists m', for_each ?l ?f ?s = _ => destruct (for_each_total (fun _ _ => True) l f s) as (m' & E & _) end; [done| |by exists m'].
  intros i [i' r] m0 [Hi Hr]%lookup_indexed _. cbn [fst snd] in *. subst i'. destruct (lookup_lt_is_Some_2 c i) as [v ->]; [apply lookup_lt_Some in Hr; lia|].
  by eexists.
Qed.

Section answers.
Context (inet_pton : str -> option Z) (k : nat) (Hk : (0 < k)%nat) (b bv ipStr : str) (l : list chunk) (ip : Z).
Context (Hbv : no_version b = Ok bv) (Hse : sent_ok b ipStr l) (Hip : default ip (inet_pton ipStr) = ip).

(** The nodes of chunks that are all alive; [inet_pton] leaves the last one where
    it does not know a text. *)
Fixpoint addresses (ip : Z) (l : list chunk) : list Z :=
  match l with [] => [] | c :: l => let ip := default ip (inet_pton c.2) in ip :: addresses ip l end.

Lemma addresses_snoc a cs c : addresses a (cs ++ [c]) = addresses a cs ++ [default (default a (last (addresses a cs))) (inet_pton c.2)].
Proof.
  revert a. induction cs as [|d cs IH]; intros a; [done|]. cbn [app addresses]. rewrite IH, last_cons. by destruct (last (addresses _ cs)).
Qed.
Lemma length_addresses a cs : length (addresses a cs) = length cs.
Proof. revert a. induction cs as [|c cs IH]; intros a; [done|]. cbn. by rewrite IH. Qed.

(** The messages that are scanned for ever: the lost chunk is not in the list,
    all the others are alive, and the first [k] are on nodes of their own. *)
Definition endless : Prop :=
  (k <= length l)%nat /\ (forall c, c ∈ l -> c.2 <> [] /\ no_version c.1 <> no_version b) /\ NoDup (ip :: take k (addresses ip l)).

Lemma addresses_take j : addresses ip (take j l) = take j (addresses ip l).
Proof. generalize ip. generalize l. induction j as [|j IH]; intros [|c cs] a; [done..|]. cbn. by rewrite IH. Qed.

(** As long as the lost chunk has not come, the first [j] chunks were alive. *)
Definition open_at (j : nat) (s : qscan) : Prop :=
  (forall c, c ∈ take j l -> c.2 <> [] /\ no_version c.1 <> Ok bv) /\ length (recoveredBlks s) = (k `min` j)%nat /\
  qs_ip s = default ip (last (addresses ip (take j l))) /\
  ipAssigned s = list_to_set (ip :: take k (addresses ip (take j l))) /\ NoDup (ip :: take k (addresses ip (take j l))).

(** The loop behind its first [j] chunks, whatever they were. *)
Record scanned (j : nat) (s : qscan) : Prop := {
  sc_text : handleStr s = rest_text (field_before ipStr l j) (drop j l);
  sc_idx : (idxInStripe s <= j)%nat;
  sc_bid : -1 <= bidInStripe s < 0 \/ 0 <= bidInStripe s < Z.of_nat (length l);
  sc_recovered : (length (recoveredBlks s) <= k)%nat;
  sc_stripe : is_Some (_blk2Stripe (qs_maps s) !! b) <-> (0 < length (recoveredBlks s))%nat;
  sc_node : (length (recoveredBlks s) < k)%nat -> qs_ip s ∈ ipAssigned s;
  sc_known : field_before ipStr l j <> [] -> default (qs_ip s) (inet_pton (field_before ipStr l j)) = qs_ip s;
  sc_open : bidInStripe s < 0 -> open_at j s
}.

(** What is left when the loop ends. *)
Definition scan_end (s : qscan) : Prop :=
  (bidInStripe s < 0 \/ 0 <= bidInStripe s < Z.of_nat (length l)) /\ (length (recoveredBlks s) <= k)%nat /\
  (is_Some (_blk2Stripe (qs_maps s) !! b) <-> (0 < length (recoveredBlks s))%nat).

Lemma scanned_end j s : scanned j s -> scan_end s.
Proof. intros [_ _ Hb Hr Hs _ _ _]. split_and!; [lia|done|done]. Qed.

Lemma default_twice (o : option Z) a : default (default a o) o = default a o.
Proof. by destruct o. Qed.

Lemma take_chunk j c : l !! j = Some c -> take (S j) l = take j l ++ [c] /\ length (take j l) = j.
Proof. intros Hc. split; [by apply take_S_r|]. apply length_take_le. apply lookup_lt_Some in Hc. lia. Qed.

(** A chunk that is alive and not the lost one leaves the message open. *)
Lemma open_next j s s' n a : l !! j = Some (n, a) -> a <> [] -> no_version n <> Ok bv -> open_at j s ->
  qs_ip s' = default (qs_ip s) (inet_pton a) ->
  (if decide (j < k)%nat then qs_ip s' ∉ ipAssigned s /\ ipAssigned s' = {[qs_ip s']} ∪ ipAssigned s /\ length (recoveredBlks s') = S j
   else ipAssigned s' = ipAssigned s /\ length (recoveredBlks s') = length (recoveredBlks s)) -> open_at (S j) s'.
Proof.
  intros Hn Ha Hv (H1 & H2 & H3 & H4 & H5) Hq Hd. destruct (take_chunk j _ Hn) as [Et El]. unfold open_at. rewrite Et, addresses_snoc, <- H3. cbn [snd]. rewrite <- Hq.
  pose proof (length_addresses ip (take j l)) as Hla. rewrite El in Hla. split_and!.
  - intros c [Hc| ->%list_elem_of_singleton]%elem_of_app; [by apply H1|done].
  - case_decide; [destruct Hd as (_ & _ & ->)|destruct Hd as [_ ->]; rewrite H2]; lia.
  - by rewrite last_snoc.
  - case_decide as Hj.
    + destruct Hd as (_ & -> & _). rewrite H4, (take_ge (_ ++ _)), (take_ge (addresses _ _)) by (rewrite ?length_app, Hla; cbn; lia).
      cbn [list_to_set]. rewrite list_to_set_app_L. cbn [list_to_set]. clear. set_solver.
    + destruct Hd as [-> _]. by rewrite take_app_le by lia.
  - case_decide as Hj.
    + destruct Hd as (Hno & _ & _). rewrite H4 in Hno. rewrite take_ge in H5, Hno |- * by (rewrite ?length_app, Hla; cbn; lia).
      rewrite app_comm_cons. apply NoDup_app. split_and!; [done| |apply NoDup_singleton]. intros x Hx ->%list_elem_of_singleton. apply Hno. by apply elem_of_list_to_set.
    + by rewrite take_app_le by lia.
Qed.

(** The node of a chunk of an endless message is a new one. *)
Lemma endless_new j s n a : endless -> l !! j = Some (n, a) -> open_at j s -> (j < k)%nat -> default (qs_ip s) (inet_pton a) ∉ ipAssigned s.
Proof.
  intros (_ & _ & Hnd) Hn (_ & _ & H3 & H4 & _) Hj. destruct (take_chunk j _ Hn) as [Et El].
  assert (E : addresses ip (take (S j) l) = addresses ip (take j l) ++ [default (qs_ip s) (inet_pton a)]) by by rewrite Et, addresses_snoc, <- H3.
  assert (Hp : NoDup (ip :: addresses ip (take (S j) l))).
  { eapply sublist_NoDup; [exact Hnd|]. rewrite addresses_take. apply sublist_skip. replace (S j) with (S j `min` k)%nat by lia. rewrite <- take_take. apply sublist_take. }
  rewrite E, app_comm_cons in Hp. apply NoDup_app in Hp as (_ & Hd & _). rewrite H4, take_ge by (rewrite length_addresses; lia).
  rewrite elem_of_list_to_set. intros Hin. apply (Hd _ Hin). left.
Qed.

(** One chunk. *)
Lemma scan_entry_scanned j s : (j < length l)%nat -> scanned j s ->
  exists s' (more : bool), scan_entry inet_pton k b bv s = Ok (s', more) /\ (if more then scanned (S j) s' else scan_end s') /\
    (endless -> bidInStripe s < 0 -> more = true /\ bidInStripe s' < 0).
Proof.
  intros Hj Hsc. pose proof Hsc as [Ht Hi Hb Hr Hs Hnode Hknown Hopen]. destruct (lookup_lt_is_Some_2 l j Hj) as [[n a] Hn].
  pose proof (list_elem_of_lookup_2 _ _ _ Hn) as Hin. destruct (proj2 (proj2 (se_texts _ _ _ Hse)) (n, a) Hin) as [Hnt Hat]. cbn [fst snd] in *.
  destruct (chunk_fields ipStr l j n a Hn Hnt Hat (sent_size _ _ _ Hse)) as (h & Hf1 & Hf2).
  unfold scan_entry. rewrite Ht, Hf1, bind_ok, Hf2, bind_ok. destruct (no_version_ok n) as [nv Hnv]. rewrite Hnv, bind_ok. clear h Hf1 Hf2.
  pose proof (Nat.Div0.mod_le (idxInStripe s) 9) as Hmod. assert (Hfb : field_before ipStr l (S j) = a) by (cbn; by rewrite (list_lookup_total_correct _ _ _ Hn)).
  assert (Hen : endless -> a <> [] /\ bv <> nv) by (intros (_ & He & _); destruct (He _ Hin) as [? Hv]; split; [done|]; cbn in Hv; congruence).
  destruct (decide (a = [])) as [Ea|Ea].
  - rewrite (bool_decide_true (a = [])) by done. cbn [negb andb]. destruct (decide (bv = nv)) as [Ev|Ev].
    + rewrite (bool_decide_true (bv = nv)) by done. cbn [negb andb bidInStripe]. destruct (Z.ltb_spec (bidInStripe s) 0); cbn [negb].
      * eexists _, true. split; [reflexivity|]. split; [|intros He; by destruct (Hen He)].
        split; cbn [handleStr idxInStripe bidInStripe recoveredBlks ipAssigned qs_maps qs_ip]; try done; [lia|lia|congruence|lia].
      * eexists _, false. split; [reflexivity|]. split; [exact (scanned_end j s Hsc)|intros He; by destruct (Hen He)].
    + rewrite (bool_decide_false (bv = nv)) by done. cbn [negb andb]. eexists _, false. split; [reflexivity|]. split; [exact (scanned_end j s Hsc)|intros He; by destruct (Hen He)].
  - rewrite (bool_decide_false (a = [])) by done. cbn [negb andb recoveredBlks qs_ip]. set (a' := default (qs_ip s) (inet_pton a)).
    destruct (Nat.ltb_spec (length (recoveredBlks s)) k) as [Hlt|Hge].
    + cbn [ipAssigned]. assert (Hjk : bidInStripe s < 0 -> (j < k)%nat) by (intros Hb0; destruct (Hopen Hb0) as (_ & E & _); lia).
      destruct (decide (a' ∈ ipAssigned s)) as [Ha|Ha].
      * rewrite bool_decide_true by done. eexists _, false. split; [reflexivity|]. split; [exact (scanned_end j s Hsc)|]. intros He Hb0.
        by destruct (endless_new j s n a He Hn (Hopen Hb0) (Hjk Hb0)).
      * rewrite bool_decide_false by done. cbn [bidInStripe idxInStripe recoveredBlks qs_maps].
        assert (Hst : forall x y, is_Some (<[b := x]> (_blk2Stripe y) !! b) <-> (0 < length (recoveredBlks s ++ [n]))%nat).
        { intros x y. rewrite lookup_insert_eq, length_app. split; [cbn; lia|by eexists]. }
        destruct (decide (bv = nv)) as [Ev|Ev]; [rewrite (bool_decide_true (bv = nv)) by done|rewrite (bool_decide_false (bv = nv)) by done]; cbn [negb andb].
        -- destruct (Z.ltb_spec (bidInStripe s) 0); cbn [negb].
           ++ eexists _, true. split; [reflexivity|]. split; [|intros He; by destruct (Hen He)].
              split; cbn [handleStr idxInStripe bidInStripe recoveredBlks ipAssigned qs_maps qs_ip _blk2Stripe]; rewrite ?Hfb; try done;
                [lia|lia|rewrite length_app; cbn; lia|set_solver|intros _; apply default_twice|lia].
           ++ eexists _, false. split; [reflexivity|]. split; [|intros He; by destruct (Hen He)]. split_and!; cbn [bidInStripe recoveredBlks qs_maps _blk2Stripe]; [lia|rewrite length_app; cbn; lia|apply Hst].
        -- eexists _, true. split; [reflexivity|]. split; [|by intros _ ?].
           split; cbn [handleStr idxInStripe bidInStripe recoveredBlks ipAssigned qs_maps qs_ip _blk2Stripe]; rewrite ?Hfb; try done;
             [lia|rewrite length_app; cbn; lia|set_solver|intros _; apply default_twice|].
           intros Hb0. eapply (open_next j s _ n a Hn Ea ltac:(congruence) (Hopen Hb0)); [done|]. rewrite decide_True by by apply Hjk.
           cbn [qs_ip ipAssigned recoveredBlks]. split_and!; [done|done|]. rewrite length_app. destruct (Hopen Hb0) as (_ & -> & _). cbn. specialize (Hjk Hb0). lia.
    + cbn [bidInStripe idxInStripe recoveredBlks qs_maps]. assert (Hjk : bidInStripe s < 0 -> ~ (j < k)%nat) by (intros Hb0; destruct (Hopen Hb0) as (_ & E & _); lia).
      destruct (decide (bv = nv)) as [Ev|Ev]; [rewrite (bool_decide_true (bv = nv)) by done|rewrite (bool_decide_false (bv = nv)) by done]; cbn [negb andb].
      * destruct (Z.ltb_spec (bidInStripe s) 0); cbn [negb].
        -- eexists _, true. split; [reflexivity|]. split; [|intros He; by destruct (Hen He)].
           split; cbn [handleStr idxInStripe bidInStripe recoveredBlks ipAssigned qs_maps qs_ip _blk2Stripe]; rewrite ?Hfb; try done;
             [lia|lia|lia|intros _; apply default_twice|lia].
        -- eexists _, false. split; [reflexivity|]. split; [exact (scanned_end j s Hsc)|intros He; by destruct (Hen He)].
      * eexists _, true. split; [reflexivity|]. split; [|by intros _ ?].
        split; cbn [handleStr idxInStripe bidInStripe recoveredBlks ipAssigned qs_maps qs_ip _blk2Stripe]; rewrite ?Hfb; try done; [lia|lia|intros _; apply default_twice|].
        intros Hb0. eapply (open_next j s _ n a Hn Ea ltac:(congruence) (Hopen Hb0)); [done|]. by rewrite decide_False by by apply Hjk.
Qed.
(** What is there behind the last chunk. *)
Lemma field_before_short j : (j <= length l)%nat -> short_text (field_before ipStr l j).
Proof.
  intros Hj. destruct j as [|j]; [apply Hse|]. destruct (lookup_lt_is_Some_2 l j) as [c Hc]; [lia|]. cbn. rewrite (list_lookup_total_correct _ _ _ Hc).
  apply (proj2 (proj2 (se_texts _ _ _ Hse))). by eapply list_elem_of_lookup_2.
Qed.
Lemma last_field : next_field (field_before ipStr l (length l)) = Ok (field_before ipStr l (length l), field_before ipStr l (length l)).
Proof. destruct (field_before_short (length l)) as [H1 H2]; [done|]. apply next_field_last; [done|]. unfold npos. lia. Qed.
Lemma endless_text j s : endless -> scanned j s -> (j <= length l)%nat -> handleStr s <> [].
Proof.
  intros (Hkl & He & _) Hsc Hj. rewrite (sc_text _ _ Hsc). destruct (decide (j = length l)) as [->|Hne].
  - rewrite drop_all. cbn [rest_text]. destruct (length l) as [|n] eqn:El; [lia|]. cbn [field_before]. destruct (lookup_lt_is_Some_2 l n) as [c Hc]; [lia|].
    rewrite (list_lookup_total_correct _ _ _ Hc). apply He. by eapply list_elem_of_lookup_2.
  - apply rest_not_nil. intros E. apply (f_equal length) in E. rewrite length_drop in E. cbn in E. lia.
Qed.

(** Behind the last chunk: its address is there again, as a name and as an
    address.  It is no new node, so the turn ends the loop while helpers are
    missing. *)
Lemma last_turn s : scanned (length l) s -> (length (recoveredBlks s) < k)%nat -> handleStr s <> [] ->
  exists s', scan_entry inet_pton k b bv s = Ok (s', false) /\ scan_end s'.
Proof.
  intros Hsc Hlt Hne. pose proof Hsc as [Ht _ _ _ _ Hnode Hknown _]. rewrite drop_all in Ht. cbn [rest_text] in Ht. rewrite Ht in Hne.
  unfold scan_entry. rewrite Ht, last_field, bind_ok, last_field, bind_ok.
  destruct (no_version_ok (field_before ipStr l (length l))) as [tv ->]. rewrite bind_ok, bool_decide_false by done. cbn [negb andb recoveredBlks qs_ip ipAssigned].
  rewrite (proj2 (Nat.ltb_lt _ _)), (Hknown Hne), bool_decide_true by (by apply Hnode || done). eexists. split; [reflexivity|exact (scanned_end _ s Hsc)].
Qed.

(** With enough helpers and the lost chunk not found, such a turn changes
    nothing the loop tests. *)
Definition spinning (s : qscan) : Prop :=
  handleStr s = field_before ipStr l (length l) /\ handleStr s <> [] /\ (k <= length (recoveredBlks s))%nat /\ bidInStripe s < 0.

Lemma spinning_turn s : no_version (field_before ipStr l (length l)) <> no_version b -> spinning s ->
  exists s', scan_entry inet_pton k b bv s = Ok (s', true) /\ spinning s'.
Proof.
  intros Hv (Ht & Hne & Hr & Hb). rewrite Ht in Hne. unfold scan_entry.
  rewrite Ht, last_field, bind_ok, last_field, bind_ok.
  destruct (no_version_ok (field_before ipStr l (length l))) as [tv Etv]. rewrite Etv, bind_ok, (bool_decide_false (_ = [])), (bool_decide_false (bv = tv)) by (done || congruence).
  cbn [negb andb recoveredBlks bidInStripe idxInStripe]. rewrite (proj2 (Nat.ltb_ge _ _)) by done. eexists. split; [reflexivity|]. by split_and!.
Qed.

Lemma scan_stops s : bool_decide (handleStr s = []) || ((k <=? length (recoveredBlks s))%nat && (0 <=? bidInStripe s)) = true -> 
  forall fuel, scan_entries inet_pton fuel k b bv s = Ok s.
Proof. intros H [|fuel]; cbn [scan_entries]; by rewrite H. Qed.

(** A message that is not endless: a turn for each chunk and one more are
    enough. *)
Lemma scan_ends j s fuel : ~ endless -> scanned j s -> (j <= length l)%nat -> (length l < fuel + j)%nat ->
  exists s', scan_entries inet_pton fuel k b bv s = Ok s' /\ scan_end s'.
Proof.
  intros He. revert j s. induction fuel as [|fuel IH]; intros j s Hsc Hj Hf; [lia|].
  destruct (bool_decide (handleStr s = []) || ((k <=? length (recoveredBlks s))%nat && (0 <=? bidInStripe s))) eqn:Ec.
  { rewrite scan_stops by done. exists s. split; [done|by eapply scanned_end]. }
  cbn [scan_entries]. rewrite Ec. apply orb_false_iff in Ec as [Ht%bool_decide_eq_false Ec].
  destruct (decide (j = length l)) as [->|Hne].
  - destruct (last_turn s Hsc) as (s' & -> & Hs'); [|done|by exists s']. apply andb_false_iff in Ec as [Ec%Nat.leb_gt|Ec%Z.leb_gt]; [done|].
    destruct (Nat.ltb_spec (length (recoveredBlks s)) k) as [|Hge]; [done|]. destruct (sc_open _ _ Hsc Ec) as (H1 & H2 & _ & _ & H5). rewrite firstn_all in *.
    destruct He. split_and!; [lia|by rewrite Hbv|done].
  - destruct (scan_entry_scanned j s ltac:(lia) Hsc) as (s' & more & -> & Hs' & _). rewrite bind_ok. destruct more; [|by exists s']. apply (IH (S j)); (done || lia).
Qed.

(** An endless one: no number of turns is. *)
Lemma endless_scan j s fuel : endless -> no_version (field_before ipStr l (length l)) <> no_version b -> scanned j s -> (j <= length l)%nat -> bidInStripe s < 0 ->
  scan_entries inet_pton fuel k b bv s = Fault Blocked.
Proof.
  intros He Hv. assert (Hspin : forall fuel s, spinning s -> scan_entries inet_pton fuel k b bv s = Fault Blocked).
  { clear fuel s. induction fuel as [|fuel IH]; intros s Hs; pose proof Hs as (_ & Ht & _ & Hb); cbn [scan_entries];
      rewrite bool_decide_false, (proj2 (Z.leb_gt _ _)), andb_false_r by done; [done|]. cbn [orb]. destruct (spinning_turn s Hv Hs) as (s' & -> & Hs'). rewrite bind_ok. by apply IH. }
  revert j s. induction fuel as [|fuel IH]; intros j s Hsc Hj Hb.
  - cbn [scan_entries]. rewrite bool_decide_false, (proj2 (Z.leb_gt _ _)), andb_false_r by (done || by apply (endless_text j)). done.
  - destruct (decide (j = length l)) as [->|Hne].
    + apply Hspin. destruct (sc_open _ _ Hsc Hb) as (_ & Hr & _). destruct He as (Hk' & He). split_and!; [|by apply (endless_text (length l))|lia|done].
      by rewrite (sc_text _ _ Hsc), drop_all.
    + cbn [scan_entries]. rewrite bool_decide_false, (proj2 (Z.leb_gt _ _)), andb_false_r by (done || by apply (endless_text j)). cbn [orb].
      destruct (scan_entry_scanned j s ltac:(lia) Hsc) as (s' & more & -> & Hs' & Hen). destruct (Hen He Hb) as [-> Hb']. rewrite bind_ok. apply (IH (S j)); (done || lia).
Qed.

Lemma scanned_start q : _blk2Stripe q !! b = None -> scanned 0 (mkScan (rest_text ipStr l) ip {[ip]} {[ip := b]} ∅ (-1) 0 [] q).
Proof.
  intros Hq. split; cbn [handleStr idxInStripe bidInStripe recoveredBlks ipAssigned qs_maps qs_ip length]; try lia; try done.
  - rewrite Hq. split; [by intros []|lia].
  - set_solver.
  - intros _. unfold open_at. rewrite take_0. cbn [addresses last from_option id]. rewrite take_nil. split_and!; cbn; [by intros c ?%not_elem_of_nil|lia|done| |apply NoDup_singleton].
    by rewrite union_empty_r_L.
Qed.
End answers.

(** The node a message names, as [ProcessMetadata] reads it. *)
Definition requestor (inet_pton : str -> option Z) (ipStr : str) (st : qfs_state) : Z := default (qf_ip st) (inet_pton ipStr).

Section answered.
Context (inet_pton : str -> option Z) (rs : RSUtil) (k : nat) (Hk : (0 < k)%nat) (b ipStr : str) (l : list chunk) (st : qfs_state) (Hse : sent_ok b ipStr l).
Abbreviation never := (endless inet_pton k b l (requestor inet_pton ipStr st)).

Lemma ProcessMetadata_answers : ~ never ->
  (forall i, (i < length l)%nat -> exists c, RSUtil.getCoefficient rs i = Some c /\ (k <= length c)%nat) ->
  exists st' (can : bool), ProcessMetadata inet_pton rs k (message b ipStr l) st = Ok (st', (lit "dr_meta_ret:" ++ b, if can then 1 else 0)) /\
    (if can then is_Some (_blk2Stripe (qf_maps st') !! b) /\ is_Some (_coefficient (qf_maps st') !! b)
     else _blk2Stripe (qf_maps st') !! b = None /\ _coefficient (qf_maps st') !! b = None).
Proof.
  intros He Hco. destruct (start_ok inet_pton b ipStr l st Hse) as (bv & Hbv & Est). cbv zeta in Est. unfold ProcessMetadata. rewrite Est, bind_ok. cbn [handleStr].
  match goal with |- context [scan_entries _ _ _ _ _ ?s0] =>
    destruct (scan_ends inet_pton k Hk b bv ipStr l _ Hbv Hse (default_twice _ _) 0 s0 (length (rest_text ipStr l) + 3) He) as (s & -> & Hb & Hr & Hst) end.
  - apply scanned_start; (apply default_twice || done).
  - lia.
  - pose proof (rest_turns ipStr l). lia.
  - rewrite bind_ok. case_match eqn:Ec.
    + apply andb_prop in Ec as [El%Nat.eqb_eq Eb%Z.leb_le]. destruct (Hco (Z.to_nat (bidInStripe s)) ltac:(lia)) as (c & -> & Hc). cbn [res_of_option].
      rewrite bind_ok. destruct (add_coefs_total (recoveredBlks s) c (default ∅ (_coefficient (qs_maps s) !! b)) ltac:(lia)) as [m ->]. rewrite bind_ok.
      eexists _, true. split; [reflexivity|]. cbn [qf_maps _blk2Stripe _coefficient]. rewrite lookup_insert_eq. split; [apply Hst; lia|by eexists].
    + eexists _, false. split; [reflexivity|]. cbn [qf_maps _blk2Stripe _coefficient]. by rewrite !lookup_delete_eq.
Qed.

Lemma start_endless : never -> no_version (field_before ipStr l (length l)) <> no_version b -> forall turns, exists bv s,
  start_scan inet_pton (message b ipStr l) st = Ok (b, bv, s) /\ scan_entries inet_pton turns k b bv s = Fault Blocked.
Proof.
  intros He Hv turns. destruct (start_ok inet_pton b ipStr l st Hse) as (bv & Hbv & Est). cbv zeta in Est. eexists bv, _. split; [exact Est|].
  eapply (endless_scan inet_pton k Hk b bv ipStr l _ Hbv Hse (default_twice _ _) 0); [exact He|done| |lia|done]. apply scanned_start; (apply default_twice || done).
Qed.
End answered.

(** ** The promises *)

Section promises.
Context `{GF : GFComplete} {GL : GF8Laws}.
Context (inet_pton : str -> option Z) (talloc : nat -> option (list Z)) (Hta : forall n, exists l, talloc n = Some l /\ length l = n).
Context (k m : nat) (Hk : (0 < k)%nat) (Hm : (0 < m)%nat) (Hkm : (k + m <= 256)%nat).

(** C27: [QFS_MetadataBase] with the matrix of reed_sol.c, after any messages:
    a message for the lost chunk [i] of a stripe, with [i < 9] (the code takes the
    index modulo 9), where the chunks up to the [max k i]th other than the lost
    one are alive, on nodes of their own and not on that of the requestor, is
    answered by 1; then the queries for the chunk, which wait for it, return:
    [getStripeBlks] with [k] other chunks of the stripe, each with its node, no
    two on one node and none on the node of the requestor, and [getCoefficient]
    with coefficients that rebuild the chunk from them, for all data. *)
Theorem qfs_metadata :
  exists encMat, reed_sol_vandermonde_coding_matrix talloc k m 8 = Ok (Some encMat) /\
    let u := new_RSUtil k (m + k) encMat in
    forall st holder b ipStr l i ra, reachable inet_pton u k st -> length l = (m + k)%nat -> message_ok inet_pton holder k b ipStr l i ra ->
      exists st' helpers coef, ProcessMetadata inet_pton u k (message b ipStr l) st = Ok (st', (lit "dr_meta_ret:" ++ b, 1)) /\
        getStripeBlks (MetadataBase := qfs (qf_maps st')) b ra = Ok helpers /\
        length helpers = k /\ NoDup helpers.*1 /\ (forall ip n, (ip, n) ∈ helpers -> ip = holder n /\ ip <> ra /\ n <> b /\ n ∈ l.*1) /\
        getCoefficient (MetadataBase := qfs (qf_maps st')) b None = Ok coef /\
        forall size data content, (forall c, (c < k)%nat -> region size (data !!! c)) ->
          (forall j n a, l !! j = Some (n, a) -> j <> i -> content n = stripe_block k size (complete_enc_mat k (m + k) encMat) data j) ->
          content b = stripe_block k size (complete_enc_mat k (m + k) encMat) data i -> rebuilds size content b helpers.*2 coef.
Proof.
  destruct (rsutil_ready talloc Hta k m Hk Hm Hkm) as (C & coefs & HC & Hu & Hl' & Hb & HA & Hcoefs). exists C. split; [done|].
  cbv zeta. intros st holder b ipStr l i ra Hst Hll Hmo. pose proof (last_in _ _ _ Hk _ _ _ _ _ Hmo) as Hlast.
  destruct (Hcoefs i ltac:(lia)) as (c & Ec & Hcl).
  destruct (ProcessMetadata_ok inet_pton holder k Hk b ipStr l i ra Hmo (new_RSUtil k (m + k) C) c st Ec ltac:(lia)) as (st' & co & E & Hs & Hc & Hf).
  { eapply reachable_cleared, Hst. }
  exists st', (helper holder l i <$> seq 0 k), co. split; [exact E|]. cbn [getStripeBlks getCoefficient qfs]. unfold getStripeBlksQ, getCoefficientQ. rewrite Hs, Hc.
  split_and!; [done|by rewrite length_fmap, length_seq|..|done|].
  - rewrite <- list_fmap_compose. apply NoDup_fmap_2_strong; [|apply NoDup_seq]. intros t t' [_ Ht]%elem_of_seq [_ Ht']%elem_of_seq Et.
    destruct (others_range k Hk i t ltac:(lia)), (others_range k Hk i t' ltac:(lia)). eapply (others_inj k Hk), (mo_distinct _ _ _ _ _ _ _ _ Hmo); done.
  - intros ip n (t & [= -> ->] & [_ Ht]%elem_of_seq)%list_elem_of_fmap. destruct (others_range k Hk i t ltac:(lia)) as [H1 H2].
    destruct (mo_alive _ _ _ _ _ _ _ _ Hmo (others i t) H1 H2) as (n & a & Hn & _ & _ & Hv). rewrite (list_lookup_total_correct _ _ _ Hn). cbn [fst]. split_and!; [done|..].
    + pose proof (mo_nodes _ _ _ _ _ _ _ _ Hmo _ H1 H2) as Hra. by rewrite (list_lookup_total_correct _ _ _ Hn) in Hra.
    + by intros ->.
    + apply list_elem_of_fmap. exists (n, a). split; [done|]. by eapply list_elem_of_lookup_2.
  - intros size data content Hd Hcont Hcb. rewrite <- list_fmap_compose. replace (m + k - k)%nat with m in * by lia.
    eapply (first_rebuilds k m C i size data content b (fun j => (l !!! j).1)); try done; try lia.
    intros j Hj Hne. destruct (lookup_lt_is_Some_2 l j) as [[n a] Hn]; [lia|]. rewrite (list_lookup_total_correct _ _ _ Hn). by eapply Hcont.
Qed.

(** C28: Every message in the format of [QFS_MetadataBase] (a chunk, the node
    that asks for it, and up to [k + m] chunks, each with the text of its address
    or none, a colon between any two) is answered, whatever it lists and whatever
    came before, unless it is [endless]: with 1, and then neither query for the
    chunk waits, or with 0, and then both wait. *)
Theorem qfs_answers :
  exists encMat, reed_sol_vandermonde_coding_matrix talloc k m 8 = Ok (Some encMat) /\
    forall st b ipStr l, sent_ok b ipStr l -> (length l <= m + k)%nat -> ~ endless inet_pton k b l (requestor inet_pton ipStr st) ->
      exists st' (canRecover : bool),
        ProcessMetadata inet_pton (new_RSUtil k (m + k) encMat) k (message b ipStr l) st =
          Ok (st', (lit "dr_meta_ret:" ++ b, if canRecover then 1 else 0)) /\
        (if canRecover then
           exists helpers coef, getStripeBlks (MetadataBase := qfs (qf_maps st')) b 0 = Ok helpers /\ getCoefficient (MetadataBase := qfs (qf_maps st')) b None = Ok coef
         else getStripeBlks (MetadataBase := qfs (qf_maps st')) b 0 = Fault Blocked /\ getCoefficient (MetadataBase := qfs (qf_maps st')) b None = Fault Blocked).
Proof.
  destruct (rsutil_ready talloc Hta k m Hk Hm Hkm) as (C & coefs & HC & Hu & Hl' & Hb & HA & Hcoefs). exists C. split; [done|].
  intros st b ipStr l Hse Hll He.
  destruct (ProcessMetadata_answers inet_pton (new_RSUtil k (m + k) C) k Hk b ipStr l st Hse He) as (st' & ok & E & H).
  { intros i Hi. destruct (Hcoefs i ltac:(lia)) as (c & Ec & Hcl). exists c. split; [done|lia]. }
  exists st', ok. split; [exact E|]. cbn [getStripeBlks getCoefficient qfs]. unfold getStripeBlksQ, getCoefficientQ.
  destruct ok; [|by destruct H as [-> ->]]. destruct H as [[h ->] [co ->]]. by exists h, co.
Qed.
End promises.

(** C29: A message of that format can keep [ProcessMetadata] for ever: when the
    lost chunk is not among the chunks it lists, all of these are alive and the
    first [k] are on nodes of their own ([endless]), then after the last chunk
    its address, behind which no colon comes, is taken as the next chunk again
    and again, since the helpers are there and the index of the lost chunk never
    will be.  After no number of turns does the loop end (until its counter
    overflows), so the message is not answered; it holds the lock of the queries
    meanwhile. *)
Theorem qfs_never_answers inet_pton rsUtil k b ipStr l st : (0 < k)%nat -> sent_ok b ipStr l ->
  endless inet_pton k b l (requestor inet_pton ipStr st) -> (forall c, c ∈ l -> no_version c.2 <> no_version b) ->
  ProcessMetadata inet_pton rsUtil k (message b ipStr l) st = Fault Blocked /\
  forall turns, Z.of_nat turns < 2^31 -> exists bv s, start_scan inet_pton (message b ipStr l) st = Ok (b, bv, s) /\
    scan_entries inet_pton turns k b bv s = Fault Blocked.
Proof.
  intros Hk Hse He Hv. assert (Hl : no_version (field_before ipStr l (length l)) <> no_version b).
  { destruct (length l) as [|n] eqn:El; [destruct He as [He _]; lia|]. destruct (lookup_lt_is_Some_2 l n) as [c Hc]; [lia|]. cbn [field_before].
    rewrite (list_lookup_total_correct _ _ _ Hc). eapply Hv, list_elem_of_lookup_2, Hc. }
  split; [|intros turns _; by apply start_endless]. unfold ProcessMetadata.
  destruct (start_ok inet_pton b ipStr l st Hse) as (bv & _ & Est). cbv zeta in Est. rewrite Est, bind_ok. cbn [handleStr].
  destruct (start_endless inet_pton k Hk b ipStr l st Hse He Hl (length (rest_text ipStr l) + 3)) as (bv' & s & Es & H).
  rewrite Est in Es. injection Es as <- <-. by rewrite H.
Qed.

(** C30: [QFS_MetadataBase] forgets a chunk with the next message: after any
    processed message for another chunk, [getStripeBlks] for it waits, and
    [getCoefficient] answers no coefficients at all for the chunk of the message
    before, in place of waiting or of those it had. *)
Theorem qfs_forgets inet_pton rsUtil k st msg st' ans (requestorIP : Z) : ProcessMetadata inet_pton rsUtil k msg st = Ok (st', ans) ->
  qf_blkName st <> qf_blkName st' ->
  getStripeBlks (MetadataBase := qfs (qf_maps st')) (qf_blkName st) requestorIP = Fault Blocked /\
  getCoefficient (MetadataBase := qfs (qf_maps st')) (qf_blkName st) None = Ok ∅.
Proof.
  intros H Hne. destruct (ProcessMetadata_only _ _ _ _ _ _ _ H _ Hne) as [H1 H2]. rewrite lookup_insert_eq in H2.
  cbn [getStripeBlks getCoefficient qfs]. unfold getStripeBlksQ, getCoefficientQ. by rewrite H1, H2.
Qed.

(** ** Examples *)

(** Addresses of one character. *)
Definition example_pton (s : str) : option Z := match s with [c] => Some (Z.of_nat (nat_of_ascii c) - 48) | _ => None end.
Definition example_chunks : list chunk := [(lit "a.1", lit "1"); (lit "b.2", []); (lit "c.1", lit "3"); (lit "d.1", lit "4")].
Definition example_node (b : str) : Z := if bool_decide (b = lit "a.1") then 1 else if bool_decide (b = lit "c.1") then 3 else 4.
Definition example_start : qfs_state := mkQfsState new_Qfs [] 0.

Lemma example_message : message (lit "b.1") (lit "9") example_chunks = lit "b.1:9:a.1:1:b.2::c.1:3:d.1:4".
Proof. reflexivity. Qed.

Definition short_check (s : str) : bool := forallb (fun c => negb (Ascii.eqb c ":")) s && (length s <? 100)%nat.
Lemma example_short (s : str) : short_check s = true -> short_text s.
Proof.
  intros [H Hl%Nat.ltb_lt]%andb_prop. split; [|lia]. rewrite forallb_forall in H. intros Hin%list_elem_of_In. by apply H in Hin.
Qed.
Lemma example_sent b a (l : list chunk) :
  short_check b && short_check a && forallb (fun c => short_check c.1 && short_check c.2) l && (length (message b a l) <? 100)%nat = true -> sent_ok b a l.
Proof.
  intros [[[Hb Ha]%andb_prop Hl]%andb_prop Hs%Nat.ltb_lt]%andb_prop. split; [|lia]. split_and!; [by apply example_short..|]. intros c Hc.
  rewrite forallb_forall in Hl. by apply list_elem_of_In, Hl, andb_prop in Hc as [?%example_short ?%example_short].
Qed.

Lemma example_message_ok : message_ok example_pton example_node 2 (lit "b.1") (lit "9") example_chunks 1 9.
Proof.
  assert (Hj : forall j, (j <= 2 `max` 1)%nat -> j <> 1%nat -> j = 0%nat \/ j = 2%nat) by lia.
  split.
  - by apply example_sent.
  - reflexivity.
  - lia.
  - exists (lit "b.2"). split; reflexivity.
  - intros j H1 H2. destruct (Hj j H1 H2) as [->| ->]; eexists _, _; (split_and!; [reflexivity|done|reflexivity|done]).
  - intros j H1 H2. destruct (Hj j H1 H2) as [->| ->]; done.
  - intros j j' H1 H1' H2 H2'. destruct (Hj j H1 H2) as [->| ->], (Hj j' H1' H2') as [->| ->]; done.
Qed.

Lemma qfs_metadata_witness :
  exists encMat st' helpers, reed_sol_vandermonde_coding_matrix (fun n => Some (replicate n 77)) 2 2 8 = Ok (Some encMat) /\
    ProcessMetadata example_pton (new_RSUtil 2 4 encMat) 2 (lit "b.1:9:a.1:1:b.2::c.1:3:d.1:4") example_start = Ok (st', (lit "dr_meta_ret:b.1", 1)) /\
    getStripeBlks (MetadataBase := qfs (qf_maps st')) (lit "b.1") 9 = Ok helpers /\ length helpers = 2%nat.
Proof.
  destruct (qfs_metadata example_pton (fun n => Some (replicate n 77)) ltac:(intros n; eexists; split; [reflexivity|apply length_replicate])
    2 2 ltac:(lia) ltac:(lia) ltac:(lia)) as (C & HC & H).
  destruct (H example_start example_node (lit "b.1") (lit "9") example_chunks 1%nat 9 (qfs_start _ _ _ _) eq_refl example_message_ok)
    as (st' & helpers & coef & E & Hh & Hl & _).
  exists C, st', helpers. split_and!; [exact HC|exact E|exact Hh|exact Hl].
Defined.

Lemma qfs_answers_witness :
  exists encMat st' (canRecover : bool), reed_sol_vandermonde_coding_matrix (fun n => Some (replicate n 77)) 2 2 8 = Ok (Some encMat) /\
    ProcessMetadata example_pton (new_RSUtil 2 4 encMat) 2 (lit "b.1:9:a.1:1:b.2::c.1:") example_start =
      Ok (st', (lit "dr_meta_ret:b.1", if canRecover then 1 else 0)).
Proof.
  destruct (qfs_answers example_pton (fun n => Some (replicate n 77)) ltac:(intros n; eexists; split; [reflexivity|apply length_replicate])
    2 2 ltac:(lia) ltac:(lia) ltac:(lia)) as (C & HC & H).
  destruct (H example_start (lit "b.1") (lit "9") [(lit "a.1", lit "1"); (lit "b.2", []); (lit "c.1", [])]) as (st' & ok & E & _).
  - by apply example_sent.
  - cbn. lia.
  - intros (_ & He & _). by destruct (He (lit "b.2", []) ltac:(right; left)).
  - exists C, st', ok. split; [exact HC|exact E].
Defined.

(** The lost chunk is not listed. *)
Lemma qfs_never_answers_witness :
  ProcessMetadata example_pton (new_RSUtil 2 4 [1; 1; 1; 2]) 2 (lit "b.1:9:a.1:1:c.1:3:d.1:4") example_start = Fault Blocked.
Proof.
  refine (proj1 (qfs_never_answers example_pton (new_RSUtil 2 4 [1; 1; 1; 2]) 2 (lit "b.1") (lit "9") [(lit "a.1", lit "1"); (lit "c.1", lit "3"); (lit "d.1", lit "4")]
    example_start _ _ _ _)).
  - lia.
  - by apply example_sent.
  - split_and!; [cbn; lia| |].
    + intros c Hc. repeat (apply elem_of_cons in Hc as [->|Hc]; [by split|]). by apply not_elem_of_nil in Hc.
    + vm_compute. repeat (apply NoDup_cons; split; [set_solver|]). apply NoDup_nil_2.
  - intros c Hc. repeat (apply elem_of_cons in Hc as [->|Hc]; [done|]). by apply not_elem_of_nil in Hc.
Defined.

(** A state in which [b.1] has its helpers and coefficients, and the message of
    another chunk. *)
Definition example_util : RSUtil := new_RSUtil 2 4 [1; 1; 1; 2].
Definition example_then (msg : str) (st : qfs_state) : qfs_state :=
  match ProcessMetadata example_pton example_util 2 msg st with Ok (st', _) => st' | Fault _ => st end.
Definition example_second : qfs_state := example_then (lit "b.1:9:a.1:1:b.2::c.1:3:d.1:4") example_start.

Lemma qfs_forgets_witness :
  getCoefficient (MetadataBase := qfs (qf_maps example_second)) (lit "b.1") None <> Ok ∅ /\
  getCoefficient (MetadataBase := qfs (qf_maps (example_then (lit "z.1:9:y.1:1:") example_second))) (lit "b.1") None = Ok ∅.
Proof.
  split; [vm_compute; discriminate|].
  refine (proj2 (qfs_forgets example_pton example_util 2 example_second (lit "z.1:9:y.1:1:") (example_then (lit "z.1:9:y.1:1:") example_second) (lit "dr_meta_ret:z.1", 0) 9 _ _)).
  - vm_compute. reflexivity.
  - vm_compute. discriminate.
Defined.
