(* ===== verification/ConfigFile.v ===== *)
(** * Reading the configuration (Config.cc)

    The constructor of [Config] goes through the attributes of the XML file.  An
    attribute is the list of its children, each with its tag and its text, as
    tinyxml2 gives them; [inet_addr] and what the sockets answer are parameters. *)
From coqutil Require Import Datatypes.RecordSetters.
From Stdlib Require Import Ascii String.
From stdpp Require Import strings.
From S2P Require Import Prelude Command Text Config Hdfs3.
Import TriangleBracketNotations.

Module Settings.
(** The members of [Config] (Config.hh); a [size_t] is a [Z] in [0, 2^64). *)
Record t := mk {
  _ecK : Z;
  _ecN : Z;
  _packetSize : Z;
  _packetSkipSize : Z;
  _packetCnt : Z;
  _pathSelectionEnabled : bool;
  _linkWeightConfigFile : str;
  _rsConfigFile : str;
  _helpersIPs : list Z;
  _coordinatorIP : Z;
  _localIP : Z;
  _rackInfos : gmap Z str;
  _shuffle : bool;
  _rackAware : bool;
  _loadbalance : bool;
  _msscheduling : bool;
  _fileSysType : str;
  _stripeStore : str;
  _hdfsHome : str;
  _blkDir : str;
  _DRPolicy : str;
  _ECPipePolicy : str;
  _UPPolicy : str;
  _flipOpt : bool;
  _log_size : Z;
  _UPWay : str;
  _blocksize : Z;
  _updDataDir : str;
  _traceDir : str;
  _traceType : str;
  _coCmdDistThreadNum : Z;
  _coCmdReqHandlerThreadNum : Z;
  _agWorkerThreadNum : Z
}.

(** A new object: the members without an initializer hold what was there. *)
Definition new (junk : nat -> Z) : t := {|
  _ecK := junk 0%nat; _ecN := junk 1%nat; _packetSize := junk 2%nat; _packetSkipSize := 0; _packetCnt := junk 3%nat;
  _pathSelectionEnabled := false; _linkWeightConfigFile := []; _rsConfigFile := [];
  _helpersIPs := []; _coordinatorIP := junk 4%nat; _localIP := junk 5%nat;
  _rackInfos := ∅; _shuffle := true; _rackAware := false; _loadbalance := false; _msscheduling := false;
  _fileSysType := []; _stripeStore := []; _hdfsHome := []; _blkDir := []; _DRPolicy := []; _ECPipePolicy := [];
  _UPPolicy := []; _flipOpt := false; _log_size := junk 6%nat; _UPWay := []; _blocksize := junk 7%nat;
  _updDataDir := []; _traceDir := []; _traceType := [];
  _coCmdDistThreadNum := 1; _coCmdReqHandlerThreadNum := 1; _agWorkerThreadNum := 1
|}.
End Settings.
Import Settings.

(** ** Elements *)

Record child := mkChild { tag : str; GetText : option str }.
Abbreviation element := (list child).

(** [FirstChildElement], with what follows it, and [NextSiblingElement]: the
    first child with a tag among those that are left. *)
Fixpoint first_tag (t : str) (e : element) : option (child * element) :=
  match e with
  | [] => None
  | c :: e => if decide (tag c = t) then Some (c, e) else first_tag t e
  end.

(** A [std::string] made of a null pointer throws. *)
Definition string_of (t : option str) : res str := res_of_option (Exit 134) t.

Definition attName (e : element) : res (str * element) :=
  '(c, rest) ← res_of_option Undef (first_tag (lit "name") e);
  s ← string_of (GetText c);
  Ok (s, rest).

(** [ele -> NextSiblingElement("value") -> GetText()] as a [std::string], as a
    pointer, and as a number. *)
Definition value_ptr (rest : element) : res (option str) :=
  '(c, _) ← res_of_option Undef (first_tag (lit "value") rest);
  Ok (GetText c).
Definition value_text (rest : element) : res str := t ← value_ptr rest; string_of t.
Definition value_cstr (rest : element) : res str := t ← value_ptr rest; res_of_option Undef t.
Definition value_int (rest : element) : res Z := t ← value_text rest; stoi t.
Definition value_size (rest : element) : res Z := v ← value_int rest; Ok (v mod 2^64).
Definition value_true (rest : element) : res bool := t ← value_cstr rest; Ok (bool_decide (t = lit "true")).

(** ** The constructor *)

(** The names the constructor knows, in the order in which it compares them. *)
Inductive key :=
  | K_erasure_code_k
  | K_erasure_code_n
  | K_rs_code_config_file
  | K_packet_count
  | K_packet_size
  | K_packet_skipsize
  | K_helper_worker_thread_num
  | K_degraded_read_policy
  | K_update_policy
  | K_update_opt
  | K_log_size_MB
  | K_block_size_KB
  | K_update_request_way
  | K_ecpipe_policy
  | K_file_system_type
  | K_stripe_store
  | K_block_directory
  | K_update_block_directory
  | K_trace_directory
  | K_trace_type
  | K_coordinator_address
  | K_local_ip_address
  | K_helpers_address
  | K_path_selection_enabled
  | K_link_weight_config_file
  | K_rack_aware_enable
  | K_rack_load_balance
  | K_multi_stripe_scheduling.
#[export] Instance key_eq : EqDecision key. Proof. solve_decision. Defined.

Definition keys : list (str * key) := [
  (lit "erasure.code.k", K_erasure_code_k);
  (lit "erasure.code.n", K_erasure_code_n);
  (lit "rs.code.config.file", K_rs_code_config_file);
  (lit "packet.count", K_packet_count);
  (lit "packet.size", K_packet_size);
  (lit "packet.skipsize", K_packet_skipsize);
  (lit "helper.worker.thread.num", K_helper_worker_thread_num);
  (lit "degraded.read.policy", K_degraded_read_policy);
  (lit "update.policy", K_update_policy);
  (lit "update.opt", K_update_opt);
  (lit "log.size(MB)", K_log_size_MB);
  (lit "block.size(KB)", K_block_size_KB);
  (lit "update.request.way", K_update_request_way);
  (lit "ecpipe.policy", K_ecpipe_policy);
  (lit "file.system.type", K_file_system_type);
  (lit "stripe.store", K_stripe_store);
  (lit "block.directory", K_block_directory);
  (lit "update.block.directory", K_update_block_directory);
  (lit "trace.directory", K_trace_directory);
  (lit "trace.type", K_trace_type);
  (lit "coordinator.address", K_coordinator_address);
  (lit "local.ip.address", K_local_ip_address);
  (lit "helpers.address", K_helpers_address);
  (lit "path.selection.enabled", K_path_selection_enabled);
  (lit "link.weight.config.file", K_link_weight_config_file);
  (lit "rack.aware.enable", K_rack_aware_enable);
  (lit "rack.load.balance", K_rack_load_balance);
  (lit "multi.stripe.scheduling", K_multi_stripe_scheduling)].
Definition key_of (attName : str) : option key := snd ∘ snd <$> list_find (fun p => p.1 = attName) keys.

Section config.
Context (inet_addr : str -> Z).

(** The object under construction, and [autoLocalIp]. *)
Record reading := mkReading { settings : Settings.t; autoLocalIp : bool }.
Definition assign (f : Settings.t -> Settings.t) (r : reading) : reading := mkReading (f (settings r)) (autoLocalIp r).

(** One value of [helpers.address]: a rack and an address. *)
Definition helper_address (tempstr : str) : res (str * Z) :=
  let pos := wrap_s32 (find tempstr (lit "/") 0) in
  let len := wrap_s32 (Z.of_nat (length tempstr)) in
  rack ← substr tempstr 0 (pos mod 2^64);
  ip ← substr tempstr ((pos + 1) mod 2^64) ((len - pos - 1) mod 2^64);
  Ok (rack, inet_addr ip).

Definition add_helper (h : str * Z) (s : Settings.t) : Settings.t :=
  s <| Settings._helpersIPs := Settings._helpersIPs s ++ [h.2] |> <| _rackInfos := <[h.2 := h.1]> (_rackInfos s) |>.

(** The standalone mode shares the formats of HDFS. *)
Definition file_system_of (x : str) : str := if bool_decide (x = lit "standalone") then lit "HDFS" else x.

(** QFS puts a header of 16384 bytes before a block. *)
Definition set_file_system (fs : str) (s : Settings.t) : Settings.t :=
  let s := s <| _fileSysType := fs |> in
  if bool_decide (fs = lit "QFS") then s <| Settings._packetSkipSize := 16384 |> else s.

(** All the values of an attribute. *)
Definition values (rest : element) : list (option str) := GetText <$> filter (fun c => tag c = lit "value") rest.
Definition helpers_of (rest : element) : res (list (str * Z)) :=
  for_each (values rest) (fun v hs => t ← string_of v; h ← helper_address t; Ok (hs ++ [h])) [].

(** What an attribute of a known name does to the object. *)
Definition key_update (k : key) (v : element) : res (reading -> reading) :=
  match k with
  | K_erasure_code_k => x ← value_size v; Ok (assign (fun s => s <| Settings._ecK := x |>))
  | K_erasure_code_n => x ← value_size v; Ok (assign (fun s => s <| Settings._ecN := x |>))
  | K_rs_code_config_file => x ← value_text v; Ok (assign (fun s => s <| _rsConfigFile := x |>))
  | K_packet_count => x ← value_size v; Ok (assign (fun s => s <| Settings._packetCnt := x |>))
  | K_packet_size => x ← value_size v; Ok (assign (fun s => s <| Settings._packetSize := x |>))
  | K_packet_skipsize => x ← value_size v; Ok (assign (fun s => s <| Settings._packetSkipSize := x |>))
  | K_helper_worker_thread_num => x ← value_size v; Ok (assign (fun s => s <| _agWorkerThreadNum := x |>))
  | K_degraded_read_policy => x ← value_text v; Ok (assign (fun s => s <| _DRPolicy := x |>))
  | K_update_policy => x ← value_text v; Ok (assign (fun s => s <| Settings._UPPolicy := x |>))
  | K_update_opt => x ← value_true v; Ok (assign (fun s => s <| _flipOpt := x |>))
  | K_log_size_MB => x ← value_int v; Ok (assign (fun s => s <| Settings._log_size := x |>))
  | K_block_size_KB => x ← value_int v; Ok (assign (fun s => s <| Settings._blocksize := x |>))
  | K_update_request_way => x ← value_text v; Ok (assign (fun s => s <| Settings._UPWay := x |>))
  | K_ecpipe_policy => x ← value_text v; Ok (assign (fun s => s <| _ECPipePolicy := x |>))
  | K_file_system_type =>
      x ← value_text v;
      Ok (assign (set_file_system (file_system_of x)))
  | K_stripe_store => x ← value_text v; Ok (assign (fun s => s <| _stripeStore := x |>))
  | K_block_directory => x ← value_text v; Ok (assign (fun s => s <| _blkDir := x |>))
  | K_update_block_directory => x ← value_text v; Ok (assign (fun s => s <| _updDataDir := x |>))
  | K_trace_directory => x ← value_text v; Ok (assign (fun s => s <| _traceDir := x |>))
  | K_trace_type => x ← value_text v; Ok (assign (fun s => s <| Settings._traceType := x |>))
  | K_coordinator_address => x ← value_cstr v; Ok (assign (fun s => s <| Settings._coordinatorIP := inet_addr x |>))
  | K_local_ip_address =>
      x ← value_cstr v;
      if bool_decide (x = lit "auto" \/ x = lit "AUTO") then Ok (fun r => mkReading (settings r) true)
      else Ok (assign (fun s => s <| Settings._localIP := inet_addr x |>))
  | K_helpers_address => hs ← helpers_of v; Ok (assign (fun s => foldl (fun s h => add_helper h s) s hs))
  | K_path_selection_enabled => x ← value_true v; Ok (assign (fun s => s <| _pathSelectionEnabled := x |>))
  | K_link_weight_config_file => x ← value_text v; Ok (assign (fun s => s <| _linkWeightConfigFile := x |>))
  | K_rack_aware_enable => x ← value_true v; Ok (assign (fun s => s <| Settings._rackAware := x |> <| Settings._shuffle := negb x |>))
  | K_rack_load_balance => x ← value_true v; Ok (assign (fun s => s <| _loadbalance := x |>))
  | K_multi_stripe_scheduling => x ← value_true v; Ok (assign (fun s => s <| _msscheduling := x |>))
  end.

Definition attribute_update (e : element) : res (reading -> reading) :=
  '(n, v) ← attName e;
  match key_of n with Some k => key_update k v | None => Ok (fun r => r) end.

(** The loop over the attributes. *)
Definition read_attributes (attributes : list element) (r : reading) : res reading :=
  for_each attributes (fun e r => f ← attribute_update e; Ok (f r)) r.

(** [detectLocalIp]: whether there is a socket, and the local address of the
    route to a peer, if there is one. *)
Definition INADDR_NONE : Z := 2^32 - 1.
Definition detectLocalIp (sock : bool) (route : Z -> option Z) (coordinatorIp : Z) : Z :=
  if negb sock then inet_addr (lit "127.0.0.1") else
  let peer := if bool_decide (coordinatorIp = 0 \/ coordinatorIp = INADDR_NONE) then inet_addr (lit "8.8.8.8") else coordinatorIp in
  default (inet_addr (lit "127.0.0.1")) (route peer).

Definition Config_Config (sock : bool) (route : Z -> option Z) (junk : nat -> Z) (attributes : list element) : res Settings.t :=
  r ← read_attributes attributes (mkReading (Settings.new junk) false);
  let s := settings r in
  Ok (if autoLocalIp r then s <| Settings._localIP := detectLocalIp sock route (Settings._coordinatorIP s) |> else s).

End config.

(** [getConfigPathFromEnv] *)
Definition getConfigPathFromEnv (CORD_CONFIG : option str) : str :=
  match CORD_CONFIG with Some (a :: p) => a :: p | _ => lit "conf/config.xml" end.

(** ** The order of the attributes *)

Section order.
Context (inet_addr : str -> Z).
Abbreviation update := (attribute_update inet_addr).

Definition name_of (e : element) : option str := match attName e with Ok (n, _) => Some n | Fault _ => None end.

(** The two attributes that set one member: [file.system.type] sets the packets'
    header when the file system is QFS. *)
Definition sets_header (e : element) : bool :=
  bool_decide (name_of e = Some (lit "file.system.type")) &&
  match attName e with
  | Ok (_, v) => match value_text v with Ok t => bool_decide (t = lit "QFS") | Fault _ => false end
  | Fault _ => false
  end.

Lemma add_helpers hs s : foldl (fun s h => add_helper h s) s hs =
  s <| Settings._helpersIPs := Settings._helpersIPs s ++ hs.*2 |> <| _rackInfos := foldl (fun m h => <[h.2 := h.1]> m) (_rackInfos s) hs |>.
Proof.
  revert s. induction hs as [|h hs IH]; intros s; cbn [foldl fmap list_fmap]; [rewrite app_nil_r; by destruct s|].
  rewrite IH. destruct s. unfold add_helper. cbn. by rewrite <- app_assoc.
Qed.

Lemma set_file_system_members fs s : set_file_system fs s =
  s <| _fileSysType := fs |> <| Settings._packetSkipSize := if bool_decide (fs = lit "QFS") then 16384 else Settings._packetSkipSize s |>.
Proof. unfold set_file_system. destruct s. by case_bool_decide. Qed.

Lemma file_system_not_qfs x : x <> lit "QFS" -> file_system_of x <> lit "QFS".
Proof. unfold file_system_of. by case_bool_decide. Qed.

Lemma key_of_name n k : key_of n = Some k -> (n, k) ∈ keys.
Proof.
  unfold key_of. intros ([i p] & H & E)%fmap_Some. apply list_find_Some in H as (Hi & <- & _). cbn in E. subst k.
  destruct p. by eapply list_elem_of_lookup_2.
Qed.

Lemma keys_inj n1 n2 k : (n1, k) ∈ keys -> (n2, k) ∈ keys -> n1 = n2.
Proof.
  assert (Hn : NoDup keys.*2) by decided. intros [i Hi]%list_elem_of_lookup [j Hj]%list_elem_of_lookup.
  assert (i = j) as ->; [|congruence]. by apply (NoDup_lookup _ i j k Hn); rewrite list_lookup_fmap, ?Hi, ?Hj.
Qed.

(** Updates of different members can be exchanged. *)
Lemma keys_commute k1 k2 v1 v2 f1 f2 r : k1 <> k2 ->
  (k1 = K_file_system_type -> k2 = K_packet_skipsize -> value_text v1 <> Ok (lit "QFS")) ->
  (k2 = K_file_system_type -> k1 = K_packet_skipsize -> value_text v2 <> Ok (lit "QFS")) ->
  key_update inet_addr k1 v1 = Ok f1 -> key_update inet_addr k2 v2 = Ok f2 -> f1 (f2 r) = f2 (f1 r).
Proof.
  intros Hne H12 H21 H1 H2.
  destruct k1; cbn [key_update] in H1; res_inv; simplify_eq.
  all: destruct k2; try done; cbn [key_update] in H2; res_inv; simplify_eq.
  all: try reflexivity.
  all: repeat match goal with H : (if bool_decide ?P then _ else _) = Ok _ |- _ => destruct (bool_decide P); injection H as <- end; try reflexivity.
  all: unfold assign; rewrite ?add_helpers, ?set_file_system_members; try reflexivity.
  1: rewrite (bool_decide_false (file_system_of v0 = lit "QFS")) by (apply file_system_not_qfs; intros ->; by apply H21).
  2: rewrite (bool_decide_false (file_system_of v = lit "QFS")) by (apply file_system_not_qfs; intros ->; by apply H12).
  all: reflexivity.
Qed.

(** Every attribute once, and no header set by hand for QFS. *)
Definition sensible (attributes : list element) : Prop :=
  NoDup (name_of <$> attributes) /\
  forall e, e ∈ attributes -> sets_header e = true -> Some (lit "packet.skipsize") ∉ (name_of <$> attributes).

Lemma updates_commute e1 e2 f1 f2 r : update e1 = Ok f1 -> update e2 = Ok f2 -> name_of e1 <> name_of e2 ->
  (sets_header e1 = true -> name_of e2 <> Some (lit "packet.skipsize")) -> (sets_header e2 = true -> name_of e1 <> Some (lit "packet.skipsize")) ->
  f1 (f2 r) = f2 (f1 r).
Proof.
  unfold attribute_update, sets_header, name_of. intros H1 H2.
  destruct (attName e1) as [[n1 v1]|]; [|done]. destruct (attName e2) as [[n2 v2]|]; [|done]. rewrite bind_ok in H1, H2.
  intros Hne Hh1 Hh2. destruct (key_of n1) as [k1|] eqn:E1; [|by injection H1 as <-]. destruct (key_of n2) as [k2|] eqn:E2; [|by injection H2 as <-].
  apply key_of_name in E1, E2.
  assert (Hfs : (lit "file.system.type", K_file_system_type) ∈ keys) by (apply list_elem_of_lookup; by exists 14%nat).
  assert (Hsk : (lit "packet.skipsize", K_packet_skipsize) ∈ keys) by (apply list_elem_of_lookup; by exists 5%nat).
  apply (keys_commute k1 k2 v1 v2); [| | |done..].
  - intros ->. apply Hne. f_equal. by eapply keys_inj.
  - intros -> -> E. rewrite (keys_inj _ _ _ E1 Hfs), (keys_inj _ _ _ E2 Hsk), E in Hh1. by apply Hh1.
  - intros -> -> E. rewrite (keys_inj _ _ _ E1 Hsk), (keys_inj _ _ _ E2 Hfs), E in Hh2. by apply Hh2.
Qed.

Lemma sensible_perm l l' : l ≡ₚ l' -> sensible l -> sensible l'.
Proof. intros Hp [H1 H2]. split; [by rewrite <- Hp|]. intros e He. rewrite <- Hp. apply H2. by rewrite Hp. Qed.

Lemma sensible_tail e l : sensible (e :: l) -> sensible l.
Proof.
  intros [[_ H1]%NoDup_cons H2]. split; [done|]. intros e' He Hs Hin. apply (H2 e'); [by right|done|]. by right.
Qed.

Lemma read_cons e l r : read_attributes inet_addr (e :: l) r = (f ← update e; read_attributes inet_addr l (f r)).
Proof. unfold read_attributes. cbn [for_each]. by destruct (update e). Qed.

Lemma read_attributes_perm l l' r r' : l ≡ₚ l' -> sensible l -> read_attributes inet_addr l r = Ok r' -> read_attributes inet_addr l' r = Ok r'.
Proof.
  intros Hp. revert r. induction Hp as [|e l l' Hp IH|e1 e2 l|l1 l2 l3 Hp1 IH1 Hp2 IH2]; intros r Hs E; [done|..].
  - rewrite read_cons in *. res_inv. rewrite Hm, bind_ok. apply IH; [by eapply sensible_tail|done].
  - rewrite read_cons in E. res_inv. rename v into f2, Hm into E2. rewrite read_cons in Hk. res_inv. rename v into f1, Hm into E1.
    rewrite read_cons, E1, bind_ok, read_cons, E2, bind_ok. destruct Hs as [[Hn _]%NoDup_cons Hh].
    rewrite (updates_commute e2 e1 f2 f1 r E2 E1); [done|..].
    + intros Heq. apply Hn. rewrite Heq. left.
    + intros Hs2 Heq. apply (Hh e2); [by left|done|]. rewrite <- Heq. right. left.
    + intros Hs2 Heq. apply (Hh e1); [by right; left|done|]. rewrite <- Heq. left.
  - apply IH2; [by eapply sensible_perm|]. by apply IH1.
Qed.

(** C24: The configuration does not depend on the order of its attributes: when
    every attribute is there at most once (and [packet.skipsize] is not given
    with QFS, which sets it), any order of them gives the same configuration. *)
Theorem Config_order sock route junk attributes attributes' s :
  sensible attributes -> attributes ≡ₚ attributes' ->
  Config_Config inet_addr sock route junk attributes = Ok s -> Config_Config inet_addr sock route junk attributes' = Ok s.
Proof.
  intros Hs Hp. unfold Config_Config. intros E. res_inv. by rewrite (read_attributes_perm _ _ _ _ Hp Hs Hm).
Qed.
End order.

(** ** The files of conf/ *)

Definition attribute (n : string) (vs : list str) : element := mkChild (lit "name") (Some (lit n)) :: ((fun v => mkChild (lit "value") (Some v)) <$> vs).
Arguments attribute n%_string_scope vs.

(** conf/config.xml *)
Definition config_xml : list element := [
  attribute "erasure.code.k" [lit "4"];
  attribute "erasure.code.n" [lit "8"];
  attribute "rs.code.config.file" [lit "conf/rsEncMat_4_8"];
  attribute "packet.size" [lit "32768"];
  attribute "packet.count" [lit "32"];
  attribute "degraded.read.policy" [lit "conv"];
  attribute "update.policy" [lit "all"];
  attribute "log.size(MB)" [lit "4"];
  attribute "update.request.way" [lit "trace"];
  attribute "block.size(KB)" [lit "64"];
  attribute "ecpipe.policy" [lit "basic"];
  attribute "coordinator.address" [lit "192.168.140.101"];
  attribute "file.system.type" [lit "standalone"];
  attribute "stripe.store" [lit "stripeStore"];
  attribute "block.directory" [lit "standalone-test"];
  attribute "update.block.directory" [lit "upd-data"];
  attribute "trace.directory" [lit "trace"];
  attribute "trace.type" [lit "Ali"];
  attribute "helpers.address" [lit "default/192.168.140.102"; lit "default/192.168.140.103"; lit "default/192.168.140.104"; lit "default/192.168.140.105"; lit "default/192.168.140.106"; lit "default/192.168.140.107"; lit "default/192.168.140.108"; lit "default/192.168.140.109"];
  attribute "local.ip.address" [lit "auto"]].

(** conf/config.hdfs3.xml *)
Definition config_hdfs3_xml : list element := [
  attribute "erasure.code.k" [lit "3"];
  attribute "erasure.code.n" [lit "4"];
  attribute "rs.code.config.file" [lit "conf/rsEncMat_3_4"];
  attribute "packet.size" [lit "32768"];
  attribute "packet.count" [lit "32"];
  attribute "degraded.read.policy" [lit "ecpipe"];
  attribute "block.size(KB)" [lit "1024"];
  attribute "ecpipe.policy" [lit "basic"];
  attribute "coordinator.address" [lit "192.168.0.1"];
  attribute "file.system.type" [lit "HDFS3"];
  attribute "block.directory" [lit "/data/hdfs/dfs/data/current/BP-REPLACE-ME/current/finalized"];
  attribute "helpers.address" [lit "default/192.168.0.3"; lit "default/192.168.0.4"; lit "default/192.168.0.5"; lit "default/192.168.0.6"];
  attribute "local.ip.address" [lit "auto"]].

(** Some number for every address. *)
Definition example_inet_addr (s : str) : Z := foldl (fun z a => (31 * z + Z.of_N (N_of_ascii a)) mod 2^32) 0 s.
Definition example_config (attributes : list element) : res Settings.t :=
  Config_Config example_inet_addr true (fun _ => Some 7) (fun _ => 99) attributes.

Lemma Config_order_witness :
  exists s, example_config config_xml = Ok s /\ example_config (reverse config_xml) = Ok s /\ Settings._ecK s = 4 /\ _fileSysType s = lit "HDFS".
Proof.
  assert (E : exists s, example_config config_xml = Ok s /\ Settings._ecK s = 4 /\ _fileSysType s = lit "HDFS") by (vm_compute; eexists; repeat split).
  destruct E as (s & E & H1 & H2). exists s. split; [exact E|]. split; [|split; [exact H1|exact H2]].
  apply (Config_order example_inet_addr true (fun _ => Some 7) (fun _ => 99) config_xml (reverse config_xml) s).
  - split; [decided|]. intros e He Hs.
    assert (Hall : Forall (fun e => sets_header e = false) config_xml) by (repeat (apply Forall_cons; split; [vm_compute; reflexivity|]); apply Forall_nil_2).
    rewrite Forall_forall in Hall. rewrite (Hall e He) in Hs. discriminate Hs.
  - symmetry. apply reverse_Permutation.
  - exact E.
Defined.
