(* ===== verification/CoordInit.v ===== *)
(** * The start of a coordinator (Coordinator.cc, ECCoordinator.cc, ECHelper.cc)

    [Coordinator::init] reads the coding matrix from a file; the entry programs
    choose the coordinator and the worker by the configuration. *)
From coqutil Require Import Datatypes.RecordSetters.
From Stdlib Require Import Ascii.
From stdpp Require Import strings.
From S2P Require Import Prelude Command Text Galois GF256 Jerasure Gauss Vandermonde ReedSol Encode RSUtil Config Hdfs3 Hdfs3Laws ConfigFile.
Import TriangleBracketNotations.

(** ** Reading numbers *)

(** An [ifstream]: the text that is left, and whether no extraction failed. *)
Record istream := mkStream { left_text : str; good : bool }.

(** [ifs >> x] for an [int] that holds [old]: the end of the text leaves it, a
    text that is no number makes it 0, and a number out of range is clamped; all
    three make the stream fail. *)
Definition INT_MIN : Z := - 2^31.
Definition INT_MAX32 : Z := 2^31 - 1.
Definition extract_int (ifs : istream) (old : Z) : istream * Z :=
  if negb (good ifs) then (ifs, old) else
  match skip_space (left_text ifs) with
  | [] => (mkStream [] false, old)
  | s =>
    let '(neg, s) := sign s in
    match s with
    | a :: _ =>
      if is_digit a then
        let '(v, rest) := digits 0 s in
        let v := if neg then - v else v in
        (mkStream rest (bool_decide (is_s32 v)), Z.max INT_MIN (Z.min INT_MAX32 v))
      else (mkStream s false, 0)
    | [] => (mkStream [] false, 0)
    end
  end.

(** [init]: the matrix from [malloc] and the two loops that fill it. *)
Definition read_number (pos : nat) (st : istream * list Z) : res (istream * list Z) :=
  let '(ifs, m) := st in
  old ← res_of_option Undef (m !! pos);
  let '(ifs, x) := extract_int ifs old in
  Ok (ifs, <[pos := x]> m).
Definition read_rsEncMat (ecM ecK : nat) (junk : list Z) (text : str) : res (list Z) :=
  '(_, m) ← for_each (seq 0 ecM) (fun i => for_each (seq 0 ecK) (fun j => read_number (ecK * i + j))) (mkStream text true, junk);
  Ok m.

(** *** Numbers between spaces *)

Definition blank (s : str) : Prop := Forall (fun a => is_space a = true) s.
Definition no_digit (s : str) : Prop := match s with a :: _ => is_digit a = false | [] => True end.

(** The numbers [zs], each behind its spaces, and what follows. *)
Definition spaced (seps : list str) (zs : list Z) (trail : str) : str := concat (zip_with (fun sp z => sp ++ to_string z) seps zs) ++ trail.

Lemma skip_blank sp s : blank sp -> skip_space (sp ++ s) = skip_space s.
Proof. induction 1 as [|a sp Ha _ IH]; [done|]. cbn [app skip_space]. by rewrite Ha. Qed.

Lemma digit_facts a : is_digit a = true -> is_space a = false /\ a <> "-"%char /\ a <> "+"%char.
Proof. destruct a as [[] [] [] [] [] [] [] []]; try discriminate; intros _; by split_and!. Qed.

Lemma to_string_all_digits z : 0 <= z -> Forall (fun a => is_digit a = true) (to_string z).
Proof. intros Hz. apply to_string_digits; [done|constructor]. Qed.

Lemma digits_printed z rest : 0 <= z < 10^20 -> no_digit rest -> digits 0 (to_string z ++ rest) = (z, rest).
Proof.
  intros Hz Hr. rewrite digits_run by (done || (apply to_string_all_digits; lia)). f_equal.
  destruct (digits_to_string 20 z [] 0) as (k & _ & E); [done|]. unfold to_string. rewrite E. cbn. lia.
Qed.

Lemma extract_printed sp z rest old : blank sp -> 0 <= z < 2^31 -> no_digit rest ->
  extract_int (mkStream (sp ++ to_string z ++ rest) true) old = (mkStream rest true, z).
Proof.
  intros Hsp Hz Hr. unfold extract_int. cbn [negb good left_text]. rewrite skip_blank by done.
  pose proof (to_string_all_digits z ltac:(lia)) as Hd. pose proof (to_string_nonempty z) as Hne. pose proof (digits_printed z rest ltac:(lia) Hr) as Hp.
  destruct (to_string z) as [|a s]; [done|]. apply Forall_cons in Hd as [Ha _]. destruct (digit_facts a Ha) as (H1 & H2 & H3).
  cbn [app skip_space] in *. rewrite H1. unfold sign. rewrite !decide_False by done. rewrite Ha, Hp, bool_decide_true by (unfold is_s32; lia).
  do 2 f_equal. unfold INT_MIN, INT_MAX32. lia.
Qed.

Lemma blank_no_digit sp s : blank sp -> sp <> [] -> no_digit (sp ++ s).
Proof.
  intros Hsp Hne. destruct Hsp as [|a sp Ha _]; [done|]. cbn. destruct (is_digit a) eqn:E; [|done]. apply digit_facts in E as [E _]. congruence.
Qed.

(** The texts the matrix is read from. *)
Record matrix_text (zs : list Z) (seps : list str) (trail : str) : Prop := {
  mt_len : length seps = length zs;
  mt_range : Forall (fun z => 0 <= z < 2^31) zs;
  mt_blank : Forall blank seps;
  mt_apart : Forall (fun sp => sp <> []) (tail seps);
  mt_trail : no_digit trail
}.

Lemma spaced_next zs seps trail n z : matrix_text zs seps trail -> zs !! n = Some z ->
  exists sp, blank sp /\ 0 <= z < 2^31 /\ spaced (drop n seps) (drop n zs) trail = sp ++ to_string z ++ spaced (drop (S n) seps) (drop (S n) zs) trail /\
    no_digit (spaced (drop (S n) seps) (drop (S n) zs) trail).
Proof.
  intros [Hl Hr Hb Ha Ht] Hz. destruct (lookup_lt_is_Some_2 seps n) as [sp Hsp]; [rewrite Hl; by eapply lookup_lt_Some|]. exists sp.
  rewrite (drop_S zs z n Hz), (drop_S seps sp n Hsp). split; [by eapply Forall_lookup_1|]. split; [exact (Forall_lookup_1 _ _ _ _ Hr Hz)|]. split.
  - unfold spaced. cbn [zip_with concat]. by rewrite <- !app_assoc.
  - unfold spaced. destruct (drop (S n) seps) as [|sp2 seps2] eqn:E; [done|]. destruct (drop (S n) zs) as [|z2 zs2] eqn:E2; [done|].
    cbn [zip_with concat]. rewrite <- !app_assoc. assert (H2 : seps !! S n = Some sp2) by (rewrite <- (Nat.add_0_r (S n)), <- lookup_drop, E; done).
    apply blank_no_digit; [by eapply Forall_lookup_1|]. apply (Forall_lookup_1 (fun sp => sp <> []) (tail seps) n); [exact Ha|]. by destruct seps.
Qed.

Lemma fill_next {A} (zs junk : list A) n z : zs !! n = Some z -> length junk = length zs -> <[n := z]> (take n zs ++ drop n junk) = take (S n) zs ++ drop (S n) junk.
Proof.
  intros Hz Hl. pose proof (lookup_lt_Some _ _ _ Hz) as Hn. destruct (lookup_lt_is_Some_2 junk n) as [y Hy]; [lia|].
  rewrite insert_app_r_alt by (rewrite length_take; lia). rewrite length_take, Nat.min_l, Nat.sub_diag by lia.
  rewrite (drop_S junk y n Hy), (take_S_r zs n z Hz), <- app_assoc. done.
Qed.

Section printed.
Context (ecM ecK : nat) (junk zs : list Z) (seps : list str) (trail : str).
Context (Ht : matrix_text zs seps trail) (Hl : length zs = (ecM * ecK)%nat) (Hj : length junk = (ecM * ecK)%nat).

(** The state behind [n] numbers. *)
Definition read_to (n : nat) (st : istream * list Z) : Prop :=
  st = (mkStream (spaced (drop n seps) (drop n zs) trail) true, take n zs ++ drop n junk).

Lemma read_number_next n st : (n < ecM * ecK)%nat -> read_to n st -> exists st', read_number n st = Ok st' /\ read_to (S n) st'.
Proof.
  intros Hn ->. destruct (lookup_lt_is_Some_2 zs n) as [z Hz]; [lia|]. destruct (spaced_next _ _ _ _ _ Ht Hz) as (sp & Hsp & Hr & E & Hnd).
  destruct (lookup_lt_is_Some_2 junk n) as [old Hold]; [lia|].
  assert (Hm : (take n zs ++ drop n junk) !! n = Some old).
  { rewrite lookup_app_r by (rewrite length_take; lia). rewrite length_take, Nat.min_l, Nat.sub_diag by lia. by rewrite lookup_drop, Nat.add_0_r. }
  unfold read_number. rewrite Hm. cbn [res_of_option]. rewrite bind_ok, E, extract_printed by done. eexists. split; [reflexivity|].
  unfold read_to. rewrite fill_next by (done || lia). done.
Qed.

(** Reading the numbers of a matrix printed between spaces gives the matrix. *)
Lemma read_printed : read_rsEncMat ecM ecK junk (spaced seps zs trail) = Ok zs.
Proof.
  unfold read_rsEncMat.
  destruct (for_each_total (fun i => read_to (ecK * i)) (seq 0 ecM) (fun i => for_each (seq 0 ecK) (fun j => read_number (ecK * i + j)))
    (mkStream (spaced seps zs trail) true, junk)) as ([ifs m] & -> & Hend).
  - by rewrite Nat.mul_0_r.
  - intros i x st [-> Hi]%lookup_seq Hst. rewrite Nat.add_0_l.
    destruct (for_each_total (fun j => read_to (ecK * i + j)) (seq 0 ecK) (fun j => read_number (ecK * i + j)) st) as (st' & E & Hst').
    + by rewrite Nat.add_0_r.
    + intros j y st1 [-> Hjj]%lookup_seq Hs1. rewrite Nat.add_0_l, Nat.add_succ_r. apply read_number_next; [nia|done].
    + rewrite length_seq in Hst'. exists st'. split; [exact E|]. replace (ecK * (1 + i))%nat with (ecK * i + ecK)%nat by lia. exact Hst'.
  - rewrite length_seq in Hend. injection Hend as _ ->. rewrite bind_ok. rewrite take_ge, drop_ge, app_nil_r by lia. done.
Qed.
End printed.

(** ** From the file to the coefficients *)

Section init.
Context `{GF : GFComplete} {GL : GF8Laws}.
Context (talloc : nat -> option (list Z)) (Hta : forall n, exists l, talloc n = Some l /\ length l = n).
Context (k m : nat) (Hk : (0 < k)%nat) (Hm : (0 < m)%nat) (Hkm : (k + m <= 256)%nat).

(** C23: The start of a coordinator: from a file with the Vandermonde matrix of
    reed_sol.c, in whatever layout of spaces and lines, [Coordinator::init] reads
    exactly this matrix, whatever [malloc] left in its place, and [RSUtil] gets
    coefficients from it that rebuild every block of a stripe from the first [k]
    others, for all data. *)
Theorem init_rebuilds : exists encMat, reed_sol_vandermonde_coding_matrix talloc k m 8 = Ok (Some encMat) /\
  forall seps trail junk, matrix_text encMat seps trail -> length junk = (m * k)%nat ->
    read_rsEncMat m k junk (spaced seps encMat trail) = Ok encMat /\
    forall i size data, (i < m + k)%nat -> (forall l, (l < k)%nat -> region size (data !!! l)) ->
      exists c, RSUtil.getCoefficient (new_RSUtil k (m + k) encMat) i = Some c /\ length c = k /\ Forall is_byte c /\
        lincomb k size (fun j => c !!! j) ((fun j => stripe_block k size (complete_enc_mat k (m + k) encMat) data (others i j)) <$> seq 0 k) =
        stripe_block k size (complete_enc_mat k (m + k) encMat) data i.
Proof.
  destruct (rsutil_ready talloc Hta k m Hk Hm Hkm) as (C & coefs & HC & Hu & Hl & Hb & HA & Hcoefs). exists C. split; [done|].
  replace (m + k - k)%nat with m in * by lia. intros seps trail junk Ht Hj. split; [apply read_printed; [done|lia|done]|].
  intros i size data Hi Hd. destruct (first_complete k m C i size data) as (c & Ec & Hcl & Hcb & Hsum); try done. by exists c.
Qed.
End init.

(** ** The matrices of conf/ *)

Definition nl : str := ["010"%char].
Definition sp : str := lit " ".
Definition rsEncMat_3_4 : str := lit "1   1   1" ++ nl.
Definition rsEncMat_4_8 : str := lit "1 1 1 1" ++ nl ++ lit "1 217 92 172" ++ nl ++ lit "1 92 70 123" ++ nl ++ lit "1 70 143 200" ++ nl.
Definition rsEncMat_6_9 : str :=
  lit "1    1     1     1     1     1" ++ nl ++ lit "1    225   151   172   82    200" ++ nl ++ lit "1    123   245   143   244   142" ++ nl.

Definition malloc_77 (n : nat) : option (list Z) := Some (replicate n 77).
Lemma malloc_77_ok n : exists l, malloc_77 n = Some l /\ length l = n.
Proof. eexists. split; [reflexivity|]. apply length_replicate. Qed.

(** The files hold the matrices the generator gives. *)
Lemma conf_3_4 : exists C, reed_sol_vandermonde_coding_matrix malloc_77 3 1 8 = Ok (Some C) /\ read_rsEncMat 1 3 (replicate 3 5) rsEncMat_3_4 = Ok C.
Proof. exists [1; 1; 1]. split; vm_compute; reflexivity. Qed.
Lemma conf_6_9 : exists C, reed_sol_vandermonde_coding_matrix malloc_77 6 3 8 = Ok (Some C) /\ read_rsEncMat 3 6 (replicate 18 5) rsEncMat_6_9 = Ok C.
Proof. eexists. split; vm_compute; reflexivity. Qed.

Lemma init_rebuilds_witness :
  exists encMat, reed_sol_vandermonde_coding_matrix malloc_77 4 4 8 = Ok (Some encMat) /\
    read_rsEncMat 4 4 (replicate 16 5) rsEncMat_4_8 = Ok encMat /\
    exists c, RSUtil.getCoefficient (new_RSUtil 4 8 encMat) 5 = Some c /\ length c = 4%nat.
Proof.
  assert (E : reed_sol_vandermonde_coding_matrix malloc_77 4 4 8 = Ok (Some [1; 1; 1; 1; 1; 217; 92; 172; 1; 92; 70; 123; 1; 70; 143; 200]))
    by (vm_compute; reflexivity).
  destruct (init_rebuilds malloc_77 malloc_77_ok 4 4 ltac:(lia) ltac:(lia) ltac:(lia)) as (C & HC & H). rewrite E in HC. injection HC as <-.
  eexists. split; [exact E|].
  destruct (H [[]; sp; sp; sp; nl; sp; sp; sp; nl; sp; sp; sp; nl; sp; sp; sp] nl (replicate 16 5)) as [H1 H2].
  - split; [reflexivity|decided..|reflexivity].
  - reflexivity.
  - split; [exact H1|].
    destruct (H2 5%nat 1%nat [[1]; [2]; [3]; [4]]) as (c & Hc & Hl & _).
    + lia.
    + intros [|[|[|[|l]]]] Hl; [split; [reflexivity|decided]..|lia].
    + exists c. split; [exact Hc|exact Hl].
Defined.

(** ** The entry programs *)

Inductive coordinator := PPRCoordinator | ConvCoordinator | CyclCoordinator | PipeCoordinator | PipeMulCoordinator.
Inductive worker := CyclDRWorker | CyclMulFRWorker | PipeMulDRWorker | PipeDRWorker | PPRPullDRWorker | ConvDRWorker.
Inductive metadata_base := HDFS_base | QFS_base | HDFS3_base.

(** What a program starts, or [return 1]. *)
Inductive program (A : Type) := Update | Repair (a : A) | Return1.
Arguments Update {A}.
Arguments Repair {A} a.
Arguments Return1 {A}.

Definition str_is (s : str) (t : str) : bool := bool_decide (s = t).

(** [main] of ECCoordinator.cc. *)
Definition ECCoordinator_main (conf : Settings.t) : program coordinator :=
  if negb (str_is (Settings._UPPolicy conf) []) then Update else
  if str_is (Settings._DRPolicy conf) (lit "ppr") then Repair PPRCoordinator
  else if str_is (Settings._DRPolicy conf) (lit "conv") then Repair ConvCoordinator
  else if str_is (Settings._DRPolicy conf) (lit "ecpipe") then
    if str_is (Settings._ECPipePolicy conf) (lit "extCyclic") then Repair CyclCoordinator
    else if negb (find (Settings._ECPipePolicy conf) (lit "Single") 0 =? npos) then Repair PipeCoordinator
    else Repair PipeMulCoordinator
  else Return1.

(** The worker of a thread of ECHelper.cc, if there is one for the policy. *)
Definition helper_worker (conf : Settings.t) : option worker :=
  if str_is (Settings._DRPolicy conf) (lit "ecpipe") then
    if str_is (Settings._ECPipePolicy conf) (lit "cyclicSingle") then Some CyclDRWorker
    else if str_is (Settings._ECPipePolicy conf) (lit "cyclic") then Some CyclMulFRWorker
    else if str_is (Settings._ECPipePolicy conf) (lit "basic") then Some PipeMulDRWorker
    else if str_is (Settings._ECPipePolicy conf) (lit "basicSingle") then Some PipeDRWorker
    else None
  else if str_is (Settings._DRPolicy conf) (lit "ppr") then Some PPRPullDRWorker
  else if str_is (Settings._DRPolicy conf) (lit "conv") then Some ConvDRWorker
  else None.

(** [main] of ECHelper.cc: one worker per thread. *)
Definition ECHelper_main (conf : Settings.t) : program (list worker) :=
  if Settings._coordinatorIP conf =? Settings._localIP conf then Return1 else
  if negb (str_is (Settings._UPPolicy conf) []) then Update else
  match Z.to_nat (Settings._agWorkerThreadNum conf), helper_worker conf with
  | O, _ => Repair []
  | _, None => Return1
  | n, Some w => Repair (replicate n w)
  end.

(** [Coordinator::init]: the metadata; [_metadataBase] is not set for another
    file system. *)
Definition init_metadata (conf : Settings.t) : option metadata_base :=
  if str_is (Settings._fileSysType conf) (lit "HDFS") then Some HDFS_base
  else if str_is (Settings._fileSysType conf) (lit "QFS") then Some QFS_base
  else if str_is (Settings._fileSysType conf) (lit "HDFS3") then Some HDFS3_base
  else None.

(** The coordinator whose commands a worker parses. *)
Definition commands_from (w : worker) : coordinator :=
  match w with
  | PPRPullDRWorker => PPRCoordinator
  | ConvDRWorker => ConvCoordinator
  | PipeDRWorker | CyclDRWorker => PipeCoordinator
  | PipeMulDRWorker | CyclMulFRWorker => PipeMulCoordinator
  end.

Lemma worker_coordinator conf w : helper_worker conf = Some w -> Settings._UPPolicy conf = [] -> ECCoordinator_main conf = Repair (commands_from w).
Proof.
  unfold ECCoordinator_main, helper_worker, str_is. intros E ->. rewrite bool_decide_true by done. cbn [negb].
  generalize dependent (Settings._ECPipePolicy conf). generalize (Settings._DRPolicy conf). clear conf. intros dr ec.
  destruct (decide (dr = lit "ecpipe")) as [->|Hec].
  - rewrite (bool_decide_true (lit "ecpipe" = lit "ecpipe")) by done. intros E. change (bool_decide (lit "ecpipe" = lit "ppr")) with false.
    change (bool_decide (lit "ecpipe" = lit "conv")) with false. cbn [lit].
    repeat (case_bool_decide; [injection E as <-; subst ec; reflexivity|]). done.
  - rewrite (bool_decide_false (dr = lit "ecpipe")) by done. intros E. case_bool_decide; [by injection E as <-|]. case_bool_decide; [by injection E as <-|done].
Qed.

(** When a helper with a configuration starts workers, the coordinator with the
    same configuration, wherever it runs, is the one whose commands they parse. *)
Lemma programs_agree conf ip ws w : ECHelper_main (conf <| Settings._localIP := ip |>) = Repair ws -> w ∈ ws ->
  ECCoordinator_main conf = Repair (commands_from w).
Proof.
  assert (Hw : helper_worker (conf <| Settings._localIP := ip |>) = helper_worker conf) by by destruct conf.
  assert (Hu : Settings._UPPolicy (conf <| Settings._localIP := ip |>) = Settings._UPPolicy conf) by by destruct conf.
  unfold ECHelper_main. rewrite Hw, Hu. destruct (_ =? _); [done|]. unfold str_is. case_bool_decide as Hup; cbn [negb]; [|done].
  destruct (Z.to_nat _) as [|n]; [by intros [= <-] ?%elem_of_nil|]. destruct (helper_worker conf) as [w'|] eqn:E; [|done].
  intros Er Hin. injection Er as <-. change (w' :: replicate n w') with (replicate (S n) w') in Hin. apply elem_of_replicate in Hin as [-> _].
  by apply worker_coordinator.
Qed.

(** ** The shipped configurations *)

(** With conf/config.hdfs3.xml the parts of [MulSystem] run: a (3, 1) code over
    HDFS 3, its matrix, and the basic pipelines of several blocks. *)
Lemma config_hdfs3_runs : exists conf, example_config config_hdfs3_xml = Ok conf /\
  Settings._ecK conf = 3 /\ Settings._ecN conf = 4 /\ Settings._rsConfigFile conf = lit "conf/rsEncMat_3_4" /\
  init_metadata conf = Some HDFS3_base /\ ECCoordinator_main conf = Repair PipeMulCoordinator /\ ECHelper_main conf = Repair [PipeMulDRWorker].
Proof. eexists. split; [vm_compute; reflexivity|]. by repeat split. Qed.

(** With conf/config.xml both programs run the update half. *)
Lemma config_runs : exists conf, example_config config_xml = Ok conf /\
  Settings._ecK conf = 4 /\ Settings._ecN conf = 8 /\ ECCoordinator_main conf = Update /\ ECHelper_main conf = Update.
Proof. eexists. split; [vm_compute; reflexivity|]. by repeat split. Qed.
