(* ===== verification/PipeRepair.v ===== *)
(** * Pipelined repair (PipeDRWorker.cc)

    The helpers of a pipeline and the requestor as threads over the Redis
    servers.  A helper runs three: [readWorker] reads the packets of its block
    and multiplies them, [pullRequestorCompletion] adds the packets of the
    helper before it, [sendWorker] pushes the sums to its own Redis for the
    helper after it; the requestor ([pipeCollector] of ECPipeInputStream.cc)
    pops the packets of the last.

    This file has the iterations of the threads, each from the test of its wait
    on, and proves what they keep and compute.  The waits themselves are in
    PipeWait.v: the unlocked tests, the mutexes, the sleeps and the notifications,
    as steps between these iterations.  So [Blocked] is a test that fails, or a
    pop of an empty list, which blocks in the server.  The pops the code sends ahead ([redisAppendCommand]) are
    answered in order, so a pop is taken where its reply is read; the timeout of
    100 seconds is not modelled. *)
From Stdlib Require Import Ascii.
From stdpp Require Import strings relations.
From S2P Require Import Prelude Command Text Config Galois GF256 Jerasure Gauss Vandermonde ReedSol Encode RSUtil Disk Coordinator Packet DrCmd.

(** ** A helper *)

Definition tmpKey (lostBlkName : str) : str := lit "tmp:" ++ lostBlkName.

(** The key the packets go to; [1 << 16] marks the requestor's own block. *)
Definition sendKey (c : dr_cmd) : str :=
  if (dr_ecK c =? 0x010000) || ((Z.land (dr_ecK c) 0x100 =? 0) && (dr_id c =? dr_ecK c - 1))
  then dr_lostBlkName c else tmpKey (dr_lostBlkName c).

(** What [doProcess] fixes when it takes a command: the node's own address, the
    parsed command, the block file and the connection to the helper before. *)
Record pnode := mkPNode {
  n_ip : Z;
  n_cmd : dr_cmd;
  n_file : option (list Z);
  n_prev : option Z
}.

(** The members the threads share, and the counter of the loop of each thread. *)
Record pworker := mkPWorker {
  _diskPkts : list (list Z);
  _diskFlag : list bool;
  _waitingToSend : nat;
  w_read : nat;
  w_pulled : nat;
  w_sent : nat
}.

#[export] Instance pnode_inhabited : Inhabited pnode := populate (mkPNode 0 (mkDrCmd 0 0 0 0 0 0 [] []) None None).
#[export] Instance pworker_inhabited : Inhabited pworker := populate (mkPWorker [] [] 0 0 0 0).

Section workers.
Context `{GF : GFComplete} `{DIO : DiskIO} (conf : Config).
Abbreviation cnt := (_packetCnt conf).
Abbreviation size := (_packetSize conf).

(** [init] and [cleanup]: zeroed packets, no flag, nothing to send. *)
Definition cleanup : pworker := mkPWorker (replicate cnt (zeros size)) (replicate cnt false) 0 0 0 0.

(** A command taken by the worker at [_localIP]. *)
Definition accept (_localIP : Z) (dir : blkdir) (cmd : list Z) : res pnode :=
  c ← parse_dr_cmd cmd;
  prev ← findCtx (slavesCtx (_helpersIPs conf)) (dr_prevIP c);
  Ok (mkPNode _localIP c (find_block dir (dr_localBlkName c)) prev).

(** The condition of the debug output, evaluated for every packet:
    [i % (_packetCnt / 10)] divides by zero when there are less than ten. *)
Definition debug (i : nat) : res unit :=
  guard_or Undef (bool_decide (i = 0 \/ i = cnt - 1)%nat || negb (cnt / 10 =? 0)%nat).

(** One iteration of [readWorker].  The flag is set under [_diskMtx[i]] and
    [_diskCv] is notified: [pipe_enters], [pipe_signals] of PipeWait.v. *)
Definition readWorker (n : pnode) (w : pworker) : res pworker :=
  let i := w_read w in
  guard_or Blocked (i <? cnt)%nat;;
  file ← res_of_option Blocked (n_file n);
  pkt ← res_of_option Undef (_diskPkts w !! i);
  pkt ← retry_read file pkt size (_packetSkipSize conf + i * size);
  debug i;;
  let pkt := multiply pkt (dr_coefficient (n_cmd n)) in
  Ok (mkPWorker (<[i := pkt]> (_diskPkts w)) (<[i := true]> (_diskFlag w)) (_waitingToSend w) (S i) (w_pulled w) (w_sent w)).

(** One iteration of [pullRequestorCompletion], once the test of the flag has
    succeeded; the wait for it is [pipe_wait_on], [pipe_test] of PipeWait.v. *)
Definition pullRequestorCompletion (n : pnode) (w : pworker) (r : redis) : res (pworker * redis) :=
  let pktId := w_pulled w in
  guard_or Blocked (pktId <? cnt)%nat;;
  flag ← res_of_option Undef (_diskFlag w !! pktId);
  guard_or Blocked flag;;
  pkt ← res_of_option Undef (_diskPkts w !! pktId);
  '(pkt, r) ←
    (if dr_id (n_cmd n) =? 0 then Ok (pkt, r) else
     prevCtx ← res_of_option Undef (n_prev n);
     '(str, r) ← res_of_option Blocked (BLPOP prevCtx (tmpKey (dr_lostBlkName (n_cmd n))) r);
     debug pktId;;
     pkt ← XORBuffers pkt str size;
     Ok (pkt, r));
  Ok (mkPWorker (<[pktId := pkt]> (_diskPkts w)) (_diskFlag w) (S (_waitingToSend w)) (w_read w) (S pktId) (w_sent w), r).

(** One iteration of [sendWorker], once the test of the counter has succeeded; the
    wait for it is [pipe_wait_on], [pipe_test] of PipeWait.v.  [_selfCtx] is the Redis of the node. *)
Definition sendWorker (n : pnode) (w : pworker) (r : redis) : res (pworker * redis) :=
  let i := w_sent w in
  guard_or Blocked (i <? cnt)%nat;;
  guard_or Blocked (i <? _waitingToSend w)%nat;;
  pkt ← res_of_option Undef (_diskPkts w !! i);
  debug i;;
  Ok (mkPWorker (_diskPkts w) (_diskFlag w) (_waitingToSend w) (w_read w) (w_pulled w) (S i),
      RPUSH (n_ip n) (sendKey (n_cmd n)) (take size pkt) r).

(** ** The system *)

Inductive thread := TRead | TPull | TSend.
#[export] Instance thread_eq : EqDecision thread.
Proof. solve_decision. Defined.

Definition run_thread (t : thread) (n : pnode) (w : pworker) (r : redis) : res (pworker * redis) :=
  match t with
  | TRead => w ← readWorker n w; Ok (w, r)
  | TPull => pullRequestorCompletion n w r
  | TSend => sendWorker n w r
  end.

(** One iteration of [pipeCollector] for one lost block: [out] is what it has
    received from the helper [fetchIP]. *)
Definition collect (fetchIP : Z) (lostFile : str) (out : list (list Z)) (r : redis) : res (list (list Z) * redis) :=
  guard_or Blocked (length out <? cnt)%nat;;
  '(str, r) ← res_of_option Blocked (BLPOP fetchIP lostFile r);
  pkt ← res_of_option Undef (slice str 0 size);
  Ok (out ++ [pkt], r).

Record pstate := mkPState { workers : list pworker; servers : redis; collected : list (list Z) }.

Inductive pstep (ns : list pnode) (fetchIP : Z) (lostFile : str) : pstate -> pstate -> Prop :=
  | pstep_thread st x t n w w' r :
      ns !! x = Some n -> workers st !! x = Some w -> run_thread t n w (servers st) = Ok (w', r) ->
      pstep ns fetchIP lostFile st (mkPState (<[x := w']> (workers st)) r (collected st))
  | pstep_collect st out r :
      collect fetchIP lostFile (collected st) (servers st) = Ok (out, r) ->
      pstep ns fetchIP lostFile st (mkPState (workers st) r out).

(** A thread whose next iteration would do something other than step or wait. *)
Definition pcrash (ns : list pnode) (fetchIP : Z) (lostFile : str) (st : pstate) : Prop :=
  (exists x t n w e, ns !! x = Some n /\ workers st !! x = Some w /\
     run_thread t n w (servers st) = Fault e /\ e <> Blocked) \/
  exists e, collect fetchIP lostFile (collected st) (servers st) = Fault e /\ e <> Blocked.
End workers.

(** ** A pipeline and its progress *)

Section progress.
Context `{GF : GFComplete} {GL : GF8Laws} `{DL : DiskLaws} (conf : Config) (Hpo : packets_ok conf).
Context (ns : list pnode) (lost : str).
Abbreviation cnt := (_packetCnt conf).
Abbreviation size := (_packetSize conf).
Abbreviation k := (length ns).

Definition coef_at (x : nat) : Z := dr_coefficient (n_cmd (ns !!! x)).
Definition blk_at (x : nat) : list Z := default [] (n_file (ns !!! x)).

(** The nodes of a pipeline: in order, each connected to the one before, with
    its block and its coefficient. *)
Record pipeline : Prop := {
  pl_some : (0 < k < 256)%nat;
  pl_nodup : NoDup (n_ip <$> ns);
  pl_cmd x n : ns !! x = Some n -> dr_ecK (n_cmd n) = Z.of_nat k /\ dr_id (n_cmd n) = Z.of_nat x /\
    dr_lostBlkName (n_cmd n) = lost /\ is_byte (dr_coefficient (n_cmd n));
  pl_prev x n m : ns !! S x = Some n -> ns !! x = Some m -> n_prev n = Some (n_ip m);
  pl_file x n : ns !! x = Some n -> exists b, n_file n = Some b /\ blk_file conf b
}.
Context (Hpl : pipeline).

(** What the helper [x] reads, and the sum it sends. *)
Definition own (x i : nat) : list Z := multiply (packet conf (blk_at x) i) (coef_at x).
Fixpoint partial (x i : nat) : list Z :=
  match x with O => own 0 i | S y => zip_with Z.lxor (own x i) (partial y i) end.

(** The list the helper [x] pushes to. *)
Definition out_key (x : nat) : Z * str := (n_ip (ns !!! x), if decide (S x = k) then lost else tmpKey lost).

(** How many packets of the helper [x] have been taken: the number of pops of
    the next helper, or of the requestor. *)
Definition taken (st : pstate) (x : nat) : nat :=
  if workers st !! S x is Some w then w_pulled w else length (collected st).

Record worker_at (x : nat) (w : pworker) : Prop := {
  wk_order : (w_sent w <= w_pulled w <= w_read w)%nat /\ (w_read w <= cnt)%nat;
  wk_waiting : _waitingToSend w = w_pulled w;
  wk_flags i : (i < cnt)%nat -> _diskFlag w !! i = Some (bool_decide (i < w_read w)%nat);
  wk_pkts i : (i < cnt)%nat -> exists p, _diskPkts w !! i = Some p /\ length p = size /\
    (if decide (i < w_pulled w)%nat then p = partial x i else (i < w_read w)%nat -> p = own x i)
}.

Record progress (st : pstate) : Prop := {
  pg_len : length (workers st) = k;
  pg_worker x w : workers st !! x = Some w -> worker_at x w;
  pg_queue x w : workers st !! x = Some w -> (taken st x <= w_sent w)%nat /\
    waiting_in (servers st) (out_key x).1 (out_key x).2 = partial x <$> seq (taken st x) (w_sent w - taken st x);
  pg_collected : collected st = partial (k - 1) <$> seq 0 (length (collected st))
}.

(** ** The packets *)

Lemma node_at x : (x < k)%nat -> exists n, ns !! x = Some n /\ ns !!! x = n.
Proof. intros Hx. destruct (lookup_lt_is_Some_2 ns x Hx) as [n Hn]. exists n. split; [done|]. by apply list_lookup_total_correct. Qed.

Lemma packet_ok b i : blk_file conf b -> (i < cnt)%nat -> length (packet conf b i) = size /\ Forall is_byte (packet conf b i).
Proof.
  intros [Hl Hb] Hi. split; [|by apply Forall_take, Forall_drop]. unfold packet. rewrite length_take, length_drop. nia.
Qed.

Lemma own_ok x i : (x < k)%nat -> (i < cnt)%nat ->
  length (own x i) = size /\ own x i = (fun b => coef_at x ⊗ b) <$> packet conf (blk_at x) i.
Proof.
  intros Hx Hi. destruct (node_at x Hx) as (n & Hn & E). destruct (pl_file Hpl x n Hn) as (b & Hb & Hf).
  destruct (pl_cmd Hpl x n Hn) as (_ & _ & _ & Hc). unfold own, blk_at, coef_at. rewrite E, Hb. cbn.
  destruct (packet_ok b i Hf Hi) as [Hl Hby]. rewrite multiply_spec by done. by rewrite length_fmap.
Qed.

Lemma length_partial x i : (x < k)%nat -> (i < cnt)%nat -> length (partial x i) = size.
Proof.
  intros Hx Hi. induction x as [|x IH]; cbn [partial]; [by apply own_ok|].
  rewrite length_zip_with, IH by lia. rewrite (proj1 (own_ok (S x) i Hx Hi)). lia.
Qed.

Lemma out_key_inj x y : (x < k)%nat -> (y < k)%nat -> out_key x = out_key y -> x = y.
Proof.
  intros Hx Hy [= He _]. destruct (node_at x Hx) as (n & Hn & E1), (node_at y Hy) as (m & Hm & E2).
  rewrite E1, E2 in He. apply (NoDup_lookup (n_ip <$> ns) x y (n_ip n)); [apply Hpl|..]; rewrite list_lookup_fmap, ?Hn, ?Hm; cbn; congruence.
Qed.

(** A node pushes to its own list and pops from the one before it. *)
Lemma pushes_to x n : ns !! x = Some n -> (n_ip n, sendKey (n_cmd n)) = out_key x.
Proof.
  intros Hn. pose proof (lookup_lt_Some _ _ _ Hn) as Hx. destruct (pl_cmd Hpl x n Hn) as (HK & Hid & Hlost & _).
  pose proof (pl_some Hpl). unfold out_key, sendKey. rewrite (list_lookup_total_correct _ _ _ Hn), HK, Hid, Hlost.
  destruct (Z.eqb_spec (Z.of_nat k) 0x010000); [lia|]. cbn [orb].
  rewrite bit8, Z.eqb_refl by lia. cbn [andb]. destruct (Z.eqb_spec (Z.of_nat x) (Z.of_nat k - 1)); case_decide; (done || lia).
Qed.

Lemma pops_from x n : ns !! S x = Some n -> exists prev, n_prev n = Some prev /\ (prev, tmpKey (dr_lostBlkName (n_cmd n))) = out_key x.
Proof.
  intros Hn. pose proof (lookup_lt_Some _ _ _ Hn) as Hx. destruct (node_at x) as (m & Hm & Em); [lia|].
  exists (n_ip m). split; [by apply (pl_prev Hpl x n m)|]. destruct (pl_cmd Hpl _ n Hn) as (_ & _ & -> & _).
  unfold out_key. rewrite Em, decide_False by lia. done.
Qed.

Lemma debug_ok i : (i < cnt)%nat -> debug conf i = Ok tt.
Proof.
  intros Hi. unfold debug. destruct (po_debug _ Hpo) as [Hd|Hd].
  - destruct (Nat.eqb_spec (cnt / 10) 0) as [E|]; [|by rewrite orb_true_r].
    apply Nat.div_small_iff in E; lia.
  - by rewrite bool_decide_true by lia.
Qed.

(** ** One iteration of each thread *)

Lemma read_runs x n w r : ns !! x = Some n -> worker_at x w ->
  if decide (w_read w < cnt)%nat
  then exists w', run_thread conf TRead n w r = Ok (w', r) /\ worker_at x w' /\
    w_read w' = S (w_read w) /\ w_pulled w' = w_pulled w /\ w_sent w' = w_sent w
  else run_thread conf TRead n w r = Fault Blocked.
Proof.
  intros Hn [Ho Hwt Hf Hp]. cbn [run_thread]. unfold readWorker. destruct (Nat.ltb_spec (w_read w) cnt) as [Hlt|Hge].
  2: { by rewrite decide_False by lia. }
  rewrite decide_True by done. cbn [guard_or]. rewrite bind_ok.
  destruct (pl_file Hpl x n Hn) as (b & Hb & Hbl & Hby). destruct (pl_cmd Hpl x n Hn) as (_ & _ & _ & Hc).
  destruct (Hp _ Hlt) as (p & Ep & Hlp & _). pose proof (po_base _ Hpo).
  rewrite Hb, Ep. cbn [res_of_option]. rewrite !bind_ok, retry_packet by (try split; nia).
  rewrite bind_ok, debug_ok, !bind_ok by done. eexists. split; [done|].
  fold (packet conf b (w_read w)). destruct (own_ok x (w_read w)) as [Hol Hoe]; [by apply lookup_lt_Some in Hn|done|].
  assert (E : multiply (packet conf b (w_read w)) (dr_coefficient (n_cmd n)) = own x (w_read w)).
  { unfold own, blk_at, coef_at. by rewrite (list_lookup_total_correct _ _ _ Hn), Hb. }
  rewrite E. split; [|done]. split; cbn.
  - lia.
  - done.
  - intros i Hi. destruct (decide (i = w_read w)) as [->|Hne].
    + rewrite list_lookup_insert_eq by (apply lookup_lt_is_Some; rewrite Hf by done; done). by rewrite bool_decide_true by lia.
    + rewrite list_lookup_insert_ne, Hf by done. f_equal. apply bool_decide_ext. lia.
  - intros i Hi. destruct (decide (i = w_read w)) as [->|Hne].
    + exists (own x (w_read w)). rewrite list_lookup_insert_eq by (apply lookup_lt_Some in Ep; done).
      split_and!; [done|done|]. by rewrite decide_False by lia.
    + rewrite list_lookup_insert_ne by done. destruct (Hp i Hi) as (q & Eq & Hq & Hv). exists q. split_and!; [done|done|].
      destruct (decide (i < w_pulled w)%nat); [done|]. intros Hlt'. apply Hv. lia.
Qed.

Lemma send_runs x n w r : ns !! x = Some n -> worker_at x w ->
  if decide (w_sent w < w_pulled w)%nat
  then exists w', run_thread conf TSend n w r = Ok (w', RPUSH (out_key x).1 (out_key x).2 (partial x (w_sent w)) r) /\ worker_at x w' /\
    w_read w' = w_read w /\ w_pulled w' = w_pulled w /\ w_sent w' = S (w_sent w)
  else run_thread conf TSend n w r = Fault Blocked.
Proof.
  intros Hn [Ho Hwt Hf Hp]. cbn [run_thread]. unfold sendWorker. rewrite Hwt. case_decide as Hlt.
  - rewrite (proj2 (Nat.ltb_lt _ _)), (proj2 (Nat.ltb_lt _ _)) by lia. cbn [guard_or]. rewrite !bind_ok.
    destruct (Hp (w_sent w) ltac:(lia)) as (p & Ep & Hlp & Hv). rewrite decide_True in Hv by lia. subst p.
    rewrite Ep. cbn [res_of_option]. rewrite bind_ok, debug_ok, bind_ok, take_ge by lia. eexists.
    rewrite <- (pushes_to x n Hn). split; [done|]. split; [|done]. split; cbn; [lia|lia|done|done].
  - destruct (Nat.ltb_spec (w_sent w) cnt); [|done]. cbn [guard_or]. rewrite bind_ok.
    by rewrite (proj2 (Nat.ltb_ge _ _)) by lia.
Qed.

(** The sum of a packet once it has been pulled. *)
Lemma pulled_worker x w : worker_at x w -> (w_pulled w < w_read w)%nat -> (x < k)%nat ->
  worker_at x (mkPWorker (<[w_pulled w := partial x (w_pulled w)]> (_diskPkts w)) (_diskFlag w) (S (_waitingToSend w))
    (w_read w) (S (w_pulled w)) (w_sent w)).
Proof.
  intros [Ho Hwt Hf Hp] Hlt Hx. split; cbn; [lia|lia|done|]. intros i Hi. destruct (decide (i = w_pulled w)) as [->|Hne].
  - destruct (Hp (w_pulled w) Hi) as (p & Ep & _). exists (partial x (w_pulled w)).
    rewrite list_lookup_insert_eq by by apply lookup_lt_Some in Ep. split_and!; [done|by apply length_partial|].
    by rewrite decide_True by lia.
  - rewrite list_lookup_insert_ne by done. destruct (Hp i Hi) as (q & Eq & Hq & Hv). exists q. split_and!; [done|done|].
    destruct (decide (i < w_pulled w)%nat), (decide (i < S (w_pulled w))%nat); (done || lia).
Qed.

Lemma pull_blocked x n w r : worker_at x w -> (w_pulled w = w_read w)%nat ->
  run_thread conf TPull n w r = Fault Blocked.
Proof.
  intros [Ho Hwt Hf Hp] E. cbn [run_thread]. unfold pullRequestorCompletion. destruct (Nat.ltb_spec (w_pulled w) cnt); [|done].
  cbn [guard_or]. rewrite bind_ok, Hf by done. cbn [res_of_option]. rewrite bind_ok. by rewrite bool_decide_false by lia.
Qed.

Lemma pull_runs x n w r v vs : ns !! x = Some n -> worker_at x w -> (w_pulled w < w_read w)%nat ->
  (forall y, x = S y -> waiting_in r (out_key y).1 (out_key y).2 = v :: vs /\ v = partial y (w_pulled w)) ->
  exists w' r', run_thread conf TPull n w r = Ok (w', r') /\ worker_at x w' /\
    w_read w' = w_read w /\ w_pulled w' = S (w_pulled w) /\ w_sent w' = w_sent w /\
    forall ip key, waiting_in r' ip key =
      match x with O => waiting_in r ip key | S y => if decide (out_key y = (ip, key)) then vs else waiting_in r ip key end.
Proof.
  intros Hn Hw Hlt Hv. pose proof (lookup_lt_Some _ _ _ Hn) as Hx. pose proof (pulled_worker x w Hw Hlt Hx) as Hw'.
  destruct Hw as [Ho Hwt Hf Hp]. destruct (Hp (w_pulled w) ltac:(lia)) as (p & Ep & Hlp & Hown).
  rewrite decide_False in Hown by lia. specialize (Hown Hlt). destruct (pl_cmd Hpl x n Hn) as (_ & Hid & _ & _).
  cbn [run_thread]. unfold pullRequestorCompletion. rewrite (proj2 (Nat.ltb_lt _ _)), Hf, Ep, Hid by lia.
  rewrite bool_decide_true by done. cbn [guard_or res_of_option]. rewrite !bind_ok. cbn [guard_or]. rewrite !bind_ok.
  destruct x as [|x].
  - cbn. subst p. eexists _, _. split; [done|]. split; [exact Hw'|]. by split_and!.
  - destruct (Hv x eq_refl) as [Hq Hvx]. destruct (Z.eqb_spec (Z.of_nat (S x)) 0); [lia|].
    destruct (pops_from x n Hn) as (prev & -> & Hk). rewrite <- Hk in Hq. cbn [fst snd res_of_option] in *. rewrite bind_ok.
    destruct (pop_waiting _ _ _ _ _ Hq) as (r' & -> & Hr'). cbn [res_of_option]. rewrite bind_ok, debug_ok, bind_ok by lia.
    rewrite xor_packets by (try apply Hpo; subst v; first [done|apply length_partial; lia]). rewrite !bind_ok.
    subst p v. eexists _, _. split; [done|]. split; [exact Hw'|]. split_and!; try done.
    intros ip key. by rewrite Hr', Hk.
Qed.

Lemma pull_empty x n w r : ns !! S x = Some n -> worker_at (S x) w ->
  waiting_in r (out_key x).1 (out_key x).2 = [] -> run_thread conf TPull n w r = Fault Blocked.
Proof.
  intros Hn Hw Hq. destruct (decide (w_pulled w = w_read w)) as [E|Hne]; [by apply (pull_blocked (S x))|].
  destruct Hw as [Ho Hwt Hf Hp]. destruct (Hp (w_pulled w) ltac:(lia)) as (p & Ep & Hlp & Hown).
  destruct (pl_cmd Hpl _ n Hn) as (_ & Hid & _ & _).
  cbn [run_thread]. unfold pullRequestorCompletion. rewrite (proj2 (Nat.ltb_lt _ _)), Hf, Ep, Hid by lia.
  rewrite bool_decide_true by lia. cbn [guard_or res_of_option]. rewrite !bind_ok. cbn [guard_or]. rewrite !bind_ok.
  destruct (Z.eqb_spec (Z.of_nat (S x)) 0); [lia|]. destruct (pops_from x n Hn) as (prev & -> & Hk). rewrite <- Hk in Hq.
  cbn [fst snd res_of_option] in *. rewrite bind_ok. unfold BLPOP. by rewrite Hq.
Qed.

(** ** The invariant *)

Lemma taken_update st x w' r out y :
  (x < length (workers st))%nat ->
  taken (mkPState (<[x := w']> (workers st)) r out) y =
    if decide (x = S y) then w_pulled w' else taken (mkPState (workers st) r out) y.
Proof.
  intros Hx. unfold taken. cbn [workers collected]. case_decide as E.
  - subst x. by rewrite list_lookup_insert_eq.
  - by rewrite list_lookup_insert_ne.
Qed.

(** A new state of the worker [x]: its list and the one before it follow. *)
Lemma progress_update st x w w' r :
  progress st -> workers st !! x = Some w -> worker_at x w' ->
  (taken st x <= w_sent w')%nat ->
  waiting_in r (out_key x).1 (out_key x).2 = partial x <$> seq (taken st x) (w_sent w' - taken st x) ->
  (forall y wy, x = S y -> workers st !! y = Some wy -> (w_pulled w' <= w_sent wy)%nat /\
     waiting_in r (out_key y).1 (out_key y).2 = partial y <$> seq (w_pulled w') (w_sent wy - w_pulled w')) ->
  (forall y, (y < k)%nat -> y <> x -> x <> S y ->
     waiting_in r (out_key y).1 (out_key y).2 = waiting_in (servers st) (out_key y).1 (out_key y).2) ->
  progress (mkPState (<[x := w']> (workers st)) r (collected st)).
Proof.
  intros [Hlen Hwk Hq Hc] Hx Hw' Hle Hown Hprev Hother. pose proof (lookup_lt_Some _ _ _ Hx) as Hxk. split.
  - cbn. by rewrite length_insert.
  - intros y wy Hy. destruct (decide (y = x)) as [->|Hne].
    + cbn in Hy. rewrite list_lookup_insert_eq in Hy by done. by injection Hy as <-.
    + cbn in Hy. rewrite list_lookup_insert_ne in Hy by done. by apply Hwk.
  - intros y wy Hy. cbn [workers] in Hy. rewrite taken_update by done. destruct (decide (y = x)) as [->|Hne].
    + rewrite list_lookup_insert_eq in Hy by done. injection Hy as <-. rewrite decide_False by lia. by split.
    + rewrite list_lookup_insert_ne in Hy by done. case_decide as E.
      * by apply Hprev.
      * pose proof (lookup_lt_Some _ _ _ Hy). cbn [servers]. rewrite Hother by (done || lia). by apply Hq.
  - done.
Qed.

Definition ready (st : pstate) (x : nat) (w : pworker) (t : thread) : Prop :=
  match t with
  | TRead => (w_read w < cnt)%nat
  | TPull => (w_pulled w < w_read w)%nat /\
      match x with O => True | S y => exists wy, workers st !! y = Some wy /\ (w_pulled w < w_sent wy)%nat end
  | TSend => (w_sent w < w_pulled w)%nat
  end.

Definition counters (w : pworker) : nat := (w_read w + w_pulled w + w_sent w)%nat.

(** A thread steps within the invariant, or waits because it is not ready. *)
Lemma thread_progress st x t n w : progress st -> ns !! x = Some n -> workers st !! x = Some w ->
  (exists w' r, run_thread conf t n w (servers st) = Ok (w', r) /\
     progress (mkPState (<[x := w']> (workers st)) r (collected st)) /\ counters w' = S (counters w)) \/
  (run_thread conf t n w (servers st) = Fault Blocked /\ ~ ready st x w t).
Proof.
  intros Hst Hn Hx. pose proof Hst as [Hlen Hwk Hq Hc]. pose proof (Hwk x w Hx) as Hw. destruct (Hq x w Hx) as [Hle Hqx].
  pose proof (lookup_lt_Some _ _ _ Hn) as Hxk. unfold counters. destruct t; cbn [ready].
  - pose proof (read_runs x n w (servers st) Hn Hw) as H1. case_decide; [left|right; split; [done|lia]].
    destruct H1 as (w' & E & Hw' & H1 & H2 & H3). eexists _, _. split; [done|]. split; [|lia].
    apply (progress_update st x w w'); try done; [rewrite H3; done|rewrite H3; done|].
    intros y wy -> Hy. rewrite H2. destruct (Hq y wy Hy) as [Ha Hb]. unfold taken in Ha, Hb. by rewrite Hx in Ha, Hb.
  - destruct (decide (w_pulled w < w_read w)%nat) as [Hlt|Hge].
    2: { right. split; [|tauto]. apply (pull_blocked x); [done|]. pose proof (proj1 (wk_order _ _ Hw)). lia. }
    destruct x as [|x].
    + destruct (pull_runs 0 n w (servers st) [] [] Hn Hw Hlt) as (w' & r & E & Hw' & H1 & H2 & H3 & Hr); [done|].
      left. eexists _, _. split; [done|]. split; [|lia].
      apply (progress_update st 0 w w'); try done; [by rewrite H3|by rewrite Hr, H3].
    + destruct (lookup_lt_is_Some_2 (workers st) x) as [wx Hwx]; [lia|]. destruct (Hq x wx Hwx) as [Ha Hb].
      unfold taken in Ha, Hb. rewrite Hx in Ha, Hb. destruct (decide (w_pulled w < w_sent wx)%nat) as [Hs|Hs].
      * rewrite seq_pop in Hb by lia.
        destruct (pull_runs (S x) n w (servers st) _ _ Hn Hw Hlt ltac:(intros y [= <-]; by split)) as (w' & r & E & Hw' & H1 & H2 & H3 & Hr).
        left. eexists _, _. split; [done|]. split; [|lia]. apply (progress_update st (S x) w w'); try done.
        -- by rewrite H3.
        -- rewrite Hr, H3, decide_False; [done|]. intros Hk. rewrite <- surjective_pairing in Hk.
           apply out_key_inj in Hk; lia.
        -- intros y wy [= <-] Hy. replace wy with wx by congruence. split; [lia|]. rewrite Hr, H2, decide_True by apply surjective_pairing.
           do 2 f_equal. lia.
        -- intros y Hy Hne Hne2. rewrite Hr, decide_False; [done|]. intros Hk. rewrite <- surjective_pairing in Hk.
           apply out_key_inj in Hk; lia.
      * right. split; [|intros [_ (wy & Hy & Hlt')]; replace wy with wx in * by congruence; lia].
        apply (pull_empty x); try done. rewrite Hb. by replace (w_sent wx - w_pulled w)%nat with 0%nat by lia.
  - pose proof (send_runs x n w (servers st) Hn Hw) as H1. case_decide; [left|right; split; [done|lia]].
    destruct H1 as (w' & E & Hw' & H1 & H2 & H3). eexists _, _. split; [done|]. split; [|lia].
    apply (progress_update st x w w'); try done; [lia| | |].
    + rewrite waiting_push, decide_True, Hqx by done. rewrite H3.
      replace (partial x (w_sent w)) with (partial x (taken st x + (w_sent w - taken st x))%nat) by (f_equal; lia).
      rewrite seq_push. do 2 f_equal. lia.
    + intros y wy -> Hy. rewrite H2, waiting_push, decide_False.
      * destruct (Hq y wy Hy) as [Ha Hb]. unfold taken in Ha, Hb. by rewrite Hx in Ha, Hb.
      * intros Hk. rewrite <- !surjective_pairing in Hk. apply out_key_inj in Hk; lia.
    + intros y Hy Hne Hne2. rewrite waiting_push, decide_False; [done|]. intros Hk. rewrite <- !surjective_pairing in Hk.
      apply out_key_inj in Hk; (done || lia).
Qed.

(** A thread touches the lists of the pipeline only, and the invariant is about
    them only. *)
Lemma run_frame x t n w w' r r' ip key : ns !! x = Some n -> run_thread conf t n w r = Ok (w', r') ->
  (forall y, (y < k)%nat -> out_key y <> (ip, key)) -> waiting_in r' ip key = waiting_in r ip key.
Proof.
  intros Hn E Hk. pose proof (lookup_lt_Some _ _ _ Hn) as Hx. destruct t; cbn [run_thread] in E.
  - apply bind_ok_inv in E as (w2 & _ & [= _ <-]). done.
  - unfold pullRequestorCompletion in E. apply bind_ok_inv in E as ([] & _ & E).
    apply bind_ok_inv in E as (flag & _ & E). apply bind_ok_inv in E as ([] & _ & E).
    apply bind_ok_inv in E as (pkt & _ & E). apply bind_ok_inv in E as ([pkt' r2] & E & [= _ <-]).
    destruct (pl_cmd Hpl x n Hn) as (_ & Hid & _ & _). rewrite Hid in E. destruct x as [|x]; [by injection E as _ <-|].
    destruct (Z.eqb_spec (Z.of_nat (S x)) 0); [lia|]. destruct (pops_from x n Hn) as (prev & Hp & Ho). rewrite Hp in E.
    cbn [res_of_option] in E. rewrite bind_ok in E. apply bind_ok_inv in E as ([str r3] & E1 & E).
    apply res_of_option_ok, pop_inv in E1 as (vs & _ & Hr). apply bind_ok_inv in E as ([] & _ & E).
    apply bind_ok_inv in E as (pkt2 & _ & [= _ <-]). rewrite Hr, Ho, decide_False by (apply Hk; lia). done.
  - unfold sendWorker in E. apply bind_ok_inv in E as ([] & _ & E). apply bind_ok_inv in E as ([] & _ & E).
    apply bind_ok_inv in E as (pkt & _ & E). apply bind_ok_inv in E as ([] & _ & E). injection E as _ <-.
    rewrite waiting_push, (pushes_to x n Hn), decide_False by by apply Hk. done.
Qed.

Lemma progress_frame st r : progress st ->
  (forall x, (x < k)%nat -> waiting_in r (out_key x).1 (out_key x).2 = waiting_in (servers st) (out_key x).1 (out_key x).2) ->
  progress (mkPState (workers st) r (collected st)).
Proof.
  intros [Hlen Hwk Hq Hc] Hr. split; [done|done| |done]. intros x w Hx. cbn [workers servers] in *.
  rewrite Hr by (rewrite <- Hlen; by eapply lookup_lt_Some). by apply Hq.
Qed.

(** ** The requestor *)

Abbreviation fetchIP := (out_key (k - 1)).1.

Lemma last_key : (out_key (k - 1)).2 = lost.
Proof. unfold out_key. pose proof (pl_some Hpl). by rewrite decide_True by lia. Qed.

Lemma collect_progress st w : progress st -> workers st !! (k - 1)%nat = Some w ->
  (exists out r, collect conf fetchIP lost (collected st) (servers st) = Ok (out, r) /\
     progress (mkPState (workers st) r out) /\ length out = S (length (collected st))) \/
  (collect conf fetchIP lost (collected st) (servers st) = Fault Blocked /\ ~ (length (collected st) < w_sent w)%nat).
Proof.
  intros [Hlen Hwk Hq Hc] Hw. pose proof (pl_some Hpl) as Hk. destruct (Hq _ w Hw) as [Ha Hb].
  assert (Hend : workers st !! S (k - 1) = None) by (apply lookup_ge_None_2; lia).
  assert (Ht : taken st (k - 1) = length (collected st)) by (unfold taken; by rewrite Hend).
  rewrite Ht in Ha, Hb. rewrite last_key in Hb. pose proof (wk_order _ _ (Hwk _ w Hw)) as Ho. unfold collect.
  destruct (decide (length (collected st) < w_sent w)%nat) as [Hlt|Hge].
  - left. rewrite seq_pop in Hb by lia. destruct (pop_waiting _ _ _ _ _ Hb) as (r & Hp & Hr).
    rewrite (proj2 (Nat.ltb_lt _ _)), Hp by lia. cbn [guard_or res_of_option]. rewrite !bind_ok.
    set (v := partial (k - 1) (length (collected st))) in *.
    assert (Hv : length v = size) by (apply length_partial; lia).
    assert (Hsl : slice v 0 size = Some v) by (rewrite <- Hv; apply slice_full). rewrite Hsl. cbn [res_of_option]. rewrite bind_ok.
    eexists _, _. split; [done|]. split; [|rewrite length_app; simpl; lia]. split.
    + done.
    + done.
    + intros y wy Hy. cbn [workers servers] in *. pose proof (lookup_lt_Some _ _ _ Hy) as Hyk. rewrite Hr. case_decide as E.
      * rewrite <- last_key, <- !surjective_pairing in E. apply out_key_inj in E; [|lia..]. subst y. replace wy with w by congruence.
        unfold taken. cbn [workers collected]. rewrite Hend, length_app. cbn [length].
        split; [lia|]. do 2 f_equal; lia.
      * destruct (Hq y wy Hy) as [Ha2 Hb2]. assert (Hty : taken (mkPState (workers st) r (collected st ++ [v])) y = taken st y).
        { assert (Hne : y <> (k - 1)%nat) by (intros ->; apply E; by rewrite <- last_key, <- surjective_pairing).
          unfold taken. cbn. destruct (lookup_lt_is_Some_2 (workers st) (S y)) as [wz Hz]; [lia|]. by rewrite Hz. }
        by rewrite Hty.
    + cbn. rewrite length_app, seq_app, fmap_app, <- Hc. done.
  - right. split; [|done]. destruct (Nat.ltb_spec (length (collected st)) cnt); [|done]. cbn [guard_or]. rewrite bind_ok.
    unfold BLPOP. rewrite Hb. by replace (w_sent w - length (collected st))%nat with 0%nat by lia.
Qed.

(** ** Every run ends *)

Definition work (st : pstate) : nat := (sum_list_with counters (workers st) + length (collected st))%nat.
Definition all_work : nat := ((3 * k + 1) * cnt)%nat.

Lemma counters_bound st x w : progress st -> workers st !! x = Some w -> (counters w <= 3 * cnt)%nat.
Proof. intros Hst Hx. pose proof (wk_order _ _ (pg_worker _ Hst x w Hx)). unfold counters. lia. Qed.

Lemma collected_bound st : progress st -> (length (collected st) <= cnt)%nat.
Proof.
  intros Hst. pose proof (pl_some Hpl). destruct (lookup_lt_is_Some_2 (workers st) (k - 1)) as [w Hw]; [rewrite (pg_len _ Hst); lia|].
  destruct (pg_queue _ Hst _ w Hw) as [Ha _]. unfold taken in Ha. rewrite lookup_ge_None_2 in Ha by (rewrite (pg_len _ Hst); lia).
  pose proof (wk_order _ _ (pg_worker _ Hst _ w Hw)). lia.
Qed.

Lemma pstep_progress st st' : progress st -> pstep conf ns fetchIP lost st st' -> progress st' /\ work st' = S (work st).
Proof.
  intros Hst Hs. destruct Hs as [st x t n w w' r Hn Hw Hrun|st out r Hrun].
  - destruct (thread_progress st x t n w Hst Hn Hw) as [(w2 & r2 & E & Hst' & Hc)|[E _]]; [|congruence].
    rewrite E in Hrun. injection Hrun as <- <-. split; [done|]. unfold work. cbn. rewrite (sum_insert counters _ x w w2) by done. lia.
  - pose proof (pl_some Hpl). destruct (lookup_lt_is_Some_2 (workers st) (k - 1)) as [w Hw]; [rewrite (pg_len _ Hst); lia|].
    destruct (collect_progress st w Hst Hw) as [(out2 & r2 & E & Hst' & Hc)|[E _]]; [|congruence].
    rewrite E in Hrun. injection Hrun as <- <-. split; [done|]. unfold work. cbn. lia.
Qed.

Lemma no_crash st : progress st -> ~ pcrash conf ns fetchIP lost st.
Proof.
  intros Hst [(x & t & n & w & e & Hn & Hw & E & He)|(e & E & He)].
  - destruct (thread_progress st x t n w Hst Hn Hw) as [(w2 & r2 & E2 & _)|[E2 _]]; congruence.
  - pose proof (pl_some Hpl). destruct (lookup_lt_is_Some_2 (workers st) (k - 1)) as [w Hw]; [rewrite (pg_len _ Hst); lia|].
    destruct (collect_progress st w Hst Hw) as [(out2 & r2 & E2 & _)|[E2 _]]; congruence.
Qed.

Lemma ready_steps st x n w t : progress st -> ns !! x = Some n -> workers st !! x = Some w -> ready st x w t ->
  exists st', pstep conf ns fetchIP lost st st'.
Proof.
  intros Hst Hn Hw Hr. destruct (thread_progress st x t n w Hst Hn Hw) as [(w' & r & E & _)|[_ Hno]]; [|done].
  eexists. by apply (pstep_thread _ _ _ _ st x t n w w' r).
Qed.

(** The helpers finish in order. *)
Lemma prefix_done st x : progress st -> (x <= k)%nat ->
  (exists st', pstep conf ns fetchIP lost st st') \/
  forall y w, (y < x)%nat -> workers st !! y = Some w -> counters w = (3 * cnt)%nat.
Proof.
  intros Hst. induction x as [|x IH]; intros Hx; [right; lia|]. destruct IH as [|Hdone]; [lia|by left|].
  destruct (node_at x) as (n & Hn & _); [lia|].
  destruct (lookup_lt_is_Some_2 (workers st) x) as [w Hw]; [rewrite (pg_len _ Hst); lia|].
  pose proof (wk_order _ _ (pg_worker _ Hst x w Hw)) as Ho.
  destruct (decide (w_read w < cnt)%nat); [left; by apply (ready_steps st x n w TRead)|].
  destruct (decide (w_pulled w < w_read w)%nat).
  - left. apply (ready_steps st x n w TPull); try done. split; [done|]. destruct x as [|x]; [done|].
    destruct (lookup_lt_is_Some_2 (workers st) x) as [wx Hwx]; [rewrite (pg_len _ Hst); lia|]. exists wx. split; [done|].
    pose proof (Hdone x wx ltac:(lia) Hwx). pose proof (wk_order _ _ (pg_worker _ Hst x wx Hwx)). unfold counters in *. lia.
  - destruct (decide (w_sent w < w_pulled w)%nat); [left; by apply (ready_steps st x n w TSend)|].
    right. intros y wy Hy Hwy. destruct (decide (y = x)) as [->|]; [|by apply (Hdone y); (done || lia)].
    replace wy with w by congruence. unfold counters. lia.
Qed.

Lemma last_worker st : progress st -> exists w, workers st !! (k - 1)%nat = Some w.
Proof. intros Hst. pose proof (pl_some Hpl). apply lookup_lt_is_Some_2. rewrite (pg_len _ Hst). lia. Qed.

Lemma work_bound st : progress st -> (work st <= all_work)%nat.
Proof.
  intros Hst. pose proof (collected_bound st Hst).
  destruct (sum_bound counters (workers st) (3 * cnt)) as [Hs _]; [intros x w; by apply counters_bound|].
  rewrite (pg_len _ Hst) in Hs. unfold work, all_work. lia.
Qed.

Lemma next_step st : progress st -> (work st < all_work)%nat -> exists st', pstep conf ns fetchIP lost st st'.
Proof.
  intros Hst Hlt. destruct (prefix_done st k Hst ltac:(lia)) as [|Hdone]; [done|].
  destruct (last_worker st Hst) as [w Hw]. pose proof (pl_some Hpl).
  destruct (collect_progress st w Hst Hw) as [(out & r & E & _)|[_ Hno]]; [eexists; by apply (pstep_collect _ _ _ _ st out r)|].
  exfalso. pose proof (Hdone (k - 1)%nat w ltac:(lia) Hw) as Hc. pose proof (wk_order _ _ (pg_worker _ Hst _ w Hw)).
  pose proof (collected_bound st Hst). unfold counters in Hc.
  assert (Hs : sum_list_with counters (workers st) = (k * (3 * cnt))%nat).
  { rewrite <- (pg_len _ Hst). apply sum_const. intros y wy Hy. apply (Hdone y wy); [|done]. apply lookup_lt_Some in Hy.
    by rewrite (pg_len _ Hst) in Hy. }
  unfold work, all_work in Hlt. lia.
Qed.

Lemma run_progress m st st' : progress st -> nsteps (pstep conf ns fetchIP lost) m st st' -> progress st' /\ work st' = (m + work st)%nat.
Proof.
  intros Hst Hn. induction Hn as [st|m st st1 st' Hs Hn IH]; [done|].
  destruct (pstep_progress st st1 Hst Hs) as [Hst1 E]. destruct (IH Hst1) as [H1 H2]. split; [done|lia].
Qed.

(** The threads have started, and nothing of an earlier repair waits. *)
Definition started (st : pstate) : Prop :=
  workers st = replicate k (cleanup conf) /\ collected st = [] /\
  forall x, (x < k)%nat -> waiting_in (servers st) (out_key x).1 (out_key x).2 = [].

Lemma started_progress st : started st -> progress st /\ work st = 0%nat.
Proof.
  intros (Hw & Hc & Hq). split.
  - split.
    + rewrite Hw. apply length_replicate.
    + intros x w Hx. rewrite Hw in Hx. apply lookup_replicate in Hx as [-> _]. split; cbn; [lia|done|..]; intros i Hi.
      * by rewrite lookup_replicate_2.
      * exists (zeros size). rewrite lookup_replicate_2 by done. split_and!; [done|apply length_replicate|].
        destruct (decide (i < 0)%nat); lia.
    + intros x w Hx. pose proof Hx as Hx'. rewrite Hw in Hx. apply lookup_replicate in Hx as [-> Hxk].
      assert (Ht : taken st x = 0%nat).
      { unfold taken. destruct (workers st !! S x) as [w|] eqn:E; [|by rewrite Hc].
        rewrite Hw in E. by apply lookup_replicate in E as [-> _]. }
      rewrite Ht, Hq by done. by split.
    + by rewrite Hc.
  - unfold work. rewrite Hw, Hc. cbn [length]. rewrite Nat.add_0_r. clear. by induction k.
Qed.

Lemma all_collected st : progress st -> work st = all_work -> collected st = partial (k - 1) <$> seq 0 cnt.
Proof.
  intros Hst E. rewrite (pg_collected _ Hst). do 2 f_equal. pose proof (collected_bound st Hst).
  destruct (sum_bound counters (workers st) (3 * cnt)) as [Hs _]; [intros x w; by apply counters_bound|].
  rewrite (pg_len _ Hst) in Hs. unfold work, all_work in E. lia.
Qed.

(** ** What is collected *)

(** The bytes of the blocks the packets cover, in the order of the helpers. *)
Definition helper_data : list (list Z) := (fun x => drop (_packetSkipSize conf) (blk_at x)) <$> seq 0 k.

Lemma partial_lookup x i q : (x < k)%nat -> (i < cnt)%nat -> (q < size)%nat ->
  partial x i !!! q = xsum (S x) (fun y => coef_at y ⊗ ((helper_data !!! y) !!! (i * size + q)%nat)).
Proof.
  intros Hx Hi Hq. assert (Hown : forall y, (y < k)%nat -> own y i !!! q = coef_at y ⊗ ((helper_data !!! y) !!! (i * size + q)%nat)).
  { intros y Hy. destruct (own_ok y i Hy Hi) as [Hl E]. rewrite E in Hl |- *. rewrite length_fmap in Hl.
    destruct (lookup_lt_is_Some_2 (packet conf (blk_at y) i) q) as [v Hv]; [lia|].
    assert (Hd : helper_data !!! y = drop (_packetSkipSize conf) (blk_at y)).
    { apply list_lookup_total_correct. unfold helper_data. by rewrite list_lookup_fmap, lookup_seq_lt. }
    rewrite (list_lookup_total_correct _ q (coef_at y ⊗ v)) by by rewrite list_lookup_fmap, Hv. f_equal. symmetry.
    apply list_lookup_total_correct. rewrite Hd, lookup_drop, <- Hv. unfold packet.
    rewrite lookup_take_lt, lookup_drop by done. f_equal. lia. }
  induction x as [|x IH]; [cbn [partial xsum]; by rewrite Z.lxor_0_l, Hown|].
  cbn [partial]. rewrite zip_with_lookup_total; [|by rewrite (proj1 (own_ok _ _ Hx Hi))|by rewrite length_partial by lia].
  rewrite IH by lia. rewrite Hown by done. apply Z.lxor_comm.
Qed.
End progress.


Section converges.
Context `{GF : GFComplete} {GL : GF8Laws} `{DL : DiskLaws} (conf : Config) (Hpo : packets_ok conf).
Context (ns : list pnode) (lost : str) (Hpl : pipeline conf ns lost).
Abbreviation cnt := (_packetCnt conf).
Abbreviation size := (_packetSize conf).
Abbreviation k := (length ns).

Lemma collected_bytes : concat (partial conf ns (k - 1) <$> seq 0 cnt) = lincomb k (cnt * size) (coef_at ns) (helper_data conf ns).
Proof.
  pose proof (pl_some _ _ _ Hpl) as Hk. apply (concat_packets _ _ size).
  - intros i Hi. eapply length_partial; (done || lia).
  - apply length_lincomb.
  - intros i q Hi Hq. rewrite lincomb_lookup by nia. rewrite (partial_lookup conf ns lost Hpl) by lia.
    by replace (S (k - 1)) with k by lia.
Qed.
End converges.
