(* ===== verification/PipeWait.v ===== *)
(** * The waits of the pipeline (PipeDRWorker.cc)

    The threads of PipeRepair.v with the mutexes and condition variables they
    wait on, as a [scheme] of Wait.v: where each thread waits, and whom it
    notifies.  A notification between a test that fails and the sleep is lost,
    and after the last one the repair stands still. *)
From Stdlib Require Import Ascii.
From stdpp Require Import strings relations functions.
From S2P Require Import Prelude Command Text Config Galois GF256 Jerasure Gauss Vandermonde ReedSol Encode RSUtil Disk Coordinator Packet DrCmd PipeRepair Wait.

#[local] Arguments Nat.ltb : simpl never.

(** The mutexes and condition variables of the helper [x]. *)
Inductive pmutex := DiskMtx (x i : nat) | MainSenderMtx (x : nat).
Inductive pcond := DiskCv (x : nat) | MainSenderCondVar (x : nat).
#[export] Instance pmutex_eq : EqDecision pmutex.
Proof. solve_decision. Defined.
#[export] Instance pcond_eq : EqDecision pcond.
Proof. solve_decision. Defined.

Section waits.
Context `{GF : GFComplete} `{DIO : DiskIO} (conf : Config) (ns : list pnode) (fetchIP : Z) (lostFile : str).
Abbreviation cnt := (_packetCnt conf).
Abbreviation pactor := (actor thread unit).

(** An iteration of a thread of a helper, or of [pipeCollector]. *)
Definition pipe_iterate (a : pactor) (st : pstate) : res pstate :=
  match a with
  | Helper x t =>
    n ← res_of_option Blocked (ns !! x);
    w ← res_of_option Blocked (workers st !! x);
    '(w, r) ← run_thread conf t n w (servers st);
    Ok (mkPState (<[x := w]> (workers st)) r (collected st))
  | Client _ =>
    '(out, r) ← collect conf fetchIP lostFile (collected st) (servers st);
    Ok (mkPState (workers st) r out)
  end.

(** Where the threads wait: [pullRequestorCompletion] for the packet read from
    disk, [sendWorker] for the packet to send. *)
Definition pipe_wait_on (a : pactor) (st : pstate) : option (pmutex * pcond) :=
  match a with
  | Helper x TPull => w ← workers st !! x; if (w_pulled w <? cnt)%nat then Some (DiskMtx x (w_pulled w), DiskCv x) else None
  | Helper x TSend => w ← workers st !! x; if (w_sent w <? cnt)%nat then Some (MainSenderMtx x, MainSenderCondVar x) else None
  | _ => None
  end.

Definition pipe_test (a : pactor) (st : pstate) : bool :=
  match a with
  | Helper x TPull => default true (w ← workers st !! x; _diskFlag w !! w_pulled w)
  | Helper x TSend => default true (w ← workers st !! x; Some (w_sent w <? _waitingToSend w)%nat)
  | _ => true
  end.

(** [readWorker] sets the flag of a packet with its mutex locked, and notifies. *)
Definition pipe_enters (a : pactor) (st : pstate) : option pmutex :=
  match a with Helper x TRead => w ← workers st !! x; Some (DiskMtx x (w_read w)) | _ => None end.

(** [pullRequestorCompletion] locks the mutex of the sender to notify it. *)
Definition pipe_signals (a : pactor) (_ : pstate) : list (signal pmutex pcond) :=
  match a with
  | Helper x TRead => [mkSignal None (DiskCv x) false]
  | Helper x TPull => [mkSignal (Some (MainSenderMtx x)) (MainSenderCondVar x) false]
  | _ => []
  end.

Definition pipe_scheme : scheme pstate pactor pmutex pcond :=
  mkScheme (actors (length ns) (fun _ => [TRead; TPull; TSend]) [tt]) pipe_iterate pipe_wait_on pipe_test (fun _ => false) pipe_enters (fun _ => false) pipe_signals.
Abbreviation W := pipe_scheme.

Lemma pipe_actor x t : (x < length ns)%nat -> Helper x t ∈ threads W.
Proof. intros Hx. apply actor_helper_in. split; [done|]. destruct t; set_solver. Qed.

(** The iterations are the steps of PipeRepair.v. *)
Lemma pipe_iterates st st' : pstep conf ns fetchIP lostFile st st' <-> exists a, a ∈ threads W /\ iterate W a st = Ok st'.
Proof.
  split.
  - intros [st0 x t n w w' r Hn Hw Hr|st0 out r Hr].
    + exists (Helper x t). split; [apply pipe_actor; by eapply lookup_lt_Some|]. cbn. rewrite Hn, Hw. cbn. by rewrite Hr.
    + exists (Client tt). split; [apply client_in; set_solver|]. cbn. by rewrite Hr.
  - intros ([x t|[]] & _ & E); cbn in E; res_inv.
    + destruct v1 as [w r]. injection Hk as <-. by eapply pstep_thread.
    + destruct v as [out r]. injection Hk as <-. by apply pstep_collect.
Qed.

Lemma pipe_fault a st e : iterate W a st = Fault e -> e <> Blocked -> pcrash conf ns fetchIP lostFile st.
Proof.
  intros E He. destruct a as [x t|[]]; cbn in E.
  - destruct (ns !! x) as [n|] eqn:Hn; cbn in E; [|congruence]. destruct (workers st !! x) as [w|] eqn:Hw; cbn in E; [|congruence].
    destruct (run_thread conf t n w (servers st)) as [[w' r]|e'] eqn:Er; [discriminate|]. injection E as <-. left. by exists x, t, n, w, e'.
  - destruct (collect conf fetchIP lostFile (collected st) (servers st)) as [[out r]|e'] eqn:Er; [discriminate|]. injection E as <-. right. by exists e'.
Qed.

(** What the iterations of a helper leave alone. *)
Lemma pipe_run_keeps t n w r w' r' : run_thread conf t n w r = Ok (w', r') ->
  (t <> TPull -> w_pulled w' = w_pulled w /\ _waitingToSend w' = _waitingToSend w) /\ (t <> TSend -> w_sent w' = w_sent w) /\ (t <> TRead -> _diskFlag w' = _diskFlag w).
Proof.
  destruct t; cbn [run_thread]; [unfold readWorker|unfold pullRequestorCompletion|unfold sendWorker]; intros H; res_inv; simplify_eq; try done.
  case_match. simplify_eq. by split_and!; intros.
Qed.

Lemma pipe_run_tested t n w r w' r' : run_thread conf t n w r = Ok (w', r') ->
  (t = TPull -> _diskFlag w !! w_pulled w = Some true) /\ (t = TSend -> (w_sent w < _waitingToSend w)%nat).
Proof.
  destruct t; cbn [run_thread]; [done|unfold pullRequestorCompletion|unfold sendWorker]; intros H; res_inv; split; intros [=]; [congruence|].
  by apply Nat.ltb_lt.
Qed.

(** The rank of the mutexes: none is taken while another is held. *)
Lemma pipe_laws (I : pstate -> Prop) work n :
  (forall st st', I st -> pstep conf ns fetchIP lostFile st st' -> I st' /\ work st' = S (work st)) ->
  (forall st, I st -> (work st <= n)%nat) ->
  (forall st, I st -> (work st < n)%nat -> exists st', pstep conf ns fetchIP lostFile st st') ->
  (forall st, I st -> ~ pcrash conf ns fetchIP lostFile st) ->
  scheme_laws W (fun _ => 0%nat) 0 I work n.
Proof.
  intros Hkeep Hbound Hmore Hcrash. apply exact_laws; cbn -[threads].
  - apply actors_nodup; [intros _ _|]; repeat constructor; set_solver.
  - done.
  - intros a st st' HI Ha E. apply (Hkeep st); [done|]. apply pipe_iterates. by exists a.
  - done.
  - intros st HI Hlt. destruct (Hmore st HI Hlt) as [st' Hs]. apply pipe_iterates in Hs as (a & Ha & E). by exists a, st'.
  - intros a st e HI _ E. destruct (decide (e = Blocked)); [done|]. by destruct (Hcrash st HI (pipe_fault a st e E ltac:(done))).
  - intros a st st' _ _ E. destruct a as [x t|[]]; [|done]. cbn in E. res_inv. destruct v1 as [w' r]. destruct (pipe_run_tested _ _ _ _ _ _ Hm1) as [H1 H2].
    unfold waits. cbn. destruct t; [done|..]; rewrite Hm0; cbn.
    + case_match; [|done]. by rewrite H1.
    + case_match; [|done]. by rewrite (proj2 (Nat.ltb_lt _ _)) by by apply H2.
  - intros a st st' a' _ _ E _ Hne. destruct a as [x t|[]]; cbn in E; res_inv.
    + destruct v1 as [w' r]. injection Hk as <-. destruct (pipe_run_keeps _ _ _ _ _ _ Hm1) as (H1 & H2 & H3).
      destruct a' as [y t'|]; [|done]. destruct (decide (y = x)) as [->|Hyx].
      * assert (t' <> t) by congruence. cbn. rewrite list_lookup_insert_eq, Hm0 by by eapply lookup_lt_Some. cbn.
        destruct t'; [done|by rewrite (proj1 (H1 ltac:(done)))|by rewrite H2].
      * destruct t'; cbn; by rewrite ?list_lookup_insert_ne by done.
    + destruct v as [out r]. injection Hk as <-. by destruct a'.
  - intros a st st' a' m c _ _ E _ Hne Hon Hf Ht. destruct a as [x t|[]]; cbn in E; res_inv.
    + destruct v1 as [w' r]. injection Hk as <-. destruct (pipe_run_keeps _ _ _ _ _ _ Hm1) as (H1 & H2 & H3).
      destruct a' as [y t'|]; [|done]. destruct (decide (y = x)) as [->|Hyx].
      2: { destruct t'; cbn in Hf, Ht; rewrite ?list_lookup_insert_ne in Ht by done; congruence. }
      assert (t' <> t) by congruence. destruct t'; cbn in Hon, Hf, Ht; [done|..]; rewrite list_lookup_insert_eq in Ht by (by eapply lookup_lt_Some);
        rewrite Hm0 in Hon, Hf; cbn in Hon, Hf, Ht; case_match; simplify_eq.
      * destruct t; [cbn; left|done|]. rewrite (proj1 (H1 ltac:(done))), (H3 ltac:(done)) in Ht. congruence.
      * destruct t; [|cbn; left|done]. rewrite (proj2 (H1 ltac:(done))), (H2 ltac:(done)) in Ht. congruence.
    + destruct v as [out r]. injection Hk as <-. destruct a' as [y []|]; cbn in Hf, Ht; congruence.
  - intros a st st' sg _ _ _ _ _ s t1 t2 m1 m2 _ _ _ H1 H2. destruct t1 as [x1 []|], t2 as [x2 []|]; cbn in H1, H2; try done;
      apply bind_Some in H1 as (w1 & _ & H1), H2 as (w2 & _ & H2); repeat case_match; congruence.
  - intros a st st' _ _ _. destruct a as [x []|]; cbn; try done; (split; [|done]); by intros m [=]; constructor.
Qed.
End waits.

(** ** A pipeline *)

Section pipeline.
Context `{GF : GFComplete} {GL : GF8Laws} `{DL : DiskLaws} (conf : Config) (Hpo : packets_ok conf).
Context (ns : list pnode) (lost : str) (Hpl : pipeline conf ns lost).
Abbreviation cnt := (_packetCnt conf).
Abbreviation size := (_packetSize conf).
Abbreviation k := (length ns).
Abbreviation fetchIP := (out_key ns lost (k - 1)).1.
Abbreviation W := (pipe_scheme conf ns fetchIP lost).

Lemma pipeline_laws : scheme_laws W (fun _ => 0%nat) 0 (progress conf ns lost) work (all_work conf ns).
Proof.
  apply pipe_laws.
  - intros st st'. apply (pstep_progress conf Hpo ns lost Hpl).
  - apply (work_bound conf ns lost Hpl).
  - apply (next_step conf Hpo ns lost Hpl).
  - apply (no_crash conf Hpo ns lost Hpl).
Qed.

Lemma pipeline_run sp st i ws : started conf ns lost st -> runs (wstep W sp) i (wstart st) ws ->
  winv W (fun _ => 0%nat) (progress conf ns lost) ws /\ work (polled ws) = i.
Proof.
  intros Hst Hr. destruct (started_progress conf ns lost st Hst) as [Hp H0]. destruct (winv_start (W := W) (rank := fun _ => 0%nat) st Hp) as (Hi & _).
  destruct (runs_work pipeline_laws _ _ _ _ Hi Hr) as [Hi' E]. split; [done|]. cbn in E. lia.
Qed.

(** A run brings the sum of the blocks of the helpers by their coefficients. *)
Lemma pipeline_delivers st : started conf ns lost st ->
  delivers W st ((3 * k + 1) * cnt) (fun st' => concat (collected st') = lincomb k (cnt * size) (coef_at ns) (helper_data conf ns)).
Proof.
  intros Hst. destruct (started_progress conf ns lost st Hst) as [Hp H0].
  apply (scheme_delivers pipeline_laws st _ Hp H0). intros s' Hp' E.
  rewrite (all_collected conf ns lost Hpl s' Hp' E). by eapply collected_bytes.
Qed.

(** C25: A pipelined repair with the mutexes and condition variables of the code,
    in every interleaving of the threads from their start: no thread fails, the
    client has the right packets in order, and all of them are the sum of the
    blocks of the helpers by their coefficients, after [3 k + 1] iterations per
    packet.  Every run ends without spurious wake-ups; and it can be continued
    until all packets have come, when sleepers may wake up by themselves, and also
    when not, if in no state of the run a thread was caught between a test that
    failed and its sleep by what it waits for. *)
Theorem pipe_waits st : started conf ns lost st ->
  delivers W st ((3 * k + 1) * cnt) (fun st' => concat (collected st') = lincomb k (cnt * size) (coef_at ns) (helper_data conf ns)) /\
  forall sp i ws, runs (wstep W sp) i (wstart st) ws ->
    collected (polled ws) = partial conf ns (k - 1) <$> seq 0 (length (collected (polled ws))) /\
    (length (collected (polled ws)) = cnt -> concat (collected (polled ws)) = lincomb k (cnt * size) (coef_at ns) (helper_data conf ns)) /\
    ((length (collected (polled ws)) < cnt)%nat -> (i < (3 * k + 1) * cnt)%nat).
Proof.
  intros Hst. split; [by apply pipeline_delivers|]. intros sp i ws Hr. destruct (pipeline_run sp st i ws Hst Hr) as [[Hp _] E]. split_and!.
  - by eapply pg_collected.
  - intros El. rewrite (pg_collected _ _ _ _ Hp), El. by eapply collected_bytes.
  - intros Hlt. pose proof (work_bound conf ns lost Hpl _ Hp) as Hb. rewrite <- E. change (all_work conf ns) with ((3 * k + 1) * cnt)%nat in Hb.
    destruct (decide (work (polled ws) = all_work conf ns)) as [E2|Hne]; [|unfold all_work in Hne; lia].
    rewrite (all_collected conf ns lost Hpl _ Hp E2), length_fmap, length_seq in Hlt. lia.
Qed.

(** ** A lost notification *)

Abbreviation puller := (Helper 0%nat TPull : actor thread unit).
Abbreviation reader := (Helper 0%nat TRead : actor thread unit).

(** The puller of the first helper has found the first packet unread and not
    locked the mutex yet, while [j] packets have been read. *)
Record overtaken (j : nat) (ws : wstate pstate (actor thread unit) pmutex pcond) : Prop := {
  ov_progress : progress conf ns lost (polled ws);
  ov_first : exists w, workers (polled ws) !! 0%nat = Some w /\ w_read w = j /\ w_pulled w = 0%nat;
  ov_puller : at_pc ws puller = Lock (DiskMtx 0 0) (DiskCv 0);
  ov_others a : a <> puller -> at_pc ws a = Test
}.

Lemma first_node : exists n, ns !! 0%nat = Some n.
Proof. apply lookup_lt_is_Some_2. apply Hpl. Qed.

Lemma first_actor t : Helper 0%nat t ∈ threads W.
Proof. apply pipe_actor, Hpl. Qed.

Lemma start_overtaken st : started conf ns lost st -> (0 < cnt)%nat -> exists ws, runs (wstep W false) 0 (wstart st) ws /\ overtaken 0 ws.
Proof.
  intros Hst Hcnt. pose proof (pl_some _ _ _ Hpl) as Hk.
  assert (Hw : workers st !! 0%nat = Some (cleanup conf)) by (destruct Hst as (-> & _); by apply lookup_replicate_2; lia).
  assert (Hon : wait_on W puller st = Some (DiskMtx 0 0, DiskCv 0)).
  { cbn. rewrite Hw. cbn. by rewrite (proj2 (Nat.ltb_lt 0 cnt)). }
  exists (mkWState st (<[puller := Lock (DiskMtx 0 0) (DiskCv 0)]> (fun _ => Test))). split.
  - apply (runs_once _ false). apply w_fails; [apply first_actor|done| |done|done]. unfold waits. rewrite Hon. cbn. rewrite Hw. cbn.
    by rewrite lookup_replicate_2.
  - split; cbn [polled at_pc].
    + by apply started_progress.
    + by exists (cleanup conf).
    + apply fn_lookup_insert.
    + intros a Ha. by rewrite fn_lookup_insert_ne.
Qed.

Lemma overtaken_free j ws m : overtaken j ws -> free W (at_pc ws) m.
Proof.
  intros [_ _ Hp Ho]. apply Forall_forall. intros a _. destruct (decide (a = puller)) as [->|Hne]; [rewrite Hp|rewrite (Ho a Hne)]; by intros [].
Qed.

Lemma overtaken_next j ws : overtaken j ws -> (j < cnt)%nat -> exists ws', runs (wstep W false) 1 ws ws' /\ overtaken (S j) ws'.
Proof.
  intros Hov Hlt. pose proof (overtaken_free j ws) as Hf. destruct ws as [st ps]. pose proof Hov as [Hp (w & Hw & Hj & H0) Hpu Ho]. cbn [polled at_pc] in *.
  destruct first_node as [n Hn]. pose proof (read_runs conf Hpo ns lost Hpl 0 n w (servers st) Hn (pg_worker _ _ _ _ Hp _ _ Hw)) as Hrd.
  rewrite decide_True in Hrd by lia. destruct Hrd as (w' & E & _ & E1 & E2 & _).
  assert (Ei : iterate W reader st = Ok (mkPState (<[0%nat := w']> (workers st)) (servers st) (collected st))).
  { cbn [iterate pipe_scheme pipe_iterate]. rewrite Hn. cbn [res_of_option]. rewrite bind_ok, Hw. cbn [res_of_option]. by rewrite bind_ok, E. }
  assert (En : enters W reader st = Some (DiskMtx 0 j)) by (cbn; rewrite Hw; cbn; by rewrite Hj).
  pose proof (w_iterate W false reader st _ ps (first_actor TRead) (Ho reader ltac:(done)) ltac:(done) (fun m _ => Hf m Hov) Ei) as Hs1.
  unfold keeps in Hs1. cbn [unlocks pipe_scheme] in Hs1. change (pipe_enters reader st) with (enters W reader st) in Hs1. rewrite En in Hs1. set (st' := mkPState _ _ _) in *. set (ps1 := <[_ := _]> ps) in Hs1.
  set (ps2 := <[reader := Signal [DiskMtx 0 j] []]> ps1). set (ps3 := <[reader := Test]> ps2).
  assert (Hs2 : wstep W false false (mkWState st' ps1) (mkWState st' ps2)).
  { eapply w_signal; [apply (first_actor TRead)|apply fn_lookup_insert|by intros m [=]|]. cbn [sg_lock option_list app].
    apply notify_none; [done|]. apply Forall_forall. unfold ps2. intros a _. destruct (decide (a = reader)) as [->|Hr]; [rewrite fn_lookup_insert; by intros []|].
    unfold ps1. rewrite !fn_lookup_insert_ne by done. destruct (decide (a = puller)) as [->|Hne]; [rewrite Hpu|rewrite (Ho a Hne)]; by intros []. }
  assert (Hs3 : wstep W false false (mkWState st' ps2) (mkWState st' ps3)) by (eapply w_release; [apply (first_actor TRead)|apply fn_lookup_insert]).
  exists (mkWState st' ps3). split; [exact (runs_step _ true _ _ _ _ Hs1 (runs_step _ false _ _ _ _ Hs2 (runs_once _ false _ _ Hs3)))|]. split; cbn [polled at_pc].
  - refine (proj1 (wl_keep _ _ _ _ _ _ _ pipeline_laws reader st st' Hp (first_actor TRead) Ei)).
  - exists w'. cbn. rewrite list_lookup_insert_eq by by eapply lookup_lt_Some. split_and!; [done|lia..].
  - unfold ps3, ps2, ps1. by rewrite !fn_lookup_insert_ne.
  - intros a Hne. unfold ps3. destruct (decide (a = reader)) as [->|Hr]; [apply fn_lookup_insert|]. unfold ps2, ps1. rewrite !fn_lookup_insert_ne by done. by apply Ho.
Qed.

(** The puller of the first helper sleeps and nobody will wake it. *)
Record asleep (ws : wstate pstate (actor thread unit) pmutex pcond) : Prop := {
  as_progress : progress conf ns lost (polled ws);
  as_first : exists w, workers (polled ws) !! 0%nat = Some w /\ w_read w = cnt /\ w_pulled w = 0%nat;
  as_puller : at_pc ws puller = Sleep (DiskMtx 0 0) (DiskCv 0);
  as_silent a held l : at_pc ws a = Signal held l -> DiskCv 0 ∉ (sg_cv <$> l)
}.

Lemma overtaken_asleep ws : overtaken cnt ws -> exists ws', runs (wstep W false) 0 ws ws' /\ asleep ws'.
Proof.
  intros Hov. pose proof (overtaken_free _ _ (DiskMtx 0 0) Hov) as Hf. destruct ws as [st ps]. destruct Hov as [Hp Hw Hpu Ho]. cbn [polled at_pc] in *.
  set (ps1 := <[puller := Hold (DiskMtx 0 0) (DiskCv 0)]> ps). set (ps2 := <[puller := Sleep (DiskMtx 0 0) (DiskCv 0)]> ps1).
  assert (Hs1 : wstep W false false (mkWState st ps) (mkWState st ps1)) by (apply w_lock; [apply (first_actor TPull)|done..]).
  assert (Hs2 : wstep W false false (mkWState st ps1) (mkWState st ps2)) by (apply w_sleep; [apply (first_actor TPull)|apply fn_lookup_insert]).
  exists (mkWState st ps2). split; [exact (runs_step _ false _ _ _ _ Hs1 (runs_once _ false _ _ Hs2))|]. split; cbn [polled at_pc]; [done|done|apply fn_lookup_insert|].
  intros a held l. unfold ps2, ps1. destruct (decide (a = puller)) as [->|Hne]; [by rewrite fn_lookup_insert|]. rewrite !fn_lookup_insert_ne, Ho by done. done.
Qed.

(** Steps of the others leave it asleep. *)
Lemma asleep_insert st ps a p : asleep (mkWState st ps) -> (forall m c, ps a <> Sleep m c) -> (forall held l, p = Signal held l -> DiskCv 0 ∉ (sg_cv <$> l)) ->
  asleep (mkWState st (<[a := p]> ps)).
Proof.
  intros [Hp Hw Hpu Hsi] Ha Hl. cbn [polled at_pc] in *. assert (Hne : a <> puller) by (intros ->; by apply (Ha (DiskMtx 0 0) (DiskCv 0))).
  split; cbn [polled at_pc]; [done|done|by rewrite fn_lookup_insert_ne|]. intros b held l. destruct (decide (a = b)) as [->|Hab].
  - rewrite fn_lookup_insert. apply Hl.
  - rewrite fn_lookup_insert_ne by done. apply Hsi.
Qed.

Lemma asleep_iterates st ps a st' : asleep (mkWState st ps) -> a ∈ threads W -> ps a = Test -> iterate W a st = Ok st' ->
  asleep (mkWState st' (<[a := Signal (keeps W a st) (signals W a st)]> ps)).
Proof.
  intros Has Ha Ep E. destruct (wl_keep _ _ _ _ _ _ _ pipeline_laws a st st' (as_progress _ Has) Ha E) as [Hp' _].
  pose proof Has as [Hp (w & Hw & H1 & H2) Hpu _]. cbn [polled at_pc] in *. destruct first_node as [n Hn].
  assert (Hpul : a <> puller) by (intros ->; congruence).
  assert (Hrd : a <> reader).
  { intros ->. cbn in E. rewrite Hn in E. cbn in E. rewrite Hw in E. cbn in E.
    pose proof (read_runs conf Hpo ns lost Hpl 0 n w (servers st) Hn (pg_worker _ _ _ _ Hp _ _ Hw)) as Hr. rewrite decide_False in Hr by lia.
    cbn [run_thread] in Hr. destruct (readWorker conf n w); cbn in *; congruence. }
  assert (Has' : asleep (mkWState st' ps)).
  { split; [done| |done|apply Has]. cbn [polled]. destruct a as [x t|[]]; cbn in E; res_inv.
    - destruct v1 as [w' r]. injection Hk as <-. cbn. destruct (decide (x = 0%nat)) as [->|Hx]; [|exists w; by rewrite list_lookup_insert_ne].
      assert (v0 = w) as -> by congruence. exists w'. rewrite list_lookup_insert_eq by by eapply lookup_lt_Some. destruct t; [done|done|].
      cbn [run_thread] in Hm1. unfold sendWorker in Hm1. res_inv. by simplify_eq.
    - destruct v as [out r]. injection Hk as <-. by exists w. }
  apply asleep_insert; [done|intros m c; congruence|]. intros held l [= _ <-]. destruct a as [x []|]; cbn; set_solver.
Qed.

Lemma asleep_step b ws ws' : asleep ws -> wstep W false b ws ws' -> asleep ws'.
Proof.
  intros Has Hs. destruct Hs as [a s s' ps Ha Ep _ _ E| | | | | | |a s ps ps' held sg l Ha Ep Hf Hn|a s ps held Ha Ep|]; [by apply asleep_iterates|..]; try done.
  7: { apply asleep_insert; [done|congruence|done]. }
  6: { pose proof Has as [Hp Hw Hpu Hsi]. cbn [polled at_pc] in *. pose proof (Hsi a _ _ Ep) as Hcv. rewrite fmap_cons in Hcv. apply not_elem_of_cons in Hcv as [Hne Hl].
    assert (Hap : a <> puller) by (intros ->; congruence). split; cbn [polled at_pc]; [done|done|..].
    - destruct (notify_at _ _ _ _ puller Hn) as [->|(m & Hm & _)]; [by rewrite fn_lookup_insert_ne|]. rewrite fn_lookup_insert_ne in Hm by done. congruence.
    - intros b held' l' Hb. destruct (notify_at _ _ _ _ b Hn) as [Eb|(m & _ & Hm)]; [|congruence]. rewrite Eb in Hb. destruct (decide (a = b)) as [->|Hab].
      + rewrite fn_lookup_insert in Hb. by injection Hb as _ <-.
      + rewrite fn_lookup_insert_ne in Hb by done. by eapply Hsi. }
  all: apply asleep_insert; [done|congruence|by intros; repeat case_match].
Qed.

Lemma asleep_runs i ws ws' : asleep ws -> runs (wstep W false) i ws ws' -> asleep ws'.
Proof. intros Ha Hs. induction Hs as [|b i ws ws1 ws' Hs _ IH]; [done|]. apply IH. by eapply asleep_step. Qed.

(** Nothing gets past the first helper. *)
Lemma asleep_nothing ws : asleep ws -> collected (polled ws) = [].
Proof.
  intros [Hp (w & Hw & _ & H0) _ _]. pose proof (pl_some _ _ _ Hpl) as Hk.
  assert (Hall : forall x wx, workers (polled ws) !! x = Some wx -> w_sent wx = 0%nat).
  { induction x as [|x IH]; intros wx Hx; pose proof (wk_order _ _ _ _ (pg_worker _ _ _ _ Hp _ _ Hx)) as Ho.
    - replace wx with w in * by congruence. lia.
    - destruct (lookup_lt_is_Some_2 (workers (polled ws)) x) as [wy Hy]; [apply lookup_lt_Some in Hx; lia|].
      destruct (pg_queue _ _ _ _ Hp _ _ Hy) as [Hq _]. unfold taken in Hq. rewrite Hx, (IH wy Hy) in Hq. lia. }
  destruct (last_worker conf ns lost Hpl _ Hp) as [wl Hl]. destruct (pg_queue _ _ _ _ Hp _ _ Hl) as [Hq _].
  unfold taken in Hq. rewrite lookup_ge_None_2 in Hq by (rewrite (pg_len _ _ _ _ Hp); lia). rewrite (Hall _ _ Hl) in Hq.
  apply nil_length_inv. lia.
Qed.

(** C26: The repair can stand still: whatever the pipeline, its threads can run
    into a state (the puller of the first helper tests the flag of the first
    packet, all packets are read, and then it goes to sleep) from which, without
    spurious wake-ups, no run brings the client a single packet, although threads
    that poll could always go on. *)
Theorem lost_wakeup st : started conf ns lost st -> (0 < cnt)%nat ->
  exists i ws, runs (wstep W false) i (wstart st) ws /\ missed W ws /\
    forall j ws', runs (wstep W false) j ws ws' -> collected (polled ws') = [] /\ exists st', pstep conf ns fetchIP lost (polled ws') st'.
Proof.
  intros Hst Hcnt. destruct (start_overtaken st Hst Hcnt) as (ws0 & Hs0 & Ho).
  assert (Hall : forall j, (j <= cnt)%nat -> exists ws, runs (wstep W false) j ws0 ws /\ overtaken j ws).
  { induction j as [|j IH]; intros Hj; [exists ws0; split; [apply runs_refl|done]|]. destruct IH as (ws & Hs & Hov); [lia|].
    destruct (overtaken_next j ws Hov ltac:(lia)) as (ws' & Hs' & Hov'). exists ws'. split; [|done]. replace (S j) with (j + 1)%nat by lia. by eapply runs_trans. }
  destruct (Hall cnt ltac:(lia)) as (ws1 & Hs1 & Hov). destruct (overtaken_asleep ws1 Hov) as (ws & Hs2 & Has).
  eexists _, ws. split; [eapply runs_trans; [exact Hs0|]; eapply runs_trans; [exact Hs1|exact Hs2]|]. split.
  - destruct Has as [Hp (w & Hw & H1 & H2) Hpu _]. exists puller, (DiskMtx 0 0), (DiskCv 0). split; [apply (first_actor TPull)|]. split; [done|].
    unfold waits. cbn. rewrite Hw. cbn. rewrite H2, (proj2 (Nat.ltb_lt _ _)) by done.
    rewrite (wk_flags _ _ _ _ (pg_worker _ _ _ _ Hp _ _ Hw)) by lia. by rewrite bool_decide_true by lia.
  - intros j ws' Hs. pose proof (asleep_runs _ _ _ Has Hs) as Ha'.
    pose proof (asleep_nothing _ Ha') as Hn. split; [done|]. destruct Ha' as [Hp _ _ _]. apply (next_step conf Hpo ns lost Hpl _ Hp).
    pose proof (work_bound conf ns lost Hpl _ Hp). destruct (decide (work (polled ws') = all_work conf ns)) as [E|]; [|lia].
    pose proof (all_collected conf ns lost Hpl _ Hp E) as Hc. rewrite Hn in Hc. apply (f_equal length) in Hc. rewrite length_fmap, length_seq in Hc. cbn in Hc. lia.
Qed.
End pipeline.

(** ** A pipeline of two helpers *)

Section example.

Definition pair_conf : Config := mkConfig 2 3 8 0 2 [1; 2] 9 0 false false [] 0 [] 0 [].
Definition pair_nodes : list pnode :=
  [mkPNode 1 (mkDrCmd 2 9 0 2 0 7 (lit "lost") (lit "own")) (Some (seqZ 1 16)) None;
   mkPNode 2 (mkDrCmd 2 9 1 9 1 3 (lit "lost") (lit "other")) (Some (seqZ 101 16)) (Some 1)].
Definition pair_start : pstate := mkPState (replicate 2 (cleanup pair_conf)) ∅ [].

Lemma pair_packets : packets_ok pair_conf.
Proof. split; [reflexivity|cbn; lia|cbn; lia]. Qed.

Lemma pair_pipeline : pipeline pair_conf pair_nodes (lit "lost").
Proof.
  split.
  - cbn. lia.
  - decided.
  - intros [|[|x]] n Hn; [injection Hn as <-|injection Hn as <-|done]; cbn; by split_and!.
  - intros [|x] n m Hn Hm; [injection Hn as <-; injection Hm as <-; done|done].
  - intros [|[|x]] n Hn; [injection Hn as <-|injection Hn as <-|done]; eexists; (split; [reflexivity|]); (split; [vm_compute; lia|decided]).
Qed.

Lemma pair_started : started pair_conf pair_nodes (lit "lost") pair_start.
Proof. split_and!; [done|done|]. intros x _. reflexivity. Qed.

Lemma pipe_waits_witness :
  delivers (pipe_scheme pair_conf pair_nodes 2 (lit "lost")) pair_start 14
    (fun st => concat (collected st) = lincomb 2 16 (coef_at pair_nodes) (helper_data pair_conf pair_nodes)).
Proof. exact (proj1 (pipe_waits pair_conf pair_packets pair_nodes (lit "lost") pair_pipeline pair_start pair_started)). Defined.

Lemma lost_wakeup_witness :
  exists i ws, runs (wstep (pipe_scheme pair_conf pair_nodes 2 (lit "lost")) false) i (wstart pair_start) ws /\
    forall j ws', runs (wstep (pipe_scheme pair_conf pair_nodes 2 (lit "lost")) false) j ws ws' -> collected (polled ws') = [].
Proof.
  destruct (lost_wakeup pair_conf pair_packets pair_nodes (lit "lost") pair_pipeline pair_start pair_started ltac:(cbn; lia)) as (i & ws & H1 & _ & H2).
  exists i, ws. split; [exact H1|]. intros j ws' Hs. exact (proj1 (H2 j ws' Hs)).
Defined.
End example.
