(* ===== verification/MulRepair.v ===== *)
(** * Pipelined repair of several blocks (PipeMulDRWorker.cc)

    The pipeline of PipeRepair.v for all the lost blocks of a stripe at once.  A
    helper collects the commands of a repair, one job per lost block, and runs
    three threads for all of them: [readMulWorker] reads a packet once and
    multiplies it by the coefficient of every job, and the other two go through
    the packets and, for each, through the jobs.  The client ([pipeCollector]
    and [pipeForwardWorker] of ECPipeInputStream.cc) writes the first lost
    block to its file and pushes the packets of the others to its own Redis,
    where their nodes find them.  The definitions are the iterations, each from
    the test of its wait on; the waits for the tests are in MulWait.v.

    The threads are proved against PipeRepair.v: seen by one job, the helpers
    are those of a single pipeline, and the steps for the other jobs do not
    concern it. *)
From Stdlib Require Import Ascii.
From stdpp Require Import strings relations.
From S2P Require Import Prelude Command Text Config Galois GF256 Jerasure Gauss Vandermonde ReedSol Encode RSUtil Disk Coordinator Packet DrCmd PipeRepair.

#[export] Instance dr_cmd_inhabited : Inhabited dr_cmd := populate (mkDrCmd 0 0 0 0 0 0 [] []).

(** The bound of the arrays of counters. *)
Definition MAX_ECK : nat := 30.

(** ** A helper *)

(** What the threads of a helper are given: its address, its jobs, the file
    they read and the connections to the helpers before it. *)
Record mnode := mkMNode {
  mn_ip : Z;
  mn_jobs : list dr_cmd;
  mn_file : list Z;
  mn_prevs : list (option Z)
}.

(** The members the threads share, and the counters of their loops; those of
    [pullRequestorMulCompletion] and [sendMulWorker] count the iterations of
    both loops. *)
Record mworker := mkMWorker {
  m_diskPkts : list (list Z);
  m_diskFlag : list bool;
  _sendMulPkt : list (list Z);
  waitingToSend : list nat;
  m_read : nat;
  m_pulled : nat;
  m_sent : nat
}.

#[export] Instance mnode_inhabited : Inhabited mnode := populate (mkMNode 0 [] [] []).
#[export] Instance mworker_inhabited : Inhabited mworker := populate (mkMWorker [] [] [] [] 0 0 0).

(** A command: its number tells the first job of a repair ([jobInd] is
    [jobNum]) and the last (1), which starts the threads. *)
Definition take_job (pipeMulJobs : list dr_cmd) (cmd : list Z) : res (list dr_cmd * bool) :=
  '(c, (jobInd, jobNum)) ← parse_mul_cmd cmd;
  Ok ((if jobInd =? jobNum then [] else pipeMulJobs) ++ [c], jobInd =? 1).

Section workers.
Context `{GF : GFComplete} `{DIO : DiskIO} (conf : Config).
Abbreviation cnt := (_packetCnt conf).
Abbreviation size := (_packetSize conf).

(** The constructor of [DRWorker]; the counters of the jobs are not set yet. *)
Definition new_worker (waiting : list nat) : mworker :=
  mkMWorker (replicate cnt (zeros size)) (replicate cnt false) [] waiting 0 0 0.

(** The start of the threads.  [_sendMulPkt] is made anew and the counters of
    the jobs are reset; [_diskFlag] is not, as [cleanup] is not called. *)
Definition start_worker (nj : nat) (w : mworker) : res mworker :=
  guard_or Undef (nj <=? length (waitingToSend w))%nat;;
  Ok (mkMWorker (m_diskPkts w) (m_diskFlag w) (replicate cnt (zeros (size * nj + 4)))
        (replicate nj 0%nat ++ drop nj (waitingToSend w)) 0 0 0).

Definition start_node (_localIP : Z) (dir : blkdir) (jobs : list dr_cmd) : res mnode :=
  c ← res_of_option Undef (jobs !! 0%nat);
  file ← openLocalFile dir (dr_localBlkName c);
  rcs ← for_each jobs (fun c rcs => rc ← findCtx (slavesCtx (_helpersIPs conf)) (dr_prevIP c); Ok (rcs ++ [rc])) [];
  Ok (mkMNode _localIP jobs file rcs).

(** The packet in the place of the job [j], multiplied by its coefficient. *)
Definition multiply_job (pkt : list Z) '((j, c) : nat * dr_cmd) (buf : list Z) : res (list Z) :=
  buf ← res_of_option Undef (memcpy buf (j * size) pkt);
  p ← res_of_option Undef (slice buf (j * size) size);
  res_of_option Undef (memcpy buf (j * size) (multiply p (dr_coefficient c))).

(** One iteration of [readMulWorker]; [base] is an [int], and a [pread] at a
    negative offset fails. *)
Definition readMulWorker (n : mnode) (w : mworker) : res mworker :=
  let i := m_read w in
  guard_or Blocked (i <? cnt)%nat;;
  pkt ← res_of_option Undef (m_diskPkts w !! i);
  let base := (_packetSkipSize conf + i * size)%nat in
  guard_or (Exit 1) (bool_decide (is_s32 (Z.of_nat base)));;
  pkt ← readPacketFromDisk (mn_file n) pkt size base;
  buf ← res_of_option Undef (_sendMulPkt w !! i);
  buf ← for_each (zip (seq 0 (length (mn_jobs n))) (mn_jobs n)) (multiply_job pkt) buf;
  _ ← pktOutput i cnt;
  Ok (mkMWorker (<[i := pkt]> (m_diskPkts w)) (<[i := true]> (m_diskFlag w)) (<[i := buf]> (_sendMulPkt w))
        (waitingToSend w) (S i) (m_pulled w) (m_sent w)).

(** One iteration of [pullRequestorMulCompletion]: the flag of a packet is
    tested before its jobs, and the wait for it is [mul_wait_on], [mul_test] of
    MulWait.v. *)
Definition pullRequestorMulCompletion (n : mnode) (w : mworker) (r : redis) : res (mworker * redis) :=
  let nj := length (mn_jobs n) in
  let pktId := (m_pulled w / nj)%nat in
  let j := (m_pulled w mod nj)%nat in
  guard_or Blocked (pktId <? cnt)%nat;;
  (if (j =? 0)%nat then flag ← res_of_option Undef (m_diskFlag w !! pktId); guard_or Blocked flag else Ok tt);;
  _ ← pktOutput pktId cnt;
  c ← res_of_option Undef (mn_jobs n !! j);
  buf ← res_of_option Undef (_sendMulPkt w !! pktId);
  '(buf, r) ←
    (if dr_id c =? 0 then Ok (buf, r) else
     rc ← res_of_option Undef (mjoin (mn_prevs n !! j));
     '(str, r) ← res_of_option Blocked (BLPOP rc (tmpKey (dr_lostBlkName c)) r);
     p ← res_of_option Undef (slice buf (j * size) size);
     p ← XORBuffers p str size;
     buf ← res_of_option Undef (memcpy buf (j * size) p);
     Ok (buf, r));
  waiting ← res_of_option Undef (waitingToSend w !! j);
  Ok (mkMWorker (m_diskPkts w) (m_diskFlag w) (<[pktId := buf]> (_sendMulPkt w))
        (<[j := S waiting]> (waitingToSend w)) (m_read w) (S (m_pulled w)) (m_sent w), r).

(** One iteration of [sendMulWorker], once the test of the counter has succeeded;
    the wait for it is [mul_wait_on], [mul_test] of MulWait.v. *)
Definition sendMulWorker (n : mnode) (w : mworker) (r : redis) : res (mworker * redis) :=
  let nj := length (mn_jobs n) in
  let i := (m_sent w / nj)%nat in
  let j := (m_sent w mod nj)%nat in
  guard_or Blocked (i <? cnt)%nat;;
  _ ← pktOutput i cnt;
  waiting ← res_of_option Undef (waitingToSend w !! j);
  guard_or Blocked (i <? waiting)%nat;;
  c ← res_of_option Undef (mn_jobs n !! j);
  buf ← res_of_option Undef (_sendMulPkt w !! i);
  p ← res_of_option Undef (slice buf (j * size) size);
  Ok (mkMWorker (m_diskPkts w) (m_diskFlag w) (_sendMulPkt w) (waitingToSend w) (m_read w) (m_pulled w) (S (m_sent w)),
      RPUSH (mn_ip n) (sendKey c) p r).

Definition run_mthread (t : thread) (n : mnode) (w : mworker) (r : redis) : res (mworker * redis) :=
  match t with
  | TRead => w ← readMulWorker n w; Ok (w, r)
  | TPull => pullRequestorMulCompletion n w r
  | TSend => sendMulWorker n w r
  end.

(** ** The client *)

(** [_contents], whose length is [_completePacketIndex], by packet and job; the
    packets forwarded, and the file testfileOut. *)
Record mclient := mkMClient {
  c_contents : list (list Z);
  _processedPacket : nat;
  c_file : list Z
}.

(** One iteration of [pipeCollector]: [fetch] are the connections [_pipePullCtx]. *)
Definition pipeCollector (fetch : list Z) (_lostFiles : list str) (c : mclient) (r : redis) : res (mclient * redis) :=
  let nj := length _lostFiles in
  let i := (length (c_contents c) / nj)%nat in
  let j := (length (c_contents c) mod nj)%nat in
  guard_or Blocked (i <? cnt)%nat;;
  ctx ← res_of_option Undef (fetch !! j);
  f ← res_of_option Undef (_lostFiles !! j);
  '(str, r) ← res_of_option Blocked (BLPOP ctx f r);
  pkt ← res_of_option Undef (slice str 0 size);
  Ok (mkMClient (c_contents c ++ [pkt]) (_processedPacket c) (c_file c), r).

(** One iteration of [pipeForwardWorker], once the predicate of its wait holds
    (MulWait.v). *)
Definition pipeForwardWorker (_locIP : Z) (_lostFiles : list str) (c : mclient) (r : redis) : res (mclient * redis) :=
  let nj := length _lostFiles in
  let i := (_processedPacket c / nj)%nat in
  let j := (_processedPacket c mod nj)%nat in
  guard_or Blocked (i <? cnt)%nat;;
  guard_or Blocked (_processedPacket c <? length (c_contents c))%nat;;
  pkt ← res_of_option Undef (c_contents c !! _processedPacket c);
  if (j =? 0)%nat then Ok (mkMClient (c_contents c) (S (_processedPacket c)) (c_file c ++ pkt), r) else
  f ← res_of_option Undef (_lostFiles !! j);
  Ok (mkMClient (c_contents c) (S (_processedPacket c)) (c_file c), RPUSH _locIP f pkt r).

(** ** The system *)

Record mstate := mkMState { m_workers : list mworker; m_servers : redis; m_client : mclient }.

Inductive mstep (ns : list mnode) (fetch : list Z) (_locIP : Z) (_lostFiles : list str) : mstate -> mstate -> Prop :=
  | mstep_thread st x t n w w' r :
      ns !! x = Some n -> m_workers st !! x = Some w -> run_mthread t n w (m_servers st) = Ok (w', r) ->
      mstep ns fetch _locIP _lostFiles st (mkMState (<[x := w']> (m_workers st)) r (m_client st))
  | mstep_collect st c r :
      pipeCollector fetch _lostFiles (m_client st) (m_servers st) = Ok (c, r) ->
      mstep ns fetch _locIP _lostFiles st (mkMState (m_workers st) r c)
  | mstep_forward st c r :
      pipeForwardWorker _locIP _lostFiles (m_client st) (m_servers st) = Ok (c, r) ->
      mstep ns fetch _locIP _lostFiles st (mkMState (m_workers st) r c).

(** A thread that would do something other than step or wait. *)
Definition mcrash (ns : list mnode) (fetch : list Z) (_locIP : Z) (_lostFiles : list str) (st : mstate) : Prop :=
  (exists x t n w e, ns !! x = Some n /\ m_workers st !! x = Some w /\
     run_mthread t n w (m_servers st) = Fault e /\ e <> Blocked) \/
  (exists e, pipeCollector fetch _lostFiles (m_client st) (m_servers st) = Fault e /\ e <> Blocked) \/
  exists e, pipeForwardWorker _locIP _lostFiles (m_client st) (m_servers st) = Fault e /\ e <> Blocked.
End workers.
