(* ===== verification/MulProgress.v ===== *)
(** * Progress of the pipelines of several blocks

    Seen by one job, the system of MulRepair.v is that of PipeRepair.v: the
    threads do for the job what those of a single pipeline do, and what they do
    for the others leaves its packets, counters and lists alone.  So the
    invariant of PipeRepair.v holds for every job, no thread fails, and the
    system goes on until the client has forwarded every packet. *)
From Stdlib Require Import Ascii.
From stdpp Require Import strings relations.
From S2P Require Import Prelude Command Text Config Galois GF256 Jerasure Gauss Vandermonde ReedSol Encode RSUtil Disk Coordinator Packet DrCmd PipeRepair MulRepair.

(** ** The places of the jobs in a buffer *)

(** The place of the job [j]. *)
Definition part (size j : nat) (buf : list Z) : list Z := take size (drop (j * size) buf).

Lemma length_part size nj j buf : (j < nj)%nat -> (size * nj <= length buf)%nat -> length (part size j buf) = size.
Proof. intros Hj Hl. unfold part. rewrite length_take, length_drop. nia. Qed.

Lemma slice_part size nj j buf : (j < nj)%nat -> (size * nj <= length buf)%nat -> slice buf (j * size) size = Some (part size j buf).
Proof. intros Hj Hl. apply slice_Some. split; [nia|done]. Qed.

Lemma memcpy_part size nj j buf p : (j < nj)%nat -> (size * nj <= length buf)%nat -> length p = size ->
  exists buf', memcpy buf (j * size) p = Some buf' /\ length buf' = length buf /\ part size j buf' = p /\
    forall i, i <> j -> part size i buf' = part size i buf.
Proof.
  intros Hj Hl Hp. assert (Hfit : (j * size + length p <= length buf)%nat).
  { pose proof (Nat.mul_le_mono_r (S j) nj size ltac:(lia)) as H. rewrite (Nat.mul_comm nj) in H. simpl in H. lia. }
  destruct (memcpy buf (j * size) p) as [buf'|] eqn:E; [|by rewrite memcpy_Some in E].
  exists buf'. pose proof (memcpy_length _ _ _ _ E) as El. split_and!; [done|done| |].
  - apply list_eq_same_length with size; [done|apply (length_part size nj); lia|]. intros q a b Hq. unfold part.
    rewrite lookup_take_lt, lookup_drop, (memcpy_lookup _ _ _ _ _ E), decide_True by lia.
    replace (j * size + q - j * size)%nat with q by lia. congruence.
  - intros i Hne. apply list_eq. intros q. unfold part. destruct (decide (q < size)%nat).
    + rewrite !lookup_take_lt, !lookup_drop, (memcpy_lookup _ _ _ _ _ E), decide_False by nia. done.
    + by rewrite !lookup_take_ge by lia.
Qed.

(** ** What a job sees *)

Section views.
Context (conf : Config) (nj : nat) (Hnj : (0 < nj)%nat).
Abbreviation cnt := (_packetCnt conf).
Abbreviation size := (_packetSize conf).

Definition node_of (j : nat) (n : mnode) : pnode :=
  mkPNode (mn_ip n) (mn_jobs n !!! j) (Some (mn_file n)) (mjoin (mn_prevs n !! j)).

Definition worker_of (j : nat) (w : mworker) : pworker :=
  mkPWorker (part size j <$> _sendMulPkt w) (m_diskFlag w) (waitingToSend w !!! j) (m_read w)
    (share nj j (m_pulled w)) (share nj j (m_sent w)).

(** The packets of the job [j] among the first [t] of all the jobs. *)
Definition packets_of (j t : nat) (contents : list (list Z)) : list (list Z) :=
  (fun i => contents !!! (nj * i + j)%nat) <$> seq 0 (share nj j t).

(** The job [j] of the helpers, which is the [p]-th of the client. *)
Definition state_of (j p : nat) (st : mstate) : pstate :=
  mkPState (worker_of j <$> m_workers st) (m_servers st) (packets_of p (length (c_contents (m_client st))) (c_contents (m_client st))).

(** The sizes of the buffers and of the arrays. *)
Record shape (w : mworker) : Prop := {
  sh_disk : length (m_diskPkts w) = cnt /\ Forall (fun b => length b = size) (m_diskPkts w);
  sh_pkts : length (_sendMulPkt w) = cnt /\ Forall (fun b => length b = (size * nj + 4)%nat) (_sendMulPkt w);
  sh_waiting : (nj <= length (waitingToSend w))%nat
}.

Lemma length_packets_of j t l : length (packets_of j t l) = share nj j t.
Proof. unfold packets_of. by rewrite length_fmap, length_seq. Qed.

(** One more packet. *)
Lemma packets_S j t l : (j < nj)%nat ->
  packets_of j (S t) l = packets_of j t l ++ (if decide (t mod nj = j)%nat then [l !!! t] else []).
Proof.
  intros Hj. unfold packets_of. rewrite share_S, seq_app, fmap_app by done. f_equal. case_decide as E; [|done]. cbn. subst j.
  rewrite share_at by done. by rewrite <- (Nat.div_mod_eq t nj).
Qed.

Lemma packets_app j t l l' : (j < nj)%nat -> (t <= length l)%nat -> packets_of j t (l ++ l') = packets_of j t l.
Proof.
  intros Hj Hl. unfold packets_of. apply list_fmap_ext. intros q i [-> Hi]%lookup_seq. cbn. apply lookup_total_app_l.
  unfold share in Hi. pose proof (Nat.div_mod_eq t nj). destruct (Nat.ltb_spec j (t mod nj)); nia.
Qed.

Lemma part_at (l : list (list Z)) i b j : l !! i = Some b -> (part size j <$> l) !! i = Some (part size j b).
Proof. intros E. by rewrite list_lookup_fmap, E. Qed.

Lemma waiting_at w j : shape w -> (j < nj)%nat -> waitingToSend w !! j = Some (waitingToSend w !!! j).
Proof. intros Hsh Hj. apply list_lookup_lookup_total_lt. pose proof (sh_waiting w Hsh). lia. Qed.

Lemma buf_at w i : shape w -> (i < cnt)%nat -> exists b, _sendMulPkt w !! i = Some b /\ length b = (size * nj + 4)%nat.
Proof.
  intros Hsh Hi. destruct (sh_pkts w Hsh) as [Hl Hall]. destruct (lookup_lt_is_Some_2 (_sendMulPkt w) i) as [b Hb]; [lia|].
  exists b. split; [done|]. by eapply (proj1 (Forall_lookup _ _) Hall).
Qed.
End views.

(** ** The steps of a helper, as its jobs see them *)

Section steps.
Context `{GF : GFComplete} {GL : GF8Laws} `{DL : DiskLaws} (conf : Config) (Hpo : packets_ok conf).
Context (nj : nat) (Hnj : (0 < nj)%nat).
Abbreviation cnt := (_packetCnt conf).
Abbreviation size := (_packetSize conf).
Abbreviation shaped := (shape conf nj).
Abbreviation seen := (worker_of conf nj).

(** A helper with [nj] jobs. *)
Record jobs_ok (n : mnode) : Prop := {
  jo_len : length (mn_jobs n) = nj;
  jo_file : blk_file conf (mn_file n);
  jo_coefs : Forall (fun c => is_byte (dr_coefficient c)) (mn_jobs n)
}.

Lemma job_at n j : jobs_ok n -> (j < nj)%nat -> mn_jobs n !! j = Some (mn_jobs n !!! j).
Proof. intros [Hl _ _] Hj. apply list_lookup_lookup_total_lt. lia. Qed.

(** [readMulWorker] puts every job's product in its place. *)
Lemma multiply_jobs pkt (cs : list dr_cmd) buf : length pkt = size -> (length cs <= nj)%nat -> length buf = (size * nj + 4)%nat ->
  Forall is_byte pkt -> Forall (fun c => is_byte (dr_coefficient c)) cs ->
  exists buf', for_each (zip (seq 0 (length cs)) cs) (multiply_job conf pkt) buf = Ok buf' /\ length buf' = length buf /\
    forall j c, cs !! j = Some c -> part size j buf' = multiply pkt (dr_coefficient c).
Proof.
  intros Hp Hcs Hb Hbytes Hcoefs.
  destruct (for_each_total (fun m b => length b = length buf /\ forall j c, (j < m)%nat -> cs !! j = Some c -> part size j b = multiply pkt (dr_coefficient c))
    (zip (seq 0 (length cs)) cs) (multiply_job conf pkt) buf) as (buf' & E & Hl & Hat).
  - split; [done|lia].
  - intros i [i' c] b [Hi Hc]%lookup_indexed [Hl Hat]. cbn [fst snd] in *. subst i'. pose proof (lookup_lt_Some _ _ _ Hc) as Hlt.
    destruct (memcpy_part size nj i b pkt) as (b1 & E1 & L1 & P1 & O1); [lia|lia|done|].
    destruct (memcpy_part size nj i b1 (multiply pkt (dr_coefficient c))) as (b2 & E2 & L2 & P2 & O2); [lia|lia| |].
    { rewrite multiply_spec, length_fmap; [done|done|]. exact (proj1 (Forall_lookup _ _) Hcoefs i c Hc). }
    unfold multiply_job. rewrite E1. cbn [res_of_option]. rewrite bind_ok, (slice_part size nj) by lia. cbn [res_of_option].
    rewrite bind_ok, P1, E2. cbn [res_of_option Nat.add]. eexists. split; [done|]. split; [congruence|]. intros j d Hj Hd.
    destruct (decide (j = i)) as [->|Hne]; [by replace d with c by congruence|].
    rewrite O2, O1 by done. apply Hat; (done || lia).
  - rewrite length_indexed in Hat. exists buf'. split_and!; [done|done|]. intros j c Hc. apply Hat; [by eapply lookup_lt_Some|done].
Qed.
(** An iteration of [readMulWorker] is one of [readWorker] for every job. *)
Lemma read_sim n w r : jobs_ok n -> shaped w -> (m_read w < cnt)%nat ->
  exists w2, run_mthread conf TRead n w r = Ok (w2, r) /\ shaped w2 /\
    m_read w2 = S (m_read w) /\ m_pulled w2 = m_pulled w /\ m_sent w2 = m_sent w /\
    forall j, (j < nj)%nat -> run_thread conf TRead (node_of j n) (seen j w) r = Ok (seen j w2, r).
Proof.
  intros Hn Hw Hlt. pose proof (po_base _ Hpo) as Hbase. destruct (jo_file n Hn) as [Hfl Hfb].
  destruct (sh_disk _ _ _ Hw) as [Hdl Hda]. destruct (lookup_lt_is_Some_2 (m_diskPkts w) (m_read w)) as [old Hold]; [lia|].
  pose proof (proj1 (Forall_lookup _ _) Hda _ _ Hold) as Holdl. cbv beta in Holdl.
  destruct (buf_at conf nj Hnj w (m_read w) Hw Hlt) as (buf & Hbuf & Hbl).
  set (base := (_packetSkipSize conf + m_read w * size)%nat). set (pkt := take size (drop base (mn_file n))).
  assert (Hfit : (base + size <= length (mn_file n))%nat) by (unfold base; nia).
  assert (Hpl : length pkt = size) by (unfold pkt; rewrite length_take, length_drop; lia).
  assert (Hpb : Forall is_byte pkt) by by apply Forall_take, Forall_drop.
  assert (Hs32 : is_s32 (Z.of_nat base)) by (unfold base; split; nia).
  destruct (multiply_jobs pkt (mn_jobs n) buf Hpl) as (buf' & E & Hbl' & Hparts); [rewrite (jo_len n Hn); lia|done|done|apply (jo_coefs n Hn)|].
  destruct (pktOutput_ok conf (m_read w) Hpo Hlt) as [d Hd].
  exists (mkMWorker (<[m_read w := pkt]> (m_diskPkts w)) (<[m_read w := true]> (m_diskFlag w)) (<[m_read w := buf']> (_sendMulPkt w))
    (waitingToSend w) (S (m_read w)) (m_pulled w) (m_sent w)). split; [|split; [|split_and!; [reflexivity|reflexivity|reflexivity|]]].
  - cbn [run_mthread]. unfold readMulWorker. rewrite (proj2 (Nat.ltb_lt (m_read w) cnt) Hlt). cbn [guard_or]. rewrite bind_ok, Hold.
    cbn [res_of_option]. rewrite bind_ok. fold base. rewrite bool_decide_true by done. cbn [guard_or].
    rewrite bind_ok, read_packet, bind_ok, Hbuf by done. fold pkt. cbn [res_of_option]. rewrite bind_ok, E, bind_ok, Hd, bind_ok.
    by rewrite bind_ok.
  - destruct Hw as [_ [H1 H2] H3]. split; cbn; [split|split|done]; rewrite ?length_insert; try done; by apply Forall_insert; rewrite ?Hbl'.
  - intros j Hj. cbn [run_thread]. unfold readWorker, worker_of, node_of.
    cbn [w_read w_pulled w_sent _diskPkts _diskFlag _waitingToSend n_file n_cmd n_ip n_prev]. rewrite (proj2 (Nat.ltb_lt (m_read w) cnt) Hlt). cbn [guard_or].
    rewrite bind_ok. cbn [res_of_option]. rewrite bind_ok, (part_at conf _ _ _ j Hbuf). cbn [res_of_option].
    rewrite bind_ok. fold base. rewrite retry_packet, bind_ok, debug_ok, bind_ok by (done || apply (length_part size nj); lia). fold pkt.
    rewrite bind_ok. cbn [_sendMulPkt m_diskFlag waitingToSend m_read m_pulled m_sent]. rewrite list_fmap_insert.
    by rewrite (Hparts j (mn_jobs n !!! j)) by by apply job_at.
Qed.
(** The threads that go through the jobs: where one of them stands, it does what
    the thread of the job does, and the other jobs see nothing of it. *)
Definition same_for (j : nat) (w w2 : mworker) : Prop := forall i, (i < nj)%nat -> i <> j -> seen i w2 = seen i w.

(** The helper after a pull, with the buffer [buf'] of the packet. *)
Definition after_pull (w : mworker) (buf' : list Z) : mworker :=
  let j := (m_pulled w mod nj)%nat in
  mkMWorker (m_diskPkts w) (m_diskFlag w) (<[(m_pulled w / nj)%nat := buf']> (_sendMulPkt w))
    (<[j := S (waitingToSend w !!! j)]> (waitingToSend w)) (m_read w) (S (m_pulled w)) (m_sent w).

Lemma after_pull_view w buf buf' : shaped w -> _sendMulPkt w !! (m_pulled w / nj)%nat = Some buf -> length buf' = length buf ->
  let j := (m_pulled w mod nj)%nat in
  (forall i, i <> j -> part size i buf' = part size i buf) ->
  shaped (after_pull w buf') /\ same_for j w (after_pull w buf') /\
  seen j (after_pull w buf') = mkPWorker (<[(m_pulled w / nj)%nat := part size j buf']> (part size j <$> _sendMulPkt w)) (m_diskFlag w)
    (S (waitingToSend w !!! j)) (m_read w) (S (m_pulled w / nj)) (share nj j (m_sent w)).
Proof.
  intros Hw Hbuf Hl j Hother. assert (Hj : (j < nj)%nat) by (apply Nat.mod_upper_bound; lia). destruct Hw as [Hd [Hp Ha] Hwt].
  unfold after_pull. fold j. split_and!.
  - split; cbn; [done| |by rewrite length_insert]. split; [by rewrite length_insert|]. apply Forall_insert; [done|].
    rewrite Hl. exact (proj1 (Forall_lookup _ _) Ha _ _ Hbuf).
  - intros i Hi Hne. unfold worker_of. cbn [_sendMulPkt m_diskFlag waitingToSend m_read m_pulled m_sent].
    rewrite list_fmap_insert, (Hother i Hne), list_insert_id by by apply part_at.
    rewrite list_lookup_total_insert_ne by done. by rewrite (share_other nj Hnj i (m_pulled w) Hi) by (intros E; apply Hne; by rewrite <- E).
  - unfold worker_of. cbn [_sendMulPkt m_diskFlag waitingToSend m_read m_pulled m_sent].
    rewrite list_fmap_insert, list_lookup_total_insert_eq by lia.
    assert (Es : share nj j (S (m_pulled w)) = S (m_pulled w / nj)) by (unfold j; by rewrite (share_same nj Hnj), (share_at nj)). by rewrite Es.
Qed.

Lemma pull_sim n w r : jobs_ok n -> shaped w -> (m_pulled w < nj * cnt)%nat ->
  (forall i, (i < cnt)%nat -> exists b, m_diskFlag w !! i = Some b) ->
  ((m_pulled w mod nj)%nat <> 0%nat -> m_diskFlag w !! (m_pulled w / nj)%nat = Some true) ->
  let j := (m_pulled w mod nj)%nat in
  match run_thread conf TPull (node_of j n) (seen j w) r with
  | Ok (w', r') => exists w2, run_mthread conf TPull n w r = Ok (w2, r') /\ shaped w2 /\ seen j w2 = w' /\ same_for j w w2 /\
      m_read w2 = m_read w /\ m_pulled w2 = S (m_pulled w) /\ m_sent w2 = m_sent w
  | Fault Blocked => run_mthread conf TPull n w r = Fault Blocked
  | Fault _ => True
  end.
Proof.
  intros Hn Hw Hlt Hflags Hflag j. assert (Hj : (j < nj)%nat) by (apply Nat.mod_upper_bound; lia).
  pose proof (proj1 (turn nj Hnj _ _) Hlt) as Hp. destruct (buf_at conf nj Hnj w _ Hw Hp) as (buf & Hbuf & Hbl).
  destruct (pktOutput_ok conf _ Hpo Hp) as [d Hd]. destruct (Hflags _ Hp) as [b Hb].
  cbn [run_thread run_mthread]. unfold pullRequestorCompletion, pullRequestorMulCompletion. rewrite (jo_len n Hn). fold j.
  unfold worker_of, node_of. cbn [w_read w_pulled w_sent _diskPkts _diskFlag _waitingToSend n_file n_cmd n_ip n_prev].
  assert (Es : share nj j (m_pulled w) = (m_pulled w / nj)%nat) by by apply share_at.
  rewrite Es, (proj2 (Nat.ltb_lt _ cnt) Hp), Hd, (job_at n j Hn Hj), Hbuf, (waiting_at conf nj Hnj w j Hw Hj), Hb, (part_at conf _ _ _ j Hbuf).
  cbn [guard_or res_of_option]. rewrite !bind_ok. destruct b; cbn [guard_or].
  2: { rewrite bind_fault. destruct (Nat.eqb_spec j 0) as [E|E]; [done|]. specialize (Hflag E). congruence. }
  assert (Hgo : (if (j =? 0)%nat then (guard_or Blocked true : res unit) else Ok tt) = Ok tt) by by destruct (j =? 0)%nat.
  cbn [guard_or] in Hgo. rewrite Hgo, !bind_ok. destruct (dr_id _ =? 0).
  - cbn. destruct (after_pull_view w buf buf Hw Hbuf eq_refl) as (V1 & V2 & V3); [done|]. fold j in V2, V3.
    exists (after_pull w buf). split; [reflexivity|]. by split_and!.
  - destruct (res_of_option Undef (mjoin (mn_prevs n !! j))) as [prev|e]; [|by destruct e]. rewrite !bind_ok.
    destruct (BLPOP _ _ r) as [[str r2]|]; [|done]. cbn [res_of_option]. rewrite !bind_ok, debug_ok, bind_ok by done.
    rewrite (slice_part size nj) by lia. cbn [res_of_option]. rewrite bind_ok.
    destruct (XORBuffers (part size j buf) str size) as [q|e] eqn:Ex; [|by destruct e]. rewrite !bind_ok.
    pose proof (XORBuffers_length _ _ _ _ Ex) as Hq. rewrite (length_part size nj) in Hq by lia.
    destruct (memcpy_part size nj j buf q) as (buf' & -> & Hbl' & Hpart & Hother); [done|lia|done|]. cbn [res_of_option]. rewrite !bind_ok.
    destruct (after_pull_view w buf buf' Hw Hbuf Hbl' Hother) as (V1 & V2 & V3). fold j in V2, V3. rewrite Hpart in V3.
    exists (after_pull w buf'). split; [reflexivity|]. by split_and!.
Qed.
Lemma send_sim n w r : jobs_ok n -> shaped w -> (m_sent w < nj * cnt)%nat ->
  let j := (m_sent w mod nj)%nat in
  match run_thread conf TSend (node_of j n) (seen j w) r with
  | Ok (w', r') => exists w2, run_mthread conf TSend n w r = Ok (w2, r') /\ shaped w2 /\ seen j w2 = w' /\ same_for j w w2 /\
      m_read w2 = m_read w /\ m_pulled w2 = m_pulled w /\ m_sent w2 = S (m_sent w)
  | Fault Blocked => run_mthread conf TSend n w r = Fault Blocked
  | Fault _ => True
  end.
Proof.
  intros Hn Hw Hlt j. assert (Hj : (j < nj)%nat) by (apply Nat.mod_upper_bound; lia).
  pose proof (proj1 (turn nj Hnj _ _) Hlt) as Hp. destruct (buf_at conf nj Hnj w _ Hw Hp) as (buf & Hbuf & Hbl).
  destruct (pktOutput_ok conf _ Hpo Hp) as [d Hd].
  cbn [run_thread run_mthread]. unfold sendWorker, sendMulWorker. rewrite (jo_len n Hn). fold j.
  unfold worker_of, node_of. cbn [w_read w_pulled w_sent _diskPkts _diskFlag _waitingToSend n_file n_cmd n_ip n_prev].
  assert (Es : share nj j (m_sent w) = (m_sent w / nj)%nat) by by apply share_at.
  rewrite Es, (proj2 (Nat.ltb_lt _ cnt) Hp), Hd, (job_at n j Hn Hj), Hbuf, (waiting_at conf nj Hnj w j Hw Hj), (part_at conf _ _ _ j Hbuf).
  cbn [guard_or res_of_option]. rewrite !bind_ok. destruct (_ <? _)%nat; [|done]. cbn [guard_or]. rewrite !bind_ok, debug_ok, bind_ok by done.
  rewrite (slice_part size nj) by lia. cbn [res_of_option]. rewrite bind_ok, take_ge by (rewrite (length_part size nj); lia).
  eexists. split; [reflexivity|]. split; [by destruct Hw; split|]. cbn [m_diskPkts m_diskFlag _sendMulPkt waitingToSend m_read m_pulled m_sent].
  assert (Es' : share nj j (S (m_sent w)) = S (m_sent w / nj)) by (unfold j; by rewrite (share_same nj Hnj), (share_at nj)).
  split_and!; [by rewrite Es'| |done|done|done].
  intros i Hi Hne. unfold worker_of. cbn [m_diskPkts m_diskFlag _sendMulPkt waitingToSend m_read m_pulled m_sent].
  by rewrite (share_other nj Hnj i (m_sent w) Hi) by (intros E; apply Hne; by rewrite <- E).
Qed.
End steps.

(** ** The system *)

Section system.
Context `{GF : GFComplete} {GL : GF8Laws} `{DL : DiskLaws} (conf : Config) (Hpo : packets_ok conf).
Context (ns : list mnode) (_locIP : Z) (losts asked : list str).
Abbreviation cnt := (_packetCnt conf).
Abbreviation size := (_packetSize conf).
Abbreviation nj := (length losts).
Abbreviation k := (length ns).
Abbreviation seen := (worker_of conf nj).
Abbreviation job_state := (state_of conf nj).

(** The helpers as the job [j] sees them. *)
Definition helpers_of (j : nat) : list pnode := node_of j <$> ns.

(** The nodes of a repair of the blocks [losts], which the client has in an
    order of its own: a pipeline for every block, none of whose helpers is the
    client. *)
Record mpipeline : Prop := {
  mp_some : (0 < nj)%nat;
  mp_losts : NoDup losts;
  mp_asked : asked ≡ₚ losts;
  mp_jobs x n : ns !! x = Some n -> jobs_ok conf nj n;
  mp_pipe j f : losts !! j = Some f -> pipeline conf (helpers_of j) f;
  mp_client : _locIP ∉ mn_ip <$> ns
}.
Context (Hmp : mpipeline).

Record mprogress (st : mstate) : Prop := {
  mg_len : length (m_workers st) = k;
  mg_shape x w : m_workers st !! x = Some w -> shape conf nj w;
  mg_job j p f : losts !! j = Some f -> asked !! p = Some f -> progress conf (helpers_of j) f (job_state j p st);
  mg_count : (_processedPacket (m_client st) <= length (c_contents (m_client st)))%nat;
  mg_file : c_file (m_client st) = concat (packets_of nj 0 (_processedPacket (m_client st)) (c_contents (m_client st)));
  mg_pushed p f : (0 < p)%nat -> asked !! p = Some f ->
    waiting_in (m_servers st) _locIP f = packets_of nj p (_processedPacket (m_client st)) (c_contents (m_client st))
}.

Lemma job_in j : (j < nj)%nat -> losts !! j = Some (losts !!! j).
Proof. apply list_lookup_lookup_total_lt. Qed.

(** The place of a job at the client, and of a file at the helpers. *)
Lemma length_asked : length asked = nj.
Proof. by rewrite (mp_asked Hmp). Qed.

Lemma asked_at j f : losts !! j = Some f -> exists p, asked !! p = Some f /\ (p < nj)%nat.
Proof.
  intros Hj%list_elem_of_lookup_2. rewrite <- (mp_asked Hmp) in Hj. apply list_elem_of_lookup in Hj as [p Hp].
  exists p. split; [done|]. rewrite <- length_asked. by eapply lookup_lt_Some.
Qed.

Lemma lost_at p : (p < nj)%nat -> exists j, asked !! p = Some (asked !!! p) /\ losts !! j = Some (asked !!! p) /\ (j < nj)%nat.
Proof.
  intros Hlt. assert (Hp : (p < length asked)%nat) by by rewrite length_asked. apply list_lookup_lookup_total_lt in Hp. pose proof (list_elem_of_lookup_2 _ _ _ Hp) as Hj.
  generalize dependent (asked !!! p). intros f Hp Hj. rewrite (mp_asked Hmp) in Hj. apply list_elem_of_lookup in Hj as [j Hj]. exists j. split_and!; [done|done|by eapply lookup_lt_Some].
Qed.

Lemma asked_inj p q f : asked !! p = Some f -> asked !! q = Some f -> p = q.
Proof. intros Hp Hq. apply (NoDup_lookup asked p q f); [rewrite (mp_asked Hmp); apply Hmp|done|done]. Qed.

Lemma length_helpers j : length (helpers_of j) = k.
Proof. apply length_fmap. Qed.

Lemma helper_at j x n : ns !! x = Some n -> helpers_of j !! x = Some (node_of j n).
Proof. intros E. unfold helpers_of. by rewrite list_lookup_fmap, E. Qed.

Lemma some_helper : (0 < k)%nat.
Proof. pose proof (pl_some _ _ _ (mp_pipe Hmp 0 _ (job_in 0 (mp_some Hmp)))) as [Hk _]. by rewrite length_helpers in Hk. Qed.

Lemma out_ip j f x : (x < k)%nat -> (out_key (helpers_of j) f x).1 = mn_ip (ns !!! x).
Proof.
  intros Hx. unfold out_key. cbn [fst]. destruct (lookup_lt_is_Some_2 ns x Hx) as [n Hn].
  by rewrite (list_lookup_total_correct _ _ _ (helper_at j x n Hn)), (list_lookup_total_correct _ _ _ Hn).
Qed.

Lemma ip_inj x y : (x < k)%nat -> (y < k)%nat -> mn_ip (ns !!! x) = mn_ip (ns !!! y) -> x = y.
Proof.
  intros Hx Hy E. pose proof (pl_nodup _ _ _ (mp_pipe Hmp 0 _ (job_in 0 (mp_some Hmp)))) as Hn.
  assert (Hat : forall z, (z < k)%nat -> (n_ip <$> helpers_of 0) !! z = Some (mn_ip (ns !!! z))).
  { intros z Hz. unfold helpers_of. rewrite !list_lookup_fmap, (list_lookup_lookup_total_lt ns z Hz). done. }
  apply (NoDup_lookup _ x y _ Hn (Hat x Hx)). by rewrite E, Hat.
Qed.

(** The jobs have different lists, and none is at the client. *)
Lemma out_keys_apart j j' f f' x y : losts !! j = Some f -> losts !! j' = Some f' -> j <> j' -> (x < k)%nat -> (y < k)%nat ->
  out_key (helpers_of j) f x <> out_key (helpers_of j') f' y.
Proof.
  intros Hf Hf' Hne Hx Hy E. assert (x = y) as <-.
  { apply ip_inj; [done..|]. apply (f_equal fst) in E. by rewrite !out_ip in E. }
  unfold out_key in E. rewrite !length_helpers in E. injection E as _ E. apply Hne, (NoDup_lookup losts j j' f); [apply Hmp|done|].
  rewrite Hf'. f_equal. case_decide; [done|]. unfold tmpKey in E. by apply app_inv_head in E.
Qed.

Lemma client_apart j f x key : (x < k)%nat -> out_key (helpers_of j) f x <> (_locIP, key).
Proof.
  intros Hx E. apply (f_equal fst) in E. rewrite out_ip in E by done. cbn [fst] in E. apply (mp_client Hmp). rewrite <- E.
  apply list_elem_of_fmap_2. by eapply list_elem_of_lookup_2, list_lookup_lookup_total_lt.
Qed.

(** The counters of a helper. *)
Record counters_at (w : mworker) : Prop := {
  co_read : (m_read w <= cnt)%nat;
  co_pulled : (m_pulled w <= nj * m_read w)%nat;
  co_sent : (m_sent w <= m_pulled w)%nat
}.

Lemma job_worker st x w j f : mprogress st -> m_workers st !! x = Some w -> losts !! j = Some f -> worker_at conf (helpers_of j) x (seen j w).
Proof. intros Hst Hw Hf. destruct (asked_at j f Hf) as (p & Hp & _). apply (pg_worker _ _ _ _ (mg_job st Hst j p f Hf Hp)). cbn. by rewrite list_lookup_fmap, Hw. Qed.

Lemma worker_counters st x w : mprogress st -> m_workers st !! x = Some w -> counters_at w.
Proof.
  intros Hst Hw. pose proof (mp_some Hmp) as Hnj. assert (Hat : forall j, (j < nj)%nat ->
    (share nj j (m_sent w) <= share nj j (m_pulled w) <= m_read w)%nat /\ (m_read w <= cnt)%nat).
  { intros j Hj. apply (wk_order _ _ _ _ (job_worker st x w j _ Hst Hw (job_in j Hj))). }
  destruct (Hat 0%nat Hnj) as [H0 Hr]. split; [done| |].
  - destruct (decide (m_pulled w <= nj * m_read w)%nat) as [|Hgt]; [done|].
    pose proof (share_mono nj Hnj 0 (S (nj * m_read w)) (m_pulled w) ltac:(lia)) as Hm.
    rewrite share_S, share_all, decide_True in Hm by (try lia; rewrite Nat.mul_comm; apply Nat.Div0.mod_mul). lia.
  - destruct (decide (m_sent w <= m_pulled w)%nat) as [|Hgt]; [done|].
    pose proof (lt_share nj Hnj (m_pulled w) (m_sent w) ltac:(lia)).
    pose proof (Hat (m_pulled w mod nj)%nat ltac:(apply Nat.mod_upper_bound; lia)). lia.
Qed.

(** A step of the helper [x]: every job goes on, or sees nothing of it. *)
Lemma mprogress_update st x w w2 r : mprogress st -> m_workers st !! x = Some w -> shape conf nj w2 ->
  (forall j p f, losts !! j = Some f -> asked !! p = Some f ->
     progress conf (helpers_of j) f (mkPState (<[x := seen j w2]> (workers (job_state j p st))) r (collected (job_state j p st)))) ->
  (forall f, waiting_in r _locIP f = waiting_in (m_servers st) _locIP f) ->
  mprogress (mkMState (<[x := w2]> (m_workers st)) r (m_client st)).
Proof.
  intros [Hlen Hsh Hj Hc Hf Hp] Hw Hw2 Hjobs Hloc. split; cbn [m_workers m_servers m_client]; [by rewrite length_insert| | |done|done|].
  - intros y wy Hy. destruct (decide (y = x)) as [->|Hne].
    + rewrite list_lookup_insert_eq in Hy by by eapply lookup_lt_Some. by injection Hy as <-.
    + rewrite list_lookup_insert_ne in Hy by done. by apply (Hsh y).
  - intros j p f Hlf Hpf. specialize (Hjobs j p f Hlf Hpf). unfold state_of in *. cbn [workers collected m_workers m_servers m_client] in *.
    by rewrite list_fmap_insert.
  - intros p f H0 Hlf. rewrite Hloc. by apply Hp.
Qed.

(** One job steps and the others do not. *)
Lemma job_step st x n w w2 t j p f r : mprogress st -> ns !! x = Some n -> m_workers st !! x = Some w ->
  losts !! j = Some f -> asked !! p = Some f ->
  shape conf nj w2 -> same_for conf nj j w w2 ->
  run_thread conf t (node_of j n) (seen j w) (m_servers st) = Ok (seen j w2, r) ->
  progress conf (helpers_of j) f (mkPState (<[x := seen j w2]> (workers (job_state j p st))) r (collected (job_state j p st))) ->
  mprogress (mkMState (<[x := w2]> (m_workers st)) r (m_client st)).
Proof.
  intros Hst Hn Hw Hf Hpf Hw2 Hsame Hrun Hpr. pose proof (mp_pipe Hmp j f Hf) as Hpl.
  assert (Hframe : forall ip key, (forall y, (y < k)%nat -> out_key (helpers_of j) f y <> (ip, key)) ->
    waiting_in r ip key = waiting_in (m_servers st) ip key).
  { intros ip key Hk. eapply (run_frame conf (helpers_of j) f Hpl x t); [by apply helper_at|exact Hrun|].
    intros y Hy. apply Hk. by rewrite length_helpers in Hy. }
  apply (mprogress_update st x w); try done.
  - intros i q g Hg Hqg. destruct (decide (i = j)) as [->|Hne].
    { assert (g = f) as -> by congruence. by assert (q = p) as -> by by apply (asked_inj q p f). }
    rewrite Hsame by (done || by eapply lookup_lt_Some). rewrite list_insert_id by (cbn; by rewrite list_lookup_fmap, Hw).
    apply progress_frame; [by apply mg_job|]. intros y Hy. rewrite length_helpers in Hy. apply Hframe. intros z Hz.
    rewrite <- surjective_pairing. apply out_keys_apart; (done || congruence).
  - intros g. apply Hframe. intros y Hy. by apply client_apart.
Qed.

Definition mcounters (w : mworker) : nat := (m_read w + m_pulled w + m_sent w)%nat.

Definition mready (st : mstate) (x : nat) (w : mworker) (t : thread) : Prop :=
  match t with
  | TRead => (m_read w < cnt)%nat
  | TPull => (m_pulled w < nj * m_read w)%nat /\
      match x with O => True | S y => exists wy, m_workers st !! y = Some wy /\ (m_pulled w < m_sent wy)%nat end
  | TSend => (m_sent w < m_pulled w)%nat
  end.

Lemma flags_at st x w : mprogress st -> m_workers st !! x = Some w -> forall i, (i < cnt)%nat ->
  m_diskFlag w !! i = Some (bool_decide (i < m_read w)%nat).
Proof.
  intros Hst Hw i Hi. exact (wk_flags _ _ _ _ (job_worker st x w 0 _ Hst Hw (job_in 0 (mp_some Hmp))) i Hi).
Qed.

Lemma thread_step st x t n w : mprogress st -> ns !! x = Some n -> m_workers st !! x = Some w ->
  (exists w' r, run_mthread conf t n w (m_servers st) = Ok (w', r) /\
     mprogress (mkMState (<[x := w']> (m_workers st)) r (m_client st)) /\ mcounters w' = S (mcounters w)) \/
  (run_mthread conf t n w (m_servers st) = Fault Blocked /\ ~ mready st x w t).
Proof.
  intros Hst Hn Hw. pose proof (mp_some Hmp) as Hnj. pose proof (mp_jobs Hmp x n Hn) as Hjn. pose proof (mg_shape st Hst x w Hw) as Hsh.
  pose proof (worker_counters st x w Hst Hw) as [Hr Hp Hs]. unfold mcounters.
  assert (Hthread : forall j p f, losts !! j = Some f -> asked !! p = Some f ->
    (exists w' r, run_thread conf t (node_of j n) (seen j w) (m_servers st) = Ok (w', r) /\
       progress conf (helpers_of j) f (mkPState (<[x := w']> (workers (job_state j p st))) r (collected (job_state j p st)))) \/
    (run_thread conf t (node_of j n) (seen j w) (m_servers st) = Fault Blocked /\ ~ ready conf (job_state j p st) x (seen j w) t)).
  { intros j p f Hf Hpf. destruct (thread_progress conf Hpo (helpers_of j) f (mp_pipe Hmp j f Hf) (job_state j p st) x t (node_of j n) (seen j w))
      as [(w' & r & E & Hpr & _)|[E Hno]]; [by apply mg_job|by apply helper_at|cbn; by rewrite list_lookup_fmap, Hw| |by right].
    left. by exists w', r. }
  destruct t; cbn [mready].
  - destruct (decide (m_read w < cnt)%nat) as [Hlt|Hge].
    2: { right. split; [|done]. cbn [run_mthread]. unfold readMulWorker. by rewrite (proj2 (Nat.ltb_ge _ _)) by lia. }
    destruct (read_sim conf Hpo nj Hnj n w (m_servers st) Hjn Hsh Hlt) as (w2 & E & Hsh2 & E1 & E2 & E3 & Hall).
    left. exists w2, (m_servers st). split; [done|]. split; [|lia]. apply (mprogress_update st x w); try done.
    intros j p f Hf Hpf. destruct (Hthread j p f Hf Hpf) as [(w' & r & Er & Hpr)|[Er _]]; rewrite (Hall j ltac:(by eapply lookup_lt_Some)) in Er; [|done].
    by injection Er as <- <-.
  - destruct (decide (m_pulled w < nj * cnt)%nat) as [Hlt|Hge].
    2: { right. split; [|intros [H1 _]; nia]. cbn [run_mthread]. unfold pullRequestorMulCompletion. rewrite (jo_len _ _ _ Hjn).
      rewrite (proj2 (Nat.ltb_ge _ _)); [done|]. pose proof (proj2 (turn nj Hnj (m_pulled w) cnt)). lia. }
    pose proof (Nat.mod_upper_bound (m_pulled w) nj ltac:(lia)) as Hj. pose proof (job_in _ Hj) as Hf. destruct (asked_at _ _ Hf) as (p & Hpf & _).
    pose proof (pull_sim conf Hpo nj Hnj n w (m_servers st) Hjn Hsh Hlt) as Hsim. cbv zeta in Hsim.
    set (j := (m_pulled w mod nj)%nat) in *. pose proof (Nat.div_mod_eq (m_pulled w) nj) as Hdm. fold j in Hdm.
    specialize (Hsim ltac:(intros i Hi; eexists; by apply (flags_at st x w))).
    specialize (Hsim ltac:(intros H0; rewrite (flags_at st x w Hst Hw) by (apply turn; done); f_equal; apply bool_decide_true; nia)).
    destruct (Hthread j p _ Hf Hpf) as [(w' & r & Er & Hpr)|[Er Hno]]; rewrite Er in Hsim.
    + destruct Hsim as (w2 & E & Hsh2 & <- & Hsame & E1 & E2 & E3). left. exists w2, r. split; [done|]. split; [|lia].
      by apply (job_step st x n w w2 TPull j p (losts !!! j)).
    + right. split; [done|]. intros [H1 H2]. apply Hno. cbn [ready w_pulled w_read worker_of].
      unfold j. rewrite (share_at nj Hnj). fold j. split; [apply turn; lia|]. destruct x as [|y]; [done|]. destruct H2 as (wy & Hy & Hlt2).
      exists (seen j wy). split; [cbn; by rewrite list_lookup_fmap, Hy|]. cbn [w_sent worker_of].
      pose proof (lt_share nj Hnj _ _ Hlt2) as H3. fold j in H3. unfold j in H3 at 1. by rewrite (share_at nj Hnj) in H3.
  - destruct (decide (m_sent w < nj * cnt)%nat) as [Hlt|Hge].
    2: { right. split; [|nia]. cbn [run_mthread]. unfold sendMulWorker. rewrite (jo_len _ _ _ Hjn).
      rewrite (proj2 (Nat.ltb_ge _ _)); [done|]. pose proof (proj2 (turn nj Hnj (m_sent w) cnt)). lia. }
    pose proof (Nat.mod_upper_bound (m_sent w) nj ltac:(lia)) as Hj. pose proof (job_in _ Hj) as Hf. destruct (asked_at _ _ Hf) as (p & Hpf & _).
    pose proof (send_sim conf Hpo nj Hnj n w (m_servers st) Hjn Hsh Hlt) as Hsim. cbv zeta in Hsim.
    set (j := (m_sent w mod nj)%nat) in *.
    destruct (Hthread j p _ Hf Hpf) as [(w' & r & Er & Hpr)|[Er Hno]]; rewrite Er in Hsim.
    + destruct Hsim as (w2 & E & Hsh2 & <- & Hsame & E1 & E2 & E3). left. exists w2, r. split; [done|]. split; [|lia].
      by apply (job_step st x n w w2 TSend j p (losts !!! j)).
    + right. split; [done|]. intros H1. apply Hno. cbn [ready w_pulled w_sent worker_of]. by apply lt_share.
Qed.

(** ** The client *)

(** All the jobs are pulled from the last helper. *)
Definition fetch_last : list Z := replicate nj (mn_ip (ns !!! (k - 1)%nat)).

Lemma last_mworker st : mprogress st -> exists w, m_workers st !! (k - 1)%nat = Some w.
Proof. intros Hst. pose proof some_helper. apply lookup_lt_is_Some_2. rewrite (mg_len st Hst). lia. Qed.

Lemma collect_step st w : mprogress st -> m_workers st !! (k - 1)%nat = Some w ->
  (exists c r, pipeCollector conf fetch_last asked (m_client st) (m_servers st) = Ok (c, r) /\
     mprogress (mkMState (m_workers st) r c) /\ length (c_contents c) = S (length (c_contents (m_client st))) /\
     _processedPacket c = _processedPacket (m_client st)) \/
  (pipeCollector conf fetch_last asked (m_client st) (m_servers st) = Fault Blocked /\
   ~ (length (c_contents (m_client st)) < nj * cnt /\ m_sent w = nj * cnt)%nat).
Proof.
  intros Hst Hw. pose proof (mp_some Hmp) as Hnj. set (t := length (c_contents (m_client st))).
  pose proof (Nat.mod_upper_bound t nj ltac:(lia)) as Hp. set (p := (t mod nj)%nat) in *.
  destruct (lost_at p Hp) as (j & Hpf & Hf & Hj). set (f := asked !!! p) in *.
  pose proof (mp_pipe Hmp j f Hf) as Hpl. unfold pipeCollector. rewrite length_asked. fold t p.
  destruct (decide (t < nj * cnt)%nat) as [Hlt|Hge].
  2: { right. split; [|lia]. rewrite (proj2 (Nat.ltb_ge _ _)); [done|]. pose proof (proj2 (turn nj Hnj t cnt)). lia. }
  assert (Hfetch : fetch_last !! p = Some (out_key (helpers_of j) f (length (helpers_of j) - 1)).1).
  { rewrite length_helpers, out_ip by (pose proof some_helper; lia). by apply lookup_replicate_2. }
  assert (Hlen : length (collected (job_state j p st)) = (t / nj)%nat).
  { cbn [collected state_of]. rewrite length_packets_of. by apply share_at. }
  assert (Hwj : workers (job_state j p st) !! (length (helpers_of j) - 1)%nat = Some (seen j w)).
  { rewrite length_helpers. cbn. by rewrite list_lookup_fmap, Hw. }
  rewrite Hfetch, Hpf, (proj2 (Nat.ltb_lt _ _)) by by apply turn. cbn [guard_or res_of_option]. rewrite !bind_ok.
  destruct (collect_progress conf (helpers_of j) f Hpl (job_state j p st) (seen j w) (mg_job st Hst j p f Hf Hpf) Hwj)
    as [(out & r & E & Hpr & Hl)|[E Hno]]; unfold collect in E; rewrite Hlen, (proj2 (Nat.ltb_lt (t / nj) cnt)) in E by (by apply turn);
    cbn [guard_or servers state_of] in E; rewrite bind_ok in E.
  2: { right. split.
    - destruct (BLPOP _ _ _) as [[str r]|]; [|done]. cbn [res_of_option] in E |- *. rewrite bind_ok in E. rewrite bind_ok.
      destruct (slice str 0 size); done.
    - intros [_ Hs]. apply Hno. rewrite Hlen. cbn [w_sent worker_of]. rewrite Hs, (share_all nj Hnj) by done. by apply turn. }
  left. apply bind_ok_inv in E as ([str r2] & Epop & E). apply bind_ok_inv in E as (pkt & Esl & [= <- <-]).
  rewrite Epop, bind_ok, Esl, bind_ok. eexists _, _. split; [done|]. cbn [c_contents _processedPacket]. rewrite length_app, Nat.add_1_r. split; [|done].
  apply res_of_option_ok, pop_inv in Epop as (vs & _ & Hr).
  assert (Hkey : ((out_key (helpers_of j) f (length (helpers_of j) - 1)).1, f) = out_key (helpers_of j) f (k - 1)).
  { pose proof (last_key conf (helpers_of j) f Hpl) as Hk. rewrite length_helpers in *. by rewrite (surjective_pairing (out_key _ _ _)), Hk. }
  rewrite Hkey in Hr. pose proof some_helper as Hk0. destruct Hst as [Hlw Hsh Hjobs Hc Hfile Hpush].
  assert (Hin : forall q g, asked !! q = Some g -> (q < nj)%nat) by (intros q g Hq; rewrite <- length_asked; by eapply lookup_lt_Some).
  split; cbn [m_workers m_servers m_client c_contents _processedPacket c_file]; [done|done| | | |].
  - intros i q g Hg Hqg. pose proof (Hin q g Hqg) as Hq. unfold state_of. cbn [m_workers m_servers m_client c_contents].
    rewrite length_app, Nat.add_1_r. fold t. rewrite (packets_S nj Hnj), (packets_app nj Hnj) by done. fold p. case_decide as E.
    + subst q. assert (g = f) as -> by congruence. assert (i = j) as -> by by apply (NoDup_lookup losts i j f (mp_losts Hmp)).
      rewrite lookup_total_app_r by (fold t; lia). fold t. by rewrite Nat.sub_diag.
    + rewrite app_nil_r. apply (progress_frame conf (helpers_of i) g (job_state i q st) r2); [by apply Hjobs|]. intros y Hy.
      rewrite length_helpers in Hy. rewrite Hr, decide_False; [done|]. rewrite <- surjective_pairing. apply out_keys_apart; try (done || lia).
      intros ->. apply E, (asked_inj p q f); congruence.
  - rewrite length_app. lia.
  - by rewrite (packets_app nj Hnj) by done.
  - intros q g H0 Hqg. rewrite Hr, decide_False by (apply client_apart; lia). rewrite (packets_app nj Hnj) by (done || by eapply Hin).
    by apply Hpush.
Qed.

Lemma forward_step st : mprogress st ->
  (exists c r, pipeForwardWorker conf _locIP asked (m_client st) (m_servers st) = Ok (c, r) /\
     mprogress (mkMState (m_workers st) r c) /\ length (c_contents c) = length (c_contents (m_client st)) /\
     _processedPacket c = S (_processedPacket (m_client st))) \/
  (pipeForwardWorker conf _locIP asked (m_client st) (m_servers st) = Fault Blocked /\
   ~ (_processedPacket (m_client st) < nj * cnt /\ _processedPacket (m_client st) < length (c_contents (m_client st)))%nat).
Proof.
  intros Hst. pose proof (mp_some Hmp) as Hnj. set (t := _processedPacket (m_client st)). set (l := c_contents (m_client st)).
  pose proof (Nat.mod_upper_bound t nj ltac:(lia)) as Hj. set (j := (t mod nj)%nat) in *.
  destruct (lost_at j Hj) as (_ & Hf & _). set (f := asked !!! j) in *. unfold pipeForwardWorker. rewrite length_asked. fold t l. fold j.
  destruct (decide (t < nj * cnt)%nat) as [Hlt|Hge].
  2: { right. split; [|lia]. rewrite (proj2 (Nat.ltb_ge (t / nj) cnt)); [done|]. pose proof (proj2 (turn nj Hnj t cnt)). lia. }
  rewrite (proj2 (Nat.ltb_lt (t / nj) cnt)) by by apply turn. cbn [guard_or]. rewrite bind_ok.
  destruct (decide (t < length l)%nat) as [Hlt2|Hge2]; [|right; split; [|lia]; by rewrite (proj2 (Nat.ltb_ge t (length l))) by lia].
  rewrite (proj2 (Nat.ltb_lt t (length l))) by done. cbn [guard_or]. rewrite bind_ok, (list_lookup_lookup_total_lt l t Hlt2). cbn [res_of_option].
  rewrite bind_ok, Hf. left. destruct Hst as [Hlw Hsh Hjobs Hc Hfile Hpush]. fold t l in Hc, Hfile, Hpush.
  assert (Hin : forall q g, asked !! q = Some g -> (q < nj)%nat) by (intros q g Hq; rewrite <- length_asked; by eapply lookup_lt_Some).
  assert (Hpk : forall i, (i < nj)%nat -> packets_of nj i (S t) l = packets_of nj i t l ++ (if decide (j = i) then [l !!! t] else [])).
  { intros i Hi. by apply packets_S. }
  destruct (Nat.eqb_spec j 0) as [E0|E0]; eexists _, _; (split; [done|]); (split; [|done]);
    split; cbn [m_workers m_servers m_client c_contents _processedPacket c_file]; try done; try (fold l; lia).
  - rewrite Hpk, decide_True, concat_app, Hfile by done. cbn [concat]. by rewrite app_nil_r.
  - intros i g H0 Hg. rewrite Hpk, decide_False, app_nil_r by (by eapply Hin || lia). by apply Hpush.
  - intros i q g Hg Hqg. apply (progress_frame conf (helpers_of i) g (job_state i q st)); [by apply Hjobs|]. intros y Hy. rewrite length_helpers in Hy.
    cbn [servers state_of]. unfold state_of. cbn [servers m_servers]. rewrite waiting_push, decide_False; [done|]. rewrite <- surjective_pairing. intros E. by apply (client_apart i g y f Hy).
  - by rewrite Hpk, decide_False, app_nil_r by done.
  - intros i g H0 Hg. rewrite waiting_push, Hpk by by eapply Hin. case_decide as E.
    + injection E as <-. assert (i = j) as -> by by apply (asked_inj i j f).
      rewrite decide_True by done. by rewrite (Hpush j f ltac:(lia) Hf).
    + rewrite decide_False; [rewrite app_nil_r; by apply Hpush|]. intros <-. apply E. congruence.
Qed.

(** ** Every run ends *)

Abbreviation mstep := (mstep conf ns fetch_last _locIP asked).
Definition mwork (st : mstate) : nat :=
  (sum_list_with mcounters (m_workers st) + (length (c_contents (m_client st)) + _processedPacket (m_client st)))%nat.
(** A packet is read once by each helper, pulled and sent for each job, and
    collected and forwarded for each job. *)
Definition all_mwork : nat := (k * ((1 + 2 * nj) * cnt) + 2 * nj * cnt)%nat.

Lemma mcounters_bound st x w : mprogress st -> m_workers st !! x = Some w -> (mcounters w <= (1 + 2 * nj) * cnt)%nat.
Proof. intros Hst Hw. destruct (worker_counters st x w Hst Hw). unfold mcounters. nia. Qed.

(** The client does not collect more than there is. *)
Lemma contents_bound st : mprogress st -> (length (c_contents (m_client st)) <= nj * cnt)%nat.
Proof.
  intros Hst. pose proof (mp_some Hmp) as Hnj. pose proof some_helper as Hk. set (t := length (c_contents (m_client st))).
  destruct (decide (t <= nj * cnt)%nat) as [|Hgt]; [done|]. destruct (lost_at 0 Hnj) as (j & Hpf & Hf & Hj).
  destruct (last_mworker st Hst) as [w Hw]. destruct (worker_counters st _ w Hst Hw) as [Hr Hp Hs].
  destruct (pg_queue _ _ _ _ (mg_job st Hst j 0 _ Hf Hpf) (k - 1)%nat (seen j w)) as [Hle _].
  { cbn. by rewrite list_lookup_fmap, Hw. }
  unfold taken in Hle. cbn [workers collected state_of w_sent worker_of] in Hle.
  rewrite list_lookup_fmap, (lookup_ge_None_2 (m_workers st)) in Hle by (rewrite (mg_len st Hst); lia). cbn in Hle.
  rewrite length_packets_of in Hle. fold t in Hle.
  pose proof (share_mono nj Hnj 0 (S (nj * cnt)) t ltac:(lia)) as Hm.
  rewrite share_S, share_all, decide_True in Hm by (try lia; rewrite Nat.mul_comm; apply Nat.Div0.mod_mul).
  pose proof (share_mono nj Hnj j (m_sent w) (nj * cnt) ltac:(nia)) as Hm2. rewrite (share_all nj Hnj) in Hm2 by done. lia.
Qed.

Lemma mwork_bound st : mprogress st -> (mwork st <= all_mwork)%nat.
Proof.
  intros Hst. pose proof (contents_bound st Hst). pose proof (mg_count st Hst).
  destruct (sum_bound mcounters (m_workers st) ((1 + 2 * nj) * cnt)) as [Hs _]; [intros x wx; by apply mcounters_bound|].
  rewrite (mg_len st Hst) in Hs. unfold mwork, all_mwork. nia.
Qed.

Lemma mstep_progress st st' : mprogress st -> mstep st st' -> mprogress st' /\ mwork st' = S (mwork st).
Proof.
  intros Hst Hs. destruct (last_mworker st Hst) as [wl Hwl]. destruct Hs as [st x t n w w' r Hn Hw Hrun|st c r Hrun|st c r Hrun].
  - destruct (thread_step st x t n w Hst Hn Hw) as [(w2 & r2 & E & Hst' & Hc)|[E _]]; rewrite E in Hrun; [|done].
    injection Hrun as <- <-. split; [done|]. unfold mwork. cbn. rewrite (sum_insert mcounters _ x w w2) by done. lia.
  - destruct (collect_step st wl Hst Hwl) as [(c2 & r2 & E & Hst' & H1 & H2)|[E _]]; rewrite E in Hrun; [|done].
    injection Hrun as <- <-. split; [done|]. unfold mwork. cbn. lia.
  - destruct (forward_step st Hst) as [(c2 & r2 & E & Hst' & H1 & H2)|[E _]]; rewrite E in Hrun; [|done].
    injection Hrun as <- <-. split; [done|]. unfold mwork. cbn. lia.
Qed.

Lemma mno_crash st : mprogress st -> ~ mcrash conf ns fetch_last _locIP asked st.
Proof.
  intros Hst. destruct (last_mworker st Hst) as [wl Hwl]. intros [(x & t & n & w & e & Hn & Hw & E & He)|[(e & E & He)|(e & E & He)]].
  - destruct (thread_step st x t n w Hst Hn Hw) as [(w2 & r2 & E2 & _)|[E2 _]]; congruence.
  - destruct (collect_step st wl Hst Hwl) as [(c2 & r2 & E2 & _)|[E2 _]]; congruence.
  - destruct (forward_step st Hst) as [(c2 & r2 & E2 & _)|[E2 _]]; congruence.
Qed.

Lemma mready_steps st x n w t : mprogress st -> ns !! x = Some n -> m_workers st !! x = Some w -> mready st x w t -> exists st', mstep st st'.
Proof.
  intros Hst Hn Hw Hr. destruct (thread_step st x t n w Hst Hn Hw) as [(w' & r & E & _)|[_ Hno]]; [|done].
  eexists. by apply (mstep_thread _ _ _ _ _ st x t n w w' r).
Qed.

(** The helpers finish in order. *)
Lemma mprefix_done st x : mprogress st -> (x <= k)%nat ->
  (exists st', mstep st st') \/
  forall y w, (y < x)%nat -> m_workers st !! y = Some w -> (m_sent w = nj * cnt /\ mcounters w = (1 + 2 * nj) * cnt)%nat.
Proof.
  intros Hst. induction x as [|x IH]; intros Hx; [right; lia|]. destruct IH as [|Hdone]; [lia|by left|].
  destruct (lookup_lt_is_Some_2 ns x Hx) as [n Hn].
  destruct (lookup_lt_is_Some_2 (m_workers st) x) as [w Hw]; [rewrite (mg_len st Hst); lia|].
  destruct (worker_counters st x w Hst Hw) as [Hr Hp Hs].
  destruct (decide (m_read w < cnt)%nat); [left; by apply (mready_steps st x n w TRead)|].
  destruct (decide (m_pulled w < nj * m_read w)%nat).
  - left. apply (mready_steps st x n w TPull); try done. split; [done|]. destruct x as [|x]; [done|].
    destruct (lookup_lt_is_Some_2 (m_workers st) x) as [wx Hwx]; [rewrite (mg_len st Hst); lia|]. exists wx. split; [done|].
    destruct (Hdone x wx ltac:(lia) Hwx) as [-> _]. nia.
  - destruct (decide (m_sent w < m_pulled w)%nat); [left; by apply (mready_steps st x n w TSend)|].
    right. intros y wy Hy Hwy. destruct (decide (y = x)) as [->|]; [|by apply (Hdone y); (done || lia)].
    replace wy with w by congruence. unfold mcounters. nia.
Qed.

Lemma mnext_step st : mprogress st -> (mwork st < all_mwork)%nat -> exists st', mstep st st'.
Proof.
  intros Hst Hlt. destruct (mprefix_done st k Hst ltac:(lia)) as [|Hdone]; [done|]. destruct (last_mworker st Hst) as [w Hw].
  pose proof some_helper as Hk. destruct (Hdone (k - 1)%nat w ltac:(lia) Hw) as [Hsent _].
  destruct (collect_step st w Hst Hw) as [(c & r & E & _)|[_ Hno]]; [eexists; by apply (mstep_collect _ _ _ _ _ st c r)|].
  destruct (forward_step st Hst) as [(c & r & E & _)|[_ Hno2]]; [eexists; by apply (mstep_forward _ _ _ _ _ st c r)|].
  exfalso. assert (Hs : sum_list_with mcounters (m_workers st) = (k * ((1 + 2 * nj) * cnt))%nat).
  { rewrite <- (mg_len st Hst). apply sum_const. intros y wy Hy. apply (Hdone y wy); [|done]. rewrite <- (mg_len st Hst). by eapply lookup_lt_Some. }
  pose proof (contents_bound st Hst). pose proof (mg_count st Hst). unfold mwork, all_mwork in Hlt. nia.
Qed.

Lemma mrun_progress m st st' : mprogress st -> nsteps mstep m st st' -> mprogress st' /\ mwork st' = (m + mwork st)%nat.
Proof.
  intros Hst Hn. induction Hn as [st|m st st1 st' Hs Hn IH]; [done|].
  destruct (mstep_progress st st1 Hst Hs) as [Hst1 E]. destruct (IH Hst1) as [H1 H2]. split; [done|lia].
Qed.

(** The threads of the first repair of new workers have started, and nothing of
    an earlier one waits in the lists. *)
Record mstarted (st : mstate) : Prop := {
  ms_len : length (m_workers st) = k;
  ms_worker x w : m_workers st !! x = Some w -> exists waiting, start_worker conf nj (new_worker conf waiting) = Ok w;
  ms_client : m_client st = mkMClient [] 0 [];
  ms_lists j f x : losts !! j = Some f -> (x < k)%nat ->
    waiting_in (m_servers st) (out_key (helpers_of j) f x).1 (out_key (helpers_of j) f x).2 = [];
  ms_pushed p f : (0 < p)%nat -> asked !! p = Some f -> waiting_in (m_servers st) _locIP f = []
}.

Lemma started_worker waiting w : start_worker conf nj (new_worker conf waiting) = Ok w ->
  shape conf nj w /\ mcounters w = 0%nat /\ forall j, (j < nj)%nat -> seen j w = cleanup conf.
Proof.
  pose proof (mp_some Hmp) as Hnj. unfold start_worker. cbn [waitingToSend new_worker m_diskPkts m_diskFlag].
  destruct (Nat.leb_spec nj (length waiting)); cbn [guard_or]; [|done]. rewrite bind_ok. intros [= <-]. split_and!; [|done|].
  - split; cbn; [split|split|].
    + apply length_replicate.
    + by apply Forall_replicate, length_replicate.
    + apply length_replicate.
    + by apply Forall_replicate, length_replicate.
    + rewrite length_app, length_replicate, length_drop. lia.
  - intros j Hj. unfold worker_of, cleanup. cbn [_sendMulPkt m_diskFlag waitingToSend m_read m_pulled m_sent].
    rewrite fmap_replicate, !(share_0 nj). assert (Ep : part size j (zeros (size * nj + 4)) = zeros size).
    { unfold part, zeros. rewrite drop_replicate, take_replicate. f_equal. nia. }
    rewrite Ep, lookup_total_app_l by (by rewrite length_replicate). by rewrite (list_lookup_total_correct _ j 0%nat) by by apply lookup_replicate_2.
Qed.

Lemma mstarted_progress st : mstarted st -> mprogress st /\ mwork st = 0%nat.
Proof.
  intros [Hlen Hw Hc Hl Hp]. pose proof (mp_some Hmp) as Hnj. split.
  - split; rewrite ?Hc; cbn [c_contents _processedPacket c_file length]; [done| | |done| |].
    + intros x w Hx. destruct (Hw x w Hx) as [waiting E]. by apply (started_worker waiting w E).
    + intros j p f Hf Hpf. apply started_progress. split_and!.
      * cbn. apply list_eq_same_length with k; [by rewrite length_replicate, length_helpers|by rewrite length_fmap|].
        intros x a b Hx. rewrite list_lookup_fmap, length_helpers, lookup_replicate_2 by done. intros (w & Hwx & ->)%fmap_Some [= <-].
        destruct (Hw x w Hwx) as [waiting E]. apply (started_worker waiting w E). by eapply lookup_lt_Some.
      * cbn [collected state_of]. unfold state_of. cbn [collected]. rewrite Hc. unfold packets_of. cbn [c_contents length]. by rewrite (share_0 nj).
      * intros x Hx. rewrite length_helpers in Hx. by apply (Hl j f x).
    + unfold packets_of. by rewrite (share_0 nj).
    + intros p f H0 Hf. unfold packets_of. rewrite (share_0 nj). by apply (Hp p f).
  - unfold mwork. rewrite Hc. cbn [c_contents _processedPacket length]. rewrite (sum_const mcounters _ 0); [lia|].
    intros x w Hx. destruct (Hw x w Hx) as [waiting E]. by apply (started_worker waiting w E).
Qed.

(** What the client has when all the work is done: the first block it asked for
    in its file, and the others in its lists. *)
Lemma mresult st : mprogress st -> mwork st = all_mwork -> forall j p f, losts !! j = Some f -> asked !! p = Some f ->
  let pkts := partial conf (helpers_of j) (k - 1) <$> seq 0 cnt in
  if (p =? 0)%nat then c_file (m_client st) = concat pkts else waiting_in (m_servers st) _locIP f = pkts.
Proof.
  intros Hst E j p f Hf Hpf. pose proof (mp_some Hmp) as Hnj. pose proof (contents_bound st Hst) as Hcb. pose proof (mg_count st Hst) as Hpc.
  destruct (sum_bound mcounters (m_workers st) ((1 + 2 * nj) * cnt)) as [Hb _]; [intros x wx; by apply mcounters_bound|].
  rewrite (mg_len st Hst) in Hb. unfold mwork, all_mwork in E.
  assert (Hl : length (c_contents (m_client st)) = (nj * cnt)%nat) by nia.
  assert (Hpp : _processedPacket (m_client st) = (nj * cnt)%nat) by nia.
  assert (Hp : (p < nj)%nat) by (rewrite <- length_asked; by eapply lookup_lt_Some).
  assert (Hall : packets_of nj p (_processedPacket (m_client st)) (c_contents (m_client st)) = partial conf (helpers_of j) (k - 1) <$> seq 0 cnt).
  { pose proof (pg_collected _ _ _ _ (mg_job st Hst j p f Hf Hpf)) as Hc. cbn [collected state_of] in Hc.
    rewrite length_packets_of, Hl, (share_all nj Hnj), length_helpers in Hc by done. by rewrite Hpp. }
  cbv zeta. rewrite <- Hall. destruct (Nat.eqb_spec p 0) as [->|Hne]; [by apply mg_file|]. apply mg_pushed; (done || lia).
Qed.

(** A run can always be carried to its end. *)
Lemma mrun_completes d st : mprogress st -> (mwork st + d = all_mwork)%nat -> exists st', nsteps mstep d st st'.
Proof.
  revert st. induction d as [|d IH]; intros st Hst E; [exists st; constructor|].
  destruct (mnext_step st Hst) as [st1 Hs]; [lia|]. destruct (mstep_progress st st1 Hst Hs) as [Hst1 E1].
  destruct (IH st1 Hst1) as [st' Hn]; [lia|]. exists st'. by econstructor.
Qed.

(** ** The next repair *)

Lemma flags_left st x w : mprogress st -> mwork st = all_mwork -> m_workers st !! x = Some w ->
  forall i, (i < cnt)%nat -> m_diskFlag w !! i = Some true.
Proof.
  intros Hst E Hw i Hi. rewrite (flags_at st x w Hst Hw i Hi). f_equal. apply bool_decide_true.
  pose proof (contents_bound st Hst). pose proof (mg_count st Hst).
  destruct (sum_bound mcounters (m_workers st) ((1 + 2 * nj) * cnt)) as [Hb Heq]; [intros y wy; by apply mcounters_bound|].
  rewrite (mg_len st Hst) in Hb, Heq. unfold mwork, all_mwork in E.
  pose proof (Heq ltac:(lia) x w Hw) as Hc. destruct (worker_counters st x w Hst Hw) as [Hr2 Hp2 Hs2]. unfold mcounters in Hc.
  assert (Hm2 : (nj * m_read w <= nj * cnt)%nat) by by apply Nat.mul_le_mono_l. lia.
Qed.

(** The threads of the next repair of a helper may send a packet of zeros. *)
Lemma stale_flags st x w n w' r : mprogress st -> mwork st = all_mwork -> m_workers st !! x = Some w ->
  (0 < cnt)%nat -> (0 < length (mn_jobs n))%nat -> dr_id (mn_jobs n !!! 0%nat) = 0 -> start_worker conf (length (mn_jobs n)) w = Ok w' ->
  exists w1 w2, run_mthread conf TPull n w' r = Ok (w1, r) /\
    run_mthread conf TSend n w1 r = Ok (w2, RPUSH (mn_ip n) (sendKey (mn_jobs n !!! 0%nat)) (zeros size) r).
Proof.
  intros Hst E Hw Hcnt Hj Hid Hs. pose proof (flags_left st x w Hst E Hw 0 Hcnt) as Hflag. destruct (mn_jobs n) as [|c cs] eqn:Ej; [simpl in Hj; lia|].
  set (nj' := length (c :: cs)) in *. unfold start_worker in Hs. destruct (Nat.leb_spec nj' (length (waitingToSend w))); cbn [guard_or] in Hs; [|done].
  rewrite bind_ok in Hs. injection Hs as <-. destruct (pktOutput_ok conf 0 Hpo Hcnt) as [d Hd]. cbn [lookup_total list_lookup_total] in Hid |- *.
  destruct cnt as [|cnt'] eqn:Ec; [lia|].
  eexists _, _. split.
  - cbn [run_mthread]. unfold pullRequestorMulCompletion. rewrite Ej. fold nj'.
    cbn [m_pulled m_diskFlag _sendMulPkt waitingToSend m_diskPkts m_read m_sent].
    rewrite Nat.Div0.div_0_l, Nat.Div0.mod_0_l, Ec. cbn [Nat.ltb Nat.leb guard_or Nat.eqb]. rewrite bind_ok, Hflag. cbn [res_of_option guard_or].
    rewrite !bind_ok, Hd, bind_ok. cbn [lookup list_lookup res_of_option replicate]. rewrite !bind_ok, Hid. cbn [Z.eqb]. rewrite bind_ok.
    rewrite bind_ok. reflexivity.
  - cbn [run_mthread]. unfold sendMulWorker. rewrite Ej. fold nj'.
    cbn [m_pulled m_diskFlag _sendMulPkt waitingToSend m_diskPkts m_read m_sent].
    rewrite Nat.Div0.div_0_l, Nat.Div0.mod_0_l, Ec. cbn [Nat.ltb Nat.leb guard_or]. rewrite bind_ok, Hd, bind_ok.
    cbn. assert (Hsl : slice (zeros (size * S (length cs) + 4)) 0 size = Some (zeros size)).
    { apply slice_Some. unfold zeros. rewrite length_replicate, drop_0, take_replicate. split; [nia|]. f_equal. nia. }
    rewrite Hsl. reflexivity.
Qed.

(** C36: The flags of the packets are not taken back when a repair ends: in the
    next repair, the first helper of the pipeline may pull and send its first
    packet before it has read it, and pushes a packet of zeros. *)
Theorem stale_packet st st' x w n w' r :
  mstarted st -> nsteps mstep all_mwork st st' -> m_workers st' !! x = Some w ->
  (0 < cnt)%nat -> (0 < length (mn_jobs n))%nat -> dr_id (mn_jobs n !!! 0%nat) = 0 -> start_worker conf (length (mn_jobs n)) w = Ok w' ->
  exists w1 w2, run_mthread conf TPull n w' r = Ok (w1, r) /\
    run_mthread conf TSend n w1 r = Ok (w2, RPUSH (mn_ip n) (sendKey (mn_jobs n !!! 0%nat)) (zeros size) r).
Proof.
  intros Hst Hrun Hw Hcnt Hj Hid Hs. destruct (mstarted_progress st Hst) as [Hp H0]. destruct (mrun_progress all_mwork st st' Hp Hrun) as [Hp' E].
  apply (stale_flags st' x w n w' r Hp'); try done. lia.
Qed.
End system.

(** One helper with one job, twice. *)
Section example.
Definition tiny : Config := mkConfig 1 2 8 0 2 [1; 2] 9 0 false false [] 0 [] 0 [].
Definition tiny_job : dr_cmd := mkDrCmd 1 9 2 2 0 7 (lit "lost") (lit "own").
Definition tiny_node : mnode := mkMNode 2 [tiny_job] (seqZ 1 16) [None].

Lemma tiny_packets : packets_ok tiny.
Proof. split; [reflexivity|cbn; lia|cbn; lia]. Qed.

Lemma tiny_pipeline : mpipeline tiny [tiny_node] 9 [lit "lost"] [lit "lost"].
Proof.
  assert (Hfile : blk_file tiny (seqZ 1 16)) by (split; [vm_compute; lia|decided]).
  split; [cbn; lia|decided|done| | |cbn; decided].
  - intros [|x] n Hn; [injection Hn as <-|done]. split; [done|exact Hfile|]. constructor; [unfold is_byte; cbn; lia|done].
  - intros [|j] f Hf; [injection Hf as <-|done]. split.
    + cbn. lia.
    + decided.
    + intros [|x] n Hn; [injection Hn as <-|done]. split_and!; [done..|unfold is_byte; cbn; lia].
    + by intros [|x] n m Hn.
    + intros [|x] n Hn; [injection Hn as <-|done]. eexists. split; [reflexivity|exact Hfile].
Qed.

Lemma stale_packet_witness :
  exists st' w w' w1 w2, m_workers st' !! 0%nat = Some w /\ start_worker tiny 1 w = Ok w' /\ run_mthread tiny TPull tiny_node w' ∅ = Ok (w1, ∅) /\
    run_mthread tiny TSend tiny_node w1 ∅ = Ok (w2, RPUSH 2 (lit "lost") (zeros 8) ∅).
Proof.
  set (w0 := mkMWorker (replicate 2 (zeros 8)) [false; false] (replicate 2 (zeros 12)) [0%nat] 0 0 0).
  set (st := mkMState [w0] ∅ (mkMClient [] 0 [])).
  assert (Hst : mstarted tiny [tiny_node] 9 [lit "lost"] [lit "lost"] st).
  { split; [done| |done|done|done]. intros [|x] w Hw; [injection Hw as <-|done]. exists [0%nat]. reflexivity. }
  destruct (mstarted_progress tiny [tiny_node] 9 [lit "lost"] [lit "lost"] tiny_pipeline st Hst) as [Hp H0].
  destruct (mrun_completes tiny tiny_packets [tiny_node] 9 [lit "lost"] [lit "lost"] tiny_pipeline (all_mwork tiny [tiny_node] [lit "lost"]) st Hp) as [st' Hrun];
    [by rewrite H0|].
  destruct (mrun_progress tiny tiny_packets [tiny_node] 9 [lit "lost"] [lit "lost"] tiny_pipeline _ st st' Hp Hrun) as [Hp' _].
  destruct (lookup_lt_is_Some_2 (m_workers st') 0) as [w Hw]; [rewrite (mg_len _ _ _ _ _ _ Hp'); cbn; lia|].
  destruct (start_worker tiny 1 w) as [w'|e] eqn:Es.
  - destruct (stale_packet tiny tiny_packets [tiny_node] 9 [lit "lost"] [lit "lost"] tiny_pipeline st st' 0 w tiny_node w' ∅ Hst Hrun Hw
      ltac:(cbn; lia) ltac:(cbn; lia) eq_refl Es) as (w1 & w2 & H1 & H2).
    exists st', w, w', w1, w2. split; [exact Hw|]. split; [exact Es|]. split; [exact H1|exact H2].
  - exfalso. pose proof (sh_waiting _ _ _ (mg_shape _ _ _ _ _ _ Hp' 0%nat w Hw)) as Hl. unfold start_worker in Es.
    by rewrite (proj2 (Nat.leb_le 1 _)) in Es.
Defined.
End example.
