(* ===== verification/MulWait.v ===== *)
(** * The waits of the pipelines of several blocks (PipeMulDRWorker.cc)

    The threads of MulRepair.v as a [scheme] of Wait.v.  The sender of a helper
    has a mutex and a condition variable per job; the client's [pipeCollector]
    notifies [pipeForwardWorker] without locking its mutex. *)
From Stdlib Require Import Ascii.
From stdpp Require Import strings relations functions.
From S2P Require Import Prelude Command Text Config Galois GF256 Jerasure Gauss Vandermonde ReedSol Encode RSUtil Disk Coordinator Packet DrCmd PipeRepair Wait MulRepair MulProgress.

#[local] Arguments Nat.ltb : simpl never.
#[local] Arguments Nat.div : simpl never.
#[local] Arguments Nat.modulo : simpl never.

(** The mutexes and condition variables of the helper [x] and of the client. *)
Inductive mmutex := MDiskMtx (x i : nat) | SenderMtx (x j : nat) | Reader2SenderMtx.
Inductive mcond := MDiskCv (x : nat) | SenderCondVar (x j : nat) | Reader2SenderCondVar.
#[export] Instance mmutex_eq : EqDecision mmutex.
Proof. solve_decision. Defined.
#[export] Instance mcond_eq : EqDecision mcond.
Proof. solve_decision. Defined.

(** The client's threads. *)
Inductive mcthread := Collect | Forward.
#[export] Instance mcthread_eq : EqDecision mcthread.
Proof. solve_decision. Defined.

Section waits.
Context `{GF : GFComplete} `{DIO : DiskIO} (conf : Config) (ns : list mnode) (fetch : list Z) (_locIP : Z) (_lostFiles : list str).
Abbreviation cnt := (_packetCnt conf).
Abbreviation mactor := (actor thread mcthread).
Abbreviation nj x := (length (mn_jobs (ns !!! x))).

Definition mul_iterate (a : mactor) (st : mstate) : res mstate :=
  match a with
  | Helper x t =>
    n ← res_of_option Blocked (ns !! x);
    w ← res_of_option Blocked (m_workers st !! x);
    '(w, r) ← run_mthread conf t n w (m_servers st);
    Ok (mkMState (<[x := w]> (m_workers st)) r (m_client st))
  | Client Collect =>
    '(c, r) ← pipeCollector conf fetch _lostFiles (m_client st) (m_servers st);
    Ok (mkMState (m_workers st) r c)
  | Client Forward =>
    '(c, r) ← pipeForwardWorker conf _locIP _lostFiles (m_client st) (m_servers st);
    Ok (mkMState (m_workers st) r c)
  end.

(** Where the threads wait: [pullRequestorMulCompletion] before the jobs of a
    packet, [sendMulWorker] before each job, and [pipeForwardWorker]. *)
Definition mul_wait_on (a : mactor) (st : mstate) : option (mmutex * mcond) :=
  match a with
  | Helper x TPull =>
    w ← m_workers st !! x;
    if (m_pulled w mod nj x =? 0)%nat && (m_pulled w / nj x <? cnt)%nat then Some (MDiskMtx x (m_pulled w / nj x), MDiskCv x) else None
  | Helper x TSend =>
    w ← m_workers st !! x;
    if (m_sent w / nj x <? cnt)%nat then Some (SenderMtx x (m_sent w mod nj x), SenderCondVar x (m_sent w mod nj x)) else None
  | Client Forward =>
    if (_processedPacket (m_client st) / length _lostFiles <? cnt)%nat then Some (Reader2SenderMtx, Reader2SenderCondVar) else None
  | _ => None
  end.

Definition mul_test (a : mactor) (st : mstate) : bool :=
  match a with
  | Helper x TPull => default true (w ← m_workers st !! x; m_diskFlag w !! (m_pulled w / nj x)%nat)
  | Helper x TSend =>
    default true (w ← m_workers st !! x; waiting ← waitingToSend w !! (m_sent w mod nj x)%nat; Some (m_sent w / nj x <? waiting)%nat)
  | Client Forward => (_processedPacket (m_client st) <? length (c_contents (m_client st)))%nat
  | _ => true
  end.

(** [pipeForwardWorker] makes its test with the mutex locked. *)
Definition mul_locked_test (a : mactor) : bool := match a with Client Forward => true | _ => false end.

Definition mul_enters (a : mactor) (st : mstate) : option mmutex :=
  match a with Helper x TRead => w ← m_workers st !! x; Some (MDiskMtx x (m_read w)) | _ => None end.

Definition mul_signals (a : mactor) (st : mstate) : list (signal mmutex mcond) :=
  match a with
  | Helper x TRead => [mkSignal None (MDiskCv x) false]
  | Helper x TPull =>
    default [] (w ← m_workers st !! x;
      Some [mkSignal (Some (SenderMtx x (m_pulled w mod nj x))) (SenderCondVar x (m_pulled w mod nj x)) false])
  | Client Collect => [mkSignal None Reader2SenderCondVar false]
  | _ => []
  end.

Definition mul_scheme : scheme mstate mactor mmutex mcond :=
  mkScheme (actors (length ns) (fun _ => [TRead; TPull; TSend]) [Collect; Forward]) mul_iterate mul_wait_on mul_test mul_locked_test mul_enters (fun _ => false) mul_signals.
Abbreviation W := mul_scheme.

Lemma mul_iterates st st' : mstep conf ns fetch _locIP _lostFiles st st' <-> exists a, a ∈ threads W /\ iterate W a st = Ok st'.
Proof.
  split.
  - intros Hs. destruct Hs as [st x t n w w' r Hn Hw Hr|st c r Hr|st c r Hr].
    + exists (Helper x t). split; [apply actor_helper_in; split; [by eapply lookup_lt_Some|destruct t; set_solver]|].
      cbn. rewrite Hn. cbn. rewrite Hw. cbn. by rewrite Hr.
    + exists (Client Collect). split; [apply client_in; set_solver|]. cbn. by rewrite Hr.
    + exists (Client Forward). split; [apply client_in; set_solver|]. cbn. by rewrite Hr.
  - intros ([x t|[|]] & _ & E); cbn in E; res_inv.
    + destruct v1 as [w r]. injection Hk as <-. by eapply mstep_thread.
    + destruct v as [c r]. injection Hk as <-. by apply mstep_collect.
    + destruct v as [c r]. injection Hk as <-. by apply mstep_forward.
Qed.

Lemma mul_fault a st e : iterate W a st = Fault e -> e <> Blocked -> mcrash conf ns fetch _locIP _lostFiles st.
Proof.
  intros E He. destruct a as [x t|[|]]; cbn in E.
  - destruct (ns !! x) as [n|] eqn:Hn; cbn in E; [|congruence]. destruct (m_workers st !! x) as [w|] eqn:Hw; cbn in E; [|congruence].
    destruct (run_mthread conf t n w (m_servers st)) as [[w' r]|e'] eqn:Er; [discriminate|]. injection E as <-. left. by exists x, t, n, w, e'.
  - destruct (pipeCollector _ _ _ _ _) as [[c r]|e'] eqn:Er; [discriminate|]. injection E as <-. right. left. by exists e'.
  - destruct (pipeForwardWorker _ _ _ _ _) as [[c r]|e'] eqn:Er; [discriminate|]. injection E as <-. right. right. by exists e'.
Qed.

(** What the iterations of a helper change of what the others wait for. *)
Lemma mul_run_keeps t n w r w' r' : run_mthread conf t n w r = Ok (w', r') ->
  match t with
  | TRead => m_pulled w' = m_pulled w /\ m_sent w' = m_sent w /\ waitingToSend w' = waitingToSend w
  | TPull => m_sent w' = m_sent w /\ m_diskFlag w' = m_diskFlag w /\
      (exists v, waitingToSend w' = <[(m_pulled w mod length (mn_jobs n))%nat := v]> (waitingToSend w)) /\
      ((m_pulled w mod length (mn_jobs n) =? 0)%nat = true -> m_diskFlag w !! (m_pulled w / length (mn_jobs n))%nat = Some true)
  | TSend => m_pulled w' = m_pulled w /\ m_diskFlag w' = m_diskFlag w /\ waitingToSend w' = waitingToSend w /\
      exists v, waitingToSend w !! (m_sent w mod length (mn_jobs n))%nat = Some v /\ (m_sent w / length (mn_jobs n) < v)%nat
  end.
Proof.
  destruct t; cbn [run_mthread]; [unfold readMulWorker|unfold pullRequestorMulCompletion|unfold sendMulWorker]; intros H; res_inv; simplify_eq; try done.
  - case_match. res_inv. simplify_eq. cbn. split_and!; [done|done|by eexists|]. intros E. rewrite E in Hm0. res_inv. by simplify_eq.
  - cbn. split_and!; [done..|]. eexists. split; [done|]. by apply Nat.ltb_lt.
Qed.

Lemma collect_keeps c r c' r' : pipeCollector conf fetch _lostFiles c r = Ok (c', r') -> _processedPacket c' = _processedPacket c.
Proof. unfold pipeCollector. intros H. res_inv. case_match. res_inv. by simplify_eq. Qed.

Lemma forward_tested c r c' r' : pipeForwardWorker conf _locIP _lostFiles c r = Ok (c', r') -> (_processedPacket c <? length (c_contents c))%nat = true.
Proof. unfold pipeForwardWorker. intros H. by res_inv. Qed.

Lemma mul_laws (I : mstate -> Prop) work n :
  (forall st st', I st -> mstep conf ns fetch _locIP _lostFiles st st' -> I st' /\ work st' = S (work st)) ->
  (forall st, I st -> (work st <= n)%nat) ->
  (forall st, I st -> (work st < n)%nat -> exists st', mstep conf ns fetch _locIP _lostFiles st st') ->
  (forall st, I st -> ~ mcrash conf ns fetch _locIP _lostFiles st) ->
  scheme_laws W (fun _ => 0%nat) 0 I work n.
Proof.
  intros Hkeep Hbound Hmore Hcrash. apply exact_laws; cbn -[threads].
  - apply actors_nodup; [intros _ _|]; repeat constructor; set_solver.
  - done.
  - intros a st st' HI Ha E. apply (Hkeep st); [done|]. apply mul_iterates. by exists a.
  - done.
  - intros st HI Hlt. destruct (Hmore st HI Hlt) as [st' Hs]. apply mul_iterates in Hs as (a & Ha & E). by exists a, st'.
  - intros a st e HI _ E. destruct (decide (e = Blocked)); [done|]. by destruct (Hcrash st HI (mul_fault a st e E ltac:(done))).
  - intros a st st' _ _ E. unfold waits. destruct a as [x t|[|]]; cbn in E; res_inv; [|done|].
    + destruct v1 as [w' r]. pose proof (mul_run_keeps _ _ _ _ _ _ Hm1) as Hr. rewrite <- (list_lookup_total_correct _ _ _ Hm) in Hr. cbn.
      destruct t; [done|..]; rewrite Hm0; cbn.
      * destruct (_ =? _)%nat eqn:E0; cbn; [|done]. case_match; [|done]. destruct Hr as (_ & _ & _ & Hfl). by rewrite Hfl.
      * case_match; [|done]. destruct Hr as (_ & _ & _ & u & -> & Hlt). cbn. by rewrite (proj2 (Nat.ltb_lt _ _)).
    + destruct v as [c r]. cbn. case_match; [|done]. by rewrite (forward_tested _ _ _ _ Hm).
  - intros a st st' a' _ _ E _ Hne. destruct a as [x t|[|]]; cbn in E; res_inv.
    + destruct v1 as [w' r]. injection Hk as <-. pose proof (mul_run_keeps _ _ _ _ _ _ Hm1) as Hr.
      destruct a' as [y t'|[|]]; [|done..]. destruct (decide (y = x)) as [->|Hyx].
      * assert (t' <> t) by congruence. cbn. rewrite list_lookup_insert_eq, Hm0 by by eapply lookup_lt_Some. cbn.
        destruct t', t; try done; [by destruct Hr as (-> & _)..|by destruct Hr as (_ & -> & _)|by destruct Hr as (-> & _)].
      * destruct t'; cbn; by rewrite ?list_lookup_insert_ne by done.
    + destruct v as [c r]. injection Hk as <-. destruct a' as [y t'|[|]]; [done..|]. cbn. by rewrite (collect_keeps _ _ _ _ Hm).
    + destruct v as [c r]. injection Hk as <-. by destruct a' as [y t'|[|]].
  - intros a st st' a' m c _ _ E _ Hne Hon Hf Ht. destruct a as [x t|[|]]; cbn in E; res_inv.
    + destruct v1 as [w' r]. injection Hk as <-. pose proof (mul_run_keeps _ _ _ _ _ _ Hm1) as Hr. rewrite <- (list_lookup_total_correct _ _ _ Hm) in Hr.
      destruct a' as [y t'|[|]]; [|cbn in Hf, Ht; congruence..]. destruct (decide (y = x)) as [->|Hyx].
      2: { destruct t'; cbn in Hf, Ht; rewrite ?list_lookup_insert_ne in Ht by done; congruence. }
      assert (t' <> t) by congruence. destruct t'; cbn in Hon, Hf, Ht; [done|..]; rewrite list_lookup_insert_eq in Ht by (by eapply lookup_lt_Some);
        rewrite Hm0 in Hon, Hf; cbn in Hon, Hf, Ht.
      * destruct (_ && _); [|done]. injection Hon as <- <-. destruct t; [set_solver|done|]. destruct Hr as (E1 & E2 & _). rewrite E1, E2 in Ht. congruence.
      * destruct (_ <? _)%nat; [|done]. injection Hon as <- <-. destruct t; [..|done].
        -- destruct Hr as (_ & Es & Ew). rewrite Es, Ew in Ht. congruence.
        -- cbn. rewrite Hm0. cbn. destruct Hr as (Es & _ & [u Ew] & _). rewrite Es, Ew in Ht.
           destruct (decide (m_pulled v0 mod nj x = m_sent v0 mod nj x)%nat) as [->|Hj]; [set_solver|]. rewrite list_lookup_insert_ne in Ht by done. congruence.
    + destruct v as [c' r]. injection Hk as <-. destruct a' as [y []|[|]]; cbn in Hon, Hf, Ht; try congruence. case_match; [|done]. injection Hon as <- <-. set_solver.
    + destruct v as [c' r]. injection Hk as <-. destruct a' as [y []|[|]]; cbn in Hf, Ht; congruence.
  - intros a st st' sg _ _ _ _ _ s t1 t2 m1 m2 _ _ _ H1 H2. destruct t1 as [x1 []|[|]], t2 as [x2 []|[|]]; cbn in H1, H2; try done;
      repeat match goal with H : _ ≫= _ = Some _ |- _ => apply bind_Some in H as (? & _ & H) end; repeat case_match; congruence.
  - intros a st st' _ _ _. destruct a as [x []|[|]]; cbn; try done; destruct (m_workers st !! x); cbn; try done; (split; [|done]); by intros m [=]; constructor.
Qed.
End waits.
