(* ===== verification/PPRTree.v ===== *)
(** * The tree of the partial parallel repair (PPRPullDRWorker.cc)

    The helpers of a PPR repair add their packets along a binomial tree whose
    shape every node computes from its own index: [getChildrenIndices], the
    nodes it pulls from, and [PPRnextIP], the node that pulls from it.  The
    requestor, whose index is the number of helpers, takes the place of the
    first power of two behind them ([getID]). *)
From S2P Require Import Prelude.

(** The parameter [ecK] of [PPRnextIP] is not used. *)
Definition PPRnextIP (id : Z) : Z :=
  let id := id + 1 in id + Z.land id (- id) - 1.

(** [while ((idx >> lastOne) % 2 == 0) lastOne ++;] *)
Fixpoint last_one (fuel : nat) (idx lastOne : Z) : res Z :=
  if Z.shiftr idx lastOne mod 2 =? 0 then
    match fuel with O => Fault Blocked | S f => last_one f idx (lastOne + 1) end
  else Ok lastOne.

(** An [int] has 32 bits, and the calls go to smaller powers of two. *)
Definition INT_BITS : nat := 32.

Fixpoint getChildrenIndices_fuel (fuel : nat) (idx ecK : Z) : res (list Z) :=
  match fuel with
  | O => Fault Blocked
  | S f =>
      let idx := idx + 1 in
      lastOne ← last_one INT_BITS idx 0;
      let id := Z.shiftl (Z.shiftr idx lastOne - 1) lastOne in
      r ← for_each (rev (seqZ 0 lastOne)) (fun lastOne '(id, retVal) =>
        let id := id + Z.shiftl 1 lastOne in
        if id <=? ecK then Ok (id, retVal ++ [id - 1])
        else temp ← getChildrenIndices_fuel f (id - 1) ecK; Ok (id, retVal ++ temp)) (id, []);
      Ok r.2
  end.
Definition getChildrenIndices (idx ecK : Z) : res (list Z) := getChildrenIndices_fuel INT_BITS idx ecK.

(** [while ((k & (k - 1)) != 0) k += (k & (-k));] *)
Fixpoint getID_loop (fuel : nat) (k : Z) : res Z :=
  if negb (Z.land k (k - 1) =? 0) then
    match fuel with O => Fault Blocked | S f => getID_loop f (k + Z.land k (- k)) end
  else Ok k.
Definition getID (k : Z) : res Z := k ← getID_loop INT_BITS (k + 1); Ok (k - 1).

(** ** The lowest bit of an index *)

(** [2 ^ l] is the lowest bit of [y]. *)
Definition lowest (y l : Z) : Prop := 0 <= l /\ exists q, y = (2 * q + 1) * 2 ^ l.

Lemma testbit_split a r n b : 0 <= n -> 0 <= r < 2 ^ n -> 0 <= b ->
  Z.testbit (a * 2 ^ n + r) b = if b <? n then Z.testbit r b else Z.testbit a (b - n).
Proof.
  intros Hn Hr Hb. destruct (Z.ltb_spec b n).
  - rewrite <- (Z.mod_pow2_bits_low (a * 2 ^ n + r) n b) by lia. by rewrite Z.add_comm, Z_mod_plus_full, Z.mod_small.
  - rewrite <- (Z.sub_add n b) at 1. rewrite <- Z.div_pow2_bits by lia. do 2 f_equal.
    rewrite Z.add_comm, Z_div_plus_full by lia. rewrite Z.div_small; lia.
Qed.

Lemma lowest_bits y l b : lowest y l -> 0 <= b -> exists q,
  Z.testbit y b = (if b <? l + 1 then b =? l else Z.testbit q (b - (l + 1))) /\
  Z.testbit (y - 1) b = (if b <? l + 1 then b <? l else Z.testbit q (b - (l + 1))).
Proof.
  intros (Hl & q & ->) Hb. exists q. assert (Hp : 2 ^ (l + 1) = 2 * 2 ^ l) by (rewrite Z.pow_add_r; lia).
  assert (H0 : 0 < 2 ^ l) by lia.
  replace ((2 * q + 1) * 2 ^ l) with (q * 2 ^ (l + 1) + 2 ^ l) by lia.
  replace (q * 2 ^ (l + 1) + 2 ^ l - 1) with (q * 2 ^ (l + 1) + (2 ^ l - 1)) by lia.
  rewrite !testbit_split by lia. split; (destruct (Z.ltb_spec b (l + 1)); [|done]).
  - rewrite Z.pow2_bits_eqb by lia. apply Z.eqb_sym.
  - change (2 ^ l - 1) with (Z.pred (2 ^ l)). rewrite <- Z.ones_equiv, Z.testbit_ones by lia.
    by rewrite (proj2 (Z.leb_le 0 b)).
Qed.

Lemma land_lowest y l : lowest y l -> Z.land y (- y) = 2 ^ l.
Proof.
  intros Hy. apply Z.bits_inj'. intros b Hb. destruct (lowest_bits y l b Hy Hb) as (q & E1 & E2).
  pose proof (proj1 Hy). rewrite Z.land_spec, Z.bits_opp, Z.pow2_bits_eqb by lia. change (Z.pred y) with (y - 1).
  rewrite E1, E2. destruct (Z.ltb_spec b (l + 1)), (Z.eqb_spec b l), (Z.ltb_spec b l), (Z.eqb_spec l b); try lia; try done;
    by rewrite andb_negb_r.
Qed.

Lemma land_pred y l : lowest y l -> Z.land y (y - 1) = y - 2 ^ l.
Proof.
  intros Hy. pose proof Hy as (Hl & q & ->). set (y := (2 * q + 1) * 2 ^ l) in *.
  replace (y - 2 ^ l) with (q * 2 ^ (l + 1) + 0) by (unfold y; rewrite Z.pow_add_r; lia).
  apply Z.bits_inj'. intros b Hb. rewrite Z.land_spec, testbit_split by lia.
  assert (Hp : 2 ^ (l + 1) = 2 * 2 ^ l) by (rewrite Z.pow_add_r; lia). assert (H0 : 0 < 2 ^ l) by lia.
  unfold y. replace ((2 * q + 1) * 2 ^ l) with (q * 2 ^ (l + 1) + 2 ^ l) by lia.
  replace (q * 2 ^ (l + 1) + 2 ^ l - 1) with (q * 2 ^ (l + 1) + (2 ^ l - 1)) by lia.
  rewrite !testbit_split by lia. destruct (Z.ltb_spec b (l + 1)); [|apply andb_diag].
  rewrite Z.testbit_0_l, Z.pow2_bits_eqb by lia. change (2 ^ l - 1) with (Z.pred (2 ^ l)).
  rewrite <- Z.ones_equiv, Z.testbit_ones by lia. destruct (Z.eqb_spec l b), (Z.ltb_spec b l); try lia; by rewrite ?andb_false_r.
Qed.

Lemma lowest_exists y : 0 < y -> exists l, lowest y l.
Proof.
  intros Hy. induction y as [y IH] using (well_founded_induction (Z.lt_wf 0)).
  destruct (Z.Even_or_Odd y) as [[h Hh]|[h Hh]].
  - destruct (IH h) as (l & Hl & q & E); [lia..|]. exists (l + 1). split; [lia|]. exists q. rewrite Z.pow_add_r by lia. lia.
  - exists 0. split; [lia|]. exists h. lia.
Qed.

Lemma pow_split i j : 0 <= i <= j -> 2 ^ j = 2 ^ (j - i) * 2 ^ i.
Proof. intros. rewrite <- Z.pow_add_r by lia. f_equal. lia. Qed.

(** A smaller index in the range of [x] carries at most to [x]. *)
Lemma lowest_within x t y l : lowest x t -> lowest y l -> x - 2 ^ t < y < x -> l < t /\ y + 2 ^ l <= x.
Proof.
  intros (Ht & p & ->) (Hl & q & ->) Hy. assert (Hlt : l < t).
  { destruct (Z.le_gt_cases t l); [|lia]. rewrite (pow_split t l), Z.mul_assoc in Hy by lia. set (M := (2 * q + 1) * 2 ^ (l - t)) in *.
    assert (0 < 2 ^ t) by lia. assert (2 * p < M) by nia. assert (M < 2 * p + 1) by nia. lia. }
  split; [done|]. assert (0 < 2 ^ l) by lia. assert (E : (2 * p + 1) * 2 ^ t = (2 * p + 1) * 2 ^ (t - l - 1) * 2 * 2 ^ l).
  { assert (E : 2 ^ t = 2 ^ (t - l - 1) * 2 ^ 1 * 2 ^ l) by (rewrite <- !Z.pow_add_r by lia; f_equal; lia).
    rewrite E. change (2 ^ 1) with 2. ring. }
  rewrite E in *. set (M := (2 * p + 1) * 2 ^ (t - l - 1)) in *. assert (2 * q + 1 < M * 2) by nia. nia.
Qed.

Lemma lowest_below x t l : lowest x t -> 0 <= l < t -> lowest (x - 2 ^ l) l.
Proof.
  intros (Ht & p & ->) Hl. split; [lia|]. exists (2 ^ (t - l - 1) * (2 * p + 1) - 1). rewrite (pow_split l t) by lia.
  replace (t - l) with (t - l - 1 + 1) at 1 by lia. rewrite Z.pow_add_r by lia. change (2 ^ 1) with 2. ring.
Qed.

Lemma lowest_inj y l1 l2 : 0 < y -> lowest y l1 -> lowest y l2 -> l1 = l2.
Proof.
  intros Hy H1 H2. apply (Z.pow_inj_r 2); [lia|apply H1|apply H2|]. by rewrite <- (land_lowest y l1), <- (land_lowest y l2).
Qed.

Lemma lowest_carry y l t : lowest y l -> lowest (y + 2 ^ l) t -> l < t.
Proof.
  intros (Hl & q & Eq) (Ht & q' & Eq'). destruct (Z.lt_ge_cases l t); [done|].
  assert (Hsum : y + 2 ^ l = (2 * q + 2) * 2 ^ l) by (rewrite Eq; ring). rewrite Hsum, (pow_split t l) in Eq' by lia.
  assert (E2 : 2 * ((q + 1) * 2 ^ (l - t)) = 2 * q' + 1) by (apply (Z.mul_reg_r _ _ (2 ^ t)); lia). lia.
Qed.

(** ** The children *)

Lemma lowest_shift x t j : lowest x t -> 0 <= j <= t -> Z.shiftr x j mod 2 = if decide (j = t) then 1 else 0.
Proof.
  intros (Ht & q & ->) Hj. rewrite Z.shiftr_div_pow2, (pow_split j t), Z.mul_assoc, Z.div_mul by lia. case_decide as E.
  - subst j. rewrite Z.sub_diag. replace ((2 * q + 1) * 2 ^ 0) with (1 + q * 2) by lia. by rewrite Z_mod_plus_full.
  - replace (t - j) with (t - j - 1 + 1) by lia. rewrite Z.pow_add_r by lia. change (2 ^ 1) with 2.
    by rewrite Z.mul_assoc, Z_mod_mult.
Qed.

Lemma last_one_ok fuel x t j : lowest x t -> 0 <= j <= t -> t - j <= Z.of_nat fuel -> last_one fuel x j = Ok t.
Proof.
  intros Hx. revert j. induction fuel as [|f IH]; intros j Hj Hf; cbn [last_one]; rewrite (lowest_shift x t) by done.
  - rewrite decide_True by lia. cbn. f_equal. lia.
  - case_decide as E; [by subst|]. cbn. apply IH; lia.
Qed.

(** The helpers between [lo] and [x] whose sums go to [x], counted from 1: the
    ones that carry to [x], or past the last helper [k]. *)
Definition feeds (k x lo y : Z) : Prop :=
  lo < y < x /\ y <= k /\ exists l, lowest y l /\ (k < y + 2 ^ l \/ y + 2 ^ l = x).

(** The indices of such helpers, each once. *)
Definition lists_feeds (k x lo : Z) (c : list Z) : Prop :=
  NoDup c /\ forall z, z ∈ c <-> feeds k x lo (z + 1).

Section loop.
Context (k x t : Z) (Hx : 0 < x) (Hlow : lowest x t) (children : Z -> res (list Z)).
Context (Hrec : forall e l, lowest e l -> 0 < e -> l < t -> exists c, children (e - 1) = Ok c /\ lists_feeds k e (e - 2 ^ l) c).

Let body := fun lastOne '((id, retVal) : Z * list Z) =>
  let id := id + Z.shiftl 1 lastOne in
  if id <=? k then Ok (id, retVal ++ [id - 1]) else temp ← children (id - 1); Ok (id, retVal ++ temp).

Lemma range_pos : 2 ^ t <= x.
Proof. destruct Hlow as (Ht & q & E). assert (0 < 2 ^ t) by lia. assert (0 <= q) by nia. nia. Qed.

(** The range of the child [x - 2 ^ n]. *)
Lemma child_range n c y : 0 <= n < t -> lists_feeds k (x - 2 ^ n) (x - 2 ^ n - 2 ^ n) c -> k < x - 2 ^ n ->
  (feeds k x (x - 2 ^ (n + 1)) y <-> y - 1 ∈ c \/ feeds k x (x - 2 ^ n) y).
Proof.
  intros Hn [_ Hc] Hk. rewrite Hc, Z.sub_add, Z.pow_add_r by lia. change (2 ^ 1) with 2.
  pose proof (lowest_below x t n Hlow Hn) as He. assert (H0 : 0 < 2 ^ n) by lia. unfold feeds. split.
  - intros (H1 & H2 & l & Hl & H3). left. split; [lia|]. split; [done|]. exists l. split; [done|].
    destruct (lowest_within _ _ _ _ He Hl) as [_ H4]; [lia|]. lia.
  - intros [(H1 & H2 & l & Hl & H3)|(H1 & H2 & l & Hl & H3)]; (split; [lia|]); (split; [done|]); exists l; (split; [done|]); lia.
Qed.

Lemma child_alone n y : 0 <= n < t -> x - 2 ^ n <= k ->
  (feeds k x (x - 2 ^ (n + 1)) y <-> y = x - 2 ^ n \/ feeds k x (x - 2 ^ n) y).
Proof.
  intros Hn Hk. rewrite Z.pow_add_r by lia. change (2 ^ 1) with 2. pose proof (lowest_below x t n Hlow Hn) as He.
  assert (H0 : 0 < 2 ^ n) by lia. unfold feeds. split.
  - intros (H1 & H2 & l & Hl & H3). destruct (decide (y = x - 2 ^ n)) as [->|Hne]; [by left|right].
    split; [|split; [done|by exists l]]. destruct (Z.lt_ge_cases (x - 2 ^ n) y); [lia|].
    destruct (lowest_within _ _ _ _ He Hl) as [_ H4]; lia.
  - intros [->|(H1 & H2 & l & Hl & H3)]; (split; [lia|]); (split; [done|]).
    + exists n. split; [done|lia].
    + by exists l.
Qed.

Lemma loop_children (n : nat) ret : Z.of_nat n <= t ->
  exists c, for_each (rev (seqZ 0 (Z.of_nat n))) body (x - 2 ^ Z.of_nat n, ret) = Ok (x - 1, ret ++ c) /\
    lists_feeds k x (x - 2 ^ Z.of_nat n) c.
Proof.
  revert ret. induction n as [|n IH]; intros ret Hn.
  - exists []. rewrite app_nil_r. split; [done|]. split; [constructor|]. intros z. rewrite elem_of_nil. unfold feeds. split; [done|].
    change (Z.of_nat 0) with 0. lia.
  - assert (Hs : seqZ 0 (Z.of_nat (S n)) = seqZ 0 (Z.of_nat n) ++ [Z.of_nat n]).
    { replace (Z.of_nat (S n)) with (Z.of_nat n + 1) by lia. rewrite seqZ_app by lia. done. }
    rewrite Hs, rev_app_distr. cbn [rev app for_each]. replace (Z.of_nat (S n)) with (Z.of_nat n + 1) by lia.
    set (m := Z.of_nat n) in *. assert (Hm : 0 <= m < t) by lia.
    assert (Hb : body m (x - 2 ^ (m + 1), ret) = if x - 2 ^ m <=? k then Ok (x - 2 ^ m, ret ++ [x - 2 ^ m - 1])
      else temp ← children (x - 2 ^ m - 1); Ok (x - 2 ^ m, ret ++ temp)).
    { unfold body. rewrite Z.shiftl_1_l. replace (x - 2 ^ (m + 1) + 2 ^ m) with (x - 2 ^ m) by (rewrite Z.pow_add_r by lia; lia). done. }
    rewrite Hb.
    destruct (Z.leb_spec (x - 2 ^ m) k) as [Hk|Hk].
    + rewrite bind_ok. destruct (IH (ret ++ [x - 2 ^ m - 1])) as (c & E & Hnd & Hc); [lia|]. fold body.
      exists (x - 2 ^ m - 1 :: c). split; [by rewrite E, <- app_assoc|]. split.
      * constructor; [|done]. rewrite Hc. unfold feeds. lia.
      * intros z. rewrite elem_of_cons, Hc, child_alone by done. split; (intros [H|H]; [left; lia|by right]).
    + pose proof (lowest_below x t m Hlow Hm) as He. assert (Hpos : 0 < x - 2 ^ m).
      { pose proof range_pos. assert (2 ^ m < 2 ^ t) by (apply Z.pow_lt_mono_r; lia). lia. }
      destruct (Hrec (x - 2 ^ m) m He Hpos ltac:(lia)) as (c1 & E1 & Hc1). rewrite E1, !bind_ok.
      destruct (IH (ret ++ c1)) as (c & E & Hnd & Hc); [lia|]. fold body.
      exists (c1 ++ c). split; [by rewrite E, <- app_assoc|]. split.
      * apply NoDup_app. split_and!; [apply Hc1| |done]. intros z Hz. rewrite (proj2 Hc1) in Hz. rewrite Hc. unfold feeds in *. lia.
      * intros z. rewrite elem_of_app, Hc, (child_range m c1) by done. by rewrite Z.add_simpl_r.
Qed.
End loop.

Lemma children_fuel_ok fuel k x t : 0 < x -> lowest x t -> t < Z.of_nat fuel -> t <= Z.of_nat INT_BITS ->
  exists c, getChildrenIndices_fuel fuel (x - 1) k = Ok c /\ lists_feeds k x (x - 2 ^ t) c.
Proof.
  revert x t. induction fuel as [|f IH]; intros x t Hx Hlow Hf Hb; [pose proof (proj1 Hlow); lia|].
  cbn [getChildrenIndices_fuel]. rewrite Z.sub_add. pose proof (proj1 Hlow) as Ht.
  rewrite (last_one_ok INT_BITS x t 0), bind_ok by (done || lia).
  assert (Hs : Z.shiftl (Z.shiftr x t - 1) t = x - 2 ^ t).
  { rewrite Z.shiftl_mul_pow2, Z.shiftr_div_pow2 by done. destruct Hlow as (_ & q & ->). rewrite Z.div_mul by lia. ring. }
  rewrite Hs. destruct (loop_children k x t Hx Hlow (fun i => getChildrenIndices_fuel f i k)) with (n := Z.to_nat t) (ret := @nil Z) as (c & E & Hc).
  - intros e l He Hpos Hl. apply IH; (done || lia).
  - lia.
  - rewrite Z2Nat.id in E, Hc by done. exists c. split; [|exact Hc].
    exact (f_equal (fun m => r ← m; Ok r.2) E).
Qed.

(** ** The place of the requestor *)

Lemma getID_loop_ok fuel y l T : 0 < y -> lowest y l -> y <= 2 ^ T -> 0 <= T -> T - l <= Z.of_nat fuel ->
  exists t, 0 <= t <= T /\ getID_loop fuel y = Ok (2 ^ t) /\ y <= 2 ^ t.
Proof.
  revert y l. induction fuel as [|f IH]; intros y l Hy Hl HT H0 Hf; cbn [getID_loop]; rewrite (land_pred y l Hl).
  - assert (Hlow := Hl). destruct Hl as (Hl & q & E). assert (H2 : 2 ^ T <= 2 ^ l) by (apply Z.pow_le_mono_r; lia).
    assert (0 < 2 ^ l) by lia. assert (q = 0) by nia. subst q. rewrite E. rewrite (proj2 (Z.eqb_eq _ 0)) by lia. cbn [negb].
    exists l. split_and!; [lia|destruct (Z.le_gt_cases l T); [done|]; assert (2 ^ T < 2 ^ l) by (apply Z.pow_lt_mono_r; lia); lia|f_equal; lia|lia].
  - destruct (Z.eqb_spec (y - 2 ^ l) 0) as [E|E]; cbn [negb].
    + exists l. pose proof (proj1 Hl). split_and!; [done| |f_equal; lia|lia].
      destruct (Z.le_gt_cases l T); [done|]. assert (2 ^ T < 2 ^ l) by (apply Z.pow_lt_mono_r; lia). lia.
    + rewrite (land_lowest y l Hl). assert (Hpos : 0 < 2 ^ l) by (pose proof (proj1 Hl); lia).
      destruct (lowest_exists (y + 2 ^ l)) as (l' & Hl'); [lia|].
      assert (HT0 : lowest (2 ^ T) T) by (split; [done|exists 0; lia]).
      assert (Hlt : y < 2 ^ T).
      { destruct (Z.eq_dec y (2 ^ T)) as [->|]; [|lia]. rewrite (lowest_inj (2 ^ T) l T) in E by done. lia. }
      destruct (lowest_within _ _ _ _ HT0 Hl) as [HlT Hle]; [lia|].
      pose proof (lowest_carry y l l' Hl Hl') as Hll.
      destruct (IH (y + 2 ^ l) l') as (t & Ht & E2 & Hle2); try (exact Hl' || lia). exists t. split_and!; [lia|lia|exact E2|lia].
Qed.

Lemma getID_ok k : 0 <= k < 2 ^ 30 -> exists t, 0 <= t <= 30 /\ getID k = Ok (2 ^ t - 1) /\ k < 2 ^ t.
Proof.
  intros Hk. destruct (lowest_exists (k + 1)) as (l & Hl); [lia|].
  destruct (getID_loop_ok INT_BITS (k + 1) l 30) as (t & Ht & E & Hle); try (done || lia).
  - pose proof (proj1 Hl). unfold INT_BITS. lia.
  - exists t. split; [done|]. unfold getID. rewrite E, bind_ok. split; [done|lia].
Qed.

(** ** The tree *)

(** The children of a node, as [puller] finds them; the requestor is node [ecK]. *)
Definition children (_id _ecK : Z) : res (list Z) :=
  if _id <? _ecK then getChildrenIndices _id _ecK else id ← getID _id; getChildrenIndices id _ecK.

(** Who pulls from the helper [id]: the requestor when there is no such helper. *)
Definition parent (id ecK : Z) : Z := if PPRnextIP id >=? ecK then ecK else PPRnextIP id.

Lemma nextIP_lowest z l : lowest (z + 1) l -> PPRnextIP z = z + 2 ^ l.
Proof. intros H. unfold PPRnextIP. rewrite (land_lowest _ l H). lia. Qed.

Lemma children_parent k x : 0 <= x <= k -> 0 < k < 2 ^ 30 ->
  exists c, children x k = Ok c /\ NoDup c /\ forall z, z ∈ c <-> 0 <= z < k /\ parent z k = x.
Proof.
  intros Hx Hk. assert (Hlow : forall z, 0 <= z -> exists l, lowest (z + 1) l /\ 0 < 2 ^ l /\ PPRnextIP z = z + 2 ^ l).
  { intros z Hz. destruct (lowest_exists (z + 1)) as [l Hl]; [lia|]. exists l. split; [done|]. split; [pose proof (proj1 Hl); lia|by apply nextIP_lowest]. }
  unfold children, getChildrenIndices. destruct (Z.ltb_spec x k) as [Hlt|Hge].
  - destruct (lowest_exists (x + 1)) as [t Ht]; [lia|]. pose proof Ht as (H0 & q & Eq).
    assert (Ht30 : t <= 30).
    { destruct (Z.le_gt_cases t 30); [done|]. assert (2 ^ 30 < 2 ^ t) by (apply Z.pow_lt_mono_r; lia). assert (0 <= q) by nia. nia. }
    destruct (children_fuel_ok INT_BITS k (x + 1) t) as (c & E & Hn & Hc); [lia|done|unfold INT_BITS; lia..|].
    rewrite Z.add_simpl_r in E. exists c. split; [done|]. split; [done|]. intros z. rewrite Hc. unfold feeds, parent. split.
    + intros (H1 & H2 & l & Hl & H3). assert (0 < 2 ^ t) by lia. assert (2 ^ t <= x + 1) by (assert (0 <= q) by nia; nia).
      rewrite (nextIP_lowest z l Hl). destruct (lowest_within _ _ _ _ Ht Hl); [lia|]. split; [lia|].
      destruct (Z.geb_spec (z + 2 ^ l) k); lia.
    + intros (Hz & Hp). destruct (Hlow z) as (l & Hl & Hpos & E2); [lia|]. rewrite E2 in Hp.
      destruct (Z.geb_spec (z + 2 ^ l) k); [lia|]. assert (El : z + 1 + 2 ^ l = x + 1) by lia.
      assert (Hlt2 : l < t) by (apply (lowest_carry (z + 1) l t Hl); by rewrite El).
      assert (2 ^ l < 2 ^ t) by (apply Z.pow_lt_mono_r; lia). split; [lia|]. split; [lia|]. exists l. split; [done|]. lia.
  - assert (x = k) by lia. subst x. destruct (getID_ok k) as (t & Ht & -> & Hkt); [lia|]. rewrite bind_ok.
    assert (HT : lowest (2 ^ t) t) by (split; [lia|exists 0; lia]).
    destruct (children_fuel_ok INT_BITS k (2 ^ t) t) as (c & E & Hn & Hc); [lia|done|unfold INT_BITS; lia..|].
    exists c. split; [done|]. split; [done|]. intros z. rewrite Hc. unfold feeds, parent. rewrite Z.sub_diag. split.
    + intros (H1 & H2 & l & Hl & H3). rewrite (nextIP_lowest z l Hl). split; [lia|]. destruct (Z.geb_spec (z + 2 ^ l) k); lia.
    + intros (Hz & Hp). destruct (Hlow z) as (l & Hl & Hpos & E2); [lia|]. rewrite E2 in Hp.
      split; [lia|]. split; [lia|]. exists l. split; [done|]. destruct (Z.geb_spec (z + 2 ^ l) k); lia.
Qed.

Lemma parent_above z k : 0 <= z < k -> z < parent z k <= k.
Proof.
  intros Hz. destruct (lowest_exists (z + 1)) as [l Hl]; [lia|]. unfold parent. rewrite (nextIP_lowest z l Hl).
  pose proof (proj1 Hl). assert (0 < 2 ^ l) by lia. destruct (Z.geb_spec (z + 2 ^ l) k); lia.
Qed.

(** The children, counted by [nat]. *)
Definition kids (k x : nat) : list nat :=
  match children (Z.of_nat x) (Z.of_nat k) with Ok c => Z.to_nat <$> c | Fault _ => [] end.

Section kids.
Context (k : nat) (Hk : (0 < k)%nat) (Hb : Z.of_nat k < 2 ^ 30).

Definition up (c : nat) : nat := Z.to_nat (parent (Z.of_nat c) (Z.of_nat k)).

Lemma kids_ok x : (x <= k)%nat ->
  children (Z.of_nat x) (Z.of_nat k) = Ok (Z.of_nat <$> kids k x) /\ NoDup (kids k x) /\
  forall c, c ∈ kids k x <-> (c < k)%nat /\ up c = x.
Proof.
  intros Hx. destruct (children_parent (Z.of_nat k) (Z.of_nat x)) as (c & E & Hn & Hc); [lia..|].
  unfold kids. rewrite E. split.
  - f_equal. rewrite <- list_fmap_compose. symmetry. rewrite <- (list_fmap_id c) at 2. apply list_fmap_ext. intros i z Hz.
    apply list_elem_of_lookup_2 in Hz. rewrite Hc in Hz. cbn. lia.
  - split.
    + apply NoDup_fmap_2_strong; [|done]. intros a b Ha Hb'. rewrite Hc in Ha, Hb'. lia.
    + intros n. rewrite list_elem_of_fmap. unfold up. split.
      * intros (z & -> & Hz). rewrite Hc in Hz. rewrite Z2Nat.id by lia. split; [lia|]. destruct Hz as [_ ->]. lia.
      * intros [Hn2 Hu]. exists (Z.of_nat n). split; [lia|]. rewrite Hc. split; [lia|].
        pose proof (parent_above (Z.of_nat n) (Z.of_nat k)). lia.
Qed.

Lemma up_above c : (c < k)%nat -> (c < up c <= k)%nat.
Proof. intros. unfold up. pose proof (parent_above (Z.of_nat c) (Z.of_nat k)). lia. Qed.

Lemma kids_below x c : (x <= k)%nat -> c ∈ kids k x -> (c < x)%nat /\ (c < k)%nat.
Proof. intros Hx [Hc <-]%(kids_ok x Hx). pose proof (up_above c Hc). lia. Qed.

(** Every helper is the child of exactly one node. *)
Lemma kids_all : seq 0 (S k) ≫= kids k ≡ₚ seq 0 k.
Proof.
  apply NoDup_Permutation.
  - apply NoDup_bind; [|intros x Hx|apply NoDup_seq].
    + intros x y c Hx Hy H1 H2. apply elem_of_seq in Hx, Hy. rewrite (proj2 (proj2 (kids_ok x ltac:(lia)))) in H1.
      rewrite (proj2 (proj2 (kids_ok y ltac:(lia)))) in H2. lia.
    + apply elem_of_seq in Hx. by apply kids_ok; lia.
  - apply NoDup_seq.
  - intros c. rewrite list_elem_of_bind, elem_of_seq. split.
    + intros (x & Hc & Hx). apply elem_of_seq in Hx. apply kids_ok in Hc; lia.
    + intros Hc. exists (up c). pose proof (up_above c ltac:(lia)). rewrite elem_of_seq. split; [|lia].
      apply kids_ok; [lia|]. split; [lia|done].
Qed.
End kids.

(** The tree of a PPR repair: for up to 2^30 helpers, every node computes
    its children without a fault and each once, and a node [x] pulls from the
    helper [z] exactly if [x] is where [z] sends to: [PPRnextIP z], or the
    requestor if there is no such helper.  Every helper is pulled from by
    exactly one node, of a larger index. *)
Theorem ppr_tree k x : 0 <= x <= k -> 0 < k < 2 ^ 30 ->
  (exists c, children x k = Ok c /\ NoDup c /\ forall z, z ∈ c <-> 0 <= z < k /\ parent z k = x) /\
  forall z, 0 <= z < k -> z < parent z k <= k.
Proof. intros Hx Hk. split; [by apply children_parent|intros z; apply parent_above]. Qed.

(** Ten helpers; the requestor pulls from the last of 8, of 2 and so on. *)
Lemma ppr_tree_witness : children 10 10 = Ok [7; 9] /\ children 7 10 = Ok [3; 5; 6] /\ parent 6 10 = 7 /\ parent 8 10 = 9 /\ parent 9 10 = 10.
Proof.
  destruct (ppr_tree 10 10 ltac:(lia) ltac:(lia)) as [(c & E & _ & Hc) _].
  assert (E2 : c = [7; 9]) by (assert (E2 : children 10 10 = Ok [7; 9]) by (vm_compute; reflexivity); congruence). subst c.
  split; [exact E|]. split; [vm_compute; reflexivity|]. split; [vm_compute; reflexivity|]. split; [vm_compute; reflexivity|].
  apply (Hc 9). right. left.
Defined.
