(* ===== verification/PPRRepair.v ===== *)
(** * Partial parallel repair (PPRPullDRWorker.cc)

    The helpers and the requestor of a PPR repair as threads over the Redis
    servers.  A node runs [readWorker], which reads and multiplies its packets,
    one [readThread] per child (or the loop of [puller] when it has none), which
    adds the packets of the child, and the loop of [doProcess], which sends a
    packet once all the children have been added.  The tree is that of
    PPRTree.v.  As for the pipeline, this file has the iterations, each from the
    test of its wait on, where the packets are added under [_readThreadMtx]; the
    waits for the tests are in PPRWait.v. *)
From Stdlib Require Import Ascii.
From stdpp Require Import strings relations.
From S2P Require Import Prelude Command Text Config Galois GF256 Jerasure Gauss Vandermonde ReedSol Encode RSUtil Disk Coordinator Packet DrCmd PipeRepair PPRTree.

(** ** The command *)

Record ppr_cmd := mkPprCmd {
  pp_ecK : Z;
  pp_id : Z;
  pp_holderIps : list Z;
  pp_coefficient : Z;
  pp_lost : str;
  pp_local : str
}.

(** The parser of [doProcess]; the requestor, whose index is [ecK], has no
    block of its own. *)
Definition parse_ppr_cmd (cmd : list Z) : res ppr_cmd :=
  _ecK ← read_int cmd 0;
  _id ← read_int cmd 4;
  guard_or Undef (0 <? _ecK + 1);;
  let n := Z.to_nat (_ecK + 1) in
  holderIps ← for_each (seq 0 n) (fun j ips => ip ← read_uint cmd (8 + 4 * j); Ok (ips ++ [ip])) [];
  lostBlkNameLen ← read_uint cmd (8 + 4 * n);
  let _coefficient := Z.shiftr lostBlkNameLen 16 in
  let lostBlkNameLen := Z.to_nat (Z.land lostBlkNameLen 0xffff) in
  lostBlkName ← read_str cmd (12 + 4 * n) lostBlkNameLen;
  localBlkName ←
    (if negb (_ecK =? _id) then
       localBlkNameLen ← read_uint cmd (12 + 4 * n + lostBlkNameLen);
       read_str cmd (16 + 4 * n + lostBlkNameLen) (Z.to_nat localBlkNameLen)
     else Ok []);
  Ok (mkPprCmd _ecK _id holderIps _coefficient lostBlkName localBlkName).

(** [tmp:%s:%d] *)
Definition pprKey (lostBlkName : str) (id : Z) : str := lit "tmp:" ++ lostBlkName ++ lit ":" ++ to_string id.

(** ** A node *)

(** What a node fixes when it takes a command: the block file, if it can be
    opened, the children with the connections to them, and the connection its
    own packets are pushed over. *)
Record qnode := mkQNode {
  q_cmd : ppr_cmd;
  q_file : option (list Z);
  q_ctxes : list (Z * option Z);
  q_wrtCtx : option Z
}.

(** The members the threads share, and the counter of the loop of each thread;
    without children the loop of [puller] is the one thread that pulls. *)
Record qworker := mkQWorker {
  q_diskPkts : list (list Z);
  q_waitingToPull : nat;
  q_waitingToSend : nat;
  _indicesWaiting : list nat;
  q_read : nat;
  q_pulled : list nat;
  q_sent : nat
}.

#[export] Instance qnode_inhabited : Inhabited qnode := populate (mkQNode (mkPprCmd 0 0 [] 0 [] []) None [] None).

Section workers.
Context `{GF : GFComplete} `{DIO : DiskIO} (conf : Config).
Abbreviation cnt := (_packetCnt conf).
Abbreviation size := (_packetSize conf).

(** A command taken by the node at [_localIP].  The block is opened in the block
    directory itself, not in its subdirectories. *)
Definition ppr_accept (_localIP : Z) (dir : blkdir) (cmd : list Z) : res qnode :=
  c ← parse_ppr_cmd cmd;
  kids ← children (pp_id c) (pp_ecK c);
  ctxes ← for_each kids (fun it ctxes =>
    x ← (if negb (pp_id c =? pp_ecK c) then ip ← vec (pp_holderIps c) it; findCtx (slavesCtx (_helpersIPs conf)) ip else Ok (Some _localIP));
    Ok (ctxes ++ [(it, x)])) [];
  wrtCtx ← (if PPRnextIP (pp_id c) >=? pp_ecK c
            then ip ← vec (pp_holderIps c) (pp_ecK c); findCtx (slavesCtx (_helpersIPs conf)) ip else Ok (Some _localIP));
  Ok (mkQNode c (dir !! pp_local c) ctxes wrtCtx).

(** The node when its threads start. *)
Definition ppr_start (n : qnode) : qworker :=
  mkQWorker (replicate cnt (zeros size)) 0 0 (replicate (length (q_ctxes n)) 0%nat) 0 (replicate (Nat.max 1 (length (q_ctxes n))) 0%nat) 0.

(** One iteration of [readWorker]: a requestor has nothing to read; the packet
    [pktId] is read from [pktId * _packetSize] on, without [_packetSkipSize]. *)
Definition ppr_read (n : qnode) (w : qworker) : res qworker :=
  let i := q_read w in
  guard_or Blocked (i <? cnt)%nat;;
  pkts ←
    (if bool_decide (pp_local (q_cmd n) = []) then Ok (q_diskPkts w) else
     file ← res_of_option (Exit 1) (q_file n);
     pkt ← res_of_option Undef (q_diskPkts w !! i);
     guard_or (Exit 1) (bool_decide (is_s32 (Z.of_nat (i * size))));;
     pkt ← readPacketFromDisk file pkt size (i * size);
     Ok (<[i := multiply pkt (pp_coefficient (q_cmd n))]> (q_diskPkts w)));
  _ ← pktOutput i cnt;
  Ok (mkQWorker pkts (S (q_waitingToPull w)) (q_waitingToSend w) (_indicesWaiting w) (S i) (q_pulled w) (q_sent w)).

(** The least counter, at most [_packetCnt]. *)
Definition minNum (counters : list nat) : nat := foldl Nat.min cnt counters.

(** One iteration of the thread [num] of [puller]: of its own loop when there
    are no children, of [readThread] for the child [num] otherwise; the wait for
    [_waitingToPull] is [ppr_wait_on], [ppr_test] of PPRWait.v. *)
Definition ppr_pull (num : nat) (n : qnode) (w : qworker) (r : redis) : res (qworker * redis) :=
  i ← res_of_option Blocked (q_pulled w !! num);
  guard_or Blocked (i <? cnt)%nat;;
  guard_or Blocked (i <? q_waitingToPull w)%nat;;
  let pulled := <[num := S i]> (q_pulled w) in
  if bool_decide (q_ctxes n = []) then
    Ok (mkQWorker (q_diskPkts w) (q_waitingToPull w) (S (q_waitingToSend w)) (_indicesWaiting w) (q_read w) pulled (q_sent w), r)
  else
    child ← res_of_option Undef (q_ctxes n !! num);
    ctx ← res_of_option Undef child.2;
    '(str, r) ← res_of_option Blocked (BLPOP ctx (pprKey (pp_lost (q_cmd n)) child.1) r);
    pkt ← res_of_option Undef (q_diskPkts w !! i);
    pkt ← XORBuffers pkt str size;
    let indicesWaiting := alter S num (_indicesWaiting w) in
    let m := minNum indicesWaiting in
    let waitingToSend := if (q_waitingToSend w <? m)%nat then m else q_waitingToSend w in
    Ok (mkQWorker (<[i := pkt]> (q_diskPkts w)) (q_waitingToPull w) waitingToSend indicesWaiting (q_read w) pulled (q_sent w), r).

(** The list the packets go to: the one of the lost block for the requestor. *)
Definition pprSendKey (c : ppr_cmd) : str :=
  if pp_id c =? pp_ecK c then pp_lost c else pprKey (pp_lost c) (pp_id c).

(** One iteration of the loop of [doProcess]; the wait for [_waitingToSend] is
    [ppr_wait_on], [ppr_test] of PPRWait.v. *)
Definition ppr_send (n : qnode) (w : qworker) (r : redis) : res (qworker * redis) :=
  let i := q_sent w in
  guard_or Blocked (i <? cnt)%nat;;
  guard_or Blocked (i <? q_waitingToSend w)%nat;;
  pkt ← res_of_option Undef (q_diskPkts w !! i);
  wrtCtx ← res_of_option Undef (q_wrtCtx n);
  _ ← pktOutput i cnt;
  Ok (mkQWorker (q_diskPkts w) (q_waitingToPull w) (q_waitingToSend w) (_indicesWaiting w) (q_read w) (q_pulled w) (S i),
      RPUSH wrtCtx (pprSendKey (q_cmd n)) (take size pkt) r).

(** ** The system *)

Inductive qthread := QRead | QPull (num : nat) | QSend.

Definition run_qthread (t : qthread) (n : qnode) (w : qworker) (r : redis) : res (qworker * redis) :=
  match t with
  | QRead => w ← ppr_read n w; Ok (w, r)
  | QPull num => ppr_pull num n w r
  | QSend => ppr_send n w r
  end.

Record qstate := mkQState { qworkers : list qworker; qservers : redis; qcollected : list (list Z) }.

Inductive qstep (ns : list qnode) (fetchIP : Z) (lostFile : str) : qstate -> qstate -> Prop :=
  | qstep_thread st x t n w w' r :
      ns !! x = Some n -> qworkers st !! x = Some w -> run_qthread t n w (qservers st) = Ok (w', r) ->
      qstep ns fetchIP lostFile st (mkQState (<[x := w']> (qworkers st)) r (qcollected st))
  | qstep_collect st out r :
      collect conf fetchIP lostFile (qcollected st) (qservers st) = Ok (out, r) ->
      qstep ns fetchIP lostFile st (mkQState (qworkers st) r out).

(** A thread that would do something other than step or wait. *)
Definition qcrash (ns : list qnode) (fetchIP : Z) (lostFile : str) (st : qstate) : Prop :=
  (exists x t n w e, ns !! x = Some n /\ qworkers st !! x = Some w /\
     run_qthread t n w (qservers st) = Fault e /\ e <> Blocked) \/
  exists e, collect conf fetchIP lostFile (qcollected st) (qservers st) = Fault e /\ e <> Blocked.
End workers.

#[export] Instance qworker_inhabited : Inhabited qworker := populate (mkQWorker [] 0 0 [] 0 [] 0).

(** ** The keys *)

Lemma to_string_inj (a b : nat) : Z.of_nat a < 10 ^ 20 -> Z.of_nat b < 10 ^ 20 -> to_string (Z.of_nat a) = to_string (Z.of_nat b) -> a = b.
Proof.
  intros Ha Hb E. assert (E2 : number (to_string (Z.of_nat a)) = number (to_string (Z.of_nat b))) by by rewrite E.
  rewrite !number_to_string in E2 by lia. injection E2. lia.
Qed.

Lemma pprKey_inj lost (a b : nat) : Z.of_nat a < 10 ^ 20 -> Z.of_nat b < 10 ^ 20 -> pprKey lost (Z.of_nat a) = pprKey lost (Z.of_nat b) -> a = b.
Proof. intros Ha Hb E. unfold pprKey in E. apply to_string_inj; [done..|]. by repeat apply app_inv_head in E. Qed.

Lemma pprKey_lost lost id : pprKey lost id <> lost.
Proof. intros E. apply (f_equal length) in E. unfold pprKey in E. rewrite !length_app in E. simpl in E. lia. Qed.

(** ** The repair and its progress *)

Section progress.
Context `{GF : GFComplete} {GL : GF8Laws} `{DL : DiskLaws} (conf : Config) (Hpo : packets_ok conf).
Context (ns : list qnode) (k : nat) (lost : str) (loc : nat -> Z).
Abbreviation cnt := (_packetCnt conf).
Abbreviation size := (_packetSize conf).

(** A block file with all the packets a PPR node reads. *)
Definition whole_file (b : list Z) : Prop := (cnt * size <= length b)%nat /\ Forall is_byte b.

(** The [k] helpers and the requestor behind them: every node has the
    connections to its children, and [loc x] is the server [x] pushes to. *)
Record ppr_nodes : Prop := {
  pn_some : (0 < k)%nat /\ Z.of_nat k < 2 ^ 30;
  pn_len : length ns = S k;
  pn_cmd x n : ns !! x = Some n -> pp_ecK (q_cmd n) = Z.of_nat k /\ pp_id (q_cmd n) = Z.of_nat x /\ pp_lost (q_cmd n) = lost;
  pn_ctxes x n : ns !! x = Some n -> q_ctxes n = (fun c => (Z.of_nat c, Some (loc c))) <$> kids k x;
  pn_wrt x n : ns !! x = Some n -> q_wrtCtx n = Some (loc x);
  pn_helper x n : ns !! x = Some n -> (x < k)%nat -> pp_local (q_cmd n) <> [] /\ is_byte (pp_coefficient (q_cmd n)) /\
    exists b, q_file n = Some b /\ whole_file b;
  pn_requestor n : ns !! k = Some n -> pp_local (q_cmd n) = []
}.
Context (Hpn : ppr_nodes).

Definition qcoef_at (x : nat) : Z := pp_coefficient (q_cmd (ns !!! x)).
Definition qblk_at (x : nat) : list Z := default [] (q_file (ns !!! x)).

(** What a node reads; the requestor has zeros. *)
Definition qown (x i : nat) : list Z :=
  if decide (x < k)%nat then multiply (take size (drop (i * size) (qblk_at x))) (qcoef_at x) else zeros size.

(** The sum of a node and all below it. *)
Fixpoint qsub_fuel (fuel x i : nat) : list Z :=
  match fuel with
  | O => []
  | S f => (fun q => Z.lxor (qown x i !!! q) (xsum (length (kids k x)) (fun j => qsub_fuel f (kids k x !!! j) i !!! q))) <$> seq 0 size
  end.
Definition qsub (x i : nat) : list Z := qsub_fuel (S x) x i.

Lemma kid_at x j c : (x <= k)%nat -> kids k x !! j = Some c -> (c < x)%nat /\ (c < k)%nat /\ up k c = x.
Proof.
  intros Hx Hj. apply list_elem_of_lookup_2 in Hj. pose proof (pn_some Hpn) as [H1 H2].
  destruct (kids_below k H1 H2 x c Hx Hj). split_and!; [done..|]. by apply (proj2 (proj2 (kids_ok k H1 H2 x Hx))) in Hj as [_ ?].
Qed.

Lemma qsub_fuel_enough f x i : (x <= k)%nat -> (x < f)%nat -> qsub_fuel f x i = qsub x i.
Proof.
  assert (Hf : forall f1 f2 x, (x <= k)%nat -> (x < f1)%nat -> (x < f2)%nat -> qsub_fuel f1 x i = qsub_fuel f2 x i).
  2: { intros. apply Hf; lia. }
  clear f x. induction f1 as [|f1 IH]; intros f2 x Hx H1 H2; [lia|]. destruct f2 as [|f2]; [lia|]. cbn [qsub_fuel].
  apply list_fmap_ext. intros _ q _. f_equal. apply xsum_ext. intros j Hj.
  destruct (kid_at x j (kids k x !!! j) Hx) as (Hlt & _ & _); [by apply list_lookup_lookup_total_lt|].
  f_equal. apply IH; lia.
Qed.

Lemma length_qsub x i : length (qsub x i) = size.
Proof. unfold qsub. cbn [qsub_fuel]. by rewrite length_fmap, length_seq. Qed.

(** The sum, byte by byte. *)
Lemma qsub_lookup x i q : (x <= k)%nat -> (q < size)%nat ->
  qsub x i !!! q = Z.lxor (qown x i !!! q) (xsum (length (kids k x)) (fun j => qsub (kids k x !!! j) i !!! q)).
Proof.
  intros Hx Hq. unfold qsub at 1. cbn [qsub_fuel]. rewrite fmap_seq_lookup_total by done. f_equal. apply xsum_ext. intros j Hj.
  destruct (kid_at x j (kids k x !!! j) Hx) as (Hlt & _ & _); [by apply list_lookup_lookup_total_lt|].
  f_equal. apply qsub_fuel_enough; lia.
Qed.

(** The list of the node [x]. *)
Definition qkey (x : nat) : Z * str := (loc x, if decide (x = k) then lost else pprKey lost (Z.of_nat x)).

Lemma qkey_inj x y : (x <= k)%nat -> (y <= k)%nat -> qkey x = qkey y -> x = y.
Proof.
  intros Hx Hy E. apply (f_equal snd) in E. unfold qkey in E. cbn [snd] in E. destruct (pn_some Hpn) as [_ Hk].
  repeat case_decide; subst; try done.
  - symmetry in E. by apply pprKey_lost in E.
  - by apply pprKey_lost in E.
  - apply pprKey_inj in E; lia.
Qed.

(** How many packets of [c] have been taken by the node above it, or by the client. *)
Definition pos (c : nat) : nat := default 0%nat (fst <$> list_find (fun c' => c' = c) (kids k (up k c))).
Definition qtaken (st : qstate) (c : nat) : nat :=
  if decide (c = k) then length (qcollected st) else q_pulled (qworkers st !!! up k c) !!! pos c.

Lemma pos_kid x j c : (x <= k)%nat -> kids k x !! j = Some c -> pos c = j.
Proof.
  intros Hx Hj. destruct (kid_at x j c Hx Hj) as (_ & _ & Hu). unfold pos. rewrite Hu.
  destruct (pn_some Hpn) as [H1 H2]. destruct (kids_ok k H1 H2 x Hx) as (_ & Hn & _).
  assert (E : list_find (fun c' => c' = c) (kids k x) = Some (j, c)); [|by rewrite E].
  apply list_find_Some. split_and!; [done..|]. intros j' c' Hj' Hlt ->. pose proof (NoDup_lookup _ _ _ _ Hn Hj Hj'). lia.
Qed.

Record qworker_at (x : nat) (w : qworker) : Prop := {
  qw_threads : length (q_pulled w) = Nat.max 1 (length (kids k x));
  qw_order j t : q_pulled w !! j = Some t -> (q_sent w <= t <= q_read w)%nat;
  qw_read : (q_read w <= cnt)%nat;
  qw_toPull : q_waitingToPull w = q_read w;
  qw_toSend : q_waitingToSend w = minNum conf (q_pulled w);
  qw_indices : kids k x <> [] -> _indicesWaiting w = q_pulled w;
  qw_pkts i : (i < cnt)%nat -> exists p, q_diskPkts w !! i = Some p /\ length p = size /\
    forall q, (q < size)%nat -> p !!! q = Z.lxor (if decide (i < q_read w)%nat then qown x i !!! q else 0)
      (xsum (length (kids k x)) (fun j => if decide (i < q_pulled w !!! j)%nat then qsub (kids k x !!! j) i !!! q else 0))
}.

Definition queue_ok (r : redis) (c t s : nat) : Prop :=
  (t <= s)%nat /\ waiting_in r (qkey c).1 (qkey c).2 = qsub c <$> seq t (s - t).

Record qprogress (st : qstate) : Prop := {
  qp_len : length (qworkers st) = S k;
  qp_worker x w : qworkers st !! x = Some w -> qworker_at x w;
  qp_queue c w : qworkers st !! c = Some w -> queue_ok (qservers st) c (qtaken st c) (q_sent w);
  qp_collected : qcollected st = qsub k <$> seq 0 (length (qcollected st))
}.

(** ** Packets of the helpers *)

Lemma qnode_at x : (x <= k)%nat -> exists n, ns !! x = Some n /\ ns !!! x = n.
Proof.
  intros Hx. destruct (lookup_lt_is_Some_2 ns x) as [n Hn]; [rewrite (pn_len Hpn); lia|]. exists n. split; [done|].
  by apply list_lookup_total_correct.
Qed.

Lemma qnode_le x n : ns !! x = Some n -> (x <= k)%nat.
Proof. intros Hn. apply lookup_lt_Some in Hn. rewrite (pn_len Hpn) in Hn. lia. Qed.

Lemma whole_packet b i : whole_file b -> (i < cnt)%nat -> length (take size (drop (i * size) b)) = size /\ Forall is_byte (take size (drop (i * size) b)).
Proof. intros [Hl Hb] Hi. split; [|by apply Forall_take, Forall_drop]. rewrite length_take, length_drop. nia. Qed.

Lemma qown_ok x i : (x < k)%nat -> (i < cnt)%nat ->
  length (qown x i) = size /\ qown x i = (fun b => qcoef_at x ⊗ b) <$> take size (drop (i * size) (qblk_at x)).
Proof.
  intros Hx Hi. destruct (qnode_at x) as (n & Hn & E); [lia|]. destruct (pn_helper Hpn x n Hn Hx) as (_ & Hc & b & Hb & Hf).
  unfold qown, qblk_at, qcoef_at. rewrite E, Hb, decide_True by done. cbn [default from_option id].
  destruct (whole_packet b i Hf Hi) as [Hl Hby]. rewrite multiply_spec by done. by rewrite length_fmap.
Qed.

Lemma length_qown x i : (i < cnt)%nat -> length (qown x i) = size.
Proof.
  intros Hi. destruct (decide (x < k)%nat); [by apply qown_ok|]. unfold qown. rewrite decide_False by done. apply length_replicate.
Qed.

Lemma minNum_lt m l : (m < minNum conf l)%nat <-> (m < cnt)%nat /\ forall t, t ∈ l -> (m < t)%nat.
Proof.
  unfold minNum. generalize cnt. induction l as [|t l IH]; intros c; cbn [foldl].
  - split; [intros; split; [done|]; by intros t ?%not_elem_of_nil|by intros [? _]].
  - rewrite IH. setoid_rewrite elem_of_cons. split.
    + intros [H1 H2]. split; [lia|]. intros t' [->|]; [lia|auto].
    + intros [H1 H2]. split; [|auto]. pose proof (H2 t (or_introl eq_refl)). lia.
Qed.

(** A packet that may be sent is the sum of the node. *)
Lemma sent_packet x w i p : (x <= k)%nat -> qworker_at x w -> (i < minNum conf (q_pulled w))%nat ->
  q_diskPkts w !! i = Some p -> p = qsub x i.
Proof.
  intros Hx Hw Hi Hp. apply minNum_lt in Hi as [Hic Hall]. destruct (qw_pkts _ _ Hw i Hic) as (p' & Hp' & Hl & Hv).
  replace p' with p in * by congruence. apply list_eq_total; [by rewrite length_qsub|]. intros q Hq. rewrite Hl in Hq.
  rewrite Hv, qsub_lookup by done. pose proof (qw_threads _ _ Hw) as Ht.
  assert (Hread : (i < q_read w)%nat).
  { destruct (lookup_lt_is_Some_2 (q_pulled w) 0) as [t H0]; [lia|]. pose proof (qw_order _ _ Hw _ _ H0).
    pose proof (Hall t ltac:(by eapply list_elem_of_lookup_2)). lia. }
  rewrite decide_True by done. f_equal. apply xsum_ext. intros j Hj. rewrite decide_True; [done|].
  apply Hall. apply list_elem_of_lookup_total_2. lia.
Qed.

(** ** One iteration of each thread *)

Lemma qread_runs x n w r : ns !! x = Some n -> qworker_at x w ->
  if decide (q_read w < cnt)%nat
  then exists w', run_qthread conf QRead n w r = Ok (w', r) /\ qworker_at x w' /\
    q_read w' = S (q_read w) /\ q_pulled w' = q_pulled w /\ q_sent w' = q_sent w
  else run_qthread conf QRead n w r = Fault Blocked.
Proof.
  intros Hn Hw. cbn [run_qthread]. unfold ppr_read. set (i := q_read w). case_decide as Hi.
  2: { by rewrite (proj2 (Nat.ltb_ge _ _)) by lia. }
  rewrite (proj2 (Nat.ltb_lt _ _)) by done. cbn [guard_or]. rewrite bind_ok. pose proof (qnode_le x n Hn) as Hx.
  destruct (qw_pkts _ _ Hw i Hi) as (p & Ep & Hlp & Hv).
  assert (Hz : forall q, (q < size)%nat -> p !!! q = 0).
  { intros q Hq. rewrite Hv, decide_False by (done || unfold i; lia). rewrite xsum_zero; [done|]. intros j Hj. rewrite decide_False; [done|].
    destruct (lookup_lt_is_Some_2 (q_pulled w) j) as [t Ht]; [rewrite (qw_threads _ _ Hw); lia|].
    rewrite (list_lookup_total_correct _ _ _ Ht). pose proof (qw_order _ _ Hw _ _ Ht). unfold i. lia. }
  clear Hv. set (pkts' := if decide (x < k)%nat then <[i := qown x i]> (q_diskPkts w) else q_diskPkts w).
  match goal with |- context [if bool_decide (pp_local (q_cmd n) = []) then ?a else ?b] =>
    assert (E : (if bool_decide (pp_local (q_cmd n) = []) then a else b) = Ok pkts') end.
  { unfold pkts'. case_decide as Hxk.
    - destruct (pn_helper Hpn x n Hn Hxk) as (Hl & _ & b & Hb & Hbl & Hby). rewrite bool_decide_false by done.
      pose proof (po_base _ Hpo). rewrite Hb, Ep. cbn [res_of_option]. rewrite !bind_ok, bool_decide_true by (unfold is_s32; nia).
      cbn [guard_or]. rewrite bind_ok, read_packet, bind_ok by (done || nia). do 2 f_equal.
      unfold qown, qblk_at, qcoef_at. by rewrite decide_True, (list_lookup_total_correct _ _ _ Hn), Hb by done.
    - replace x with k in Hn by lia. by rewrite bool_decide_true by exact (pn_requestor Hpn n Hn). }
  rewrite E, bind_ok. destruct (pktOutput_ok conf i Hpo Hi) as [b ->]. rewrite !bind_ok. eexists. split; [done|].
  split; [|done]. destruct Hw as [H1 H2 H3 H4 H5 H6 H7]. split; cbn; try (done || lia).
  - intros j t Hj. pose proof (H2 j t Hj). lia.
  - intros i' Hi'. unfold pkts'. destruct (decide (i' = i)) as [->|Hne].
    + exists (qown x i). assert (Hlo : length (qown x i) = size) by by apply length_qown. split.
      { case_decide; [apply list_lookup_insert_eq; by eapply lookup_lt_Some|]. rewrite Ep. f_equal. apply list_eq_total; [congruence|].
        intros q Hq. rewrite Hz by lia. unfold qown. rewrite decide_False by done. by rewrite lookup_total_zeros by lia. }
      split; [done|]. intros q Hq. rewrite decide_True by (unfold i; lia). rewrite xsum_zero; [by rewrite Z.lxor_0_r|].
      intros j Hj. rewrite decide_False; [done|]. destruct (lookup_lt_is_Some_2 (q_pulled w) j) as [t Ht]; [rewrite H1; lia|].
      rewrite (list_lookup_total_correct _ _ _ Ht). pose proof (H2 _ _ Ht). unfold i. lia.
    + destruct (H7 i' Hi') as (p' & Ep' & Hl' & Hv'). exists p'. split.
      { clear Hv'. case_decide; [|done]. by rewrite list_lookup_insert_ne. }
      split; [done|]. intros q Hq. rewrite Hv' by done. f_equal. apply decide_ext. unfold i in Hne. lia.
Qed.

Lemma qsend_runs x n w r : ns !! x = Some n -> qworker_at x w ->
  if decide (q_sent w < minNum conf (q_pulled w))%nat
  then exists w', run_qthread conf QSend n w r = Ok (w', RPUSH (qkey x).1 (qkey x).2 (qsub x (q_sent w)) r) /\ qworker_at x w' /\
    q_read w' = q_read w /\ q_pulled w' = q_pulled w /\ q_sent w' = S (q_sent w)
  else run_qthread conf QSend n w r = Fault Blocked.
Proof.
  intros Hn Hw. cbn [run_qthread]. unfold ppr_send. set (i := q_sent w). rewrite (qw_toSend _ _ Hw).
  pose proof (qnode_le x n Hn) as Hx. case_decide as Hi.
  - pose proof (proj1 (proj1 (minNum_lt _ _) Hi)) as Hc. rewrite !(proj2 (Nat.ltb_lt _ _)) by done. cbn [guard_or]. rewrite !bind_ok.
    destruct (qw_pkts _ _ Hw i Hc) as (p & Ep & Hlp & _). rewrite Ep. pose proof (sent_packet x w i p Hx Hw Hi Ep) as ->.
    cbn [res_of_option]. rewrite bind_ok, (pn_wrt Hpn x n Hn). cbn [res_of_option]. rewrite bind_ok.
    destruct (pktOutput_ok conf i Hpo Hc) as [b ->]. rewrite bind_ok, take_ge by lia. eexists. split.
    + do 2 f_equal. unfold qkey, pprSendKey. destruct (pn_cmd Hpn x n Hn) as (-> & -> & ->). cbn [fst snd].
      destruct (Z.eqb_spec (Z.of_nat x) (Z.of_nat k)), (decide (x = k)); (done || lia).
    + split; [|done]. destruct Hw as [H1 H2 H3 H4 H5 H6 H7]. split; cbn; try done. intros j t Hj. pose proof (H2 j t Hj).
      apply minNum_lt in Hi as [_ Hall]. pose proof (Hall t ltac:(by eapply list_elem_of_lookup_2)). unfold i in *. lia.
  - destruct (Nat.ltb_spec i cnt); [|done]. cbn [guard_or]. rewrite bind_ok. by rewrite (proj2 (Nat.ltb_ge _ _)) by lia.
Qed.

Lemma qpull_blocked x n w r num : qworker_at x w -> (forall t, q_pulled w !! num = Some t -> ~ (t < q_read w)%nat) ->
  run_qthread conf (QPull num) n w r = Fault Blocked.
Proof.
  intros Hw Hno. cbn [run_qthread]. unfold ppr_pull. destruct (q_pulled w !! num) as [t|] eqn:E; [|done].
  cbn [res_of_option]. rewrite bind_ok, (qw_toPull _ _ Hw). destruct (t <? cnt)%nat; [|done]. cbn [guard_or]. rewrite bind_ok.
  pose proof (Hno t eq_refl). rewrite (proj2 (Nat.ltb_ge t (q_read w))) by lia. reflexivity.
Qed.

(** The counters after one more packet. *)
Lemma order_pulled w x num t j u : qworker_at x w -> q_pulled w !! num = Some t -> (t < q_read w)%nat ->
  <[num := S t]> (q_pulled w) !! j = Some u -> (q_sent w <= u <= q_read w)%nat.
Proof.
  intros Hw Ht Hr Hj. pose proof (qw_order _ _ Hw _ _ Ht). destruct (decide (j = num)) as [->|Hne].
  - rewrite list_lookup_insert_eq in Hj by by eapply lookup_lt_Some. injection Hj as <-. lia.
  - rewrite list_lookup_insert_ne in Hj by done. by apply (qw_order _ _ Hw) in Hj.
Qed.

Lemma minNum_grows w num t : q_pulled w !! num = Some t -> (minNum conf (q_pulled w) <= minNum conf (<[num := S t]> (q_pulled w)))%nat.
Proof.
  intros Ht. destruct (Nat.le_gt_cases (minNum conf (q_pulled w)) (minNum conf (<[num := S t]> (q_pulled w)))) as [|Hlt]; [done|].
  pose proof Hlt as Hlt'. apply minNum_lt in Hlt as [H1 H2]. exfalso. apply (Nat.lt_irrefl (minNum conf (<[num := S t]> (q_pulled w)))).
  apply minNum_lt. split; [done|]. intros u [j Hj]%list_elem_of_lookup. destruct (decide (j = num)) as [->|Hne].
  - rewrite list_lookup_insert_eq in Hj by by eapply lookup_lt_Some. injection Hj as <-.
    pose proof (H2 t ltac:(by eapply list_elem_of_lookup_2)). lia.
  - rewrite list_lookup_insert_ne in Hj by done. apply H2. by eapply list_elem_of_lookup_2.
Qed.

Lemma qpull_leaf x n w r num t : ns !! x = Some n -> qworker_at x w -> kids k x = [] -> q_pulled w !! num = Some t -> (t < q_read w)%nat ->
  exists w', run_qthread conf (QPull num) n w r = Ok (w', r) /\ qworker_at x w' /\
    q_read w' = q_read w /\ q_pulled w' = <[num := S t]> (q_pulled w) /\ q_sent w' = q_sent w.
Proof.
  intros Hn Hw Hk Ht Hr. cbn [run_qthread]. unfold ppr_pull. rewrite Ht. cbn [res_of_option]. pose proof (qw_read _ _ Hw) as Hrc.
  rewrite bind_ok, (qw_toPull _ _ Hw), (proj2 (Nat.ltb_lt t cnt)), (proj2 (Nat.ltb_lt t (q_read w))) by lia. cbn [guard_or]. rewrite !bind_ok.
  rewrite (pn_ctxes Hpn x n Hn), Hk, bool_decide_true by done. eexists. split; [done|]. split; [|done].
  pose proof (fun j u => order_pulled w x num t j u Hw Ht Hr) as Hord. pose proof (qw_threads _ _ Hw) as Hl. rewrite Hk in Hl.
  destruct (q_pulled w) as [|t' [|]] eqn:Eq; [done| |done]. destruct num; [|done]. injection Ht as ->. cbn in Hord.
  pose proof Hw as [H1 H2 H3 H4 H5 H6 H7]. split; cbn; rewrite ?Eq; cbn; try done.
  - by rewrite Hk.
  - rewrite H5, Eq. unfold minNum. cbn. lia.
  - intros i Hi. destruct (H7 i Hi) as (p & Ep & Hlp & Hv). exists p. split_and!; [done..|]. intros q Hq. rewrite Hv by done.
    by rewrite Hk.
Qed.

Lemma xsum_update n (f f' : nat -> Z) j : (j < n)%nat -> f j = 0 -> (forall i, i <> j -> f' i = f i) -> xsum n f' = Z.lxor (xsum n f) (f' j).
Proof.
  intros Hj H0 Hne. set (g := fun i => if decide (i = j) then f' j else 0). transitivity (xsum n (fun i => Z.lxor (f i) (g i))).
  - apply xsum_ext. intros i Hi. unfold g. case_decide as E; [subst; by rewrite H0, Z.lxor_0_l|by rewrite Z.lxor_0_r, Hne].
  - rewrite xsum_lxor, (xsum_single n g j); [unfold g; by rewrite decide_True|done|]. intros i Hi Hi2. unfold g. by rewrite decide_False.
Qed.

Lemma alter_lookup (l : list nat) i t : l !! i = Some t -> alter S i l = <[i := S t]> l.
Proof. revert i. induction l as [|y l IH]; intros [|i] Hi; [done|done|by injection Hi as ->|]. cbn. f_equal. by apply IH. Qed.

(** The packet [t] after the sum of the child [num] has been added. *)
Lemma pulled_packet x w num c t p i : (x <= k)%nat -> qworker_at x w -> kids k x !! num = Some c -> q_pulled w !! num = Some t ->
  (t < q_read w)%nat -> q_diskPkts w !! t = Some p -> (i < cnt)%nat ->
  exists p', <[t := zip_with Z.lxor p (qsub c t)]> (q_diskPkts w) !! i = Some p' /\ length p' = size /\
    forall q, (q < size)%nat -> p' !!! q = Z.lxor (if decide (i < q_read w)%nat then qown x i !!! q else 0)
      (xsum (length (kids k x)) (fun j => if decide (i < <[num := S t]> (q_pulled w) !!! j)%nat then qsub (kids k x !!! j) i !!! q else 0)).
Proof.
  intros Hx Hw Hc Ht Hr Ep Hi. pose proof (qw_read _ _ Hw) as Hrc. pose proof (lookup_lt_Some _ _ _ Hc) as Hnum.
  pose proof (lookup_lt_Some _ _ _ Ht) as Hnum2. pose proof (list_lookup_total_correct _ _ _ Hc) as Ec.
  destruct (decide (i = t)) as [->|Hne].
  - destruct (qw_pkts _ _ Hw t Hi) as (p0 & Ep0 & Hlp & Hv). replace p0 with p in * by congruence.
    eexists. split; [by rewrite list_lookup_insert_eq by by eapply lookup_lt_Some|].
    assert (Hls : length (qsub c t) = size) by apply length_qsub. split; [rewrite length_zip_with; lia|].
    intros q Hq. rewrite zip_with_lookup_total by lia. rewrite Hv, Z.lxor_assoc by done. f_equal. symmetry.
    rewrite (xsum_update _ (fun j => if decide (t < q_pulled w !!! j)%nat then qsub (kids k x !!! j) t !!! q else 0) _ num); [|done|..].
    + f_equal. cbv beta.
      rewrite list_lookup_total_insert_eq by done. by rewrite decide_True, Ec by lia.
    + rewrite (list_lookup_total_correct _ _ _ Ht). by rewrite decide_False by lia.
    + intros j Hj. by rewrite list_lookup_total_insert_ne.
  - destruct (qw_pkts _ _ Hw i Hi) as (p0 & Ep0 & Hlp & Hv). exists p0. split; [by rewrite list_lookup_insert_ne|].
    split; [done|]. intros q Hq. rewrite Hv by done. f_equal. apply xsum_ext. intros j Hj.
    destruct (decide (j = num)) as [->|Hj2]; [|by rewrite list_lookup_total_insert_ne].
    rewrite list_lookup_total_insert_eq, (list_lookup_total_correct _ _ _ Ht) by done. apply decide_ext. lia.
Qed.

Lemma qpull_child x n w r num c t v vs : ns !! x = Some n -> qworker_at x w -> kids k x !! num = Some c ->
  q_pulled w !! num = Some t -> (t < q_read w)%nat -> waiting_in r (qkey c).1 (qkey c).2 = v :: vs -> v = qsub c t ->
  exists w' r', run_qthread conf (QPull num) n w r = Ok (w', r') /\ qworker_at x w' /\
    q_read w' = q_read w /\ q_pulled w' = <[num := S t]> (q_pulled w) /\ q_sent w' = q_sent w /\
    forall ip key, waiting_in r' ip key = if decide (qkey c = (ip, key)) then vs else waiting_in r ip key.
Proof.
  intros Hn Hw Hc Ht Hr Hq ->. pose proof (qnode_le x n Hn) as Hx. destruct (kid_at x num c Hx Hc) as (_ & Hck & _).
  cbn [run_qthread]. unfold ppr_pull. rewrite Ht. cbn [res_of_option]. pose proof (qw_read _ _ Hw) as Hrc.
  rewrite bind_ok, (qw_toPull _ _ Hw), (proj2 (Nat.ltb_lt t cnt)), (proj2 (Nat.ltb_lt t (q_read w))) by lia.
  cbn [guard_or]. rewrite !bind_ok, (pn_ctxes Hpn x n Hn), list_lookup_fmap, Hc.
  rewrite bool_decide_false by (intros E; apply fmap_nil_inv in E; by rewrite E in Hc). cbn [fmap option_fmap option_map res_of_option fst snd].
  rewrite bind_ok. cbn [snd res_of_option]. rewrite bind_ok.
  destruct (pn_cmd Hpn x n Hn) as (_ & _ & ->). assert (Ek : (loc c, pprKey lost (Z.of_nat c)) = qkey c) by (unfold qkey; by rewrite decide_False by lia).
  destruct (pop_waiting _ _ _ _ _ Hq) as (r' & Hp & Hr'). rewrite <- Ek in Hp. cbn [fst snd] in Hp. cbn [fst]. rewrite Hp. cbn [res_of_option].
  rewrite bind_ok. destruct (qw_pkts _ _ Hw t ltac:(lia)) as (p & Ep & Hlp & _). rewrite Ep. cbn [res_of_option].
  rewrite bind_ok, xor_packets, bind_ok by (apply Hpo || done || apply length_qsub).
  assert (Hkids : kids k x <> []) by (intros E; by rewrite E in Hc).
  rewrite (qw_indices _ _ Hw Hkids), (alter_lookup _ _ _ Ht), (qw_toSend _ _ Hw).
  assert (Es : (if (minNum conf (q_pulled w) <? minNum conf (<[num := S t]> (q_pulled w)))%nat then minNum conf (<[num := S t]> (q_pulled w))
    else minNum conf (q_pulled w)) = minNum conf (<[num := S t]> (q_pulled w))).
  { pose proof (minNum_grows w num t Ht). destruct (Nat.ltb_spec (minNum conf (q_pulled w)) (minNum conf (<[num := S t]> (q_pulled w)))); lia. }
  rewrite Es. eexists _, _. split; [done|]. split.
  - split; cbn; try done.
    + rewrite length_insert. apply Hw.
    + intros j u. by apply order_pulled with x.
    + intros i Hi. by apply pulled_packet.
  - by split_and!.
Qed.

Lemma qpull_empty x n w r num c t : ns !! x = Some n -> qworker_at x w -> kids k x !! num = Some c ->
  q_pulled w !! num = Some t -> waiting_in r (qkey c).1 (qkey c).2 = [] -> run_qthread conf (QPull num) n w r = Fault Blocked.
Proof.
  intros Hn Hw Hc Ht Hq. destruct (decide (t < q_read w)%nat) as [Hr|Hr].
  2: { apply (qpull_blocked x); [done|]. intros t'. by rewrite Ht; intros [= <-]. }
  pose proof (qnode_le x n Hn) as Hx. destruct (kid_at x num c Hx Hc) as (_ & Hck & _).
  cbn [run_qthread]. unfold ppr_pull. rewrite Ht. cbn [res_of_option]. pose proof (qw_read _ _ Hw) as Hrc.
  rewrite bind_ok, (qw_toPull _ _ Hw), (proj2 (Nat.ltb_lt t cnt)), (proj2 (Nat.ltb_lt t (q_read w))) by lia.
  cbn [guard_or]. rewrite !bind_ok, (pn_ctxes Hpn x n Hn), list_lookup_fmap, Hc.
  rewrite bool_decide_false by (intros E; apply fmap_nil_inv in E; by rewrite E in Hc). cbn [fmap option_fmap option_map res_of_option fst snd].
  rewrite bind_ok. cbn [snd res_of_option]. rewrite bind_ok. destruct (pn_cmd Hpn x n Hn) as (_ & _ & ->).
  assert (Ek : (loc c, pprKey lost (Z.of_nat c)) = qkey c) by (unfold qkey; by rewrite decide_False by lia).
  rewrite <- Ek in Hq. cbn [fst snd] in Hq. cbn [fst]. unfold BLPOP. by rewrite Hq.
Qed.

(** ** The invariant *)

(** A new state of the worker [x]: its own list and those of its children follow. *)
Lemma qprogress_update st x w w' r :
  qprogress st -> qworkers st !! x = Some w -> qworker_at x w' ->
  queue_ok r x (qtaken st x) (q_sent w') ->
  (forall j c wc, kids k x !! j = Some c -> qworkers st !! c = Some wc -> queue_ok r c (q_pulled w' !!! j) (q_sent wc)) ->
  (forall y, (y <= k)%nat -> y <> x -> (y < k -> up k y <> x)%nat -> waiting_in r (qkey y).1 (qkey y).2 = waiting_in (qservers st) (qkey y).1 (qkey y).2) ->
  qprogress (mkQState (<[x := w']> (qworkers st)) r (qcollected st)).
Proof.
  intros [Hlen Hwk Hq Hc] Hx Hw' Hown Hkids Hother. pose proof (lookup_lt_Some _ _ _ Hx) as Hxk. destruct (pn_some Hpn) as [Hk1 Hk2].
  assert (Ht : forall y, (y <= k)%nat -> (y < k -> up k y <> x)%nat -> qtaken (mkQState (<[x := w']> (qworkers st)) r (qcollected st)) y = qtaken st y).
  { intros y Hy Hne. unfold qtaken. cbn. case_decide; [done|]. by rewrite list_lookup_total_insert_ne by (intros E; apply Hne; lia). }
  split.
  - cbn. by rewrite length_insert.
  - intros y wy Hy. cbn in Hy. destruct (decide (y = x)) as [->|Hne].
    + rewrite list_lookup_insert_eq in Hy by done. by injection Hy as <-.
    + rewrite list_lookup_insert_ne in Hy by done. by apply Hwk.
  - intros y wy Hy. cbn [qworkers qservers] in *. destruct (decide (y = x)) as [->|Hne].
    + rewrite list_lookup_insert_eq in Hy by done. injection Hy as <-. rewrite Ht; [done|lia|]. intros Hlt. pose proof (up_above k Hk1 x Hlt). lia.
    + rewrite list_lookup_insert_ne in Hy by done. pose proof (lookup_lt_Some _ _ _ Hy) as Hyk.
      destruct (decide (y < k /\ up k y = x)%nat) as [[Hlt Hu]|Hno].
      * assert (Hin : y ∈ kids k x) by (apply (kids_ok k Hk1 Hk2 x ltac:(lia)); done). apply list_elem_of_lookup in Hin as [j Hj].
        pose proof (Hkids j y wy Hj Hy) as Hqy. unfold qtaken. cbn. rewrite decide_False by lia.
        rewrite Hu, list_lookup_total_insert_eq, (pos_kid x j y) by (done || lia). exact Hqy.
      * rewrite Ht by (lia || (intros Hlt Hu; by apply Hno)). destruct (Hq y wy Hy) as [Ha Hb]. split; [done|].
        rewrite Hother; [done|lia|done|]. intros Hlt Hu. by apply Hno.
  - done.
Qed.

(** What the invariant says of the list of a child. *)
Lemma kid_queue st x w j c wc : qprogress st -> (x <= k)%nat -> qworkers st !! x = Some w -> kids k x !! j = Some c -> qworkers st !! c = Some wc ->
  queue_ok (qservers st) c (q_pulled w !!! j) (q_sent wc).
Proof.
  intros Hst Hx Hw Hj Hc. pose proof (qp_queue _ Hst c wc Hc) as Hq. destruct (kid_at x j c Hx Hj) as (_ & Hck & Hu).
  unfold qtaken in Hq. rewrite decide_False in Hq by lia. by rewrite Hu, (list_lookup_total_correct _ _ _ Hw), (pos_kid x j c) in Hq.
Qed.

Definition qready (st : qstate) (x : nat) (w : qworker) (t : qthread) : Prop :=
  match t with
  | QRead => (q_read w < cnt)%nat
  | QPull num => exists u, q_pulled w !! num = Some u /\ (u < q_read w)%nat /\
      forall c, kids k x !! num = Some c -> exists wc, qworkers st !! c = Some wc /\ (u < q_sent wc)%nat
  | QSend => (q_sent w < minNum conf (q_pulled w))%nat
  end.

Definition qcounters (w : qworker) : nat := (q_read w + sum_list_with id (q_pulled w) + q_sent w)%nat.

Lemma worker_of st c : qprogress st -> (c <= k)%nat -> exists w, qworkers st !! c = Some w.
Proof. intros Hst Hc. apply lookup_lt_is_Some_2. rewrite (qp_len _ Hst). lia. Qed.

(** A thread steps within the invariant, or waits because it is not ready. *)
Lemma read_progress st x n w : qprogress st -> ns !! x = Some n -> qworkers st !! x = Some w ->
  (exists w' r, run_qthread conf QRead n w (qservers st) = Ok (w', r) /\
     qprogress (mkQState (<[x := w']> (qworkers st)) r (qcollected st)) /\ qcounters w' = S (qcounters w)) \/
  (run_qthread conf QRead n w (qservers st) = Fault Blocked /\ ~ qready st x w QRead).
Proof.
  intros Hst Hn Hx. pose proof (qread_runs x n w (qservers st) Hn (qp_worker _ Hst x w Hx)) as H1. cbn [qready].
  case_decide; [left|right; split; [done|lia]]. destruct H1 as (w' & E & Hw' & H1 & H2 & H3). eexists _, _. split; [done|].
  split; [|unfold qcounters; rewrite H2; lia]. apply (qprogress_update st x w); try done.
  - rewrite H3. by apply (qp_queue _ Hst).
  - intros j c wc Hj Hc. rewrite H2. by apply (kid_queue st x w j c wc); [|eapply qnode_le|..].
Qed.

Lemma send_progress st x n w : qprogress st -> ns !! x = Some n -> qworkers st !! x = Some w ->
  (exists w' r, run_qthread conf QSend n w (qservers st) = Ok (w', r) /\
     qprogress (mkQState (<[x := w']> (qworkers st)) r (qcollected st)) /\ qcounters w' = S (qcounters w)) \/
  (run_qthread conf QSend n w (qservers st) = Fault Blocked /\ ~ qready st x w QSend).
Proof.
  intros Hst Hn Hx. pose proof (qnode_le x n Hn) as Hxk. pose proof (qsend_runs x n w (qservers st) Hn (qp_worker _ Hst x w Hx)) as H1. cbn [qready].
  case_decide; [left|right; split; [done|lia]]. destruct H1 as (w' & E & Hw' & H1 & H2 & H3). eexists _, _. split; [done|].
  split; [|unfold qcounters; rewrite H2; lia]. apply (qprogress_update st x w); try done.
  - destruct (qp_queue _ Hst x w Hx) as [Ha Hb]. split; [lia|]. rewrite waiting_push, decide_True, Hb by done. rewrite H3.
    replace (qsub x (q_sent w)) with (qsub x (qtaken st x + (q_sent w - qtaken st x))%nat) by (f_equal; lia).
    rewrite seq_push. do 2 f_equal. lia.
  - intros j c wc Hj Hc. rewrite H2. destruct (kid_at x j c Hxk Hj) as (Hlt & _ & _).
    destruct (kid_queue st x w j c wc Hst Hxk Hx Hj Hc) as [Ha Hb]. split; [done|]. rewrite waiting_push, decide_False; [done|].
    intros Hk. rewrite <- !surjective_pairing in Hk. apply qkey_inj in Hk; lia.
  - intros y Hy Hne _. rewrite waiting_push, decide_False; [done|].
    intros Hk. rewrite <- !surjective_pairing in Hk. apply qkey_inj in Hk; (done || lia).
Qed.

Lemma pull_progress st x num n w : qprogress st -> ns !! x = Some n -> qworkers st !! x = Some w ->
  (exists w' r, run_qthread conf (QPull num) n w (qservers st) = Ok (w', r) /\
     qprogress (mkQState (<[x := w']> (qworkers st)) r (qcollected st)) /\ qcounters w' = S (qcounters w)) \/
  (run_qthread conf (QPull num) n w (qservers st) = Fault Blocked /\ ~ qready st x w (QPull num)).
Proof.
  intros Hst Hn Hx. pose proof (qp_worker _ Hst x w Hx) as Hw. pose proof (qnode_le x n Hn) as Hxk. cbn [qready].
  destruct (q_pulled w !! num) as [t|] eqn:Ht.
  2: { right. split; [apply (qpull_blocked x); [done|]; intros t; by rewrite Ht|by intros (? & ? & _)]. }
  destruct (decide (t < q_read w)%nat) as [Hr|Hr].
  2: { right. split; [apply (qpull_blocked x); [done|]; intros t'; by rewrite Ht; intros [= <-]|by intros (? & [= <-] & ? & _)]. }
  assert (Hcnt : forall w', q_read w' = q_read w -> q_pulled w' = <[num := S t]> (q_pulled w) -> q_sent w' = q_sent w -> qcounters w' = S (qcounters w)).
  { intros w' E1 E2 E3. unfold qcounters. rewrite E1, E2, E3, (sum_insert id _ num t (S t)) by done. lia. }
  destruct (kids k x !! num) as [c|] eqn:Hc.
  - destruct (kid_at x num c Hxk Hc) as (Hcx & Hck & Hu). destruct (worker_of st c Hst) as [wc Hwc]; [lia|].
    destruct (kid_queue st x w num c wc Hst Hxk Hx Hc Hwc) as [Ha Hb]. rewrite (list_lookup_total_correct _ _ _ Ht) in Ha, Hb.
    destruct (decide (t < q_sent wc)%nat) as [Hs|Hs].
    + left. rewrite seq_pop in Hb by lia.
      destruct (qpull_child x n w (qservers st) num c t _ _ Hn Hw Hc Ht Hr Hb eq_refl) as (w' & r & E & Hw' & H1 & H2 & H3 & Hr').
      eexists _, _. split; [done|]. split; [|by apply Hcnt]. apply (qprogress_update st x w); try done.
      * rewrite H3. destruct (qp_queue _ Hst x w Hx) as [Ha' Hb']. split; [done|]. rewrite Hr', decide_False; [done|].
        rewrite <- surjective_pairing. intros Hk. apply qkey_inj in Hk; lia.
      * intros j c' wc' Hj Hc'. rewrite H2. destruct (kid_at x j c' Hxk Hj) as (_ & Hck' & _). destruct (decide (j = num)) as [->|Hne].
        -- replace c' with c in * by congruence. replace wc' with wc by congruence.
           rewrite list_lookup_total_insert_eq by by eapply lookup_lt_Some. split; [lia|].
           rewrite Hr', decide_True by apply surjective_pairing. do 2 f_equal. lia.
        -- rewrite list_lookup_total_insert_ne by done. destruct (kid_queue st x w j c' wc' Hst Hxk Hx Hj Hc') as [Ha' Hb'].
           split; [done|]. rewrite Hr', decide_False; [done|]. rewrite <- surjective_pairing. intros Hk. apply qkey_inj in Hk; [|lia..].
           subst c'. pose proof (pos_kid x j c Hxk Hj). pose proof (pos_kid x num c Hxk Hc). congruence.
      * intros y Hy Hne Hup. rewrite Hr', decide_False; [done|]. rewrite <- surjective_pairing. intros Hk. apply qkey_inj in Hk; [|lia..].
        subst y. by apply Hup.
    + right. split; [|intros (u & [= <-] & _ & Hall); destruct (Hall c eq_refl) as (wc' & Hwc' & Hlt); replace wc' with wc in * by congruence; lia].
      apply (qpull_empty x n w _ num c t); try done. rewrite Hb. by replace (q_sent wc - t)%nat with 0%nat by lia.
  - assert (Hk : kids k x = []).
    { apply lookup_ge_None in Hc. apply lookup_lt_Some in Ht as Hl. rewrite (qw_threads _ _ Hw) in Hl. apply nil_length_inv.
      destruct (kids k x); [done|]. simpl in *. lia. }
    destruct (qpull_leaf x n w (qservers st) num t Hn Hw Hk Ht Hr) as (w' & E & Hw' & H1 & H2 & H3).
    left. eexists _, _. split; [done|]. split; [|by apply Hcnt]. apply (qprogress_update st x w); try done.
    + rewrite H3. by apply (qp_queue _ Hst).
    + intros j c wc. by rewrite Hk.
Qed.

Lemma qthread_progress st x t n w : qprogress st -> ns !! x = Some n -> qworkers st !! x = Some w ->
  (exists w' r, run_qthread conf t n w (qservers st) = Ok (w', r) /\
     qprogress (mkQState (<[x := w']> (qworkers st)) r (qcollected st)) /\ qcounters w' = S (qcounters w)) \/
  (run_qthread conf t n w (qservers st) = Fault Blocked /\ ~ qready st x w t).
Proof. destruct t; [apply read_progress|apply pull_progress|apply send_progress]. Qed.

(** ** The client *)

Abbreviation fetchIP := (loc k).

Lemma qcollect_progress st w : qprogress st -> qworkers st !! k = Some w ->
  (exists out r, collect conf fetchIP lost (qcollected st) (qservers st) = Ok (out, r) /\
     qprogress (mkQState (qworkers st) r out) /\ length out = S (length (qcollected st))) \/
  (collect conf fetchIP lost (qcollected st) (qservers st) = Fault Blocked /\ ~ (length (qcollected st) < q_sent w)%nat).
Proof.
  intros Hst Hw. destruct (qp_queue _ Hst k w Hw) as [Ha Hb]. unfold qtaken in Ha, Hb. rewrite decide_True in Ha, Hb by done.
  assert (Ek : qkey k = (fetchIP, lost)) by (unfold qkey; by rewrite decide_True). rewrite Ek in Hb. cbn [fst snd] in Hb. unfold collect.
  assert (Hs : (q_sent w <= cnt)%nat).
  { pose proof (qp_worker _ Hst k w Hw) as Hwk. destruct (lookup_lt_is_Some_2 (q_pulled w) 0) as [t Ht]; [rewrite (qw_threads _ _ Hwk); lia|].
    pose proof (qw_order _ _ Hwk _ _ Ht). pose proof (qw_read _ _ Hwk). lia. }
  destruct (decide (length (qcollected st) < q_sent w)%nat) as [Hlt|Hge].
  - left. rewrite seq_pop in Hb by lia. destruct (pop_waiting _ _ _ _ _ Hb) as (r & Hp & Hr).
    rewrite (proj2 (Nat.ltb_lt (length (qcollected st)) cnt)), Hp by lia. cbn [guard_or res_of_option]. rewrite !bind_ok.
    set (v := qsub k (length (qcollected st))) in *. assert (Hv : length v = size) by apply length_qsub.
    assert (Hsl : slice v 0 size = Some v) by (rewrite <- Hv; apply slice_full). rewrite Hsl. cbn [res_of_option]. rewrite bind_ok.
    eexists _, _. split; [done|]. split; [|rewrite length_app; simpl; lia]. split; try apply Hst.
    + intros y wy Hy. cbn [qworkers qservers] in *. pose proof (qp_queue _ Hst y wy Hy) as [Ha' Hb'].
      pose proof (lookup_lt_Some _ _ _ Hy) as Hyk. rewrite (qp_len _ Hst) in Hyk. unfold queue_ok. rewrite Hr. unfold qtaken in *. cbn [qworkers qcollected].
      case_decide as E.
      * subst y. replace wy with w by congruence. rewrite Ek, decide_True by done. rewrite length_app. cbn [length].
        split; [lia|]. do 2 f_equal; lia.
      * rewrite decide_False; [by split|]. rewrite <- Ek, <- surjective_pairing. intros Hk. apply qkey_inj in Hk; lia.
    + cbn. rewrite length_app, seq_app, fmap_app, <- (qp_collected _ Hst). done.
  - right. split; [|done]. destruct (Nat.ltb_spec (length (qcollected st)) cnt); [|done]. cbn [guard_or]. rewrite bind_ok.
    unfold BLPOP. rewrite Hb. by replace (q_sent w - length (qcollected st))%nat with 0%nat by lia.
Qed.

(** ** Every run ends *)

(** The iterations of all the threads: a node reads and sends every packet and
    pulls it from every child (a leaf passes it on once). *)
Definition capacity (x : nat) : nat := ((2 + Nat.max 1 (length (kids k x))) * cnt)%nat.
Definition all_qwork : nat := (sum_list_with capacity (seq 0 (S k)) + cnt)%nat.
Definition qwork (st : qstate) : nat := (sum_list_with qcounters (qworkers st) + length (qcollected st))%nat.

Lemma counters_full x w : qworker_at x w -> (qcounters w <= capacity x)%nat /\
  (qcounters w = capacity x -> q_sent w = cnt) /\
  (q_read w = cnt -> (forall j t, q_pulled w !! j = Some t -> t = cnt) -> q_sent w = cnt -> qcounters w = capacity x).
Proof.
  intros Hw. pose proof (qw_read _ _ Hw) as Hr. pose proof (qw_threads _ _ Hw) as Hl. unfold qcounters, capacity. rewrite <- Hl.
  destruct (sum_bound id (q_pulled w) cnt) as [H1 H2]. { intros j t Ht. pose proof (qw_order _ _ Hw _ _ Ht). cbn. lia. }
  destruct (lookup_lt_is_Some_2 (q_pulled w) 0) as [t Ht]; [lia|]. pose proof (qw_order _ _ Hw _ _ Ht). split_and!; [lia|lia|].
  intros E1 E2 E3. assert (Hs : sum_list_with id (q_pulled w) = (length (q_pulled w) * cnt)%nat); [|lia].
  clear - E2. induction (q_pulled w) as [|u l IH]; [done|]. cbn. rewrite (E2 0%nat u eq_refl), IH; [lia|]. intros j. exact (E2 (S j)).
Qed.

Lemma qcollected_bound st : qprogress st -> (length (qcollected st) <= cnt)%nat.
Proof.
  intros Hst. destruct (worker_of st k Hst ltac:(lia)) as [w Hw]. destruct (qp_queue _ Hst k w Hw) as [Ha _].
  unfold qtaken in Ha. rewrite decide_True in Ha by done. pose proof (qp_worker _ Hst k w Hw) as Hwk.
  destruct (lookup_lt_is_Some_2 (q_pulled w) 0) as [t Ht]; [rewrite (qw_threads _ _ Hwk); lia|].
  pose proof (qw_order _ _ Hwk _ _ Ht). pose proof (qw_read _ _ Hwk). lia.
Qed.

Lemma qwork_sums st : qprogress st ->
  (sum_list_with qcounters (qworkers st) <= sum_list_with capacity (seq 0 (S k)))%nat /\
  (sum_list_with qcounters (qworkers st) = sum_list_with capacity (seq 0 (S k)) -> forall x w, qworkers st !! x = Some w -> qcounters w = capacity x).
Proof.
  intros Hst. destruct (sum_capacity qcounters capacity 0 (qworkers st)) as [H1 H2].
  { intros x w Hx. by apply counters_full, (qp_worker _ Hst). }
  rewrite (qp_len _ Hst) in H1, H2. by split.
Qed.

Lemma qwork_bound st : qprogress st -> (qwork st <= all_qwork)%nat.
Proof. intros Hst. pose proof (qcollected_bound st Hst). pose proof (proj1 (qwork_sums st Hst)). unfold qwork, all_qwork. lia. Qed.

Lemma qstep_progress st st' : qprogress st -> qstep conf ns fetchIP lost st st' -> qprogress st' /\ qwork st' = S (qwork st).
Proof.
  intros Hst Hs. destruct Hs as [st x t n w w' r Hn Hw Hrun|st out r Hrun].
  - destruct (qthread_progress st x t n w Hst Hn Hw) as [(w2 & r2 & E & Hst' & Hc)|[E _]]; [|congruence].
    rewrite E in Hrun. injection Hrun as <- <-. split; [done|]. unfold qwork. cbn. rewrite (sum_insert qcounters _ x w w2) by done. lia.
  - destruct (worker_of st k Hst ltac:(lia)) as [w Hw].
    destruct (qcollect_progress st w Hst Hw) as [(out2 & r2 & E & Hst' & Hc)|[E _]]; [|congruence].
    rewrite E in Hrun. injection Hrun as <- <-. split; [done|]. unfold qwork. cbn. lia.
Qed.

Lemma qrun_progress m st st' : qprogress st -> nsteps (qstep conf ns fetchIP lost) m st st' -> qprogress st' /\ qwork st' = (m + qwork st)%nat.
Proof.
  intros Hst Hn. induction Hn as [st|m st st1 st' Hs Hn IH]; [done|].
  destruct (qstep_progress st st1 Hst Hs) as [Hst1 E]. destruct (IH Hst1) as [H1 H2]. split; [done|lia].
Qed.

Lemma qno_crash st : qprogress st -> ~ qcrash conf ns fetchIP lost st.
Proof.
  intros Hst [(x & t & n & w & e & Hn & Hw & E & He)|(e & E & He)].
  - destruct (qthread_progress st x t n w Hst Hn Hw) as [(w2 & r2 & E2 & _)|[E2 _]]; congruence.
  - destruct (worker_of st k Hst ltac:(lia)) as [w Hw].
    destruct (qcollect_progress st w Hst Hw) as [(out2 & r2 & E2 & _)|[E2 _]]; congruence.
Qed.

Lemma qready_steps st x n w t : qprogress st -> ns !! x = Some n -> qworkers st !! x = Some w -> qready st x w t ->
  exists st', qstep conf ns fetchIP lost st st'.
Proof.
  intros Hst Hn Hw Hr. destruct (qthread_progress st x t n w Hst Hn Hw) as [(w' & r & E & _)|[_ Hno]]; [|done].
  eexists. by apply (qstep_thread _ _ _ _ st x t n w w' r).
Qed.

(** The first counter short of all the packets. *)
Lemma first_short (l : list nat) : (forall j (t : nat), l !! j = Some t -> (t <= cnt)%nat) ->
  (exists j t, l !! j = Some t /\ (t < cnt)%nat) \/ forall j t, l !! j = Some t -> t = cnt.
Proof.
  induction l as [|u l IH]; intros Hb; [by right|]. pose proof (Hb 0%nat u eq_refl). destruct (decide (u < cnt)%nat); [left; by exists 0%nat, u|].
  destruct IH as [(j & t & Hj & Ht)|Hall]; [intros j; exact (Hb (S j))|left; by exists (S j), t|right].
  intros [|j] t Hj; [injection Hj as <-; lia|by apply (Hall j)].
Qed.

(** The nodes finish in the order of their indices. *)
Lemma qprefix_done st x : qprogress st -> (x <= S k)%nat ->
  (exists st', qstep conf ns fetchIP lost st st') \/
  forall y w, (y < x)%nat -> qworkers st !! y = Some w -> qcounters w = capacity y.
Proof.
  intros Hst. induction x as [|x IH]; intros Hx; [right; lia|]. destruct IH as [|Hdone]; [lia|by left|].
  destruct (qnode_at x) as (n & Hn & _); [lia|]. destruct (worker_of st x Hst) as [w Hw]; [lia|].
  pose proof (qp_worker _ Hst x w Hw) as Hwk. pose proof (qw_read _ _ Hwk) as Hrc.
  destruct (decide (q_read w < cnt)%nat) as [|Hr]; [left; by apply (qready_steps st x n w QRead)|].
  destruct (first_short (q_pulled w)) as [(j & t & Hj & Ht)|Hall].
  { intros j t Hj. pose proof (qw_order _ _ Hwk _ _ Hj). lia. }
  { left. apply (qready_steps st x n w (QPull j)); try done. exists t. split; [done|]. split; [lia|]. intros c Hc.
    destruct (kid_at x j c ltac:(lia) Hc) as (Hcx & _ & _). destruct (worker_of st c Hst) as [wc Hwc]; [lia|]. exists wc. split; [done|].
    pose proof (Hdone c wc Hcx Hwc) as Hfull. apply (counters_full c wc (qp_worker _ Hst c wc Hwc)) in Hfull. lia. }
  destruct (decide (q_sent w < cnt)%nat) as [Hs|Hs].
  { left. apply (qready_steps st x n w QSend); try done. apply minNum_lt. split; [done|].
    intros t [j Hj]%list_elem_of_lookup. by rewrite (Hall j t Hj). }
  right. intros y wy Hy Hwy. destruct (decide (y = x)) as [->|]; [|by apply Hdone; (done || lia)]. replace wy with w by congruence.
  apply (counters_full x w Hwk); [lia|done|]. destruct (lookup_lt_is_Some_2 (q_pulled w) 0) as [t Ht]; [rewrite (qw_threads _ _ Hwk); lia|].
  pose proof (qw_order _ _ Hwk _ _ Ht). pose proof (Hall _ _ Ht). lia.
Qed.

Lemma qnext_step st : qprogress st -> (qwork st < all_qwork)%nat -> exists st', qstep conf ns fetchIP lost st st'.
Proof.
  intros Hst Hlt. destruct (qprefix_done st (S k) Hst ltac:(lia)) as [|Hdone]; [done|].
  destruct (worker_of st k Hst ltac:(lia)) as [w Hw].
  destruct (qcollect_progress st w Hst Hw) as [(out & r & E & _)|[_ Hno]]; [eexists; by apply (qstep_collect _ _ _ _ st out r)|].
  exfalso. pose proof (Hdone k w ltac:(lia) Hw) as Hfull. apply (counters_full k w (qp_worker _ Hst k w Hw)) in Hfull.
  assert (Hs : forall l a, (forall i wy, l !! i = Some wy -> qcounters wy = capacity (a + i)) ->
    sum_list_with qcounters l = sum_list_with capacity (seq a (length l))).
  { induction l as [|z l IHl]; intros a Hall; [done|]. cbn. rewrite (Hall 0%nat z eq_refl), Nat.add_0_r, (IHl (S a)); [done|].
    intros i wy Hi. replace (S a + i)%nat with (a + S i)%nat by lia. exact (Hall (S i) wy Hi). }
  pose proof (Hs (qworkers st) 0%nat) as E. rewrite (qp_len _ Hst) in E. unfold qwork, all_qwork in Hlt. rewrite E in Hlt; [lia|].
  intros i wy Hi. apply Hdone; [|done]. apply lookup_lt_Some in Hi. by rewrite (qp_len _ Hst) in Hi.
Qed.

(** The threads have started, and nothing of an earlier repair waits. *)
Definition qstarted (st : qstate) : Prop :=
  qworkers st = ppr_start conf <$> ns /\ qcollected st = [] /\
  forall x, (x <= k)%nat -> waiting_in (qservers st) (qkey x).1 (qkey x).2 = [].

Lemma ppr_start_ok x n : ns !! x = Some n -> qworker_at x (ppr_start conf n) /\ qcounters (ppr_start conf n) = 0%nat.
Proof.
  intros Hn. assert (Hl : length (q_ctxes n) = length (kids k x)) by by rewrite (pn_ctxes Hpn x n Hn), length_fmap. split.
  - split; unfold ppr_start; cbn [q_diskPkts q_waitingToPull q_waitingToSend _indicesWaiting q_read q_pulled q_sent]; rewrite ?Hl.
    + apply length_replicate.
    + intros j t [-> _]%lookup_replicate. lia.
    + lia.
    + done.
    + destruct (Nat.max 1 (length (kids k x))) as [|m] eqn:E; [lia|]. unfold minNum. cbn. rewrite Nat.min_0_r. clear. by induction m.
    + destruct (kids k x); [done|]. intros _. by rewrite Nat.max_r by (simpl; lia).
    + intros i Hi. exists (zeros size). rewrite lookup_replicate_2 by done. split_and!; [done|apply length_replicate|].
      intros q Hq. rewrite decide_False by lia. rewrite lookup_total_zeros by done. rewrite xsum_zero; [done|].
      intros j Hj. rewrite decide_False; [done|]. rewrite (list_lookup_total_correct _ _ 0%nat); [lia|]. rewrite lookup_replicate_2; [done|lia].
  - unfold qcounters, ppr_start. cbn. generalize (Nat.max 1 (length (q_ctxes n))). induction n0; cbn; [done|exact IHn0].
Qed.

Lemma qstarted_progress st : qstarted st -> qprogress st /\ qwork st = 0%nat.
Proof.
  intros (Hw & Hc & Hq). assert (Hat : forall x w, qworkers st !! x = Some w -> exists n, ns !! x = Some n /\ w = ppr_start conf n).
  { intros x w. rewrite Hw, list_lookup_fmap. intros (n & Hn & ->)%fmap_Some. by exists n. }
  split.
  - split.
    + by rewrite Hw, length_fmap, (pn_len Hpn).
    + intros x w (n & Hn & ->)%Hat. by apply ppr_start_ok.
    + intros x w (n & Hn & ->)%Hat. pose proof (qnode_le x n Hn) as Hx.
      assert (Ht : qtaken st x = 0%nat).
      { unfold qtaken. case_decide; [by rewrite Hc|]. destruct (pn_some Hpn) as [Hk _].
        destruct (lookup_lt_is_Some_2 (qworkers st) (up k x)) as [w Hu].
        { rewrite Hw, length_fmap, (pn_len Hpn). pose proof (up_above k Hk x). lia. }
        rewrite (list_lookup_total_correct _ _ _ Hu). destruct (Hat _ _ Hu) as (n' & _ & ->). unfold ppr_start. cbn [q_pulled].
        rewrite list_lookup_total_alt. destruct (replicate _ _ !! _) as [t|] eqn:E; [|done]. by apply lookup_replicate in E as [-> _]. }
      unfold queue_ok. rewrite Ht, Hq by done. by split; [lia|].
    + by rewrite Hc.
  - unfold qwork. rewrite Hw, Hc. cbn [length]. rewrite Nat.add_0_r.
    assert (Hz : forall n, n ∈ ns -> qcounters (ppr_start conf n) = 0%nat) by (intros n [x Hx]%list_elem_of_lookup; by apply (ppr_start_ok x n)).
    clear - Hz. induction ns as [|n l IH]; [done|]. cbn [fmap list_fmap sum_list_with]. rewrite Hz, IH by (done || left || (intros; apply Hz; by right)). done.
Qed.

Lemma qall_collected st : qprogress st -> qwork st = all_qwork -> qcollected st = qsub k <$> seq 0 cnt.
Proof.
  intros Hst E. rewrite (qp_collected _ Hst). do 2 f_equal. pose proof (qcollected_bound st Hst).
  pose proof (proj1 (qwork_sums st Hst)). unfold qwork, all_qwork in E. lia.
Qed.
End progress.

(** ** What is collected *)

Section converges.
Context `{GF : GFComplete} {GL : GF8Laws} `{DL : DiskLaws} (conf : Config).
Context (ns : list qnode) (k : nat) (lost : str) (loc : nat -> Z) (Hpn : ppr_nodes conf ns k lost loc).
Abbreviation cnt := (_packetCnt conf).
Abbreviation size := (_packetSize conf).

(** The requestor's sum has every helper once: in the sum over all the nodes,
    every helper's own sum appears a second time as that of a child. *)
Lemma qsub_root i q : (q < size)%nat -> qsub conf ns k k i !!! q = xsum k (fun x => qown conf ns k x i !!! q).
Proof.
  intros Hq. set (S x := qsub conf ns k x i !!! q). set (O x := qown conf ns k x i !!! q). destruct (pn_some _ _ _ _ _ Hpn) as [Hk1 Hk2].
  assert (Hsum : xsum (Datatypes.S k) S = Z.lxor (xsum (Datatypes.S k) O) (xsum k S)).
  { transitivity (xsum (Datatypes.S k) (fun x => Z.lxor (O x) (xsum (length (kids k x)) (fun j => S (kids k x !!! j))))).
    - apply xsum_ext. intros x Hx. unfold S at 1, O. apply (qsub_lookup _ _ _ _ _ Hpn); [lia|done].
    - rewrite xsum_lxor. f_equal. rewrite (xsum_bind S (kids k)), (xsum_perm S _ _ (kids_all k Hk1 Hk2)), length_seq.
      apply xsum_ext. intros j Hj. f_equal. apply list_lookup_total_correct. by apply lookup_seq_lt. }
  cbn [xsum] in Hsum. assert (HO : O k = 0).
  { unfold O, qown. rewrite decide_False by lia. by apply lookup_total_zeros. }
  rewrite HO, Z.lxor_0_r, (Z.lxor_comm (xsum k O)) in Hsum. fold (S k).
  rewrite <- (lxor_cancel_l (xsum k S) (S k)), Hsum. apply lxor_cancel_l.
Qed.

Lemma qown_lookup x i q : (x < k)%nat -> (i < cnt)%nat -> (q < size)%nat ->
  qown conf ns k x i !!! q = qcoef_at ns x ⊗ (qblk_at ns x !!! (i * size + q)%nat).
Proof.
  intros Hx Hi Hq. destruct (qown_ok conf ns k lost loc Hpn x i Hx Hi) as [Hl E]. rewrite E in Hl |- *. rewrite length_fmap in Hl.
  set (pkt := take size (drop (i * size) (qblk_at ns x))) in *. destruct (lookup_lt_is_Some_2 pkt q) as [v Hv]; [lia|].
  rewrite (list_lookup_total_correct _ q (qcoef_at ns x ⊗ v)) by by rewrite list_lookup_fmap, Hv. f_equal. symmetry.
  apply list_lookup_total_correct. rewrite <- Hv. unfold pkt. rewrite lookup_take_lt, lookup_drop by done. done.
Qed.

Lemma qcollected_bytes :
  concat (qsub conf ns k k <$> seq 0 cnt) = lincomb k (cnt * size) (qcoef_at ns) (qblk_at ns <$> seq 0 k).
Proof.
  apply (concat_packets _ _ size).
  - intros i Hi. eapply length_qsub; done.
  - apply length_lincomb.
  - intros i q Hi Hq. rewrite lincomb_lookup, qsub_root by nia. apply xsum_ext. intros x Hx. rewrite qown_lookup by done.
    do 2 f_equal. symmetry. apply list_lookup_total_correct. by rewrite list_lookup_fmap, lookup_seq_lt.
Qed.
End converges.
