(* ===== verification/PPRWait.v ===== *)
(** * The waits of the partial parallel repair (PPRPullDRWorker.cc)

    The threads of PPRRepair.v as a [scheme] of Wait.v.  The loop of [doProcess]
    waits for a packet all children have sent, the threads that pull wait for a
    packet read from disk; [readWorker] notifies all of these, as a node has one
    per child. *)
From Stdlib Require Import Ascii.
From stdpp Require Import strings relations functions.
From S2P Require Import Prelude Command Text Config Galois GF256 Jerasure Gauss Vandermonde ReedSol Encode RSUtil Disk Coordinator Packet DrCmd PipeRepair PPRTree PPRRepair Wait.

#[local] Arguments Nat.ltb : simpl never.

#[export] Instance qthread_eq : EqDecision qthread.
Proof. solve_decision. Defined.

(** The mutexes and condition variables of the node [x]. *)
Inductive qmutex := ToPullerMtx (x : nat) | ToSenderMtx (x : nat) | ReadThreadMtx (x : nat).
Inductive qcond := ToPullerCV (x : nat) | ToSenderCV (x : nat).
#[export] Instance qmutex_eq : EqDecision qmutex.
Proof. solve_decision. Defined.
#[export] Instance qcond_eq : EqDecision qcond.
Proof. solve_decision. Defined.

Section waits.
Context `{GF : GFComplete} `{DIO : DiskIO} (conf : Config) (ns : list qnode) (fetchIP : Z) (lostFile : str).
Abbreviation cnt := (_packetCnt conf).
Abbreviation qactor := (actor qthread unit).

(** The threads of a node: one per child pulls, or the loop of [puller]. *)
Definition ppr_threads (x : nat) : list qthread :=
  QRead :: QSend :: (QPull <$> seq 0 (Nat.max 1 (length (q_ctxes (ns !!! x))))).

Definition ppr_iterate (a : qactor) (st : qstate) : res qstate :=
  match a with
  | Helper x t =>
    n ← res_of_option Blocked (ns !! x);
    w ← res_of_option Blocked (qworkers st !! x);
    '(w, r) ← run_qthread conf t n w (qservers st);
    Ok (mkQState (<[x := w]> (qworkers st)) r (qcollected st))
  | Client _ =>
    '(out, r) ← collect conf fetchIP lostFile (qcollected st) (qservers st);
    Ok (mkQState (qworkers st) r out)
  end.

(** Where the threads wait: [puller] or [readThread], and [doProcess]. *)
Definition ppr_wait_on (a : qactor) (st : qstate) : option (qmutex * qcond) :=
  match a with
  | Helper x (QPull num) =>
    w ← qworkers st !! x; i ← q_pulled w !! num; if (i <? cnt)%nat then Some (ToPullerMtx x, ToPullerCV x) else None
  | Helper x QSend => w ← qworkers st !! x; if (q_sent w <? cnt)%nat then Some (ToSenderMtx x, ToSenderCV x) else None
  | _ => None
  end.

Definition ppr_test (a : qactor) (st : qstate) : bool :=
  match a with
  | Helper x (QPull num) => default true (w ← qworkers st !! x; i ← q_pulled w !! num; Some (i <? q_waitingToPull w)%nat)
  | Helper x QSend => default true (w ← qworkers st !! x; Some (q_sent w <? q_waitingToSend w)%nat)
  | _ => true
  end.

(** The packets of the children are added under [_readThreadMtx]. *)
Definition ppr_enters (a : qactor) (_ : qstate) : option qmutex :=
  match a with Helper x (QPull _) => if bool_decide (q_ctxes (ns !!! x) = []) then None else Some (ReadThreadMtx x) | _ => None end.

(** [readWorker] notifies all, with [_toPullerMtx] locked; the threads that pull
    notify the sender, those of children when [_waitingToSend] has grown. *)
Definition ppr_signals (a : qactor) (st : qstate) : list (signal qmutex qcond) :=
  match a with
  | Helper x QRead => [mkSignal (Some (ToPullerMtx x)) (ToPullerCV x) true]
  | Helper x (QPull num) =>
    let grown := default false (w ← qworkers st !! x; Some (q_waitingToSend w <? minNum conf (alter S num (_indicesWaiting w)))%nat) in
    if bool_decide (q_ctxes (ns !!! x) = []) || grown then [mkSignal (Some (ToSenderMtx x)) (ToSenderCV x) false] else []
  | _ => []
  end.

Definition ppr_scheme : scheme qstate qactor qmutex qcond :=
  mkScheme (actors (length ns) ppr_threads [tt]) ppr_iterate ppr_wait_on ppr_test (fun _ => false) ppr_enters (fun _ => false) ppr_signals.
Abbreviation W := ppr_scheme.

(** The mutex of the children's threads is held when that of the sender is taken. *)
Definition ppr_rank (m : qmutex) : nat := match m with ReadThreadMtx _ => 0 | _ => 1 end.

Lemma ppr_polls a st st' : iterate W a st = Ok st' -> qstep conf ns fetchIP lostFile st st'.
Proof.
  destruct a as [x t|[]]; intros E; cbn in E; res_inv.
  - destruct v1 as [w r]. injection Hk as <-. by eapply qstep_thread.
  - destruct v as [out r]. injection Hk as <-. by apply qstep_collect.
Qed.

Lemma ppr_fault a st e : iterate W a st = Fault e -> e <> Blocked -> qcrash conf ns fetchIP lostFile st.
Proof.
  intros E He. destruct a as [x t|[]]; cbn in E.
  - destruct (ns !! x) as [n|] eqn:Hn; cbn in E; [|congruence]. destruct (qworkers st !! x) as [w|] eqn:Hw; cbn in E; [|congruence].
    destruct (run_qthread conf t n w (qservers st)) as [[w' r]|e'] eqn:Er; [discriminate|]. injection E as <-. left. by exists x, t, n, w, e'.
  - destruct (collect conf fetchIP lostFile (qcollected st) (qservers st)) as [[out r]|e'] eqn:Er; [discriminate|]. injection E as <-. right. by exists e'.
Qed.

(** What the iterations change of what others wait for. *)
Lemma ppr_run_keeps t n w r w' r' : run_qthread conf t n w r = Ok (w', r') ->
  match t with
  | QRead => q_pulled w' = q_pulled w /\ q_sent w' = q_sent w /\ q_waitingToSend w' = q_waitingToSend w
  | QPull num => exists i, q_pulled w !! num = Some i /\ (i < q_waitingToPull w)%nat /\ q_pulled w' = <[num := S i]> (q_pulled w) /\
      q_sent w' = q_sent w /\ q_waitingToPull w' = q_waitingToPull w /\
      (q_ctxes n = [] \/ (q_waitingToSend w < minNum conf (alter S num (_indicesWaiting w)))%nat \/ q_waitingToSend w' = q_waitingToSend w)
  | QSend => (q_sent w < q_waitingToSend w)%nat /\ q_pulled w' = q_pulled w /\ q_waitingToPull w' = q_waitingToPull w /\ q_waitingToSend w' = q_waitingToSend w
  end.
Proof.
  destruct t as [|num|]; cbn [run_qthread]; [unfold ppr_read|unfold ppr_pull|unfold ppr_send]; intros H; res_inv; simplify_eq.
  - res_inv. by simplify_eq.
  - eexists. split; [done|]. split; [by apply Nat.ltb_lt|]. case_bool_decide; res_inv; simplify_eq; [cbn; by auto|].
    repeat (case_match; res_inv; simplify_eq); cbn; split_and!; try done; right; [left; by apply Nat.ltb_lt|by right].
  - split; [by apply Nat.ltb_lt|done].
Qed.
End waits.

(** ** A tree of helpers *)

Section tree.
Context `{GF : GFComplete} {GL : GF8Laws} `{DL : DiskLaws} (conf : Config) (Hpo : packets_ok conf).
Context (ns : list qnode) (k : nat) (lost : str) (loc : nat -> Z) (Hpn : ppr_nodes conf ns k lost loc).
Abbreviation cnt := (_packetCnt conf).
Abbreviation size := (_packetSize conf).
Abbreviation fetchIP := (loc k).
Abbreviation W := (ppr_scheme conf ns fetchIP lost).

Lemma ppr_node_kids x n : ns !! x = Some n -> length (q_ctxes n) = length (kids k x).
Proof. intros Hn. by rewrite (pn_ctxes _ _ _ _ _ Hpn x n Hn), length_fmap. Qed.

Lemma ppr_actor st x n w t : qprogress conf ns k lost loc st -> ns !! x = Some n -> qworkers st !! x = Some w ->
  (forall num, t = QPull num -> is_Some (q_pulled w !! num)) -> Helper x t ∈ threads W.
Proof.
  intros Hp Hn Hw Ht. apply actor_helper_in. split; [by eapply lookup_lt_Some|]. unfold ppr_threads.
  destruct t as [|num|]; [left| |right; left]. do 2 right. apply list_elem_of_fmap_2, elem_of_seq.
  destruct (Ht num eq_refl) as [i Hi]. apply lookup_lt_Some in Hi. rewrite (qw_threads _ _ _ _ _ (qp_worker _ _ _ _ _ _ Hp x w Hw)) in Hi.
  rewrite (list_lookup_total_correct _ _ _ Hn), (ppr_node_kids x n Hn). lia.
Qed.

Lemma ppr_iterates st st' : qprogress conf ns k lost loc st -> qstep conf ns fetchIP lost st st' -> exists a, a ∈ threads W /\ iterate W a st = Ok st'.
Proof.
  intros Hp Hs. destruct Hs as [st x t n w w' r Hn Hw Hr|st out r Hr].
  - exists (Helper x t). split; [|cbn; rewrite Hn; cbn; rewrite Hw; cbn; by rewrite Hr]. apply (ppr_actor st x n w t Hp Hn Hw).
    intros num ->. pose proof (ppr_run_keeps conf _ _ _ _ _ _ Hr) as (i & -> & _). by eexists.
  - exists (Client tt). split; [apply client_in; set_solver|]. cbn. by rewrite Hr.
Qed.

Lemma ppr_worker st x w n : qprogress conf ns k lost loc st -> qworkers st !! x = Some w -> ns !! x = Some n ->
  q_ctxes n = [] -> bool_decide (q_ctxes (ns !!! x) = []) = true.
Proof. intros _ _ Hn E. rewrite (list_lookup_total_correct _ _ _ Hn). by apply bool_decide_eq_true. Qed.

Lemma tree_laws : scheme_laws W ppr_rank 1 (qprogress conf ns k lost loc) qwork (all_qwork conf k).
Proof.
  apply exact_laws; cbn -[threads].
  - apply actors_nodup; [|repeat constructor; set_solver]. intros x _. unfold ppr_threads. apply NoDup_cons. split; [set_solver|].
    apply NoDup_cons. split; [set_solver|]. apply NoDup_fmap; [by intros ?? [=]|apply NoDup_seq].
  - intros []; cbn; lia.
  - intros a st st' Hp _ E. apply (qstep_progress conf Hpo ns k lost loc Hpn st); [done|by eapply ppr_polls].
  - apply (qwork_bound conf ns k lost loc).
  - intros st Hp Hlt. destruct (qnext_step conf Hpo ns k lost loc Hpn st Hp Hlt) as [st' Hs].
    apply ppr_iterates in Hs as (a & Ha & E); [|done]. by exists a, st'.
  - intros a st e Hp _ E. destruct (decide (e = Blocked)); [done|]. destruct (qno_crash conf Hpo ns k lost loc Hpn st Hp). by eapply ppr_fault.
  - intros a st st' _ _ E. destruct a as [x t|[]]; [|done]. cbn in E. res_inv. destruct v1 as [w' r]. pose proof (ppr_run_keeps conf _ _ _ _ _ _ Hm1) as Hr.
    unfold waits. cbn. destruct t as [|num|]; [done|..]; rewrite Hm0; cbn.
    + destruct Hr as (i & Hi & Hlt & _). rewrite Hi. cbn. case_match; [|done]. by rewrite (proj2 (Nat.ltb_lt _ _)).
    + case_match; [|done]. by rewrite (proj2 (Nat.ltb_lt _ _)) by apply Hr.
  - intros a st st' a' _ _ E _ Hne. destruct a as [x t|[]]; cbn in E; res_inv.
    + destruct v1 as [w' r]. injection Hk as <-. pose proof (ppr_run_keeps conf _ _ _ _ _ _ Hm1) as Hr.
      destruct a' as [y t'|]; [|done]. destruct (decide (y = x)) as [->|Hyx].
      * assert (t' <> t) by congruence. cbn. rewrite list_lookup_insert_eq, Hm0 by by eapply lookup_lt_Some. cbn.
        destruct t' as [|num'|]; [done|destruct t as [|num|]..].
        -- by destruct Hr as (-> & _).
        -- destruct Hr as (i & Hi & _ & -> & _). by rewrite list_lookup_insert_ne by congruence.
        -- by destruct Hr as (_ & -> & _).
        -- by destruct Hr as (_ & -> & _).
        -- by destruct Hr as (i & _ & _ & _ & -> & _).
        -- done.
      * destruct t'; cbn; by rewrite ?list_lookup_insert_ne by done.
    + destruct v as [out r]. injection Hk as <-. by destruct a'.
  - intros a st st' a' m c Hp _ E _ Hne Hon Hf Ht. destruct a as [x t|[]]; cbn in E; res_inv.
    + destruct v1 as [w' r]. injection Hk as <-. pose proof (ppr_run_keeps conf _ _ _ _ _ _ Hm1) as Hr.
      destruct a' as [y t'|]; [|done]. destruct (decide (y = x)) as [->|Hyx].
      2: { destruct t'; cbn in Hf, Ht; rewrite ?list_lookup_insert_ne in Ht by done; congruence. }
      assert (t' <> t) by congruence. destruct t' as [|num'|]; cbn in Hon, Hf, Ht; [done|..]; rewrite list_lookup_insert_eq in Ht by (by eapply lookup_lt_Some);
        rewrite Hm0 in Hon, Hf; cbn in Hon, Hf, Ht.
      * destruct (q_pulled v0 !! num') as [i'|] eqn:Ei'; cbn in Hon, Hf; [|done]. destruct (i' <? cnt)%nat; [|done]. injection Hon as <- <-. cbn.
        destruct t as [|num|]; [set_solver|..].
        -- destruct Hr as (i & Hi & _ & Epu & _ & Ew & _). rewrite Epu, Ew, list_lookup_insert_ne, Ei' in Ht by congruence. cbn in Ht. congruence.
        -- destruct Hr as (_ & Epu & Ew & _). rewrite Epu, Ew, Ei' in Ht. cbn in Ht. congruence.
      * destruct (q_sent v0 <? cnt)%nat; [|done]. injection Hon as <- <-. cbn. destruct t as [|num|]; [..|done].
        -- destruct Hr as (_ & Es & Ew). rewrite Es, Ew in Ht. congruence.
        -- rewrite Hm0. cbn. destruct Hr as (i & Hi & _ & _ & Es & _ & [En|[Hg|Ew]]).
           ++ rewrite (ppr_worker _ _ _ _ Hp Hm0 Hm En). set_solver.
           ++ rewrite (proj2 (Nat.ltb_lt _ _) Hg), orb_true_r. set_solver.
           ++ rewrite Es, Ew in Ht. congruence.
    + destruct v as [out r]. injection Hk as <-. destruct a' as [y []|]; cbn in Hf, Ht; congruence.
  - intros a st st' sg _ _ _ Hsg Hall s t1 t2 m1 m2 _ _ _ H1 H2.
    assert (Hc : exists x, sg_cv sg = ToSenderCV x).
    { destruct a as [x [|num|]|]; cbn in Hsg; try (case_match); set_solver. }
    destruct Hc as [x Hc]. rewrite Hc in H1, H2. destruct t1 as [x1 []|], t2 as [x2 []|]; cbn in H1, H2; try done;
      repeat match goal with H : _ ≫= _ = Some _ |- _ => apply bind_Some in H as (? & _ & H) end; repeat case_match; congruence.
  - intros a st st' _ _ _. destruct a as [x [|num|]|]; cbn; try done.
    destruct (bool_decide _) eqn:Eb; cbn; [|case_match; cbn; [|done]]; (split; [|done]); intros m [= <-]; repeat constructor.
Qed.

(** A run brings the sum of the blocks by their coefficients. *)
Lemma tree_delivers st : qstarted conf ns k lost loc st ->
  delivers W st (all_qwork conf k) (fun st' => concat (qcollected st') = lincomb k (cnt * size) (qcoef_at ns) (qblk_at ns <$> seq 0 k)).
Proof.
  intros Hst. destruct (qstarted_progress conf ns k lost loc Hpn st Hst) as [Hp H0].
  apply (scheme_delivers tree_laws st _ Hp H0). intros s' Hp' E.
  rewrite (qall_collected conf ns k lost loc s' Hp' E). by eapply qcollected_bytes.
Qed.
End tree.
