(* ===== verification/PipeCoord.v ===== *)
(** * The coordinator of the single-block pipelines (PipeCoordinator.cc)

    [requestHandler] turns a request into one command per helper, pushed to the
    queue of the helper's distributor, and a reply for the client;
    [cmdDistributor] (Coordinator.cc) sends a command on to its helper.  The
    pushes of a request go through [MULTI] and [EXEC], so they are one list. *)
From Stdlib Require Import Ascii Sorted.
From stdpp Require Import strings.
From S2P Require Import Prelude Command Text Config PathSelection Coordinator Packet Metadata DrCmd Request.

Section handler.
Context `{MB : MetadataBase} `{WT : Weight}.
(** Of [Config] and of the members [init] fills: the helpers with their
    queues, the index of every helper and the weights of the links. *)
Context (conf : DRConfig) (_ip2Ctx : list (Z * str)) (_ip2idx : gmap Z Z) (_linkWeight : list (list W)).
Abbreviation ecK := (Z.of_nat (_ecK (_conf conf))).

(** [searchCtx(_ip2Ctx, ip, 0, _slaveCnt - 1)] *)
Definition helper_idx (ip : Z) : res Z :=
  searchCtx (length _ip2Ctx) _ip2Ctx.*1 ip 0 ((Z.of_nat (length _ip2Ctx) - 1) mod 2^64).

(** The order of the helpers when a path is selected: node 0 of the matrix is
    the requestor, and the path is followed backwards. *)
Definition ordered_stripe (requestorIP : Z) (stripe : list (Z * str)) : res (list (Z * str)) :=
  if negb (_pathSelectionEnabled conf) then Ok stripe else
  let n := _ecK (_conf conf) in
  let IPids := (fun ip => default 0 (_ip2idx !! ip)) <$> (requestorIP :: (take n stripe).*1) in
  lWeightMat ← for_each IPids (fun a m =>
    row ← for_each IPids (fun b row => r ← vec _linkWeight a; w ← vec r b; Ok (row ++ [w])) [];
    Ok (m ++ [row])) [];
  '(_, selectedPath) ← intelligentSearch lWeightMat n [];
  for_each (seqZ 0 ecK) (fun i temp =>
    x ← vec selectedPath (ecK - i);
    it ← vec stripe (Z.of_nat x - 1);
    Ok (temp ++ [it])) [].

(** [_status] for [getCoefficient]: the lost block 0, the helpers 2. *)
Definition helper_status (filename : str) (stripe : list (Z * str)) (_status : gmap str Z) : gmap str Z :=
  foldl (fun st it => <[it.2 := 2]> st) (<[filename := 0]> ((fun _ => 1) <$> _status)) stripe.

(** The command to the helper [i]; [ecK - 1] is not masked. *)
Definition helper_push (ecK' requestorIP : Z) (filename : str) (coef : gmap str Z) (stripe : list (Z * str)) (i : Z) : res (str * list Z) :=
  it ← vec stripe i;
  idx ← helper_idx it.1;
  prev ← (if i =? 0 then vec stripe (ecK' - 1) else vec stripe (i - 1));
  next ← (if i =? Z.land ecK' 0xff - 1 then vec stripe 0 else vec stripe (i + 1));
  drCmd ← pipe_helper_cmd idx ecK' requestorIP prev.1 next.1 i (default 0 (coef !! it.2)) filename it.2;
  q ← vec _ip2Ctx idx;
  Ok (q.2, drCmd).

(** The command to the requestor when it holds a block of the stripe. *)
Definition holder_push (requestorIP : Z) (filename : str) (coef : gmap str Z) (held : Z * str) : res (str * list Z) :=
  idx ← helper_idx requestorIP;
  let requestedFileNameLen := length filename in
  let localFileBase := (24 + requestedFileNameLen)%nat in
  let localFileNameLen := length held.2 in
  mem ← memcpys [
    (0, le32 idx);
    (4 + 0, le32 0x010000);
    (4 + 4, le32 requestorIP);
    (4 + 16, le32 0x010000);
    (4 + 20, le32 (coef_len (default 0%Z (coef !! held.2)) requestedFileNameLen));
    (4 + 24, bytes_of filename);
    (4 + localFileBase, le32 (Z.of_nat localFileNameLen));
    (4 + localFileBase + 4, bytes_of held.2);
    (4 + 8, le32 requestorIP)]%nat (zeros COMMAND_MAX_LENGTH);
  q ← vec _ip2Ctx idx;
  Ok (q.2, take (localFileBase + localFileNameLen + 8) mem).

(** [requestHandler] on one request: what it pushes to its Redis, in order;
    [junk] is the memory of the cyclic reply. *)
Definition requestHandler (junk : list Z) (reqStr : list Z) : res (list (str * list Z)) :=
  guard_or (Exit 1) (4 <=? length reqStr)%nat;;
  requestorIP ← read_uint reqStr 0;
  rq ← parseFRRequest (_ecK (_conf conf)) reqStr requestorIP;
  let filename := rq_file rq in
  if negb (rq_index rq =? 0) then Ok [] else
  blks ← getStripeBlks filename requestorIP;
  let stripe := take (_ecK (_conf conf)) blks in
  if bool_decide (stripe = []) || (Z.of_nat (length stripe) <? ecK) then Ok [] else
  stripe ← ordered_stripe requestorIP stripe;
  let _status := helper_status filename stripe (rq_status rq) in
  coef ← getCoefficient filename (Some _status);
  rHolder ← isRequestorHolder stripe requestorIP;
  '(cmds, ecK', stripe) ←
    (if rHolder =? -1 then Ok ([], Z.of_nat (length stripe), stripe) else
     held ← vec stripe rHolder;
     cmd ← holder_push requestorIP filename coef held;
     let stripe := delete (Z.to_nat rHolder) stripe in
     Ok ([cmd], Z.lor (Z.of_nat (length stripe)) 0x0100, stripe));
  cmds ← for_each (seqZ 0 (Z.land ecK' 0xff)) (fun i cmds =>
    c ← helper_push ecK' requestorIP filename coef stripe i; Ok (cmds ++ [c])) cmds;
  reply ← (if contains (lit "basic") (_ECPipePolicy conf)
           then last ← vec stripe (Z.of_nat (length stripe) - 1); Ok (le32 last.1)
           else setupCyclReply junk ecK requestorIP stripe);
  Ok (cmds ++ [(filename, reply)]).

(** [cmdDistributor] on a popped command: the address it is sent to, and the
    value pushed to [dr_cmds] there. *)
Definition cmdDistributor (value : list Z) : res (Z * list Z) :=
  currIdx ← read_int value 0;
  x ← vec _ip2Ctx currIdx;
  Ok (x.1, drop 4 value).
End handler.

(** ** The commands of a request *)

Section commands.
Context `{MB : MetadataBase} `{WT : Weight} (conf : DRConfig) (_ip2Ctx : list (Z * str)) (_ip2idx : gmap Z Z) (_linkWeight : list (list W)).
Abbreviation k := (_ecK (_conf conf)).

(** The helpers of the cluster are listed by address. *)
Record helpers_listed : Prop := {
  hl_sorted : sorted_by (fun i => _ip2Ctx.*1 !! i);
  hl_few : Z.of_nat (length _ip2Ctx) < 2^31
}.
Context (Hhl : helpers_listed).

Lemma helper_found ip : ip ∈ _ip2Ctx.*1 ->
  exists idx q, helper_idx _ip2Ctx ip = Ok (Z.of_nat idx) /\ vec _ip2Ctx (Z.of_nat idx) = Ok (ip, q) /\ is_s32 (Z.of_nat idx).
Proof.
  intros [p Hp]%list_elem_of_lookup. pose proof (lookup_lt_Some _ _ _ Hp) as Hlt. rewrite length_fmap in Hlt.
  pose proof (hl_few Hhl). unfold helper_idx. rewrite Z.mod_small by lia.
  destruct (searchCtx_run (length _ip2Ctx) _ip2Ctx.*1 ip 0 (Z.of_nat (length _ip2Ctx) - 1) p (hl_sorted Hhl)) as (i & -> & Hi);
    rewrite ?length_fmap; try (done || lia).
  rewrite list_lookup_fmap in Hi. destruct (_ip2Ctx !! i) as [[ip' q]|] eqn:E; [|done]. injection Hi as ->.
  exists i, q. split_and!; [done|by apply vec_ok|]. apply lookup_lt_Some in E. unfold is_s32. lia.
Qed.

(** A stripe of [k] helpers of the cluster, none of them the requestor. *)
Record stripe_ok (requestorIP : Z) (filename : str) (stripe : list (Z * str)) : Prop := {
  so_len : length stripe = k;
  so_k : (0 < k < 256)%nat;
  so_nodup : NoDup stripe.*1;
  so_helpers it : it ∈ stripe -> it.1 ∈ _ip2Ctx.*1 /\ is_u32 it.1 /\
    (32 + length filename + length it.2 <= COMMAND_MAX_LENGTH)%nat;
  so_requestor : requestorIP ∉ stripe.*1 /\ is_u32 requestorIP
}.

Section stripe.
Context (requestorIP : Z) (filename : str) (coef : gmap str Z) (stripe : list (Z * str)).
Context (Hso : stripe_ok requestorIP filename stripe) (Hcoef : forall it, it ∈ stripe -> is_byte (default 0 (coef !! it.2))).

(** The fields of the command to the helper [x]: in a ring, [x - 1] before it. *)
Definition ring (x : nat) : dr_cmd :=
  let it := stripe !!! x in
  mkDrCmd (Z.of_nat k) requestorIP (stripe !!! (if decide (x = 0) then k - 1 else x - 1)%nat).1
    (stripe !!! (if decide (S x = k) then 0 else S x)%nat).1 (Z.of_nat x) (default 0 (coef !! it.2)) filename it.2.

Lemma stripe_at x : (x < k)%nat -> stripe !! x = Some (stripe !!! x) /\ vec stripe (Z.of_nat x) = Ok (stripe !!! x) /\ stripe !!! x ∈ stripe.
Proof.
  intros Hx. rewrite <- (so_len _ _ _ Hso) in Hx. pose proof (list_lookup_lookup_total_lt stripe x Hx) as E.
  split_and!; [done|by apply vec_ok|by eapply list_elem_of_lookup_2].
Qed.

Lemma ring_ok x : (x < k)%nat -> cmd_ok (ring x).
Proof.
  intros Hx. pose proof (so_k _ _ _ Hso). destruct (stripe_at x Hx) as (_ & _ & Hin).
  destruct (so_helpers _ _ _ Hso _ Hin) as (_ & _ & Hfit). pose proof (Hcoef _ Hin) as Hb. unfold is_byte in Hb.
  assert (Hip : forall y, (y < k)%nat -> is_u32 (stripe !!! y).1).
  { intros y Hy. destruct (stripe_at y Hy) as (_ & _ & Hiny). by destruct (so_helpers _ _ _ Hso _ Hiny) as (_ & ? & _). }
  assert (Hfit2 : Z.of_nat (length filename) + Z.of_nat (length (stripe !!! x).2) < 2^16) by (unfold COMMAND_MAX_LENGTH in Hfit; lia).
  split; unfold ring; cbn [dr_ecK dr_id dr_requestorIP dr_prevIP dr_nextIP dr_coefficient dr_lostBlkName dr_localBlkName]; [unfold is_s32; lia..|apply Hso| | |lia|lia|lia].
  - apply Hip. case_decide; lia.
  - apply Hip. case_decide; lia.
Qed.

(** The helpers before and after the helper [x] in the ring. *)
Lemma neighbours x : (x < k)%nat ->
  (if Z.of_nat x =? 0 then vec stripe (Z.of_nat k - 1) else vec stripe (Z.of_nat x - 1)) =
    Ok (stripe !!! (if decide (x = 0) then k - 1 else x - 1)%nat) /\
  (if Z.of_nat x =? Z.of_nat k - 1 then vec stripe 0 else vec stripe (Z.of_nat x + 1)) =
    Ok (stripe !!! (if decide (S x = k) then 0 else S x)%nat).
Proof.
  intros Hx. pose proof (so_k _ _ _ Hso) as Hk. split.
  - destruct (Z.eqb_spec (Z.of_nat x) 0), (decide (x = 0)%nat); try lia.
    + replace (Z.of_nat k - 1) with (Z.of_nat (k - 1)) by lia. by apply stripe_at; lia.
    + replace (Z.of_nat x - 1) with (Z.of_nat (x - 1)) by lia. by apply stripe_at; lia.
  - destruct (Z.eqb_spec (Z.of_nat x) (Z.of_nat k - 1)), (decide (S x = k)); try lia.
    + apply (stripe_at 0). lia.
    + replace (Z.of_nat x + 1) with (Z.of_nat (S x)) by lia. by apply stripe_at; lia.
Qed.

(** The push for the helper [x] carries the command [ring x] to its node. *)
Lemma helper_push_ok x : (x < k)%nat ->
  exists q v, helper_push _ip2Ctx (Z.of_nat k) requestorIP filename coef stripe (Z.of_nat x) = Ok (q, v) /\
    cmdDistributor _ip2Ctx v = Ok ((stripe !!! x).1, cmd_bytes (ring x)).
Proof.
  intros Hx. pose proof (so_k _ _ _ Hso) as Hk. destruct (stripe_at x Hx) as (_ & Hv & Hin).
  destruct (so_helpers _ _ _ Hso _ Hin) as (Hh & _ & Hfit). destruct (helper_found _ Hh) as (idx & q & Hidx & Hq & Hs).
  unfold helper_push. rewrite Hv, bind_ok, Hidx, bind_ok, low_byte by lia.
  destruct (neighbours x Hx) as [Hprev Hnext].
  rewrite Hprev, bind_ok, Hnext, bind_ok, pipe_helper_cmd_bytes, bool_decide_true, bind_ok, Hq, bind_ok by done.
  eexists q, _. split; [done|]. unfold cmdDistributor. rewrite read_int_0, bind_ok, Hq, bind_ok by done.
  rewrite drop_app_length' by done. done.
Qed.
End stripe.
End commands.

(** The queues [init] makes: every helper is listed, in order. *)
Lemma queues_listed (helpers : list Z) _distributorThreadNum :
  (0 < _distributorThreadNum)%nat -> sorted_by (fun i => helpers !! i) -> Z.of_nat (length helpers) < 2^31 ->
  exists ctx, ip2Ctx helpers _distributorThreadNum = Ok ctx /\ ctx.*1 = helpers /\ helpers_listed ctx.
Proof.
  intros Ht Hs Hf. destruct (ip2Ctx_ok helpers _distributorThreadNum Ht) as (js & E & Hl & _).
  exists (zip helpers (disQ <$> js)). assert (Hz : (zip helpers (disQ <$> js)).*1 = helpers) by (apply fst_zip; rewrite length_fmap; lia).
  split_and!; [exact E|exact Hz|]. split; [by rewrite Hz|]. rewrite length_zip_with, length_fmap. lia.
Qed.

(** The command to a requestor that holds a block is written in range. *)
Lemma memcpys_ok ws mem :
  Forall (fun w : nat * list Z => (w.1 + length w.2 <= length mem)%nat) ws -> exists m, memcpys ws mem = Ok m.
Proof.
  revert mem. induction ws as [|[off src] ws IH]; intros mem Hall; [by exists mem|].
  apply Forall_cons in Hall as [Hw Hall]. cbn [fst snd] in Hw. rewrite memcpys_cons.
  pose proof (memcpy_Some mem src off Hw) as E. pose proof (memcpy_length _ _ _ _ E) as El. rewrite E. cbn [res_of_option].
  rewrite bind_ok. apply IH. by rewrite El.
Qed.

Lemma holder_push_ok _ip2Ctx (Hhl : helpers_listed _ip2Ctx) ip filename coef held :
  ip ∈ _ip2Ctx.*1 -> (32 + length filename + length held.2 <= COMMAND_MAX_LENGTH)%nat ->
  exists cmd, holder_push _ip2Ctx ip filename coef held = Ok cmd.
Proof.
  intros Hip Hfit. destruct (helper_found _ip2Ctx Hhl ip Hip) as (idx & q & Hidx & Hq & _).
  unfold holder_push. rewrite Hidx, bind_ok.
  match goal with |- context [memcpys ?ws ?mem] => destruct (memcpys_ok ws mem) as [m ->] end.
  - assert (Hz : length (zeros COMMAND_MAX_LENGTH) = COMMAND_MAX_LENGTH) by apply length_replicate.
    rewrite Hz. repeat (apply Forall_cons; split; [cbn [fst snd]; rewrite ?length_le32, ?length_bytes_of; lia|]). apply Forall_nil_2.
  - rewrite bind_ok, Hq, bind_ok. by eexists.
Qed.

(** ** The handler *)

Section requests.
Context `{MB : MetadataBase} `{WT : Weight} (conf : DRConfig) (_ip2Ctx : list (Z * str)) (_ip2idx : gmap Z Z) (_linkWeight : list (list W)).
Context (Hhl : helpers_listed _ip2Ctx).
Abbreviation k := (_ecK (_conf conf)).

(** The status the metadata is asked with, for a choice of helpers. *)
Definition asked (rq : parsed_request) (stripe : list (Z * str)) : gmap str Z :=
  helper_status (rq_file rq) stripe (rq_status rq).

(** A request that is parsed, for which the metadata has [blks] and [coef]. *)
Record request_ok (reqStr : list Z) (ip : Z) (rq : parsed_request) (blks : list (Z * str)) (coef : gmap str Z) : Prop := {
  ro_long : (4 <= length reqStr)%nat;
  ro_ip : read_uint reqStr 0 = Ok ip;
  ro_parsed : parseFRRequest k reqStr ip = Ok rq;
  ro_first : rq_index rq = 0;
  ro_order : _pathSelectionEnabled conf = false;
  ro_k : (0 < k < 256)%nat;
  ro_blks : getStripeBlks (rq_file rq) ip = Ok blks;
  ro_enough : (k <= length blks)%nat;
  ro_coef : getCoefficient (rq_file rq) (Some (asked rq (take k blks))) = Ok coef
}.

(** What [requestHandler] does with it. *)
Lemma requestHandler_parsed junk reqStr ip rq blks coef :
  request_ok reqStr ip rq blks coef ->
  let stripe := take k blks in
  requestHandler conf _ip2Ctx _ip2idx _linkWeight junk reqStr =
    (rHolder ← isRequestorHolder stripe ip;
     '(cmds, ecK', stripe) ←
      (if rHolder =? -1 then Ok ([], Z.of_nat (length stripe), stripe) else
       held ← vec stripe rHolder;
       cmd ← holder_push _ip2Ctx ip (rq_file rq) coef held;
       Ok ([cmd], Z.lor (Z.of_nat (length (delete (Z.to_nat rHolder) stripe))) 0x0100, delete (Z.to_nat rHolder) stripe));
     cmds ← for_each (seqZ 0 (Z.land ecK' 0xff)) (fun i cmds =>
      c ← helper_push _ip2Ctx ecK' ip (rq_file rq) coef stripe i; Ok (cmds ++ [c])) cmds;
     reply ← (if contains (lit "basic") (_ECPipePolicy conf)
              then last ← vec stripe (Z.of_nat (length stripe) - 1); Ok (le32 last.1)
              else setupCyclReply junk (Z.of_nat k) ip stripe);
     Ok (cmds ++ [(rq_file rq, reply)])).
Proof.
  intros [Hl Hip Hrq Hidx Hps Hk Hb Hen Hc] stripe. unfold requestHandler. rewrite (proj2 (Nat.leb_le _ _)) by done. cbn [guard_or].
  rewrite bind_ok, Hip, bind_ok, Hrq, bind_ok, Hidx. cbn [negb Z.eqb]. rewrite Hb, bind_ok. fold stripe.
  assert (Hsl : length stripe = k) by (unfold stripe; rewrite length_take; lia).
  rewrite bool_decide_false by (intros E; rewrite E in Hsl; simpl in Hsl; lia).
  destruct (Z.ltb_spec (Z.of_nat (length stripe)) (Z.of_nat k)); [lia|]. cbn [orb].
  unfold ordered_stripe. rewrite Hps. cbn [negb]. rewrite bind_ok. unfold asked in Hc. fold stripe in Hc. by rewrite Hc, bind_ok.
Qed.

(** The commands make the ring, and the reply names its last helper. *)
Definition ring_pushed (ip : Z) (f : str) (coef : gmap str Z) (stripe : list (Z * str)) (pushes : list (str * list Z)) : Prop :=
  exists cmds, pushes = cmds ++ [(f, le32 (stripe !!! (k - 1)%nat).1)] /\ length cmds = k /\
    forall x, (x < k)%nat -> exists q v, cmds !! x = Some (q, v) /\
      cmdDistributor _ip2Ctx v = Ok ((stripe !!! x).1, cmd_bytes (ring conf ip f coef stripe x)).

Lemma handler_ring junk reqStr ip rq blks coef :
  request_ok reqStr ip rq blks coef -> contains (lit "basic") (_ECPipePolicy conf) = true ->
  let stripe := take k blks in
  stripe_ok conf _ip2Ctx ip (rq_file rq) stripe -> (forall it, it ∈ stripe -> is_byte (default 0 (coef !! it.2))) ->
  exists pushes, requestHandler conf _ip2Ctx _ip2idx _linkWeight junk reqStr = Ok pushes /\ ring_pushed ip (rq_file rq) coef stripe pushes.
Proof.
  intros Hro Hpol stripe Hso Hcoef. pose proof (so_k _ _ _ _ _ Hso) as Hk. pose proof (so_len _ _ _ _ _ Hso) as Hsl.
  rewrite (requestHandler_parsed junk reqStr ip rq blks coef Hro). fold stripe.
  unfold isRequestorHolder. rewrite holder_absent by (try apply (so_requestor _ _ _ _ _ Hso); lia). rewrite bind_ok, Z.eqb_refl, bind_ok, Hsl, low_byte by lia.
  set (f := helper_push _ip2Ctx (Z.of_nat k) ip (rq_file rq) coef stripe).
  set (g := fun i => match f i with Ok c => c | Fault _ => ([], []) end).
  assert (Hf : forall x, (x < k)%nat -> f (Z.of_nat x) = Ok (g (Z.of_nat x)) /\
    cmdDistributor _ip2Ctx (g (Z.of_nat x)).2 = Ok ((stripe !!! x).1, cmd_bytes (ring conf ip (rq_file rq) coef stripe x))).
  { intros x Hx. destruct (helper_push_ok conf _ip2Ctx Hhl ip (rq_file rq) coef stripe Hso x Hx) as (q & v & E & Hd).
    fold f in E. unfold g. by rewrite E. }
  rewrite (for_each_collect _ f g).
  2: { intros i Hi%elem_of_seqZ. replace i with (Z.of_nat (Z.to_nat i)) by lia. apply Hf. lia. }
  rewrite bind_ok, Hpol. replace (Z.of_nat k - 1) with (Z.of_nat (k - 1)) by lia.
  destruct (stripe_at conf _ip2Ctx ip (rq_file rq) stripe Hso (k - 1)) as (_ & Hv & _); [lia|]. rewrite Hv, !bind_ok. cbn [app].
  eexists. split; [done|]. exists (g <$> seqZ 0 (Z.of_nat k)). split; [done|]. split; [rewrite length_fmap, length_seqZ; lia|]. intros x Hx.
  exists (g (Z.of_nat x)).1, (g (Z.of_nat x)).2. split; [|by apply Hf].
  rewrite list_lookup_fmap, lookup_seqZ_lt by lia. rewrite <- surjective_pairing. cbn. by rewrite ?Z.add_0_l.
Qed.

(** A request whose client holds no block of the stripe: the handler pushes
    one command for each of the [ecK] helpers and a reply with the address of
    the last.  The distributor sends the command [x] to the node of block [x];
    its fields make the ring: the helper before, the helper after, the
    coefficient of the block and the two names. *)
Theorem requestHandler_ring junk reqStr ip rq blks coef :
  request_ok reqStr ip rq blks coef -> contains (lit "basic") (_ECPipePolicy conf) = true ->
  let stripe := take k blks in
  stripe_ok conf _ip2Ctx ip (rq_file rq) stripe -> (forall it, it ∈ stripe -> is_byte (default 0 (coef !! it.2))) ->
  exists cmds, requestHandler conf _ip2Ctx _ip2idx _linkWeight junk reqStr = Ok (cmds ++ [(rq_file rq, le32 (stripe !!! (k - 1)%nat).1)]) /\
    length cmds = k /\
    forall x, (x < k)%nat -> exists q v, cmds !! x = Some (q, v) /\
      cmdDistributor _ip2Ctx v = Ok ((stripe !!! x).1, cmd_bytes (ring conf ip (rq_file rq) coef stripe x)).
Proof.
  intros Hro Hpol stripe Hso Hcoef. destruct (handler_ring junk reqStr ip rq blks coef Hro Hpol Hso Hcoef) as (p & E & cmds & -> & H).
  by exists cmds.
Qed.

(** A client that holds a block of the stripe itself: for the first of the
    other helpers the handler reads [stripe\[ecK - 1\]], with bit 8 of [ecK] set
    for the requestor, which is past the end of the stripe. *)
Theorem requestHandler_holder junk reqStr ip rq blks coef :
  request_ok reqStr ip rq blks coef -> (2 <= k)%nat ->
  let stripe := take k blks in
  sorted_by (fun i => fst <$> stripe !! i) -> ip ∈ stripe.*1 ->
  (forall it, it ∈ stripe -> it.1 ∈ _ip2Ctx.*1 /\ (32 + length (rq_file rq) + length it.2 <= COMMAND_MAX_LENGTH)%nat) ->
  requestHandler conf _ip2Ctx _ip2idx _linkWeight junk reqStr = Fault Undef.
Proof.
  intros Hro Hk2 stripe Hsort Hin Hhelp. pose proof (ro_k _ _ _ _ _ Hro) as Hk. pose proof (ro_enough _ _ _ _ _ Hro) as Hlen.
  assert (Hsl : length stripe = k) by (unfold stripe; rewrite length_take; lia).
  rewrite (requestHandler_parsed junk reqStr ip rq blks coef Hro). fold stripe.
  destruct (holder_run (length stripe) stripe ip 0 (Z.of_nat (length stripe) - 1)) as (r & E & Hr); try done; try lia.
  { intros p x Hp _. apply lookup_lt_Some in Hp. lia. }
  unfold isRequestorHolder. rewrite E, bind_ok. destruct Hr as [[_ Hno]|(p & held & -> & Hp & Hheld)]; [done|].
  destruct (Z.eqb_spec (Z.of_nat p) (-1)); [lia|]. rewrite (vec_ok _ _ _ Hp), bind_ok.
  destruct (Hhelp held) as [Hh Hfit]; [by eapply list_elem_of_lookup_2|]. rewrite Hheld in Hh.
  destruct (holder_push_ok _ip2Ctx Hhl ip (rq_file rq) coef held Hh Hfit) as [cmd ->]. rewrite !bind_ok.
  set (rest := delete (Z.to_nat (Z.of_nat p)) stripe).
  assert (Hrl : length rest = (k - 1)%nat) by (unfold rest; rewrite length_delete by (rewrite Nat2Z.id; eauto); lia).
  rewrite Hrl. set (ecK' := Z.lor (Z.of_nat (k - 1)) 0x0100).
  assert (Hbits : ecK' = Z.of_nat (k - 1) + 0x100 /\ Z.land ecK' 0xff = Z.of_nat (k - 1)).
  { assert (Hl8 : Z.land ecK' 0xff = Z.of_nat (k - 1)).
    { unfold ecK'. rewrite Z.land_lor_distr_l, low_byte by lia. change (Z.land 256 0xff) with 0. by rewrite Z.lor_0_r. }
    split; [|done]. unfold ecK'. pose proof (bit8 (k - 1) ltac:(lia)) as Hb8.
    by rewrite Z.add_nocarry_lxor, Z.lxor_lor. }
  destruct Hbits as [Hbig Hlow]. rewrite Hlow. replace (Z.of_nat (k - 1)) with (1 + (Z.of_nat (k - 1) - 1)) by lia.
  rewrite seqZ_app, for_each_app by lia. change (seqZ 0 1) with [0]. cbn [for_each].
  destruct (vec_inside rest 0) as (it & Hv & Hit); [lia|].
  assert (Hitin : it ∈ stripe).
  { apply list_elem_of_lookup_2 in Hit. by apply list_elem_of_delete_inv in Hit. }
  destruct (Hhelp it Hitin) as [Hith _]. destruct (helper_found _ip2Ctx Hhl it.1 Hith) as (idx & q & Hidx2 & _ & _).
  assert (Ev : vec rest (ecK' - 1) = Fault Undef).
  { unfold vec. rewrite Hrl. destruct (Z.ltb_spec (ecK' - 1) (Z.of_nat (k - 1))); [lia|]. by rewrite andb_false_r. }
  assert (E0 : helper_push _ip2Ctx ecK' ip (rq_file rq) coef rest 0 = Fault Undef).
  { unfold helper_push. rewrite Hv, bind_ok, Hidx2, bind_ok. cbn [Z.eqb]. by rewrite Ev. }
  by rewrite E0.
Qed.
End requests.

(** ** A cluster of four nodes *)

(** A (4, 2) stripe on the nodes 1 to 4; the helpers of every block are [a]
    and [b]. *)
Definition four : Config := mkConfig 2 4 8 0 2 [1; 2; 3; 4] 9 0 false false [] 0 [] 0 [].
Definition four_pipe : DRConfig := mkDRConfig four (lit "ecpipe") (lit "basicSingle") (lit "HDFS3") false.
Definition four_blks : list (Z * str) := [(1, lit "a"); (2, lit "b"); (3, lit "c"); (4, lit "d")].
Definition four_ctx : list (Z * str) := [(1, lit "disQ:0"); (2, lit "disQ:0"); (3, lit "disQ:0"); (4, lit "disQ:0")].
Definition four_coef : gmap str Z := {[ lit "a" := 3; lit "b" := 7 ]}.

#[local] Instance four_metadata : MetadataBase := {
  getStripeBlks _ _ := Ok (take 3 four_blks);
  getStripeBlksMul _ _ _ _ := Ok ([], ∅);
  getCoefficient _ _ := Ok four_coef;
  getIPfromBlk b := res_of_option (Exit 1) (p ← list_find (fun p => p.2 = b) four_blks; Some p.2.1);
  getAllBlks _ := Ok four_blks
}.
Lemma four_listed : helpers_listed four_ctx.
Proof. split; [apply sorted_lookup; repeat constructor; discriminate|cbn; lia]. Qed.

Lemma four_request ip : ip = 4 \/ ip = 2 ->
  exists rq, rq_file rq = lit "d" /\ request_ok four_pipe (request_bytes ip [lit "d"]) ip rq (take 3 four_blks) four_coef.
Proof.
  intros [-> | ->]; (eexists (mkReq 0 (lit "d") [(lit "d", 4)] _); split; [reflexivity|]; split;
    [vm_compute; lia|reflexivity|vm_compute; reflexivity|reflexivity|reflexivity|cbn; lia|reflexivity|cbn; lia|reflexivity]).
Qed.

Lemma requestHandler_ring_witness :
  exists cmds, requestHandler four_pipe four_ctx ∅ [] [] (request_bytes 4 [lit "d"]) = Ok (cmds ++ [(lit "d", le32 2)]) /\
    length cmds = 2%nat.
Proof.
  destruct (four_request 4 (or_introl eq_refl)) as (rq & Hf & Hro).
  destruct (requestHandler_ring four_pipe four_ctx ∅ [] four_listed [] (request_bytes 4 [lit "d"]) 4 rq _ _ Hro eq_refl) as (cmds & H1 & H2 & _).
  - rewrite Hf. split; [reflexivity|cbn; lia|decided| |split; [decided|unfold is_u32; lia]].
    intros it Hit. cbn in Hit. apply elem_of_cons in Hit as [->|[->|Hn%not_elem_of_nil]%elem_of_cons]; [..|done];
      (split_and!; [decided|unfold is_u32; cbn; lia|cbn; unfold COMMAND_MAX_LENGTH; lia]).
  - intros it Hit. cbn in Hit. apply elem_of_cons in Hit as [->|[->|Hn%not_elem_of_nil]%elem_of_cons]; [..|done]; decided.
  - exists cmds. rewrite Hf in H1. split; [exact H1|exact H2].
Defined.

Lemma requestHandler_holder_witness :
  requestHandler four_pipe four_ctx ∅ [] [] (request_bytes 2 [lit "d"]) = Fault Undef.
Proof.
  destruct (four_request 2 (or_intror eq_refl)) as (rq & Hf & Hro).
  apply (requestHandler_holder four_pipe four_ctx ∅ [] four_listed [] (request_bytes 2 [lit "d"]) 2 rq _ _ Hro); [cbn; lia|..].
  - intros i j x y Hij Hx Hy. destruct i as [|[|i]], j as [|[|j]]; cbn in Hx, Hy; simplify_eq; lia.
  - decided.
  - intros it Hit. rewrite Hf. cbn in Hit. apply elem_of_cons in Hit as [->|[->|Hn%not_elem_of_nil]%elem_of_cons]; [..|done];
      (split; [decided|cbn; unfold COMMAND_MAX_LENGTH; lia]).
Defined.
