(* ===== verification/MulCoord.v ===== *)
(** * The coordinator of the pipelines of several blocks (PipeMulCoordinator.cc)

    [requestHandler] turns a request for the lost blocks of a stripe into one
    command per helper and lost block, a message to every node that waits for
    its block, and one reply for the client.  It keeps the last helper of every
    lost block and the last cyclic reply for the later requests of HDFS 3. *)
From Stdlib Require Import Ascii Sorted.
From stdpp Require Import strings.
From S2P Require Import Prelude Command Text Config PathSelection Coordinator Packet Metadata DrCmd Request PipeCoord.

(** What [requestHandler] keeps from one request to the next; [drCmdHistory] is
    a pointer that is not initialised. *)
Record mul_coord := mkMulCoord {
  lastHelperStore : gmap str Z;
  drCmdHistory : option (list Z)
}.

(** A push, and to which Redis. *)
Abbreviation passive_push := (Z * list Z)%type.
Abbreviation local_push := (str * list Z)%type.

Section handler.
Context `{MB : MetadataBase} (conf : DRConfig) (_ip2Ctx : list (Z * str)).
Abbreviation ecK := (_ecK (_conf conf)).

(** [outputStripeMul]: whether every lost block has its helpers, and how many
    commands each helper gets. *)
Definition count_job (numOfJobs : gmap Z Z) (it : Z * str) : gmap Z Z := <[it.1 := default 0 (numOfJobs !! it.1) + 1]> numOfJobs.
Definition outputStripeMul (stripe_mul : stripes_mul) : Z * gmap Z Z :=
  foldl (fun '(flag, numOfJobs) it =>
    let stripe := it.2.2 in
    (if bool_decide (stripe = []) || (length stripe <? ecK)%nat then 0 else flag, foldl count_job numOfJobs stripe)) (1, ∅) stripe_mul.

(** [lastHelperStore] for the lost files that have helpers. *)
Definition remember_last (lostFiles : list (str * Z)) (stripes : stripes_mul) (store : gmap str Z) : res (gmap str Z) :=
  for_each lostFiles (fun it store =>
    match List.find (fun it2 => bool_decide (it2.2.1 = it.1)) stripes with
    | Some it2 => h ← res_of_option Undef (last it2.2.2); Ok (<[it.1 := h.1]> store)
    | None => Ok store
    end) store.

(** [_status] for [getCoefficient]: lost blocks 0, the helpers 2. *)
Definition mul_status (stripe : list (Z * str)) (_status : gmap str Z) : gmap str Z :=
  foldl (fun st it => <[it.2 := 2]> st) ((fun v => if v =? 0 then v else 1) <$> _status) stripe.

(** The command to the helper [i] of a lost block. *)
Definition mul_push (requestorIP : Z) (lostFilename : str) (coef : gmap str Z) (stripe : list (Z * str)) (numOfJobs : gmap Z Z)
    (i : Z) '((indOfJobs, cmds) : gmap Z Z * list local_push) : res (gmap Z Z * list local_push) :=
  let ecK' := Z.of_nat (length stripe) in
  it ← vec stripe i;
  idx ← helper_idx _ip2Ctx it.1;
  prev ← (if i =? 0 then vec stripe (ecK' - 1) else vec stripe (i - 1));
  next ← (if i =? Z.land ecK' 0xff - 1 then vec stripe 0 else vec stripe (i + 1));
  let ind := default 0 (indOfJobs !! it.1) in
  drCmd ← mul_helper_cmd idx ecK' requestorIP prev.1 next.1 i (default 0 (coef !! it.2)) lostFilename it.2 ind (default 0 (numOfJobs !! it.1));
  q ← vec _ip2Ctx idx;
  Ok (<[it.1 := ind - 1]> indOfJobs, cmds ++ [(q.2, drCmd)]).

(** The message to the node of a lost block, in HDFS. *)
Definition passive_cmd (requestorIP : Z) (lostFilename : str) : res (list Z) :=
  mem ← memcpys [
    (0, le32 requestorIP);
    (4, le32 requestorIP);
    (8, le32 (Z.of_nat (length lostFilename)));
    (12, bytes_of lostFilename)]%nat (zeros COMMAND_MAX_LENGTH);
  Ok (take (4 + length lostFilename + 8) mem).
Definition passive_request (requestorIP failedIP : Z) (nfiles : nat) (lostFilename : str) : res (list passive_push) :=
  if bool_decide (_fileSysType conf = lit "HDFS") && (negb (failedIP =? requestorIP) && (1 <? nfiles)%nat) then
    idx ← helper_idx _ip2Ctx failedIP;
    drCmd ← passive_cmd requestorIP lostFilename;
    x ← vec _ip2Ctx idx;
    Ok [(x.1, drCmd)]
  else Ok [].

(** What the loop over the lost blocks changes. *)
Record mul_out := mkMulOut {
  mo_status : gmap str Z;
  mo_ind : gmap Z Z;
  mo_cmds : list local_push;
  mo_passive : list passive_push
}.

(** One lost block. *)
Definition mul_stripe (requestorIP : Z) (nfiles : nat) (numOfJobs : gmap Z Z) (it : Z * (str * list (Z * str))) (o : mul_out) : res mul_out :=
  let '(failedIP, (lostFilename, stripe)) := it in
  let _status := mul_status stripe (mo_status o) in
  coef ← getCoefficient lostFilename (Some _status);
  isRequestorHolder stripe failedIP;;
  '(ind, cmds) ← for_each (seqZ 0 (Z.land (Z.of_nat (length stripe)) 0xff)) (mul_push requestorIP lostFilename coef stripe numOfJobs)
    (mo_ind o, mo_cmds o);
  passive ← passive_request requestorIP failedIP nfiles lostFilename;
  Ok (mkMulOut _status ind cmds (mo_passive o ++ passive)).

(** The reply of the basic scheme: the last helpers, and the nodes of the other
    lost blocks. *)
Definition basic_reply (lostFiles : list (str * Z)) (store : gmap str Z) : res (list Z) :=
  f ← res_of_option Undef (lostFiles !! 0%nat);
  let lastHelper := fun (f : str * Z) => default 0 (store !! f.1) in
  Ok (le32 (lastHelper f) ++ concat ((fun f => le32 (lastHelper f) ++ le32 f.2) <$> drop 1 lostFiles)).

(** [setupCyclReply] for several lost blocks; [junk] is the memory it gets.  A
    lost block without helpers counts minus one. *)
Definition setupCyclReplyMul (junk : list Z) (lostFiles : list (str * Z)) (stripes : stripes_mul) : res (list Z) :=
  let drCmdLen := (4 * (ecK + 1) * length lostFiles)%nat in
  guard_or (Exit 1) (negb (length lostFiles =? 0)%nat);;
  guard_or (Exit 1) (negb (length stripes =? 0)%nat);;
  let cmd := concat ((fun f : str * Z =>
    let stripe := default [] ((fun x => x.2.2) <$> List.find (fun x => x.1 =? wrap_u32 f.2) stripes) in
    le32 (Z.of_nat (length stripe) - 1) ++ concat ((fun it : Z * str => le32 it.1) <$> take (length stripe - 1) stripe) ++ le32 f.2) <$> lostFiles) in
  guard_or Undef (length cmd <=? drCmdLen)%nat;;
  Ok (cmd ++ drop (length cmd) (take drCmdLen junk)).

(** A later request of HDFS 3, for another lost block of an earlier one. *)
Definition later_request (index : Z) (lostFiles : list (str * Z)) (s : mul_coord) : res (list local_push * mul_coord) :=
  if bool_decide (_fileSysType conf = lit "HDFS3") then
    f ← vec lostFiles index;
    let filename := f.1 in
    if bool_decide (_DRPolicy conf = lit "ecpipe") && contains (lit "cyclic") (_ECPipePolicy conf) then
      reply ← res_of_option Undef (drCmdHistory s);
      Ok ([(filename, reply)], s)
    else
      let h := default 0 (lastHelperStore s !! filename) in
      guard_or (Exit 1) (negb (h =? 0));;
      Ok ([(filename, le32 h)], mkMulCoord (<[filename := 0]> (lastHelperStore s)) (drCmdHistory s))
  else Ok ([], s).

(** [requestHandler] on one request: the messages to the nodes of the lost
    blocks, what it pushes to its own Redis, and what it keeps. *)
Definition mul_requestHandler (junk : list Z) (reqStr : list Z) (s : mul_coord) : res (list passive_push * list local_push * mul_coord) :=
  guard_or (Exit 1) (4 <=? length reqStr)%nat;;
  requestorIP ← read_uint reqStr 0;
  rq ← parseFRRequest ecK reqStr requestorIP;
  let lostFiles := rq_lost rq in
  if negb (rq_index rq =? 0) then '(pushes, s) ← later_request (rq_index rq) lostFiles s; Ok ([], pushes, s) else
  f ← res_of_option Undef (lostFiles !! 0%nat);
  let filename := f.1 in
  '(stripes, _status) ← getStripeBlksMul filename requestorIP (Some (<[filename := 0]> (rq_status rq))) 0;
  guard_or (Exit 1) (forallb (fun it => negb (bool_decide (it.2.1 = []))) stripes);;
  store ← remember_last lostFiles stripes (lastHelperStore s);
  let '(flag, numOfJobs) := outputStripeMul stripes in
  if flag =? 0 then Ok ([], [], mkMulCoord store (drCmdHistory s)) else
  o ← for_each stripes (mul_stripe requestorIP (length lostFiles) numOfJobs) (mkMulOut _status numOfJobs [] []);
  if bool_decide (_ECPipePolicy conf = lit "basic") then
    reply ← basic_reply lostFiles store;
    Ok (mo_passive o, mo_cmds o ++ [(filename, reply)], mkMulCoord store (drCmdHistory s))
  else
    reply ← setupCyclReplyMul junk lostFiles stripes;
    Ok (mo_passive o, mo_cmds o ++ [(filename, reply)], mkMulCoord store (Some reply)).
End handler.

(** ** The commands of a request *)

(** What the distributors make of some pushes. *)
Definition delivered (_ip2Ctx : list (Z * str)) (cmds : list local_push) (msgs : list (Z * list Z)) : Prop :=
  (fun c => cmdDistributor _ip2Ctx c.2) <$> cmds = Ok <$> msgs.

Lemma delivered_app _ip2Ctx cmds cmds' msgs msgs' :
  delivered _ip2Ctx cmds msgs -> delivered _ip2Ctx cmds' msgs' -> delivered _ip2Ctx (cmds ++ cmds') (msgs ++ msgs').
Proof. unfold delivered. rewrite !fmap_app. by intros -> ->. Qed.

Lemma mul_status_idem stripe st : mul_status stripe (mul_status stripe st) = mul_status stripe st.
Proof.
  apply map_eq. intros b. unfold mul_status. rewrite !marks_lookup. destruct (decide (b ∈ stripe.*2)) as [|Hn]; [done|].
  rewrite !lookup_fmap, marks_lookup, decide_False, lookup_fmap by done. destruct (st !! b) as [v|]; [|done]. cbn. f_equal. destruct (v =? 0) eqn:E; [by rewrite E|done].
Qed.

Section jobs.
Context `{MB : MetadataBase} (conf : DRConfig) (_ip2Ctx : list (Z * str)) (Hhl : helpers_listed _ip2Ctx).
Abbreviation k := (_ecK (_conf conf)).
(** The lost blocks with the addresses of their nodes, and the helpers and
    coefficients the metadata gives. *)
Context (ip : Z) (losts : list (Z * str)) (helpers : list (Z * str)) (coefs : str -> gmap str Z) (st : gmap str Z).
Abbreviation nj := (length losts).

Record jobs_given : Prop := {
  jg_some : (0 < nj)%nat;
  jg_stripe e : e ∈ losts -> stripe_ok conf _ip2Ctx ip e.2 helpers;
  jg_fits e it : e ∈ losts -> it ∈ helpers -> (40 + length e.2 + length it.2 <= COMMAND_MAX_LENGTH)%nat;
  jg_name e : e ∈ losts -> e.2 <> [];
  jg_lost e : e ∈ losts -> e.1 ∉ helpers.*1;
  jg_coef e : e ∈ losts -> getCoefficient e.2 (Some (mul_status helpers st)) = Ok (coefs e.2);
  jg_bytes e it : e ∈ losts -> it ∈ helpers -> is_byte (default 0 (coefs e.2 !! it.2))
}.
Context (Hjg : jobs_given) (Hfs : _fileSysType conf <> lit "HDFS").

Lemma helpers_ok : length helpers = k /\ (0 < k < 256)%nat /\ NoDup helpers.*1 /\ ip ∉ helpers.*1.
Proof.
  destruct (lookup_lt_is_Some_2 losts 0 (jg_some Hjg)) as [e He]. destruct (jg_stripe Hjg e) as [H1 H2 H3 _ [H4 _]]; [by eapply list_elem_of_lookup_2|].
  done.
Qed.

(** The command of the job [t], for the block [f], to the helper [x]: the jobs
    are counted down. *)
Definition job_msg (t : nat) (f : str) (x : nat) : Z * list Z :=
  ((helpers !!! x).1, cmd_bytes (ring conf ip f (coefs f) helpers x) ++ le32 (Z.of_nat nj - Z.of_nat t) ++ le32 (Z.of_nat nj)).
Definition job_msgs (t : nat) (f : str) : list (Z * list Z) := job_msg t f <$> seq 0 k.

(** How many commands a helper has been counted. *)
Lemma count_jobs (num : gmap Z Z) a :
  default 0 (foldl count_job num helpers !! a) = default 0 (num !! a) + if decide (a ∈ helpers.*1) then 1 else 0.
Proof.
  destruct helpers_ok as (_ & _ & Hn & _). revert num Hn. induction helpers as [|it l IH]; intros num Hn; cbn [foldl].
  - rewrite decide_False by apply not_elem_of_nil. lia.
  - rewrite fmap_cons in Hn |- *. apply NoDup_cons in Hn as [Hit Hn]. rewrite IH by done. unfold count_job. destruct (decide (it.1 = a)) as [<-|Hne].
    + rewrite lookup_insert_eq, decide_False, decide_True by (done || left). cbn. lia.
    + rewrite lookup_insert_ne by done. f_equal. apply decide_ext. rewrite elem_of_cons. naive_solver.
Qed.

(** The stripes of the lost blocks. *)
Definition with_helpers (l : list (Z * str)) : stripes_mul := (fun e => (e.1, (e.2, helpers))) <$> l.

Lemma jobs_counted : exists num, outputStripeMul conf (with_helpers losts) = (1, num) /\
  forall it, it ∈ helpers -> default 0 (num !! it.1) = Z.of_nat nj.
Proof.
  destruct helpers_ok as (Hl & Hk & _ & _).
  assert (H : forall l (num : gmap Z Z), exists num', foldl (fun '(flag, numOfJobs) it => let stripe := it.2.2 in
      (if bool_decide (stripe = []) || (length stripe <? k)%nat then 0 else flag, foldl count_job numOfJobs stripe)) (1, num) (with_helpers l) = (1, num') /\
    forall it, it ∈ helpers -> default 0 (num' !! it.1) = default 0 (num !! it.1) + Z.of_nat (length l)).
  2: { destruct (H losts ∅) as (num & E & Hn). exists num. split; [exact E|]. intros it Hit. rewrite (Hn it Hit), lookup_empty. cbn. lia. }
  induction l as [|e l IH]; intros num; [exists num; split; [done|cbn; lia]|]. unfold with_helpers. rewrite fmap_cons. cbn [foldl fst snd].
  rewrite bool_decide_false by (intros E; rewrite E in Hl; simpl in Hl; lia). rewrite (proj2 (Nat.ltb_ge (length helpers) k)) by lia. cbn [orb].
  destruct (IH (foldl count_job num helpers)) as (num' & E & Hn). exists num'. split; [exact E|]. intros it Hit. rewrite (Hn it Hit), count_jobs.
  rewrite decide_True by by apply list_elem_of_fmap_2. cbn [length]. lia.
Qed.

(** One command. *)
Lemma mul_push_ok f t x num ind cmds : (exists a, (a, f) ∈ losts) -> (x < k)%nat ->
  default 0 (num !! (helpers !!! x).1) = Z.of_nat nj -> default 0 (ind !! (helpers !!! x).1) = Z.of_nat nj - Z.of_nat t ->
  exists c, mul_push _ip2Ctx ip f (coefs f) helpers num (Z.of_nat x) (ind, cmds) =
    Ok (<[(helpers !!! x).1 := Z.of_nat nj - Z.of_nat t - 1]> ind, cmds ++ [c]) /\ cmdDistributor _ip2Ctx c.2 = Ok (job_msg t f x).
Proof.
  intros [a Ha] Hx Hnum Hind. pose proof (jg_stripe Hjg _ Ha) as Hso. cbn [snd] in Hso. pose proof (so_k _ _ _ _ _ Hso) as Hk.
  destruct (stripe_at conf _ip2Ctx ip f helpers Hso x Hx) as (_ & Hv & Hin).
  destruct (so_helpers _ _ _ _ _ Hso _ Hin) as (Hh & _ & _). destruct (helper_found _ip2Ctx Hhl _ Hh) as (idx & q & Hidx & Hq & Hs).
  destruct (neighbours conf _ip2Ctx ip f helpers Hso x Hx) as [Hprev Hnext]. pose proof (jg_fits Hjg _ _ Ha Hin) as Hfit. cbn [snd] in Hfit.
  unfold mul_push. rewrite (so_len _ _ _ _ _ Hso), Hv, bind_ok, Hidx, bind_ok, low_byte by lia.
  rewrite Hprev, bind_ok, Hnext, bind_ok, Hind, Hnum, mul_helper_cmd_bytes, bool_decide_true, bind_ok, Hq, bind_ok by done.
  eexists. split; [done|]. cbn [snd]. unfold cmdDistributor. rewrite read_int_0, bind_ok, Hq, bind_ok by done.
  by rewrite drop_app_length' by done.
Qed.

(** The commands of one lost block. *)
Lemma mul_pushes f t num ind cmds : (exists a, (a, f) ∈ losts) ->
  (forall it, it ∈ helpers -> default 0 (num !! it.1) = Z.of_nat nj /\ default 0 (ind !! it.1) = Z.of_nat nj - Z.of_nat t) ->
  exists ind' new, for_each (seqZ 0 (Z.of_nat k)) (mul_push _ip2Ctx ip f (coefs f) helpers num) (ind, cmds) = Ok (ind', cmds ++ new) /\
    delivered _ip2Ctx new (job_msgs t f) /\ forall it, it ∈ helpers -> default 0 (ind' !! it.1) = Z.of_nat nj - Z.of_nat (S t).
Proof.
  intros Hf Hcnt. destruct helpers_ok as (Hl & Hk & Hnd & _).
  assert (Hat : forall x, (x < k)%nat -> helpers !!! x ∈ helpers) by (intros x Hx; apply list_elem_of_lookup_total_2; lia).
  assert (H : forall j, (j <= k)%nat -> exists ind' new, for_each (seqZ 0 (Z.of_nat j)) (mul_push _ip2Ctx ip f (coefs f) helpers num) (ind, cmds) = Ok (ind', cmds ++ new) /\
    delivered _ip2Ctx new (job_msg t f <$> seq 0 j) /\
    forall x, (x < k)%nat -> default 0 (ind' !! (helpers !!! x).1) = Z.of_nat nj - Z.of_nat (if decide (x < j)%nat then S t else t)).
  { induction j as [|j IH]; intros Hj.
    - exists ind, []. rewrite app_nil_r. split; [done|]. split; [done|]. intros x Hx. by apply Hcnt, Hat.
    - destruct IH as (ind1 & new & E & Hd & Hi); [lia|].
      destruct (mul_push_ok f t j num ind1 (cmds ++ new) Hf) as (c & Ec & Hc); [lia|by apply Hcnt, Hat|rewrite Hi by lia; by rewrite decide_False by lia|].
      eexists _, (new ++ [c]). split; [|split].
      + rewrite seqZ_S, for_each_app, E, bind_ok. cbn [for_each]. rewrite Z.add_0_l, Ec, bind_ok. by rewrite app_assoc.
      + rewrite seq_S, fmap_app. apply delivered_app; [done|]. unfold delivered. cbn. by rewrite Hc.
      + intros x Hx. destruct (decide (x = j)) as [->|Hne].
        * rewrite lookup_insert_eq, decide_True by lia. cbn. lia.
        * assert (Hne2 : (helpers !!! j).1 <> (helpers !!! x).1).
          { intros E2. apply Hne. apply (NoDup_lookup helpers.*1 x j (helpers !!! j).1 Hnd);
              rewrite list_lookup_fmap, list_lookup_lookup_total_lt by lia; [by rewrite E2|done]. }
          rewrite lookup_insert_ne, Hi by done.
          do 2 f_equal. destruct (decide (x < j)%nat), (decide (x < S j)%nat); (done || lia). }
  destruct (H k) as (ind' & new & E & Hd & Hi); [lia|]. exists ind', new. split_and!; [done|done|].
  intros it [x Hx]%list_elem_of_lookup. pose proof (lookup_lt_Some _ _ _ Hx) as Hlt. rewrite Hl in Hlt.
  rewrite <- (list_lookup_total_correct _ _ _ Hx), Hi, decide_True by lia. done.
Qed.

(** The commands of a request, block by block. *)
Definition all_msgs (l : list (Z * str)) : list (Z * list Z) := concat ((fun '(t, e) => job_msgs t e.2) <$> zip (seq 0 (length l)) l).

Lemma all_msgs_snoc l e : all_msgs (l ++ [e]) = all_msgs l ++ job_msgs (length l) e.2.
Proof.
  unfold all_msgs. rewrite length_app, seq_app, zip_with_app, fmap_app, concat_app by by rewrite length_seq. cbn. by rewrite app_nil_r.
Qed.

Lemma stripes_pushed nfiles num : (forall it, it ∈ helpers -> default 0 (num !! it.1) = Z.of_nat nj) ->
  exists o, for_each (with_helpers losts) (mul_stripe conf _ip2Ctx ip nfiles num) (mkMulOut st num [] []) = Ok o /\
    mo_passive o = [] /\ delivered _ip2Ctx (mo_cmds o) (all_msgs losts).
Proof.
  intros Hnum. destruct helpers_ok as (Hl & Hk & Hnd & Hip).
  destruct (for_each_total (fun t o => mul_status helpers (mo_status o) = mul_status helpers st /\ mo_passive o = [] /\
      delivered _ip2Ctx (mo_cmds o) (all_msgs (take t losts)) /\ forall it, it ∈ helpers -> default 0 (mo_ind o !! it.1) = Z.of_nat nj - Z.of_nat t)
    (with_helpers losts) (mul_stripe conf _ip2Ctx ip nfiles num) (mkMulOut st num [] [])) as (o & E & _ & Hp & Hd & _).
  - split_and!; [done|done|done|]. intros it Hit. cbn [mo_ind]. rewrite (Hnum it Hit). lia.
  - intros t x o Hx (Hst & Hp & Hd & Hi). cbn [Nat.add] in *. unfold with_helpers in Hx. rewrite list_lookup_fmap in Hx.
    destruct (losts !! t) as [[a f]|] eqn:Et; [|done]. injection Hx as <-. pose proof (list_elem_of_lookup_2 _ _ _ Et) as He.
    pose proof (jg_coef Hjg _ He) as Hc. cbn [snd] in Hc. unfold mul_stripe. cbn [fst snd]. rewrite Hst, Hc, bind_ok.
    unfold isRequestorHolder. rewrite holder_absent by (first [exact (jg_lost Hjg _ He)|lia]). rewrite bind_ok, Hl, low_byte by lia.
    destruct (mul_pushes f t num (mo_ind o) (mo_cmds o)) as (ind' & new & -> & Hn & Hi'); [by exists a|intros it Hit; split; [by apply Hnum|by apply Hi]|].
    rewrite bind_ok. unfold passive_request. rewrite bool_decide_false by done. cbn [andb]. rewrite bind_ok. eexists. split; [done|].
    cbn [mo_status mo_ind mo_cmds mo_passive]. split_and!.
    + apply mul_status_idem.
    + by rewrite Hp.
    + rewrite (take_S_r _ _ _ Et), all_msgs_snoc, length_take. apply delivered_app; [done|]. apply lookup_lt_Some in Et. by rewrite Nat.min_l by lia.
    + intros it Hit. rewrite (Hi' it Hit). lia.
  - exists o. split_and!; [done|done|]. unfold with_helpers in Hd. rewrite length_fmap, take_ge in Hd by done. done.
Qed.

(** The last helpers are the same for all the lost blocks. *)
Definition lastHelper : Z := (helpers !!! (k - 1)%nat).1.

Lemma lost_found f : (exists a, (a, f) ∈ losts) ->
  exists a, List.find (fun it2 => bool_decide (it2.2.1 = f)) (with_helpers losts) = Some (a, (f, helpers)).
Proof.
  intros [a Ha]. clear - Ha. unfold with_helpers. induction losts as [|[b g] l IH]; [by apply not_elem_of_nil in Ha|].
  cbn [fmap list_fmap List.find fst snd]. case_bool_decide as E; [exists b; by rewrite E|].
  apply elem_of_cons in Ha as [[= -> <-]|Ha]; [done|]. by apply IH.
Qed.

Lemma remembered (lostFiles : list (str * Z)) store : (forall e, e ∈ lostFiles -> exists a, (a, e.1) ∈ losts) ->
  exists store', remember_last lostFiles (with_helpers losts) store = Ok store' /\ forall e, e ∈ lostFiles -> store' !! e.1 = Some lastHelper.
Proof.
  intros Hin. destruct helpers_ok as (Hl & Hk & _). assert (Hlast : last helpers = Some (helpers !!! (k - 1)%nat)).
  { rewrite last_lookup, Hl. replace (pred k) with (k - 1)%nat by lia. apply list_lookup_lookup_total_lt. lia. }
  unfold remember_last. destruct (for_each_total (fun n m => forall e, e ∈ take n lostFiles -> m !! e.1 = Some lastHelper) lostFiles
    (fun it store => match List.find (fun it2 => bool_decide (it2.2.1 = it.1)) (with_helpers losts) with
      | Some it2 => h ← res_of_option Undef (last it2.2.2); Ok (<[it.1 := h.1]> store) | None => Ok store end) store) as (store' & E & H).
  - intros e. rewrite take_0. by intros ?%not_elem_of_nil.
  - intros i e m Hi Hm. cbn [Nat.add]. pose proof (list_elem_of_lookup_2 _ _ _ Hi) as He. destruct (lost_found e.1 (Hin e He)) as [a ->]. cbn [snd].
    rewrite Hlast. cbn [res_of_option]. rewrite bind_ok. eexists. split; [done|]. intros e'. rewrite (take_S_r _ _ _ Hi), elem_of_app, list_elem_of_singleton.
    destruct (decide (e.1 = e'.1)) as [<-|Hne]; [by rewrite lookup_insert_eq|]. rewrite lookup_insert_ne by done.
    intros [?| ->]; [by apply Hm|done].
  - exists store'. split; [exact E|]. intros e He. apply H. by rewrite take_ge.
Qed.

(** The reply of the basic scheme. *)
Definition reply_bytes (lostFiles : list (str * Z)) : list Z :=
  le32 lastHelper ++ concat ((fun f => le32 lastHelper ++ le32 f.2) <$> drop 1 lostFiles).

Lemma basic_replied (lostFiles : list (str * Z)) store : lostFiles <> [] -> (forall e, e ∈ lostFiles -> store !! e.1 = Some lastHelper) ->
  basic_reply lostFiles store = Ok (reply_bytes lostFiles).
Proof.
  intros Hne Hst. destruct lostFiles as [|f lostFiles]; [done|]. unfold basic_reply, reply_bytes. cbn [lookup list_lookup res_of_option drop]. rewrite bind_ok.
  rewrite (Hst f) by left. do 3 f_equal. apply list_fmap_ext. intros i g Hg. rewrite (Hst g); [done|]. right. by eapply list_elem_of_lookup_2.
Qed.

(** What [requestHandler] does with the request for the blocks; the reply is what
    the scheme makes of the last helpers and the stripes. *)
Lemma handler_jobs junk reqStr rq f0 s reply :
  (4 <= length reqStr)%nat -> read_uint reqStr 0 = Ok ip -> parseFRRequest k reqStr ip = Ok rq -> rq_index rq = 0 ->
  rq_lost rq !! 0%nat = Some f0 -> (forall e, e ∈ rq_lost rq -> exists a, (a, e.1) ∈ losts) ->
  getStripeBlksMul f0.1 ip (Some (<[f0.1 := 0]> (rq_status rq))) 0 = Ok (with_helpers losts, st) ->
  (forall store, (forall e, e ∈ rq_lost rq -> store !! e.1 = Some lastHelper) ->
    (if bool_decide (_ECPipePolicy conf = lit "basic") then basic_reply (rq_lost rq) store else setupCyclReplyMul conf junk (rq_lost rq) (with_helpers losts)) = Ok reply) ->
  exists cmds s', mul_requestHandler conf _ip2Ctx junk reqStr s = Ok ([], cmds ++ [(f0.1, reply)], s') /\
    delivered _ip2Ctx cmds (all_msgs losts) /\ forall e, e ∈ rq_lost rq -> lastHelperStore s' !! e.1 = Some lastHelper.
Proof.
  intros Hlen Hip Hrq Hidx Hf0 Hin Hmul Hrep. unfold mul_requestHandler. rewrite (proj2 (Nat.leb_le _ _)) by done. cbn [guard_or].
  rewrite bind_ok, Hip, bind_ok, Hrq, bind_ok, Hidx. cbn [negb Z.eqb]. rewrite Hf0. cbn [res_of_option]. rewrite bind_ok, Hmul, bind_ok.
  assert (Hnames : forallb (fun it => negb (bool_decide (it.2.1 = []))) (with_helpers losts) = true).
  { apply forallb_forall. intros it (e & -> & He)%list_elem_of_In%list_elem_of_fmap. cbn. by rewrite bool_decide_false by by apply jg_name. }
  rewrite Hnames. cbn [guard_or]. rewrite bind_ok. destruct (remembered (rq_lost rq) (lastHelperStore s) Hin) as (store & -> & Hst). rewrite bind_ok.
  destruct jobs_counted as (num & -> & Hnum). cbn [Z.eqb]. destruct (stripes_pushed (length (rq_lost rq)) num Hnum) as (o & Eo & Ep & Hd). rewrite Eo, bind_ok.
  specialize (Hrep store Hst). case_bool_decide; rewrite Hrep, bind_ok, Ep; by eexists _, _.
Qed.

(** The reply of the cyclic scheme for one lost block, found by the address of
    its node: all helpers but the last, which is as long as the buffer. *)
Definition cycl_reply_bytes (a : Z) : list Z :=
  le32 (Z.of_nat (k - 1)) ++ concat ((fun it : Z * str => le32 it.1) <$> take (k - 1) helpers) ++ le32 (wrap_s32 a).

Lemma cycl_replied junk f a : losts = [(a, f)] -> is_u32 a -> setupCyclReplyMul conf junk [(f, wrap_s32 a)] (with_helpers losts) = Ok (cycl_reply_bytes a).
Proof.
  intros El Ha. destruct helpers_ok as (Hl & Hk & _). unfold setupCyclReplyMul. cbn [length Nat.eqb negb guard_or]. rewrite bind_ok.
  unfold with_helpers. rewrite El. cbn [fmap list_fmap fst snd length Nat.eqb negb guard_or List.find]. rewrite bind_ok, wrap_u32_s32, wrap_u32_id by done.
  rewrite Z.eqb_refl. cbn [fmap option_fmap option_map default]. unfold id. cbn [concat fst snd]. rewrite app_nil_r, Hl.
  replace (Z.of_nat k - 1) with (Z.of_nat (k - 1)) by lia. fold (cycl_reply_bytes a).
  assert (Elen : length (cycl_reply_bytes a) = (4 * (k + 1) * 1)%nat).
  { unfold cycl_reply_bytes. rewrite !length_app, !length_le32.
    assert (H4 : forall l : list (Z * str), length (concat ((fun it => le32 it.1) <$> l)) = (4 * length l)%nat).
    { induction l as [|it l IH]; [done|]. cbn [fmap list_fmap concat]. rewrite length_app, length_le32, IH. cbn. lia. }
    rewrite H4, length_take. lia. }
  rewrite Elen, (proj2 (Nat.leb_le _ _)) by lia. cbn [guard_or]. rewrite bind_ok. rewrite drop_ge by (rewrite length_take; lia). by rewrite app_nil_r.
Qed.
End jobs.

(** ** Not enough helpers *)

(** When the metadata finds fewer than [k] helpers it answers no stripe at
    all, which the check of [outputStripeMul] lets pass: the coordinator of the
    basic scheme sends no command, and tells the client to pull from where an
    earlier repair of the block ended, or from the address 0. *)
Theorem reply_without_helpers `{MB : MetadataBase} (conf : DRConfig) (_ip2Ctx : list (Z * str)) junk reqStr ip rq (f0 : str * Z) fs s st :
  (4 <= length reqStr)%nat -> read_uint reqStr 0 = Ok ip -> parseFRRequest (_ecK (_conf conf)) reqStr ip = Ok rq -> rq_index rq = 0 ->
  rq_lost rq = f0 :: fs -> getStripeBlksMul f0.1 ip (Some (<[f0.1 := 0]> (rq_status rq))) 0 = Ok ([], st) -> _ECPipePolicy conf = lit "basic" ->
  mul_requestHandler conf _ip2Ctx junk reqStr s =
    Ok ([], [(f0.1, le32 (default 0 (lastHelperStore s !! f0.1)) ++
      concat ((fun f => le32 (default 0 (lastHelperStore s !! f.1)) ++ le32 f.2) <$> fs))], s).
Proof.
  intros Hlen Hip Hrq Hidx Hf0 Hmul Hpol. unfold mul_requestHandler. rewrite (proj2 (Nat.leb_le _ _)) by done. cbn [guard_or].
  rewrite bind_ok, Hip, bind_ok, Hrq, bind_ok, Hidx, Hf0. cbn [negb Z.eqb lookup list_lookup res_of_option]. rewrite bind_ok, Hmul, bind_ok.
  cbn [forallb guard_or]. rewrite bind_ok.
  assert (Hrem : forall l store, remember_last l [] store = Ok store) by (induction l as [|e l IH]; intros store; [done|apply IH]).
  rewrite Hrem, bind_ok. cbn [outputStripeMul foldl Z.eqb for_each]. rewrite bind_ok, bool_decide_true by done.
  unfold basic_reply. cbn. rewrite drop_0. by destruct s.
Qed.

Lemma reply_without_helpers_witness :
  mul_requestHandler (MB := four_metadata) (mkDRConfig four (lit "ecpipe") (lit "basic") (lit "HDFS3") false) four_ctx [] (request_bytes 4 [lit "d"]) (mkMulCoord ∅ None) =
    Ok ([], [(lit "d", le32 0)], mkMulCoord ∅ None).
Proof.
  etrans; [eapply (reply_without_helpers (MB := four_metadata) (mkDRConfig four (lit "ecpipe") (lit "basic") (lit "HDFS3") false) four_ctx [] (request_bytes 4 [lit "d"]) 4
    (mkReq 0 (lit "d") [(lit "d", 4)] {[ lit "a" := 1; lit "b" := 1; lit "c" := 1; lit "d" := 0 ]}) (lit "d", 4) [] (mkMulCoord ∅ None) ∅);
    [vm_compute; lia|reflexivity|vm_compute; reflexivity|reflexivity..]|reflexivity].
Defined.
