(* ===== verification/PPRCoord.v ===== *)
(** * The coordinator of the partial parallel repair (PPRCoordinator.cc)

    [requestHandler] sends a command with the addresses of all the nodes to
    every helper and to the requestor, which each find their place in the tree
    (PPRTree.v) by their index. *)
From Stdlib Require Import Ascii.
From stdpp Require Import strings.
From S2P Require Import Prelude Command Text Galois GF256 Jerasure Gauss Encode Config PathSelection Coordinator Packet Metadata DrCmd Request PipeRepair PPRTree PPRRepair PipeCoord.

(** ** The commands *)

(** The array [holderIps] in memory. *)
Definition ips_bytes (holderIps : list Z) : list Z := concat (le32 <$> holderIps).

(** The command to the helper [i]; [holderIps] has [ecK + 1] addresses. *)
Definition ppr_helper_cmd (idx ecK i : Z) (holderIps : list Z) (coefficient : Z) (filename localFile : str) : res (list Z) :=
  let requestedFileNameLen := length filename in
  let n := length holderIps in
  let localFileBase := (12 + 4 * n + requestedFileNameLen)%nat in
  let localFileNameLen := length localFile in
  mem ← memcpys [
    (0, le32 idx);
    (4 + 0, le32 ecK);
    (4 + 4, le32 i);
    (4 + 8, ips_bytes holderIps);
    (4 + (4 * n + 8), le32 (coef_len coefficient requestedFileNameLen));
    (4 + (4 * n + 12), bytes_of filename);
    (4 + localFileBase, le32 (Z.of_nat localFileNameLen));
    (4 + (localFileBase + 4), bytes_of localFile)]%nat (zeros COMMAND_MAX_LENGTH);
  Ok (take (localFileBase + localFileNameLen + 8) mem).

(** The command to the requestor. *)
Definition ppr_requestor_cmd (idx ecK : Z) (holderIps : list Z) (filename : str) : res (list Z) :=
  let requestedFileNameLen := length filename in
  let n := length holderIps in
  let localFileBase := (12 + 4 * n + requestedFileNameLen)%nat in
  mem ← memcpys [
    (0, le32 idx);
    (4 + 0, le32 ecK);
    (4 + 4, le32 ecK);
    (4 + 8, ips_bytes holderIps);
    (4 + (4 * n + 8), le32 (Z.of_nat requestedFileNameLen));
    (4 + (4 * n + 12), bytes_of filename)]%nat (zeros COMMAND_MAX_LENGTH);
  Ok (take (localFileBase + 4) mem).

(** ** The handler *)

(** [stripe_map[it.first] = it.second]. *)
Definition stripe_map (stripe : list (Z * str)) : list (Z * str) := foldl (fun m it => ip_insert it m) [] stripe.

Section handler.
Context `{MB : MetadataBase} (conf : DRConfig) (_ip2Ctx : list (Z * str)).

(** The command to the helper [i] of the stripe, with the queue it goes to. *)
Definition ppr_helper_push (holderIps : list Z) (filename : str) (coef : gmap str Z) (stripe : list (Z * str)) (i : nat) : res (str * list Z) :=
  it ← vec stripe (Z.of_nat i);
  idx ← helper_idx _ip2Ctx it.1;
  drCmd ← ppr_helper_cmd idx (Z.of_nat (length stripe)) (Z.of_nat i) holderIps (default 0 (coef !! it.2)) filename it.2;
  q ← vec _ip2Ctx idx;
  Ok (q.2, drCmd).

(** [requestHandler] on one request: what it pushes to its Redis, in order.  The
    requests for the other lost blocks of HDFS 3 get a reply only. *)
Definition ppr_requestHandler (reqStr : list Z) : res (list (str * list Z)) :=
  guard_or (Exit 1) (4 <=? length reqStr)%nat;;
  requestorIP ← read_uint reqStr 0;
  rq ← parseFRRequest (_ecK (_conf conf)) reqStr requestorIP;
  if negb (rq_index rq =? 0) then
    if bool_decide (_fileSysType conf = lit "HDFS3") then f ← vec (rq_lost rq) (rq_index rq); Ok [(f.1, le32 f.2)] else Ok []
  else
    f ← vec (rq_lost rq) 0;
    let filename := f.1 in
    blks ← getStripeBlks filename requestorIP;
    let stripe := stripe_map blks in
    coef ← getCoefficient filename None;
    let ecK := length stripe in
    let holderIps := stripe.*1 ++ [requestorIP] in
    cmds ← for_each (seq 0 ecK) (fun i cmds => c ← ppr_helper_push holderIps filename coef stripe i; Ok (cmds ++ [c])) [];
    idx ← helper_idx _ip2Ctx requestorIP;
    drCmd ← ppr_requestor_cmd idx (Z.of_nat ecK) holderIps filename;
    q ← vec _ip2Ctx idx;
    Ok (cmds ++ [(q.2, drCmd)] ++ [(filename, le32 requestorIP)]).
End handler.

(** ** The commands on the wire *)

Record ppr_ok (c : ppr_cmd) : Prop := {
  po_id : 0 <= pp_id c <= pp_ecK c;
  po_ecK : pp_ecK c + 1 < 2 ^ 31;
  po_ips : Z.of_nat (length (pp_holderIps c)) = pp_ecK c + 1;
  po_u32 : Forall is_u32 (pp_holderIps c);
  po_coef : 0 <= pp_coefficient c < 2 ^ 16;
  po_lost : Z.of_nat (length (pp_lost c)) < 2 ^ 16;
  po_local : Z.of_nat (length (pp_local c)) < 2 ^ 16;
  po_requestor : pp_id c = pp_ecK c -> pp_local c = []
}.

Definition ppr_bytes (c : ppr_cmd) : list Z :=
  le32 (pp_ecK c) ++ le32 (pp_id c) ++ ips_bytes (pp_holderIps c) ++ le32 (coef_len (pp_coefficient c) (length (pp_lost c))) ++
  bytes_of (pp_lost c) ++ (if pp_ecK c =? pp_id c then [] else le32 (Z.of_nat (length (pp_local c))) ++ bytes_of (pp_local c)).

Lemma length_ips l : length (ips_bytes l) = (4 * length l)%nat.
Proof. unfold ips_bytes. induction l as [|x l IH]; [done|]. rewrite fmap_cons. cbn [concat]. rewrite length_app, length_le32, IH. simpl. lia. Qed.

#[local] Opaque le32 bytes_of.

Lemma read_ip pre l post j : (j < length l)%nat -> Forall is_u32 l ->
  read_uint (pre ++ ips_bytes l ++ post) (length pre + 4 * j) = Ok (l !!! j).
Proof.
  intros Hj Hall. pose proof (list_lookup_lookup_total_lt l j Hj) as E. pose proof (take_drop_middle l j _ E) as Em.
  assert (Eb : ips_bytes l = ips_bytes (take j l) ++ le32 (l !!! j) ++ ips_bytes (drop (S j) l)).
  { rewrite <- Em at 1. unfold ips_bytes. rewrite fmap_app, fmap_cons, concat_app. done. }
  rewrite Eb, <- app_assoc, <- app_assoc, app_assoc. apply read_uint_at.
  - rewrite length_app, length_ips, length_take. lia.
  - by eapply (proj1 (Forall_lookup _ _) Hall).
Qed.

Ltac ppr_wire := rewrite ?length_app, ?length_le32, ?length_ips, ?length_bytes_of; (done || lia || (unfold is_u32; lia)).

Lemma parse_ppr_bytes c tl : ppr_ok c -> parse_ppr_cmd (ppr_bytes c ++ tl) = Ok c.
Proof.
  intros [Hid HK Hips Hu Hc Hl Hlo Hr]. destruct c as [ecK id ips coef lost local]. cbn in *.
  destruct (coef_len_fields coef (length lost) Hc Hl) as (Hcl & Hhi & Hlow).
  unfold parse_ppr_cmd, ppr_bytes. cbn [pp_ecK pp_id pp_holderIps pp_coefficient pp_lost pp_local].
  set (clen := coef_len coef (length lost)) in *. rewrite <- !app_assoc.
  rewrite read_int_0, bind_ok by (unfold is_s32; lia). rewrite (read_int_at (le32 ecK) id _ 4), bind_ok by (ppr_wire || (unfold is_s32; lia)).
  rewrite (proj2 (Z.ltb_lt _ _)) by lia. cbn [guard_or]. rewrite bind_ok. replace (Z.to_nat (ecK + 1)) with (length ips) by lia.
  rewrite (app_assoc (le32 ecK)). set (pre := le32 ecK ++ le32 id). assert (Hp : length pre = 8%nat) by (unfold pre; ppr_wire).
  set (post := le32 clen ++ _).
  rewrite (for_each_collect (seq 0 (length ips)) (fun j => read_uint (pre ++ ips_bytes ips ++ post) (8 + 4 * j)) (fun j => ips !!! j)).
  2: { intros j [_ Hj]%elem_of_seq. rewrite <- Hp. by apply read_ip. }
  assert (Ei : (fun j => ips !!! j) <$> seq 0 (length ips) = ips).
  { apply list_eq_total; rewrite length_fmap, length_seq; [done|]. intros p Hp2. by rewrite fmap_seq_lookup_total. }
  rewrite Ei, app_nil_l, bind_ok. unfold post. rewrite (app_assoc pre), (read_uint_at (pre ++ ips_bytes ips) clen) by ppr_wire.
  rewrite bind_ok, Hlow, Nat2Z.id, Hhi, (app_assoc (pre ++ _)), (read_str_at _ lost) by ppr_wire. rewrite bind_ok.
  destruct (Z.eqb_spec ecK id) as [E|E]; cbn [negb].
  - by rewrite bind_ok, (Hr ltac:(lia)).
  - rewrite <- (app_assoc (le32 (Z.of_nat (length local)))), (app_assoc (_ ++ le32 clen)).
    rewrite (read_uint_at _ (Z.of_nat (length local))) by ppr_wire. rewrite bind_ok, Nat2Z.id.
    rewrite (app_assoc (_ ++ bytes_of lost)), (read_str_at _ local) by ppr_wire. by rewrite bind_ok.
Qed.

Lemma ppr_helper_bytes idx ecK i holderIps coefficient filename localFile : ecK <> i ->
  (20 + 4 * length holderIps + length filename + length localFile <= COMMAND_MAX_LENGTH)%nat ->
  ppr_helper_cmd idx ecK i holderIps coefficient filename localFile =
    Ok (le32 idx ++ ppr_bytes (mkPprCmd ecK i holderIps coefficient filename localFile)).
Proof.
  intros Hne Hfit. set (bs := [le32 idx; le32 ecK; le32 i; ips_bytes holderIps; le32 (coef_len coefficient (length filename)); bytes_of filename;
    le32 (Z.of_nat (length localFile)); bytes_of localFile]).
  assert (Hc : concat bs = le32 idx ++ ppr_bytes (mkPprCmd ecK i holderIps coefficient filename localFile)).
  { unfold ppr_bytes. cbn [pp_ecK pp_id pp_holderIps pp_coefficient pp_lost pp_local]. rewrite (proj2 (Z.eqb_neq _ _)) by done.
    unfold bs. cbn [concat]. by rewrite app_nil_r. }
  assert (Hl : length (concat bs) = (20 + 4 * length holderIps + length filename + length localFile)%nat).
  { unfold bs. cbn [concat]. rewrite app_nil_r. ppr_wire. }
  assert (E : ppr_helper_cmd idx ecK i holderIps coefficient filename localFile =
    (m ← memcpys (chunks 0 bs) (zeros COMMAND_MAX_LENGTH); Ok (take (length (concat bs)) m))).
  { rewrite Hl. unfold ppr_helper_cmd, bs. cbn [chunks]. rewrite !length_le32, length_ips, length_bytes_of.
    replace (20 + 4 * length holderIps + length filename + length localFile)%nat
      with (12 + 4 * length holderIps + length filename + length localFile + 8)%nat by lia.
    f_equal. f_equal. repeat (lia || f_equal). }
  rewrite E, filled, Hc by lia. done.
Qed.

Lemma ppr_requestor_bytes idx ecK holderIps filename : Z.of_nat (length filename) < 2 ^ 16 ->
  (16 + 4 * length holderIps + length filename <= COMMAND_MAX_LENGTH)%nat ->
  ppr_requestor_cmd idx ecK holderIps filename = Ok (le32 idx ++ ppr_bytes (mkPprCmd ecK ecK holderIps 0 filename [])).
Proof.
  intros Hlen Hfit. set (bs := [le32 idx; le32 ecK; le32 ecK; ips_bytes holderIps; le32 (Z.of_nat (length filename)); bytes_of filename]).
  assert (Hc : concat bs = le32 idx ++ ppr_bytes (mkPprCmd ecK ecK holderIps 0 filename [])).
  { unfold ppr_bytes. cbn [pp_ecK pp_id pp_holderIps pp_coefficient pp_lost pp_local]. rewrite Z.eqb_refl.
    assert (Ec : coef_len 0 (length filename) = Z.of_nat (length filename)).
    { unfold coef_len. rewrite Z.shiftl_0_l. change (wrap_u32 0) with 0. rewrite Z.lor_0_l. apply wrap_u32_id. unfold is_u32. lia. }
    rewrite Ec. unfold bs. cbn [concat]. by rewrite !app_nil_r. }
  assert (Hl : length (concat bs) = (16 + 4 * length holderIps + length filename)%nat).
  { unfold bs. cbn [concat]. rewrite app_nil_r. ppr_wire. }
  assert (E : ppr_requestor_cmd idx ecK holderIps filename =
    (m ← memcpys (chunks 0 bs) (zeros COMMAND_MAX_LENGTH); Ok (take (length (concat bs)) m))).
  { rewrite Hl. unfold ppr_requestor_cmd, bs. cbn [chunks]. rewrite !length_le32, length_ips.
    replace (16 + 4 * length holderIps + length filename)%nat with (12 + 4 * length holderIps + length filename + 4)%nat by lia.
    f_equal. f_equal. repeat (lia || f_equal). }
  rewrite E, filled, Hc by lia. done.
Qed.

(** ** The stripe by address *)

Lemma stripe_map_perm blks : NoDup blks.*1 -> stripe_map blks ≡ₚ blks.
Proof.
  unfold stripe_map. intros Hn. assert (H : forall m, NoDup (m ++ blks).*1 -> foldl (fun m it => ip_insert it m) m blks ≡ₚ m ++ blks).
  2: { by apply (H []). }
  clear Hn. induction blks as [|it blks IH]; intros m Hm; [by rewrite app_nil_r|]. cbn [foldl].
  assert (Hp : ip_insert it m ≡ₚ it :: m).
  { apply ip_insert_perm. rewrite fmap_app, fmap_cons in Hm. apply NoDup_app in Hm as (_ & Hd & _). intros Hin. by apply (Hd _ Hin); left. }
  rewrite IH.
  - rewrite Hp. cbn [app]. apply Permutation_middle.
  - rewrite Hp. cbn [app]. by rewrite Permutation_middle.
Qed.
