(* ===== verification/PipeSystem.v ===== *)
(** * A pipelined repair from request to block

    The client (ECPipeInputStream.cc), the coordinator (PipeCoord.v), the
    helpers (PipeRepair.v) with their waits (PipeWait.v) and the metadata put
    together: no run fails, and unless a wake-up is lost the client receives the
    lost block. *)
From Stdlib Require Import Ascii.
From stdpp Require Import strings relations.
From S2P Require Import Prelude Command Text Galois GF256 Jerasure Gauss Vandermonde ReedSol Encode RSUtil Config Disk PathSelection Coordinator Packet Metadata DrCmd Request Hdfs3 Hdfs3Laws PipeRepair PipeCoord Wait PipeWait.

(** ** The client's side of the reply *)

(** [sendToCoordinator] on the reply of the coordinator, for the pipelines and
    the conventional repair: the connections to pull from and the requestors.
    [_nj] is the number of lost files, 1 but for the pipelines. *)
Definition read_reply (_helpersIPs : list Z) (_locIP : Z) (_nj : nat) (replyStr : list Z) : res (list (option Z) * list Z) :=
  guard_or (Exit 1) (Z.of_nat (length replyStr) =? 8 * Z.of_nat _nj - 4);;
  fetchIP ← read_uint replyStr 0;
  ctx ← findCtx _helpersIPs fetchIP;
  for_each (seq 1 (_nj - 1)) (fun j '(ctxs, reqIPs) =>
    fetchIP ← read_uint replyStr (j * 8 - 4);
    reqIP ← read_uint replyStr (j * 8);
    ctx ← findCtx _helpersIPs fetchIP;
    Ok (ctxs ++ [ctx], reqIPs ++ [reqIP])) ([ctx], [_locIP]).

(** ** The nodes of a request *)

(** What the distributors and the helpers make of the commands of a request;
    the block directory of the node [ip] is [dirs ip]. *)
Definition accept_one (conf : Config) (_ip2Ctx : list (Z * str)) (dirs : Z -> blkdir) (p : str * list Z) : res pnode :=
  '(ip, cmd) ← cmdDistributor _ip2Ctx p.2; accept conf ip (dirs ip) cmd.
Definition accept_all (conf : Config) (_ip2Ctx : list (Z * str)) (dirs : Z -> blkdir) (cmds : list (str * list Z)) : res (list pnode) :=
  for_each cmds (fun p ns => n ← accept_one conf _ip2Ctx dirs p; Ok (ns ++ [n])) [].

(** Everything up to the start of the threads: the client's request, the
    commands and the reply ([pushes]), the nodes and the client's connection. *)
Definition start_repair `{MB : MetadataBase} `{WT : Weight} (conf : DRConfig) (_distributorThreadNum : nat) (dirs : Z -> blkdir)
    (junk : list Z) (_locIP : Z) (filenames : list str) : res (list pnode * Z) :=
  let helpers := _helpersIPs (_conf conf) in
  files ← lost_files conf filenames;
  req ← request junk _locIP files;
  ctx ← ip2Ctx helpers _distributorThreadNum;
  pushes ← requestHandler conf ctx ∅ [] [] req;
  reply ← res_of_option Blocked (last pushes);
  ns ← accept_all (_conf conf) ctx dirs (take (length pushes - 1) pushes);
  '(ctxs, _) ← read_reply helpers _locIP (length files) reply.2;
  fetch ← res_of_option Undef (mjoin (ctxs !! 0%nat));
  Ok (ns, fetch).

(** The helpers are marked 2. *)
Lemma two_marked (helpers : list (Z * str)) (st : gmap str Z) b : st !! b <> Some 2 ->
  foldl (fun st it => <[it.2 := 2]> st) st helpers !! b = Some 2 <-> b ∈ helpers.*2.
Proof. intros H0. rewrite marks_lookup. case_decide; [done|]. by split. Qed.

(** ** One lost block *)

Section repair.
Context `{GF : GFComplete} {GL : GF8Laws} `{DL : DiskLaws} `{MB : MetadataBase} `{WT : Weight}.
Context (conf : DRConfig) (_distributorThreadNum : nat) (dirs : Z -> blkdir).
Abbreviation cf := (_conf conf).
Abbreviation k := (_ecK cf).
Abbreviation cnt := (_packetCnt cf).
Abbreviation size := (_packetSize cf).

(** The configuration: the helpers sorted by address; the basic pipeline of one
    block, no path selection. *)
Record cluster_conf : Prop := {
  rc_k : (0 < k < 256)%nat;
  rc_threads : (0 < _distributorThreadNum)%nat;
  rc_packets : packets_ok cf;
  rc_sorted : sorted_by (fun i => _helpersIPs cf !! i);
  rc_few : Z.of_nat (length (_helpersIPs cf)) < 2^31
}.
Record repair_conf : Prop := {
  rc_order : _pathSelectionEnabled conf = false;
  rc_policy : contains (lit "basic") (_ECPipePolicy conf) = true
}.

(** The stripe of the lost block [f]: its blocks are on different nodes, those
    of the others helpers and not the client. *)
Record repair_stripe (stripe : list str) (holder : str -> Z) (f : str) (ip : Z) : Prop := {
  rs_lost : f ∈ stripe;
  rs_nodes b c : b ∈ stripe -> c ∈ stripe -> holder b = holder c -> b = c;
  rs_helper b : b ∈ stripe -> b <> f -> holder b ∈ _helpersIPs cf /\ is_u32 (holder b) /\ holder b <> ip /\
    (32 + length f + length b <= COMMAND_MAX_LENGTH)%nat;
  rs_client : is_u32 ip
}.

(** The block files, and the bytes of a block its packets cover. *)
Definition covered (disk : str -> list Z) (b : str) : list Z := take (cnt * size) (drop (_packetSkipSize cf) (disk b)).
Record repair_disks (stripe : list str) (holder : str -> Z) (disk : str -> list Z) (f : str) : Prop := {
  rd_file b : b ∈ stripe -> b <> f -> find_block (dirs (holder b)) b = Some (disk b) /\ blk_file cf (disk b);
  rd_lost : length (disk f) = (_packetSkipSize cf + cnt * size)%nat
}.

Context (Hcl : cluster_conf) (stripe : list str) (holder : str -> Z) (disk : str -> list Z) (f : str) (ip : Z).
Context (Hrs : repair_stripe stripe holder f ip) (Hrd : repair_disks stripe holder disk f).

(** The status after the request, with the helpers marked. *)
Lemma helper_status_two g stripe' st b :
  helper_status g stripe' st !! b = Some 2 <-> b ∈ stripe'.*2.
Proof.
  unfold helper_status. apply two_marked. destruct (decide (g = b)) as [->|]; [by rewrite lookup_insert_eq|].
  rewrite lookup_insert_ne, lookup_fmap by done. by destruct (st !! b).
Qed.

(** A choice of helpers the metadata may make. *)
Record choice (blks : list (Z * str)) : Prop := {
  ch_enough : (k <= length blks)%nat;
  ch_nodup : NoDup blks.*2;
  ch_in it : it ∈ blks -> it.2 ∈ stripe /\ it.2 <> f /\ it.1 = holder it.2
}.

Section chosen.
Context (blks : list (Z * str)) (Hch : choice blks) (coef : gmap str Z).
Abbreviation helpers := (take k blks).
Context (Hcoef : rebuilds (cnt * size) (covered disk) f helpers.*2 coef).

Lemma helper_blk it : it ∈ helpers -> it.2 ∈ stripe /\ it.2 <> f /\ it.1 = holder it.2.
Proof. intros (i & Hi & _)%elem_of_take. apply (ch_in _ Hch). by eapply list_elem_of_lookup_2. Qed.

Lemma helpers_nodup : NoDup helpers.*2.
Proof. rewrite fmap_take. eapply sublist_NoDup; [apply (ch_nodup _ Hch)|apply sublist_take]. Qed.

Lemma nodes_nodup : NoDup helpers.*1.
Proof.
  assert (E : helpers.*1 = holder <$> helpers.*2).
  { rewrite <- list_fmap_compose. apply list_fmap_ext. intros i it Hit. cbn. apply helper_blk. by eapply list_elem_of_lookup_2. }
  rewrite E. apply NoDup_fmap_2_strong; [|apply helpers_nodup]. intros b c Hb Hc.
  apply list_elem_of_fmap in Hb as (x & -> & Hx), Hc as (y & -> & Hy). apply (rs_nodes _ _ _ _ Hrs); by apply helper_blk.
Qed.

Lemma helpers_stripe (ctx : list (Z * str)) : ctx.*1 = _helpersIPs cf -> stripe_ok conf ctx ip f helpers.
Proof.
  intros E. split.
  - rewrite length_take. pose proof (ch_enough _ Hch). lia.
  - apply Hcl.
  - apply nodes_nodup.
  - intros it Hit. destruct (helper_blk it Hit) as (Hin & Hne & ->). rewrite E. destruct (rs_helper _ _ _ _ Hrs _ Hin Hne) as (? & ? & _ & ?). done.
  - split; [|apply Hrs]. intros Hin. apply list_elem_of_fmap in Hin as (it & E2 & Hit). destruct (helper_blk it Hit) as (Hin & Hne & E3).
    destruct (rs_helper _ _ _ _ Hrs _ Hin Hne) as (_ & _ & Hip & _). congruence.
Qed.

(** The node of the helper [x]. *)
Definition node (x : nat) : pnode :=
  let c := ring conf ip f coef helpers x in
  mkPNode (helpers !!! x).1 c (Some (disk (helpers !!! x).2)) (Some (dr_prevIP c)).

Lemma at_helper x : (x < k)%nat -> helpers !! x = Some (helpers !!! x) /\ helpers !!! x ∈ helpers.
Proof.
  intros Hx. assert (Hl : (x < length helpers)%nat) by (rewrite length_take; pose proof (ch_enough _ Hch); lia).
  apply list_lookup_lookup_total_lt in Hl. split; [done|by eapply list_elem_of_lookup_2].
Qed.

Lemma node_accepted (ctx : list (Z * str)) x : ctx.*1 = _helpersIPs cf -> (x < k)%nat ->
  accept cf (helpers !!! x).1 (dirs (helpers !!! x).1) (cmd_bytes (ring conf ip f coef helpers x)) = Ok (node x).
Proof.
  intros Ectx Hx. pose proof (helpers_stripe ctx Ectx) as Hso. unfold accept.
  rewrite <- (app_nil_r (cmd_bytes _)), parse_cmd_bytes.
  2: { eapply ring_ok; [exact Hso| |done]. intros it Hit. apply (rb_bytes _ _ _ _ _ Hcoef). by apply list_elem_of_fmap_2. }
  rewrite bind_ok. assert (Hprev : dr_prevIP (ring conf ip f coef helpers x) ∈ _helpersIPs cf).
  { cbn. pose proof (rc_k Hcl). destruct (at_helper (if decide (x = 0) then k - 1 else x - 1)%nat) as [_ Hin]; [case_decide; lia|].
    rewrite <- Ectx. by apply (so_helpers _ _ _ _ _ Hso). }
  rewrite findCtx_helper, bind_ok by done. destruct (at_helper x Hx) as [_ Hin]. destruct (helper_blk _ Hin) as (Hs & Hne & Eh).
  unfold node. do 2 f_equal. cbn [dr_localBlkName ring]. rewrite Eh. by apply (rd_file _ _ _ _ Hrd).
Qed.

(** The nodes make a pipeline. *)
Definition nodes : list pnode := node <$> seq 0 k.

Lemma node_lookup x n : nodes !! x = Some n -> (x < k)%nat /\ n = node x.
Proof. unfold nodes. rewrite list_lookup_fmap. intros (y & [-> Hlt]%lookup_seq & ->)%fmap_Some. done. Qed.

Lemma nodes_at x : (x < k)%nat -> nodes !!! x = node x.
Proof. intros. apply list_lookup_total_correct. unfold nodes. by rewrite list_lookup_fmap, lookup_seq_lt. Qed.

Lemma length_nodes : length nodes = k.
Proof. unfold nodes. by rewrite length_fmap, length_seq. Qed.

Lemma nodes_pipeline : pipeline cf nodes f.
Proof.
  pose proof (rc_k Hcl) as Hk. split; rewrite ?length_nodes.
  - done.
  - assert (E : n_ip <$> nodes = helpers.*1).
    { apply list_eq_same_length with k; [rewrite length_fmap, length_take; pose proof (ch_enough _ Hch); lia|by rewrite length_fmap, length_nodes|].
      intros i a b Hi. rewrite !list_lookup_fmap. unfold nodes. rewrite list_lookup_fmap, lookup_seq_lt by done.
      destruct (at_helper i Hi) as [-> _]. cbn. congruence. }
    rewrite E. apply nodes_nodup.
  - intros x n [Hx ->]%node_lookup. cbn. split_and!; [done..|]. apply (rb_bytes _ _ _ _ _ Hcoef). apply list_elem_of_fmap_2, at_helper, Hx.
  - intros x n m [Hx ->]%node_lookup [Hy ->]%node_lookup. cbn. by rewrite Nat.sub_0_r.
  - intros x n [Hx ->]%node_lookup. cbn. eexists. split; [done|]. destruct (helper_blk (helpers !!! x)) as (Hin & Hne & _); [by apply at_helper|].
    by apply (rd_file _ _ _ _ Hrd).
Qed.

(** The sum the pipeline sends is the lost block. *)
Lemma nodes_sum : lincomb k (cnt * size) (coef_at nodes) (helper_data cf nodes) = covered disk f.
Proof.
  rewrite <- (rb_sum _ _ _ _ _ Hcoef). rewrite length_fmap, length_take, Nat.min_l by apply (ch_enough _ Hch).
  apply list_eq_total; rewrite !length_lincomb; [done|]. intros p Hp. rewrite !lincomb_lookup by done.
  apply xsum_ext. intros x Hx. destruct (at_helper x Hx) as [Hlx _].
  pose proof (nodes_at x Hx) as Hn.
  f_equal.
  - unfold coef_at. rewrite Hn. cbn. assert (E : helpers.*2 !!! x = (helpers !!! x).2) by (apply list_lookup_total_correct; by rewrite list_lookup_fmap, Hlx).
    by rewrite E.
  - assert (E1 : helper_data cf nodes !!! x = drop (_packetSkipSize cf) (disk (helpers !!! x).2)).
    { apply list_lookup_total_correct. unfold helper_data. rewrite list_lookup_fmap, length_nodes, lookup_seq_lt by done. cbn.
      unfold blk_at. by rewrite Hn. }
    assert (E2 : (covered disk <$> helpers.*2) !!! x = covered disk (helpers !!! x).2).
    { apply list_lookup_total_correct. by rewrite !list_lookup_fmap, Hlx. }
    rewrite E1, E2. unfold covered. generalize (drop (_packetSkipSize cf) (disk (helpers !!! x).2)). intros l.
    by rewrite !list_lookup_total_alt, lookup_take_lt.
Qed.
End chosen.

(** ** The start of the repair *)

Context (Hconf : repair_conf) (HM : StripeLaws k (cnt * size) stripe holder (covered disk)).

(** The request reaches the handler, and the metadata answers it. *)
Lemma request_answered junk : (12 + length f <= length junk)%nat ->
  exists m rq blks coef, request junk ip [f] = Ok m /\ rq_file rq = f /\ request_ok conf m ip rq blks coef /\
    choice blks /\ rebuilds (cnt * size) (covered disk) f (take k blks).*2 coef.
Proof.
  intros Hj. pose proof (rs_lost _ _ _ _ Hrs) as Hf. destruct (ml_all f Hf) as (all & Hall & Hin).
  destruct (ml_helpers f ip Hf) as (blks & Hblks & Hen & Hnd & Hel). assert (Hch : choice blks) by by split.
  pose proof (rc_k Hcl) as Hk. assert (Hlf : (length f <= COMMAND_MAX_LENGTH)%nat).
  { destruct (lookup_lt_is_Some_2 blks 0) as [it Hit]; [lia|]. destruct (Hel it) as (H1 & H2 & _); [by eapply list_elem_of_lookup_2|].
    destruct (rs_helper _ _ _ _ Hrs _ H1 H2) as (_ & _ & _ & Hfit). lia. }
  assert (Hsome : all <> []) by (intros ->; by apply Hin, not_elem_of_nil in Hf).
  assert (Hip : forall b, b ∈ [f] \/ b ∈ all.*2 -> getIPfromBlk b = Ok (holder b)).
  { intros b [->%list_elem_of_singleton|Hb%Hin]; by apply ml_ip. }
  destruct (request_parsed holder all f [] Hall Hsome Hip k junk ip) as (m & st & Hm & Hml & Hu & Hp & Hst).
  - apply Hrs.
  - apply Forall_singleton. unfold COMMAND_MAX_LENGTH in Hlf. lia.
  - rewrite length_request. cbn. lia.
  - assert (Hfile : chosen holder f [] ip = f) by (unfold chosen, own_file; cbn; case_bool_decide; [done|]; by destruct (asks_own _ _ _)).
    rewrite Hfile in Hp. set (rq := mkReq 0 f _ st) in Hp.
    destruct (ml_coef f (take k blks).*2 (asked rq (take k blks)) Hf) as (coef & Hc & Hr).
    + intros (it & -> & Hit)%list_elem_of_fmap. by destruct (helper_blk blks Hch it Hit) as (_ & ? & _).
    + by apply helpers_nodup.
    + rewrite length_fmap, length_take. lia.
    + intros b (it & -> & Hit)%list_elem_of_fmap. by apply (helper_blk blks Hch it Hit).
    + intros b. apply helper_status_two.
    + exists m, rq, blks, coef. split_and!; [done|done| |done|done]. split; try done; (apply Hconf || apply Hcl).
Qed.

(** Every node accepts its command, and the client finds the last. *)
Lemma repair_starts junk : (12 + length f <= length junk)%nat ->
  exists ns, start_repair conf _distributorThreadNum dirs junk ip [f] = Ok (ns, (out_key ns f (length ns - 1)).1) /\
    pipeline cf ns f /\ length ns = k /\ lincomb k (cnt * size) (coef_at ns) (helper_data cf ns) = covered disk f.
Proof.
  intros Hj. destruct (request_answered junk Hj) as (m & rq & blks & coef & Hm & Hf & Hro & Hch & Hr).
  destruct (queues_listed (_helpersIPs cf) _distributorThreadNum (rc_threads Hcl) (rc_sorted Hcl) (rc_few Hcl)) as (ctx & Ectx & Hfst & Hlisted). pose proof (rc_k Hcl) as Hk.
  pose proof (helpers_stripe blks Hch ctx Hfst) as Hso. rewrite <- Hf in Hso.
  destruct (handler_ring conf ctx ∅ [] Hlisted [] m ip rq blks coef Hro (rc_policy Hconf) Hso) as (pushes & Ep & cmds & -> & Hlc & Hcmds).
  { intros it Hit. apply (rb_bytes _ _ _ _ _ Hr). by apply list_elem_of_fmap_2. }
  rewrite Hf in *. exists (nodes blks coef). split_and!; [|by apply nodes_pipeline|apply length_nodes|by apply nodes_sum].
  assert (Hfiles : lost_files conf [f] = Ok [f]) by (unfold lost_files; by destruct (_ || _)).
  unfold start_repair. rewrite Hfiles, bind_ok, Hm, bind_ok, Ectx, bind_ok, Ep, bind_ok, last_snoc. cbn [res_of_option].
  rewrite bind_ok, length_app, Nat.add_sub, take_app_length.
  unfold accept_all. set (g := fun p => match accept_one cf ctx dirs p with Ok n => n | Fault _ => inhabitant end).
  assert (Hone : forall x p, cmds !! x = Some p -> accept_one cf ctx dirs p = Ok (node blks coef x)).
  { intros x p Hp. assert (Hx : (x < k)%nat) by (rewrite <- Hlc; by eapply lookup_lt_Some).
    destruct (Hcmds x Hx) as (q & v & Hv & Hd). replace p with (q, v) by congruence. unfold accept_one. cbn [snd]. rewrite Hd, bind_ok.
    by apply node_accepted with (ctx := ctx). }
  rewrite (for_each_collect cmds _ g).
  2: { intros p [x Hp]%list_elem_of_lookup. unfold g. by rewrite (Hone x p Hp). }
  assert (Hg : g <$> cmds = nodes blks coef).
  { apply list_eq_same_length with k; [apply length_nodes|by rewrite length_fmap|]. intros x n n' Hx. unfold nodes.
    rewrite !list_lookup_fmap, lookup_seq_lt by done. intros (p & Hp & ->)%fmap_Some [= <-]. unfold g. by rewrite (Hone x p Hp). }
  rewrite bind_ok, app_nil_l, Hg. unfold read_reply. cbn [length snd]. rewrite length_le32. cbn [Z.of_nat Z.eqb]. cbn [guard_or].
  change (guard_or (Exit 1) (Z.of_nat 4 =? 8 * Z.of_nat 1 - 4)) with (Ok tt). set (ip' := (take k blks !!! (k - 1)%nat).1).
  destruct (at_helper blks Hch (k - 1)) as [_ Hlast]; [lia|]. destruct (so_helpers _ _ _ _ _ Hso _ Hlast) as (Hin & Hu & _).
  assert (Hread : read_uint (le32 ip') 0 = Ok ip') by (rewrite <- (app_nil_r (le32 ip')); by apply read_uint_0).
  rewrite bind_ok, Hread, bind_ok, findCtx_sorted, bind_ok by (apply Hcl || by rewrite <- Hfst). cbn [seq Nat.sub for_each].
  rewrite bind_ok. cbn [lookup list_lookup mjoin option_join res_of_option]. rewrite bind_ok, length_nodes. do 2 f_equal.
  unfold out_key. cbn [fst]. by rewrite nodes_at by lia.
Qed.

(** What a repair promises from a state in which its threads have started:
    whatever their interleaving, no thread fails, they make at most [3 k + 1]
    iterations per packet, and then the client has [result] ([delivers]). *)
Definition repairs (ns : list pnode) (fetchIP : Z) (result : list Z) : Prop :=
  forall st, started cf ns f st -> delivers (pipe_scheme cf ns fetchIP f) st ((3 * k + 1) * cnt) (fun st' => concat (collected st') = result).

Lemma pipe_repair junk : (12 + length f <= length junk)%nat ->
  exists ns fetchIP, start_repair conf _distributorThreadNum dirs junk ip [f] = Ok (ns, fetchIP) /\
    repairs ns fetchIP (drop (_packetSkipSize cf) (disk f)).
Proof.
  intros Hj. destruct (repair_starts junk Hj) as (ns & E & Hpl & Hl & Hsum). eexists ns, _. split; [exact E|].
  intros st Hst. pose proof (pipeline_delivers cf (rc_packets Hcl) ns f Hpl st Hst) as Hd. rewrite Hl, Hsum in Hd.
  unfold covered in Hd. rewrite take_ge in Hd by (rewrite length_drop, (rd_lost _ _ _ _ Hrd); lia). by rewrite Hl.
Qed.
End repair.

(** ** With the metadata of HDFS 3 *)

Section hdfs3.
Context `{GF : GFComplete} {GL : GF8Laws} `{DL : DiskLaws} `{WT : Weight} (talloc : nat -> option (list Z)) (Hta : forall n, exists l, talloc n = Some l /\ length l = n).
Context (random_shuffle : nat -> list (Z * str) -> list (Z * str)) (Hsh : forall i s, random_shuffle i s ≡ₚ s).
Context (conf : DRConfig) (_distributorThreadNum : nat) (Hcl : cluster_conf conf _distributorThreadNum) (Hconf : repair_conf conf).
Context (rackInfos : gmap Z str) (cmdResult : str) (blks : gset str) (stripe2Blk : list (str * list str)).
Context (rs : list (option (Z * str))) (holder : str -> Z).
Abbreviation k := (_ecK (_conf conf)).
Abbreviation covered_size := (_packetCnt (_conf conf) * _packetSize (_conf conf))%nat.

(** C2: The whole of a basic pipelined repair with HDFS 3, for any [k, m >= 1]
    with [k + m <= 256].  The coordinator reads the stripes from the listing and
    the reports; the blocks of a stripe hold a codeword of reed_sol.c.  A client
    that holds no other block of the stripe asks for the lost block [f]: the
    request, its commands and its reply are processed without a fault.  Then, with
    the mutexes and condition variables of the code and whatever the interleaving
    of the threads, none of them ever fails, every run ends unless sleepers wake up
    by themselves, and when all packets have come they are exactly the bytes of
    [f]; and that point can always be reached, if sleepers may wake up by
    themselves or if so far no thread was caught between a test that failed and
    its sleep by what it waits for ([PipeWait.lost_wakeup] has the other case). *)
Theorem hdfs3_pipe_repair m :
  (0 < m)%nat -> (k + m <= 256)%nat -> listing_ok k m cmdResult blks stripe2Blk rs holder ->
  exists encMat h, reed_sol_vandermonde_coding_matrix talloc k m 8 = Ok (Some encMat) /\
    let u := new_RSUtil k (m + k) encMat in
    GetMetadata u k (m + k) cmdResult (reply_of <$> rs) = Ok h /\
    forall l f ip disk dirs data junk, l ∈ stripe2Blk.*2 -> repair_stripe conf l holder f ip -> repair_disks conf dirs l holder disk f ->
      (forall c, (c < k)%nat -> region covered_size (data !!! c)) ->
      (forall i b, l !! i = Some b -> covered conf disk b = stripe_block k covered_size (complete_enc_mat k (m + k) encMat) data i) ->
      (12 + length f <= length junk)%nat ->
      exists ns fetchIP,
        start_repair (MB := hdfs3 random_shuffle (_shuffle (_conf conf)) rackInfos u h) conf _distributorThreadNum dirs junk ip [f] = Ok (ns, fetchIP) /\
        repairs conf f ns fetchIP (drop (_packetSkipSize (_conf conf)) (disk f)).
Proof.
  intros Hm Hkm Hli. pose proof (rc_k _ _ Hcl) as Hk.
  destruct (hdfs3_ready talloc Hta random_shuffle Hsh (_shuffle (_conf conf)) rackInfos k m ltac:(lia) Hm Hkm cmdResult blks stripe2Blk rs holder Hli)
    as (encMat & h & H1 & H2 & H3).
  exists encMat, h. split; [exact H1|]. split; [exact H2|]. intros l f ip disk dirs data junk Hl Hrs Hrd Hd Hcont Hj.
  apply (pipe_repair conf _distributorThreadNum dirs Hcl l holder disk f ip Hrs Hrd Hconf); [|exact Hj].
  exact (ml_stripe (MetadataLaws := H3 l covered_size data (covered conf disk) Hl Hd Hcont)).
Qed.
End hdfs3.

(** The lost block is on the node 1, and the helpers are the nodes 3 and 4. *)
Definition example_lost : str := blk_no 92.
Definition example_data : list (list Z) := [seqZ 1 16; seqZ 101 16].
Definition example_disk : str -> list Z := contents example_stripe 2 16 (complete_enc_mat 2 4 [1; 1; 1; 143]) example_data.
Definition example_dirs (ip : Z) : blkdir :=
  list_to_map ((fun b => (b, example_disk b)) <$> List.filter (fun b => example_holder b =? ip) example_stripe).

Lemma example_all (P : str -> bool) : forallb P example_stripe = true -> forall b, b ∈ example_stripe -> P b = true.
Proof. intros H b Hb%list_elem_of_In. by apply (proj1 (forallb_forall _ _) H). Qed.

Lemma example_nodes b c : b ∈ example_stripe -> c ∈ example_stripe -> example_holder b = example_holder c -> b = c.
Proof.
  assert (H : forall b, b ∈ example_stripe -> forallb (fun c => implb (example_holder b =? example_holder c) (bool_decide (b = c))) example_stripe = true)
    by (apply example_all; vm_compute; reflexivity).
  intros Hb Hc E. specialize (example_all _ (H b Hb) c Hc). cbv beta. rewrite E, Z.eqb_refl. cbn [implb]. apply bool_decide_eq_true.
Qed.

Lemma example_helper b : b ∈ example_stripe -> b <> example_lost ->
  example_holder b ∈ [1; 2; 3; 4] /\ 2 <= example_holder b <= 4 /\ length b = 24%nat.
Proof.
  assert (H : forall b, b ∈ example_stripe -> bool_decide (b = example_lost) || (bool_decide (example_holder b ∈ [1; 2; 3; 4]) &&
      bool_decide (2 <= example_holder b <= 4) && (length b =? 24)%nat) = true) by (apply example_all; vm_compute; reflexivity).
  intros Hb Hne. specialize (H b Hb). rewrite bool_decide_false in H by done. cbn [orb] in H.
  apply andb_true_iff in H as [[H1%bool_decide_eq_true H2%bool_decide_eq_true]%andb_true_iff H3%Nat.eqb_eq]. done.
Qed.

Lemma example_file b : b ∈ example_stripe ->
  example_dirs (example_holder b) !! b = Some (example_disk b) /\ length (example_disk b) = 16%nat /\ Forall is_byte (example_disk b).
Proof.
  assert (H : forall b, b ∈ example_stripe -> bool_decide (example_dirs (example_holder b) !! b = Some (example_disk b)) &&
      ((length (example_disk b) =? 16)%nat && forallb (fun x => bool_decide (0 <= x < 256)) (example_disk b)) = true)
    by (apply example_all; vm_compute; reflexivity).
  intros Hb. specialize (H b Hb). apply andb_true_iff in H as [H1%bool_decide_eq_true [H2%Nat.eqb_eq H3]%andb_true_iff].
  split_and!; [exact H1|exact H2|]. apply Forall_forall. intros x Hx%list_elem_of_In. rewrite forallb_forall in H3.
  exact (bool_decide_eq_true_1 _ (H3 x Hx)).
Qed.

Lemma example_codeword i b : example_stripe !! i = Some b ->
  take 16 (example_disk b) = stripe_block 2 16 (complete_enc_mat 2 4 [1; 1; 1; 143]) example_data i.
Proof.
  intros Hi. unfold example_disk. rewrite (contents_at _ _ _ _ _ i b) by (decided || done). apply take_ge, Nat.eq_le_incl, length_lincomb.
Qed.

Lemma example_regions c : (c < 2)%nat -> region 16 (example_data !!! c).
Proof. intros Hc. destruct c as [|[|c]]; [split; [reflexivity|decided]..|lia]. Qed.

Lemma example_parsed_stripes : example_parsed.2.*2 = [example_stripe].
Proof. vm_compute. reflexivity. Qed.

(** The matrix of reed_sol.c for the (4, 2) code. *)
Lemma example_matrix encMat :
  reed_sol_vandermonde_coding_matrix (fun n => Some (replicate n 77)) 2 2 8 = Ok (Some encMat) -> encMat = [1; 1; 1; 143].
Proof.
  assert (E : reed_sol_vandermonde_coding_matrix (fun n => Some (replicate n 77)) 2 2 8 = Ok (Some [1; 1; 1; 143])) by (vm_compute; reflexivity).
  rewrite E. by intros [= <-].
Qed.

Section example.
Lemma example_cluster : cluster_conf four_pipe 1.
Proof.
  split; [cbn; lia|lia| |apply (sorted_lookup [1; 2; 3; 4]); repeat constructor; discriminate|cbn; lia].
  split; [reflexivity|cbn; lia|cbn; lia].
Qed.

Lemma example_conf : repair_conf four_pipe.
Proof. by split. Qed.

Lemma example_repair_stripe : repair_stripe four_pipe example_stripe example_holder example_lost 1.
Proof.
  split; [decided|exact example_nodes| |unfold is_u32; lia].
  intros b Hb Hne. destruct (example_helper b Hb Hne) as (H1 & H2 & H3). split_and!; [exact H1|unfold is_u32; lia|lia|].
  rewrite H3. change (length example_lost) with 24%nat. unfold COMMAND_MAX_LENGTH. lia.
Qed.

Lemma example_disks : repair_disks four_pipe example_dirs example_stripe example_holder example_disk example_lost.
Proof.
  split.
  - intros b Hin _. destruct (example_file b Hin) as (H1 & H2 & H3). split; [unfold find_block; by rewrite H1|]. split; [|exact H3]. rewrite H2. cbn. lia.
  - apply example_file. decided.
Qed.

Lemma hdfs3_pipe_repair_witness :
  exists h ns fetchIP, GetMetadata (new_RSUtil 2 4 [1; 1; 1; 143]) 2 4 example_listing (reply_of <$> example_reports) = Ok h /\
    start_repair (MB := hdfs3 (fun _ l => l) false ∅ (new_RSUtil 2 4 [1; 1; 1; 143]) h) four_pipe 1 example_dirs (zeros 1024) 1 [example_lost] = Ok (ns, fetchIP) /\
    repairs four_pipe example_lost ns fetchIP (seqZ 1 16).
Proof.
  destruct (hdfs3_pipe_repair (fun n => Some (replicate n 77)) ltac:(intros n; eexists; split; [reflexivity|apply length_replicate])
    (fun _ l => l) ltac:(reflexivity) four_pipe 1 example_cluster example_conf ∅ example_listing example_parsed.1 example_parsed.2 example_reports example_holder
    2 ltac:(lia) ltac:(cbn; lia) example_listing_ok) as (encMat & h & H1 & H2 & H3).
  apply example_matrix in H1. subst encMat.
  destruct (H3 example_stripe example_lost 1 example_disk example_dirs example_data (zeros 1024)
    ltac:(rewrite example_parsed_stripes; left) example_repair_stripe example_disks) as (ns & fetchIP & H4 & H5).
  - exact example_regions.
  - exact example_codeword.
  - unfold zeros. rewrite length_replicate. change (length example_lost) with 24%nat. lia.
  - exists h, ns, fetchIP. split; [exact H2|]. split; [exact H4|].
    assert (Ed : drop (_packetSkipSize (_conf four_pipe)) (example_disk example_lost) = seqZ 1 16) by (vm_compute; reflexivity). rewrite <- Ed. exact H5.
Defined.
End example.
