(* ===== verification/MulSystem.v ===== *)
(** * A repair of several blocks from request to blocks

    The client, the coordinator of MulCoord.v, the helpers of MulRepair.v with the
    waits of MulWait.v and the metadata put together, for the first repair of the
    helpers: no run fails, and unless a wake-up is lost the client receives every
    lost block it asked for. *)
From Stdlib Require Import Ascii.
From stdpp Require Import strings relations.
From S2P Require Import Prelude Command Text Galois GF256 Jerasure Gauss Vandermonde ReedSol Encode RSUtil Config Disk PathSelection Coordinator Packet Metadata DrCmd Request Hdfs3 Hdfs3Laws PipeRepair MulRepair MulProgress PipeCoord MulCoord PipeSystem Wait MulWait.

(** ** The nodes of a request *)

(** What a helper makes of its commands, in the order it gets them: the lists of
    jobs it starts its threads with. *)
Definition receive_jobs (pipeMulJobs : list dr_cmd) (cmds : list (list Z)) : res (list dr_cmd * list (list dr_cmd)) :=
  for_each cmds (fun cmd '((jobs, started) : list dr_cmd * list (list dr_cmd)) =>
    '(jobs, go) ← take_job jobs cmd;
    Ok (jobs, if go : bool then started ++ [jobs] else started)) (pipeMulJobs, []).

(** The helper at [ip], which starts its threads once. *)
Definition mul_node (conf : Config) (dirs : Z -> blkdir) (msgs : list (Z * list Z)) (ip : Z) : res mnode :=
  '(_, started) ← receive_jobs [] (List.filter (fun m => m.1 =? ip) msgs).*2;
  jobs ← res_of_option Blocked (started !! 0%nat);
  start_node conf ip (dirs ip) jobs.

(** The client's connections and the nodes of the lost blocks. *)
Definition mul_fetch (_helpersIPs : list Z) (_locIP : Z) (_nj : nat) (reply : list Z) : res (list Z * list Z) :=
  '(ctxs, reqIPs) ← read_reply _helpersIPs _locIP _nj reply;
  fetch ← res_of_option Undef (mapM id ctxs);
  Ok (fetch, reqIPs).

(** Everything up to the start of the helpers' threads, and the reply for the
    client. *)
Definition start_helpers `{MB : MetadataBase} (conf : DRConfig) (_distributorThreadNum : nat) (dirs : Z -> blkdir)
    (junk junk' : list Z) (s : mul_coord) (_locIP : Z) (filenames : list str) : res (nat * list mnode * list Z * mul_coord) :=
  let helpers := _helpersIPs (_conf conf) in
  files ← lost_files conf filenames;
  req ← request junk _locIP files;
  ctx ← ip2Ctx helpers _distributorThreadNum;
  '(_, pushes, s) ← mul_requestHandler conf ctx junk' req s;
  reply ← res_of_option Blocked (last pushes);
  msgs ← for_each (take (length pushes - 1) pushes) (fun c msgs => m ← cmdDistributor ctx c.2; Ok (msgs ++ [m])) [];
  ns ← for_each (remove_dups msgs.*1) (fun ip ns => n ← mul_node (_conf conf) dirs msgs ip; Ok (ns ++ [n])) [];
  Ok (length files, ns, reply.2, s).

(** With the connections of the client. *)
Definition start_mul_repair `{MB : MetadataBase} (conf : DRConfig) (_distributorThreadNum : nat) (dirs : Z -> blkdir)
    (junk junk' : list Z) (s : mul_coord) (_locIP : Z) (filenames : list str) : res (list mnode * list Z * list Z * mul_coord) :=
  '(_nj, ns, reply, s) ← start_helpers conf _distributorThreadNum dirs junk junk' s _locIP filenames;
  '(fetch, reqIPs) ← mul_fetch (_helpersIPs (_conf conf)) _locIP _nj reply;
  Ok (ns, fetch, reqIPs, s).

(** ** The jobs of a helper *)

Section received.
Context `{MB : MetadataBase} (conf : DRConfig) (ip : Z) (losts helpers : list (Z * str)) (coefs : str -> gmap str Z).
Abbreviation k := (_ecK (_conf conf)).
Abbreviation nj := (length losts).
Context (Hlen : length helpers = k) (Hnd : NoDup helpers.*1) (Hfew : Z.of_nat nj < 2^32).
Context (Hcmds : forall e x, e ∈ losts -> (x < k)%nat -> cmd_ok (ring conf ip e.2 (coefs e.2) helpers x)).
Abbreviation msgs := (all_msgs conf ip losts helpers coefs losts).
Abbreviation addr x := ((helpers !!! x).1).

(** The commands to the helper [x], the first [t]. *)
Definition cmds_to (x : nat) (l : list (Z * str)) : list (list Z) :=
  (fun '(t, e) => (job_msg conf ip losts helpers coefs t e.2 x).2) <$> zip (seq 0 (length l)) l.

Lemma addr_inj x y : (x < k)%nat -> (y < k)%nat -> addr x = addr y -> x = y.
Proof.
  intros Hx Hy E. apply (NoDup_lookup helpers.*1 x y (addr x) Hnd); rewrite list_lookup_fmap, list_lookup_lookup_total_lt by lia; [done|].
  by rewrite E.
Qed.

Lemma filter_job t f x : (x < k)%nat ->
  List.filter (fun m => m.1 =? addr x) (job_msgs conf ip losts helpers coefs t f) = [job_msg conf ip losts helpers coefs t f x].
Proof.
  intros Hx. unfold job_msgs. assert (H : forall a n, (a <= x < a + n)%nat -> (a + n <= k)%nat ->
    List.filter (fun m => m.1 =? addr x) (job_msg conf ip losts helpers coefs t f <$> seq a n) = [job_msg conf ip losts helpers coefs t f x]).
  2: { apply H; lia. }
  assert (Hno : forall a n, (x < a)%nat -> (a + n <= k)%nat -> List.filter (fun m => m.1 =? addr x) (job_msg conf ip losts helpers coefs t f <$> seq a n) = []).
  { intros a n. revert a. induction n as [|n IH]; intros a Ha Hk; [done|]. cbn [seq fmap list_fmap List.filter]. cbn [job_msg fst].
    destruct (Z.eqb_spec (addr a) (addr x)) as [E|_]; [apply addr_inj in E; lia|]. apply IH; lia. }
  intros a n. revert a. induction n as [|n IH]; intros a Ha Hk; [lia|]. cbn [seq fmap list_fmap List.filter]. cbn [job_msg fst].
  destruct (Z.eqb_spec (addr a) (addr x)) as [E|E].
  - apply addr_inj in E as ->; [|lia..]. f_equal. apply Hno; lia.
  - apply IH; [|lia]. destruct (decide (a = x)) as [->|]; [done|lia].
Qed.

Lemma filter_msgs x l : (x < k)%nat -> (List.filter (fun m => m.1 =? addr x) (all_msgs conf ip losts helpers coefs l)).*2 = cmds_to x l.
Proof.
  intros Hx. induction l as [|e l IH] using rev_ind; [done|]. unfold cmds_to in *. rewrite all_msgs_snoc, List.filter_app, fmap_app, IH, filter_job by done.
  by rewrite length_app, seq_app, zip_with_app, fmap_app by by rewrite length_seq.
Qed.

(** The job [e] of the helper [x]. *)
Definition job (x : nat) (e : Z * str) : dr_cmd := ring conf ip e.2 (coefs e.2) helpers x.

Lemma taken_job jobs t e x : losts !! t = Some e -> (x < k)%nat -> jobs = job x <$> take t losts ->
  take_job jobs (job_msg conf ip losts helpers coefs t e.2 x).2 = Ok (job x <$> take (S t) losts, bool_decide (S t = nj)).
Proof.
  intros Ht Hx ->. pose proof (lookup_lt_Some _ _ _ Ht) as Hlt. unfold take_job, job_msg. cbn [snd].
  rewrite parse_mul_bytes, bind_ok by (try (apply Hcmds; [by eapply list_elem_of_lookup_2|done]); unfold is_u32; lia).
  rewrite (take_S_r _ _ _ Ht), fmap_app. do 2 f_equal.
  - destruct (Z.eqb_spec (Z.of_nat nj - Z.of_nat t) (Z.of_nat nj)) as [E|E]; [|done]. replace t with 0%nat by lia. done.
  - apply eq_bool_prop_intro. rewrite !Is_true_true, Z.eqb_eq, bool_decide_eq_true. lia.
Qed.

(** The helper [x] starts its threads once, with all its jobs. *)
Lemma jobs_received x : (0 < nj)%nat -> (x < k)%nat -> receive_jobs [] (cmds_to x losts) = Ok (job x <$> losts, [job x <$> losts]).
Proof.
  intros Hnj Hx. unfold receive_jobs.
  destruct (for_each_total (fun t '(jobs, started) => jobs = job x <$> take t losts /\ started = if bool_decide (t = nj) then [job x <$> losts] else [])
    (cmds_to x losts) (fun cmd '((jobs, started) : list dr_cmd * list (list dr_cmd)) => '(jobs, go) ← take_job jobs cmd; Ok (jobs, if go : bool then started ++ [jobs] else started)) ([], []))
    as ([jobs started] & E & -> & ->).
  - by rewrite bool_decide_false by lia.
  - intros t cmd [jobs started] Hc [Hj ->]. cbn [Nat.add]. unfold cmds_to in Hc. rewrite list_lookup_fmap in Hc.
    destruct (zip (seq 0 nj) losts !! t) as [[t' e]|] eqn:Et; [|done]. apply lookup_indexed in Et as [E1 Et]. cbn [fst snd] in *. subst t'.
    assert (cmd = (job_msg conf ip losts helpers coefs t e.2 x).2) as -> by (injection Hc as <-; reflexivity).
    rewrite (taken_job jobs t e x Et Hx Hj), bind_ok. eexists. split; [done|]. split; [done|].
    apply lookup_lt_Some in Et. rewrite (bool_decide_false (t = nj)) by lia. case_bool_decide as E; [|done]. by rewrite take_ge by lia.
  - rewrite E. unfold cmds_to. rewrite length_fmap, length_indexed, take_ge by done. by rewrite bool_decide_true.
Qed.

(** The helpers that get commands, in the order of the ring. *)
Lemma remove_dups_covered (l l' : list Z) : (forall a, a ∈ l -> a ∈ l') -> NoDup l' -> remove_dups (l ++ l') = l'.
Proof.
  intros H Hl'. induction l as [|a l IH]; cbn [app remove_dups].
  - clear H. induction Hl' as [|a l' Ha _ IH]; [done|]. cbn [remove_dups]. destruct (decide_rel _ a l'); [done|]. by rewrite IH.
  - destruct (decide_rel _ a (l ++ l')) as [|Hn]; [apply IH; intros b Hb; apply H; by right|].
    exfalso. apply Hn, elem_of_app. right. apply H. left.
Qed.

Lemma job_addrs t f : (job_msgs conf ip losts helpers coefs t f).*1 = helpers.*1.
Proof.
  unfold job_msgs. rewrite <- list_fmap_compose. apply list_eq_same_length with k; rewrite ?length_fmap, ?length_seq; [done..|].
  intros x a b Hx. rewrite !list_lookup_fmap, lookup_seq_lt, list_lookup_lookup_total_lt by lia. cbn. congruence.
Qed.

Lemma addrs_told : (0 < nj)%nat -> remove_dups msgs.*1 = helpers.*1.
Proof.
  assert (Hall : forall l a, a ∈ (all_msgs conf ip losts helpers coefs l).*1 -> a ∈ helpers.*1).
  { induction l as [|e l IH] using rev_ind; intros a; [by intros ?%not_elem_of_nil|].
    rewrite all_msgs_snoc, fmap_app, elem_of_app, job_addrs. intros [?|?]; [by apply IH|done]. }
  intros Hnj. assert (El : exists l e, losts = l ++ [e]).
  { clear - Hnj. destruct losts as [|e l _] using rev_ind; [cbn in Hnj; lia|by exists l, e]. }
  destruct El as (l & e & El). pose proof (all_msgs_snoc conf ip losts helpers coefs l e) as Em. rewrite <- El in Em.
  rewrite Em, fmap_app, job_addrs. apply remove_dups_covered; [apply Hall|done].
Qed.
End received.

(** ** Several lost blocks *)

Section repair.
Context `{GF : GFComplete} {GL : GF8Laws} `{DL : DiskLaws} `{MB : MetadataBase}.
Context (conf : DRConfig) (_distributorThreadNum : nat) (dirs : Z -> blkdir) (Hcl : cluster_conf conf _distributorThreadNum).
Abbreviation cf := (_conf conf).
Abbreviation k := (_ecK cf).
Abbreviation cnt := (_packetCnt cf).
Abbreviation size := (_packetSize cf).

(** The basic pipelines for several blocks, with a file system whose nodes do
    not wait for their blocks. *)
Record mul_conf : Prop := {
  mc_policy : _DRPolicy conf = lit "ecpipe";
  mc_scheme : _ECPipePolicy conf = lit "basic";
  mc_fs : _fileSysType conf <> lit "HDFS"
}.

(** The lost blocks [files] of a stripe: its blocks are on different nodes, and
    [k] of the others are not on the client; those are helpers. *)
Record mul_lost (stripe : list str) (holder : str -> Z) (files : list str) (ip : Z) : Prop := {
  ml_some : files <> [];
  ml_few : (length files <= MAX_ECK)%nat;
  ml_nodup : NoDup files;
  ml_lost f : f ∈ files -> f ∈ stripe /\ f <> [];
  ml_nodes b c : b ∈ stripe -> c ∈ stripe -> holder b = holder c -> b = c;
  ml_alive : exists alive, NoDup alive /\ length alive = k /\ forall b, b ∈ alive -> b ∈ stripe /\ b ∉ files /\ holder b <> ip;
  ml_helper b : b ∈ stripe -> b ∉ files -> holder b <> ip -> holder b ∈ _helpersIPs cf /\ is_u32 (holder b) /\
    forall f, f ∈ files -> (40 + length f + length b <= COMMAND_MAX_LENGTH)%nat;
  ml_client : is_u32 ip
}.

(** The block files. *)
Record mul_disks (stripe : list str) (holder : str -> Z) (disk : str -> list Z) (files : list str) : Prop := {
  md_file b : b ∈ stripe -> b ∉ files -> find_block (dirs (holder b)) b = Some (disk b) /\ blk_file cf (disk b);
  md_lost f : f ∈ files -> length (disk f) = (_packetSkipSize cf + cnt * size)%nat
}.

Context (stripe : list str) (holder : str -> Z) (disk : str -> list Z) (files : list str) (ip : Z).
Context (Hml : mul_lost stripe holder files ip) (Hmd : mul_disks stripe holder disk files).

Lemma short_name f : f ∈ files -> (length f <= COMMAND_MAX_LENGTH)%nat.
Proof.
  intros Hf. destruct (ml_alive _ _ _ _ Hml) as (alive & _ & Hk & Hin). pose proof (rc_k _ _ Hcl).
  destruct (lookup_lt_is_Some_2 alive 0) as [b Hb%list_elem_of_lookup_2]; [lia|]. destruct (Hin b Hb) as (H1 & H2 & H3).
  destruct (ml_helper _ _ _ _ Hml b H1 H2 H3) as (_ & _ & Hfit). specialize (Hfit f Hf). lia.
Qed.

(** What the metadata answers: helpers, the lost blocks in an order of its own,
    and coefficients for the status it leaves. *)
Record answer (helpers losts : list (Z * str)) (st : gmap str Z) (coefs : str -> gmap str Z) : Prop := {
  an_len : length helpers = k;
  an_nodup : NoDup helpers.*2;
  an_in it : it ∈ helpers -> it.2 ∈ stripe /\ it.2 ∉ files /\ it.1 = holder it.2 /\ it.1 <> ip;
  an_losts : losts ≡ₚ (fun f => (holder f, f)) <$> files;
  an_coef f : f ∈ files -> getCoefficient f (Some (mul_status helpers st)) = Ok (coefs f);
  an_rebuilds f : f ∈ files -> rebuilds (cnt * size) (covered conf disk) f helpers.*2 (coefs f)
}.

Section answered.
Context (helpers losts : list (Z * str)) (st : gmap str Z) (coefs : str -> gmap str Z) (Han : answer helpers losts st coefs).

(** Seen by the lost block [f], the stripe is [f] and the helpers. *)
Abbreviation rest f := (f :: helpers.*2).

Lemma one_stripe f : f ∈ files -> repair_stripe conf (rest f) holder f ip.
Proof.
  intros Hf. assert (Hin : forall b, b ∈ rest f -> b ∈ stripe /\ (b <> f -> b ∉ files /\ holder b <> ip)).
  { intros b [->|(it & -> & Hit)%list_elem_of_fmap]%elem_of_cons; [split; [by apply (ml_lost _ _ _ _ Hml)|done]|].
    destruct (an_in _ _ _ _ Han it Hit) as (? & ? & <- & ?). done. }
  split; [left| | |apply Hml].
  - intros b c Hb Hc. by apply (ml_nodes _ _ _ _ Hml); apply Hin.
  - intros b Hb Hne. destruct (Hin b Hb) as [Hs Hother]. destruct (Hother Hne) as [Hnf Hip].
    destruct (ml_helper _ _ _ _ Hml b Hs Hnf Hip) as (H1 & H2 & H3). split_and!; [done|done|done|]. specialize (H3 f Hf). lia.
Qed.

Lemma one_disks f : f ∈ files -> repair_disks conf dirs (rest f) holder disk f.
Proof.
  intros Hf. split; [|by apply (md_lost _ _ _ _ Hmd)].
  intros b [->|(it & -> & Hit)%list_elem_of_fmap]%elem_of_cons Hne; [done|].
  destruct (an_in _ _ _ _ Han it Hit) as (? & ? & _). by apply (md_file _ _ _ _ Hmd).
Qed.

Lemma one_choice f : f ∈ files -> choice conf (rest f) holder f helpers.
Proof.
  intros Hf. split; [by rewrite (an_len _ _ _ _ Han)|apply Han|]. intros it Hit. destruct (an_in _ _ _ _ Han it Hit) as (_ & H2 & H3 & _).
  split_and!; [right; by apply list_elem_of_fmap_2|by intros E; rewrite E in H2|done].
Qed.

Lemma all_helpers : take k helpers = helpers.
Proof. apply take_ge. by rewrite (an_len _ _ _ _ Han). Qed.

Lemma one_ok ctx f : ctx.*1 = _helpersIPs cf -> f ∈ files -> stripe_ok conf ctx ip f helpers.
Proof.
  intros Hctx Hf. rewrite <- all_helpers.
  by apply (helpers_stripe conf _distributorThreadNum Hcl (rest f) holder f ip (one_stripe f Hf) helpers (one_choice f Hf)).
Qed.

Lemma lost_in e : e ∈ losts -> e.2 ∈ files /\ e.1 = holder e.2.
Proof. rewrite (an_losts _ _ _ _ Han). by intros (f & -> & Hf)%list_elem_of_fmap. Qed.

Lemma losts_length : length losts = length files.
Proof. rewrite (an_losts _ _ _ _ Han). apply length_fmap. Qed.

Lemma losts_some : (0 < length losts)%nat.
Proof. rewrite losts_length. pose proof (ml_some _ _ _ _ Hml). destruct files; [done|cbn; lia]. Qed.

Lemma answer_given ctx : ctx.*1 = _helpersIPs cf -> jobs_given conf ctx ip losts helpers coefs st.
Proof.
  intros Hctx. split.
  - apply losts_some.
  - intros e [He _]%lost_in. by apply one_ok.
  - intros e it [He _]%lost_in Hit. destruct (an_in _ _ _ _ Han it Hit) as (H1 & H2 & H3 & H4). rewrite H3 in H4.
    by apply (ml_helper _ _ _ _ Hml it.2 H1 H2 H4).
  - intros e [He _]%lost_in. by apply (ml_lost _ _ _ _ Hml).
  - intros e [He E]%lost_in (it & E2 & Hit)%list_elem_of_fmap. destruct (an_in _ _ _ _ Han it Hit) as (H1 & H2 & H3 & _).
    apply H2. assert (it.2 = e.2) as ->; [|done]. apply (ml_nodes _ _ _ _ Hml); [done|by apply (ml_lost _ _ _ _ Hml)|congruence].
  - intros e [He _]%lost_in. by apply (an_coef _ _ _ _ Han).
  - intros e it [He _]%lost_in Hit. apply (rb_bytes _ _ _ _ _ (an_rebuilds _ _ _ _ Han _ He)). by apply list_elem_of_fmap_2.
Qed.

Lemma jobs_few : Z.of_nat (length losts) < 2^32.
Proof. rewrite losts_length. pose proof (ml_few _ _ _ _ Hml) as Hfew. unfold MAX_ECK in Hfew. lia. Qed.

(** The node of the helper [x]. *)
Definition mnode_at (x : nat) : mnode :=
  let jobs := job conf ip helpers coefs x <$> losts in
  mkMNode (helpers !!! x).1 jobs (disk (helpers !!! x).2) ((fun c => Some (dr_prevIP c)) <$> jobs).
Definition mnodes : list mnode := mnode_at <$> seq 0 k.

Lemma chosen_helper x : (x < k)%nat -> helpers !!! x ∈ helpers.
Proof. intros Hx. apply list_elem_of_lookup_total_2. by rewrite (an_len _ _ _ _ Han). Qed.

Lemma helpers_nodup1 : NoDup helpers.*1.
Proof.
  destruct (lookup_lt_is_Some_2 losts 0 losts_some) as [e [He _]%list_elem_of_lookup_2%lost_in].
  rewrite <- all_helpers. eapply nodes_nodup; [by apply (one_stripe e.2)|by apply one_choice].
Qed.

Lemma job_ok x e : (x < k)%nat -> e ∈ losts -> cmd_ok (job conf ip helpers coefs x e) /\ dr_prevIP (job conf ip helpers coefs x e) ∈ _helpersIPs cf.
Proof.
  intros Hx He. destruct (queues_listed (_helpersIPs cf) _distributorThreadNum (rc_threads _ _ Hcl) (rc_sorted _ _ Hcl) (rc_few _ _ Hcl)) as (ctx & _ & Hfst & _).
  pose proof (answer_given ctx Hfst) as Hjg. pose proof (jg_stripe _ _ _ _ _ _ _ Hjg e He) as Hso. split.
  - eapply ring_ok; [exact Hso| |done]. intros it Hit. by apply (jg_bytes _ _ _ _ _ _ _ Hjg).
  - cbn. rewrite <- Hfst. apply (so_helpers _ _ _ _ _ Hso), chosen_helper. case_decide; lia.
Qed.

Lemma node_started x : (x < k)%nat -> mul_node cf dirs (all_msgs conf ip losts helpers coefs losts) (helpers !!! x).1 = Ok (mnode_at x).
Proof.
  intros Hx. pose proof losts_some as Hnj. unfold mul_node.
  rewrite (filter_msgs conf ip losts helpers coefs (an_len _ _ _ _ Han) helpers_nodup1) by done.
  rewrite (jobs_received conf ip losts helpers coefs (an_len _ _ _ _ Han) jobs_few (fun e y He Hy => proj1 (job_ok y e Hy He))), bind_ok by done.
  cbn [lookup list_lookup res_of_option]. rewrite bind_ok. unfold start_node.
  destruct (lookup_lt_is_Some_2 losts 0 Hnj) as [e He]. rewrite list_lookup_fmap, He. cbn [fmap option_fmap option_map res_of_option]. rewrite bind_ok.
  destruct (an_in _ _ _ _ Han _ (chosen_helper x Hx)) as (H1 & H2 & H3 & _). unfold openLocalFile. cbn [dr_localBlkName job ring].
  rewrite H3, (proj1 (md_file _ _ _ _ Hmd _ H1 H2)). cbn [res_of_option]. rewrite bind_ok.
  rewrite (for_each_collect _ _ (fun c => Some (dr_prevIP c))), bind_ok.
  - unfold mnode_at. by rewrite H3.
  - intros c (e' & -> & He')%list_elem_of_fmap. by apply findCtx_helper, job_ok.
Qed.

(** Seen by one job, the nodes are those of a single pipeline. *)
Lemma single_nodes j e : losts !! j = Some e -> helpers_of mnodes j = nodes conf disk e.2 ip helpers (coefs e.2).
Proof.
  intros Hj. unfold helpers_of, mnodes, nodes. rewrite <- list_fmap_compose. apply list_fmap_ext. intros i x [-> Hx]%lookup_seq.
  unfold node, node_of, mnode_at. cbn [compose mn_ip mn_jobs mn_file mn_prevs]. rewrite all_helpers, !list_lookup_fmap, Hj. cbn.
  by rewrite (list_lookup_total_correct _ j (job conf ip helpers coefs i e)) by by rewrite list_lookup_fmap, Hj.
Qed.

Lemma block_pipeline f : f ∈ files -> pipeline cf (nodes conf disk f ip helpers (coefs f)) f.
Proof.
  intros Hf. apply (nodes_pipeline conf _distributorThreadNum dirs Hcl (rest f) holder disk f ip (one_stripe f Hf) (one_disks f Hf) helpers (one_choice f Hf)).
  rewrite all_helpers. by apply Han.
Qed.

(** What the pipeline of a lost block sums up is the block. *)
Lemma block_sum f : f ∈ files ->
  concat (partial cf (nodes conf disk f ip helpers (coefs f)) (k - 1) <$> seq 0 cnt) = drop (_packetSkipSize cf) (disk f).
Proof.
  intros Hf. pose proof (collected_bytes cf _ f (block_pipeline f Hf)) as E. rewrite length_nodes in E. rewrite E.
  rewrite (nodes_sum conf (rest f) holder disk f ip helpers (one_choice f Hf)) by (rewrite all_helpers; by apply Han).
  unfold covered. apply take_ge. rewrite length_drop, (md_lost _ _ _ _ Hmd) by done. lia.
Qed.

Lemma single_pipeline j e : losts !! j = Some e -> pipeline cf (helpers_of mnodes j) e.2.
Proof.
  intros Hj. rewrite (single_nodes j e Hj). apply block_pipeline. by apply (lost_in e), list_elem_of_lookup_2 with j.
Qed.

Lemma mul_pipeline : mpipeline cf mnodes ip losts.*2 files.
Proof.
  assert (Ef : losts.*2 ≡ₚ files).
  { rewrite (an_losts _ _ _ _ Han), <- list_fmap_compose. by rewrite list_fmap_id. }
  split.
  - rewrite length_fmap. apply losts_some.
  - rewrite Ef. apply Hml.
  - by rewrite Ef.
  - intros x n Hn. unfold mnodes in Hn. rewrite list_lookup_fmap in Hn. apply fmap_Some in Hn as (y & [-> Hy]%lookup_seq & ->). cbn [Nat.add].
    destruct (an_in _ _ _ _ Han _ (chosen_helper x Hy)) as (H1 & H2 & _). split.
    + cbn. by rewrite !length_fmap.
    + by apply (md_file _ _ _ _ Hmd).
    + cbn [mn_jobs mnode_at]. apply Forall_fmap, Forall_forall. intros e He. cbn.
      apply (rb_bytes _ _ _ _ _ (an_rebuilds _ _ _ _ Han e.2 (proj1 (lost_in e He)))). by apply list_elem_of_fmap_2, chosen_helper.
  - intros j f Hf. rewrite list_lookup_fmap in Hf. apply fmap_Some in Hf as (e & He & ->). by apply single_pipeline.
  - intros (n & E & Hn)%list_elem_of_fmap. unfold mnodes in Hn. apply list_elem_of_fmap in Hn as (x & -> & [_ Hx]%elem_of_seq).
    destruct (an_in _ _ _ _ Han _ (chosen_helper x Hx)) as (_ & _ & _ & Hne). exact (Hne (eq_sym E)).
Qed.

Lemma single_sum j f : losts.*2 !! j = Some f -> concat (partial cf (helpers_of mnodes j) (length mnodes - 1) <$> seq 0 cnt) = drop (_packetSkipSize cf) (disk f).
Proof.
  rewrite list_lookup_fmap. intros (e & He & ->)%fmap_Some. destruct (lost_in e) as [Hf _]; [by eapply list_elem_of_lookup_2|].
  assert (Hk : length mnodes = k) by (unfold mnodes; by rewrite length_fmap, length_seq). rewrite Hk, (single_nodes j e He). by apply block_sum.
Qed.
End answered.

(** ** The answer of the metadata *)

Lemma mul_status_two (l : list (Z * str)) (st : gmap str Z) b : mul_status l st !! b = Some 2 <-> b ∈ l.*2.
Proof.
  unfold mul_status. set (st0 := _ <$> st). assert (H0 : st0 !! b <> Some 2).
  { unfold st0. rewrite lookup_fmap. destruct (st !! b) as [v|]; [|done]. cbn. by destruct (Z.eqb_spec v 0) as [->|]. }
  by apply two_marked.
Qed.

Section answer_of.
Context (HM : StripeLaws k (cnt * size) stripe holder (covered conf disk)).
Context (st : gmap str Z) (Hst : forall b, st !! b = if decide (b ∈ files) then Some 0 else if decide (b ∈ stripe) then Some 1 else None).

Lemma lost_status f : f ∈ files -> st !! f = Some 0.
Proof. intros Hf. by rewrite Hst, decide_True. Qed.

Lemma listed_status b : is_Some (st !! b) <-> b ∈ stripe.
Proof.
  rewrite Hst. destruct (decide (b ∈ files)) as [Hb|]; [|by destruct (decide (b ∈ stripe)); split; (done || intros [? ?])].
  split; [|by eexists]. intros _. by apply (ml_lost _ _ _ _ Hml).
Qed.

Lemma alive_given : exists alive, NoDup alive /\ length alive = k /\ forall b, b ∈ alive -> holder b <> ip /\ exists v, st !! b = Some v /\ v <> 0.
Proof.
  destruct (ml_alive _ _ _ _ Hml) as (alive & Hal & Hk & Halive). exists alive. split_and!; [done..|].
  intros b Hb. destruct (Halive b Hb) as (H1 & H2 & H3). split; [done|]. exists 1. by rewrite Hst, decide_False, decide_True by done.
Qed.

(** Common helpers are an answer. *)
Lemma answer_common f : common_helpers k stripe holder f ip st -> exists helpers losts coefs,
    getStripeBlksMul f ip (Some st) 0 = Ok (with_helpers helpers losts, st) /\ answer helpers losts st coefs.
Proof.
  intros (helpers & ret & E & Hlen & Hnd & Hin & Hrn & Hret).
  set (losts := (fun e => (e.1, e.2.1)) <$> ret).
  assert (Hret2 : forall e, e ∈ ret <-> exists b, b ∈ files /\ e = (holder b, (b, helpers))).
  { intros e. rewrite Hret. split; intros (b & Hb & ->); exists b; (split; [|done]).
    - rewrite Hst in Hb. destruct (decide (b ∈ files)); [done|]. by destruct (decide (b ∈ stripe)).
    - by rewrite Hst, decide_True. }
  assert (Er : ret = with_helpers helpers losts).
  { unfold with_helpers, losts. rewrite <- list_fmap_compose. rewrite <- (list_fmap_id ret) at 1. apply list_fmap_ext. intros i e He.
    apply list_elem_of_lookup_2, Hret2 in He as (b & _ & ->). done. }
  assert (Hpos : forall it, it ∈ helpers -> it.2 ∈ stripe /\ it.2 ∉ files /\ it.1 = holder it.2 /\ it.1 <> ip).
  { intros it Hit. destruct (Hin it Hit) as (H1 & H2 & H3 & v & Hv & Hv0). split_and!; [done| |done|done]. intros Hb. rewrite Hst, decide_True in Hv by done. congruence. }
  assert (Hcoef : forall g, g ∈ files -> exists c, getCoefficient g (Some (mul_status helpers st)) = Ok c /\ rebuilds (cnt * size) (covered conf disk) g helpers.*2 c).
  { intros g Hg. apply ml_coef.
    - by apply (ml_lost _ _ _ _ Hml).
    - intros (it & -> & Hit)%list_elem_of_fmap. by destruct (Hpos it Hit) as (_ & Hno & _).
    - done.
    - by rewrite length_fmap.
    - intros b (it & -> & Hit)%list_elem_of_fmap. by apply (Hpos it Hit).
    - intros b. apply mul_status_two. }
  exists helpers, losts, (fun g => match getCoefficient g (Some (mul_status helpers st)) with Ok c => c | Fault _ => ∅ end).
  rewrite E, Er at 1. split; [done|]. split; [done|done|done| | |].
  + apply NoDup_Permutation.
    * apply (NoDup_fmap_1 fst). unfold losts. rewrite <- list_fmap_compose. exact Hrn.
    * apply NoDup_fmap_2; [by intros ?? [= _ ->]|apply Hml].
    * intros [a b]. unfold losts. rewrite !list_elem_of_fmap. split.
      -- intros (e & [= -> ->] & (g & Hg & ->)%Hret2). by exists g.
      -- intros (g & [= -> ->] & Hg). exists (holder g, (g, helpers)). split; [done|]. apply Hret2. by exists g.
  + intros g Hg. by destruct (Hcoef g Hg) as (c & -> & _).
  + intros g Hg. destruct (Hcoef g Hg) as (c & -> & Hr). done.
Qed.
End answer_of.

Context (Hconf : mul_conf) (HL : MetadataLaws k (cnt * size) stripe holder (covered conf disk)).

Lemma metadata_answer st : (forall b, st !! b = if decide (b ∈ files) then Some 0 else if decide (b ∈ stripe) then Some 1 else None) ->
  forall f, f ∈ files -> exists helpers losts coefs,
    getStripeBlksMul f ip (Some st) 0 = Ok (with_helpers helpers losts, st) /\ answer helpers losts st coefs.
Proof.
  intros Hst f Hf. destruct (alive_given st Hst) as (alive & H1 & H2 & H3). apply (answer_common _ st Hst).
  eapply ml_mul; [by apply (ml_lost _ _ _ _ Hml)|apply (listed_status st Hst)|exact H1|exact H2|exact H3].
Qed.

(** ** The start of the repair *)

(** The reply the client reads: the last helper for every block. *)
Lemma reply_pair pre (h : Z) (l : list (str * Z)) j e : l !! j = Some e -> is_u32 h ->
  let bs := pre ++ concat ((fun f : str * Z => le32 h ++ le32 f.2) <$> l) in
  read_uint bs (length pre + 8 * j) = Ok h /\ read_uint bs (length pre + 8 * j + 4) = Ok (wrap_u32 e.2).
Proof.
  intros Hj Hh bs. set (g := fun f : str * Z => le32 h ++ le32 f.2).
  assert (Hpre : length (pre ++ concat (g <$> take j l)) = (length pre + 8 * j)%nat).
  { apply lookup_lt_Some in Hj. rewrite length_app. f_equal. revert j Hj. induction l as [|f l IH]; intros [|j] Hj; [cbn in Hj; lia|cbn in Hj; lia|done|].
    cbn [take]. rewrite fmap_cons. cbn [concat]. rewrite length_app, IH by (cbn in Hj; lia). unfold g. rewrite length_app, !length_le32. lia. }
  assert (Eb : bs = (pre ++ concat (g <$> take j l)) ++ le32 h ++ le32 e.2 ++ concat (g <$> drop (S j) l)).
  { unfold bs. rewrite <- (take_drop_middle l j e Hj) at 1. rewrite fmap_app, fmap_cons, concat_app. cbn [concat]. unfold g. by rewrite <- !app_assoc. }
  rewrite Eb. split; [by apply read_uint_at|]. rewrite app_assoc. unfold read_uint. rewrite slice_skip by (rewrite length_app, length_le32; lia).
  replace (length pre + 8 * j + 4 - _)%nat with 0%nat by (rewrite length_app, length_le32; lia).
  change 4%nat with (length (le32 e.2)). rewrite slice_here. cbn [res_of_option]. by rewrite bind_ok, de32u_le32.
Qed.

Lemma reply_fetched (h : Z) (losts : list (str * Z)) : losts <> [] -> is_u32 h -> h ∈ _helpersIPs cf ->
  mul_fetch (_helpersIPs cf) ip (length losts) (le32 h ++ concat ((fun f : str * Z => le32 h ++ le32 f.2) <$> drop 1 losts)) =
    Ok (replicate (length losts) h, ip :: ((fun f => wrap_u32 f.2) <$> drop 1 losts)).
Proof.
  intros Hne Hh Hin. destruct losts as [|f0 l]; [done|]. cbn [drop length]. rewrite !drop_0. set (g := fun f : str * Z => le32 h ++ le32 f.2). set (bs := le32 h ++ concat (g <$> l)).
  assert (Hlen : length bs = (4 + 8 * length l)%nat).
  { unfold bs. rewrite length_app, length_le32. f_equal. clear. induction l as [|f l IH]; [done|]. rewrite fmap_cons. cbn [concat length].
    rewrite length_app, IH. unfold g. rewrite length_app, !length_le32. lia. }
  unfold mul_fetch, read_reply. rewrite Hlen, (proj2 (Z.eqb_eq _ _)) by lia. cbn [guard_or]. rewrite bind_ok.
  assert (E0 : read_uint bs 0 = Ok h) by by apply read_uint_0.
  rewrite E0, bind_ok, findCtx_sorted, bind_ok by (done || apply Hcl).
  destruct (for_each_total (fun (n : nat) '((ctxs, reqs) : list (option Z) * list Z) => ctxs = replicate (S n) (Some h) /\ reqs = ip :: ((fun f : str * Z => wrap_u32 f.2) <$> take n l))
    (seq 1 (S (length l) - 1)) (fun j '(ctxs, reqIPs) =>
      fetchIP ← read_uint bs (j * 8 - 4); reqIP ← read_uint bs (j * 8); ctx ← findCtx (_helpersIPs cf) fetchIP;
      Ok (ctxs ++ [ctx], reqIPs ++ [reqIP])) ([Some h], [ip])) as ([ctxs reqs] & E & -> & ->).
  - done.
  - intros i j [ctxs reqs] [-> Hi]%lookup_seq [-> ->]. cbn [Nat.add]. destruct (lookup_lt_is_Some_2 l i) as [e He]; [lia|].
    destruct (reply_pair (le32 h) h l i e He Hh) as [R1 R2]. rewrite length_le32 in R1, R2. fold g in R1, R2. fold bs in R1, R2.
    replace (S i * 8 - 4)%nat with (4 + 8 * i)%nat by lia. replace (S i * 8)%nat with (4 + 8 * i + 4)%nat by lia.
    rewrite R1, bind_ok, R2, bind_ok, findCtx_sorted, bind_ok by (done || apply Hcl). eexists. split; [done|].
    split; [by rewrite (replicate_S_end (S i))|]. rewrite (take_S_r _ _ _ He), fmap_app. done.
  - rewrite E, bind_ok. rewrite length_seq. replace (S (length l) - 1)%nat with (length l) by lia. rewrite take_ge by done.
    assert (Em : mapM id (replicate (S (length l)) (Some h)) = Some (replicate (S (length l)) h)).
    { generalize (S (length l)). clear. intros n. induction n as [|n IH]; [done|]. cbn [replicate mapM]. by rewrite IH. }
    by rewrite Em.
Qed.

(** Everything up to the threads, when the scheme makes the reply [reply]: the
    nodes make the pipelines. *)
Lemma helpers_start (Hp : _DRPolicy conf = lit "ecpipe") (Hs : _ECPipePolicy conf = lit "basic" \/ _ECPipePolicy conf = lit "cyclic")
  (Hfs : _fileSysType conf <> lit "HDFS") junk junk' s (reply : list (Z * str) -> list Z) : (length (request_bytes ip files) <= length junk)%nat ->
  (forall helpers losts st coefs store, answer helpers losts st coefs ->
    (forall e, e ∈ lost_of holder <$> files -> store !! e.1 = Some (lastHelper conf helpers)) ->
    (if bool_decide (_ECPipePolicy conf = lit "basic") then basic_reply (lost_of holder <$> files) store
     else setupCyclReplyMul conf junk' (lost_of holder <$> files) (with_helpers helpers losts)) = Ok (reply helpers)) ->
  exists helpers losts st coefs s', answer helpers losts st coefs /\
    start_helpers conf _distributorThreadNum dirs junk junk' s ip files = Ok (length files, mnodes helpers losts coefs, reply helpers, s').
Proof.
  intros Hj Hrep. destruct (queues_listed (_helpersIPs cf) _distributorThreadNum (rc_threads _ _ Hcl) (rc_sorted _ _ Hcl) (rc_few _ _ Hcl)) as (ctx & Ectx & Hfst & Hlisted).
  assert (Hf0 : exists f0 fs, files = f0 :: fs) by (pose proof (ml_some _ _ _ _ Hml); destruct files as [|f0 fs]; [done|by exists f0, fs]).
  destruct Hf0 as (f0 & fs & Ef). assert (Hin0 : f0 ∈ files) by (rewrite Ef; left).
  assert (Hall' : forall f, f ∈ files -> f ∈ stripe) by (intros f Hf; by apply (ml_lost _ _ _ _ Hml)).
  destruct (ml_all f0 (Hall' f0 Hin0)) as (all & Hall & Hin). assert (Hsome : all <> []) by (intros ->; by apply (not_elem_of_nil f0), Hin, Hall').
  assert (Hip : forall b, b ∈ f0 :: fs \/ b ∈ all.*2 -> getIPfromBlk b = Ok (holder b)).
  { intros b [Hb|Hb%Hin]; apply ml_ip; [|done]. apply Hall'. by rewrite Ef. }
  destruct (request_parsed holder all f0 fs Hall Hsome Hip k junk ip) as (m & st & Hm & Hml4 & Hu & Hp' & Hst).
  - apply Hml.
  - rewrite <- Ef. apply Forall_forall. intros f Hf. apply short_name in Hf. unfold COMMAND_MAX_LENGTH in Hf. lia.
  - by rewrite <- Ef.
  - rewrite <- Ef in *. set (st0 := <[f0 := 0]> st).
    assert (Hst0 : forall b, st0 !! b = if decide (b ∈ files) then Some 0 else if decide (b ∈ stripe) then Some 1 else None).
    { intros b. unfold st0. destruct (decide (f0 = b)) as [<-|Hne]; [by rewrite lookup_insert_eq, decide_True|]. rewrite lookup_insert_ne, Hst by done.
      destruct (decide (b ∈ files)); [done|]. apply decide_ext, Hin. }
    destruct (metadata_answer st0 Hst0 f0 Hin0) as (helpers & losts & coefs & Hmul & Han). pose proof (answer_given helpers losts st0 coefs Han ctx Hfst) as Hjg.
    assert (Hname : forall e, e ∈ lost_of holder <$> files -> exists a, (a, e.1) ∈ losts).
    { intros e (f & -> & Hf)%list_elem_of_fmap. exists (holder f). rewrite (an_losts _ _ _ _ Han). apply list_elem_of_fmap. by exists f. }
    destruct (handler_jobs conf ctx Hlisted ip losts helpers coefs st0 Hjg Hfs junk' m _ (lost_of holder f0) s (reply helpers) Hml4 Hu Hp' eq_refl
      ltac:(cbn [rq_lost]; by rewrite Ef) Hname Hmul (fun store => Hrep helpers losts st0 coefs store Han)) as (cmds & s' & E & Hd & _).
    exists helpers, losts, st0, coefs, s'. split; [exact Han|]. unfold start_helpers.
    assert (Hlf : lost_files conf files = Ok files) by (unfold lost_files; rewrite Hp; by destruct Hs as [-> | ->]).
    rewrite Hlf, bind_ok, Hm, bind_ok, Ectx, bind_ok, E, bind_ok, last_snoc. cbn [res_of_option]. rewrite bind_ok, length_app, Nat.add_sub, take_app_length.
    rewrite (for_each_results cmds _ _ _ Hd), bind_ok, app_nil_l.
    rewrite (addrs_told conf ip losts helpers coefs (an_len _ _ _ _ Han) (helpers_nodup1 helpers losts st0 coefs Han) (losts_some helpers losts st0 coefs Han)).
    rewrite (for_each_results helpers.*1 _ (mnodes helpers losts coefs)), bind_ok; [done|].
    unfold mnodes. apply list_eq_same_length with k; rewrite ?length_fmap, ?length_seq; [try done; by rewrite (an_len _ _ _ _ Han)|try done; by rewrite (an_len _ _ _ _ Han)|].
    intros x a b Hx. rewrite !list_lookup_fmap, lookup_seq_lt, list_lookup_lookup_total_lt by (rewrite ?(an_len _ _ _ _ Han); done). cbn.
    intros [= <-] [= <-]. exact (node_started helpers losts st0 coefs Han x Hx).
Qed.

(** The client finds the last helper for every block. *)
Lemma mul_starts junk junk' s : (length (request_bytes ip files) <= length junk)%nat ->
  exists helpers losts st coefs reqIPs s', answer helpers losts st coefs /\
    start_mul_repair conf _distributorThreadNum dirs junk junk' s ip files =
      Ok (mnodes helpers losts coefs, fetch_last (mnodes helpers losts coefs) losts.*2, reqIPs, s').
Proof.
  intros Hj. pose proof (ml_some _ _ _ _ Hml) as Hsome.
  destruct (helpers_start (mc_policy Hconf) (or_introl (mc_scheme Hconf)) (mc_fs Hconf) junk junk' s
    (fun helpers => reply_bytes conf helpers (lost_of holder <$> files)) Hj) as (helpers & losts & st & coefs & s' & Han & E).
  { intros helpers losts st coefs store Han Hst. rewrite (mc_scheme Hconf), bool_decide_true by done. apply basic_replied; [by destruct files|done]. }
  eexists helpers, losts, st, coefs, _, s'. split; [exact Han|]. unfold start_mul_repair. rewrite E, bind_ok. pose proof (rc_k _ _ Hcl).
  unfold reply_bytes. pose proof (reply_fetched (lastHelper conf helpers) (lost_of holder <$> files)) as Hrep. rewrite length_fmap in Hrep.
  assert (Hh : is_u32 (lastHelper conf helpers) /\ lastHelper conf helpers ∈ _helpersIPs cf).
  { unfold lastHelper. destruct (an_in _ _ _ _ Han _ (chosen_helper helpers losts st coefs Han (k - 1) ltac:(lia))) as (H1 & H2 & H3 & H4).
    rewrite H3 in H4 |- *. by destruct (ml_helper _ _ _ _ Hml _ H1 H2 H4) as (? & ? & _). }
  rewrite Hrep, bind_ok by (first [apply Hh|by destruct files]). do 4 f_equal. unfold fetch_last. rewrite length_fmap, (losts_length helpers losts st coefs Han). f_equal.
  unfold mnodes. rewrite length_fmap, length_seq. rewrite (list_lookup_total_correct _ _ (mnode_at helpers losts coefs (k - 1))); [done|].
  rewrite list_lookup_fmap, lookup_seq_lt by lia. done.
Qed.

(** ** The whole repair *)

(** The threads have started, on new helpers, and nothing of an earlier repair
    waits in the lists of the lost blocks. *)
Record mul_ready (ns : list mnode) (st : mstate) : Prop := {
  mr_len : length (m_workers st) = length ns;
  mr_worker x w : m_workers st !! x = Some w ->
    exists waiting, start_worker cf (length files) (new_worker cf waiting) = Ok w;
  mr_client : m_client st = mkMClient [] 0 [];
  mr_lists n f : n ∈ ns -> f ∈ files -> waiting_in (m_servers st) (mn_ip n) f = [] /\ waiting_in (m_servers st) (mn_ip n) (tmpKey f) = [];
  mr_client_lists f : f ∈ files -> waiting_in (m_servers st) ip f = []
}.

(** A packet is read once by each helper, pulled and sent for each block, and
    collected and forwarded by the client for each block. *)
Definition mul_steps : nat := (k * ((1 + 2 * length files) * cnt) + 2 * length files * cnt)%nat.

(** Where the client has the block [f]: the first in its file, the others in its
    own Redis. *)
Definition has_block (st : mstate) (f : str) : list Z :=
  if bool_decide (files !! 0%nat = Some f) then c_file (m_client st) else concat (waiting_in (m_servers st) ip f).

(** What a repair promises: whatever the interleaving of the threads, none of
    them fails, they make at most [mul_steps] iterations, and then the client has
    every lost block ([delivers]). *)
Definition mul_repairs (ns : list mnode) (fetch : list Z) : Prop :=
  forall st, mul_ready ns st ->
    delivers (mul_scheme cf ns fetch ip files) st mul_steps (fun st' => forall f, f ∈ files -> has_block st' f = drop (_packetSkipSize cf) (disk f)).

Lemma mul_repair junk junk' s : (length (request_bytes ip files) <= length junk)%nat ->
  exists ns fetch reqIPs s', start_mul_repair conf _distributorThreadNum dirs junk junk' s ip files = Ok (ns, fetch, reqIPs, s') /\
    mul_repairs ns fetch.
Proof.
  intros Hj. destruct (mul_starts junk junk' s Hj) as (helpers & losts & st0 & coefs & reqIPs & s' & Han & E). eexists _, _, _, _. split; [exact E|].
  pose proof (mul_pipeline helpers losts st0 coefs Han) as Hmp. set (ns := mnodes helpers losts coefs) in *.
  assert (Hns : length ns = k) by (unfold ns, mnodes; by rewrite length_fmap, length_seq).
  assert (Hnj : length losts.*2 = length files) by (rewrite length_fmap; by apply (losts_length helpers losts st0 coefs Han)).
  assert (Hw : all_mwork cf ns losts.*2 = mul_steps) by (unfold all_mwork, mul_steps; by rewrite Hnj, Hns).
  intros st [R1 R2 R3 R4 R5].
  assert (Hst : mstarted cf ns ip losts.*2 files st).
  { split; [done|by rewrite Hnj|done| |].
    - intros j f x Hf Hx. assert (Hff : f ∈ files).
      { rewrite list_lookup_fmap in Hf. apply fmap_Some in Hf as (e & He & ->). by apply (lost_in helpers losts st0 coefs Han e), list_elem_of_lookup_2 with j. }
      rewrite (out_ip ns j f x Hx). assert (Hn : ns !!! x ∈ ns) by by apply list_elem_of_lookup_total_2.
      unfold out_key. cbn [snd]. by case_decide; apply (R4 (ns !!! x) f).
    - intros p f _ Hf. apply R5. by eapply list_elem_of_lookup_2. }
  destruct (mstarted_progress cf ns ip losts.*2 files Hmp st Hst) as [Hp H0].
  rewrite <- Hw. refine (scheme_delivers (mul_laws cf ns _ ip files _ _ _ _ _ _ _) st _ Hp H0 _).
  - apply (mstep_progress cf (rc_packets _ _ Hcl) ns ip losts.*2 files Hmp).
  - apply (mwork_bound cf ns ip losts.*2 files Hmp).
  - apply (mnext_step cf (rc_packets _ _ Hcl) ns ip losts.*2 files Hmp).
  - apply (mno_crash cf (rc_packets _ _ Hcl) ns ip losts.*2 files Hmp).
  - intros st' Hp' Ee f Hf. apply list_elem_of_lookup in Hf as [p Hpf].
    assert (Hlf : f ∈ losts.*2).
    { rewrite (an_losts _ _ _ _ Han), <- list_fmap_compose. rewrite list_fmap_id. by eapply list_elem_of_lookup_2. }
    apply list_elem_of_lookup in Hlf as [j Hjf].
    pose proof (mresult cf ns ip losts.*2 files Hmp st' Hp' Ee j p f Hjf Hpf) as Hres. cbv zeta in Hres.
    rewrite <- (single_sum helpers losts st0 coefs Han j f Hjf). fold ns. unfold has_block. destruct (Nat.eqb_spec p 0) as [->|Hne].
    + by rewrite bool_decide_true.
    + rewrite bool_decide_false; [by rewrite Hres|]. intros E0. apply Hne. apply (NoDup_lookup files p 0 f); [apply Hml|done|done].
Qed.
End repair.

(** ** With the metadata of HDFS 3 *)

Section hdfs3.
Context `{GF : GFComplete} {GL : GF8Laws} `{DL : DiskLaws} (talloc : nat -> option (list Z)) (Hta : forall n, exists l, talloc n = Some l /\ length l = n).
Context (random_shuffle : nat -> list (Z * str) -> list (Z * str)) (Hsh : forall i s, random_shuffle i s ≡ₚ s).
Context (conf : DRConfig) (_distributorThreadNum : nat) (Hcl : cluster_conf conf _distributorThreadNum) (Hconf : mul_conf conf).
Context (rackInfos : gmap Z str) (cmdResult : str) (blks : gset str) (stripe2Blk : list (str * list str)).
Context (rs : list (option (Z * str))) (holder : str -> Z).
Abbreviation k := (_ecK (_conf conf)).
Abbreviation covered_size := (_packetCnt (_conf conf) * _packetSize (_conf conf))%nat.

(** C4: The whole of a pipelined repair of several blocks with HDFS 3, for any
    [k, m >= 1] with [k + m <= 256].  A client asks for any lost blocks of a
    stripe, in any order, that leave [k] blocks on other nodes.  The
    coordinator gives every lost block the same helpers, each with one command
    per block; the helpers start their threads with all their jobs.  It is the
    first repair of the helpers: their flags of packets read are not set yet
    ([MulProgress.stale_packet] has what happens in the next).  Then, with the
    mutexes and condition variables of the code and whatever the interleaving of
    the threads, none of them ever fails, every run ends unless sleepers wake up by
    themselves, and when all iterations are made the client has exactly the bytes
    of every lost block; and that point can always be reached, if sleepers may wake
    up by themselves or if so far no thread was caught between a test that failed
    and its sleep by what it waits for. *)
Theorem hdfs3_mul_repair m :
  (0 < m)%nat -> (k + m <= 256)%nat -> listing_ok k m cmdResult blks stripe2Blk rs holder ->
  exists encMat h, reed_sol_vandermonde_coding_matrix talloc k m 8 = Ok (Some encMat) /\
    let u := new_RSUtil k (m + k) encMat in
    GetMetadata u k (m + k) cmdResult (reply_of <$> rs) = Ok h /\
    forall l files ip disk dirs data junk junk' s, l ∈ stripe2Blk.*2 -> mul_lost conf l holder files ip -> mul_disks conf dirs l holder disk files ->
      (forall c, (c < k)%nat -> region covered_size (data !!! c)) ->
      (forall i b, l !! i = Some b -> covered conf disk b = stripe_block k covered_size (complete_enc_mat k (m + k) encMat) data i) ->
      (length (request_bytes ip files) <= length junk)%nat ->
      exists ns fetch reqIPs s',
        start_mul_repair (MB := hdfs3 random_shuffle (_shuffle (_conf conf)) rackInfos u h) conf _distributorThreadNum dirs junk junk' s ip files =
          Ok (ns, fetch, reqIPs, s') /\
        mul_repairs conf disk files ip ns fetch.
Proof.
  intros Hm Hkm Hli. pose proof (rc_k _ _ Hcl) as Hk.
  destruct (hdfs3_ready talloc Hta random_shuffle Hsh (_shuffle (_conf conf)) rackInfos k m ltac:(lia) Hm Hkm cmdResult blks stripe2Blk rs holder Hli)
    as (encMat & h & H1 & H2 & H3).
  exists encMat, h. split; [exact H1|]. split; [exact H2|]. intros l files ip disk dirs data junk junk' s Hl Hml Hmd Hd Hcont Hj.
  apply (mul_repair conf _distributorThreadNum dirs Hcl l holder disk files ip Hml Hmd Hconf); [|exact Hj].
  exact (H3 l covered_size data (covered conf disk) Hl Hd Hcont).
Qed.
End hdfs3.

(** ** Two lost blocks of a (4, 2) stripe *)

Section example.
Definition four_mul : DRConfig := mkDRConfig four (lit "ecpipe") (lit "basic") (lit "HDFS3") false.

(** The nodes 1 and 2 have lost their blocks; the client is the node 2, and asks
    for the block of the node 1 last. *)
Definition example_losts : list str := [blk_no 91; blk_no 92].

Lemma example_mul_cluster : cluster_conf four_mul 1.
Proof. destruct example_cluster. by split. Qed.

Lemma example_mul_lost : mul_lost four_mul example_stripe example_holder example_losts 2.
Proof.
  split.
  - done.
  - cbn. unfold MAX_ECK. lia.
  - decided.
  - intros f [->|[->|H%not_elem_of_nil]%elem_of_cons]%elem_of_cons; [split; [decided|discriminate]..|done].
  - exact example_nodes.
  - exists [blk_no 90; blk_no 89]. split; [decided|]. split; [done|].
    intros b [->|[->|H%not_elem_of_nil]%elem_of_cons]%elem_of_cons; [split_and!; decided..|done].
  - intros b Hb Hnb _. destruct (example_helper b Hb) as (H1 & H2 & H3); [intros ->; apply Hnb; right; left|].
    split_and!; [exact H1|unfold is_u32; lia|]. intros f Hf. rewrite H3. assert (Hlf : length f = 24%nat).
    { apply elem_of_cons in Hf as [->|[->|H%not_elem_of_nil]%elem_of_cons]; done. }
    rewrite Hlf. unfold COMMAND_MAX_LENGTH. lia.
  - unfold is_u32. lia.
Qed.

Lemma example_mul_disks : mul_disks four_mul example_dirs example_stripe example_holder example_disk example_losts.
Proof.
  split.
  - intros b Hin _. destruct (example_file b Hin) as (H1 & H2 & H3). split; [unfold find_block; by rewrite H1|]. split; [|exact H3]. rewrite H2. cbn. lia.
  - intros f Hf. apply example_file. apply elem_of_cons in Hf as [->|[->|H%not_elem_of_nil]%elem_of_cons]; [decided..|done].
Qed.

Lemma hdfs3_mul_repair_witness :
  exists h ns fetch reqIPs s, GetMetadata (new_RSUtil 2 4 [1; 1; 1; 143]) 2 4 example_listing (reply_of <$> example_reports) = Ok h /\
    start_mul_repair (MB := hdfs3 (fun _ l => l) false ∅ (new_RSUtil 2 4 [1; 1; 1; 143]) h) four_mul 1 example_dirs (zeros 1024) [] (mkMulCoord ∅ None) 2 example_losts =
      Ok (ns, fetch, reqIPs, s) /\
    mul_repairs four_mul example_disk example_losts 2 ns fetch.
Proof.
  destruct (hdfs3_mul_repair (fun n => Some (replicate n 77)) ltac:(intros n; eexists; split; [reflexivity|apply length_replicate])
    (fun _ l => l) ltac:(reflexivity) four_mul 1 example_mul_cluster ltac:(by split) ∅ example_listing example_parsed.1 example_parsed.2 example_reports example_holder
    2 ltac:(lia) ltac:(cbn; lia) example_listing_ok) as (encMat & h & H1 & H2 & H3).
  apply example_matrix in H1. subst encMat.
  destruct (H3 example_stripe example_losts 2 example_disk example_dirs example_data (zeros 1024) [] (mkMulCoord ∅ None)
    ltac:(rewrite example_parsed_stripes; left) example_mul_lost example_mul_disks example_regions example_codeword) as (ns & fetch & reqIPs & s & H4 & H5).
  - rewrite length_request. unfold zeros. rewrite length_replicate. vm_compute. lia.
  - exists h, ns, fetch, reqIPs, s. split; [exact H2|]. split; [exact H4|exact H5].
Defined.
End example.
