(* ===== verification/CyclSched.v ===== *)
(** * The schedule of the cyclic scheme (CyclMulFRWorker.cc)

    The [k] helpers of a cyclic repair form a ring, and the slices of the block
    go round in it in groups of [k - 1]: a slice starts at one helper, is added
    to by all and ends at the one before.  The helpers read the slices of a
    group in different orders, so that each starts with its own: packet [i] of a
    helper is the slice it reads in place [i].  The loops and conditions of the
    worker, and what they make of a slice: where it starts, which way it goes
    and where it ends. *)
From S2P Require Import Prelude.

#[local] Open Scope nat_scope.

(** ** The order in which a helper reads *)

(** One turn of the loop of [readerMul] that fills [_pkt2sli]: the slices of a
    group of [g], downwards from the one before the helper's number, then
    downwards from the last. *)
Definition group_order (id g cnt base : nat) : list nat :=
  List.filter (fun s => s <? cnt) ((fun k => base + k) <$> rev (seq 0 id) ++ rev (seq id (g - id))).
Definition rounds (g cnt : nat) : nat := if cnt mod g =? 0 then cnt / g else cnt / g + 1.
Definition slice_order (id g cnt : nat) : list nat := concat ((fun i => group_order id g cnt (i * g)) <$> seq 0 (rounds g cnt)).

(** [_sli2pkt], the inverse of [_pkt2sli]. *)
Definition packet_of (order : list nat) : gmap Z nat :=
  (foldl (fun '(m, i) s => (<[Z.of_nat s := i]> m, S i)) (∅, 0) order).1.

(** ** The conditions on a packet *)

Definition lastGroupCnt (g cnt : nat) : nat := cnt mod g.
Definition lastGroupBase (g cnt : nat) : nat := cnt - cnt mod g.

(** Whether packet [i] is pulled from the helper before ([pullerMul]). *)
Definition is_pulled (id g cnt i : nat) : bool :=
  (id =? 0) || negb (i mod g =? 0) || ((lastGroupBase g cnt <=? i) && (lastGroupCnt g cnt <? id)).
(** Whether it starts here ([readerMul]). *)
Definition is_started (id g cnt i : nat) : bool :=
  negb (id =? 0) && (i mod g =? 0) && ((i <? lastGroupBase g cnt) || (id <=? lastGroupCnt g cnt)).
(** Whether it is sent to the requestor ([senderMul]). *)
Definition is_last (id ecK cnt i : nat) : bool :=
  (negb (id =? ecK - 1) && (i mod (ecK - 1) =? ecK - 2)) || ((id <? cnt mod (ecK - 1)) && (i =? cnt - 1)).

(** Decides a claim about comparisons by cases. *)
Ltac plain t := lazymatch t with context [if _ then _ else _] => fail | _ => idtac end.
Ltac nat_cases :=
  repeat match goal with
    | |- context [?a =? ?b] => plain a; destruct (Nat.eqb_spec a b)
    | |- context [?a <? ?b] => plain a; destruct (Nat.ltb_spec a b)
    | |- context [?a <=? ?b] => plain a; destruct (Nat.leb_spec a b)
    end; cbn [negb orb andb]; (done || lia || nia).

(** ** The order in closed form *)

Section schedule.
Context (g cnt : nat) (Hg : 0 < g).

(** The size of the group of [i], and the place of a slice in it. *)
Definition group_size (i : nat) : nat := g `min` (cnt - i / g * g).
Definition turned (id z p : nat) : nat := if p <? id `min` z then id `min` z - 1 - p else id + z - 1 - p.
Definition slice_at (id i : nat) : nat := i / g * g + turned id (group_size i) (i mod g).

Lemma split_div q r : r < g -> (q * g + r) / g = q /\ (q * g + r) mod g = r.
Proof. intros Hr. rewrite (Nat.add_comm _ r), Nat.div_add, Nat.Div0.mod_add, Nat.div_small, Nat.mod_small by lia. done. Qed.

Lemma rev_seq_lookup a n i : i < n -> rev (seq a n) !! i = Some (a + (n - 1 - i)).
Proof. intros Hi. assert (E : rev (seq a n) = reverse (seq a n)) by apply rev_alt. rewrite E, reverse_lookup, length_seq by (rewrite length_seq; lia). rewrite lookup_seq_lt by lia. f_equal. lia. Qed.

Lemma filter_down base a n : List.filter (fun s => s <? cnt) ((fun k => base + k) <$> rev (seq a n)) = (fun k => base + k) <$> rev (seq a (n `min` (cnt - base - a))).
Proof.
  induction n as [|n IH]; [done|]. rewrite seq_S, rev_app_distr, fmap_app. cbn [rev app fmap list_fmap List.filter]. destruct (Nat.ltb_spec (base + (a + n)) cnt) as [Hlt|Hge].
  - rewrite IH. replace (S n `min` (cnt - base - a)) with (S n) by lia. replace (n `min` (cnt - base - a)) with n by lia. by rewrite seq_S, rev_app_distr.
  - rewrite IH. by replace (S n `min` (cnt - base - a)) with (n `min` (cnt - base - a)) by lia.
Qed.

Lemma group_order_eq id base : id <= g -> base <= cnt ->
  group_order id g cnt base = (fun p => base + turned id (g `min` (cnt - base)) p) <$> seq 0 (g `min` (cnt - base)).
Proof.
  intros Hid Hb. unfold group_order. rewrite fmap_app, List.filter_app, !filter_down.
  set (z := g `min` (cnt - base)). replace (id `min` (cnt - base - 0)) with (id `min` z) by lia. replace ((g - id) `min` (cnt - base - id)) with (z - id) by lia.
  rewrite <- fmap_app. apply list_eq_same_length with z; rewrite ?length_fmap, ?length_app, ?length_rev, ?length_seq; [lia..|].
  intros i x y Hi. rewrite !list_lookup_fmap, lookup_seq_lt by done. cbn [fmap option_fmap option_map]. unfold turned. cbn [Nat.add]. destruct (Nat.ltb_spec i (id `min` z)).
  - rewrite lookup_app_l, rev_seq_lookup by (rewrite ?length_rev, ?length_seq; lia). cbn [fmap option_fmap option_map]. intros [= <-] [= <-]. lia.
  - rewrite lookup_app_r, length_rev, length_seq, rev_seq_lookup by (rewrite ?length_rev, ?length_seq; lia). cbn [fmap option_fmap option_map]. intros [= <-] [= <-]. lia.
Qed.

Lemma length_rounds : cnt <= rounds g cnt * g /\ forall i, i < rounds g cnt -> i * g < cnt.
Proof.
  unfold rounds. pose proof (Nat.div_mod_eq cnt g). pose proof (Nat.mod_upper_bound cnt g ltac:(lia)).
  destruct (Nat.eqb_spec (cnt mod g) 0) as [E|E]; (split; [nia|intros i Hi; nia]).
Qed.

(** Packets that are whole groups, up to the count. *)
Lemma groups_order id r : id <= g -> (forall i, i < r -> i * g < cnt) ->
  concat ((fun i => group_order id g cnt (i * g)) <$> seq 0 r) = slice_at id <$> seq 0 ((r * g) `min` cnt).
Proof.
  intros Hid. induction r as [|r IH]; intros Hr; [done|]. rewrite seq_S, fmap_app, concat_app, IH by auto with lia. cbn [fmap list_fmap concat Nat.add].
  rewrite app_nil_r, group_order_eq by (try specialize (Hr r ltac:(lia)); lia). pose proof (Hr r ltac:(lia)).
  replace ((r * g) `min` cnt) with (r * g) by lia. replace ((S r * g) `min` cnt) with (r * g + g `min` (cnt - r * g)) by lia.
  rewrite seq_app, fmap_app. f_equal.
  apply list_eq_same_length with (g `min` (cnt - r * g)); rewrite ?length_fmap, ?length_seq; [done..|].
  intros i x y Hi. rewrite !list_lookup_fmap, !lookup_seq_lt by done. cbn. intros [= <-] [= <-]. unfold slice_at, group_size.
  destruct (split_div r i) as [-> ->]; [lia|]. done.
Qed.

Lemma slice_order_eq id : id <= g -> slice_order id g cnt = slice_at id <$> seq 0 cnt.
Proof. intros Hid. destruct length_rounds. unfold slice_order. rewrite groups_order by done. by replace ((rounds g cnt * g) `min` cnt) with cnt by lia. Qed.

(** ** The order is its own inverse *)

Lemma group_size_pos i : i < cnt -> i mod g < group_size i /\ group_size i <= g.
Proof. intros Hi. unfold group_size. pose proof (Nat.div_mod_eq i g). pose proof (Nat.mod_upper_bound i g ltac:(lia)). nia. Qed.

Lemma turned_lt id z p : p < z -> turned id z p < z.
Proof. intros. unfold turned. destruct (Nat.ltb_spec p (id `min` z)); lia. Qed.

Lemma turned_turned id z p : p < z -> turned id z (turned id z p) = p.
Proof.
  intros. unfold turned. destruct (Nat.ltb_spec p (id `min` z));
    match goal with |- context [?a <? ?b] => destruct (Nat.ltb_spec a b) end; lia.
Qed.

Lemma slice_group id i : i < cnt -> slice_at id i / g = i / g /\ slice_at id i mod g = turned id (group_size i) (i mod g) /\ slice_at id i < cnt.
Proof.
  intros Hi. destruct (group_size_pos i Hi) as [H1 H2]. pose proof (turned_lt id _ _ H1) as Ht. unfold slice_at. set (t := turned _ _ _) in *.
  destruct (split_div (i / g) t) as [-> ->]; [lia|]. split_and!; [done|done|]. unfold group_size in Ht.
  pose proof (Nat.div_mod_eq i g). nia.
Qed.

Lemma slice_lt id i : i < cnt -> slice_at id i < cnt.
Proof. intros. by apply slice_group. Qed.

Lemma slice_slice id i : i < cnt -> slice_at id (slice_at id i) = i.
Proof.
  intros Hi. destruct (slice_group id i Hi) as (E1 & E2 & _). unfold slice_at at 1. unfold group_size. rewrite E1, E2. fold (group_size i).
  rewrite turned_turned by by apply group_size_pos. pose proof (Nat.div_mod_eq i g). nia.
Qed.

Lemma slice_inj id i j : i < cnt -> j < cnt -> slice_at id i = slice_at id j -> i = j.
Proof. intros Hi Hj E. by rewrite <- (slice_slice id i Hi), E, slice_slice. Qed.

(** [_sli2pkt] is the inverse. *)
Lemma packet_of_lookup (order : list nat) s i : NoDup order -> order !! i = Some s -> packet_of order !! Z.of_nat s = Some i.
Proof.
  intros Hnd. unfold packet_of. assert (H : forall l (m : gmap Z nat) n, NoDup l -> let r := foldl (fun '(m, i) s => (<[Z.of_nat s := i]> m, S i)) (m, n) l in
    (forall i s, l !! i = Some s -> r.1 !! Z.of_nat s = Some (n + i)) /\ forall s, s ∉ l -> r.1 !! Z.of_nat s = m !! Z.of_nat s).
  2: { intros Hi. by apply (H order ∅ 0 Hnd). }
  induction l as [|s0 l IH]; intros m n Hl r; [by split|]. apply NoDup_cons in Hl as [H0 Hl]. destruct (IH (<[Z.of_nat s0 := n]> m) (S n) Hl) as [IH1 IH2]. subst r. cbn [foldl].
  split.
  - intros [|i'] s' Hs.
    + injection Hs as <-. rewrite IH2, lookup_insert_eq by done. f_equal. lia.
    + rewrite (IH1 i' s' Hs). f_equal. lia.
  - intros s' [Hs1 Hs2]%not_elem_of_cons. rewrite IH2, lookup_insert_ne by (done || lia). done.
Qed.

Lemma slice_order_at id i : id <= g -> i < cnt -> slice_order id g cnt !! i = Some (slice_at id i).
Proof. intros Hid Hi. by rewrite slice_order_eq, list_lookup_fmap, lookup_seq_lt. Qed.

Lemma packet_of_slice id s : id <= g -> s < cnt -> packet_of (slice_order id g cnt) !! Z.of_nat s = Some (slice_at id s).
Proof.
  intros Hid Hs. apply packet_of_lookup.
  - rewrite slice_order_eq by done. apply NoDup_fmap_2_strong; [|apply NoDup_seq]. intros i j Hi%elem_of_seq Hj%elem_of_seq. apply slice_inj; lia.
  - rewrite slice_order_at by (done || by apply slice_lt). by rewrite slice_slice.
Qed.

(** ** Where a slice starts and ends *)

Lemma group_cases s : s < cnt ->
  (s / g < cnt / g /\ group_size s = g /\ forall i, i / g = s / g -> i < lastGroupBase g cnt) \/
  (s / g = cnt / g /\ group_size s = lastGroupCnt g cnt /\ forall i, i / g = s / g -> lastGroupBase g cnt <= i).
Proof.
  intros Hs. unfold group_size, lastGroupBase, lastGroupCnt. pose proof (Nat.div_mod_eq cnt g) as Ec. pose proof (Nat.mod_upper_bound cnt g ltac:(lia)) as Hc.
  pose proof (Nat.Div0.div_le_mono s cnt g ltac:(lia)) as Hq. destruct (decide (s / g = cnt / g)) as [E|Hne]; [right|left]; (split; [lia|]); split.
  - rewrite E. nia.
  - intros i Ei. pose proof (Nat.div_mod_eq i g). rewrite Ei, E in *. nia.
  - nia.
  - intros i Ei. pose proof (Nat.div_mod_eq i g). pose proof (Nat.mod_upper_bound i g ltac:(lia)). nia.
Qed.

Ltac slice_case id s Hs :=
  let E1 := fresh "E" in let E2 := fresh "E" in let H1 := fresh "H" in let H2 := fresh "H" in let Hb := fresh "Hb" in
  destruct (slice_group id s Hs) as (E1 & E2 & _); destruct (group_size_pos s Hs) as [H1 H2];
  rewrite ?E2; destruct (group_cases s Hs) as [(? & Hz & Hb)|(? & Hz & Hb)]; specialize (Hb (slice_at id s) E1); rewrite Hz in *;
  unfold turned, lastGroupCnt in *; match goal with |- context [?a <? ?b `min` ?c] => destruct (Nat.ltb_spec a (b `min` c)) end.

(** A slice is pulled by every helper but the one after its number, which
    starts it. *)
Lemma pulled_slice id s : id <= g -> s < cnt -> is_pulled id g cnt (slice_at id s) = negb (id =? S (s mod g)).
Proof. intros Hid Hs. unfold is_pulled. slice_case id s Hs; nat_cases. Qed.

Lemma started_slice id s : id <= g -> s < cnt -> is_started id g cnt (slice_at id s) = (id =? S (s mod g)).
Proof. intros Hid Hs. unfold is_started. slice_case id s Hs; nat_cases. Qed.

(** It goes to the requestor from the helper of its number. *)
Lemma last_slice id s : id <= g -> s < cnt -> is_last id (S g) cnt (slice_at id s) = (id =? s mod g).
Proof.
  intros Hid Hs. unfold is_last. replace (S g - 1) with g by lia. replace (S g - 2) with (g - 1) by lia.
  pose proof (slice_lt id s Hs). pose proof (Nat.div_mod_eq (slice_at id s) g). pose proof (Nat.div_mod_eq cnt g).
  pose proof (Nat.mod_upper_bound cnt g ltac:(lia)).
  slice_case id s Hs; nat_cases.
Qed.

(** The slices a helper starts, in order. *)
Lemma started_packet id i : id <= g -> i < cnt -> is_started id g cnt i = true -> i mod g = 0 /\ 0 < id /\ slice_at id i = i + id - 1.
Proof.
  intros Hid Hi Hst. assert (H0 : i mod g = 0 /\ 0 < id) by (unfold is_started in Hst; destruct (Nat.eqb_spec id 0), (Nat.eqb_spec (i mod g) 0); cbn in Hst; (done || lia)). destruct H0 as [Hm H0]. split_and!; [done..|].
  destruct (slice_group id i Hi) as (E1 & E2 & Hlt). pose proof Hst as H. rewrite <- (slice_slice id i Hi), started_slice in H by done. apply Nat.eqb_eq in H.
  pose proof (Nat.div_mod_eq (slice_at id i) g) as E3. pose proof (Nat.div_mod_eq i g). rewrite E1 in E3. nia.
Qed.
End schedule.

(** ** The way of a slice *)

Section ring.
Context (g : nat) (Hg : 0 < g).

(** The helpers before and after [x] in the ring of [g + 1]. *)
Definition before (x : nat) : nat := if x =? 0 then g else x - 1.
Definition after (x : nat) : nat := if x =? g then 0 else S x.

(** The helper a slice reaches after [d] steps, and how far it is to [x]. *)
Definition reached (s d : nat) : nat := let a := S (s mod g) in if a + d <=? g then a + d else a + d - S g.
Definition distance (s x : nat) : nat := let a := S (s mod g) in if a <=? x then x - a else x + S g - a.

Lemma number_lt s : s mod g < g.
Proof. apply Nat.mod_upper_bound. lia. Qed.

Ltac around s := pose proof (number_lt s); unfold reached, distance, before, after in *; cbv zeta in *; nat_cases.

Lemma before_after x : x <= g -> before (after x) = x.
Proof. intros Hx. unfold before, after. nat_cases. Qed.
Lemma after_before x : x <= g -> after (before x) = x.
Proof. intros Hx. unfold before, after. nat_cases. Qed.
Lemma before_le x : x <= g -> before x <= g.
Proof. intros Hx. unfold before. nat_cases. Qed.
Lemma after_le x : x <= g -> after x <= g.
Proof. intros Hx. unfold after. nat_cases. Qed.

(** It leaves [x] for the next helper unless it ends there, where no other is
    left that has not seen it. *)
Lemma ends_starts s x : x <= g -> x = s mod g <-> after x = S (s mod g).
Proof. intros Hx. pose proof (number_lt s). unfold after. destruct (Nat.eqb_spec x g); lia. Qed.

Lemma reached_le s d : d <= g -> reached s d <= g.
Proof. intros Hd. around s. Qed.
Lemma reached_0 s : reached s 0 = S (s mod g).
Proof. around s. Qed.
Lemma reached_S s d : d < g -> reached s (S d) = after (reached s d).
Proof. intros Hd. around s. Qed.
Lemma reached_end s d : d < g -> reached s d <> s mod g.
Proof. intros Hd. around s. Qed.
Lemma reached_distance s x : x <= g -> reached s (distance s x) = x.
Proof. intros Hx. around s. Qed.
Lemma distance_le s x : x <= g -> distance s x <= g.
Proof. intros Hx. around s. Qed.
Lemma distance_start s : distance s (S (s mod g)) = 0.
Proof. around s. Qed.
Lemma distance_end s : distance s (s mod g) = g.
Proof. around s. Qed.
Lemma distance_before s x : x <= g -> x <> S (s mod g) -> distance s x = S (distance s (before x)).
Proof. intros Hx Hne. around s. Qed.

(** Every helper is on its way once. *)
Lemma sum_way s (f : nat -> Z) : xsum (S g) (fun d => f (reached s d)) = xsum (S g) f.
Proof.
  pose proof (number_lt s) as Hn. set (a := S (s mod g)). replace (S g) with ((S g - a) + a) at 1 by lia. replace (S g) with (a + (S g - a)) at 2 by lia.
  rewrite !xsum_plus, Z.lxor_comm. f_equal; apply xsum_ext; intros i Hi; f_equal; unfold reached; fold a; cbv zeta; nat_cases.
Qed.
End ring.
