(* ===== verification/CyclRepair.v ===== *)
(** * Cyclic repair (CyclMulFRWorker.cc, [cyclCollector])

    The helpers of a stripe form a ring.  Each reads its slices in the order of
    CyclSched.v and runs three threads: [readerMul] reads and multiplies a
    packet, and puts those that start here into [tmpQueue], from which it
    passes them to the sender; [pullerMul] adds what comes from the helper
    before, whatever slice it is, as the number of the slice follows its bytes,
    and passes it on; [senderMul] pushes what it was passed to the next helper
    or, where the slice ends, for the client.  [_toSendIds] is the queue of the
    sender, and both others write it.  The client ([cyclCollector]) runs
    [cyclReceiver] threads, one per helper it pulls from and lost block.

    A step is one iteration of one of the threads, from its test on; the waits for
    the tests are in CyclWait.v.  The setup of a helper's threads is a step of its
    own: [readerMul] fills the tables of slices, and [doProcess] makes
    [_toSendIds] after it has started the other two.  [cyclReceiver] reads
    [_completePacketIndex] before it locks the mutex it writes it under, so each
    of its iterations is three steps. *)
From Stdlib Require Import Ascii.
From stdpp Require Import strings relations.
From S2P Require Import Prelude Command Text Galois GF256 Jerasure Gauss Vandermonde ReedSol Encode RSUtil Config Disk Coordinator Packet DrCmd PipeRepair MulRepair CyclSched.

#[local] Open Scope nat_scope.

(** ** A helper *)

(** The members the threads share, the local variables of [readerMul], and the
    counters of the loops, which count the iterations over packets and jobs.
    The counter of [readerMul] is [_readCnt].  A packet is missing from
    [_diskPktsMul] until it is allocated; an entry of [_toSendIds] is [None]
    until it is written, and [_toSendIds] until it is allocated. *)
Record yworker := mkYWorker {
  _diskPktsMul : gmap (nat * nat) (list Z);
  _pkt2sli : list (list nat);
  _sli2pkt : list (gmap Z nat);
  _readCnt : nat;
  _toSendIds : option (list (option nat));
  _toSendCnt : nat;
  tmpQueue : list nat;
  tmpQueueRear : nat;
  c_filled : bool;
  c_allocated : bool;
  c_pulled : nat;
  c_sent : nat;
  c_cleaned : bool
}.

#[export] Instance yworker_inhabited : Inhabited yworker := populate (mkYWorker ∅ [] [] 0 None 0 [] 0 false false 0 0 false).

(** What a command with [jobInd == 1] starts the threads with: the tables are
    empty and [_toSendIds] is what the last repair has freed. *)
Definition new_yworker : yworker := mkYWorker ∅ [] [] 0 None 0 [] 0 false false 0 0 false.

(** [_ecK] of the last command, and [groupSize]. *)
Definition node_ecK (n : mnode) : nat := Z.to_nat (default 0%Z (dr_ecK <$> last (mn_jobs n))).
Definition groupSize (n : mnode) : nat := node_ecK n - 1.
Definition job_id (c : dr_cmd) : nat := Z.to_nat (dr_id c).

Section workers.
Context `{GF : GFComplete} `{DIO : DiskIO} (conf : Config).
Abbreviation cnt := (_packetCnt conf).
Abbreviation size := (_packetSize conf).

(** The critical section of the other two threads: a packet is passed to the
    sender. *)
Definition pass_packet (pktId : nat) (w : yworker) : res yworker :=
  ids ← res_of_option Undef (_toSendIds w);
  guard_or Undef (_toSendCnt w <? length ids);;
  Ok (mkYWorker (_diskPktsMul w) (_pkt2sli w) (_sli2pkt w) (_readCnt w) (Some (<[_toSendCnt w := Some pktId]> ids)) (S (_toSendCnt w))
        (tmpQueue w) (tmpQueueRear w) (c_filled w) (c_allocated w) (c_pulled w) (c_sent w) (c_cleaned w)).

(** [readerMul] up to its main loop; every loop over groups divides by their
    size. *)
Definition fill_tables (n : mnode) (w : yworker) : res yworker :=
  let g := groupSize n in
  guard_or Undef (0 <? g);;
  let orders := (fun c => slice_order (job_id c) g cnt) <$> mn_jobs n in
  Ok (mkYWorker (_diskPktsMul w) (_pkt2sli w ++ orders) (_sli2pkt w ++ (packet_of <$> orders)) (_readCnt w) (_toSendIds w) (_toSendCnt w)
        (tmpQueue w) (tmpQueueRear w) true (c_allocated w) (c_pulled w) (c_sent w) (c_cleaned w)).

(** The next packet of [tmpQueue] is passed, unless it is more than [ahead]
    groups before what has been passed. *)
Definition pass_started (ahead : nat) (w : yworker) : res (option yworker) :=
  guard_or Undef (1 <? _ecK conf);;
  if (tmpQueueRear w <=? _toSendCnt w / (_ecK conf - 1) + ahead) && (tmpQueueRear w <? length (tmpQueue w)) then
    pktId ← res_of_option Undef (tmpQueue w !! tmpQueueRear w);
    w ← pass_packet pktId w;
    Ok (Some (mkYWorker (_diskPktsMul w) (_pkt2sli w) (_sli2pkt w) (_readCnt w) (_toSendIds w) (_toSendCnt w)
        (tmpQueue w) (S (tmpQueueRear w)) (c_filled w) (c_allocated w) (c_pulled w) (c_sent w) (c_cleaned w)))
  else Ok None.

(** One iteration of the loops of [readerMul] over packets and jobs.  The offset
    is an [int], and there is no skipped header.  The packet that is counted in
    [_readCnt] and the packet that is passed are one step: a packet that starts
    here is not pulled, so that no other thread looks for the one just read. *)
Definition read_slice (n : mnode) (w : yworker) : res yworker :=
  let nj := length (mn_jobs n) in
  let pktId := _readCnt w / nj in
  let j := _readCnt w mod nj in
  c ← res_of_option Undef (mn_jobs n !! j);
  order ← res_of_option Undef (_pkt2sli w !! j);
  sli ← res_of_option Undef (order !! pktId);
  guard_or (Exit 1) (bool_decide (is_s32 (Z.of_nat (sli * size))));;
  pkt ← readPacketFromDisk (mn_file n) (zeros size) size (sli * size);
  _ ← pktOutput pktId cnt;
  let buf := multiply pkt (dr_coefficient c) ++ le32 (Z.of_nat sli) in
  let started := is_started (job_id c) (groupSize n) cnt pktId in
  guard_or Undef (negb started || (length (tmpQueue w) <? nj * (cnt + 4)));;
  let w := mkYWorker (<[(j, pktId) := buf]> (_diskPktsMul w)) (_pkt2sli w) (_sli2pkt w) (S (_readCnt w)) (_toSendIds w) (_toSendCnt w)
    (if started then tmpQueue w ++ [pktId] else tmpQueue w) (tmpQueueRear w) (c_filled w) (c_allocated w) (c_pulled w) (c_sent w) (c_cleaned w) in
  if started then r ← pass_started 3 w; Ok (default w r) else Ok w.

(** A step of [readerMul].  The loop after the main one passes the packets that
    are left; the code polls the sender's counter there. *)
Definition readerMul (n : mnode) (w : yworker) : res yworker :=
  if negb (c_filled w) then fill_tables n w else
  if _readCnt w <? length (mn_jobs n) * cnt then read_slice n w else
  guard_or Blocked (tmpQueueRear w <? length (tmpQueue w));;
  r ← pass_started 10 w;
  res_of_option Blocked r.

(** A step of [doProcess] and [pullerMul]: the sender's queue is made, then
    every iteration of the loops over packets and jobs.  A slice is popped in the
    step in which its packet has been read, as nobody else pops the list; the
    wait for the packet in between is [cycl_wait_on], [cycl_test] of CyclWait.v. *)
Definition pullerMul (n : mnode) (w : yworker) (r : redis) : res (yworker * redis) :=
  let nj := length (mn_jobs n) in
  if negb (c_allocated w) then
    Ok (mkYWorker (_diskPktsMul w) (_pkt2sli w) (_sli2pkt w) (_readCnt w) (Some (replicate (nj * cnt + 4) None)) (_toSendCnt w)
          (tmpQueue w) (tmpQueueRear w) (c_filled w) true (c_pulled w) (c_sent w) (c_cleaned w), r) else
  let i := c_pulled w / nj in
  let j := c_pulled w mod nj in
  guard_or Blocked (i <? cnt);;
  guard_or Undef (0 <? groupSize n);;
  c ← res_of_option Undef (mn_jobs n !! j);
  let next w := mkYWorker (_diskPktsMul w) (_pkt2sli w) (_sli2pkt w) (_readCnt w) (_toSendIds w) (_toSendCnt w)
    (tmpQueue w) (tmpQueueRear w) (c_filled w) (c_allocated w) (S (c_pulled w)) (c_sent w) (c_cleaned w) in
  if negb (is_pulled (job_id c) (groupSize n) cnt i) then Ok (next w, r) else
  rc ← res_of_option Undef (mjoin (mn_prevs n !! j));
  '(str, r) ← res_of_option Blocked (BLPOP rc (tmpKey (dr_lostBlkName c)) r);
  sliId ← read_int str size;
  m ← res_of_option Undef (_sli2pkt w !! j);
  let pktId := default 0 (m !! sliId) in
  guard_or Blocked (pktId * nj + j <? _readCnt w);;
  buf ← res_of_option Undef (_diskPktsMul w !! (j, pktId));
  buf ← XORBuffers buf str size;
  _ ← pktOutput pktId cnt;
  w ← pass_packet pktId (mkYWorker (<[(j, pktId) := buf]> (_diskPktsMul w)) (_pkt2sli w) (<[j := <[sliId := pktId]> m]> (_sli2pkt w)) (_readCnt w)
    (_toSendIds w) (_toSendCnt w) (tmpQueue w) (tmpQueueRear w) (c_filled w) (c_allocated w) (c_pulled w) (c_sent w) (c_cleaned w));
  Ok (next w, r).

(** A step of [senderMul]: an iteration of the loops over packets and jobs, which
    takes the packets of [_toSendIds] in turn for its jobs, once the test of
    [_toSendCnt] has succeeded ([cycl_wait_on], [cycl_test] of CyclWait.v), and in
    the end the release of the memory. *)
Definition senderMul (n : mnode) (w : yworker) (r : redis) : res (yworker * redis) :=
  let nj := length (mn_jobs n) in
  guard_or Undef (0 <? groupSize n);;
  let i := c_sent w / nj in
  let j := c_sent w mod nj in
  if i <? cnt then
    guard_or Blocked (i * nj + j <? _toSendCnt w);;
    ids ← res_of_option Undef (_toSendIds w);
    pktId ← res_of_option Undef (mjoin (ids !! (i * nj + j)));
    c ← res_of_option Undef (mn_jobs n !! j);
    buf ← res_of_option Undef (_diskPktsMul w !! (j, pktId));
    p ← res_of_option Undef (slice buf 0 (size + 4));
    let key := if is_last (job_id c) (node_ecK n) cnt pktId then dr_lostBlkName c else tmpKey (dr_lostBlkName c) in
    Ok (mkYWorker (_diskPktsMul w) (_pkt2sli w) (_sli2pkt w) (_readCnt w) (_toSendIds w) (_toSendCnt w)
          (tmpQueue w) (tmpQueueRear w) (c_filled w) (c_allocated w) (c_pulled w) (S (c_sent w)) (c_cleaned w), RPUSH (mn_ip n) key p r)
  else
    guard_or Blocked (negb (c_cleaned w));;
    guard_or Undef (nj * cnt <=? _readCnt w);;
    Ok (mkYWorker ∅ [] [] (_readCnt w) None (_toSendCnt w)
          (tmpQueue w) (tmpQueueRear w) (c_filled w) (c_allocated w) (c_pulled w) (c_sent w) true, r).

Definition run_ythread (t : thread) (n : mnode) (w : yworker) (r : redis) : res (yworker * redis) :=
  match t with
  | TRead => w ← readerMul n w; Ok (w, r)
  | TPull => pullerMul n w r
  | TSend => senderMul n w r
  end.

(** ** The client *)

(** [_contents] by packet and job; a packet that has come is there and marked in
    [_indexCompleted].  Of each [cyclReceiver] [cc_received] counts the
    iterations, and [cc_pending] has [newIndex] and [baseIndex] in the midst of
    one: when the packet has been stored, and when [_completePacketIndex] has been
    read. *)
Record cclient := mkCClient {
  cc_contents : gmap (nat * nat) (list Z);
  _completePacketIndex : nat;
  cc_received : list nat;
  cc_pending : list (option (nat * option nat));
  cc_joined : bool;
  cc_processed : nat;
  cc_file : list Z
}.

(** How many packets the receivers of the helper [i] wait for. *)
Definition receiver_cnt (i : nat) : nat :=
  cnt / (_ecK conf - 1) + if i <? cnt mod (_ecK conf - 1) then 1 else 0.

(** [cyclCollector] up to the start of its threads. *)
Definition cyclCollector (nj : nat) : res cclient :=
  guard_or Undef (1 <? _ecK conf);;
  Ok (mkCClient ∅ 0 (replicate ((_ecK conf - 1) * nj) 0) (replicate ((_ecK conf - 1) * nj) None) false 0 []).

(** The first step of an iteration of [cyclReceiver], the thread [i * _nj + j]: a
    packet is stored by its number and marked. *)
Definition store_packet (_cyclPullCtx : list (list (option Z))) (_lostFiles : list str) (x : nat) (c : cclient) (r : redis) : res (cclient * redis) :=
  let nj := length _lostFiles in
  let i := x / nj in
  let j := x mod nj in
  ctxes ← res_of_option Undef (_cyclPullCtx !! j);
  rc ← res_of_option Undef (mjoin (ctxes !! i));
  f ← res_of_option Undef (_lostFiles !! j);
  '(str, r) ← res_of_option Blocked (BLPOP rc f r);
  pktId ← read_int str size;
  guard_or Undef ((0 <=? pktId)%Z && (pktId <? Z.of_nat cnt)%Z);;
  let pktId := Z.to_nat pktId in
  pkt ← res_of_option Undef (slice str 0 size);
  Ok (mkCClient (<[(pktId, j) := pkt]> (cc_contents c)) (_completePacketIndex c) (cc_received c) (<[x := Some (pktId * nj + j, None)]> (cc_pending c))
        (cc_joined c) (cc_processed c) (cc_file c), r).

(** No packet is missing from [baseIndex] up to [newIndex]. *)
Definition all_completed (nj baseIndex newIndex : nat) (c : cclient) : bool :=
  forallb (fun b => bool_decide (is_Some (cc_contents c !! (b / nj, b mod nj)))) (seq baseIndex (newIndex - baseIndex)).

(** An iteration of [cyclReceiver] in its steps: the packet stored; the index read;
    and, with the mutex locked, the index moved behind the packet if none between
    is missing. *)
Definition cyclReceiver (_cyclPullCtx : list (list (option Z))) (_lostFiles : list str) (x : nat) (c : cclient) (r : redis) : res (cclient * redis) :=
  let nj := length _lostFiles in
  got ← res_of_option Undef (cc_received c !! x);
  guard_or Blocked (got <? receiver_cnt (x / nj));;
  match mjoin (cc_pending c !! x) with
  | None => store_packet _cyclPullCtx _lostFiles x c r
  | Some (newIndex, None) =>
    Ok (mkCClient (cc_contents c) (_completePacketIndex c) (cc_received c) (<[x := Some (newIndex, Some (_completePacketIndex c))]> (cc_pending c))
          (cc_joined c) (cc_processed c) (cc_file c), r)
  | Some (newIndex, Some baseIndex) =>
    Ok (mkCClient (cc_contents c) (if all_completed nj baseIndex newIndex c then newIndex + 1 else _completePacketIndex c)
          (<[x := S got]> (cc_received c)) (<[x := None]> (cc_pending c)) (cc_joined c) (cc_processed c) (cc_file c), r)
  end.

(** The rest of [cyclCollector], when all receivers have ended. *)
Definition join_receivers (nj : nat) (c : cclient) : res cclient :=
  guard_or Blocked (negb (cc_joined c) && forallb (fun p => p.2 =? receiver_cnt (p.1 / nj)) (zip (seq 0 (length (cc_received c))) (cc_received c)));;
  Ok (mkCClient (cc_contents c) cnt (cc_received c) (cc_pending c) true (cc_processed c) (cc_file c)).

(** One iteration of [pipeForwardWorker], once the predicate of its wait holds
    (CyclWait.v). *)
Definition cyclForwardWorker (_locIP : Z) (_lostFiles : list str) (c : cclient) (r : redis) : res (cclient * redis) :=
  let nj := length _lostFiles in
  let i := cc_processed c / nj in
  let j := cc_processed c mod nj in
  guard_or Blocked (i <? cnt);;
  guard_or Blocked (cc_processed c <? _completePacketIndex c);;
  pkt ← res_of_option Undef (cc_contents c !! (i, j));
  if j =? 0 then
    Ok (mkCClient (cc_contents c) (_completePacketIndex c) (cc_received c) (cc_pending c) (cc_joined c) (S (cc_processed c)) (cc_file c ++ pkt), r) else
  f ← res_of_option Undef (_lostFiles !! j);
  Ok (mkCClient (cc_contents c) (_completePacketIndex c) (cc_received c) (cc_pending c) (cc_joined c) (S (cc_processed c)) (cc_file c), RPUSH _locIP f pkt r).

(** ** The system *)

Record ystate := mkYState { c_workers : list yworker; c_servers : redis; c_client : cclient }.

Inductive ystep (ns : list mnode) (_cyclPullCtx : list (list (option Z))) (_locIP : Z) (_lostFiles : list str) : ystate -> ystate -> Prop :=
  | ystep_thread st x t n w w' r :
      ns !! x = Some n -> c_workers st !! x = Some w -> run_ythread t n w (c_servers st) = Ok (w', r) ->
      ystep ns _cyclPullCtx _locIP _lostFiles st (mkYState (<[x := w']> (c_workers st)) r (c_client st))
  | ystep_receive st x c r : x < length (cc_received (c_client st)) ->
      cyclReceiver _cyclPullCtx _lostFiles x (c_client st) (c_servers st) = Ok (c, r) ->
      ystep ns _cyclPullCtx _locIP _lostFiles st (mkYState (c_workers st) r c)
  | ystep_join st c :
      join_receivers (length _lostFiles) (c_client st) = Ok c ->
      ystep ns _cyclPullCtx _locIP _lostFiles st (mkYState (c_workers st) (c_servers st) c)
  | ystep_forward st c r :
      cyclForwardWorker _locIP _lostFiles (c_client st) (c_servers st) = Ok (c, r) ->
      ystep ns _cyclPullCtx _locIP _lostFiles st (mkYState (c_workers st) r c).

(** A thread of a helper, or one of the client, that would do something other
    than step or wait. *)
Definition helper_crash (ns : list mnode) (st : ystate) (x : nat) : Prop :=
  exists t n w e, ns !! x = Some n /\ c_workers st !! x = Some w /\ run_ythread t n w (c_servers st) = Fault e /\ e <> Blocked.
Definition client_crash (_cyclPullCtx : list (list (option Z))) (_locIP : Z) (_lostFiles : list str) (st : ystate) : Prop :=
  (exists x e, x < length (cc_received (c_client st)) /\ cyclReceiver _cyclPullCtx _lostFiles x (c_client st) (c_servers st) = Fault e /\ e <> Blocked) \/
  (exists e, join_receivers (length _lostFiles) (c_client st) = Fault e /\ e <> Blocked) \/
  exists e, cyclForwardWorker _locIP _lostFiles (c_client st) (c_servers st) = Fault e /\ e <> Blocked.
End workers.
