(* ===== verification/CyclProgress.v ===== *)
(** * Progress of the cyclic repair of one block

    The invariant of the system of CyclRepair.v for one lost block, and what
    follows: once a helper is set up none of its threads fails, no more
    iterations are possible than a bound says, and as long as the client has not
    written the whole block the test of some thread succeeds.  The sender's queue of a
    helper is described by the slices it was passed, in order; what the helper
    before has sent is what has been pulled and what waits between them. *)
From Stdlib Require Import Ascii.
From stdpp Require Import strings relations.
From S2P Require Import Prelude Command Text Galois GF256 Jerasure Gauss Vandermonde ReedSol Encode RSUtil Config Disk Coordinator Packet DrCmd PipeRepair MulRepair MulProgress CyclSched CyclRepair.

#[local] Open Scope nat_scope.

(** ** Lists of slices *)

Lemma nodup_bound (l : list nat) n : NoDup l -> (forall s, s ∈ l -> s < n) -> length l <= n.
Proof.
  intros Hnd Hl. rewrite <- (length_seq n 0). apply submseteq_length, NoDup_submseteq; [done|]. intros s Hs. apply elem_of_seq. specialize (Hl s Hs). lia.
Qed.

Lemma nodup_all (l : list nat) n : (forall s, s < n -> s ∈ l) -> n <= length l.
Proof.
  intros Hl. rewrite <- (length_seq n 0) at 1. apply submseteq_length, NoDup_submseteq; [apply NoDup_seq|]. intros s Hs%elem_of_seq. apply Hl. lia.
Qed.

(** The slices of a number below [t]. *)
Lemma numbered_count g i t : 0 < g -> i < g -> length (filter (fun s => s mod g = i) (seq 0 t)) = share g i t.
Proof.
  intros Hg Hi. induction t as [|t IH]; [by rewrite share_0|]. rewrite seq_S, filter_app, length_app, IH, share_S by done. f_equal.
  rewrite filter_cons. cbn [Nat.add]. by case_decide.
Qed.

(** The packets that start a group. *)
Lemma started_count (P : nat -> Prop) `{!forall i, Decision (P i)} g q : 0 < g -> (forall i, P i -> i mod g = 0) -> length (filter P (seq 0 (q * g))) <= q.
Proof.
  intros Hg HP. induction q as [|q IH]; [done|]. replace (S q * g) with (q * g + g) by lia. rewrite seq_app, filter_app, length_app. cbn [Nat.add].
  enough (length (filter P (seq (q * g) g)) <= 1) by lia. destruct g as [|g']; [lia|]. cbn [seq]. rewrite filter_cons.
  assert (E : filter P (seq (S (q * S g')) g') = []).
  { apply elem_of_nil_inv. intros i [Hi%HP [H1 H2]%elem_of_seq]%list_elem_of_filter. replace i with (q * S g' + (i - q * S g')) in Hi by lia.
    destruct (split_div (S g') ltac:(lia) q (i - q * S g')) as [_ E]; lia. }
  rewrite E. case_decide; cbn; lia.
Qed.

Lemma nodup_full (l : list nat) n : NoDup l -> (forall s, s ∈ l -> s < n) -> length l = n -> forall s, s < n -> s ∈ l.
Proof.
  intros Hnd Hl Hlen s Hs. destruct (decide (s ∈ l)) as [|Hno]; [done|]. exfalso.
  pose proof (nodup_bound (s :: l) n) as H. cbn [length] in H. enough (S (length l) <= n) by lia. apply H; [by constructor|].
  intros s' [->|Hs']%elem_of_cons; [done|by apply Hl].
Qed.

(** Packets of whole words with something behind them. *)
Lemma xor_prefix (a b t u : list Z) len : length a = len -> length b = len -> (len mod ULL = 0)%nat ->
  XORBuffers (a ++ t) (b ++ u) len = Ok (zip_with Z.lxor a b ++ t).
Proof.
  intros Ha Hb E. pose proof (Nat.div_mod_eq len ULL). assert (El : ULL * (len / ULL) = len) by lia.
  unfold XORBuffers. rewrite !length_app, bool_decide_true by lia. cbn [guard_or]. rewrite bind_ok, foldl_words by (rewrite length_app; lia).
  rewrite El, !take_app_length', drop_app_length' by done. done.
Qed.

Section progress.
Context `{GF : GFComplete} {GL : GF8Laws} `{DL : DiskLaws} (conf : Config) (Hpo : packets_ok conf).
Context (ns : list mnode) (lost : str).
Abbreviation cnt := (_packetCnt conf).
Abbreviation size := (_packetSize conf).
Abbreviation k := (length ns).
Abbreviation g := (_ecK conf - 1).
Abbreviation pns := (node_of 0 <$> ns).

(** The helpers of one block in their ring, with the number of helpers the
    configuration has and without a header in the blocks. *)
Record cring : Prop := {
  cr_k : k = _ecK conf /\ 1 < k < 256;
  cr_skip : _packetSkipSize conf = 0;
  cr_cnt : 0 < cnt /\ (Z.of_nat cnt < 2^31)%Z;
  cr_pipe : pipeline conf pns lost;
  cr_job n : n ∈ ns -> exists c, mn_jobs n = [c];
  cr_prev x n m : ns !! x = Some n -> ns !! before g x = Some m -> mn_prevs n = [Some (mn_ip m)]
}.
Context (Hcr : cring).

Lemma k_g : k = S g /\ 0 < g.
Proof. destruct (cr_k Hcr). lia. Qed.
Lemma g_pos : 0 < g.
Proof. apply k_g. Qed.
#[local] Hint Resolve g_pos : core.

(** What a helper makes of a slice of its own, and the sum that has come to it. *)
Abbreviation own := (PipeRepair.own conf pns).
Fixpoint psum (s d : nat) : list Z :=
  match d with
  | O => own (reached g s 0) s
  | S d' => zip_with Z.lxor (own (reached g s d) s) (psum s d')
  end.
Definition acc (x s : nat) : list Z := psum s (distance g s x).
Definition msg (x s : nat) : list Z := acc x s ++ le32 (Z.of_nat s).
(** The slice of the lost block. *)
Definition total (s : nat) : list Z := acc (s mod g) s.

Lemma length_pns : length pns = k.
Proof. apply length_fmap. Qed.

Lemma cnode_at x : x < k -> exists n c, ns !! x = Some n /\ ns !!! x = n /\ mn_jobs n = [c] /\ job_id c = x /\ node_ecK n = k /\
  dr_lostBlkName c = lost /\ is_byte (dr_coefficient c) /\ blk_file conf (mn_file n) /\
  forall s, own x s = multiply (packet conf (mn_file n) s) (dr_coefficient c).
Proof.
  intros Hx. destruct (lookup_lt_is_Some_2 ns x Hx) as [n Hn]. destruct (cr_job Hcr n) as [c Hc]; [by eapply list_elem_of_lookup_2|].
  assert (Hp : pns !! x = Some (node_of 0 n)) by by rewrite list_lookup_fmap, Hn.
  destruct (pl_cmd _ _ _ (cr_pipe Hcr) x _ Hp) as (H1 & H2 & H3 & H4). destruct (pl_file _ _ _ (cr_pipe Hcr) x _ Hp) as (b & [= <-] & Hb).
  rewrite length_pns in H1. cbn [node_of n_cmd] in *. rewrite Hc in *. cbn [lookup_total list_lookup_total] in H1, H2, H3, H4. exists n, c. split_and!; try done.
  - by apply list_lookup_total_correct.
  - unfold job_id. by rewrite H2, Nat2Z.id.
  - unfold node_ecK. rewrite Hc. cbn. by rewrite H1, Nat2Z.id.
  - intros s. unfold PipeRepair.own, blk_at, coef_at. rewrite (list_lookup_total_correct _ _ _ Hp). cbn. by rewrite Hc.
Qed.

Lemma length_own x s : x < k -> s < cnt -> length (own x s) = size.
Proof. intros Hx Hs. apply (own_ok conf pns lost (cr_pipe Hcr)); [by rewrite length_pns|done]. Qed.

Lemma length_psum s d : s < cnt -> d <= g -> length (psum s d) = size.
Proof.
  intros Hs. assert (Hr : forall d, d <= g -> length (own (reached g s d) s) = size).
  { intros e He. apply length_own; [|done]. pose proof (reached_le g g_pos s e He). destruct k_g. lia. }
  induction d as [|d IH]; intros Hd; cbn [psum]; [by apply Hr|]. rewrite length_zip_with, Hr, IH by lia. lia.
Qed.

Lemma length_acc x s : x < k -> s < cnt -> length (acc x s) = size.
Proof. intros Hx Hs. destruct k_g. apply length_psum; [done|]. apply distance_le; [done|lia]. Qed.

Lemma acc_start s : acc (S (s mod g)) s = own (S (s mod g)) s.
Proof. unfold acc. rewrite distance_start by done. cbn. by rewrite reached_0. Qed.

Lemma acc_next x s : x < k -> x <> S (s mod g) -> acc x s = zip_with Z.lxor (own x s) (acc (before g x) s).
Proof.
  intros Hx Hne. destruct k_g. unfold acc. rewrite (distance_before g g_pos s x) by lia. cbn [psum]. rewrite <- distance_before by lia.
  by rewrite reached_distance by lia.
Qed.

Lemma length_msg x s : x < k -> s < cnt -> length (msg x s) = size + 4.
Proof. intros. unfold msg. by rewrite length_app, length_acc, length_le32. Qed.

Lemma msg_number x s : x < k -> s < cnt -> read_int (msg x s) size = Ok (Z.of_nat s).
Proof.
  intros Hx Hs. unfold read_int. rewrite <- (length_acc x s) by done. unfold msg. rewrite slice_skip by done. rewrite Nat.sub_diag.
  change 4 with (length (le32 (Z.of_nat s))). rewrite <- (app_nil_r (le32 _)) at 1. rewrite slice_here. cbn [res_of_option]. rewrite bind_ok, de32_le32; [done|].
  destruct (cr_cnt Hcr). unfold is_s32. lia.
Qed.

(** ** The state of a helper *)

Abbreviation started_of x A := (filter (fun s => x = S (s mod g)) A).
Abbreviation pulled_of x A := (filter (fun s => x <> S (s mod g)) A).
Abbreviation queue_of x r := (filter (fun i => is_started x g cnt i = true) (seq 0 r)).
Abbreviation pulls_of x r := (filter (fun i => is_pulled x g cnt i = true) (seq 0 r)).
Abbreviation place := (slice_at g cnt).
Abbreviation order x := (slice_order x g cnt).

(** [_toSendIds] when the slices [A] have been passed. *)
Definition ids_of (x : nat) (A : list nat) : list (option nat) := (Some <$> (place x <$> A)) ++ replicate (cnt + 4 - length A) None.

(** The helper [x], which has been passed the slices [A]. *)
Record worker_at (x : nat) (A : list nat) (w : yworker) : Prop := {
  wa_read : _readCnt w <= cnt;
  wa_count : _toSendCnt w = length A;
  wa_sent : c_sent w <= length A;
  wa_pulled_le : c_pulled w <= cnt;
  wa_rear : tmpQueueRear w <= length (tmpQueue w);
  wa_tables : c_cleaned w = false ->
    _pkt2sli w = (if c_filled w then [order x] else []) /\ _sli2pkt w = (if c_filled w then [packet_of (order x)] else []);
  wa_filled : c_filled w = false -> _readCnt w = 0;
  wa_ids : c_cleaned w = false -> _toSendIds w = if c_allocated w then Some (ids_of x A) else None;
  wa_allocated : c_allocated w = false -> A = [];
  wa_queue : tmpQueue w = queue_of x (_readCnt w);
  wa_started : started_of x A = place x <$> take (tmpQueueRear w) (tmpQueue w);
  wa_pulled : length (pulled_of x A) = length (pulls_of x (c_pulled w));
  wa_nodup : NoDup A;
  wa_in s : s ∈ A -> s < cnt /\ place x s < _readCnt w;
  wa_bufs s : c_cleaned w = false -> s < cnt -> place x s < _readCnt w ->
    _diskPktsMul w !! (0, place x s) = Some ((if decide (s ∈ A) then acc x s else own x s) ++ le32 (Z.of_nat s));
  wa_cleaned : c_cleaned w = true -> c_sent w = cnt /\ _readCnt w = cnt /\ c_filled w = true /\ c_allocated w = true
}.

Ltac fields := cbn [_diskPktsMul _pkt2sli _sli2pkt _readCnt _toSendIds _toSendCnt tmpQueue tmpQueueRear c_filled c_allocated c_pulled c_sent c_cleaned].

Definition set_up (w : yworker) : Prop := c_filled w = true /\ c_allocated w = true.

(** What every step of a helper makes more. *)
Definition counters (w : yworker) : nat :=
  (if c_filled w then 1 else 0) + _readCnt w + tmpQueueRear w + (if c_allocated w then 1 else 0) + c_pulled w + c_sent w + (if c_cleaned w then 1 else 0).

Section helper.
Context (x : nat) (Hx : x < k).

Lemma x_le : x <= g.
Proof. destruct k_g. lia. Qed.
#[local] Hint Resolve x_le : core.

Lemma place_lt s : s < cnt -> place x s < cnt.
Proof. by apply slice_lt. Qed.
Lemma place_place s : s < cnt -> place x (place x s) = s.
Proof. by apply slice_slice. Qed.

Lemma length_passed A w : worker_at x A w -> length A <= cnt.
Proof. intros Hw. apply nodup_bound; [apply Hw|]. intros s Hs. by apply (wa_in _ _ _ Hw). Qed.

(** While a slice is missing the memory is there. *)
Lemma not_cleaned A w s : worker_at x A w -> s < cnt -> s ∉ A -> length A < cnt /\ c_cleaned w = false.
Proof.
  intros Hw Hs Hno. assert (Hl : length A < cnt).
  { pose proof (length_passed A w Hw). destruct (decide (length A = cnt)) as [E|]; [|lia]. destruct Hno.
    apply (nodup_full A cnt); [apply Hw| |done|done]. intros s' Hs'. by apply (wa_in _ _ _ Hw). }
  split; [done|]. destruct (c_cleaned w) eqn:E; [|done]. destruct (wa_cleaned _ _ _ Hw E) as [E2 _]. pose proof (wa_sent _ _ _ Hw). lia.
Qed.

Lemma ids_grow A s : length A < cnt + 4 -> <[length A := Some (place x s)]> (ids_of x A) = ids_of x (A ++ [s]).
Proof.
  intros Hl. unfold ids_of. rewrite insert_app_r_alt by (rewrite !length_fmap; lia). rewrite !length_fmap, Nat.sub_diag, !fmap_app, length_app, <- app_assoc. f_equal.
  replace (cnt + 4 - length A) with (S (cnt + 4 - (length A + length [s]))) by (cbn; lia). done.
Qed.

Lemma pass_ok A w s : worker_at x A w -> c_allocated w = true -> s < cnt -> s ∉ A ->
  pass_packet (place x s) w = Ok (mkYWorker (_diskPktsMul w) (_pkt2sli w) (_sli2pkt w) (_readCnt w) (Some (ids_of x (A ++ [s]))) (S (length A))
    (tmpQueue w) (tmpQueueRear w) (c_filled w) (c_allocated w) (c_pulled w) (c_sent w) (c_cleaned w)).
Proof.
  intros Hw Hal Hs Hno. destruct (not_cleaned A w s Hw Hs Hno) as [Hl Hc]. unfold pass_packet. rewrite (wa_ids _ _ _ Hw Hc), Hal. cbn [res_of_option].
  rewrite bind_ok, (wa_count _ _ _ Hw), (proj2 (Nat.ltb_lt _ _)).
  2: { unfold ids_of. rewrite length_app, !length_fmap, length_replicate. lia. }
  cbn [guard_or]. rewrite bind_ok, ids_grow by lia. done.
Qed.

(** The packets in [tmpQueue]. *)
Lemma queue_in r i : r <= cnt -> i ∈ queue_of x r -> i < r /\ x = S (place x i mod g) /\ place x i < cnt.
Proof.
  intros Hr [Hst Hi%elem_of_seq]%list_elem_of_filter. split; [lia|]. assert (Hc : i < cnt) by lia. split; [|by apply place_lt].
  rewrite <- (place_place i Hc), started_slice in Hst by (done || by apply place_lt). by apply Nat.eqb_eq in Hst.
Qed.

Lemma queue_fresh A w i : worker_at x A w -> tmpQueue w !! tmpQueueRear w = Some i -> place x i ∉ A.
Proof.
  intros Hw Hi Hin. pose proof (list_elem_of_lookup_2 _ _ _ Hi) as Hq. rewrite (wa_queue _ _ _ Hw) in Hq.
  destruct (queue_in _ i (wa_read _ _ _ Hw) Hq) as (Hr & Est & Hc).
  assert (Hs : place x i ∈ started_of x A) by by apply list_elem_of_filter. rewrite (wa_started _ _ _ Hw) in Hs.
  apply list_elem_of_fmap in Hs as (i' & E & (p & Hp & Hlt)%elem_of_take). pose proof (list_elem_of_lookup_2 _ _ _ Hp) as Hq'.
  rewrite (wa_queue _ _ _ Hw) in Hq'. destruct (queue_in _ i' (wa_read _ _ _ Hw) Hq') as (Hr' & _ & _). pose proof (wa_read _ _ _ Hw).
  apply slice_inj in E; [|done|lia..]. subst i'.
  assert (p = tmpQueueRear w); [|lia]. apply (NoDup_lookup (tmpQueue w) p (tmpQueueRear w) i); [|done|done]. rewrite (wa_queue _ _ _ Hw). apply NoDup_filter, NoDup_seq.
Qed.

(** The next packet of [tmpQueue] is passed to the sender, if it is not too far
    ahead. *)
Lemma pass_started_ok ahead A w : worker_at x A w ->
  if decide (tmpQueueRear w < length (tmpQueue w) /\ tmpQueueRear w <= length A / g + ahead) then
    (c_allocated w = true -> exists w' s, pass_started conf ahead w = Ok (Some w') /\ worker_at x (A ++ [s]) w' /\ x = S (s mod g) /\
      c_sent w' = c_sent w /\ counters w' = S (counters w)) /\
    (c_allocated w = false -> pass_started conf ahead w = Fault Undef)
  else pass_started conf ahead w = Ok None.
Proof.
  intros Hw. unfold pass_started. rewrite (proj2 (Nat.ltb_lt 1 (_ecK conf))) by (pose proof g_pos; lia). cbn [guard_or]. rewrite bind_ok, (wa_count _ _ _ Hw).
  destruct (Nat.leb_spec (tmpQueueRear w) (length A / g + ahead)) as [Ha|Ha], (Nat.ltb_spec (tmpQueueRear w) (length (tmpQueue w))) as [Hl|Hl];
    cbn [andb]; case_decide as Hd; try lia; try done.
  destruct (lookup_lt_is_Some_2 _ _ Hl) as [i Hi]. rewrite Hi. cbn [res_of_option]. rewrite bind_ok.
  pose proof (queue_fresh A w i Hw Hi) as Hno. pose proof (list_elem_of_lookup_2 _ _ _ Hi) as Hq. rewrite (wa_queue _ _ _ Hw) in Hq.
  destruct (queue_in _ i (wa_read _ _ _ Hw) Hq) as (Hr & Est & Hc). set (s := place x i) in *.
  assert (Ei : i = place x s) by (unfold s; rewrite place_place; [done|pose proof (wa_read _ _ _ Hw); lia]). destruct (not_cleaned A w s Hw Hc Hno) as [HlA Hcl].
  split; intros Hal.
  - rewrite Ei, (pass_ok A w s), bind_ok by done. eexists _, s. split; [done|]. split; [|split; [done|split; [done|unfold counters; cbn; lia]]]. split; cbn.
    + apply Hw.
    + rewrite length_app. cbn. lia.
    + rewrite length_app. pose proof (wa_sent _ _ _ Hw). lia.
    + apply Hw.
    + lia.
    + apply Hw.
    + apply Hw.
    + intros _. by rewrite Hal.
    + congruence.
    + apply Hw.
    + rewrite filter_app, (wa_started _ _ _ Hw), filter_cons_True, (take_S_r _ _ _ Hi), fmap_app by done. done.
    + rewrite filter_app, filter_cons_False, app_nil_r by tauto. apply Hw.
    + apply NoDup_app. split_and!; [apply Hw| |apply NoDup_singleton]. intros s' Hs' ->%list_elem_of_singleton. done.
    + intros s' [Hs'| ->%list_elem_of_singleton]%elem_of_app; [by apply (wa_in _ _ _ Hw)|]. rewrite <- Ei. done.
    + intros s' _ Hs' Hp. rewrite (wa_bufs _ _ _ Hw s' Hcl Hs' Hp). do 2 f_equal. destruct (decide (s' = s)) as [->|Hne].
      * rewrite decide_False, decide_True by (done || (apply elem_of_app; right; left)). rewrite Est. symmetry. apply acc_start.
      * apply decide_ext. rewrite elem_of_app, list_elem_of_singleton. tauto.
    + congruence.
  - unfold pass_packet. by rewrite (wa_ids _ _ _ Hw Hcl), Hal.
Qed.

(** A step that a helper makes on its own: it goes on, with at most a slice of its
    own passed, or it waits, or it fails because it is not set up. *)
Definition own_step (A : list nat) (w : yworker) (res : res yworker) (waits : Prop) : Prop :=
  (exists w' A', res = Ok w' /\ worker_at x A' w' /\ (A' = A \/ exists s, A' = A ++ [s] /\ x = S (s mod g)) /\
    c_sent w' = c_sent w /\ counters w < counters w') \/
  (res = Fault Blocked /\ waits) \/ (res = Fault Undef /\ ~ set_up w).

Context (n : mnode) (c : dr_cmd) (Hn : ns !! x = Some n) (Hc : mn_jobs n = [c]).

Lemma node_facts : job_id c = x /\ node_ecK n = S g /\ groupSize n = g /\ dr_lostBlkName c = lost /\ is_byte (dr_coefficient c) /\ blk_file conf (mn_file n) /\
  forall s, own x s = multiply (packet conf (mn_file n) s) (dr_coefficient c).
Proof.
  destruct (cnode_at x Hx) as (n' & c' & Hn' & _ & Hc' & H1 & H2 & H3 & H4 & H5 & H6). assert (n' = n) as -> by congruence. assert (c' = c) as -> by congruence.
  destruct k_g as [E _]. rewrite H2, E. unfold groupSize. rewrite H2, E. split_and!; (done || lia).
Qed.

Lemma fill_ok A w : worker_at x A w -> c_filled w = false -> exists w', fill_tables conf n w = Ok w' /\ worker_at x A w' /\
  c_sent w' = c_sent w /\ counters w < counters w'.
Proof.
  intros Hw Hf. destruct node_facts as (H1 & _ & H3 & _). unfold fill_tables. rewrite H3, (proj2 (Nat.ltb_lt _ _)) by done. cbn [guard_or].
  assert (Hcl : c_cleaned w = false) by (destruct (c_cleaned w) eqn:E; [|done]; apply (wa_cleaned _ _ _ Hw) in E; destruct E as (_ & _ & E & _); congruence).
  destruct (wa_tables _ _ _ Hw Hcl) as [T1 T2]. rewrite Hf in T1, T2. rewrite bind_ok, Hc, T1, T2. cbn [fmap list_fmap app]. rewrite H1. eexists. split; [done|].
  split; [|split; [done|unfold counters; cbn; rewrite Hf; lia]]. split; cbn; try apply Hw; (done || congruence).
Qed.

(** A packet read, before any is passed. *)
Definition with_packet (w : yworker) (sli : nat) : yworker :=
  let i := _readCnt w in
  mkYWorker (<[(0, i) := own x sli ++ le32 (Z.of_nat sli)]> (_diskPktsMul w)) (_pkt2sli w) (_sli2pkt w) (S i) (_toSendIds w) (_toSendCnt w)
    (if is_started x g cnt i then tmpQueue w ++ [i] else tmpQueue w) (tmpQueueRear w) (c_filled w) (c_allocated w) (c_pulled w) (c_sent w) (c_cleaned w).

Lemma with_packet_at A w : worker_at x A w -> c_filled w = true -> _readCnt w < cnt -> worker_at x A (with_packet w (place x (_readCnt w))).
Proof.
  intros Hw Hf Hlt. set (i := _readCnt w) in *. unfold with_packet. fold i. split; fields; [lia|try apply Hw..].
  - pose proof (wa_rear _ _ _ Hw). case_match; [rewrite length_app|]; lia.
  - congruence.
  - rewrite (wa_queue _ _ _ Hw). fold i. rewrite seq_S, filter_app, filter_cons. cbn [Nat.add]. case_decide as E; [by rewrite E|].
    destruct (is_started x g cnt i); [done|]. by rewrite app_nil_r.
  - rewrite (wa_started _ _ _ Hw). f_equal. case_match; [|done]. rewrite take_app_le; [done|apply Hw].
  - intros s Hs. destruct (wa_in _ _ _ Hw s Hs). subst i. lia.
  - intros s Hcl Hs Hp. fold i in Hp. destruct (decide (place x s = i)) as [E|Hne].
    + rewrite E, lookup_insert_eq. rewrite <- E, place_place by done. rewrite decide_False; [done|]. intros HA. destruct (wa_in _ _ _ Hw s HA). subst i. lia.
    + rewrite lookup_insert_ne by congruence. apply Hw; [done|done|]. fold i. lia.
  - intros Hcl. destruct (wa_cleaned _ _ _ Hw Hcl) as (_ & E & _). fold i in E. lia.
Qed.

Lemma read_ok A w : worker_at x A w -> c_filled w = true -> _readCnt w < cnt -> own_step A w (read_slice conf n w) False.
Proof.
  intros Hw Hf Hlt. destruct node_facts as (H1 & _ & H3 & _ & Hco & [Hfl Hby] & Hown). pose proof (with_packet_at A w Hw Hf Hlt) as Hw1.
  unfold read_slice. rewrite Hc. cbn [length]. rewrite Nat.div_1_r, Nat.mod_1_r. cbn [lookup list_lookup res_of_option]. rewrite bind_ok.
  assert (Hcl : c_cleaned w = false) by (destruct (c_cleaned w) eqn:E; [|done]; apply (wa_cleaned _ _ _ Hw) in E; destruct E as (_ & E & _); lia).
  destruct (wa_tables _ _ _ Hw Hcl) as [T1 T2]. rewrite Hf in T1, T2. assert (T3 : _pkt2sli w !! 0 = Some (order x)) by by rewrite T1. rewrite T3. cbn [res_of_option]. rewrite bind_ok, slice_order_at by done.
  cbn [res_of_option]. rewrite bind_ok. set (sli := place x (_readCnt w)) in *. assert (Hsl : sli < cnt) by by apply place_lt.
  pose proof (po_base _ Hpo) as Hbase. rewrite (cr_skip Hcr) in Hfl, Hbase.
  rewrite bool_decide_true by (unfold is_s32; nia). cbn [guard_or].
  rewrite bind_ok, read_packet by (first [apply length_replicate|nia]). rewrite bind_ok.
  destruct (pktOutput_ok conf (_readCnt w) Hpo Hlt) as [b ->]. rewrite bind_ok, H1, H3.
  assert (Ep : multiply (take size (drop (sli * size) (mn_file n))) (dr_coefficient c) = own x sli).
  { rewrite Hown. unfold packet. by rewrite (cr_skip Hcr). }
  rewrite Ep. rewrite (proj2 (orb_true_iff _ _)).
  2: { right. apply Nat.ltb_lt. pose proof (wa_queue _ _ _ Hw) as E. apply (f_equal length) in E. pose proof (length_filter (fun i => is_started x g cnt i = true) (seq 0 (_readCnt w))) as E2.
       rewrite length_seq in E2. lia. }
  cbn [guard_or]. rewrite bind_ok. change (mkYWorker _ _ _ _ _ _ _ _ _ _ _ _ _) with (with_packet w sli).
  assert (Hcnt : counters (with_packet w sli) = S (counters w)) by (unfold counters; cbn; lia).
  destruct (is_started x g cnt (_readCnt w)).
  - pose proof (pass_started_ok 3 A _ Hw1) as Hps. case_decide.
    + destruct Hps as [Hy Hno]. destruct (c_allocated w) eqn:Eal.
      * left. destruct (Hy Eal) as (w' & s & -> & Hw' & Hs & Hse & Hcn). rewrite bind_ok. exists w', (A ++ [s]). split_and!; [done|done|right; by exists s|done|lia].
      * right. right. rewrite (Hno Eal). split; [done|]. intros [_ E]. congruence.
    + left. rewrite Hps, bind_ok. exists (with_packet w sli), A. split_and!; [done|done|by left|done|lia].
  - left. exists (with_packet w sli), A. split_and!; [done|done|by left|done|lia].
Qed.

(** [readerMul]. *)
Lemma reader_ok A w : worker_at x A w ->
  own_step A w (readerMul conf n w) (c_filled w = true /\ _readCnt w = cnt /\ (tmpQueueRear w = length (tmpQueue w) \/ length A / g + 10 < tmpQueueRear w)).
Proof.
  intros Hw. unfold readerMul. destruct (c_filled w) eqn:Hf; cbn [negb].
  2: { left. destruct (fill_ok A w Hw Hf) as (w' & E & Hw' & Hs & Hcn). exists w', A. split_and!; [done|done|by left|done|done]. }
  rewrite Hc. cbn [length]. rewrite Nat.mul_1_l. pose proof (wa_read _ _ _ Hw). destruct (Nat.ltb_spec (_readCnt w) cnt) as [Hlt|Hge].
  { destruct (read_ok A w Hw Hf Hlt) as [H1|[[_ []]|H1]]; [by left|by right; right]. }
  pose proof (wa_rear _ _ _ Hw). destruct (Nat.ltb_spec (tmpQueueRear w) (length (tmpQueue w))) as [Hl|Hl].
  2: { right. left. split; [done|]. split_and!; [done|lia|left; lia]. }
  cbn [guard_or]. rewrite bind_ok. pose proof (pass_started_ok 10 A w Hw) as Hps. case_decide as Hd.
  - destruct Hps as [Hy Hno]. destruct (c_allocated w) eqn:Eal.
    + left. destruct (Hy eq_refl) as (w' & s & -> & Hw' & Hs & Hse & Hcn). rewrite bind_ok. exists w', (A ++ [s]). split_and!; [done|done|right; by exists s|done|lia].
    + right. right. rewrite (Hno eq_refl). split; [done|]. intros [_ E]. congruence.
  - right. left. rewrite Hps, bind_ok. split; [done|]. split_and!; [done|lia|right; lia].
Qed.

(** A step of [pullerMul] with [q] waiting at the helper before, whose slices
    have not come to [x] yet. *)
Abbreviation prev := (ns !!! before g x).
Context (Hprev : mn_prevs n = [Some (mn_ip prev)]).

Lemma prev_lt : before g x < k.
Proof. destruct k_g. pose proof (before_le g g_pos x x_le). lia. Qed.

Definition pull_step (A : list nat) (w : yworker) (r : redis) (q : list (list Z)) (res : res (yworker * redis)) : Prop :=
  (exists w', res = Ok (w', r) /\ worker_at x A w' /\ c_sent w' = c_sent w /\ counters w < counters w') \/
  (exists s vs w' r', q = msg (before g x) s :: vs /\ res = Ok (w', r') /\ worker_at x (A ++ [s]) w' /\ x <> S (s mod g) /\
    c_sent w' = c_sent w /\ counters w < counters w' /\
    forall ip key, waiting_in r' ip key = if decide ((mn_ip prev, tmpKey lost) = (ip, key)) then vs else waiting_in r ip key) \/
  (res = Fault Blocked /\ c_allocated w = true /\
    (c_pulled w = cnt \/ c_pulled w < cnt /\ is_pulled x g cnt (c_pulled w) = true /\ (q = [] \/ _readCnt w < cnt))) \/
  (res = Fault Undef /\ ~ set_up w).

Lemma allocated_at A w : worker_at x A w -> c_allocated w = false ->
  worker_at x A (mkYWorker (_diskPktsMul w) (_pkt2sli w) (_sli2pkt w) (_readCnt w) (Some (replicate (1 * cnt + 4) None)) (_toSendCnt w)
    (tmpQueue w) (tmpQueueRear w) (c_filled w) true (c_pulled w) (c_sent w) (c_cleaned w)) .
Proof.
  intros Hw Hal. pose proof (wa_allocated _ _ _ Hw Hal) as HA. split; fields; try apply Hw.
  - intros _. subst A. unfold ids_of. cbn [fmap list_fmap app length]. by rewrite Nat.mul_1_l, Nat.sub_0_r.
  - done.
  - intros E. apply (wa_cleaned _ _ _ Hw) in E. destruct E as (_ & _ & _ & E). congruence.
Qed.

Lemma skipped_at A w : worker_at x A w -> c_pulled w < cnt -> is_pulled x g cnt (c_pulled w) = false ->
  worker_at x A (mkYWorker (_diskPktsMul w) (_pkt2sli w) (_sli2pkt w) (_readCnt w) (_toSendIds w) (_toSendCnt w)
    (tmpQueue w) (tmpQueueRear w) (c_filled w) (c_allocated w) (S (c_pulled w)) (c_sent w) (c_cleaned w)).
Proof.
  intros Hw Hlt Hno. split; fields; [apply Hw|apply Hw|apply Hw|lia|try apply Hw..].
  - rewrite seq_S, filter_app, filter_cons_False, app_nil_r by (cbn [Nat.add]; congruence). apply Hw.
Qed.

(** The slice [s] pulled, added and passed on. *)
Lemma pulled_at A w s : worker_at x A w -> set_up w -> s < cnt -> s ∉ A -> x <> S (s mod g) -> place x s < _readCnt w ->
  c_pulled w < cnt -> is_pulled x g cnt (c_pulled w) = true ->
  worker_at x (A ++ [s]) (mkYWorker (<[(0, place x s) := msg x s]> (_diskPktsMul w)) (_pkt2sli w) (_sli2pkt w) (_readCnt w) (Some (ids_of x (A ++ [s]))) (S (length A))
    (tmpQueue w) (tmpQueueRear w) (c_filled w) (c_allocated w) (S (c_pulled w)) (c_sent w) (c_cleaned w)).
Proof.
  intros Hw [_ Hal] Hs Hno Hne Hp Hlt Hpu. destruct (not_cleaned A w s Hw Hs Hno) as [Hl Hcl]. split; fields; [apply Hw| | |lia|try apply Hw..].
  - rewrite length_app. cbn. lia.
  - rewrite length_app. pose proof (wa_sent _ _ _ Hw). lia.
  - intros _. by rewrite Hal.
  - congruence.
  - rewrite filter_app, (wa_started _ _ _ Hw), filter_cons_False, app_nil_r by done. done.
  - rewrite filter_app, filter_cons_True, length_app, (wa_pulled _ _ _ Hw), seq_S, filter_app, length_app, filter_cons_True by done. done.
  - apply NoDup_app. split_and!; [apply Hw| |apply NoDup_singleton]. intros s' Hs' ->%list_elem_of_singleton. done.
  - intros s' [Hs'| ->%list_elem_of_singleton]%elem_of_app; [by apply (wa_in _ _ _ Hw)|done].
  - intros s' _ Hs' Hp'. destruct (decide (s' = s)) as [->|Hne'].
    + rewrite lookup_insert_eq, decide_True by (apply elem_of_app; right; left). done.
    + rewrite lookup_insert_ne.
      2: { intros [= E]. apply slice_inj in E; done. }
      rewrite (wa_bufs _ _ _ Hw s' Hcl Hs' Hp'). do 2 f_equal. apply decide_ext. rewrite elem_of_app, list_elem_of_singleton. tauto.
Qed.

Lemma puller_ok A w r : worker_at x A w ->
  (forall v vs, waiting_in r (mn_ip prev) (tmpKey lost) = v :: vs -> exists s, v = msg (before g x) s /\ s < cnt /\ x <> S (s mod g) /\ s ∉ A) ->
  pull_step A w r (waiting_in r (mn_ip prev) (tmpKey lost)) (pullerMul conf n w r).
Proof.
  intros Hw Hq. destruct node_facts as (H1 & _ & H3 & H4 & _ & _ & _). unfold pullerMul. rewrite Hc. cbn [length].
  destruct (c_allocated w) eqn:Hal; cbn [negb].
  2: { left. eexists. split; [done|]. split; [by apply allocated_at|]. split; [done|unfold counters; cbn; rewrite Hal; lia]. }
  rewrite Nat.div_1_r, Nat.mod_1_r. pose proof (wa_pulled_le _ _ _ Hw). destruct (Nat.ltb_spec (c_pulled w) cnt) as [Hlt|Hge]; cbn [guard_or].
  2: { right. right. left. split; [done|]. split; [done|]. left. lia. }
  rewrite bind_ok, H3, (proj2 (Nat.ltb_lt 0 g)) by done. cbn [guard_or lookup list_lookup res_of_option]. rewrite !bind_ok, H1.
  destruct (is_pulled x g cnt (c_pulled w)) eqn:Hpu; cbn [negb].
  2: { left. eexists. split; [done|]. split; [pose proof (skipped_at A w Hw Hlt Hpu) as Hsk; by rewrite Hal in Hsk|]. split; [done|unfold counters; cbn; rewrite Hal; lia]. }
  rewrite Hprev. cbn [lookup list_lookup mjoin option_join res_of_option]. rewrite bind_ok, H4.
  destruct (waiting_in r (mn_ip prev) (tmpKey lost)) as [|v vs] eqn:Ew.
  { right. right. left. unfold BLPOP. rewrite Ew. split; [done|]. split; [done|]. right. split_and!; [done|done|by left]. }
  destruct (Hq v vs eq_refl) as (s & -> & Hs & Hne & Hno). destruct (pop_waiting _ _ _ _ _ Ew) as (r' & -> & Hr'). cbn [res_of_option]. rewrite bind_ok.
  pose proof prev_lt as Hpl. rewrite msg_number, bind_ok by done. destruct (not_cleaned A w s Hw Hs Hno) as [HlA Hcl].
  destruct (wa_tables _ _ _ Hw Hcl) as [_ T2]. destruct (c_filled w) eqn:Hf.
  2: { right. right. right. rewrite T2. split; [done|]. intros [E _]. congruence. }
  assert (T3 : _sli2pkt w !! 0 = Some (packet_of (order x))) by by rewrite T2. rewrite T3. cbn [res_of_option]. rewrite bind_ok.
  pose proof (packet_of_slice g cnt g_pos x s x_le Hs) as Hpo'. rewrite Hpo'. unfold default, id. rewrite Nat.mul_1_r, Nat.add_0_r.
  destruct (Nat.ltb_spec (place x s) (_readCnt w)) as [Hrd|Hrd]; cbn [guard_or].
  2: { right. right. left. split; [done|]. split; [done|]. right. split_and!; [done|done|]. right. pose proof (place_lt s Hs). lia. }
  rewrite bind_ok, (wa_bufs _ _ _ Hw s Hcl Hs Hrd), decide_False by done. cbn [res_of_option]. rewrite bind_ok. unfold msg at 2.
  rewrite xor_prefix by (first [by apply length_own|by apply length_acc|apply Hpo]). rewrite bind_ok, <- acc_next by done.
  destruct (pktOutput_ok conf (place x s) Hpo (place_lt s Hs)) as [b ->]. rewrite bind_ok.
  match goal with |- context [pass_packet _ ?w2] => assert (E2 : pass_packet (place x s) w2 = Ok (mkYWorker (_diskPktsMul w2) (_pkt2sli w) (_sli2pkt w) (_readCnt w) (Some (ids_of x (A ++ [s]))) (S (length A)) (tmpQueue w) (tmpQueueRear w) (c_filled w2) (c_allocated w2) (c_pulled w) (c_sent w) (c_cleaned w))) end.
  { pose proof (pass_ok A w s Hw Hal Hs Hno) as E. unfold pass_packet in *. cbn [_toSendIds _toSendCnt]. destruct (_toSendIds w) as [ids|]; [|done]. cbn [res_of_option] in *. rewrite bind_ok in *.
    destruct (_toSendCnt w <? length ids); [|done]. cbn [guard_or] in *. rewrite bind_ok in *. injection E as E' E''. rewrite E', E''. fields. do 2 f_equal.
    rewrite insert_id; [by apply list_insert_id|done]. }
  rewrite E2, bind_ok. right. left. exists s, vs. eexists _, r'. split; [done|]. split; [done|].
  split; [pose proof (pulled_at A w s Hw (conj Hf Hal) Hs Hno Hne Hrd Hlt Hpu) as Hpa; by rewrite Hf, Hal in Hpa|]. split; [done|].
  split; [done|]. split; [unfold counters; cbn; rewrite Hal, Hf; lia|exact Hr'].
Qed.

(** A step of [senderMul]. *)
Lemma sender_ok A w r : worker_at x A w ->
  (exists s w', A !! c_sent w = Some s /\
    senderMul conf n w r = Ok (w', RPUSH (mn_ip n) (if decide (x = s mod g) then lost else tmpKey lost) (msg x s) r) /\
    worker_at x A w' /\ c_sent w' = S (c_sent w) /\ counters w < counters w') \/
  (exists w', senderMul conf n w r = Ok (w', r) /\ worker_at x A w' /\ c_sent w' = c_sent w /\ counters w < counters w') \/
  (senderMul conf n w r = Fault Blocked /\ c_sent w = length A).
Proof.
  intros Hw. destruct node_facts as (H1 & H2 & H3 & H4 & _ & _ & _). unfold senderMul.
  set (w1 := mkYWorker _ _ _ _ _ _ _ _ _ _ _ (S (c_sent w)) _). rewrite Hc. cbn [length]. rewrite H3, (proj2 (Nat.ltb_lt 0 g)) by done.
  cbn [guard_or]. rewrite bind_ok, Nat.div_1_r, Nat.mod_1_r, Nat.mul_1_r, Nat.add_0_r. pose proof (wa_sent _ _ _ Hw) as Hse. pose proof (length_passed A w Hw) as HlA.
  destruct (Nat.ltb_spec (c_sent w) cnt) as [Hlt|Hge].
  - rewrite (wa_count _ _ _ Hw). destruct (Nat.ltb_spec (c_sent w) (length A)) as [Hl|Hl]; cbn [guard_or].
    2: { right. right. split; [done|lia]. }
    left. destruct (lookup_lt_is_Some_2 A (c_sent w) Hl) as [s Hs]. assert (Hcl : c_cleaned w = false).
    { destruct (c_cleaned w) eqn:E; [|done]. apply (wa_cleaned _ _ _ Hw) in E. lia. }
    pose proof (list_elem_of_lookup_2 _ _ _ Hs) as Hin. destruct (wa_in _ _ _ Hw s Hin) as [Hsc Hp].
    assert (Hal : c_allocated w = true).
    { destruct (c_allocated w) eqn:E; [done|]. rewrite (wa_allocated _ _ _ Hw E) in Hin. by apply not_elem_of_nil in Hin. }
    rewrite bind_ok, (wa_ids _ _ _ Hw Hcl), Hal. cbn [res_of_option]. rewrite bind_ok.
    assert (Ei : ids_of x A !! c_sent w = Some (Some (place x s))).
    { unfold ids_of. rewrite lookup_app_l by (rewrite !length_fmap; lia). by rewrite !list_lookup_fmap, Hs. }
    rewrite Ei. cbn [mjoin option_join res_of_option lookup list_lookup]. rewrite !bind_ok, (wa_bufs _ _ _ Hw s Hcl Hsc Hp), decide_True by done.
    cbn [res_of_option]. rewrite bind_ok. fold (msg x s). rewrite <- (length_msg x s) by done. rewrite slice_full. cbn [res_of_option]. rewrite bind_ok, H1, H2, last_slice, H4 by done.
    exists s, w1. split; [done|]. split; [|split; [|split; [done|unfold counters, w1; cbn; lia]]].
    + do 3 f_equal. destruct (Nat.eqb_spec x (s mod g)); case_decide; done.
    + unfold w1. split; fields; try apply Hw; [lia|congruence].
  - right. destruct (c_cleaned w) eqn:Hcl; cbn [negb guard_or]; [right; split; [done|lia]|]. left.
    assert (Hall : forall s, s < cnt -> s ∈ A).
    { apply nodup_full; [apply Hw| |lia]. intros s Hs. by apply (wa_in _ _ _ Hw). }
    assert (Hrd : _readCnt w = cnt).
    { pose proof (wa_read _ _ _ Hw). destruct (decide (_readCnt w = cnt)) as [|Hne]; [done|]. assert (Hr : _readCnt w < cnt) by lia.
      destruct (wa_in _ _ _ Hw (place x (_readCnt w))) as [_ Hp]; [by apply Hall, place_lt|]. rewrite place_place in Hp by done. lia. }
    assert (Hf : c_filled w = true /\ c_allocated w = true \/ cnt = 0).
    { destruct (decide (cnt = 0)); [by right|]. left. split.
      - destruct (c_filled w) eqn:E; [done|]. pose proof (wa_filled _ _ _ Hw E). lia.
      - destruct (c_allocated w) eqn:E; [done|]. pose proof (Hall 0 ltac:(lia)) as H0. rewrite (wa_allocated _ _ _ Hw E) in H0. by apply not_elem_of_nil in H0. }
    rewrite bind_ok, Nat.mul_1_l, (proj2 (Nat.leb_le _ _)) by lia. cbn [guard_or]. rewrite bind_ok. eexists. split; [done|].
    split; [|split; [done|unfold counters; cbn; rewrite Hcl; lia]]. split; fields; try apply Hw; try done.
    intros _. destruct (cr_cnt Hcr) as [Hpos _]. destruct Hf as [[? ?]|?]; [|lia]. split_and!; (done || lia).
Qed.
End helper.

(** ** The client *)

Abbreviation ip_of y := (mn_ip (ns !!! y)).
Abbreviation fetch := [(fun y => Some (ip_of y)) <$> seq 0 g].
(** The slices of [A] that go to the client from [x], and those that go on. *)
Abbreviation last_of x A := (filter (fun s => x = s mod g) A).
Abbreviation passed_of x A := (filter (fun s => x <> s mod g) A).

(** The slices the receiver [i] has taken. *)
Definition taken (c : cclient) (i : nat) : nat := cc_received c !!! i + match mjoin (cc_pending c !! i) with Some _ => 1 | None => 0 end.

(** The client, when the helper [i] has sent it the slices [F i]. *)
Record client_at (F : nat -> list nat) (r : redis) (c : cclient) : Prop := {
  ca_len : length (cc_received c) = g /\ length (cc_pending c) = g;
  ca_sent i : i < g -> NoDup (F i) /\ forall s, s ∈ F i -> s < cnt /\ s mod g = i;
  ca_got i : i < g -> taken c i <= length (F i) /\ waiting_in r (ip_of i) lost = msg i <$> drop (taken c i) (F i);
  ca_contents s p : cc_contents c !! (s, 0) = Some p <-> s ∈ take (taken c (s mod g)) (F (s mod g)) /\ p = total s;
  ca_pending i s b : mjoin (cc_pending c !! i) = Some (s, b) -> s < cnt /\ is_Some (cc_contents c !! (s, 0)) /\
    forall base s', b = Some base -> s' < base -> is_Some (cc_contents c !! (s', 0));
  ca_complete : _completePacketIndex c <= cnt /\ forall s, s < _completePacketIndex c -> is_Some (cc_contents c !! (s, 0));
  ca_joined : cc_joined c = true -> _completePacketIndex c = cnt /\ forall i q, cc_received c !! i = Some q -> q = receiver_cnt conf i;
  ca_done : cc_processed c <= cnt /\ cc_file c = concat (total <$> seq 0 (cc_processed c))
}.

Lemma ysent_bound F r c i : client_at F r c -> i < g -> length (F i) <= receiver_cnt conf i.
Proof.
  intros Hc Hi. destruct (ca_sent _ _ _ Hc i Hi) as [Hnd Hin]. change (receiver_cnt conf i) with (share g i cnt). rewrite <- numbered_count by done.
  apply submseteq_length, NoDup_submseteq; [done|]. intros s Hs. destruct (Hin s Hs). apply list_elem_of_filter. split; [done|]. apply elem_of_seq. lia.
Qed.

Lemma ring_ip_inj y z : y < k -> z < k -> ip_of y = ip_of z -> y = z.
Proof.
  intros Hy Hz E. apply (NoDup_lookup (n_ip <$> pns) y z (ip_of y)); [apply (pl_nodup _ _ _ (cr_pipe Hcr))|..];
    rewrite !list_lookup_fmap, list_lookup_lookup_total_lt by done; [done|]. cbn. by rewrite E.
Qed.

Lemma tmp_lost : tmpKey lost <> lost.
Proof. intros E. apply (f_equal length) in E. unfold tmpKey in E. rewrite length_app in E. cbn in E. lia. Qed.

(** More slices on their way to it. *)
Lemma client_more F F' r r' c : client_at F r c ->
  (forall i, i < g -> F' i = F i /\ waiting_in r' (ip_of i) lost = waiting_in r (ip_of i) lost \/
    exists s, s < cnt /\ s mod g = i /\ s ∉ F i /\ F' i = F i ++ [s] /\ waiting_in r' (ip_of i) lost = waiting_in r (ip_of i) lost ++ [msg i s]) ->
  client_at F' r' c.
Proof.
  intros Hc Hm. assert (Htake : forall i, i < g -> take (taken c i) (F' i) = take (taken c i) (F i)).
  { intros i Hi. destruct (ca_got _ _ _ Hc i Hi) as [Hl _]. destruct (Hm i Hi) as [[-> _]|(s & _ & _ & _ & -> & _)]; [done|]. by rewrite take_app_le. }
  split; try apply Hc.
  - intros i Hi. destruct (ca_sent _ _ _ Hc i Hi) as [Hnd Hin]. destruct (Hm i Hi) as [[-> _]|(s & Hs & Hsi & Hno & -> & _)]; [done|]. split.
    + apply NoDup_app. split_and!; [done| |apply NoDup_singleton]. intros s' Hs' ->%list_elem_of_singleton. done.
    + intros s' [Hs'| ->%list_elem_of_singleton]%elem_of_app; [by apply Hin|done].
  - intros i Hi. destruct (ca_got _ _ _ Hc i Hi) as [Hl Hw].
    destruct (Hm i Hi) as [[-> ->]|(s & _ & _ & _ & -> & ->)]; [done|]. rewrite length_app, drop_app_le, fmap_app, Hw by done. split; [lia|done].
  - intros s p. rewrite (ca_contents _ _ _ Hc s p). by rewrite (Htake (s mod g)) by by apply number_lt.
Qed.

(** How far a receiver is, in steps. *)
Definition receiver_steps (c : cclient) (i : nat) : nat :=
  3 * cc_received c !!! i + match mjoin (cc_pending c !! i) with None => 0 | Some (_, None) => 1 | Some (_, Some _) => 2 end.

(** A step of [cyclReceiver] of [i]: that of the others stays. *)
Definition receives (i : nat) (r r' : redis) (c c' : cclient) : Prop :=
  length (cc_received c') = length (cc_received c) /\ receiver_steps c' i = S (receiver_steps c i) /\
  (forall y, y <> i -> receiver_steps c' y = receiver_steps c y) /\
  cc_joined c' = cc_joined c /\ cc_processed c' = cc_processed c /\
  forall y, waiting_in r' (ip_of y) (tmpKey lost) = waiting_in r (ip_of y) (tmpKey lost).

(** The packet is stored. *)
Lemma store_ok F r c i s : client_at F r c -> i < g -> mjoin (cc_pending c !! i) = None -> F i !! (cc_received c !!! i) = Some s ->
  exists c' r', store_packet conf fetch [lost] i c r = Ok (c', r') /\ client_at F r' c' /\ receives i r r' c c'.
Proof.
  intros Hc Hi Hpe Hs. destruct k_g as [Hk Hg]. destruct (ca_len _ _ _ Hc) as [Hlr Hlp]. set (q := cc_received c !!! i) in *.
  assert (Ht : taken c i = q) by (unfold taken; rewrite Hpe; fold q; lia).
  destruct (ca_got _ _ _ Hc i Hi) as [Hl Hw]. rewrite Ht in Hl, Hw. destruct (ca_sent _ _ _ Hc i Hi) as [Hnd Hin].
  destruct (Hin s (list_elem_of_lookup_2 _ _ _ Hs)) as [Hsc Hsi]. rewrite (drop_S _ s) in Hw by done. rewrite fmap_cons in Hw.
  unfold store_packet. cbn [length]. rewrite Nat.div_1_r, Nat.mod_1_r. cbn [lookup list_lookup res_of_option].
  rewrite bind_ok, list_lookup_fmap, lookup_seq_lt by done. cbn [fmap option_fmap option_map mjoin option_join res_of_option Nat.add].
  rewrite !bind_ok. destruct (pop_waiting _ _ _ _ _ Hw) as (r' & -> & Hr'). cbn [res_of_option].
  rewrite bind_ok, msg_number, bind_ok by lia. rewrite (proj2 (Z.leb_le _ _)), (proj2 (Z.ltb_lt _ _)) by lia. cbn [andb guard_or]. rewrite bind_ok, Nat2Z.id.
  assert (Hsl : slice (msg i s) 0 size = Some (total s)).
  { apply slice_Some. rewrite length_msg by lia. split; [lia|]. unfold msg, total. rewrite Hsi, drop_0, take_app_length' by (rewrite length_acc; lia). done. }
  rewrite Hsl. cbn [res_of_option]. rewrite bind_ok, Nat.mul_1_r, Nat.add_0_r. eexists _, r'. split; [done|].
  set (c' := mkCClient _ _ _ _ _ _ _).
  assert (Hpi : forall y, mjoin (cc_pending c' !! y) = if decide (y = i) then Some (s, None) else mjoin (cc_pending c !! y)).
  { intros y. unfold c'. cbn [cc_pending]. case_decide as E; [subst y; by rewrite list_lookup_insert_eq by lia|by rewrite list_lookup_insert_ne]. }
  assert (Ht' : forall y, taken c' y = if decide (y = i) then S q else taken c y).
  { intros y. unfold taken. rewrite Hpi. case_decide as E; [subst y; cbn; fold q; lia|done]. }
  assert (Htk : take (S q) (F i) = take q (F i) ++ [s]) by by apply take_S_r.
  assert (Hmore : forall s', is_Some (cc_contents c !! (s', 0)) -> is_Some (cc_contents c' !! (s', 0))).
  { intros s' [p Hp]. unfold c'. cbn. destruct (decide (s' = s)) as [->|]; [rewrite lookup_insert_eq; by eexists|rewrite lookup_insert_ne by congruence; by eexists]. }
  split.
  - split; try apply Hc; cbn [cc_received cc_pending].
    + cbn. by rewrite length_insert.
    + intros y Hy. rewrite Hr', Ht'. case_decide as E; [subst y; rewrite decide_True by done; split; [apply lookup_lt_Some in Hs; lia|done]|].
      rewrite decide_False; [by apply Hc|]. intros [= E']. apply ring_ip_inj in E'; [congruence|lia|lia].
    + intros s' p. rewrite Ht'. unfold c'. cbn [cc_contents]. destruct (decide (s' = s)) as [->|Hne].
      * rewrite lookup_insert_eq, Hsi, decide_True, Htk by done. split; [intros [= <-]; split; [apply elem_of_app; right; left|done]|by intros [_ ->]].
      * rewrite lookup_insert_ne, (ca_contents _ _ _ Hc) by congruence. case_decide as E; [|done]. rewrite E, Ht, Htk, elem_of_app, list_elem_of_singleton. tauto.
    + intros y s' b. rewrite Hpi. case_decide as E; [intros [= <- <-]; split_and!; [done|unfold c'; cbn; rewrite lookup_insert_eq; by eexists|done]|].
      intros Hy. destruct (ca_pending _ _ _ Hc y s' b Hy) as (H1 & H2 & H3). split_and!; [done|by apply Hmore|]. intros base t Hb Hlt. by eapply Hmore, H3.
    + destruct (ca_complete _ _ _ Hc) as [H1 H2]. split; [done|]. intros t Hlt. by apply Hmore, H2.
  - split_and!; try done.
    + unfold receiver_steps. rewrite Hpi, Hpe, decide_True by done. cbn. lia.
    + intros y Hy. unfold receiver_steps. by rewrite Hpi, decide_False by done.
    + intros y. rewrite Hr', decide_False; [done|]. intros [= _ E]. by apply tmp_lost.
Qed.

(** The index is read. *)
Lemma base_ok F r c i s : client_at F r c -> i < g -> mjoin (cc_pending c !! i) = Some (s, None) ->
  let c' := mkCClient (cc_contents c) (_completePacketIndex c) (cc_received c) (<[i := Some (s, Some (_completePacketIndex c))]> (cc_pending c))
    (cc_joined c) (cc_processed c) (cc_file c) in
  client_at F r c' /\ receives i r r c c'.
Proof.
  intros Hc Hi Hpe c'. destruct (ca_len _ _ _ Hc) as [Hlr Hlp].
  assert (Hpi : forall y, mjoin (cc_pending c' !! y) = if decide (y = i) then Some (s, Some (_completePacketIndex c)) else mjoin (cc_pending c !! y)).
  { intros y. unfold c'. cbn [cc_pending]. case_decide as E; [subst y; by rewrite list_lookup_insert_eq by lia|by rewrite list_lookup_insert_ne]. }
  assert (Ht : forall y, taken c' y = taken c y).
  { intros y. unfold taken. rewrite Hpi. case_decide as E; [subst y; by rewrite Hpe|done]. }
  split.
  - split; try apply Hc.
    + cbn. by rewrite length_insert.
    + intros y Hy. rewrite Ht. by apply Hc.
    + intros t p. rewrite Ht. apply Hc.
    + intros y t b. rewrite Hpi. case_decide as E; [|by apply Hc]. intros [= <- <-]. destruct (ca_pending _ _ _ Hc i s None Hpe) as (H1 & H2 & _).
      split_and!; [done..|]. intros base t [= <-]. apply Hc.
  - split_and!; try done.
    + unfold receiver_steps. rewrite Hpi, Hpe, decide_True by done. cbn. lia.
    + intros y Hy. unfold receiver_steps. by rewrite Hpi, decide_False by done.
Qed.

(** The critical section. *)
Lemma index_ok F r c i s base : client_at F r c -> i < g -> mjoin (cc_pending c !! i) = Some (s, Some base) -> cc_joined c = false ->
  let c' := mkCClient (cc_contents c) (if all_completed 1 base s c then s + 1 else _completePacketIndex c)
    (<[i := S (cc_received c !!! i)]> (cc_received c)) (<[i := None]> (cc_pending c)) (cc_joined c) (cc_processed c) (cc_file c) in
  client_at F r c' /\ receives i r r c c'.
Proof.
  intros Hc Hi Hpe Hj c'. destruct (ca_len _ _ _ Hc) as [Hlr Hlp].
  assert (Hpi : forall y, mjoin (cc_pending c' !! y) = if decide (y = i) then None else mjoin (cc_pending c !! y)).
  { intros y. unfold c'. cbn [cc_pending]. case_decide as E; [subst y; by rewrite list_lookup_insert_eq by lia|by rewrite list_lookup_insert_ne]. }
  assert (Hri : forall y, cc_received c' !!! y = if decide (y = i) then S (cc_received c !!! i) else cc_received c !!! y).
  { intros y. unfold c'. cbn [cc_received]. case_decide as E; [subst y; by rewrite list_lookup_total_insert_eq by lia|by rewrite list_lookup_total_insert_ne]. }
  assert (Ht : forall y, taken c' y = taken c y).
  { intros y. unfold taken. rewrite Hpi, Hri. case_decide as E; [subst y; rewrite Hpe; lia|done]. }
  destruct (ca_pending _ _ _ Hc i s _ Hpe) as (H1 & H2 & H3). split.
  - split; try apply Hc.
    + cbn. by rewrite !length_insert.
    + intros y Hy. rewrite Ht. by apply Hc.
    + intros t p. rewrite Ht. apply Hc.
    + intros y t b. rewrite Hpi. case_decide as E; [done|by apply Hc].
    + unfold c'. cbn [_completePacketIndex cc_contents]. destruct (all_completed 1 base s c) eqn:Hfl; [|apply Hc]. split; [lia|]. intros t Hlt.
      destruct (decide (t < base)) as [|Hb]; [by eapply H3|]. destruct (decide (t = s)) as [->|]; [done|].
      unfold all_completed in Hfl. apply forallb_forall with (x := t) in Hfl; [|apply in_seq; lia]. rewrite Nat.div_1_r, Nat.mod_1_r in Hfl. by apply bool_decide_eq_true in Hfl.
    + unfold c'. cbn. congruence.
  - split_and!; try done.
    + unfold c'. cbn. by rewrite length_insert.
    + unfold receiver_steps. rewrite Hpi, Hri, Hpe, !decide_True by done. lia.
    + intros y Hy. unfold receiver_steps. by rewrite Hpi, Hri, !decide_False by done.
Qed.

(** An iteration of [cyclReceiver], in its steps, takes the next slice of its
    helper. *)
Lemma receive_ok F r c i : client_at F r c -> i < g ->
  (exists c' r', cyclReceiver conf fetch [lost] i c r = Ok (c', r') /\ client_at F r' c' /\ receives i r r' c c') \/
  (cyclReceiver conf fetch [lost] i c r = Fault Blocked /\ exists q, cc_received c !! i = Some q /\ (q = receiver_cnt conf i \/ q = length (F i))).
Proof.
  intros Hc Hi. destruct (ca_len _ _ _ Hc) as [Hlr Hlp]. destruct (lookup_lt_is_Some_2 (cc_received c) i) as [q Hq]; [by rewrite Hlr|].
  pose proof (list_lookup_total_correct _ _ _ Hq) as Eq. destruct (ca_got _ _ _ Hc i Hi) as [Hl Hw]. pose proof (ysent_bound F r c i Hc Hi) as Hb.
  unfold cyclReceiver. cbn [length]. rewrite Nat.div_1_r, Hq. cbn [res_of_option]. rewrite bind_ok.
  unfold taken in Hl. rewrite Eq in Hl. destruct (Nat.ltb_spec q (receiver_cnt conf i)) as [Hlt|Hge]; cbn [guard_or].
  2: { right. split; [done|]. exists q. split; [done|]. left. destruct (mjoin (cc_pending c !! i)); lia. }
  rewrite bind_ok. destruct (mjoin (cc_pending c !! i)) as [[s [base|]]|] eqn:Hpe.
  - left. assert (Hj : cc_joined c = false).
    { destruct (cc_joined c) eqn:E; [|done]. destruct (ca_joined _ _ _ Hc E) as [_ Hr]. specialize (Hr i q Hq). lia. }
    destruct (index_ok F r c i s base Hc Hi Hpe Hj) as [H1 H2]. rewrite Eq in H1, H2. by eexists _, r.
  - left. destruct (base_ok F r c i s Hc Hi Hpe) as [H1 H2]. by eexists _, r.
  - destruct (F i !! q) as [s|] eqn:Hs.
    + left. apply (store_ok F r c i s); [done..|by rewrite Eq].
    + right. apply lookup_ge_None in Hs. assert (q = length (F i)) as E by lia.
      split; [|by exists q; split; [|right]]. unfold taken in Hw. rewrite Hpe, Eq, Nat.add_0_r, E, drop_all in Hw.
      unfold store_packet. cbn [length]. rewrite Nat.div_1_r, Nat.mod_1_r. cbn [lookup list_lookup res_of_option].
      rewrite bind_ok, list_lookup_fmap, lookup_seq_lt by done. cbn [fmap option_fmap option_map mjoin option_join res_of_option Nat.add].
      rewrite !bind_ok. unfold BLPOP. by rewrite Hw.
Qed.

Lemma yreceiver_bound i : i < g -> receiver_cnt conf i <= cnt.
Proof.
  intros Hi. change (receiver_cnt conf i) with (share g i cnt). rewrite <- numbered_count by done. rewrite <- (length_seq cnt 0) at 2. apply length_filter.
Qed.

Lemma join_ok F r c : client_at F r c ->
  (exists c', join_receivers conf 1 c = Ok c' /\ client_at F r c' /\ cc_joined c = false /\ cc_joined c' = true /\
    (forall y, receiver_steps c' y = receiver_steps c y) /\ cc_processed c' = cc_processed c) \/
  (join_receivers conf 1 c = Fault Blocked /\ (cc_joined c = true \/ exists i q, cc_received c !! i = Some q /\ q <> receiver_cnt conf i)).
Proof.
  intros Hc. unfold join_receivers. destruct (cc_joined c) eqn:Hj; cbn [negb andb]; [right; split; [done|by left]|].
  destruct (forallb _ _) eqn:Hfl; cbn [guard_or].
  - left. assert (Hall : forall i q, cc_received c !! i = Some q -> q = receiver_cnt conf i).
    { intros i q Hq. apply forallb_forall with (x := (i, q)) in Hfl.
      - cbn [fst snd] in Hfl. rewrite Nat.div_1_r in Hfl. by apply Nat.eqb_eq.
      - apply list_elem_of_In, list_elem_of_lookup. exists i. apply lookup_zip_Some. split; [|done]. apply lookup_seq. split; [done|]. by eapply lookup_lt_Some. }
    rewrite bind_ok. eexists. split; [done|]. split; [|done].
    assert (Hhave : forall s, s < cnt -> is_Some (cc_contents c !! (s, 0))).
    { intros s Hs. exists (total s). apply (ca_contents _ _ _ Hc). split; [|done]. set (i := s mod g). assert (Hi : i < g) by by apply number_lt.
      destruct (lookup_lt_is_Some_2 (cc_received c) i) as [q Hq]; [by rewrite (proj1 (ca_len _ _ _ Hc))|].
      destruct (ca_got _ _ _ Hc i Hi) as [Hl _]. pose proof (ysent_bound F r c i Hc Hi). pose proof (Hall i q Hq) as E.
      unfold taken in *. rewrite (list_lookup_total_correct _ _ _ Hq) in *. rewrite take_ge by lia.
      destruct (ca_sent _ _ _ Hc i Hi) as [Hnd Hin].
      assert (Hp : F i ≡ₚ filter (fun s => s mod g = i) (seq 0 cnt)).
      { apply submseteq_length_Permutation.
        - apply NoDup_submseteq; [done|]. intros s' Hs'. destruct (Hin s' Hs'). apply list_elem_of_filter. split; [done|]. apply elem_of_seq. lia.
        - rewrite numbered_count by done. change (share g i cnt) with (receiver_cnt conf i). lia. }
      rewrite Hp. apply list_elem_of_filter. split; [done|]. apply elem_of_seq. lia. }
    split; cbn; try apply Hc; [|by intros _]. split; [done|]. exact Hhave.
  - right. split; [done|]. right. apply not_true_iff_false in Hfl. rewrite forallb_forall in Hfl.
    destruct (decide (Forall (fun p => p.2 = receiver_cnt conf (p.1 / 1)) (zip (seq 0 (length (cc_received c))) (cc_received c)))) as [HF|HF].
    + destruct Hfl. intros p Hp%list_elem_of_In. rewrite Forall_forall in HF. apply Nat.eqb_eq, HF, Hp.
    + apply not_Forall_Exists, Exists_exists in HF as ([i q] & Hin & Hne); [|apply _]. apply list_elem_of_lookup in Hin as [j Hj']. apply lookup_indexed in Hj' as [<- Hq].
      cbn [fst snd] in Hne, Hq. exists i, q. split; [done|]. intros E. apply Hne. by rewrite Nat.div_1_r.
Qed.

Lemma forward_ok F r c locIP : client_at F r c ->
  (exists c', cyclForwardWorker conf locIP [lost] c r = Ok (c', r) /\ client_at F r c' /\
    (forall y, receiver_steps c' y = receiver_steps c y) /\ cc_joined c' = cc_joined c /\ cc_processed c' = S (cc_processed c)) \/
  (cyclForwardWorker conf locIP [lost] c r = Fault Blocked /\ _completePacketIndex c <= cc_processed c).
Proof.
  intros Hc. unfold cyclForwardWorker. cbn [length]. rewrite Nat.div_1_r, Nat.mod_1_r. destruct (ca_complete _ _ _ Hc) as [Hcc Hall]. destruct (ca_done _ _ _ Hc) as [Hd Hf].
  destruct (Nat.ltb_spec (cc_processed c) cnt) as [Hlt|Hge]; cbn [guard_or]; [|right; split; [done|lia]].
  rewrite bind_ok. destruct (Nat.ltb_spec (cc_processed c) (_completePacketIndex c)) as [Hl|Hl]; cbn [guard_or]; [|by right].
  left. destruct (Hall _ Hl) as [p Hp]. pose proof Hp as Hp'. apply (ca_contents _ _ _ Hc) in Hp' as [_ ->]. rewrite bind_ok, Hp. cbn [res_of_option Nat.eqb]. rewrite bind_ok.
  eexists. split; [done|]. split; [|done]. split; cbn [cc_received cc_contents _completePacketIndex cc_joined cc_processed cc_file]; try apply Hc. split; [lia|]. rewrite seq_S, fmap_app, concat_app, Hf. cbn. by rewrite app_nil_r.
Qed.
End progress.
