(* ===== verification/CyclLive.v ===== *)
(** * The cyclic repair of one block ends with the block

    The invariant of the whole system: the helpers and the client of
    CyclProgress.v, and between two helpers the slices that have been sent and
    not been pulled.  Every step keeps it; a thread that fails belongs to a
    helper that is not set up; and while the client has not written the whole
    block the test of some thread succeeds, as every slice that is passed at its
    first helper gets through, and the next slice to be started is never too far
    ahead. *)
From Stdlib Require Import Ascii.
From stdpp Require Import strings relations.
From S2P Require Import Prelude Command Text Galois GF256 Jerasure Gauss Vandermonde ReedSol Encode RSUtil Config Disk Coordinator Packet DrCmd PipeRepair MulRepair MulProgress CyclSched CyclRepair CyclProgress.

#[local] Open Scope nat_scope.

Section system.
Context `{GF : GFComplete} {GL : GF8Laws} `{DL : DiskLaws} (conf : Config) (Hpo : packets_ok conf).
Context (ns : list mnode) (lost : str) (locIP : Z) (Hcr : cring conf ns lost).
Abbreviation cnt := (_packetCnt conf).
Abbreviation size := (_packetSize conf).
Abbreviation k := (length ns).
Abbreviation g := (_ecK conf - 1).
Abbreviation ip_of y := (mn_ip (ns !!! y)).
Abbreviation fetch := [(fun y => Some (ip_of y)) <$> seq 0 g].
Abbreviation worker_at := (worker_at conf ns).
Abbreviation client_at := (client_at conf ns lost).
Abbreviation msg := (msg conf ns).
Abbreviation pulled_of x A := (filter (fun s => x <> S (s mod g)) A).
Abbreviation last_of x A := (filter (fun s => x = s mod g) A).
Abbreviation passed_of x A := (filter (fun s => x <> s mod g) A).

Lemma ring_size : k = S g /\ 0 < g.
Proof. apply (k_g conf ns lost Hcr). Qed.

(** What [x] has sent, of the slices [A x] it was passed. *)
Definition sent_by (A : nat -> list nat) (ws : list yworker) (x : nat) : list nat := take (c_sent (ws !!! x)) (A x).

(** The helper after [x] has pulled what [x] has passed on, up to what waits. *)
Definition link (A : nat -> list nat) (ws : list yworker) (r : redis) (x : nat) : Prop :=
  exists pend, passed_of x (sent_by A ws x) = pulled_of (after g x) (A (after g x)) ++ pend /\
    waiting_in r (ip_of x) (tmpKey lost) = msg x <$> pend.

Record progress (A : nat -> list nat) (st : ystate) : Prop := {
  pg_len : length (c_workers st) = k;
  pg_worker x : x < k -> worker_at x (A x) (c_workers st !!! x);
  pg_link x : x < k -> link A (c_workers st) (c_servers st) x;
  pg_client : client_at (fun x => last_of x (sent_by A (c_workers st) x)) (c_servers st) (c_client st)
}.

(** The slices of one helper changed. *)
Definition update (A : nat -> list nat) (x : nat) (l : list nat) (y : nat) : list nat := if decide (y = x) then l else A y.

Lemma update_eq A x l : update A x l x = l.
Proof. unfold update. by rewrite decide_True. Qed.
Lemma update_ne A x l y : y <> x -> update A x l y = A y.
Proof. intros. unfold update. by rewrite decide_False. Qed.

Lemma after_ne x : x < k -> after g x <> x.
Proof. intros Hx. destruct ring_size. unfold after. nat_cases. Qed.

(** A step of a helper that sends nothing: what it was passed grows by slices of
    its own, or the step is a pull of its own list. *)
Lemma progress_helper A st x w' l r :
  progress A st -> x < k -> worker_at x (A x ++ l) w' -> c_sent w' = c_sent (c_workers st !!! x) ->
  (forall y, y < k -> waiting_in r (ip_of y) lost = waiting_in (c_servers st) (ip_of y) lost) ->
  (forall y, y < k -> after g y <> x -> waiting_in r (ip_of y) (tmpKey lost) = waiting_in (c_servers st) (ip_of y) (tmpKey lost)) ->
  (exists pend, passed_of (before g x) (sent_by A (c_workers st) (before g x)) = pulled_of x (A x ++ l) ++ pend /\
    waiting_in r (ip_of (before g x)) (tmpKey lost) = msg (before g x) <$> pend) ->
  progress (update A x (A x ++ l)) (mkYState (<[x := w']> (c_workers st)) r (c_client st)).
Proof.
  intros [Hlen Hwk Hlk Hcl] Hx Hw' Hse Hlost Hother Hown. destruct ring_size as [Hk Hg]. set (A' := update A x (A x ++ l)). set (ws' := <[x := w']> (c_workers st)).
  assert (Hws : forall y, y <> x -> ws' !!! y = c_workers st !!! y) by (intros y Hy; by apply list_lookup_total_insert_ne).
  assert (Hwx : ws' !!! x = w') by (apply list_lookup_total_insert_eq; lia).
  assert (Hsent : forall y, sent_by A' ws' y = sent_by A (c_workers st) y).
  { intros y. unfold sent_by. destruct (decide (y = x)) as [->|Hy].
    - rewrite Hwx, Hse. unfold A'. rewrite update_eq, take_app_le; [done|]. apply (wa_sent _ _ _ _ _ (Hwk x Hx)).
    - rewrite Hws by done. unfold A'. by rewrite update_ne. }
  split; cbn [c_workers c_servers c_client].
  - unfold ws'. by rewrite length_insert.
  - intros y Hy. destruct (decide (y = x)) as [->|Hne].
    + rewrite Hwx. unfold A'. by rewrite update_eq.
    + rewrite Hws by done. unfold A'. rewrite update_ne by done. by apply Hwk.
  - intros y Hy. unfold link. rewrite Hsent. destruct (decide (after g y = x)) as [E|Hne].
    + rewrite E. unfold A'. rewrite update_eq. assert (Ey : y = before g x) by (rewrite <- E; symmetry; apply before_after; lia). subst y. exact Hown.
    + unfold A'. rewrite update_ne, Hother by done. by apply Hlk.
  - eapply client_more; [exact Hcr|exact Hcl|]. intros i Hi. left. rewrite Hsent. split; [done|]. apply Hlost. lia.
Qed.

(** A step that sends the next slice. *)
Lemma progress_send A st x w' s :
  progress A st -> x < k -> worker_at x (A x) w' -> c_sent w' = S (c_sent (c_workers st !!! x)) -> A x !! c_sent (c_workers st !!! x) = Some s ->
  progress A (mkYState (<[x := w']> (c_workers st)) (RPUSH (ip_of x) (if decide (x = s mod g) then lost else tmpKey lost) (msg x s) (c_servers st)) (c_client st)).
Proof.
  intros [Hlen Hwk Hlk Hcl] Hx Hw' Hse Hs. destruct ring_size as [Hk Hg]. set (ws' := <[x := w']> (c_workers st)). set (key := if decide _ then _ else _).
  assert (Hws : forall y, y <> x -> ws' !!! y = c_workers st !!! y) by (intros y Hy; by apply list_lookup_total_insert_ne).
  assert (Hwx : ws' !!! x = w') by (apply list_lookup_total_insert_eq; lia).
  assert (Hsx : sent_by A ws' x = sent_by A (c_workers st) x ++ [s]) by (unfold sent_by; rewrite Hwx, Hse; by apply take_S_r).
  assert (Hsent : forall y, y <> x -> sent_by A ws' y = sent_by A (c_workers st) y) by (intros y Hy; unfold sent_by; by rewrite Hws).
  destruct (wa_in _ _ _ _ _ Hw' s (list_elem_of_lookup_2 _ _ _ Hs)) as [Hsc _]. pose proof (tmp_lost lost) as Htl.
  split; cbn [c_workers c_servers c_client].
  - unfold ws'. by rewrite length_insert.
  - intros y Hy. destruct (decide (y = x)) as [->|Hne]; [by rewrite Hwx|]. rewrite Hws by done. by apply Hwk.
  - intros y Hy. unfold link. rewrite waiting_push. destruct (Hlk y Hy) as (pend & E1 & E2). destruct (decide (y = x)) as [->|Hne].
    + rewrite Hsx, filter_app, E1. unfold key. destruct (decide (x = s mod g)) as [E|Hns].
      * exists pend. rewrite filter_cons_False, filter_nil, app_nil_r by tauto. rewrite decide_False by congruence. done.
      * exists (pend ++ [s]). rewrite filter_cons_True, filter_nil, <- app_assoc by done. rewrite decide_True, fmap_app, E2 by done. done.
    + exists pend. rewrite Hsent by done. rewrite decide_False; [done|]. intros [= E _]. apply (ring_ip_inj conf ns lost Hcr) in E; [congruence|done|done].
  - eapply client_more; [exact Hcr|exact Hcl|]. intros i Hi. cbv beta. rewrite waiting_push. destruct (decide (i = x)) as [->|Hne].
    + rewrite Hsx, filter_app. unfold key. destruct (decide (x = s mod g)) as [E|Hns].
      * right. exists s. rewrite filter_cons_True, filter_nil, decide_True by done. split_and!; [done|done| |done|done].
        intros [_ Hin]%list_elem_of_filter. unfold sent_by in Hin. apply elem_of_take in Hin as (j & Hj & Hlt).
        pose proof (NoDup_lookup _ _ _ _ (wa_nodup _ _ _ _ _ Hw') Hj Hs). lia.
      * left. rewrite filter_cons_False, filter_nil, app_nil_r, decide_False by congruence. done.
    + left. rewrite Hsent by done. rewrite decide_False; [done|]. intros [= E _]. apply (ring_ip_inj conf ns lost Hcr) in E; [congruence|done|lia].
Qed.

(** What a thread waits for. *)
Definition waits (A : nat -> list nat) (st : ystate) (x : nat) (t : thread) : Prop :=
  let w := c_workers st !!! x in
  match t with
  | TRead => c_filled w = true /\ _readCnt w = cnt /\ (tmpQueueRear w = length (tmpQueue w) \/ length (A x) / g + 10 < tmpQueueRear w)
  | TPull => c_allocated w = true /\ (c_pulled w = cnt \/ c_pulled w < cnt /\ is_pulled x g cnt (c_pulled w) = true /\
      (waiting_in (c_servers st) (ip_of (before g x)) (tmpKey lost) = [] \/ _readCnt w < cnt))
  | TSend => c_sent w = length (A x)
  end.

(** The slices that wait at the helper before have not come yet. *)
Lemma pending A st x pend : progress A st -> x < k ->
  passed_of (before g x) (sent_by A (c_workers st) (before g x)) = pulled_of x (A x) ++ pend ->
  forall s, s ∈ pend -> s < cnt /\ x <> S (s mod g) /\ s ∉ A x.
Proof.
  intros Hpg Hx E s Hs. destruct ring_size as [Hk Hg]. pose proof (before_le g Hg x ltac:(lia)) as Hb.
  pose proof (pg_worker _ _ Hpg (before g x) ltac:(lia)) as Hwb.
  assert (Hin : s ∈ passed_of (before g x) (sent_by A (c_workers st) (before g x))) by (rewrite E; apply elem_of_app; by right).
  apply list_elem_of_filter in Hin as [Hne Hin]. apply elem_of_take in Hin as (j & Hj & _). split; [by apply (wa_in _ _ _ _ _ Hwb), list_elem_of_lookup_2 with j|].
  assert (Hns : x <> S (s mod g)).
  { intros Ex. apply Hne. apply (ends_starts g Hg); [done|]. by rewrite after_before by lia. }
  split; [done|]. intros HA. assert (Hnd : NoDup (pulled_of x (A x) ++ pend)).
  { rewrite <- E. apply NoDup_filter. unfold sent_by. eapply sublist_NoDup; [apply (wa_nodup _ _ _ _ _ Hwb)|apply sublist_take]. }
  apply NoDup_app in Hnd as (_ & Hdis & _). apply (Hdis s); [|done]. by apply list_elem_of_filter.
Qed.

Lemma msg_inj y s s' : y < k -> s < cnt -> s' < cnt -> msg y s = msg y s' -> s = s'.
Proof.
  intros Hy Hs Hs' E. pose proof (msg_number conf ns lost Hcr y s Hy Hs) as E1. rewrite E, (msg_number conf ns lost Hcr y s' Hy Hs') in E1. injection E1 as E1. lia.
Qed.

(** A step of a thread. *)
Lemma ythread_progress A st x t n : progress A st -> ns !! x = Some n ->
  let w := c_workers st !!! x in
  (exists w' r A', run_ythread conf t n w (c_servers st) = Ok (w', r) /\ progress A' (mkYState (<[x := w']> (c_workers st)) r (c_client st)) /\
    counters w < counters w') \/
  (run_ythread conf t n w (c_servers st) = Fault Blocked /\ waits A st x t) \/
  (run_ythread conf t n w (c_servers st) = Fault Undef /\ ~ set_up w).
Proof.
  intros Hpg Hn w. pose proof (lookup_lt_Some _ _ _ Hn) as Hx. destruct ring_size as [Hk Hg]. pose proof (pg_worker _ _ Hpg x Hx) as Hw. fold w in Hw.
  destruct (cr_job _ _ _ Hcr n) as [c Hc]; [by eapply list_elem_of_lookup_2|]. pose proof (before_le g Hg x ltac:(lia)) as Hb.
  pose proof (pg_link _ _ Hpg (before g x) ltac:(lia)) as Hl. unfold link in Hl. rewrite after_before in Hl by lia.
  assert (Hown : forall l, pulled_of x l = [] -> exists pend, passed_of (before g x) (sent_by A (c_workers st) (before g x)) = pulled_of x (A x ++ l) ++ pend /\
      waiting_in (c_servers st) (ip_of (before g x)) (tmpKey lost) = msg (before g x) <$> pend).
  { intros l El. rewrite filter_app, El, app_nil_r. exact Hl. }
  assert (Hstay : forall w', worker_at x (A x) w' -> c_sent w' = c_sent w ->
    progress (update A x (A x ++ [])) (mkYState (<[x := w']> (c_workers st)) (c_servers st) (c_client st))).
  { intros w' Hw' Hs. apply progress_helper; try done; [by rewrite app_nil_r|]. by apply Hown. }
  destruct t; cbn [run_ythread].
  - destruct (reader_ok conf Hpo ns lost Hcr x Hx n c Hn Hc (A x) w Hw) as [(w' & A' & E & Hw' & HA & Hs & Hcn)|[[E Hwt]|[E Hno]]].
    + left. rewrite E, bind_ok. destruct HA as [->|(s & -> & Hst)].
      * exists w', (c_servers st), (update A x (A x ++ [])). split_and!; [done|by apply Hstay|done].
      * exists w', (c_servers st), (update A x (A x ++ [s])). split_and!; [done| |done]. apply progress_helper; try done. apply Hown.
        by rewrite filter_cons_False by tauto.
    + right. left. by rewrite E.
    + right. right. by rewrite E.
  - assert (Hprev : mn_prevs n = [Some (ip_of (before g x))]).
    { apply (cr_prev _ _ _ Hcr x n); [done|]. apply list_lookup_lookup_total_lt. lia. }
    destruct Hl as (pend & E1 & E2). pose proof (pending A st x pend Hpg Hx E1) as Hpend.
    destruct (puller_ok conf Hpo ns lost Hcr x Hx n c Hn Hc Hprev (A x) w (c_servers st) Hw)
      as [(w' & E & Hw' & Hs & Hcn)|[(s & vs & w' & r' & Eq & E & Hw' & Hns & Hs & Hcn & Hr')|[(E & Hal & Hwt)|[E Hno]]]].
    + intros v vs Ev. rewrite E2 in Ev. destruct pend as [|s pend]; [done|]. rewrite fmap_cons in Ev. injection Ev as <- _. exists s. split; [done|]. apply Hpend. left.
    + left. exists w', (c_servers st), (update A x (A x ++ [])). split_and!; [done|by apply Hstay|done].
    + left. exists w', r', (update A x (A x ++ [s])). split_and!; [done| |done].
      rewrite E2 in Eq. destruct pend as [|s' pend]; [done|]. rewrite fmap_cons in Eq. injection Eq as Em Evs. destruct (Hpend s' ltac:(left)) as (Hs' & _ & _).
      assert (Hsc : s < cnt) by (apply (wa_in _ _ _ _ _ Hw'); apply elem_of_app; right; left). apply msg_inj in Em; [|lia|done|done]. subst s'.
      apply progress_helper; try done.
      * intros y Hy. rewrite Hr', decide_False; [done|]. intros [= _ E3]. by apply (tmp_lost lost).
      * intros y Hy Hay. rewrite Hr', decide_False; [done|]. intros [= E3]. apply (ring_ip_inj conf ns lost Hcr) in E3; [|lia|done].
        apply Hay. rewrite <- E3. by rewrite after_before by lia.
      * exists pend. rewrite Hr', decide_True, filter_app, filter_cons_True, filter_nil, E1, <- app_assoc by done. done.
    + right. left. split; [done|]. by split.
    + by right; right.
  - destruct (sender_ok conf ns lost Hcr x Hx n c Hn Hc (A x) w (c_servers st) Hw) as [(s & w' & Hs & E & Hw' & Hse & Hcn)|[(w' & E & Hw' & Hs & Hcn)|[E Hwt]]].
    + left. eexists w', _, A. split; [exact E|]. split; [|done]. rewrite <- (list_lookup_total_correct _ _ _ Hn). by apply progress_send.
    + left. exists w', (c_servers st), (update A x (A x ++ [])). split_and!; [done|by apply Hstay|done].
    + by right; left.
Qed.

(** ** Every run ends *)

Abbreviation ystep := (ystep conf ns fetch locIP [lost]).

Definition ywork (st : ystate) : nat :=
  sum_list_with counters (c_workers st) + (sum_list_with (receiver_steps (c_client st)) (seq 0 g) + (if cc_joined (c_client st) then 1 else 0) + cc_processed (c_client st)).
(** The setup and the release of a helper, its slices read, started, pulled and
    sent, and by the client those received, in three steps each, and written. *)
Definition all_ywork : nat := k * (4 * cnt + 3) + (g * (3 * cnt) + 1 + cnt).

Lemma sum_more {A} (f : A -> nat) l x w w' : l !! x = Some w -> f w < f w' -> sum_list_with f l < sum_list_with f (<[x := w']> l).
Proof.
  intros Hx E. revert x Hx. induction l as [|z l IH]; intros [|x] Hx; [done|done|injection Hx as ->; cbn; lia|].
  change (f z + sum_list_with f l < f z + sum_list_with f (<[x := w']> l)). specialize (IH x Hx). lia.
Qed.

Lemma sum_over {A} (f f' : A -> nat) l : (forall y, y ∈ l -> f y <= f' y) -> sum_list_with f l <= sum_list_with f' l /\
  forall x, x ∈ l -> f x < f' x -> sum_list_with f l < sum_list_with f' l.
Proof.
  induction l as [|z l IH]; intros Hle; [split; [done|by intros x ?%not_elem_of_nil]|]. cbn [sum_list_with].
  destruct IH as [IH1 IH2]; [intros y Hy; apply Hle; by right|]. pose proof (Hle z ltac:(left)). split; [lia|].
  intros x [->|Hx]%elem_of_cons Hlt; [lia|]. specialize (IH2 x Hx Hlt). lia.
Qed.

Lemma worker_bound A st x : progress A st -> x < k -> counters (c_workers st !!! x) <= 4 * cnt + 3.
Proof.
  intros Hpg Hx. pose proof (pg_worker _ _ Hpg x Hx) as Hw. pose proof (wa_read _ _ _ _ _ Hw). pose proof (wa_pulled_le _ _ _ _ _ Hw).
  pose proof (wa_sent _ _ _ _ _ Hw). pose proof (length_passed conf ns x (A x) _ Hw). pose proof (wa_rear _ _ _ _ _ Hw).
  pose proof (wa_queue _ _ _ _ _ Hw) as Eq. apply (f_equal length) in Eq. pose proof (length_filter (fun i => is_started x g cnt i = true) (seq 0 (_readCnt (c_workers st !!! x)))) as E2.
  rewrite length_seq in E2. unfold counters. destruct (c_filled _), (c_allocated _), (c_cleaned _); lia.
Qed.

Lemma ywork_bound A st : progress A st -> ywork st <= all_ywork.
Proof.
  intros Hpg. destruct ring_size as [Hk Hg].
  destruct (sum_bound counters (c_workers st) (4 * cnt + 3)) as [H1 _].
  { intros x w Hw. pose proof (lookup_lt_Some _ _ _ Hw) as Hx. rewrite (pg_len _ _ Hpg) in Hx. rewrite <- (list_lookup_total_correct _ _ _ Hw). by apply (worker_bound A). }
  destruct (sum_bound (receiver_steps (c_client st)) (seq 0 g) (3 * cnt)) as [H2 _].
  { intros y i [-> Hi]%lookup_seq. cbn [Nat.add].
    destruct (ca_got _ _ _ _ _ _ (pg_client _ _ Hpg) y Hi) as [Hl _]. pose proof (ysent_bound conf ns lost Hcr _ _ _ y (pg_client _ _ Hpg) Hi).
    pose proof (yreceiver_bound conf ns lost Hcr y Hi). unfold taken in Hl. unfold receiver_steps. repeat case_match; lia. }
  rewrite (pg_len _ _ Hpg) in H1. rewrite length_seq in H2. destruct (ca_done _ _ _ _ _ _ (pg_client _ _ Hpg)) as [H3 _].
  unfold ywork, all_ywork. destruct (cc_joined _); lia.
Qed.

Lemma yclient_progress A st r c : progress A st ->
  client_at (fun x => last_of x (sent_by A (c_workers st) x)) r c ->
  (forall y, waiting_in r (ip_of y) (tmpKey lost) = waiting_in (c_servers st) (ip_of y) (tmpKey lost)) ->
  progress A (mkYState (c_workers st) r c).
Proof.
  intros [Hlen Hwk Hlk Hcl] Hc Hr. split; cbn [c_workers c_servers c_client]; [done|done| |done]. intros x Hx. unfold link. rewrite Hr. by apply Hlk.
Qed.

Lemma ystep_progress A st st' : progress A st -> ystep st st' -> exists A', progress A' st' /\ ywork st < ywork st'.
Proof.
  intros Hpg Hs. destruct ring_size as [Hk Hg]. pose proof (pg_client _ _ Hpg) as Hcl. destruct Hs as [st x t n w w' r Hn Hw Hrun|st x c r Hx Hrun|st c Hrun|st c r Hrun].
  - pose proof (list_lookup_total_correct _ _ _ Hw) as Ew. pose proof (ythread_progress A st x t n Hpg Hn) as Ht. cbv zeta in Ht. rewrite Ew in Ht.
    destruct Ht as [(w2 & r2 & A' & E & Hpg' & Hc)|[[E _]|[E _]]]; [|congruence..]. rewrite E in Hrun. injection Hrun as <- <-. exists A'. split; [done|].
    unfold ywork. cbn [c_workers c_client]. pose proof (sum_more counters _ x w w2 Hw Hc). lia.
  - rewrite (proj1 (ca_len _ _ _ _ _ _ Hcl)) in Hx. destruct (receive_ok conf ns lost Hcr _ _ _ x Hcl Hx) as [(c2 & r2 & E & Hc2 & _ & H0 & H1 & H2 & H3 & H4)|[E _]]; [|congruence].
    rewrite E in Hrun. injection Hrun as <- <-. exists A. split; [by apply yclient_progress|]. unfold ywork. cbn [c_workers c_client]. rewrite H2, H3.
    destruct (sum_over (receiver_steps (c_client st)) (receiver_steps c2) (seq 0 g)) as [_ Hsum].
    { intros y _. destruct (decide (y = x)) as [->|Hne]; [lia|rewrite H1 by done; lia]. }
    specialize (Hsum x ltac:(apply elem_of_seq; lia) ltac:(lia)). lia.
  - destruct (join_ok conf ns lost Hcr _ _ _ Hcl) as [(c2 & E & Hc2 & H1 & H2 & H5 & H4)|[E _]]; [|cbn [length] in Hrun; congruence].
    cbn [length] in Hrun. rewrite E in Hrun. injection Hrun as <-. exists A. split; [by apply yclient_progress|]. unfold ywork. cbn [c_workers c_client]. rewrite H1, H2, H4.
    destruct (sum_over (receiver_steps (c_client st)) (receiver_steps c2) (seq 0 g)) as [Hsum _]; [intros y _; rewrite (H5 y); lia|]. lia.
  - destruct (forward_ok conf ns lost _ _ _ locIP Hcl) as [(c2 & E & Hc2 & H1 & H2 & H3)|[E _]]; [|congruence].
    rewrite E in Hrun. injection Hrun as <- <-. exists A. split; [by apply yclient_progress|]. unfold ywork. cbn [c_workers c_client]. rewrite H2, H3.
    destruct (sum_over (receiver_steps (c_client st)) (receiver_steps c2) (seq 0 g)) as [Hsum _]; [intros y _; rewrite (H1 y); lia|]. lia.
Qed.

(** Only a helper that is not set up fails. *)
Lemma crash_setup A st x : progress A st -> helper_crash conf ns st x -> ~ set_up (c_workers st !!! x).
Proof.
  intros Hpg (t & n & w & e & Hn & Hw & E & He). pose proof (list_lookup_total_correct _ _ _ Hw) as Ew. pose proof (ythread_progress A st x t n Hpg Hn) as Ht. cbv zeta in Ht. rewrite Ew in *.
  destruct Ht as [(w2 & r2 & A' & E2 & _)|[[E2 _]|[_ Hno]]]; [congruence|congruence|done].
Qed.

Lemma client_safe A st : progress A st -> ~ client_crash conf fetch locIP [lost] st.
Proof.
  intros Hpg. pose proof (pg_client _ _ Hpg) as Hcl. intros [(x & e & Hx & E & He)|[(e & E & He)|(e & E & He)]].
  - rewrite (proj1 (ca_len _ _ _ _ _ _ Hcl)) in Hx. destruct (receive_ok conf ns lost Hcr _ _ _ x Hcl Hx) as [(c2 & r2 & E2 & _)|[E2 _]]; congruence.
  - cbn [length] in E. destruct (join_ok conf ns lost Hcr _ _ _ Hcl) as [(c2 & E2 & _)|[E2 _]]; congruence.
  - destruct (forward_ok conf ns lost _ _ _ locIP Hcl) as [(c2 & E2 & _)|[E2 _]]; congruence.
Qed.

Lemma yrun_progress A m st st' : progress A st -> nsteps ystep m st st' -> exists A', progress A' st' /\ m + ywork st <= ywork st'.
Proof.
  intros Hst Hn. revert A Hst. induction Hn as [st|m st st1 st' Hs Hn IH]; intros A Hst; [by exists A|].
  destruct (ystep_progress A st st1 Hst Hs) as (A1 & Hst1 & E). destruct (IH A1 Hst1) as (A' & H1 & H2). exists A'. split; [done|lia].
Qed.
End system.
