(* ===== verification/CyclResult.v ===== *)
(** * What the cyclic repair of one block yields

    From the start of the threads until the client has written the whole block
    some thread can go on; and what the client has written then is the sum of
    what the helpers make of their blocks, as for the basic pipeline. *)
From Stdlib Require Import Ascii.
From stdpp Require Import strings relations.
From S2P Require Import Prelude Command Text Galois GF256 Jerasure Gauss Vandermonde ReedSol Encode RSUtil Config Disk Coordinator Packet DrCmd PipeRepair MulRepair MulProgress CyclSched CyclRepair CyclProgress CyclLive.

#[local] Open Scope nat_scope.

Section result.
Context `{GF : GFComplete} {GL : GF8Laws} `{DL : DiskLaws} (conf : Config) (Hpo : packets_ok conf).
Context (ns : list mnode) (lost : str) (locIP : Z) (Hcr : cring conf ns lost).
Abbreviation cnt := (_packetCnt conf).
Abbreviation size := (_packetSize conf).
Abbreviation k := (length ns).
Abbreviation g := (_ecK conf - 1).
Abbreviation pns := (node_of 0 <$> ns).
Abbreviation ip_of y := (mn_ip (ns !!! y)).
Abbreviation fetch := [(fun y => Some (ip_of y)) <$> seq 0 g].
Abbreviation worker_at := (worker_at conf ns).
Abbreviation msg := (msg conf ns).
Abbreviation total := (total conf ns).
Abbreviation place := (slice_at g cnt).
Abbreviation progress := (progress conf ns lost).
Abbreviation ystep := (ystep conf ns fetch locIP [lost]).
Abbreviation waits := (waits conf ns lost).
Abbreviation sent A st x := (sent_by A (c_workers st) x).
Abbreviation started_of x A := (filter (fun s => x = S (s mod g)) A).
Abbreviation pulled_of x A := (filter (fun s => x <> S (s mod g)) A).
Abbreviation last_of x A := (filter (fun s => x = s mod g) A).

Lemma sizes : k = S g /\ 0 < g.
Proof. apply (k_g conf ns lost Hcr). Qed.

(** ** The start *)

(** The threads of new helpers have started, and nothing of an earlier repair
    waits in the lists. *)
Record ystarted (st : ystate) : Prop := {
  cs_workers : c_workers st = replicate k new_yworker;
  cs_lists x : x < k -> waiting_in (c_servers st) (ip_of x) lost = [] /\ waiting_in (c_servers st) (ip_of x) (tmpKey lost) = [];
  cs_client : cyclCollector conf 1 = Ok (c_client st)
}.

Lemma new_worker_at x : worker_at x [] new_yworker.
Proof. split; cbn; try done; try lia; [constructor|by intros s ?%not_elem_of_nil]. Qed.

Lemma new_client_at F r c : cyclCollector conf 1 = Ok c ->
  (forall i, i < g -> F i = [] /\ waiting_in r (ip_of i) lost = []) -> client_at conf ns lost F r c.
Proof.
  intros Hc HF. unfold cyclCollector in Hc. destruct (1 <? _ecK conf); cbn [guard_or] in Hc; [|done]. rewrite bind_ok, Nat.mul_1_r in Hc. injection Hc as <-.
  split; cbn [cc_received cc_pending cc_contents _completePacketIndex cc_joined cc_processed cc_file].
  - by rewrite !length_replicate.
  - intros i Hi. destruct (HF i Hi) as [-> _]. split; [constructor|by intros s ?%not_elem_of_nil].
  - intros i Hi. unfold taken. cbn [cc_received cc_pending]. rewrite lookup_total_replicate_2, lookup_replicate_2 by done. destruct (HF i Hi) as [-> ->]. done.
  - intros s p. rewrite lookup_empty. split; [done|]. intros [Hs _]. destruct (HF (s mod g)) as [Hnil _]; [apply number_lt; apply sizes|].
    rewrite Hnil, take_nil in Hs. by apply not_elem_of_nil in Hs.
  - intros i s b Hp. exfalso. cbn [cc_pending] in Hp. destruct (replicate g None !! i) as [o|] eqn:E; [|done]. apply lookup_replicate in E as [-> _]. done.
  - split; [lia|]. intros s Hs. lia.
  - done.
  - split; [lia|done].
Qed.

Lemma ystarted_progress st : ystarted st -> progress (fun _ => []) st /\ ywork conf st = 0.
Proof.
  intros [Hw Hl Hc]. destruct sizes as [Hk Hg]. assert (Hnew : forall x, x < k -> c_workers st !!! x = new_yworker) by (intros x Hx; by rewrite Hw, lookup_total_replicate_2).
  assert (Hsent : forall x, sent (fun _ => []) st x = []) by (intros x; unfold sent_by; apply take_nil). split.
  - split.
    + by rewrite Hw, length_replicate.
    + intros x Hx. rewrite Hnew by done. apply new_worker_at.
    + intros x Hx. exists []. rewrite Hsent, !filter_nil. split; [done|]. by apply Hl.
    + apply new_client_at; [done|]. intros i Hi. rewrite Hsent, filter_nil. split; [done|]. apply Hl. lia.
  - unfold ywork. rewrite Hw. unfold cyclCollector in Hc. destruct (1 <? _ecK conf); cbn [guard_or] in Hc; [|done]. rewrite bind_ok in Hc. injection Hc as <-.
    cbn [cc_joined cc_processed].
    assert (H0 : forall n, sum_list_with counters (replicate n new_yworker) = 0) by (induction n as [|n IH]; [done|]; cbn; by rewrite IH).
    set (c0 := mkCClient _ _ _ _ _ _ _). destruct (sum_bound (receiver_steps c0) (seq 0 g) 0) as [H1 _].
    { intros y i [-> Hi]%lookup_seq. unfold receiver_steps, c0. cbn [cc_received cc_pending Nat.add]. by rewrite Nat.mul_1_r, lookup_total_replicate_2, lookup_replicate_2. }
    rewrite H0. lia.
Qed.

(** ** Some thread can go on *)

Definition steps {A} (r : res A) : bool := match r with Ok _ => true | Fault _ => false end.

Definition thread_steps (st : ystate) (p : nat * thread) : bool :=
  match ns !! p.1, c_workers st !! p.1 with
  | Some n, Some w => steps (run_ythread conf p.2 n w (c_servers st))
  | _, _ => false
  end.
Definition threads : list (nat * thread) := x ← seq 0 k; [(x, TRead); (x, TPull); (x, TSend)].

Lemma in_threads x t : x < k -> (x, t) ∈ threads.
Proof.
  intros Hx. unfold threads. apply list_elem_of_bind. exists x. split; [|apply elem_of_seq; lia].
  destruct t; repeat first [left|right].
Qed.

(** Either a thread of a helper can go on, or all of them wait. *)
Lemma thread_or_wait A st : progress A st -> (exists st', ystep st st') \/
  forall x, x < k -> set_up (c_workers st !!! x) /\ forall t, waits A st x t.
Proof.
  intros Hpg. destruct (existsb (thread_steps st) threads) eqn:E.
  - left. apply existsb_exists in E as ([x t] & _ & E). unfold thread_steps in E. cbn [fst snd] in E. destruct (ns !! x) as [n|] eqn:Hn; [|done].
    destruct (c_workers st !! x) as [w|] eqn:Hw; [|done]. destruct (run_ythread conf t n w (c_servers st)) as [[w' r]|] eqn:Er; [|done].
    eexists. by eapply ystep_thread.
  - right. intros x Hx. destruct (lookup_lt_is_Some_2 ns x Hx) as [n Hn].
    assert (Hno : forall t v, run_ythread conf t n (c_workers st !!! x) (c_servers st) <> Ok v).
    { intros t v Ev. enough (existsb (thread_steps st) threads = true) by congruence. apply existsb_exists. exists (x, t).
      split; [by apply list_elem_of_In, in_threads|]. unfold thread_steps. cbn [fst snd].
      rewrite Hn, list_lookup_lookup_total_lt by (rewrite (pg_len _ _ _ _ _ Hpg); done). by rewrite Ev. }
    pose proof (pg_worker _ _ _ _ _ Hpg x Hx) as Hw. destruct (cr_job _ _ _ Hcr n) as [c Hc]; [by eapply list_elem_of_lookup_2|].
    assert (Hr : set_up (c_workers st !!! x)).
    { split.
      - destruct (c_filled _) eqn:Hf; [done|]. destruct (fill_ok conf ns lost Hcr x Hx n c Hn Hc (A x) _ Hw Hf) as (w' & E' & _).
        destruct (Hno TRead (w', c_servers st)). cbn [run_ythread]. unfold readerMul. by rewrite Hf, E'.
      - destruct (c_allocated _) eqn:Hal; [done|]. exfalso. eapply (Hno TPull). cbn [run_ythread]. unfold pullerMul. rewrite Hal. reflexivity. }
    split; [done|]. intros t. destruct (ythread_progress conf Hpo ns lost Hcr A st x t n Hpg Hn) as [(w' & r & _ & E' & _)|[[_ Hwt]|[_ Hnr]]]; [by destruct (Hno t (w', r))|done|done].
Qed.

Section stuck.
Context (A : nat -> list nat) (st : ystate) (Hpg : progress A st).
Context (Hwait : forall x, x < k -> set_up (c_workers st !!! x) /\ forall t, waits A st x t).

Lemma all_read x : x < k -> _readCnt (c_workers st !!! x) = cnt.
Proof. intros Hx. destruct (Hwait x Hx) as [_ Hw]. by destruct (Hw TRead) as (_ & E & _). Qed.

Lemma all_sent x : x < k -> sent A st x = A x.
Proof. intros Hx. destruct (Hwait x Hx) as [_ Hw]. unfold sent_by. pose proof (Hw TSend) as E. cbn in E. rewrite E. by apply take_ge. Qed.

(** A slice is passed at its first helper when those before it have been: it is
    not too far ahead. *)
Lemma start_passed s : s < cnt -> (forall s' x, s' < s -> x < k -> s' ∈ A x) -> s ∈ A (S (s mod g)).
Proof.
  intros Hs IH. destruct sizes as [Hk Hg]. set (y := S (s mod g)). assert (Hy : y <= g) by (pose proof (number_lt g Hg s); lia).
  pose proof (pg_worker _ _ _ _ _ Hpg y ltac:(lia)) as Hw. set (w := c_workers st !!! y) in *. set (i := place y s).
  assert (Hi : i < cnt) by by apply slice_lt. assert (Hii : place y i = s) by by apply slice_slice.
  assert (Hst : is_started y g cnt i = true) by (unfold i; rewrite started_slice by done; by apply Nat.eqb_eq).
  destruct (started_packet g cnt Hg y i Hy Hi Hst) as (Him & _ & Eis). rewrite Hii in Eis.
  assert (Ei : i = s / g * g) by (pose proof (Nat.div_mod_eq s g); lia).
  set (P := fun i => is_started y g cnt i = true). set (p := length (filter P (seq 0 i))).
  assert (Hp : tmpQueue w !! p = Some i).
  { rewrite (wa_queue _ _ _ _ _ Hw). unfold w. rewrite all_read by lia. assert (Es : seq 0 cnt = seq 0 i ++ i :: seq (S i) (cnt - i - 1)).
    { change (i :: seq (S i) (cnt - i - 1)) with (seq (0 + i) (S (cnt - i - 1))). rewrite <- seq_app. f_equal. lia. }
    rewrite Es, filter_app. fold P. rewrite lookup_app_r by done. fold p. rewrite Nat.sub_diag. by rewrite filter_cons_True. }
  assert (Hpq : p <= s / g).
  { unfold p. rewrite Ei. apply started_count; [done|]. intros j Hj. destruct (Nat.ltb_spec j cnt) as [Hjc|Hjc].
    - by apply (started_packet g cnt Hg y j Hy Hjc Hj).
    - unfold P, is_started in Hj. destruct (Nat.eqb_spec (j mod g) 0) as [|]; [done|]. by rewrite andb_false_r in Hj. }
  assert (HlA : s <= length (A y)) by (apply nodup_all; intros s' Hs'; apply IH; lia).
  destruct (decide (p < tmpQueueRear w)) as [Hlt|Hge].
  - assert (Hin : s ∈ started_of y (A y)).
    { rewrite (wa_started _ _ _ _ _ Hw). apply list_elem_of_fmap. exists i. split; [done|]. apply list_elem_of_lookup. exists p. by rewrite lookup_take_lt. }
    by apply list_elem_of_filter in Hin as [_ ?].
  - exfalso. destruct (Hwait y ltac:(lia)) as [_ Hwt]. destruct (Hwt TRead) as (_ & _ & [E|E]); fold w in E.
    + apply lookup_lt_Some in Hp. lia.
    + pose proof (Nat.Div0.div_le_mono s (length (A y)) g HlA). lia.
Qed.

(** And it goes through. *)
Lemma way_passed s d : s < cnt -> s ∈ A (S (s mod g)) -> d <= g -> s ∈ A (reached g s d).
Proof.
  intros Hs H0. destruct sizes as [Hk Hg]. induction d as [|d IH]; intros Hd; [by rewrite reached_0|]. set (x := reached g s d) in *.
  rewrite reached_S by (done || lia). fold x. pose proof (reached_le g Hg s d ltac:(lia)) as Hx. fold x in Hx. pose proof (reached_end g Hg s d ltac:(lia)) as Hne. fold x in Hne.
  specialize (IH ltac:(lia)). set (y := after g x). assert (Hy : y < k) by (pose proof (after_le g Hg x Hx); unfold y; lia).
  destruct (pg_link _ _ _ _ _ Hpg x ltac:(lia)) as (pend & E1 & E2). fold y in E1. assert (Exy : before g y = x) by by apply before_after.
  assert (Hin : s ∈ filter (fun s => x <> s mod g) (sent A st x)) by (apply list_elem_of_filter; rewrite all_sent by lia; done).
  rewrite E1 in Hin. apply elem_of_app in Hin as [Hin|Hin]; [by apply list_elem_of_filter in Hin as [_ ?]|]. exfalso.
  rewrite <- Exy in E1, E2. destruct (pending conf ns lost Hcr A st y pend Hpg Hy E1 s Hin) as (_ & Hns & Hno).
  destruct (Hwait y Hy) as [_ Hwt]. destruct (Hwt TPull) as (_ & [Ep|(_ & _ & [En|Er])]).
  - pose proof (pg_worker _ _ _ _ _ Hpg y Hy) as Hw. pose proof (wa_pulled _ _ _ _ _ Hw) as Ec. rewrite Ep in Ec.
    assert (Hle : length (place y <$> (pulled_of y (A y) ++ [s])) <= length (filter (fun i => is_pulled y g cnt i = true) (seq 0 cnt))).
    { assert (Hc : forall s', s' ∈ pulled_of y (A y) ++ [s] -> s' < cnt /\ y <> S (s' mod g)).
      { intros s' [[? Hs']%list_elem_of_filter| ->%list_elem_of_singleton]%elem_of_app; [|done]. split; [by apply (wa_in _ _ _ _ _ Hw)|done]. }
      apply submseteq_length, NoDup_submseteq.
      - apply NoDup_fmap_2_strong.
        + intros a b Ha Hb. apply slice_inj; [done|by apply Hc..].
        + apply NoDup_app. split_and!; [apply NoDup_filter, (wa_nodup _ _ _ _ _ Hw)| |apply NoDup_singleton].
          intros s' [_ Hs']%list_elem_of_filter ->%list_elem_of_singleton. done.
      - intros i (s' & -> & Hs')%list_elem_of_fmap. destruct (Hc s' Hs') as [Hlt Hn']. apply list_elem_of_filter. split.
        + rewrite pulled_slice by (done || lia). apply negb_true_iff. by apply Nat.eqb_neq.
        + apply elem_of_seq. pose proof (slice_lt g cnt Hg y s' Hlt). lia. }
    rewrite length_fmap, length_app, Ec in Hle. cbn [length] in Hle. lia.
  - rewrite E2 in En. by destruct pend as [|? ?]; [apply not_elem_of_nil in Hin|].
  - pose proof (all_read y Hy). lia.
Qed.

Lemma all_passed s x : s < cnt -> x < k -> s ∈ A x.
Proof.
  destruct sizes as [Hk Hg]. revert x. induction s as [s IH] using lt_wf_ind. intros x Hs Hx.
  rewrite <- (reached_distance g Hg s x) by lia. apply way_passed; [done| |apply distance_le; (done || lia)].
  apply start_passed; [done|]. intros s' x' Hs' Hx'. apply IH; lia.
Qed.

Lemma all_to_client i : i < g -> length (last_of i (sent A st i)) = receiver_cnt conf i.
Proof.
  intros Hi. destruct sizes as [Hk Hg]. pose proof (ysent_bound conf ns lost Hcr _ _ _ i (pg_client _ _ _ _ _ Hpg) Hi) as Hb. cbv beta in Hb.
  enough (receiver_cnt conf i <= length (last_of i (sent A st i))) by lia.
  change (receiver_cnt conf i) with (share g i cnt). rewrite <- numbered_count by done.
  apply submseteq_length, NoDup_submseteq; [apply NoDup_filter, NoDup_seq|]. intros s [E Hs%elem_of_seq]%list_elem_of_filter.
  apply list_elem_of_filter. split; [done|]. rewrite all_sent by lia. apply all_passed; lia.
Qed.

(** So the client can go on. *)
Lemma client_goes : cc_processed (c_client st) < cnt -> exists st', ystep st st'.
Proof.
  intros Hlt. destruct sizes as [Hk Hg]. pose proof (pg_client _ _ _ _ _ Hpg) as Hcl.
  assert (Hrec : (exists st', ystep st st') \/ forall i q, cc_received (c_client st) !! i = Some q -> q = receiver_cnt conf i).
  { destruct (existsb (fun i => steps (cyclReceiver conf fetch [lost] i (c_client st) (c_servers st))) (seq 0 g)) eqn:E.
    - left. apply existsb_exists in E as (i & Hi%in_seq & E). destruct (cyclReceiver _ _ _ _ _ _) as [[c r]|] eqn:Er; [|done].
      eexists. eapply ystep_receive; [|exact Er]. rewrite (proj1 (ca_len _ _ _ _ _ _ Hcl)). lia.
    - right. intros i q Hq. pose proof (lookup_lt_Some _ _ _ Hq) as Hi. rewrite (proj1 (ca_len _ _ _ _ _ _ Hcl)) in Hi.
      destruct (receive_ok conf ns lost Hcr _ _ _ i Hcl Hi) as [(c & r & E' & _)|(_ & q' & Hq' & Hor)].
      + exfalso. enough (existsb (fun i => steps (cyclReceiver conf fetch [lost] i (c_client st) (c_servers st))) (seq 0 g) = true) by congruence.
        apply existsb_exists. exists i. split; [apply in_seq; lia|]. by rewrite E'.
      + assert (q' = q) as -> by congruence. destruct Hor as [->| ->]; [done|]. by apply all_to_client. }
  destruct Hrec as [|Hrec]; [done|].
  destruct (join_ok conf ns lost Hcr _ _ _ Hcl) as [(c & E & _)|[_ [Hj|(i & q & Hq & Hne)]]]; [|  |by destruct Hne; apply Hrec].
  - eexists. by eapply ystep_join.
  - destruct (forward_ok conf ns lost _ _ _ locIP Hcl) as [(c & E & _)|[_ Hle]]; [eexists; by eapply ystep_forward|].
    destruct (ca_joined _ _ _ _ _ _ Hcl Hj) as [Ec _]. lia.
Qed.
End stuck.

Lemma ynext_step A st : progress A st -> cc_processed (c_client st) < cnt -> exists st', ystep st st'.
Proof. intros Hpg Hlt. destruct (thread_or_wait A st Hpg) as [|Hw]; [done|]. by apply (client_goes A). Qed.

(** ** What the client writes *)

Lemma running_sum (P f : nat -> list Z) d q :
  P 0 = f 0 -> (forall e, P (S e) = zip_with Z.lxor (f (S e)) (P e)) -> (forall e, e <= d -> length (f e) = size) -> q < size ->
  P d !!! q = xsum (S d) (fun e => f e !!! q).
Proof.
  intros H0 HS Hf Hq. enough (length (P d) = size /\ P d !!! q = xsum (S d) (fun e => f e !!! q)) by tauto.
  induction d as [|d IH]; [by rewrite H0, Hf by done|]. destruct IH as [Hl IH]; [auto with lia|]. pose proof (Hf (S d) ltac:(lia)) as Hl2.
  rewrite HS, zip_with_lookup_total by lia. rewrite length_zip_with, Hl, Hl2, IH. split; [lia|]. apply Z.lxor_comm.
Qed.

(** The slice that comes round the ring is that of the pipeline. *)
Lemma total_partial s : s < cnt -> total s = partial conf pns (k - 1) s.
Proof.
  intros Hs. destruct sizes as [Hk Hg]. replace (k - 1) with g by lia. unfold CyclProgress.total, acc. rewrite distance_end by done.
  apply list_eq_same_length with size;
    [eapply length_partial; [apply Hcr|rewrite length_fmap; lia|done]|apply (length_psum conf ns lost Hcr); (done || lia)|].
  assert (Hown : forall y, y <= g -> length (own conf pns y s) = size) by (intros y Hy; apply (length_own conf ns lost Hcr); (done || lia)).
  intros q a b Hq <-%list_lookup_total_correct <-%list_lookup_total_correct.
  rewrite (running_sum (psum conf ns s) (fun d => own conf pns (reached g s d) s)) by (done || (intros e He; by apply Hown, reached_le)).
  rewrite (running_sum (fun d => partial conf pns d s) (fun y => own conf pns y s)) by done.
  apply (sum_way g Hg s (fun y => own conf pns y s !!! q)).
Qed.

Lemma yresult A st : progress A st -> cc_processed (c_client st) = cnt ->
  cc_file (c_client st) = concat (partial conf pns (k - 1) <$> seq 0 cnt).
Proof.
  intros Hpg E. destruct (ca_done _ _ _ _ _ _ (pg_client _ _ _ _ _ Hpg)) as [_ ->]. rewrite E. f_equal. apply list_fmap_ext.
  intros i s [-> Hi]%lookup_seq. by apply total_partial.
Qed.
End result.
