(* ===== verification/CyclWait.v ===== *)
(** * The waits of the cyclic repair (CyclMulFRWorker.cc, [cyclCollector])

    The threads of CyclRepair.v as a [scheme] of Wait.v.  [pullerMul] waits for the
    packet of the slice it has taken, [senderMul] for the next packet to send, and
    the client's [pipeForwardWorker] for the index; the end of [readerMul] and the
    lists of the servers are polled, or block in the server. *)
From Stdlib Require Import Ascii.
From stdpp Require Import strings relations functions.
From S2P Require Import Prelude Command Text Galois GF256 Jerasure Gauss Vandermonde ReedSol Encode RSUtil Config Disk Coordinator Packet DrCmd PipeRepair MulRepair MulProgress CyclSched CyclRepair CyclProgress CyclLive CyclResult Wait.

#[local] Open Scope nat_scope.
#[local] Arguments Nat.ltb : simpl never.
#[local] Arguments Nat.div : simpl never.
#[local] Arguments Nat.modulo : simpl never.

(** The mutexes and condition variables of the helper [x] and of the client. *)
Inductive ymutex := ToSendIdsUsingMtx (x : nat) | ToPullerMtx (x : nat) | ToSenderMtx (x : nat) | IndexMtx | ReaderSenderMtx.
Inductive ycond := ToPullerCV (x : nat) | ToSenderCV (x : nat) | ReaderSenderCV.
#[export] Instance ymutex_eq : EqDecision ymutex.
Proof. solve_decision. Defined.
#[export] Instance ycond_eq : EqDecision ycond.
Proof. solve_decision. Defined.

(** The client's threads: a receiver, the main one, which joins the receivers, and
    [pipeForwardWorker]. *)
Inductive ycthread := Receive (i : nat) | Join | Forward.
#[export] Instance ycthread_eq : EqDecision ycthread.
Proof. solve_decision. Defined.

Section waits.
Context `{GF : GFComplete} `{DIO : DiskIO} (conf : Config) (ns : list mnode) (_cyclPullCtx : list (list (option Z))) (_locIP : Z) (_lostFiles : list str).
Abbreviation cnt := (_packetCnt conf).
Abbreviation size := (_packetSize conf).
Abbreviation yactor := (actor thread ycthread).

Definition cycl_iterate (a : yactor) (st : ystate) : res ystate :=
  match a with
  | Helper x t =>
    n ← res_of_option Blocked (ns !! x);
    w ← res_of_option Blocked (c_workers st !! x);
    '(w, r) ← run_ythread conf t n w (c_servers st);
    Ok (mkYState (<[x := w]> (c_workers st)) r (c_client st))
  | Client (Receive i) =>
    '(c, r) ← cyclReceiver conf _cyclPullCtx _lostFiles i (c_client st) (c_servers st);
    Ok (mkYState (c_workers st) r c)
  | Client Join =>
    c ← join_receivers conf (length _lostFiles) (c_client st);
    Ok (mkYState (c_workers st) (c_servers st) c)
  | Client Forward =>
    '(c, r) ← cyclForwardWorker conf _locIP _lostFiles (c_client st) (c_servers st);
    Ok (mkYState (c_workers st) r c)
  end.

(** [pktId * nj + j] of the packet that [pullerMul] has a slice for. *)
Definition pulled_packet (n : mnode) (w : yworker) (r : redis) : option nat :=
  let nj := length (mn_jobs n) in
  let i := c_pulled w / nj in
  let j := c_pulled w mod nj in
  if c_allocated w && (i <? cnt) then
    c ← mn_jobs n !! j;
    if is_pulled (job_id c) (groupSize n) cnt i then
      rc ← mjoin (mn_prevs n !! j);
      str ← head (waiting_in r rc (tmpKey (dr_lostBlkName c)));
      sliId ← match read_int str size with Ok s => Some s | Fault _ => None end;
      m ← _sli2pkt w !! j;
      Some (default 0 (m !! sliId) * nj + j)
    else None
  else None.

Definition cycl_wait_on (a : yactor) (st : ystate) : option (ymutex * ycond) :=
  match a with
  | Helper x TPull =>
    n ← ns !! x; w ← c_workers st !! x;
    _ ← pulled_packet n w (c_servers st); Some (ToPullerMtx x, ToPullerCV x)
  | Helper x TSend =>
    n ← ns !! x; w ← c_workers st !! x;
    if c_sent w / length (mn_jobs n) <? cnt then Some (ToSenderMtx x, ToSenderCV x) else None
  | Client Forward =>
    if cc_processed (c_client st) / length _lostFiles <? cnt then Some (ReaderSenderMtx, ReaderSenderCV) else None
  | _ => None
  end.

Definition cycl_test (a : yactor) (st : ystate) : bool :=
  match a with
  | Helper x TPull =>
    default true (n ← ns !! x; w ← c_workers st !! x;
      p ← pulled_packet n w (c_servers st); Some (p <? _readCnt w))
  | Helper x TSend =>
    default true (n ← ns !! x; w ← c_workers st !! x;
      let nj := length (mn_jobs n) in Some (c_sent w / nj * nj + c_sent w mod nj <? _toSendCnt w))
  | Client Forward => cc_processed (c_client st) <? _completePacketIndex (c_client st)
  | _ => true
  end.

(** [pipeForwardWorker] makes its test with the mutex locked. *)
Definition cycl_locked_test (a : yactor) : bool := match a with Client Forward => true | _ => false end.

(** A member of the helper [x] is greater after the iteration. *)
Definition grows (f : yworker -> nat) (x : nat) (t : thread) (st : ystate) : bool :=
  match cycl_iterate (Helper x t) st with
  | Ok st' => f (c_workers st !!! x) <? f (c_workers st' !!! x)
  | Fault _ => false
  end.

(** [readerMul] locks [_toSendIdsUsingMtx] for a packet that starts here and in its
    last loop, [pullerMul] to pass a packet; a receiver locks [indexMtx] in its
    last step. *)
Definition cycl_enters (a : yactor) (st : ystate) : option ymutex :=
  match a with
  | Helper x TRead =>
    n ← ns !! x; w ← c_workers st !! x;
    let nj := length (mn_jobs n) in
    if negb (c_filled w) then None else
    if _readCnt w <? nj * cnt then
      c ← mn_jobs n !! (_readCnt w mod nj);
      if is_started (job_id c) (groupSize n) cnt (_readCnt w / nj) then Some (ToSendIdsUsingMtx x) else None
    else Some (ToSendIdsUsingMtx x)
  | Helper x TPull => if grows _toSendCnt x TPull st then Some (ToSendIdsUsingMtx x) else None
  | Client (Receive i) => match mjoin (cc_pending (c_client st) !! i) with Some (_, Some _) => Some IndexMtx | _ => None end
  | _ => None
  end.

(** [pullerMul] unlocks it before it notifies the sender. *)
Definition cycl_unlocks (a : yactor) : bool := match a with Helper _ TPull => true | _ => false end.

(** A packet read is told to the puller, one that is passed to the sender.
    ([readerMul] locks [_toPullerMtx] before [_toSendIdsUsingMtx], and here after it:
    no thread waits for one of the two while it holds the other.)  A receiver
    that has moved the index and the main thread notify [pipeForwardWorker]
    without its mutex. *)
Definition cycl_signals (a : yactor) (st : ystate) : list (signal ymutex ycond) :=
  match a with
  | Helper x t =>
    (if grows _readCnt x t st then [mkSignal (Some (ToPullerMtx x)) (ToPullerCV x) false] else []) ++
    (if grows _toSendCnt x t st then [mkSignal (Some (ToSenderMtx x)) (ToSenderCV x) false] else [])
  | Client (Receive i) =>
    match mjoin (cc_pending (c_client st) !! i) with
    | Some (newIndex, Some baseIndex) =>
      if all_completed (length _lostFiles) baseIndex newIndex (c_client st) then [mkSignal None ReaderSenderCV false] else []
    | _ => []
    end
  | Client Join => [mkSignal None ReaderSenderCV false]
  | Client Forward => []
  end.

Definition cycl_scheme : scheme ystate yactor ymutex ycond :=
  mkScheme (actors (length ns) (fun _ => [TRead; TPull; TSend]) ((Receive <$> seq 0 ((_ecK conf - 1) * length _lostFiles)) ++ [Join; Forward]))
    cycl_iterate cycl_wait_on cycl_test cycl_locked_test cycl_enters cycl_unlocks cycl_signals.
Definition cycl_rank (m : ymutex) : nat := match m with ToPullerMtx _ => 1 | ToSenderMtx _ => 2 | _ => 0 end.

(** What the iterations of a helper change of what the others wait for. *)
Definition same_reads (w w' : yworker) : Prop := c_allocated w' = c_allocated w /\ c_pulled w' = c_pulled w /\ c_sent w' = c_sent w.

Lemma pass_packet_keeps p w w' : pass_packet p w = Ok w' -> same_reads w w' /\ _sli2pkt w' = _sli2pkt w /\ _readCnt w' = _readCnt w.
Proof. unfold pass_packet. intros H. res_inv. done. Qed.

Lemma pass_started_keeps ahead w o : pass_started conf ahead w = Ok o -> same_reads w (default w o) /\ _sli2pkt (default w o) = _sli2pkt w.
Proof.
  unfold pass_started. intros H. res_inv. case_match; res_inv; [|done]. cbn. by match goal with E : pass_packet _ _ = Ok _ |- _ => apply pass_packet_keeps in E as (? & ? & _) end.
Qed.

Lemma reader_keeps n w w' : readerMul conf n w = Ok w' -> same_reads w w' /\ exists l, _sli2pkt w' = _sli2pkt w ++ l.
Proof.
  unfold readerMul, fill_tables, read_slice. intros H. destruct (negb _); [res_inv; cbn; split; [done|by eexists]|]. destruct (_ <? _).
  - res_inv. destruct (is_started _ _ _ _); res_inv; [|split; [done|exists []; by rewrite app_nil_r]].
    match goal with E : pass_started _ _ _ = Ok _ |- _ => apply pass_started_keeps in E as [Hs E]; cbn in Hs, E end.
    split; [exact Hs|]. exists []. by rewrite app_nil_r.
  - res_inv. subst. match goal with E : pass_started _ _ _ = Ok _ |- _ => apply pass_started_keeps in E as [Hs E]; cbn in Hs, E end.
    split; [exact Hs|]. exists []. by rewrite app_nil_r.
Qed.

Lemma puller_keeps n w r w' r' : pullerMul conf n w r = Ok (w', r') ->
  c_sent w' = c_sent w /\ _readCnt w' = _readCnt w /\ (forall p, pulled_packet n w r = Some p -> p < _readCnt w) /\
  (r' = r \/ exists j c rc v, mn_jobs n !! j = Some c /\ mjoin (mn_prevs n !! j) = Some rc /\ BLPOP rc (tmpKey (dr_lostBlkName c)) r = Some (v, r')).
Proof.
  unfold pullerMul, pulled_packet. destruct (c_allocated w); cbn [negb andb]; intros H; [|res_inv; simplify_eq; by split_and!; [..|left]].
  res_inv. match goal with E : (c_pulled w / _ <? _) = true |- _ => rewrite E end.
  match goal with E : mn_jobs n !! _ = Some ?v |- _ => rename v into c; pose proof E as Hj; rewrite E end. cbn [mbind option_bind].
  destruct (is_pulled _ _ _ _); cbn [negb] in *; [|res_inv; simplify_eq; by split_and!; [..|left]].
  res_inv. match goal with E : mjoin _ = Some ?v |- _ => rename v into prev; rewrite E end. cbn [mbind option_bind].
  match goal with v : list Z * redis |- _ => destruct v as [str r1] end. match goal with E : BLPOP _ _ r = Some _ |- _ => pose proof E as Hp; apply pop_inv in E as (vs & -> & _) end.
  cbn [head mbind option_bind]. res_inv. match goal with E : read_int _ _ = Ok _ |- _ => rewrite E end. cbn [mbind option_bind].
  match goal with E : _sli2pkt w !! _ = Some _ |- _ => rewrite E end. cbn [mbind option_bind].
  match goal with E : pass_packet _ _ = Ok _ |- _ => apply pass_packet_keeps in E as ((_ & _ & Es) & _ & Er); cbn in Es, Er end. simplify_eq. cbn.
  split_and!; [done|done| |right; by eexists _, _, _, _]. intros p [= <-]. by apply Nat.ltb_lt.
Qed.

Lemma sender_keeps n w r w' r' : senderMul conf n w r = Ok (w', r') ->
  let nj := length (mn_jobs n) in
  c_allocated w' = c_allocated w /\ c_pulled w' = c_pulled w /\ _readCnt w' = _readCnt w /\ _toSendCnt w' = _toSendCnt w /\
  (c_sent w / nj < cnt -> c_sent w / nj * nj + c_sent w mod nj < _toSendCnt w /\ _sli2pkt w' = _sli2pkt w) /\
  (r' = r \/ exists key p, r' = RPUSH (mn_ip n) key p r).
Proof.
  unfold senderMul. cbv zeta. intros H. res_inv. destruct (Nat.ltb_spec (c_sent w / length (mn_jobs n)) cnt) as [Hlt|Hge]; res_inv; simplify_eq; cbn; split_and!; try done.
  - intros _. split; [by apply Nat.ltb_lt|done].
  - right. by eexists _, _.
  - lia.
  - by left.
Qed.

(** What waits first for [pullerMul] stays there. *)
Definition same_heads (n : mnode) (r r' : redis) : Prop := forall j c rc v, mn_jobs n !! j = Some c -> mjoin (mn_prevs n !! j) = Some rc ->
  head (waiting_in r rc (tmpKey (dr_lostBlkName c))) = Some v -> head (waiting_in r' rc (tmpKey (dr_lostBlkName c))) = Some v.

Lemma heads_refl n r : same_heads n r r.
Proof. by intros j c rc v. Qed.

Lemma heads_push n r ip key p : same_heads n r (RPUSH ip key p r).
Proof. intros j c rc v _ _ H. rewrite waiting_push. case_decide as E; [injection E as -> ->; by destruct (waiting_in r _ _)|done]. Qed.

Lemma pulled_same n w w' r r' p : pulled_packet n w r = Some p -> c_allocated w' = c_allocated w -> c_pulled w' = c_pulled w ->
  (exists l, _sli2pkt w' = _sli2pkt w ++ l) -> same_heads n r r' -> pulled_packet n w' r' = Some p.
Proof.
  unfold pulled_packet. intros H -> -> [l ->] Hh. destruct (c_allocated w && _); [|done]. apply bind_Some in H as (c & Hc & H). rewrite Hc. cbn [mbind option_bind].
  destruct (is_pulled _ _ _ _); [|done]. apply bind_Some in H as (rc & Hrc & H). rewrite Hrc. cbn [mbind option_bind].
  apply bind_Some in H as (str & Hs & H). rewrite (Hh _ _ _ _ Hc Hrc Hs). cbn [mbind option_bind]. apply bind_Some in H as (sli & -> & H). cbn [mbind option_bind].
  apply bind_Some in H as (m & Hm & H). by rewrite (lookup_app_l_Some _ _ _ _ Hm).
Qed.
End waits.

#[local] Arguments grows : simpl never.

(** ** The ring of one block *)

Section laws.
Context `{GF : GFComplete} {GL : GF8Laws} `{DL : DiskLaws} (conf : Config) (Hpo : packets_ok conf).
Context (ns : list mnode) (lost : str) (locIP : Z) (Hcr : cring conf ns lost).
Abbreviation cnt := (_packetCnt conf).
Abbreviation k := (length ns).
Abbreviation g := (_ecK conf - 1).
Abbreviation ip_of y := (mn_ip (ns !!! y)).
Abbreviation fetch := [(fun y => Some (ip_of y)) <$> seq 0 g].
Abbreviation W := (cycl_scheme conf ns fetch locIP [lost]).
Abbreviation ystep := (ystep conf ns fetch locIP [lost]).

(** The states of the runs. *)
Definition yreached (st : ystate) : Prop := exists A, progress conf ns lost A st.

Lemma receiver_thread i : i < g -> Client (Receive i) ∈ threads W.
Proof. intros Hi. apply client_in, elem_of_app. left. apply list_elem_of_fmap_2, elem_of_seq. cbn [length]. lia. Qed.

Lemma cycl_polls a st st' : yreached st -> a ∈ threads W -> iterate W a st = Ok st' -> ystep st st'.
Proof.
  intros [A Hp] Ha E. destruct a as [x t|[i| |]]; cbn in E; res_inv.
  - destruct v1 as [w r]. injection Hk as <-. by eapply ystep_thread.
  - destruct v as [c r]. injection Hk as <-. apply ystep_receive with (x := i); [|done].
    apply client_in, elem_of_app in Ha as [(j & [= ->] & Hj%elem_of_seq)%list_elem_of_fmap|Ha]; [|set_solver].
    rewrite (proj1 (ca_len _ _ _ _ _ _ (pg_client _ _ _ _ _ Hp))). cbn [length] in Hj. lia.
  - by apply ystep_join.
  - destruct v as [c r]. injection Hk as <-. by apply ystep_forward.
Qed.

Lemma cycl_iterates st st' : yreached st -> ystep st st' -> exists a, a ∈ threads W /\ iterate W a st = Ok st'.
Proof.
  intros [A Hp] Hs. destruct Hs as [st x t n w w' r Hn Hw Hr|st x c r Hx Hr|st c Hr|st c r Hr].
  - exists (Helper x t). split; [apply actor_helper_in; split; [by eapply lookup_lt_Some|destruct t; set_solver]|].
    cbn. rewrite Hn. cbn. rewrite Hw. cbn. by rewrite Hr.
  - exists (Client (Receive x)). rewrite (proj1 (ca_len _ _ _ _ _ _ (pg_client _ _ _ _ _ Hp))) in Hx. split; [by apply receiver_thread|]. cbn. by rewrite Hr.
  - exists (Client Join). split; [apply client_in; set_solver|]. cbn in Hr |- *. by rewrite Hr.
  - exists (Client Forward). split; [apply client_in; set_solver|]. cbn. by rewrite Hr.
Qed.

Lemma ring_pull x n : ns !! x = Some n -> exists c, mn_jobs n = [c] /\ dr_lostBlkName c = lost /\ mn_prevs n = [Some (ip_of (before g x))] /\ before g x < k.
Proof.
  intros Hn. pose proof (lookup_lt_Some _ _ _ Hn) as Hx. destruct (cnode_at conf ns lost Hcr x Hx) as (n' & c & Hn' & _ & Hc & _ & _ & Hl & _).
  assert (n' = n) as -> by congruence. exists c. destruct (k_g conf ns lost Hcr) as [Hk Hg]. pose proof (before_le g Hg x ltac:(lia)).
  split_and!; [done|done| |lia]. apply (cr_prev _ _ _ Hcr x n); [done|]. apply list_lookup_lookup_total_lt. lia.
Qed.

(** A slice that has come is not sent yet. *)
Lemma pulled_unsent A st x n w p : progress conf ns lost A st -> ns !! x = Some n -> c_workers st !! x = Some w ->
  pulled_packet conf n w (c_servers st) = Some p -> c_sent w < cnt.
Proof.
  intros Hp Hn Hw Hpk. pose proof (lookup_lt_Some _ _ _ Hn) as Hx. destruct (ring_pull x n Hn) as (c & Hc & Hl & Hprev & Hb). destruct (k_g conf ns lost Hcr) as [Hk Hg].
  unfold pulled_packet in Hpk. destruct (c_allocated w && _); [|done]. rewrite Hc, Hprev in Hpk. cbn [length] in Hpk. rewrite Nat.mod_1_r in Hpk. cbn -[tmpKey] in Hpk.
  destruct (is_pulled _ _ _ _); [|done]. apply bind_Some in Hpk as (v & Hv & _). rewrite Hl in Hv.
  destruct (pg_link _ _ _ _ _ Hp (before g x) Hb) as (pend & E1 & E2). rewrite after_before in E1 by lia. rewrite E2 in Hv. destruct pend as [|s pend]; [done|].
  destruct (pending conf ns lost Hcr A st x _ Hp Hx E1 s ltac:(left)) as (Hs & _ & Hno).
  pose proof (pg_worker _ _ _ _ _ Hp x Hx) as Hwk. rewrite (list_lookup_total_correct _ _ _ Hw) in Hwk.
  destruct (not_cleaned conf ns x Hx (A x) w s Hwk Hs Hno) as [HlA _]. pose proof (wa_sent _ _ _ _ _ Hwk). lia.
Qed.

(** Nobody else takes it from its list. *)
Lemma heads_stay a st st' x n : yreached st -> a ∈ threads W -> iterate W a st = Ok st' -> a <> Helper x TPull -> ns !! x = Some n ->
  same_heads n (c_servers st) (c_servers st').
Proof.
  intros Hre Ha E Hne Hn. destruct (ring_pull x n Hn) as (cx & Hcx & Hlx & Hpx & Hbx). destruct (k_g conf ns lost Hcr) as [Hk Hg]. pose proof (lookup_lt_Some _ _ _ Hn) as Hx.
  assert (Hsame : waiting_in (c_servers st') (ip_of (before g x)) (tmpKey lost) = waiting_in (c_servers st) (ip_of (before g x)) (tmpKey lost) -> same_heads n (c_servers st) (c_servers st')).
  { intros Hq j c rc v Hj Hrc. rewrite Hcx, Hpx in *. destruct j as [|j]; [|done]. injection Hj as <-. cbn in Hrc. injection Hrc as <-. by rewrite Hlx, Hq. }
  destruct Hre as [A Hp]. pose proof (pg_client _ _ _ _ _ Hp) as Hcl. destruct a as [y t|[i| |]]; cbn in E; res_inv.
  - destruct v1 as [w r]. injection Hk0 as <-. cbn [c_servers] in *. destruct t; cbn [run_ythread] in Hm1.
    + res_inv. simplify_eq. apply heads_refl.
    + destruct (puller_keeps _ _ _ _ _ _ Hm1) as (_ & _ & _ & [->|(j & c & rc & u & Hj & Hrc & Hpop)]); [apply heads_refl|]. apply Hsame.
      destruct (ring_pull y v Hm) as (cy & Hcy & Hly & Hpy & Hby). rewrite Hcy in Hj. rewrite Hpy in Hrc. destruct j as [|j]; [|done]. injection Hj as <-. cbn in Hrc. injection Hrc as <-.
      destruct (pop_inv _ _ _ _ _ Hpop) as (vs & _ & ->). rewrite decide_False; [done|]. intros [= Ei _]. apply (ring_ip_inj conf ns lost Hcr) in Ei; [|done..].
      apply Hne. f_equal. pose proof (lookup_lt_Some _ _ _ Hm). rewrite <- (after_before g Hg x), <- (after_before g Hg y), Ei by lia. done.
    + destruct (sender_keeps _ _ _ _ _ _ Hm1) as (_ & _ & _ & _ & _ & [->|(key & p & ->)]); [apply heads_refl|apply heads_push].
  - destruct v as [c r]. injection Hk0 as <-. cbn [c_servers] in *. apply Hsame.
    assert (Hi : i < g).
    { apply client_in, elem_of_app in Ha as [(j & [= ->] & Hj%elem_of_seq)%list_elem_of_fmap|Ha]; [|set_solver]. cbn [length] in Hj. lia. }
    destruct (receive_ok conf ns lost Hcr _ _ _ i Hcl Hi) as [(c2 & r2 & E2 & _ & (_ & _ & _ & _ & _ & Hq))|[E2 _]]; rewrite E2 in Hm; [|done]. by injection Hm as <- <-.
  - apply heads_refl.
  - destruct v as [c r]. injection Hk0 as <-. destruct (forward_ok conf ns lost _ _ _ locIP Hcl) as [(c2 & E2 & _)|[E2 _]]; rewrite E2 in Hm; [|done]. injection Hm as <- <-. apply heads_refl.
Qed.

(** What another thread waits for stays, and when it has come there is a
    notification. *)
Lemma pull_stays a st st' x n w p : yreached st -> a ∈ threads W -> iterate W a st = Ok st' -> a <> Helper x TPull ->
  ns !! x = Some n -> c_workers st !! x = Some w -> pulled_packet conf n w (c_servers st) = Some p ->
  exists w', c_workers st' !! x = Some w' /\ pulled_packet conf n w' (c_servers st') = Some p /\
    (_readCnt w' = _readCnt w \/ a = Helper x TRead).
Proof.
  intros Hre Ha E Hne Hn Hw Hpk. pose proof (heads_stay a st st' x n Hre Ha E Hne Hn) as Hh. destruct Hre as [A Hp].
  pose proof (pulled_unsent A st x n w p Hp Hn Hw Hpk) as Hs.
  assert (Hstay : c_workers st' !! x = Some w -> exists w', c_workers st' !! x = Some w' /\ pulled_packet conf n w' (c_servers st') = Some p /\
    (_readCnt w' = _readCnt w \/ a = Helper x TRead)).
  { intros Hw'. exists w. split; [done|]. split; [|by left]. eapply pulled_same; [done..|exists []; by rewrite app_nil_r|done]. }
  destruct a as [y t|[i| |]]; cbn in E; res_inv; [|try (destruct v as [? ?]; injection Hk as <-); by apply Hstay..].
  destruct v1 as [w' r]. injection Hk as <-. cbn [c_workers c_servers] in *. destruct (decide (y = x)) as [->|Hyx]; [|by apply Hstay; rewrite list_lookup_insert_ne].
  assert (v = n) as -> by congruence. assert (v0 = w) as -> by congruence. exists w'. rewrite list_lookup_insert_eq by by eapply lookup_lt_Some. split; [done|]. destruct t; cbn [run_ythread] in Hm1; [..|].
  - apply bind_ok_inv in Hm1 as (w1 & Hm1 & [= -> _]). apply reader_keeps in Hm1 as [(E1 & E2 & _) El]. split; [|by right]. by eapply pulled_same.
  - done.
  - apply sender_keeps in Hm1 as (E1 & E2 & E3 & _ & Hlt & _). split; [|by left]. destruct (ring_pull x n Hn) as (c & Hc & _). rewrite Hc in Hlt. cbn [length] in Hlt.
    rewrite Nat.div_1_r in Hlt. destruct (Hlt Hs) as [_ El]. eapply pulled_same; [done..|exists []; by rewrite app_nil_r|done].
Qed.

(** The other places depend on counters of their own. *)
Lemma send_stays a st st' x n w : iterate W a st = Ok st' -> a <> Helper x TSend -> ns !! x = Some n -> c_workers st !! x = Some w ->
  exists w', c_workers st' !! x = Some w' /\ c_sent w' = c_sent w /\
    (_toSendCnt w' = _toSendCnt w \/ exists t, a = Helper x t).
Proof.
  intros E Hne Hn Hw. assert (Hstay : c_workers st' !! x = Some w -> exists w', c_workers st' !! x = Some w' /\ c_sent w' = c_sent w /\
    (_toSendCnt w' = _toSendCnt w \/ exists t, a = Helper x t)) by (intros Hw'; exists w; split_and!; [done..|by left]).
  destruct a as [y t|[i| |]]; cbn in E; res_inv; [|try (destruct v as [? ?]; injection Hk as <-); by apply Hstay..].
  destruct v1 as [w' r]. injection Hk as <-. cbn [c_workers] in *. destruct (decide (y = x)) as [->|Hyx]; [|by apply Hstay; rewrite list_lookup_insert_ne].
  assert (v = n) as -> by congruence. assert (v0 = w) as -> by congruence. exists w'. rewrite list_lookup_insert_eq by by eapply lookup_lt_Some. split; [done|]. destruct t; cbn [run_ythread] in Hm1; [..|done].
  - apply bind_ok_inv in Hm1 as (w1 & Hm1 & [= -> _]). apply reader_keeps in Hm1 as [(_ & _ & E1) _]. split; [done|right; by eexists].
  - apply puller_keeps in Hm1 as (E1 & _). split; [done|right; by eexists].
Qed.

Lemma forward_stays a st st' : yreached st -> a ∈ threads W -> iterate W a st = Ok st' -> a <> Client Forward ->
  cc_processed (c_client st') = cc_processed (c_client st) /\
  (_completePacketIndex (c_client st') = _completePacketIndex (c_client st) \/ ReaderSenderCV ∈ (sg_cv <$> signals W a st)).
Proof.
  intros _ _ E Hne. destruct a as [y t|[i| |]]; cbn in E; res_inv; [| | |done].
  - destruct v1 as [w' r]. injection Hk as <-. split; [done|by left].
  - destruct v as [c r]. injection Hk as <-. cbn [c_client signals cycl_scheme cycl_signals] in *. unfold cyclReceiver, store_packet in Hm. res_inv.
    destruct (mjoin (cc_pending (c_client st) !! i)) as [[s [b|]]|]; res_inv; simplify_eq; cbn.
    + split; [done|]. destruct (all_completed _ _ _ _); [right; set_solver|by left].
    + split; [done|by left].
    + match goal with v : list Z * redis |- _ => destruct v end. res_inv. simplify_eq. split; [done|by left].
  - unfold join_receivers in Hm. res_inv. simplify_eq. cbn. split; [done|right; set_solver].
Qed.

Lemma grown_signal f x t st st' w w' : iterate W (Helper x t) st = Ok st' -> c_workers st !! x = Some w -> c_workers st' !! x = Some w' ->
  f w < f w' -> grows conf ns fetch locIP [lost] f x t st = true.
Proof.
  intros E Hw Hw' Hlt. unfold grows. cbn [iterate cycl_scheme] in E. rewrite E, (list_lookup_total_correct _ _ _ Hw), (list_lookup_total_correct _ _ _ Hw'). by apply Nat.ltb_lt.
Qed.

Lemma cycl_tested a st st' : yreached st -> iterate W a st = Ok st' -> Wait.waits W a st = false.
Proof.
  intros [A Hp] E. unfold Wait.waits. destruct a as [x t|[i| |]]; cbn in E; res_inv; [|done..|].
  - destruct v1 as [w' r]. destruct t; cbn [run_ythread] in Hm1; [done|..]; cbn [wait_on test cycl_scheme cycl_wait_on cycl_test]; rewrite Hm, Hm0; cbn [mbind option_bind].
    + apply puller_keeps in Hm1 as (_ & _ & Hlt & _). destruct (pulled_packet _ _ _ _) as [p|]; [|done]. cbn. by rewrite (proj2 (Nat.ltb_lt _ _) (Hlt p eq_refl)).
    + apply sender_keeps in Hm1 as (_ & _ & _ & _ & Hlt & _). destruct (Nat.ltb_spec (c_sent v0 / length (mn_jobs v)) cnt) as [Hc|]; [|done].
      cbn. by rewrite (proj2 (Nat.ltb_lt _ _) (proj1 (Hlt Hc))).
  - destruct v as [c r]. cbn [wait_on test cycl_scheme cycl_wait_on cycl_test]. unfold cyclForwardWorker in Hm. res_inv.
    match goal with E : (_ <? _completePacketIndex _) = true |- _ => rewrite E end. by destruct (_ <? cnt).
Qed.

Lemma cycl_laws : wait_laws W cycl_rank 2 yreached (ywork conf) (all_ywork conf ns) (fun st => cc_processed (c_client st) = cnt).
Proof.
  split; cbn -[threads].
  - apply actors_nodup; [intros _ _; repeat constructor; set_solver|]. apply NoDup_app. split_and!; [apply NoDup_fmap; [by intros ?? [=]|apply NoDup_seq]| |repeat constructor; set_solver].
    intros a (i & -> & _)%list_elem_of_fmap. set_solver.
  - intros []; cbn; lia.
  - intros a st st' Hre Ha E. pose proof (cycl_polls a st st' Hre Ha E) as Hs. destruct Hre as [A Hp].
    destruct (ystep_progress conf Hpo ns lost locIP Hcr A st st' Hp Hs) as (A' & Hp' & Hlt). split; [by exists A'|done].
  - intros st [A Hp]. by apply (ywork_bound conf ns lost Hcr A).
  - intros st Hre Hno. pose proof Hre as [A Hp]. destruct (ca_done _ _ _ _ _ _ (pg_client _ _ _ _ _ Hp)) as [Hle _].
    destruct (ynext_step conf Hpo ns lost locIP Hcr A st Hp ltac:(lia)) as [st' Hs]. destruct (cycl_iterates st st' Hre Hs) as (a & Ha & E). by exists a, st'.
  - intros a st st' Hre _. by apply cycl_tested.
  - intros a st st' a' m c Hre Ha E Ha' Hne Hon. destruct a' as [x []|[i| |]]; cbn in Hon |- *; try done.
    + apply bind_Some in Hon as (n & Hn & Hon). apply bind_Some in Hon as (w & Hw & Hon). apply bind_Some in Hon as (p & Hpk & Hon).
      destruct (pull_stays a st st' x n w p Hre Ha E ltac:(congruence) Hn Hw Hpk) as (w' & Hw' & Hpk' & _). rewrite Hn, Hw'. cbn. by rewrite Hpk'.
    + apply bind_Some in Hon as (n & Hn & Hon). apply bind_Some in Hon as (w & Hw & Hon).
      destruct (send_stays a st st' x n w E ltac:(congruence) Hn Hw) as (w' & Hw' & Es & _). rewrite Hn, Hw'. cbn. by rewrite Es.
    + destruct (forward_stays a st st' Hre Ha E ltac:(congruence)) as [-> _]. done.
  - intros a st st' a' m c Hre Ha E Ha' Hne Hon Hf Ht. destruct a' as [x []|[i| |]]; cbn in Hon, Hf, Ht; try done.
    + apply bind_Some in Hon as (n & Hn & Hon). apply bind_Some in Hon as (w & Hw & Hon). apply bind_Some in Hon as (p & Hpk & [= <- <-]).
      destruct (pull_stays a st st' x n w p Hre Ha E ltac:(congruence) Hn Hw Hpk) as (w' & Hw' & Hpk' & Hor). rewrite Hn in Hf, Ht. cbn in Hf, Ht. rewrite Hw in Hf. rewrite Hw' in Ht.
      cbn in Hf, Ht. rewrite Hpk in Hf. rewrite Hpk' in Ht. cbn in Hf, Ht. apply Nat.ltb_ge in Hf. apply Nat.ltb_lt in Ht. destruct Hor as [Er| ->]; [lia|].
      unfold cycl_signals. rewrite (grown_signal _readCnt x TRead st st' w w' E Hw Hw' ltac:(lia)), fmap_app. apply elem_of_app. left. left.
    + apply bind_Some in Hon as (n & Hn & Hon). apply bind_Some in Hon as (w & Hw & Hon). case_match; [|done]. injection Hon as <- <-.
      destruct (send_stays a st st' x n w E ltac:(congruence) Hn Hw) as (w' & Hw' & Es & Hor). rewrite Hn in Hf, Ht. cbn in Hf, Ht. rewrite Hw in Hf. rewrite Hw' in Ht.
      cbn in Hf, Ht. rewrite Es in Ht. apply Nat.ltb_ge in Hf. apply Nat.ltb_lt in Ht. destruct Hor as [Er|[t ->]]; [lia|].
      unfold cycl_signals. rewrite (grown_signal _toSendCnt x t st st' w w' E Hw Hw' ltac:(lia)), fmap_app. apply elem_of_app. right. left.
    + case_match; [|done]. injection Hon as <- <-. destruct (forward_stays a st st' Hre Ha E ltac:(congruence)) as [Ep [Ei|Hc]]; [|done]. rewrite Ep, Ei in Ht. congruence.
  - intros a st st' sg _ _ _ _ _ s t1 t2 m1 m2 _ _ _ H1 H2. destruct t1 as [x1 []|[i1| |]], t2 as [x2 []|[i2| |]]; cbn in H1, H2; try done;
      repeat match goal with H : _ ≫= _ = Some _ |- _ => apply bind_Some in H as (? & _ & H) end; repeat case_match; congruence.
  - intros a st st' _ _ _. destruct a as [x t|[i| |]]; cbn; [|repeat case_match; done..|done].
    unfold keeps. cbn. destruct t; cbn.
    + assert (Hh : exists l, option_list (cycl_enters conf ns fetch locIP [lost] (Helper x TRead) st) = l /\ Forall (fun m => m = ToSendIdsUsingMtx x) l).
      { eexists. split; [done|]. cbn. destruct (ns !! x) as [n|]; cbn; [|constructor]. destruct (c_workers st !! x) as [w|]; cbn; [|constructor].
        destruct (negb _); cbn; [constructor|]. destruct (_ <? _); [|by repeat constructor].
        destruct (mn_jobs n !! _); cbn; [|constructor]. destruct (is_started _ _ _ _); by repeat constructor. }
      destruct Hh as (l & El & Hl). cbn in El. rewrite El. clear El.
      assert (Hr : forall d, 0 < d -> Forall (fun h => cycl_rank h < d) l) by (intros d Hd; eapply Forall_impl; [exact Hl|]; by intros ? ->).
      destruct (grows _ _ _ _ _ _readCnt _ _ _), (grows _ _ _ _ _ _toSendCnt _ _ _); cbn; split_and?; try done; intros m [= <-]; cbn [cycl_rank];
        repeat constructor; cbn [cycl_rank]; try lia; apply Hr; lia.
    + destruct (grows _ _ _ _ _ _readCnt _ _ _), (grows _ _ _ _ _ _toSendCnt _ _ _); cbn; split_and?; try done; intros m [= <-]; repeat constructor; cbn; lia.
    + destruct (grows _ _ _ _ _ _readCnt _ _ _), (grows _ _ _ _ _ _toSendCnt _ _ _); cbn; split_and?; try done; intros m [= <-]; repeat constructor; cbn; lia.
Qed.
End laws.
