(* ===== verification/CyclSystem.v ===== *)
(** * A cyclic repair from request to block

    The client, the coordinator of MulCoord.v with the cyclic scheme, the helpers
    of CyclRepair.v with the waits of CyclWait.v and the metadata put together, for
    one lost block: the client does not fail, a helper fails only if its threads
    run before they are set up, and unless a wake-up is lost there is a run on to
    the lost block. *)
From Stdlib Require Import Ascii.
From stdpp Require Import strings relations.
From S2P Require Import Prelude Command Text Galois GF256 Jerasure Gauss Vandermonde ReedSol Encode RSUtil Config Disk PathSelection Coordinator Packet Metadata DrCmd Request Hdfs3 Hdfs3Laws PipeRepair MulRepair MulProgress PipeCoord MulCoord PipeSystem MulSystem CyclSched CyclRepair CyclProgress CyclLive CyclResult Wait CyclWait.

#[local] Open Scope nat_scope.

(** ** The client's side of the reply *)

(** One address of the reply. *)
Definition cycl_fetch (_helpersIPs : list Z) (reqStr : list Z) (_ : nat) '((ctxes, cmdbase) : list (option Z) * nat) : res (list (option Z) * nat) :=
  ip ← read_uint reqStr cmdbase;
  ctx ← findCtx _helpersIPs ip;
  Ok (ctxes ++ [ctx], cmdbase + 4).

(** [sendToCoordinator] on the reply of the cyclic scheme: for every lost file the
    connections to pull from, and the requestor.  [numOfFetchIPs] is an [int]
    and compared with a [size_t]. *)
Definition read_cycl_reply (conf : Config) (_helpersIPs : list Z) (_nj : nat) (reqStr : list Z) : res (list (list (option Z)) * list Z) :=
  '(_cyclPullCtx, reqIPs, _) ← for_each (seq 0 _nj) (fun _ '(_cyclPullCtx, reqIPs, cmdbase) =>
    guard_or (Exit 1) (cmdbase <? length reqStr);;
    numOfFetchIPs ← read_int reqStr cmdbase;
    guard_or (Exit 1) ((0 <? numOfFetchIPs)%Z && (numOfFetchIPs <=? Z.of_nat (_ecN conf))%Z);;
    '(ctxes, cmdbase) ← for_each (seq 0 (Z.to_nat numOfFetchIPs)) (cycl_fetch _helpersIPs reqStr) ([], cmdbase + 4);
    guard_or (Exit 1) (cmdbase <? length reqStr);;
    ip ← read_uint reqStr cmdbase;
    Ok (_cyclPullCtx ++ [ctxes], reqIPs ++ [ip], cmdbase + 4)) ([], [], 0);
  Ok (_cyclPullCtx, reqIPs).

(** Everything up to the start of the threads. *)
Definition start_cycl_repair `{MB : MetadataBase} (conf : DRConfig) (_distributorThreadNum : nat) (dirs : Z -> blkdir)
    (junk junk' : list Z) (s : mul_coord) (_locIP : Z) (filenames : list str) :
    res (list mnode * list (list (option Z)) * list Z * mul_coord) :=
  '(_nj, ns, reply, s) ← start_helpers conf _distributorThreadNum dirs junk junk' s _locIP filenames;
  '(_cyclPullCtx, reqIPs) ← read_cycl_reply (_conf conf) (_helpersIPs (_conf conf)) _nj reply;
  Ok (ns, _cyclPullCtx, reqIPs, s).

Section repair.
Context `{GF : GFComplete} {GL : GF8Laws} `{DL : DiskLaws} `{MB : MetadataBase}.
Context (conf : DRConfig) (_distributorThreadNum : nat) (dirs : Z -> blkdir) (Hcl : cluster_conf conf _distributorThreadNum).
Abbreviation cf := (_conf conf).
Abbreviation k := (_ecK cf).
Abbreviation cnt := (_packetCnt cf).
Abbreviation size := (_packetSize cf).

(** The cyclic scheme with more than one helper and no header in the blocks,
    and a file system whose nodes do not wait for their blocks. *)
Record cycl_conf : Prop := {
  yc_policy : _DRPolicy conf = lit "ecpipe";
  yc_scheme : _ECPipePolicy conf = lit "cyclic";
  yc_fs : _fileSysType conf <> lit "HDFS";
  yc_k : 1 < k <= S (_ecN cf);
  yc_skip : _packetSkipSize cf = 0;
  yc_cnt : 0 < cnt /\ (Z.of_nat cnt < 2^31)%Z
}.

Context (Hconf : cycl_conf) (stripe : list str) (holder : str -> Z) (disk : str -> list Z) (f : str) (ip : Z).
Context (Hml : mul_lost conf stripe holder [f] ip) (Hmd : mul_disks conf dirs stripe holder disk [f]) (Hf : is_u32 (holder f)).

(** ** The reply *)

Section answered.
Context (helpers losts : list (Z * str)) (st : gmap str Z) (coefs : str -> gmap str Z).
Context (Han : answer conf stripe holder disk [f] ip helpers losts st coefs).
Abbreviation ns := (mnodes conf disk ip helpers losts coefs).

Lemma one_lost : losts = [(holder f, f)].
Proof. apply Permutation_singleton_r. exact (an_losts _ _ _ _ _ _ _ _ _ _ Han). Qed.

Lemma length_ns : length ns = k.
Proof. unfold mnodes. by rewrite length_fmap, length_seq. Qed.

Lemma ring_node_at x : x < k -> ns !!! x = mnode_at conf disk ip helpers losts coefs x.
Proof. intros Hx. apply list_lookup_total_correct. unfold mnodes. by rewrite list_lookup_fmap, lookup_seq_lt. Qed.

Lemma helper_addr x : x < k -> (helpers !!! x).1 ∈ _helpersIPs cf /\ is_u32 (helpers !!! x).1.
Proof.
  intros Hx. assert (Hin : helpers !!! x ∈ helpers) by (apply list_elem_of_lookup_total_2; by rewrite (an_len _ _ _ _ _ _ _ _ _ _ Han)).
  destruct (an_in _ _ _ _ _ _ _ _ _ _ Han _ Hin) as (H1 & H2 & H3 & H4). rewrite H3 in H4 |- *. by destruct (ml_helper _ _ _ _ _ Hml _ H1 H2 H4) as (? & ? & _).
Qed.

(** The client finds all helpers but the last. *)
Lemma cycl_reply_read :
  read_cycl_reply cf (_helpersIPs cf) 1 (cycl_reply_bytes conf helpers (holder f)) =
    Ok ([(fun y => Some (mn_ip (ns !!! y))) <$> seq 0 (k - 1)], [holder f]).
Proof.
  destruct (yc_k Hconf) as [Hk Hn]. pose proof (rc_k _ _ Hcl) as Hk2. pose proof (an_len _ _ _ _ _ _ _ _ _ _ Han) as Hlen.
  set (addrs := concat ((fun it : Z * str => le32 it.1) <$> take (k - 1) helpers)).
  assert (H4 : forall l : list (Z * str), length (concat ((fun it => le32 it.1) <$> l)) = 4 * length l).
  { induction l as [|it l IH]; [done|]. cbn [fmap list_fmap concat]. rewrite length_app, length_le32, IH. cbn. lia. }
  assert (Ha : length addrs = 4 * (k - 1)) by (unfold addrs; rewrite H4, length_take; lia).
  set (bs := cycl_reply_bytes conf helpers (holder f)). assert (Hb : bs = le32 (Z.of_nat (k - 1)) ++ addrs ++ le32 (wrap_s32 (holder f))) by done.
  assert (Hbl : length bs = 4 * (k - 1) + 8) by (rewrite Hb, !length_app, !length_le32, Ha; lia).
  unfold read_cycl_reply. cbn [seq for_each]. rewrite (proj2 (Nat.ltb_lt _ _)) by lia. cbn [guard_or]. rewrite bind_ok.
  assert (E0 : read_int bs 0 = Ok (Z.of_nat (k - 1))) by (rewrite Hb; apply read_int_0; unfold is_s32; lia).
  rewrite E0, bind_ok, (proj2 (Z.ltb_lt _ _)), (proj2 (Z.leb_le _ _)) by lia. cbn [andb guard_or]. rewrite bind_ok, Nat2Z.id.
  destruct (for_each_total (fun n '((ctxes, cmdbase) : list (option Z) * nat) => ctxes = (fun y => Some (mn_ip (ns !!! y))) <$> seq 0 n /\ cmdbase = 4 + 4 * n)
    (seq 0 (k - 1)) (cycl_fetch (_helpersIPs cf) bs) ([], 0 + 4)) as ([ctxes cmdbase] & E & -> & ->).
  - done.
  - intros y z [ctxes cmdbase] [-> Hy]%lookup_seq [-> ->]. cbn [Nat.add]. destruct (helper_addr y ltac:(lia)) as [Hin Hu]. unfold cycl_fetch.
    assert (Ey : helpers !! y = Some (helpers !!! y)) by (apply list_lookup_lookup_total_lt; lia).
    assert (Et : take (k - 1) helpers = take y helpers ++ (helpers !!! y) :: drop (S y) (take (k - 1) helpers)).
    { rewrite <- (take_drop_middle (take (k - 1) helpers) y (helpers !!! y)) at 1; [by rewrite take_take, Nat.min_l by lia|]. by rewrite lookup_take_lt by lia. }
    assert (Er : read_uint bs (4 + 4 * y) = Ok (helpers !!! y).1).
    { rewrite Hb. unfold addrs. rewrite Et, fmap_app, fmap_cons, concat_app. cbn [concat]. rewrite <- !app_assoc. rewrite (app_assoc (le32 _)).
      apply read_uint_at; [|done]. rewrite length_app, length_le32, H4, length_take. lia. }
    change (S (S (S (S (4 * y))))) with (4 + 4 * y). rewrite Er, bind_ok, findCtx_sorted, bind_ok by (done || apply Hcl). eexists. split; [done|]. split; [|lia].
    rewrite seq_S, fmap_app. cbn [fmap list_fmap Nat.add]. by rewrite ring_node_at by lia.
  - rewrite E, bind_ok, length_seq, (proj2 (Nat.ltb_lt _ _)) by lia. cbn [guard_or]. rewrite bind_ok.
    assert (Er : read_uint bs (4 + 4 * (k - 1)) = Ok (holder f)).
    { rewrite Hb, app_assoc. unfold read_uint. rewrite <- (app_nil_r (le32 (wrap_s32 _))). rewrite slice_skip by (rewrite length_app, length_le32; lia).
      rewrite length_app, length_le32, Ha, Nat.sub_diag. change 4 with (length (le32 (wrap_s32 (holder f)))). rewrite slice_here. cbn [res_of_option].
      by rewrite bind_ok, de32u_le32, wrap_u32_s32, wrap_u32_id. }
    by rewrite Er.
Qed.

(** The helpers are a ring. *)
Lemma ring_of : cring cf ns f.
Proof.
  destruct (yc_k Hconf) as [Hk _]. pose proof (rc_k _ _ Hcl) as Hk2. split.
  - rewrite length_ns. lia.
  - apply Hconf.
  - apply Hconf.
  - assert (Hj : losts !! 0 = Some (holder f, f)) by by rewrite one_lost.
    exact (single_pipeline conf _distributorThreadNum dirs Hcl stripe holder disk [f] ip Hml Hmd helpers losts st coefs Han 0 _ Hj).
  - intros n (x & -> & _)%list_elem_of_fmap. unfold mnode_at. cbn [mn_jobs]. rewrite one_lost. by eexists.
  - intros x n m Hn Hm. unfold mnodes in Hn, Hm. rewrite list_lookup_fmap in Hn, Hm.
    apply fmap_Some in Hn as (y & [-> Hy]%lookup_seq & ->). apply fmap_Some in Hm as (z & [-> Hz]%lookup_seq & ->). cbn [Nat.add].
    unfold mnode_at. cbn [mn_prevs mn_ip]. rewrite one_lost. cbn. unfold before. case_decide as E; destruct (Nat.eqb_spec x 0); (done || lia).
Qed.
End answered.

Context (HL : MetadataLaws k (cnt * size) stripe holder (covered conf disk)).

(** Everything up to the threads. *)
Lemma cycl_starts junk junk' s : length (request_bytes ip [f]) <= length junk ->
  exists helpers losts st coefs s', answer conf stripe holder disk [f] ip helpers losts st coefs /\
    let ns := mnodes conf disk ip helpers losts coefs in
    start_cycl_repair conf _distributorThreadNum dirs junk junk' s ip [f] =
      Ok (ns, [(fun y => Some (mn_ip (ns !!! y))) <$> seq 0 (k - 1)], [holder f], s').
Proof.
  intros Hj. destruct (queues_listed (_helpersIPs cf) _distributorThreadNum (rc_threads _ _ Hcl) (rc_sorted _ _ Hcl) (rc_few _ _ Hcl)) as (ctx & _ & Hfst & _).
  destruct (helpers_start conf _distributorThreadNum dirs Hcl stripe holder disk [f] ip Hml Hmd HL (yc_policy Hconf) (or_intror (yc_scheme Hconf)) (yc_fs Hconf)
    junk junk' s (fun helpers => cycl_reply_bytes conf helpers (holder f)) Hj) as (helpers & losts & st & coefs & s' & Han & E).
  { intros helpers losts st coefs store Han _. rewrite (yc_scheme Hconf), bool_decide_false by done.
    pose proof (answer_given conf _distributorThreadNum dirs Hcl stripe holder disk [f] ip Hml Hmd helpers losts st coefs Han ctx Hfst) as Hjg.
    apply (cycl_replied conf ctx ip losts helpers coefs st Hjg); [by apply (one_lost helpers losts st coefs)|done]. }
  exists helpers, losts, st, coefs, s'. split; [exact Han|]. cbv zeta. unfold start_cycl_repair. rewrite E, bind_ok. change (length [f]) with 1.
  by rewrite (cycl_reply_read helpers losts st coefs Han).
Qed.

(** ** The whole repair *)

(** What a cyclic repair promises of the threads with their waits (CyclWait.v). *)
Definition cycl_repairs (ns : list mnode) (_cyclPullCtx : list (list (option Z))) : Prop :=
  let W := cycl_scheme cf ns _cyclPullCtx ip [f] in
  forall st sp i ws, ystarted cf ns f st -> runs (wstep W sp) i (wstart st) ws ->
    ~ client_crash cf _cyclPullCtx ip [f] (polled ws) /\
    (forall x, helper_crash cf ns (polled ws) x -> ~ set_up (c_workers (polled ws) !!! x)) /\
    i <= all_ywork cf ns /\ ends W ws /\
    (sp = true \/ runs (in_time W sp) i (wstart st) ws ->
      exists j ws', runs (wstep W sp) j ws ws' /\ cc_processed (c_client (polled ws')) = cnt) /\
    (cc_processed (c_client (polled ws)) = cnt -> cc_file (c_client (polled ws)) = disk f).

Lemma cycl_repair junk junk' s : length (request_bytes ip [f]) <= length junk ->
  exists ns _cyclPullCtx s', start_cycl_repair conf _distributorThreadNum dirs junk junk' s ip [f] = Ok (ns, _cyclPullCtx, [holder f], s') /\
    cycl_repairs ns _cyclPullCtx.
Proof.
  intros Hj. destruct (cycl_starts junk junk' s Hj) as (helpers & losts & st0 & coefs & s' & Han & E). cbv zeta in E. eexists _, _, s'. split; [exact E|].
  set (ns := mnodes conf disk ip helpers losts coefs) in *. pose proof (ring_of helpers losts st0 coefs Han : cring cf ns f) as Hcr. pose proof (rc_packets _ _ Hcl) as Hpo.
  intros st sp i ws Hst Hrun. destruct (ystarted_progress cf ns f Hcr st Hst) as [Hp H0].
  destruct (wait_runs (cycl_laws cf Hpo ns f ip Hcr) st sp i ws (ex_intro _ _ Hp) Hrun) as ([A Hp'] & Hi & He & Hgo). split_and!; [| |done..|].
  - by apply (client_safe cf ns f ip Hcr A).
  - intros x. by apply (crash_setup cf Hpo ns f Hcr A).
  - intros Ed. rewrite (yresult cf ns f Hcr A _ Hp' Ed).
    assert (Hj0 : losts.*2 !! 0 = Some f) by by rewrite (one_lost helpers losts st0 coefs Han).
    pose proof (single_sum conf _distributorThreadNum dirs Hcl stripe holder disk [f] ip Hml Hmd helpers losts st0 coefs Han 0 f Hj0) as Es.
    rewrite (yc_skip Hconf) in Es. exact Es.
Qed.
End repair.

(** ** With the metadata of HDFS 3 *)

Section hdfs3.
Context `{GF : GFComplete} {GL : GF8Laws} `{DL : DiskLaws} (talloc : nat -> option (list Z)) (Hta : forall n, exists l, talloc n = Some l /\ length l = n).
Context (random_shuffle : nat -> list (Z * str) -> list (Z * str)) (Hsh : forall i s, random_shuffle i s ≡ₚ s).
Context (conf : DRConfig) (_distributorThreadNum : nat) (Hcl : cluster_conf conf _distributorThreadNum) (Hconf : cycl_conf conf).
Context (rackInfos : gmap Z str) (cmdResult : str) (blks : gset str) (stripe2Blk : list (str * list str)).
Context (rs : list (option (Z * str))) (holder : str -> Z).
Abbreviation k := (_ecK (_conf conf)).
Abbreviation covered_size := (_packetCnt (_conf conf) * _packetSize (_conf conf)).

(** C5: The whole of a cyclic repair of one block with HDFS 3, for any
    [k >= 2, m >= 1] with [k + m <= 256].  The coordinator makes the helpers a
    ring and tells the client all but the last; each helper but the first starts
    the slices of its number and adds to the others.  The threads wait as in the
    code: [pullerMul] and [senderMul] test a counter without its mutex and then
    sleep, so that a wake-up can come in between and be lost.  Whatever the
    interleaving, no thread of the client fails; a thread of a helper fails only
    while that helper is not set up; there are at most [all_ywork] iterations, and
    every run ends but for spurious wake-ups; if sleepers may wake up by
    themselves, or no thread was caught between its test and its sleep, there is
    a run on to the complete block, with no iteration that fails; and when it is
    complete it has exactly the bytes of the lost block. *)
Theorem hdfs3_cycl_repair m :
  0 < m -> k + m <= 256 -> listing_ok k m cmdResult blks stripe2Blk rs holder ->
  exists encMat h, reed_sol_vandermonde_coding_matrix talloc k m 8 = Ok (Some encMat) /\
    let u := new_RSUtil k (m + k) encMat in
    GetMetadata u k (m + k) cmdResult (reply_of <$> rs) = Ok h /\
    forall l f ip disk dirs data junk junk' s, l ∈ stripe2Blk.*2 -> mul_lost conf l holder [f] ip -> mul_disks conf dirs l holder disk [f] -> is_u32 (holder f) ->
      (forall c, c < k -> region covered_size (data !!! c)) ->
      (forall i b, l !! i = Some b -> covered conf disk b = stripe_block k covered_size (complete_enc_mat k (m + k) encMat) data i) ->
      length (request_bytes ip [f]) <= length junk ->
      exists ns _cyclPullCtx s',
        start_cycl_repair (MB := hdfs3 random_shuffle (_shuffle (_conf conf)) rackInfos u h) conf _distributorThreadNum dirs junk junk' s ip [f] =
          Ok (ns, _cyclPullCtx, [holder f], s') /\
        cycl_repairs conf disk f ip ns _cyclPullCtx.
Proof.
  intros Hm Hkm Hli. pose proof (rc_k _ _ Hcl) as Hk.
  destruct (hdfs3_ready talloc Hta random_shuffle Hsh (_shuffle (_conf conf)) rackInfos k m ltac:(lia) Hm Hkm cmdResult blks stripe2Blk rs holder Hli)
    as (encMat & h & H1 & H2 & H3).
  exists encMat, h. split; [exact H1|]. split; [exact H2|]. intros l f ip disk dirs data junk junk' s Hl Hml Hmd Hf Hd Hcont Hj.
  apply (cycl_repair conf _distributorThreadNum dirs Hcl Hconf l holder disk f ip Hml Hmd Hf); [|exact Hj].
  exact (H3 l covered_size data (covered conf disk) Hl Hd Hcont).
Qed.
End hdfs3.

(** ** A lost block of a (4, 2) stripe *)

Section example.
Definition four_cycl : DRConfig := mkDRConfig four (lit "ecpipe") (lit "cyclic") (lit "HDFS3") false.

Lemma example_cycl_conf : cluster_conf four_cycl 1 /\ cycl_conf four_cycl.
Proof. split; [destruct example_cluster; by split|]. split; (done || cbn; lia). Qed.

(** The node 1 is the client and has lost its block. *)
Lemma example_cycl_lost : mul_lost four_cycl example_stripe example_holder [example_lost] 1.
Proof.
  split.
  - done.
  - cbn. unfold MAX_ECK. lia.
  - apply NoDup_singleton.
  - intros f ->%list_elem_of_singleton. split; [decided|discriminate].
  - exact example_nodes.
  - exists [blk_no 90; blk_no 89]. split; [decided|]. split; [done|].
    intros b [->|[->|H%not_elem_of_nil]%elem_of_cons]%elem_of_cons; [split_and!; decided..|done].
  - intros b Hb Hnb _. destruct (example_helper b Hb) as (H1 & H2 & H3); [intros ->; apply Hnb; left|].
    split_and!; [exact H1|unfold is_u32; lia|]. intros f ->%list_elem_of_singleton. rewrite H3. change (length example_lost) with 24. unfold COMMAND_MAX_LENGTH. lia.
  - unfold is_u32. lia.
Qed.

Lemma example_cycl_disks : mul_disks four_cycl example_dirs example_stripe example_holder example_disk [example_lost].
Proof.
  split.
  - intros b Hin _. destruct (example_file b Hin) as (H1 & H2 & H3). split; [unfold find_block; by rewrite H1|]. split; [|exact H3]. rewrite H2. cbn. lia.
  - intros f ->%list_elem_of_singleton. apply example_file. decided.
Qed.

Lemma hdfs3_cycl_repair_witness :
  exists h ns _cyclPullCtx s, GetMetadata (new_RSUtil 2 4 [1; 1; 1; 143]%Z) 2 4 example_listing (reply_of <$> example_reports) = Ok h /\
    start_cycl_repair (MB := hdfs3 (fun _ l => l) false ∅ (new_RSUtil 2 4 [1; 1; 1; 143]%Z) h) four_cycl 1 example_dirs (zeros 1024) [] (mkMulCoord ∅ None) 1 [example_lost] =
      Ok (ns, _cyclPullCtx, [1%Z], s) /\
    cycl_repairs four_cycl example_disk example_lost 1 ns _cyclPullCtx.
Proof.
  destruct (hdfs3_cycl_repair (fun n => Some (replicate n 77%Z)) ltac:(intros n; eexists; split; [reflexivity|apply length_replicate])
    (fun _ l => l) ltac:(reflexivity) four_cycl 1 (proj1 example_cycl_conf) (proj2 example_cycl_conf) ∅ example_listing example_parsed.1 example_parsed.2 example_reports example_holder
    2 ltac:(lia) ltac:(cbn; lia) example_listing_ok) as (encMat & h & H1 & H2 & H3).
  apply example_matrix in H1. subst encMat.
  destruct (H3 example_stripe example_lost 1%Z example_disk example_dirs example_data (zeros 1024) [] (mkMulCoord ∅ None)
    ltac:(rewrite example_parsed_stripes; left) example_cycl_lost example_cycl_disks ltac:(vm_compute; by split) example_regions example_codeword) as (ns & _cyclPullCtx & s & H4 & H5).
  - rewrite length_request. unfold zeros. rewrite length_replicate. vm_compute. lia.
  - exists h, ns, _cyclPullCtx, s. split; [exact H2|]. split; [exact H4|exact H5].
Defined.
End example.
