(* ===== verification/CyclFaults.v ===== *)
(** * Where the cyclic repair goes wrong

    What CyclSystem.v leaves out, as the code has it: threads that run before
    their helper is set up, the sender of a helper with several jobs, and the
    client of several lost blocks. *)
From Stdlib Require Import Ascii.
From stdpp Require Import strings relations.
From S2P Require Import Prelude Command Text Galois GF256 Jerasure Gauss Vandermonde ReedSol Encode RSUtil Config Disk Coordinator Packet DrCmd PipeRepair MulRepair MulProgress CyclSched CyclRepair.

#[local] Open Scope nat_scope.

(** ** The setup of a helper *)

(** C35: The threads of a cyclic helper run before it is set up.  The first
    helper of the ring fails when [pullerMul] finds a packet at the last one
    before [readerMul] has filled [_sli2pkt]; every other one when [readerMul]
    has read its first packet before [doProcess] has allocated [_toSendIds]. *)
Theorem cycl_race `{GF : GFComplete} `{DL : DiskLaws} (conf : Config) (n0 n1 : mnode) (c0 c1 : dr_cmd) (prev : Z) (p : list Z) (vs : list (list Z)) (s : Z) (r : redis) :
  packets_ok conf -> 1 < _ecK conf -> _packetSkipSize conf = 0 ->
  mn_jobs n0 = [c0] -> mn_prevs n0 = [Some prev] -> job_id c0 = 0 -> 0 < groupSize n0 -> 0 < _packetCnt conf ->
  waiting_in r prev (tmpKey (dr_lostBlkName c0)) = p :: vs -> read_int p (_packetSize conf) = Ok s ->
  mn_jobs n1 = [c1] -> 0 < job_id c1 <= groupSize n1 -> groupSize n1 <= _packetCnt conf -> blk_file conf (mn_file n1) ->
  (exists w, run_ythread conf TPull n0 new_yworker r = Ok (w, r) /\ run_ythread conf TPull n0 w r = Fault Undef) /\
  (exists w, run_ythread conf TRead n1 new_yworker r = Ok (w, r) /\ run_ythread conf TRead n1 w r = Fault Undef).
Proof.
  intros Hpo Hk Hskip Hj0 Hp0 Hi0 Hg0 Hcnt Hw Hs Hj1 Hi1 Hg1 [Hlen Hby]. split.
  - eexists. split; [reflexivity|]. cbn [run_ythread]. unfold pullerMul. cbn [c_allocated c_pulled new_yworker negb].
    rewrite Hj0. cbn [length]. rewrite Nat.div_1_r, Nat.mod_1_r, (proj2 (Nat.ltb_lt 0 (_packetCnt conf))) by done. cbn [guard_or]. rewrite bind_ok.
    rewrite (proj2 (Nat.ltb_lt 0 _)) by done. cbn [guard_or]. rewrite bind_ok. cbn [lookup list_lookup res_of_option]. rewrite bind_ok.
    unfold is_pulled. rewrite Hi0, Hp0. cbn [Nat.eqb orb negb lookup list_lookup mjoin option_join res_of_option]. rewrite bind_ok.
    destruct (pop_waiting _ _ _ _ _ Hw) as (r' & -> & _). cbn [res_of_option]. rewrite bind_ok, Hs. reflexivity.
  - eexists. split.
    + cbn [run_ythread]. unfold readerMul, fill_tables. cbn [c_filled new_yworker negb]. rewrite (proj2 (Nat.ltb_lt 0 _)) by lia. reflexivity.
    + cbn [run_ythread]. unfold readerMul. cbn [c_filled _readCnt new_yworker negb]. rewrite Hj1. cbn [length fmap list_fmap app].
      rewrite (proj2 (Nat.ltb_lt 0 _)) by lia. unfold read_slice. rewrite Hj1. cbn [_readCnt _pkt2sli length].
      rewrite Nat.div_1_r, Nat.mod_1_r. cbn [lookup list_lookup res_of_option app _pkt2sli new_yworker]. rewrite !bind_ok.
      rewrite slice_order_at by lia. cbn [res_of_option]. rewrite bind_ok. set (sli := slice_at _ _ _ 0).
      assert (Hsl : sli < _packetCnt conf) by (apply slice_lt; lia). pose proof (po_base _ Hpo) as Hbase. rewrite Hskip in Hlen, Hbase.
      rewrite bool_decide_true by (unfold is_s32; nia). cbn [guard_or]. rewrite bind_ok, read_packet, bind_ok by (first [apply length_replicate|nia]).
      destruct (pktOutput_ok conf 0 Hpo Hcnt) as [b ->]. rewrite bind_ok.
      assert (Hst : is_started (job_id c1) (groupSize n1) (_packetCnt conf) 0 = true).
      { unfold is_started, lastGroupBase. rewrite Nat.Div0.mod_0_l. pose proof (Nat.mod_upper_bound (_packetCnt conf) (groupSize n1) ltac:(lia)).
        rewrite (proj2 (Nat.eqb_neq (job_id c1) 0)), (proj2 (Nat.ltb_lt 0 _)) by lia.
        cbn. done. }
      rewrite Hst. rewrite (proj2 (orb_true_iff _ _)) by (right; apply Nat.ltb_lt; cbn [tmpQueue new_yworker length]; lia). cbn [guard_or]. rewrite bind_ok.
      unfold pass_started. rewrite (proj2 (Nat.ltb_lt 1 (_ecK conf))) by done. cbn [guard_or]. rewrite bind_ok. reflexivity.
Qed.

(** Two helpers of a ring of two, and a packet of the second. *)
Definition two_conf : Config := mkConfig 2 4 8 0 2 [1; 2; 3; 4]%Z 9 0 false false [] 0 [] 0 [].
Definition first_node : mnode := mkMNode 3 [mkDrCmd 2 1 4 4 0 3 (lit "lost") (lit "a")] (zeros 16) [Some 4%Z].
Definition second_node : mnode := mkMNode 4 [mkDrCmd 2 1 3 3 1 7 (lit "lost") (lit "b")] (zeros 16) [Some 3%Z].
Definition second_sent : redis := RPUSH 4 (tmpKey (lit "lost")) (zeros 12) ∅.

Lemma cycl_race_witness :
  (exists w, run_ythread two_conf TPull first_node new_yworker second_sent = Ok (w, second_sent) /\
    run_ythread two_conf TPull first_node w second_sent = Fault Undef) /\
  (exists w, run_ythread two_conf TRead second_node new_yworker second_sent = Ok (w, second_sent) /\
    run_ythread two_conf TRead second_node w second_sent = Fault Undef).
Proof.
  assert (Hpo : packets_ok two_conf) by (split; [reflexivity|right; cbn; lia|cbn; lia]).
  assert (Hblk : blk_file two_conf (mn_file second_node)) by (split; [cbn; lia|apply Forall_replicate; unfold is_byte; lia]).
  eapply (cycl_race two_conf first_node second_node _ _ 4 (zeros 12) [] 0 second_sent Hpo); try reflexivity; try (vm_compute; lia); done.
Defined.

(** ** The client of several lost blocks *)

(** The iterations of [pipeForwardWorker], one after the other. *)
Definition forward_n (conf : Config) (_locIP : Z) (_lostFiles : list str) (n : nat) (cr : cclient * redis) : res (cclient * redis) :=
  for_each (seq 0 n) (fun _ '((c, r) : cclient * redis) => cyclForwardWorker conf _locIP _lostFiles c r) cr.

(** Between them only [_processedPacket] changes, up to [_completePacketIndex]. *)
Lemma forward_bound conf _locIP _lostFiles n c r c' r' :
  forward_n conf _locIP _lostFiles n (c, r) = Ok (c', r') -> cc_processed c <= _completePacketIndex c ->
  cc_processed c' <= _completePacketIndex c' /\ _completePacketIndex c' = _completePacketIndex c /\ cc_received c' = cc_received c /\ cc_joined c' = cc_joined c.
Proof.
  unfold forward_n. generalize (seq 0 n). intros l. revert c r. induction l as [|i l IH]; intros c r E Hle; [by injection E as <- <-|].
  cbn [for_each] in E. destruct (cyclForwardWorker conf _locIP _lostFiles c r) as [[c1 r1]|e] eqn:E1; [|done]. rewrite bind_ok in E.
  assert (H1 : cc_processed c1 <= _completePacketIndex c1 /\ _completePacketIndex c1 = _completePacketIndex c /\ cc_received c1 = cc_received c /\ cc_joined c1 = cc_joined c).
  { unfold cyclForwardWorker in E1. destruct (_ <? _packetCnt conf); [|done]. cbn [guard_or] in E1. rewrite bind_ok in E1.
    destruct (Nat.ltb_spec (cc_processed c) (_completePacketIndex c)) as [Hlt|]; [|done]. cbn [guard_or] in E1. rewrite bind_ok in E1.
    destruct (cc_contents c !! _) as [pkt|]; [|done]. cbn [res_of_option] in E1. rewrite bind_ok in E1. destruct (_ =? 0); [by injection E1 as <- <-|].
    destruct (_lostFiles !! _) as [f|]; [|done]. cbn [res_of_option] in E1. rewrite bind_ok in E1. by injection E1 as <- <-. }
  destruct H1 as (H1 & H2 & H3 & H4). destruct (IH c1 r1 E H1) as (H5 & H6 & H7 & H8). split_and!; congruence.
Qed.

(** C34: [cyclCollector] of several lost blocks can end in a deadlock.  When all its
    receivers have finished, every packet has come, but it sets
    [_completePacketIndex] to the number of packets of one block.  Unless
    [pipeForwardWorker] was beyond it before, it comes to that index, and then no
    thread of the client can go on, with packets of the lost blocks left that
    are not written. *)
Theorem cycl_client_stuck (conf : Config) (fetch : list (list (option Z))) (_locIP : Z) (_lostFiles : list str) (c : cclient) (r : redis) :
  1 < length _lostFiles -> 0 < _packetCnt conf -> cc_joined c = false ->
  (forall x q, cc_received c !! x = Some q -> q = receiver_cnt conf (x / length _lostFiles)) ->
  cc_processed c <= _packetCnt conf ->
  exists c', join_receivers conf (length _lostFiles) c = Ok c' /\
    forall n c'' r', forward_n conf _locIP _lostFiles n (c', r) = Ok (c'', r') ->
      cc_processed c'' <= _packetCnt conf < _packetCnt conf * length _lostFiles /\
      (forall x v, cyclReceiver conf fetch _lostFiles x c'' r' <> Ok v) /\
      (forall v, join_receivers conf (length _lostFiles) c'' <> Ok v) /\
      (cc_processed c'' = _packetCnt conf -> forall v, cyclForwardWorker conf _locIP _lostFiles c'' r' <> Ok v).
Proof.
  intros Hnj Hcnt Hj Hrec Hp. unfold join_receivers at 1. rewrite Hj. cbn [negb andb].
  assert (Hall : forallb (fun p => p.2 =? receiver_cnt conf (p.1 / length _lostFiles)) (zip (seq 0 (length (cc_received c))) (cc_received c)) = true).
  { apply forallb_forall. intros [x q] Hin. apply list_elem_of_In, list_elem_of_lookup in Hin as [i Hi]. apply lookup_indexed in Hi as [-> Hq].
    cbn [fst snd] in *. by apply Nat.eqb_eq, Hrec. }
  rewrite Hall. cbn [guard_or]. rewrite bind_ok. eexists. split; [reflexivity|]. intros n c' r' E.
  destruct (forward_bound _ _ _ _ _ _ _ _ E Hp) as (H1 & H2 & H3 & H4). cbn [_completePacketIndex cc_received cc_joined] in H2, H3, H4. rewrite H2 in H1. split_and!.
  - done.
  - nia.
  - intros x v. unfold cyclReceiver. rewrite H3. destruct (cc_received c !! x) as [q|] eqn:Hq; cbn [res_of_option]; [|done].
    rewrite bind_ok, (Hrec x q Hq), Nat.ltb_irrefl. done.
  - intros v. unfold join_receivers. rewrite H4. done.
  - intros Ep v. unfold cyclForwardWorker. rewrite Ep, H2, Nat.ltb_irrefl. destruct (_ <? _); done.
Qed.

(** The receivers of two blocks with two helpers: the second block comes first, of
    both the second packet. *)
Definition both_lost : list str := [lit "x"; lit "y"].
Definition both_sent : redis := RPUSH 3 (lit "y") (zeros 8 ++ le32 0) (RPUSH 3 (lit "y") (zeros 8 ++ le32 1) (RPUSH 3 (lit "x") (zeros 8 ++ le32 0) (RPUSH 3 (lit "x") (zeros 8 ++ le32 1) ∅))).
Definition both_fetch : list (list (option Z)) := [[Some 3%Z]; [Some 3%Z]].

(** The receivers, their end, and what [pipeForwardWorker] does then. *)
Definition both_received : res (cclient * redis) :=
  c ← cyclCollector two_conf 2;
  for_each [1; 1; 1; 1; 1; 1; 0; 0; 0; 0; 0; 0] (fun x '((c, r) : cclient * redis) => cyclReceiver two_conf both_fetch both_lost x c r) (c, both_sent).
Definition both_joined : res (cclient * redis) := '(c, r) ← both_received; c ← join_receivers two_conf 2 c; forward_n two_conf 1 both_lost 2 (c, r).

Lemma cycl_client_stuck_witness : exists c r, both_joined = Ok (c, r) /\ cc_processed c = 2 /\
  (forall x v, cyclReceiver two_conf both_fetch both_lost x c r <> Ok v) /\
  (forall v, join_receivers two_conf 2 c <> Ok v) /\ (forall v, cyclForwardWorker two_conf 1 both_lost c r <> Ok v).
Proof.
  assert (H1 : match both_received with Ok (c, _) => (cc_joined c, cc_received c, cc_processed c) = (false, [2; 2], 0) | Fault _ => False end) by (vm_compute; reflexivity).
  assert (H2 : match both_joined with Ok (c, _) => cc_processed c = 2 | Fault _ => False end) by (vm_compute; reflexivity).
  unfold both_joined in *. destruct both_received as [[c r]|]; [|done]. injection H1 as Hj Hr Hp. rewrite bind_ok in *.
  destruct (cycl_client_stuck two_conf both_fetch 1 both_lost c r ltac:(cbn; lia) ltac:(cbn; lia) Hj) as (c1 & E1 & Hc).
  - intros x q Hq. rewrite Hr in Hq. destruct x as [|[|x]]; cbn in Hq; [by injection Hq as <-..|done].
  - rewrite Hp. lia.
  - change (length both_lost) with 2 in E1. rewrite E1, bind_ok in *. destruct (forward_n two_conf 1 both_lost 2 (c1, r)) as [[c2 r2]|] eqn:E2; [|done].
    destruct (Hc 2 c2 r2 E2) as (_ & H3 & H4 & H5). exists c2, r2. split_and!; [done|done|exact H3|exact H4|by apply H5].
Defined.

(** ** The sender of several jobs *)

(** A helper alone: its threads in some order. *)
Definition run_alone `{GF : GFComplete} `{DIO : DiskIO} (conf : Config) (n : mnode) (l : list thread) (r : redis) : res (yworker * redis) :=
  for_each l (fun t '((w, r) : yworker * redis) => run_ythread conf t n w r) (new_yworker, r).

(** The second of three helpers, with a job for each of the lost blocks [x] and
    [y], and what the first has sent it of the slice 1. *)
Definition three_conf : Config := mkConfig 3 5 8 0 4 [1; 2; 3; 4; 5]%Z 9 0 false false [] 0 [] 0 [].
Definition middle_job (f : str) : dr_cmd := mkDrCmd 3 1 3 5 1 1 f (lit "b").
Definition middle_node : mnode := mkMNode 4 [middle_job (lit "x"); middle_job (lit "y")] (seqZ 0 32) [Some 3%Z; Some 3%Z].
Definition first_sent : redis :=
  RPUSH 3 (tmpKey (lit "y")) (replicate 8 128%Z ++ le32 1) (RPUSH 3 (tmpKey (lit "x")) (replicate 8 128%Z ++ le32 1) ∅).

(** The setup; four packets read, of which the first is passed for both jobs; the
    third packet read and passed for [x]; the second pulled and passed for [x];
    the third read and passed for [y]; and four packets sent. *)
Definition mixed_run : list thread :=
  [TRead; TPull; TRead; TRead; TRead; TRead; TRead; TPull; TPull; TPull; TRead; TSend; TSend; TSend; TSend].

(** With several jobs the sender of a cyclic helper can mix them up: it takes the
    packets of [_toSendIds] for its jobs in turn, but [readerMul] and
    [pullerMul] put them there in the order they come to pass them.  In this
    run the slice 1 of the second block goes to the client with what this
    helper made of it alone, while what the helper before has sent for it
    still waits to be added. *)
Example cycl_jobs_mixed : exists w r ids, run_alone three_conf middle_node mixed_run first_sent = Ok (w, r) /\
  _toSendIds w = Some ids /\ take 4 ids = [Some 0; Some 0; Some 2; Some 1] /\
  waiting_in r 4 (lit "y") = [multiply (seqZ 8 8) 1 ++ le32 1] /\
  waiting_in r 3 (tmpKey (lit "y")) = [replicate 8 128%Z ++ le32 1].
Proof.
  assert (H : match run_alone three_conf middle_node mixed_run first_sent with
    | Ok (w, r) => match _toSendIds w with Some ids => (take 4 ids, waiting_in r 4 (lit "y"), waiting_in r 3 (tmpKey (lit "y"))) | None => ([], [], []) end
    | Fault _ => ([], [], []) end = ([Some 0; Some 0; Some 2; Some 1], [multiply (seqZ 8 8) 1 ++ le32 1], [replicate 8 128%Z ++ le32 1])) by (vm_compute; reflexivity).
  destruct (run_alone three_conf middle_node mixed_run first_sent) as [[w r]|]; [|done]. exists w, r.
  destruct (_toSendIds w) as [ids|]; [|done]. injection H as H1 H2 H3. by exists ids.
Qed.
