(* ===== verification/ConvRepair.v ===== *)
(** * Conventional repair (ConvDRWorker.cc)

    The helpers send their packets as they are to the node that repairs, which
    multiplies and adds them for every lost block and pushes the results to its
    own Redis; from there the client takes the first lost block and the nodes of
    the others take theirs ([passiveReceiver] of DRWorker.cc).  The worker is
    built with [CONV_OPT] 1 (DROpt.hh).

    Iterations and pops are as in PipeRepair.v, and the waits for the tests are in
    ConvWait.v.  The node that repairs
    runs one [readThread] per helper, all started by [fetchMulWorker], then
    [requestorMulCompletion] and [sendMulWorker]; the last two wait for counters
    that only the readers raise, so the memory [fetchMulWorker] gets is there
    before they use it. *)
From Stdlib Require Import Ascii.
From stdpp Require Import strings relations.
From S2P Require Import Prelude Command Text Config Galois GF256 Jerasure Gauss Vandermonde ReedSol Encode RSUtil Disk Coordinator Packet DrCmd PipeRepair MulRepair.

(** ** Commands *)

(** [ConvMulJob]: the address of the node of the lost block, the coefficients of
    the helpers, the name. *)
Record conv_job := mkConvJob {
  cj_nextIP : Z;
  cj_coefs : list Z;
  cj_lostBlkName : str
}.

(** The members and locals [doProcess] sets from a command. *)
Record conv_cmd := mkConvCmd {
  cv_ecK : Z;
  cv_requestorIP : Z;
  cv_coefficient : Z;
  cv_nextIP : Z;
  cv_id : Z;
  cv_lostBlkName : str;
  cv_localBlkName : str
}.

#[export] Instance conv_job_inhabited : Inhabited conv_job := populate (mkConvJob 0 [] []).

(** One job of the command to the node that repairs; [cmdBase] is where it
    starts. *)
Definition parse_job (ecK : Z) (cmd : list Z) '((convMulJobs, cmdBase) : list conv_job * nat) : res (list conv_job * nat) :=
  passIP ← read_int cmd cmdBase;
  lostFileLen ← read_int cmd (cmdBase + 4);
  guard_or Undef (0 <=? lostFileLen);;
  let n := Z.to_nat lostFileLen in
  lostFile ← read_str cmd (cmdBase + 8) n;
  coefs ← for_each (seq 0 (Z.to_nat ecK)) (fun j coefs => c ← read_int cmd (cmdBase + 8 + n + 4 * j); Ok (coefs ++ [wrap_u32 c])) [];
  Ok (convMulJobs ++ [mkConvJob (wrap_u32 passIP) coefs lostFile], (cmdBase + 8 + n + 4 * Z.to_nat ecK)%nat).

(** [doProcess] on a command: a negative [_coefficient] is that of the node that
    repairs, whose jobs replace [convMulJobs]. *)
Definition parse_conv_cmd (convMulJobs : list conv_job) (cmd : list Z) : res (conv_cmd * list conv_job) :=
  ecK ← read_int cmd 0;
  requestorIP ← read_uint cmd 4;
  coefficient ← read_int cmd 8;
  nextIP ← read_uint cmd 12;
  id ← read_uint cmd 16;
  if coefficient <? 0 then
    guard_or Undef (0 <=? ecK);;
    _ ← res_of_option Undef (slice cmd 20 (4 * Z.to_nat ecK));
    lostBlkNameLen ← read_uint cmd (20 + 4 * Z.to_nat ecK);
    lostBlkName ← read_str cmd (24 + 4 * Z.to_nat ecK) (Z.to_nat lostBlkNameLen);
    '(jobs, _) ← for_each (seqZ 0 nextIP) (fun _ => parse_job ecK cmd) ([], (24 + 4 * Z.to_nat ecK + Z.to_nat lostBlkNameLen)%nat);
    Ok (mkConvCmd ecK requestorIP coefficient nextIP ecK lostBlkName [], jobs)
  else
    lostBlkNameLen ← read_uint cmd 20;
    lostBlkName ← read_str cmd 24 (Z.to_nat lostBlkNameLen);
    localBlkNameLen ← read_uint cmd (24 + Z.to_nat lostBlkNameLen);
    localBlkName ← read_str cmd (28 + Z.to_nat lostBlkNameLen) (Z.to_nat localBlkNameLen);
    Ok (mkConvCmd ecK requestorIP coefficient nextIP (wrap_s32 id) lostBlkName localBlkName, convMulJobs).

(** The list of the packets of the helper [id]. *)
Definition helperKey (lostBlkName : str) (id : Z) : str := lit "tmp:" ++ lostBlkName ++ lit ":" ++ to_string id.

(** The list of the word that a lost block is back. *)
Definition endKey (f : str) : str := lit "fr_end_" ++ f.

(** ** What the threads are given *)

(** A helper: its command, the file it reads and the connection to the node that
    repairs ([None] is [NULL]). *)
Record chelper := mkCHelper {
  ch_ip : Z;
  ch_cmd : conv_cmd;
  ch_file : list Z;
  ch_ctx : option Z
}.

(** The node that repairs. *)
Record crepairer := mkCRepairer {
  cr_ip : Z;
  cr_ecK : nat;
  cr_jobs : list conv_job
}.

(** A node that waits for its block: the connections to the node it takes the
    packets from and to the client. *)
Record cpassive := mkCPassive {
  cp_ip : Z;
  cp_prev : option Z;
  cp_req : option Z;
  cp_lost : str
}.

#[export] Instance chelper_inhabited : Inhabited chelper := populate (mkCHelper 0 (mkConvCmd 0 0 0 0 0 [] []) [] None).

(** ** Their states *)

(** The node that repairs: the packets of the helpers and, behind them, those of
    the jobs; how many packets each helper has sent, the least of these numbers
    as the readers have it, and how many packets may be sent.  Then the counters
    of the loops; those of the nested loops count the iterations of both. *)
Record cworker := mkCWorker {
  _diskPkts3 : list (list (list Z));
  _waitingToPullerNum : list nat;
  _waitingToPull : nat;
  _toSend : nat;
  q_read : list nat;
  q_pulled : nat;
  q_sent : nat
}.

(** A node that waits: its file testfileOut, the packets it has, and whether it
    has told the client. *)
Record preceiver := mkPReceiver {
  pr_file : list Z;
  pr_got : nat;
  pr_done : bool
}.

Section workers.
Context `{GF : GFComplete} `{DIO : DiskIO} (conf : Config).
Abbreviation cnt := (_packetCnt conf).
Abbreviation size := (_packetSize conf).
(** The contents of the memory a helper gets for the packet [i]. *)
Context (fresh : nat -> list Z).

(** ** A helper *)

(** One iteration of [readWorker]. *)
Definition readHelper (n : chelper) (w : pworker) : res pworker :=
  let i := w_read w in
  guard_or Blocked (i <? cnt)%nat;;
  _ ← res_of_option Undef (_diskPkts w !! i);
  let base := (_packetSkipSize conf + i * size)%nat in
  guard_or (Exit 1) (bool_decide (is_s32 (Z.of_nat base)));;
  pkt ← readPacketFromDisk (ch_file n) (fresh i) size base;
  _ ← pktOutput i cnt;
  Ok (mkPWorker (<[i := pkt]> (_diskPkts w)) (<[i := true]> (_diskFlag w)) (_waitingToSend w) (S i) (w_pulled w) (w_sent w)).

(** One iteration of [requestorCompletion].  A helper whose number is [_ecK],
    which no command gives, would add up the packets of all the others; the pops
    of one packet are one step.  The test of the flag is waited for in ConvWait.v. *)
Definition requestorCompletion (n : chelper) (w : pworker) (r : redis) : res (pworker * redis) :=
  let c := ch_cmd n in
  let pktId := w_pulled w in
  guard_or Blocked (pktId <? cnt)%nat;;
  '(pkts, r) ←
    (if cv_id c =? cv_ecK c then
       pkt ← res_of_option Undef (_diskPkts w !! pktId);
       '(pkt, r) ← for_each (seqZ 0 (cv_ecK c)) (fun i '((pkt, r) : list Z * redis) =>
         '(str, r) ← res_of_option Blocked (BLPOP (ch_ip n) (helperKey (cv_lostBlkName c) i) r);
         pkt ← XORBuffers pkt str size;
         Ok (pkt, r)) (pkt, r);
       Ok (<[pktId := pkt]> (_diskPkts w), r)
     else
       flag ← res_of_option Undef (_diskFlag w !! pktId);
       guard_or Blocked flag;;
       Ok (_diskPkts w, r));
  Ok (mkPWorker pkts (_diskFlag w) (S (_waitingToSend w)) (w_read w) (S pktId) (w_sent w), r).

(** The key [doProcess] gives [sendWorker]. *)
Definition convKey (c : conv_cmd) : str :=
  if cv_ecK c =? cv_id c then cv_lostBlkName c else helperKey (cv_lostBlkName c) (cv_id c).

(** One iteration of [sendWorker], once its test has succeeded (ConvWait.v). *)
Definition sendHelper (n : chelper) (w : pworker) (r : redis) : res (pworker * redis) :=
  let i := w_sent w in
  guard_or Blocked (i <? cnt)%nat;;
  guard_or Blocked (i <? _waitingToSend w)%nat;;
  rc ← res_of_option Undef (ch_ctx n);
  pkt ← res_of_option Undef (_diskPkts w !! i);
  pkt ← res_of_option Undef (slice pkt 0 size);
  _ ← pktOutput i cnt;
  Ok (mkPWorker (_diskPkts w) (_diskFlag w) (_waitingToSend w) (w_read w) (w_pulled w) (S i),
      RPUSH rc (convKey (ch_cmd n)) pkt r).

Definition run_helper (t : thread) (n : chelper) (w : pworker) (r : redis) : res (pworker * redis) :=
  match t with
  | TRead => w ← readHelper n w; Ok (w, r)
  | TPull => requestorCompletion n w r
  | TSend => sendHelper n w r
  end.

(** ** The node that repairs *)

(** The job of [fetchMulWorker]: its own, or the only one; [reqj] is not set
    when there is none. *)
Definition reqJob (n : crepairer) : res conv_job :=
  res_of_option Undef (List.find (fun c => (cj_nextIP c =? cr_ip n) || (length (cr_jobs n) =? 1)%nat) (cr_jobs n)).

(** One iteration of the [readThread] of the helper [id]: the packet it pops,
    and its critical section. *)
Definition readThread (n : crepairer) (id : nat) (w : cworker) (r : redis) : res (cworker * redis) :=
  i ← res_of_option Undef (q_read w !! id);
  guard_or Blocked (i <? cnt)%nat;;
  c ← reqJob n;
  '(str, r) ← res_of_option Blocked (BLPOP (cr_ip n) (helperKey (cj_lostBlkName c) (Z.of_nat id)) r);
  pkt ← res_of_option Undef (slice str 0 size);
  row ← res_of_option Undef (_diskPkts3 w !! i);
  _ ← res_of_option Undef (row !! id);
  num ← res_of_option Undef (_waitingToPullerNum w !! id);
  let nums := <[id := S num]> (_waitingToPullerNum w) in
  let minNum := foldl (fun minNum x => if (x <? minNum)%nat then x else minNum) cnt nums in
  Ok (mkCWorker (<[i := <[id := pkt]> row]> (_diskPkts3 w)) nums
        (if (_waitingToPull w <? minNum)%nat then S (_waitingToPull w) else _waitingToPull w) (_toSend w)
        (<[id := S i]> (q_read w)) (q_pulled w) (q_sent w), r).

(** The packet of the helper [id] multiplied by its coefficient and put, or
    added, in the place [slot]. *)
Definition add_packet (c : conv_job) (slot : nat) (row : list (list Z)) (id : nat) : res (list (list Z)) :=
  multiplyTmp ← res_of_option Undef (row !! id);
  coef ← res_of_option Undef (cj_coefs c !! id);
  let multiplyTmp := multiply multiplyTmp (wrap_s32 coef) in
  old ← res_of_option Undef (row !! slot);
  new ← (if (id =? 0)%nat then Ok multiplyTmp else XORBuffers old multiplyTmp size);
  Ok (<[slot := new]> row).

(** One iteration of both loops of [requestorMulCompletion]: a packet is tested
    for before its jobs, and the wait for it is [conv_wait_on], [conv_test] of
    ConvWait.v. *)
Definition requestorMulCompletion (n : crepairer) (w : cworker) : res cworker :=
  let nj := length (cr_jobs n) in
  let pktId := (q_pulled w / nj)%nat in
  let j := (q_pulled w mod nj)%nat in
  guard_or Blocked (pktId <? cnt)%nat;;
  (if (j =? 0)%nat then guard_or Blocked (pktId <? _waitingToPull w)%nat else Ok tt);;
  c ← res_of_option Undef (cr_jobs n !! j);
  row ← res_of_option Undef (_diskPkts3 w !! pktId);
  row ← for_each (seq 0 (cr_ecK n)) (fun id row => add_packet c (cr_ecK n + j) row id) row;
  Ok (mkCWorker (<[pktId := row]> (_diskPkts3 w)) (_waitingToPullerNum w) (_waitingToPull w) (S (_toSend w))
        (q_read w) (S (q_pulled w)) (q_sent w)).

(** One iteration of both loops of [sendMulWorker], once the test of [_toSend] has
    succeeded; the wait for it is [conv_wait_on], [conv_test] of ConvWait.v. *)
Definition sendRepaired (n : crepairer) (w : cworker) (r : redis) : res (cworker * redis) :=
  let nj := length (cr_jobs n) in
  let pktId := (q_sent w / nj)%nat in
  let j := (q_sent w mod nj)%nat in
  guard_or Blocked (pktId <? cnt)%nat;;
  guard_or Blocked (pktId * nj + j <? _toSend w)%nat;;
  _ ← pktOutput pktId cnt;
  c ← res_of_option Undef (cr_jobs n !! j);
  row ← res_of_option Undef (_diskPkts3 w !! pktId);
  pkt ← res_of_option Undef (row !! (cr_ecK n + j)%nat);
  Ok (mkCWorker (_diskPkts3 w) (_waitingToPullerNum w) (_waitingToPull w) (_toSend w) (q_read w) (q_pulled w) (S (q_sent w)),
      RPUSH (cr_ip n) (cj_lostBlkName c) pkt r).

(** The threads of the node. *)
Inductive rthread := RFetch (id : nat) | RPull | RSend.

Definition run_repairer (t : rthread) (n : crepairer) (w : cworker) (r : redis) : res (cworker * redis) :=
  match t with
  | RFetch id => readThread n id w r
  | RPull => w ← requestorMulCompletion n w; Ok (w, r)
  | RSend => sendRepaired n w r
  end.

(** The start of the threads: zeroed packets and counters. *)
Definition start_repairer (n : crepairer) : cworker :=
  mkCWorker (replicate cnt (replicate (cr_ecK n + length (cr_jobs n)) (zeros size))) (replicate (cr_ecK n) 0%nat) 0 0
    (replicate (cr_ecK n) 0%nat) 0 0.

(** ** A node that waits for its block *)

(** [passiveReceiver] on its message. *)
Definition accept_passive (_localIP : Z) (cmd : list Z) : res cpassive :=
  prevIP ← read_uint cmd 0;
  prevCtx ← (if prevIP =? _localIP then Ok (Some _localIP) else findCtx (slavesCtx (_helpersIPs conf)) prevIP);
  reqIP ← read_uint cmd 4;
  reqCtx ← (if reqIP =? _localIP then Ok (Some _localIP) else findCtx (slavesCtx (_helpersIPs conf)) reqIP);
  lostBlkNameLen ← read_uint cmd 8;
  lostBlkName ← read_str cmd 12 (Z.to_nat lostBlkNameLen);
  Ok (mkCPassive _localIP prevCtx reqCtx lostBlkName).

(** The word to the client. *)
Definition end_cmd (n : cpassive) : res (list Z) :=
  mem ← memcpys [(0, le32 (cp_ip n)); (4, bytes_of (cp_lost n))]%nat (zeros COMMAND_MAX_LENGTH);
  Ok (take (length (cp_lost n) + 4) mem).

(** One iteration of its loop over the packets, then the word to the client. *)
Definition passiveReceiver (n : cpassive) (w : preceiver) (r : redis) : res (preceiver * redis) :=
  if (pr_got w <? cnt)%nat then
    _ ← pktOutput (pr_got w) cnt;
    prevCtx ← res_of_option Undef (cp_prev n);
    '(str, r) ← res_of_option Blocked (BLPOP prevCtx (cp_lost n) r);
    pkt ← res_of_option Undef (slice str 0 size);
    Ok (mkPReceiver (pr_file w ++ pkt) (S (pr_got w)) (pr_done w), r)
  else
    guard_or Blocked (negb (pr_done w));;
    cmd ← end_cmd n;
    reqCtx ← res_of_option Undef (cp_req n);
    Ok (mkPReceiver (pr_file w) (pr_got w) true, RPUSH reqCtx (endKey (cp_lost n)) cmd r).

(** ** The client *)

(** [sendRequest] after its thread has ended: one iteration of the loop over the
    other lost blocks.  Its pop gives up after 100 seconds, and the code then
    reads the elements of a reply that has none; that expiry is no step here. *)
Definition wait_end (_locIP : Z) (_lostFiles : list str) (c : mclient) (ended : nat) (r : redis) : res (nat * redis) :=
  guard_or Blocked (_processedPacket c =? cnt)%nat;;
  f ← res_of_option Blocked (_lostFiles !! S ended);
  '(str, r) ← res_of_option Blocked (BLPOP _locIP (endKey f) r);
  _ ← res_of_option Undef (slice str 0 4);
  Ok (S ended, r).

(** ** The system *)

Record cstate := mkCState {
  s_helpers : list pworker;
  s_repairer : cworker;
  s_passive : gmap str preceiver;
  s_servers : redis;
  s_client : mclient;
  s_ended : nat
}.

(** The nodes: the helpers, the node that repairs, the nodes that wait by their
    lost blocks. *)
Record cnodes := mkCNodes {
  c_helpers : list chelper;
  c_repairer : crepairer;
  c_passive : gmap str cpassive
}.

(** A step; the client collects the first of its files ([_nj] is 1). *)
Inductive cstep (ns : cnodes) (fetchIP _locIP : Z) (_lostFiles : list str) : cstate -> cstate -> Prop :=
  | cstep_helper st x t n w w' r :
      c_helpers ns !! x = Some n -> s_helpers st !! x = Some w -> run_helper t n w (s_servers st) = Ok (w', r) ->
      cstep ns fetchIP _locIP _lostFiles st
        (mkCState (<[x := w']> (s_helpers st)) (s_repairer st) (s_passive st) r (s_client st) (s_ended st))
  | cstep_repairer st t w' r :
      run_repairer t (c_repairer ns) (s_repairer st) (s_servers st) = Ok (w', r) ->
      cstep ns fetchIP _locIP _lostFiles st (mkCState (s_helpers st) w' (s_passive st) r (s_client st) (s_ended st))
  | cstep_passive st f n w w' r :
      c_passive ns !! f = Some n -> s_passive st !! f = Some w -> passiveReceiver n w (s_servers st) = Ok (w', r) ->
      cstep ns fetchIP _locIP _lostFiles st
        (mkCState (s_helpers st) (s_repairer st) (<[f := w']> (s_passive st)) r (s_client st) (s_ended st))
  | cstep_collect st c r :
      pipeCollector conf [fetchIP] (take 1 _lostFiles) (s_client st) (s_servers st) = Ok (c, r) ->
      cstep ns fetchIP _locIP _lostFiles st (mkCState (s_helpers st) (s_repairer st) (s_passive st) r c (s_ended st))
  | cstep_forward st c r :
      pipeForwardWorker conf _locIP (take 1 _lostFiles) (s_client st) (s_servers st) = Ok (c, r) ->
      cstep ns fetchIP _locIP _lostFiles st (mkCState (s_helpers st) (s_repairer st) (s_passive st) r c (s_ended st))
  | cstep_ended st e r :
      wait_end _locIP _lostFiles (s_client st) (s_ended st) (s_servers st) = Ok (e, r) ->
      cstep ns fetchIP _locIP _lostFiles st (mkCState (s_helpers st) (s_repairer st) (s_passive st) r (s_client st) e).

(** A thread that would do something other than step or wait; there are [ecK]
    readers. *)
Definition ccrash (ns : cnodes) (fetchIP _locIP : Z) (_lostFiles : list str) (st : cstate) : Prop :=
  exists e, e <> Blocked /\
    ((exists x t n w, c_helpers ns !! x = Some n /\ s_helpers st !! x = Some w /\ run_helper t n w (s_servers st) = Fault e) \/
     (exists t, (forall id, t = RFetch id -> (id < cr_ecK (c_repairer ns))%nat) /\
        run_repairer t (c_repairer ns) (s_repairer st) (s_servers st) = Fault e) \/
     (exists f n w, c_passive ns !! f = Some n /\ s_passive st !! f = Some w /\ passiveReceiver n w (s_servers st) = Fault e) \/
     pipeCollector conf [fetchIP] (take 1 _lostFiles) (s_client st) (s_servers st) = Fault e \/
     pipeForwardWorker conf _locIP (take 1 _lostFiles) (s_client st) (s_servers st) = Fault e \/
     wait_end _locIP _lostFiles (s_client st) (s_ended st) (s_servers st) = Fault e).
End workers.
