(* ===== verification/ConvWait.v ===== *)
(** * The waits of the conventional repair (ConvDRWorker.cc)

    The threads of ConvRepair.v as a [scheme] of Wait.v: those of the helpers,
    of the node that repairs, of the nodes that wait for their blocks and of the
    client.  The readers of the node that repairs count their packets under a
    mutex of their own, and notify its [requestorMulCompletion] with it held. *)
From Stdlib Require Import Ascii.
From stdpp Require Import strings relations functions.
From S2P Require Import Prelude Command Text Config Galois GF256 Jerasure Gauss Vandermonde ReedSol Encode RSUtil Disk Coordinator Packet DrCmd PipeRepair MulRepair ConvRepair Wait.

#[local] Arguments Nat.ltb : simpl never.
#[local] Arguments Nat.div : simpl never.
#[local] Arguments Nat.modulo : simpl never.

#[export] Instance rthread_eq : EqDecision rthread.
Proof. solve_decision. Defined.

(** The threads besides those of the helpers. *)
Inductive othread := ORepair (t : rthread) | OPassive (f : str) | OCollect | OForward | OEnded.
#[export] Instance othread_eq : EqDecision othread.
Proof. solve_decision. Defined.

(** The mutexes and condition variables of the helper [x], of the node that
    repairs and of the client. *)
Inductive cmutex := CDiskMtx (x i : nat) | HelperSenderMtx (x : nat) | WaitingToPullerMtx | MainPullerMtx | RepairSenderMtx | ClientMtx.
Inductive ccond := CDiskCv (x : nat) | HelperSenderCondVar (x : nat) | MainPullerCV | RepairSenderCondVar | ClientCondVar.
#[export] Instance cmutex_eq : EqDecision cmutex.
Proof. solve_decision. Defined.
#[export] Instance ccond_eq : EqDecision ccond.
Proof. solve_decision. Defined.

Section waits.
Context `{GF : GFComplete} `{DIO : DiskIO} (conf : Config) (fresh : nat -> list Z).
Context (ns : cnodes) (fetchIP _locIP : Z) (_lostFiles : list str).
Abbreviation cnt := (_packetCnt conf).
Abbreviation cactor := (actor thread othread).
Abbreviation rp := (c_repairer ns).
Abbreviation nj := (length (cr_jobs rp)).

Definition conv_iterate (a : cactor) (st : cstate) : res cstate :=
  match a with
  | Helper x t =>
    n ← res_of_option Blocked (c_helpers ns !! x);
    w ← res_of_option Blocked (s_helpers st !! x);
    '(w, r) ← run_helper conf fresh t n w (s_servers st);
    Ok (mkCState (<[x := w]> (s_helpers st)) (s_repairer st) (s_passive st) r (s_client st) (s_ended st))
  | Client (ORepair t) =>
    '(w, r) ← run_repairer conf t rp (s_repairer st) (s_servers st);
    Ok (mkCState (s_helpers st) w (s_passive st) r (s_client st) (s_ended st))
  | Client (OPassive f) =>
    n ← res_of_option Blocked (c_passive ns !! f);
    w ← res_of_option Blocked (s_passive st !! f);
    '(w, r) ← passiveReceiver conf n w (s_servers st);
    Ok (mkCState (s_helpers st) (s_repairer st) (<[f := w]> (s_passive st)) r (s_client st) (s_ended st))
  | Client OCollect =>
    '(c, r) ← pipeCollector conf [fetchIP] (take 1 _lostFiles) (s_client st) (s_servers st);
    Ok (mkCState (s_helpers st) (s_repairer st) (s_passive st) r c (s_ended st))
  | Client OForward =>
    '(c, r) ← pipeForwardWorker conf _locIP (take 1 _lostFiles) (s_client st) (s_servers st);
    Ok (mkCState (s_helpers st) (s_repairer st) (s_passive st) r c (s_ended st))
  | Client OEnded =>
    '(e, r) ← wait_end conf _locIP _lostFiles (s_client st) (s_ended st) (s_servers st);
    Ok (mkCState (s_helpers st) (s_repairer st) (s_passive st) r (s_client st) e)
  end.

(** Where the threads wait: [requestorCompletion] and [sendWorker] of a helper,
    [requestorMulCompletion], before the jobs of a packet, and [sendMulWorker] of
    the node that repairs, and [pipeForwardWorker]. *)
Definition conv_wait_on (a : cactor) (st : cstate) : option (cmutex * ccond) :=
  match a with
  | Helper x TPull =>
    n ← c_helpers ns !! x; w ← s_helpers st !! x;
    if (w_pulled w <? cnt)%nat && negb (cv_id (ch_cmd n) =? cv_ecK (ch_cmd n)) then Some (CDiskMtx x (w_pulled w), CDiskCv x) else None
  | Helper x TSend => w ← s_helpers st !! x; if (w_sent w <? cnt)%nat then Some (HelperSenderMtx x, HelperSenderCondVar x) else None
  | Client (ORepair RPull) =>
    let w := s_repairer st in
    if (q_pulled w mod nj =? 0)%nat && (q_pulled w / nj <? cnt)%nat then Some (MainPullerMtx, MainPullerCV) else None
  | Client (ORepair RSend) => if (q_sent (s_repairer st) / nj <? cnt)%nat then Some (RepairSenderMtx, RepairSenderCondVar) else None
  | Client OForward =>
    if (_processedPacket (s_client st) / length (take 1 _lostFiles) <? cnt)%nat then Some (ClientMtx, ClientCondVar) else None
  | _ => None
  end.

Definition conv_test (a : cactor) (st : cstate) : bool :=
  match a with
  | Helper x TPull => default true (w ← s_helpers st !! x; _diskFlag w !! w_pulled w)
  | Helper x TSend => default true (w ← s_helpers st !! x; Some (w_sent w <? _waitingToSend w)%nat)
  | Client (ORepair RPull) => (q_pulled (s_repairer st) / nj <? _waitingToPull (s_repairer st))%nat
  | Client (ORepair RSend) =>
    let w := s_repairer st in (q_sent w / nj * nj + q_sent w mod nj <? _toSend w)%nat
  | Client OForward => (_processedPacket (s_client st) <? length (c_contents (s_client st)))%nat
  | _ => true
  end.

Definition conv_locked_test (a : cactor) : bool := match a with Client OForward => true | _ => false end.

Definition conv_enters (a : cactor) (st : cstate) : option cmutex :=
  match a with
  | Helper x TRead => w ← s_helpers st !! x; Some (CDiskMtx x (w_read w))
  | Client (ORepair (RFetch _)) => Some WaitingToPullerMtx
  | _ => None
  end.

(** [minNum > _waitingToPull] in the critical section of [readThread]. *)
Definition pull_grown (id : nat) (w : cworker) : bool :=
  default false (num ← _waitingToPullerNum w !! id;
    Some (_waitingToPull w <? foldl (fun minNum x => if (x <? minNum)%nat then x else minNum) cnt (<[id := S num]> (_waitingToPullerNum w)))%nat).

Definition conv_signals (a : cactor) (st : cstate) : list (signal cmutex ccond) :=
  match a with
  | Helper x TRead => [mkSignal None (CDiskCv x) false]
  | Helper x TPull => [mkSignal (Some (HelperSenderMtx x)) (HelperSenderCondVar x) false]
  | Client (ORepair (RFetch id)) => if pull_grown id (s_repairer st) then [mkSignal (Some MainPullerMtx) MainPullerCV false] else []
  | Client (ORepair RPull) => [mkSignal (Some RepairSenderMtx) RepairSenderCondVar false]
  | Client OCollect => [mkSignal None ClientCondVar false]
  | _ => []
  end.

Definition other_threads : list othread :=
  [ORepair RPull; ORepair RSend; OCollect; OForward; OEnded] ++ ((fun id => ORepair (RFetch id)) <$> seq 0 (cr_ecK rp)) ++
  (OPassive <$> (map_to_list (c_passive ns)).*1).

Definition conv_scheme : scheme cstate cactor cmutex ccond :=
  mkScheme (actors (length (c_helpers ns)) (fun _ => [TRead; TPull; TSend]) other_threads)
    conv_iterate conv_wait_on conv_test conv_locked_test conv_enters (fun _ => false) conv_signals.
Abbreviation W := conv_scheme.

Definition conv_rank (m : cmutex) : nat := match m with WaitingToPullerMtx => 0 | _ => 1 end.

Lemma passive_thread f n : c_passive ns !! f = Some n -> OPassive f ∈ other_threads.
Proof.
  intros Hn. unfold other_threads. rewrite !elem_of_app. do 2 right. apply list_elem_of_fmap_2, list_elem_of_fmap. exists (f, n). split; [done|].
  by apply elem_of_map_to_list.
Qed.

Lemma reader_thread id : (id < cr_ecK rp)%nat -> ORepair (RFetch id) ∈ other_threads.
Proof.
  intros Hid. unfold other_threads. rewrite !elem_of_app. right. left. apply list_elem_of_fmap. exists id. split; [done|]. apply elem_of_seq. lia.
Qed.

Lemma other_nodup : NoDup other_threads.
Proof.
  unfold other_threads. apply NoDup_app. split_and!.
  - repeat constructor; set_solver.
  - intros a Ha [(id & -> & _)%list_elem_of_fmap|(f & -> & _)%list_elem_of_fmap]%elem_of_app; set_solver.
  - apply NoDup_app. split_and!.
    + apply NoDup_fmap; [by intros ?? [=]|apply NoDup_seq].
    + intros a (id & -> & _)%list_elem_of_fmap (f & [=] & _)%list_elem_of_fmap.
    + apply NoDup_fmap; [by intros ?? [=]|apply NoDup_fst_map_to_list].
Qed.

Lemma conv_polls a st st' : iterate W a st = Ok st' -> cstep conf fresh ns fetchIP _locIP _lostFiles st st'.
Proof.
  destruct a as [x t|[t|f| | |]]; intros E; cbn in E; res_inv.
  - destruct v1 as [w r]. injection Hk as <-. by eapply cstep_helper.
  - destruct v as [w r]. injection Hk as <-. by eapply cstep_repairer.
  - destruct v1 as [w r]. injection Hk as <-. by eapply cstep_passive.
  - destruct v as [c r]. injection Hk as <-. by apply cstep_collect.
  - destruct v as [c r]. injection Hk as <-. by apply cstep_forward.
  - destruct v as [e r]. injection Hk as <-. by apply cstep_ended.
Qed.

Lemma conv_iterates st st' : length (q_read (s_repairer st)) = cr_ecK rp ->
  cstep conf fresh ns fetchIP _locIP _lostFiles st st' -> exists a, a ∈ threads W /\ iterate W a st = Ok st'.
Proof.
  intros Hl Hs. destruct Hs as [st x t n w w' r Hn Hw Hr|st t w' r Hr|st f n w w' r Hn Hw Hr|st c r Hr|st c r Hr|st e r Hr].
  - exists (Helper x t). split; [apply actor_helper_in; split; [by eapply lookup_lt_Some|destruct t; set_solver]|].
    cbn. rewrite Hn. cbn. rewrite Hw. cbn. by rewrite Hr.
  - exists (Client (ORepair t)). split; [|cbn; by rewrite Hr]. apply client_in. destruct t as [id| |]; [|unfold other_threads; set_solver..].
    apply reader_thread. cbn [run_repairer] in Hr. unfold readThread in Hr. res_inv. rewrite <- Hl. by eapply lookup_lt_Some.
  - exists (Client (OPassive f)). split; [by eapply client_in, passive_thread|]. cbn. rewrite Hn. cbn. rewrite Hw. cbn. by rewrite Hr.
  - exists (Client OCollect). split; [apply client_in; unfold other_threads; set_solver|]. cbn. by rewrite Hr.
  - exists (Client OForward). split; [apply client_in; unfold other_threads; set_solver|]. cbn. by rewrite Hr.
  - exists (Client OEnded). split; [apply client_in; unfold other_threads; set_solver|]. cbn. by rewrite Hr.
Qed.

Lemma conv_fault a st e : a ∈ threads W -> iterate W a st = Fault e -> e <> Blocked -> ccrash conf fresh ns fetchIP _locIP _lostFiles st.
Proof.
  intros Ha E He. exists e. split; [done|]. destruct a as [x t|[t|f| | |]]; cbn in E.
  - left. destruct (c_helpers ns !! x) as [n|] eqn:Hn; cbn in E; [|congruence]. destruct (s_helpers st !! x) as [w|] eqn:Hw; cbn in E; [|congruence].
    destruct (run_helper _ _ _ _ _ _) as [[w' r]|e'] eqn:Er; [discriminate|]. injection E as <-. by exists x, t, n, w.
  - right. left. exists t. destruct (run_repairer _ _ _ _ _) as [[w' r]|e'] eqn:Er; [discriminate|]. injection E as <-. split; [|done].
    intros id ->. apply client_in in Ha. unfold other_threads in Ha. rewrite !elem_of_app in Ha. destruct Ha as [Ha|[(i & [= ->] & Hi%elem_of_seq)%list_elem_of_fmap|(f & [=] & _)%list_elem_of_fmap]]; [set_solver|lia].
  - right. right. left. destruct (c_passive ns !! f) as [n|] eqn:Hn; cbn in E; [|congruence]. destruct (s_passive st !! f) as [w|] eqn:Hw; cbn in E; [|congruence].
    destruct (passiveReceiver _ _ _ _) as [[w' r]|e'] eqn:Er; [discriminate|]. injection E as <-. by exists f, n, w.
  - do 3 right. left. destruct (pipeCollector _ _ _ _ _) as [[c r]|e'] eqn:Er; [discriminate|]. by injection E as <-.
  - do 4 right. left. destruct (pipeForwardWorker _ _ _ _ _) as [[c r]|e'] eqn:Er; [discriminate|]. by injection E as <-.
  - do 5 right. destruct (wait_end _ _ _ _ _ _) as [[c r]|e'] eqn:Er; [discriminate|]. by injection E as <-.
Qed.

(** What the iterations change of what the others wait for. *)
Lemma helper_keeps t n w r w' r' : run_helper conf fresh t n w r = Ok (w', r') ->
  match t with
  | TRead => w_pulled w' = w_pulled w /\ w_sent w' = w_sent w /\ _waitingToSend w' = _waitingToSend w
  | TPull => w_sent w' = w_sent w /\ ((cv_id (ch_cmd n) =? cv_ecK (ch_cmd n)) = false -> _diskFlag w !! w_pulled w = Some true)
  | TSend => w_pulled w' = w_pulled w /\ _diskFlag w' = _diskFlag w /\ (w_sent w < _waitingToSend w)%nat
  end.
Proof.
  destruct t; cbn [run_helper]; [unfold readHelper|unfold requestorCompletion|unfold sendHelper]; intros H; res_inv; simplify_eq; try done.
  - case_match. simplify_eq. cbn. split; [done|]. intros E. rewrite E in Hm0. res_inv. by simplify_eq.
  - cbn. split_and!; [done..|]. by apply Nat.ltb_lt.
Qed.

Lemma repairer_keeps t w r w' r' : run_repairer conf t rp w r = Ok (w', r') ->
  match t with
  | RFetch id => q_pulled w' = q_pulled w /\ q_sent w' = q_sent w /\ _toSend w' = _toSend w /\
      (pull_grown id w = true \/ _waitingToPull w' = _waitingToPull w)
  | RPull => q_sent w' = q_sent w /\ ((q_pulled w mod nj =? 0)%nat = true -> (q_pulled w / nj < _waitingToPull w)%nat)
  | RSend => q_pulled w' = q_pulled w /\ _waitingToPull w' = _waitingToPull w /\ (q_sent w / nj * nj + q_sent w mod nj < _toSend w)%nat
  end.
Proof.
  destruct t as [id| |]; cbn [run_repairer]; [unfold readThread|unfold requestorMulCompletion|unfold sendRepaired]; intros H; res_inv; simplify_eq; try done.
  - case_match. res_inv. simplify_eq. cbn. split_and!; [done..|]. unfold pull_grown. cbn.
    match goal with E : _waitingToPullerNum w !! id = Some _ |- _ => rewrite E end. cbn [mbind option_bind default from_option]. set (b := (_ <? _)%nat). destruct b; [by left|by right].
  - res_inv. simplify_eq. cbn. split; [done|]. intros E.
    match goal with E' : (if _ then _ else _) = Ok _ |- _ => rewrite E in E' end. res_inv. by apply Nat.ltb_lt.
  - cbn. split_and!; [done..|]. by apply Nat.ltb_lt.
Qed.

Lemma conv_collect_keeps c r c' r' : pipeCollector conf [fetchIP] (take 1 _lostFiles) c r = Ok (c', r') -> _processedPacket c' = _processedPacket c.
Proof. unfold pipeCollector. intros H. res_inv. case_match. res_inv. by simplify_eq. Qed.

(** What another thread waits for is the same after an iteration, and when it has
    come there is a notification. *)
Lemma conv_others a st st' a' : iterate W a st = Ok st' -> a' <> a ->
  wait_on W a' st' = wait_on W a' st /\
  forall m c, wait_on W a' st = Some (m, c) -> test W a' st = false -> test W a' st' = true -> c ∈ (sg_cv <$> signals W a st).
Proof.
  intros E Hne. destruct a as [x t|[t|f| | |]]; cbn in E; res_inv.
  - destruct v1 as [w' r]. injection Hk as <-. pose proof (helper_keeps _ _ _ _ _ _ Hm1) as Hr.
    destruct a' as [y t'|[[]|g| | |]]; try (split; [done|]; intros m c Hon Hf Ht; cbn in Hf, Ht; congruence).
    destruct (decide (y = x)) as [->|Hyx].
    2: { split; [|intros m c Hon Hf Ht]; destruct t'; cbn in *; rewrite ?list_lookup_insert_ne in * by done; congruence. }
    assert (t' <> t) by congruence. pose proof (lookup_lt_Some _ _ _ Hm0) as Hx. split; [|intros m c Hon Hf Ht].
    + cbn. rewrite list_lookup_insert_eq, Hm0 by done. cbn. destruct t', t; try done; [by destruct Hr as (-> & _)..|by destruct Hr as (_ & -> & _)|by destruct Hr as (-> & _)].
    + destruct t'; cbn in Hon, Hf, Ht; [done|..]; rewrite list_lookup_insert_eq in Ht by done; rewrite Hm0 in Hon, Hf; cbn in Hf, Ht.
      * rewrite Hm in Hon. cbn in Hon. destruct (_ && _); [|done]. injection Hon as <- <-. destruct t; [set_solver|done|]. destruct Hr as (E1 & E2 & _). rewrite E1, E2 in Ht. congruence.
      * cbn in Hon. destruct (_ <? _)%nat; [|done]. injection Hon as <- <-. destruct t; [|set_solver|done]. destruct Hr as (_ & E1 & E2). rewrite E1, E2 in Ht. congruence.
  - destruct v as [w' r]. injection Hk as <-. pose proof (repairer_keeps _ _ _ _ _ Hm) as Hr.
    destruct a' as [y []|[[id'| |]|g| | |]]; try (split; [done|]; intros m c Hon Hf Ht; cbn in Hf, Ht; congruence).
    + split; [|intros m c Hon Hf Ht]; cbn in *; destruct t as [id| |]; try done.
      * by destruct Hr as (-> & _).
      * by destruct Hr as (-> & _).
      * destruct (_ && _); [|done]. injection Hon as <- <-. destruct Hr as (E1 & _ & _ & [->|E2]); [set_solver|]. rewrite E1, E2 in Ht. congruence.
      * destruct Hr as (E1 & E2 & _). rewrite E1, E2 in Ht. congruence.
    + split; [|intros m c Hon Hf Ht]; cbn in *; destruct t as [id| |]; try done.
      * by destruct Hr as (_ & -> & _).
      * by destruct Hr as (-> & _).
      * destruct Hr as (_ & E1 & E2 & _). rewrite E1, E2 in Ht. congruence.
      * destruct (_ <? _)%nat; [|done]. injection Hon as <- <-. set_solver.
  - destruct v1 as [w' r]. injection Hk as <-. destruct a' as [y []|[[]|g| | |]]; (split; [done|]; intros m c Hon Hf Ht; cbn in Hf, Ht; congruence).
  - destruct v as [c' r]. injection Hk as <-. pose proof (conv_collect_keeps _ _ _ _ Hm) as Ek.
    destruct a' as [y []|[[]|g| | |]]; try (split; [done|]; intros m c Hon Hf Ht; cbn in Hf, Ht; congruence).
    split; [cbn; by rewrite Ek|]. intros m c Hon Hf Ht. cbn in Hon |- *. case_match; [|done]. injection Hon as <- <-. set_solver.
  - destruct v as [c' r]. injection Hk as <-. destruct a' as [y []|[[]|g| | |]]; try (split; [done|]; intros m c Hon Hf Ht; cbn in Hf, Ht; congruence).
  - destruct v as [e r]. injection Hk as <-. destruct a' as [y []|[[]|g| | |]]; (split; [done|]; intros m c Hon Hf Ht; cbn in Hf, Ht; congruence).
Qed.

Lemma conv_tested a st st' : iterate W a st = Ok st' -> waits W a st = false.
Proof.
  intros E. unfold waits. destruct a as [x t|[t|f| | |]]; cbn in E; res_inv; try done.
  - destruct v1 as [w' r]. pose proof (helper_keeps _ _ _ _ _ _ Hm1) as Hr. cbn. destruct t; [done|..]; rewrite ?Hm; cbn; rewrite Hm0; cbn.
    + destruct (_ <? _)%nat; [|done]. destruct (cv_id (ch_cmd v) =? cv_ecK (ch_cmd v)) eqn:Ei; [done|]. cbn. destruct Hr as [_ Hf]. by rewrite Hf.
    + destruct (_ <? _)%nat; [|done]. destruct Hr as (_ & _ & Hlt). by rewrite (proj2 (Nat.ltb_lt _ _)).
  - destruct v as [w' r]. pose proof (repairer_keeps _ _ _ _ _ Hm) as Hr. cbn. destruct t as [id| |]; [done|..].
    + destruct (_ =? _)%nat eqn:E0; cbn; [|done]. destruct (_ <? _)%nat; [|done]. by rewrite (proj2 (Nat.ltb_lt _ _)) by by apply Hr.
    + destruct (_ <? _)%nat eqn:E1; [|done]. destruct Hr as (_ & _ & Hlt). by rewrite (proj2 (Nat.ltb_lt _ _) Hlt).
  - destruct v as [c r]. cbn. destruct (_ <? cnt)%nat; [|done]. unfold pipeForwardWorker in Hm. res_inv. by match goal with E : (_ <? length _)%nat = true |- _ => rewrite E end.
Qed.

Lemma conv_laws (I : cstate -> Prop) work n :
  (forall st, I st -> length (q_read (s_repairer st)) = cr_ecK rp) ->
  (forall st st', I st -> cstep conf fresh ns fetchIP _locIP _lostFiles st st' -> I st' /\ work st' = S (work st)) ->
  (forall st, I st -> (work st <= n)%nat) ->
  (forall st, I st -> (work st < n)%nat -> exists st', cstep conf fresh ns fetchIP _locIP _lostFiles st st') ->
  (forall st, I st -> ~ ccrash conf fresh ns fetchIP _locIP _lostFiles st) ->
  scheme_laws W conv_rank 1 I work n.
Proof.
  intros Hread Hkeep Hbound Hmore Hcrash. apply exact_laws.
  - apply actors_nodup; [intros _ _; repeat constructor; set_solver|apply other_nodup].
  - intros []; cbn; lia.
  - intros a st st' HI _ E. apply (Hkeep st); [done|by eapply conv_polls].
  - done.
  - intros st HI Hlt. destruct (Hmore st HI Hlt) as [st' Hs]. apply conv_iterates in Hs as (a & Ha & E); [by exists a, st'|by apply Hread].
  - intros a st e HI Ha E. destruct (decide (e = Blocked)); [done|]. by destruct (Hcrash st HI (conv_fault a st e Ha E ltac:(done))).
  - intros a st st' _ _. apply conv_tested.
  - intros a st st' a' _ _ E _ Hne. by apply (conv_others a st st' a' E).
  - intros a st st' a' m c _ _ E _ Hne. by apply (conv_others a st st' a' E).
  - intros a st st' sg _ _ _ _ _ s t1 t2 m1 m2 _ _ _ H1 H2. destruct t1 as [x1 []|[[]|g1| | |]], t2 as [x2 []|[[]|g2| | |]]; cbn in H1, H2; try done;
      repeat match goal with H : _ ≫= _ = Some _ |- _ => apply bind_Some in H as (? & _ & H) end; repeat case_match; congruence.
  - intros a st st' _ _ _. destruct a as [x []|[[id| |]|g| | |]]; cbn; try done; try destruct (pull_grown _ _); try destruct (s_helpers st !! x); cbn; try done;
      (split; [|done]); intros m [= <-]; repeat constructor.
Qed.
End waits.
