(* ===== verification/ConvProgress.v ===== *)
(** * Progress of the conventional repair

    All the lists of a conventional repair are at the node that repairs, one per
    pair of threads: a lane.  What waits in a lane is what its producer has pushed
    and its consumer has not popped of a fixed stream; with the counters of the
    threads this is the invariant of the system.  No thread fails, and the system
    goes on until the client and the nodes that wait have their blocks. *)
From Stdlib Require Import Ascii.
From stdpp Require Import strings relations.
From S2P Require Import Prelude Command Text Config Galois GF256 Jerasure Gauss Vandermonde ReedSol Encode RSUtil Disk Coordinator Packet DrCmd PipeRepair MulRepair MulProgress ConvRepair.

(** ** Lanes *)

Section lanes.
Context {L : Type} (ip : Z) (key : L -> str) (stream : L -> nat -> list Z) (valid : L -> Prop).
Context (Hkey : forall l l', valid l -> valid l' -> key l = key l' -> l = l').

Definition lanes_ok (pushed popped : L -> nat) (r : redis) : Prop :=
  forall l, valid l -> (popped l <= pushed l)%nat /\
    waiting_in r ip (key l) = stream l <$> seq (popped l) (pushed l - popped l).

Lemma lanes_same pu po pu' po' r : lanes_ok pu po r ->
  (forall l, valid l -> pu' l = pu l) -> (forall l, valid l -> po' l = po l) -> lanes_ok pu' po' r.
Proof. intros H H1 H2 l Hl. rewrite H1, H2 by done. by apply H. Qed.

Lemma lanes_push pu po pu' po' r l : lanes_ok pu po r -> valid l -> pu' l = S (pu l) ->
  (forall l', valid l' -> l' <> l -> pu' l' = pu l') -> (forall l', valid l' -> po' l' = po l') ->
  lanes_ok pu' po' (RPUSH ip (key l) (stream l (pu l)) r).
Proof.
  intros H Hl E Hpu Hpo l' Hl'. rewrite Hpo, waiting_push by done. destruct (H l Hl) as [Hle Hw].
  destruct (decide ((ip, key l) = (ip, key l'))) as [Ek|Hne].
  - assert (l = l') as <- by (apply Hkey; [done..|congruence]). rewrite E. split; [lia|]. rewrite Hw.
    replace (pu l) with (po l + (pu l - po l))%nat at 2 by lia. rewrite seq_push. f_equal. f_equal. lia.
  - assert (l' <> l) by congruence. rewrite Hpu by done. by apply H.
Qed.

Lemma lanes_pop pu po r l : lanes_ok pu po r -> valid l ->
  (exists r', (po l < pu l)%nat /\ BLPOP ip (key l) r = Some (stream l (po l), r') /\
     forall pu' po', (forall l', valid l' -> pu' l' = pu l') -> po' l = S (po l) ->
       (forall l', valid l' -> l' <> l -> po' l' = po l') -> lanes_ok pu' po' r') \/
  (po l = pu l /\ BLPOP ip (key l) r = None).
Proof.
  intros H Hl. destruct (H l Hl) as [Hle Hw]. destruct (decide (po l = pu l)) as [E|Hne].
  - right. split; [done|]. unfold BLPOP. rewrite Hw. by replace (pu l - po l)%nat with 0%nat by lia.
  - left. rewrite seq_pop in Hw by lia. destruct (pop_waiting _ _ _ _ _ Hw) as (r' & Er & Hr'). exists r'. split; [lia|].
    split; [done|]. intros pu' po' Hpu E Hpo l' Hl'. rewrite Hr', Hpu by done.
    destruct (decide ((ip, key l) = (ip, key l'))) as [Ek|Hk].
    + assert (l = l') as <- by (apply Hkey; [done..|congruence]). rewrite E. split; [lia|]. f_equal. f_equal. lia.
    + rewrite Hpo by congruence. by apply H.
Qed.
End lanes.

(** ** The least of the counters *)

Abbreviation least := (foldl (fun minNum x : nat => if (x <? minNum)%nat then x else minNum)).

Lemma least_le l c : (least c l <= c)%nat /\ forall i x, l !! i = Some x -> (least c l <= x)%nat.
Proof.
  revert c. induction l as [|y l IH]; intros c; cbn [foldl]; [done|]. destruct (IH (if (y <? c)%nat then y else c)) as [H1 H2].
  assert (Hm : ((if (y <? c)%nat then y else c) <= c /\ (if (y <? c)%nat then y else c) <= y)%nat) by (destruct (Nat.ltb_spec y c); lia).
  split; [lia|]. intros [|i] x Hx; [injection Hx as ->; lia|by apply (H2 i)].
Qed.

Lemma least_ge l c m : (m <= c)%nat -> (forall i x, l !! i = Some x -> (m <= x)%nat) -> (m <= least c l)%nat.
Proof.
  revert c. induction l as [|y l IH]; intros c Hc Hl; cbn [foldl]; [done|]. apply IH; [|intros i; exact (Hl (S i))].
  pose proof (Hl 0%nat y eq_refl). destruct (y <? c)%nat; lia.
Qed.

Lemma least_up l c i x : l !! i = Some x -> (least c l <= least c (<[i := S x]> l))%nat.
Proof.
  intros Hx. destruct (least_le l c) as [Hc Hl]. apply least_ge; [done|]. intros j y Hj. destruct (decide (j = i)) as [->|Hne].
  - rewrite list_lookup_insert_eq in Hj by by eapply lookup_lt_Some. injection Hj as <-. pose proof (Hl i x Hx). lia.
  - rewrite list_lookup_insert_ne in Hj by done. by apply (Hl j).
Qed.

(** One counter goes up by one, and the least by at most one. *)
Lemma least_insert l c i x : l !! i = Some x ->
  (if (least c l <? least c (<[i := S x]> l))%nat then S (least c l) else least c l) = least c (<[i := S x]> l).
Proof.
  intros Hx. destruct (least_le l c) as [Hc Hl]. destruct (least_le (<[i := S x]> l) c) as [Hc' Hl'].
  assert (Hat : forall j y, l !! j = Some y -> (y = x /\ j = i) \/ <[i := S x]> l !! j = Some y).
  { intros j y Hj. destruct (decide (j = i)) as [->|Hne]; [left; split; [congruence|done]|right; by rewrite list_lookup_insert_ne]. }
  pose proof (least_up l c i x Hx) as Hup.
  assert (Hdown : (least c (<[i := S x]> l) - 1 <= least c l)%nat).
  { apply least_ge; [lia|]. intros j y Hj. destruct (Hat j y Hj) as [[-> ->]|Hj2]; [|pose proof (Hl' j y Hj2); lia].
    assert (Hi : <[i := S x]> l !! i = Some (S x)) by (apply list_lookup_insert_eq; by eapply lookup_lt_Some).
    pose proof (Hl' i _ Hi). lia. }
  destruct (Nat.ltb_spec (least c l) (least c (<[i := S x]> l))); lia.
Qed.

(** ** The system *)

(** The lists of a repair: the packets of a helper, those of a lost block, and
    the word that it is back. *)
Inductive lane := LTmp (x : nat) | LOut (f : str) | LEnd (f : str).

Section system.
Context `{GF : GFComplete} {GL : GF8Laws} `{DL : DiskLaws} (conf : Config) (Hpo : packets_ok conf).
Abbreviation cnt := (_packetCnt conf).
Abbreviation size := (_packetSize conf).
Context (fresh : nat -> list Z) (Hfresh : forall i, length (fresh i) = size).
Context (ns : cnodes) (ip : Z) (files : list str) (pipes : nat -> list pnode).
Abbreviation k := (length (c_helpers ns)).
Abbreviation nj := (length files).
Abbreviation own := (files !!! 0%nat).
Abbreviation rp := (c_repairer ns).

(** The place of a file among those the client asks for. *)
Definition pos (f : str) : nat := default 0%nat (fst <$> list_find (fun g => f = g) files).

(** The nodes of a repair of [files], the first of which the node [ip] has lost:
    the sums of the job [j] are those of the pipeline [pipes j] of PipeRepair.v. *)
Record csystem : Prop := {
  cs_some : (0 < nj)%nat;
  cs_files : NoDup files;
  cs_repairer : cr_ip rp = ip /\ cr_ecK rp = k /\ length (cr_jobs rp) = nj;
  cs_job j c : cr_jobs rp !! j = Some c -> files !! j = Some (cj_lostBlkName c) /\
    forall x, (x < k)%nat -> cj_coefs c !! x = Some (coef_at (pipes j) x);
  cs_own : exists c, reqJob rp = Ok c /\ cj_lostBlkName c = own;
  cs_pipe j f : files !! j = Some f -> pipeline conf (pipes j) f /\ length (pipes j) = k;
  cs_helper x n : c_helpers ns !! x = Some n -> cv_ecK (ch_cmd n) = Z.of_nat k /\ cv_id (ch_cmd n) = Z.of_nat x /\
    cv_lostBlkName (ch_cmd n) = own /\ ch_ctx n = Some ip /\ blk_file conf (ch_file n) /\
    forall j, (j < nj)%nat -> blk_at (pipes j) x = ch_file n;
  cs_passive f n : c_passive ns !! f = Some n -> f ∈ drop 1 files /\ cp_prev n = Some ip /\ cp_req n = Some ip /\ cp_lost n = f /\
    (4 + length f <= COMMAND_MAX_LENGTH)%nat;
  cs_names f : f ∈ files -> (forall x, (x < k)%nat -> f <> helperKey own (Z.of_nat x)) /\ (forall g, g ∈ files -> f <> endKey g)
}.
Context (Hcs : csystem).

Definition lane_key (l : lane) : str :=
  match l with LTmp x => helperKey own (Z.of_nat x) | LOut f => f | LEnd f => endKey f end.

(** The packet of a helper, and of a lost block. *)
Definition raw (x i : nat) : list Z := packet conf (ch_file (c_helpers ns !!! x)) i.
Definition repaired (j i : nat) : list Z := partial conf (pipes j) (k - 1) i.
Definition end_word (f : str) : list Z := default [] ((fun n => le32 (cp_ip n) ++ bytes_of f) <$> (c_passive ns !! f)).

Definition lane_stream (l : lane) (i : nat) : list Z :=
  match l with LTmp x => raw x i | LOut f => repaired (pos f) i | LEnd f => end_word f end.

Definition lane_valid (l : lane) : Prop :=
  match l with LTmp x => (x < k)%nat | LOut f => f ∈ files | LEnd f => f ∈ drop 1 files end.

Definition pushed (st : cstate) (l : lane) : nat :=
  match l with
  | LTmp x => w_sent (s_helpers st !!! x)
  | LOut f => share nj (pos f) (q_sent (s_repairer st))
  | LEnd f => if from_option pr_done false (s_passive st !! f) then 1%nat else 0%nat
  end.
Definition popped (st : cstate) (l : lane) : nat :=
  match l with
  | LTmp x => q_read (s_repairer st) !!! x
  | LOut f => if decide (f = own) then length (c_contents (s_client st)) else from_option pr_got 0%nat (s_passive st !! f)
  | LEnd f => if (pos f <=? s_ended st)%nat then 1%nat else 0%nat
  end.

(** ** Places and keys *)

Lemma pos_at j f : files !! j = Some f -> pos f = j.
Proof.
  intros Hj. unfold pos. assert (E : list_find (fun g => f = g) files = Some (j, f)); [|by rewrite E].
  apply list_find_Some. split_and!; [done|done|]. intros i g Hi Hlt ->. pose proof (NoDup_lookup files i j g (cs_files Hcs) Hi Hj). lia.
Qed.

Lemma file_in f : f ∈ files -> files !! pos f = Some f /\ (pos f < nj)%nat.
Proof. intros [j Hj]%list_elem_of_lookup. rewrite (pos_at j f Hj). split; [done|by eapply lookup_lt_Some]. Qed.

Lemma own_at : files !! 0%nat = Some own.
Proof. apply list_lookup_lookup_total_lt, Hcs. Qed.

Lemma own_in : own ∈ files.
Proof. by eapply list_elem_of_lookup_2, own_at. Qed.

Lemma other_in f : f ∈ drop 1 files -> f ∈ files /\ f <> own /\ (0 < pos f)%nat.
Proof.
  intros (i & Hi)%list_elem_of_lookup. rewrite lookup_drop in Hi. pose proof (pos_at _ _ Hi) as Hp.
  split_and!; [by eapply list_elem_of_lookup_2| |lia]. intros ->. rewrite (pos_at 0 own own_at) in Hp. lia.
Qed.

Lemma other_at i f : files !! S i = Some f -> f ∈ drop 1 files /\ pos f = S i.
Proof.
  intros Hi. split; [|by apply pos_at]. apply list_elem_of_lookup. exists i. by rewrite lookup_drop.
Qed.

Lemma some_k : (0 < k < 256)%nat.
Proof. destruct (cs_pipe Hcs 0 own own_at) as [Hp <-]. apply Hp. Qed.

Lemma lane_inj l l' : lane_valid l -> lane_valid l' -> lane_key l = lane_key l' -> l = l'.
Proof.
  pose proof some_k as Hk. assert (Htmp : forall x f, (x < k)%nat -> f ∈ files -> helperKey own (Z.of_nat x) <> f).
  { intros x f Hx Hf E. by destruct (cs_names Hcs f Hf) as [Hn _]; apply (Hn x). }
  assert (Hend : forall f g, f ∈ files -> g ∈ drop 1 files -> f <> endKey g).
  { intros f g Hf [Hg _]%other_in. by apply (cs_names Hcs f Hf). }
  destruct l as [x|f|f], l' as [y|g|g]; cbn [lane_valid lane_key]; intros Hl Hl' E; try done.
  - f_equal. unfold helperKey in E. apply app_inv_head in E. apply app_inv_head in E. injection E as E.
    apply (f_equal number) in E. rewrite !number_to_string in E by lia. injection E as E. lia.
  - by destruct (Htmp x g Hl Hl').
  - by destruct (Htmp y f Hl' Hl).
  - by f_equal.
  - by destruct (Hend f g Hl Hl').
  - by destruct (Hend g f Hl' Hl).
  - f_equal. unfold endKey in E. by apply app_inv_head in E.
Qed.

(** ** The packets *)

Lemma chelper_at x : (x < k)%nat -> c_helpers ns !! x = Some (c_helpers ns !!! x).
Proof. apply list_lookup_lookup_total_lt. Qed.

Lemma raw_ok x i : (x < k)%nat -> (i < cnt)%nat -> length (raw x i) = size.
Proof.
  intros Hx Hi. destruct (cs_helper Hcs x _ (chelper_at x Hx)) as (_ & _ & _ & _ & Hf & _). unfold raw. by apply packet_ok.
Qed.

Lemma repaired_ok j i : (j < nj)%nat -> (i < cnt)%nat -> length (repaired j i) = size.
Proof.
  intros Hj Hi. destruct (cs_pipe Hcs j _ (list_lookup_lookup_total_lt files j Hj)) as [Hp Hl]. pose proof some_k.
  apply (length_partial conf (pipes j) _ Hp); [rewrite Hl; lia|done].
Qed.

(** What a job makes of the packet of a helper. *)
Lemma own_raw j x i : (j < nj)%nat -> (x < k)%nat -> PipeRepair.own conf (pipes j) x i = multiply (raw x i) (coef_at (pipes j) x).
Proof.
  intros Hj Hx. destruct (cs_helper Hcs x _ (chelper_at x Hx)) as (_ & _ & _ & _ & _ & Hb). unfold PipeRepair.own, raw. by rewrite (Hb j Hj).
Qed.

Lemma coef_byte j x : (j < nj)%nat -> (x < k)%nat -> is_byte (coef_at (pipes j) x).
Proof.
  intros Hj Hx. destruct (cs_pipe Hcs j _ (list_lookup_lookup_total_lt files j Hj)) as [Hp Hl]. rewrite <- Hl in Hx.
  destruct (node_at (pipes j) x Hx) as (n & Hn & E). unfold coef_at. rewrite E. by apply (pl_cmd _ _ _ Hp x n Hn).
Qed.

Lemma repaired_packets j : (j < nj)%nat -> length (concat (repaired j <$> seq 0 cnt)) = (cnt * size)%nat.
Proof. intros Hj. apply length_packets. intros i Hi. by apply repaired_ok. Qed.

(** ** The states of the threads *)

Record helper_at (x : nat) (w : pworker) : Prop := {
  ha_order : (w_sent w <= w_pulled w <= w_read w)%nat /\ (w_read w <= cnt)%nat;
  ha_waiting : _waitingToSend w = w_pulled w;
  ha_flags i : (i < cnt)%nat -> _diskFlag w !! i = Some (bool_decide (i < w_read w)%nat);
  ha_pkts i : (i < cnt)%nat -> exists p, _diskPkts w !! i = Some p /\ ((i < w_read w)%nat -> p = raw x i)
}.

(** The packet [i] of the node that repairs. *)
Record row_at (w : cworker) (i : nat) (row : list (list Z)) : Prop := {
  ro_len : length row = (k + nj)%nat;
  ro_sizes : Forall (fun p => length p = size) row;
  ro_raw x c : q_read w !! x = Some c -> (i < c)%nat -> row !! x = Some (raw x i);
  ro_repaired j : (j < nj)%nat -> (nj * i + j < q_pulled w)%nat -> row !! (k + j)%nat = Some (repaired j i)
}.

Record repairer_at (w : cworker) : Prop := {
  ra_read : length (q_read w) = k /\ forall x c, q_read w !! x = Some c -> (c <= cnt)%nat;
  ra_nums : _waitingToPullerNum w = q_read w;
  ra_least : _waitingToPull w = least cnt (q_read w);
  ra_pulled : (q_pulled w <= nj * _waitingToPull w)%nat;
  ra_toSend : _toSend w = q_pulled w;
  ra_sent : (q_sent w <= q_pulled w)%nat;
  ra_rows : length (_diskPkts3 w) = cnt;
  ra_row i row : _diskPkts3 w !! i = Some row -> row_at w i row
}.

Record receiver_at (f : str) (w : preceiver) : Prop := {
  rv_got : (pr_got w <= cnt)%nat;
  rv_file : pr_file w = concat (repaired (pos f) <$> seq 0 (pr_got w));
  rv_done : pr_done w = true -> pr_got w = cnt
}.

Record client_at (c : mclient) (ended : nat) : Prop := {
  ca_contents : c_contents c = repaired 0 <$> seq 0 (length (c_contents c));
  ca_forwarded : (_processedPacket c <= length (c_contents c) <= cnt)%nat;
  ca_file : c_file c = concat (repaired 0 <$> seq 0 (_processedPacket c));
  ca_ended : (ended < nj)%nat /\ ((0 < ended)%nat -> _processedPacket c = cnt)
}.

Record cprogress (st : cstate) : Prop := {
  cg_len : length (s_helpers st) = k;
  cg_helper x w : s_helpers st !! x = Some w -> helper_at x w;
  cg_repairer : repairer_at (s_repairer st);
  cg_nodes f : is_Some (s_passive st !! f) <-> is_Some (c_passive ns !! f);
  cg_receiver f w : s_passive st !! f = Some w -> receiver_at f w;
  cg_client : client_at (s_client st) (s_ended st);
  cg_lanes : lanes_ok ip lane_key lane_stream lane_valid (pushed st) (popped st) (s_servers st)
}.

(** ** The helpers *)

Lemma helper_read x n w r : c_helpers ns !! x = Some n -> helper_at x w ->
  if decide (w_read w < cnt)%nat
  then exists w', run_helper conf fresh TRead n w r = Ok (w', r) /\ helper_at x w' /\
    w_read w' = S (w_read w) /\ w_pulled w' = w_pulled w /\ w_sent w' = w_sent w
  else run_helper conf fresh TRead n w r = Fault Blocked.
Proof.
  intros Hn [Ho Hwt Hf Hp]. cbn [run_helper]. unfold readHelper. destruct (Nat.ltb_spec (w_read w) cnt) as [Hlt|Hge].
  2: { by rewrite decide_False by lia. }
  rewrite decide_True by done. cbn [guard_or]. rewrite bind_ok. destruct (Hp _ Hlt) as (p & Ep & _). rewrite Ep. cbn [res_of_option]. rewrite bind_ok.
  destruct (cs_helper Hcs x n Hn) as (_ & _ & _ & _ & [Hfl _] & _). pose proof (po_base _ Hpo).
  rewrite bool_decide_true by (split; nia). cbn [guard_or]. rewrite bind_ok, read_packet, bind_ok by (done || nia).
  destruct (pktOutput_ok conf _ Hpo Hlt) as [b ->]. rewrite !bind_ok. eexists. split; [done|]. split; [|done].
  assert (E : take size (drop (_packetSkipSize conf + w_read w * size) (ch_file n)) = raw x (w_read w)).
  { unfold raw. by rewrite (list_lookup_total_correct _ _ _ Hn). }
  rewrite E. split; cbn.
  - lia.
  - done.
  - intros i Hi. destruct (decide (i = w_read w)) as [->|Hne].
    + rewrite list_lookup_insert_eq by (apply lookup_lt_is_Some; by rewrite Hf). by rewrite bool_decide_true by lia.
    + rewrite list_lookup_insert_ne, Hf by done. f_equal. apply bool_decide_ext. lia.
  - intros i Hi. destruct (decide (i = w_read w)) as [->|Hne].
    + exists (raw x (w_read w)). by rewrite list_lookup_insert_eq by by eapply lookup_lt_Some.
    + rewrite list_lookup_insert_ne by done. destruct (Hp i Hi) as (q & Eq & Hq). exists q. split; [done|]. intros Hlt'. apply Hq. lia.
Qed.

Lemma helper_pull x n w r : c_helpers ns !! x = Some n -> helper_at x w ->
  if decide (w_pulled w < w_read w)%nat
  then exists w', run_helper conf fresh TPull n w r = Ok (w', r) /\ helper_at x w' /\
    w_read w' = w_read w /\ w_pulled w' = S (w_pulled w) /\ w_sent w' = w_sent w
  else run_helper conf fresh TPull n w r = Fault Blocked.
Proof.
  intros Hn [Ho Hwt Hf Hp]. destruct (cs_helper Hcs x n Hn) as (HK & Hid & _). pose proof (lookup_lt_Some _ _ _ Hn).
  cbn [run_helper]. unfold requestorCompletion. rewrite HK, Hid. rewrite (proj2 (Z.eqb_neq _ _)) by lia.
  destruct (Nat.ltb_spec (w_pulled w) cnt) as [Hlt|Hge].
  2: { by rewrite decide_False by lia. }
  cbn [guard_or]. rewrite bind_ok, Hf by done. cbn [res_of_option]. rewrite bind_ok.
  case_decide as Hd; [|by rewrite bool_decide_false by done]. rewrite bool_decide_true by done. cbn [guard_or]. rewrite !bind_ok.
  eexists. split; [done|]. split; [|done]. split; cbn; [lia|by rewrite Hwt|done|done].
Qed.

Lemma helper_send x n w r : c_helpers ns !! x = Some n -> helper_at x w ->
  if decide (w_sent w < w_pulled w)%nat
  then exists w', run_helper conf fresh TSend n w r = Ok (w', RPUSH ip (lane_key (LTmp x)) (raw x (w_sent w)) r) /\ helper_at x w' /\
    w_read w' = w_read w /\ w_pulled w' = w_pulled w /\ w_sent w' = S (w_sent w)
  else run_helper conf fresh TSend n w r = Fault Blocked.
Proof.
  intros Hn [Ho Hwt Hf Hp]. destruct (cs_helper Hcs x n Hn) as (HK & Hid & Hl & Hctx & _). pose proof (lookup_lt_Some _ _ _ Hn) as Hx.
  cbn [run_helper]. unfold sendHelper. destruct (Nat.ltb_spec (w_sent w) cnt) as [Hlt|Hge].
  2: { by rewrite decide_False by lia. }
  cbn [guard_or]. rewrite bind_ok, Hwt. destruct (Nat.ltb_spec (w_sent w) (w_pulled w)); [|by rewrite decide_False by lia].
  rewrite decide_True by done. cbn [guard_or]. rewrite bind_ok, Hctx. cbn [res_of_option]. rewrite bind_ok.
  destruct (Hp _ Hlt) as (p & Ep & Hpr). rewrite Ep. cbn [res_of_option]. rewrite bind_ok. rewrite Hpr by lia.
  assert (Hs : slice (raw x (w_sent w)) 0 size = Some (raw x (w_sent w))).
  { rewrite <- (raw_ok x (w_sent w) Hx Hlt) at 1. apply slice_full. }
  rewrite Hs. cbn [res_of_option]. rewrite bind_ok. destruct (pktOutput_ok conf _ Hpo Hlt) as [b ->]. rewrite bind_ok.
  assert (Hk : convKey (ch_cmd n) = lane_key (LTmp x)) by (unfold convKey; by rewrite HK, Hid, Hl, (proj2 (Z.eqb_neq _ _)) by lia).
  rewrite Hk. eexists. split; [reflexivity|]. split; [|done]. split; cbn; [lia|done|done|done].
Qed.

(** A step of a helper, as the system sees it. *)
Lemma update_helper st x w w' r : cprogress st -> s_helpers st !! x = Some w -> helper_at x w' ->
  let st' := mkCState (<[x := w']> (s_helpers st)) (s_repairer st) (s_passive st) r (s_client st) (s_ended st) in
  lanes_ok ip lane_key lane_stream lane_valid (pushed st') (popped st') r -> cprogress st'.
Proof.
  intros [Hlen Hh Hr Hn Hv Hc Hl] Hw Hw' st' Hl'. split; cbn; [by rewrite length_insert| |done|done|done|done|done].
  intros y wy Hy. destruct (decide (y = x)) as [->|Hne].
  - rewrite list_lookup_insert_eq in Hy by by eapply lookup_lt_Some. by injection Hy as <-.
  - rewrite list_lookup_insert_ne in Hy by done. by apply Hh.
Qed.

Lemma pushed_helper st x w' y : (x < length (s_helpers st))%nat ->
  w_sent (<[x := w']> (s_helpers st) !!! y) = if decide (y = x) then w_sent w' else pushed st (LTmp y).
Proof.
  intros Hx. case_decide as E; [subst y; by rewrite list_lookup_total_insert_eq|by rewrite list_lookup_total_insert_ne by done].
Qed.

Definition helper_count (w : pworker) : nat := (w_read w + w_pulled w + w_sent w)%nat.

Definition helper_ready (w : pworker) (t : thread) : Prop :=
  match t with TRead => w_read w < cnt | TPull => w_pulled w < w_read w | TSend => w_sent w < w_pulled w end%nat.

Lemma helper_step st x t n w : cprogress st -> c_helpers ns !! x = Some n -> s_helpers st !! x = Some w ->
  (exists w' r, run_helper conf fresh t n w (s_servers st) = Ok (w', r) /\ helper_count w' = S (helper_count w) /\
     cprogress (mkCState (<[x := w']> (s_helpers st)) (s_repairer st) (s_passive st) r (s_client st) (s_ended st))) \/
  (run_helper conf fresh t n w (s_servers st) = Fault Blocked /\ ~ helper_ready w t).
Proof.
  intros Hst Hn Hw. pose proof (cg_helper st Hst x w Hw) as Hat. pose proof (cg_lanes st Hst) as Hl. unfold helper_count.
  pose proof (lookup_lt_Some _ _ _ Hw) as Hx. assert (Hxk : (x < k)%nat) by by eapply lookup_lt_Some.
  assert (Et : s_helpers st !!! x = w) by by apply list_lookup_total_correct.
  destruct t; cbn [helper_ready].
  - pose proof (helper_read x n w (s_servers st) Hn Hat) as H0. case_decide as Hd; [left|right; split; [done|lia]].
    destruct H0 as (w' & E & Hat' & E1 & E2 & E3). exists w', (s_servers st). split; [done|]. split; [lia|]. apply (update_helper st x w); try done.
    eapply lanes_same; [exact Hl| |done]. intros [y|f|f] _; cbn; [|done|done]. rewrite pushed_helper by done. case_decide; [subst; by rewrite E3|done].
  - pose proof (helper_pull x n w (s_servers st) Hn Hat) as H0. case_decide as Hd; [left|right; split; [done|lia]].
    destruct H0 as (w' & E & Hat' & E1 & E2 & E3). exists w', (s_servers st). split; [done|]. split; [lia|]. apply (update_helper st x w); try done.
    eapply lanes_same; [exact Hl| |done]. intros [y|f|f] _; cbn; [|done|done]. rewrite pushed_helper by done. case_decide; [subst; by rewrite E3|done].
  - pose proof (helper_send x n w (s_servers st) Hn Hat) as H0. case_decide as Hd; [left|right; split; [done|lia]].
    destruct H0 as (w' & E & Hat' & E1 & E2 & E3). eexists w', _. split; [done|]. split; [lia|]. apply (update_helper st x w); try done.
    assert (Ep : w_sent w = pushed st (LTmp x)) by (cbn; by rewrite Et). rewrite Ep.
    apply (lanes_push ip lane_key lane_stream lane_valid lane_inj (pushed st) (popped st)); try done; cbn.
    + rewrite pushed_helper, decide_True by done. by rewrite E3, Et.
    + intros [y|f|f] _ Hne; cbn; [|done|done]. by rewrite pushed_helper, decide_False by congruence.
Qed.

(** ** The node that repairs *)

Lemma read_at w id : repairer_at w -> (id < k)%nat -> q_read w !! id = Some (q_read w !!! id) /\ (q_read w !!! id <= cnt)%nat.
Proof.
  intros Hw Hid. destruct (ra_read w Hw) as [Hl Hb]. assert (E : q_read w !! id = Some (q_read w !!! id)) by (apply list_lookup_lookup_total_lt; lia).
  split; [done|by apply (Hb id)].
Qed.

Lemma row_lookup w i : repairer_at w -> (i < cnt)%nat -> exists row, _diskPkts3 w !! i = Some row /\ row_at w i row.
Proof.
  intros Hw Hi. destruct (lookup_lt_is_Some_2 (_diskPkts3 w) i) as [row Hrow]; [rewrite (ra_rows w Hw); lia|].
  exists row. split; [done|by apply (ra_row w Hw)].
Qed.

(** A reader after its pop. *)
Definition fetched (w : cworker) (id : nat) (row : list (list Z)) : cworker :=
  let i := q_read w !!! id in
  mkCWorker (<[i := <[id := raw id i]> row]> (_diskPkts3 w)) (<[id := S i]> (q_read w)) (least cnt (<[id := S i]> (q_read w))) (_toSend w)
    (<[id := S i]> (q_read w)) (q_pulled w) (q_sent w).

Lemma fetched_at w id row : repairer_at w -> (id < k)%nat -> (q_read w !!! id < cnt)%nat -> _diskPkts3 w !! (q_read w !!! id) = Some row ->
  repairer_at (fetched w id row).
Proof.
  intros Hw Hid Hlt Hrow. destruct (read_at w id Hw Hid) as [Hc _]. set (i := q_read w !!! id) in *. destruct (ra_row w Hw i row Hrow) as [Rl Rs Rr Rp].
  destruct Hw as [[Hl Hb] Hn Hm Hp Ht Hs Hrl Hra]. unfold fetched. fold i.
  split; cbn [_diskPkts3 _waitingToPullerNum _waitingToPull _toSend q_read q_pulled q_sent].
  - split; [by rewrite length_insert|]. intros x c Hx. destruct (decide (x = id)) as [->|Hne].
    + rewrite list_lookup_insert_eq in Hx by lia. injection Hx as <-. lia.
    + rewrite list_lookup_insert_ne in Hx by done. by apply (Hb x).
  - done.
  - done.
  - rewrite Hm in Hp. pose proof (least_up (q_read w) cnt id i Hc).
    nia.
  - done.
  - done.
  - by rewrite length_insert.
  - intros y row' Hy. destruct (decide (y = i)) as [->|Hne].
    + rewrite list_lookup_insert_eq in Hy by lia. injection Hy as <-. split; cbn [q_read q_pulled].
      * by rewrite length_insert.
      * apply Forall_insert; [done|by apply raw_ok].
      * intros x c Hx Hc'. destruct (decide (x = id)) as [->|Hx2]; [by rewrite list_lookup_insert_eq by lia|].
        rewrite list_lookup_insert_ne in Hx by done. rewrite list_lookup_insert_ne by done. by apply (Rr x c).
      * intros j Hj Hlt'. rewrite list_lookup_insert_ne by lia. by apply Rp.
    + rewrite list_lookup_insert_ne in Hy by done. destruct (Hra y row' Hy) as [Ql Qs Qr Qp]. split; cbn [q_read q_pulled]; [done|done| |done].
      intros x c Hx Hc'. destruct (decide (x = id)) as [->|Hx2].
      * rewrite list_lookup_insert_eq in Hx by lia. injection Hx as <-. apply (Qr id i); (done || lia).
      * rewrite list_lookup_insert_ne in Hx by done. by apply (Qr x c).
Qed.

Lemma fetch_runs st id w r r' : repairer_at w -> (id < k)%nat -> (q_read w !!! id < cnt)%nat ->
  BLPOP ip (lane_key (LTmp id)) r = Some (lane_stream (LTmp id) (popped st (LTmp id)), r') -> s_repairer st = w ->
  exists row, _diskPkts3 w !! (q_read w !!! id) = Some row /\ run_repairer conf (RFetch id) rp w r = Ok (fetched w id row, r').
Proof.
  intros Hw Hid Hlt Hpop Est. destruct (read_at w id Hw Hid) as [Hc _]. destruct (row_lookup w _ Hw Hlt) as (row & Hrow & Hat). exists row. split; [done|].
  destruct (cs_own Hcs) as (c & Hc1 & Hc2). destruct (cs_repairer Hcs) as (Eip & _). cbn [lane_key lane_stream popped] in Hpop. rewrite Est in Hpop.
  cbn [run_repairer]. unfold readThread. rewrite Hc. cbn [res_of_option]. rewrite bind_ok, (proj2 (Nat.ltb_lt _ _)) by done. cbn [guard_or].
  rewrite bind_ok, Hc1, bind_ok, Hc2, Eip, Hpop. cbn [res_of_option]. rewrite bind_ok.
  assert (Hs : slice (raw id (q_read w !!! id)) 0 size = Some (raw id (q_read w !!! id))).
  { rewrite <- (raw_ok id _ Hid Hlt) at 1. apply slice_full. }
  rewrite Hs. cbn [res_of_option]. rewrite bind_ok, Hrow. cbn [res_of_option]. rewrite bind_ok.
  destruct (lookup_lt_is_Some_2 row id) as [old Hold]; [rewrite (ro_len _ _ _ Hat); lia|]. rewrite Hold. cbn [res_of_option]. rewrite bind_ok.
  rewrite (ra_nums w Hw), Hc. cbn [res_of_option]. rewrite bind_ok. unfold fetched. by rewrite (ra_least w Hw), least_insert by done.
Qed.

(** The loop over the helpers puts the sum of the job [j] in its place. *)
Lemma add_packets j c i row : cr_jobs rp !! j = Some c -> (j < nj)%nat -> (i < cnt)%nat -> length row = (k + nj)%nat ->
  Forall (fun p => length p = size) row -> (forall x, (x < k)%nat -> row !! x = Some (raw x i)) ->
  exists row', for_each (seq 0 k) (fun id row => add_packet conf c (k + j) row id) row = Ok row' /\
    row' = <[(k + j)%nat := repaired j i]> row.
Proof.
  intros Hc Hj Hi Hl Hs Hraw. destruct (cs_job Hcs j c Hc) as [_ Hcoef]. pose proof some_k as Hk.
  destruct (cs_pipe Hcs j _ (list_lookup_lookup_total_lt files j Hj)) as [Hpl Hlen].
  destruct (for_each_total (fun n row' => row' = if decide (n = 0)%nat then row else <[(k + j)%nat := partial conf (pipes j) (n - 1) i]> row)
    (seq 0 k) (fun id row => add_packet conf c (k + j) row id) row) as (row' & E & Hrow').
  - done.
  - intros y id row' [-> Hy]%lookup_seq ->. cbn [Nat.add]. set (row1 := if decide (y = 0)%nat then row else _).
    assert (Hr1 : row1 !! y = Some (raw y i)).
    { unfold row1. case_decide; [by apply Hraw|]. rewrite list_lookup_insert_ne by lia. by apply Hraw. }
    assert (Hold : exists old, row1 !! (k + j)%nat = Some old /\ ((0 < y)%nat -> old = partial conf (pipes j) (y - 1) i)).
    { unfold row1. case_decide; [|rewrite list_lookup_insert_eq by lia; by eexists].
      destruct (lookup_lt_is_Some_2 row (k + j)) as [old Hold]; [lia|]. exists old. split; [done|lia]. }
    destruct Hold as (old & Hold & Hsum). unfold add_packet. rewrite Hr1, (Hcoef y Hy). cbn [res_of_option]. rewrite !bind_ok.
    pose proof (coef_byte j y Hj Hy) as Hb. rewrite wrap_s32_id by (unfold is_byte in Hb; split; lia). rewrite Hold. cbn [res_of_option]. rewrite bind_ok.
    rewrite <- own_raw by done. assert (Hins : forall v, <[(k + j)%nat := v]> row1 = <[(k + j)%nat := v]> row).
    { intros v. unfold row1. case_decide; [done|]. apply list_insert_insert_eq. }
    destruct y as [|y].
    + cbn [Nat.eqb]. rewrite bind_ok. eexists. split; [done|]. rewrite Hins. done.
    + cbn [Nat.eqb]. rewrite Hsum by lia. replace (S y - 1)%nat with y by lia.
      rewrite xor_packets by first [exact (po_words _ Hpo)|apply (length_partial conf (pipes j) _ Hpl); lia|apply (own_ok conf (pipes j) _ Hpl); lia].
      rewrite bind_ok. eexists. split; [done|]. rewrite Hins, decide_False by lia. replace (S (S y) - 1)%nat with (S y) by lia. cbn [partial].
      f_equal. apply list_eq. intros q. rewrite !lookup_zip_with. destruct (partial _ _ y i !! q), (PipeRepair.own _ _ (S y) i !! q); cbn; try done.
      by rewrite Z.lxor_comm.
  - exists row'. split; [exact E|]. rewrite Hrow', length_seq, decide_False by lia. done.
Qed.

Lemma pull_repaired w r : repairer_at w ->
  if decide (q_pulled w < nj * _waitingToPull w)%nat
  then exists w', run_repairer conf RPull rp w r = Ok (w', r) /\ repairer_at w' /\ q_read w' = q_read w /\
    q_pulled w' = S (q_pulled w) /\ q_sent w' = q_sent w
  else run_repairer conf RPull rp w r = Fault Blocked.
Proof.
  intros Hw. pose proof (cs_some Hcs) as Hnj. destruct (cs_repairer Hcs) as (Eip & Ek & Ej). cbn [run_repairer]. unfold requestorMulCompletion. rewrite Ej, Ek.
  pose proof (ra_pulled w Hw) as Hp. pose proof (Nat.div_mod_eq (q_pulled w) nj) as Hdm. pose proof (Nat.mod_upper_bound (q_pulled w) nj ltac:(lia)) as Hj.
  set (i := (q_pulled w / nj)%nat) in *. set (j := (q_pulled w mod nj)%nat) in *.
  assert (Hc : (_waitingToPull w <= cnt)%nat) by (rewrite (ra_least w Hw); apply least_le).
  case_decide as Hd.
  - assert (Hi : (i < _waitingToPull w)%nat) by (unfold i; by apply turn). rewrite (proj2 (Nat.ltb_lt i cnt)) by lia. rewrite (proj2 (Nat.ltb_lt i _)) by lia.
    cbn [guard_or]. assert (Hgo : (if (j =? 0)%nat then Ok tt else Ok tt : res unit) = Ok tt) by by destruct (j =? 0)%nat. rewrite Hgo, !bind_ok.
    destruct (lookup_lt_is_Some_2 (cr_jobs rp) j) as [c Hcj]; [lia|]. rewrite Hcj. cbn [res_of_option]. rewrite bind_ok.
    destruct (row_lookup w i Hw ltac:(lia)) as (row & Hrow & [Rl Rs Rr Rp]). rewrite Hrow. cbn [res_of_option]. rewrite bind_ok.
    destruct (add_packets j c i row Hcj Hj ltac:(lia) Rl Rs) as (row' & E & ->).
    { intros x Hx. destruct (read_at w x Hw Hx) as [Hxc _]. apply (Rr x _ Hxc). rewrite (ra_least w Hw) in Hi.
      destruct (least_le (q_read w) cnt) as [_ Hle]. pose proof (Hle x _ Hxc). lia. }
    rewrite E, !bind_ok. eexists. split; [done|]. split; [|done]. destruct Hw as [[Hl Hb] Hn Hm _ Ht Hs Hrl Hra].
    split; cbn [_diskPkts3 _waitingToPullerNum _waitingToPull _toSend q_read q_pulled q_sent]; [done|done|done|lia|lia|lia|by rewrite length_insert|].
    intros y row2 Hy. destruct (decide (y = i)) as [->|Hne].
    + rewrite list_lookup_insert_eq in Hy by (rewrite Hrl; lia). injection Hy as <-. split; cbn [q_read q_pulled].
      * by rewrite length_insert.
      * apply Forall_insert; [done|]. apply repaired_ok; lia.
      * intros x c' Hx Hlt. rewrite list_lookup_insert_ne; [by apply (Rr x c')|]. apply lookup_lt_Some in Hx. lia.
      * intros j' Hj' Hlt. destruct (decide (j' = j)) as [->|Hjne]; [by rewrite list_lookup_insert_eq by lia|].
        rewrite list_lookup_insert_ne by lia. apply Rp; lia.
    + rewrite list_lookup_insert_ne in Hy by done. destruct (Hra y row2 Hy) as [Ql Qs Qr Qp]. split; cbn [q_read q_pulled]; [done|done|done|].
      intros j' Hj' Hlt. apply Qp; [done|]. destruct (decide (nj * y + j' = q_pulled w)%nat) as [E2|]; [|lia]. exfalso. apply Hne.
      unfold i. rewrite <- E2. by rewrite Nat.mul_comm, Nat.div_add_l, Nat.div_small, Nat.add_0_r by lia.
  - assert (E : q_pulled w = (nj * _waitingToPull w)%nat) by lia.
    assert (Ei : i = _waitingToPull w) by (unfold i; rewrite E, Nat.mul_comm; apply Nat.div_mul; lia). rewrite Ei.
    assert (Ej0 : j = 0%nat) by (unfold j; rewrite E, Nat.mul_comm; apply Nat.Div0.mod_mul). rewrite Ej0, Nat.ltb_irrefl. cbn [Nat.eqb].
    by destruct (_ <? _)%nat.
Qed.

Lemma send_repaired w r : repairer_at w ->
  if decide (q_sent w < q_pulled w)%nat
  then exists w' f, run_repairer conf RSend rp w r = Ok (w', RPUSH ip f (repaired (q_sent w mod nj) (q_sent w / nj)) r) /\ repairer_at w' /\
    files !! (q_sent w mod nj)%nat = Some f /\ q_read w' = q_read w /\ q_pulled w' = q_pulled w /\ q_sent w' = S (q_sent w)
  else run_repairer conf RSend rp w r = Fault Blocked.
Proof.
  intros Hw. pose proof (cs_some Hcs) as Hnj. destruct (cs_repairer Hcs) as (Eip & Ek & Ej). cbn [run_repairer]. unfold sendRepaired. rewrite Ej, Ek, Eip.
  pose proof (ra_pulled w Hw) as Hp. pose proof (Nat.div_mod_eq (q_sent w) nj) as Hdm. pose proof (Nat.mod_upper_bound (q_sent w) nj ltac:(lia)) as Hj.
  set (i := (q_sent w / nj)%nat) in *. set (j := (q_sent w mod nj)%nat) in *. pose proof (ra_sent w Hw) as Hsp.
  assert (Hc : (_waitingToPull w <= cnt)%nat) by (rewrite (ra_least w Hw); apply least_le). rewrite (ra_toSend w Hw).
  replace (i * nj + j)%nat with (q_sent w) by lia. case_decide as Hd.
  - assert (Hi : (i < cnt)%nat) by (unfold i; apply turn; nia). rewrite (proj2 (Nat.ltb_lt i cnt)) by lia. rewrite (proj2 (Nat.ltb_lt (q_sent w) _)) by lia.
    cbn [guard_or]. rewrite !bind_ok. destruct (pktOutput_ok conf i Hpo Hi) as [b ->]. rewrite bind_ok.
    destruct (lookup_lt_is_Some_2 (cr_jobs rp) j) as [c Hcj]; [lia|]. rewrite Hcj. cbn [res_of_option]. rewrite bind_ok.
    destruct (row_lookup w i Hw Hi) as (row & Hrow & [Rl Rs Rr Rp]). rewrite Hrow. cbn [res_of_option]. rewrite bind_ok, Rp by lia. cbn [res_of_option]. rewrite bind_ok.
    eexists _, _. split; [reflexivity|]. split; [|split; [by apply (cs_job Hcs j c)|done]].
    destruct Hw as [H1 H2 H3 H4 H5 H6 H7 H8]. split; cbn [_diskPkts3 _waitingToPullerNum _waitingToPull _toSend q_read q_pulled q_sent]; try done.
    intros y row2 Hy. destruct (H8 y row2 Hy). by split.
  - rewrite (proj2 (Nat.ltb_ge (q_sent w) _)) by lia. by destruct (i <? cnt)%nat.
Qed.

Lemma update_repairer st w' r : cprogress st -> repairer_at w' ->
  let st' := mkCState (s_helpers st) w' (s_passive st) r (s_client st) (s_ended st) in
  lanes_ok ip lane_key lane_stream lane_valid (pushed st') (popped st') r -> cprogress st'.
Proof. intros [Hlen Hh Hr Hn Hv Hc Hl] Hw' st' Hl'. by split. Qed.

Definition repairer_count (w : cworker) : nat := (sum_list_with (fun c : nat => c) (q_read w) + q_pulled w + q_sent w)%nat.

Definition repairer_ready (st : cstate) (t : rthread) : Prop :=
  let w := s_repairer st in
  match t with
  | RFetch id => q_read w !!! id < w_sent (s_helpers st !!! id)
  | RPull => q_pulled w < nj * _waitingToPull w
  | RSend => q_sent w < q_pulled w
  end%nat.

Lemma sent_bound st x : cprogress st -> (x < k)%nat -> (w_sent (s_helpers st !!! x) <= cnt)%nat.
Proof.
  intros Hst Hx. destruct (lookup_lt_is_Some_2 (s_helpers st) x) as [w Hw]; [by rewrite (cg_len st Hst)|].
  rewrite (list_lookup_total_correct _ _ _ Hw). pose proof (ha_order _ _ (cg_helper st Hst x w Hw)). lia.
Qed.

Lemma repairer_step st t : cprogress st -> (forall id, t = RFetch id -> (id < k)%nat) ->
  (exists w' r, run_repairer conf t rp (s_repairer st) (s_servers st) = Ok (w', r) /\ repairer_count w' = S (repairer_count (s_repairer st)) /\
     cprogress (mkCState (s_helpers st) w' (s_passive st) r (s_client st) (s_ended st))) \/
  (run_repairer conf t rp (s_repairer st) (s_servers st) = Fault Blocked /\ ~ repairer_ready st t).
Proof.
  intros Hst Ht. pose proof (cg_repairer st Hst) as Hw. pose proof (cg_lanes st Hst) as Hl. pose proof (cs_some Hcs) as Hnj. unfold repairer_count.
  destruct t as [id| |]; cbn [repairer_ready].
  - pose proof (Ht id eq_refl) as Hid. destruct (read_at _ id Hw Hid) as [Hc Hle]. pose proof (sent_bound st id Hst Hid) as Hs.
    destruct (lanes_pop ip lane_key lane_stream lane_valid lane_inj _ _ _ (LTmp id) Hl Hid) as [(r' & Hlt & Hpop & Hnext)|[E Hpop]].
    + cbn [popped pushed] in Hlt. left. destruct (fetch_runs st id (s_repairer st) (s_servers st) r' Hw Hid ltac:(lia) Hpop eq_refl) as (row & Hrow & Er).
      eexists _, r'. split; [exact Er|]. split.
      * cbn [fetched q_read q_pulled q_sent]. rewrite (sum_insert (fun c : nat => c) (q_read (s_repairer st)) id _ _ Hc eq_refl). lia.
      * apply update_repairer; [done|apply fetched_at; try done; lia|]. apply Hnext.
        -- by intros [x|f|f] _.
        -- cbn. rewrite list_lookup_total_insert_eq; [done|]. by eapply lookup_lt_Some.
        -- intros [x|f|f] _ Hne; cbn; [|done|done]. rewrite list_lookup_total_insert_ne by congruence. done.
    + right. cbn [popped pushed] in E. split; [|lia]. destruct (cs_own Hcs) as (c & Hc1 & Hc2). destruct (cs_repairer Hcs) as (Eip & _).
      cbn [run_repairer]. unfold readThread. rewrite Hc. cbn [res_of_option]. rewrite bind_ok. destruct (_ <? cnt)%nat; [|done]. cbn [guard_or].
      rewrite bind_ok, Hc1, bind_ok, Hc2, Eip. cbn [lane_key] in Hpop. by rewrite Hpop.
  - pose proof (pull_repaired (s_repairer st) (s_servers st) Hw) as H0. case_decide as Hd; [left|right; done].
    destruct H0 as (w' & E & Hw' & E1 & E2 & E3). exists w', (s_servers st). split; [done|]. rewrite E1, E2, E3. split; [lia|].
    apply update_repairer; [done..|]. eapply lanes_same; [exact Hl| |]; intros [x|f|f] _; cbn; by rewrite ?E1, ?E3.
  - pose proof (send_repaired (s_repairer st) (s_servers st) Hw) as H0. case_decide as Hd; [left|right; done].
    destruct H0 as (w' & f & E & Hw' & Hf & E1 & E2 & E3). eexists w', _. split; [exact E|]. rewrite E1, E2, E3. split; [lia|].
    pose proof (pos_at _ _ Hf) as Hpos. assert (Es : repaired (q_sent (s_repairer st) mod nj) (q_sent (s_repairer st) / nj) = lane_stream (LOut f) (pushed st (LOut f))).
    { cbn [lane_stream pushed]. by rewrite Hpos, (share_at nj). }
    rewrite Es. apply update_repairer; [done..|]. apply (lanes_push ip lane_key lane_stream lane_valid lane_inj (pushed st) (popped st) _ _ _ (LOut f)); try done.
    + by eapply list_elem_of_lookup_2.
    + cbn. rewrite E3, Hpos. by apply share_same.
    + intros [x|g|g] Hg Hne; cbn; [done| |done]. destruct (file_in g Hg) as [Hgp Hlt]. rewrite E3. apply share_other; [done|done|].
      intros E4. apply Hne. rewrite <- E4, Hf in Hgp. congruence.
    + intros [x|g|g] _; cbn; by rewrite ?E1.
Qed.

(** ** The nodes that wait, and the client *)

Lemma update_passive st f w' r : cprogress st -> is_Some (s_passive st !! f) -> receiver_at f w' ->
  let st' := mkCState (s_helpers st) (s_repairer st) (<[f := w']> (s_passive st)) r (s_client st) (s_ended st) in
  lanes_ok ip lane_key lane_stream lane_valid (pushed st') (popped st') r -> cprogress st'.
Proof.
  intros [Hlen Hh Hr Hn Hv Hc Hl] Hf Hw' st' Hl'. split; cbn; try done.
  - intros g. destruct (decide (f = g)) as [<-|Hne].
    + rewrite lookup_insert_eq. rewrite <- Hn. split; [done|by eexists].
    + rewrite lookup_insert_ne by done. apply Hn.
  - intros g w Hg. destruct (decide (f = g)) as [<-|Hne].
    + rewrite lookup_insert_eq in Hg. by injection Hg as <-.
    + rewrite lookup_insert_ne in Hg by done. by apply Hv.
Qed.

Definition receiver_count (w : preceiver) : nat := (pr_got w + if pr_done w then 1 else 0)%nat.

Definition receiver_ready (st : cstate) (f : str) (w : preceiver) : Prop :=
  (pr_got w < share nj (pos f) (q_sent (s_repairer st)))%nat \/ (pr_got w = cnt /\ pr_done w = false).

Lemma share_bound st j : cprogress st -> (j < nj)%nat -> (share nj j (q_sent (s_repairer st)) <= cnt)%nat.
Proof.
  intros Hst Hj. pose proof (cs_some Hcs) as Hnj. pose proof (cg_repairer st Hst) as Hw. pose proof (ra_pulled _ Hw). pose proof (ra_sent _ Hw).
  assert (Hc : (_waitingToPull (s_repairer st) <= cnt)%nat) by (rewrite (ra_least _ Hw); apply least_le).
  rewrite <- (share_all nj Hnj j cnt). apply share_mono; [done|]. nia.
Qed.

Lemma got_file f w i p : receiver_at f w -> pr_got w = i -> p = repaired (pos f) i ->
  pr_file w ++ p = concat (repaired (pos f) <$> seq 0 (S i)).
Proof. intros Hw <- ->. rewrite (rv_file f w Hw), seq_S, fmap_app, concat_app. cbn. by rewrite app_nil_r. Qed.

Lemma end_cmd_ok f n : c_passive ns !! f = Some n -> end_cmd n = Ok (end_word f).
Proof.
  intros Hn. destruct (cs_passive Hcs f n Hn) as (_ & _ & _ & El & Hfit). unfold end_cmd, end_word. rewrite Hn, El. cbn [fmap option_fmap option_map default from_option].
  assert (Ec : concat [le32 (cp_ip n); bytes_of f] = le32 (cp_ip n) ++ bytes_of f) by (cbn; by rewrite app_nil_r).
  assert (Elen : length (concat [le32 (cp_ip n); bytes_of f]) = (length f + 4)%nat) by (rewrite Ec, length_app, length_le32, length_bytes_of; lia).
  pose proof (filled [le32 (cp_ip n); bytes_of f]) as Hfill. cbn [chunks] in Hfill. rewrite length_le32, Elen, Ec in Hfill. apply Hfill. lia.
Qed.

Lemma passive_step st f n w : cprogress st -> c_passive ns !! f = Some n -> s_passive st !! f = Some w ->
  (exists w' r, passiveReceiver conf n w (s_servers st) = Ok (w', r) /\ receiver_count w' = S (receiver_count w) /\
     cprogress (mkCState (s_helpers st) (s_repairer st) (<[f := w']> (s_passive st)) r (s_client st) (s_ended st))) \/
  (passiveReceiver conf n w (s_servers st) = Fault Blocked /\ ~ receiver_ready st f w).
Proof.
  intros Hst Hn Hw. pose proof (cg_receiver st Hst f w Hw) as Hat. pose proof (cg_lanes st Hst) as Hl. destruct (cs_passive Hcs f n Hn) as (Hin & Hprev & Hreq & El & Hfit).
  destruct (other_in f Hin) as (Hf & Hfo & _). destruct (file_in f Hf) as [_ Hpos]. pose proof (share_bound st (pos f) Hst Hpos) as Hsb. unfold receiver_count, receiver_ready.
  unfold passiveReceiver. rewrite Hprev, Hreq, El. destruct (Nat.ltb_spec (pr_got w) cnt) as [Hlt|Hge].
  - destruct (pktOutput_ok conf _ Hpo Hlt) as [b ->]. cbn [res_of_option]. rewrite !bind_ok.
    assert (Hdone : pr_done w = false) by (destruct (pr_done w) eqn:E; [|done]; pose proof (rv_done _ _ Hat E); lia).
    assert (Epop : popped st (LOut f) = pr_got w) by (cbn; rewrite decide_False, Hw by done; done).
    destruct (lanes_pop ip lane_key lane_stream lane_valid lane_inj _ _ _ (LOut f) Hl Hf) as [(r' & Hlt2 & Hpop & Hnext)|[E Hpop]].
    + rewrite Epop in Hlt2, Hpop. cbn [lane_key lane_stream pushed] in Hlt2, Hpop. left. rewrite Hpop. cbn [res_of_option]. rewrite bind_ok.
      assert (Hs : slice (repaired (pos f) (pr_got w)) 0 size = Some (repaired (pos f) (pr_got w))).
      { rewrite <- (repaired_ok (pos f) _ Hpos Hlt) at 1. apply slice_full. }
      rewrite Hs. cbn [res_of_option]. rewrite bind_ok. eexists _, r'. split; [done|]. cbn [pr_got pr_done]. rewrite Hdone. split; [lia|].
      apply update_passive; [done|by eexists|split; cbn; [lia|by apply got_file|done]|]. apply Hnext.
      * intros [x|g|g] _; cbn; [done|done|]. destruct (decide (f = g)) as [<-|Hne]; [|by rewrite lookup_insert_ne].
        rewrite lookup_insert_eq, Hw. cbn. by rewrite Hdone.
      * cbn. by rewrite !decide_False, lookup_insert_eq, Hw by done.
      * intros [x|g|g] _ Hne; cbn; [done| |done]. case_decide; [done|]. by rewrite lookup_insert_ne by congruence.
    + right. cbn [lane_key] in Hpop. rewrite Hpop. split; [done|]. rewrite Epop in E. cbn [pushed] in E. lia.
  - pose proof (rv_got _ _ Hat). destruct (pr_done w) eqn:Hdone; cbn [negb guard_or]; [right; split; [done|]; intros [?|[_ ?]]; (done || lia)|left].
    rewrite bind_ok, (end_cmd_ok f n Hn), bind_ok. cbn [res_of_option]. rewrite bind_ok. eexists _, _. split; [done|]. split; [cbn; lia|].
    apply update_passive; [done|by eexists|split; cbn; [lia|by apply Hat|lia]|].
    assert (Ee : end_word f = lane_stream (LEnd f) (pushed st (LEnd f))) by done. rewrite Ee.
    apply (lanes_push ip lane_key lane_stream lane_valid lane_inj (pushed st) (popped st) _ _ _ (LEnd f)); try done; cbn.
    + by rewrite lookup_insert_eq, Hw; cbn; rewrite Hdone.
    + intros [x|g|g] _ Hne; cbn; [done|done|]. by rewrite lookup_insert_ne by congruence.
    + intros [x|g|g] _; cbn; [done| |done]. case_decide; [done|]. destruct (decide (f = g)) as [<-|Hne]; [by rewrite lookup_insert_eq, Hw|by rewrite lookup_insert_ne].
Qed.

Lemma update_client st c e r : cprogress st -> client_at c e ->
  let st' := mkCState (s_helpers st) (s_repairer st) (s_passive st) r c e in
  lanes_ok ip lane_key lane_stream lane_valid (pushed st') (popped st') r -> cprogress st'.
Proof. intros [Hlen Hh Hr Hn Hv Hc Hl] Hw' st' Hl'. by split. Qed.

Lemma first_file : take 1 files = [own].
Proof. pose proof own_at as E. destruct files as [|f l]; [done|]. cbn. by rewrite take_0. Qed.

Lemma collect_own st : cprogress st ->
  (exists c r, pipeCollector conf [ip] (take 1 files) (s_client st) (s_servers st) = Ok (c, r) /\
     length (c_contents c) = S (length (c_contents (s_client st))) /\ _processedPacket c = _processedPacket (s_client st) /\
     cprogress (mkCState (s_helpers st) (s_repairer st) (s_passive st) r c (s_ended st))) \/
  (pipeCollector conf [ip] (take 1 files) (s_client st) (s_servers st) = Fault Blocked /\
     length (c_contents (s_client st)) = share nj 0 (q_sent (s_repairer st))).
Proof.
  intros Hst. pose proof (cg_client st Hst) as Hc. pose proof (cg_lanes st Hst) as Hl. pose proof (cs_some Hcs) as Hnj.
  pose proof (share_bound st 0 Hst Hnj) as Hsb. assert (Hpos : pos own = 0%nat) by apply pos_at, own_at.
  rewrite first_file. unfold pipeCollector. cbn [length]. rewrite Nat.div_1_r, Nat.mod_1_r. cbn [lookup list_lookup res_of_option].
  assert (Epop : popped st (LOut own) = length (c_contents (s_client st))) by (cbn; by rewrite decide_True).
  destruct (lanes_pop ip lane_key lane_stream lane_valid lane_inj _ _ _ (LOut own) Hl own_in) as [(r' & Hlt & Hpop & Hnext)|[E Hpop]];
    rewrite ?Epop in *; cbn [lane_key lane_stream pushed] in *; rewrite Hpos in *.
  - left. assert (Hi : (length (c_contents (s_client st)) < cnt)%nat) by lia. rewrite (proj2 (Nat.ltb_lt _ _)) by done. cbn [guard_or].
    rewrite !bind_ok, Hpop. cbn [res_of_option]. rewrite bind_ok.
    assert (Hs : slice (repaired 0 (length (c_contents (s_client st)))) 0 size = Some (repaired 0 (length (c_contents (s_client st))))).
    { rewrite <- (repaired_ok 0 _ Hnj Hi) at 1. apply slice_full. }
    rewrite Hs. cbn [res_of_option]. rewrite bind_ok. eexists _, r'. split; [done|]. cbn [c_contents _processedPacket]. rewrite length_app, Nat.add_1_r.
    split; [done|]. split; [done|]. destruct Hc as [C1 C2 C3 C4]. apply update_client; [done| |].
    + split; cbn [c_contents _processedPacket c_file]; [|rewrite length_app; cbn; lia|done|done]. rewrite length_app, Nat.add_1_r, seq_S, fmap_app. cbn. by rewrite <- C1.
    + apply Hnext.
      * by intros [x|f|f] _.
      * cbn. rewrite decide_True by done. by rewrite length_app, Nat.add_1_r.
      * intros [x|f|f] _ Hne; cbn; [done| |done]. by rewrite !decide_False by congruence.
  - right. split; [|done]. rewrite !bind_ok, Hpop. by destruct (_ <? cnt)%nat.
Qed.

Lemma forward_own st : cprogress st ->
  (exists c, pipeForwardWorker conf ip (take 1 files) (s_client st) (s_servers st) = Ok (c, s_servers st) /\
     length (c_contents c) = length (c_contents (s_client st)) /\ _processedPacket c = S (_processedPacket (s_client st)) /\
     cprogress (mkCState (s_helpers st) (s_repairer st) (s_passive st) (s_servers st) c (s_ended st))) \/
  (pipeForwardWorker conf ip (take 1 files) (s_client st) (s_servers st) = Fault Blocked /\
     _processedPacket (s_client st) = length (c_contents (s_client st))).
Proof.
  intros Hst. pose proof (cg_client st Hst) as Hc. pose proof (cg_lanes st Hst) as Hl. destruct Hc as [C1 C2 C3 C4].
  rewrite first_file. unfold pipeForwardWorker. cbn [length]. rewrite Nat.div_1_r, Nat.mod_1_r. cbn [lookup list_lookup res_of_option Nat.eqb].
  destruct (decide (_processedPacket (s_client st) < length (c_contents (s_client st)))%nat) as [Hlt|Hge].
  - left. rewrite !(proj2 (Nat.ltb_lt _ _)) by lia. cbn [guard_or]. rewrite !bind_ok.
    assert (Ep : c_contents (s_client st) !! _processedPacket (s_client st) = Some (repaired 0 (_processedPacket (s_client st)))).
    { rewrite C1, list_lookup_fmap, lookup_seq_lt by done. done. }
    rewrite Ep. cbn [res_of_option]. rewrite bind_ok. eexists. split; [done|]. split; [done|]. split; [done|].
    apply update_client; [done| |].
    + split; cbn [c_contents _processedPacket c_file]; [done|lia| |].
      * rewrite seq_S, fmap_app, concat_app, C3. cbn. by rewrite app_nil_r.
      * split; [lia|]. intros H0. pose proof (proj2 C4 H0). lia.
    + eapply lanes_same; [exact Hl|done|by intros [x|f|f] _].
  - right. split; [|lia]. rewrite (proj2 (Nat.ltb_ge (_processedPacket (s_client st)) (length (c_contents (s_client st))))) by lia. by destruct (_ <? cnt)%nat.
Qed.

Lemma end_own st : cprogress st ->
  (exists r, wait_end conf ip files (s_client st) (s_ended st) (s_servers st) = Ok (S (s_ended st), r) /\
     cprogress (mkCState (s_helpers st) (s_repairer st) (s_passive st) r (s_client st) (S (s_ended st)))) \/
  (wait_end conf ip files (s_client st) (s_ended st) (s_servers st) = Fault Blocked /\
     (_processedPacket (s_client st) = cnt -> forall f, files !! S (s_ended st) = Some f -> from_option pr_done false (s_passive st !! f) = false)).
Proof.
  intros Hst. pose proof (cg_client st Hst) as Hc. pose proof (cg_lanes st Hst) as Hl. destruct Hc as [C1 C2 C3 C4].
  unfold wait_end. destruct (Nat.eqb_spec (_processedPacket (s_client st)) cnt) as [E|E]; [|right; split; [done|]; intros E2; lia].
  cbn [guard_or]. rewrite bind_ok. destruct (files !! S (s_ended st)) as [f|] eqn:Ef; [|right; by split]. cbn [res_of_option]. rewrite bind_ok.
  destruct (other_at _ _ Ef) as [Hin Hpos]. pose proof (lookup_lt_Some _ _ _ Ef) as Hlen.
  assert (Epop : popped st (LEnd f) = 0%nat) by (cbn; rewrite Hpos; by rewrite (proj2 (Nat.leb_gt _ _)) by lia).
  destruct (lanes_pop ip lane_key lane_stream lane_valid lane_inj _ _ _ (LEnd f) Hl Hin) as [(r' & Hlt & Hpop & Hnext)|[E2 Hpop]];
    rewrite ?Epop in *; cbn [lane_key lane_stream pushed] in *; rewrite Hpop.
  - left. exists r'. cbn [res_of_option]. rewrite bind_ok. assert (Hw : exists n, c_passive ns !! f = Some n).
    { apply (cg_nodes st Hst). destruct (s_passive st !! f); [by eexists|cbn in Hlt; lia]. }
    destruct Hw as [n Hn]. unfold end_word. rewrite Hn. cbn [fmap option_fmap option_map default from_option id].
    assert (Hs : slice (le32 (cp_ip n) ++ bytes_of f) 0 4 = Some (le32 (cp_ip n))) by (change 4%nat with (length (le32 (cp_ip n))); apply slice_here).
    rewrite Hs. cbn [res_of_option]. rewrite bind_ok. split; [done|]. apply update_client; [done|by split|]. apply Hnext.
    + by intros [x|g|g] _.
    + cbn. by rewrite Hpos, Nat.leb_refl.
    + intros [x|g|g] Hg Hne; cbn; [done|done|]. destruct (other_in g Hg) as (Hgf & _ & _). destruct (file_in g Hgf) as [Hgp _].
      assert (pos g <> S (s_ended st)) by (intros E3; apply Hne; f_equal; congruence).
      destruct (Nat.leb_spec (pos g) (S (s_ended st))), (Nat.leb_spec (pos g) (s_ended st)); (done || lia).
  - right. split; [done|]. intros _ g [= <-]. by destruct (from_option pr_done false (s_passive st !! f)).
Qed.

(** ** The whole system *)

Abbreviation cstep := (ConvRepair.cstep conf fresh ns ip ip files).

Definition receivers_count (p : gmap str preceiver) : nat := sum_list_with (fun f => from_option receiver_count 0%nat (p !! f)) (drop 1 files).

(** The iterations done, and those of a whole repair. *)
Definition conv_work (st : cstate) : nat :=
  (sum_list_with helper_count (s_helpers st) + repairer_count (s_repairer st) + receivers_count (s_passive st) +
   length (c_contents (s_client st)) + _processedPacket (s_client st) + s_ended st)%nat.
Definition all_conv : nat := ((4 * k + 2 * nj + 2) * cnt + (nj - 1) * (cnt + 2))%nat.

Lemma others_nodup : NoDup (drop 1 files).
Proof. eapply sublist_NoDup; [apply (cs_files Hcs)|apply sublist_drop]. Qed.

Lemma length_others : length (drop 1 files) = (nj - 1)%nat.
Proof. apply length_drop. Qed.

Lemma receivers_S (p : gmap str preceiver) f w w' : f ∈ drop 1 files -> p !! f = Some w -> receiver_count w' = S (receiver_count w) ->
  receivers_count (<[f := w']> p) = S (receivers_count p).
Proof.
  unfold receivers_count. pose proof others_nodup as Hnd. revert Hnd. generalize (drop 1 files). intros l Hnd Hf Hw E.
  induction l as [|g l IH]; [by apply not_elem_of_nil in Hf|]. apply NoDup_cons in Hnd as [Hg Hnd]. cbn [sum_list_with].
  apply elem_of_cons in Hf as [->|Hf].
  - rewrite lookup_insert_eq, Hw. cbn [from_option]. rewrite E. cbn. do 2 f_equal.
    assert (Hsame : forall l', g ∉ l' -> sum_list_with (fun f => from_option receiver_count 0%nat (<[g:=w']> p !! f)) l' =
      sum_list_with (fun f => from_option receiver_count 0%nat (p !! f)) l'); [|by apply Hsame].
    induction l' as [|h l' IH']; intros Hn; [done|]. apply not_elem_of_cons in Hn as [Hne Hn]. cbn [sum_list_with]. by rewrite lookup_insert_ne, IH' by done.
  - assert (f <> g) by (intros ->; done). rewrite lookup_insert_ne, IH by done. lia.
Qed.

Lemma cstep_progress st st' : cprogress st -> cstep st st' -> cprogress st' /\ conv_work st' = S (conv_work st).
Proof.
  intros Hst Hs. unfold conv_work. destruct Hs as [st x t n w w' r Hn Hw Hrun|st t w' r Hrun|st f n w w' r Hn Hw Hrun|st c r Hrun|st c r Hrun|st e r Hrun];
    cbn [s_helpers s_repairer s_passive s_servers s_client s_ended].
  - destruct (helper_step st x t n w Hst Hn Hw) as [(w2 & r2 & E & Hc & Hst')|[E _]]; rewrite E in Hrun; [|done]. injection Hrun as <- <-.
    split; [done|]. rewrite (sum_insert helper_count _ x w w2 Hw Hc). lia.
  - destruct (repairer_step st t Hst) as [(w2 & r2 & E & Hc & Hst')|[E _]].
    + intros id ->. destruct (decide (id < k)%nat) as [|Hge]; [done|]. exfalso. cbn [run_repairer] in Hrun. unfold readThread in Hrun.
      assert (En : q_read (s_repairer st) !! id = None) by (apply lookup_ge_None_2; rewrite (proj1 (ra_read _ (cg_repairer st Hst))); lia).
      by rewrite En in Hrun.
    + rewrite E in Hrun. injection Hrun as <- <-. split; [done|]. lia.
    + by rewrite E in Hrun.
  - destruct (passive_step st f n w Hst Hn Hw) as [(w2 & r2 & E & Hc & Hst')|[E _]]; rewrite E in Hrun; [|done]. injection Hrun as <- <-.
    split; [done|]. rewrite (receivers_S _ f w w2) by (done || by apply (cs_passive Hcs f n)). lia.
  - destruct (collect_own st Hst) as [(c2 & r2 & E & E1 & E2 & Hst')|[E _]]; rewrite E in Hrun; [|done]. injection Hrun as <- <-. split; [done|]. lia.
  - destruct (forward_own st Hst) as [(c2 & E & E1 & E2 & Hst')|[E _]]; rewrite E in Hrun; [|done]. injection Hrun as <- <-. split; [done|]. lia.
  - destruct (end_own st Hst) as [(r2 & E & Hst')|[E _]]; rewrite E in Hrun; [|done]. injection Hrun as <- <-. split; [done|]. lia.
Qed.

Lemma cno_crash st : cprogress st -> ~ ccrash conf fresh ns ip ip files st.
Proof.
  intros Hst (e & He & [(x & t & n & w & Hn & Hw & E)|[(t & Ht & E)|[(f & n & w & Hn & Hw & E)|[E|[E|E]]]]]).
  - destruct (helper_step st x t n w Hst Hn Hw) as [(w2 & r2 & E2 & _)|[E2 _]]; congruence.
  - destruct (repairer_step st t Hst) as [(w2 & r2 & E2 & _)|[E2 _]]; [|congruence..].
    intros id ->. destruct (cs_repairer Hcs) as (_ & <- & _). by apply Ht.
  - destruct (passive_step st f n w Hst Hn Hw) as [(w2 & r2 & E2 & _)|[E2 _]]; congruence.
  - destruct (collect_own st Hst) as [(c2 & r2 & E2 & _)|[E2 _]]; congruence.
  - destruct (forward_own st Hst) as [(c2 & E2 & _)|[E2 _]]; congruence.
  - destruct (end_own st Hst) as [(r2 & E2 & _)|[E2 _]]; congruence.
Qed.

Lemma crun_progress m st st' : cprogress st -> nsteps cstep m st st' -> cprogress st' /\ conv_work st' = (m + conv_work st)%nat.
Proof.
  intros Hst Hn. induction Hn as [st|m st st1 st' Hs Hn IH]; [done|].
  destruct (cstep_progress st st1 Hst Hs) as [Hst1 E]. destruct (IH Hst1) as [H1 H2]. split; [done|lia].
Qed.

(** ** The end of a run *)

(** Where one of the parts can still go on, the system has a step. *)
Lemma helpers_end st x w : cprogress st -> s_helpers st !! x = Some w -> (exists st', cstep st st') \/ (w_sent w = cnt /\ helper_count w = 3 * cnt)%nat.
Proof.
  intros Hst Hw. pose proof (ha_order _ _ (cg_helper st Hst x w Hw)) as Ho. assert (Hx : (x < k)%nat) by (rewrite <- (cg_len st Hst); by eapply lookup_lt_Some).
  destruct (lookup_lt_is_Some_2 (c_helpers ns) x Hx) as [n Hn].
  assert (Hgo : forall t, helper_ready w t -> exists st', cstep st st').
  { intros t Ht. destruct (helper_step st x t n w Hst Hn Hw) as [(w2 & r2 & E & _)|[_ Hno]]; [|done]. eexists. by eapply cstep_helper. }
  destruct (decide (w_read w < cnt)%nat); [left; by apply (Hgo TRead)|]. destruct (decide (w_pulled w < w_read w)%nat); [left; by apply (Hgo TPull)|].
  destruct (decide (w_sent w < w_pulled w)%nat); [left; by apply (Hgo TSend)|]. right. unfold helper_count. lia.
Qed.

Lemma helpers_done st : cprogress st -> (exists st', cstep st st') \/ forall x w, s_helpers st !! x = Some w -> (w_sent w = cnt /\ helper_count w = 3 * cnt)%nat.
Proof.
  intros Hst. assert (H1 : forall n, (n <= length (s_helpers st))%nat -> (exists st', cstep st st') \/ forall x w, (x < n)%nat -> s_helpers st !! x = Some w -> (w_sent w = cnt /\ helper_count w = 3 * cnt)%nat).
  2: { destruct (H1 _ (le_n _)) as [|H2]; [by left|right]. intros x w Hx. apply (H2 x w); [by eapply lookup_lt_Some|done]. }
  induction n as [|n IH]; intros Hn; [right; lia|]. destruct IH as [|Hd]; [lia|by left|]. destruct (lookup_lt_is_Some_2 (s_helpers st) n) as [w Hw]; [lia|].
  destruct (helpers_end st n w Hst Hw) as [|Hend]; [by left|right]. intros x v Hx Hv. destruct (decide (x = n)) as [->|]; [by replace v with w by congruence|].
  apply (Hd x v); (done || lia).
Qed.

Lemma repairer_go st t : cprogress st -> (forall id, t = RFetch id -> (id < k)%nat) -> repairer_ready st t -> exists st', cstep st st'.
Proof.
  intros Hst Ht Hr. destruct (repairer_step st t Hst Ht) as [(w2 & r2 & E & _)|[_ Hno]]; [|done]. eexists. by eapply cstep_repairer.
Qed.

Lemma repairer_done st : cprogress st -> (forall x w, s_helpers st !! x = Some w -> w_sent w = cnt) ->
  (exists st', cstep st st') \/ (q_sent (s_repairer st) = nj * cnt /\ repairer_count (s_repairer st) = (k + 2 * nj) * cnt)%nat.
Proof.
  intros Hst Hs. pose proof (cg_repairer st Hst) as Hw. destruct (ra_read _ Hw) as [Hl Hb].
  assert (Hsent : forall x, (x < k)%nat -> w_sent (s_helpers st !!! x) = cnt).
  { intros x Hx. apply (Hs x). apply list_lookup_lookup_total_lt. by rewrite (cg_len st Hst). }
  assert (H1 : (exists st', cstep st st') \/ forall x c, q_read (s_repairer st) !! x = Some c -> c = cnt).
  { assert (H2 : forall n, (n <= k)%nat -> (exists st', cstep st st') \/ forall x c, (x < n)%nat -> q_read (s_repairer st) !! x = Some c -> c = cnt).
    2: { destruct (H2 k (le_n _)) as [|H3]; [by left|right]. intros x c Hx. apply (H3 x c); [rewrite <- Hl; by eapply lookup_lt_Some|done]. }
    induction n as [|n IH]; intros Hn; [right; lia|]. destruct IH as [|Hd]; [lia|by left|]. destruct (read_at _ n Hw Hn) as [Hc Hle].
    destruct (decide (q_read (s_repairer st) !!! n < cnt)%nat) as [Hlt|Hge].
    - left. apply (repairer_go st (RFetch n) Hst); [by intros ? [= <-]|]. cbn [repairer_ready]. by rewrite Hsent.
    - right. intros x c Hx Hxc. destruct (decide (x = n)) as [->|]; [|apply (Hd x c); (done || lia)]. rewrite Hc in Hxc. injection Hxc as <-. lia. }
  destruct H1 as [|Hall]; [by left|]. assert (Hleast : _waitingToPull (s_repairer st) = cnt).
  { rewrite (ra_least _ Hw). apply Nat.le_antisymm; [apply least_le|]. apply least_ge; [done|]. intros i c Hi. by rewrite (Hall i c Hi). }
  pose proof (ra_pulled _ Hw) as Hp. pose proof (ra_sent _ Hw) as Hse. rewrite Hleast in Hp.
  destruct (decide (q_pulled (s_repairer st) < nj * cnt)%nat) as [Hlt|].
  { left. apply (repairer_go st RPull Hst); [done|]. cbn [repairer_ready]. by rewrite Hleast. }
  destruct (decide (q_sent (s_repairer st) < q_pulled (s_repairer st))%nat) as [Hlt|]; [left; by apply (repairer_go st RSend Hst)|].
  right. split; [lia|]. unfold repairer_count. rewrite (sum_const _ _ cnt), Hl by done. nia.
Qed.

(** Every other lost block has a node that waits for it. *)
Definition all_wait : Prop := forall f, f ∈ drop 1 files -> is_Some (c_passive ns !! f).

Lemma receiver_done st f w : cprogress st -> q_sent (s_repairer st) = (nj * cnt)%nat -> s_passive st !! f = Some w ->
  (exists st', cstep st st') \/ (pr_got w = cnt /\ pr_done w = true).
Proof.
  intros Hst Hs Hw. destruct (proj1 (cg_nodes st Hst f)) as [n Hn]; [by eexists|].
  destruct (passive_step st f n w Hst Hn Hw) as [(w2 & r2 & E & _)|[_ Hno]]; [left; eexists; by eapply cstep_passive|right].
  pose proof (rv_got _ _ (cg_receiver st Hst f w Hw)) as Hg. unfold receiver_ready in Hno.
  rewrite Hs, (share_all nj (cs_some Hcs)) in Hno.
  assert (E : pr_got w = cnt) by (destruct (decide (pr_got w < cnt)%nat); [destruct Hno; by left|lia]).
  split; [done|]. destruct (pr_done w); [done|]. destruct Hno. by right.
Qed.

Lemma receivers_done st : cprogress st -> all_wait -> q_sent (s_repairer st) = (nj * cnt)%nat ->
  (exists st', cstep st st') \/ (receivers_count (s_passive st) = (nj - 1) * (cnt + 1))%nat /\
    forall f, f ∈ drop 1 files -> exists w, s_passive st !! f = Some w /\ pr_got w = cnt /\ pr_done w = true.
Proof.
  intros Hst Hall Hs. rewrite <- length_others.
  assert (H1 : forall l, (forall f, f ∈ l -> f ∈ drop 1 files) -> (exists st', cstep st st') \/
    (sum_list_with (fun f => from_option receiver_count 0%nat (s_passive st !! f)) l = length l * (cnt + 1))%nat /\
      forall f, f ∈ l -> exists w, s_passive st !! f = Some w /\ pr_got w = cnt /\ pr_done w = true); [|by apply H1].
  induction l as [|f l IH]; intros Hin; [right; split; [done|by intros f ?%not_elem_of_nil]|].
  destruct IH as [|[E Hd]]; [intros g Hg; apply Hin; by right|by left|].
  destruct (proj2 (cg_nodes st Hst f) (Hall f (Hin f ltac:(left)))) as [w Hw].
  destruct (receiver_done st f w Hst Hs Hw) as [|[Hg Hdn]]; [by left|right]. split.
  - cbn [sum_list_with length]. rewrite E, Hw. cbn [from_option]. unfold receiver_count. rewrite Hg, Hdn. lia.
  - intros g [->|Hin2]%elem_of_cons; [by exists w|by apply Hd].
Qed.

Lemma conv_next st : cprogress st -> all_wait -> (exists st', cstep st st') \/ conv_work st = all_conv.
Proof.
  intros Hst Hall. pose proof (cs_some Hcs) as Hnj. destruct (helpers_done st Hst) as [|Hh]; [by left|].
  destruct (repairer_done st Hst) as [|[Hs Hr]]; [intros x w Hx; by apply (Hh x w)|by left|].
  destruct (receivers_done st Hst Hall Hs) as [|[Hrc Hrd]]; [by left|].
  destruct (collect_own st Hst) as [(c & r & E & _)|[_ Hc]]; [left; eexists; by apply cstep_collect|]. rewrite Hs, (share_all nj Hnj) in Hc.
  destruct (forward_own st Hst) as [(c & E & _)|[_ Hf]]; [left; eexists; by apply cstep_forward|].
  destruct (end_own st Hst) as [(r & E & _)|[_ He]]; [left; eexists; by apply cstep_ended|]. right.
  pose proof (proj1 (ca_ended _ _ (cg_client st Hst))) as Hlt. destruct (decide (S (s_ended st) < nj)%nat) as [Hlt2|].
  - exfalso. destruct (lookup_lt_is_Some_2 files _ Hlt2) as [f Hf2]. destruct (other_at _ _ Hf2) as [Hin _].
    destruct (Hrd f Hin) as (w & Hw & _ & Hd). specialize (He ltac:(lia) f Hf2). rewrite Hw in He. cbn in He. congruence.
  - unfold conv_work, all_conv. rewrite (sum_const helper_count _ (3 * cnt)%nat) by (intros x w Hx; by apply (Hh x w)). rewrite (cg_len st Hst). nia.
Qed.

(** ** Bounds and results *)

Lemma repairer_bound st : cprogress st -> (repairer_count (s_repairer st) <= (k + 2 * nj) * cnt)%nat.
Proof.
  intros Hst. pose proof (cg_repairer st Hst) as Hw. destruct (ra_read _ Hw) as [Hl Hb].
  destruct (sum_bound (fun c : nat => c) (q_read (s_repairer st)) cnt) as [Hsb _]; [exact Hb|]. rewrite Hl in Hsb.
  pose proof (ra_pulled _ Hw). pose proof (ra_sent _ Hw). assert (Hc : (_waitingToPull (s_repairer st) <= cnt)%nat) by (rewrite (ra_least _ Hw); apply least_le).
  unfold repairer_count. nia.
Qed.

Lemma receiver_bound st f : cprogress st -> (from_option receiver_count 0%nat (s_passive st !! f) <= cnt + 1)%nat.
Proof.
  intros Hst. destruct (s_passive st !! f) as [w|] eqn:Hw; cbn; [|lia]. pose proof (rv_got _ _ (cg_receiver st Hst f w Hw)). unfold receiver_count. destruct (pr_done w); lia.
Qed.

(** How the work is shared between the parts. *)
Lemma conv_parts st : cprogress st -> (conv_work st <= all_conv)%nat /\
  (conv_work st = all_conv -> _processedPacket (s_client st) = cnt /\ s_ended st = (nj - 1)%nat /\
     forall f, f ∈ drop 1 files -> exists w, s_passive st !! f = Some w /\ pr_got w = cnt /\ pr_done w = true).
Proof.
  intros Hst. pose proof (cs_some Hcs) as Hnj. pose proof (repairer_bound st Hst) as Hrb. destruct (cg_client st Hst) as [_ C2 _ [C4 _]].
  destruct (sum_bound helper_count (s_helpers st) (3 * cnt)%nat) as [Hhb _].
  { intros x w Hw. pose proof (ha_order _ _ (cg_helper st Hst x w Hw)). unfold helper_count. lia. }
  rewrite (cg_len st Hst) in Hhb. destruct (sum_bound (fun f => from_option receiver_count 0%nat (s_passive st !! f)) (drop 1 files) (cnt + 1)%nat) as [Hpb Hpe].
  { intros i f _. by apply receiver_bound. }
  rewrite length_others in Hpb, Hpe. fold (receivers_count (s_passive st)) in Hpb, Hpe. unfold conv_work, all_conv. split; [nia|]. intros E.
  split; [nia|]. split; [nia|]. intros f [i Hi]%list_elem_of_lookup. pose proof (Hpe ltac:(nia) i f Hi) as Hf. destruct (s_passive st !! f) as [w|] eqn:Hw; cbn in Hf; [|lia].
  exists w. pose proof (rv_got _ _ (cg_receiver st Hst f w Hw)). unfold receiver_count in Hf. destruct (pr_done w); (split_and!; done || lia).
Qed.

(** The start: new workers, and nothing in the lists of the repair. *)
Record conv_started (st : cstate) : Prop := {
  cv_helpers : s_helpers st = replicate k (cleanup conf);
  cv_repairer : s_repairer st = start_repairer conf rp;
  cv_passive : s_passive st = (fun _ => mkPReceiver [] 0 false) <$> c_passive ns;
  cv_client : s_client st = mkMClient [] 0 [] /\ s_ended st = 0%nat;
  cv_lists l : lane_valid l -> waiting_in (s_servers st) ip (lane_key l) = []
}.

Lemma conv_started_progress st : conv_started st -> cprogress st /\ conv_work st = 0%nat.
Proof.
  intros [Hh Hr Hp [Hc He] Hl]. pose proof (cs_some Hcs) as Hnj. destruct (cs_repairer Hcs) as (_ & Ek & Ej). pose proof some_k as Hk.
  assert (Hleast : least cnt (replicate k 0%nat) = 0%nat).
  { destruct (least_le (replicate k 0%nat) cnt) as [_ H1]. pose proof (H1 0%nat 0%nat ltac:(apply lookup_replicate_2; lia)). lia. }
  assert (Hpf : forall f w, s_passive st !! f = Some w -> w = mkPReceiver [] 0 false).
  { intros f w. rewrite Hp, lookup_fmap. destruct (c_passive ns !! f); [|done]. by intros [= <-]. }
  split.
  - split.
    + by rewrite Hh, length_replicate.
    + intros x w. rewrite Hh. intros [-> _]%lookup_replicate. split; cbn; [lia|done| |].
      * intros i Hi. rewrite lookup_replicate_2 by done. by rewrite bool_decide_false by lia.
      * intros i Hi. rewrite lookup_replicate_2 by done. eexists. split; [done|lia].
    + rewrite Hr. unfold start_repairer. rewrite Ek, Ej. split; cbn [_diskPkts3 _waitingToPullerNum _waitingToPull _toSend q_read q_pulled q_sent].
      * split; [apply length_replicate|]. intros x c [-> _]%lookup_replicate. lia.
      * done.
      * done.
      * lia.
      * done.
      * done.
      * apply length_replicate.
      * intros i row [-> _]%lookup_replicate. split; cbn [q_read q_pulled].
        -- apply length_replicate.
        -- apply Forall_replicate, length_replicate.
        -- intros x c [-> _]%lookup_replicate. lia.
        -- lia.
    + intros f. rewrite Hp, lookup_fmap. destruct (c_passive ns !! f); cbn; split; intros [? ?]; (done || by eexists).
    + intros f w Hf. rewrite (Hpf f w Hf). split; cbn; (done || lia).
    + rewrite Hc, He. split; cbn; (done || lia).
    + intros l Hv. rewrite Hl by done. assert (E : pushed st l = 0%nat /\ popped st l = 0%nat).
      { destruct l as [x|f|f]; cbn in *.
        - rewrite Hh, Hr. unfold start_repairer. cbn. rewrite Ek, !lookup_total_replicate_2 by done. done.
        - rewrite Hr, Hc. unfold start_repairer. cbn. rewrite (share_0 nj). case_decide; [done|]. destruct (s_passive st !! f) as [w|] eqn:Hw; [|done].
          by rewrite (Hpf f w Hw).
        - destruct (other_in f Hv) as (_ & _ & Hpos). rewrite He, (proj2 (Nat.leb_gt _ _)) by lia. destruct (s_passive st !! f) as [w|] eqn:Hw; [|done].
          by rewrite (Hpf f w Hw). }
      destruct E as [-> ->]. done.
  - unfold conv_work. rewrite Hc, He, Hh, Hr. unfold start_repairer, repairer_count. cbn [q_read q_pulled q_sent c_contents _processedPacket length]. rewrite Ek.
    rewrite (sum_const helper_count _ 0) by (by intros x w [-> _]%lookup_replicate). rewrite (sum_const (fun c : nat => c) _ 0) by (by intros x c [-> _]%lookup_replicate).
    unfold receivers_count. rewrite (sum_const _ _ 0); [lia|]. intros i f _. destruct (s_passive st !! f) as [w|] eqn:Hw; [|done]. by rewrite (Hpf f w Hw).
Qed.

(** The file of the client, and those of the nodes that wait. *)
Lemma conv_result st : cprogress st -> conv_work st = all_conv ->
  c_file (s_client st) = concat (repaired 0 <$> seq 0 cnt) /\ s_ended st = (nj - 1)%nat /\
  forall j f, (0 < j)%nat -> files !! j = Some f -> exists w, s_passive st !! f = Some w /\ pr_file w = concat (repaired j <$> seq 0 cnt).
Proof.
  intros Hst E. destruct (proj2 (conv_parts st Hst) E) as (Hp & He & Hd). split_and!; [|done|].
  - rewrite (ca_file _ _ (cg_client st Hst)). by rewrite Hp.
  - intros [|j] f Hj Hf; [lia|]. destruct (other_at j f Hf) as [Hin Hpos]. destruct (Hd f Hin) as (w & Hw & Hg & _). exists w. split; [done|].
    by rewrite (rv_file _ _ (cg_receiver st Hst f w Hw)), Hg, Hpos.
Qed.

(** A lost block no node waits for: the client never gets past it. *)
Lemma conv_waits_for st i f : cprogress st -> files !! S i = Some f -> c_passive ns !! f = None -> (s_ended st <= i)%nat.
Proof.
  intros Hst Hf Hn. destruct (other_at i f Hf) as [Hin Hpos]. destruct (cg_lanes st Hst (LEnd f) Hin) as [Hle _]. cbn in Hle.
  assert (Es : s_passive st !! f = None).
  { destruct (s_passive st !! f) eqn:Es; [|done]. destruct (proj1 (cg_nodes st Hst f)) as [? ?]; [by eexists|congruence]. }
  rewrite Es, Hpos in Hle. cbn [from_option] in Hle. revert Hle. destruct (Nat.leb_spec (S i) (s_ended st)); lia.
Qed.
End system.
