(* ===== verification/ConvCoord.v ===== *)
(** * The coordinator of the conventional repair (ConvCoordinator.cc)

    [requestHandler] sends one command to every helper, one to the client's node
    with the coefficients of all the lost blocks, and, in HDFS, a message to
    every other node that waits for its block; the reply is the client's own
    address. *)
From Stdlib Require Import Ascii Sorted.
From stdpp Require Import strings.
From S2P Require Import Prelude Command Text Config PathSelection Coordinator Packet Metadata DrCmd Request PipeCoord MulCoord PipeRepair MulRepair ConvRepair.

Section handler.
Context `{MB : MetadataBase} (conf : DRConfig) (_ip2Ctx : list (Z * str)).
Abbreviation ecK := (_ecK (_conf conf)).

(** The command to a helper; [tmp] is 1, in the place of the coefficient. *)
Definition conv_helper_cmd (idx requestorIP tmp nextIP i : Z) (filename localFile : str) : res (list Z) :=
  let requestedFileNameLen := length filename in
  let localFileNameLen := length localFile in
  mem ← memcpys [
    (0, le32 idx);
    (4 + 0, le32 (Z.of_nat ecK));
    (4 + 4, le32 requestorIP);
    (4 + 8, le32 tmp);
    (4 + 12, le32 nextIP);
    (4 + 16, le32 i);
    (4 + 20, le32 (Z.of_nat requestedFileNameLen));
    (4 + 24, bytes_of filename);
    (4 + (24 + requestedFileNameLen), le32 (Z.of_nat localFileNameLen));
    (4 + (24 + requestedFileNameLen + 4), bytes_of localFile)]%nat (zeros COMMAND_MAX_LENGTH);
  Ok (take (32 + requestedFileNameLen + localFileNameLen) mem).

(** The push of the command to the helper [i]. *)
Definition conv_push (requestorIP : Z) (filename : str) (stripe : list (Z * str)) (i : Z) (cmds : list local_push) : res (list local_push) :=
  it ← vec stripe i;
  idx ← helper_idx _ip2Ctx it.1;
  next ← (if i =? Z.of_nat ecK - 1 then vec stripe 0 else vec stripe (i + 1));
  drCmd ← conv_helper_cmd idx requestorIP 1 next.1 i filename it.2;
  q ← vec _ip2Ctx idx;
  Ok (cmds ++ [(q.2, drCmd)]).

(** [addReqInfo]: the node of a lost block, its name and the coefficients of the
    helpers, at [cmdbase] of the command, which starts four bytes into the
    buffer. *)
Definition addReqInfo (_status : gmap str Z) (failedIP : Z) (info : str * list (Z * str)) '((drCmd, cmdbase) : list Z * nat) : res (list Z * nat) :=
  let lostFilename := info.1 in
  let len := length lostFilename in
  coef ← getCoefficient lostFilename (Some _status);
  drCmd ← memcpys [
    (4 + cmdbase, le32 failedIP);
    (4 + (cmdbase + 4), le32 (Z.of_nat len));
    (4 + (cmdbase + 8), bytes_of lostFilename)]%nat drCmd;
  let cmdbase := (cmdbase + 8 + len)%nat in
  drCmd ← for_each (seq 0 ecK) (fun i drCmd =>
    it ← res_of_option Undef (info.2 !! i);
    memcpys [(4 + (cmdbase + 4 * i), le32 (default 0%Z (coef !! it.2)))]%nat drCmd) drCmd;
  Ok (drCmd, (cmdbase + 4 * ecK)%nat).

(** The helpers' blocks are marked 2: for each address the first block of
    [allBlks] there. *)
Definition mark_helpers (allBlks : list (Z * str)) (ips : list Z) (_status : gmap str Z) : gmap str Z :=
  foldl (fun st a => match List.find (fun it => it.1 =? a) allBlks with Some it => <[it.2 := 2]> st | None => st end) _status ips.

(** The command to the client's node: the addresses of the helpers, the name of
    the block, and [addReqInfo] of every lost file that has helpers. *)
Definition active_cmd (idx requestorIP : Z) (nfails : nat) (ips : list Z) (filename : str) (_status : gmap str Z)
    (lostFiles : list (str * Z)) (stripe_mul : stripes_mul) : res (list Z) :=
  mem ← memcpys [
    (0, le32 idx);
    (4 + 0, le32 (Z.of_nat ecK));
    (4 + 4, le32 requestorIP);
    (4 + 8, le32 0xffffffff);
    (4 + 12, le32 (Z.of_nat nfails));
    (4 + 20, ints ips);
    (4 + (20 + 4 * ecK), le32 (Z.of_nat (length filename)));
    (4 + (24 + 4 * ecK), bytes_of filename)]%nat (zeros COMMAND_MAX_LENGTH);
  '(mem, cmdbase) ← for_each lostFiles (fun it o =>
    match List.find (fun it2 => bool_decide (it2.2.1 = it.1)) stripe_mul with
    | Some it2 => addReqInfo _status it.2 it2.2 o
    | None => Ok o
    end) (mem, (24 + 4 * ecK + length filename)%nat);
  Ok (take (cmdbase + 4) mem).

(** The message to the node of a lost block, which is not the client's. *)
Definition conv_passive (requestorIP : Z) (_status : gmap str Z) (it : Z * (str * list (Z * str))) (msgs : list passive_push) : res (list passive_push) :=
  let '(failedIP, (lostFilename, stripe)) := it in
  if failedIP =? requestorIP then Ok msgs else
  _ ← getCoefficient lostFilename (Some _status);
  idx ← helper_idx _ip2Ctx failedIP;
  drCmd ← passive_cmd requestorIP lostFilename;
  x ← vec _ip2Ctx idx;
  Ok (msgs ++ [(x.1, drCmd)]).

(** [requestHandler] on one request: the messages to the nodes that wait, and
    what it pushes to its own Redis.  [stripe_mul[requestorIP]] is made, empty,
    when it is not there. *)
Definition conv_requestHandler (reqStr : list Z) : res (list passive_push * list local_push) :=
  guard_or (Exit 1) (4 <=? length reqStr)%nat;;
  requestorIP ← read_uint reqStr 0;
  rq ← parseFRRequest ecK reqStr requestorIP;
  let filename := rq_file rq in
  if negb (rq_index rq =? 0) then Ok ([], [(filename, le32 requestorIP)]) else
  '(stripe_mul, _status) ← getStripeBlksMul filename requestorIP (Some (<[filename := 0]> (rq_status rq))) 0;
  let '(flag, _) := outputStripeMul conf stripe_mul in
  if flag =? 0 then Ok ([], []) else
  let own := List.find (fun it => it.1 =? requestorIP) stripe_mul in
  let stripe_mul := match own with Some _ => stripe_mul | None => ip_insert (requestorIP, ([], [])) stripe_mul end in
  let stripe := default [] ((fun it => it.2.2) <$> own) in
  cmds ← for_each (seqZ 0 (Z.of_nat ecK)) (conv_push requestorIP filename stripe) [];
  ips ← for_each (seq 0 ecK) (fun i ips => it ← res_of_option Undef (stripe !! i); Ok (ips ++ [it.1])) [];
  idx ← helper_idx _ip2Ctx requestorIP;
  allBlks ← getAllBlks filename;
  let _status := mark_helpers allBlks ips _status in
  drCmd ← active_cmd idx requestorIP (length stripe_mul) ips filename _status (rq_lost rq) stripe_mul;
  q ← vec _ip2Ctx idx;
  passive ← (if bool_decide (_fileSysType conf = lit "HDFS") then for_each stripe_mul (conv_passive requestorIP _status) [] else Ok []);
  ret ← res_of_option Undef (rq_lost rq !! 0%nat);
  Ok (passive, cmds ++ [(q.2, drCmd); (ret.1, le32 requestorIP)]).
End handler.

(** ** The bytes of the commands *)

Section bytes.
Context `{MB : MetadataBase} (conf : DRConfig) (_ip2Ctx : list (Z * str)).
Abbreviation k := (_ecK (_conf conf)).

(** The command to a helper has the layout of DrCmd.v, with [tmp] for the
    address before and no coefficient. *)
Lemma conv_helper_pipe idx requestorIP tmp nextIP i f l : Z.of_nat (length f) < 2^32 ->
  conv_helper_cmd conf idx requestorIP tmp nextIP i f l = pipe_helper_cmd idx (Z.of_nat k) requestorIP tmp nextIP i 0 f l.
Proof.
  intros Hf. unfold conv_helper_cmd, pipe_helper_cmd, coef_len. rewrite Z.shiftl_0_l, (wrap_u32_id 0), Z.lor_0_l, wrap_u32_id by (unfold is_u32; lia).
  destruct (memcpys _ _); [|done]. rewrite !bind_ok. do 2 f_equal. lia.
Qed.

#[local] Opaque le32 bytes_of.

(** What a helper makes of it. *)
Lemma conv_helper_parsed jobs requestorIP nextIP i f l : (k < 256)%nat -> is_u32 requestorIP -> is_u32 nextIP -> 0 <= i < 2^31 ->
  Z.of_nat (length f) < 2^16 -> Z.of_nat (length l) < 2^16 ->
  parse_conv_cmd jobs (cmd_bytes (mkDrCmd (Z.of_nat k) requestorIP 1 nextIP i 0 f l)) =
    Ok (mkConvCmd (Z.of_nat k) requestorIP 1 nextIP i f l, jobs).
Proof.
  intros Hk Hr Hn Hi Hf Hl. unfold parse_conv_cmd, cmd_bytes. cbn [dr_ecK dr_requestorIP dr_prevIP dr_nextIP dr_id dr_coefficient dr_lostBlkName dr_localBlkName].
  assert (Hc : coef_len 0 (length f) = Z.of_nat (length f)).
  { unfold coef_len. rewrite Z.shiftl_0_l, (wrap_u32_id 0), Z.lor_0_l, wrap_u32_id by (unfold is_u32; lia). done. }
  rewrite Hc, read_int_0, bind_ok by (unfold is_s32; lia).
  rewrite (read_uint_at (le32 (Z.of_nat k)) requestorIP _ 4), bind_ok by wire.
  rewrite (app_assoc (le32 (Z.of_nat k))), (read_int_at _ 1 _ 8), bind_ok by (try wire; unfold is_s32; lia).
  rewrite (app_assoc (_ ++ le32 requestorIP)), (read_uint_at _ nextIP _ 12), bind_ok by wire.
  rewrite (app_assoc (_ ++ le32 1)), (read_uint_at _ i _ 16), bind_ok by wire. cbn [Z.ltb Z.compare].
  rewrite (app_assoc (_ ++ le32 nextIP)), (read_uint_at _ (Z.of_nat (length f)) _ 20), bind_ok, Nat2Z.id by wire.
  rewrite (app_assoc (_ ++ le32 i)), (read_str_at _ f _ 24), bind_ok by wire.
  rewrite (app_assoc (_ ++ le32 (Z.of_nat (length f)))), (read_uint_at _ (Z.of_nat (length l)) _ (24 + length f)), bind_ok, Nat2Z.id by wire.
  rewrite (app_assoc (_ ++ bytes_of f)), <- (app_nil_r (bytes_of l)), (read_str_at _ l _ (28 + length f)), bind_ok by wire.
  by rewrite wrap_s32_id by (unfold is_s32; lia).
Qed.

(** A buffer written up to [pre] and zeroed behind. *)
Lemma memcpys_zeros pre bs n : (length (concat bs) <= n)%nat ->
  memcpys (chunks (length pre) bs) (pre ++ zeros n) = Ok ((pre ++ concat bs) ++ zeros (n - length (concat bs))).
Proof.
  intros Hn. rewrite memcpys_chunks by (unfold zeros; by rewrite length_replicate). unfold zeros. by rewrite drop_replicate, app_assoc.
Qed.

Lemma memcpys_app ws1 ws2 mem : memcpys (ws1 ++ ws2) mem = (m ← memcpys ws1 mem; memcpys ws2 m).
Proof. apply for_each_app. Qed.

(** One lost block in the command to the client's node. *)
Definition job_bytes (failedIP : Z) (f : str) (coefs : list Z) : list Z :=
  le32 failedIP ++ le32 (Z.of_nat (length f)) ++ bytes_of f ++ ints coefs.

Lemma length_job_bytes a f coefs : length (job_bytes a f coefs) = (8 + length f + 4 * length coefs)%nat.
Proof. unfold job_bytes. rewrite !length_app, !length_le32, length_bytes_of, length_ints. lia. Qed.

(** The coefficients of the helpers, in their order. *)
Definition coefs_of (coef : gmap str Z) (helpers : list (Z * str)) : list Z := (fun it : Z * str => default 0 (coef !! it.2)) <$> helpers.

Lemma addReqInfo_ok st a f helpers coef pre n : getCoefficient f (Some st) = Ok coef -> length helpers = k -> (4 <= length pre)%nat ->
  (8 + length f + 4 * k <= n)%nat ->
  addReqInfo conf st a (f, helpers) (pre ++ zeros n, length pre - 4)%nat =
    Ok ((pre ++ job_bytes a f (coefs_of coef helpers)) ++ zeros (n - (8 + length f + 4 * k)), length (pre ++ job_bytes a f (coefs_of coef helpers)) - 4)%nat.
Proof.
  intros Hc Hl Hpre Hn. unfold addReqInfo. cbn [fst snd]. rewrite Hc, bind_ok.
  set (bs := [le32 a; le32 (Z.of_nat (length f)); bytes_of f]).
  assert (Hbs : length (concat bs) = (8 + length f)%nat) by (cbn; rewrite !length_app, !length_le32, length_bytes_of; cbn; lia).
  pose proof (memcpys_zeros pre bs n ltac:(lia)) as E. unfold bs in E at 1. cbn [chunks] in E. rewrite !length_le32 in E.
  replace (4 + (length pre - 4))%nat with (length pre) by lia. replace (4 + (length pre - 4 + 4))%nat with (length pre + 4)%nat by lia.
  replace (4 + (length pre - 4 + 8))%nat with (length pre + 4 + 4)%nat by lia. rewrite E, bind_ok. set (pre1 := pre ++ concat bs).
  assert (Hp1 : length pre1 = (length pre + 8 + length f)%nat) by (unfold pre1; rewrite length_app; lia).
  destruct (for_each_total (fun i m => m = (pre1 ++ ints (take i (coefs_of coef helpers))) ++ zeros (n - (8 + length f) - 4 * i)) (seq 0 k)
    (fun i drCmd => it ← res_of_option Undef (helpers !! i); memcpys [((4 + (length pre - 4 + 8 + length f + 4 * i))%nat, le32 (default 0 (coef !! it.2)))] drCmd)
    (pre1 ++ zeros (n - length (concat bs)))) as (m & Em & ->).
  - cbn [take ints]. rewrite Hbs, app_nil_r. do 2 f_equal. lia.
  - intros y i m [-> Hy]%lookup_seq ->. cbn [Nat.add]. destruct (lookup_lt_is_Some_2 helpers y) as [it Hit]; [lia|]. rewrite Hit. cbn [res_of_option]. rewrite bind_ok.
    eexists. split; [|reflexivity]. assert (Hcy : coefs_of coef helpers !! y = Some (default 0 (coef !! it.2))) by (unfold coefs_of; by rewrite list_lookup_fmap, Hit).
    assert (Hly : length (pre1 ++ ints (take y (coefs_of coef helpers))) = (4 + (length pre - 4 + 8 + length f + 4 * y))%nat).
    { rewrite length_app, length_ints, length_take. apply lookup_lt_Some in Hcy. lia. }
    change (memcpys (chunks (4 + (length pre - 4 + 8 + length f + 4 * y))%nat [le32 (default 0 (coef !! it.2))])
      ((pre1 ++ ints (take y (coefs_of coef helpers))) ++ zeros (n - (8 + length f) - 4 * y)) =
      Ok ((pre1 ++ ints (take (S y) (coefs_of coef helpers))) ++ zeros (n - (8 + length f) - 4 * S y))).
    rewrite <- Hly, memcpys_zeros by (cbn; rewrite app_nil_r, length_le32; lia). cbn [concat]. rewrite app_nil_r, length_le32, (take_S_r _ _ _ Hcy), ints_app.
    cbn [ints]. rewrite app_nil_r, app_assoc. do 3 f_equal. lia.
  - rewrite Em, bind_ok, length_seq. assert (Hlc : length (coefs_of coef helpers) = k) by (unfold coefs_of; by rewrite length_fmap).
    rewrite take_ge by lia. assert (Ej : pre1 ++ ints (coefs_of coef helpers) = pre ++ job_bytes a f (coefs_of coef helpers)).
    { unfold pre1, bs, job_bytes. cbn [concat]. by rewrite app_nil_r, <- !app_assoc. }
    rewrite Ej. rewrite (length_app pre), length_job_bytes, Hlc. do 2 f_equal; [|lia]. do 2 f_equal. lia.
Qed.

(** The lost blocks in the command, with their helpers. *)
Section active.
Context (helpers : list (Z * str)) (coefs : str -> gmap str Z) (Hlen : length helpers = k).

Definition jobs_bytes (lostFiles : list (str * Z)) : list Z := concat ((fun e : str * Z => job_bytes e.2 e.1 (coefs_of (coefs e.1) helpers)) <$> lostFiles).
Definition jobs_size (lostFiles : list (str * Z)) : nat := sum_list_with (fun e : str * Z => 8 + length e.1 + 4 * k)%nat lostFiles.

Lemma length_jobs_bytes l : length (jobs_bytes l) = jobs_size l.
Proof.
  unfold jobs_bytes, jobs_size. induction l as [|e l IH]; [done|]. rewrite fmap_cons. cbn [concat sum_list_with].
  rewrite length_app, length_job_bytes, IH. unfold coefs_of. rewrite length_fmap, Hlen. lia.
Qed.

Lemma jobs_added st (stripes : stripes_mul) l pre n : (forall e, e ∈ l -> getCoefficient e.1 (Some st) = Ok (coefs e.1)) ->
  (forall e, e ∈ l -> exists a : Z, List.find (fun it2 => bool_decide (it2.2.1 = e.1)) stripes = Some (a, (e.1, helpers))) ->
  (4 <= length pre)%nat -> (jobs_size l <= n)%nat ->
  for_each l (fun (it : str * Z) o => match List.find (fun it2 => bool_decide (it2.2.1 = it.1)) stripes with
      | Some it2 => addReqInfo conf st it.2 it2.2 o | None => Ok o end) (pre ++ zeros n, length pre - 4)%nat =
    Ok ((pre ++ jobs_bytes l) ++ zeros (n - jobs_size l), length (pre ++ jobs_bytes l) - 4)%nat.
Proof.
  revert pre n. induction l as [|e l IH]; intros pre n Hc Hf Hpre Hn.
  - cbn. by rewrite app_nil_r, Nat.sub_0_r.
  - cbn [jobs_size sum_list_with] in Hn. fold (jobs_size l) in Hn. cbn [for_each]. destruct (Hf e) as [a ->]; [left|]. cbn [snd].
    rewrite (addReqInfo_ok st e.2 e.1 helpers (coefs e.1) pre n), bind_ok by first [apply Hc; left|done|lia].
    rewrite IH; [| | |rewrite length_app; lia|lia].
    + unfold jobs_bytes. rewrite fmap_cons. cbn [concat]. rewrite <- !app_assoc. do 4 f_equal. cbn [jobs_size sum_list_with]. fold (jobs_size l). do 2 f_equal. lia.
    + intros e' He'. apply Hc. by right.
    + intros e' He'. apply Hf. by right.
Qed.

Definition active_bytes (requestorIP : Z) (nfails : nat) (ips : list Z) (f : str) (l : list (str * Z)) : list Z :=
  le32 (Z.of_nat k) ++ le32 requestorIP ++ le32 (-1) ++ le32 (Z.of_nat nfails) ++ le32 0 ++ ints ips ++
  le32 (Z.of_nat (length f)) ++ bytes_of f ++ jobs_bytes l.

(** The command to the client's node fits its buffer. *)
Definition active_fits (f : str) (l : list (str * Z)) : Prop := (28 + 4 * k + length f + jobs_size l <= COMMAND_MAX_LENGTH)%nat.

Lemma active_cmd_bytes idx requestorIP nfails ips f st l (stripes : stripes_mul) : length ips = k -> active_fits f l ->
  (forall e, e ∈ l -> getCoefficient e.1 (Some st) = Ok (coefs e.1)) ->
  (forall e, e ∈ l -> exists a : Z, List.find (fun it2 => bool_decide (it2.2.1 = e.1)) stripes = Some (a, (e.1, helpers))) ->
  active_cmd conf idx requestorIP nfails ips f st l stripes = Ok (le32 idx ++ active_bytes requestorIP nfails ips f l).
Proof.
  intros Hi Hfit Hc Hf. unfold active_fits in Hfit. unfold active_cmd.
  set (bs1 := [le32 idx; le32 (Z.of_nat k); le32 requestorIP; le32 (-1); le32 (Z.of_nat nfails)]).
  set (bs2 := [ints ips; le32 (Z.of_nat (length f)); bytes_of f]).
  assert (H1 : length (concat bs1) = 20%nat) by (cbn; rewrite !length_app, !length_le32; done).
  assert (H2 : length (concat bs2) = (4 + 4 * k + length f)%nat) by (cbn; rewrite !length_app, !length_le32, length_ints, length_bytes_of; cbn; lia).
  set (pre := concat bs1 ++ le32 0). assert (Hpre : length pre = 24%nat) by (unfold pre; rewrite length_app, H1, length_le32; done).
  assert (Ew : memcpys [(0, le32 idx); (4 + 0, le32 (Z.of_nat k)); (4 + 4, le32 requestorIP); (4 + 8, le32 0xffffffff); (4 + 12, le32 (Z.of_nat nfails));
    (4 + 20, ints ips); (4 + (20 + 4 * k), le32 (Z.of_nat (length f))); (4 + (24 + 4 * k), bytes_of f)]%nat (zeros COMMAND_MAX_LENGTH) =
    Ok ((pre ++ concat bs2) ++ zeros (COMMAND_MAX_LENGTH - 24 - length (concat bs2)))).
  { assert (Em1 : le32 0xffffffff = le32 (-1)) by (vm_compute; reflexivity). rewrite Em1.
    change (memcpys (chunks 0 bs1 ++ [(4 + 20, ints ips); (4 + (20 + 4 * k), le32 (Z.of_nat (length f))); (4 + (24 + 4 * k), bytes_of f)]%nat) (zeros COMMAND_MAX_LENGTH) =
      Ok ((pre ++ concat bs2) ++ zeros (COMMAND_MAX_LENGTH - 24 - length (concat bs2)))).
    rewrite memcpys_app. pose proof (memcpys_zeros [] bs1 COMMAND_MAX_LENGTH) as E1. cbn [app length] in E1. rewrite E1, H1, bind_ok by (rewrite H1; unfold COMMAND_MAX_LENGTH; lia).
    assert (Ez : zeros (COMMAND_MAX_LENGTH - 20) = le32 0 ++ zeros (COMMAND_MAX_LENGTH - 24)) by (vm_compute; reflexivity). rewrite Ez, app_assoc. fold pre.
    pose proof (memcpys_zeros pre bs2 (COMMAND_MAX_LENGTH - 24) ltac:(lia)) as E2. unfold bs2 in E2 at 1. cbn [chunks] in E2.
    rewrite Hpre, length_le32, length_ints, Hi in E2. rewrite <- E2. cbn [app].
    replace (4 + (20 + 4 * k))%nat with (24 + 4 * k)%nat by lia. by replace (4 + (24 + 4 * k))%nat with (24 + 4 * k + 4)%nat by lia. }
  rewrite Ew, bind_ok. assert (Eb : (24 + 4 * k + length f = length (pre ++ concat bs2) - 4)%nat) by (rewrite length_app; lia). rewrite Eb.
  rewrite (jobs_added st stripes l (pre ++ concat bs2)), bind_ok by first [done|rewrite length_app; lia|lia].
  replace (length ((pre ++ concat bs2) ++ jobs_bytes l) - 4 + 4)%nat with (length ((pre ++ concat bs2) ++ jobs_bytes l)) by (rewrite length_app, (length_app pre); lia).
  rewrite take_app_length. f_equal. unfold pre, bs1, bs2, active_bytes. cbn [concat]. by rewrite !app_nil_r, <- !app_assoc.
Qed.

(** ** What the client's node makes of its command *)

Lemma read_ints pre vs post j v : vs !! j = Some v -> is_s32 v -> read_int (pre ++ ints vs ++ post) (length pre + 4 * j) = Ok v.
Proof.
  intros Hj Hv. pose proof (lookup_lt_Some _ _ _ Hj) as Hlt. rewrite <- (take_drop_middle vs j v Hj), ints_app. cbn [ints]. rewrite <- !app_assoc, app_assoc.
  apply read_int_at; [|done]. rewrite length_app, length_ints, length_take. lia.
Qed.

(** The job of a lost block. *)
Definition job_of (e : str * Z) : conv_job := mkConvJob (wrap_u32 e.2) (coefs_of (coefs e.1) helpers) e.1.

Lemma parse_job_ok pre e post js : is_s32 e.2 -> Z.of_nat (length e.1) < 2^31 -> (forall it, it ∈ helpers -> is_byte (default 0 (coefs e.1 !! it.2))) ->
  let jb := job_bytes e.2 e.1 (coefs_of (coefs e.1) helpers) in
  parse_job (Z.of_nat k) (pre ++ jb ++ post) (js, length pre) = Ok (js ++ [job_of e], length (pre ++ jb)).
Proof.
  intros Hip Hf Hb. set (cs := coefs_of (coefs e.1) helpers). assert (Hcs : length cs = k) by (unfold cs, coefs_of; by rewrite length_fmap).
  assert (Hcb : forall j c, cs !! j = Some c -> is_byte c).
  { intros j c. unfold cs, coefs_of. rewrite list_lookup_fmap. intros (it & Hit & ->)%fmap_Some. apply Hb. by eapply list_elem_of_lookup_2. }
  intros jb. unfold parse_job, jb, job_bytes. cbv beta iota. rewrite <- !app_assoc. rewrite (read_int_at pre e.2 _ (length pre)), bind_ok by done.
  rewrite (app_assoc pre), (read_int_at _ (Z.of_nat (length e.1)) _ (length pre + 4)), bind_ok by (first [wire|split; lia]).
  rewrite (proj2 (Z.leb_le _ _)) by lia. cbn [guard_or]. rewrite bind_ok, Nat2Z.id.
  rewrite (app_assoc (pre ++ le32 e.2)), (read_str_at _ e.1 _ (length pre + 8)), bind_ok by wire. rewrite Nat2Z.id.
  rewrite (app_assoc (_ ++ le32 (Z.of_nat (length e.1)))). set (pre2 := (_ ++ le32 (Z.of_nat (length e.1))) ++ bytes_of e.1).
  assert (Hp2 : length pre2 = (length pre + 8 + length e.1)%nat) by (unfold pre2; rewrite !length_app, !length_le32, length_bytes_of; lia).
  destruct (for_each_total (fun n coefs => coefs = take n cs) (seq 0 k) (fun j coefs =>
    c ← read_int (pre2 ++ ints cs ++ post) (length pre + 8 + length e.1 + 4 * j); Ok (coefs ++ [wrap_u32 c])) []) as (out & -> & ->).
  - done.
  - intros y j out [-> Hy]%lookup_seq ->. cbn [Nat.add]. destruct (lookup_lt_is_Some_2 cs y) as [c Hc]; [lia|]. pose proof (Hcb y c Hc) as Hby. unfold is_byte in Hby.
    rewrite <- Hp2, (read_ints pre2 cs post y c Hc), bind_ok by (split; lia). eexists. split; [done|]. rewrite wrap_u32_id by (unfold is_u32; lia).
    by rewrite (take_S_r _ _ _ Hc).
  - rewrite bind_ok, length_seq, take_ge by lia. do 2 f_equal. rewrite !length_app, !length_le32, length_bytes_of, length_ints. lia.
Qed.

(** All the jobs, in the order of the request. *)
Lemma parse_jobs_ok pre l post js : (forall e, e ∈ l -> is_s32 e.2 /\ Z.of_nat (length e.1) < 2^31 /\ forall it, it ∈ helpers -> is_byte (default 0 (coefs e.1 !! it.2))) ->
  forall start, for_each (seqZ start (Z.of_nat (length l))) (fun _ => parse_job (Z.of_nat k) (pre ++ jobs_bytes l ++ post)) (js, length pre) =
    Ok (js ++ (job_of <$> l), length (pre ++ jobs_bytes l)).
Proof.
  revert pre js. induction l as [|e l IH]; intros pre js Hl start.
  - cbn. unfold jobs_bytes. cbn. by rewrite !app_nil_r.
  - cbn [length]. rewrite seqZ_cons by lia. cbn [for_each]. unfold jobs_bytes. rewrite fmap_cons. cbn [concat]. fold (jobs_bytes l).
    destruct (Hl e ltac:(left)) as (H1 & H2 & H3). rewrite <- !app_assoc, parse_job_ok, bind_ok by done.
    replace (Z.pred (Z.of_nat (S (length l)))) with (Z.of_nat (length l)) by lia. rewrite app_assoc.
    rewrite IH by (intros e' He'; apply Hl; by right). cbn. by rewrite <- !app_assoc.
Qed.

Lemma active_parsed old requestorIP ips f l : (k < 256)%nat -> is_u32 requestorIP -> length ips = k -> Z.of_nat (length f) < 2^31 -> Z.of_nat (length l) < 2^31 ->
  (forall e, e ∈ l -> is_s32 e.2 /\ Z.of_nat (length e.1) < 2^31 /\ forall it, it ∈ helpers -> is_byte (default 0 (coefs e.1 !! it.2))) ->
  parse_conv_cmd old (active_bytes requestorIP (length l) ips f l) =
    Ok (mkConvCmd (Z.of_nat k) requestorIP (-1) (Z.of_nat (length l)) (Z.of_nat k) f [], job_of <$> l).
Proof.
  intros Hk Hr Hi Hf Hnl Hl. unfold parse_conv_cmd, active_bytes. rewrite read_int_0, bind_ok by (unfold is_s32; lia).
  rewrite (read_uint_at (le32 (Z.of_nat k)) requestorIP _ 4), bind_ok by wire.
  rewrite (app_assoc (le32 (Z.of_nat k))), (read_int_at _ (-1) _ 8), bind_ok by (try wire; unfold is_s32; lia).
  rewrite (app_assoc (_ ++ le32 requestorIP)), (read_uint_at _ (Z.of_nat (length l)) _ 12), bind_ok by wire.
  rewrite (app_assoc (_ ++ le32 (-1))), (read_uint_at _ 0 _ 16), bind_ok by wire. cbn [Z.ltb Z.compare].
  rewrite (proj2 (Z.leb_le 0 (Z.of_nat k))) by lia. cbn [guard_or]. rewrite bind_ok, Nat2Z.id.
  rewrite (app_assoc (_ ++ le32 (Z.of_nat (length l)))). set (pre := (_ ++ le32 (Z.of_nat (length l))) ++ le32 0).
  assert (Hpre : length pre = 20%nat) by (unfold pre; rewrite !length_app, !length_le32; done).
  assert (Hs : slice (pre ++ ints ips ++ le32 (Z.of_nat (length f)) ++ bytes_of f ++ jobs_bytes l) 20 (4 * k) = Some (ints ips)).
  { rewrite slice_skip, Hpre, Nat.sub_diag by lia. rewrite <- Hi, <- length_ints. apply slice_here. }
  rewrite Hs. cbn [res_of_option]. rewrite bind_ok, (app_assoc pre), (read_uint_at _ (Z.of_nat (length f)) _ (20 + 4 * k)), bind_ok, Nat2Z.id
    by (rewrite ?length_app, ?length_ints, ?Hpre, ?Hi; first [lia|unfold is_u32; lia]).
  rewrite (app_assoc (pre ++ ints ips)), (read_str_at _ f _ (24 + 4 * k)), bind_ok
    by (rewrite ?length_app, ?length_ints, ?length_le32, ?Hpre, ?Hi; lia).
  rewrite (app_assoc (_ ++ le32 (Z.of_nat (length f)))). set (pre2 := (_ ++ le32 (Z.of_nat (length f))) ++ bytes_of f).
  assert (Hp2 : (24 + 4 * k + length f)%nat = length pre2) by (unfold pre2; rewrite !length_app, length_ints, length_le32, length_bytes_of, Hpre, Hi; lia).
  rewrite Hp2, <- (app_nil_r (jobs_bytes l)), parse_jobs_ok, bind_ok by done. done.
Qed.
End active.
End bytes.

(** ** The commands of a request *)

Section jobs.
Context `{MB : MetadataBase} (conf : DRConfig) (_ip2Ctx : list (Z * str)) (Hhl : helpers_listed _ip2Ctx).
Abbreviation k := (_ecK (_conf conf)).
(** The lost blocks with the addresses of their nodes, the helpers and the
    coefficients of MulCoord.v; [own] is the client's block, [lostFiles] the
    files of the request. *)
Context (ip : Z) (losts helpers : list (Z * str)) (coefs : str -> gmap str Z) (st : gmap str Z).
Context (own : str) (lostFiles : list (str * Z)) (allBlks : list (Z * str)).

Record conv_given : Prop := {
  vg_jobs : jobs_given conf _ip2Ctx ip losts helpers coefs st;
  vg_own : (ip, own) ∈ losts;
  vg_nodup : NoDup losts.*1;
  vg_names : NoDup losts.*2;
  vg_files : lostFiles.*1 ≡ₚ losts.*2;
  vg_listed e : e ∈ losts -> e.1 ∈ _ip2Ctx.*1;
  vg_small e : e ∈ losts -> Z.of_nat (length e.2) < 2^16;
  vg_fits : active_fits conf own lostFiles;
  vg_all : getAllBlks own = Ok allBlks;
  vg_helper it : it ∈ helpers -> exists a, List.find (fun x => x.1 =? it.1) allBlks = Some (a, it.2);
  vg_status b v : st !! b = Some v -> v = 0 \/ v = 1
}.
Context (Hvg : conv_given).

Lemma own_stripe : stripe_ok conf _ip2Ctx ip own helpers.
Proof. exact (jg_stripe _ _ _ _ _ _ _ (vg_jobs Hvg) _ (vg_own Hvg)). Qed.

(** The helpers are marked as in the pipelines of several blocks. *)
Lemma mark_each (l : list (Z * str)) (m : gmap str Z) : (forall it, it ∈ l -> exists a : Z, List.find (fun x => x.1 =? it.1) allBlks = Some (a, it.2)) ->
  mark_helpers allBlks l.*1 m = foldl (fun m it => <[it.2 := 2]> m) m l.
Proof.
  unfold mark_helpers. revert m. induction l as [|it l IH]; intros m Hf; [done|]. rewrite fmap_cons. cbn [foldl].
  destruct (Hf it ltac:(left)) as [a ->]. cbn [snd]. apply IH. intros it' Hit'. apply Hf. by right.
Qed.

Lemma helpers_marked : mark_helpers allBlks helpers.*1 st = mul_status helpers st.
Proof.
  unfold mul_status. assert (Est : (fun v => if v =? 0 then v else 1) <$> st = st).
  { apply map_eq. intros b. rewrite lookup_fmap. destruct (st !! b) as [v|] eqn:E; [|done]. cbn. by destruct (vg_status Hvg b v E) as [->| ->]. }
  rewrite Est. apply mark_each, (vg_helper Hvg).
Qed.

(** The command to the helper [x]. *)
Definition conv_cmd_of (x : nat) : dr_cmd :=
  mkDrCmd (Z.of_nat k) ip 1 (helpers !!! (if decide (S x = k) then 0 else S x)%nat).1 (Z.of_nat x) 0 own (helpers !!! x).2.
Definition helper_msg (x : nat) : Z * list Z := ((helpers !!! x).1, cmd_bytes (conv_cmd_of x)).

Lemma conv_push_ok x cmds : (x < k)%nat ->
  exists c, conv_push conf _ip2Ctx ip own helpers (Z.of_nat x) cmds = Ok (cmds ++ [c]) /\ cmdDistributor _ip2Ctx c.2 = Ok (helper_msg x).
Proof.
  intros Hx. pose proof own_stripe as Hso. pose proof (so_k _ _ _ _ _ Hso) as Hk. destruct (stripe_at conf _ip2Ctx ip own helpers Hso x Hx) as (_ & Hv & Hin).
  destruct (so_helpers _ _ _ _ _ Hso _ Hin) as (Hh & _ & Hfit). destruct (helper_found _ip2Ctx Hhl _ Hh) as (idx & q & Hidx & Hq & Hs).
  destruct (neighbours conf _ip2Ctx ip own helpers Hso x Hx) as [_ Hnext]. unfold conv_push. rewrite Hv, bind_ok, Hidx, bind_ok.
  rewrite Hnext, bind_ok. pose proof (vg_small Hvg _ (vg_own Hvg)) as Hsmall. cbn [snd] in Hsmall.
  rewrite conv_helper_pipe, pipe_helper_cmd_bytes, bool_decide_true, bind_ok, Hq, bind_ok by (done || lia).
  eexists. split; [done|]. cbn [snd]. unfold cmdDistributor. rewrite read_int_0, bind_ok, Hq, bind_ok by done.
  by rewrite drop_app_length' by done.
Qed.

Lemma conv_pushes : exists cmds : list local_push, for_each (seqZ 0 (Z.of_nat k)) (conv_push conf _ip2Ctx ip own helpers) [] = Ok cmds /\
  delivered _ip2Ctx cmds (helper_msg <$> seq 0 k).
Proof.
  assert (Hj : forall j, (j <= k)%nat -> exists cmds : list local_push, for_each (seqZ 0 (Z.of_nat j)) (conv_push conf _ip2Ctx ip own helpers) [] = Ok cmds /\
    delivered _ip2Ctx cmds (helper_msg <$> seq 0 j)); [|by apply Hj].
  induction j as [|j IH]; intros Hj; [by exists []|]. destruct IH as (cmds & E & Hd); [lia|]. destruct (conv_push_ok j cmds) as (c & Ec & Hc); [lia|].
  exists (cmds ++ [c]). split.
  - rewrite seqZ_S, for_each_app, E, bind_ok. cbn [for_each]. rewrite Z.add_0_l, Ec. done.
  - rewrite seq_S, fmap_app. apply delivered_app; [done|]. unfold delivered. cbn. by rewrite Hc.
Qed.

(** The message to a node that waits for its block. *)
Definition passive_bytes (f : str) : list Z := le32 ip ++ le32 ip ++ le32 (Z.of_nat (length f)) ++ bytes_of f.

Lemma passive_cmd_ok f : (12 + length f <= COMMAND_MAX_LENGTH)%nat -> passive_cmd ip f = Ok (passive_bytes f).
Proof.
  intros Hf. set (bs := [le32 ip; le32 ip; le32 (Z.of_nat (length f)); bytes_of f]).
  assert (Hc : concat bs = passive_bytes f) by (unfold bs, passive_bytes; cbn [concat]; by rewrite app_nil_r).
  assert (Hl : length (concat bs) = (12 + length f)%nat) by (rewrite Hc; unfold passive_bytes; rewrite !length_app, !length_le32, length_bytes_of; lia).
  pose proof (filled bs ltac:(lia)) as E. rewrite Hl in E. rewrite <- Hc, <- E. unfold passive_cmd. replace (4 + length f + 8)%nat with (12 + length f)%nat by lia. done.
Qed.

(** The nodes of the other lost blocks are told in HDFS. *)
Definition passive_msgs : list (Z * list Z) := (fun e => (e.1, passive_bytes e.2)) <$> List.filter (fun e => negb (e.1 =? ip)) losts.

Lemma lost_name e : e ∈ losts -> (12 + length e.2 <= COMMAND_MAX_LENGTH)%nat.
Proof.
  intros He. pose proof (jg_stripe _ _ _ _ _ _ _ (vg_jobs Hvg) e He) as Hso. pose proof (so_k _ _ _ _ _ Hso) as Hk.
  destruct (stripe_at conf _ip2Ctx ip e.2 helpers Hso 0 ltac:(lia)) as (_ & _ & Hin). destruct (so_helpers _ _ _ _ _ Hso _ Hin) as (_ & _ & Hfit). lia.
Qed.

Lemma passives_sent : for_each (with_helpers helpers losts) (conv_passive _ip2Ctx ip (mul_status helpers st)) [] = Ok passive_msgs.
Proof.
  unfold passive_msgs. pose proof lost_name as Hname. pose proof (vg_listed Hvg) as Hlist. pose proof (jg_coef _ _ _ _ _ _ _ (vg_jobs Hvg)) as Hcoef.
  assert (Hall : forall l acc, (forall e, e ∈ l -> e ∈ losts) -> for_each (with_helpers helpers l) (conv_passive _ip2Ctx ip (mul_status helpers st)) acc =
    Ok (acc ++ ((fun e => (e.1, passive_bytes e.2)) <$> List.filter (fun e => negb (e.1 =? ip)) l))); [|by rewrite Hall].
  assert (Hone : forall e acc, e ∈ losts -> conv_passive _ip2Ctx ip (mul_status helpers st) (e.1, (e.2, helpers)) acc =
    Ok (acc ++ if e.1 =? ip then [] else [(e.1, passive_bytes e.2)])).
  { intros e acc He. unfold conv_passive. destruct (e.1 =? ip); [by rewrite app_nil_r|]. rewrite (Hcoef e He), bind_ok.
    destruct (helper_found _ip2Ctx Hhl _ (Hlist e He)) as (idx & q & Hidx & Hq & _).
    by rewrite Hidx, bind_ok, passive_cmd_ok, bind_ok, Hq, bind_ok by by apply Hname. }
  induction l as [|e l IH]; intros acc Hl; [by rewrite app_nil_r|]. unfold with_helpers. rewrite fmap_cons. cbn [for_each List.filter].
  rewrite Hone, bind_ok by (apply Hl; left). fold (with_helpers helpers l). rewrite IH by (intros e' He'; apply Hl; by right).
  rewrite <- app_assoc. by destruct (e.1 =? ip).
Qed.

(** The lost blocks by name. *)
Lemma stripe_found e : e ∈ lostFiles -> exists a : Z, List.find (fun it2 => bool_decide (it2.2.1 = e.1)) (with_helpers helpers losts) = Some (a, (e.1, helpers)).
Proof.
  intros He. apply lost_found. assert (Hin : e.1 ∈ losts.*2) by (rewrite <- (vg_files Hvg); by apply list_elem_of_fmap_2).
  apply list_elem_of_fmap in Hin as ([a f] & -> & Hin). by exists a.
Qed.

Lemma own_found : List.find (fun it => it.1 =? ip) (with_helpers helpers losts) = Some (ip, (own, helpers)).
Proof.
  pose proof (vg_own Hvg) as Hin. pose proof (vg_nodup Hvg) as Hnd. revert Hin Hnd. clear. unfold with_helpers. induction losts as [|[b g] l IH]; intros Hin Hnd; [by apply not_elem_of_nil in Hin|].
  rewrite fmap_cons in Hnd. apply NoDup_cons in Hnd as [Hb Hnd]. cbn [fmap list_fmap List.find fst snd]. destruct (Z.eqb_spec b ip) as [->|Hne].
  - apply elem_of_cons in Hin as [[= ->]|Hin]; [done|]. destruct Hb. by apply (list_elem_of_fmap_2 fst) in Hin.
  - apply elem_of_cons in Hin as [[= -> ->]|Hin]; [done|]. by apply IH.
Qed.

(** The command to the client's node. *)
Definition client_msg : Z * list Z := (ip, active_bytes conf helpers coefs ip (length lostFiles) helpers.*1 own lostFiles).

Lemma ips_taken : for_each (seq 0 k) (fun i ips => it ← res_of_option Undef (helpers !! i); Ok (ips ++ [it.1])) [] = Ok helpers.*1.
Proof.
  pose proof (so_len _ _ _ _ _ own_stripe) as Hl. destruct (for_each_total (fun n ips => ips = take n helpers.*1) (seq 0 k)
    (fun i ips => it ← res_of_option Undef (helpers !! i); Ok (ips ++ [it.1])) []) as (ips & E & ->); [done| |].
  - intros y i ips [-> Hy]%lookup_seq ->. cbn [Nat.add]. destruct (lookup_lt_is_Some_2 helpers y) as [it Hit]; [lia|]. rewrite Hit. cbn [res_of_option]. rewrite bind_ok.
    eexists. split; [done|]. by rewrite (take_S_r _ y it.1) by by rewrite list_lookup_fmap, Hit.
  - by rewrite E, length_seq, take_ge by (rewrite length_fmap; lia).
Qed.

(** What [requestHandler] does with the request. *)
Lemma conv_handled reqStr rq f0 :
  (4 <= length reqStr)%nat -> read_uint reqStr 0 = Ok ip -> parseFRRequest k reqStr ip = Ok rq -> rq_index rq = 0 -> rq_file rq = own ->
  rq_lost rq = lostFiles -> lostFiles !! 0%nat = Some f0 ->
  getStripeBlksMul own ip (Some (<[own := 0]> (rq_status rq))) 0 = Ok (with_helpers helpers losts, st) ->
  exists cmds, conv_requestHandler conf _ip2Ctx reqStr =
      Ok (if bool_decide (_fileSysType conf = lit "HDFS") then passive_msgs else [], cmds ++ [(f0.1, le32 ip)]) /\
    delivered _ip2Ctx cmds ((helper_msg <$> seq 0 k) ++ [client_msg]).
Proof.
  intros Hlen Hip Hrq Hidx Hfile Hlost Hf0 Hmul. unfold conv_requestHandler. rewrite (proj2 (Nat.leb_le _ _)) by done. cbn [guard_or].
  rewrite bind_ok, Hip, bind_ok, Hrq, bind_ok, Hidx, Hfile, Hlost. cbn [negb Z.eqb]. rewrite Hmul, bind_ok.
  destruct (jobs_counted conf _ip2Ctx ip losts helpers coefs st (vg_jobs Hvg)) as (num & -> & _). cbn [Z.eqb]. rewrite own_found. cbn [fmap option_fmap option_map default from_option id snd].
  destruct conv_pushes as (cmds & -> & Hd). rewrite bind_ok, ips_taken, bind_ok. destruct (helper_found _ip2Ctx Hhl _ (vg_listed Hvg _ (vg_own Hvg))) as (idx & q & Hi & Hq & Hs).
  cbn [fst] in Hi, Hq. rewrite Hi, bind_ok, (vg_all Hvg), bind_ok, helpers_marked. pose proof (so_len _ _ _ _ _ own_stripe) as Hl.
  rewrite (active_cmd_bytes conf helpers coefs Hl _ _ _ _ _ (mul_status helpers st)), bind_ok.
  - rewrite Hq, bind_ok, Hf0. assert (Ep : (if bool_decide (_fileSysType conf = lit "HDFS") then for_each (with_helpers helpers losts) (conv_passive _ip2Ctx ip (mul_status helpers st)) [] else Ok []) =
      Ok (if bool_decide (_fileSysType conf = lit "HDFS") then passive_msgs else [])) by (rewrite passives_sent; by case_bool_decide).
    rewrite Ep, bind_ok. cbn [res_of_option]. rewrite bind_ok. eexists (cmds ++ [(q, _)]). split; [by rewrite <- app_assoc|]. apply delivered_app; [done|].
    unfold delivered. cbn [fmap list_fmap snd]. unfold cmdDistributor. rewrite read_int_0, bind_ok, Hq, bind_ok, drop_app_length' by done. cbn [fst].
    unfold client_msg. do 4 f_equal. unfold with_helpers. rewrite length_fmap. rewrite <- (length_fmap snd losts), <- (vg_files Hvg). by rewrite length_fmap.
  - by rewrite length_fmap.
  - apply (vg_fits Hvg).
  - intros e He. assert (Hin : e.1 ∈ losts.*2) by (rewrite <- (vg_files Hvg); by apply list_elem_of_fmap_2).
    apply list_elem_of_fmap in Hin as (e' & -> & He'). by apply (jg_coef _ _ _ _ _ _ _ (vg_jobs Hvg)).
  - apply stripe_found.
Qed.
End jobs.

(** ** A client the metadata does not know *)

(** When the metadata answers no lost block at the address of the client,
    as for a client that has lost nothing, and as it does for every client when
    there are too few helpers, the coordinator takes its helpers from a vector it
    has just made and reads out of its range. *)
Theorem conv_needs_holder `{MB : MetadataBase} (conf : DRConfig) (_ip2Ctx : list (Z * str)) reqStr ip rq stripes st :
  (0 < _ecK (_conf conf))%nat -> (4 <= length reqStr)%nat -> read_uint reqStr 0 = Ok ip ->
  parseFRRequest (_ecK (_conf conf)) reqStr ip = Ok rq -> rq_index rq = 0 ->
  getStripeBlksMul (rq_file rq) ip (Some (<[rq_file rq := 0]> (rq_status rq))) 0 = Ok (stripes, st) ->
  (outputStripeMul conf stripes).1 <> 0 -> ip ∉ stripes.*1 ->
  conv_requestHandler conf _ip2Ctx reqStr = Fault Undef.
Proof.
  intros Hk Hlen Hip Hrq Hidx Hmul Hflag Hno. unfold conv_requestHandler. rewrite (proj2 (Nat.leb_le _ _)) by done. cbn [guard_or].
  rewrite bind_ok, Hip, bind_ok, Hrq, bind_ok, Hidx. cbn [negb Z.eqb]. rewrite Hmul, bind_ok. destruct (outputStripeMul conf stripes) as [flag num].
  cbn [fst] in Hflag. rewrite (proj2 (Z.eqb_neq flag 0)) by done.
  assert (Hf : List.find (fun it => it.1 =? ip) stripes = None).
  { clear - Hno. induction stripes as [|it l IH]; [done|]. rewrite fmap_cons in Hno. apply not_elem_of_cons in Hno as [Hne Hno]. cbn [List.find].
    rewrite (proj2 (Z.eqb_neq _ _)) by congruence. by apply IH. }
  rewrite Hf. cbn [fmap option_fmap option_map default from_option id]. destruct (_ecK (_conf conf)) as [|n]; [lia|]. rewrite seqZ_cons by lia. reflexivity.
Qed.

Lemma conv_needs_holder_witness :
  conv_requestHandler (MB := four_metadata) (mkDRConfig four (lit "conv") [] (lit "HDFS3") false) four_ctx (request_bytes 4 [lit "d"]) = Fault Undef.
Proof.
  refine (conv_needs_holder (MB := four_metadata) (mkDRConfig four (lit "conv") [] (lit "HDFS3") false) four_ctx (request_bytes 4 [lit "d"]) 4
    (mkReq 0 (lit "d") [(lit "d", 4)] {[ lit "a" := 1; lit "b" := 1; lit "c" := 1; lit "d" := 0 ]}) [] ∅ _ _ eq_refl _ eq_refl eq_refl _ _).
  - cbn. lia.
  - vm_compute. lia.
  - vm_compute. reflexivity.
  - discriminate.
  - apply not_elem_of_nil.
Defined.
