(* ===== verification/ConvSystem.v ===== *)
(** * A conventional repair from request to blocks

    The client, the coordinator of ConvCoord.v, the nodes of ConvRepair.v with the
    waits of ConvWait.v and a metadata base that keeps its laws put together: no
    run fails, and unless a wake-up is lost the client receives its own block and,
    in HDFS, every other node that has lost a block receives its own. *)
From Stdlib Require Import Ascii.
From stdpp Require Import strings relations.
From S2P Require Import Prelude Command Text Galois GF256 Jerasure Gauss Vandermonde ReedSol Encode RSUtil Config Disk PathSelection Coordinator Packet Metadata DrCmd Request Hdfs3 Hdfs3Laws PipeRepair MulRepair MulProgress PipeCoord MulCoord PipeSystem MulSystem ConvRepair ConvProgress ConvCoord Wait ConvWait.

(** ** The nodes of a request *)

(** A node on its first command: a helper opens its file and finds the node that
    repairs. *)
Definition conv_node (conf : Config) (dirs : Z -> blkdir) (m : Z * list Z) '((hs, rps) : list chelper * list crepairer)
    : res (list chelper * list crepairer) :=
  let '(_localIP, cmd) := m in
  '(c, jobs) ← parse_conv_cmd [] cmd;
  if 0 <? cv_coefficient c then
    file ← openLocalFile (dirs _localIP) (cv_localBlkName c);
    nC ← findCtx (slavesCtx (_helpersIPs conf)) (cv_requestorIP c);
    Ok (hs ++ [mkCHelper _localIP c file nC], rps)
  else Ok (hs, rps ++ [mkCRepairer _localIP (Z.to_nat (cv_ecK c)) jobs]).

(** The nodes that wait, by the names of their blocks. *)
Definition conv_passives (conf : Config) (msgs : list (Z * list Z)) : res (gmap str cpassive) :=
  for_each msgs (fun '(ip, cmd) ps => n ← accept_passive conf ip cmd; Ok (<[cp_lost n := n]> ps)) ∅.

(** Everything up to the start of the threads. *)
Definition start_conv_repair `{MB : MetadataBase} (conf : DRConfig) (_distributorThreadNum : nat) (dirs : Z -> blkdir)
    (junk : list Z) (_locIP : Z) (filenames : list str) : res (cnodes * Z * list str) :=
  let helpers := _helpersIPs (_conf conf) in
  files ← lost_files conf filenames;
  req ← request junk _locIP files;
  ctx ← ip2Ctx helpers _distributorThreadNum;
  '(passive, pushes) ← conv_requestHandler conf ctx req;
  reply ← res_of_option Blocked (last pushes);
  msgs ← for_each (take (length pushes - 1) pushes) (fun c msgs => m ← cmdDistributor ctx c.2; Ok (msgs ++ [m])) [];
  '(hs, rps) ← for_each msgs (conv_node (_conf conf) dirs) ([], []);
  rp ← res_of_option Blocked (rps !! 0%nat);
  ps ← conv_passives (_conf conf) passive;
  '(ctxs, _) ← read_reply helpers _locIP 1 reply.2;
  fetch ← res_of_option Undef (mjoin (ctxs !! 0%nat));
  Ok (mkCNodes hs rp ps, fetch, files).

Section repair.
Context `{GF : GFComplete} {GL : GF8Laws} `{DL : DiskLaws} `{MB : MetadataBase}.
Context (conf : DRConfig) (_distributorThreadNum : nat) (dirs : Z -> blkdir) (Hcl : cluster_conf conf _distributorThreadNum).
Abbreviation cf := (_conf conf).
Abbreviation k := (_ecK cf).
Abbreviation cnt := (_packetCnt cf).
Abbreviation size := (_packetSize cf).

(** The lost blocks [files] of a stripe: the first is the client's own, every
    node that has lost one is in the cluster, the command to the client's node
    fits, and no name is a key the repair uses for something else. *)
Record conv_lost (stripe : list str) (holder : str -> Z) (files : list str) (ip : Z) : Prop := {
  vl_mul : mul_lost conf stripe holder files ip;
  vl_own : holder (files !!! 0%nat) = ip;
  vl_nodes f : f ∈ files -> holder f ∈ _helpersIPs cf /\ is_u32 (holder f);
  vl_fits : active_fits conf (files !!! 0%nat) (lost_of holder <$> files);
  vl_names f : f ∈ files -> (forall x, (x < k)%nat -> f <> helperKey (files !!! 0%nat) (Z.of_nat x)) /\ (forall g, g ∈ files -> f <> endKey g)
}.

Context (Hpol : _DRPolicy conf = lit "conv").
Context (stripe : list str) (holder : str -> Z) (disk : str -> list Z) (files : list str) (ip : Z).
Context (Hvl : conv_lost stripe holder files ip) (Hmd : mul_disks conf dirs stripe holder disk files).
Context (HM : StripeLaws k (cnt * size) stripe holder (covered conf disk)).
Abbreviation own := (files !!! 0%nat).
Abbreviation lostFiles := (lost_of holder <$> files).
Abbreviation Hml := (vl_mul _ _ _ _ Hvl).

Lemma own_file_at : files !! 0%nat = Some own.
Proof. apply list_lookup_lookup_total_lt. pose proof (ml_some _ _ _ _ _ Hml). destruct files; [done|cbn; lia]. Qed.

Lemma own_first : files = own :: drop 1 files.
Proof. pose proof own_file_at as E. clear - E. by destruct files. Qed.

Lemma own_lost : own ∈ files.
Proof. by eapply list_elem_of_lookup_2, own_file_at. Qed.

Lemma lost_in_stripe f : f ∈ files -> f ∈ stripe.
Proof. intros Hf. by apply (ml_lost _ _ _ _ _ Hml). Qed.

Lemma lost_holder f g : f ∈ files -> g ∈ files -> holder f = holder g -> f = g.
Proof. intros Hf Hg. apply (ml_nodes _ _ _ _ _ Hml); by apply lost_in_stripe. Qed.

(** The other lost blocks are those of other nodes. *)
Lemma others f : f ∈ drop 1 files <-> f ∈ files /\ holder f <> ip.
Proof.
  pose proof own_file_at as E0. split.
  - intros [i Hi]%list_elem_of_lookup. rewrite lookup_drop in Hi. split; [by eapply list_elem_of_lookup_2|]. rewrite <- (vl_own _ _ _ _ Hvl). intros Eh.
    apply lost_holder in Eh as ->; [|by eapply list_elem_of_lookup_2|apply own_lost].
    pose proof (NoDup_lookup files _ _ _ (ml_nodup _ _ _ _ _ Hml) Hi E0). lia.
  - intros [[[|i] Hi]%list_elem_of_lookup Hne]; [rewrite Hi in E0; injection E0 as E0; rewrite <- (vl_own _ _ _ _ Hvl), E0 in Hne; congruence|].
    apply list_elem_of_lookup. exists i. by rewrite lookup_drop.
Qed.

Section answered.
Context (helpers losts : list (Z * str)) (st : gmap str Z) (coefs : str -> gmap str Z) (allBlks : list (Z * str)).
Context (Han : answer conf stripe holder disk files ip helpers losts st coefs).
Context (Hall : getAllBlks own = Ok allBlks) (Hst : forall b v, st !! b = Some v -> v = 0 \/ v = 1).

(** The blocks of the helpers by their addresses. *)
Lemma helper_found_at it : it ∈ helpers -> exists a : Z, List.find (fun x => x.1 =? it.1) allBlks = Some (a, it.2).
Proof.
  intros Hit. destruct (an_in _ _ _ _ _ _ _ _ _ _ Han it Hit) as (H1 & _ & H3 & _). pose proof (lost_in_stripe own own_lost) as Ho.
  destruct (ml_all own Ho) as (all & E & Hin). assert (all = allBlks) as -> by congruence.
  assert (Hex : exists x, x ∈ allBlks /\ x.1 = it.1 /\ x.2 = it.2).
  { apply Hin in H1. apply list_elem_of_fmap in H1 as (x & E2 & Hx). exists x. split; [done|]. split; [|done]. rewrite (ml_where own allBlks x Ho E Hx), H3. by rewrite E2. }
  destruct Hex as (x & Hx & E1 & E2). destruct (List.find (fun x => x.1 =? it.1) allBlks) as [y|] eqn:Ef.
  - exists y.1. destruct (List.find_some _ _ Ef) as [Hy%list_elem_of_In Ey%Z.eqb_eq]. do 2 f_equal. destruct y as [a b]. cbn [fst snd] in *. f_equal.
    pose proof (ml_where own allBlks _ Ho E Hy) as Ea. cbn [fst snd] in Ea.
    apply (ml_nodes _ _ _ _ _ Hml); [by apply Hin, (list_elem_of_fmap_2 snd _ (a, b))|done|congruence].
  - pose proof (List.find_none _ _ Ef x (proj1 (list_elem_of_In _ _) Hx)) as Hne. cbv beta in Hne. rewrite E1, Z.eqb_refl in Hne. done.
Qed.

Lemma conv_answer_given ctx : ctx.*1 = _helpersIPs cf -> conv_given conf ctx ip losts helpers coefs st own lostFiles allBlks.
Proof.
  intros Hctx. pose proof (answer_given conf _distributorThreadNum dirs Hcl stripe holder disk files ip Hml Hmd helpers losts st coefs Han ctx Hctx) as Hjg.
  pose proof (an_losts _ _ _ _ _ _ _ _ _ _ Han) as Hlo.
  assert (Hin : forall e, e ∈ losts -> e.2 ∈ files /\ e.1 = holder e.2) by (intros e; rewrite Hlo; by intros (f & -> & Hf)%list_elem_of_fmap).
  split; [done| | | | | | |apply Hvl|done|apply helper_found_at|done].
  - rewrite Hlo. apply list_elem_of_fmap. exists own. split; [|apply own_lost]. by rewrite (vl_own _ _ _ _ Hvl).
  - rewrite Hlo, <- list_fmap_compose. apply NoDup_fmap_2_strong; [|apply Hml]. intros f g Hf Hg. by apply lost_holder.
  - rewrite Hlo, <- list_fmap_compose, list_fmap_id. apply Hml.
  - rewrite Hlo, <- !list_fmap_compose. done.
  - intros e He. destruct (Hin e He) as [Hf ->]. rewrite Hctx. by apply (vl_nodes _ _ _ _ Hvl).
  - intros e He. destruct (Hin e He) as [Hf _].
    pose proof (short_name conf _distributorThreadNum Hcl stripe holder files ip Hml e.2 Hf) as Hs. unfold COMMAND_MAX_LENGTH in Hs. lia.
Qed.

(** The nodes: the helper [x], and the client's node. *)
Definition conv_helper (x : nat) : chelper :=
  let c := conv_cmd_of conf ip helpers own x in
  mkCHelper (helpers !!! x).1 (mkConvCmd (Z.of_nat k) ip 1 (dr_nextIP c) (Z.of_nat x) own (helpers !!! x).2) (disk (helpers !!! x).2) (Some ip).
Definition conv_repairer : crepairer := mkCRepairer ip k (job_of helpers coefs <$> lostFiles).

Lemma client_listed : ip ∈ _helpersIPs cf /\ is_u32 ip.
Proof. destruct (vl_nodes _ _ _ _ Hvl own own_lost) as [H1 H2]. rewrite (vl_own _ _ _ _ Hvl) in H1, H2. done. Qed.

Lemma conv_own_ok ctx : ctx.*1 = _helpersIPs cf -> stripe_ok conf ctx ip own helpers.
Proof. intros Hctx. apply (one_ok conf _distributorThreadNum Hcl stripe holder disk files ip Hml helpers losts st coefs Han ctx own Hctx own_lost). Qed.

Lemma short_names : Z.of_nat (length own) < 2^16 /\ forall it, it ∈ helpers -> Z.of_nat (length it.2) < 2^16.
Proof.
  destruct (queues_listed (_helpersIPs cf) _distributorThreadNum (rc_threads _ _ Hcl) (rc_sorted _ _ Hcl) (rc_few _ _ Hcl)) as (ctx & _ & Hfst & _).
  pose proof (conv_own_ok ctx Hfst) as Hso. pose proof (short_name conf _distributorThreadNum Hcl stripe holder files ip Hml own own_lost) as Hs. unfold COMMAND_MAX_LENGTH in Hs.
  split; [lia|]. intros it Hit. destruct (so_helpers _ _ _ _ _ Hso it Hit) as (_ & _ & Hfit). unfold COMMAND_MAX_LENGTH in Hfit. lia.
Qed.

Lemma conv_helper_started x hs rps : (x < k)%nat ->
  conv_node cf dirs (helper_msg conf ip helpers own x) (hs, rps) = Ok (hs ++ [conv_helper x], rps).
Proof.
  intros Hx. pose proof (rc_k _ _ Hcl) as Hk. destruct short_names as [Ho Hh]. destruct client_listed as [Hci Hcu].
  destruct (queues_listed (_helpersIPs cf) _distributorThreadNum (rc_threads _ _ Hcl) (rc_sorted _ _ Hcl) (rc_few _ _ Hcl)) as (ctx & _ & Hfst & _).
  pose proof (conv_own_ok ctx Hfst) as Hso. destruct (stripe_at conf ctx ip own helpers Hso x Hx) as (_ & _ & Hin).
  assert (Hn : is_u32 (helpers !!! (if decide (S x = k) then 0 else S x)%nat).1).
  { apply (so_helpers _ _ _ _ _ Hso). apply (stripe_at conf ctx ip own helpers Hso). case_decide; lia. }
  unfold conv_node, helper_msg, conv_cmd_of. rewrite conv_helper_parsed, bind_ok by (first [done|lia|by apply Hh]). cbn [cv_coefficient cv_localBlkName cv_requestorIP Z.ltb Z.compare].
  destruct (an_in _ _ _ _ _ _ _ _ _ _ Han _ Hin) as (H1 & H2 & H3 & _). unfold openLocalFile. rewrite H3 at 1. rewrite (proj1 (md_file _ _ _ _ _ _ Hmd _ H1 H2)).
  cbn [res_of_option]. rewrite bind_ok, findCtx_helper, bind_ok by done. done.
Qed.

Lemma lostFiles_wire e : e ∈ lostFiles -> is_s32 e.2 /\ Z.of_nat (length e.1) < 2^31 /\ forall it, it ∈ helpers -> is_byte (default 0 (coefs e.1 !! it.2)).
Proof.
  intros (f & -> & Hf)%list_elem_of_fmap. cbn. split; [apply wrap_s32_range|].
  pose proof (short_name conf _distributorThreadNum Hcl stripe holder files ip Hml f Hf) as Hs. unfold COMMAND_MAX_LENGTH in Hs. split; [lia|]. intros it Hit.
  apply (rb_bytes _ _ _ _ _ (an_rebuilds _ _ _ _ _ _ _ _ _ _ Han f Hf)). by apply list_elem_of_fmap_2.
Qed.

Lemma conv_repairer_started hs rps :
  conv_node cf dirs (client_msg conf ip helpers coefs own lostFiles) (hs, rps) = Ok (hs, rps ++ [conv_repairer]).
Proof.
  pose proof (rc_k _ _ Hcl) as Hk. destruct short_names as [Ho _]. destruct client_listed as [_ Hcu]. pose proof (an_len _ _ _ _ _ _ _ _ _ _ Han) as Hl.
  unfold conv_node, client_msg. rewrite active_parsed, bind_ok.
  - cbn [cv_coefficient cv_ecK Z.ltb Z.compare]. by rewrite Nat2Z.id.
  - done.
  - lia.
  - done.
  - by rewrite length_fmap.
  - lia.
  - rewrite length_fmap. pose proof (ml_few _ _ _ _ _ Hml) as Hfew. unfold MAX_ECK in Hfew. lia.
  - apply lostFiles_wire.
Qed.

Lemma conv_nodes_started : for_each ((helper_msg conf ip helpers own <$> seq 0 k) ++ [client_msg conf ip helpers coefs own lostFiles]) (conv_node cf dirs) ([], []) =
  Ok (conv_helper <$> seq 0 k, [conv_repairer]).
Proof.
  rewrite for_each_app. destruct (for_each_total (fun n s => s = (conv_helper <$> seq 0 n, [])) (helper_msg conf ip helpers own <$> seq 0 k) (conv_node cf dirs) ([], [])) as (s & E & ->).
  - done.
  - intros i m s Hi ->. rewrite list_lookup_fmap in Hi. apply fmap_Some in Hi as (y & [-> Hy]%lookup_seq & ->). cbn [Nat.add].
    rewrite conv_helper_started by done. eexists. split; [done|]. by rewrite seq_S, fmap_app.
  - rewrite E, bind_ok, length_fmap, length_seq. cbn [for_each]. by rewrite conv_repairer_started, bind_ok.
Qed.

(** The nodes that wait for the other lost blocks. *)
Definition waiting_node (f : str) : cpassive := mkCPassive (holder f) (Some ip) (Some ip) f.

Lemma passive_accepted f : f ∈ drop 1 files -> accept_passive cf (holder f) (passive_bytes ip f) = Ok (waiting_node f).
Proof.
  intros [Hf Hne]%others. destruct client_listed as [Hci Hcu].
  pose proof (short_name conf _distributorThreadNum Hcl stripe holder files ip Hml f Hf) as Hs. unfold COMMAND_MAX_LENGTH in Hs.
  unfold accept_passive, passive_bytes. rewrite read_uint_0, bind_ok by done. rewrite (proj2 (Z.eqb_neq _ _)) by congruence. rewrite findCtx_helper, bind_ok by done.
  rewrite (read_uint_at (le32 ip) ip _ 4), bind_ok by wire. rewrite (proj2 (Z.eqb_neq _ _)) by congruence. rewrite findCtx_helper, bind_ok by done.
  rewrite (app_assoc (le32 ip)), (read_uint_at _ (Z.of_nat (length f)) _ 8), bind_ok, Nat2Z.id by wire.
  rewrite (app_assoc (_ ++ le32 ip)), <- (app_nil_r (bytes_of f)), (read_str_at _ f _ 12), bind_ok by wire. done.
Qed.

Lemma passives_accepted : exists ps, conv_passives cf (passive_msgs ip losts) = Ok ps /\
  forall f, ps !! f = if decide (f ∈ drop 1 files) then Some (waiting_node f) else None.
Proof.
  unfold passive_msgs. set (l := List.filter _ losts).
  assert (Hl : forall f, f ∈ l.*2 <-> f ∈ drop 1 files).
  { intros f. rewrite others, list_elem_of_fmap. unfold l. split.
    - intros (e & -> & [Hin Hne]%list_elem_of_In%List.filter_In). apply list_elem_of_In in Hin. rewrite (an_losts _ _ _ _ _ _ _ _ _ _ Han) in Hin.
      apply list_elem_of_fmap in Hin as (g & -> & Hg). cbn [fst snd] in *. split; [done|]. by destruct (Z.eqb_spec (holder g) ip).
    - intros [Hf Hne]. exists (holder f, f). split; [done|]. apply list_elem_of_In, List.filter_In. split; [|cbn; by rewrite (proj2 (Z.eqb_neq _ _))].
      apply list_elem_of_In. rewrite (an_losts _ _ _ _ _ _ _ _ _ _ Han). apply list_elem_of_fmap. by exists f. }
  assert (Hat : forall e, e ∈ l -> e.1 = holder e.2 /\ e.2 ∈ drop 1 files).
  { intros e He. split; [|apply Hl; by apply list_elem_of_fmap_2]. unfold l in He. apply list_elem_of_In, List.filter_In in He as [Hin%list_elem_of_In _].
    rewrite (an_losts _ _ _ _ _ _ _ _ _ _ Han) in Hin. by apply list_elem_of_fmap in Hin as (g & -> & _). }
  destruct (for_each_total (fun n (ps : gmap str cpassive) => forall f, ps !! f = if decide (f ∈ (take n l).*2) then Some (waiting_node f) else None)
    ((fun e => (e.1, passive_bytes ip e.2)) <$> l) (fun '(a, cmd) ps => n ← accept_passive cf a cmd; Ok (<[cp_lost n := n]> ps)) ∅) as (ps & E & Hps).
  - intros f. rewrite take_0, lookup_empty, decide_False; [done|apply not_elem_of_nil].
  - intros i m ps Hi Hps. rewrite list_lookup_fmap in Hi. apply fmap_Some in Hi as (e & He & ->). cbn [Nat.add].
    destruct (Hat e ltac:(by eapply list_elem_of_lookup_2)) as [-> Hin]. rewrite passive_accepted, bind_ok by done. eexists. split; [done|]. intros f.
    rewrite (take_S_r _ _ _ He), fmap_app. cbn [waiting_node cp_lost]. destruct (decide (e.2 = f)) as [<-|Hne].
    + rewrite lookup_insert_eq, decide_True; [done|]. apply elem_of_app. right. left.
    + rewrite lookup_insert_ne, Hps by done. apply decide_ext. rewrite elem_of_app. split; [by left|]. intros [?|[->|?%not_elem_of_nil]%elem_of_cons]; done.
  - exists ps. split; [exact E|]. intros f. rewrite Hps, length_fmap, take_ge by done. by apply decide_ext.
Qed.

(** The nodes are those of ConvProgress.v: the packets of a lost block are the
    sums of its own pipeline. *)
Definition conv_nodes (ps : gmap str cpassive) : cnodes := mkCNodes (conv_helper <$> seq 0 k) conv_repairer ps.
Definition sums (j : nat) : list pnode := nodes conf disk (files !!! j) ip helpers (coefs (files !!! j)).

Lemma sum_node j x : (x < k)%nat -> coef_at (sums j) x = default 0 (coefs (files !!! j) !! (helpers !!! x).2) /\ blk_at (sums j) x = disk (helpers !!! x).2.
Proof.
  intros Hx. unfold coef_at, blk_at, sums. rewrite nodes_at by done. unfold node.
  rewrite (all_helpers conf stripe holder disk files ip helpers losts st coefs Han). done.
Qed.

Lemma own_job : exists c, reqJob conv_repairer = Ok c /\ cj_lostBlkName c = own.
Proof.
  exists (job_of helpers coefs (lost_of holder own)). split; [|done]. unfold reqJob. cbn [conv_repairer cr_jobs cr_ip].
  rewrite own_first at 1. rewrite !fmap_cons. cbn [List.find]. destruct client_listed as [_ Hcu].
  assert (E : cj_nextIP (job_of helpers coefs (lost_of holder own)) =? ip = true); [|by rewrite E].
  cbn. rewrite wrap_u32_s32, (vl_own _ _ _ _ Hvl). unfold wrap_u32. rewrite Z.mod_small by exact Hcu. apply Z.eqb_refl.
Qed.

Lemma conv_csystem ps : (forall f n, ps !! f = Some n -> f ∈ drop 1 files /\ n = waiting_node f) -> csystem cf (conv_nodes ps) ip files sums.
Proof.
  intros Hps. pose proof (an_len _ _ _ _ _ _ _ _ _ _ Han) as Hlen. assert (Hk : length (c_helpers (conv_nodes ps)) = k) by (cbn; by rewrite length_fmap, length_seq).
  split; rewrite ?Hk.
  - by eapply lookup_lt_Some, own_file_at.
  - apply Hml.
  - cbn. by rewrite !length_fmap.
  - intros j c Hj. cbn in Hj. rewrite !list_lookup_fmap in Hj. destruct (files !! j) as [f|] eqn:Ef; [|done]. injection Hj as <-. split; [done|].
    intros x Hx. destruct (sum_node j x Hx) as [-> _]. rewrite (list_lookup_total_correct _ _ _ Ef). cbn. unfold coefs_of.
    rewrite list_lookup_fmap, list_lookup_lookup_total_lt by lia. done.
  - apply own_job.
  - intros j f Hf. unfold sums. rewrite (list_lookup_total_correct _ _ _ Hf). split; [|apply length_nodes].
    apply (block_pipeline conf _distributorThreadNum dirs Hcl stripe holder disk files ip Hml Hmd helpers losts st coefs Han). by eapply list_elem_of_lookup_2.
  - intros x n Hn. cbn in Hn. rewrite list_lookup_fmap in Hn. apply fmap_Some in Hn as (y & [-> Hy]%lookup_seq & ->). cbn [Nat.add].
    destruct (an_in _ _ _ _ _ _ _ _ _ _ Han _ (chosen_helper conf stripe holder disk files ip helpers losts st coefs Han x Hy)) as (H1 & H2 & _).
    split_and!; [done..|by apply (md_file _ _ _ _ _ _ Hmd)|]. intros j _. by destruct (sum_node j x Hy) as [_ ->].
  - intros f n Hn. destruct (Hps f n Hn) as [Hin ->]. split_and!; [done..|]. apply others in Hin as [Hf _].
    destruct (ml_alive _ _ _ _ _ Hml) as (alive & _ & Hal & Hall2). pose proof (rc_k _ _ Hcl).
    destruct (lookup_lt_is_Some_2 alive 0) as [b Hb%list_elem_of_lookup_2]; [lia|]. destruct (Hall2 b Hb) as (H1 & H2 & H3).
    destruct (ml_helper _ _ _ _ _ Hml b H1 H2 H3) as (_ & _ & Hfit). specialize (Hfit f Hf). lia.
  - apply (vl_names _ _ _ _ Hvl).
Qed.
End answered.

(** ** The start of the repair *)

(** The client's own block is the one the coordinator answers for. *)
Lemma own_asked f0 fs : files = f0 :: fs -> chosen holder f0 fs ip = own.
Proof.
  intros Ef. destruct (ml_lost _ _ _ _ _ Hml own own_lost) as [_ Hne].
  assert (E : own_file holder ip (f0 :: fs) = own); [|unfold chosen; by rewrite E, bool_decide_false].
  rewrite <- Ef. unfold own_file. assert (Ha : forall f, f ∈ files -> asks_own holder ip f = bool_decide (f = own)).
  { intros f Hf. unfold asks_own. destruct (vl_nodes _ _ _ _ Hvl f Hf) as [_ Hu]. unfold wrap_u32. rewrite Z.mod_small by exact Hu.
    case_bool_decide as E; [rewrite E, (vl_own _ _ _ _ Hvl); apply Z.eqb_refl|]. apply Z.eqb_neq. rewrite <- (vl_own _ _ _ _ Hvl).
    intros Eh. by apply E, lost_holder; [|apply own_lost|]. }
  assert (Hacc : forall l r, (forall f, f ∈ l -> f ∈ files) -> own ∈ l \/ r = own -> foldl (fun r f => if asks_own holder ip f then f else r) r l = own); [|apply Hacc; [done|left; apply own_lost]].
  induction l as [|f l IH]; intros r Hl Hin; [by destruct Hin as [?%not_elem_of_nil|]|]. cbn [foldl]. rewrite Ha by (apply Hl; left).
  apply IH; [intros g Hg; apply Hl; by right|]. case_bool_decide as E; [by right|]. destruct Hin as [[E2|?]%elem_of_cons|?]; [by destruct E|by left|by right].
Qed.

(** Everything up to the threads: the nodes of some answer, and the client finds
    its own node. *)
Lemma conv_starts junk : (length (request_bytes ip files) <= length junk)%nat ->
  exists helpers losts st coefs allBlks ps, answer conf stripe holder disk files ip helpers losts st coefs /\
    getAllBlks own = Ok allBlks /\ (forall b v, st !! b = Some v -> v = 0 \/ v = 1) /\
    (forall f, ps !! f = if decide (_fileSysType conf = lit "HDFS" /\ f ∈ drop 1 files) then Some (waiting_node f) else None) /\
    start_conv_repair conf _distributorThreadNum dirs junk ip files = Ok (conv_nodes helpers coefs ps, ip, files).
Proof.
  intros Hj. destruct (queues_listed (_helpersIPs cf) _distributorThreadNum (rc_threads _ _ Hcl) (rc_sorted _ _ Hcl) (rc_few _ _ Hcl)) as (ctx & Ectx & Hfst & Hlisted).
  assert (Hf0 : exists fs, files = own :: fs) by (eexists; apply own_first). destruct Hf0 as (fs & Ef).
  assert (Hfs : forall f, f ∈ files -> f ∈ stripe) by apply lost_in_stripe.
  destruct (ml_all own (Hfs own own_lost)) as (all & Hall & Hin). assert (Hsome : all <> []) by (intros ->; by apply (not_elem_of_nil own), Hin, Hfs, own_lost).
  assert (Hip : forall b, b ∈ own :: fs \/ b ∈ all.*2 -> getIPfromBlk b = Ok (holder b)).
  { intros b [Hb|Hb%Hin]; apply ml_ip; [|done]. apply Hfs. by rewrite Ef. }
  destruct (request_parsed holder all own fs Hall Hsome Hip k junk ip) as (m & st & Hm & Hml4 & Hu & Hp & Hst).
  - apply client_listed.
  - rewrite <- Ef. apply Forall_forall. intros f Hf.
    pose proof (short_name conf _distributorThreadNum Hcl stripe holder files ip Hml f Hf) as Hs. unfold COMMAND_MAX_LENGTH in Hs. lia.
  - by rewrite <- Ef.
  - rewrite (own_asked own fs Ef) in Hp. rewrite <- Ef in Hm, Hp, Hst. set (st0 := <[own := 0]> st).
    assert (Hst0 : forall b, st0 !! b = if decide (b ∈ files) then Some 0 else if decide (b ∈ stripe) then Some 1 else None).
    { intros b. unfold st0. destruct (decide (own = b)) as [<-|Hne]; [by rewrite lookup_insert_eq, decide_True by apply own_lost|]. rewrite lookup_insert_ne, Hst by done.
      destruct (decide (b ∈ files)); [done|]. apply decide_ext, Hin. }
    assert (Hst01 : forall b v, st0 !! b = Some v -> v = 0 \/ v = 1).
    { intros b v. rewrite Hst0. case_decide; [intros [= <-]; by left|]. case_decide; [intros [= <-]; by right|done]. }
    assert (Hcommon : common_helpers k stripe holder own ip st0).
    { destruct (alive_given conf stripe holder files ip Hml st0 Hst0) as (alive & H1 & H2 & H3). rewrite <- (vl_own _ _ _ _ Hvl) in H3 |- *.
      apply (ml_own own st0 alive); [by apply lost_in_stripe, own_lost|apply (listed_status conf stripe holder files ip Hml st0 Hst0)|
        by apply (lost_status stripe files st0 Hst0), own_lost|done..]. }
    destruct (answer_common conf stripe holder disk files ip Hml HM st0 Hst0 own Hcommon) as (helpers & losts & coefs & Hmul & Han).
    pose proof (conv_answer_given helpers losts st0 coefs all Han Hall Hst01 ctx Hfst) as Hvg.
    destruct (conv_handled conf ctx Hlisted ip losts helpers coefs st0 own lostFiles all Hvg m _ (lost_of holder own) Hml4 Hu Hp eq_refl eq_refl eq_refl
      ltac:(by rewrite list_lookup_fmap, own_file_at) Hmul) as (cmds & E & Hd).
    destruct (passives_accepted helpers losts st0 coefs Han) as (ps & Eps & Hps).
    set (ps' := if bool_decide (_fileSysType conf = lit "HDFS") then ps else ∅).
    assert (Eps' : conv_passives cf (if bool_decide (_fileSysType conf = lit "HDFS") then passive_msgs ip losts else []) = Ok ps') by (unfold ps'; by case_bool_decide).
    exists helpers, losts, st0, coefs, all, ps'. split_and!; [done..| |].
    + intros f. unfold ps'. case_bool_decide as Efs; [rewrite Hps; apply decide_ext; naive_solver|]. rewrite lookup_empty, decide_False; [done|naive_solver].
    + unfold start_conv_repair. assert (Hlf : lost_files conf files = Ok files) by (unfold lost_files; rewrite Hpol; reflexivity).
      rewrite Hlf, bind_ok, Hm, bind_ok, Ectx, bind_ok, E, bind_ok, last_snoc. cbn [res_of_option]. rewrite bind_ok, length_app, Nat.add_sub, take_app_length.
      rewrite (for_each_results cmds _ _ _ Hd), bind_ok, app_nil_l. rewrite (conv_nodes_started helpers losts st0 coefs Han), bind_ok.
      cbn [lookup list_lookup res_of_option]. rewrite bind_ok, Eps', bind_ok. destruct client_listed as [Hci Hcu].
      unfold read_reply. cbn [snd]. rewrite length_le32, (proj2 (Z.eqb_eq _ _)) by lia. cbn [guard_or]. rewrite bind_ok, <- (app_nil_r (le32 ip)), read_uint_0, bind_ok by done.
      rewrite findCtx_sorted, bind_ok by (done || apply Hcl). done.
Qed.

(** ** The whole repair *)

(** The iterations of the threads: a packet is read, passed on and sent by each
    helper and taken by a reader, multiplied and sent for each block, collected
    and forwarded by the client, and received by each of the other nodes, which
    tell the client when they are done. *)
Definition conv_steps : nat := ((4 * k + 2 * length files + 2) * cnt + (length files - 1) * (cnt + 2))%nat.

(** What a repair promises: whatever the interleaving of the threads and
    whatever the memory of the helpers held, none of them fails, they make at most
    [conv_steps] iterations, and then the client has heard of every other lost
    block and each of them is on its own node ([delivers]). *)
Definition conv_repairs (ns : cnodes) : Prop :=
  forall fresh st, (forall i, length (fresh i) = size) -> conv_started cf ns ip files st ->
    delivers (conv_scheme cf fresh ns ip ip files) st conv_steps (fun st' =>
      c_file (s_client st') = drop (_packetSkipSize cf) (disk own) /\ s_ended st' = (length files - 1)%nat /\
       forall f, f ∈ drop 1 files -> exists w, s_passive st' !! f = Some w /\ pr_file w = drop (_packetSkipSize cf) (disk f)).

(** The steps of started nodes. *)
Lemma conv_runs helpers losts st0 coefs ps : answer conf stripe holder disk files ip helpers losts st0 coefs ->
  (forall f n, ps !! f = Some n -> f ∈ drop 1 files /\ n = waiting_node f) ->
  forall fresh st m st', (forall i, length (fresh i) = size) -> conv_started cf (conv_nodes helpers coefs ps) ip files st ->
    nsteps (cstep cf fresh (conv_nodes helpers coefs ps) ip ip files) m st st' ->
    cprogress cf (conv_nodes helpers coefs ps) ip files (sums helpers coefs) st' /\ conv_work files st' = m.
Proof.
  intros Han Hps fresh st m st' Hfresh Hst Hrun. pose proof (conv_csystem helpers losts st0 coefs Han ps Hps) as Hcs.
  destruct (conv_started_progress cf _ ip files _ Hcs st Hst) as [Hp H0].
  destruct (crun_progress cf (rc_packets _ _ Hcl) fresh Hfresh _ ip files _ Hcs m st st' Hp Hrun) as [Hp' Hm]. split; [done|lia].
Qed.

Lemma conv_repair_all junk : _fileSysType conf = lit "HDFS" \/ length files = 1%nat -> (length (request_bytes ip files) <= length junk)%nat ->
  exists ns, start_conv_repair conf _distributorThreadNum dirs junk ip files = Ok (ns, ip, files) /\ conv_repairs ns.
Proof.
  intros Hfs Hj. destruct (conv_starts junk Hj) as (helpers & losts & st0 & coefs & allBlks & ps & Han & Hall & Hst0 & Hps & E). eexists. split; [exact E|].
  assert (Hpn : forall f n, ps !! f = Some n -> f ∈ drop 1 files /\ n = waiting_node f).
  { intros f n. rewrite Hps. destruct (decide (_fileSysType conf = lit "HDFS" /\ f ∈ drop 1 files)) as [Hc|]; [|done]. intros [= <-]. split; [apply Hc|done]. }
  pose proof (conv_csystem helpers losts st0 coefs Han ps Hpn) as Hcs. set (ns := conv_nodes helpers coefs ps) in *.
  assert (Hw : all_wait ns files).
  { intros f Hf. cbn. rewrite Hps, decide_True; [by eexists|]. split; [|done]. destruct Hfs as [|Hl]; [done|].
    rewrite drop_ge in Hf by lia. by apply not_elem_of_nil in Hf. }
  assert (Ha : all_conv cf ns files = conv_steps) by (unfold all_conv, conv_steps; cbn; by rewrite length_fmap, length_seq).
  intros fresh st Hfresh Hst. destruct (conv_started_progress cf _ ip files _ Hcs st Hst) as [Hp H0].
  rewrite <- Ha. refine (scheme_delivers (conv_laws cf fresh ns ip ip files _ _ _ _ _ _ _ _) st _ Hp H0 _).
  - intros st' Hp'. rewrite (proj1 (ra_read _ _ _ _ _ (cg_repairer _ _ _ _ _ _ Hp'))). cbn. by rewrite length_fmap, length_seq.
  - apply (cstep_progress cf (rc_packets _ _ Hcl) fresh Hfresh ns ip files _ Hcs).
  - intros st' Hp'. by apply (conv_parts cf ns ip files _ Hcs).
  - intros st' Hp' Hlt. destruct (conv_next cf (rc_packets _ _ Hcl) fresh Hfresh ns ip files _ Hcs st' Hp' Hw) as [|]; [done|lia].
  - apply (cno_crash cf (rc_packets _ _ Hcl) fresh Hfresh ns ip files _ Hcs).
  - intros st' Hp' Ee. destruct (conv_result cf ns ip files _ Hcs st' Hp' Ee) as (R1 & R2 & R3).
    assert (Hsum : forall j f, files !! j = Some f -> concat (repaired cf ns (sums helpers coefs) j <$> seq 0 cnt) = drop (_packetSkipSize cf) (disk f)).
    { intros j f Hf. rewrite <- (block_sum conf _distributorThreadNum dirs Hcl stripe holder disk files ip Hml Hmd helpers losts st0 coefs Han f) by by eapply list_elem_of_lookup_2.
      unfold repaired, sums. rewrite (list_lookup_total_correct _ _ _ Hf). cbn. by rewrite length_fmap, length_seq. }
    split_and!; [rewrite R1; apply Hsum, own_file_at|done|]. intros f [i Hi]%list_elem_of_lookup. rewrite lookup_drop in Hi.
    destruct (R3 (1 + i)%nat f ltac:(lia) Hi) as (w & Hw2 & Ew). exists w. split; [done|]. by rewrite Ew, (Hsum _ _ Hi).
Qed.

(** With another file system the other nodes are not told. *)
Lemma conv_stuck_client junk : _fileSysType conf <> lit "HDFS" -> (1 < length files)%nat -> (length (request_bytes ip files) <= length junk)%nat ->
  exists ns, start_conv_repair conf _distributorThreadNum dirs junk ip files = Ok (ns, ip, files) /\
    forall fresh st m st', (forall i, length (fresh i) = size) -> conv_started cf ns ip files st ->
      nsteps (cstep cf fresh ns ip ip files) m st st' -> s_ended st' = 0%nat.
Proof.
  intros Hfs Hnj Hj. destruct (conv_starts junk Hj) as (helpers & losts & st0 & coefs & allBlks & ps & Han & Hall & Hst0 & Hps & E). eexists. split; [exact E|].
  assert (Hnone : forall f, ps !! f = None) by (intros f; rewrite Hps, decide_False; [done|naive_solver]).
  assert (Hpn : forall f n, ps !! f = Some n -> f ∈ drop 1 files /\ n = waiting_node f) by (intros f n; by rewrite Hnone).
  intros fresh st m st' Hfresh Hst Hrun. destruct (conv_runs helpers losts st0 coefs ps Han Hpn fresh st m st' Hfresh Hst Hrun) as [Hp _].
  destruct (lookup_lt_is_Some_2 files 1 Hnj) as [f Hf].
  pose proof (conv_waits_for cf _ ip files _ (conv_csystem helpers losts st0 coefs Han ps Hpn) st' 0 f Hp Hf (Hnone f)). lia.
Qed.
End repair.

(** C6: The whole of a conventional repair against the promises of the metadata
    base.  The client asks for its own block first and for any other lost blocks
    of the stripe that leave [k] blocks on other nodes; either there are none, or
    the file system is HDFS, where the coordinator tells their nodes.  The
    helpers send their packets to the client's node, which rebuilds every lost
    block.  With the mutexes and condition variables of the code and whatever the
    interleaving of the threads of all the nodes, none of them ever fails, every
    run ends unless sleepers wake up by themselves, and when all iterations are
    made the client has its own block, every other node has the exact bytes of the
    block it has lost, and the client has been told of each; and that point can
    always be reached, if sleepers may wake up by themselves or if so far no thread
    was caught between a test that failed and its sleep by what it waits for. *)
Theorem conv_repair `{GF : GFComplete} {GL : GF8Laws} `{DL : DiskLaws} `{MB : MetadataBase}
    (conf : DRConfig) (_distributorThreadNum : nat) (dirs : Z -> blkdir) (stripe : list str) (holder : str -> Z) (disk : str -> list Z)
    (files : list str) (ip : Z) (junk : list Z) :
  cluster_conf conf _distributorThreadNum -> _DRPolicy conf = lit "conv" ->
  StripeLaws (_ecK (_conf conf)) (_packetCnt (_conf conf) * _packetSize (_conf conf)) stripe holder (covered conf disk) ->
  conv_lost conf stripe holder files ip -> mul_disks conf dirs stripe holder disk files ->
  _fileSysType conf = lit "HDFS" \/ length files = 1%nat -> (length (request_bytes ip files) <= length junk)%nat ->
  exists ns, start_conv_repair conf _distributorThreadNum dirs junk ip files = Ok (ns, ip, files) /\
    conv_repairs conf disk files ip ns.
Proof. intros. by eapply conv_repair_all. Qed.

(** C31: With any other file system the coordinator tells no other node, and
    nobody sends the client the word that a lost block is back: in no state the
    threads can reach has the client of several blocks got past its first pop for
    it, so all that ends its wait is the expiry of the pop. *)
Theorem conv_never_told `{GF : GFComplete} {GL : GF8Laws} `{DL : DiskLaws} `{MB : MetadataBase}
    (conf : DRConfig) (_distributorThreadNum : nat) (dirs : Z -> blkdir) (stripe : list str) (holder : str -> Z) (disk : str -> list Z)
    (files : list str) (ip : Z) (junk : list Z) :
  cluster_conf conf _distributorThreadNum -> _DRPolicy conf = lit "conv" ->
  StripeLaws (_ecK (_conf conf)) (_packetCnt (_conf conf) * _packetSize (_conf conf)) stripe holder (covered conf disk) ->
  conv_lost conf stripe holder files ip -> mul_disks conf dirs stripe holder disk files ->
  _fileSysType conf <> lit "HDFS" -> (1 < length files)%nat -> (length (request_bytes ip files) <= length junk)%nat ->
  exists ns, start_conv_repair conf _distributorThreadNum dirs junk ip files = Ok (ns, ip, files) /\
    forall fresh st m st', (forall i, length (fresh i) = _packetSize (_conf conf)) -> conv_started (_conf conf) ns ip files st ->
      nsteps (cstep (_conf conf) fresh ns ip ip files) m st st' -> s_ended st' = 0%nat.
Proof. intros. by eapply conv_stuck_client. Qed.

(** ** Two lost blocks of a (4, 2) stripe *)

Section example.
Definition four_conv (fs : str) : DRConfig := mkDRConfig four (lit "conv") [] fs false.

Lemma example_conv_cluster fs : cluster_conf (four_conv fs) 1.
Proof. destruct example_cluster. by split. Qed.

(** The nodes 2 and 1 have lost their blocks; the client is the node 2. *)
Lemma example_conv_lost fs : conv_lost (four_conv fs) example_stripe example_holder example_losts 2.
Proof.
  assert (Hcase : forall f, f ∈ example_losts -> f = blk_no 91 \/ f = blk_no 92).
  { intros f [->|[->|H%not_elem_of_nil]%elem_of_cons]%elem_of_cons; [by left|by right|done]. }
  destruct example_mul_lost as [L1 L2 L3 L4 L5 L6 L7 L8]. split.
  - by split.
  - vm_compute. reflexivity.
  - intros f [->| ->]%Hcase; (split; [decided|unfold is_u32; vm_compute; split; congruence]).
  - unfold active_fits. vm_compute. lia.
  - intros f [->| ->]%Hcase; (split; [intros x _; discriminate|intros g _; discriminate]).
Qed.

Lemma example_conv_disks fs : mul_disks (four_conv fs) example_dirs example_stripe example_holder example_disk example_losts.
Proof. destruct example_mul_disks as [D1 D2]. by split. Qed.

Lemma example_laws fs : exists h, GetMetadata (new_RSUtil 2 4 [1; 1; 1; 143]) 2 4 example_listing (reply_of <$> example_reports) = Ok h /\
  StripeLaws (MB := hdfs3 (fun _ l => l) false ∅ (new_RSUtil 2 4 [1; 1; 1; 143]) h) 2 16 example_stripe example_holder (covered (four_conv fs) example_disk).
Proof.
  destruct (hdfs3_ready (fun n => Some (replicate n 77)) ltac:(intros n; eexists; split; [reflexivity|apply length_replicate])
    (fun _ l => l) ltac:(reflexivity) false ∅ 2 2 ltac:(lia) ltac:(lia) ltac:(lia) example_listing example_parsed.1 example_parsed.2 example_reports example_holder
    example_listing_ok) as (encMat & h & H1 & H2 & H3).
  apply example_matrix in H1. subst encMat. exists h. split; [exact H2|].
  apply (@ml_stripe _ _ _ _ _ _ _). apply (H3 example_stripe 16%nat example_data); [rewrite example_parsed_stripes; left|apply example_regions|apply example_codeword].
Qed.

Lemma conv_repair_witness : exists h ns,
  start_conv_repair (MB := hdfs3 (fun _ l => l) false ∅ (new_RSUtil 2 4 [1; 1; 1; 143]) h) (four_conv (lit "HDFS")) 1 example_dirs (zeros 1024) 2 example_losts =
    Ok (ns, 2, example_losts) /\ conv_repairs (four_conv (lit "HDFS")) example_disk example_losts 2 ns.
Proof.
  destruct (example_laws (lit "HDFS")) as (h & _ & HL).
  destruct (conv_repair (MB := hdfs3 (fun _ l => l) false ∅ (new_RSUtil 2 4 [1; 1; 1; 143]) h) (four_conv (lit "HDFS")) 1 example_dirs example_stripe example_holder example_disk
    example_losts 2 (zeros 1024) (example_conv_cluster _) eq_refl HL (example_conv_lost _) (example_conv_disks _) (or_introl eq_refl)) as (ns & H1 & H2).
  - rewrite length_request. unfold zeros. rewrite length_replicate. vm_compute. lia.
  - exists h, ns. split; [exact H1|exact H2].
Defined.

Lemma conv_never_told_witness : exists h ns,
  start_conv_repair (MB := hdfs3 (fun _ l => l) false ∅ (new_RSUtil 2 4 [1; 1; 1; 143]) h) (four_conv (lit "HDFS3")) 1 example_dirs (zeros 1024) 2 example_losts =
    Ok (ns, 2, example_losts) /\
  forall fresh st m st', (forall i, length (fresh i) = _packetSize four) -> conv_started four ns 2 example_losts st ->
    nsteps (cstep four fresh ns 2 2 example_losts) m st st' -> s_ended st' = 0%nat.
Proof.
  destruct (example_laws (lit "HDFS3")) as (h & _ & HL).
  destruct (conv_never_told (MB := hdfs3 (fun _ l => l) false ∅ (new_RSUtil 2 4 [1; 1; 1; 143]) h) (four_conv (lit "HDFS3")) 1 example_dirs example_stripe example_holder example_disk
    example_losts 2 (zeros 1024) (example_conv_cluster _) eq_refl HL (example_conv_lost _) (example_conv_disks _) ltac:(discriminate)) as (ns & H1 & H2).
  - cbn. lia.
  - rewrite length_request. unfold zeros. rewrite length_replicate. vm_compute. lia.
  - exists h, ns. split; [exact H1|exact H2].
Defined.
End example.
