(* ===== verification/HdfsSystem.v ===== *)
(** * A conventional repair with HDFS, from the stripe store to the blocks

    Hdfs.v under ConvSystem.v: the combination whose coordinator tells the other
    nodes that have lost a block ([_fileSysType] "HDFS", which the configuration
    also makes of "standalone"). *)
From Stdlib Require Import Ascii.
From stdpp Require Import strings relations.
From S2P Require Import Prelude Command Text Galois GF256 Jerasure Gauss Vandermonde ReedSol Encode RSUtil Config Disk PathSelection Coordinator Packet Metadata DrCmd Request Hdfs3 Hdfs3Laws Hdfs HdfsLaws PipeRepair MulRepair MulProgress PipeCoord MulCoord PipeSystem MulSystem ConvRepair ConvProgress ConvCoord ConvSystem.

Section hdfs.
Context `{GF : GFComplete} {GL : GF8Laws} `{DL : DiskLaws} (talloc : nat -> option (list Z)) (Hta : forall n, exists l, talloc n = Some l /\ length l = n).
Context (random_shuffle : nat -> list (Z * str) -> list (Z * str)) (Hsh : forall i s, random_shuffle i s ≡ₚ s) (sort : list (str * nat) -> list (str * nat)).
Context (conf : DRConfig) (_distributorThreadNum : nat) (Hcl : cluster_conf conf _distributorThreadNum).
Context (Hpol : _DRPolicy conf = lit "conv") (Hfs : _fileSysType conf = lit "HDFS").
Context (_loadbalance : bool) (rackInfos : gmap Z str) (ents : list (str * str)) (store_files : list (str * list str)) (rs : list (option (Z * str))) (holder : str -> Z).
Abbreviation k := (_ecK (_conf conf)).
Abbreviation covered_size := (_packetCnt (_conf conf) * _packetSize (_conf conf))%nat.

(** C7: The whole of a conventional repair with HDFS, for any [k, m >= 1] with
    [k + m <= 256].  The coordinator reads the stripe store and the reports; the
    blocks of a stripe hold a codeword of reed_sol.c.  Any blocks of a stripe are
    lost, at least [k] are left, and one of the nodes asks for its own and names
    the others.  As in [ConvSystem.conv_repair], no thread ever fails, whatever
    their interleaving, every run ends unless sleepers wake up by themselves, and
    when all iterations are made every lost block is on the node that lost it; and
    that point can always be reached, if sleepers may wake up by themselves or if
    so far no thread was caught between a test that failed and its sleep. *)
Theorem hdfs_conv_repair m :
  (0 < m)%nat -> (k + m <= 256)%nat -> store_ok k m ents store_files rs holder ->
  exists encMat hd, reed_sol_vandermonde_coding_matrix talloc k m 8 = Ok (Some encMat) /\
    let u := new_RSUtil k (m + k) encMat in
    HDFS_MetadataBase u k false (Some ents) (reply_of <$> rs) = Ok hd /\
    forall b l files ip disk dirs data junk, (b, l) ∈ store_files -> conv_lost conf l holder files ip -> mul_disks conf dirs l holder disk files ->
      (forall c, (c < k)%nat -> region covered_size (data !!! c)) ->
      (forall i b, l !! i = Some b -> covered conf disk b = stripe_block k covered_size (complete_enc_mat k (m + k) encMat) data i) ->
      (length (request_bytes ip files) <= length junk)%nat ->
      exists ns,
        start_conv_repair (MB := hdfs random_shuffle sort (_localIP (_conf conf)) (_shuffle (_conf conf)) _loadbalance rackInfos u false hd)
          conf _distributorThreadNum dirs junk ip files = Ok (ns, ip, files) /\
        conv_repairs conf disk files ip ns.
Proof.
  intros Hm Hkm Hok. pose proof (rc_k _ _ Hcl) as Hk.
  destruct (hdfs_ready talloc Hta random_shuffle Hsh sort (_localIP (_conf conf)) (_shuffle (_conf conf)) _loadbalance rackInfos k m ltac:(lia) Hm Hkm
    ents store_files rs holder Hok) as (encMat & hd & H1 & H2 & H3).
  exists encMat, hd. split; [exact H1|]. split; [exact H2|]. intros b l files ip disk dirs data junk Hl Hlost Hd Hdata Hcont Hj.
  apply (conv_repair_all conf _distributorThreadNum dirs Hcl Hpol l holder disk files ip Hlost Hd); [|by left|exact Hj].
  exact (H3 b l covered_size data (covered conf disk) Hl Hdata Hcont).
Qed.
End hdfs.

Lemma hdfs_conv_repair_witness : exists hd ns,
  HDFS_MetadataBase (new_RSUtil 2 4 [1; 1; 1; 143]) 2 false (Some example_store) (reply_of <$> example_reports) = Ok hd /\
  start_conv_repair (MB := hdfs (fun _ l => l) (fun l => l) (_localIP four) false false ∅ (new_RSUtil 2 4 [1; 1; 1; 143]) false hd)
    (four_conv (lit "HDFS")) 1 example_dirs (zeros 1024) 2 example_losts = Ok (ns, 2, example_losts) /\
  conv_repairs (four_conv (lit "HDFS")) example_disk example_losts 2 ns.
Proof.
  destruct (hdfs_conv_repair (fun n => Some (replicate n 77)) ltac:(intros n; eexists; split; [reflexivity|apply length_replicate])
    (fun _ l => l) ltac:(reflexivity) (fun l => l) (four_conv (lit "HDFS")) 1 (example_conv_cluster _) eq_refl eq_refl false ∅ example_store example_files example_reports
    example_holder 2 ltac:(lia) ltac:(cbn; lia) example_store_ok) as (encMat & hd & H1 & H2 & H3).
  apply example_matrix in H1. subst encMat. exists hd.
  destruct (H3 (blk_no 92) example_stripe example_losts 2 example_disk example_dirs example_data (zeros 1024)) as (ns & H4 & H5).
  - left.
  - apply example_conv_lost.
  - apply example_conv_disks.
  - apply example_regions.
  - apply example_codeword.
  - rewrite length_request. unfold zeros. rewrite length_replicate. vm_compute. lia.
  - exists ns. split; [exact H2|]. split; [exact H4|exact H5].
Defined.
