(* ===== verification/PPRSystem.v ===== *)
(** * A partial parallel repair from request to block

    The client, the coordinator (PPRCoord.v), the nodes of the tree
    (PPRRepair.v) with their waits (PPRWait.v) and the metadata put together: no
    run fails, and unless a wake-up is lost the client receives the lost block. *)
From Stdlib Require Import Ascii.
From stdpp Require Import strings relations.
From S2P Require Import Prelude Command Text Galois GF256 Jerasure Gauss Vandermonde ReedSol Encode RSUtil Config Disk PathSelection Coordinator Packet Metadata DrCmd Request Hdfs3 Hdfs3Laws PipeRepair PPRTree PPRRepair PipeCoord PPRCoord PipeSystem Wait PPRWait.

(** ** The nodes of a request *)

Definition ppr_accept_one (conf : Config) (_ip2Ctx : list (Z * str)) (dirs : Z -> blkdir) (p : str * list Z) : res qnode :=
  '(ip, cmd) ← cmdDistributor _ip2Ctx p.2; ppr_accept conf ip (dirs ip) cmd.
Definition ppr_accept_all (conf : Config) (_ip2Ctx : list (Z * str)) (dirs : Z -> blkdir) (cmds : list (str * list Z)) : res (list qnode) :=
  for_each cmds (fun p ns => n ← ppr_accept_one conf _ip2Ctx dirs p; Ok (ns ++ [n])) [].

(** Everything up to the start of the threads; the client sets [_nj] to 1. *)
Definition start_ppr `{MB : MetadataBase} (conf : DRConfig) (_distributorThreadNum : nat) (dirs : Z -> blkdir)
    (junk : list Z) (_locIP : Z) (filenames : list str) : res (list qnode * Z) :=
  let helpers := _helpersIPs (_conf conf) in
  files ← lost_files conf filenames;
  req ← request junk _locIP files;
  ctx ← ip2Ctx helpers _distributorThreadNum;
  pushes ← ppr_requestHandler conf ctx req;
  reply ← res_of_option Blocked (last pushes);
  ns ← ppr_accept_all (_conf conf) ctx dirs (take (length pushes - 1) pushes);
  '(ctxs, _) ← read_reply helpers _locIP 1 reply.2;
  fetch ← res_of_option Undef (mjoin (ctxs !! 0%nat));
  Ok (ns, fetch).

(** ** One lost block *)

Section repair.
Context `{GF : GFComplete} {GL : GF8Laws} `{DL : DiskLaws} `{MB : MetadataBase}.
Context (conf : DRConfig) (_distributorThreadNum : nat) (dirs : Z -> blkdir).
Abbreviation cf := (_conf conf).
Abbreviation cnt := (_packetCnt cf).
Abbreviation size := (_packetSize cf).

(** The configuration: the nodes sorted by address. *)
Record ppr_conf : Prop := {
  pc_k : (0 < _ecK cf)%nat;
  pc_threads : (0 < _distributorThreadNum)%nat;
  pc_packets : packets_ok cf;
  pc_sorted : sorted_by (fun i => _helpersIPs cf !! i);
  pc_few : Z.of_nat (length (_helpersIPs cf)) < 2^31
}.

(** The stripe of the lost block [f]: its blocks are on different nodes; the
    client is a node of the cluster with none of the others.  The commands carry
    the addresses of all of them. *)
Record ppr_stripe (stripe : list str) (holder : str -> Z) (f : str) (ip : Z) : Prop := {
  ps_lost : f ∈ stripe;
  ps_nodes b c : b ∈ stripe -> c ∈ stripe -> holder b = holder c -> b = c;
  ps_helper b : b ∈ stripe -> b <> f -> holder b ∈ _helpersIPs cf /\ is_u32 (holder b) /\ holder b <> ip /\ b <> [] /\
    (20 + 4 * length stripe + length f + length b <= COMMAND_MAX_LENGTH)%nat;
  ps_client : is_u32 ip /\ ip ∈ _helpersIPs cf
}.

(** The block files: PPR reads them from their first byte on. *)
Definition first_bytes (disk : str -> list Z) (b : str) : list Z := take (cnt * size) (disk b).
Definition ppr_disks (stripe : list str) (holder : str -> Z) (disk : str -> list Z) (f : str) : Prop :=
  forall b, b ∈ stripe -> b <> f -> dirs (holder b) !! b = Some (disk b) /\ whole_file cf (disk b).

Context (Hconf : ppr_conf) (stripe : list str) (holder : str -> Z) (disk : str -> list Z) (f : str) (ip : Z).
Context (Hps : ppr_stripe stripe holder f ip) (Hpd : ppr_disks stripe holder disk f).
Context (HM : StripeLaws (_ecK cf) (cnt * size) stripe holder (first_bytes disk)).

(** What the metadata answers, and the helpers in the order of their addresses. *)
Record ppr_choice (blks : list (Z * str)) (coef : gmap str Z) : Prop := {
  pch_some : (0 < length blks)%nat;
  pch_nodup : NoDup blks.*2;
  pch_in it : it ∈ blks -> it.2 ∈ stripe /\ it.2 <> f /\ it.1 = holder it.2;
  pch_rebuilds : rebuilds (cnt * size) (first_bytes disk) f blks.*2 coef
}.

Section chosen.
Context (blks : list (Z * str)) (coef : gmap str Z) (Hch : ppr_choice blks coef).
Abbreviation hs := (stripe_map blks).
Abbreviation N := (length hs).

Lemma hs_perm : hs ≡ₚ blks.
Proof.
  apply stripe_map_perm. assert (E : blks.*1 = holder <$> blks.*2).
  { rewrite <- list_fmap_compose. apply list_fmap_ext. intros i it Hit. cbn. apply (pch_in _ _ Hch). by eapply list_elem_of_lookup_2. }
  rewrite E. apply NoDup_fmap_2_strong; [|apply Hch]. intros b c Hb Hc.
  apply list_elem_of_fmap in Hb as (x & -> & Hx), Hc as (y & -> & Hy). apply (ps_nodes _ _ _ _ Hps); by apply (pch_in _ _ Hch).
Qed.

Lemma hs_in it : it ∈ hs -> it ∈ blks.
Proof. by rewrite hs_perm. Qed.

Lemma N_blks : N = length blks.
Proof. by rewrite hs_perm. Qed.

Lemma N_stripe : (N < length stripe)%nat.
Proof.
  assert (Hsub : (f :: blks.*2) ⊆ stripe).
  { intros b [->|(it & -> & Hit)%list_elem_of_fmap]%elem_of_cons; [apply Hps|by apply (pch_in _ _ Hch)]. }
  assert (Hn : NoDup (f :: blks.*2)).
  { constructor; [|apply Hch]. intros (it & E & Hit)%list_elem_of_fmap. by apply (pch_in _ _ Hch) in Hit as (_ & ? & _). }
  pose proof (submseteq_length _ _ (NoDup_submseteq _ _ Hn Hsub)) as Hl. cbn in Hl. rewrite length_fmap in Hl. rewrite N_blks. lia.
Qed.

Lemma hs_at x : (x < N)%nat -> hs !! x = Some (hs !!! x) /\ (hs !!! x).2 ∈ stripe /\ (hs !!! x).2 <> f /\ (hs !!! x).1 = holder (hs !!! x).2.
Proof.
  intros Hx. pose proof (list_lookup_lookup_total_lt hs x Hx) as E. split; [done|]. apply (pch_in _ _ Hch), hs_in.
  by eapply list_elem_of_lookup_2.
Qed.

Lemma N_bounds : (0 < N)%nat /\ Z.of_nat N < 2 ^ 30 /\ (20 + 4 * (N + 1) + length f <= COMMAND_MAX_LENGTH)%nat.
Proof.
  pose proof (pch_some _ _ Hch). rewrite <- N_blks in *. split; [done|]. destruct (hs_at 0) as (_ & Hs & Hne & _); [done|].
  destruct (ps_helper _ _ _ _ Hps _ Hs Hne) as (_ & _ & _ & _ & Hfit). pose proof N_stripe. unfold COMMAND_MAX_LENGTH in *. lia.
Qed.

(** The addresses, and the commands. *)
Definition ips : list Z := hs.*1 ++ [ip].
Definition addr (x : nat) : Z := ips !!! x.
Definition cmd_at (x : nat) : ppr_cmd :=
  if decide (x < N)%nat then mkPprCmd (Z.of_nat N) (Z.of_nat x) ips (default 0 (coef !! (hs !!! x).2)) f (hs !!! x).2
  else mkPprCmd (Z.of_nat N) (Z.of_nat N) ips 0 f [].
(** The servers: the children of the requestor push to it. *)
Definition server (x : nat) : Z := if decide (x < N /\ up N x < N)%nat then addr x else ip.

Lemma length_ips_N : length ips = S N.
Proof. unfold ips. rewrite length_app, length_fmap. simpl. lia. Qed.

Lemma addr_helper x : (x < N)%nat -> addr x = (hs !!! x).1.
Proof.
  intros Hx. unfold addr, ips. apply list_lookup_total_correct. rewrite lookup_app_l by by rewrite length_fmap.
  by rewrite list_lookup_fmap, (proj1 (hs_at x Hx)).
Qed.

Lemma addr_client : addr N = ip.
Proof.
  unfold addr, ips. apply list_lookup_total_correct. by rewrite lookup_app_r, length_fmap, Nat.sub_diag by by rewrite length_fmap.
Qed.

Lemma addr_ok x : (x <= N)%nat -> vec ips (Z.of_nat x) = Ok (addr x) /\ addr x ∈ _helpersIPs cf /\ is_u32 (addr x).
Proof.
  intros Hx. split.
  - apply vec_ok. apply list_lookup_lookup_total_lt. rewrite length_ips_N. lia.
  - destruct (decide (x < N)%nat) as [Hlt|].
    + rewrite addr_helper by done. destruct (hs_at x Hlt) as (_ & Hs & Hne & ->). by destruct (ps_helper _ _ _ _ Hps _ Hs Hne) as (? & ? & _).
    + replace x with N by lia. rewrite addr_client. destruct (ps_client _ _ _ _ Hps). done.
Qed.

Lemma cmd_ok_at x : (x <= N)%nat -> ppr_ok (cmd_at x).
Proof.
  intros Hx. destruct N_bounds as (H0 & H1 & H2). pose proof length_ips_N as Hl. unfold cmd_at.
  assert (Hu : Forall is_u32 ips).
  { apply Forall_lookup. intros i a Hi. pose proof (lookup_lt_Some _ _ _ Hi) as Hlt. rewrite Hl in Hlt.
    destruct (addr_ok i ltac:(lia)) as (_ & _ & Hua). unfold addr in Hua. by rewrite (list_lookup_total_correct _ _ _ Hi) in Hua. }
  case_decide as Hlt.
  - destruct (hs_at x Hlt) as (_ & Hs & Hne & _). destruct (ps_helper _ _ _ _ Hps _ Hs Hne) as (_ & _ & _ & _ & Hfit).
    assert (Hb : is_byte (default 0 (coef !! (hs !!! x).2))).
    { apply (rb_bytes _ _ _ _ _ (pch_rebuilds _ _ Hch)). apply list_elem_of_fmap_2, hs_in.
      eapply list_elem_of_lookup_2. by apply hs_at. }
    unfold is_byte in Hb. unfold COMMAND_MAX_LENGTH in *. split; cbn [pp_id pp_ecK pp_holderIps pp_coefficient pp_lost pp_local]; (done || lia || (intros; exfalso; lia)).
  - unfold COMMAND_MAX_LENGTH in *. split; cbn; (done || lia).
Qed.

(** The node [x], and that it is what accepting its command gives. *)
Definition qnode_of (x : nat) : qnode :=
  mkQNode (cmd_at x) (dirs (addr x) !! pp_local (cmd_at x)) ((fun c => (Z.of_nat c, Some (server c))) <$> kids N x) (Some (server x)).

Lemma cmd_fields x : (x <= N)%nat -> pp_id (cmd_at x) = Z.of_nat x /\ pp_ecK (cmd_at x) = Z.of_nat N /\ pp_holderIps (cmd_at x) = ips /\ pp_lost (cmd_at x) = f.
Proof. intros Hx. unfold cmd_at. case_decide; [done|]. by replace x with N by lia. Qed.

Lemma wrt_server x : (x <= N)%nat -> (if PPRnextIP (Z.of_nat x) >=? Z.of_nat N then ip else addr x) = server x.
Proof.
  intros Hx. destruct N_bounds as (H0 & _). unfold server, up, parent. destruct (lowest_exists (Z.of_nat x + 1)) as [l Hl]; [lia|].
  pose proof (nextIP_lowest _ _ Hl) as E. assert (0 < 2 ^ l) by (pose proof (proj1 Hl); lia).
  destruct (Z.geb_spec (PPRnextIP (Z.of_nat x)) (Z.of_nat N)); case_decide; (done || lia).
Qed.

Lemma node_accepts x : (x <= N)%nat -> ppr_accept cf (addr x) (dirs (addr x)) (ppr_bytes (cmd_at x)) = Ok (qnode_of x).
Proof.
  intros Hx. destruct N_bounds as (H0 & H1 & _). destruct (cmd_fields x Hx) as (Ei & Ek & Eips & _). destruct (kids_ok N H0 H1 x Hx) as (Hkids & _ & Hin).
  unfold ppr_accept. rewrite <- (app_nil_r (ppr_bytes _)), parse_ppr_bytes, bind_ok by by apply cmd_ok_at.
  rewrite Ei, Ek, Eips, Hkids, bind_ok.
  rewrite (for_each_gather _ _ (fun z => (z, Some (server (Z.to_nat z))))).
  2: { intros z acc (c & -> & Hc)%list_elem_of_fmap. rewrite Nat2Z.id. apply Hin in Hc as [Hc Hu]. pose proof (up_above N H0 c Hc) as Hup.
    unfold server. destruct (Z.eqb_spec (Z.of_nat x) (Z.of_nat N)) as [E|E]; cbn [negb].
    - rewrite bind_ok, decide_False by lia. replace x with N by lia. by rewrite addr_client.
    - destruct (addr_ok c) as (-> & Hh & _); [lia|]. rewrite bind_ok, findCtx_helper, bind_ok, decide_True by (done || lia). done. }
  rewrite app_nil_l, bind_ok, <- list_fmap_compose.
  assert (Ew : (if PPRnextIP (Z.of_nat x) >=? Z.of_nat N then i ← vec ips (Z.of_nat N); findCtx (slavesCtx (_helpersIPs cf)) i else Ok (Some (addr x))) =
    Ok (Some (server x))).
  { rewrite <- (wrt_server x Hx). case_match; [|done]. destruct (addr_ok N) as (-> & Hh & _); [lia|]. rewrite addr_client in Hh.
    by rewrite bind_ok, addr_client, findCtx_helper. }
  rewrite Ew, bind_ok. unfold qnode_of. do 2 f_equal. apply list_fmap_ext. intros i c _. cbn. by rewrite Nat2Z.id.
Qed.

Definition ppr_nodes_of : list qnode := qnode_of <$> seq 0 (S N).

Lemma qnode_lookup x n : ppr_nodes_of !! x = Some n -> (x <= N)%nat /\ n = qnode_of x.
Proof. unfold ppr_nodes_of. rewrite list_lookup_fmap. intros (y & [-> Hlt]%lookup_seq & ->)%fmap_Some. split; [lia|done]. Qed.

Lemma qnodes_at x : (x <= N)%nat -> ppr_nodes_of !!! x = qnode_of x.
Proof. intros. apply list_lookup_total_correct. unfold ppr_nodes_of. rewrite list_lookup_fmap, lookup_seq_lt by lia. done. Qed.

Lemma helper_file x : (x < N)%nat -> q_file (qnode_of x) = Some (disk (hs !!! x).2) /\ whole_file cf (disk (hs !!! x).2).
Proof.
  intros Hx. destruct (hs_at x Hx) as (_ & Hs & Hne & Eh). destruct (Hpd _ Hs Hne) as [Hf Hw]. split; [|done].
  unfold qnode_of, cmd_at. cbn [q_file]. rewrite decide_True by done. cbn [pp_local]. by rewrite addr_helper, Eh.
Qed.

Lemma ppr_nodes_ok : ppr_nodes cf ppr_nodes_of N f server.
Proof.
  destruct N_bounds as (H0 & H1 & _). split.
  - done.
  - unfold ppr_nodes_of. by rewrite length_fmap, length_seq.
  - intros x n [Hx ->]%qnode_lookup. destruct (cmd_fields x Hx) as (? & ? & _ & ?). done.
  - by intros x n [Hx ->]%qnode_lookup.
  - by intros x n [Hx ->]%qnode_lookup.
  - intros x n [Hx ->]%qnode_lookup Hlt. destruct (helper_file x Hlt) as [Hf Hw]. destruct (hs_at x Hlt) as (Hl & Hs & Hne & _).
    split_and!; [| |by exists (disk (hs !!! x).2)]; unfold qnode_of, cmd_at; rewrite decide_True by done; cbn [q_cmd pp_local pp_coefficient].
    + by apply (ps_helper _ _ _ _ Hps).
    + apply (rb_bytes _ _ _ _ _ (pch_rebuilds _ _ Hch)), list_elem_of_fmap_2, hs_in. by eapply list_elem_of_lookup_2.
  - intros n [_ ->]%qnode_lookup. unfold qnode_of, cmd_at. cbn. by rewrite decide_False by lia.
Qed.

(** The requestor's sum is the lost block. *)
Lemma ppr_sum : lincomb N (cnt * size) (qcoef_at ppr_nodes_of) (qblk_at ppr_nodes_of <$> seq 0 N) = first_bytes disk f.
Proof.
  assert (Hr : rebuilds (cnt * size) (first_bytes disk) f hs.*2 coef).
  { eapply rebuilds_perm; [|apply (pch_rebuilds _ _ Hch)]. by rewrite hs_perm. }
  rewrite <- (rb_sum _ _ _ _ _ Hr), length_fmap. apply list_eq_total; rewrite !length_lincomb; [done|]. intros p Hp.
  rewrite !lincomb_lookup by done. apply xsum_ext. intros x Hx. destruct (hs_at x Hx) as (Hl & _).
  assert (E : hs.*2 !!! x = (hs !!! x).2) by (apply list_lookup_total_correct; by rewrite list_lookup_fmap, Hl).
  rewrite (list_lookup_total_fmap (first_bytes disk)), E by by rewrite length_fmap.
  rewrite (list_lookup_total_correct _ x (qblk_at ppr_nodes_of x)) by by rewrite list_lookup_fmap, lookup_seq_lt.
  unfold qcoef_at, qblk_at. rewrite qnodes_at, (proj1 (helper_file x Hx)) by lia. cbn [default from_option id]. f_equal.
  - unfold qnode_of, cmd_at. by rewrite decide_True.
  - unfold first_bytes. by rewrite !list_lookup_total_alt, lookup_take_lt.
Qed.

(** ** The start of the repair *)

Section pushes.
Context (ctx : list (Z * str)) (Ectx : ctx.*1 = _helpersIPs cf) (Hlisted : helpers_listed ctx).

Lemma ppr_push x : (x < N)%nat ->
  exists q v, ppr_helper_push ctx ips f coef hs x = Ok (q, v) /\ cmdDistributor ctx v = Ok (addr x, ppr_bytes (cmd_at x)).
Proof.
  intros Hx. destruct (hs_at x Hx) as (Hl & Hs & Hne & Eh). destruct (ps_helper _ _ _ _ Hps _ Hs Hne) as (Hh & _ & _ & _ & Hfit).
  rewrite <- Eh in Hh. rewrite <- Ectx in Hh. destruct (helper_found ctx Hlisted _ Hh) as (idx & q & Hidx & Hq & Hi).
  unfold ppr_helper_push. rewrite (vec_ok _ _ _ Hl), bind_ok, Hidx, bind_ok.
  pose proof N_stripe. rewrite ppr_helper_bytes, bind_ok, Hq, bind_ok by (rewrite ?length_ips_N; lia). eexists q, _. split; [done|].
  unfold cmdDistributor. rewrite read_int_0, bind_ok, Hq, bind_ok, drop_app_length' by done. cbn [fst].
  rewrite addr_helper by done. unfold cmd_at. by rewrite decide_True.
Qed.

Lemma ppr_handled m rq : (4 <= length m)%nat -> read_uint m 0 = Ok ip -> parseFRRequest (_ecK cf) m ip = Ok rq ->
  rq_index rq = 0 -> (exists i, rq_lost rq = [(f, i)]) -> getStripeBlks f ip = Ok blks -> getCoefficient f None = Ok coef ->
  exists cmds, ppr_requestHandler conf ctx m = Ok (cmds ++ [(f, le32 ip)]) /\ length cmds = S N /\
    forall x p, cmds !! x = Some p -> ppr_accept_one cf ctx dirs p = Ok (qnode_of x).
Proof.
  intros Hm Hip Hrq Hidx [i0 Hlost] Hb Hc. unfold ppr_requestHandler. rewrite (proj2 (Nat.leb_le _ _)) by done. cbn [guard_or].
  rewrite bind_ok, Hip, bind_ok, Hrq, bind_ok, Hidx. cbn [negb Z.eqb].
  rewrite Hlost, (vec_ok [(f, i0)] 0 (f, i0) eq_refl : vec _ 0 = _), bind_ok. cbn [fst]. rewrite Hb, bind_ok, Hc, bind_ok. fold ips.
  set (g x := match ppr_helper_push ctx ips f coef hs x with Ok c => c | Fault _ => ([], []) end).
  assert (Hg : forall x, (x < N)%nat -> ppr_helper_push ctx ips f coef hs x = Ok (g x) /\ cmdDistributor ctx (g x).2 = Ok (addr x, ppr_bytes (cmd_at x))).
  { intros x Hx. unfold g. by destruct (ppr_push x Hx) as (q & v & -> & E). }
  rewrite (for_each_collect (seq 0 N) _ g) by (intros x [_ Hx]%elem_of_seq; by apply Hg).
  rewrite app_nil_l, bind_ok. destruct N_bounds as (H0 & H1 & Hfit).
  destruct (ps_client _ _ _ _ Hps) as [Hu Hin]. rewrite <- Ectx in Hin. destruct (helper_found ctx Hlisted _ Hin) as (idx & q & Ei & Hq & Hs).
  rewrite Ei, bind_ok, ppr_requestor_bytes, bind_ok, Hq, bind_ok by (rewrite ?length_ips_N; unfold COMMAND_MAX_LENGTH in *; lia).
  set (last_cmd := (q, le32 (Z.of_nat idx) ++ ppr_bytes (mkPprCmd (Z.of_nat N) (Z.of_nat N) ips 0 f []))). exists ((g <$> seq 0 N) ++ [last_cmd]). split; [by rewrite <- app_assoc|].
  split; [rewrite length_app, length_fmap, length_seq; simpl; lia|]. intros x p Hp. unfold ppr_accept_one. apply lookup_app_Some in Hp as [Hp|[Hx Hp]].
  - rewrite list_lookup_fmap in Hp. apply fmap_Some in Hp as (y & [-> Hx]%lookup_seq & ->). cbn [Nat.add].
    rewrite (proj2 (Hg x Hx)), bind_ok. apply node_accepts. lia.
  - apply list_lookup_singleton_Some in Hp as [Hx2 <-]. rewrite length_fmap, length_seq in *. replace x with N by lia.
    unfold last_cmd, cmdDistributor. cbn [snd]. rewrite read_int_0, bind_ok, Hq, bind_ok, drop_app_length' by done. cbn [fst]. rewrite bind_ok.
    pose proof (node_accepts N ltac:(lia)) as Ha. rewrite addr_client in Ha. rewrite <- Ha. unfold cmd_at. by rewrite decide_False by lia.
Qed.
End pushes.
End chosen.

Lemma ppr_starts junk : (12 + length f <= length junk)%nat ->
  exists k ns server, start_ppr conf _distributorThreadNum dirs junk ip [f] = Ok (ns, ip) /\ server k = ip /\
    ppr_nodes cf ns k f server /\ lincomb k (cnt * size) (qcoef_at ns) (qblk_at ns <$> seq 0 k) = first_bytes disk f.
Proof.
  intros Hj. pose proof (ps_lost _ _ _ _ Hps) as Hf. destruct (ml_all f Hf) as (all & Hall & Hin).
  destruct (ml_helpers f ip Hf) as (blks & Hblks & Hen & Hnd & Hel). destruct (ml_first f ip Hf) as (blks' & coef & Hblks' & Hc & Hr).
  rewrite Hblks in Hblks'. injection Hblks' as <-. pose proof (pc_k Hconf) as Hk. assert (Hch : ppr_choice blks coef) by (split; (done || lia)).
  destruct (N_bounds blks coef Hch) as (H0 & H1 & Hfit). destruct (ps_client _ _ _ _ Hps) as [Hu Hcl].
  assert (Hsome : all <> []) by (intros ->; by apply Hin, not_elem_of_nil in Hf).
  assert (Hip : forall b, b ∈ [f] \/ b ∈ all.*2 -> getIPfromBlk b = Ok (holder b)).
  { intros b [->%list_elem_of_singleton|Hb%Hin]; by apply ml_ip. }
  destruct (request_parsed holder all f [] Hall Hsome Hip (_ecK cf) junk ip) as (m & st & Hm & Hml & Hmu & Hp & _).
  { done. } { apply Forall_singleton. unfold COMMAND_MAX_LENGTH in Hfit. lia. } { rewrite length_request. cbn. lia. }
  destruct (queues_listed (_helpersIPs cf) _distributorThreadNum (pc_threads Hconf) (pc_sorted Hconf) (pc_few Hconf)) as (ctx & Ectx & Hfst & Hlisted).
  destruct (ppr_handled blks coef Hch ctx Hfst Hlisted m _ Hml Hmu Hp) as (cmds & Ep & Hlc & Hcmds); [done|by eexists|done|done|].
  set (N := length (stripe_map blks)) in *.
  exists N, (ppr_nodes_of blks coef), (server blks). split_and!; [| |by apply ppr_nodes_ok|by apply ppr_sum].
  2: { unfold server. by rewrite decide_False by (fold N; lia). }
  assert (Hfiles : lost_files conf [f] = Ok [f]) by (unfold lost_files; by destruct (_ || _)).
  unfold start_ppr. rewrite Hfiles, bind_ok, Hm, bind_ok, Ectx, bind_ok, Ep, bind_ok, last_snoc. cbn [res_of_option].
  rewrite bind_ok, length_app, Nat.add_sub, take_app_length. unfold ppr_accept_all.
  set (g := fun p => match ppr_accept_one cf ctx dirs p with Ok n => n | Fault _ => inhabitant end).
  rewrite (for_each_collect cmds _ g).
  2: { intros p [x Hp2]%list_elem_of_lookup. unfold g. by rewrite (Hcmds x p Hp2). }
  assert (Hg : g <$> cmds = ppr_nodes_of blks coef).
  { unfold ppr_nodes_of. fold N. apply list_eq_same_length with (S N); [by rewrite length_fmap, length_seq|by rewrite length_fmap|].
    intros x n n' Hx. rewrite !list_lookup_fmap, lookup_seq_lt by done. intros (p & Hp2 & ->)%fmap_Some [= <-]. unfold g. by rewrite (Hcmds x p Hp2). }
  rewrite bind_ok, app_nil_l, Hg. unfold read_reply. cbn [snd]. rewrite length_le32. cbn [Z.of_nat Z.eqb].
  change (guard_or (Exit 1) (Z.of_nat 4 =? 8 * Z.of_nat 1 - 4)) with (Ok tt).
  assert (Hread : read_uint (le32 ip) 0 = Ok ip) by (rewrite <- (app_nil_r (le32 ip)); by apply read_uint_0).
  rewrite bind_ok, Hread, bind_ok, findCtx_sorted, bind_ok by (apply Hconf || done). cbn [seq Nat.sub for_each].
  rewrite bind_ok. by cbn [lookup list_lookup mjoin option_join res_of_option].
Qed.

(** What a PPR repair promises from a state in which its threads have started,
    whatever their interleaving ([delivers]). *)
Definition ppr_repairs (ns : list qnode) (k : nat) (server : nat -> Z) (fetchIP : Z) (result : list Z) : Prop :=
  forall st, qstarted cf ns k f server st -> delivers (ppr_scheme cf ns fetchIP f) st (all_qwork cf k) (fun st' => concat (qcollected st') = result).

Lemma ppr_repair junk : (12 + length f <= length junk)%nat ->
  exists ns k server, start_ppr conf _distributorThreadNum dirs junk ip [f] = Ok (ns, ip) /\
    ppr_repairs ns k server ip (first_bytes disk f).
Proof.
  intros Hj. destruct (ppr_starts junk Hj) as (k & ns & srv & E & Eip & Hpn & Hsum). exists ns, k, srv. split; [exact E|].
  intros st Hst. pose proof (tree_delivers cf (pc_packets Hconf) ns k f srv Hpn st Hst) as Hd. by rewrite Hsum, Eip in Hd.
Qed.
End repair.

(** ** With the metadata of HDFS 3 *)

Section hdfs3.
Context `{GF : GFComplete} {GL : GF8Laws} `{DL : DiskLaws} (talloc : nat -> option (list Z)) (Hta : forall n, exists l, talloc n = Some l /\ length l = n).
Context (random_shuffle : nat -> list (Z * str) -> list (Z * str)) (Hsh : forall i s, random_shuffle i s ≡ₚ s).
Context (conf : DRConfig) (_distributorThreadNum : nat) (Hconf : ppr_conf conf _distributorThreadNum).
Context (rackInfos : gmap Z str) (cmdResult : str) (blks : gset str) (stripe2Blk : list (str * list str)).
Context (rs : list (option (Z * str))) (holder : str -> Z).
Abbreviation k := (_ecK (_conf conf)).
Abbreviation covered_size := (_packetCnt (_conf conf) * _packetSize (_conf conf))%nat.

(** C3: The whole of a partial parallel repair with HDFS 3, for any [k, m >= 1]
    with [k + m <= 256].  The blocks of a stripe hold a codeword of reed_sol.c in
    their first [_packetCnt] packets.  A node of the cluster that holds no other
    block of the stripe asks for the lost block [f]: the request, the commands
    and the reply are processed without a fault, every node finds its place in
    the tree.  Then, with the mutexes and condition variables of the code and
    whatever the interleaving of the threads of all the nodes and of the client,
    none of them ever fails, every run ends unless sleepers wake up by themselves,
    and when all packets have come they are exactly these bytes of [f]; and that
    point can always be reached, if sleepers may wake up by themselves or if so far
    no thread was caught between a test that failed and its sleep by what it waits
    for. *)
Theorem hdfs3_ppr_repair m :
  (0 < m)%nat -> (k + m <= 256)%nat -> listing_ok k m cmdResult blks stripe2Blk rs holder ->
  exists encMat h, reed_sol_vandermonde_coding_matrix talloc k m 8 = Ok (Some encMat) /\
    let u := new_RSUtil k (m + k) encMat in
    GetMetadata u k (m + k) cmdResult (reply_of <$> rs) = Ok h /\
    forall l f ip disk dirs data junk, l ∈ stripe2Blk.*2 -> ppr_stripe conf l holder f ip -> ppr_disks conf dirs l holder disk f ->
      (forall c, (c < k)%nat -> region covered_size (data !!! c)) ->
      (forall i b, l !! i = Some b -> first_bytes conf disk b = stripe_block k covered_size (complete_enc_mat k (m + k) encMat) data i) ->
      (12 + length f <= length junk)%nat ->
      exists ns n server,
        start_ppr (MB := hdfs3 random_shuffle (_shuffle (_conf conf)) rackInfos u h) conf _distributorThreadNum dirs junk ip [f] = Ok (ns, ip) /\
        ppr_repairs conf f ns n server ip (first_bytes conf disk f).
Proof.
  intros Hm Hkm Hli. pose proof (pc_k _ _ Hconf) as Hk.
  destruct (hdfs3_ready talloc Hta random_shuffle Hsh (_shuffle (_conf conf)) rackInfos k m Hk Hm Hkm cmdResult blks stripe2Blk rs holder Hli)
    as (encMat & h & H1 & H2 & H3).
  exists encMat, h. split; [exact H1|]. split; [exact H2|]. intros l f ip disk dirs data junk Hl Hrs Hrd Hd Hcont Hj.
  apply (ppr_repair conf _distributorThreadNum dirs Hconf l holder disk f ip Hrs Hrd); [|exact Hj].
  exact (ml_stripe (MetadataLaws := H3 l covered_size data (first_bytes conf disk) Hl Hd Hcont)).
Qed.
End hdfs3.

(** The node 1 asks for its block: the tree is the nodes 3, 4 and 1. *)
Section example.
Let four_ppr : DRConfig := mkDRConfig four (lit "ppr") [] (lit "HDFS3") false.

Lemma example_ppr_conf : ppr_conf four_ppr 1.
Proof.
  split; [cbn; lia|lia| |apply (sorted_lookup [1; 2; 3; 4]); repeat constructor; discriminate|cbn; lia].
  split; [reflexivity|cbn; lia|cbn; lia].
Qed.

Lemma example_ppr_stripe : ppr_stripe four_ppr example_stripe example_holder example_lost 1.
Proof.
  split; [decided|exact example_nodes| |split; [unfold is_u32; lia|left]].
  intros b Hb Hne. destruct (example_helper b Hb Hne) as (H1 & H2 & H3).
  split_and!; [exact H1|unfold is_u32; lia|lia|by intros ->|]. rewrite H3. change (length example_lost) with 24%nat.
  change (length example_stripe) with 4%nat. unfold COMMAND_MAX_LENGTH. lia.
Qed.

Lemma example_ppr_disks : ppr_disks four_ppr example_dirs example_stripe example_holder example_disk example_lost.
Proof.
  intros b Hin _. destruct (example_file b Hin) as (H1 & H2 & H3). split; [exact H1|]. split; [|exact H3]. rewrite H2. cbn. lia.
Qed.

Lemma hdfs3_ppr_repair_witness :
  exists h ns n server, GetMetadata (new_RSUtil 2 4 [1; 1; 1; 143]) 2 4 example_listing (reply_of <$> example_reports) = Ok h /\
    start_ppr (MB := hdfs3 (fun _ l => l) false ∅ (new_RSUtil 2 4 [1; 1; 1; 143]) h) four_ppr 1 example_dirs (zeros 1024) 1 [example_lost] = Ok (ns, 1) /\
    ppr_repairs four_ppr example_lost ns n server 1 (seqZ 1 16).
Proof.
  destruct (hdfs3_ppr_repair (fun n => Some (replicate n 77)) ltac:(intros n; eexists; split; [reflexivity|apply length_replicate])
    (fun _ l => l) ltac:(reflexivity) four_ppr 1 example_ppr_conf ∅ example_listing example_parsed.1 example_parsed.2 example_reports example_holder
    2 ltac:(lia) ltac:(cbn; lia) example_listing_ok) as (encMat & h & H1 & H2 & H3).
  apply example_matrix in H1. subst encMat.
  destruct (H3 example_stripe example_lost 1 example_disk example_dirs example_data (zeros 1024)
    ltac:(rewrite example_parsed_stripes; left) example_ppr_stripe example_ppr_disks) as (ns & n & srv & H4 & H5).
  - exact example_regions.
  - exact example_codeword.
  - unfold zeros. rewrite length_replicate. change (length example_lost) with 24%nat. lia.
  - exists h, ns, n, srv. split; [exact H2|]. split; [exact H4|].
    assert (Ed : first_bytes four_ppr example_disk example_lost = seqZ 1 16) by (vm_compute; reflexivity). rewrite <- Ed. exact H5.
Defined.
End example.
