(* ===== verification/Cluster.v ===== *)
(** * The cluster: a crd update from the coordinator to the disks

    The nodes as processes.  Every node has a list of commands pushed by the
    coordinator, its block files and the lists the other nodes push to; a step
    takes the first command of a node, runs its handler to the end and delivers
    what it pushed.  A handler reads nothing another node writes except its own
    lists, which only grow at the end, so running it at once when its messages
    have come gives the same result as running it along with the others; how
    the pops time out is free in every step.

    [CrdUpdate] and the handlers of UPNode.cc meet here: whatever the order of
    the steps, the update ends with the data updated, the collector's parity new,
    the other parities new on the ranges announced to them, and an acknowledgement
    of every parity node. *)
From stdpp Require Import sets gmap relations.
From S2P Require Import Prelude Command Text Config Galois GF256 Jerasure Gauss Encode UpdPlan UPCoordinator Disk UPNode UPCrd CrdStripe.

(** A node as the others see it: its files and what waits in its lists. *)
Record host := mkHost {
  disk : gmap Z (list Z);
  raid_in : list (list Z);
  delta_in : list (list Z);
  crd_in : list (list Z)
}.

(** The hosts by address, the commands not yet taken (the list [upd_cmds] of a
    host is the part with its address) and the acknowledgements received. *)
Record cluster := mkCluster {
  hosts : gmap Z host;
  pending : list (Z * list Z);
  acked : nat
}.

(** [RPUSH] of a value to a list of the host with the address [ip]; nobody
    reads a list at an address without a host. *)
Definition enqueue (q : queue) (v : list Z) (h : host) : host :=
  match q with
  | QRaid => mkHost (disk h) (raid_in h ++ [v]) (delta_in h) (crd_in h)
  | QDelta => mkHost (disk h) (raid_in h) (delta_in h ++ [v]) (crd_in h)
  | QCrd => mkHost (disk h) (raid_in h) (delta_in h) (crd_in h ++ [v])
  | QAck => h
  end.

Definition post (c : cluster) (m : Z * (queue * list Z)) : cluster :=
  let '(ip, (q, v)) := m in
  mkCluster (alter (enqueue q v) ip (hosts c)) (pending c) (if decide (q = QAck) then S (acked c) else acked c).

(** The replies of the pops of a list: its values in order, among timeouts. *)
Definition replies_of (vs : list (list Z)) (rs : list reply) : Prop := datas rs = vs.

Section cluster.
Context `{GF : GFComplete} `{DIO : DiskIO} (conf : Config).

Inductive step : cluster -> cluster -> Prop :=
  | step_run c ip cmd before after h junk cmd_junk pointer raids deltas crds nd :
      pending c = before ++ (ip, cmd) :: after -> ip ∉ before.*1 ->
      hosts c !! ip = Some h ->
      (forall n, length (junk n) = n) -> length cmd_junk = COMMAND_MAX_LENGTH ->
      replies_of (raid_in h) raids -> replies_of (delta_in h) deltas -> replies_of (crd_in h) crds ->
      run_command conf ip junk cmd_junk pointer cmd (mkNode (disk h) raids deltas crds []) = Ok nd ->
      step c (foldl post (mkCluster
        (<[ip := mkHost (files nd) (datas (raidData nd)) (datas (deltaData nd)) (datas (crdData nd))]> (hosts c))
        (before ++ after) (acked c)) (outbox nd)).
End cluster.

(** ** Delivery *)

(** The values sent to a list of a host. *)
Definition sent_to (ip : Z) (q : queue) (ms : list (Z * (queue * list Z))) : list (list Z) :=
  omap (fun m => if decide (m.1 = ip /\ m.2.1 = q) then Some m.2.2 else None) ms.

Arguments sent_to : simpl never.

Lemma sent_to_cons ip q m ms :
  sent_to ip q (m :: ms) = (if decide (m.1 = ip /\ m.2.1 = q) then [m.2.2] else []) ++ sent_to ip q ms.
Proof. unfold sent_to. cbn [omap list_omap]. by case_decide. Qed.

(** What a delivery adds to a host. *)
Definition receive (ip : Z) (ms : list (Z * (queue * list Z))) (h : host) : host :=
  mkHost (disk h) (raid_in h ++ sent_to ip QRaid ms) (delta_in h ++ sent_to ip QDelta ms)
    (crd_in h ++ sent_to ip QCrd ms).

Lemma post_hosts ms c ip : hosts (foldl post c ms) !! ip = receive ip ms <$> hosts c !! ip.
Proof.
  revert c. induction ms as [|[a [q v]] ms IH]; intros c.
  - cbn. destruct (hosts c !! ip) as [[]|]; cbn; [|done]. unfold receive. cbn. by rewrite !app_nil_r.
  - cbn [foldl]. rewrite IH. cbn [post hosts]. destruct (decide (a = ip)) as [->|Hne].
    + rewrite lookup_alter_eq. destruct (hosts c !! ip) as [[dk r d cr]|]; [|done]. unfold receive. cbn. rewrite !sent_to_cons. cbn.
      destruct q; cbn; repeat case_decide; try first [tauto | destruct_and?; discriminate]; by rewrite <- ?app_assoc.
    + rewrite lookup_alter_ne by done. destruct (hosts c !! ip) as [h|]; [|done]. unfold receive. cbn. rewrite !sent_to_cons. cbn.
      by rewrite !decide_False by tauto.
Qed.

Lemma post_rest ms c :
  pending (foldl post c ms) = pending c /\
  acked (foldl post c ms) = (acked c + length (filter (fun m => m.2.1 = QAck) ms))%nat.
Proof.
  revert c. induction ms as [|[a [q v]] ms IH]; intros c; [split; [done|cbn; lia]|].
  cbn [foldl]. destruct (IH (post c (a, (q, v)))) as [-> ->]. split; [done|].
  cbn [post acked]. rewrite filter_cons. repeat case_decide; cbn in *; try done; lia.
Qed.

Lemma sent_to_app ip q l1 l2 : sent_to ip q (l1 ++ l2) = sent_to ip q l1 ++ sent_to ip q l2.
Proof. apply omap_app. Qed.

Lemma sent_to_map {A} ip q a (v : A -> list Z) (l : list A) :
  sent_to ip q ((fun x => (a, (QCrd, v x))) <$> l) = if decide (a = ip /\ QCrd = q) then v <$> l else [].
Proof.
  induction l as [|x l IH]; [by case_decide|]. rewrite !fmap_cons, sent_to_cons, IH. cbn [fst snd]. by case_decide.
Qed.

(** The value a handler's reads leave: a list read to its end. *)
Lemma datas_app l1 l2 : datas (l1 ++ l2) = datas l1 ++ datas l2.
Proof. apply omap_app. Qed.

Lemma datas_values vs : datas (RData <$> vs) = vs.
Proof. induction vs as [|v vs IH]; [done|]. rewrite fmap_cons. cbn. f_equal. exact IH. Qed.

(** Replies with values end with one, up to a rest without any. *)
Lemma split_replies rs :
  datas rs <> [] -> exists pre d tl, rs = (pre ++ [RData d]) ++ tl /\ datas tl = [].
Proof.
  induction rs as [|r rs IH] using rev_ind; [done|]. rewrite datas_app. intros Hne.
  destruct (decide (datas [r] = [])) as [Hr|Hr].
  - rewrite Hr, app_nil_r in Hne. destruct (IH Hne) as (pre & d & tl & -> & Htl).
    exists pre, d, (tl ++ [r]). split; [by rewrite <- !app_assoc|by rewrite datas_app, Htl, Hr].
  - destruct r as [| | |d]; try done. exists rs, d, []. split; [by rewrite app_nil_r|done].
Qed.

Lemma arrives_all rs msgs :
  msgs <> [] -> datas rs ≡ₚ msgs -> exists rs' tl, rs = rs' ++ tl /\ arrives rs' msgs /\ datas tl = [].
Proof.
  intros Hne Hp. destruct (split_replies rs) as (pre & d & tl & -> & Htl).
  { intros E. rewrite E in Hp. apply Permutation_nil in Hp. done. }
  exists (pre ++ [RData d]), tl. split_and!; [done| |done]. split; [|by eexists _, _].
  by rewrite datas_app, Htl, app_nil_r in Hp.
Qed.

Lemma filter_ext_in {A} (P Q : A -> Prop) `{HP : !forall x, Decision (P x)} `{HQ : !forall x, Decision (Q x)} (l : list A) :
  (forall x, x ∈ l -> P x <-> Q x) -> filter P l = filter Q l.
Proof.
  induction l as [|x l IH]; intros Heq; [done|]. rewrite !filter_cons, IH by (intros y Hy; apply Heq; by right).
  assert (Hx : P x <-> Q x) by (apply Heq; left). by rewrite (decide_ext _ _ _ _ Hx).
Qed.

Lemma filter_none {A} (P : A -> Prop) `{HP : !forall x, Decision (P x)} (l : list A) :
  (forall x, x ∈ l -> ~ P x) -> filter P l = [].
Proof.
  induction l as [|x l IH]; intros Hl; [done|]. rewrite filter_cons_False by (apply Hl; left).
  apply IH. intros y Hy. apply Hl. by right.
Qed.

Lemma filter_all {A} (P : A -> Prop) `{HP : !forall x, Decision (P x)} (l : list A) :
  (forall x, x ∈ l -> P x) -> filter P l = l.
Proof.
  induction l as [|x l IH]; intros Hl; [done|]. rewrite filter_cons_True by (apply Hl; left).
  f_equal. apply IH. intros y Hy. apply Hl. by right.
Qed.

(** Taking one command out of the pending ones. *)
Lemma filter_take (l pre post : list (Z * list Z)) (done_ : gset Z) ip cmd :
  NoDup l.*1 -> filter (fun p => p.1 ∉ done_) l = pre ++ (ip, cmd) :: post ->
  filter (fun p => p.1 ∉ {[ip]} ∪ done_) l = pre ++ post.
Proof.
  intros Hnd Hf.
  assert (Heq : filter (fun p => p.1 ∉ {[ip]} ∪ done_) l = filter (fun p => p.1 <> ip) (filter (fun p => p.1 ∉ done_) l)).
  { rewrite list_filter_filter. apply list_filter_iff. intros p. rewrite elem_of_union, elem_of_singleton. tauto. }
  assert (Hnd' : NoDup (filter (fun p => p.1 ∉ done_) l).*1).
  { eapply sublist_NoDup; [exact Hnd|]. apply fmap_sublist, sublist_filter. }
  rewrite Heq, Hf. rewrite Hf, fmap_app, fmap_cons in Hnd'. apply NoDup_app in Hnd' as (_ & H2 & H3).
  apply NoDup_cons in H3 as [H3 _]. cbn [fst] in *.
  assert (Hkeep : forall k, ip ∉ k.*1 -> filter (fun p : Z * list Z => p.1 <> ip) k = k).
  { intros k Hk. induction k as [|p k IH]; [done|]. rewrite fmap_cons, not_elem_of_cons in Hk. destruct Hk as [Hk1 Hk2].
    rewrite filter_cons_True by congruence. f_equal. by apply IH. }
  rewrite filter_app, filter_cons_False by (cbn; tauto). rewrite !Hkeep; [done|done|].
  intros Hin. apply (H2 ip Hin). left.
Qed.

Section update.
Context `{GF : GFComplete} `{GL : !GF8Laws} `{DIO : DiskIO} `{DL : !DiskLaws}.
Context (conf : Config) (enc : list Z) (blks : list UpdBlock) (data : list (list Z)) (i0 : nat).

Abbreviation ecK := (_ecK conf).
Abbreviation ecM := (_ecM conf).
Abbreviation sol := (get_upd_solu_crd blks).
Abbreviation helper := (helper conf).
Abbreviation collector := (helper (ecK + i0)%nat).
Abbreviation parity := (parity conf enc).
Abbreviation plan := (deliver (crd_plan conf enc (Z.of_nat (ecK + i0)) blks)).

(** The deployment: a stripe as CrdStripe.v considers it, its [_ecN] helpers at
    different addresses, every updated block at its helper. *)
Record deployed : Prop := {
  dp_stripe : stripe_ok conf enc blks data;
  dp_collector : (i0 < ecM)%nat;
  dp_fits : fits_array conf blks;
  dp_some : blks <> [];
  dp_ips : NoDup (take (_ecN conf) (_helpersIPs conf));
  dp_home : Forall (fun b => _ip b = helper (blk_at b)) blks
}.
Context (Hdp : deployed).

Lemma helper_inj i j : (i < _ecN conf)%nat -> (j < _ecN conf)%nat -> helper i = helper j -> i = j.
Proof.
  intros Hi Hj He. destruct (so_helpers _ _ _ _ (dp_stripe Hdp)) as [[_ Hl] _].
  apply (NoDup_lookup _ _ _ (helper i) (dp_ips Hdp)); rewrite lookup_take_lt by done; [|rewrite He];
    apply list_lookup_lookup_total_lt; lia.
Qed.

Lemma home b : b ∈ blks -> _ip b = helper (blk_at b) /\ (blk_at b < ecK)%nat /\ Z.of_nat (blk_at b) = _id b.
Proof.
  intros Hb. pose proof (dp_home Hdp) as Hh. rewrite Forall_forall in Hh. split; [by apply Hh|].
  destruct (blk_in _ _ _ _ (dp_stripe Hdp) b Hb) as (H & _). unfold blk_at. lia.
Qed.

Lemma ecM_ecN i : (i < ecM)%nat -> (ecK + i < _ecN conf)%nat.
Proof. unfold _ecM. lia. Qed.

Lemma data_ne_parity x i : (x < ecK)%nat -> (i < ecM)%nat -> helper x <> helper (ecK + i)%nat.
Proof. intros Hx Hi He. apply helper_inj in He; [lia| |by apply ecM_ecN]. unfold _ecM in Hi. lia. Qed.

Lemma parity_ne i j : (i < ecM)%nat -> (j < ecM)%nat -> i <> j -> helper (ecK + i)%nat <> helper (ecK + j)%nat.
Proof. intros Hi Hj Hne He. apply helper_inj in He; [lia|by apply ecM_ecN..]. Qed.

(** ** Who gets a command *)

Definition others : list nat := filter (fun i => i <> i0) (seq 0 ecM).
Definition roles : list nat := (blk_at <$> blks) ++ (ecK + i0)%nat :: ((fun i => ecK + i)%nat <$> others).

Lemma plan_ips : plan.*1 = helper <$> roles.
Proof.
  unfold roles, others, deliver, crd_plan. cbv zeta.
  rewrite !fmap_app, !fmap_cons. f_equal; [|f_equal].
  - assert (Hh : forall b, b ∈ blks -> _ip b = helper (blk_at b)) by (intros b Hb; by apply home).
    revert Hh. induction blks as [|b l IH]; intros Hh; [done|]. cbn [flat_map app]. rewrite !fmap_cons. cbn [fst].
    f_equal; [apply Hh; left|]. apply IH. intros c Hc. apply Hh. by right.
  - cbn [fst]. by rewrite Nat2Z.id.
  - induction (seq 0 ecM) as [|i l IH]; [done|]. cbn [flat_map]. rewrite !fmap_app, IH, filter_cons.
    destruct (Z.eqb_spec (Z.of_nat (ecK + i)) (Z.of_nat (ecK + i0))).
    + by rewrite decide_False by lia.
    + rewrite decide_True by lia. done.
Qed.

Lemma roles_in x : x ∈ roles <-> (exists b, b ∈ blks /\ x = blk_at b) \/ exists i, (i < ecM)%nat /\ x = (ecK + i)%nat.
Proof.
  unfold roles, others. rewrite elem_of_app, elem_of_cons, !list_elem_of_fmap. pose proof (dp_collector Hdp). split.
  - intros [(b & -> & Hb)|[->|(i & -> & [_ Hi%elem_of_seq]%list_elem_of_filter)]]; [left; by eauto|right; by eauto|].
    right. exists i. split; [lia|done].
  - intros [(b & Hb & ->)|(i & Hi & ->)]; [left; by eauto|]. right. destruct (decide (i = i0)) as [->|Hne]; [by left|].
    right. exists i. split; [done|]. apply list_elem_of_filter. split; [done|]. apply elem_of_seq. lia.
Qed.

Lemma roles_lt x : x ∈ roles -> (x < _ecN conf)%nat.
Proof.
  rewrite roles_in. destruct (so_helpers _ _ _ _ (dp_stripe Hdp)) as [[Hk _] _].
  intros [(b & Hb & ->)|(i & Hi & ->)]; [|by apply ecM_ecN]. destruct (home b Hb) as (_ & ? & _). lia.
Qed.

Lemma plan_NoDup : NoDup plan.*1.
Proof.
  rewrite plan_ips. apply NoDup_fmap_2_strong.
  { intros x y Hx%roles_lt Hy%roles_lt. by apply helper_inj. }
  unfold roles. apply NoDup_app. split_and!.
  - apply (NoDup_blk_at _ _ _ _ (dp_stripe Hdp)).
  - intros x (b & -> & Hb)%list_elem_of_fmap Hin. destruct (home b Hb) as (_ & ? & _).
    apply elem_of_cons in Hin as [Hin|(i & Hi & _)%list_elem_of_fmap]; lia.
  - apply NoDup_cons. split.
    + intros (i & Hi & [Hne _]%list_elem_of_filter)%list_elem_of_fmap. lia.
    + apply NoDup_fmap; [intros x y; lia|]. apply NoDup_filter, NoDup_seq.
Qed.

Lemma length_plan : length plan = (length blks + ecM)%nat.
Proof.
  rewrite <- (length_fmap fst plan), plan_ips, length_fmap. unfold roles, others.
  rewrite length_app. cbn [length]. rewrite !length_fmap. f_equal.
  assert (H : forall n, length (filter (fun i => i <> i0) (seq 0 n)) = if decide (i0 < n)%nat then (n - 1)%nat else n).
  { induction n as [|n IH]; [done|]. rewrite seq_S, filter_app, length_app, IH, filter_cons. cbn.
    repeat case_decide; cbn; lia. }
  pose proof (dp_collector Hdp). rewrite H, decide_True by done. lia.
Qed.

(** A pending command and its place in the plan. *)
Lemma plan_command ip cmd :
  (ip, cmd) ∈ plan ->
  (exists b, b ∈ blks /\ ip = helper (blk_at b) /\
     cmd = command 6 [_id b; _offset_add b; _upd_size b; Z.of_nat (ecK + i0)]) \/
  (ip = collector /\ cmd = command 7 (crd_words (Z.of_nat (ecK + i0)) (Z.of_nat (length sol))
     (crd_of conf enc blks <$> blks) (remaining conf (Z.of_nat (ecK + i0))))) \/
  (exists i, (i < ecM)%nat /\ i <> i0 /\ ip = helper (ecK + i)%nat /\
     cmd = command 8 (forward_words (Z.of_nat (ecK + i)) (announced blks))).
Proof.
  intros ([ip' [task ops]] & [= -> ->] & Hin)%list_elem_of_fmap.
  apply plan_tasks in Hin as [(-> & b & Hb & -> & ->)|[(-> & -> & ->)|(-> & i & Hi & Hne & -> & ->)]].
  - left. exists b. destruct (home b Hb) as [Hh _]. by rewrite Hh.
  - right. left. by rewrite Nat2Z.id.
  - right. right. exists i. split_and!; try done. intros ->. done.
Qed.

(** ** The invariant *)

(** What is true when the nodes with addresses in [D] have run their commands. *)
Record progress_of (D : gset Z) (c : cluster) : Prop := {
  pr_pending : pending c = filter (fun p => p.1 ∉ D) plan;
  pr_data x : (x < ecK)%nat -> exists h, hosts c !! helper x = Some h /\
    disk h !! Z.of_nat x = Some ((if decide (helper x ∈ D) then update_data blks data else data) !!! x);
  pr_collector : exists h, hosts c !! collector = Some h /\
    if decide (collector ∈ D) then disk h !! Z.of_nat (ecK + i0) = Some (parity (update_data blks data) i0)
    else disk h !! Z.of_nat (ecK + i0) = Some (parity data i0) /\
      exists ds, crd_in h = data_msg data <$> ds /\ ds ≡ₚ filter (fun b => _ip b ∈ D) blks;
  pr_parity i : (i < ecM)%nat -> i <> i0 -> exists h, hosts c !! helper (ecK + i)%nat = Some h /\
    if decide (helper (ecK + i)%nat ∈ D) then disk h !! Z.of_nat (ecK + i) = Some (forwarded conf enc blks data i)
    else disk h !! Z.of_nat (ecK + i) = Some (parity data i) /\
      crd_in h = if decide (collector ∈ D) then slice_of_set conf enc blks data i <$> sol else [];
  pr_order : (collector ∈ D -> forall b, b ∈ blks -> _ip b ∈ D) /\
    forall i, (i < ecM)%nat -> i <> i0 -> helper (ecK + i)%nat ∈ D -> collector ∈ D;
  pr_acked : acked c = length (filter (fun i => helper (ecK + i)%nat ∈ D) (seq 0 ecM))
}.

Lemma sol_some : sol <> [].
Proof.
  pose proof (dp_some Hdp) as Hne. unfold get_upd_solu_crd. destruct blks as [|b l]; [done|].
  cbn. by destruct (grow _ _ _).
Qed.

(** The collector sends every other parity node its slices, and nothing else. *)
Lemma collector_sent x : (x < _ecN conf)%nat ->
  sent_to (helper x) QCrd (collector_sends conf enc blks data i0) =
    if decide (x < ecK \/ x = ecK + i0)%nat then [] else slice_of_set conf enc blks data (x - ecK) <$> sol.
Proof.
  intros Hx. unfold collector_sends.
  assert (H : forall n, (n <= ecM)%nat ->
    sent_to (helper x) QCrd (flat_map (fun i => if decide (i = i0) then [] else
      (fun s => (helper (ecK + i)%nat, (QCrd, slice_of_set conf enc blks data i s))) <$> sol) (seq 0 n)) =
    if decide (x < ecK \/ ecK + n <= x \/ x = ecK + i0)%nat then [] else slice_of_set conf enc blks data (x - ecK) <$> sol).
  { induction n as [|n IH]; intros Hn; [rewrite decide_True by lia; done|].
    rewrite seq_S, flat_map_app, sent_to_app, IH by lia. cbn [flat_map Nat.add]. rewrite app_nil_r.
    destruct (decide (n = i0)) as [->|Hne].
    - unfold sent_to at 1. cbn. rewrite app_nil_r. repeat case_decide; (done || lia).
    - rewrite sent_to_map. destruct (decide (x = ecK + n)%nat) as [->|Hxn].
      + rewrite decide_True, decide_True, decide_False by (done || lia). cbn [app]. do 2 f_equal. lia.
      + rewrite (decide_False (P := _ /\ _)); [rewrite app_nil_r; repeat case_decide; (done || lia)|].
        intros [He _]. apply helper_inj in He; [lia|apply ecM_ecN; lia|done]. }
  rewrite H by done. unfold _ecM in *. repeat case_decide; (done || lia).
Qed.

Lemma collector_sent_acks : length (filter (fun m => m.2.1 = QAck) (collector_sends conf enc blks data i0)) = 0%nat.
Proof.
  unfold collector_sends. induction (seq 0 ecM) as [|i l IH]; [done|]. cbn [flat_map].
  rewrite filter_app, length_app, IH, Nat.add_0_r. case_decide; [done|].
  generalize sol. intros r. induction r as [|s r IHr]; [done|]. rewrite fmap_cons, filter_cons_False by done. exact IHr.
Qed.

(** One more acknowledgement when a parity node has run. *)
Lemma acks_grow (D : gset Z) i : (i < ecM)%nat -> helper (ecK + i)%nat ∉ D ->
  length (filter (fun j => helper (ecK + j)%nat ∈ {[helper (ecK + i)%nat]} ∪ D) (seq 0 ecM)) =
    S (length (filter (fun j => helper (ecK + j)%nat ∈ D) (seq 0 ecM))).
Proof.
  intros Hi Hout.
  assert (H : forall n, (n <= ecM)%nat ->
    length (filter (fun j => helper (ecK + j)%nat ∈ {[helper (ecK + i)%nat]} ∪ D) (seq 0 n)) =
      ((if decide (i < n)%nat then 1 else 0) + length (filter (fun j => helper (ecK + j)%nat ∈ D) (seq 0 n)))%nat).
  { induction n as [|n IH]; intros Hn; [done|].
    rewrite seq_S, !filter_app, !length_app, IH by lia. rewrite !filter_cons, !filter_nil. cbn [Nat.add].
    destruct (decide (n = i)) as [->|Hne].
    - rewrite (decide_True (P := _ ∈ _ ∪ _)) by set_solver. rewrite (decide_False (P := _ ∈ D)) by done.
      rewrite (decide_False (P := (i < i)%nat)), (decide_True (P := (i < S i)%nat)) by lia. cbn. lia.
    - assert (Hiff : helper (ecK + n)%nat ∈ {[helper (ecK + i)%nat]} ∪ D <-> helper (ecK + n)%nat ∈ D).
      { rewrite elem_of_union, elem_of_singleton. pose proof (parity_ne n i ltac:(lia) Hi Hne). tauto. }
      rewrite (decide_ext _ _ _ _ Hiff). assert (Hlt : (i < S n <-> i < n)%nat) by lia.
      rewrite (decide_ext _ _ _ _ Hlt). lia. }
  rewrite H by done. by rewrite decide_True.
Qed.

(** ** Steps keep the invariant *)

Abbreviation after_run c ip h before after ms :=
  (foldl post (mkCluster (<[ip := h]> (hosts c)) (before ++ after) (acked c)) ms).

Lemma after_hosts c ip h before after ms x :
  hosts (after_run c ip h before after ms) !! x =
    if decide (x = ip) then Some (receive x ms h) else receive x ms <$> hosts c !! x.
Proof.
  rewrite post_hosts. cbn [hosts]. case_decide as E; [subst x; by rewrite lookup_insert_eq|by rewrite lookup_insert_ne].
Qed.

Lemma after_pending c ip cmd h before after ms D :
  progress_of D c -> pending c = before ++ (ip, cmd) :: after ->
  pending (after_run c ip h before after ms) = filter (fun p => p.1 ∉ {[ip]} ∪ D) plan.
Proof.
  intros Hpr Hp. destruct (post_rest ms (mkCluster (<[ip := h]> (hosts c)) (before ++ after) (acked c))) as [-> _].
  cbn [pending]. symmetry. apply (filter_take _ _ _ _ _ cmd plan_NoDup). by rewrite <- (pr_pending _ _ Hpr).
Qed.

Lemma in_new (D : gset Z) x : x ∈ {[x]} ∪ D.
Proof. rewrite elem_of_union, elem_of_singleton. by left. Qed.

Lemma in_grown (D : gset Z) ip x : x <> ip -> x ∈ {[ip]} ∪ D <-> x ∈ D.
Proof. rewrite elem_of_union, elem_of_singleton. tauto. Qed.

Lemma sent_to_one ip q a q' v : sent_to ip q [(a, (q', v))] = if decide (a = ip /\ q' = q) then [v] else [].
Proof. rewrite sent_to_cons. cbn [fst snd]. by case_decide. Qed.

Lemma data_step D c b cmd before after h :
  progress_of D c -> b ∈ blks -> helper (blk_at b) ∉ D -> pending c = before ++ (helper (blk_at b), cmd) :: after ->
  disk h !! _id b = Some (update_data blks data !!! blk_at b) ->
  progress_of ({[helper (blk_at b)]} ∪ D)
    (after_run c (helper (blk_at b)) h before after [(collector, (QCrd, data_msg data b))]).
Proof.
  intros Hpr Hb Hout Hp Hdisk. destruct (home b Hb) as (Hh & Hbk & Hid). pose proof (dp_collector Hdp) as Hi0.
  assert (Hcol : collector ∉ D) by (intros Hc; apply Hout; rewrite <- Hh; by apply (pr_order _ _ Hpr)).
  assert (Hpar : forall i, (i < ecM)%nat -> helper (ecK + i)%nat <> helper (blk_at b)).
  { intros i Hi He. by apply (data_ne_parity (blk_at b) i). }
  split.
  - by eapply after_pending.
  - intros x Hx. rewrite after_hosts. case_decide as E.
    + apply helper_inj in E; [|unfold _ecM in *; lia..]. subst x. eexists. split; [done|]. cbn [disk receive].
      rewrite decide_True by apply in_new. by rewrite Hid.
    + destruct (pr_data _ _ Hpr x Hx) as (hx & -> & Hd). eexists. split; [done|]. cbn [disk receive].
      by rewrite (decide_ext _ _ _ _ (in_grown D _ _ E)).
  - rewrite after_hosts, decide_False by by apply Hpar. destruct (pr_collector _ _ Hpr) as (hc & -> & Hd).
    rewrite decide_False in Hd by done. destruct Hd as (Hd & ds & Hcrd & Hds). eexists. split; [done|].
    rewrite decide_False by (rewrite in_grown by (by apply Hpar); done). split; [done|]. exists (ds ++ [b]).
    cbn [receive crd_in]. rewrite sent_to_one, decide_True, Hcrd, fmap_app by done. split; [done|].
    assert (Hnd : NoDup blks) by (eapply NoDup_fmap_1, (so_ids _ _ _ _ (dp_stripe Hdp))).
    assert (Hnew : b ∉ ds) by (rewrite Hds, list_elem_of_filter, Hh; tauto).
    apply NoDup_Permutation; [|by apply NoDup_filter|].
    + apply NoDup_app. split_and!; [rewrite Hds; by apply NoDup_filter| |apply NoDup_singleton].
      intros x Hx ->%list_elem_of_singleton. done.
    + intros x. rewrite elem_of_app, Hds, !list_elem_of_filter, list_elem_of_singleton, elem_of_union, elem_of_singleton.
      split; [intros [[? ?]| ->]; [tauto|rewrite Hh; tauto]|]. intros [[Hx|Hx] Hxb]; [right|tauto].
      destruct (home x Hxb) as (Hhx & Hxk & Hxid). rewrite Hhx in Hx. apply helper_inj in Hx; [|unfold _ecM in *; lia..].
      apply (ids_inj _ _ _ _ (dp_stripe Hdp)); [done|done|]. by rewrite <- Hxid, <- Hid, Hx.
  - intros i Hi Hne. rewrite after_hosts, decide_False by by apply Hpar.
    destruct (pr_parity _ _ Hpr i Hi Hne) as (hp & -> & Hd). eexists. split; [done|].
    rewrite (decide_ext _ _ _ _ (in_grown D _ _ (Hpar i Hi))), (decide_ext _ _ _ _ (in_grown D _ _ (Hpar i0 Hi0))).
    cbn [receive disk crd_in]. rewrite sent_to_one, (decide_False (P := collector = _ /\ _)), app_nil_r; [done|].
    intros [He _]. by apply (parity_ne i0 i).
  - split.
    + intros Hc. rewrite in_grown in Hc by (by apply Hpar). done.
    + intros i Hi Hne Hc. rewrite in_grown in Hc by (by apply Hpar). by destruct (Hcol (proj2 (pr_order _ _ Hpr) i Hi Hne Hc)).
  - rewrite (proj2 (post_rest _ _)). cbn [acked]. rewrite (pr_acked _ _ Hpr). cbn. rewrite Nat.add_0_r. f_equal.
    apply filter_ext_in. intros i Hi%elem_of_seq. symmetry. apply in_grown, Hpar. lia.
Qed.

Lemma collector_step D c cmd before after h :
  progress_of D c -> collector ∉ D -> (forall b, b ∈ blks -> _ip b ∈ D) ->
  pending c = before ++ (collector, cmd) :: after ->
  disk h !! Z.of_nat (ecK + i0) = Some (parity (update_data blks data) i0) ->
  progress_of ({[collector]} ∪ D)
    (after_run c collector h before after (collector_sends conf enc blks data i0 ++ [(_coordinatorIP conf, (QAck, [49]))])).
Proof.
  intros Hpr Hout Hall Hp Hdisk. pose proof (dp_collector Hdp) as Hi0.
  assert (Hdat : forall x, (x < ecK)%nat -> helper x <> collector) by (intros x Hx; by apply data_ne_parity).
  pose proof (in_new D collector) as Hin.
  split.
  - by eapply after_pending.
  - intros x Hx. rewrite after_hosts, decide_False by by apply Hdat.
    destruct (pr_data _ _ Hpr x Hx) as (hx & -> & Hd). eexists. split; [done|]. cbn [disk receive].
    by rewrite (decide_ext _ _ _ _ (in_grown D _ _ (Hdat x Hx))).
  - rewrite after_hosts, decide_True by done. eexists. split; [done|]. by rewrite decide_True.
  - intros i Hi Hne. pose proof (parity_ne i i0 Hi Hi0 Hne) as Hni. rewrite after_hosts, decide_False by done.
    destruct (pr_parity _ _ Hpr i Hi Hne) as (hp & -> & Hd). eexists. split; [done|].
    rewrite (decide_ext _ _ _ _ (in_grown D _ _ Hni)).
    destruct (decide (helper (ecK + i)%nat ∈ D)); [by destruct Hout; apply (proj2 (pr_order _ _ Hpr) i)|].
    rewrite (decide_False (P := collector ∈ D)) in Hd by done. destruct Hd as [Hd Hcrd]. split; [done|].
    rewrite (decide_True (P := collector ∈ _)) by done. cbn [receive crd_in]. rewrite Hcrd. cbn [app].
    rewrite sent_to_app, sent_to_one, collector_sent by by apply ecM_ecN.
    rewrite (decide_False (P := _ \/ _)), (decide_False (P := _ /\ _)), app_nil_r by (intros [_ ?]; done) || lia.
    replace (ecK + i - ecK)%nat with i by lia. done.
  - split; [intros _ b Hb; apply elem_of_union; right; by apply Hall|done].
  - rewrite (proj2 (post_rest _ _)). cbn [acked]. rewrite (pr_acked _ _ Hpr), filter_app, length_app, collector_sent_acks.
    rewrite acks_grow, filter_cons_True, filter_nil by done. cbn [length]. lia.
Qed.

Lemma parity_step D c i cmd before after h :
  progress_of D c -> (i < ecM)%nat -> i <> i0 -> helper (ecK + i)%nat ∉ D -> collector ∈ D ->
  pending c = before ++ (helper (ecK + i)%nat, cmd) :: after ->
  disk h !! Z.of_nat (ecK + i) = Some (forwarded conf enc blks data i) ->
  progress_of ({[helper (ecK + i)%nat]} ∪ D)
    (after_run c (helper (ecK + i)%nat) h before after [(_coordinatorIP conf, (QAck, [49]))]).
Proof.
  intros Hpr Hi Hne Hout Hcol Hp Hdisk. pose proof (dp_collector Hdp) as Hi0.
  assert (Hdat : forall x, (x < ecK)%nat -> helper x <> helper (ecK + i)%nat) by (intros x Hx; by apply data_ne_parity).
  assert (Hcol' : collector ∈ {[helper (ecK + i)%nat]} ∪ D) by (apply elem_of_union; by right).
  assert (Hnone : forall x, sent_to x QCrd [(_coordinatorIP conf, (QAck, [49]))] = []).
  { intros x. rewrite sent_to_one, decide_False; [done|]. by intros [_ ?]. }
  split.
  - by eapply after_pending.
  - intros x Hx. rewrite after_hosts, decide_False by by apply Hdat.
    destruct (pr_data _ _ Hpr x Hx) as (hx & -> & Hd). eexists. split; [done|]. cbn [disk receive].
    by rewrite (decide_ext _ _ _ _ (in_grown D _ _ (Hdat x Hx))).
  - assert (Hc : collector <> helper (ecK + i)%nat) by (intros He; by apply (parity_ne i0 i)).
    rewrite after_hosts, decide_False by done. destruct (pr_collector _ _ Hpr) as (hc & -> & Hd). eexists. split; [done|].
    rewrite decide_True in Hd by done. by rewrite decide_True by done.
  - intros j Hj Hnj. rewrite after_hosts. rewrite (decide_True (P := collector ∈ _)) by done.
    destruct (decide (j = i)) as [->|Hji].
    + rewrite decide_True by done. eexists. split; [done|]. by rewrite decide_True by apply in_new.
    + pose proof (parity_ne j i Hj Hi Hji) as Hnji. rewrite decide_False by done.
      destruct (pr_parity _ _ Hpr j Hj Hnj) as (hp & -> & Hd). eexists. split; [done|].
      rewrite (decide_ext _ _ _ _ (in_grown D _ _ Hnji)). rewrite (decide_True (P := collector ∈ _)) in Hd by done.
      cbn [receive disk crd_in]. by rewrite Hnone, app_nil_r.
  - split; [|done]. intros _ b Hb. apply elem_of_union. right. by apply (pr_order _ _ Hpr).
  - rewrite (proj2 (post_rest _ _)). cbn [acked]. rewrite (pr_acked _ _ Hpr), acks_grow, filter_cons_True, filter_nil by done. cbn [length]. lia.
Qed.

(** ** Every step is one of these, and there is one until all have run *)

Lemma data_host_run D c b h junk cmd_junk pointer raids deltas crds :
  progress_of D c -> b ∈ blks -> helper (blk_at b) ∉ D -> hosts c !! helper (blk_at b) = Some h ->
  (forall n, length (junk n) = n) -> length cmd_junk = COMMAND_MAX_LENGTH ->
  run_command conf (helper (blk_at b)) junk cmd_junk pointer
      (command 6 [_id b; _offset_add b; _upd_size b; Z.of_nat (ecK + i0)]) (mkNode (disk h) raids deltas crds []) =
    Ok (mkNode (<[_id b := update_data blks data !!! blk_at b]> (disk h)) raids deltas crds
          [(collector, (QCrd, data_msg data b))]).
Proof.
  intros Hpr Hb Hout Hh Hjunk Hcmd. destruct (home b Hb) as (_ & Hk & Hid).
  destruct (pr_data _ _ Hpr _ Hk) as (h' & Hh' & Hd). rewrite Hh in Hh'. injection Hh' as <-.
  rewrite decide_False, Hid in Hd by done.
  by rewrite (data_node_run conf _ junk cmd_junk pointer enc blks data (dp_stripe Hdp) i0 b (mkNode (disk h) raids deltas crds []) Hcmd Hjunk (dp_collector Hdp) Hb Hd).
Qed.

Lemma collector_host_run D c h junk cmd_junk pointer raids deltas crds :
  progress_of D c -> collector ∉ D -> (forall b, b ∈ blks -> _ip b ∈ D) -> hosts c !! collector = Some h ->
  (forall n, length (junk n) = n) -> length cmd_junk = COMMAND_MAX_LENGTH -> replies_of (crd_in h) crds ->
  exists rest, run_command conf collector junk cmd_junk pointer
      (command 7 (crd_words (Z.of_nat (ecK + i0)) (Z.of_nat (length sol))
         (crd_of conf enc blks <$> blks) (remaining conf (Z.of_nat (ecK + i0))))) (mkNode (disk h) raids deltas crds []) =
    Ok (mkNode (<[Z.of_nat (ecK + i0) := parity (update_data blks data) i0]> (disk h)) raids deltas rest
          (collector_sends conf enc blks data i0 ++ [(_coordinatorIP conf, (QAck, [49]))])).
Proof.
  intros Hpr Hout Hall Hh Hjunk Hcmd Hrep. destruct (pr_collector _ _ Hpr) as (h' & Hh' & Hd).
  rewrite Hh in Hh'. injection Hh' as <-. rewrite decide_False in Hd by done. destruct Hd as (Hd & ds & Hcrd & Hds).
  pose proof (filter_all (fun b => _ip b ∈ D) blks Hall) as Hf. simpl in Hf.
  rewrite Hf in Hds. destruct (arrives_all crds (data_msg data <$> blks)) as (rs & tl & -> & Harr & _).
  - pose proof (dp_some Hdp). by destruct blks.
  - rewrite Hrep, Hcrd. by rewrite Hds.
  - exists tl. by rewrite (collector_node_run conf _ junk cmd_junk pointer enc blks data (dp_stripe Hdp) i0 (mkNode (disk h) raids deltas (rs ++ tl) []) rs tl
      Hcmd Hjunk (dp_collector Hdp) (dp_fits Hdp) Harr eq_refl Hd).
Qed.

Lemma parity_host_run D c i h junk cmd_junk pointer raids deltas crds :
  progress_of D c -> (i < ecM)%nat -> i <> i0 -> helper (ecK + i)%nat ∉ D -> collector ∈ D ->
  hosts c !! helper (ecK + i)%nat = Some h ->
  (forall n, length (junk n) = n) -> length cmd_junk = COMMAND_MAX_LENGTH -> replies_of (crd_in h) crds ->
  exists rest, run_command conf (helper (ecK + i)%nat) junk cmd_junk pointer
      (command 8 (forward_words (Z.of_nat (ecK + i)) (announced blks))) (mkNode (disk h) raids deltas crds []) =
    Ok (mkNode (<[Z.of_nat (ecK + i) := forwarded conf enc blks data i]> (disk h)) raids deltas rest
          [(_coordinatorIP conf, (QAck, [49]))]).
Proof.
  intros Hpr Hi Hne Hout Hcol Hh Hjunk Hcmd Hrep. destruct (pr_parity _ _ Hpr i Hi Hne) as (h' & Hh' & Hd).
  rewrite Hh in Hh'. injection Hh' as <-. rewrite decide_False in Hd by done. destruct Hd as (Hd & Hcrd).
  rewrite decide_True in Hcrd by done.
  destruct (arrives_all crds (slice_of_set conf enc blks data i <$> sol)) as (rs & tl & -> & Harr & _).
  - pose proof sol_some. by destruct sol.
  - by rewrite Hrep, Hcrd.
  - exists tl. by rewrite (forwarded_run conf _ junk cmd_junk pointer enc blks data (dp_stripe Hdp) i (mkNode (disk h) raids deltas (rs ++ tl) []) rs tl
      Hcmd Hjunk Hi (dp_fits Hdp) (dp_some Hdp) Harr eq_refl Hd).
Qed.

(** A handler only ends when what it waits for has come. *)
Lemma collector_waits D c h junk cmd_junk pointer raids deltas crds nd :
  progress_of D c -> collector ∉ D -> hosts c !! collector = Some h ->
  length cmd_junk = COMMAND_MAX_LENGTH -> replies_of (crd_in h) crds ->
  run_command conf collector junk cmd_junk pointer
      (command 7 (crd_words (Z.of_nat (ecK + i0)) (Z.of_nat (length sol))
         (crd_of conf enc blks <$> blks) (remaining conf (Z.of_nat (ecK + i0))))) (mkNode (disk h) raids deltas crds []) = Ok nd ->
  forall b, b ∈ blks -> _ip b ∈ D.
Proof.
  intros Hpr Hout Hh Hcmd Hrep Hrun. destruct (pr_collector _ _ Hpr) as (h' & Hh' & Hd).
  rewrite Hh in Hh'. injection Hh' as <-. rewrite decide_False in Hd by done. destruct Hd as (_ & ds & Hcrd & Hds).
  apply (collector_node_needs conf _ junk cmd_junk pointer enc blks data (dp_stripe Hdp) i0 _ _ Hcmd
    (dp_collector Hdp) (dp_fits Hdp)) in Hrun. cbn [crdData] in Hrun.
  rewrite Hrep, Hcrd, length_fmap, Hds in Hrun. intros b Hb. destruct (decide (_ip b ∈ D)) as [|Hn]; [done|].
  pose proof (length_filter_lt (fun b => _ip b ∈ D) blks b Hb Hn). simpl in *. lia.
Qed.

Lemma parity_waits D c i h junk cmd_junk pointer raids deltas crds nd :
  progress_of D c -> (i < ecM)%nat -> i <> i0 -> helper (ecK + i)%nat ∉ D -> hosts c !! helper (ecK + i)%nat = Some h ->
  length cmd_junk = COMMAND_MAX_LENGTH -> replies_of (crd_in h) crds ->
  run_command conf (helper (ecK + i)%nat) junk cmd_junk pointer
      (command 8 (forward_words (Z.of_nat (ecK + i)) (announced blks))) (mkNode (disk h) raids deltas crds []) = Ok nd ->
  collector ∈ D.
Proof.
  intros Hpr Hi Hne Hout Hh Hcmd Hrep Hrun. destruct (pr_parity _ _ Hpr i Hi Hne) as (h' & Hh' & Hd).
  rewrite Hh in Hh'. injection Hh' as <-. rewrite decide_False in Hd by done. destruct Hd as (_ & Hcrd).
  destruct (decide (collector ∈ D)) as [|Hn]; [done|]. exfalso.
  apply (forwarded_needs conf _ junk cmd_junk pointer enc blks data (dp_stripe Hdp) i _ _ Hcmd Hi (dp_fits Hdp)) in Hrun.
  cbn [crdData] in Hrun. rewrite Hrep, Hcrd in Hrun. pose proof sol_some. by destruct sol; simpl in Hrun; [|lia].
Qed.

Lemma pending_in D c ip cmd :
  progress_of D c -> (ip, cmd) ∈ pending c -> ip ∉ D /\ (ip, cmd) ∈ plan.
Proof. intros Hpr Hin. by rewrite (pr_pending _ _ Hpr), list_elem_of_filter in Hin. Qed.

Lemma step_progress D c c' : progress_of D c -> step conf c c' -> exists ip, progress_of ({[ip]} ∪ D) c'.
Proof.
  intros Hpr Hs. destruct Hs as [c ip cmd before after h junk cmd_junk pointer raids deltas crds nd
    Hp Hfirst Hh Hjunk Hcmd Hr1 Hr2 Hr3 Hrun]. exists ip.
  destruct (pending_in D c ip cmd Hpr) as [Hout Hin]; [rewrite Hp; apply elem_of_app; right; left|].
  apply plan_command in Hin as [(b & Hb & -> & ->)|[(-> & ->)|(i & Hi & Hne & -> & ->)]].
  - rewrite (data_host_run D c b h) in Hrun by done. injection Hrun as <-. cbn [files raidData deltaData crdData outbox].
    eapply data_step; [done..|]. cbn [disk]. apply lookup_insert_eq.
  - pose proof (collector_waits D c h junk cmd_junk pointer raids deltas crds nd Hpr Hout Hh Hcmd Hr3 Hrun) as Hall.
    destruct (collector_host_run D c h junk cmd_junk pointer raids deltas crds) as (rest & E); [done..|].
    rewrite E in Hrun. injection Hrun as <-. cbn [files raidData deltaData crdData outbox].
    eapply collector_step; [done..|]. cbn [disk]. apply lookup_insert_eq.
  - pose proof (parity_waits D c i h junk cmd_junk pointer raids deltas crds nd Hpr Hi Hne Hout Hh Hcmd Hr3 Hrun) as Hcol.
    destruct (parity_host_run D c i h junk cmd_junk pointer raids deltas crds) as (rest & E); [done..|].
    rewrite E in Hrun. injection Hrun as <-. cbn [files raidData deltaData crdData outbox].
    eapply parity_step; [done..|]. cbn [disk]. apply lookup_insert_eq.
Qed.

(** A node that has not run its command can be the next, if its handler ends. *)
Lemma can_step D c x :
  progress_of D c -> x ∈ roles -> helper x ∉ D ->
  (forall cmd, (helper x, cmd) ∈ plan -> exists h nd, hosts c !! helper x = Some h /\
     run_command conf (helper x) zeros (zeros COMMAND_MAX_LENGTH) [] cmd
       (mkNode (disk h) (RData <$> raid_in h) (RData <$> delta_in h) (RData <$> crd_in h) []) = Ok nd) ->
  exists c', step conf c c'.
Proof.
  intros Hpr Hx Hout Hrun. assert (Hin : helper x ∈ plan.*1) by (rewrite plan_ips; by apply list_elem_of_fmap_2).
  apply list_elem_of_fmap in Hin as ([ip cmd] & Hip & Hin). cbn [fst] in Hip. subst ip.
  destruct (Hrun cmd Hin) as (h & nd & Hh & Hnd).
  assert (Hpend : (helper x, cmd) ∈ pending c) by (rewrite (pr_pending _ _ Hpr); by apply list_elem_of_filter).
  assert (Hnodup : NoDup (pending c).*1).
  { rewrite (pr_pending _ _ Hpr). eapply sublist_NoDup; [apply plan_NoDup|]. apply fmap_sublist, sublist_filter. }
  apply list_elem_of_split in Hpend as (before & after & Hp). eexists. eapply step_run; try exact Hnd; try done.
  - rewrite Hp, fmap_app, fmap_cons in Hnodup. apply NoDup_app in Hnodup as (_ & Hdis & _).
    intros Hb. apply (Hdis _ Hb). left.
  - intros n. apply length_replicate.
  - apply datas_values.
  - apply datas_values.
  - apply datas_values.
Qed.

Lemma progress_next D c : progress_of D c -> (exists x, x ∈ roles /\ helper x ∉ D) -> exists c', step conf c c'.
Proof.
  intros Hpr Hsome. pose proof (dp_collector Hdp) as Hi0.
  assert (Hz : forall n, length (zeros n) = n) by (intros n; apply length_replicate).
  destruct (decide (Exists (fun b => _ip b ∉ D) blks)) as [Hd|Hd].
  { apply Exists_exists in Hd as (b & Hb & Hout). destruct (home b Hb) as (Hh & Hk & _). rewrite Hh in Hout.
    apply (can_step D c (blk_at b)); [done|apply roles_in; left; by eauto|done|].
    intros cmd [(b' & Hb' & He & ->)|[(He & _)|(i & Hi & _ & He & _)]]%plan_command.
    - destruct (pr_data _ _ Hpr _ Hk) as (h & Hh' & _). rewrite He in Hh', Hout |- *. eexists _, _. split; [done|].
      by apply (data_host_run D c b' h).
    - by destruct (data_ne_parity (blk_at b) i0 Hk Hi0 He).
    - by destruct (data_ne_parity (blk_at b) i Hk Hi He). }
  assert (Hall : forall b, b ∈ blks -> _ip b ∈ D).
  { intros b Hb. destruct (decide (_ip b ∈ D)) as [|Hn]; [done|]. exfalso. apply Hd, Exists_exists. by exists b. }
  destruct (decide (collector ∈ D)) as [Hc|Hc].
  - destruct Hsome as (x & [(b & Hb & ->)|(i & Hi & ->)]%roles_in & Hout).
    { destruct (home b Hb) as (Hh & _ & _). rewrite <- Hh in Hout. by destruct (Hout (Hall b Hb)). }
    assert (Hne : i <> i0) by (by intros ->).
    apply (can_step D c (ecK + i)); [done|apply roles_in; right; by eauto|done|].
    intros cmd [(b' & Hb' & He & ->)|[(He & _)|(j & Hj & Hnj & He & ->)]]%plan_command.
    + destruct (home b' Hb') as (_ & Hk' & _). by destruct (data_ne_parity (blk_at b') i Hk' Hi).
    + by destruct (parity_ne i i0 Hi Hi0 Hne He).
    + apply helper_inj in He; [|by apply ecM_ecN..]. assert (j = i) as -> by lia.
      destruct (pr_parity _ _ Hpr i Hi Hne) as (h & Hh & _). 
      destruct (parity_host_run D c i h zeros (zeros COMMAND_MAX_LENGTH) [] (RData <$> raid_in h) (RData <$> delta_in h)
        (RData <$> crd_in h)) as (rest & E); try done; [apply datas_values|]. eexists _, _. by split.
  - apply (can_step D c (ecK + i0)); [done|apply roles_in; right; by eauto|done|].
    intros cmd [(b' & Hb' & He & ->)|[(_ & ->)|(j & Hj & Hnj & He & ->)]]%plan_command.
    + destruct (home b' Hb') as (_ & Hk' & _). by destruct (data_ne_parity (blk_at b') i0 Hk' Hi0).
    + destruct (pr_collector _ _ Hpr) as (h & Hh & _).
      destruct (collector_host_run D c h zeros (zeros COMMAND_MAX_LENGTH) [] (RData <$> raid_in h) (RData <$> delta_in h)
        (RData <$> crd_in h)) as (rest & E); try done; [apply datas_values|]. eexists _, _. by split.
    + by destruct (parity_ne i0 j Hi0 Hj ltac:(congruence) He).
Qed.

(** ** All the runs *)

(** The stripe before the update: every data node has its block, every parity
    node the parity of the data, and no slice waits for a parity node. *)
Definition holds_stripe (hs : gmap Z host) : Prop :=
  (forall x, (x < ecK)%nat -> exists h, hs !! helper x = Some h /\ disk h !! Z.of_nat x = Some (data !!! x)) /\
  (forall i, (i < ecM)%nat -> exists h, hs !! helper (ecK + i)%nat = Some h /\
     disk h !! Z.of_nat (ecK + i) = Some (parity data i) /\ crd_in h = []).

(** The stripe after it, as the code leaves it: the data blocks are new, and so is
    the collector's parity; another parity block has the new bytes in the ranges
    announced to its node and the old ones elsewhere. *)
Definition ended (c : cluster) : Prop :=
  pending c = [] /\ acked c = ecM /\
  (forall x, (x < ecK)%nat -> exists h, hosts c !! helper x = Some h /\
     disk h !! Z.of_nat x = Some (update_data blks data !!! x)) /\
  (forall i, (i < ecM)%nat -> exists h, hosts c !! helper (ecK + i)%nat = Some h /\
     disk h !! Z.of_nat (ecK + i) =
       Some (if decide (i = i0) then parity (update_data blks data) i else forwarded conf enc blks data i)).

(** The stripe as it is meant to be: all its parity is that of the new data. *)
Definition updated (c : cluster) : Prop :=
  ended c /\ forall i, (i < ecM)%nat -> exists h, hosts c !! helper (ecK + i)%nat = Some h /\
    disk h !! Z.of_nat (ecK + i) = Some (parity (update_data blks data) i).

(** No subset is announced short. *)
Definition announced_whole : Prop := forall s, s ∈ sol -> (sub_set_range s.2).2 = (hull s.2).2 - (hull s.2).1.

Lemma ended_updated c : announced_whole -> ended c -> updated c.
Proof.
  intros Hw He. split; [done|]. intros i Hi. destruct He as (_ & _ & _ & Hp). destruct (Hp i Hi) as (h & H1 & H2). exists h. split; [done|].
  rewrite H2. case_decide; [done|]. f_equal. by apply (forwarded_exact conf enc blks data (dp_stripe Hdp)).
Qed.

Lemma initial_progress hs : holds_stripe hs -> progress_of ∅ (mkCluster hs plan 0).
Proof.
  intros [Hd Hp]. assert (Hno : forall x : Z, x ∉ (∅ : gset Z)) by (intros x; apply not_elem_of_empty). split.
  - cbn [pending]. symmetry. apply filter_all. intros p _. apply Hno.
  - intros x Hx. rewrite decide_False by done. by apply Hd.
  - destruct (Hp i0 (dp_collector Hdp)) as (h & H1 & H2 & H3). exists h. split; [done|]. rewrite decide_False by done.
    split; [done|]. exists []. split; [done|].
    rewrite filter_none; [done|]. intros b _. apply Hno.
  - intros i Hi _. destruct (Hp i Hi) as (h & H1 & H2 & H3). exists h. rewrite !decide_False by done. done.
  - split; [intros Hc; by destruct (Hno _ Hc)|intros i _ _ Hc; by destruct (Hno _ Hc)].
  - cbn [acked]. rewrite filter_none; [done|]. intros i _. apply Hno.
Qed.

Lemma step_pending c c' : step conf c c' -> length (pending c) = S (length (pending c')).
Proof.
  intros Hs. destruct Hs as [c ip cmd before after h junk cmd_junk pointer raids deltas crds nd Hp].
  rewrite (proj1 (post_rest _ _)), Hp. cbn [pending]. rewrite !length_app. cbn [length]. lia.
Qed.

Lemma steps_progress n D c c' : progress_of D c -> nsteps (step conf) n c c' ->
  (exists D', progress_of D' c') /\ length (pending c) = (n + length (pending c'))%nat.
Proof.
  intros Hpr Hn. revert D Hpr. induction Hn as [c|n c c1 c' Hs Hn IH]; intros D Hpr; [by eauto|].
  destruct (step_progress D c c1 Hpr Hs) as [ip Hpr1]. destruct (IH _ Hpr1) as [Hpr' Hl].
  split; [done|]. apply step_pending in Hs. lia.
Qed.

(** While a command is pending there is a step; then the update is done. *)
Lemma progress_ends D c : progress_of D c -> pending c = [] -> ended c.
Proof.
  intros Hpr Hnil.
  assert (Hall : forall x, x ∈ roles -> helper x ∈ D).
  { intros x Hx. assert (Hin : helper x ∈ plan.*1) by (rewrite plan_ips; by apply list_elem_of_fmap_2).
    apply list_elem_of_fmap in Hin as (p & Hip & Hin). destruct (decide (helper x ∈ D)) as [|Hn]; [done|].
    exfalso. apply (not_elem_of_nil p). rewrite <- Hnil, (pr_pending _ _ Hpr). apply list_elem_of_filter. by rewrite <- Hip. }
  assert (Hpar : forall i, (i < ecM)%nat -> helper (ecK + i)%nat ∈ D) by (intros i Hi; apply Hall, roles_in; right; by eauto).
  split_and!.
  - done.
  - rewrite (pr_acked _ _ Hpr), filter_all; [apply length_seq|]. intros i Hi%elem_of_seq. apply Hpar. lia.
  - intros x Hx. destruct (pr_data _ _ Hpr x Hx) as (h & H1 & H2). exists h. split; [done|]. rewrite H2. f_equal.
    case_decide as Ed; [done|]. symmetry. apply (update_data_lookup conf enc blks data (dp_stripe Hdp) x Hx).
    intros b Hb Hbx. apply Ed, Hall, roles_in. left. by exists b.
  - intros i Hi. destruct (decide (i = i0)) as [->|Hne].
    + destruct (pr_collector _ _ Hpr) as (h & H1 & H2). rewrite decide_True in H2 by by apply Hpar. by exists h.
    + destruct (pr_parity _ _ Hpr i Hi Hne) as (h & H1 & H2). rewrite decide_True in H2 by by apply Hpar. by exists h.
Qed.

Lemma pending_next D c : progress_of D c -> pending c <> [] -> exists c', step conf c c'.
Proof.
  intros Hpr Hne. apply (progress_next D c Hpr). destruct (pending c) as [|[ip cmd] l] eqn:E; [done|].
  destruct (pending_in D c ip cmd Hpr) as [Hout Hin]; [rewrite E; left|].
  apply (list_elem_of_fmap_2 fst) in Hin. rewrite plan_ips in Hin. cbn [fst] in Hin.
  apply list_elem_of_fmap in Hin as (x & -> & Hx). by exists x.
Qed.

Lemma blks_here : Forall (blk_here conf) blks.
Proof.
  apply Forall_forall. intros b Hb. destruct (home b Hb) as (Hh & Hk & Hid). split; [lia|]. rewrite Hh.
  destruct (so_helpers _ _ _ _ (dp_stripe Hdp)) as [[H1 H2] _]. apply list_elem_of_lookup_total_2. lia.
Qed.

(** The commands of [CrdUpdate] are the plan the nodes run. *)
Lemma crd_pushes rnd upd_cmd st :
  conf_ok conf enc rnd upd_cmd -> pushed st = [] -> rnd (draws st) mod Z.of_nat ecM = Z.of_nat i0 ->
  exists st', CrdUpdate conf enc rnd upd_cmd blks st = Ok st' /\ pushed st' = plan.
Proof.
  intros Hc Hst Hr. pose proof (dp_collector Hdp) as Hi0. pose proof (dp_fits Hdp) as Hfit.
  rewrite (CrdUpdate_run conf enc rnd upd_cmd blks st Hc blks_here (blks_ok _ _ _ _ (dp_stripe Hdp)) ltac:(lia)).
  rewrite bool_decide_true by exact Hfit. eexists. split; [done|]. unfold after. cbn [pushed].
  rewrite Hst, Hr. cbn [app]. do 2 f_equal. lia.
Qed.

(** C1: a crd update of a stripe, end to end.  The nodes hold a stripe whose
    parity blocks are the ones of its data; [CrdUpdate] sends its commands, and
    the nodes run them in any order the messages allow, with any timeouts.
    No run gets stuck and none is infinite: it can always go on until every
    command has run once.  Then the coordinator has got exactly the
    acknowledgement of every parity node it waits for, every data block is
    updated, the collector holds the new parity, and every other parity node the
    new parity on the announced ranges and the old one elsewhere ([ended]).  So
    if no subset is announced short ([announced_whole], as with one block per
    subset) the whole parity is that of the new data ([updated]); if one is, the
    bytes behind its announced range keep the old parity. *)
Theorem crd_cluster_converges rnd upd_cmd st hs :
  conf_ok conf enc rnd upd_cmd -> pushed st = [] -> rnd (draws st) mod Z.of_nat ecM = Z.of_nat i0 ->
  holds_stripe hs ->
  exists st', CrdUpdate conf enc rnd upd_cmd blks st = Ok st' /\
    length (pushed st') = (length blks + ecM)%nat /\
    forall n c, nsteps (step conf) n (mkCluster hs (pushed st') 0) c ->
      (n <= length blks + ecM)%nat /\
      ((n < length blks + ecM)%nat -> exists c', step conf c c') /\
      (n = (length blks + ecM)%nat -> ended c /\ (announced_whole -> updated c)).
Proof.
  intros Hc Hst Hr Hs. destruct (crd_pushes rnd upd_cmd st Hc Hst Hr) as (st' & Hrun & Hpush).
  exists st'. rewrite Hpush. split_and!; [done|apply length_plan|]. intros n c Hn.
  destruct (steps_progress n ∅ _ c (initial_progress hs Hs) Hn) as [[D Hpr] Hl].
  cbn [pending] in Hl. rewrite length_plan in Hl. split_and!; [lia| |].
  - intros Hlt. apply (pending_next D c Hpr). intros E. rewrite E in Hl. simpl in Hl. lia.
  - intros ->. assert (He : ended c) by (apply (progress_ends D c Hpr), length_zero_iff_nil; lia). split; [done|]. intros Hw. by apply ended_updated.
Qed.
End update.

(** ** Witness: the (4, 2) stripe of CrdStripe.v, from the first step on *)

Definition ex2_hosts : gmap Z host :=
  list_to_map [(11, mkHost {[ 0 := zeros 2048 ]} [] [] []); (12, mkHost {[ 1 := zeros 2048 ]} [] [] []);
               (13, mkHost {[ 2 := parity ex2_conf ex_enc ex2_data 0 ]} [] [] []);
               (14, mkHost {[ 3 := parity ex2_conf ex_enc ex2_data 1 ]} [] [] [])].

Lemma ex2_deployed : deployed ex2_conf ex_enc ex2_blks ex2_data 1.
Proof.
  split; [apply ex2_ok|decided|vm_compute; lia|discriminate|decided|decided].
Qed.

Lemma ex2_holds : holds_stripe ex2_conf ex_enc ex2_data ex2_hosts.
Proof.
  split.
  - intros [|[|x]] Hx; [eexists; split; reflexivity..|]. simpl in Hx. lia.
  - intros [|[|i]] Hi; [eexists; split_and!; reflexivity..|]. unfold _ecM in Hi. simpl in Hi. lia.
Qed.

Lemma crd_cluster_converges_witness :
  exists st', CrdUpdate ex2_conf ex_enc (fun _ => 1) (zeros 1024) ex2_blks (mkCoord 0 [] []) = Ok st' /\
    exists c', step ex2_conf (mkCluster ex2_hosts (pushed st') 0) c'.
Proof.
  destruct (crd_cluster_converges ex2_conf ex_enc ex2_blks ex2_data 1 ex2_deployed (fun _ => 1) (zeros 1024)
    (mkCoord 0 [] []) ex2_hosts) as (st' & H1 & _ & H2); [split_and!; [decided..|intros; lia]|reflexivity|reflexivity|apply ex2_holds|].
  exists st'. split; [exact H1|]. destruct (H2 0%nat _ (nsteps_O _ _)) as (_ & H3 & _). apply H3. vm_compute. lia.
Defined.
